(* ===== verification/_CoqProject ===== *)
-Q . S2P
Prelude.v
PyBytes.v
Base58.v
Sha256.v
Pda.v
PumpKernel.v
PumpFee.v
Submap.v
TxExpect.v
PumpOverlay.v
Accounts.v
TxBarrier.v
AuthRing.v
BankJournal.v
DlmmQuote.v
Recon.v
Shadow.v
Deps.v
ApplyN.v
State008.v
StateInv.v
StateSafe.v
StateRing.v
StateReady.v
Inventory.v
FillBin.v
FrameV1.v
AuthRead.v
TimerReplay.v
TimerShadow.v
PyVal.v
ExecGates.v
ExecFunnel.v
ExecTemplate.v
Oneshot.v
AltPlane.v
Recorder.v
HopsVector.v
HopsGolden.v
HopsProgram.v
HopsRoute.v
Closure.v
HopsPlane.v
HopsCheck.v
HopsMessage.v
RouteSnapshot.v
Rabbit.v
HopsRecover.v
TemplateAudit.v
Prearm.v
State007.v
