(* ===== verification/Prelude.v ===== *)
(** * sol-shred-arb in Rocq: the Python side

    The repository watches Solana shreds for swaps on Meteora DLMM and Pump AMM pools, keeps a
    coherent copy of the accounts that price the pools, looks for two-leg cycles between a DLMM
    pair and a Pump pool, and sends at most one prepared transaction for one of them.  The C
    programs do the hot path; the Python programs modelled here are the account plane, the
    reference kernels, the replays that judge them, and the executor.

    How the parts interact:
<<
      universe file --Submap--> subscriptions --Deps--> required accounts of a pool
                                                          |
      account updates, transactions --State008 (TxExpect, TxBarrier, PumpOverlay, ApplyN)
                                        |          |            |           |
                                   Accounts     Recon log    Shadow     BankJournal
                                        |          |         scores     bank evidence
                                        v          v
                              AuthRing (shm)   TimerReplay (AuthRead, DlmmQuote) --> openings
                                        |
                              journal rows --ExecGates--> ExecFunnel (read only)
                                                 |
                             AltPlane --------> Oneshot --ExecTemplate--> one transaction (FrameV1)
                                 |
                           TemplateAudit --> Prearm (may a shot be asked for)

      univ file --Closure--> routes --HopsPlane--> rows and templates --publish--> readiness
                               |                                                     ^
                        HopsRoute (HopsVector) --> accounts and payload       HopsRecover (sizes)
                               |                       |          |
                          HopsCheck               HopsMessage  HopsProgram --> swaps on chain
                               |                                  |
                    HopsRecover (simulate) <------- Custom(6) ----+
                               |
                    HopsGolden (failures, fixtures)
>>

    ** Files

    Shared: Prelude (notations, tactics, hint database [plane], [pyres] for code that raises, lists
    and ordered dicts), PyBytes (struct and slices), PyVal (scalars out of JSON).

    Kernels and formats:
    - Base58, Sha256, Pda: arb-cap/pump012/pump_fee.py and arb-cap/record_dlmm.py, the two copies
      of the base58 coders and of find_pda; Sha256 is hashlib's function, executable.
    - PumpKernel: arb-cap/pump012/pump_apply.py (apply_swap, invert_virtual); PumpFee: pump_fee.py;
      PumpOverlay: pump_overlay.py and arb-state/shyft/overlay_n.py.
    - DlmmQuote: arb-cap/timer_decay/dlmm_quote.py; Inventory, FillBin: arb-cap/dlmm_orders/
      (inventory, state011_draft, wire; fill_bin).
    - Accounts: parsers and snapshot writers of record_dlmm.py, live001.py, state008.py; AuthRead:
      the readers of what they write, arb-cap/timer_decay/auth_ro.py and replay.iter_recs.
    - FrameV1: arb-cap/frame_v1/parse.py.

    The account plane, arb-state/shyft/:
    - Submap (submap.py), TxExpect (txexpect.py), TxBarrier (txbarrier.py), AuthRing (authpub.py
      and the ring reader of auth_ro.py), BankJournal (bank_context.py), Recon (recon.py), Shadow
      (shadow.py), Deps (deps.py), ApplyN (apply_n.py);
    - State008 (state008.py): the record of the plane's state and one definition per method, in a
      state monad with exceptions; StateInv, StateSafe, StateRing, StateReady prove about it; State007
      (state007.py), the plane it replaced.

    Research and execution:
    - TimerReplay: arb-cap/timer_decay/replay.py; TimerShadow: timer_decay/shadow.py.
    - Recorder: arb-cap/record_dlmm.py.
    - ExecGates: arb-exec/scripts/exec_gates.py; ExecFunnel: arb-cap/exec_v1/exec_funnel.py;
      ExecTemplate: arb-exec/scripts/exec_live002b.py; Oneshot: arb-exec/scripts/oneshot_live.py;
      AltPlane: arb-exec/scripts/alt_plane.py; TemplateAudit, Prearm: the audit of its templates and
      the check before a shot, arb-cap/exec_v1/template_audit.py and prearm_check.py.

    Routes of two and three hops, arb-exec/scripts/:
    - HopsVector, HopsGolden: hops_vector.py; HopsRoute: hops_live.py's account vectors;
      HopsProgram: the payload (closure_gate.py) and arb-exec/program_hops/src/lib.rs, the on-chain
      program that reads it;
    - Closure: the enumeration of routes and its gate, closure_gate.py and fam6_gate.py;
      HopsPlane: hops_plane.py, publishing and the audit of hops_live.py;
    - HopsCheck: validate_vector; HopsMessage: hops_message.py and write_hurdle_h; HopsRecover:
      cmd_recover, cmd_sim7 and cmd_size of hops_live.py, with the lookup tables they plan.

    Apart: RouteSnapshot, the row and snapshot checks of route_snapshot.py; Rabbit, the race of two
    feeds in arb-feed/rabbit/rabbit001.py.

    A definition carries the name of the function it models where Rocq allows it; a class is a
    Record of its attributes and a method a function on it; a loop that mutates locals is a
    Fixpoint on them.  A raise is [Raise], a C struct or shared mapping is its bytes, and a store
    sequence that others can watch is the list of the stores.

    ** What the theorems show

    - The plane.  StateInv: a pool the plane calls coherent has all its required accounts.
      StateReady: from the first connection on, the ready word of the shared memory, the READY file and
      the plane's own flag agree, and they say ready only after a bootstrap of the running connection.
      StateSafe: a transaction publication needs the barrier's snapshot; no turn replaces a held
      account by an earlier write; a write takes the dependent pools out.  StateRing: what a reader of the shared
      memory gets for a pool is what the plane last published on this connection, a refinement
      through AuthRing's own theorems, where from an even sequence word on a torn entry is never read
      at any store of the writer.
      State007: what it publishes is what it holds and write versions never fall, but it stages by
      single writes, is not ready again after an RPC error, and is declared ready by slots alone.
    - The barrier, ring, journal, log and shadow gate, each for itself: exact commit sets, expiry,
      no entry of the trigger's own slot as predecessor, evidence only of the connection at hand,
      log and blob round trips, predictions accounted for.
    - The kernels: products that never fall, no profit from buy and sell, rounding bounds, exact
      inverses, the DLMM quote within its bins, the order-aware fill against a list of layers.
    - The framing parser: total on every input, a cut input is incomplete, round trips of
      legacy, v0 and v1 messages.
    - The replay: jobs fire in order and in time, each scheduled job is fired, dead or still in
      the heap, each opening is resolved.
    - The executor: a send needs every gate; the funnel's verdict is the gate's; a run shoots at
      most once and what it shoots is the framed transaction the row asked for, on the accounts
      the program expects; three lost triggers block a pool.  TemplateAudit: the audit decodes what
      AltPlane compiled to the route's accounts, simulates the bytes of the shot, and calls exactly
      the sound routes ready; Prearm: on such a report the check before a shot is exact.
    - The recorder and the control plane: a recorded triple is a swap of the pair between its two
      snapshots; packed lookup tables fit and the routes they pack compile.
    - Routes.  HopsRoute: the built vector and payload, run by the on-chain program, are the route
      itself, hop by hop on the hop's own accounts; they are well-formed.  HopsProgram: what
      settles has gained the least profit, over as many calls as the payload says.  HopsVector and
      HopsGolden: canonical addresses, nearest bin arrays, exact comparison, total explanations,
      fixtures that flatten back.  Closure: exactly the closed routes over distinct pools, each
      once.  HopsPlane: the template is the built payload's, and no run of compiler and publisher
      makes a row race ready that was not.  HopsCheck: what differs from the chain or the
      derivation is reported.  HopsMessage: the calls stay within the transaction's privileges,
      break-even is exact.  HopsRecover: an ok row rests on a clean vector, a transaction that fits
      and a Custom(6), a frozen fixture is never replaced, and a row that is not ok had every
      candidate refused; the size pass finds no route that fits.
    - RouteSnapshot: a row that passes executes at the snapshot, with exact token bytes and cycle
      amounts.  Rabbit: matched rows outlive the eviction, leads are differences of receipts of one
      transaction, the table is bounded and the counts add up.

    ** Bounds and fuel

    Loops without a structural measure take fuel that the callers compute from the input and that
    a lemma shows to be enough: base58 digits and bytes-to-int by the bit length, the search
    probes of the Pump kernel by the width of their interval, compact lists by the bytes left,
    find_pda by its 256 bumps, the DLMM walks by the 256 steps or the bins of the code itself.
    Integers are Z; a struct field out of its range raises as in the code, and 64- and 128-bit
    wrap-around is written where the code masks.

    ** Not modelled

    - The C and Rust programs (arb-core, arb-feed, arb-nic, programs) other than program_hops:
      another language.
    - RPC, gRPC, sockets, threads and clocks: arguments, environment records or events.  Thread
      interleaving inside the plane is at the granularity of its lock.
    - Command-line scripts that fetch, reduce or print (reduce_*, paper*, census, hist_funnel,
      decomp, expand_*, trigger*, feed tests, the exec_live CLIs, inventory and deploy): they hold
      no state the system depends on; PROJECT.json lists them one by one with the reason.
    - Floats (percentages, rates, wall-clock windows).

    ** Plan

    Left: arb-cap/state005/state006.py, the land check in front of the planes, and the reports over
    recorded corpora, in this order. *)
From stdpp Require Import base gmap strings list fin_maps.
From Stdlib Require Import ZArith Lia.

(** * Notation scope and automation of the development *)

Declare Scope py_scope.
Delimit Scope py_scope with py.
Open Scope Z_scope.

Create HintDb plane.

(** [py_cases] splits every test of the goal or of a hypothesis and cleans up. *)
Ltac py_cases :=
  repeat (case_match || case_decide); simplify_eq/=; try done.

(** Turn boolean comparisons on [Z] in the context into propositions. *)
Ltac zb :=
  repeat match goal with
  | H : (_ && _)%bool = true |- _ => apply andb_true_iff in H as [? ?]
  | H : (_ || _)%bool = false |- _ => apply orb_false_iff in H as [? ?]
  | H : negb _ = true |- _ => apply negb_true_iff in H
  | H : negb _ = false |- _ => apply negb_false_iff in H
  | H : (_ <=? _) = true |- _ => apply Z.leb_le in H
  | H : (_ <=? _) = false |- _ => apply Z.leb_gt in H
  | H : (_ <? _) = true |- _ => apply Z.ltb_lt in H
  | H : (_ <? _) = false |- _ => apply Z.ltb_ge in H
  | H : (_ =? _) = true |- _ => apply Z.eqb_eq in H
  | H : (_ =? _) = false |- _ => apply Z.eqb_neq in H
  | H : bool_decide _ = true |- _ => apply bool_decide_eq_true in H
  | H : bool_decide _ = false |- _ => apply bool_decide_eq_false in H
  end.

(** Case analysis on the outermost [if] of hypothesis [H], keeping the test. *)
Ltac if_in H :=
  match type of H with
  | context [if ?b then _ else _] => let E := fresh "E" in destruct b eqn:E
  end.

(** * Python results: a returned value or a raised exception *)

Inductive pyexn :=
  | ValueError (msg : string)
  | KeyError (key : string)
  | IndexError
  | StructError
  | TypeError
  | OverflowError
  | ZeroDivisionError
  | NotImplementedError (msg : string)
  | RuntimeError (msg : string)
  | AttributeError
  | AltPlaneMiss (msg : string)
  | SystemExit (msg : string).

#[export] Instance pyexn_eq_dec : EqDecision pyexn.
Proof. solve_decision. Defined.

Inductive pyres (A : Type) :=
  | Ret (a : A)
  | Raise (e : pyexn).
Arguments Ret {A} a.
Arguments Raise {A} e.

#[export] Instance pyres_eq_dec `{EqDecision A} : EqDecision (pyres A).
Proof. solve_decision. Defined.

Definition py_bind {A B} (m : pyres A) (f : A -> pyres B) : pyres B :=
  match m with
  | Ret a => f a
  | Raise e => Raise e
  end.

Notation "x <-! m ;; k" := (py_bind m (fun x => k))
  (at level 100, m at next level, right associativity) : py_scope.
Lemma py_bind_Ret {A B} (m : pyres A) (f : A -> pyres B) b :
  py_bind m f = Ret b <-> exists a, m = Ret a /\ f a = Ret b.
Proof. destruct m; simpl; naive_solver. Qed.

(** [x or 0] and [x or ""] on an optional value ([None] stands for a missing key as well as
    for Python's [None]; both are falsy). *)
Definition or0 (o : option Z) : Z := default 0 o.

(** * Lists *)

Lemma omap_concat {A B} (g : A -> option B) (ls : list (list A)) :
  omap g (concat ls) = concat ((fun l : list A => omap g l) <$> ls).
Proof.
  induction ls as [|l ls IH]; [done|]. rewrite fmap_cons. cbn [concat]. by rewrite omap_app, IH.
Qed.

Lemma elem_of_concat {A} (x : A) (ls : list (list A)) :
  x ∈ concat ls <-> exists l, x ∈ l /\ l ∈ ls.
Proof.
  rewrite list_elem_of_In, in_concat. setoid_rewrite list_elem_of_In. naive_solver.
Qed.

(** * Steps that may raise, over a list *)

Section steps.
Local Open Scope py_scope.

(** The results of a list of steps that may raise, joined. *)
Fixpoint collect_all {A B} (f : A -> pyres (list B)) (l : list A) : pyres (list B) :=
  match l with
  | [] => Ret []
  | x :: l' => r <-! f x ;; rest <-! collect_all f l' ;; Ret (r ++ rest)
  end.

(** Their results, one each. *)
Fixpoint py_map {A B} (f : A -> pyres B) (l : list A) : pyres (list B) :=
  match l with
  | [] => Ret []
  | x :: l' => y <-! f x ;; r <-! py_map f l' ;; Ret (y :: r)
  end.

Lemma collect_all_elem {A B} (f : A -> pyres (list B)) l rs x :
  collect_all f l = Ret rs -> x ∈ rs -> exists a ys, a ∈ l /\ f a = Ret ys /\ x ∈ ys.
Proof.
  revert rs. induction l as [|a l IH]; intros rs; cbn [collect_all].
  { intros [= <-] H. by apply elem_of_nil in H. }
  intros H Hx. apply py_bind_Ret in H as (ys & Hy & H). apply py_bind_Ret in H as (rest & Hr & [= <-]).
  apply elem_of_app in Hx as [Hx|Hx]; [exists a, ys; split; [by left|done]|].
  destruct (IH rest Hr Hx) as (b & zs & Hb & ?). exists b, zs. split; [by right|done].
Qed.

Lemma collect_all_ret {A B} (f : A -> pyres (list B)) l rs a :
  collect_all f l = Ret rs -> a ∈ l -> exists ys, f a = Ret ys.
Proof.
  revert rs. induction l as [|x l IH]; intros rs; cbn [collect_all]; [intros _ H; by apply elem_of_nil in H|].
  intros H Ha. apply py_bind_Ret in H as (y & Hy & H). apply py_bind_Ret in H as (rest & Hr & _).
  apply elem_of_cons in Ha as [->|Ha]; [by exists y|by eapply IH].
Qed.

Lemma collect_all_iff {A B} (f : A -> pyres (list B)) l rs x :
  collect_all f l = Ret rs -> x ∈ rs <-> exists a ys, a ∈ l /\ f a = Ret ys /\ x ∈ ys.
Proof.
  intros H. split; [by apply collect_all_elem|]. revert rs H. induction l as [|a l IH]; intros rs; cbn [collect_all].
  { intros _ (? & ? & H & _). by apply elem_of_nil in H. }
  intros H (b & ys & Hb & Hf & Hx). apply py_bind_Ret in H as (y & Hy & H). apply py_bind_Ret in H as (rest & Hr & [= <-]).
  apply elem_of_app. apply elem_of_cons in Hb as [->|Hb]; [left; congruence|right]. apply (IH rest Hr). by exists b, ys.
Qed.

Lemma py_map_length {A B} (f : A -> pyres B) l r : py_map f l = Ret r -> length r = length l.
Proof.
  revert r. induction l as [|x l IH]; intros r; cbn [py_map]; [by intros [= <-]|].
  intros H. apply py_bind_Ret in H as (y & _ & H). apply py_bind_Ret in H as (ys & Hy & [= <-]).
  cbn [length]. by rewrite (IH ys Hy).
Qed.

Lemma py_map_lookup {A B} (f : A -> pyres B) l r i y :
  py_map f l = Ret r -> r !! i = Some y -> exists x, l !! i = Some x /\ f x = Ret y.
Proof.
  revert r i. induction l as [|x l IH]; intros r i; cbn [py_map]; [by intros [= <-]|].
  intros H. apply py_bind_Ret in H as (y' & Hy & H). apply py_bind_Ret in H as (ys & Hys & [= <-]).
  destruct i as [|i]; cbn; [intros [= <-]; by exists x|]. by apply IH.
Qed.

(** A loop whose body updates a state or raises. *)
Fixpoint py_foldl {A S} (f : S -> A -> pyres S) (s : S) (l : list A) : pyres S :=
  match l with
  | [] => Ret s
  | x :: l' => s' <-! f s x ;; py_foldl f s' l'
  end.

Lemma py_foldl_inv {A S} (P : S -> Prop) (f : S -> A -> pyres S) (l : list A) s s' :
  (forall x s1 s2, x ∈ l -> P s1 -> f s1 x = Ret s2 -> P s2) -> P s -> py_foldl f s l = Ret s' -> P s'.
Proof.
  revert s. induction l as [|x l IH]; intros s Hf Hs; cbn [py_foldl]; [by intros [= <-]|].
  intros H. apply py_bind_Ret in H as (s1 & H1 & H). apply (IH s1); [|by eapply Hf; [left|..]|done].
  intros y s2 s3 Hy. apply Hf. by right.
Qed.
End steps.

(** * Integer lemmas the kernels share *)

(** [n // d + (1 if n % d else 0)], the ceiling division of pump_apply, pump_fee and
    dlmm_quote. *)
Definition ceil_div (n d : Z) : Z := n / d + (if n mod d =? 0 then 0 else 1).

Lemma ceil_div_spec n d : 0 < d -> d * (ceil_div n d - 1) < n <= d * ceil_div n d.
Proof.
  intros Hd. unfold ceil_div.
  pose proof (Z.div_mod n d ltac:(lia)) as E.
  pose proof (Z.mod_pos_bound n d Hd).
  destruct (Z.eqb_spec (n mod d) 0); nia.
Qed.

Lemma ceil_div_unique n d q : 0 < d -> d * (q - 1) < n <= d * q -> q = ceil_div n d.
Proof. intros Hd Hq. pose proof (ceil_div_spec n d Hd). nia. Qed.

Lemma ceil_div_nonneg n d : 0 < d -> 0 <= n -> 0 <= ceil_div n d.
Proof. intros Hd Hn. pose proof (ceil_div_spec n d Hd). nia. Qed.

Lemma ceil_div_mono n m d : 0 < d -> n <= m -> ceil_div n d <= ceil_div m d.
Proof.
  intros Hd Hn. pose proof (ceil_div_spec n d Hd). pose proof (ceil_div_spec m d Hd). nia.
Qed.

Lemma div_bounds n d : 0 < d -> d * (n / d) <= n < d * (n / d) + d.
Proof.
  intros Hd. pose proof (Z.div_mod n d ltac:(lia)). pose proof (Z.mod_pos_bound n d Hd). lia.
Qed.

(** * Python's insertion-ordered dict

    Lookups, in-place update or append, [setdefault], [pop] and the "pop the oldest while
    longer than the cap" loop.  Used where the code iterates a dict or evicts its first key. *)

Section odict.
Context {K V : Type} `{EqDecision K}.
Implicit Types d : list (K * V).

Fixpoint od_get (d : list (K * V)) (k : K) : option V :=
  match d with
  | [] => None
  | (k', v) :: d' => if decide (k = k') then Some v else od_get d' k
  end.

Fixpoint od_set (d : list (K * V)) (k : K) (v : V) : list (K * V) :=
  match d with
  | [] => [(k, v)]
  | (k', v') :: d' => if decide (k = k') then (k', v) :: d' else (k', v') :: od_set d' k v
  end.

Definition od_setdefault d (k : K) (v : V) : list (K * V) :=
  match od_get d k with
  | Some _ => d
  | None => od_set d k v
  end.

Fixpoint od_pop (d : list (K * V)) (k : K) : list (K * V) :=
  match d with
  | [] => []
  | (k', v') :: d' => if decide (k = k') then d' else (k', v') :: od_pop d' k
  end.

Definition od_keys d : list K := d.*1.

(** [while len(d) > cap: d.pop(next(iter(d)))] *)
Definition od_evict (cap : nat) d : list (K * V) := drop (length d - cap) d.

Lemma od_get_set_eq d k v : od_get (od_set d k v) k = Some v.
Proof. induction d as [|[k' v'] d IH]; simpl; repeat case_decide; simpl; by repeat case_decide. Qed.

Lemma od_get_set_ne d k k' v : k <> k' -> od_get (od_set d k v) k' = od_get d k'.
Proof.
  intros Hne. induction d as [|[k0 v0] d IH]; simpl; repeat (case_decide; simpl); congruence.
Qed.

Lemma od_get_set d k k' v :
  od_get (od_set d k v) k' = if decide (k = k') then Some v else od_get d k'.
Proof. case_decide; subst; [apply od_get_set_eq | by apply od_get_set_ne]. Qed.

Lemma od_get_pop_ne d k k' : k <> k' -> od_get (od_pop d k) k' = od_get d k'.
Proof.
  intros Hne. induction d as [|[k0 v0] d IH]; simpl; repeat (case_decide; simpl); congruence.
Qed.

Lemma od_get_None d k : od_get d k = None <-> k ∉ od_keys d.
Proof.
  unfold od_keys. induction d as [|[k0 v0] d IH]; simpl.
  - split; [intros _ Hin; by apply elem_of_nil in Hin | done].
  - rewrite not_elem_of_cons. case_decide; [naive_solver|]. rewrite IH. naive_solver.
Qed.

Lemma od_get_Some_key d k v : od_get d k = Some v -> k ∈ od_keys d.
Proof.
  intros Hg. destruct (decide (k ∈ od_keys d)) as [|Hn]; [done|].
  apply od_get_None in Hn. congruence.
Qed.

Lemma od_key_is_Some d k : k ∈ od_keys d <-> is_Some (od_get d k).
Proof.
  destruct (od_get d k) as [v|] eqn:E; split; try done.
  - intros _. by eapply od_get_Some_key.
  - intros H. by apply od_get_None in E.
Qed.

Lemma od_get_elem d k v : od_get d k = Some v -> (k, v) ∈ d.
Proof.
  induction d as [|[k0 v0] d IH]; simpl; [done|]. rewrite elem_of_cons.
  case_decide; naive_solver.
Qed.

Lemma od_get_elem_2 d k v : NoDup (od_keys d) -> (k, v) ∈ d -> od_get d k = Some v.
Proof.
  unfold od_keys. induction d as [|[k0 v0] d IH]; simpl; intros Hnd Hin.
  - by apply elem_of_nil in Hin.
  - apply NoDup_cons in Hnd as [Hn Hnd]. apply elem_of_cons in Hin as [[= -> ->]|Hin].
    + by rewrite decide_True.
    + case_decide; [|by apply IH]. subst. destruct Hn. apply list_elem_of_fmap. by exists (k0, v).
Qed.

Lemma od_keys_set d k v :
  od_keys (od_set d k v) = if decide (k ∈ od_keys d) then od_keys d else od_keys d ++ [k].
Proof.
  unfold od_keys. induction d as [|[k0 v0] d IH]; [done|]. rewrite !fmap_cons. cbn [od_set].
  destruct (decide (k = k0)) as [Hk|Hk].
  - subst. rewrite decide_True; [done|]. apply list_elem_of_here.
  - rewrite fmap_cons, IH. cbn [fst]. destruct (decide (k ∈ d.*1)) as [Hin|Hin].
    + rewrite decide_True; [done|]. by apply list_elem_of_further.
    + rewrite decide_False; [done|]. rewrite not_elem_of_cons. naive_solver.
Qed.

Lemma od_nodup_set d k v : NoDup (od_keys d) -> NoDup (od_keys (od_set d k v)).
Proof.
  intros Hnd. rewrite od_keys_set. case_decide as Hk; [done|].
  apply NoDup_app. split; [done|]. split; [|apply NoDup_singleton].
  intros x Hx Hx'. apply list_elem_of_singleton in Hx'. by subst.
Qed.

Lemma od_nodup_setdefault d k v :
  NoDup (od_keys d) -> NoDup (od_keys (od_setdefault d k v)).
Proof. intros Hnd. unfold od_setdefault. case_match; [done|]. by apply od_nodup_set. Qed.

Lemma od_keys_pop_sub d k x : x ∈ od_keys (od_pop d k) -> x ∈ od_keys d.
Proof.
  unfold od_keys. induction d as [|[k0 v0] d IH]; simpl; [done|].
  case_decide; simpl; rewrite !elem_of_cons; naive_solver.
Qed.

Lemma od_nodup_pop d k : NoDup (od_keys d) -> NoDup (od_keys (od_pop d k)).
Proof.
  induction d as [|[k0 v0] d IH]; simpl; [done|].
  intros Hnd. apply NoDup_cons in Hnd as [Hn Hnd]. case_decide; [done|].
  apply NoDup_cons. split; [|by apply IH]. intros Hin. by apply od_keys_pop_sub in Hin.
Qed.

Lemma od_get_pop_eq d k : NoDup (od_keys d) -> od_get (od_pop d k) k = None.
Proof.
  induction d as [|[k0 v0] d IH]; simpl; [done|].
  intros Hnd. apply NoDup_cons in Hnd as [Hn Hnd]. case_decide as Hk; subst.
  - by apply od_get_None.
  - simpl. rewrite decide_False by done. by apply IH.
Qed.

Lemma length_od_evict cap d : (length (od_evict cap d) <= cap)%nat.
Proof. unfold od_evict. rewrite length_drop. lia. Qed.

Lemma od_evict_id cap d : (length d <= cap)%nat -> od_evict cap d = d.
Proof. intros Hl. unfold od_evict. by replace (length d - cap)%nat with 0%nat by lia. Qed.

Lemma length_od_set d k v :
  length (od_set d k v) = (if decide (k ∈ od_keys d) then length d else S (length d))%nat.
Proof.
  rewrite <- (length_fmap fst), <- (length_fmap fst d).
  change (fst <$> od_set d k v) with (od_keys (od_set d k v)). rewrite od_keys_set.
  case_decide; [done|]. rewrite length_app. simpl. change (od_keys d) with (d.*1). lia.
Qed.

Lemma od_nodup_evict cap d : NoDup (od_keys d) -> NoDup (od_keys (od_evict cap d)).
Proof.
  unfold od_keys, od_evict. rewrite fmap_drop. intros Hnd. eapply sublist_NoDup; [done|].
  apply sublist_drop.
Qed.

Lemma od_get_evict_Some cap d k v :
  NoDup (od_keys d) -> od_get (od_evict cap d) k = Some v -> od_get d k = Some v.
Proof.
  intros Hnd Hg. apply od_get_elem in Hg. apply od_get_elem_2; [done|].
  unfold od_evict in Hg. rewrite <- (take_drop (length d - cap) d). apply elem_of_app. by right.
Qed.

Lemma od_get_pop_Some d k k' v :
  NoDup (od_keys d) -> od_get (od_pop d k) k' = Some v -> k <> k' /\ od_get d k' = Some v.
Proof.
  intros Hnd Hg. destruct (decide (k = k')) as [->|Hne].
  - by rewrite od_get_pop_eq in Hg.
  - by rewrite od_get_pop_ne in Hg.
Qed.

Lemma length_od_pop d k : (length (od_pop d k) <= length d)%nat.
Proof. induction d as [|[k0 v0] d IH]; simpl; [done|]. case_decide; simpl; lia. Qed.

Lemma od_elem_get d k v : NoDup (od_keys d) -> (k, v) ∈ d <-> od_get d k = Some v.
Proof. split; [by apply od_get_elem_2|apply od_get_elem]. Qed.
End odict.

#[export] Hint Resolve od_nodup_set od_nodup_setdefault od_nodup_pop od_nodup_evict : plane.

(** * The integer binary search of [apply_buy_exact_out] and [invert_virtual]

    [while lo <= hi: mid = (lo + hi) // 2; ...] where the body stops at [mid], raises [lo] or
    lowers [hi].  The outer [None] is "out of fuel", the inner one "not found". *)

Inductive probe := Hit | GoUp | GoDown.

Fixpoint bsearch (f : Z -> probe) (fuel : nat) (lo hi : Z) : option (option Z) :=
  if hi <? lo then Some None else
  match fuel with
  | O => None
  | S n =>
      let mid := (lo + hi) / 2 in
      match f mid with
      | Hit => Some (Some mid)
      | GoUp => bsearch f n (mid + 1) hi
      | GoDown => bsearch f n lo (mid - 1)
      end
  end.

(** Enough iterations for the interval [lo..hi]: each one at least halves it. *)
Definition bs_fuel (lo hi : Z) : nat := S (Z.to_nat (Z.log2 (hi - lo + 1))).

Lemma bsearch_fuel_enough f n lo hi :
  hi - lo + 1 < 2 ^ Z.of_nat n -> exists r, bsearch f n lo hi = Some r.
Proof.
  revert lo hi. induction n as [|n IH]; intros lo hi Hs; cbn [bsearch].
  - destruct (Z.ltb_spec hi lo); [eauto|]. simpl in Hs. lia.
  - destruct (Z.ltb_spec hi lo); [eauto|].
    rewrite Nat2Z.inj_succ, Z.pow_succ_r in Hs by lia.
    pose proof (div_bounds (lo + hi) 2 ltac:(lia)).
    destruct (f _); [eauto|apply IH; lia|apply IH; lia].
Qed.

Lemma bs_fuel_enough f lo hi : exists r, bsearch f (bs_fuel lo hi) lo hi = Some r.
Proof.
  apply bsearch_fuel_enough. unfold bs_fuel.
  destruct (Z.le_gt_cases (hi - lo + 1) 0) as [Hle|Hgt].
  - rewrite Z.log2_nonpos by lia. simpl. lia.
  - rewrite Nat2Z.inj_succ, Z2Nat.id by apply Z.log2_nonneg.
    apply Z.log2_spec. lia.
Qed.

(** The search with its own bound as fuel. *)
Definition bsearch_run (f : Z -> probe) (lo hi : Z) : option Z :=
  match bsearch f (bs_fuel lo hi) lo hi with
  | Some r => r
  | None => None
  end.

Lemma bsearch_sound f n lo hi m :
  bsearch f n lo hi = Some (Some m) -> lo <= m <= hi /\ f m = Hit.
Proof.
  revert lo hi. induction n as [|n IH]; intros lo hi; cbn [bsearch];
    destruct (Z.ltb_spec hi lo) as [|Hle]; intros Hb; try discriminate Hb.
  pose proof (div_bounds (lo + hi) 2 ltac:(lia)).
  destruct (f ((lo + hi) / 2)) eqn:Ef.
  - injection Hb as <-. split; [lia|done].
  - apply IH in Hb as [? ?]. split; [lia|done].
  - apply IH in Hb as [? ?]. split; [lia|done].
Qed.

Lemma bsearch_run_sound f lo hi m :
  bsearch_run f lo hi = Some m -> lo <= m <= hi /\ f m = Hit.
Proof.
  unfold bsearch_run. destruct (bs_fuel_enough f lo hi) as [r Hr]. rewrite Hr.
  intros ->. by eapply bsearch_sound.
Qed.

(** A target that the probe never steers away from is found. *)
Lemma bsearch_complete f n lo hi t :
  lo <= t <= hi -> hi - lo + 1 < 2 ^ Z.of_nat n ->
  (forall m, lo <= m <= hi -> f m = GoUp -> m < t) ->
  (forall m, lo <= m <= hi -> f m = GoDown -> t < m) ->
  exists m, bsearch f n lo hi = Some (Some m).
Proof.
  revert lo hi. induction n as [|n IH]; intros lo hi Ht Hs Hup Hdn; cbn [bsearch];
    (destruct (Z.ltb_spec hi lo); [lia|]).
  - simpl in Hs. lia.
  - rewrite Nat2Z.inj_succ, Z.pow_succ_r in Hs by lia.
    pose proof (div_bounds (lo + hi) 2 ltac:(lia)).
    destruct (f _) eqn:Ef; [eauto|..].
    + assert ((lo + hi) / 2 < t) by (apply Hup; [lia|done]).
      apply IH; [lia|lia|..]; intros m Hm; [apply Hup|apply Hdn]; lia.
    + assert (t < (lo + hi) / 2) by (apply Hdn; [lia|done]).
      apply IH; [lia|lia|..]; intros m Hm; [apply Hup|apply Hdn]; lia.
Qed.

Lemma bsearch_run_complete f lo hi t :
  lo <= t <= hi ->
  (forall m, lo <= m <= hi -> f m = GoUp -> m < t) ->
  (forall m, lo <= m <= hi -> f m = GoDown -> t < m) ->
  exists m, bsearch_run f lo hi = Some m.
Proof.
  intros Ht Hup Hdn. unfold bsearch_run, bs_fuel.
  edestruct (bsearch_complete f (S (Z.to_nat (Z.log2 (hi - lo + 1)))) lo hi t) as [m ->]; eauto.
  rewrite Nat2Z.inj_succ, Z2Nat.id by apply Z.log2_nonneg. apply Z.log2_spec. lia.
Qed.
