(* ===== verification/PyBytes.v ===== *)
(** Byte strings and the parts of Python's [struct] and [int.from_bytes] the sources use:
    little-endian fields of a width in bytes, two's-complement signed fields, slices.

    A byte string is a [list Z] whose elements satisfy [is_bytes]. *)
From stdpp Require Import base list.
From Stdlib Require Import ZArith Lia.
From S2P Require Import Prelude.
Open Scope Z_scope.

Abbreviation bytes := (list Z).

Definition is_byte (b : Z) : Prop := 0 <= b < 256.
Definition is_bytes (l : bytes) : Prop := Forall is_byte l.

#[export] Instance is_byte_dec b : Decision (is_byte b).
Proof. unfold is_byte. apply _. Defined.
#[export] Instance is_bytes_dec l : Decision (is_bytes l).
Proof. unfold is_bytes. apply _. Defined.

Definition blen (l : bytes) : Z := Z.of_nat (length l).

(** [raw[a:b]] for nonnegative bounds: Python clips both to the length. *)
Definition slice (a b : Z) (l : bytes) : bytes :=
  take (Z.to_nat (b - a)) (drop (Z.to_nat a) l).

(** [raw[i]] for a nonnegative index. *)
Definition py_index (l : bytes) (i : Z) : pyres Z :=
  match l !! Z.to_nat i with
  | Some b => Ret b
  | None => Raise IndexError
  end.

(** [int.from_bytes(l, "little")] *)
Fixpoint le_dec (l : bytes) : Z :=
  match l with
  | [] => 0
  | b :: l' => b + 256 * le_dec l'
  end.

(** [int.from_bytes(l, "big")] *)
Definition be_dec (l : bytes) : Z := le_dec (reverse l).

Fixpoint le_enc (n : nat) (z : Z) : bytes :=
  match n with
  | O => []
  | S n' => z mod 256 :: le_enc n' (z / 256)
  end.

(** [z.to_bytes(n, "big")] *)
Definition be_enc (n : nat) (z : Z) : bytes := reverse (le_enc n z).

(** The value of a two's-complement field of [n] bytes. *)
Definition to_signed (n : nat) (z : Z) : Z :=
  if z <? 2 ^ (8 * Z.of_nat n - 1) then z else z - 2 ^ (8 * Z.of_nat n).

(** [struct.unpack_from("<B/H/I/Q", raw, off)] by field width. *)
Definition unpack_u (n : nat) (raw : bytes) (off : Z) : pyres Z :=
  if off + Z.of_nat n <=? blen raw
  then Ret (le_dec (slice off (off + Z.of_nat n) raw))
  else Raise StructError.

Definition unpack_s (n : nat) (raw : bytes) (off : Z) : pyres Z :=
  py_bind (unpack_u n raw off) (fun z => Ret (to_signed n z)).

(** [struct.pack("<B/H/I/Q", z)]: a value out of range raises [struct.error]. *)
Definition pack_u (n : nat) (z : Z) : pyres bytes :=
  if (0 <=? z) && (z <? 2 ^ (8 * Z.of_nat n)) then Ret (le_enc n z) else Raise StructError.

Definition pack_s (n : nat) (z : Z) : pyres bytes :=
  if (- 2 ^ (8 * Z.of_nat n - 1) <=? z) && (z <? 2 ^ (8 * Z.of_nat n - 1))
  then Ret (le_enc n z) else Raise StructError.

(** * Lengths and ranges *)

Lemma length_le_enc n z : length (le_enc n z) = n.
Proof. revert z. induction n as [|n IH]; intros z; simpl; [done|]. by rewrite IH. Qed.

Lemma is_bytes_le_enc n z : is_bytes (le_enc n z).
Proof.
  revert z. induction n as [|n IH]; intros z; simpl; constructor; [|apply IH].
  unfold is_byte. apply Z.mod_pos_bound. lia.
Qed.

Lemma is_bytes_app l1 l2 : is_bytes (l1 ++ l2) <-> is_bytes l1 /\ is_bytes l2.
Proof. apply Forall_app. Qed.

Lemma is_bytes_slice a b l : is_bytes l -> is_bytes (slice a b l).
Proof. intros H. by apply Forall_take, Forall_drop. Qed.

Lemma pow256_succ n : 2 ^ (8 * Z.of_nat (S n)) = 256 * 2 ^ (8 * Z.of_nat n).
Proof.
  replace (8 * Z.of_nat (S n)) with (8 + 8 * Z.of_nat n) by lia.
  rewrite Z.pow_add_r by lia. done.
Qed.

Lemma le_dec_bound l : is_bytes l -> 0 <= le_dec l < 2 ^ (8 * Z.of_nat (length l)).
Proof.
  induction 1 as [|b l Hb _ IH]; [by simpl|].
  cbn [length le_dec]. rewrite pow256_succ. unfold is_byte in Hb. lia.
Qed.

Lemma length_slice a b l :
  0 <= a <= b -> b <= blen l -> length (slice a b l) = Z.to_nat (b - a).
Proof. unfold slice, blen. intros. rewrite length_take, length_drop. lia. Qed.

(** * Round trips *)

Lemma le_dec_enc n z : le_dec (le_enc n z) = z mod 2 ^ (8 * Z.of_nat n).
Proof.
  revert z. induction n as [|n IH]; intros z; cbn [le_enc le_dec].
  - by rewrite Z.mod_1_r.
  - rewrite IH, pow256_succ, Z.rem_mul_r by (try apply Z.pow_nonzero; lia). lia.
Qed.

Lemma le_dec_enc_small n z : 0 <= z < 2 ^ (8 * Z.of_nat n) -> le_dec (le_enc n z) = z.
Proof. intros. rewrite le_dec_enc. by apply Z.mod_small. Qed.

Lemma pack_u_small z : 0 <= z < 2 ^ 64 -> pack_u 8 z = Ret (le_enc 8 z).
Proof.
  intros H. unfold pack_u. change (2 ^ (8 * Z.of_nat 8)) with (2 ^ 64).
  destruct (Z.leb_spec 0 z); [|lia]. by destruct (Z.ltb_spec z (2 ^ 64)); [|lia].
Qed.

Lemma le_enc_dec l : is_bytes l -> le_enc (length l) (le_dec l) = l.
Proof.
  induction 1 as [|b l Hb _ IH]; [done|]. cbn [length le_dec le_enc]. unfold is_byte in Hb.
  rewrite (Z.mul_comm 256). f_equal.
  - rewrite Z.mod_add by lia. by apply Z.mod_small.
  - rewrite Z.div_add, Z.div_small by lia. by rewrite Z.add_0_l.
Qed.

Lemma le_dec_inj l1 l2 :
  is_bytes l1 -> is_bytes l2 -> length l1 = length l2 -> le_dec l1 = le_dec l2 -> l1 = l2.
Proof.
  intros H1 H2 Hl He. rewrite <- (le_enc_dec l1 H1), <- (le_enc_dec l2 H2). by rewrite Hl, He.
Qed.

Lemma le_dec_app l1 l2 :
  le_dec (l1 ++ l2) = le_dec l1 + 2 ^ (8 * Z.of_nat (length l1)) * le_dec l2.
Proof.
  induction l1 as [|b l1 IH]; [cbn; lia|].
  cbn [app length le_dec]. rewrite IH, pow256_succ. lia.
Qed.

Lemma le_dec_zeros n : le_dec (replicate n 0) = 0.
Proof. induction n as [|n IH]; [done|]. cbn [replicate le_dec]. lia. Qed.

Lemma to_signed_enc n z : (0 < n)%nat ->
  - 2 ^ (8 * Z.of_nat n - 1) <= z < 2 ^ (8 * Z.of_nat n - 1) ->
  to_signed n (le_dec (le_enc n z)) = z.
Proof.
  intros Hn Hz. rewrite le_dec_enc. unfold to_signed.
  assert (Hp : 2 ^ (8 * Z.of_nat n) = 2 * 2 ^ (8 * Z.of_nat n - 1))
    by (rewrite <- Z.pow_succ_r by lia; f_equal; lia).
  set (h := 2 ^ (8 * Z.of_nat n - 1)) in *. rewrite Hp.
  destruct (Z.le_gt_cases 0 z).
  - rewrite Z.mod_small by lia. destruct (Z.ltb_spec z h); lia.
  - rewrite <- (Z.mod_add z 1 (2 * h)), Z.mod_small by lia.
    destruct (Z.ltb_spec (z + 1 * (2 * h)) h); lia.
Qed.

(** Reading a field back from the middle of a buffer. *)
Lemma slice_middle a l1 l2 l3 :
  a = blen l1 -> slice a (a + blen l2) (l1 ++ l2 ++ l3) = l2.
Proof.
  intros ->. unfold slice, blen. rewrite Nat2Z.id, drop_app_length.
  replace (Z.to_nat _) with (length l2) by lia. by rewrite take_app_length.
Qed.

Lemma unpack_u_middle n l1 z l3 :
  0 <= z < 2 ^ (8 * Z.of_nat n) ->
  unpack_u n (l1 ++ le_enc n z ++ l3) (blen l1) = Ret z.
Proof.
  intros Hz. unfold unpack_u.
  assert (El : Z.of_nat n = blen (le_enc n z)) by (unfold blen; by rewrite length_le_enc).
  destruct (Z.leb_spec (blen l1 + Z.of_nat n) (blen (l1 ++ le_enc n z ++ l3))) as [|Hgt].
  - rewrite El, slice_middle by done. by rewrite le_dec_enc_small.
  - unfold blen in Hgt. rewrite !length_app, length_le_enc in Hgt. lia.
Qed.

Lemma slice_at a b l1 l2 l3 :
  a = blen l1 -> b = a + blen l2 -> slice a b (l1 ++ l2 ++ l3) = l2.
Proof. intros Ha ->. by apply slice_middle. Qed.

Lemma blen_app l1 l2 : blen (l1 ++ l2) = blen l1 + blen l2.
Proof. unfold blen. rewrite length_app. lia. Qed.

Lemma blen_le_enc n z : blen (le_enc n z) = Z.of_nat n.
Proof. unfold blen. by rewrite length_le_enc. Qed.

(** Reading a field that starts where a known prefix ends. *)
Lemma unpack_u_at n l1 z l3 off :
  off = blen l1 -> 0 <= z < 2 ^ (8 * Z.of_nat n) ->
  unpack_u n (l1 ++ le_enc n z ++ l3) off = Ret z.
Proof. intros ->. apply unpack_u_middle. Qed.

#[export] Hint Resolve is_bytes_le_enc is_bytes_slice : plane.
#[export] Hint Rewrite length_le_enc : plane.
