(* ===== verification/Base58.v ===== *)
(** Base58 as arb-cap/pump012/pump_fee.py ([b58encode], [b58decode_any], [b58decode]) and
    arb-cap/record_dlmm.py ([_pk], [b58decode], [_b58_any]) write it: the two files carry the
    same code, modelled once. *)
From stdpp Require Import base list strings.
From Stdlib Require Import ZArith Lia Ascii.
From Stdlib Require String.
From S2P Require Import Prelude PyBytes.
Open Scope Z_scope.

Definition B58 : string := "123456789ABCDEFGHJKLMNPQRSTUVWXYZabcdefghijkmnopqrstuvwxyz".

Definition b58_alphabet : list ascii := Eval cbv in String.list_ascii_of_string B58.

(** [B58[r]] *)
Definition b58_char (r : Z) : ascii := nth (Z.to_nat r) b58_alphabet "1"%char.

(** [B58.index(c)] *)
Fixpoint index_from (l : list ascii) (c : ascii) (i : Z) : pyres Z :=
  match l with
  | [] => Raise (ValueError "substring not found")
  | c' :: l' => if Ascii.eqb c c' then Ret i else index_from l' c (i + 1)
  end.

Definition b58_index (c : ascii) : pyres Z := index_from b58_alphabet c 0.

(** [for c in s: n = n * 58 + B58.index(c)] *)
Fixpoint b58_value (s : list ascii) (n : Z) : pyres Z :=
  match s with
  | [] => Ret n
  | c :: s' => py_bind (b58_index c) (fun i => b58_value s' (n * 58 + i))
  end.

(** The count of leading elements that satisfy [p] (the two [pad] loops). *)
Fixpoint leading {A} (p : A -> bool) (l : list A) : nat :=
  match l with
  | [] => O
  | x :: l' => if p x then S (leading p l') else O
  end.

(** [(n.bit_length() + 7) // 8] *)
Definition bit_length (n : Z) : Z := if n =? 0 then 0 else Z.log2 n + 1.
Definition byte_length (n : Z) : nat := Z.to_nat ((bit_length n + 7) / 8).

Definition b58decode_any (s : string) : pyres bytes :=
  let cs := String.list_ascii_of_string s in
  py_bind (b58_value cs 0) (fun n =>
    let pad := leading (Ascii.eqb "1"%char) cs in
    let h := if n =? 0 then [] else be_enc (byte_length n) n in
    Ret (replicate pad 0 ++ h)).

(** [raw[-32:] if len(raw) >= 32 else raw.rjust(32, b"\x00")] *)
Definition fit32 (raw : bytes) : bytes :=
  if (32 <=? length raw)%nat then drop (length raw - 32) raw
  else replicate (32 - length raw) 0 ++ raw.

Definition b58decode (s : string) : pyres bytes :=
  py_bind (b58decode_any s) (fun raw => Ret (fit32 raw)).

(** [while n: n, r = divmod(n, 58); out = B58[r] + out]; each turn shrinks [n]. *)
Fixpoint b58_digits (fuel : nat) (n : Z) (out : list ascii) : list ascii :=
  match fuel with
  | O => out
  | S fuel' => if n =? 0 then out else b58_digits fuel' (n / 58) (b58_char (n mod 58) :: out)
  end.

Definition b58_fuel (n : Z) : nat := S (Z.to_nat (Z.log2 n)).

Definition b58encode (raw : bytes) : string :=
  let n := be_dec raw in
  let out := b58_digits (b58_fuel n) n [] in
  let pad := leading (Z.eqb 0) raw in
  String.string_of_list_ascii
    (replicate pad "1"%char ++ match out with [] => ["1"%char] | _ => out end).

Definition ZERO32 : bytes := replicate 32 0.

(** * The alphabet *)

Lemma b58_index_char r : 0 <= r < 58 -> b58_index (b58_char r) = Ret r.
Proof.
  intros Hr.
  assert (Hall : forallb (fun k => match b58_index (b58_char (Z.of_nat k)) with
                  | Ret i => i =? Z.of_nat k | Raise _ => false end) (seq 0 58) = true)
    by (vm_compute; reflexivity).
  rewrite forallb_forall in Hall. specialize (Hall (Z.to_nat r)).
  rewrite Z2Nat.id in Hall by lia.
  assert (Hin : List.In (Z.to_nat r) (seq 0 58)) by (apply List.in_seq; lia).
  specialize (Hall Hin). destruct (b58_index (b58_char r)); [|done]. f_equal. lia.
Qed.

Lemma b58_char_one r : 0 <= r < 58 -> Ascii.eqb "1"%char (b58_char r) = (r =? 0).
Proof.
  intros Hr. destruct (Z.eqb_spec r 0) as [->|Hne]; [done|].
  destruct (Ascii.eqb_spec "1"%char (b58_char r)) as [E|]; [|done].
  pose proof (b58_index_char r Hr) as Hi. rewrite <- E in Hi. vm_compute in Hi.
  injection Hi as Hi. lia.
Qed.

(** * Digits *)

(** Value of a digit list, most significant first, on top of an accumulator. *)
Fixpoint horner (n : Z) (ds : list Z) : Z :=
  match ds with
  | [] => n
  | d :: ds' => horner (n * 58 + d) ds'
  end.

Fixpoint digits58 (fuel : nat) (n : Z) (acc : list Z) : list Z :=
  match fuel with
  | O => acc
  | S f => if n =? 0 then acc else digits58 f (n / 58) (n mod 58 :: acc)
  end.

Lemma b58_digits_map f n acc :
  b58_digits f n (b58_char <$> acc) = b58_char <$> digits58 f n acc.
Proof.
  revert n acc. induction f as [|f IH]; intros n acc; simpl; [done|].
  destruct (n =? 0); [done|]. exact (IH (n / 58) (n mod 58 :: acc)).
Qed.

Definition digit58 (d : Z) : Prop := 0 <= d < 58.

Lemma digits58_digit f n acc : Forall digit58 acc -> Forall digit58 (digits58 f n acc).
Proof.
  revert n acc. induction f as [|f IH]; intros n acc H; simpl; [done|].
  destruct (n =? 0); [done|]. apply IH. constructor; [|done].
  apply Z.mod_pos_bound. lia.
Qed.

Lemma digits58_value f n acc :
  0 <= n < 2 ^ Z.of_nat f -> horner 0 (digits58 f n acc) = horner n acc.
Proof.
  revert n acc. induction f as [|f IH]; intros n acc Hn; cbn [digits58].
  - simpl in Hn. by replace n with 0 by lia.
  - destruct (Z.eqb_spec n 0) as [->|]; [done|].
    rewrite Nat2Z.inj_succ, Z.pow_succ_r in Hn by lia.
    pose proof (div_bounds n 58 ltac:(lia)). rewrite IH by lia. cbn [horner].
    f_equal. pose proof (Z.div_mod n 58 ltac:(lia)). lia.
Qed.

(** The leading digit of a positive number is not zero. *)
Lemma digits58_head f n acc :
  0 < n < 2 ^ Z.of_nat f -> exists d ds, digits58 f n acc = d :: ds /\ d <> 0.
Proof.
  revert n acc. induction f as [|f IH]; intros n acc Hn; cbn [digits58].
  - simpl in Hn. lia.
  - destruct (Z.eqb_spec n 0) as [|Hne]; [lia|].
    rewrite Nat2Z.inj_succ, Z.pow_succ_r in Hn by lia.
    pose proof (div_bounds n 58 ltac:(lia)).
    destruct (Z.eq_dec (n / 58) 0) as [Hz|].
    + exists (n mod 58), acc. pose proof (Z.div_mod n 58 ltac:(lia)).
      split; [|lia]. rewrite Hz. by destruct f.
    + apply IH. pose proof (Z.div_pos n 58). lia.
Qed.

Lemma b58_value_chars ds n :
  Forall digit58 ds -> b58_value (b58_char <$> ds) n = Ret (horner n ds).
Proof.
  intros H. revert n. induction H as [|d ds Hd _ IH]; intros n; [done|].
  rewrite fmap_cons. cbn [b58_value horner]. rewrite b58_index_char by done. cbn. apply IH.
Qed.

Lemma horner_zeros k ds : horner 0 (replicate k 0 ++ ds) = horner 0 ds.
Proof. by induction k as [|k IH]. Qed.

(** * Bytes *)

Lemma leading_split raw :
  raw = replicate (leading (Z.eqb 0) raw) 0 ++ drop (leading (Z.eqb 0) raw) raw.
Proof.
  induction raw as [|b raw IH]; [done|]. cbn [leading].
  destruct (Z.eqb_spec 0 b) as [<-|]; [|done]. cbn. by rewrite <- IH.
Qed.

Lemma leading_stops raw :
  drop (leading (Z.eqb 0) raw) raw = [] \/
  exists b l, drop (leading (Z.eqb 0) raw) raw = b :: l /\ b <> 0.
Proof.
  induction raw as [|b raw IH]; [by left|]. cbn [leading].
  destruct (Z.eqb_spec 0 b) as [<-|]; [done|]. right. exists b, raw. split; [done|lia].
Qed.

Lemma be_dec_app l1 l2 : be_dec (l1 ++ l2) = be_dec l2 + 2 ^ (8 * blen l2) * be_dec l1.
Proof. unfold be_dec, blen. by rewrite reverse_app, le_dec_app, length_reverse. Qed.

Lemma be_dec_zeros k : be_dec (replicate k 0) = 0.
Proof. unfold be_dec. by rewrite reverse_replicate, le_dec_zeros. Qed.

Lemma is_bytes_reverse l : is_bytes l -> is_bytes (reverse l).
Proof. unfold is_bytes. rewrite Forall_forall, Forall_forall. intros H x. rewrite elem_of_reverse. apply H. Qed.

Lemma be_dec_bound l : is_bytes l -> 0 <= be_dec l < 2 ^ (8 * blen l).
Proof.
  intros H. unfold be_dec, blen. rewrite <- (length_reverse l).
  by apply le_dec_bound, is_bytes_reverse.
Qed.

(** A byte string with a nonzero first byte has the byte length of its value. *)
Lemma byte_length_be b l :
  is_bytes (b :: l) -> b <> 0 -> byte_length (be_dec (b :: l)) = length (b :: l).
Proof.
  intros Hb Hne. pose proof (be_dec_bound _ Hb) as Hub.
  change (b :: l) with ([b] ++ l) in *. rewrite be_dec_app in *.
  apply is_bytes_app in Hb as [Hb Hl]. apply Forall_singleton in Hb. unfold is_byte in Hb.
  pose proof (be_dec_bound l Hl) as Hl0.
  replace (be_dec [b]) with b in * by (unfold be_dec; cbn; lia).
  set (v := be_dec l + _ * b) in *. unfold blen in *. rewrite length_app in *. cbn [length] in *.
  set (k := length l) in *.
  assert (Hp : 2 ^ (8 * Z.of_nat k) <= v) by (subst v; nia).
  assert (0 < 2 ^ (8 * Z.of_nat k)) by (apply Z.pow_pos_nonneg; lia).
  unfold byte_length, bit_length. destruct (Z.eqb_spec v 0); [lia|].
  assert (8 * Z.of_nat k <= Z.log2 v) by (apply Z.log2_le_pow2; lia).
  assert (Z.log2 v < 8 * Z.of_nat (1 + k)) by (apply Z.log2_lt_pow2; lia).
  pose proof (div_bounds (Z.log2 v + 1 + 7) 8 ltac:(lia)). lia.
Qed.

Lemma be_enc_dec l : is_bytes l -> be_enc (length l) (be_dec l) = l.
Proof.
  intros H. unfold be_enc, be_dec. rewrite <- (length_reverse l) at 1.
  rewrite le_enc_dec by by apply is_bytes_reverse. apply reverse_involutive.
Qed.

(** * Round trips *)

Lemma b58_fuel_enough n : 0 <= n -> n < 2 ^ Z.of_nat (b58_fuel n).
Proof.
  intros Hn. unfold b58_fuel. rewrite Nat2Z.inj_succ, Z2Nat.id by apply Z.log2_nonneg.
  destruct (Z.eq_dec n 0) as [->|]; [by vm_compute|]. apply Z.log2_spec. lia.
Qed.

Lemma leading_chars k ds :
  Forall digit58 ds -> (forall d ds', ds = d :: ds' -> d <> 0) ->
  leading (Ascii.eqb "1"%char) (b58_char <$> (replicate k 0 ++ ds)) = k.
Proof.
  intros Hds Hd. induction k as [|k IH].
  - destruct ds as [|d ds]; [done|]. apply Forall_cons in Hds as [Hd0 _].
    cbn [replicate app]. rewrite fmap_cons. cbn [leading]. rewrite b58_char_one by done. destruct (Z.eqb_spec d 0); [by destruct (Hd d ds)|done].
  - cbn [replicate app]. rewrite fmap_cons. cbn [leading].
    rewrite b58_char_one by (unfold digit58; lia). simpl. by rewrite IH.
Qed.

(** What [b58decode_any] makes of a text written digit by digit. *)
Lemma b58decode_any_digits k ds :
  Forall digit58 ds -> (forall d ds', ds = d :: ds' -> d <> 0) ->
  b58decode_any (String.string_of_list_ascii (b58_char <$> (replicate k 0 ++ ds))) =
  Ret (replicate k 0 ++
       if horner 0 ds =? 0 then [] else be_enc (byte_length (horner 0 ds)) (horner 0 ds)).
Proof.
  intros Hds Hd. unfold b58decode_any.
  rewrite String.list_ascii_of_string_of_list_ascii, b58_value_chars.
  - cbn [py_bind]. by rewrite horner_zeros, leading_chars.
  - apply Forall_app. split; [|done]. apply Forall_replicate. unfold digit58. lia.
Qed.

Lemma replicate_ones k : replicate k "1"%char = b58_char <$> replicate k 0.
Proof. induction k as [|k IH]; [done|]. cbn [replicate]. by rewrite fmap_cons, IH. Qed.

Lemma b58_any_roundtrip_split k b l :
  is_bytes (b :: l) -> b <> 0 ->
  leading (Z.eqb 0) (replicate k 0 ++ b :: l) = k ->
  b58decode_any (b58encode (replicate k 0 ++ b :: l)) = Ret (replicate k 0 ++ b :: l).
Proof.
  intros Hb Hne Hk. unfold b58encode. rewrite Hk.
  rewrite be_dec_app, be_dec_zeros, Z.mul_0_r, Z.add_0_r.
  pose proof (be_dec_bound _ Hb) as Hub. pose proof (byte_length_be b l Hb Hne) as Hbl.
  set (n := be_dec (b :: l)) in *.
  assert (Hn : 0 < n).
  { assert (n <> 0); [|lia]. intros E. rewrite E in Hbl. discriminate Hbl. }
  pose proof (b58_fuel_enough n ltac:(lia)) as Hf.
  change (@nil ascii) with (b58_char <$> []). rewrite b58_digits_map.
  destruct (digits58_head (b58_fuel n) n [] ltac:(lia)) as (d&ds&Hd&Hd0).
  pose proof (digits58_value (b58_fuel n) n [] ltac:(lia)) as Hv. cbn [horner] in Hv.
  pose proof (digits58_digit (b58_fuel n) n [] ltac:(constructor)) as Hdg.
  rewrite Hd in *. rewrite fmap_cons.
  change (b58_char d :: (b58_char <$> ds)) with (b58_char <$> (d :: ds)).
  rewrite replicate_ones, <- fmap_app, b58decode_any_digits; [|done|by intros ? ? [= -> _]].
  rewrite Hv, Hbl. destruct (Z.eqb_spec n 0); [lia|].
  do 2 f_equal. by apply be_enc_dec.
Qed.

Lemma b58_any_roundtrip_nz raw :
  is_bytes raw -> drop (leading (Z.eqb 0) raw) raw <> [] ->
  b58decode_any (b58encode raw) = Ret raw.
Proof.
  intros Hb Hne. destruct (leading_stops raw) as [|(b&l&E&Hb0)]; [done|].
  pose proof (leading_split raw) as Hs. rewrite E in Hs. rewrite Hs.
  apply b58_any_roundtrip_split; [|done|by rewrite <- Hs].
  rewrite <- E. by apply Forall_drop.
Qed.

(** All-zero input: the [out or "1"] of [b58encode] writes one digit too many. *)
Lemma b58_any_zeros k :
  b58decode_any (b58encode (replicate k 0)) = Ret (replicate (S k) 0).
Proof.
  unfold b58encode. rewrite be_dec_zeros.
  assert (Hl : leading (Z.eqb 0) (replicate k 0) = k) by (induction k; simpl; congruence).
  rewrite Hl. cbn [b58_digits b58_fuel Z.log2 Z.to_nat Z.eqb].
  rewrite replicate_ones. change ["1"%char] with (b58_char <$> [0]).
  rewrite <- fmap_app. change [0] with (replicate 1 0 : list Z). rewrite <- replicate_add.
  rewrite <- (app_nil_r (replicate (k + 1) 0)), b58decode_any_digits; [|constructor|done].
  cbn. rewrite app_nil_r. by replace (k + 1)%nat with (S k) by lia.
Qed.

(** Either nothing but zeros, or a round trip. *)
Lemma b58_any_cases raw :
  is_bytes raw ->
  (raw = replicate (length raw) 0 /\ b58decode_any (b58encode raw) = Ret (0 :: raw)) \/
  b58decode_any (b58encode raw) = Ret raw.
Proof.
  intros Hb. destruct (drop (leading (Z.eqb 0) raw) raw) eqn:E.
  - left. pose proof (leading_split raw) as Hs. rewrite E, app_nil_r in Hs.
    assert (Hr : raw = replicate (length raw) 0).
    { rewrite Hs at 1. f_equal. rewrite Hs at 2. by rewrite length_replicate. }
    split; [done|]. rewrite Hr at 1. rewrite b58_any_zeros. cbn [replicate]. by rewrite <- Hr.
  - right. apply b58_any_roundtrip_nz; [done|]. by rewrite E.
Qed.

Lemma b58decode_fit raw :
  is_bytes raw -> length raw = 32%nat -> b58decode (b58encode raw) = Ret raw.
Proof.
  intros Hb Hl. unfold b58decode. destruct (b58_any_cases raw Hb) as [[_ E]|E]; rewrite E;
    cbn [py_bind]; unfold fit32; cbn [length]; rewrite Hl; done.
Qed.

(** Base58 round trip on public keys: every 32-byte key survives [b58encode] followed by
    [b58decode], and two different keys have different texts. *)
Theorem b58_pubkey_roundtrip raw raw' :
  is_bytes raw -> length raw = 32%nat -> is_bytes raw' -> length raw' = 32%nat ->
  b58decode (b58encode raw) = Ret raw /\ (b58encode raw = b58encode raw' -> raw = raw').
Proof.
  intros Hb Hl Hb' Hl'. pose proof (b58decode_fit raw Hb Hl) as E. split; [done|].
  intros Heq. rewrite Heq, b58decode_fit in E by done. by injection E.
Qed.

Lemma b58_pubkey_roundtrip_witness :
  b58decode (b58encode ZERO32) = Ret ZERO32 /\
  (b58encode ZERO32 = b58encode (replicate 32 7) -> ZERO32 = replicate 32 7).
Proof.
  apply b58_pubkey_roundtrip; try reflexivity; repeat constructor; discriminate.
Defined.

(** Base58 of instruction data, where no 32-byte padding hides anything: the round trip
    through [b58decode_any] is exact unless every byte is zero, and then it gains exactly one
    zero byte. *)
Theorem b58_any_roundtrip raw :
  is_bytes raw ->
  b58decode_any (b58encode raw) =
  Ret (if decide (raw = replicate (length raw) 0) then 0 :: raw else raw).
Proof.
  intros Hb. case_decide as Hz.
  - rewrite Hz at 1. rewrite b58_any_zeros. cbn [replicate]. by rewrite <- Hz.
  - destruct (b58_any_cases raw Hb) as [[? _]|E]; [done|exact E].
Qed.

Lemma b58_any_roundtrip_witness :
  b58decode_any (b58encode [0; 51; 230; 133; 164]) = Ret [0; 51; 230; 133; 164].
Proof.
  apply (b58_any_roundtrip [0; 51; 230; 133; 164]). repeat constructor; discriminate.
Defined.
