(* ===== verification/Sha256.v ===== *)
(** SHA-256 on byte strings: what [hashlib.sha256(...).digest()] computes where the sources
    derive program addresses (find_pda) and journal digests.  FIPS 180-4, executable. *)
From stdpp Require Import base list.
From Stdlib Require Import ZArith Lia.
From S2P Require Import Prelude PyBytes.
Open Scope Z_scope.

Definition w32 (z : Z) : Z := z mod 2 ^ 32.
Definition rotr (n x : Z) : Z := Z.lor (Z.shiftr x n) (w32 (Z.shiftl x (32 - n))).
Definition not32 (x : Z) : Z := 2 ^ 32 - 1 - x.

Definition ch (x y z : Z) : Z := Z.lxor (Z.land x y) (Z.land (not32 x) z).
Definition maj (x y z : Z) : Z := Z.lxor (Z.lxor (Z.land x y) (Z.land x z)) (Z.land y z).
Definition bsig0 (x : Z) : Z := Z.lxor (Z.lxor (rotr 2 x) (rotr 13 x)) (rotr 22 x).
Definition bsig1 (x : Z) : Z := Z.lxor (Z.lxor (rotr 6 x) (rotr 11 x)) (rotr 25 x).
Definition ssig0 (x : Z) : Z := Z.lxor (Z.lxor (rotr 7 x) (rotr 18 x)) (Z.shiftr x 3).
Definition ssig1 (x : Z) : Z := Z.lxor (Z.lxor (rotr 17 x) (rotr 19 x)) (Z.shiftr x 10).

(** The constants of the standard: the first 32 bits of the fractional parts of the cube roots
    of the first 64 primes, and of the square roots of the first 8. *)
Fixpoint root_bits (k target : Z) (n : nat) (acc : Z) : Z :=
  match n with
  | O => acc
  | S n' =>
      let up := acc + 2 ^ Z.of_nat n' in
      root_bits k target n' (if up ^ k <=? target then up else acc)
  end.

Definition frac_root (k p : Z) : Z := w32 (root_bits k (p * 2 ^ (32 * k)) 40 0).

Definition is_prime_Z (p : nat) : bool :=
  forallb (fun d => negb (p mod d =? 0)%nat) (seq 2 (p - 2)).

Definition primes64 : list Z :=
  Eval vm_compute in Z.of_nat <$> List.filter is_prime_Z (seq 2 310).

Definition K256 : list Z := Eval vm_compute in frac_root 3 <$> primes64.
Definition H256 : list Z := Eval vm_compute in frac_root 2 <$> take 8 primes64.

(** Padding: a one bit, zeros, and the bit length as a 64-bit big-endian number. *)
Definition sha_pad (m : bytes) : bytes :=
  m ++ 0x80 :: replicate (Z.to_nat ((55 - blen m) mod 64)) 0 ++ be_enc 8 (8 * blen m).

(** Message schedule, newest word first. *)
Fixpoint schedule (n : nat) (ws : list Z) : list Z :=
  match n with
  | O => ws
  | S n' =>
      let w := w32 (ssig1 (nth 1 ws 0) + nth 6 ws 0 + ssig0 (nth 14 ws 0) + nth 15 ws 0) in
      schedule n' (w :: ws)
  end.

Definition sha_round (st : list Z) (kw : Z * Z) : list Z :=
  match st with
  | [a; b; c; d; e; f; g; h] =>
      let t1 := h + bsig1 e + ch e f g + kw.1 + kw.2 in
      let t2 := bsig0 a + maj a b c in
      [w32 (t1 + t2); a; b; c; w32 (d + t1); e; f; g]
  | _ => st
  end.

Fixpoint words (n : nat) (m : bytes) : list Z :=
  match n with
  | O => []
  | S n' => le_dec (reverse (take 4 m)) :: words n' (drop 4 m)
  end.

Definition sha_block (st : list Z) (m : bytes) : list Z :=
  let ws := reverse (schedule 48 (reverse (words 16 m))) in
  zip_with (fun x y => w32 (x + y)) st (foldl sha_round st (zip K256 ws)).

Fixpoint sha_blocks (n : nat) (st : list Z) (m : bytes) : list Z :=
  match n with
  | O => st
  | S n' => sha_blocks n' (sha_block st (take 64 m)) (drop 64 m)
  end.

Definition sha256 (m : bytes) : bytes :=
  let p := sha_pad m in
  concat (be_enc 4 <$> sha_blocks (length p / 64) H256 p).

(** FIPS 180-4 test vectors: the empty message and "abc". *)
Example sha256_empty :
  be_dec (sha256 []) = 0xe3b0c44298fc1c149afbf4c8996fb92427ae41e4649b934ca495991b7852b855.
Proof. vm_compute. reflexivity. Qed.

Example sha256_abc :
  be_dec (sha256 [97; 98; 99])
  = 0xba7816bf8f01cfea414140de5dae2223b00361a396177a9cb410ff61f20015ad.
Proof. vm_compute. reflexivity. Qed.

(** A message of two blocks. *)
Example sha256_two_blocks :
  be_dec (sha256 (replicate 64 97))
  = 0xffe054fe7ae0cb6dc65c3af9b61d5209f439851db43d0ba5997337df154668eb.
Proof. vm_compute. reflexivity. Qed.

(** A digest has 32 bytes, whatever the message. *)
Lemma length_sha_round st kw : length (sha_round st kw) = length st.
Proof. unfold sha_round. repeat case_match; done. Qed.

Lemma length_sha_rounds kws st : length (foldl sha_round st kws) = length st.
Proof.
  revert st. induction kws as [|kw kws IH]; intros st; [done|].
  cbn. by rewrite IH, length_sha_round.
Qed.

Lemma length_sha_block st m : length (sha_block st m) = length st.
Proof. unfold sha_block. rewrite length_zip_with, length_sha_rounds. lia. Qed.

Lemma length_sha_blocks n st m : length (sha_blocks n st m) = length st.
Proof.
  revert st m. induction n as [|n IH]; intros st m; [done|].
  cbn. by rewrite IH, length_sha_block.
Qed.

Lemma length_concat_be4 ws : length (concat (be_enc 4 <$> ws)) = (4 * length ws)%nat.
Proof.
  induction ws as [|w ws IH]; [done|]. rewrite fmap_cons. cbn [concat].
  rewrite length_app, IH. unfold be_enc. rewrite length_reverse, length_le_enc. cbn. lia.
Qed.

Lemma length_sha256 m : length (sha256 m) = 32%nat.
Proof. unfold sha256. by rewrite length_concat_be4, length_sha_blocks. Qed.

Lemma is_bytes_sha256 m : is_bytes (sha256 m).
Proof.
  unfold sha256. generalize (sha_blocks (length (sha_pad m) / 64) H256 (sha_pad m)).
  induction l as [|w ws IH]; [constructor|]. rewrite fmap_cons. cbn [concat].
  apply is_bytes_app. split; [|done]. unfold be_enc, is_bytes. rewrite Forall_forall. intros x.
  rewrite elem_of_reverse. revert x. apply Forall_forall, is_bytes_le_enc.
Qed.
