(* ===== verification/Pda.v ===== *)
(** Program-derived addresses and bin-array indexes of arb-cap/record_dlmm.py, and the second
    copy of the derivation in arb-cap/pump012/pump_fee.py ([pump_pool_authority],
    [is_pump_pool]). *)
From stdpp Require Import base list strings.
From Stdlib Require Import ZArith Lia Ascii Zpow_facts.
From Bignums Require Import BigN.
From Stdlib Require String.
From S2P Require Import Prelude PyBytes Base58 Sha256.
Open Scope Z_scope.

(** ASCII text as bytes: [b"..."]. *)
Definition ascii_bytes (s : string) : bytes :=
  (fun c => Z.of_N (N_of_ascii c)) <$> String.list_ascii_of_string s.

Definition _P : Z := 2 ^ 255 - 19.

(** [pow(b, e, _P)] *)
Definition pow_p (b e : Z) : Z := Zpow_mod b e _P.

(** record_dlmm computes the Edwards constant, pump_fee spells it out. *)
Definition _D : Z := Eval vm_compute in (-121665 * pow_p 121666 (_P - 2)) mod _P.
Definition _D_fee : Z :=
  370957059346694393431380882127351390395656022343698204509819366164078637887.

(** The shared tail of the two [_on_curve]: is the x^2 of this y a square? *)
Definition has_x (d y : Z) : bool :=
  let y2 := pow_p y 2 in
  let u := (y2 - 1) mod _P in
  let v := (d * y2 + 1) mod _P in
  let x2 := (u * pow_p v (_P - 2)) mod _P in
  negb (pow_p x2 ((_P - 1) / 2) =? _P - 1).

Definition y_of (pt : bytes) : Z := Z.land (le_dec pt) (2 ^ 255 - 1).

(** record_dlmm._on_curve *)
Definition on_curve (pt : bytes) : bool :=
  if negb (blen pt =? 32) then false
  else if _P <=? y_of pt then false
  else has_x _D (y_of pt).

(** pump_fee._on_curve: the same test without the range check and with its own constant. *)
Definition on_curve_fee (pk : bytes) : bool :=
  if negb (blen pk =? 32) then false else has_x _D_fee (y_of pk).

Definition PDA_MARKER : bytes := Eval vm_compute in ascii_bytes "ProgramDerivedAddress".

Definition pda_digest (seeds : list bytes) (program : bytes) (bump : Z) : bytes :=
  sha256 (concat seeds ++ [bump] ++ program ++ PDA_MARKER).

(** [for bump in range(255, -1, -1): ...]; [bump] counts down to 0. *)
Fixpoint find_from (curve : bytes -> bool) (seeds : list bytes) (program : bytes) (bump : nat)
    : pyres bytes :=
  let digest := pda_digest seeds program (Z.of_nat bump) in
  if negb (curve digest) then Ret digest
  else match bump with
       | O => Raise (RuntimeError "no pda")
       | S b => find_from curve seeds program b
       end.

Definition find_pda (seeds : list bytes) (program : bytes) : pyres bytes :=
  find_from on_curve seeds program 255.

Definition find_pda_fee (seeds : list bytes) (program : bytes) : pyres bytes :=
  find_from on_curve_fee seeds program 255.

(** ** The addresses the sources derive *)

Definition DLMM : string := "LBUZKhRxPF3XUpBCjp4YzTKgLccjZhTSDM9YuVaPwxo".
Definition PUMP : string := "pAMMBay6oceH9fJKBRHGP5D4bD4sWpmSwMn52FMfXEA".
Definition PUMP_FUN : string := "6EF8rrecthR5Dkzon8Nwu78hRvfCKubJ14M5uBEwF6P".
Definition PFEE : string := "pfeeUxB6jkeY1Hxd7CsFCAjcbHA9rWtchMGdZ6VojVZ".
Definition FEE_CONFIG_PK : string := "5PHirr8joyTMp9JMm6nW7hNDVyEYdkzDqazxPD7RaTjx".

Definition MAX_BIN : Z := 70.

Definition bin_array_index (bin_id : Z) : Z := bin_id / MAX_BIN.

Definition bin_array_pda (pair : string) (index : Z) : pyres string :=
  py_bind (b58decode pair) (fun pk =>
  py_bind (pack_s 8 index) (fun ix =>
  py_bind (b58decode DLMM) (fun prog =>
  py_bind (find_pda [ascii_bytes "bin_array"; pk; ix] prog) (fun raw =>
  Ret (b58encode raw))))).

(** [list(range(lo, hi + 1))] *)
Definition py_range (lo hi : Z) : list Z :=
  (fun k => lo + Z.of_nat k) <$> seq 0 (Z.to_nat (hi - lo)).

Definition array_indexes_k (active_id k : Z) : list Z :=
  py_range (bin_array_index (active_id - k)) (bin_array_index (active_id + k) + 1).

Definition array_indexes (active_id : Z) : list Z := array_indexes_k active_id 16.

Definition pump_pool_authority (base_mint : string) : pyres string :=
  py_bind (b58decode base_mint) (fun mint =>
  py_bind (b58decode PUMP_FUN) (fun prog =>
  py_bind (find_pda_fee [ascii_bytes "pool-authority"; mint] prog) (fun raw =>
  Ret (b58encode raw)))).

Definition is_pump_pool (base_mint pool_creator : string) : pyres bool :=
  py_bind (pump_pool_authority base_mint) (fun a => Ret (String.eqb pool_creator a)).

(** The fee-config address of pump_fee's header, derived with each copy of find_pda. *)
Definition fee_config_with (find : list bytes -> bytes -> pyres bytes) : pyres string :=
  py_bind (b58decode PUMP) (fun amm =>
  py_bind (b58decode PFEE) (fun prog =>
  py_bind (find [ascii_bytes "fee_config"; amm] prog) (fun raw => Ret (b58encode raw)))).

(** * The derivation loop *)

Lemma find_from_spec curve seeds program n d :
  find_from curve seeds program n = Ret d ->
  exists b, (b <= n)%nat /\ d = pda_digest seeds program (Z.of_nat b) /\ curve d = false /\
    forall b', (b < b' <= n)%nat -> curve (pda_digest seeds program (Z.of_nat b')) = true.
Proof.
  induction n as [|n IH]; cbn [find_from]; intros H;
    destruct (curve (pda_digest seeds program _)) eqn:Ec in H; cbn [negb] in H.
  - done.
  - injection H as <-. exists 0%nat. repeat split; [done|done|lia].
  - destruct (IH H) as (b&Hb&Hd&Hc&Hall). exists b. repeat split; [lia|done|done|].
    intros b' Hb'. destruct (decide (b' = S n)) as [->|]; [done|]. apply Hall. lia.
  - injection H as <-. exists (S n). repeat split; [done|done|lia].
Qed.

Lemma find_from_total curve seeds program n :
  (exists b, (b <= n)%nat /\ curve (pda_digest seeds program (Z.of_nat b)) = false) ->
  exists d, find_from curve seeds program n = Ret d.
Proof.
  induction n as [|n IH]; intros (b&Hb&Hc); cbn [find_from].
  - replace b with 0%nat in Hc by lia. rewrite Hc. cbn. eauto.
  - destruct (curve (pda_digest seeds program (Z.of_nat (S n)))) eqn:E; cbn; [|eauto].
    apply IH. exists b. split; [|done]. destruct (decide (b = S n)); [congruence|lia].
Qed.

Lemma find_from_raise curve seeds program n e :
  find_from curve seeds program n = Raise e -> e = RuntimeError "no pda".
Proof.
  induction n as [|n IH]; cbn [find_from]; destruct (negb _); [done|congruence|done|done].
Qed.

(** [find_pda] answers with the digest of the highest bump whose digest is not a point of
    the curve, a 32-byte value; it fails only when all 256 digests are points. *)
Theorem find_pda_canonical seeds program :
  match find_pda seeds program with
  | Ret d => length d = 32%nat /\ on_curve d = false /\
      exists b, (b <= 255)%nat /\ d = pda_digest seeds program (Z.of_nat b) /\
        forall b', (b < b' <= 255)%nat ->
          on_curve (pda_digest seeds program (Z.of_nat b')) = true
  | Raise e => e = RuntimeError "no pda" /\
      forall b, (b <= 255)%nat -> on_curve (pda_digest seeds program (Z.of_nat b)) = true
  end.
Proof.
  unfold find_pda. destruct (find_from _ _ _ _) as [d|e] eqn:E.
  - apply find_from_spec in E as (b&Hb&->&Hc&Hall). split; [apply length_sha256|].
    split; [done|]. by exists b.
  - split.
    + by eapply find_from_raise.
    + intros b Hb. destruct (on_curve _) eqn:Ec; [done|].
      destruct (find_from_total on_curve seeds program 255) as [d Hd]; [by exists b|congruence].
Qed.

(** * The derivation evaluated

    Modular powers through [BigN], which the kernel evaluates quickly. *)

Definition bn_P : bigN := Eval vm_compute in BigN.of_N (Z.to_N _P).

Fixpoint bn_pow (b : bigN) (e : positive) : bigN :=
  match e with
  | xH => BigN.modulo b bn_P
  | xO e => BigN.modulo (BigN.square (bn_pow b e)) bn_P
  | xI e => BigN.modulo (BigN.mul b (BigN.modulo (BigN.square (bn_pow b e)) bn_P)) bn_P
  end.

Lemma bn_P_spec : BigN.to_Z bn_P = _P.
Proof. vm_compute. reflexivity. Qed.

Lemma bn_pow_spec b e : BigN.to_Z (bn_pow b e) = BigN.to_Z b ^ Zpos e mod _P.
Proof.
  induction e as [e IH|e IH|]; cbn [bn_pow];
    rewrite ?BigN.spec_modulo, ?BigN.spec_mul, ?BigN.spec_modulo, ?BigN.spec_square,
      ?bn_P_spec, ?IH.
  - rewrite <- Zmult_mod, Zmult_mod_idemp_r. f_equal.
    rewrite Pos2Z.inj_xI, Z.pow_add_r, Z.pow_mul_r, Z.pow_1_r, Z.pow_2_r, Z.pow_mul_l by lia.
    lia.
  - rewrite <- Zmult_mod. f_equal.
    by rewrite Pos2Z.inj_xO, Z.pow_mul_r, Z.pow_2_r, Z.pow_mul_l by lia.
  - by rewrite Z.pow_1_r.
Qed.


(** [has_x] with the powers evaluated on [bigN]. *)
Definition bn_pow_p (b : Z) (e : Z) : Z :=
  match e with
  | Zpos p => BigN.to_Z (bn_pow (BigN.of_N (Z.to_N b)) p)
  | _ => 1
  end.

Lemma bn_pow_p_spec b e : 0 <= b -> 0 <= e -> pow_p b e = bn_pow_p b e.
Proof.
  intros Hb He. unfold pow_p, bn_pow_p. rewrite Zpow_mod_correct by (vm_compute; discriminate).
  destruct e as [|e|e]; [done| |lia].
  by rewrite bn_pow_spec, BigN.spec_of_N, Z2N.id.
Qed.

Definition has_x_bn (d y : Z) : bool :=
  let y2 := bn_pow_p y 2 in
  let u := (y2 - 1) mod _P in
  let v := (d * y2 + 1) mod _P in
  let x2 := (u * bn_pow_p v (_P - 2)) mod _P in
  negb (bn_pow_p x2 ((_P - 1) / 2) =? _P - 1).

Lemma has_x_bn_spec d y : 0 <= y -> has_x d y = has_x_bn d y.
Proof.
  intros Hy. unfold has_x, has_x_bn. cbv zeta.
  assert (HP : 0 < _P) by (vm_compute; reflexivity).
  assert (He1 : 0 <= _P - 2) by (vm_compute; discriminate).
  assert (He2 : 0 <= (_P - 1) / 2) by (vm_compute; discriminate).
  rewrite (bn_pow_p_spec y 2), (bn_pow_p_spec _ (_P - 2)), (bn_pow_p_spec _ ((_P - 1) / 2));
    try (done || apply Z.mod_pos_bound; exact HP).
Qed.

(** * Bin arrays around the active bin *)

Lemma elem_of_py_range lo hi x : x ∈ py_range lo hi <-> lo <= x < hi.
Proof.
  unfold py_range. rewrite list_elem_of_fmap. split.
  - intros (k&->&Hk%elem_of_seq). lia.
  - intros Hx. exists (Z.to_nat (x - lo)). split; [lia|]. apply elem_of_seq. lia.
Qed.

Lemma NoDup_py_range lo hi : NoDup (py_range lo hi).
Proof. apply NoDup_fmap_2; [intros ? ? ?; lia | apply NoDup_seq]. Qed.

(** The arrays fetched for an active bin are one or two consecutive
    ones, and they hold every bin of the pricing window [active - 16 .. active + 16]. *)
Theorem array_indexes_cover active :
  (forall id, Z.abs (id - active) <= 16 ->
     exists i, i ∈ array_indexes active /\ i * MAX_BIN <= id < i * MAX_BIN + MAX_BIN) /\
  (exists i, array_indexes active = [i] \/ array_indexes active = [i; i + 1]).
Proof.
  unfold array_indexes, array_indexes_k, bin_array_index, MAX_BIN. split.
  - intros id Hid. exists (id / 70). rewrite elem_of_py_range.
    pose proof (div_bounds id 70 ltac:(lia)).
    pose proof (Z.div_le_mono (active - 16) id 70 ltac:(lia) ltac:(lia)).
    pose proof (Z.div_le_mono id (active + 16) 70 ltac:(lia) ltac:(lia)). split; lia.
  - exists ((active - 16) / 70).
    pose proof (div_bounds (active - 16) 70 ltac:(lia)) as H1.
    pose proof (div_bounds (active + 16) 70 ltac:(lia)) as H2.
    generalize dependent ((active - 16) / 70). intros lo H1.
    generalize dependent ((active + 16) / 70). intros hi H2.
    assert (hi = lo \/ hi = lo + 1) as [->| ->] by lia; unfold py_range.
    + left. replace (lo + 1 - lo) with 1 by lia.
      change (seq 0 (Z.to_nat 1)) with [0%nat]. rewrite !fmap_cons. f_equal; lia.
    + right. replace (lo + 1 + 1 - lo) with 2 by lia.
      change (seq 0 (Z.to_nat 2)) with [0%nat; 1%nat]. rewrite !fmap_cons.
      repeat f_equal; lia.
Qed.

(** Both copies of find_pda with the fast test, for evaluation. *)
Definition on_curve_bn (pt : bytes) : bool :=
  if negb (blen pt =? 32) then false
  else if _P <=? y_of pt then false
  else has_x_bn _D (y_of pt).

Definition on_curve_fee_bn (pk : bytes) : bool :=
  if negb (blen pk =? 32) then false else has_x_bn _D_fee (y_of pk).

Lemma y_of_nonneg pt : 0 <= y_of pt.
Proof. unfold y_of. apply Z.land_nonneg. right. vm_compute. discriminate. Qed.

Lemma find_from_ext f g seeds program n :
  (forall d, f d = g d) -> find_from f seeds program n = find_from g seeds program n.
Proof. intros H. induction n as [|n IH]; cbn [find_from]; by rewrite ?IH, ?H. Qed.

Lemma find_pda_bn seeds program :
  find_pda seeds program = find_from on_curve_bn seeds program 255 /\
  find_pda_fee seeds program = find_from on_curve_fee_bn seeds program 255.
Proof.
  split; apply find_from_ext; intros d;
    unfold on_curve, on_curve_bn, on_curve_fee, on_curve_fee_bn; by rewrite has_x_bn_spec
      by apply y_of_nonneg.
Qed.

(** The curve constant of pump_fee is not the Edwards constant: with
    it the derivation misses the fee-config address the file itself documents, which
    record_dlmm's derivation reproduces. *)
Theorem fee_pda_constant_wrong :
  (_D * 121666 + 121665) mod _P = 0 /\ (_D_fee * 121666 + 121665) mod _P <> 0 /\
  fee_config_with find_pda = Ret FEE_CONFIG_PK /\
  fee_config_with find_pda_fee <> Ret FEE_CONFIG_PK.
Proof.
  split; [vm_compute; reflexivity|]. split; [vm_compute; discriminate|].
  unfold fee_config_with.
  destruct (b58decode PUMP) as [amm|] eqn:Ea; [|vm_compute in Ea; discriminate].
  destruct (b58decode PFEE) as [prog|] eqn:Ep; [|vm_compute in Ep; discriminate].
  vm_compute in Ea, Ep. injection Ea as <-. injection Ep as <-.
  cbn [py_bind].
  match goal with |- context [find_pda ?ss ?pp] => destruct (find_pda_bn ss pp) as [-> ->] end.
  split; vm_compute; [reflexivity|discriminate].
Qed.
