(* ===== verification/PumpKernel.v ===== *)
(** The Pump AMM kernel of arb-cap/pump012/pump_apply.py: one swap on a pool snapshot
    ([apply_swap]) and the search for the virtual quote reserve that explains a published
    state ([invert_virtual]).

    A snapshot is a Python dict; [pump_state] has the keys the kernel reads or writes, an
    option where the code reads the key with [dict.get].  Reserves and fees come from unsigned
    account fields, so the integer divisions never meet a zero denominator. *)
From stdpp Require Import base list strings.
From Stdlib Require Import ZArith Lia.
From S2P Require Import Prelude.
Open Scope Z_scope.

Definition PUMP_FEE_BPS_DEN : Z := 10000.
Definition PUMP_DIR_QUOTE_TO_BASE : Z := 0.
Definition PUMP_DIR_BASE_TO_QUOTE : Z := 1.

Record pump_state := PumpState {
  base_vault_amount : option Z;
  quote_vault_amount : option Z;
  virtual_quote_reserves : option Z;
  reserve_base : Z;
  reserve_quote : Z;
  virtual_quote : option Z;
  lp_fee_bps : option Z;
  protocol_fee_bps : option Z;
  creator_fee_bps : option Z;
  status : option Z;
  amount_in : option Z;
  direction : option Z;
  base_amount_out : option Z;
}.

#[export] Instance pump_state_eq_dec : EqDecision pump_state.
Proof. solve_decision. Defined.

(** [before.get("base_vault_amount", before["reserve_base"])] and its two siblings. *)
Definition rb_of (s : pump_state) : Z := default (reserve_base s) (base_vault_amount s).
Definition rq_of (s : pump_state) : Z := default (reserve_quote s) (quote_vault_amount s).
Definition vq_of (s : pump_state) : Z :=
  default (or0 (virtual_quote s)) (virtual_quote_reserves s).

Definition qeff_of (s : pump_state) : Z := rq_of s + vq_of s.

Definition _fee (n bps : Z) : Z := ceil_div (n * bps) PUMP_FEE_BPS_DEN.

Record bps := Bps { b_lp : Z; b_protocol : Z; b_creator : Z }.

Definition bps_of (s : pump_state) : bps :=
  Bps (or0 (lp_fee_bps s)) (or0 (protocol_fee_bps s)) (or0 (creator_fee_bps s)).

Definition total_bps (b : bps) : Z := b_lp b + b_protocol b + b_creator b.

(** Sum of the three fees on [n]. *)
Definition fee_sum (b : bps) (n : Z) : Z :=
  _fee n (b_lp b) + _fee n (b_protocol b) + _fee n (b_creator b).

(** The base-to-quote branch: [(out, after_rb, after_rq)]. *)
Definition sell_leg (b : bps) (rb rq qeff amount_in : Z) : option (Z * Z * Z) :=
  let gross := qeff * amount_in / (rb + amount_in) in
  let fee := fee_sum b gross in
  if gross <? fee then None else
  let leave := gross - _fee gross (b_lp b) in
  if rq <? leave then None else
  Some (gross - fee, rb + amount_in, rq - leave).

(** The part of [amount_in] that reaches the curve, after the rounding correction. *)
Definition effective_in (b : bps) (amount_in : Z) : Z :=
  let eff := amount_in * PUMP_FEE_BPS_DEN / (PUMP_FEE_BPS_DEN + total_bps b) in
  let fee := fee_sum b eff in
  if amount_in <? eff + fee then eff - (eff + fee - amount_in) else eff.

(** The quote-to-base branch. *)
Definition buy_leg (b : bps) (rb rq qeff amount_in : Z) : option (Z * Z * Z) :=
  let effective := effective_in b amount_in in
  let proto := _fee effective (b_protocol b) in
  let creator := _fee effective (b_creator b) in
  if effective <? 1 then None else
  let net := effective - 1 in
  let out := rb * net / (qeff + net) in
  if (out =? 0) || (rb <? out) then None else
  Some (out, rb - out, rq + amount_in - proto - creator).

Definition apply_swap (before : pump_state) (amt dir : Z) : option pump_state :=
  if amt <=? 0 then None else
  if negb (or0 (status before) =? 0) then None else
  let rb := rb_of before in
  let rq := rq_of before in
  let vq := vq_of before in
  let b := bps_of before in
  if (rb =? 0) || (rq =? 0) then None else
  let qeff := rq + vq in
  if qeff <=? 0 then None else
  if PUMP_FEE_BPS_DEN <=? total_bps b then None else
  let leg :=
    if dir =? PUMP_DIR_BASE_TO_QUOTE then sell_leg b rb rq qeff amt
    else if dir =? PUMP_DIR_QUOTE_TO_BASE then buy_leg b rb rq qeff amt
    else None in
  match leg with
  | None => None
  | Some (out, after_rb, after_rq) =>
      if out <=? 0 then None else
      Some {| base_vault_amount := Some after_rb;
              quote_vault_amount := Some after_rq;
              virtual_quote_reserves := Some vq;
              reserve_base := after_rb;
              reserve_quote := after_rq;
              virtual_quote := Some vq;
              lp_fee_bps := None;
              protocol_fee_bps := None;
              creator_fee_bps := None;
              status := None;
              amount_in := Some amt;
              direction := Some dir;
              base_amount_out := None |}
  end.

(** The trial snapshot with both virtual keys set. *)
Definition set_virtual (s : pump_state) (v : Z) : pump_state :=
  {| base_vault_amount := base_vault_amount s; quote_vault_amount := quote_vault_amount s;
     virtual_quote_reserves := Some v; reserve_base := reserve_base s;
     reserve_quote := reserve_quote s; virtual_quote := Some v; lp_fee_bps := lp_fee_bps s;
     protocol_fee_bps := protocol_fee_bps s; creator_fee_bps := creator_fee_bps s;
     status := status s; amount_in := amount_in s; direction := direction s;
     base_amount_out := base_amount_out s |}.

Definition virtual_probe (before : pump_state) (amt dir urb urq v : Z) : probe :=
  match apply_swap (set_virtual before v) amt dir with
  | None => GoDown
  | Some got =>
      if (reserve_base got =? urb) && (reserve_quote got =? urq) then Hit
      else if dir =? PUMP_DIR_BASE_TO_QUOTE then
        if urq <? reserve_quote got then GoUp else GoDown
      else
        if reserve_base got <? urb then GoUp else GoDown
  end.

Definition invert_virtual (before : pump_state) (amt dir : Z) (published : pump_state)
    : option Z :=
  let urb := rb_of published in
  let urq := rq_of published in
  match bsearch_run (virtual_probe before amt dir urb urq) 0 (10 ^ 18) with
  | None => None
  | Some ans =>
      match apply_swap (set_virtual before ans) amt dir with
      | None => None
      | Some got =>
          if negb (reserve_base got =? urb) || negb (reserve_quote got =? urq)
          then None else Some ans
      end
  end.

(** * What a snapshot of unsigned account fields satisfies *)

Record pump_wf (s : pump_state) : Prop := {
  wf_rb : 0 <= rb_of s;
  wf_rq : 0 <= rq_of s;
  wf_lp : 0 <= or0 (lp_fee_bps s);
  wf_protocol : 0 <= or0 (protocol_fee_bps s);
  wf_creator : 0 <= or0 (creator_fee_bps s);
}.

(** * Fee arithmetic *)

Lemma _fee_nonneg n k : 0 <= n -> 0 <= k -> 0 <= _fee n k.
Proof. intros. unfold _fee, PUMP_FEE_BPS_DEN. apply ceil_div_nonneg; lia. Qed.

Lemma _fee_mono n m k : 0 <= k -> n <= m -> _fee n k <= _fee m k.
Proof. intros. unfold _fee, PUMP_FEE_BPS_DEN. apply ceil_div_mono; [lia|nia]. Qed.

Definition bps_ok (b : bps) : Prop := 0 <= b_lp b /\ 0 <= b_protocol b /\ 0 <= b_creator b.

Lemma bps_of_ok s : pump_wf s -> bps_ok (bps_of s).
Proof. intros [? ? ? ? ?]. by unfold bps_ok, bps_of. Qed.

Lemma fee_sum_nonneg b n : bps_ok b -> 0 <= n -> 0 <= fee_sum b n.
Proof.
  intros (?&?&?) Hn. unfold fee_sum.
  pose proof (_fee_nonneg n (b_lp b)). pose proof (_fee_nonneg n (b_protocol b)).
  pose proof (_fee_nonneg n (b_creator b)). lia.
Qed.

Lemma fee_sum_mono b n m : bps_ok b -> n <= m -> fee_sum b n <= fee_sum b m.
Proof.
  intros (?&?&?) Hn. unfold fee_sum.
  pose proof (_fee_mono n m (b_lp b)). pose proof (_fee_mono n m (b_protocol b)).
  pose proof (_fee_mono n m (b_creator b)). lia.
Qed.

(** What reaches the curve and its fees are covered by what was paid. *)
Lemma effective_in_paid b a :
  bps_ok b -> 0 <= a -> effective_in b a + fee_sum b (effective_in b a) <= a.
Proof.
  intros Hb Ha. unfold effective_in. set (eff := _ / _).
  destruct (Z.ltb_spec a (eff + fee_sum b eff)) as [Hlt|]; [|lia].
  pose proof (fee_sum_mono b (eff - (eff + fee_sum b eff - a)) eff Hb). lia.
Qed.

(** * One leg at a time *)

Lemma sell_leg_spec b rb rq qeff a out rb' rq' :
  bps_ok b -> 0 <= rb -> 0 < qeff -> 0 < a ->
  sell_leg b rb rq qeff a = Some (out, rb', rq') ->
  rb' = rb + a /\ 0 <= rq' <= rq /\ 0 <= out <= rq - rq' /\
  (rb + a) * (rq - rq') <= qeff * a.
Proof.
  intros Hb Hrb Hq Ha. unfold sell_leg. set (gross := _ / _).
  assert (Hg0 : 0 <= gross) by (apply Z.div_pos; nia).
  pose proof (div_bounds (qeff * a) (rb + a) ltac:(lia)) as Hg. fold gross in Hg.
  destruct (Z.ltb_spec gross (fee_sum b gross)) as [|Hfee]; [done|].
  destruct (Z.ltb_spec rq (gross - _fee gross (b_lp b))) as [|Hrq]; [done|].
  intros Heq. injection Heq as <- <- <-. destruct Hb as (Hlp&Hp&Hc).
  pose proof (_fee_nonneg gross (b_lp b) Hg0 Hlp).
  pose proof (_fee_nonneg gross (b_protocol b) Hg0 Hp).
  pose proof (_fee_nonneg gross (b_creator b) Hg0 Hc).
  unfold fee_sum in *. repeat split; try lia; nia.
Qed.

Lemma buy_leg_spec b rb rq qeff a out rb' rq' :
  bps_ok b -> 0 <= rb -> 0 < qeff -> 0 < a ->
  buy_leg b rb rq qeff a = Some (out, rb', rq') ->
  exists net, 0 <= net < a /\ rb' = rb - out /\ 0 < out < rb /\
    out * (qeff + net) <= rb * net /\ rq + net < rq' <= rq + a.
Proof.
  intros Hb Hrb Hq Ha. unfold buy_leg. cbv zeta. set (e := effective_in b a).
  pose proof (effective_in_paid b a Hb ltac:(lia)) as Hpaid. fold e in Hpaid.
  destruct (Z.ltb_spec e 1) as [|He]; [done|].
  set (out0 := _ / _).
  pose proof (div_bounds (rb * (e - 1)) (qeff + (e - 1)) ltac:(lia)) as Ho. fold out0 in Ho.
  assert (Ho0 : 0 <= out0) by (apply Z.div_pos; nia).
  destruct (Z.eqb_spec out0 0) as [|Hn0]; [done|].
  destruct (Z.ltb_spec rb out0) as [|Hle]; [done|]. simpl.
  intros Heq. injection Heq as <- <- <-. destruct Hb as (Hlp&Hp&Hc).
  pose proof (_fee_nonneg e (b_lp b) ltac:(lia) Hlp).
  pose proof (_fee_nonneg e (b_protocol b) ltac:(lia) Hp).
  pose proof (_fee_nonneg e (b_creator b) ltac:(lia) Hc).
  unfold fee_sum in *. exists (e - 1). repeat split; try lia; nia.
Qed.

(** * The whole swap *)

(** Inversion of a successful swap: the guards, the leg, and the snapshot it returns. *)
Lemma apply_swap_inv s a d s' :
  apply_swap s a d = Some s' ->
  exists out, 0 < a /\ 0 < out /\ 0 < qeff_of s /\ rb_of s <> 0 /\ rq_of s <> 0 /\
    total_bps (bps_of s) < PUMP_FEE_BPS_DEN /\ or0 (status s) = 0 /\
    vq_of s' = vq_of s /\
    reserve_base s' = rb_of s' /\ reserve_quote s' = rq_of s' /\
    bps_of s' = Bps 0 0 0 /\
    ((d = PUMP_DIR_BASE_TO_QUOTE /\
      sell_leg (bps_of s) (rb_of s) (rq_of s) (qeff_of s) a = Some (out, rb_of s', rq_of s')) \/
     (d = PUMP_DIR_QUOTE_TO_BASE /\
      buy_leg (bps_of s) (rb_of s) (rq_of s) (qeff_of s) a = Some (out, rb_of s', rq_of s'))).
Proof.
  unfold apply_swap. fold (qeff_of s). intros H.
  destruct (Z.leb_spec a 0); [done|].
  destruct (Z.eqb_spec (or0 (status s)) 0); [|done]. cbn [negb] in H.
  destruct (Z.eqb_spec (rb_of s) 0); [done|]. destruct (Z.eqb_spec (rq_of s) 0); [done|].
  cbn [orb] in H.
  destruct (Z.leb_spec (qeff_of s) 0); [done|].
  destruct (Z.leb_spec PUMP_FEE_BPS_DEN (total_bps (bps_of s))); [done|].
  destruct (Z.eqb_spec d PUMP_DIR_BASE_TO_QUOTE) as [->|];
    [|destruct (Z.eqb_spec d PUMP_DIR_QUOTE_TO_BASE) as [->|]; [|done]];
    (destruct (_ : option (Z * Z * Z)) as [[[out rb'] rq']|] eqn:El in H; [|done]);
    (destruct (Z.leb_spec out 0); [done|]); injection H as <-;
    exists out; repeat (split; [done|]); [left|right]; by split.
Qed.

(** Both vaults stay within their unsigned range. *)
Lemma apply_swap_vaults s a d s' :
  pump_wf s -> apply_swap s a d = Some s' -> 0 < rb_of s' /\ 0 <= rq_of s'.
Proof.
  intros Hwf Hs. pose proof (bps_of_ok s Hwf) as Hb. destruct Hwf as [Hrb Hrq _ _ _].
  apply apply_swap_inv in Hs as (out&Ha&Ho&Hq&Hnb&Hnq&_&_&Hv&_&_&_&[[_ Hl]|[_ Hl]]).
  - apply sell_leg_spec in Hl as (->&?&?&?); [lia|done|lia..].
  - apply buy_leg_spec in Hl as (net&?&->&?&?&?); [lia|done|lia..].
Qed.

(** The snapshot a swap returns can be swapped again: it is well formed, and its fee keys are
    gone. *)
Lemma apply_swap_wf s a d s' : pump_wf s -> apply_swap s a d = Some s' -> pump_wf s'.
Proof.
  intros Hwf Hs. pose proof (apply_swap_vaults s a d s' Hwf Hs) as [? ?].
  apply apply_swap_inv in Hs as (out&_&_&_&_&_&_&_&_&_&_&Hb&_).
  unfold bps_of in Hb. injection Hb as ? ? ?. constructor; lia.
Qed.

#[export] Hint Resolve bps_of_ok apply_swap_wf : plane.

Lemma swap_product s a d s' :
  pump_wf s -> apply_swap s a d = Some s' ->
  rb_of s * qeff_of s <= rb_of s' * qeff_of s'.
Proof.
  intros Hwf Hs.
  pose proof (bps_of_ok s Hwf) as Hb. destruct Hwf as [Hrb Hrq _ _ _].
  apply apply_swap_inv in Hs as (out&Ha&Ho&Hq&Hnb&Hnq&_&_&Hv&_&_&_&[[_ Hl]|[_ Hl]]);
    unfold qeff_of in *; rewrite Hv.
  - apply sell_leg_spec in Hl as (->&?&?&?); [|done|lia..]. nia.
  - apply buy_leg_spec in Hl as (net&?&->&?&?&?); [|done|lia..]. nia.
Qed.

(** On a pool of unsigned reserves and fees a swap never takes value from the pool: the
    product of the base vault and the effective quote (vault plus virtual reserve) after the
    swap is at least the product before, and both vaults stay within their unsigned range. *)
Theorem apply_swap_keeps_product s a d s' :
  pump_wf s -> apply_swap s a d = Some s' ->
  rb_of s * qeff_of s <= rb_of s' * qeff_of s' /\ 0 < rb_of s' /\ 0 <= rq_of s'.
Proof.
  intros Hwf Hs. split; [by eapply swap_product|by eapply apply_swap_vaults].
Qed.

(** A pool with round reserves and the usual 20/5/5 bps, for the witnesses. *)
Definition demo_pool : pump_state :=
  {| base_vault_amount := Some 1000000; quote_vault_amount := Some 2000000;
     virtual_quote_reserves := Some 500000; reserve_base := 1000000; reserve_quote := 2000000;
     virtual_quote := Some 500000; lp_fee_bps := Some 20; protocol_fee_bps := Some 5;
     creator_fee_bps := Some 5; status := Some 0; amount_in := None; direction := None;
     base_amount_out := None |}.

Lemma demo_pool_wf : pump_wf demo_pool.
Proof. constructor; vm_compute; discriminate. Qed.

Lemma apply_swap_keeps_product_witness :
  exists s', apply_swap demo_pool 10000 PUMP_DIR_QUOTE_TO_BASE = Some s' /\
    rb_of demo_pool * qeff_of demo_pool <= rb_of s' * qeff_of s' /\ 0 < rb_of s' /\ 0 <= rq_of s'.
Proof.
  eexists. split; [vm_compute; reflexivity|].
  apply (apply_swap_keeps_product demo_pool 10000 PUMP_DIR_QUOTE_TO_BASE);
    [apply demo_pool_wf | vm_compute; reflexivity].
Defined.

(** Buying base with [a] quote and selling all of it back in the next swap returns at most
    [a] quote: the vault loses no more than the buy put in, whatever the fees. *)
Theorem buy_sell_no_profit s a s1 s2 :
  pump_wf s ->
  apply_swap s a PUMP_DIR_QUOTE_TO_BASE = Some s1 ->
  apply_swap s1 (rb_of s - rb_of s1) PUMP_DIR_BASE_TO_QUOTE = Some s2 ->
  rq_of s1 - rq_of s2 <= a /\ rb_of s2 = rb_of s.
Proof.
  intros Hwf H1 H2. pose proof (apply_swap_wf _ _ _ _ Hwf H1) as Hwf1.
  pose proof (bps_of_ok s Hwf) as Hb. pose proof (bps_of_ok s1 Hwf1) as Hb1.
  destruct Hwf as [Hrb Hrq _ _ _]. destruct Hwf1 as [Hrb1 Hrq1 _ _ _].
  apply apply_swap_inv in H1 as (out&Ha&Ho&Hq&_&_&_&_&Hv&_&_&_&[[? _]|[_ Hl]]); [done|].
  apply apply_swap_inv in H2 as (out2&Ha2&Ho2&Hq2&_&_&_&_&_&_&_&_&[[_ Hl2]|[? _]]); [|done].
  apply buy_leg_spec in Hl as (net&Hn&E1&?&?&?); [|done|lia..].
  apply sell_leg_spec in Hl2 as (E2&?&?&Hs); [|done|lia..].
  split; [|lia]. unfold qeff_of in *. rewrite Hv in *.
  replace (rb_of s1 + (rb_of s - rb_of s1)) with (rb_of s) in Hs by lia.
  replace (rb_of s - rb_of s1) with out in Hs by lia.
  set (leave := rq_of s1 - rq_of s2) in *. set (q := rq_of s + vq_of s) in *.
  assert (rb_of s * leave <= (q + a) * out) by (subst q; nia).
  assert (out * (q + a) <= rb_of s * a) by nia.
  nia.
Qed.

Lemma buy_sell_no_profit_witness :
  exists s1 s2, apply_swap demo_pool 10000 PUMP_DIR_QUOTE_TO_BASE = Some s1 /\
    apply_swap s1 (rb_of demo_pool - rb_of s1) PUMP_DIR_BASE_TO_QUOTE = Some s2 /\
    rq_of s1 - rq_of s2 <= 10000 /\ rb_of s2 = rb_of demo_pool.
Proof.
  eexists _, _. split; [vm_compute; reflexivity|]. split; [vm_compute; reflexivity|].
  apply (buy_sell_no_profit demo_pool 10000); [apply demo_pool_wf|..]; vm_compute; reflexivity.
Defined.

(** * The virtual-reserve search *)

Lemma set_virtual_of s v :
  rb_of (set_virtual s v) = rb_of s /\ rq_of (set_virtual s v) = rq_of s /\
  vq_of (set_virtual s v) = v /\ bps_of (set_virtual s v) = bps_of s /\
  status (set_virtual s v) = status s.
Proof. done. Qed.

(** The exact-vault test of the search and of the final check agree. *)
Lemma virtual_probe_hit s a d urb urq v :
  virtual_probe s a d urb urq v = Hit <->
  exists got, apply_swap (set_virtual s v) a d = Some got /\
    reserve_base got = urb /\ reserve_quote got = urq.
Proof.
  unfold virtual_probe. split.
  - destruct (apply_swap _ _ _) as [got|]; [|done].
    destruct (Z.eqb_spec (reserve_base got) urb), (Z.eqb_spec (reserve_quote got) urq);
      cbn [andb]; [by eauto|..]; repeat case_match; done.
  - intros (got & -> & -> & ->). by rewrite !Z.eqb_refl.
Qed.

(** The final re-check of [invert_virtual] never rejects what its loop found. *)
Lemma invert_virtual_search s a d p :
  invert_virtual s a d p =
  bsearch_run (virtual_probe s a d (rb_of p) (rq_of p)) 0 (10 ^ 18).
Proof.
  unfold invert_virtual. destruct (bsearch_run _ _ _) as [v|] eqn:E; [|done].
  apply bsearch_run_sound in E as [_ E]. apply virtual_probe_hit in E as (got & -> & -> & ->).
  by rewrite !Z.eqb_refl.
Qed.

(** [buy_leg] on a larger effective quote gives no more base and the same quote vault. *)
Lemma buy_leg_antitone b rb rq q1 q2 a out1 rb1 rq1 out2 rb2 rq2 :
  0 <= rb -> 0 < q1 <= q2 ->
  buy_leg b rb rq q1 a = Some (out1, rb1, rq1) ->
  buy_leg b rb rq q2 a = Some (out2, rb2, rq2) -> rb1 <= rb2 /\ rq1 = rq2.
Proof.
  intros Hrb Hq. unfold buy_leg. cbv zeta. set (e := effective_in b a).
  destruct (Z.ltb_spec e 1) as [|He]; [done|].
  assert (Hm : rb * (e - 1) / (q2 + (e - 1)) <= rb * (e - 1) / (q1 + (e - 1)))
    by (apply Z.div_le_compat_l; nia).
  destruct (_ || _); [done|]. destruct (_ || _); [done|].
  intros H1 H2. injection H1 as <- <- <-. injection H2 as <- <- <-. lia.
Qed.

(** A buy that yields base on the larger effective quote yields it on the smaller one. *)
Lemma buy_leg_smaller_q b rb rq q1 q2 a r :
  bps_ok b -> 0 <= rb -> 0 < q1 <= q2 ->
  buy_leg b rb rq q2 a = Some r -> exists out rb' rq',
    buy_leg b rb rq q1 a = Some (out, rb', rq') /\ 0 < out.
Proof.
  intros Hb Hrb Hq. unfold buy_leg. cbv zeta. set (e := effective_in b a).
  destruct (Z.ltb_spec e 1) as [|He]; [done|].
  assert (Hm : rb * (e - 1) / (q2 + (e - 1)) <= rb * (e - 1) / (q1 + (e - 1)))
    by (apply Z.div_le_compat_l; nia).
  pose proof (div_bounds (rb * (e - 1)) (q1 + (e - 1)) ltac:(lia)) as Hd1.
  assert (H0 : 0 <= rb * (e - 1) / (q2 + (e - 1))) by (apply Z.div_pos; nia).
  destruct (Z.eqb_spec (rb * (e - 1) / (q2 + (e - 1))) 0) as [|Hn]; [done|].
  destruct (Z.ltb_spec rb (rb * (e - 1) / (q2 + (e - 1)))); [done|]. intros _.
  set (o := rb * (e - 1) / (q1 + (e - 1))) in *.
  destruct (Z.eqb_spec o 0); [lia|].
  destruct (Z.ltb_spec rb o); [nia|]. simpl. eexists _, _, _. split; [done|lia].
Qed.

(** If the snapshot takes a buy at one virtual reserve, it takes it at every other one at which
    the curve yields base. *)
Lemma apply_buy_other s w v a g out rb' rq' :
  pump_wf s -> 0 < rq_of s -> 0 <= v ->
  apply_swap (set_virtual s w) a PUMP_DIR_QUOTE_TO_BASE = Some g ->
  buy_leg (bps_of s) (rb_of s) (rq_of s) (rq_of s + v) a = Some (out, rb', rq') ->
  exists g', apply_swap (set_virtual s v) a PUMP_DIR_QUOTE_TO_BASE = Some g' /\
    reserve_base g' = rb' /\ reserve_quote g' = rq'.
Proof.
  intros Hwf Hrq Hv Hg Hl. pose proof Hl as Ho.
  apply buy_leg_spec in Ho as (_&_&_&Ho&_);
    [|by apply bps_of_ok|apply Hwf|lia|by apply apply_swap_inv in Hg as (?&?&_)].
  apply apply_swap_inv in Hg as (?&Ha&_&_&Hnb&_&Ht&Hst&_).
  change (status (set_virtual s w)) with (status s) in Hst.
  change (rb_of (set_virtual s w)) with (rb_of s) in Hnb.
  change (bps_of (set_virtual s w)) with (bps_of s) in Ht.
  unfold apply_swap. destruct (set_virtual_of s v) as (->&->&->&->&->).
  rewrite Hst, Hl. destruct (Z.leb_spec a 0); [lia|].
  destruct (Z.eqb_spec (rb_of s) 0); [done|]. destruct (Z.eqb_spec (rq_of s) 0); [lia|].
  destruct (Z.leb_spec (rq_of s + v) 0); [lia|].
  destruct (Z.leb_spec PUMP_FEE_BPS_DEN (total_bps (bps_of s))); [lia|].
  cbn. destruct (Z.leb_spec out 0); [lia|]. by eexists.
Qed.

(** The same buy seen through its leg. *)
Lemma apply_buy_leg s v a g :
  apply_swap (set_virtual s v) a PUMP_DIR_QUOTE_TO_BASE = Some g ->
  exists out, buy_leg (bps_of s) (rb_of s) (rq_of s) (rq_of s + v) a
              = Some (out, reserve_base g, reserve_quote g).
Proof.
  intros Hg. apply apply_swap_inv in Hg as (out&_&_&_&_&_&_&_&_&->&->&_&[[? _]|[_ Hl]]); [done|].
  by exists out.
Qed.

(** When some virtual reserve in the searched range explains a published buy, the search
    finds one that explains it: it terminates with a value in range whose swap gives exactly
    the published vaults. *)
Theorem invert_virtual_buy_complete s a p v g :
  pump_wf s -> 0 < rq_of s -> 0 <= v <= 10 ^ 18 ->
  apply_swap (set_virtual s v) a PUMP_DIR_QUOTE_TO_BASE = Some g ->
  reserve_base g = rb_of p -> reserve_quote g = rq_of p ->
  exists v' g', invert_virtual s a PUMP_DIR_QUOTE_TO_BASE p = Some v' /\ 0 <= v' <= 10 ^ 18 /\
    apply_swap (set_virtual s v') a PUMP_DIR_QUOTE_TO_BASE = Some g' /\
    reserve_base g' = rb_of p /\ reserve_quote g' = rq_of p.
Proof.
  intros Hwf Hrq Hv Hg Hrb' Hrq'. rewrite invert_virtual_search.
  destruct (apply_buy_leg _ _ _ _ Hg) as [out Hl].
  assert (Hs : exists m, bsearch_run (virtual_probe s a PUMP_DIR_QUOTE_TO_BASE (rb_of p)
                                        (rq_of p)) 0 (10 ^ 18) = Some m).
  { apply bsearch_run_complete with v; [done|..]; intros m Hm; unfold virtual_probe.
    - destruct (apply_swap (set_virtual s m) a _) as [gm|] eqn:Em; [|done].
      destruct (apply_buy_leg _ _ _ _ Em) as [om Hlm].
      destruct (_ && _)%bool; [done|]. cbn. destruct (Z.ltb_spec (reserve_base gm) (rb_of p)); [|done].
      intros _. destruct (Z.lt_ge_cases m v) as [|Hge]; [done|].
      destruct (buy_leg_antitone _ _ _ (rq_of s + v) (rq_of s + m) _ _ _ _ _ _ _
                  (wf_rb _ Hwf) ltac:(lia) Hl Hlm). lia.
    - intros Hdn. destruct (Z.lt_ge_cases v m) as [|Hge]; [done|]. exfalso.
      eapply buy_leg_smaller_q with (q1 := rq_of s + m) in Hl as Hm';
        [|by apply bps_of_ok|apply Hwf|lia].
      destruct Hm' as (om&rbm&rqm&Hlm&_).
      destruct (apply_buy_other s v m a g om rbm rqm) as (gm&Em&<-&<-); [done|done|lia|done..|].
      destruct (buy_leg_antitone _ _ _ (rq_of s + m) (rq_of s + v) _ _ _ _ _ _ _
                  (wf_rb _ Hwf) ltac:(lia) Hlm Hl) as [? Erq].
      rewrite Em in Hdn. rewrite <- Hrq', <- Erq, Z.eqb_refl, andb_true_r in Hdn.
      destruct (Z.eqb_spec (reserve_base gm) (rb_of p)); [done|]. cbn in Hdn.
      destruct (Z.ltb_spec (reserve_base gm) (rb_of p)); [done|lia]. }
  destruct Hs as [m Hm]. exists m. pose proof (bsearch_run_sound _ _ _ _ Hm) as [Hr Hh].
  apply virtual_probe_hit in Hh as (g'&?&?&?). by exists g'.
Qed.

Lemma invert_virtual_buy_complete_witness :
  exists g, apply_swap (set_virtual demo_pool 500000) 10000 PUMP_DIR_QUOTE_TO_BASE = Some g /\
  exists v' g', invert_virtual demo_pool 10000 PUMP_DIR_QUOTE_TO_BASE g = Some v' /\
    0 <= v' <= 10 ^ 18 /\
    apply_swap (set_virtual demo_pool v') 10000 PUMP_DIR_QUOTE_TO_BASE = Some g' /\
    reserve_base g' = rb_of g /\ reserve_quote g' = rq_of g.
Proof.
  eexists. split; [vm_compute; reflexivity|].
  eapply (invert_virtual_buy_complete demo_pool 10000 _ 500000);
    [apply demo_pool_wf | vm_compute; reflexivity | vm_compute; split; discriminate
    | vm_compute; reflexivity | vm_compute; reflexivity | vm_compute; reflexivity].
Defined.

(** Whatever [invert_virtual] returns, in either direction, reproduces both published
    vaults exactly. *)
Theorem invert_virtual_sound s a d p v :
  invert_virtual s a d p = Some v ->
  0 <= v <= 10 ^ 18 /\ exists g, apply_swap (set_virtual s v) a d = Some g /\
    rb_of g = rb_of p /\ rq_of g = rq_of p.
Proof.
  rewrite invert_virtual_search. intros [Hr Hh]%bsearch_run_sound. split; [done|].
  apply virtual_probe_hit in Hh as (g&Hg&Eb&Eq). exists g. split; [done|].
  by apply apply_swap_inv in Hg as (?&_&_&_&_&_&_&_&_&<-&<-&_).
Qed.

Lemma invert_virtual_sound_witness :
  exists p v, invert_virtual demo_pool 5000 PUMP_DIR_BASE_TO_QUOTE p = Some v /\
  0 <= v <= 10 ^ 18 /\ exists g, apply_swap (set_virtual demo_pool v) 5000 PUMP_DIR_BASE_TO_QUOTE
    = Some g /\ rb_of g = rb_of p /\ rq_of g = rq_of p.
Proof.
  eexists {| base_vault_amount := None; quote_vault_amount := None;
     virtual_quote_reserves := None; reserve_base := 1005000; reserve_quote := 1987588;
     virtual_quote := None; lp_fee_bps := None; protocol_fee_bps := None;
     creator_fee_bps := None; status := None; amount_in := None; direction := None;
     base_amount_out := None |}, _.
  split; [vm_compute; reflexivity|].
  apply (invert_virtual_sound demo_pool 5000 PUMP_DIR_BASE_TO_QUOTE). vm_compute. reflexivity.
Defined.
