(* ===== verification/PumpFee.v ===== *)
(** The Pump fee schedule of arb-cap/pump012/pump_fee.py: parsers of the FeeConfig,
    GlobalConfig and Pool accounts, the market-cap tier, the schedule a pool is charged and the
    per-component rounding of a buy. *)
From stdpp Require Import base list strings.
From Stdlib Require Import ZArith Lia.
From S2P Require Import Prelude PyBytes Base58 Pda.
Open Scope Z_scope.
Open Scope py_scope.

Definition WSOL : string := "So11111111111111111111111111111111111111112".
Definition USDC : string := "EPjFWdd5AufqSSqeM2qN1xzybapC8G4wEGGkZwyTDt1v".
Definition USDT : string := "Es9vMFrzaCERmJfrF4H2FYD4KCoNkY11McCe8BenwNYB".
Definition BPS_DEN : Z := 10000.

Definition fee_bps (n bps : Z) : Z := if bps =? 0 then 0 else ceil_div (n * bps) BPS_DEN.

(** * Account parsers *)

Definition _pk (raw : bytes) (off : Z) : string := b58encode (slice off (off + 32) raw).
Definition _u64 (raw : bytes) (off : Z) : pyres Z := unpack_u 8 raw off.
Definition _u128 (raw : bytes) (off : Z) : Z := le_dec (slice off (off + 16) raw).

Record fees := Fees { fee_lp : Z; fee_protocol : Z; fee_creator : Z }.
Definition no_fees : fees := Fees 0 0 0.

Definition _fees (raw : bytes) (off : Z) : pyres (fees * Z) :=
  lp <-! _u64 raw off ;;
  pr <-! _u64 raw (off + 8) ;;
  cr <-! _u64 raw (off + 16) ;;
  Ret (Fees lp pr cr, off + 24).

Record tier := Tier { threshold : Z; tier_fees : fees }.

(** [for _ in range(n): ...] *)
Fixpoint tiers_loop (n : nat) (raw : bytes) (off : Z) : pyres (list tier * Z) :=
  match n with
  | O => Ret ([], off)
  | S n' =>
      let thr := _u128 raw off in
      fo <-! _fees raw (off + 16) ;;
      rest <-! tiers_loop n' raw fo.2 ;;
      Ret (Tier thr fo.1 :: rest.1, rest.2)
  end.

Definition _vec_tiers (raw : bytes) (off : Z) : pyres (list tier * Z) :=
  n <-! unpack_u 4 raw off ;;
  tiers_loop (Z.to_nat n) raw (off + 4).

Record fee_config := FeeConfig {
  fc_bump : Z;
  fc_admin : string;
  flat_fees : fees;
  fee_tiers : list tier;
  stable_fee_tiers : list tier;
  exotic_flat_fees : fees;
  fc_bytes : Z;
  fc_tail : Z;
}.

Definition parse_fee_config (raw : bytes) : pyres fee_config :=
  bump <-! py_index raw 8 ;;
  let admin := _pk raw 9 in
  flat <-! _fees raw 41 ;;
  tiers <-! _vec_tiers raw flat.2 ;;
  stable <-! (if tiers.2 + 4 <=? blen raw then _vec_tiers raw tiers.2 else Ret ([], tiers.2)) ;;
  exotic <-! (if stable.2 + 24 <=? blen raw then _fees raw stable.2
              else Ret (no_fees, stable.2)) ;;
  Ret {| fc_bump := bump; fc_admin := admin; flat_fees := flat.1; fee_tiers := tiers.1;
         stable_fee_tiers := stable.1; exotic_flat_fees := exotic.1; fc_bytes := blen raw;
         fc_tail := exotic.2 |}.

Definition _pks (raw : bytes) (off : Z) (n : nat) : list string * Z :=
  ((fun i => _pk raw (off + Z.of_nat i * 32)) <$> seq 0 n, off + Z.of_nat n * 32).

(** [bool(raw[off]) if off < len(raw) else False] *)
Definition flag_at (raw : bytes) (off : Z) : bool :=
  match raw !! Z.to_nat off with Some b => negb (b =? 0) | None => false end.

(** [_pk(raw, off) if off + 32 <= len(raw) else ""] *)
Definition pk_at (raw : bytes) (off : Z) : string :=
  if off + 32 <=? blen raw then _pk raw off else "".

(** [_u64(raw, off) if off + 8 <= len(raw) else 0] *)
Definition u64_at (raw : bytes) (off : Z) : pyres Z :=
  if off + 8 <=? blen raw then _u64 raw off else Ret 0.

Record global_config := GlobalConfig {
  gc_admin : string;
  gc_lp_fee_bps : Z;
  gc_protocol_fee_bps : Z;
  disable_flags : Z;
  protocol_fee_recipients : list string;
  coin_creator_fee_bps : Z;
  admin_set_coin_creator_authority : string;
  whitelist_pda : string;
  reserved_fee_recipient : string;
  mayhem_mode_enabled : bool;
  reserved_fee_recipients : list string;
  is_cashback_enabled : bool;
  buyback_fee_recipients : list string;
  buyback_basis_points : Z;
  boost_authority : string;
  boost_enabled : bool;
  creator_fee_configurable : bool;
  max_configurable_creator_fee_bps : Z;
  gc_bytes : Z;
}.

Definition parse_global_config (raw : bytes) : pyres global_config :=
  let admin := _pk raw 8 in
  lp <-! _u64 raw 40 ;;
  proto <-! _u64 raw 48 ;;
  disable <-! py_index raw 56 ;;
  let recips := _pks raw 57 8 in
  let off := recips.2 in
  creator <-! u64_at raw off ;;
  let admin_set := pk_at raw (off + 8) in
  let whitelist := pk_at raw (off + 40) in
  let reserved := pk_at raw (off + 72) in
  let mayhem := flag_at raw (off + 104) in
  let off := off + 105 in
  let reserved_list := if off + 7 * 32 <=? blen raw then _pks raw off 7 else ([], off) in
  let off := reserved_list.2 in
  let cashback := flag_at raw off in
  let off := off + 1 in
  let buyback := if off + 8 * 32 <=? blen raw then _pks raw off 8 else ([], off) in
  let off := buyback.2 in
  buyback_bps <-! u64_at raw off ;;
  let boost_auth := pk_at raw (off + 8) in
  let boost := flag_at raw (off + 40) in
  let cr_cfg := flag_at raw (off + 41) in
  max_cr <-! u64_at raw (off + 42) ;;
  Ret {| gc_admin := admin; gc_lp_fee_bps := lp; gc_protocol_fee_bps := proto;
         disable_flags := disable; protocol_fee_recipients := recips.1;
         coin_creator_fee_bps := creator; admin_set_coin_creator_authority := admin_set;
         whitelist_pda := whitelist; reserved_fee_recipient := reserved;
         mayhem_mode_enabled := mayhem; reserved_fee_recipients := reserved_list.1;
         is_cashback_enabled := cashback; buyback_fee_recipients := buyback.1;
         buyback_basis_points := buyback_bps; boost_authority := boost_auth;
         boost_enabled := boost; creator_fee_configurable := cr_cfg;
         max_configurable_creator_fee_bps := max_cr; gc_bytes := blen raw |}.

(** The pool fields a fee decision reads; the caller of resolve_fee_state fills the same keys
    by hand ([None]: the key is missing). *)
Record pool_meta := PoolMeta {
  pm_creator : string;
  pm_base_mint : string;
  pm_quote_mint : string;
  pm_coin_creator : string;
  pm_creator_fee_bps : Z;
  pm_virtual : option Z;
  pm_mayhem : Z;
  pm_cashback : Z;
  pm_holder : Z;
  pm_canonical : bool;
}.

Definition byte_at (raw : bytes) (off : Z) : Z := default 0 (raw !! Z.to_nat off).

Definition pk_if (raw : bytes) (off : Z) : string :=
  if off + 32 <=? blen raw then _pk raw off else "".

Definition parse_pool_meta (raw : bytes) : pyres pool_meta :=
  let creator := pk_if raw 11 in
  let base := pk_if raw 43 in
  let quote := pk_if raw 75 in
  let coin_creator := pk_if raw 211 in
  let cr := if 269 <=? blen raw then le_dec (slice 261 269 raw) else 0 in
  let virt := if 261 <=? blen raw then to_signed 16 (le_dec (slice 245 261 raw)) else 0 in
  canonical <-! (if String.eqb base "" || String.eqb creator "" then Ret false
                 else is_pump_pool base creator) ;;
  Ret {| pm_creator := creator; pm_base_mint := base; pm_quote_mint := quote;
         pm_coin_creator := coin_creator; pm_creator_fee_bps := cr; pm_virtual := Some virt;
         pm_mayhem := byte_at raw 243; pm_cashback := byte_at raw 244;
         pm_holder := byte_at raw 270; pm_canonical := canonical |}.

(** * The schedule *)

Definition pool_market_cap (base_supply base_reserve quote_reserve : Z) : Z :=
  if base_reserve <=? 0 then 0 else quote_reserve * base_supply / base_reserve.

(** [for tier in reversed(tiers): if market_cap >= threshold: return fees] *)
Fixpoint first_reached (ts : list tier) (market_cap : Z) : option fees :=
  match ts with
  | [] => None
  | t :: ts' => if threshold t <=? market_cap then Some (tier_fees t)
                else first_reached ts' market_cap
  end.

Definition calculate_fee_tier (tiers : list tier) (market_cap : Z) : fees :=
  match tiers with
  | [] => no_fees
  | first :: _ =>
      if market_cap <? threshold first then tier_fees first
      else match first_reached (reverse tiers) market_cap with
           | Some f => f
           | None => tier_fees first
           end
  end.

Inductive quote_class := QSol | QStable | QExotic.

Definition _quote_class (quote_mint : string) : quote_class :=
  if String.eqb quote_mint WSOL then QSol
  else if String.eqb quote_mint USDC || String.eqb quote_mint USDT then QStable
  else QExotic.

Definition uses_sol_tiers (pool : pool_meta) (gate : string) : pyres bool :=
  if String.eqb gate "isPumpPool" then Ret (pm_canonical pool)
  else if String.eqb gate "coin_creator" then
    Ret (negb (String.eqb (pm_coin_creator pool) "") &&
         negb (String.eqb (pm_coin_creator pool) (b58encode ZERO32)))
  else if String.eqb gate "virtual" then Ret (negb (or0 (pm_virtual pool) =? 0))
  else if String.eqb gate "sol_quote" then Ret (String.eqb (pm_quote_mint pool) WSOL)
  else if String.eqb gate "always" then Ret true
  else Raise (ValueError gate).

Definition any_fee (f : fees) : bool :=
  negb (fee_lp f =? 0) || negb (fee_protocol f =? 0) || negb (fee_creator f =? 0).

Definition schedule_fees (fee_cfg : fee_config) (use_tiers : bool) (quote_mint : string)
    (market_cap : Z) : fees :=
  let q := _quote_class quote_mint in
  if negb use_tiers then flat_fees fee_cfg
  else match q, stable_fee_tiers fee_cfg with
  | QStable, (_ :: _) as ts => calculate_fee_tier ts market_cap
  | QExotic, _ =>
      if any_fee (exotic_flat_fees fee_cfg) then exotic_flat_fees fee_cfg
      else flat_fees fee_cfg
  | _, _ => calculate_fee_tier (fee_tiers fee_cfg) market_cap
  end.

Inductive creator_source := FromPool | FromSchedule.

Definition resolve_creator (schedule_cr pool_cr : Z) (configurable : bool)
    : Z * creator_source :=
  if configurable && (0 <? pool_cr) then (pool_cr, FromPool) else (schedule_cr, FromSchedule).

Inductive fee_source := SrcTier | SrcGlobal | SrcFlat.

Record fee_state := FeeState {
  fs_canonical : bool;
  fs_use_tiers : bool;
  fs_src : fee_source;
  fs_market_cap : Z;
  fs_quote_class : quote_class;
  fs_lp : Z;
  fs_protocol : Z;
  fs_creator : Z;
  fs_creator_source : creator_source;
  fs_schedule_creator : Z;
  fs_buyback_bps : Z;
  fs_protocol_recipients : list string;
  fs_buyback_recipients : list string;
  fs_reserved_recipient : string;
  fs_reserved_recipients : list string;
}.

Definition with_canonical (p : pool_meta) (b : bool) : pool_meta :=
  {| pm_creator := pm_creator p; pm_base_mint := pm_base_mint p;
     pm_quote_mint := pm_quote_mint p; pm_coin_creator := pm_coin_creator p;
     pm_creator_fee_bps := pm_creator_fee_bps p; pm_virtual := pm_virtual p;
     pm_mayhem := pm_mayhem p; pm_cashback := pm_cashback p; pm_holder := pm_holder p;
     pm_canonical := b |}.

(** [pool.get("quote_mint") or WSOL] *)
Definition quote_or_wsol (p : pool_meta) : string :=
  if String.eqb (pm_quote_mint p) "" then WSOL else pm_quote_mint p.

Definition resolve_fee_state (fee_cfg : fee_config) (gcfg : global_config) (pool : pool_meta)
    (base_supply base_reserve quote_reserve : Z) (quote_for_mc : option Z)
    (gate noncanon : string) : pyres fee_state :=
  let qmc := default quote_reserve quote_for_mc in
  let mc := pool_market_cap base_supply base_reserve qmc in
  canonical <-!
    (if negb (pm_canonical pool) && negb (String.eqb (pm_creator pool) "")
        && negb (String.eqb (pm_base_mint pool) "")
     then is_pump_pool (pm_base_mint pool) (pm_creator pool)
     else Ret (pm_canonical pool)) ;;
  let pool := with_canonical pool canonical in
  use_tiers <-! uses_sol_tiers pool gate ;;
  let '(sched, src) :=
    if use_tiers then (schedule_fees fee_cfg true (quote_or_wsol pool) mc, SrcTier)
    else if String.eqb noncanon "global" then
      (Fees (gc_lp_fee_bps gcfg) (gc_protocol_fee_bps gcfg) (coin_creator_fee_bps gcfg),
       SrcGlobal)
    else (schedule_fees fee_cfg false (quote_or_wsol pool) mc, SrcFlat) in
  let '(cr, cr_src) :=
    resolve_creator (fee_creator sched) (pm_creator_fee_bps pool)
      (creator_fee_configurable gcfg) in
  Ret {| fs_canonical := canonical; fs_use_tiers := use_tiers; fs_src := src;
         fs_market_cap := mc; fs_quote_class := _quote_class (quote_or_wsol pool);
         fs_lp := fee_lp sched; fs_protocol := fee_protocol sched; fs_creator := cr;
         fs_creator_source := cr_src; fs_schedule_creator := fee_creator sched;
         fs_buyback_bps := buyback_basis_points gcfg;
         fs_protocol_recipients := protocol_fee_recipients gcfg;
         fs_buyback_recipients := buyback_fee_recipients gcfg;
         fs_reserved_recipient := reserved_fee_recipient gcfg;
         fs_reserved_recipients := reserved_fee_recipients gcfg |}.

(** * Components of a buy *)

Inductive buyback_mode := BAdd | BCarve | BIgnore.

Record components := Components {
  c_effective : Z;
  c_lp : Z;
  c_protocol : Z;
  c_creator : Z;
  c_buyback : Z;
  c_protocol_gross : option Z;
  c_vault : Z;
  c_total_bps : Z;
}.

(** [None] is the answer [{"ok": False}]. *)
Definition buy_components (spendable lp proto creator buyback : Z) (mode : buyback_mode)
    : option components :=
  let tot := match mode with
             | BAdd => lp + proto + creator + buyback
             | _ => lp + proto + creator
             end in
  if BPS_DEN <=? tot then None else
  let eff := spendable * BPS_DEN / (BPS_DEN + tot) in
  let lp_a := fee_bps eff lp in
  let proto_a := fee_bps eff proto in
  let cr_a := fee_bps eff creator in
  match mode with
  | BAdd =>
      let bb_a := fee_bps eff buyback in
      Some (Components eff lp_a proto_a cr_a bb_a None (spendable - proto_a - cr_a - bb_a) tot)
  | BCarve =>
      let bb_a := if buyback =? 0 then 0 else fee_bps proto_a buyback in
      Some (Components eff lp_a (proto_a - bb_a) cr_a bb_a (Some proto_a)
                       (spendable - proto_a - cr_a) tot)
  | BIgnore =>
      Some (Components eff lp_a proto_a cr_a 0 None (spendable - proto_a - cr_a) tot)
  end.

Inductive owner_role := RProtocol | RBuyback | RReserved | ROther.

Definition in_list (x : string) (l : list string) : bool := existsb (String.eqb x) l.

Definition role_owner (owner : string) (gcfg : global_config) : owner_role :=
  if in_list owner (protocol_fee_recipients gcfg) then RProtocol
  else if in_list owner (buyback_fee_recipients gcfg) then RBuyback
  else if String.eqb owner (reserved_fee_recipient gcfg) then RReserved
  else if in_list owner (reserved_fee_recipients gcfg) then RReserved
  else ROther.

(** * The tier of a market cap *)

(** Thresholds in the order the program stores them. *)
Definition tiers_sorted (ts : list tier) : Prop :=
  forall i j t u, ts !! i = Some t -> ts !! j = Some u -> (i <= j)%nat ->
    threshold t <= threshold u.

Lemma first_reached_app ts us m :
  first_reached (ts ++ us) m =
  match first_reached ts m with Some f => Some f | None => first_reached us m end.
Proof. induction ts as [|t ts IH]; [done|]. cbn. by destruct (threshold t <=? m). Qed.

Lemma first_reached_None ts m :
  first_reached ts m = None <-> Forall (fun t => m < threshold t) ts.
Proof.
  induction ts as [|t ts IH]; cbn; [split; [constructor|done]|].
  rewrite Forall_cons. destruct (Z.leb_spec (threshold t) m); [split; [done|lia]|].
  rewrite IH. naive_solver.
Qed.

(** The last tier whose threshold is reached, by position. *)
Lemma first_reached_rev ts m :
  match first_reached (reverse ts) m with
  | Some f => exists i t, ts !! i = Some t /\ f = tier_fees t /\ threshold t <= m /\
      forall j u, ts !! j = Some u -> (i < j)%nat -> m < threshold u
  | None => Forall (fun t => m < threshold t) ts
  end.
Proof.
  induction ts as [|t ts IH] using rev_ind; [constructor|].
  rewrite reverse_app. cbn. destruct (Z.leb_spec (threshold t) m).
  - exists (length ts), t. rewrite lookup_app_r, Nat.sub_diag by done.
    repeat split; [done|]. intros j u Hj Hlt. apply lookup_lt_Some in Hj.
    rewrite length_app in Hj. cbn in Hj. lia.
  - destruct (first_reached (reverse ts) m) as [f|].
    + destruct IH as (i&u&Hi&->&Hu&Hall). exists i, u.
      split; [by apply lookup_app_l_Some|]. split; [done|]. split; [done|].
      intros j v Hj Hlt. apply lookup_app_Some in Hj as [Hj|[_ Hj]]; [by eapply Hall|].
      apply list_lookup_singleton_Some in Hj as [_ <-]. lia.
    + apply Forall_app. split; [done|]. by constructor.
Qed.

(** A pool with tiers pays the tier with the highest threshold its
    market cap reaches, and the first tier when it reaches none: on a sorted tier list the
    chosen tier is the one whose threshold is at most the market cap while the next one's is
    above it. *)
Theorem calculate_fee_tier_spec ts m :
  tiers_sorted ts -> ts <> [] ->
  exists i t, ts !! i = Some t /\ calculate_fee_tier ts m = tier_fees t /\
    (threshold t <= m \/ i = 0%nat) /\
    forall u, ts !! S i = Some u -> m < threshold u.
Proof.
  intros Hs Hne. destruct ts as [|t0 ts]; [done|]. cbn [calculate_fee_tier].
  destruct (Z.ltb_spec m (threshold t0)) as [Hlt|Hge].
  - exists 0%nat, t0. repeat split; [by right|]. intros u Hu.
    pose proof (Hs 0%nat 1%nat t0 u eq_refl Hu ltac:(lia)). lia.
  - pose proof (first_reached_rev (t0 :: ts) m) as H.
    destruct (first_reached _ _) as [f|].
    + destruct H as (i&t&Hi&->&Ht&Hall). exists i, t. repeat split; [done|by left|].
      intros u Hu. apply (Hall (S i) u Hu). lia.
    + apply Forall_cons in H as [? _]. lia.
Qed.

Definition demo_tiers : list tier :=
  [Tier 0 (Fees 2 93 30); Tier 420000000000 (Fees 20 5 95); Tier 1470000000000 (Fees 20 5 90)].

Lemma demo_tiers_sorted : tiers_sorted demo_tiers.
Proof.
  intros [|[|[|i]]] [|[|[|j]]] t u Hi Hj Hle; cbn in *; try lia; try done; simplify_eq; cbn; lia.
Qed.

Lemma calculate_fee_tier_spec_witness :
  exists i t, demo_tiers !! i = Some t /\
    calculate_fee_tier demo_tiers 500000000000 = tier_fees t /\
    (threshold t <= 500000000000 \/ i = 0%nat) /\
    forall u, demo_tiers !! S i = Some u -> 500000000000 < threshold u.
Proof.
  apply (calculate_fee_tier_spec demo_tiers 500000000000); [apply demo_tiers_sorted|discriminate].
Defined.

(** * The account layout, as an encoder

    The Borsh layout of the FeeConfig account: what [parse_fee_config] has to invert. *)

Definition u64_ok (z : Z) : Prop := 0 <= z < 2 ^ 64.
Definition fees_ok (f : fees) : Prop :=
  u64_ok (fee_lp f) /\ u64_ok (fee_protocol f) /\ u64_ok (fee_creator f).
Definition tier_ok (t : tier) : Prop := 0 <= threshold t < 2 ^ 128 /\ fees_ok (tier_fees t).

Definition enc_fees (f : fees) : bytes :=
  le_enc 8 (fee_lp f) ++ le_enc 8 (fee_protocol f) ++ le_enc 8 (fee_creator f).
Definition enc_tier (t : tier) : bytes := le_enc 16 (threshold t) ++ enc_fees (tier_fees t).
Definition enc_tiers (ts : list tier) : bytes :=
  le_enc 4 (Z.of_nat (length ts)) ++ concat (enc_tier <$> ts).

Lemma blen_enc_fees f : blen (enc_fees f) = 24.
Proof. unfold enc_fees. by rewrite !blen_app, !blen_le_enc. Qed.

Lemma blen_enc_tier t : blen (enc_tier t) = 40.
Proof. unfold enc_tier. by rewrite blen_app, blen_le_enc, blen_enc_fees. Qed.

Lemma _fees_enc l1 f l3 :
  fees_ok f -> _fees (l1 ++ enc_fees f ++ l3) (blen l1) = Ret (f, blen l1 + 24).
Proof.
  intros (H1&H2&H3). unfold _fees, enc_fees, _u64. rewrite <- !app_assoc.
  rewrite unpack_u_at by done. cbn [py_bind].
  rewrite (app_assoc l1), unpack_u_at by (rewrite ?blen_app, ?blen_le_enc; done). cbn [py_bind].
  rewrite (app_assoc (l1 ++ _)), unpack_u_at
    by (try done; rewrite !blen_app, !blen_le_enc; lia). by destruct f.
Qed.

Lemma tiers_loop_enc ts l1 l3 :
  Forall tier_ok ts ->
  tiers_loop (length ts) (l1 ++ concat (enc_tier <$> ts) ++ l3) (blen l1)
  = Ret (ts, blen l1 + blen (concat (enc_tier <$> ts))).
Proof.
  intros H. revert l1. induction H as [|t ts [Ht Hf] _ IH]; intros l1.
  - cbn. by rewrite Z.add_0_r.
  - rewrite fmap_cons. cbn [length tiers_loop concat].
    unfold _u128. change (enc_tier t) with (le_enc 16 (threshold t) ++ enc_fees (tier_fees t)).
    rewrite <- !app_assoc.
    rewrite slice_at by (done || by rewrite blen_le_enc).
    rewrite le_dec_enc_small by exact Ht.
    rewrite (app_assoc l1). replace (blen l1 + 16) with (blen (l1 ++ le_enc 16 (threshold t)))
      by by rewrite blen_app, blen_le_enc.
    rewrite _fees_enc by done. cbn [py_bind fst snd].
    rewrite (app_assoc (l1 ++ _)).
    replace (blen (l1 ++ le_enc 16 (threshold t)) + 24)
      with (blen ((l1 ++ le_enc 16 (threshold t)) ++ enc_fees (tier_fees t)))
      by by rewrite (blen_app (l1 ++ _)), blen_enc_fees.
    rewrite IH. cbn [py_bind fst snd]. rewrite !blen_app. destruct t. do 2 f_equal. lia.
Qed.

Lemma _vec_tiers_enc ts l1 l3 :
  Forall tier_ok ts -> Z.of_nat (length ts) < 2 ^ 32 ->
  _vec_tiers (l1 ++ enc_tiers ts ++ l3) (blen l1) = Ret (ts, blen (l1 ++ enc_tiers ts)).
Proof.
  intros H Hn. unfold _vec_tiers, enc_tiers. rewrite <- !app_assoc.
  rewrite unpack_u_at by (done || lia). cbn [py_bind]. rewrite Nat2Z.id.
  rewrite (app_assoc l1).
  replace (blen l1 + 4) with (blen (l1 ++ le_enc 4 (Z.of_nat (length ts))))
    by by rewrite blen_app, blen_le_enc.
  rewrite tiers_loop_enc by done. by rewrite app_assoc, (blen_app (l1 ++ _)).
Qed.

Definition enc_fee_config (disc : bytes) (bump : Z) (admin : bytes) (flat : fees)
    (tiers stable : list tier) (exotic : fees) : bytes :=
  disc ++ [bump] ++ admin ++ enc_fees flat ++ enc_tiers tiers ++ enc_tiers stable
  ++ enc_fees exotic.

(** Decoding an encoded FeeConfig account gives back every field: the
    bump, the admin key, the flat fees, both tier lists in order and the exotic fees. *)
Theorem parse_fee_config_enc disc bump admin flat tiers stable exotic :
  length disc = 8%nat -> length admin = 32%nat -> fees_ok flat -> fees_ok exotic ->
  Forall tier_ok tiers -> Forall tier_ok stable ->
  Z.of_nat (length tiers) < 2 ^ 32 -> Z.of_nat (length stable) < 2 ^ 32 ->
  let raw := enc_fee_config disc bump admin flat tiers stable exotic in
  parse_fee_config raw =
  Ret {| fc_bump := bump; fc_admin := b58encode admin; flat_fees := flat;
         fee_tiers := tiers; stable_fee_tiers := stable; exotic_flat_fees := exotic;
         fc_bytes := blen raw; fc_tail := blen raw |}.
Proof.
  intros Hd Ha Hf He Ht Hs Hnt Hns raw. unfold parse_fee_config.
  set (l1 := disc ++ [bump] ++ admin).
  assert (Hl1 : 41 = blen l1) by (unfold l1; rewrite !blen_app; unfold blen; rewrite Hd, Ha; done).
  assert (Eraw : raw = l1 ++ enc_fees flat ++ enc_tiers tiers ++ enc_tiers stable
                           ++ enc_fees exotic)
    by (unfold raw, enc_fee_config, l1; by rewrite <- !app_assoc).
  assert (Hb : py_index raw 8 = Ret bump).
  { unfold py_index, raw, enc_fee_config. change (Z.to_nat 8) with 8%nat.
    rewrite lookup_app_r by lia. rewrite Hd. done. }
  assert (Hadm : _pk raw 9 = b58encode admin).
  { unfold _pk. f_equal. unfold raw, enc_fee_config. rewrite app_assoc.
    apply slice_at; unfold blen; [by rewrite length_app, Hd|by rewrite Ha]. }
  rewrite Hb, Hadm. cbn [py_bind]. rewrite Eraw, Hl1.
  rewrite _fees_enc by done. cbn [py_bind fst snd].
  replace (blen l1 + 24) with (blen (l1 ++ enc_fees flat)) by by rewrite blen_app, blen_enc_fees.
  rewrite (app_assoc l1), _vec_tiers_enc by done. cbn [py_bind fst snd].
  set (l2 := (l1 ++ enc_fees flat) ++ enc_tiers tiers).
  rewrite (app_assoc (l1 ++ enc_fees flat)). fold l2.
  rewrite (proj2 (Z.leb_le (blen l2 + 4) _))
    by (rewrite (blen_app l2); unfold enc_tiers at 1; rewrite !blen_app, blen_le_enc;
        unfold blen; lia).
  rewrite _vec_tiers_enc by done. cbn [py_bind fst snd].
  rewrite (app_assoc l2). set (l3 := l2 ++ enc_tiers stable).
  rewrite (proj2 (Z.leb_le (blen l3 + 24) _))
    by (rewrite (blen_app l3), blen_enc_fees; lia).
  pose proof (_fees_enc l3 exotic [] He) as Hx. rewrite app_nil_r in Hx. rewrite Hx.
  cbn [py_bind fst snd]. by rewrite (blen_app l3), blen_enc_fees.
Qed.

Lemma parse_fee_config_enc_witness :
  let raw := enc_fee_config (replicate 8 7) 255 (replicate 32 3) (Fees 25 5 0) demo_tiers
               [Tier 0 (Fees 1 1 1)] (Fees 10 20 30) in
  parse_fee_config raw =
  Ret {| fc_bump := 255; fc_admin := b58encode (replicate 32 3); flat_fees := Fees 25 5 0;
         fee_tiers := demo_tiers; stable_fee_tiers := [Tier 0 (Fees 1 1 1)];
         exotic_flat_fees := Fees 10 20 30; fc_bytes := blen raw; fc_tail := blen raw |}.
Proof.
  apply (parse_fee_config_enc (replicate 8 7) 255 (replicate 32 3) (Fees 25 5 0) demo_tiers
           [Tier 0 (Fees 1 1 1)] (Fees 10 20 30));
    repeat constructor; try reflexivity; unfold u64_ok; cbn; lia.
Defined.

(** Which schedule AUTH charges (gate "coin_creator", non-canonical pools
    on flat fees): a pool whose coin-creator key is set and not all zero pays the tiers of its
    market cap, every other pool the flat fees; the creator fee is the pool's own only when it
    is positive and the global config allows it. *)
Theorem resolve_coin_gate fc gc pool supply rb rq st :
  resolve_fee_state fc gc pool supply rb rq None "coin_creator" "flat" = Ret st ->
  let has_creator := pm_coin_creator pool <> "" /\ pm_coin_creator pool <> b58encode ZERO32 in
  let sched := schedule_fees fc (fs_use_tiers st) (quote_or_wsol pool)
                 (pool_market_cap supply rb rq) in
  (fs_use_tiers st = true <-> has_creator) /\
  fs_lp st = fee_lp sched /\ fs_protocol st = fee_protocol sched /\
  fs_creator st =
    (if creator_fee_configurable gc && (0 <? pm_creator_fee_bps pool)
     then pm_creator_fee_bps pool else fee_creator sched).
Proof.
  unfold resolve_fee_state. cbn [default].
  intros (c&_&(u&Hu&H)%py_bind_Ret)%py_bind_Ret. cbn in Hu. injection Hu as <-.
  cbv zeta. assert (Hq : quote_or_wsol (with_canonical pool c) = quote_or_wsol pool) by done.
  rewrite Hq in H. cbn [with_canonical pm_creator_fee_bps] in H.
  set (u := negb _ && negb _) in H.
  assert (Hu : u = true <-> pm_coin_creator pool <> "" /\ pm_coin_creator pool <> b58encode ZERO32).
  { subst u. rewrite andb_true_iff, !negb_true_iff, !String.eqb_neq. done. }
  destruct u; cbn [negb] in H;
    unfold resolve_creator in H;
    (destruct (creator_fee_configurable gc && _); injection H as <-); cbn; by rewrite <- Hu.
Qed.

Definition demo_fee_config : fee_config :=
  {| fc_bump := 255; fc_admin := ""; flat_fees := Fees 25 5 0; fee_tiers := demo_tiers;
     stable_fee_tiers := []; exotic_flat_fees := no_fees; fc_bytes := 0; fc_tail := 0 |}.

Definition demo_global : global_config :=
  {| gc_admin := ""; gc_lp_fee_bps := 20; gc_protocol_fee_bps := 5; disable_flags := 0;
     protocol_fee_recipients := []; coin_creator_fee_bps := 5;
     admin_set_coin_creator_authority := ""; whitelist_pda := ""; reserved_fee_recipient := "";
     mayhem_mode_enabled := false; reserved_fee_recipients := []; is_cashback_enabled := false;
     buyback_fee_recipients := []; buyback_basis_points := 0; boost_authority := "";
     boost_enabled := false; creator_fee_configurable := true;
     max_configurable_creator_fee_bps := 0; gc_bytes := 0 |}.

Definition demo_meta : pool_meta :=
  {| pm_creator := ""; pm_base_mint := ""; pm_quote_mint := WSOL; pm_coin_creator := USDC;
     pm_creator_fee_bps := 70; pm_virtual := None; pm_mayhem := 0; pm_cashback := 0;
     pm_holder := 0; pm_canonical := false |}.

Lemma resolve_coin_gate_witness :
  exists st,
  resolve_fee_state demo_fee_config demo_global demo_meta 1000000000 200000000 1000000000 None
    "coin_creator" "flat" = Ret st /\
  let has_creator := pm_coin_creator demo_meta <> "" /\
                     pm_coin_creator demo_meta <> b58encode ZERO32 in
  let sched := schedule_fees demo_fee_config (fs_use_tiers st) (quote_or_wsol demo_meta)
                 (pool_market_cap 1000000000 200000000 1000000000) in
  (fs_use_tiers st = true <-> has_creator) /\
  fs_lp st = fee_lp sched /\ fs_protocol st = fee_protocol sched /\
  fs_creator st =
    (if creator_fee_configurable demo_global && (0 <? pm_creator_fee_bps demo_meta)
     then pm_creator_fee_bps demo_meta else fee_creator sched).
Proof.
  eexists. split; [vm_compute; reflexivity|].
  apply (resolve_coin_gate demo_fee_config demo_global demo_meta). vm_compute. reflexivity.
Defined.

Lemma fee_bps_bounds n k :
  0 <= n -> 0 <= k -> n * k <= BPS_DEN * fee_bps n k < n * k + BPS_DEN.
Proof.
  intros Hn Hk. unfold fee_bps, BPS_DEN. destruct (Z.eqb_spec k 0) as [->|]; [lia|].
  pose proof (ceil_div_spec (n * k) 10000 ltac:(lia)). lia.
Qed.

(** Every lamport of a buy is accounted for in each buyback mode:
    what stays in the vault plus the protocol, creator and buyback parts is exactly the amount
    spent, no part is negative, and rounding the fees up overshoots the amount spent by at most
    one lamport per charged fee. *)
Theorem buy_components_conserve s lp pr cr bb mode c :
  0 <= s -> 0 <= lp -> 0 <= pr -> 0 <= cr -> 0 <= bb <= BPS_DEN ->
  buy_components s lp pr cr bb mode = Some c ->
  c_vault c + c_protocol c + c_creator c + c_buyback c = s /\
  0 <= c_effective c /\ 0 <= c_lp c /\ 0 <= c_protocol c /\ 0 <= c_creator c /\
  0 <= c_buyback c /\
  c_effective c + c_lp c + c_protocol c + c_creator c + c_buyback c <= s + 3.
Proof.
  intros Hs Hlp Hpr Hcr Hbb. unfold buy_components.
  set (tot := match mode with BAdd => _ | _ => _ end).
  destruct (Z.leb_spec BPS_DEN tot) as [|Ht]; [done|].
  set (eff := s * BPS_DEN / (BPS_DEN + tot)).
  assert (Ht0 : 0 <= tot) by (subst tot; destruct mode; lia).
  assert (HD : 0 < BPS_DEN) by done.
  assert (He : (BPS_DEN + tot) * eff <= s * BPS_DEN)
    by (apply Z.mul_div_le; lia).
  assert (He0 : 0 <= eff) by (apply Z.div_pos; nia).
  pose proof (fee_bps_bounds eff lp He0 Hlp). pose proof (fee_bps_bounds eff pr He0 Hpr).
  pose proof (fee_bps_bounds eff cr He0 Hcr). pose proof (fee_bps_bounds eff bb He0 ltac:(lia)).
  unfold BPS_DEN in *.
  destruct mode; intros [= <-]; cbn [c_vault c_protocol c_creator c_buyback c_effective c_lp].
  - subst tot. repeat split; try lia; nia.
  - assert (Hp0 : 0 <= fee_bps eff pr) by nia.
    pose proof (fee_bps_bounds (fee_bps eff pr) bb Hp0 ltac:(lia)) as Hb. unfold BPS_DEN in Hb.
    assert (0 <= (if bb =? 0 then 0 else fee_bps (fee_bps eff pr) bb) <= fee_bps eff pr)
      by (destruct (bb =? 0); nia).
    subst tot. repeat split; try lia; nia.
  - subst tot. repeat split; try lia; nia.
Qed.

Lemma buy_components_conserve_witness :
  exists c, buy_components 1000000 20 5 30 100 BCarve = Some c /\
  c_vault c + c_protocol c + c_creator c + c_buyback c = 1000000 /\
  0 <= c_effective c /\ 0 <= c_lp c /\ 0 <= c_protocol c /\ 0 <= c_creator c /\
  0 <= c_buyback c /\
  c_effective c + c_lp c + c_protocol c + c_creator c + c_buyback c <= 1000000 + 3.
Proof.
  eexists. split; [vm_compute; reflexivity|].
  apply (buy_components_conserve 1000000 20 5 30 100 BCarve);
    [lia|lia|lia|lia|unfold BPS_DEN; lia|vm_compute; reflexivity].
Defined.
