(* ===== verification/Submap.v ===== *)
(** The universe file to subscription map: arb-state/shyft/submap.py.  Roles of accounts, the
    accounts of one pool, the account -> [(pool, role)] index and the difference of two
    generations' key sets. *)
From stdpp Require Import base list strings gmap sorting.
From Stdlib Require Import ZArith Lia.
From S2P Require Import Prelude PyBytes Base58 Pda.
Open Scope Z_scope.
Open Scope py_scope.

(** * Data *)

(** The [ROLE_*] strings of submap. *)
Inductive role :=
  | ROLE_DLMM_PAIR | ROLE_DLMM_BIN | ROLE_DLMM_ORACLE
  | ROLE_PUMP_POOL | ROLE_PUMP_VAULT_BASE | ROLE_PUMP_VAULT_QUOTE
  | ROLE_PUMP_GLOBAL | ROLE_PUMP_FEE_CONFIG | ROLE_MINT
  | ROLE_CPMM | ROLE_DAMM | ROLE_CLMM | ROLE_ORCA.

#[export] Instance role_eq_dec : EqDecision role.
Proof. solve_decision. Defined.

Inductive kind := Dlmm | Pump.

#[export] Instance kind_eq_dec : EqDecision kind.
Proof. solve_decision. Defined.

(** One pool of liveuniv.json: the keys the sources read, [None] for a missing or null one. *)
Record univ_pool := UnivPool {
  u_proto : option string;
  u_kind : option string;
  u_pubkey : option string;
  u_pk : option string;
  u_idx : option Z;
  u_active : option Z;          (* p["snap"]["lb"]["active_id"] *)
  u_vault_base : option string;
  u_vault_quote : option string;
  u_vault_x : option string;
  u_vault_y : option string;
}.

(** [a or b] on optional strings. *)
Definition or_str (a b : option string) : option string :=
  match a with
  | Some s => if String.eqb s "" then b else a
  | None => b
  end.

(** [str(p.get("proto") or p.get("kind") or "")], read as the two kinds the sources handle. *)
Definition kind_of (p : univ_pool) : option kind :=
  match or_str (u_proto p) (u_kind p) with
  | Some s => if String.eqb s "dlmm" then Some Dlmm
              else if String.eqb s "pump" then Some Pump else None
  | None => None
  end.

(** [if not pk] *)
Definition nonempty (o : option string) : option string := or_str o None.

(** [isinstance(v, str) and len(v) > 20] *)
Definition long_key (o : option string) : option string :=
  match o with
  | Some s => if (20 <? String.length s)%nat then Some s else None
  | None => None
  end.

(** [for idx in idxs: out.append((pda(idx), role))] *)
Fixpoint map_pda (pair : string) (idxs : list Z) : pyres (list string) :=
  match idxs with
  | [] => Ret []
  | i :: rest_idxs =>
      k <-! bin_array_pda pair i ;;
      rest <-! map_pda pair rest_idxs ;;
      Ret (k :: rest)
  end.

(** deps.bin_keys_for_active, and the loop of accounts_for_pool. *)
Definition bin_keys_for_active (pair : string) (active_id : Z) : pyres (list string) :=
  map_pda pair (array_indexes active_id).

(** [if isinstance(v, str) and len(v) > 20: out.append((v, role))] *)
Definition opt_row (o : option string) (r : role) : list (string * role) :=
  match long_key o with Some k => [(k, r)] | None => [] end.

Definition accounts_for_pool (p : univ_pool) : pyres (list (string * role)) :=
  match nonempty (u_pubkey p), kind_of p with
  | Some pk, Some Dlmm =>
      match u_active p with
      | None => Ret [(pk, ROLE_DLMM_PAIR)]
      | Some active =>
          bins <-! bin_keys_for_active pk active ;;
          Ret ((pk, ROLE_DLMM_PAIR) :: ((fun b => (b, ROLE_DLMM_BIN)) <$> bins))
      end
  | Some pk, Some Pump =>
      Ret ((pk, ROLE_PUMP_POOL)
           :: opt_row (or_str (u_vault_base p) (u_vault_x p)) ROLE_PUMP_VAULT_BASE
           ++ opt_row (or_str (u_vault_quote p) (u_vault_y p)) ROLE_PUMP_VAULT_QUOTE)
  | _, _ => Ret []
  end.

(** One dependency row of an account. *)
Record dep_row := DepRow { d_pool_idx : Z; d_role : role; d_kind : kind; d_required : bool }.

#[export] Instance dep_row_eq_dec : EqDecision dep_row.
Proof. solve_decision. Defined.

Abbreviation acc_map := (list (string * list dep_row)).

(** [acc2.setdefault(pk, []).append(row)] *)
Definition push_dep (m : acc_map) (pk : string) (row : dep_row) : acc_map :=
  od_set m pk (default [] (od_get m pk) ++ [row]).

Definition push_deps (m : acc_map) (rows : list (string * dep_row)) : acc_map :=
  foldl (fun m kr => push_dep m kr.1 kr.2) m rows.

Record pool_row := PoolRow { pl_idx : Z; pl_kind : kind; pl_pubkey : option string; pl_n : nat }.

Record submap := Submap { sm_accounts : acc_map; sm_pools : list pool_row }.

Definition idx_of (p : univ_pool) : Z := default (-1) (u_idx p).

(** The loop of [build_submap]; the rows of submap carry no "required" mark. *)
Fixpoint build_from (pools : list univ_pool) (sm : submap) : pyres submap :=
  match pools with
  | [] => Ret sm
  | p :: ps =>
      match kind_of p with
      | Some k =>
          if idx_of p <? 0 then build_from ps sm else
          keys <-! accounts_for_pool p ;;
          build_from ps
            {| sm_pools := sm_pools sm ++ [PoolRow (idx_of p) k (u_pubkey p) (length keys)];
               sm_accounts :=
                 push_deps (sm_accounts sm)
                   ((fun kr => (kr.1, DepRow (idx_of p) kr.2 k false)) <$> keys) |}
      | None => build_from ps sm
      end
  end.

Definition build_submap (univ : list univ_pool) : pyres submap :=
  build_from univ (Submap [] []).

(** [sorted(xs)] on strings. *)
Definition str_le (a b : string) : Prop := Is_true (String.leb a b).
#[export] Instance str_le_dec a b : Decision (str_le a b).
Proof. unfold str_le. apply _. Defined.

Definition py_sorted (s : gset string) : list string := merge_sort str_le (elements s).

(** [(added, removed)] *)
Definition diff_keys (old new : acc_map) : list string * list string :=
  let a : gset string := list_to_set (od_keys old) in
  let b : gset string := list_to_set (od_keys new) in
  (py_sorted (b ∖ a), py_sorted (a ∖ b)).

(** * The index *)

Definition deps_of (m : acc_map) (pk : string) : list dep_row := default [] (od_get m pk).

Lemma deps_of_push m pk row pk' :
  deps_of (push_dep m pk row) pk' =
  deps_of m pk' ++ (if decide (pk = pk') then [row] else []).
Proof.
  unfold deps_of, push_dep. rewrite od_get_set. case_decide; subst; [done|].
  by rewrite app_nil_r.
Qed.

Lemma deps_of_pushes rows m pk :
  deps_of (push_deps m rows) pk =
  deps_of m pk ++ omap (fun kr => if decide (kr.1 = pk) then Some kr.2 else None) rows.
Proof.
  unfold push_deps. revert m. induction rows as [|[k r] rows IH]; intros m; simpl.
  - by rewrite app_nil_r.
  - rewrite IH, deps_of_push, <- app_assoc. f_equal. by case_decide.
Qed.

Lemma elem_of_deps_pushes rows m pk row :
  row ∈ deps_of (push_deps m rows) pk <-> row ∈ deps_of m pk \/ (pk, row) ∈ rows.
Proof.
  rewrite deps_of_pushes, elem_of_app. f_equiv. rewrite list_elem_of_omap. split.
  - intros ([k r]&Hin&Heq). simpl in *. case_decide; [|done]. by simplify_eq.
  - intros Hin. exists (pk, row). split; [done|]. simpl. by rewrite decide_True.
Qed.

Lemma nodup_push_deps rows m : NoDup (od_keys m) -> NoDup (od_keys (push_deps m rows)).
Proof.
  unfold push_deps. revert m. induction rows as [|kr rows IH]; intros m Hm; simpl; [done|].
  apply IH. unfold push_dep. auto with plane.
Qed.

(** The pools [build_submap] keeps. *)
Definition kept (p : univ_pool) (k : kind) : Prop := kind_of p = Some k /\ 0 <= idx_of p.

Lemma build_from_spec pools sm sm' :
  build_from pools sm = Ret sm' ->
  forall pk row, row ∈ deps_of (sm_accounts sm') pk <->
    row ∈ deps_of (sm_accounts sm) pk \/
    exists p k keys r, p ∈ pools /\ kept p k /\ accounts_for_pool p = Ret keys /\
      (pk, r) ∈ keys /\ row = DepRow (idx_of p) r k false.
Proof.
  revert sm. induction pools as [|p pools IH]; intros sm H pk row; cbn [build_from] in H.
  { injection H as <-. split; [by left|]. intros [|(p&k&keys&r&Hin&_)]; [done|].
    by apply elem_of_nil in Hin. }
  assert (Hskip : (forall k, ~ kept p k) -> build_from pools sm = Ret sm' ->
    row ∈ deps_of (sm_accounts sm') pk <-> row ∈ deps_of (sm_accounts sm) pk \/
    exists p' k keys r, p' ∈ p :: pools /\ kept p' k /\ accounts_for_pool p' = Ret keys /\
      (pk, r) ∈ keys /\ row = DepRow (idx_of p') r k false).
  { intros Hn H'. rewrite (IH _ H'). f_equiv. setoid_rewrite elem_of_cons. naive_solver. }
  destruct (kind_of p) as [k|] eqn:Ek; [|apply Hskip; [intros k [Hk _]; congruence|done]].
  destruct (Z.ltb_spec (idx_of p) 0); [apply Hskip; [intros k' [_ ?]; lia|done]|].
  apply py_bind_Ret in H as (keys&Hk&H). rewrite (IH _ H). cbn [sm_accounts].
  rewrite elem_of_deps_pushes. setoid_rewrite elem_of_cons.
  rewrite list_elem_of_fmap. unfold kept. split.
  - intros [[Hl|([k' r]&[= -> ->]&Hin)]|Hr]; [by left| |].
    + right. exists p, k, keys, r. naive_solver.
    + right. naive_solver.
  - intros [Hl|(p'&k'&keys'&r&[->|Hin]&(?&?)&Hacc&Hr&->)]; [left; by left| |].
    + left; right. assert (k' = k) as -> by congruence. exists (pk, r).
      assert (keys' = keys) as -> by congruence. done.
    + right. exists p', k', keys', r. auto.
Qed.

Lemma build_from_nodup pools sm sm' :
  NoDup (od_keys (sm_accounts sm)) -> build_from pools sm = Ret sm' ->
  NoDup (od_keys (sm_accounts sm')).
Proof.
  revert sm. induction pools as [|p pools IH]; intros sm Hm H; cbn [build_from] in H.
  { by injection H as <-. }
  destruct (kind_of p); [|by eapply IH]. destruct (_ <? _); [by eapply IH|].
  apply py_bind_Ret in H as (keys&_&H). eapply IH; [|exact H]. by apply nodup_push_deps.
Qed.

(** The subscription map is exactly the inverse of the per-pool account
    lists: an account carries the row (pool, role) if and only if a DLMM or Pump pool of the
    universe with a nonnegative index lists that account with that role; and no account key
    occurs twice. *)
Theorem build_submap_index univ sm :
  build_submap univ = Ret sm ->
  NoDup (od_keys (sm_accounts sm)) /\
  forall pk row, row ∈ deps_of (sm_accounts sm) pk <->
    exists p k keys r, p ∈ univ /\ kept p k /\ accounts_for_pool p = Ret keys /\
      (pk, r) ∈ keys /\ row = DepRow (idx_of p) r k false.
Proof.
  unfold build_submap. intros H. split; [eapply build_from_nodup; [|exact H]; constructor|].
  intros pk row. rewrite (build_from_spec _ _ _ H). split; [|by right].
  intros [Hnil|]; [by apply elem_of_nil in Hnil | done].
Qed.

Definition demo_pump (i : Z) : univ_pool :=
  {| u_proto := Some "pump"%string; u_kind := None; u_pubkey := Some "Pool1"%string;
     u_pk := None; u_idx := Some i; u_active := None;
     u_vault_base := Some "11111111111111111111111111111111"%string;
     u_vault_quote := None; u_vault_x := None;
     u_vault_y := Some "11111111111111111111111111111112"%string |}.

Lemma build_submap_index_witness :
  exists sm, build_submap [demo_pump 3; demo_pump (-1)] = Ret sm /\
    NoDup (od_keys (sm_accounts sm)) /\
    (DepRow 3 ROLE_PUMP_VAULT_QUOTE Pump false
       ∈ deps_of (sm_accounts sm) "11111111111111111111111111111112").
Proof.
  eexists. split; [reflexivity|].
  pose proof (build_submap_index [demo_pump 3; demo_pump (-1)] _ eq_refl) as [Hnd Hiff].
  split; [exact Hnd|]. apply Hiff. exists (demo_pump 3), Pump. eexists. eexists.
  split; [left|]. split; [split; [reflexivity|vm_compute; discriminate]|].
  split; [reflexivity|]. split; [right; right; left|reflexivity].
Defined.

(** * The difference of two generations *)

Lemma elem_of_py_sorted s x : x ∈ py_sorted s <-> x ∈ s.
Proof. unfold py_sorted. by rewrite merge_sort_Permutation, elem_of_elements. Qed.

Lemma nodup_py_sorted s : NoDup (py_sorted s).
Proof. unfold py_sorted. rewrite merge_sort_Permutation. apply NoDup_elements. Qed.

#[export] Instance str_le_total : Total str_le.
Proof.
  intros a b. unfold str_le. destruct (String.leb_total a b) as [-> | ->]; [left|right]; done.
Qed.

(** Resubscribing by [diff_keys] moves exactly from the old key set to the
    new one: the added keys are the new ones not in the old, the removed keys the converse,
    both lists are sorted and without repetition, and old minus removed plus added is new. *)
Theorem diff_keys_exact old new :
  let '(added, removed) := diff_keys old new in
  Sorted str_le added /\ Sorted str_le removed /\ NoDup added /\ NoDup removed /\
  (forall k, k ∈ added <-> k ∈ od_keys new /\ k ∉ od_keys old) /\
  (forall k, k ∈ removed <-> k ∈ od_keys old /\ k ∉ od_keys new) /\
  (forall k, k ∈ od_keys new <-> k ∈ added \/ (k ∈ od_keys old /\ k ∉ removed)).
Proof.
  unfold diff_keys. cbv zeta.
  repeat (split; [first [apply Sorted_merge_sort; apply _ | apply nodup_py_sorted]|]).
  setoid_rewrite elem_of_py_sorted.
  split; [set_solver|]. split; [set_solver|]. intros k.
  rewrite !elem_of_difference, !elem_of_list_to_set.
  destruct (decide (k ∈ od_keys old)), (decide (k ∈ od_keys new)); naive_solver.
Qed.
