(* ===== verification/TxExpect.v ===== *)
(** What one transaction may write: arb-state/shyft/txexpect.py.  Classification of DEX
    instructions, the expected write set of an exact swap, and the normal form of a geyser
    transaction. *)
From stdpp Require Import base list strings gmap.
From Stdlib Require Import ZArith Lia.
From Stdlib Require String Ascii.
From S2P Require Import Prelude PyBytes Base58 Pda Submap.
Open Scope Z_scope.

(** * Instructions *)

(** [ix["data"]]: raw bytes, or text when the feed did not decode it. *)
Inductive pdata := PStr (s : string) | PBytes (b : bytes).

Record parsed_ix := ParsedIx {
  p_program : string;
  p_accounts : list string;
  p_data : pdata;
  p_outer : nat;
  p_inner : option nat;
}.

(** [ix.get("data") or b""]: empty text is falsy as well; [None] when it is text. *)
Definition data_of (d : pdata) : option bytes :=
  match d with
  | PBytes b => Some b
  | PStr s => if String.eqb s "" then Some [] else None
  end.

Inductive variant := VDlmmSwap2 | VDlmmSwap1 | VPumpSell | VPumpBuyQuote | VPumpBuyOut.

#[export] Instance variant_eq_dec : EqDecision variant.
Proof. solve_decision. Defined.

Definition DLMM_SWAP2 : bytes := [65; 75; 63; 76; 235; 91; 91; 136].
Definition DLMM_SWAP1 : bytes := [248; 198; 158; 145; 225; 117; 135; 200].
Definition PUMP_SELL : bytes := [51; 230; 133; 164; 1; 127; 131; 173].
Definition PUMP_BUY_EQ : bytes := [198; 46; 21; 82; 180; 217; 232; 112].
Definition PUMP_BUY : bytes := [102; 6; 61; 18; 1; 218; 235; 234].

Definition EXACT : list ((string * bytes) * variant) :=
  [((DLMM, DLMM_SWAP2), VDlmmSwap2); ((DLMM, DLMM_SWAP1), VDlmmSwap1);
   ((PUMP, PUMP_SELL), VPumpSell); ((PUMP, PUMP_BUY_EQ), VPumpBuyQuote);
   ((PUMP, PUMP_BUY), VPumpBuyOut)].

Definition classify_ix (program : string) (data : bytes) : option variant :=
  if blen data <? 8 then None else od_get EXACT (program, slice 0 8 data).

Definition is_dex (prog : string) : bool := String.eqb prog DLMM || String.eqb prog PUMP.

Record exact_status := ExactStatus {
  tx_exact : bool; n_exact : nat; n_unknown : nat; variants : list variant }.

(** The loop of [tx_exact_status]: counters and variants. *)
Fixpoint status_loop (ixs : list parsed_ix) (ex un : nat) (vs : list variant)
    : nat * nat * list variant :=
  match ixs with
  | [] => (ex, un, vs)
  | ix :: ixs' =>
      if negb (is_dex (p_program ix)) then status_loop ixs' ex un vs else
      match data_of (p_data ix) with
      | None => status_loop ixs' ex (S un) vs
      | Some data =>
          match classify_ix (p_program ix) data with
          | None => status_loop ixs' ex (S un) vs
          | Some v => status_loop ixs' (S ex) un (vs ++ [v])
          end
      end
  end.

Definition tx_exact_status (ixs : list parsed_ix) : exact_status :=
  let '(ex, un, vs) := status_loop ixs 0 0 [] in
  ExactStatus ((0 <? ex)%nat && (un =? 0)%nat) ex un vs.

(** * Expected writes *)

Fixpoint first_role (rows : list dep_row) (idx : Z) : option role :=
  match rows with
  | [] => None
  | row :: rows' => if d_pool_idx row =? idx then Some (d_role row) else first_role rows' idx
  end.

Definition _role_of (pk : string) (idx : Z) (acc_deps : acc_map) : option role :=
  first_role (deps_of acc_deps pk) idx.

Definition pricing (k : kind) (r : role) : bool :=
  match k, r with
  | Dlmm, (ROLE_DLMM_PAIR | ROLE_DLMM_BIN) => true
  | Pump, (ROLE_PUMP_POOL | ROLE_PUMP_VAULT_BASE | ROLE_PUMP_VAULT_QUOTE) => true
  | _, _ => false
  end.

Definition DLMM_FIXED : nat := 15.

(** The test of the loop body for the account at position [i]. *)
Definition writes_at (k : kind) (pool_idx : Z) (acc_deps : acc_map) (i : nat) (pk : string)
    : bool :=
  match _role_of pk pool_idx acc_deps with
  | Some r => pricing k r
  | None => false
  end ||
  (bool_decide (k = Dlmm) && (DLMM_FIXED <=? i)%nat && negb (is_dex pk)).

Fixpoint expected_loop (k : kind) (pool_idx : Z) (acc_deps : acc_map) (i : nat)
    (accounts : list string) (out : gset string) : gset string :=
  match accounts with
  | [] => out
  | pk :: rest =>
      expected_loop k pool_idx acc_deps (S i) rest
        (if writes_at k pool_idx acc_deps i pk then {[pk]} ∪ out else out)
  end.

Definition expected_for_ix (k : kind) (accounts : list string) (pool_idx : Z)
    (acc_deps : acc_map) : gset string :=
  match accounts with
  | [] => ∅
  | pool :: _ => expected_loop k pool_idx acc_deps 0 accounts {[pool]}
  end.

Record exp_row := ExpRow {
  x_expected : gset string; x_kind : kind; x_pubkey : string; x_variant : variant }.

(** [variant.startswith("dlmm")] *)
Definition variant_kind (v : variant) : kind :=
  match v with VDlmmSwap2 | VDlmmSwap1 => Dlmm | _ => Pump end.

(** The pool an exact swap instruction addresses: variant, accounts, pool key and index. *)
Definition exact_leg (pools_by_pk : gmap string Z) (ix : parsed_ix)
    : option (variant * list string * string * Z) :=
  match data_of (p_data ix) with
  | None => None
  | Some data =>
      match classify_ix (p_program ix) data, p_accounts ix with
      | Some v, pool :: _ =>
          match pools_by_pk !! pool with
          | Some idx => Some (v, p_accounts ix, pool, idx)
          | None => None
          end
      | _, _ => None
      end
  end.

Abbreviation exp_map := (list (Z * exp_row)).

Definition add_leg (acc_deps : acc_map) (by_idx : exp_map)
    (leg : variant * list string * string * Z) : exp_map :=
  let '(v, accs, pool, idx) := leg in
  let k := variant_kind v in
  let exp := expected_for_ix k accs idx acc_deps in
  let row := default (ExpRow ∅ k pool v) (od_get by_idx idx) in
  od_set by_idx idx (ExpRow (x_expected row ∪ exp) (x_kind row) (x_pubkey row) v).

Fixpoint expect_loop (ixs : list parsed_ix) (acc_deps : acc_map) (pools_by_pk : gmap string Z)
    (by_idx : exp_map) : exp_map :=
  match ixs with
  | [] => by_idx
  | ix :: ixs' =>
      expect_loop ixs' acc_deps pools_by_pk
        match exact_leg pools_by_pk ix with
        | Some leg => add_leg acc_deps by_idx leg
        | None => by_idx
        end
  end.

Definition expect_from_instructions (ixs : list parsed_ix) (acc_deps : acc_map)
    (pools_by_pk : gmap string Z) : exp_map :=
  expect_loop ixs acc_deps pools_by_pk [].

(** * Geyser transactions *)

(** A compiled instruction: u8 indexes into the account keys. *)
Record g_ix := GIx { g_prog : nat; g_accs : list nat; g_data : bytes }.

Record g_meta := GMeta {
  g_writable : list bytes; g_readonly : list bytes; g_inner : list (nat * list g_ix) }.

Record g_tx := GTx {
  g_signature : bytes; g_keys : list bytes; g_outer : list g_ix; g_meta_of : option g_meta }.

Definition hex_digit (n : Z) : Ascii.ascii :=
  Ascii.ascii_of_nat (Z.to_nat (if n <? 10 then 48 + n else 87 + n)).
Definition hex (b : bytes) : string :=
  String.string_of_list_ascii (concat ((fun x => [hex_digit (x / 16); hex_digit (x mod 16)]) <$> b)).

Definition _b58 (_pk : bytes -> string) (raw : bytes) : string :=
  match raw with [] => EmptyString | _ => _pk raw end.

Definition _ix_accounts (ix : g_ix) (keys : list string) : list string :=
  omap (fun i => keys !! i) (g_accs ix).

Definition parse_ix (keys : list string) (outer : nat) (inner : option nat) (ix : g_ix)
    : option parsed_ix :=
  match keys !! g_prog ix with
  | Some prog => Some (ParsedIx prog (_ix_accounts ix keys) (PBytes (g_data ix)) outer inner)
  | None => None
  end.

(** ** Execution order: each outer instruction, then its inner ones

    [f outer_ix inner_ordinal ix] is what is kept of an instruction. *)
Section exec_order.
Context {A B : Type} (f : nat -> option nat -> A -> option B).

(** [inners_by.get(i) or []] after the grouping loop. *)
Definition group_of {A} (groups : list (nat * list A)) (i : nat) : list A :=
  concat (omap (fun g => if decide (g.1 = i) then Some g.2 else None) groups).

Definition walk_outer (groups : list (nat * list A)) (i : nat) (ox : A) : list B :=
  option_list (f i None ox) ++
  concat (imap (fun j ix => option_list (f i (Some j) ix)) (group_of groups i)).

Definition walk_all (groups : list (nat * list A)) (outers : list A) : list B :=
  concat (imap (walk_outer groups) outers).
End exec_order.

Definition g_all_keys (_pk : bytes -> string) (tx : g_tx) : list string :=
  _b58 _pk <$> (g_keys tx ++ match g_meta_of tx with
                             | Some m => g_writable m ++ g_readonly m
                             | None => []
                             end).

Definition g_groups (tx : g_tx) : list (nat * list g_ix) :=
  match g_meta_of tx with Some m => g_inner m | None => [] end.

(** [(sig, keys, instructions)] *)
Definition parse_geyser_tx (_pk : bytes -> string) (tx : g_tx)
    : option (string * list string * list parsed_ix) :=
  match g_signature tx with
  | [] => None
  | sig =>
      let keys := g_all_keys _pk tx in
      Some (hex sig, keys, walk_all (parse_ix keys) (g_groups tx) (g_outer tx))
  end.

(** ** Lemmas of the traversal *)

Lemma omap_option_list {A B} (g : A -> option B) (o : option A) :
  omap g (option_list o) = option_list (o ≫= g).
Proof. destruct o as [a|]; [|done]. cbn. by destruct (g a). Qed.

Lemma omap_omap {A B C} (f : A -> option B) (g : B -> option C) (l : list A) :
  omap g (omap f l) = omap (fun x => f x ≫= g) l.
Proof.
  induction l as [|x l IH]; [done|]. cbn [omap list_omap]. destruct (f x) as [y|]; cbn; [|done].
  destruct (g y); by rewrite <- IH.
Qed.

Lemma filter_omap {A} (P : A -> Prop) `{!forall x, Decision (P x)} (l : list A) :
  filter P l = omap (fun x => if decide (P x) then Some x else None) l.
Proof.
  induction l as [|x l IH]; [done|]. rewrite filter_cons. cbn [omap list_omap].
  rewrite <- IH. by case_decide.
Qed.

(** Post-processing what is kept commutes with the traversal. *)
Lemma omap_walk_all {A B C} (f : nat -> option nat -> A -> option B) (g : B -> option C)
    groups outers :
  omap g (walk_all f groups outers) = walk_all (fun i j ix => f i j ix ≫= g) groups outers.
Proof.
  unfold walk_all. rewrite omap_concat, fmap_imap. f_equal. apply imap_ext. intros i ox _.
  unfold walk_outer. cbn [compose]. rewrite omap_app, omap_option_list, omap_concat, fmap_imap.
  do 2 f_equal. apply imap_ext. intros j ix _. apply omap_option_list.
Qed.

Definition map_groups {A B} (h : A -> B) (groups : list (nat * list A)) : list (nat * list B) :=
  (fun g : nat * list A => (g.1, h <$> g.2)) <$> groups.

Lemma group_of_map {A B} (h : A -> B) groups i :
  group_of (map_groups h groups) i = h <$> group_of groups i.
Proof.
  unfold group_of, map_groups. induction groups as [|[k l] groups IH]; [done|].
  rewrite fmap_cons. cbn [omap list_omap fst snd]. case_decide; [|done].
  cbn [concat]. by rewrite fmap_app, IH.
Qed.

Lemma elem_of_group_of {A} (groups : list (nat * list A)) i x :
  x ∈ group_of groups i -> exists k l, (k, l) ∈ groups /\ x ∈ l.
Proof.
  unfold group_of. induction groups as [|[k l] groups IH]; cbn [omap list_omap fst snd concat].
  { intros Hn. by apply elem_of_nil in Hn. }
  case_decide; [|intros Hx; destruct (IH Hx) as (k'&l'&Hin&?); exists k', l';
    split; [by right|done]].
  cbn [concat]. intros [Hx|Hx]%elem_of_app.
  - exists k, l. split; [left|done].
  - destruct (IH Hx) as (k'&l'&Hin&?). exists k', l'. split; [by right|done].
Qed.

(** Two traversals of the same instructions agree when their bodies do. *)
Lemma walk_all_ext {A A' B} (h : A -> A') (f : nat -> option nat -> A' -> option B)
    (f' : nat -> option nat -> A -> option B) groups outers :
  (forall i j ix, (ix ∈ outers \/ exists k l, (k, l) ∈ groups /\ ix ∈ l) ->
     f i j (h ix) = f' i j ix) ->
  walk_all f (map_groups h groups) (h <$> outers) = walk_all f' groups outers.
Proof.
  intros Hf. unfold walk_all. rewrite imap_fmap. f_equal. apply imap_ext. intros i ox Hox.
  unfold walk_outer. cbn [compose]. rewrite Hf by (left; by eapply list_elem_of_lookup_2).
  rewrite group_of_map, imap_fmap. do 2 f_equal. apply imap_ext. intros j ix Hix. cbn [compose].
  rewrite Hf; [done|]. right. eapply elem_of_group_of. by eapply list_elem_of_lookup_2.
Qed.

(** * TX_EXACT *)

(** The classification of one DEX instruction: [None] counts as unknown. *)
Definition ix_variant (ix : parsed_ix) : option variant :=
  match data_of (p_data ix) with
  | Some data => classify_ix (p_program ix) data
  | None => None
  end.

Definition dex_ixs (ixs : list parsed_ix) : list parsed_ix :=
  filter (fun ix => is_dex (p_program ix) = true) ixs.

Lemma length_omap_le {A B} (f : A -> option B) l : (length (omap f l) <= length l)%nat.
Proof.
  induction l as [|x l IH]; [done|]. cbn [omap list_omap length].
  destruct (f x); cbn [length]; lia.
Qed.

Lemma status_loop_spec ixs ex un vs :
  status_loop ixs ex un vs =
  ((ex + length (omap ix_variant (dex_ixs ixs)))%nat,
   (un + (length (dex_ixs ixs) - length (omap ix_variant (dex_ixs ixs))))%nat,
   vs ++ omap ix_variant (dex_ixs ixs)).
Proof.
  revert ex un vs. unfold dex_ixs.
  pose proof (length_omap_le ix_variant) as Hlen.
  induction ixs as [|ix ixs IH]; intros ex un vs; cbn [status_loop].
  { simpl. rewrite app_nil_r. repeat f_equal; lia. }
  rewrite filter_cons. destruct (is_dex (p_program ix)) eqn:Ed; cbn [negb].
  2:{ rewrite decide_False by done. apply IH. }
  rewrite decide_True by done. set (rest := filter _ ixs) in *. specialize (Hlen rest).
  cbn [omap list_omap length].
  destruct (ix_variant ix) as [v|] eqn:Ev; unfold ix_variant in Ev;
    (destruct (data_of (p_data ix)) as [data|]; [rewrite Ev|]; try discriminate Ev);
    rewrite IH; cbn [length]; rewrite <- ?app_assoc; f_equal; f_equal; lia.
Qed.

(** A transaction is TX_EXACT if and only if it has a DLMM or Pump
    instruction and every one of them (undecoded text and unknown discriminators included)
    classifies as a supported exact swap; exact and unknown legs add up to the DEX
    instructions, and the variants are those of the exact legs in order. *)
Theorem tx_exact_status_spec ixs :
  let st := tx_exact_status ixs in
  (tx_exact st = true <->
     dex_ixs ixs <> [] /\ Forall (fun ix => ix_variant ix <> None) (dex_ixs ixs)) /\
  (n_exact st + n_unknown st = length (dex_ixs ixs))%nat /\
  variants st = omap ix_variant (dex_ixs ixs) /\ length (variants st) = n_exact st.
Proof.
  cbv zeta. unfold tx_exact_status. rewrite status_loop_spec. cbn [tx_exact n_exact n_unknown
    variants]. rewrite app_nil_l, !Nat.add_0_l. generalize (dex_ixs ixs). intros l.
  assert (Hl : (length (omap ix_variant l) <= length l)%nat /\
    (length (omap ix_variant l) = length l <-> Forall (fun ix => ix_variant ix <> None) l)).
  { induction l as [|x l [IHl IHf]]; [by split|]. cbn [omap list_omap length].
    rewrite Forall_cons. destruct (ix_variant x); cbn [length]; split; try lia.
    - rewrite <- IHf. naive_solver lia.
    - split; [lia|]. by intros [? _]. }
  destruct Hl as [Hl Hf]. repeat split; try lia.
  - apply andb_true_iff in H as [H1 H2]. apply Nat.ltb_lt in H1. apply Nat.eqb_eq in H2.
    intros ->. simpl in H1. lia.
  - apply andb_true_iff in H as [H1 H2]. apply Nat.eqb_eq in H2. apply Hf. lia.
  - intros [Hne Hall]. apply Hf in Hall. rewrite Hall, Nat.sub_diag. destruct l; done.
Qed.

(** * Expected write sets *)

Lemma expected_loop_spec k idx deps accs i out pk :
  pk ∈ expected_loop k idx deps i accs out <->
  pk ∈ out \/ exists j, accs !! j = Some pk /\ writes_at k idx deps (i + j) pk = true.
Proof.
  revert i out. induction accs as [|a accs IH]; intros i out; cbn [expected_loop].
  { split; [by left|]. intros [|(j&Hj&_)]; [done|]. by rewrite lookup_nil in Hj. }
  rewrite IH. split.
  - intros [Hin|(j&Hj&Hw)].
    + destruct (writes_at k idx deps i a) eqn:Ew; [|by left].
      apply elem_of_union in Hin as [->%elem_of_singleton|]; [|by left].
      right. exists 0%nat. by rewrite Nat.add_0_r.
    + right. exists (S j). split; [done|]. by rewrite Nat.add_succ_r.
  - intros [Hin|([|j]&Hj&Hw)].
    + left. destruct (writes_at _ _ _ _ _); set_solver.
    + injection Hj as ->. rewrite Nat.add_0_r in Hw. rewrite Hw. left. set_solver.
    + right. exists j. split; [done|]. by rewrite Nat.add_succ_r in Hw.
Qed.

Lemma elem_of_expected_for_ix k accs idx deps pk :
  pk ∈ expected_for_ix k accs idx deps <->
  accs !! 0%nat = Some pk \/ exists j, accs !! j = Some pk /\ writes_at k idx deps j pk = true.
Proof.
  destruct accs as [|a accs]; unfold expected_for_ix.
  { split; [set_solver|]. intros [|(j&Hj&_)]; [done|]. by rewrite lookup_nil in Hj. }
  rewrite expected_loop_spec, elem_of_singleton. cbn [lookup list_lookup].
  split; (intros [H|H]; [left; congruence|by right]).
Qed.

Lemma writes_at_spec k idx deps i pk :
  writes_at k idx deps i pk = true <->
  (exists r, _role_of pk idx deps = Some r /\ pricing k r = true) \/
  (k = Dlmm /\ (DLMM_FIXED <= i)%nat /\ pk <> DLMM /\ pk <> PUMP).
Proof.
  unfold writes_at, is_dex. rewrite orb_true_iff, !andb_true_iff, bool_decide_eq_true,
    Nat.leb_le, negb_true_iff, orb_false_iff, !String.eqb_neq.
  destruct (_role_of pk idx deps) as [r|]; naive_solver.
Qed.

(** The accounts an exact swap is expected to write are the pool itself,
    the instruction's accounts whose role for that pool is priced (pair and bin arrays for
    DLMM; pool and vaults for Pump), and for DLMM every account from position 15 on that is not
    a DEX program; nothing outside the instruction's accounts is ever waited for. *)
Theorem expected_for_ix_spec k accs idx deps pk :
  pk ∈ expected_for_ix k accs idx deps <->
  accs !! 0%nat = Some pk \/
  (pk ∈ accs /\ exists r, _role_of pk idx deps = Some r /\ pricing k r = true) \/
  (k = Dlmm /\ pk <> DLMM /\ pk <> PUMP /\
   exists i, (DLMM_FIXED <= i)%nat /\ accs !! i = Some pk).
Proof.
  rewrite elem_of_expected_for_ix. setoid_rewrite writes_at_spec.
  rewrite list_elem_of_lookup. naive_solver.
Qed.

(** ** A whole transaction *)

Lemma expect_loop_spec deps pools ixs m idx :
  let legs := omap (exact_leg pools) ixs in
  let sub := filter (fun l => l.2 = idx) legs in
  od_get (expect_loop ixs deps pools m) idx =
  match od_get m idx, sub with
  | o, [] => o
  | o, (v, _, pool, _) :: _ =>
      let row := default (ExpRow ∅ (variant_kind v) pool v) o in
      Some (ExpRow
        (x_expected row ∪
           ⋃ ((fun l => expected_for_ix (variant_kind l.1.1.1) l.1.1.2 idx deps) <$> sub))
        (x_kind row) (x_pubkey row) (default v ((fun l => l.1.1.1) <$> last sub)))
  end.
Proof.
  cbv zeta. revert m. induction ixs as [|ix ixs IH]; intros m; cbn [expect_loop].
  { simpl. by destruct (od_get m idx). }
  rewrite IH. cbn [omap list_omap]. destruct (exact_leg pools ix) as [[[[v accs] pool] i]|];
    [|done].
  rewrite filter_cons. cbn [snd]. unfold add_leg. rewrite od_get_set.
  case_decide as Hi; [subst i|done].
  set (sub := filter _ _). cbn [fmap list_fmap union_list foldr fst snd].
  destruct sub as [|[[[v' accs'] pool'] i'] sub'] eqn:Es; cbn [default].
  - simpl. repeat f_equal. set_solver.
  - cbn [x_expected x_kind x_pubkey fmap list_fmap union_list foldr fst snd]. f_equal. f_equal.
    + set_solver.
    + rewrite !last_cons. by destruct (last sub').
Qed.

(** The legs of a transaction that address pool [idx]. *)
Definition legs_of (pools : gmap string Z) (idx : Z) (ixs : list parsed_ix)
    : list (variant * list string * string * Z) :=
  filter (fun l => l.2 = idx) (omap (exact_leg pools) ixs).

Lemma elem_of_legs pools idx ixs v accs pool i :
  (v, accs, pool, i) ∈ legs_of pools idx ixs <->
  i = idx /\ exists ix, ix ∈ ixs /\ exact_leg pools ix = Some (v, accs, pool, idx).
Proof.
  unfold legs_of. rewrite list_elem_of_filter, list_elem_of_omap. cbn [snd]. naive_solver.
Qed.

Lemma exact_leg_pool pools ix v accs pool idx :
  exact_leg pools ix = Some (v, accs, pool, idx) -> accs !! 0%nat = Some pool.
Proof.
  unfold exact_leg. destruct (data_of _) as [data|]; [|done].
  destruct (classify_ix _ _); [|done]. destruct (p_accounts ix) as [|a l]; [done|].
  destruct (pools !! a); [|done]. by intros [= <- <- <- <-].
Qed.

Lemma expect_from_get ixs deps pools idx :
  od_get (expect_from_instructions ixs deps pools) idx =
  match legs_of pools idx ixs with
  | [] => None
  | ((v, _, pool, _) :: _) as sub =>
      Some (ExpRow
        (⋃ ((fun l => expected_for_ix (variant_kind l.1.1.1) l.1.1.2 idx deps) <$> sub))
        (variant_kind v) pool (default v ((fun l => l.1.1.1) <$> last sub)))
  end.
Proof.
  unfold expect_from_instructions. rewrite expect_loop_spec. fold (legs_of pools idx ixs).
  cbn [od_get]. destruct (legs_of pools idx ixs) as [|[[[v accs] pool] i] sub]; [done|].
  cbn [default x_expected x_kind x_pubkey]. f_equal. f_equal. apply (left_id_L ∅ (∪)).
Qed.

(** A pool has an expectation if and only if some exact swap
    of the transaction addresses it, and the expected set is the union over all of those swaps
    (several legs on one pool accumulate, other pools never leak in); the pool of each such leg
    is in it, so the set is never empty. *)
Theorem expect_from_instructions_spec ixs deps pools idx :
  let m := expect_from_instructions ixs deps pools in
  let leg v accs pool :=
    exists ix, ix ∈ ixs /\ exact_leg pools ix = Some (v, accs, pool, idx) in
  (is_Some (od_get m idx) <-> exists v accs pool, leg v accs pool) /\
  (forall row, od_get m idx = Some row ->
     (forall pk, pk ∈ x_expected row <->
        exists v accs pool, leg v accs pool /\
          pk ∈ expected_for_ix (variant_kind v) accs idx deps) /\
     (forall v accs pool, leg v accs pool -> pool ∈ x_expected row)).
Proof.
  cbv zeta. rewrite expect_from_get.
  pose proof (elem_of_legs pools idx ixs) as Hin.
  assert (Hex : forall pk : string,
    pk ∈ ⋃ ((fun l => expected_for_ix (variant_kind l.1.1.1) l.1.1.2 idx deps)
             <$> legs_of pools idx ixs) <->
    exists v accs pool, (exists ix, ix ∈ ixs /\ exact_leg pools ix = Some (v, accs, pool, idx)) /\
      pk ∈ expected_for_ix (variant_kind v) accs idx deps).
  { intros pk. rewrite elem_of_union_list. setoid_rewrite list_elem_of_fmap. split.
    - intros (X&([[[v accs] pool] i]&->&Hl)&Hpk). apply Hin in Hl as [-> Hl]. eauto 6.
    - intros (v&accs&pool&Hl&Hpk). eexists. split; [|exact Hpk].
      exists (v, accs, pool, idx). split; [done|]. by apply Hin. }
  assert (Hpool : forall v accs pool, (exists ix, ix ∈ ixs /\
      exact_leg pools ix = Some (v, accs, pool, idx)) ->
    pool ∈ expected_for_ix (variant_kind v) accs idx deps).
  { intros v accs pool (ix&_&Hl). apply elem_of_expected_for_ix. left.
    by apply exact_leg_pool in Hl. }
  destruct (legs_of pools idx ixs) as [|[[[v accs] pool] i] sub] eqn:El.
  - split; [|done]. split; [by intros []|]. intros (v&accs&pool&Hl).
    assert ((v, accs, pool, idx) ∈ @nil (variant * list string * string * Z)) as Hn
      by (by apply Hin). by apply elem_of_nil in Hn.
  - assert (Hl : (v, accs, pool, i) ∈ (v, accs, pool, i) :: sub) by left.
    apply Hin in Hl as [-> Hl]. split; [split; [eauto|by eexists]|].
    intros row [= <-]. cbn [x_expected]. split; [exact Hex|].
    intros v' accs' pool' Hl'. apply Hex. eauto 6.
Qed.
