(* ===== verification/PumpOverlay.v ===== *)
(** The per-transaction Pump overlay: arb-cap/pump012/pump_overlay.py (decode the CPIs of a
    transaction, apply them in execution order to a local copy of the pool) and its geyser-side
    decoder arb-state/shyft/overlay_n.py.

    The kernel is [PumpKernel.apply_swap].  An instruction's account and program indexes are the
    u8 fields of the wire format, hence [nat]. *)
From stdpp Require Import base list strings.
From Stdlib Require Import ZArith Lia.
From S2P Require Import Prelude PyBytes Base58 Pda PumpKernel PumpFee Submap TxExpect.
Open Scope Z_scope.
Open Scope py_scope.

(** * Data *)

Inductive cpi_kind := KSell | KBuyQuoteIn | KBuyExactOut | KUnknown | KOther (name : string).

#[export] Instance cpi_kind_eq_dec : EqDecision cpi_kind.
Proof. solve_decision. Defined.

Record cpi := Cpi {
  c_kind : cpi_kind;
  c_amount : option Z;
  c_max_quote : option Z;
  c_min_out : option Z;
  c_pool : option string;
  c_direction : option Z;
  c_src : option string;
  c_dst : option string;
  c_outer : option nat;
  c_inner : option nat;
  c_user : option string;
}.

Definition SELL : bytes := [51; 230; 133; 164; 1; 127; 131; 173].
Definition BUY_EQ : bytes := [198; 46; 21; 82; 180; 217; 232; 112].
Definition BUY_OUT : bytes := [102; 6; 61; 18; 1; 218; 235; 234].

(** [KIND.get(disc)] *)
Definition KIND (disc : bytes) : option cpi_kind :=
  if decide (disc = SELL) then Some KSell
  else if decide (disc = BUY_EQ) then Some KBuyQuoteIn
  else if decide (disc = BUY_OUT) then Some KBuyExactOut
  else None.

(** * Applying CPIs *)

(** What the search does with the state the kernel answers for a quote amount. *)
Definition exact_out_probe (before : pump_state) (want mid : Z) : probe :=
  match apply_swap before mid PUMP_DIR_QUOTE_TO_BASE with
  | None => GoDown
  | Some got =>
      if reserve_base got =? want then Hit
      else if want <? reserve_base got then GoUp else GoDown
  end.

Definition with_base_out (s : pump_state) (ans base_out : Z) : pump_state :=
  {| base_vault_amount := base_vault_amount s; quote_vault_amount := quote_vault_amount s;
     virtual_quote_reserves := virtual_quote_reserves s; reserve_base := reserve_base s;
     reserve_quote := reserve_quote s; virtual_quote := virtual_quote s;
     lp_fee_bps := lp_fee_bps s; protocol_fee_bps := protocol_fee_bps s;
     creator_fee_bps := creator_fee_bps s; status := status s;
     amount_in := Some ans; direction := Some PUMP_DIR_QUOTE_TO_BASE;
     base_amount_out := Some base_out |}.

(** [max_quote or 10**18] *)
Definition quote_cap (max_quote : option Z) : Z :=
  match max_quote with
  | Some m => if m =? 0 then 10 ^ 18 else m
  | None => 10 ^ 18
  end.

Definition apply_buy_exact_out (before : pump_state) (base_out : Z) (max_quote : option Z)
    : option pump_state :=
  if base_out <=? 0 then None else
  let want := rb_of before - base_out in
  if want <=? 0 then None else
  match bsearch_run (exact_out_probe before want) 1 (quote_cap max_quote) with
  | None => None
  | Some ans =>
      match apply_swap before ans PUMP_DIR_QUOTE_TO_BASE with
      | None => None
      | Some out => if negb (reserve_base out =? want) then None
                    else Some (with_base_out out ans base_out)
      end
  end.

Definition apply_cpi (before : pump_state) (c : cpi) : option pump_state :=
  match c_amount c with
  | None => None
  | Some amt =>
      match c_kind c with
      | KSell => apply_swap before amt PUMP_DIR_BASE_TO_QUOTE
      | KBuyQuoteIn => apply_swap before amt PUMP_DIR_QUOTE_TO_BASE
      | KBuyExactOut => apply_buy_exact_out before amt (c_max_quote c)
      | KUnknown | KOther _ => None
      end
  end.

Definition known_kind (k : cpi_kind) : bool :=
  match k with
  | KSell | KBuyQuoteIn | KBuyExactOut => true
  | KUnknown | KOther _ => false
  end.

Inductive overlay_fail := AssociationAmbiguity | UnsupportedCpi.

#[export] Instance overlay_fail_eq_dec : EqDecision overlay_fail.
Proof. solve_decision. Defined.

(** The loop of [apply_sequence]. *)
Fixpoint apply_each (s : pump_state) (cpis : list cpi) : pump_state + overlay_fail :=
  match cpis with
  | [] => inl s
  | c :: cs =>
      if negb (known_kind (c_kind c)) then inr UnsupportedCpi else
      match apply_cpi s c with
      | None => inr UnsupportedCpi
      | Some nxt => apply_each nxt cs
      end
  end.

Definition is_unknown (c : cpi) : bool :=
  match c_kind c with KUnknown => true | _ => false end.

Definition apply_sequence (s0 : pump_state) (cpis : list cpi) : pump_state + overlay_fail :=
  match cpis with
  | [] => inr AssociationAmbiguity
  | _ => if existsb is_unknown cpis then inr UnsupportedCpi else apply_each s0 cpis
  end.

(** [fee_overlay_state]: the fees of pump_fee in place of the snapshot's, or the snapshot
    unchanged when an input is missing or the resolution raises. *)
Definition fee_overlay_state (s_before : pump_state) (fee_cfg : option fee_config)
    (gcfg : option global_config) (pool : option pool_meta) (supply rb rq : Z) : pump_state :=
  match fee_cfg, gcfg, pool with
  | Some fc, Some gc, Some p =>
      match resolve_fee_state fc gc p supply rb rq None "coin_creator" "flat" with
      | Raise _ => s_before
      | Ret fs =>
          {| base_vault_amount := base_vault_amount s_before;
             quote_vault_amount := quote_vault_amount s_before;
             virtual_quote_reserves := virtual_quote_reserves s_before;
             reserve_base := reserve_base s_before; reserve_quote := reserve_quote s_before;
             virtual_quote := virtual_quote s_before;
             lp_fee_bps := Some (fs_lp fs); protocol_fee_bps := Some (fs_protocol fs);
             creator_fee_bps := Some (fs_creator fs); status := status s_before;
             amount_in := amount_in s_before; direction := direction s_before;
             base_amount_out := base_amount_out s_before |}
      end
  | _, _, _ => s_before
  end.

Inductive overlay_class :=
  | CFail (f : overlay_fail) | CBitExact | CMissingState | CPublicationOrder.

Definition classify_overlay (published : pump_state) (terminal : option pump_state)
    (fail : option overlay_fail) (cpis : list cpi) : overlay_class :=
  match fail with
  | Some f => CFail f
  | None =>
      match cpis with
      | [] => CFail AssociationAmbiguity
      | _ =>
          if existsb is_unknown cpis then CFail UnsupportedCpi else
          match terminal with
          | None => CFail UnsupportedCpi
          | Some t =>
              if (reserve_base t =? reserve_base published) &&
                 (reserve_quote t =? reserve_quote published) then CBitExact
              else if reserve_base t =? reserve_base published then CMissingState
              else CPublicationOrder
          end
      end
  end.

(** * Decoding the CPIs of a transaction *)

Inductive ix_data := DNone | DStr (s : string) | DBytes (b : bytes).

(** The accounts of an instruction: addresses (parsed encoding) or indexes into the keys. *)
Inductive ix_accounts := AStrs (l : list string) | AInts (l : list nat).

Record tx_ix := TxIx {
  ix_program_id : option string;
  ix_program_index : option nat;
  ix_data_of : ix_data;
  ix_accounts_of : ix_accounts;
}.

Record tx_json := TxJson {
  account_keys : list string;
  loaded_writable : list string;
  loaded_readonly : list string;
  outer_instructions : list tx_ix;
  inner_instructions : list (nat * list tx_ix);
}.

Definition flatten_keys (tx : tx_json) : list string :=
  account_keys tx ++ loaded_writable tx ++ loaded_readonly tx.

Definition program_of (ix : tx_ix) (keys : list string) : option string :=
  match ix_program_id ix, ix_program_index ix with
  | Some p, _ => Some p
  | None, Some pi => Some (default EmptyString (keys !! pi))
  | None, None => None
  end.

Definition raw_data (d : ix_data) : bytes :=
  match d with
  | DNone => []
  | DStr s => if String.eqb s "" then [] else
              match b58decode_any s with Ret b => b | Raise _ => [] end
  | DBytes b => b
  end.

Definition accounts_in (a : ix_accounts) (keys : list string) : list string :=
  match a with
  | AStrs l => l
  | AInts l => omap (fun ai => keys !! ai) l
  end.

Definition unknown_cpi (pool : option string) (outer inner : option nat) : cpi :=
  {| c_kind := KUnknown; c_amount := None; c_max_quote := None; c_min_out := None;
     c_pool := pool; c_direction := None; c_src := None; c_dst := None;
     c_outer := outer; c_inner := inner; c_user := None |}.

Definition _decode_ix (ix : tx_ix) (keys : list string) (outer : nat) (inner : option nat)
    : option cpi :=
  if negb (bool_decide (program_of ix keys = Some PUMP)) then None else
  let raw := raw_data (ix_data_of ix) in
  if blen raw <? 16 then Some (unknown_cpi None (Some outer) inner) else
  let a := le_dec (slice 8 16 raw) in
  let b := if 24 <=? blen raw then Some (le_dec (slice 16 24 raw)) else None in
  let accs := accounts_in (ix_accounts_of ix) keys in
  match KIND (slice 0 8 raw) with
  | None => Some (unknown_cpi (accs !! 0%nat) (Some outer) inner)
  | Some kind =>
      let sell := bool_decide (kind = KSell) in
      let exact_out := bool_decide (kind = KBuyExactOut) in
      Some {| c_kind := kind; c_amount := Some a;
              c_max_quote := if exact_out then b else None;
              c_min_out := if exact_out then None else b;
              c_pool := accs !! 0%nat;
              c_direction := Some (if sell then PUMP_DIR_BASE_TO_QUOTE
                                   else PUMP_DIR_QUOTE_TO_BASE);
              c_src := if sell then accs !! 5%nat else accs !! 6%nat;
              c_dst := if sell then accs !! 7%nat else accs !! 8%nat;
              c_outer := Some outer; c_inner := inner; c_user := accs !! 1%nat |}
  end.

Definition walk_cpis (tx : tx_json) : list cpi :=
  let keys := flatten_keys tx in
  walk_all (fun i j ix => _decode_ix ix keys i j) (inner_instructions tx)
           (outer_instructions tx).

Definition cpis_for_pool (tx : tx_json) (pool : string) : list cpi :=
  filter (fun c => c_pool c = Some pool) (walk_cpis tx).

(** ** The geyser-side decoder, overlay_n.cpis_from_parsed *)

Definition kind_of_variant (v : variant) : option cpi_kind :=
  match v with
  | VPumpSell => Some KSell
  | VPumpBuyQuote => Some KBuyQuoteIn
  | VPumpBuyOut => Some KBuyExactOut
  | VDlmmSwap2 | VDlmmSwap1 => None
  end.

Definition cpi_from_parsed (pool : string) (ix : parsed_ix) : option cpi :=
  if negb (String.eqb (p_program ix) PUMP) then None else
  let accs := p_accounts ix in
  if negb (bool_decide (accs !! 0%nat = Some pool)) then None else
  match data_of (p_data ix) with
  | None => Some (unknown_cpi (Some pool) None None)
  | Some data =>
      match v ← classify_ix (p_program ix) data; kind_of_variant v with
      | None => Some (unknown_cpi (Some pool) (Some (p_outer ix)) (p_inner ix))
      | Some kind =>
          let sell := bool_decide (kind = KSell) in
          let amt := if 16 <=? blen data then Some (le_dec (slice 8 16 data)) else None in
          let mx := if 24 <=? blen data then Some (le_dec (slice 16 24 data)) else None in
          Some {| c_kind := kind; c_amount := amt;
                  c_max_quote := if bool_decide (kind = KBuyExactOut) then mx else None;
                  c_min_out := None;
                  c_pool := Some pool;
                  c_direction := Some (if sell then 1 else 0);
                  c_src := if sell && (5 <? length accs)%nat then accs !! 5%nat
                           else accs !! 6%nat;
                  c_dst := if sell && (7 <? length accs)%nat then accs !! 7%nat
                           else accs !! 8%nat;
                  c_outer := Some (p_outer ix); c_inner := p_inner ix; c_user := None |}
      end
  end.

Definition cpis_from_parsed (ixs : list parsed_ix) (pool : string) : list cpi :=
  omap (cpi_from_parsed pool) ixs.

(** * One CPI *)

(** [reserve_base] of a snapshot the kernel returned is its base vault. *)
Lemma apply_swap_reserve s a d s' :
  apply_swap s a d = Some s' -> reserve_base s' = rb_of s' /\ reserve_quote s' = rq_of s'.
Proof. intros Hs. apply apply_swap_inv in Hs as (?&_&_&_&_&_&_&_&_&?&?&_). done. Qed.

Lemma exact_out_inv s base_out mq s' :
  apply_buy_exact_out s base_out mq = Some s' ->
  exists ans got, 0 < base_out < rb_of s /\ 1 <= ans <= quote_cap mq /\
    apply_swap s ans PUMP_DIR_QUOTE_TO_BASE = Some got /\
    rb_of got = rb_of s - base_out /\ s' = with_base_out got ans base_out.
Proof.
  unfold apply_buy_exact_out. intros H.
  destruct (Z.leb_spec base_out 0); [done|]. destruct (Z.leb_spec (rb_of s - base_out) 0); [done|].
  destruct (bsearch_run _ _ _) as [ans|] eqn:Eb in H; [|done].
  destruct (apply_swap s ans PUMP_DIR_QUOTE_TO_BASE) as [got|] eqn:Es; [|done].
  destruct (Z.eqb_spec (reserve_base got) (rb_of s - base_out)) as [Hw|]; [|done].
  cbn [negb] in H. injection H as <-.
  apply bsearch_run_sound in Eb as [? _]. apply apply_swap_reserve in Es as Hr.
  exists ans, got. destruct Hr as [Hr _]. rewrite <- Hr. repeat split; (lia || done).
Qed.

(** The snapshot a CPI leaves has the vaults and fees of one kernel swap. *)
Lemma apply_cpi_swap s c s' :
  apply_cpi s c = Some s' ->
  exists a d got, apply_swap s a d = Some got /\
    rb_of s' = rb_of got /\ rq_of s' = rq_of got /\ qeff_of s' = qeff_of got /\
    bps_of s' = Bps 0 0 0 /\ known_kind (c_kind c) = true.
Proof.
  unfold apply_cpi. destruct (c_amount c) as [amt|]; [|done].
  assert (Hsw : forall d, apply_swap s amt d = Some s' -> exists a d got,
    apply_swap s a d = Some got /\ rb_of s' = rb_of got /\ rq_of s' = rq_of got /\
    qeff_of s' = qeff_of got /\ bps_of s' = Bps 0 0 0).
  { intros d Hd. exists amt, d, s'. apply apply_swap_inv in Hd as Hi.
    destruct Hi as (?&_&_&_&_&_&_&_&_&_&_&?&_). done. }
  destruct (c_kind c); try done.
  - intros (a&d&got&?)%Hsw. exists a, d, got. naive_solver.
  - intros (a&d&got&?)%Hsw. exists a, d, got. naive_solver.
  - intros (ans&got&_&_&Hs&_&->)%exact_out_inv. exists ans, PUMP_DIR_QUOTE_TO_BASE, got.
    apply apply_swap_inv in Hs as Hi. destruct Hi as (?&_&_&_&_&_&_&_&_&_&_&?&_). done.
Qed.

Lemma apply_cpi_wf s c s' : pump_wf s -> apply_cpi s c = Some s' -> pump_wf s'.
Proof.
  intros Hwf (a&d&got&Hs&Hrb&Hrq&_&Hb&_)%apply_cpi_swap.
  pose proof (apply_swap_vaults s a d got Hwf Hs). unfold bps_of in Hb. injection Hb as ? ? ?.
  constructor; lia.
Qed.

Lemma apply_cpi_product s c s' :
  pump_wf s -> apply_cpi s c = Some s' -> rb_of s * qeff_of s <= rb_of s' * qeff_of s'.
Proof.
  intros Hwf (a&d&got&Hs&Hrb&_&Hq&_)%apply_cpi_swap. rewrite Hrb, Hq. by eapply swap_product.
Qed.

(** An exact-out buy either fails or is the kernel's own swap for the quote
    amount it reports: exactly the requested base leaves the vault, the amount lies between 1
    and the user's limit (10^18 when absent or zero), and nothing but the reported amounts
    differs from the kernel's snapshot. *)
Theorem exact_out_sound s base_out mq s' :
  apply_buy_exact_out s base_out mq = Some s' ->
  exists quote_in got,
    amount_in s' = Some quote_in /\ base_amount_out s' = Some base_out /\
    1 <= quote_in <= quote_cap mq /\
    apply_swap s quote_in PUMP_DIR_QUOTE_TO_BASE = Some got /\
    s' = with_base_out got quote_in base_out /\
    rb_of s' = rb_of s - base_out /\ 0 < rb_of s'.
Proof.
  intros (ans&got&Hb&Ha&Hs&Hr&->)%exact_out_inv. exists ans, got.
  change (rb_of (with_base_out got ans base_out)) with (rb_of got).
  repeat split; (done || lia).
Qed.

Lemma exact_out_sound_witness :
  exists s', apply_buy_exact_out demo_pool 3000 (Some 10000) = Some s' /\
    amount_in s' = Some 7548 /\ rb_of s' = 997000.
Proof.
  eexists. split; [vm_compute; reflexivity|].
  pose proof (exact_out_sound demo_pool 3000 (Some 10000) _ ltac:(vm_compute; reflexivity))
    as (q&got&Hq&_&_&_&_&Hr&_).
  split; [vm_compute; reflexivity|]. rewrite Hr. vm_compute. reflexivity.
Defined.

(** * Sequences of CPIs *)

(** The intended meaning: each CPI steps the pool from the snapshot its predecessor left. *)
Inductive cpi_steps : pump_state -> list cpi -> pump_state -> Prop :=
  | steps_nil s : cpi_steps s [] s
  | steps_cons s c s1 cs s2 :
      known_kind (c_kind c) = true -> apply_cpi s c = Some s1 -> cpi_steps s1 cs s2 ->
      cpi_steps s (c :: cs) s2.

Lemma apply_each_steps s cs s' : apply_each s cs = inl s' <-> cpi_steps s cs s'.
Proof.
  split.
  - revert s. induction cs as [|c cs IH]; intros s; cbn [apply_each].
    + intros [= ->]. constructor.
    + destruct (known_kind (c_kind c)) eqn:Ek; [|done]. cbn [negb].
      destruct (apply_cpi s c) as [s1|] eqn:E1; [|done]. intros H.
      by econstructor; [| |apply IH].
  - induction 1 as [|s c s1 cs s2 Hk H1 _ IH]; cbn [apply_each]; [done|].
    by rewrite Hk, H1.
Qed.

Lemma apply_each_fail s cs e : apply_each s cs = inr e -> e = UnsupportedCpi.
Proof.
  revert s. induction cs as [|c cs IH]; intros s; cbn [apply_each]; [done|].
  destruct (negb _); [congruence|]. destruct (apply_cpi s c); [apply IH|congruence].
Qed.

Lemma steps_known s cs s' : cpi_steps s cs s' -> existsb is_unknown cs = false.
Proof.
  induction 1 as [|s c s1 cs s2 Hk _ _ IH]; [done|]. cbn [existsb]. rewrite IH.
  unfold is_unknown. by destruct (c_kind c).
Qed.

Lemma apply_sequence_inl s cs s' :
  apply_sequence s cs = inl s' <-> cs <> [] /\ cpi_steps s cs s'.
Proof.
  destruct cs as [|c cs]; [by split; [|intros []]|]. unfold apply_sequence.
  rewrite <- apply_each_steps. destruct (existsb is_unknown (c :: cs)) eqn:Eu.
  - split; [done|]. intros [_ H]. apply apply_each_steps, steps_known in H. congruence.
  - naive_solver.
Qed.

(** The overlay answers a terminal snapshot exactly when there is at
    least one CPI, all are of a known kind and each one applies to the snapshot its predecessor
    left, in the given order; in every other case it fails closed, with "association_ambiguity"
    for no CPI at all and "unsupported_cpi" otherwise. *)
Theorem apply_sequence_refines s cs r :
  apply_sequence s cs = r <->
  match r with
  | inl s' => cs <> [] /\ cpi_steps s cs s'
  | inr AssociationAmbiguity => cs = []
  | inr UnsupportedCpi => cs <> [] /\ forall s', ~ cpi_steps s cs s'
  end.
Proof.
  destruct r as [s'|[]]; [apply apply_sequence_inl|..].
  - destruct cs as [|c cs]; [done|]. split; [|done]. unfold apply_sequence.
    destruct (existsb _ _); [done|]. intros H. by apply apply_each_fail in H.
  - pose proof (apply_sequence_inl s cs) as Hl. split.
    + intros H. split; [by intros ->|]. intros s' Hs.
      rewrite (proj2 (Hl s')) in H; [done|]. split; [|done]. intros ->. done.
    + intros [Hne Hn]. destruct (apply_sequence s cs) as [s'|e] eqn:E.
      * by destruct (Hn s'), (proj1 (Hl s') eq_refl).
      * destruct cs as [|c cs]; [done|]. unfold apply_sequence in E.
        destruct (existsb _ _); [congruence|]. f_equal. by apply apply_each_fail in E.
Qed.

Lemma steps_invariant s cs s' :
  pump_wf s -> cpi_steps s cs s' ->
  pump_wf s' /\ rb_of s * qeff_of s <= rb_of s' * qeff_of s'.
Proof.
  intros Hwf Hs. induction Hs as [s|s c s1 cs s2 _ H1 _ IH]; [done|].
  destruct IH as [Hwf2 Hp]; [by eapply apply_cpi_wf|]. split; [done|].
  pose proof (apply_cpi_product s c s1 Hwf H1). lia.
Qed.

(** However many CPIs a transaction has, the overlay never predicts a
    pool that lost value: the product of base vault and effective quote at the end is at least
    the one it started from, and the terminal snapshot is a well-formed pool. *)
Theorem overlay_keeps_product s cs s' :
  pump_wf s -> apply_sequence s cs = inl s' ->
  pump_wf s' /\ rb_of s * qeff_of s <= rb_of s' * qeff_of s'.
Proof. intros Hwf [_ Hs]%apply_sequence_inl. by eapply steps_invariant. Qed.

Definition demo_cpi (k : cpi_kind) (amt : Z) : cpi :=
  {| c_kind := k; c_amount := Some amt; c_max_quote := None; c_min_out := None;
     c_pool := None; c_direction := None; c_src := None; c_dst := None;
     c_outer := Some 0%nat; c_inner := None; c_user := None |}.

Lemma overlay_keeps_product_witness :
  exists s', apply_sequence demo_pool [demo_cpi KBuyQuoteIn 5000; demo_cpi KSell 700] = inl s' /\
    pump_wf s' /\ rb_of demo_pool * qeff_of demo_pool <= rb_of s' * qeff_of s'.
Proof.
  eexists. split; [vm_compute; reflexivity|].
  apply (overlay_keeps_product demo_pool [demo_cpi KBuyQuoteIn 5000; demo_cpi KSell 700]);
    [apply demo_pool_wf | vm_compute; reflexivity].
Defined.

(** The same pool with other fees. *)
Definition with_bps (s : pump_state) (b : bps) : pump_state :=
  {| base_vault_amount := base_vault_amount s; quote_vault_amount := quote_vault_amount s;
     virtual_quote_reserves := virtual_quote_reserves s; reserve_base := reserve_base s;
     reserve_quote := reserve_quote s; virtual_quote := virtual_quote s;
     lp_fee_bps := Some (b_lp b); protocol_fee_bps := Some (b_protocol b);
     creator_fee_bps := Some (b_creator b); status := status s; amount_in := amount_in s;
     direction := direction s; base_amount_out := base_amount_out s |}.

(** The kernel's snapshot has no fee keys, so in a sequence every
    CPI after the first is priced at zero fees: on the demonstration pool (20/5/5 bps) a second
    sell is predicted to drain exactly what a feeless sell would, which is more than the same
    sell at the pool's own fees drains from the same vaults. *)
Theorem fees_dropped_after_first :
  (forall s c s1, apply_cpi s c = Some s1 -> bps_of s1 = Bps 0 0 0) /\
  exists s1 s2 s2',
    let c := demo_cpi KSell 50000 in
    apply_cpi demo_pool c = Some s1 /\
    apply_sequence demo_pool [c; c] = inl s2 /\
    apply_cpi (with_bps s1 (bps_of demo_pool)) c = Some s2' /\
    apply_cpi (with_bps s1 (Bps 0 0 0)) c = Some s2 /\
    rq_of s2 < rq_of s2'.
Proof.
  split; [intros s c s1 (a&d&got&_&_&_&_&?&_)%apply_cpi_swap; done|].
  do 3 eexists. cbv zeta. repeat (split; [vm_compute; reflexivity|]). vm_compute. reflexivity.
Qed.

(** The exact-out search lowers its upper bound when the kernel rejects a
    quote amount, also when that amount is rejected for being too small, so it can miss: on a
    pool of 100000 base and 1000 quote at 20/5/5 bps a quote amount of 5, within the user's
    limit of 5, buys exactly 99 base, and the search answers that no amount does. *)
Theorem exact_out_misses :
  exists s base_out q got,
    pump_wf s /\ apply_swap s q PUMP_DIR_QUOTE_TO_BASE = Some got /\
    rb_of got = rb_of s - base_out /\ 1 <= q <= quote_cap (Some q) /\
    apply_buy_exact_out s base_out (Some q) = None.
Proof.
  exists {| base_vault_amount := Some 100000; quote_vault_amount := Some 1000;
            virtual_quote_reserves := Some 0; reserve_base := 100000; reserve_quote := 1000;
            virtual_quote := Some 0; lp_fee_bps := Some 20; protocol_fee_bps := Some 5;
            creator_fee_bps := Some 5; status := Some 0; amount_in := None; direction := None;
            base_amount_out := None |}, 99, 5. eexists.
  split; [constructor; vm_compute; discriminate|]. split; [vm_compute; reflexivity|].
  split; [vm_compute; reflexivity|]. split; [vm_compute; split; discriminate|].
  vm_compute. reflexivity.
Qed.

(** * The two decoders *)

(** The JSON form of a geyser transaction: indexes and raw data, as an RPC answer has them. *)
Definition json_ix (ix : g_ix) : tx_ix :=
  {| ix_program_id := None; ix_program_index := Some (g_prog ix);
     ix_data_of := DBytes (g_data ix); ix_accounts_of := AInts (g_accs ix) |}.

Definition json_of (_pk : bytes -> string) (tx : g_tx) : tx_json :=
  {| account_keys := _b58 _pk <$> g_keys tx;
     loaded_writable := match g_meta_of tx with
                        | Some m => _b58 _pk <$> g_writable m | None => [] end;
     loaded_readonly := match g_meta_of tx with
                        | Some m => _b58 _pk <$> g_readonly m | None => [] end;
     outer_instructions := json_ix <$> g_outer tx;
     inner_instructions := map_groups json_ix (g_groups tx) |}.

Lemma omap_Some {A B} (f : A -> B) (l : list A) : omap (fun x => Some (f x)) l = f <$> l.
Proof. induction l as [|x l IH]; [done|]. cbn. by rewrite IH. Qed.

Lemma flatten_json _pk tx : flatten_keys (json_of _pk tx) = g_all_keys _pk tx.
Proof.
  unfold flatten_keys, json_of, g_all_keys. cbn. rewrite fmap_app. f_equal.
  destruct (g_meta_of tx); [by rewrite fmap_app|done].
Qed.

(** The fields both decoders fill in. *)
Definition common (c : cpi) : cpi :=
  {| c_kind := c_kind c; c_amount := c_amount c; c_max_quote := c_max_quote c;
     c_min_out := None; c_pool := c_pool c; c_direction := c_direction c; c_src := c_src c;
     c_dst := c_dst c; c_outer := c_outer c; c_inner := c_inner c; c_user := None |}.

Lemma KIND_classify d :
  8 <= blen d -> KIND (slice 0 8 d) = (classify_ix PUMP d ≫= kind_of_variant).
Proof.
  intros Hl. unfold classify_ix, KIND. destruct (Z.ltb_spec (blen d) 8); [lia|].
  generalize (slice 0 8 d). intros b. unfold EXACT. cbn [od_get].
  rewrite !(decide_False (P := (_, _) = (_, _))) by (intros [= ? _]; done).
  unfold SELL, BUY_EQ, BUY_OUT, PUMP_SELL, PUMP_BUY_EQ, PUMP_BUY.
  repeat case_decide; simplify_eq; done.
Qed.

Lemma lookup_guard {A} (l : list A) n (o : option A) :
  l !! n = None -> (if (n <? length l)%nat then o else None) = None.
Proof. intros Hn. apply lookup_ge_None in Hn. destruct (Nat.ltb_spec n (length l)); [lia|done]. Qed.

Lemma sell_account {A} (l : list A) n :
  (if (n <? length l)%nat then l !! n else l !! S n) = l !! n.
Proof.
  destruct (Nat.ltb_spec n (length l)) as [|Hn]; [done|].
  rewrite !lookup_ge_None_2 by lia. done.
Qed.

Lemma decode_agree keys pool outer inner ix :
  (keys !! g_prog ix = Some PUMP -> _ix_accounts ix keys !! 0%nat = Some pool ->
     16 <= blen (g_data ix)) ->
  (c ← _decode_ix (json_ix ix) keys outer inner;
     (if decide (c_pool c = Some pool) then Some c else None) ≫= (fun c => Some (common c))) =
  (p ← parse_ix keys outer inner ix; c ← cpi_from_parsed pool p; Some (common c)).
Proof.
  intros H16. unfold _decode_ix, parse_ix, program_of, json_ix. cbn [ix_program_id
    ix_program_index ix_data_of ix_accounts_of raw_data accounts_in].
  fold (_ix_accounts ix keys). destruct (keys !! g_prog ix) as [prog|] eqn:Ep; [|done].
  cbn [default mbind option_bind]. unfold cpi_from_parsed. cbn [p_program p_accounts p_data
    p_outer p_inner data_of]. set (accs := _ix_accounts ix keys) in *.
  destruct (String.eqb_spec prog PUMP) as [->|Hne]; cbn [negb].
  2:{ rewrite bool_decide_eq_false_2; [done|by intros [=]]. }
  rewrite bool_decide_eq_true_2 by done. cbn [negb]. specialize (H16 eq_refl).
  destruct (decide (accs !! 0%nat = Some pool)) as [Hp|Hp].
  - rewrite bool_decide_eq_true_2 by done. specialize (H16 Hp).
    destruct (Z.ltb_spec (blen (g_data ix)) 16); [lia|]. cbn [negb].
    rewrite KIND_classify by lia.
    destruct (classify_ix PUMP (g_data ix) ≫= kind_of_variant) as [k|]; cbn.
    + rewrite Hp, decide_True by done. cbn. f_equal.
      destruct (Z.leb_spec 16 (blen (g_data ix))); [|lia].
      pose proof (sell_account accs 5) as S5. pose proof (sell_account accs 7) as S7.
      cbn in S5, S7. unfold common. cbn. repeat case_bool_decide; simplify_eq; cbn [andb];
        rewrite ?S5, ?S7; done.
    + rewrite Hp, decide_True by done. done.
  - rewrite bool_decide_eq_false_2 by done. cbn [negb].
    destruct (blen (g_data ix) <? 16); [done|].
    destruct (KIND _) as [k|]; cbn; by rewrite decide_False.
Qed.

(** The Pump instructions of a transaction that address the pool carry an amount. *)
Definition no_short_cpi (_pk : bytes -> string) (tx : g_tx) (pool : string) : Prop :=
  forall ix, (ix ∈ g_outer tx \/ exists k l, (k, l) ∈ g_groups tx /\ ix ∈ l) ->
    g_all_keys _pk tx !! g_prog ix = Some PUMP ->
    _ix_accounts ix (g_all_keys _pk tx) !! 0%nat = Some pool -> 16 <= blen (g_data ix).

(** On one transaction the RPC decoder (pump_overlay.cpis_for_pool) and the
    geyser decoder (overlay_n.cpis_from_parsed after parse_geyser_tx) find the same CPIs of a
    pool in the same execution order, with the same kinds, amounts, limits and accounts,
    provided no Pump instruction on that pool has less than 16 bytes of data. *)
Theorem decoders_agree _pk tx pool sig keys ixs :
  parse_geyser_tx _pk tx = Some (sig, keys, ixs) ->
  no_short_cpi _pk tx pool ->
  common <$> cpis_from_parsed ixs pool = common <$> cpis_for_pool (json_of _pk tx) pool.
Proof.
  intros Hp Hs. unfold parse_geyser_tx in Hp.
  destruct (g_signature tx) as [|b sg]; [done|]. injection Hp as <- <- <-.
  rewrite <- !omap_Some. unfold cpis_from_parsed, cpis_for_pool, walk_cpis.
  rewrite flatten_json, filter_omap, !omap_omap, !omap_walk_all.
  symmetry. cbn [json_of outer_instructions inner_instructions].
  apply walk_all_ext. intros i j ix Hix. apply decode_agree. by apply Hs.
Qed.

(** A transaction on pool key 32 x 7 with one outer Pump sell and one inner Pump instruction
    whose data is [d]. *)
Definition pump_key : bytes := Eval vm_compute in
  match b58decode PUMP with Ret b => b | Raise _ => [] end.
Definition pool_key : bytes := replicate 32 7.
Definition demo_sell_data : bytes := SELL ++ le_enc 8 700 ++ le_enc 8 1.
Definition demo_tx (d : bytes) : g_tx :=
  {| g_signature := replicate 64 9; g_keys := [pool_key; pump_key];
     g_outer := [GIx 1 [0%nat; 1%nat] demo_sell_data];
     g_meta_of := Some (GMeta [] [] [(0%nat, [GIx 1 [0%nat] d])]) |}.

Lemma demo_tx_long d pool : 16 <= blen d -> no_short_cpi b58encode (demo_tx d) pool.
Proof.
  intros Hd ix [Hix|(k&l&Hg&Hix)] _ _.
  - apply list_elem_of_singleton in Hix as ->. done.
  - unfold g_groups in Hg. cbn in Hg. apply list_elem_of_singleton in Hg. injection Hg as -> ->.
    by apply list_elem_of_singleton in Hix as ->.
Qed.

Lemma decoders_agree_witness :
  exists sig keys ixs, parse_geyser_tx b58encode (demo_tx demo_sell_data) = Some (sig, keys, ixs)
    /\ length (cpis_from_parsed ixs (b58encode pool_key)) = 2%nat
    /\ common <$> cpis_from_parsed ixs (b58encode pool_key) =
       common <$> cpis_for_pool (json_of b58encode (demo_tx demo_sell_data)) (b58encode pool_key).
Proof.
  do 3 eexists. split; [reflexivity|]. split; [vm_compute; reflexivity|].
  eapply (decoders_agree b58encode (demo_tx demo_sell_data)); [reflexivity|].
  apply demo_tx_long. vm_compute. discriminate.
Defined.

(** The two decoders part on a Pump instruction with less than 16 bytes of
    data: the geyser decoder reports it as unknown, so the sequence fails closed; the RPC
    decoder reports it without a pool and cpis_for_pool then drops it, so the same transaction
    is applied as if the instruction were not there. *)
Theorem short_cpi_dropped :
  exists tx pool sig keys ixs,
    parse_geyser_tx b58encode tx = Some (sig, keys, ixs) /\
    apply_sequence demo_pool (cpis_from_parsed ixs pool) = inr UnsupportedCpi /\
    exists s', apply_sequence demo_pool (cpis_for_pool (json_of b58encode tx) pool) = inl s'.
Proof.
  exists (demo_tx (SELL ++ [1])), (b58encode pool_key). do 3 eexists.
  split; [reflexivity|]. split; [vm_compute; reflexivity|].
  eexists. vm_compute. reflexivity.
Qed.
