(* ===== verification/Accounts.v ===== *)
(** Account decoders and snapshot encoders: parse_lbpair, parse_bin_array and token_amount of
    arb-cap/record_dlmm.py; parse_pump_pool, parse_global, parse_mint_supply, write_dlmm and
    write_pump of arb-cap/live001.py; snap_dlmm of arb-state/shyft/state008.py. *)
From stdpp Require Import base list strings gmap.
From Stdlib Require Import ZArith Lia.
From S2P Require Import Prelude PyBytes Base58 Pda.
Open Scope Z_scope.
Open Scope py_scope.

(** * DLMM pair *)

Definition LBPAIR_DISC : bytes := [33; 11; 49; 98; 181; 101; 177; 13].
Definition BIN_SIZE : Z := 144.
Definition PRICING_K : Z := 16.

Record lb_pair := LbPair {
  base_factor : Z; filter_period : Z; decay_period : Z; reduction_factor : Z;
  variable_fee_control : Z; max_volatility_accumulator : Z;
  protocol_share : Z; base_fee_power_factor : Z; collect_fee_mode : Z;
  vol_acc : Z; vol_ref : Z; idx_ref : Z; last_upd : Z;
  active_id : Z; bin_step : Z; lb_status : Z;
  token_x : bytes; token_y : bytes; vault_x : bytes; vault_y : bytes;
}.

Definition parse_lbpair (data : bytes) : pyres lb_pair :=
  if (blen data <? 904) || negb (bool_decide (slice 0 8 data = LBPAIR_DISC))
  then Raise (ValueError "not LbPair") else
  base_factor <-! unpack_u 2 data 8 ;;
  filter_period <-! unpack_u 2 data 10 ;;
  decay_period <-! unpack_u 2 data 12 ;;
  reduction_factor <-! unpack_u 2 data 14 ;;
  variable_fee_control <-! unpack_u 4 data 16 ;;
  max_volatility <-! unpack_u 4 data 20 ;;
  min_bin_id <-! unpack_s 4 data 24 ;;
  max_bin_id <-! unpack_s 4 data 28 ;;
  protocol_share <-! unpack_u 2 data 32 ;;
  base_fee_power <-! unpack_u 1 data 34 ;;
  function_type <-! unpack_u 1 data 35 ;;
  collect_fee_mode <-! unpack_u 1 data 36 ;;
  vol_acc <-! unpack_u 4 data 40 ;;
  vol_ref <-! unpack_u 4 data 44 ;;
  idx_ref <-! unpack_s 4 data 48 ;;
  last_upd <-! unpack_s 8 data 56 ;;
  active_id <-! unpack_s 4 data 76 ;;
  bin_step <-! unpack_u 2 data 80 ;;
  status <-! unpack_u 1 data 82 ;;
  Ret {| base_factor := base_factor; filter_period := filter_period;
         decay_period := decay_period; reduction_factor := reduction_factor;
         variable_fee_control := variable_fee_control;
         max_volatility_accumulator := max_volatility; protocol_share := protocol_share;
         base_fee_power_factor := base_fee_power; collect_fee_mode := collect_fee_mode;
         vol_acc := vol_acc; vol_ref := vol_ref; idx_ref := idx_ref; last_upd := last_upd;
         active_id := active_id; bin_step := bin_step; lb_status := status;
         token_x := slice 88 120 data; token_y := slice 120 152 data;
         vault_x := slice 152 184 data; vault_y := slice 184 216 data |}.

(** * Bin arrays *)

Record bin := Bin { bin_id : Z; bin_x : Z; bin_y : Z }.

#[export] Instance bin_eq_dec : EqDecision bin.
Proof. solve_decision. Defined.

(** The loop over the 70 bins of the body, from the [i]-th on. *)
Fixpoint bins_from (body : bytes) (lo : Z) (i n : nat) : pyres (list bin) :=
  match n with
  | O => Ret []
  | S n' =>
      let o := 48 + Z.of_nat i * BIN_SIZE in
      ax <-! unpack_u 8 body o ;;
      ay <-! unpack_u 8 body (o + 8) ;;
      rest <-! bins_from body lo (S i) n' ;;
      Ret (Bin (lo + Z.of_nat i) ax ay :: rest)
  end.

Definition parse_bin_array (data : bytes) : pyres (list bin) :=
  if blen data <? 10136 then Ret [] else
  let body := slice 8 (blen data) data in
  index <-! unpack_s 8 body 0 ;;
  bins_from body (index * MAX_BIN) 0 (Z.to_nat MAX_BIN).

Definition token_amount (data : bytes) : pyres Z :=
  if blen data <? 72 then Ret 0 else unpack_u 8 data 64.

(** * Pump accounts *)

Record pump_pool := PumpPool {
  pp_base : bytes; pp_quote : bytes; pp_vault_base : bytes; pp_vault_quote : bytes;
  pp_mayhem : Z; pp_cashback : Z; pp_virtual : Z;
  pp_creator : bytes; pp_coin_creator : bytes; pp_creator_fee_bps : Z; pp_holder : Z;
}.

(** [data[i] if len(data) > i else 0] *)
Definition byte_or_0 (data : bytes) (i : Z) : Z := default 0 (data !! Z.to_nat i).

Definition parse_pump_pool (data : bytes) : option pump_pool :=
  if blen data <? 211 then None else
  let virtual := if 261 <=? blen data then to_signed 16 (le_dec (slice 245 261 data)) else 0 in
  if (261 <=? blen data) && ((2 ^ 63 - 1 <? virtual) || (virtual <? - 2 ^ 63)) then None else
  Some {| pp_base := slice 43 75 data; pp_quote := slice 75 107 data;
          pp_vault_base := slice 139 171 data; pp_vault_quote := slice 171 203 data;
          pp_mayhem := byte_or_0 data 243; pp_cashback := byte_or_0 data 244;
          pp_virtual := virtual;
          pp_creator := slice 11 43 data;
          pp_coin_creator := if 243 <=? blen data then slice 211 243 data else [];
          pp_creator_fee_bps := if 269 <=? blen data then le_dec (slice 261 269 data) else 0;
          pp_holder := byte_or_0 data 270 |}.

Definition parse_mint_supply (data : bytes) : Z :=
  if blen data <? 44 then 0 else le_dec (slice 36 44 data).

(** [(lp, proto, creator, disabled)] *)
Definition parse_global (data : bytes) : pyres (Z * Z * Z * Z) :=
  if blen data <? 57 then Ret (20, 5, 0, 0) else
  lp <-! unpack_u 8 data 40 ;;
  proto <-! unpack_u 8 data 48 ;;
  disabled <-! py_index data 56 ;;
  creator <-! (if 57 + 32 * 8 + 8 <=? blen data then unpack_u 8 data (57 + 32 * 8) else Ret 0) ;;
  if (10000 <? lp) || (10000 <? proto) || (10000 <? creator) then Ret (20, 5, 0, disabled)
  else Ret (lp, proto, creator, disabled).

(** * The DLMM snapshot *)

Record dlmm_snap := DlmmSnap {
  sn_lb : lb_pair;
  sn_bins : list bin;
  sn_reserve_x : Z;
  sn_reserve_y : Z;
}.

Definition sum_by (f : bin -> Z) (l : list bin) : Z := foldr (fun b acc => f b + acc) 0 l.

Definition in_window (active : Z) (b : bin) : Prop := Z.abs (bin_id b - active) <= PRICING_K.
#[export] Instance in_window_dec active b : Decision (in_window active b).
Proof. unfold in_window. apply _. Defined.

(** [for raw in bin_datas: bins.extend(d.parse_bin_array(raw))] *)
Fixpoint parse_bin_arrays (raws : list bytes) : pyres (list bin) :=
  match raws with
  | [] => Ret []
  | raw :: raws' =>
      b <-! parse_bin_array raw ;;
      rest <-! parse_bin_arrays raws' ;;
      Ret (b ++ rest)
  end.

(** The answer [None] of the code is [Ret None]; an exception of parse_lbpair is caught, one of
    parse_bin_array is not. *)
Definition snap_dlmm (pair_data : bytes) (bin_datas : list bytes) : pyres (option dlmm_snap) :=
  match parse_lbpair pair_data with
  | Raise _ => Ret None
  | Ret lb =>
      bins <-! parse_bin_arrays bin_datas ;;
      match filter (in_window (active_id lb)) bins with
      | [] => Ret None
      | use => Ret (Some (DlmmSnap lb use (sum_by bin_x use) (sum_by bin_y use)))
      end
  end.

(** * The snapshot blobs written to AUTH *)

(** Concatenate the packed fields, stopping at the first one out of range. *)
Fixpoint pack_all (fs : list (pyres bytes)) : pyres bytes :=
  match fs with
  | [] => Ret []
  | f :: fs' =>
      b <-! f ;;
      rest <-! pack_all fs' ;;
      Ret (b ++ rest)
  end.

(** First bin of each id, in order. *)
Fixpoint dedup_bins (seen : list Z) (bs : list bin) : list bin :=
  match bs with
  | [] => []
  | b :: bs' => if decide (bin_id b ∈ seen) then dedup_bins seen bs'
                else b :: dedup_bins (bin_id b :: seen) bs'
  end.

(** [bins.sort(key=lambda x: x["id"])]: insertion keeps equal keys in order. *)
Fixpoint insert_bin (b : bin) (bs : list bin) : list bin :=
  match bs with
  | [] => [b]
  | c :: bs' => if bin_id b <=? bin_id c then b :: bs else c :: insert_bin b bs'
  end.
Definition sort_bins (bs : list bin) : list bin := foldr insert_bin [] bs.

Definition write_bins (bs : list bin) : list (pyres bytes) :=
  concat ((fun b => [pack_s 4 (bin_id b); pack_u 8 (bin_x b); pack_u 8 (bin_y b)]) <$> bs).

(** [now] is [int(time.time())]. *)
Definition write_dlmm (now : Z) (snap : dlmm_snap) : pyres bytes :=
  let lb := sn_lb snap in
  let bins := sort_bins (dedup_bins [] (filter (in_window (active_id lb)) (sn_bins snap))) in
  pack_all (
    [pack_s 4 (active_id lb); pack_u 2 (bin_step lb); pack_u 1 (lb_status lb);
     pack_u 2 (base_factor lb); pack_u 2 (filter_period lb); pack_u 2 (decay_period lb);
     pack_u 2 (reduction_factor lb); pack_u 4 (variable_fee_control lb);
     pack_u 4 (max_volatility_accumulator lb); pack_u 2 (protocol_share lb);
     pack_u 1 (base_fee_power_factor lb); pack_u 1 (collect_fee_mode lb);
     pack_u 4 (vol_acc lb); pack_u 4 (vol_ref lb); pack_s 4 (idx_ref lb);
     pack_s 8 (last_upd lb); pack_u 8 (sn_reserve_x snap); pack_u 8 (sn_reserve_y snap);
     pack_s 8 now; pack_u 2 (Z.of_nat (length bins))] ++ write_bins bins).

Record pump_row := PumpRow {
  pr_reserve_base : Z; pr_reserve_quote : Z; pr_virtual : Z;
  pr_lp : Z; pr_protocol : Z; pr_creator : Z; pr_disabled : Z; pr_status : Z;
}.

Definition write_pump (st : pump_row) : pyres bytes :=
  pack_all [pack_u 8 (pr_reserve_base st); pack_u 8 (pr_reserve_quote st);
            pack_s 8 (pr_virtual st); pack_u 8 (pr_lp st); pack_u 8 (pr_protocol st);
            pack_u 8 (pr_creator st); pack_u 1 (pr_disabled st); pack_u 1 (pr_status st)].

(** * Sizes of the blobs *)

(** A field that, once packed, has [n] bytes. *)
Definition field_of (n : Z) (f : pyres bytes) : Prop := forall b, f = Ret b -> blen b = n.

Lemma field_pack_u n z : field_of (Z.of_nat n) (pack_u n z).
Proof.
  intros b. unfold pack_u. destruct (_ && _); [|done]. intros [= <-]. apply blen_le_enc.
Qed.
Lemma field_pack_s n z : field_of (Z.of_nat n) (pack_s n z).
Proof.
  intros b. unfold pack_s. destruct (_ && _); [|done]. intros [= <-]. apply blen_le_enc.
Qed.
#[export] Hint Resolve field_pack_u field_pack_s : plane.

Lemma pack_all_size ns fs b :
  Forall2 field_of ns fs -> pack_all fs = Ret b -> blen b = foldr Z.add 0 ns.
Proof.
  intros H. revert b. induction H as [|n f ns fs Hf _ IH]; intros b Hb; cbn [pack_all] in Hb.
  - by injection Hb as <-.
  - apply py_bind_Ret in Hb as (x&Hx&Hb). apply py_bind_Ret in Hb as (rest&Hr&Hb).
    injection Hb as <-. rewrite blen_app. cbn [foldr]. rewrite (Hf x Hx), (IH rest Hr). done.
Qed.

Lemma write_bins_sizes bs :
  Forall2 field_of (concat ((fun _ => [4; 8; 8]) <$> bs)) (write_bins bs).
Proof.
  induction bs as [|b bs IH]; [constructor|]. unfold write_bins in *. cbn [fmap list_fmap concat].
  apply Forall2_app; [|exact IH].
  repeat constructor; [apply (field_pack_s 4)|apply (field_pack_u 8)..].
Qed.

Lemma sum_sizes (bs : list bin) :
  foldr Z.add 0 (concat ((fun _ => [4; 8; 8]) <$> bs)) = 20 * Z.of_nat (length bs).
Proof.
  induction bs as [|b bs IH]; [done|]. cbn [fmap list_fmap concat foldr app].
  rewrite IH. cbn [length]. lia.
Qed.

Lemma sum_sizes_app ns ms : foldr Z.add 0 (ns ++ ms) = foldr Z.add 0 ns + foldr Z.add 0 ms.
Proof. induction ns as [|n ns IH]; [done|]. cbn [app foldr]. rewrite IH. lia. Qed.

(** ** The window *)

Lemma insert_bin_perm b bs : insert_bin b bs ≡ₚ b :: bs.
Proof.
  induction bs as [|c bs IH]; [done|]. cbn [insert_bin]. destruct (_ <=? _); [done|].
  rewrite IH. apply Permutation_swap.
Qed.

Lemma sort_bins_perm bs : sort_bins bs ≡ₚ bs.
Proof.
  induction bs as [|b bs IH]; [done|]. unfold sort_bins in *. cbn [foldr].
  by rewrite insert_bin_perm, IH.
Qed.

Lemma dedup_bins_spec seen bs :
  NoDup (bin_id <$> dedup_bins seen bs) /\
  forall b, b ∈ dedup_bins seen bs -> b ∈ bs /\ bin_id b ∉ seen.
Proof.
  revert seen. induction bs as [|c bs IH]; intros seen; cbn [dedup_bins].
  { split; [constructor|]. intros b Hb. by apply elem_of_nil in Hb. }
  case_decide as Hc.
  - destruct (IH seen) as [Hn Hin]. split; [done|]. intros b Hb. destruct (Hin b Hb). split; [by right|done].
  - destruct (IH (bin_id c :: seen)) as [Hn Hin]. split.
    + cbn [fmap list_fmap]. constructor; [|done]. intros Hm.
      apply list_elem_of_fmap in Hm as (b&Hid&Hb). destruct (Hin b Hb) as [_ Hns].
      apply Hns. rewrite <- Hid. by left.
    + intros b Hb. apply elem_of_cons in Hb as [->|Hb]; [split; [by left|done]|].
      destruct (Hin b Hb) as [H1 H2]. split; [by right|]. intros Hs. apply H2. by right.
Qed.

(** Distinct ids within the window are few. *)
Lemma window_size active bs :
  NoDup (bin_id <$> bs) -> Forall (in_window active) bs ->
  (length bs <= Z.to_nat (2 * PRICING_K + 1))%nat.
Proof.
  intros Hnd Hw.
  assert (Hsub : (bin_id <$> bs) ⊆+
    ((fun i => active - PRICING_K + Z.of_nat i) <$> seq 0 (Z.to_nat (2 * PRICING_K + 1)))).
  { apply NoDup_submseteq; [done|]. intros x Hx. apply list_elem_of_fmap in Hx as (b&->&Hb).
    rewrite Forall_forall in Hw. specialize (Hw b Hb). unfold in_window, PRICING_K in *.
    apply list_elem_of_fmap. exists (Z.to_nat (bin_id b - active + 16)). split; [lia|].
    apply elem_of_seq. lia. }
  apply submseteq_length in Hsub. by rewrite !length_fmap, length_seq in Hsub.
Qed.

Lemma dlmm_window_size active bs :
  (length (sort_bins (dedup_bins [] (filter (in_window active) bs))) <= 33)%nat.
Proof.
  rewrite (Permutation_length (sort_bins_perm _)). apply (window_size active).
  - apply dedup_bins_spec.
  - apply Forall_forall. intros b Hb.
    destruct (dedup_bins_spec [] (filter (in_window active) bs)) as [_ Hin].
    destruct (Hin b Hb) as [Hb' _]. by apply list_elem_of_filter in Hb' as [? _].
Qed.

(** Every snapshot written for AUTH fits an entry of the ring. *)
Lemma write_dlmm_size now snap blob : write_dlmm now snap = Ret blob -> blen blob <= 733.
Proof.
  intros H. unfold write_dlmm in H. cbv zeta in H.
  set (bs := sort_bins _) in H. assert (Hlen : (length bs <= 33)%nat) by apply dlmm_window_size.
  clearbody bs.
  apply (pack_all_size ([4; 2; 1; 2; 2; 2; 2; 4; 4; 2; 1; 1; 4; 4; 4; 8; 8; 8; 8; 2] ++
    concat ((fun _ => [4; 8; 8]) <$> bs))) in H.
  - rewrite sum_sizes_app, sum_sizes in H. cbn [foldr] in H. lia.
  - apply Forall2_app; [|apply write_bins_sizes].
    repeat constructor; first [apply (field_pack_u 1) | apply (field_pack_u 2) |
      apply (field_pack_u 4) | apply (field_pack_u 8) | apply (field_pack_s 4) |
      apply (field_pack_s 8)].
Qed.

Lemma write_pump_size row blob : write_pump row = Ret blob -> blen blob = 50.
Proof.
  intros H. unfold write_pump in H.
  eapply (pack_all_size [8; 8; 8; 8; 8; 8; 1; 1]) in H; [by rewrite H|].
  repeat constructor; first [apply (field_pack_u 1) | apply (field_pack_u 8) | apply (field_pack_s 8)].
Qed.
