(* ===== verification/TxBarrier.v ===== *)
(** The signature-keyed publication barrier: arb-state/shyft/txbarrier.py.  For every
    (transaction, pool) it keeps the expected and the received writes; a pool is published for
    a transaction only from a frozen read set that contains exactly the transaction's writes. *)
From stdpp Require Import base list strings gmap.
From Stdlib Require Import ZArith Lia.
From Stdlib Require String.
From S2P Require Import Prelude PyBytes Submap TxExpect.
Open Scope Z_scope.

(** * Data *)

(** One account row, from the stream or from RPC. *)
Record acct_row := AcctRow {
  a_pubkey : string;
  a_slot : Z;
  a_wv : Z;
  a_sig : option bytes;
  a_gen : option string;
  a_bank : option Z;
  a_owner : string;
  a_lamports : Z;
  a_data : bytes;
  a_rx : Z;
}.

(** [write_identity] *)
Record identity := Identity {
  i_gen : option string; i_bank : option Z; i_slot : Z; i_wv : Z; i_sig : bytes;
  i_owner : string; i_lamports : Z; i_data : bytes }.

#[export] Instance identity_eq_dec : EqDecision identity.
Proof. solve_decision. Defined.

Definition write_identity (row : acct_row) : identity :=
  Identity (a_gen row) (a_bank row) (a_slot row) (a_wv row) (default [] (a_sig row))
           (a_owner row) (a_lamports row) (a_data row).

Record bspec := BSpec {
  b_expected : gset string;
  b_received : gset string;
  b_slot : Z;
  b_kind : option kind;
  b_pubkey : option string;
  b_variant : option variant;
  b_versions : gmap string identity;
  b_conflict : bool;
}.

Record bmetrics := BMetrics {
  tx_shape : nat; publish_wait_pair : nat; publish_wait_bin : nat; publish_wait_vault : nat;
  publish_wait_shape : nat; publish_incomplete_at_boundary : nat; evicted_transactions : nat }.

Abbreviation sig_pools := (list (Z * bspec)).

Record barrier := Barrier { by_sig : list (string * sig_pools); bm : bmetrics }.

Definition empty_barrier : barrier := Barrier [] (BMetrics 0 0 0 0 0 0 0).

Definition BARRIER_CAP : nat := 4096.

(** * Notes *)

Definition set_bm (b : barrier) (m : bmetrics) : barrier := Barrier (by_sig b) m.

(** [while len(self.by_sig) > 4096: pop the oldest; evicted_transactions += 1] *)
Definition evict (b : barrier) : barrier :=
  let m := bm b in
  {| by_sig := od_evict BARRIER_CAP (by_sig b);
     bm := BMetrics (tx_shape m) (publish_wait_pair m) (publish_wait_bin m)
             (publish_wait_vault m) (publish_wait_shape m) (publish_incomplete_at_boundary m)
             (evicted_transactions m + (length (by_sig b) - BARRIER_CAP)) |}.

Definition bump_shape (m : bmetrics) : bmetrics :=
  BMetrics (S (tx_shape m)) (publish_wait_pair m) (publish_wait_bin m) (publish_wait_vault m)
    (publish_wait_shape m) (publish_incomplete_at_boundary m) (evicted_transactions m).

(** The loop body of [note_tx]. *)
Definition note_spec (slot : Z) (row : sig_pools) (e : Z * exp_row) : sig_pools :=
  let '(idx, spec) := e in
  let cur := default (BSpec ∅ ∅ slot (Some (x_kind spec)) (Some (x_pubkey spec))
                            (Some (x_variant spec)) ∅ false) (od_get row idx) in
  od_set row idx (BSpec (b_expected cur ∪ x_expected spec) (b_received cur) slot (b_kind cur)
                        (b_pubkey cur) (b_variant cur) (b_versions cur) (b_conflict cur)).

Definition note_tx (b : barrier) (sig : string) (slot : Z) (expect_by_idx : exp_map)
    : barrier :=
  if String.eqb sig "" || bool_decide (expect_by_idx = []) then b else
  let row := default [] (od_get (by_sig b) sig) in
  let row' := foldl (note_spec slot) row expect_by_idx in
  evict (Barrier (od_set (by_sig b) sig row') (bump_shape (bm b))).

(** The update of one pool's spec by one account write. *)
Definition write_spec (slot : Z) (pk : string) (version : option acct_row) (cur : bspec)
    : bspec :=
  let '(versions, conflict) :=
    match version with
    | None => (b_versions cur, b_conflict cur)
    | Some v =>
        let id := write_identity v in
        (<[pk := id]> (b_versions cur),
         b_conflict cur ||
         match b_versions cur !! pk with
         | Some old => negb (bool_decide (old = id))
         | None => false
         end)
    end in
  BSpec (b_expected cur) ({[pk]} ∪ b_received cur)
        (if b_slot cur =? 0 then slot else b_slot cur)
        (b_kind cur) (b_pubkey cur) (b_variant cur) versions conflict.

Definition note_write (b : barrier) (sig : string) (slot pool_idx : Z) (pk : string)
    (version : option acct_row) : barrier :=
  if String.eqb sig "" || String.eqb pk "" then b else
  let row := default [] (od_get (by_sig b) sig) in
  let cur := default (BSpec ∅ ∅ slot None None None ∅ false) (od_get row pool_idx) in
  evict (Barrier (od_set (by_sig b) sig (od_set row pool_idx (write_spec slot pk version cur)))
                 (bm b)).

(** * Queries *)

Definition spec (b : barrier) (sig : string) (pool_idx : Z) : option bspec :=
  od_get (default [] (od_get (by_sig b) sig)) pool_idx.

Definition has_shape (b : barrier) (sig : string) (pool_idx : Z) : bool :=
  match spec b sig pool_idx with
  | Some sp => negb (bool_decide (b_expected sp = ∅))
  | None => false
  end.

Definition missing (b : barrier) (sig : string) (pool_idx : Z) : gset string :=
  match spec b sig pool_idx with
  | Some sp => b_expected sp ∖ b_received sp
  | None => ∅
  end.

Definition complete (sp : bspec) : bool :=
  negb (bool_decide (b_expected sp = ∅)) && bool_decide (b_expected sp ⊆ b_received sp).

Definition can_commit (b : barrier) (sig : string) (pool_idx : Z) : bool :=
  match spec b sig pool_idx with
  | Some sp => complete sp
  | None => false
  end.

Inductive reject :=
  | WritesIncomplete | WriteVersionConflict | ReadSetIncomplete | AccountMissing
  | DependencyFromFutureSlot | WriteIdentityMissing | WriteSuperseded | WriteIdentityMismatch.

#[export] Instance reject_eq_dec : EqDecision reject.
Proof. solve_decision. Defined.

(** [{pk: dict(latest.get(pk) or {}) for pk in required}]; a pk without a row maps to the empty
    dict, here to no entry. *)
Definition freeze (required : gset string) (latest : gmap string acct_row)
    : gmap string acct_row :=
  filter (fun kv => kv.1 ∈ required) latest.

Definition has_data (o : option acct_row) : bool :=
  match o with
  | Some r => negb (bool_decide (a_data r = []))
  | None => false
  end.

(** The last loop of [snapshot], over the expected set in its iteration order. *)
Fixpoint check_writes (sig : string) (sp : bspec) (rows : gmap string acct_row)
    (pks : list string) : option reject :=
  match pks with
  | [] => None
  | pk :: rest =>
      match b_versions sp !! pk, rows !! pk with
      | None, _ => Some WriteIdentityMissing
      | Some _, None => Some WriteSuperseded
      | Some captured, Some r =>
          if negb (bool_decide (captured = write_identity r)) then Some WriteSuperseded
          else if negb (a_slot r =? b_slot sp)
                  || negb (String.eqb (hex (default [] (a_sig r))) sig)
          then Some WriteIdentityMismatch
          else check_writes sig sp rows rest
      end
  end.

Definition snapshot (b : barrier) (sig : string) (pool_idx : Z) (required : gset string)
    (latest : gmap string acct_row) : reject + gmap string acct_row :=
  match spec b sig pool_idx with
  | None => inl WritesIncomplete
  | Some sp =>
      if negb (complete sp) then inl WritesIncomplete else
      if b_conflict sp then inl WriteVersionConflict else
      if negb (bool_decide (b_expected sp ⊆ required)) then inl ReadSetIncomplete else
      let rows := freeze required latest in
      if negb (forallb (fun pk => has_data (rows !! pk)) (elements required))
      then inl AccountMissing else
      if existsb (fun r => b_slot sp <? a_slot r) (map_to_list rows).*2
      then inl DependencyFromFutureSlot else
      match check_writes sig sp rows (elements (b_expected sp)) with
      | Some e => inl e
      | None => inr rows
      end
  end.

Inductive wait_class := WPair | WBin | WVault.

#[export] Instance wait_class_eq_dec : EqDecision wait_class.
Proof. solve_decision. Defined.

Definition wait_of (r : option role) : wait_class :=
  match r with
  | Some (ROLE_DLMM_PAIR | ROLE_PUMP_POOL) => WPair
  | Some ROLE_DLMM_BIN => WBin
  | Some (ROLE_PUMP_VAULT_BASE | ROLE_PUMP_VAULT_QUOTE) => WVault
  | _ => WBin
  end.

Definition mark_wait (b : barrier) (missing : gset string) (role_of : string -> option role)
    : barrier :=
  let saw := (fun pk => wait_of (role_of pk)) <$> elements missing in
  let m := bm b in
  let one c := if bool_decide (c ∈ saw) then 1%nat else 0%nat in
  set_bm b (BMetrics (tx_shape m) (publish_wait_pair m + one WPair)
                     (publish_wait_bin m + one WBin) (publish_wait_vault m + one WVault)
                     (publish_wait_shape m) (publish_incomplete_at_boundary m)
                     (evicted_transactions m)).

Definition expired (stream_slot : Z) (sp : bspec) : bool :=
  negb (bool_decide (b_expected sp = ∅)) && (b_slot sp <? stream_slot)
  && negb (bool_decide (b_expected sp ⊆ b_received sp)).

Definition expire_at_boundary (b : barrier) (stream_slot : Z) : list (string * Z) :=
  concat ((fun sp => (fun ip => (sp.1, ip.1)) <$>
                     List.filter (fun ip => expired stream_slot ip.2) sp.2) <$> by_sig b).

Definition drop_pool (b : barrier) (sig : string) (pool_idx : Z) : barrier :=
  match od_get (by_sig b) sig with
  | None | Some [] => b
  | Some row =>
      match od_pop row pool_idx with
      | [] => Barrier (od_pop (by_sig b) sig) (bm b)
      | row' => Barrier (od_set (by_sig b) sig row') (bm b)
      end
  end.

Definition drop_sig (b : barrier) (sig : string) : barrier :=
  Barrier (od_pop (by_sig b) sig) (bm b).

(** * A frozen read set *)

Lemma check_writes_None sig sp rows pks :
  check_writes sig sp rows pks = None <->
  forall pk, pk ∈ pks -> exists r, rows !! pk = Some r /\
    b_versions sp !! pk = Some (write_identity r) /\ a_slot r = b_slot sp /\
    hex (default [] (a_sig r)) = sig.
Proof.
  induction pks as [|pk pks IH]; cbn [check_writes].
  { split; [|done]. intros _ pk Hpk. by apply elem_of_nil in Hpk. }
  setoid_rewrite elem_of_cons.
  destruct (b_versions sp !! pk) as [id|] eqn:Ev.
  2:{ split; [done|]. intros H. destruct (H pk) as (r&_&?&_); [by left|congruence]. }
  destruct (rows !! pk) as [r|] eqn:Er.
  2:{ split; [done|]. intros H. destruct (H pk) as (r&?&_); [by left|congruence]. }
  case_bool_decide as Hid; cbn [negb].
  2:{ split; [done|]. intros H. destruct (H pk) as (r'&?&?&_); [by left|congruence]. }
  destruct (Z.eqb_spec (a_slot r) (b_slot sp)) as [Hs|Hs]; cbn [negb orb].
  2:{ split; [done|]. intros H. destruct (H pk) as (r'&?&_&?&_); [by left|congruence]. }
  destruct (String.eqb_spec (hex (default [] (a_sig r))) sig) as [Hx|Hx]; cbn [negb].
  2:{ split; [done|]. intros H. destruct (H pk) as (r'&?&_&_&?); [by left|congruence]. }
  rewrite IH. split.
  - intros H pk' [->|Hpk]; [|by apply H]. exists r. by subst.
  - intros H pk' Hpk. apply H. by right.
Qed.

Lemma complete_spec sp :
  complete sp = true <-> b_expected sp <> ∅ /\ b_expected sp ⊆ b_received sp.
Proof.
  unfold complete. rewrite andb_true_iff, negb_true_iff, bool_decide_eq_false,
    bool_decide_eq_true. done.
Qed.

Lemma lookup_freeze required latest pk :
  freeze required latest !! pk = if decide (pk ∈ required) then latest !! pk else None.
Proof.
  unfold freeze. case_decide as Hr.
  - destruct (latest !! pk) as [r|] eqn:El.
    + by apply map_lookup_filter_Some.
    + apply map_lookup_filter_None. by left.
  - apply map_lookup_filter_None. right. by intros r _.
Qed.

Lemma rows_present required latest :
  forallb (fun pk => has_data (freeze required latest !! pk)) (elements required) = true <->
  forall pk, pk ∈ required -> exists r, latest !! pk = Some r /\ a_data r <> [].
Proof.
  rewrite forallb_forall. setoid_rewrite <- list_elem_of_In. setoid_rewrite elem_of_elements.
  assert (Hone : forall pk, pk ∈ required -> has_data (freeze required latest !! pk) = true <->
    exists r, latest !! pk = Some r /\ a_data r <> []).
  { intros pk Hpk. rewrite lookup_freeze, decide_True by done. unfold has_data.
    destruct (latest !! pk) as [r|]; [|naive_solver].
    rewrite negb_true_iff, bool_decide_eq_false. naive_solver. }
  split; intros H pk Hpk; apply (Hone pk Hpk); by apply H.
Qed.

Lemma rows_not_future (rows : gmap string acct_row) slot :
  existsb (fun r => slot <? a_slot r) (map_to_list rows).*2 = false <->
  forall pk r, rows !! pk = Some r -> a_slot r <= slot.
Proof.
  rewrite <- not_true_iff_false, existsb_exists. split.
  - intros Hn pk r Hr. destruct (Z.le_gt_cases (a_slot r) slot) as [|Hgt]; [done|].
    destruct Hn. exists r. split; [|by apply Z.ltb_lt].
    apply list_elem_of_In, list_elem_of_fmap. exists (pk, r). split; [done|].
    by apply elem_of_map_to_list.
  - intros H (r&Hin&Hlt). apply Z.ltb_lt in Hlt.
    apply list_elem_of_In, list_elem_of_fmap in Hin as ([pk r']&->&Hin).
    apply elem_of_map_to_list, H in Hin. cbn in Hlt. lia.
Qed.

(** What an available snapshot certifies about its spec. *)
Record certified (sig : string) (sp : bspec) (required : gset string)
    (latest : gmap string acct_row) : Prop := {
  cert_some : b_expected sp <> ∅;
  cert_received : b_expected sp ⊆ b_received sp;
  cert_no_conflict : b_conflict sp = false;
  cert_read_set : b_expected sp ⊆ required;
  cert_rows : forall pk, pk ∈ required ->
    exists r, latest !! pk = Some r /\ a_data r <> [] /\ a_slot r <= b_slot sp;
  cert_writes : forall pk, pk ∈ b_expected sp ->
    exists r, latest !! pk = Some r /\ b_versions sp !! pk = Some (write_identity r) /\
      a_slot r = b_slot sp /\ hex (default [] (a_sig r)) = sig;
}.

Lemma snapshot_inr b sig idx required latest rows :
  snapshot b sig idx required latest = inr rows <->
  rows = freeze required latest /\
  exists sp, spec b sig idx = Some sp /\ certified sig sp required latest.
Proof.
  unfold snapshot. destruct (spec b sig idx) as [sp|]; [|naive_solver].
  destruct (complete sp) eqn:Ec; cbn [negb].
  2:{ split; [done|]. intros (_&sp'&[= <-]&[Hne Hsub _ _ _ _]).
      assert (complete sp = true) by (by apply complete_spec). congruence. }
  apply complete_spec in Ec as [Hne Hsub].
  destruct (b_conflict sp) eqn:Ef.
  { split; [done|]. intros (_&sp'&[= <-]&[]). congruence. }
  case_bool_decide as Hreq; cbn [negb].
  2:{ split; [done|]. intros (_&sp'&[= <-]&[]). done. }
  pose proof (rows_present required latest) as Hp.
  destruct (forallb _ (elements required)) eqn:Ep; cbn [negb].
  2:{ split; [done|]. intros (_&sp'&[= <-]&[_ _ _ _ Hrows _]).
      assert (false = true); [|done]. apply Hp. intros pk Hpk. naive_solver. }
  pose proof (rows_not_future (freeze required latest) (b_slot sp)) as Hf.
  destruct (existsb _ _) eqn:Ex.
  { split; [done|]. intros (_&sp'&[= <-]&[_ _ _ _ Hrows _]).
    assert (true = false); [|done]. apply Hf. intros pk r Hr.
    rewrite lookup_freeze in Hr. case_decide; [|done]. naive_solver. }
  pose proof (check_writes_None sig sp (freeze required latest) (elements (b_expected sp))) as Hw.
  setoid_rewrite elem_of_elements in Hw.
  assert (Hlk : forall pk, pk ∈ b_expected sp -> freeze required latest !! pk = latest !! pk)
    by (intros pk Hpk; rewrite lookup_freeze, decide_True by set_solver; done).
  destruct (check_writes _ _ _ _) as [e|].
  - split; [done|]. intros (_&sp'&[= <-]&[_ _ _ _ _ Hwr]).
    assert (Some e = None); [|done]. apply Hw. intros pk Hpk. rewrite Hlk by done. by apply Hwr.
  - split; [|naive_solver]. intros [= <-]. split; [done|]. exists sp. split; [done|].
    constructor; try done.
    + intros pk Hpk. destruct (proj1 Hp eq_refl pk Hpk) as (r&Hr&Hd). exists r.
      repeat split; [done|done|]. apply (proj1 Hf eq_refl pk).
      by rewrite lookup_freeze, decide_True.
    + intros pk Hpk. rewrite <- Hlk by done. by apply Hw.
Qed.

(** The barrier releases a read set exactly when the transaction's
    expected writes for the pool are known, all received, all inside the pool's required
    accounts and free of conflicting versions; every required account has data no newer than
    the transaction's slot; and the row currently held for each expected write is the very row
    received for it, of that slot and signature. What it releases is the current rows of the
    required accounts. The verdict does not depend on the order in which the set is walked. *)
Theorem snapshot_available b sig idx required latest rows :
  snapshot b sig idx required latest = inr rows <->
  rows = freeze required latest /\
  exists sp, spec b sig idx = Some sp /\ certified sig sp required latest.
Proof. apply snapshot_inr. Qed.

(** * Histories of a barrier *)

Inductive bop :=
  | ONoteTx (sig : string) (slot : Z) (expect : exp_map)
  | ONoteWrite (sig : string) (slot idx : Z) (pk : string) (version : option acct_row)
  | ODrop (sig : string) (idx : Z)
  | ODropSig (sig : string)
  | OMarkWait (missing : gset string) (role_of : string -> option role).

Definition run_bop (b : barrier) (o : bop) : barrier :=
  match o with
  | ONoteTx sig slot e => note_tx b sig slot e
  | ONoteWrite sig slot idx pk v => note_write b sig slot idx pk v
  | ODrop sig idx => drop_pool b sig idx
  | ODropSig sig => drop_sig b sig
  | OMarkWait ms r => mark_wait b ms r
  end.

(** The barriers a connection can reach, with the operations that led there. *)
Inductive breach : list bop -> barrier -> Prop :=
  | breach_init : breach [] empty_barrier
  | breach_step h b o : breach h b -> breach (h ++ [o]) (run_bop b o).

(** A spec is explained by a history: its expected writes come from decoded transactions, its
    received ones from account updates, all of the same signature and pool. *)
Record explained (h : list bop) (sig : string) (idx : Z) (sp : bspec) : Prop := {
  ex_expected : forall pk, pk ∈ b_expected sp -> exists slot e row,
    ONoteTx sig slot e ∈ h /\ (idx, row) ∈ e /\ pk ∈ x_expected row;
  ex_received : forall pk, pk ∈ b_received sp -> exists slot v, ONoteWrite sig slot idx pk v ∈ h;
  ex_versions : forall pk id, b_versions sp !! pk = Some id -> exists slot v,
    ONoteWrite sig slot idx pk (Some v) ∈ h /\ id = write_identity v;
}.

Definition row_ok (h : list bop) (sig : string) (row : sig_pools) : Prop :=
  NoDup (od_keys row) /\ forall idx sp, od_get row idx = Some sp -> explained h sig idx sp.

Definition barrier_ok (h : list bop) (b : barrier) : Prop :=
  NoDup (od_keys (by_sig b)) /\ (length (by_sig b) <= BARRIER_CAP)%nat /\
  forall sig row, od_get (by_sig b) sig = Some row -> row_ok h sig row.

Lemma explained_mono h h' sig idx sp :
  h ⊆ h' -> explained h sig idx sp -> explained h' sig idx sp.
Proof.
  intros Hs [H1 H2 H3]. constructor; [intros pk Hpk|intros pk Hpk|intros pk id Hid].
  - destruct (H1 pk Hpk) as (slot&e&row&?&?). exists slot, e, row. auto.
  - destruct (H2 pk Hpk) as (slot&v&?). exists slot, v. auto.
  - destruct (H3 pk id Hid) as (slot&v&?&?). exists slot, v. auto.
Qed.

Lemma row_ok_mono h h' sig row : h ⊆ h' -> row_ok h sig row -> row_ok h' sig row.
Proof.
  intros Hs [Hnd H]. split; [done|]. intros idx sp Hsp. eapply explained_mono; [done|]. by apply H.
Qed.

Lemma row_ok_nil h sig : row_ok h sig [].
Proof. split; [constructor|done]. Qed.

Lemma row_ok_set h sig row idx sp :
  row_ok h sig row -> explained h sig idx sp -> row_ok h sig (od_set row idx sp).
Proof.
  intros [Hnd H] Hsp. split; [auto with plane|]. intros idx' sp'. rewrite od_get_set.
  case_decide; [|by apply H]. by intros [= <-]; subst.
Qed.

Lemma row_ok_pop h sig row idx : row_ok h sig row -> row_ok h sig (od_pop row idx).
Proof.
  intros [Hnd H]. split; [auto with plane|]. intros idx' sp' Hg.
  apply od_get_pop_Some in Hg as [_ Hg]; [|done]. by apply H.
Qed.

(** The row a handler starts from. *)
Lemma row_ok_default h b sig :
  barrier_ok h b -> row_ok h sig (default [] (od_get (by_sig b) sig)).
Proof.
  intros (_&_&H). destruct (od_get (by_sig b) sig) eqn:E; [by apply H|apply row_ok_nil].
Qed.

Lemma explained_default h sig row idx sp0 :
  row_ok h sig row -> explained h sig idx sp0 ->
  explained h sig idx (default sp0 (od_get row idx)).
Proof. intros [_ H] H0. destruct (od_get row idx) eqn:E; [by apply H|done]. Qed.

Lemma explained_new h sig idx slot k p v :
  explained h sig idx (BSpec ∅ ∅ slot k p v ∅ false).
Proof. constructor; cbn; set_solver. Qed.

Lemma note_spec_ok h sig slot exp row e :
  ONoteTx sig slot exp ∈ h -> e ∈ exp -> row_ok h sig row -> row_ok h sig (note_spec slot row e).
Proof.
  intros Hop He Hrow. destruct e as [idx x]. unfold note_spec. apply row_ok_set; [done|].
  set (cur := default _ _).
  assert (Hc : explained h sig idx cur) by (apply explained_default; [done|apply explained_new]).
  destruct Hc as [H1 H2 H3]. constructor; cbn; [|done|done].
  intros pk [Hpk|Hpk]%elem_of_union; [by apply H1|]. exists slot, exp, x. done.
Qed.

Lemma note_specs_ok h sig slot exp l row :
  ONoteTx sig slot exp ∈ h -> l ⊆ exp -> row_ok h sig row ->
  row_ok h sig (foldl (note_spec slot) row l).
Proof.
  intros Hop. revert row. induction l as [|e l IH]; intros row Hsub Hrow; [done|]. cbn [foldl].
  apply IH; [set_solver|]. eapply note_spec_ok; [done| |done]. apply Hsub. left.
Qed.

Lemma write_spec_ok h sig slot idx pk v sp :
  ONoteWrite sig slot idx pk v ∈ h -> explained h sig idx sp ->
  explained h sig idx (write_spec slot pk v sp).
Proof.
  intros Hop [H1 H2 H3]. unfold write_spec. destruct v as [v|]; constructor; cbn; try done.
  - intros pk' [->%elem_of_singleton|]%elem_of_union; [by eauto|by apply H2].
  - intros pk' id. rewrite lookup_insert. case_decide; [|apply H3].
    intros [= <-]. subst. eauto.
  - intros pk' [->%elem_of_singleton|]%elem_of_union; [by eauto|by apply H2].
Qed.

(** Storing a row and evicting keeps the barrier well formed. *)
Lemma barrier_ok_store h b sig row m :
  barrier_ok h b -> row_ok h sig row ->
  barrier_ok h (evict (Barrier (od_set (by_sig b) sig row) m)).
Proof.
  intros (Hnd&_&H) Hrow. unfold evict. cbn [by_sig]. split; [|split]; cbn [by_sig].
  - auto with plane.
  - apply length_od_evict.
  - intros sig' row' Hg. apply od_get_evict_Some in Hg; [|auto with plane].
    rewrite od_get_set in Hg. case_decide; [|by apply H]. by simplify_eq.
Qed.

Lemma barrier_ok_mono h h' b : h ⊆ h' -> barrier_ok h b -> barrier_ok h' b.
Proof.
  intros Hs (?&?&H). split; [done|]. split; [done|]. intros sig row Hg.
  eapply row_ok_mono; [done|]. by apply H.
Qed.

Lemma barrier_ok_pop h b sig : barrier_ok h b -> barrier_ok h (drop_sig b sig).
Proof.
  intros (Hnd&Hl&H). unfold drop_sig. split; [|split]; cbn [by_sig].
  - auto with plane.
  - etrans; [apply length_od_pop|done].
  - intros sig' row' Hg. apply od_get_pop_Some in Hg as [_ Hg]; [|done]. by apply H.
Qed.

Lemma barrier_ok_drop h b sig idx : barrier_ok h b -> barrier_ok h (drop_pool b sig idx).
Proof.
  intros Hb. pose proof (row_ok_default h b sig Hb) as Hrow. unfold drop_pool.
  destruct (od_get (by_sig b) sig) as [[|e row]|] eqn:Eg; [done| |done].
  apply (row_ok_pop h sig _ idx) in Hrow. cbn [default from_option id] in Hrow.
  destruct (od_pop (e :: row) idx) as [|e' row'] eqn:Ep; [by apply barrier_ok_pop|].
  destruct Hb as (Hnd&Hl&H). split; [|split]; cbn [by_sig].
  - auto with plane.
  - rewrite length_od_set, decide_True; [done|]. by eapply od_get_Some_key.
  - intros sig' row'' Hg. rewrite od_get_set in Hg. case_decide; [|by apply H].
    by simplify_eq.
Qed.

Lemma breach_ok h b : breach h b -> barrier_ok h b.
Proof.
  induction 1 as [|h b o _ IH].
  { split; [constructor|]. split; [cbn; lia|done]. }
  apply (barrier_ok_mono h (h ++ [o])) in IH; [|set_solver].
  assert (Ho : o ∈ h ++ [o]) by set_solver.
  destruct o as [sig slot e|sig slot idx pk v|sig idx|sig|ms r]; cbn [run_bop].
  - unfold note_tx. case_match; [done|]. apply barrier_ok_store; [done|].
    eapply note_specs_ok; [exact Ho|done|]. by apply row_ok_default.
  - unfold note_write. case_match; [done|]. apply barrier_ok_store; [done|].
    pose proof (row_ok_default _ b sig IH) as Hrow. apply row_ok_set; [done|].
    apply write_spec_ok; [done|]. apply explained_default; [done|apply explained_new].
  - by apply barrier_ok_drop.
  - by apply barrier_ok_pop.
  - done.
Qed.

Lemma reached_explained h b sig idx sp :
  breach h b -> spec b sig idx = Some sp -> explained h sig idx sp.
Proof. intros Hb%breach_ok Hs. by eapply (row_ok_default h b sig Hb). Qed.

(** On every connection, whatever the order in which transactions
    and account updates arrive and whatever was dropped or evicted in between: if a pool can
    commit for a signature, then an exact swap of that signature on that pool was decoded, and
    for every account it was expected to write, an update of that account carrying that
    signature was received for that pool. The barrier never holds more than 4096 signatures. *)
Theorem commit_needs_every_write h b sig idx :
  breach h b ->
  (length (by_sig b) <= BARRIER_CAP)%nat /\
  (can_commit b sig idx = true -> exists sp, spec b sig idx = Some sp /\
    (exists slot e row, ONoteTx sig slot e ∈ h /\ (idx, row) ∈ e) /\
    forall pk, pk ∈ b_expected sp -> exists slot v, ONoteWrite sig slot idx pk v ∈ h).
Proof.
  intros Hb. split; [by apply breach_ok in Hb as (_&?&_)|]. unfold can_commit.
  destruct (spec b sig idx) as [sp|] eqn:Es; [|done]. intros [Hne Hsub]%complete_spec.
  exists sp. split; [done|]. destruct (reached_explained h b sig idx sp Hb Es) as [H1 H2 _].
  split; [|intros pk Hpk; apply H2; set_solver].
  apply set_choose_L in Hne as [pk Hpk]. destruct (H1 pk Hpk) as (slot&e&row&?&?&_). eauto.
Qed.

(** On every connection, each row an available snapshot gives for an
    expected account is byte for byte a row that was received on this connection with the
    transaction's signature for that pool: a row of another transaction, of an RPC fetch or of
    a later overwrite is never taken for the transaction's write. *)
Theorem snapshot_rows_received h b sig idx required latest rows :
  breach h b -> snapshot b sig idx required latest = inr rows ->
  exists sp, spec b sig idx = Some sp /\ forall pk, pk ∈ b_expected sp -> exists r slot v,
    rows !! pk = Some r /\ ONoteWrite sig slot idx pk (Some v) ∈ h /\
    write_identity r = write_identity v /\ hex (default [] (a_sig r)) = sig.
Proof.
  intros Hb Hs. apply snapshot_inr in Hs as (->&sp&Hsp&[_ _ _ Hreq _ Hw]).
  exists sp. split; [done|]. intros pk Hpk. destruct (Hw pk Hpk) as (r&Hr&Hv&_&Hx).
  destruct (reached_explained h b sig idx sp Hb Hsp) as [_ _ H3].
  destruct (H3 pk _ Hv) as (slot&v&Hin&Heq). exists r, slot, v.
  rewrite lookup_freeze, decide_True by set_solver. done.
Qed.

(** * Concrete histories *)

Definition demo_exp (i : Z) : exp_map :=
  [(i, ExpRow {[ "Pool"%string; "Vault"%string ]} Pump "Pool" VPumpSell)].
Definition demo_row (pk : string) (slot : Z) (data : bytes) : acct_row :=
  {| a_pubkey := pk; a_slot := slot; a_wv := 5; a_sig := Some [10]; a_gen := Some "g"%string;
     a_bank := None; a_owner := "o"; a_lamports := 1; a_data := data; a_rx := 0 |}.
Definition demo_hist : list bop :=
  [ONoteWrite "0a" 7 3 "Pool" (Some (demo_row "Pool" 7 [1])); ONoteTx "0a" 7 (demo_exp 3);
   ONoteWrite "0a" 7 3 "Vault" (Some (demo_row "Vault" 7 [2]))].
Definition demo_barrier : barrier := foldl run_bop empty_barrier demo_hist.
Definition demo_latest : gmap string acct_row :=
  {[ "Pool"%string := demo_row "Pool" 7 [1]; "Vault"%string := demo_row "Vault" 7 [2] ]}.

Lemma breach_foldl h l b : breach h b -> breach (h ++ l) (foldl run_bop b l).
Proof.
  revert h b. induction l as [|o l IH]; intros h b Hb; [by rewrite app_nil_r|].
  cbn [foldl]. rewrite cons_middle, app_assoc. apply IH. by constructor.
Qed.

Lemma demo_reached : breach demo_hist demo_barrier.
Proof. apply (breach_foldl [] demo_hist empty_barrier). constructor. Qed.

Lemma commit_needs_every_write_witness :
  can_commit demo_barrier "0a" 3 = true /\ exists sp, spec demo_barrier "0a" 3 = Some sp /\
    (exists slot e row, ONoteTx "0a" slot e ∈ demo_hist /\ (3, row) ∈ e) /\
    forall pk, pk ∈ b_expected sp -> exists slot v, ONoteWrite "0a" slot 3 pk v ∈ demo_hist.
Proof.
  assert (Hc : can_commit demo_barrier "0a" 3 = true) by (vm_compute; reflexivity).
  split; [exact Hc|].
  exact (proj2 (commit_needs_every_write demo_hist demo_barrier "0a" 3 demo_reached) Hc).
Defined.

Lemma snapshot_rows_received_witness :
  exists rows, snapshot demo_barrier "0a" 3 {["Pool"%string; "Vault"%string]} demo_latest
                 = inr rows /\
  exists sp, spec demo_barrier "0a" 3 = Some sp /\ forall pk, pk ∈ b_expected sp ->
    exists r slot v, rows !! pk = Some r /\
      ONoteWrite "0a" slot 3 pk (Some v) ∈ demo_hist /\
      write_identity r = write_identity v /\ hex (default [] (a_sig r)) = "0a"%string.
Proof.
  eexists. split; [vm_compute; reflexivity|].
  apply (snapshot_rows_received demo_hist demo_barrier "0a" 3
           {["Pool"%string; "Vault"%string]} demo_latest _ demo_reached).
  vm_compute. reflexivity.
Defined.

(** * Slot boundaries *)

(** At a slot boundary the barrier reports exactly the (signature, pool) pairs
    whose expected set is known, belongs to an earlier slot and is not fully received. *)
Theorem expire_exact h b stream_slot sig idx :
  breach h b ->
  (sig, idx) ∈ expire_at_boundary b stream_slot <->
  exists sp, spec b sig idx = Some sp /\ b_expected sp <> ∅ /\ b_slot sp < stream_slot /\
    ~ b_expected sp ⊆ b_received sp.
Proof.
  intros (Hnd&_&Hrows)%breach_ok. unfold expire_at_boundary, spec.
  assert (Hex : forall sp, expired stream_slot sp = true <->
    b_expected sp <> ∅ /\ b_slot sp < stream_slot /\ ~ b_expected sp ⊆ b_received sp).
  { intros sp. unfold expired. rewrite !andb_true_iff, !negb_true_iff, !bool_decide_eq_false,
      Z.ltb_lt. naive_solver. }
  setoid_rewrite <- Hex. rewrite elem_of_concat. split.
  - intros (l&Hin&Hl). apply list_elem_of_fmap in Hl as ([sig' row]&->&Hrow).
    apply list_elem_of_fmap in Hin as ([idx' sp]&[= -> ->]&Hin).
    apply list_elem_of_In, filter_In in Hin as [Hin He]. apply list_elem_of_In in Hin.
    apply od_elem_get in Hrow; [|done]. destruct (Hrows sig' row Hrow) as [Hnd' _].
    rewrite Hrow. exists sp. split; [|done]. by apply od_elem_get.
  - intros (sp&Hsp&He). destruct (od_get (by_sig b) sig) as [row|] eqn:Er; [|done].
    cbn in Hsp. destruct (Hrows sig row Er) as [Hnd' _].
    eexists. split; [|apply list_elem_of_fmap; exists (sig, row); split; [done|];
      by apply od_elem_get].
    apply list_elem_of_fmap. exists (idx, sp). split; [done|].
    apply list_elem_of_In, filter_In. split; [|done]. apply list_elem_of_In. by apply od_elem_get.
Qed.

Lemma expire_exact_witness :
  ("0a"%string, 3) ∈ expire_at_boundary
     (foldl run_bop empty_barrier [ONoteTx "0a" 7 (demo_exp 3)]) 8.
Proof.
  apply (expire_exact [ONoteTx "0a" 7 (demo_exp 3)] _ 8 "0a" 3
    (breach_foldl [] _ _ breach_init)).
  exists (BSpec {[ "Pool"%string; "Vault"%string ]} ∅ 7 (Some Pump) (Some "Pool"%string)
            (Some VPumpSell) ∅ false).
  split; [vm_compute; reflexivity|]. cbn [b_expected b_received b_slot].
  split; [set_solver|]. split; [lia|set_solver].
Defined.
