(* ===== verification/AuthRing.v ===== *)
(** The AUTH ring in shared memory: the writer arb-state/shyft/authpub.py and its Python reader
    arb-cap/timer_decay/auth_ro.py.

    The mapping is a byte memory [Z -> Z].  A writer call is a list of stores executed in order,
    each the store of one packed field or of one slice, so that the memory a concurrent reader
    meets after any prefix of them is [run_steps] of that prefix.  A field out of range raises
    at its store and leaves the stores before it in place. *)
From stdpp Require Import base list strings.
From Stdlib Require Import ZArith Lia.
From S2P Require Import Prelude PyBytes.
Open Scope Z_scope.
Open Scope py_scope.

(** * Memory *)

Abbreviation mem := (Z -> Z).

Definition store (m : mem) (off : Z) (bs : bytes) : mem := fun a =>
  if (off <=? a) && (a <? off + blen bs) then nth (Z.to_nat (a - off)) bs 0 else m a.

(** [mm[off:off+n] = bytes(n)] *)
Definition zero (m : mem) (off n : Z) : mem := fun a =>
  if (off <=? a) && (a <? off + n) then 0 else m a.

Definition load (m : mem) (off : Z) (n : nat) : bytes :=
  (fun i => m (off + Z.of_nat i)) <$> seq 0 n.

Definition u (n : nat) (m : mem) (off : Z) : Z := le_dec (load m off n).

(** One store of a writer. *)
Inductive step :=
  | SPack (off : Z) (v : pyres bytes)
  | SZero (off n : Z).

(** The memory after the steps, and the exception that stopped them. *)
Fixpoint run_steps (m : mem) (ss : list step) : mem * option pyexn :=
  match ss with
  | [] => (m, None)
  | SPack off (Ret bs) :: ss' => run_steps (store m off bs) ss'
  | SPack _ (Raise e) :: _ => (m, Some e)
  | SZero off n :: ss' => run_steps (zero m off n) ss'
  end.

(** * Layout *)

Definition MAGIC : Z := 0x39304841.
Definition VER : Z := 1.
Definition RING : Z := 16.
Definition BLOB : Z := 2048.
Definition HDR : Z := 256.
Definition ENT : Z := 2176.
Definition POOL_HDR : Z := 64.
Definition POOL : Z := POOL_HDR + RING * ENT.
Definition COHERENT : Z := 1.
Definition INCOMPLETE : Z := 2.
Definition GAPPED : Z := 4.
Definition BOOT : Z := 8.
Definition HAS_ACCOUNT_WRITE_VERSION : Z := 16.
Definition HAS_TXN_INDEX : Z := 32.
Definition TXN_INDEX_UNKNOWN : Z := 0xFFFFFFFF.

Definition map_size (pool_cap : Z) : Z := HDR + pool_cap * POOL.

(** [for b in data: h ^= b; h = (h * prime) & mask] *)
Definition fnv1a64 (data : bytes) : Z :=
  foldl (fun h b => Z.land (Z.lxor h b * 1099511628211) 0xFFFFFFFFFFFFFFFF)
        14695981039346656037 data.

Definition pool_off (idx : Z) : Z := HDR + idx * POOL.
Definition ent_off (idx slot_i : Z) : Z := pool_off idx + POOL_HDR + slot_i * ENT.

(** * The writer *)

Record authpub := AuthPub { mm : option mem; pool_cap : Z; _ver : Z }.

Definition has (flags bit : Z) : bool := negb (Z.land flags bit =? 0).

(** ** Creation *)

Fixpoint zero_pools (m : mem) (n : nat) : mem :=
  match n with
  | O => m
  | S n' => zero (zero_pools m n') (pool_off (Z.of_nat n')) POOL
  end.

Definition create (cap : Z) (m0 : mem) : authpub :=
  let m := zero m0 0 HDR in
  let '(m, _) := run_steps m
    [SPack 0 (pack_u 4 MAGIC); SPack 4 (pack_u 2 VER); SPack 6 (pack_u 2 RING);
     SPack 8 (pack_u 4 0); SPack 12 (pack_u 4 cap); SPack 16 (pack_u 4 BLOB);
     SPack 20 (pack_u 4 0); SPack 24 (pack_u 8 0); SPack 32 (pack_u 8 0);
     SPack 40 (pack_u 8 0)] in
  {| mm := Some (zero_pools m (Z.to_nat cap)); pool_cap := cap; _ver := 0 |}.

(** The file is [None] when the path does not exist, else its size and contents. *)
Definition open (cap : Z) (file : option (Z * mem)) : authpub :=
  match file with
  | None => create cap (fun _ => 0)
  | Some (size, m) =>
      if negb (size =? map_size cap) then create cap m else
      if negb (u 4 m 0 =? MAGIC) || negb (u 2 m 4 =? VER) || negb (u 2 m 6 =? RING)
      then create cap m
      else {| mm := Some m; pool_cap := cap; _ver := u 8 m 24 |}
  end.

Definition set_ready_steps (ready : bool) (n_pools slot : Z) : list step :=
  [SPack 8 (pack_u 4 n_pools); SPack 20 (pack_u 4 (if ready then 1 else 0));
   SPack 40 (pack_u 8 slot)].

Definition with_mem (a : authpub) (r : mem * option pyexn) : authpub * option pyexn :=
  (AuthPub (Some r.1) (pool_cap a) (_ver a), r.2).

Definition set_ready (a : authpub) (ready : bool) (n_pools slot : Z)
    : authpub * option pyexn :=
  match mm a with
  | None => (a, None)
  | Some m => with_mem a (run_steps m (set_ready_steps ready n_pools slot))
  end.

(** ** Hiding the rings of a previous provider *)

Definition reset_pool_steps (m : mem) (ver idx : Z) : list step :=
  let off := pool_off idx in
  let seq := u 8 m off in
  let seq := seq + Z.land seq 1 in
  [SPack off (pack_u 8 (seq + 1)); SPack (off + 8) (pack_u 4 0);
   SPack (off + 12) (pack_u 4 GAPPED); SPack (off + 16) (pack_u 8 ver);
   SPack off (pack_u 8 (seq + 2))].

(** [for idx in range(self.pool_cap)], [n] pools from [idx] on. *)
Fixpoint reset_pools (m : mem) (ver idx : Z) (n : nat) : mem * option pyexn :=
  match n with
  | O => (m, None)
  | S n' =>
      match run_steps m (reset_pool_steps m ver idx) with
      | (m', None) => reset_pools m' ver (idx + 1) n'
      | r => r
      end
  end.

Definition reset_history (a : authpub) : authpub * option pyexn :=
  match mm a with
  | None => (a, None)
  | Some m =>
      match run_steps m (set_ready_steps false 0 0) with
      | (m1, Some e) => (AuthPub (Some m1) (pool_cap a) (_ver a), Some e)
      | (m1, None) =>
          let ver := _ver a + 1 in
          let a' r := (AuthPub (Some (fst r)) (pool_cap a) ver, snd r) in
          match reset_pools m1 ver 0 (Z.to_nat (pool_cap a)) with
          | (m2, None) => a' (run_steps m2 [SPack 24 (pack_u 8 ver)])
          | r => a' r
          end
      end
  end.

(** ** Publishing *)

Record pub_args := PubArgs {
  pa_slot : Z; pa_blob : bytes; pa_proto : Z; pa_sig : option bytes;
  pa_txn_index : option Z; pa_write_version : option Z; pa_flags : Z; pa_boot : bool }.

(** The values [publish] computes before it touches the memory. *)
Record pub_vals := PubVals { pv_raw : bytes; pv_flags : Z; pv_txn : Z; pv_wv : Z }.

Definition boot_mark : bytes := [98; 111; 111; 116].

(** [boot or raw == b"boot"] *)
Definition is_boot (p : pub_args) : bool :=
  pa_boot p || bool_decide (take 64 (default [] (pa_sig p)) = boot_mark).

Definition pub_prepare (p : pub_args) : pyres pub_vals :=
  let raw := take 64 (default [] (pa_sig p)) in
  let boot := is_boot p in
  let raw := if boot then replicate 64 0 else raw in
  let flags := if boot then Z.lor (pa_flags p) BOOT else pa_flags p in
  let raw := raw ++ replicate (64 - length raw) 0 in
  let flags := Z.lor flags COHERENT in
  tf <-! match pa_txn_index p with
         | None => Ret (TXN_INDEX_UNKNOWN, flags)
         | Some t => if (t <? 0) || (TXN_INDEX_UNKNOWN <=? t)
                     then Raise (ValueError "txn_index must fit u32; use None when unknown")
                     else Ret (t, Z.lor flags HAS_TXN_INDEX)
         end ;;
  let wv := default 0 (pa_write_version p) in
  if (wv <? 0) || (0xFFFFFFFFFFFFFFFF <? wv)
  then Raise (ValueError "max_account_write_version must fit u64") else
  let flags := match pa_write_version p with
               | None => tf.2
               | Some _ => Z.lor tf.2 HAS_ACCOUNT_WRITE_VERSION
               end in
  Ret (PubVals raw flags tf.1 wv).

(** [_ENT_HDR.pack_into]: the buffer is cleared, then the fields are stored in order. *)
Definition ent_steps (eoff ver slot : Z) (v : pub_vals) (proto nblob : Z) : list step :=
  [SZero eoff 128;
   SPack eoff (pack_u 8 ver); SPack (eoff + 8) (pack_u 8 slot);
   SPack (eoff + 16) (pack_u 4 (pv_txn v)); SPack (eoff + 20) (pack_u 4 (pv_flags v));
   SPack (eoff + 24) (pack_u 8 ver); SPack (eoff + 32) (Ret (pv_raw v));
   SPack (eoff + 96) (pack_u 1 proto); SPack (eoff + 97) (pack_u 1 1);
   SPack (eoff + 98) (pack_u 2 nblob); SPack (eoff + 100) (pack_u 8 (pv_wv v))].

(** The stores of one publication into a memory [m], for the version [ver] it will carry. *)
Definition publish_body (off head eoff ver : Z) (p : pub_args) (v : pub_vals) : list step :=
  ent_steps eoff ver (pa_slot p) v (Z.land (pa_proto p) 255) (blen (pa_blob p)) ++
  [SZero (eoff + 128) BLOB; SPack (eoff + 128) (Ret (pa_blob p));
   SPack (off + 8) (pack_u 4 (head + 1)); SPack (off + 12) (pack_u 4 (pv_flags v));
   SPack (off + 16) (pack_u 8 ver); SPack 24 (pack_u 8 ver)].

Definition publish_steps (m : mem) (ver idx : Z) (p : pub_args) (v : pub_vals) : list step :=
  let off := pool_off idx in
  let seq := u 8 m off in
  let head := u 4 m (off + 8) in
  let eoff := ent_off idx (head mod RING) in
  SPack off (pack_u 8 (seq + 1)) :: publish_body off head eoff ver p v ++
  [SPack off (pack_u 8 (seq + 2))].

Definition publish (a : authpub) (idx : Z) (p : pub_args) : authpub * option pyexn :=
  match mm a with
  | None => (a, None)
  | Some m =>
      if (idx <? 0) || (pool_cap a <=? idx) then (a, None) else
      if BLOB <? blen (pa_blob p) then (a, None) else
      match pub_prepare p with
      | Raise e => (a, Some e)
      | Ret v =>
          let r := run_steps m (publish_steps m (_ver a + 1) idx p v) in
          (* the counter moves once the sequence word is odd *)
          let ver := if u 8 m (pool_off idx) + 1 <? 2 ^ 64 then _ver a + 1 else _ver a in
          (AuthPub (Some r.1) (pool_cap a) ver, r.2)
      end
  end.

(** * Readers *)

Record entry := Entry {
  e_generation : Z; e_slot : Z; e_txn : Z; e_flags : Z; e_version : Z; e_sig : bytes;
  e_proto : Z; e_coherent : Z; e_blob_len : Z; e_write_version : option Z }.

#[export] Instance entry_eq_dec : EqDecision entry.
Proof. solve_decision. Defined.

Definition entry_at (m : mem) (eoff : Z) : entry :=
  let flags := u 4 m (eoff + 20) in
  {| e_generation := u 8 m eoff; e_slot := u 8 m (eoff + 8);
     e_txn := if has flags HAS_TXN_INDEX then u 4 m (eoff + 16) else TXN_INDEX_UNKNOWN;
     e_flags := flags; e_version := u 8 m (eoff + 24); e_sig := load m (eoff + 32) 64;
     e_proto := u 1 m (eoff + 96); e_coherent := u 1 m (eoff + 97);
     e_blob_len := u 2 m (eoff + 98);
     e_write_version := if has flags HAS_ACCOUNT_WRITE_VERSION
                        then Some (u 8 m (eoff + 100)) else None |}.

(** The ring of a pool, newest first. *)
Definition ring_of (m : mem) (idx : Z) : list entry :=
  let head := u 4 m (pool_off idx + 8) in
  (fun i => entry_at m (ent_off idx ((head - 1 - Z.of_nat i) mod RING)))
    <$> seq 0 (Z.to_nat (Z.min head RING)).

Definition dump_ring (a : authpub) (idx : Z) : list entry :=
  match mm a with
  | None => []
  | Some m => if pool_cap a <=? idx then [] else ring_of m idx
  end.

(** [usable] of choose_pred. *)
Definition usable (e : entry) : bool :=
  negb (e_coherent e =? 0) && has (e_flags e) COHERENT
  && negb (has (e_flags e) (Z.lor INCOMPLETE GAPPED)).

(** [for i, e in enumerate(entries): if e.get("sig") == sig]: the entries from the hit on. *)
Fixpoint from_sig (entries : list entry) (sig : bytes) : option (list entry) :=
  match entries with
  | [] => None
  | e :: rest => if decide (e_sig e = sig) then Some (e :: rest) else from_sig rest sig
  end.

(** The loop by slots. *)
Fixpoint pred_by_slot (entries : list entry) (trig_slot : Z) : option entry :=
  match entries with
  | [] => None
  | e :: rest =>
      if e_slot e =? trig_slot then None
      else if e_slot e <? trig_slot then (if usable e then Some e else None)
      else pred_by_slot rest trig_slot
  end.

Definition choose_pred (entries : list entry) (trig_slot : Z) (sig : option bytes)
    : option entry :=
  let hit := match sig with
             | Some (b :: s) => from_sig entries (b :: s)
             | _ => None
             end in
  match hit with
  | Some (_ :: e :: _) => if usable e then Some e else None
  | Some _ => None
  | None => pred_by_slot entries trig_slot
  end.

(** ** auth_ro.latest *)

Definition READER_CAP : Z := 4096.

Record latest_row := LatestRow {
  l_generation : Z; l_slot : Z; l_txn : Z; l_flags : Z; l_proto : Z; l_sig : bytes;
  l_blob : bytes }.

Definition latest (m : mem) (idx : Z) : option latest_row :=
  if (idx <? 0) || (READER_CAP <=? idx) then None else
  let off := pool_off idx in
  if Z.odd (u 8 m off) then None else
  let head := u 4 m (off + 8) in
  if head =? 0 then None else
  let eoff := ent_off idx ((head - 1) mod RING) in
  let flags := u 4 m (eoff + 20) in
  if (u 1 m (eoff + 97) =? 0) || negb (has flags COHERENT)
     || has flags (Z.lor INCOMPLETE GAPPED) then None else
  Some {| l_generation := u 8 m eoff; l_slot := u 8 m (eoff + 8); l_txn := u 4 m (eoff + 16);
          l_flags := flags; l_proto := u 1 m (eoff + 96); l_sig := load m (eoff + 32) 64;
          l_blob := load m (eoff + 128) (Z.to_nat (Z.min (u 2 m (eoff + 98)) BLOB)) |}.

(** * Loads and stores *)

Lemma length_load m off n : length (load m off n) = n.
Proof. unfold load. by rewrite length_fmap, length_seq. Qed.

Lemma load_ext m m' off n :
  (forall a, off <= a < off + Z.of_nat n -> m a = m' a) -> load m off n = load m' off n.
Proof.
  intros H. unfold load. apply list_fmap_ext. intros i x Hx.
  apply lookup_seq in Hx as [-> ?]. apply H. lia.
Qed.

Lemma load_store_eq m off bs n : n = length bs -> load (store m off bs) off n = bs.
Proof.
  intros ->. apply list_eq. intros i. unfold load. rewrite list_lookup_fmap.
  destruct (decide (i < length bs)%nat) as [Hi|Hi].
  - rewrite lookup_seq_lt by lia. cbn [fmap option_fmap option_map]. unfold store, blen.
    destruct (Z.leb_spec off (off + Z.of_nat (0 + i))); [|lia].
    destruct (Z.ltb_spec (off + Z.of_nat (0 + i)) (off + Z.of_nat (length bs))); [|lia].
    cbn [andb]. replace (Z.to_nat _) with i by lia.
    destruct (lookup_lt_is_Some_2 bs i Hi) as [b Hb]. rewrite Hb. f_equal.
    by apply nth_lookup_Some.
  - rewrite lookup_seq_ge by lia. cbn. symmetry. apply lookup_ge_None. lia.
Qed.

Lemma load_store_ne m o bs off n :
  off + Z.of_nat n <= o \/ o + blen bs <= off -> load (store m o bs) off n = load m off n.
Proof.
  intros H. apply load_ext. intros a Ha. unfold store.
  destruct (Z.leb_spec o a), (Z.ltb_spec a (o + blen bs)); simpl; try done; lia.
Qed.

Lemma load_zero_ne m o k off n :
  off + Z.of_nat n <= o \/ o + k <= off -> load (zero m o k) off n = load m off n.
Proof.
  intros H. apply load_ext. intros a Ha. unfold zero.
  destruct (Z.leb_spec o a), (Z.ltb_spec a (o + k)); simpl; try done; lia.
Qed.

(** A step list whose fields are all in range runs to the end. *)
Definition step_ok (s : step) : Prop :=
  match s with SPack _ (Raise _) => False | _ => True end.

Definition run_step (m : mem) (s : step) : mem :=
  match s with
  | SPack off (Ret bs) => store m off bs
  | SPack _ (Raise _) => m
  | SZero off n => zero m off n
  end.

Lemma run_steps_ok m ss : Forall step_ok ss -> run_steps m ss = (foldl run_step m ss, None).
Proof.
  intros H. revert m. induction H as [|[off [bs|e]|off n] ss Hs _ IH]; intros m; [done| |done|].
  - cbn [run_steps foldl run_step]. apply IH.
  - cbn [run_steps foldl run_step]. apply IH.
Qed.

(** The bytes a step may change. *)
Definition step_range (s : step) : Z * Z :=
  match s with
  | SPack off (Ret bs) => (off, off + blen bs)
  | SPack off (Raise _) => (off, off)
  | SZero off n => (off, off + n)
  end.

Definition disjoint_from (off : Z) (n : nat) (s : step) : Prop :=
  off + Z.of_nat n <= (step_range s).1 \/ (step_range s).2 <= off.

Lemma load_foldl_ne m ss off n :
  Forall (disjoint_from off n) ss -> load (foldl run_step m ss) off n = load m off n.
Proof.
  intros H. revert m. induction H as [|[o [bs|e]|o k] ss Hd _ IH]; intros m; [done|..];
    cbn [foldl run_step]; rewrite IH; unfold disjoint_from in Hd; cbn in Hd.
  - by apply load_store_ne.
  - done.
  - by apply load_zero_ne.
Qed.

Lemma load_foldl_app m ss ss' off n :
  Forall (disjoint_from off n) ss' ->
  load (foldl run_step m (ss ++ ss')) off n = load (foldl run_step m ss) off n.
Proof. intros H. rewrite foldl_app. by apply load_foldl_ne. Qed.

(** Reading the field the last overlapping step wrote. *)
Lemma load_foldl_field m ss off bs n ss' :
  n = length bs -> Forall (disjoint_from off n) ss' ->
  load (foldl run_step m (ss ++ SPack off (Ret bs) :: ss')) off n = bs.
Proof.
  intros Hn Hd. rewrite foldl_app. cbn [foldl run_step]. rewrite load_foldl_ne by done.
  by apply load_store_eq.
Qed.

(** ** Frames *)

Definition outside (a : Z) (s : step) : Prop := a < (step_range s).1 \/ (step_range s).2 <= a.

Lemma foldl_frame m ss a : Forall (outside a) ss -> foldl run_step m ss a = m a.
Proof.
  intros H. revert m. induction H as [|[o [bs|e]|o k] ss Hd _ IH]; intros m; [done|..];
    cbn [foldl run_step]; rewrite IH; unfold outside in Hd; cbn in Hd; [|done|].
  - unfold store. destruct (Z.leb_spec o a), (Z.ltb_spec a (o + blen bs)); simpl; (done || lia).
  - unfold zero. destruct (Z.leb_spec o a), (Z.ltb_spec a (o + k)); simpl; (done || lia).
Qed.

Lemma u_ext n m m' off :
  (forall a, off <= a < off + Z.of_nat n -> m a = m' a) -> u n m off = u n m' off.
Proof. intros H. unfold u. by rewrite (load_ext m m'). Qed.

Lemma entry_at_ext m m' eoff :
  (forall a, eoff <= a < eoff + 128 -> m a = m' a) -> entry_at m eoff = entry_at m' eoff.
Proof.
  intros H. unfold entry_at.
  rewrite (u_ext 8 m m' eoff), (u_ext 8 m m' (eoff + 8)), (u_ext 4 m m' (eoff + 16)),
    (u_ext 4 m m' (eoff + 20)), (u_ext 8 m m' (eoff + 24)), (load_ext m m' (eoff + 32)),
    (u_ext 1 m m' (eoff + 96)), (u_ext 1 m m' (eoff + 97)), (u_ext 2 m m' (eoff + 98)),
    (u_ext 8 m m' (eoff + 100)); [done|intros a Ha; apply H; lia..].
Qed.

(** Simplify one load through a tower of stores. *)
Ltac mem_simp :=
  unfold u; cbn [foldl run_step app];
  repeat first
    [ rewrite load_store_eq by (rewrite ?length_le_enc; (reflexivity || lia))
    | rewrite load_store_ne by (rewrite ?blen_le_enc; lia)
    | rewrite load_zero_ne by lia ].

Lemma pack_u_ok n z : 0 <= z < 2 ^ (8 * Z.of_nat n) -> pack_u n z = Ret (le_enc n z).
Proof.
  intros Hz. unfold pack_u. destruct (Z.leb_spec 0 z); [|lia].
  destruct (Z.ltb_spec z (2 ^ (8 * Z.of_nat n))); [done|lia].
Qed.

(** ** Flag words *)

Lemma lor_bound n a b : 0 <= n -> 0 <= a < 2 ^ n -> 0 <= b < 2 ^ n -> 0 <= Z.lor a b < 2 ^ n.
Proof.
  intros Hn Ha Hb. split; [apply Z.lor_nonneg; lia|].
  destruct (Z.eq_dec (Z.lor a b) 0) as [->|Hz]; [apply Z.pow_pos_nonneg; lia|].
  assert (0 <= Z.lor a b) by (apply Z.lor_nonneg; lia).
  apply Z.log2_lt_pow2; [lia|]. rewrite Z.log2_lor by lia. apply Z.max_lub_lt.
  - destruct (Z.eq_dec a 0) as [->|]; [|apply Z.log2_lt_pow2; lia].
    destruct (Z.eq_dec n 0) as [->|]; [|simpl; lia]. change (2 ^ 0) with 1 in *.
    assert (b = 0) by lia. subst. by destruct Hz.
  - destruct (Z.eq_dec b 0) as [->|]; [|apply Z.log2_lt_pow2; lia].
    destruct (Z.eq_dec n 0) as [->|]; [|simpl; lia]. change (2 ^ 0) with 1 in *.
    assert (a = 0) by lia. subst. by destruct Hz.
Qed.

Lemma has_lor f g bit : has (Z.lor f g) bit = has f bit || has g bit.
Proof.
  unfold has. rewrite Z.land_lor_distr_l.
  destruct (Z.eqb_spec (Z.lor (Z.land f bit) (Z.land g bit)) 0) as [He|Hn].
  - apply Z.lor_eq_0_iff in He as [-> ->]. done.
  - destruct (Z.eqb_spec (Z.land f bit) 0) as [He|]; [|done].
    destruct (Z.eqb_spec (Z.land g bit) 0) as [He'|]; [|done]. rewrite He, He' in Hn. done.
Qed.
#[export] Hint Rewrite has_lor : plane.

(** * One publication *)

Lemma pub_prepare_inv p v :
  pub_prepare p = Ret v -> 0 <= pa_flags p < 2 ^ 32 ->
  length (pv_raw v) = 64%nat /\ 0 <= pv_txn v < 2 ^ 32 /\ 0 <= pv_wv v < 2 ^ 64 /\
  0 <= pv_flags v < 2 ^ 32 /\ has (pv_flags v) COHERENT = true /\
  has (pv_flags v) (Z.lor INCOMPLETE GAPPED) = has (pa_flags p) (Z.lor INCOMPLETE GAPPED) /\
  pv_wv v = default 0 (pa_write_version p).
Proof.
  unfold pub_prepare. intros Hp Hf. apply py_bind_Ret in Hp as ([txn fl]&Htf&Hp).
  destruct (_ || _) eqn:Ew in Hp; [done|]. injection Hp as <-. cbn [pv_raw pv_txn pv_wv pv_flags].
  apply orb_false_iff in Ew as [Ew1 Ew2]. apply Z.ltb_ge in Ew1, Ew2.
  set (fl0 := if is_boot p then Z.lor (pa_flags p) BOOT else pa_flags p) in Htf.
  assert (Hfl0 : 0 <= fl0 < 2 ^ 32 /\ has fl0 (Z.lor INCOMPLETE GAPPED) =
      has (pa_flags p) (Z.lor INCOMPLETE GAPPED)).
  { unfold fl0. destruct (is_boot p); [|done]. split; [apply lor_bound; unfold BOOT; lia|].
    rewrite has_lor. by rewrite orb_false_r. }
  assert (Hfl : 0 <= fl < 2 ^ 32 /\ has fl COHERENT = true /\ has fl (Z.lor INCOMPLETE GAPPED) =
      has (pa_flags p) (Z.lor INCOMPLETE GAPPED) /\ 0 <= txn < 2 ^ 32).
  { destruct Hfl0 as [Hr <-]. destruct (pa_txn_index p) as [t|].
    - destruct (_ || _) eqn:Et in Htf; [done|]. injection Htf as <- <-.
      apply orb_false_iff in Et as [Et1 Et2]. apply Z.ltb_ge in Et1. apply Z.leb_gt in Et2.
      rewrite !has_lor. unfold TXN_INDEX_UNKNOWN in Et2.
      split; [apply lor_bound; [lia|apply lor_bound|]; unfold COHERENT, HAS_TXN_INDEX; lia|].
      split; [by rewrite orb_true_r|]. split; [by rewrite !orb_false_r|lia].
    - injection Htf as <- <-. rewrite !has_lor. unfold TXN_INDEX_UNKNOWN.
      split; [apply lor_bound; unfold COHERENT; lia|].
      split; [by rewrite orb_true_r|]. split; [by rewrite !orb_false_r|lia]. }
  destruct Hfl as (Hr&Hc&Hg&Ht). cbn [snd]. split; [|split; [exact Ht|split; [lia|]]].
  - rewrite length_app, length_replicate. destruct (is_boot p);
      rewrite ?length_replicate, ?length_take; (reflexivity || lia).
  - destruct (pa_write_version p); rewrite ?has_lor, ?Hg, ?Hc, ?orb_false_r; [|done].
    split; [|done]. apply lor_bound; unfold HAS_ACCOUNT_WRITE_VERSION; lia.
Qed.

(** The inputs and the memory words of a publication that cannot raise. *)
Record pub_fits (m : mem) (ver idx : Z) (p : pub_args) : Prop := {
  pf_idx : 0 <= idx;
  pf_seq : 0 <= u 8 m (pool_off idx) < 2 ^ 64 - 2;
  pf_head : 0 <= u 4 m (pool_off idx + 8) < 2 ^ 32 - 1;
  pf_ver : 0 <= ver < 2 ^ 64;
  pf_slot : 0 <= pa_slot p < 2 ^ 64;
  pf_blob : blen (pa_blob p) <= BLOB;
  pf_flags : 0 <= pa_flags p < 2 ^ 32;
}.

(** The entry a reader of the ring finds for a publication. *)
Definition entry_of (ver : Z) (p : pub_args) (v : pub_vals) : entry :=
  {| e_generation := ver; e_slot := pa_slot p;
     e_txn := if has (pv_flags v) HAS_TXN_INDEX then pv_txn v else TXN_INDEX_UNKNOWN;
     e_flags := pv_flags v; e_version := ver; e_sig := pv_raw v;
     e_proto := Z.land (pa_proto p) 255; e_coherent := 1; e_blob_len := blen (pa_blob p);
     e_write_version := if has (pv_flags v) HAS_ACCOUNT_WRITE_VERSION
                        then Some (pv_wv v) else None |}.

(** The stores of a publication with every field encoded. *)
Definition pub_middle (off eoff head ver : Z) (p : pub_args) (v : pub_vals) : list step :=
  [SZero eoff 128;
   SPack eoff (Ret (le_enc 8 ver)); SPack (eoff + 8) (Ret (le_enc 8 (pa_slot p)));
   SPack (eoff + 16) (Ret (le_enc 4 (pv_txn v))); SPack (eoff + 20) (Ret (le_enc 4 (pv_flags v)));
   SPack (eoff + 24) (Ret (le_enc 8 ver)); SPack (eoff + 32) (Ret (pv_raw v));
   SPack (eoff + 96) (Ret (le_enc 1 (Z.land (pa_proto p) 255)));
   SPack (eoff + 97) (Ret (le_enc 1 1));
   SPack (eoff + 98) (Ret (le_enc 2 (blen (pa_blob p))));
   SPack (eoff + 100) (Ret (le_enc 8 (pv_wv v)));
   SZero (eoff + 128) BLOB; SPack (eoff + 128) (Ret (pa_blob p));
   SPack (off + 8) (Ret (le_enc 4 (head + 1))); SPack (off + 12) (Ret (le_enc 4 (pv_flags v)));
   SPack (off + 16) (Ret (le_enc 8 ver)); SPack 24 (Ret (le_enc 8 ver))].

Definition pub_stores (off eoff seq head ver : Z) (p : pub_args) (v : pub_vals) : list step :=
  SPack off (Ret (le_enc 8 (seq + 1))) :: pub_middle off eoff head ver p v ++
  [SPack off (Ret (le_enc 8 (seq + 2)))].

Section publication.
Context (m : mem) (ver idx : Z) (p : pub_args) (v : pub_vals).
Hypothesis (Hfit : pub_fits m ver idx p) (Hprep : pub_prepare p = Ret v).

Let off := pool_off idx.
Let seq := u 8 m off.
Let head := u 4 m (off + 8).
Let eoff := ent_off idx (head mod RING).
Let ss := pub_stores off eoff seq head ver p v.

Lemma pub_vals_ok :
  length (pv_raw v) = 64%nat /\ 0 <= pv_txn v < 2 ^ 32 /\ 0 <= pv_wv v < 2 ^ 64 /\
  0 <= pv_flags v < 2 ^ 32.
Proof. destruct Hfit. destruct (pub_prepare_inv p v Hprep) as (?&?&?&?&_); auto. Qed.

Lemma proto_byte : 0 <= Z.land (pa_proto p) 255 < 2 ^ 8.
Proof.
  change 255 with (Z.ones 8). rewrite Z.land_ones by lia. apply Z.mod_pos_bound. lia.
Qed.

Lemma pub_geometry :
  256 <= off /\ off + 64 <= eoff /\ eoff + ENT <= off + POOL /\ 0 <= head mod RING < RING.
Proof.
  destruct Hfit as [Hi _ _ _ _ _ _]. unfold eoff, ent_off, off, pool_off.
  assert (0 <= head mod RING < RING) by (apply Z.mod_pos_bound; unfold RING; lia).
  unfold HDR, POOL, POOL_HDR, ENT, RING in *. lia.
Qed.

Lemma publish_steps_fit : publish_steps m ver idx p v = ss.
Proof.
  destruct Hfit as [Hi Hseq Hhead Hv Hs Hb Hf]. destruct pub_vals_ok as (Hraw&Ht&Hw&Hfl).
  pose proof proto_byte. unfold publish_steps, publish_body, ent_steps, ss, pub_stores, pub_middle. cbn [app].
  fold off in Hseq, Hhead |- *. fold seq in Hseq |- *. fold head in Hhead |- *.
  unfold BLOB in Hb. assert (0 <= blen (pa_blob p)) by (unfold blen; lia).
  by rewrite (pack_u_ok 8 (seq + 1)), (pack_u_ok 8 ver), (pack_u_ok 8 (pa_slot p)),
    (pack_u_ok 4 (pv_txn v)), (pack_u_ok 4 (pv_flags v)), (pack_u_ok 1 (Z.land (pa_proto p) 255)),
    (pack_u_ok 1 1), (pack_u_ok 2 (blen (pa_blob p))), (pack_u_ok 8 (pv_wv v)),
    (pack_u_ok 4 (head + 1)), (pack_u_ok 8 (seq + 2)) by lia.
Qed.

Lemma pub_run : run_steps m ss = (foldl run_step m ss, None).
Proof. apply run_steps_ok. unfold ss, pub_stores, pub_middle. repeat constructor. Qed.

Lemma pub_ranges a :
  (a < 24 \/ 32 <= a) -> (a < off \/ off + 24 <= a) -> (a < eoff \/ eoff + ENT <= a) ->
  Forall (outside a) ss.
Proof.
  intros H1 H2 H3. destruct pub_geometry as (Hg1&Hg2&Hg3&_).
  destruct Hfit as [_ _ _ _ _ Hb _]. destruct pub_vals_ok as (Hraw&_).
  assert (Hraw' : blen (pv_raw v) = 64) by (unfold blen; lia). unfold BLOB, ENT in *.
  unfold ss, pub_stores, pub_middle. cbn [app].
  repeat (constructor; [unfold outside; cbn [step_range fst snd];
    rewrite ?blen_le_enc, ?Hraw'; unfold BLOB; lia|]). constructor.
Qed.

(** After any number of its stores a publication has changed only its pool's header words, one
    entry, and the global version word. *)
Lemma pub_frame k a :
  (a < 24 \/ 32 <= a) -> (a < off \/ off + 24 <= a) -> (a < eoff \/ eoff + ENT <= a) ->
  foldl run_step m (take k ss) a = m a.
Proof. intros H1 H2 H3. apply foldl_frame, Forall_take. by apply pub_ranges. Qed.

Lemma pub_middle_disjoint :
  Forall (disjoint_from off 8) (pub_middle off eoff head ver p v).
Proof.
  destruct pub_geometry as (Hg1&Hg2&Hg3&_). destruct Hfit as [_ _ _ _ _ Hb _].
  destruct pub_vals_ok as (Hraw&_).
  assert (Hraw' : blen (pv_raw v) = 64) by (unfold blen; lia). unfold BLOB, ENT in *.
  unfold pub_middle. repeat (constructor; [unfold disjoint_from; cbn [step_range fst snd];
    rewrite ?blen_le_enc, ?Hraw'; unfold BLOB; lia|]). constructor.
Qed.

(** While it runs, the sequence word is one more than before. *)
Lemma pub_midway k :
  (0 < k < length ss)%nat -> u 8 (foldl run_step m (take k ss)) off = seq + 1.
Proof.
  intros Hk. destruct Hfit as [_ Hseq _ _ _ _ _]. fold off in Hseq. fold seq in Hseq.
  destruct k as [|k]; [lia|]. unfold ss, pub_stores in *.
  cbn [length] in Hk. rewrite length_app in Hk. cbn [length] in Hk.
  rewrite firstn_cons, take_app_le by lia. cbn [foldl]. unfold u.
  rewrite load_foldl_ne by (apply Forall_take, pub_middle_disjoint).
  cbn [run_step]. rewrite load_store_eq by (by rewrite length_le_enc).
  apply le_dec_enc_small. lia.
Qed.

Lemma pub_words :
  u 8 (foldl run_step m ss) off = seq + 2 /\ u 4 (foldl run_step m ss) (off + 8) = head + 1.
Proof.
  destruct pub_geometry as (Hg1&Hg2&Hg3&_). destruct Hfit as [_ Hseq Hhead _ _ _ _].
  fold off in Hseq, Hhead. fold seq in Hseq. fold head in Hhead.
  unfold ss, pub_stores, pub_middle. split; mem_simp; apply le_dec_enc_small; lia.
Qed.

Lemma pub_entry :
  entry_at (foldl run_step m ss) eoff = entry_of ver p v /\
  u 4 (foldl run_step m ss) (eoff + 16) = pv_txn v /\
  load (foldl run_step m ss) (eoff + 128) (length (pa_blob p)) = pa_blob p.
Proof.
  destruct pub_geometry as (Hg1&Hg2&Hg3&_). destruct pub_vals_ok as (Hraw&Ht&Hw&Hfl).
  destruct Hfit as [_ _ _ Hv Hs Hb _]. pose proof proto_byte as Hpr.
  assert (Hraw' : blen (pv_raw v) = 64) by (unfold blen; lia).
  assert (Hbl : 0 <= blen (pa_blob p)) by (unfold blen; lia).
  assert (Hlen : Z.of_nat (length (pa_blob p)) = blen (pa_blob p)) by done.
  unfold ENT, BLOB in *.
  assert (Hf : forall n a z, 0 <= z < 2 ^ (8 * Z.of_nat n) ->
    load (foldl run_step m ss) a n = le_enc n z -> u n (foldl run_step m ss) a = z)
    by (intros n a z Hz Hl; unfold u; rewrite Hl; by apply le_dec_enc_small).
  assert (Hflags : u 4 (foldl run_step m ss) (eoff + 20) = pv_flags v).
  { apply Hf; [lia|]. unfold ss, pub_stores, pub_middle. by mem_simp. }
  assert (Htxn : u 4 (foldl run_step m ss) (eoff + 16) = pv_txn v).
  { apply Hf; [lia|]. unfold ss, pub_stores, pub_middle. by mem_simp. }
  split; [|split; [exact Htxn|unfold ss, pub_stores, pub_middle; by mem_simp]].
  unfold entry_at. rewrite Hflags, Htxn. unfold entry_of. f_equal.
  1-3,5-7: (apply Hf; [cbn; lia|]; unfold ss, pub_stores, pub_middle; by mem_simp).
  - unfold ss, pub_stores, pub_middle. by mem_simp.
  - destruct (has _ _); [|done]. f_equal. apply Hf; [lia|]. unfold ss, pub_stores, pub_middle. by mem_simp.
Qed.
End publication.

(** * The ring as an abstract list *)

Lemma ring_shift head i :
  (head + 1 - 1 - Z.of_nat (S i)) mod RING = (head - 1 - Z.of_nat i) mod RING.
Proof. f_equal. lia. Qed.

(** Slots of the ring other than the newest one. *)
Lemma ring_slot_ne head i :
  (Z.of_nat i < RING - 1) -> (head - 1 - Z.of_nat i) mod RING <> head mod RING.
Proof.
  intros Hi He. unfold RING in *.
  pose proof (Z.div_mod (head - 1 - Z.of_nat i) 16 ltac:(lia)).
  pose proof (Z.div_mod head 16 ltac:(lia)). lia.
Qed.

Lemma ent_off_disjoint idx i j a :
  0 <= i < RING -> 0 <= j < RING -> i <> j -> ent_off idx i <= a < ent_off idx i + ENT ->
  a < ent_off idx j \/ ent_off idx j + ENT <= a.
Proof. unfold ent_off, RING, ENT. lia. Qed.

Lemma ring_of_cons m idx head :
  u 4 m (pool_off idx + 8) = head + 1 -> 0 <= head ->
  ring_of m idx = entry_at m (ent_off idx (head mod RING)) ::
    ((fun i => entry_at m (ent_off idx ((head - 1 - Z.of_nat i) mod RING)))
       <$> seq 0 (Z.to_nat (Z.min head (RING - 1)))).
Proof.
  intros Hh Hp. unfold ring_of. rewrite Hh.
  replace (Z.to_nat (Z.min (head + 1) RING)) with (S (Z.to_nat (Z.min head (RING - 1))))
    by (unfold RING; lia).
  cbn [seq]. rewrite fmap_cons. f_equal.
  - do 3 f_equal. lia.
  - rewrite <- fmap_S_seq, <- list_fmap_compose. apply list_fmap_ext. intros i x _.
    cbn [compose]. by rewrite ring_shift.
Qed.

(** The other pools' words and entries lie outside what a publication stores. *)
Lemma other_pool m ver idx p v k idx' a :
  pub_fits m ver idx p -> pub_prepare p = Ret v -> 0 <= idx' -> idx' <> idx ->
  pool_off idx' <= a < pool_off idx' + POOL ->
  let head := u 4 m (pool_off idx + 8) in
  foldl run_step m (take k (pub_stores (pool_off idx) (ent_off idx (head mod RING))
    (u 8 m (pool_off idx)) head ver p v)) a = m a.
Proof.
  intros Hfit Hprep H0 Hne Ha. cbv zeta.
  destruct (pub_geometry m ver idx p Hfit) as (Hg1&Hg2&Hg3&_).
  apply pub_frame; try done; unfold pool_off, HDR, POOL, POOL_HDR, RING, ENT in *; lia.
Qed.

Lemma publish_run a idx p m v :
  mm a = Some m -> idx < pool_cap a -> pub_fits m (_ver a + 1) idx p -> pub_prepare p = Ret v ->
  let head := u 4 m (pool_off idx + 8) in
  let ss := pub_stores (pool_off idx) (ent_off idx (head mod RING)) (u 8 m (pool_off idx)) head
              (_ver a + 1) p v in
  publish_steps m (_ver a + 1) idx p v = ss /\
  publish a idx p = (AuthPub (Some (foldl run_step m ss)) (pool_cap a) (_ver a + 1), None).
Proof.
  intros Hm Hcap Hfit Hprep. cbv zeta. split; [by apply publish_steps_fit|].
  unfold publish. rewrite Hm. destruct Hfit as [Hi Hseq Hh Hv Hs Hb Hf] eqn:EF.
  destruct (Z.ltb_spec idx 0); [lia|]. destruct (Z.leb_spec (pool_cap a) idx); [lia|].
  cbn [orb]. destruct (Z.ltb_spec BLOB (blen (pa_blob p))); [lia|]. rewrite Hprep.
  rewrite publish_steps_fit, pub_run by done. cbn [fst snd].
  destruct (Z.ltb_spec (u 8 m (pool_off idx) + 1) (2 ^ 64)); [done|lia].
Qed.

(** C10. A publication that fits its fields pushes exactly one entry on the
    pool's ring: the new ring is the new entry followed by the old ring, cut at 16, with every
    field as passed (boot signatures blanked, flags completed); the rings of all other pools
    are untouched, and the pool's sequence word moves by two. *)
Theorem publish_refines_ring a idx p m v :
  mm a = Some m -> idx < pool_cap a -> pub_fits m (_ver a + 1) idx p -> pub_prepare p = Ret v ->
  exists a' m', publish a idx p = (a', None) /\ mm a' = Some m' /\ _ver a' = _ver a + 1 /\
    dump_ring a' idx =
      take (Z.to_nat RING) (entry_of (_ver a + 1) p v :: dump_ring a idx) /\
    (forall idx', 0 <= idx' -> idx' <> idx -> dump_ring a' idx' = dump_ring a idx') /\
    u 8 m' (pool_off idx) = u 8 m (pool_off idx) + 2.
Proof.
  intros Hm Hcap Hfit Hprep.
  destruct (publish_run a idx p m v Hm Hcap Hfit Hprep) as [_ Hrun].
  pose proof (pub_words m (_ver a + 1) idx p v Hfit) as [Hseq' Hhead'].
  pose proof (pub_entry m (_ver a + 1) idx p v Hfit Hprep) as (Hent&_&_).
  pose proof (pf_head _ _ _ _ Hfit) as Hh.
  set (head := u 4 m (pool_off idx + 8)) in *. set (ss := pub_stores _ _ _ _ _ _ _) in *.
  eexists _, _. split; [exact Hrun|]. split; [done|]. split; [done|].
  split; [|split; [|exact Hseq']].
  - unfold dump_ring. cbn [mm pool_cap]. rewrite Hm.
    destruct (Z.leb_spec (pool_cap a) idx); [lia|].
    rewrite (ring_of_cons _ _ _ Hhead') by lia. rewrite Hent.
    change (Z.to_nat RING) with (S 15). rewrite firstn_cons. f_equal.
    unfold ring_of. fold head. rewrite <- fmap_take, take_seq.
    replace (Nat.min 15 (Z.to_nat (Z.min head RING)))
      with (Z.to_nat (Z.min head (RING - 1))) by (unfold RING; lia).
    apply list_fmap_ext. intros j i Hj. apply lookup_seq in Hj as [-> Hlt].
    apply entry_at_ext. intros b Hb. rewrite <- (firstn_all ss).
    pose proof (ring_slot_ne head (0 + j) ltac:(unfold RING in *; lia)).
    pose proof (Z.mod_pos_bound (head - 1 - Z.of_nat (0 + j)) RING ltac:(done)).
    pose proof (Z.mod_pos_bound head RING ltac:(done)).
    destruct (pub_geometry m (_ver a + 1) idx p Hfit) as (Hg1&_).
    apply pub_frame; try done; fold head; unfold ent_off, POOL_HDR, ENT in *; lia.
  - intros idx' H0 Hne. unfold dump_ring. cbn [mm pool_cap]. rewrite Hm.
    destruct (pool_cap a <=? idx'); [done|]. unfold ring_of.
    assert (Hsame : forall b, pool_off idx' <= b < pool_off idx' + POOL ->
        foldl run_step m ss b = m b)
      by (intros b Hb; rewrite <- (firstn_all ss); by apply (other_pool m (_ver a + 1) idx p v _ idx')).
    assert (Hw : u 4 (foldl run_step m ss) (pool_off idx' + 8) = u 4 m (pool_off idx' + 8))
      by (apply u_ext; intros b Hb; apply Hsame; unfold POOL, POOL_HDR, RING, ENT; lia).
    rewrite Hw. apply list_fmap_ext. intros j i _. apply entry_at_ext. intros b Hb.
    apply Hsame. pose proof (Z.mod_pos_bound (u 4 m (pool_off idx' + 8) - 1 - Z.of_nat i) RING
      ltac:(done)). unfold ent_off, POOL, POOL_HDR, RING, ENT in *. lia.
Qed.

(** * What a reader sees *)

Lemma latest_odd m idx : Z.odd (u 8 m (pool_off idx)) = true -> latest m idx = None.
Proof. intros Ho. unfold latest. destruct (_ || _); [done|]. by rewrite Ho. Qed.

(** [latest] reads only its pool's part of the memory. *)
Lemma latest_ext m m' idx :
  0 <= idx -> (forall a, pool_off idx <= a < pool_off idx + POOL -> m a = m' a) ->
  latest m idx = latest m' idx.
Proof.
  intros H0 Hsame. unfold latest.
  assert (Hin : forall n c, 0 <= c -> c + Z.of_nat n <= POOL ->
      u n m (pool_off idx + c) = u n m' (pool_off idx + c))
    by (intros n c Hc Hn; apply u_ext; intros b Hb; apply Hsame; lia).
  pose proof (Hin 8%nat 0 ltac:(lia) ltac:(done)) as Hs. rewrite Z.add_0_r in Hs. rewrite Hs.
  rewrite (Hin 4%nat 8) by (done || lia).
  destruct (_ || _); [done|]. destruct (Z.odd _); [done|].
  destruct (_ =? 0); [done|].
  set (j := (u 4 m' (pool_off idx + 8) - 1) mod RING).
  assert (Hj : 0 <= j < RING) by (apply Z.mod_pos_bound; done).
  assert (Hl : forall n c, 0 <= c -> c + Z.of_nat n <= ENT ->
      load m (ent_off idx j + c) n = load m' (ent_off idx j + c) n).
  { intros n c Hc Hn. apply load_ext. intros b Hb. apply Hsame.
    unfold ent_off, POOL, POOL_HDR, RING, ENT in *. lia. }
  pose proof (Hl 8%nat 0 ltac:(lia) ltac:(done)) as Hl0. rewrite Z.add_0_r in Hl0.
  unfold u. rewrite Hl0, !(Hl 8%nat), !(Hl 4%nat), !(Hl 1%nat), !(Hl 64%nat), !(Hl 2%nat)
    by (done || lia).
  rewrite (Hl _ 128); [done|lia|]. unfold BLOB, ENT. lia.
Qed.

Lemma usable_bits f :
  negb (has f COHERENT) || has f (Z.lor INCOMPLETE GAPPED) = false <->
  has f COHERENT = true /\ has f (Z.lor INCOMPLETE GAPPED) = false.
Proof. rewrite orb_false_iff, negb_false_iff. done. Qed.

(** The row [latest] reads back after a publication. *)
Definition row_of (ver : Z) (p : pub_args) (v : pub_vals) : latest_row :=
  LatestRow ver (pa_slot p) (pv_txn v) (pv_flags v) (Z.land (pa_proto p) 255) (pv_raw v)
            (pa_blob p).

(** Behind the last store: the row that was published, if the word was even and the publication is not
    marked incomplete or gapped. *)
Lemma latest_published_any m ver idx p v :
  pub_fits m ver idx p -> pub_prepare p = Ret v -> idx < READER_CAP ->
  let head := u 4 m (pool_off idx + 8) in
  latest (foldl run_step m (pub_stores (pool_off idx) (ent_off idx (head mod RING))
    (u 8 m (pool_off idx)) head ver p v)) idx =
  if Z.even (u 8 m (pool_off idx)) && negb (has (pa_flags p) (Z.lor INCOMPLETE GAPPED))
  then Some (row_of ver p v) else None.
Proof.
  intros Hfit Hprep Hcap. cbv zeta.
  pose proof (pub_words m ver idx p v Hfit) as [Hseq' Hhead'].
  pose proof (pub_entry m ver idx p v Hfit Hprep) as (Hent&Htxn&Hblob).
  pose proof (pf_head _ _ _ _ Hfit) as Hh. pose proof (pf_idx _ _ _ _ Hfit) as Hi.
  pose proof (pf_blob _ _ _ _ Hfit) as Hb.
  destruct (pub_prepare_inv p v Hprep (pf_flags _ _ _ _ Hfit)) as (_&_&_&_&Hc&Hg&_).
  set (head := u 4 m (pool_off idx + 8)) in *. set (mf := foldl run_step _ _) in *.
  unfold latest. destruct (Z.ltb_spec idx 0); [lia|]. destruct (Z.leb_spec READER_CAP idx); [lia|].
  cbn [orb]. rewrite Hseq'. rewrite Z.odd_add, <- Z.negb_even.
  destruct (Z.even (u 8 m (pool_off idx))); cbn [negb xorb Z.odd andb]; [|done].
  rewrite Hhead'. destruct (Z.eqb_spec (head + 1) 0); [lia|].
  replace (head + 1 - 1) with head by lia. unfold entry_at, entry_of in Hent.
  set (eoff := ent_off idx (head mod RING)) in *.
  injection Hent as E1 E2 E3 E4 E5 E6 E7 E8 E9 E10.
  rewrite E1, E2, E4, E6, E7, E8, E9, Htxn, Hc, Hg. cbn [negb orb Z.eqb].
  destruct (has (pa_flags p) _); cbn [negb]; [done|].
  rewrite Z.min_l by done. unfold blen. rewrite Nat2Z.id, Hblob. done.
Qed.

Lemma latest_published m ver idx p v :
  pub_fits m ver idx p -> pub_prepare p = Ret v -> idx < READER_CAP ->
  Z.even (u 8 m (pool_off idx)) = true -> has (pa_flags p) (Z.lor INCOMPLETE GAPPED) = false ->
  let head := u 4 m (pool_off idx + 8) in
  latest (foldl run_step m (pub_stores (pool_off idx) (ent_off idx (head mod RING))
    (u 8 m (pool_off idx)) head ver p v)) idx = Some (row_of ver p v).
Proof.
  intros Hfit Hprep Hcap Hev Hflag. cbv zeta.
  by rewrite latest_published_any, Hev, Hflag.
Qed.

(** C11. While one publication runs on a pool whose sequence word is even, as a
    reset and every publication that returns leave it, a read of the ring never meets a mixture: at
    every point strictly between the first and the last store of the writer [latest] answers
    nothing for that pool.  After the last store it answers exactly the published row (blob,
    slot, signature, flags) if the word was even and the publication is not marked incomplete or gapped,
    and nothing otherwise: a word left odd by an abandoned publication keeps the pool hidden.  For every
    other pool it answers the same at all times. *)
Theorem latest_at_every_store a idx p m v k :
  mm a = Some m -> idx < pool_cap a -> pool_cap a <= READER_CAP ->
  pub_fits m (_ver a + 1) idx p -> pub_prepare p = Ret v ->
  let ss := publish_steps m (_ver a + 1) idx p v in
  let at_step := (run_steps m (take k ss)).1 in
  let even := Z.even (u 8 m (pool_off idx)) in
  (even = true -> (0 < k < length ss)%nat -> latest at_step idx = None) /\
  ((length ss <= k)%nat -> latest at_step idx =
     if even && negb (has (pa_flags p) (Z.lor INCOMPLETE GAPPED)) then Some (row_of (_ver a + 1) p v) else None) /\
  (forall idx', 0 <= idx' -> idx' <> idx -> latest at_step idx' = latest m idx').
Proof.
  intros Hm Hcap Hrc Hfit Hprep. cbv zeta.
  rewrite publish_steps_fit by done.
  pose proof (other_pool m (_ver a + 1) idx p v k) as Hother. cbv zeta in Hother.
  pose proof (pub_midway m (_ver a + 1) idx p v Hfit Hprep k) as Hmid. cbv zeta in Hmid.
  pose proof (latest_published_any m (_ver a + 1) idx p v Hfit Hprep ltac:(lia)) as Hend.
  cbv zeta in Hend. set (ss := pub_stores _ _ _ _ _ _ _) in *.
  assert (Hok : Forall step_ok ss) by (unfold ss, pub_stores, pub_middle; repeat constructor).
  rewrite run_steps_ok by by apply Forall_take. cbn [fst]. split; [|split].
  - intros Hev Hk. apply latest_odd. rewrite Hmid by done.
    rewrite Z.odd_add, <- Z.negb_even, Hev. done.
  - intros Hk. by rewrite take_ge.
  - intros idx' H0 Hne.
    assert (Hsame : forall b, pool_off idx' <= b < pool_off idx' + POOL ->
        foldl run_step m (take k ss) b = m b) by (intros b Hb; by apply (Hother idx')).
    by apply latest_ext.
Qed.

(** * Choosing a predecessor *)

Lemma from_sig_spec es sig :
  match from_sig es sig with
  | Some (e :: rest) => exists pre, es = pre ++ e :: rest /\ e_sig e = sig /\
                          Forall (fun x => e_sig x <> sig) pre
  | Some [] => False
  | None => Forall (fun x => e_sig x <> sig) es
  end.
Proof.
  induction es as [|e es IH]; cbn [from_sig]; [done|]. case_decide as He.
  - exists []. done.
  - destruct (from_sig es sig) as [[|e' rest]|]; [done| |by constructor].
    destruct IH as (pre&->&?&?). exists (e :: pre). split; [done|]. by split; [|constructor].
Qed.

Lemma pred_by_slot_spec es t e :
  pred_by_slot es t = Some e <->
  exists pre rest, es = pre ++ e :: rest /\ Forall (fun x => t < e_slot x) pre /\
    e_slot e < t /\ usable e = true.
Proof.
  induction es as [|x es IH]; cbn [pred_by_slot].
  { split; [done|]. by intros ([|? ?]&rest&?&_). }
  assert (Hcons : (exists pre rest, x :: es = pre ++ e :: rest /\
      Forall (fun x => t < e_slot x) pre /\ e_slot e < t /\ usable e = true) <->
    (x = e /\ e_slot e < t /\ usable e = true) \/ (t < e_slot x /\ exists pre rest,
      es = pre ++ e :: rest /\ Forall (fun x => t < e_slot x) pre /\ e_slot e < t /\
      usable e = true)).
  { split.
    - intros ([|y pre]&rest&Heq&Hall&?&?); cbn in Heq; injection Heq as -> ->; [by left|].
      apply Forall_cons in Hall as [? ?]. right. split; [done|]. by exists pre, rest.
    - intros [(->&?&?)|(?&pre&rest&->&?&?&?)]; [by exists [], es|].
      exists (x :: pre), rest. by repeat constructor. }
  rewrite Hcons, <- IH.
  destruct (Z.eqb_spec (e_slot x) t) as [Heq|Hne]; [split; [done|]; intros [(->&?&_)|(?&_)]; lia|].
  destruct (Z.ltb_spec (e_slot x) t) as [Hlt|Hge].
  - destruct (usable x) eqn:Eu; split.
    + intros [= ->]. by left.
    + intros [(->&_)|(?&_)]; [done|lia].
    + done.
    + intros [(->&_&?)|(?&_)]; [congruence|lia].
  - split; [intros H; right; split; [lia|done]|]. intros [(->&?&_)|[_ ?]]; [lia|done].
Qed.

Lemma choose_pred_cases es t sig e :
  choose_pred es t sig = Some e <->
  match sig with
  | Some (b :: s) =>
      (exists pre x rest, es = pre ++ x :: e :: rest /\ e_sig x = b :: s /\
         Forall (fun y => e_sig y <> b :: s) pre /\ usable e = true) \/
      (Forall (fun y => e_sig y <> b :: s) es /\ pred_by_slot es t = Some e)
  | _ => pred_by_slot es t = Some e
  end.
Proof.
  unfold choose_pred. destruct sig as [[|b s]|]; [done| |done].
  pose proof (from_sig_spec es (b :: s)) as Hf. destruct (from_sig es (b :: s)) as [[|x rest]|].
  - done.
  - destruct Hf as (pre&->&Hx&Hpre).
    assert (Hno : ~ Forall (fun y => e_sig y <> b :: s) (pre ++ x :: rest))
      by (intros [_ Hall]%Forall_app; apply Forall_cons in Hall as [? _]; done).
    assert (Huniq : forall pre' x' rest', pre ++ x :: rest = pre' ++ x' :: rest' ->
      e_sig x' = b :: s -> Forall (fun y => e_sig y <> b :: s) pre' -> rest' = rest).
    { clear Hno. revert Hpre. induction pre as [|y pre IH]; intros Hpre [|y' pre'] x' rest' Heq Hx' Hp';
        cbn in Heq; injection Heq as H1 H2; subst; try done.
      - by apply Forall_cons in Hp' as [? _].
      - by apply Forall_cons in Hpre as [? _].
      - apply Forall_cons in Hpre as [_ ?]. apply Forall_cons in Hp' as [_ ?]. by eapply IH. }
    split.
    + destruct rest as [|e' rest]; [done|]. destruct (usable e') eqn:Eu; [|done].
      intros [= ->]. left. by exists pre, x, rest.
    + intros [(pre'&x'&rest'&Heq&Hx'&Hp'&Hu)|[? _]]; [|done].
      apply (Huniq pre' x' (e :: rest')) in Heq as <-; [|done..]. by rewrite Hu.
  - split; [by right|]. intros [(pre&x&rest&->&Hx&_)|[_ ?]]; [|done].
    apply Forall_app in Hf as [_ Hf]. by apply Forall_cons in Hf as [? _].
Qed.

(** A predecessor is answered exactly in two cases: the trigger's signature
    is in the ring and the entry right before its newest occurrence is usable; or it is not in
    the ring (or not given), every entry newer than the answer is of a slot strictly after the
    trigger's, the answer's slot is strictly before it, and the answer is usable (coherent,
    neither incomplete nor gapped). So an unusable or same-slot entry is never skipped. *)
Theorem choose_pred_spec es t sig e :
  choose_pred es t sig = Some e <->
  let by_slot := exists pre rest, es = pre ++ e :: rest /\
    Forall (fun x => t < e_slot x) pre /\ e_slot e < t /\ usable e = true in
  match sig with
  | Some (b :: s) =>
      (exists pre x rest, es = pre ++ x :: e :: rest /\ e_sig x = b :: s /\
         Forall (fun y => e_sig y <> b :: s) pre /\ usable e = true) \/
      (Forall (fun y => e_sig y <> b :: s) es /\ by_slot)
  | _ => by_slot
  end.
Proof.
  rewrite choose_pred_cases. cbv zeta.
  destruct sig as [[|b s]|]; by rewrite <- pred_by_slot_spec.
Qed.

(** * Publications that raise *)

Lemma run_steps_prefix m ss m' e :
  run_steps m ss = (m', Some e) ->
  exists k, (k < length ss)%nat /\ m' = foldl run_step m (take k ss) /\
    Forall step_ok (take k ss).
Proof.
  revert m. induction ss as [|[off [bs|e']|off n] ss IH]; intros m; cbn [run_steps]; [done|..].
  - intros (k&?&->&?)%IH. exists (S k). cbn [length take foldl run_step]. split; [lia|].
    split; [done|]. by constructor.
  - intros [= <- <-]. exists 0%nat. cbn. split; [lia|]. by split.
  - intros (k&?&->&?)%IH. exists (S k). cbn [length take foldl run_step]. split; [lia|].
    split; [done|]. by constructor.
Qed.

Lemma pack_u_inv n z bs : pack_u n z = Ret bs -> bs = le_enc n z /\ 0 <= z < 2 ^ (8 * Z.of_nat n).
Proof.
  unfold pack_u. intros H.
  destruct (Z.leb_spec 0 z), (Z.ltb_spec z (2 ^ (8 * Z.of_nat n))); cbn in H; try done.
  by injection H as <-.
Qed.

(** The place of one packed field, whether or not its value is in range. *)
Lemma disjoint_pack off n o k z :
  off + Z.of_nat n <= o \/ o + Z.of_nat k <= off ->
  disjoint_from off n (SPack o (pack_u k z)).
Proof.
  intros H. unfold disjoint_from. destruct (pack_u k z) as [bs|e] eqn:E; cbn; [|lia].
  apply pack_u_inv in E as [-> _]. rewrite blen_le_enc. lia.
Qed.

Lemma pub_prepare_raw p v : pub_prepare p = Ret v -> length (pv_raw v) = 64%nat.
Proof.
  unfold pub_prepare. intros Hp. apply py_bind_Ret in Hp as (tf&_&Hp).
  destruct (_ || _) in Hp; [done|]. injection Hp as <-. cbn [pv_raw].
  rewrite length_app, length_replicate.
  destruct (is_boot p); rewrite ?length_replicate, ?length_take; (reflexivity || lia).
Qed.

Lemma publish_body_disjoint off head eoff ver p v :
  256 <= off -> off + 64 <= eoff -> blen (pv_raw v) = 64 -> blen (pa_blob p) <= BLOB ->
  Forall (disjoint_from off 8) (publish_body off head eoff ver p v).
Proof.
  intros Hoff He Hraw Hb. unfold publish_body, ent_steps. cbn [app].
  repeat (constructor; [first [apply disjoint_pack; lia |
    unfold disjoint_from; cbn [step_range fst snd]; rewrite ?Hraw; unfold BLOB in *; lia]|]).
  constructor.
Qed.

(** A publication that raises, for whatever reason, either left the memory
    as it was or left the pool's sequence word odd, so that readers see nothing of that pool
    rather than a half-written entry. *)
Theorem publish_error_hides a idx p m a' e :
  mm a = Some m -> 0 <= idx -> Z.even (u 8 m (pool_off idx)) = true ->
  publish a idx p = (a', Some e) ->
  exists m', mm a' = Some m' /\
    (m' = m \/ (u 8 m' (pool_off idx) = u 8 m (pool_off idx) + 1 /\ latest m' idx = None)).
Proof.
  intros Hm Hi Hev. unfold publish. rewrite Hm. intros H.
  destruct (_ || _) in H; [done|]. destruct (Z.ltb_spec BLOB (blen (pa_blob p))); [done|].
  destruct (pub_prepare p) as [v|e'] eqn:Ep; [|injection H as <- <-; eauto].
  destruct (run_steps m _) as [m' o] eqn:Er in H. injection H as <- ->. exists m'. split; [done|].
  apply run_steps_prefix in Er as (k&Hk&->&Hok). apply pub_prepare_raw in Ep as Hraw.
  destruct k as [|k]; [by left|right]. unfold publish_steps in *. cbv zeta in *.
  set (off := pool_off idx) in *. set (head := u 4 m (off + 8)) in *.
  set (eoff := ent_off idx (head mod RING)) in *.
  assert (Hoff : 256 <= off /\ off + 64 <= eoff).
  { pose proof (Z.mod_pos_bound head RING ltac:(done)). unfold eoff, ent_off. fold off.
    unfold off, pool_off, HDR, POOL, POOL_HDR, RING, ENT in *. lia. }
  rewrite firstn_cons in *. cbn [length foldl run_step] in *. rewrite length_app in Hk.
  cbn [length] in Hk. rewrite take_app_le in * by lia. apply Forall_cons in Hok as [Hs _].
  destruct (pack_u 8 (u 8 m off + 1)) as [bs|] eqn:Eseq; [|done].
  apply pack_u_inv in Eseq as [-> Hseq]. set (mk := foldl run_step _ _).
  assert (Hw : u 8 mk off = u 8 m off + 1).
  { unfold u at 1, mk. rewrite load_foldl_ne
      by (apply Forall_take, publish_body_disjoint; (lia || unfold blen; lia)).
    rewrite load_store_eq by (by rewrite length_le_enc). by apply le_dec_enc_small. }
  split; [exact Hw|]. apply latest_odd. fold off. rewrite Hw.
  by rewrite Z.odd_add, <- Z.negb_even, Hev.
Qed.

(** * Hiding every ring *)

Definition evened (s : Z) : Z := s + Z.land s 1.

Lemma evened_even s : Z.even (evened s) = true /\ s <= evened s <= s + 1.
Proof.
  unfold evened. assert (Hl : Z.land s 1 = if Z.odd s then 1 else 0).
  { change (Z.land s 1) with (Z.land s (Z.ones 1)). rewrite Z.land_ones by lia. apply Zmod_odd. }
  rewrite Hl, Z.even_add, <- Z.negb_odd. destruct (Z.odd s); cbn; split; (done || lia).
Qed.

Lemma reset_pool_run m ver idx :
  0 <= idx -> 0 <= u 8 m (pool_off idx) < 2 ^ 64 - 3 -> 0 <= ver < 2 ^ 64 ->
  exists m', run_steps m (reset_pool_steps m ver idx) = (m', None) /\
    u 8 m' (pool_off idx) = evened (u 8 m (pool_off idx)) + 2 /\
    u 4 m' (pool_off idx + 8) = 0 /\
    forall a, a < pool_off idx \/ pool_off idx + 24 <= a -> m' a = m a.
Proof.
  intros Hi Hs Hv. unfold reset_pool_steps. cbv zeta. fold (evened (u 8 m (pool_off idx))).
  pose proof (evened_even (u 8 m (pool_off idx))) as [_ He].
  set (s := evened _) in *. set (off := pool_off idx) in *.
  rewrite (pack_u_ok 8 (s + 1)), (pack_u_ok 4 0), (pack_u_ok 4 GAPPED), (pack_u_ok 8 ver),
    (pack_u_ok 8 (s + 2)) by (unfold GAPPED; lia).
  eexists. split; [reflexivity|]. split; [|split].
  - mem_simp. apply le_dec_enc_small. lia.
  - mem_simp. reflexivity.
  - intros a Ha. match goal with |- ?f a = _ => change (f a) with
      (foldl run_step m [SPack off (Ret (le_enc 8 (s + 1))); SPack (off + 8) (Ret (le_enc 4 0));
        SPack (off + 12) (Ret (le_enc 4 GAPPED)); SPack (off + 16) (Ret (le_enc 8 ver));
        SPack off (Ret (le_enc 8 (s + 2)))] a) end.
    apply foldl_frame. repeat (constructor; [unfold outside; cbn [step_range fst snd];
      rewrite blen_le_enc; lia|]). constructor.
Qed.

Lemma pool_off_step i j : pool_off j = pool_off i + (j - i) * POOL.
Proof. unfold pool_off. lia. Qed.

Lemma reset_pools_run n m ver idx :
  0 <= idx -> 0 <= ver < 2 ^ 64 ->
  (forall j, idx <= j < idx + Z.of_nat n -> 0 <= u 8 m (pool_off j) < 2 ^ 64 - 3) ->
  exists m', reset_pools m ver idx n = (m', None) /\
    (forall j, idx <= j < idx + Z.of_nat n ->
       u 8 m' (pool_off j) = evened (u 8 m (pool_off j)) + 2 /\ u 4 m' (pool_off j + 8) = 0) /\
    (forall a, a < pool_off idx -> m' a = m a).
Proof.
  revert m idx. induction n as [|n IH]; intros m idx Hi Hv Hs; cbn [reset_pools].
  { exists m. repeat split; lia. }
  destruct (reset_pool_run m ver idx Hi (Hs idx ltac:(lia)) Hv) as (m1&->&Hq&Hh&Hf).
  assert (Hsame : forall j k c, idx < j -> 0 <= c -> c + Z.of_nat k <= POOL ->
      u k m1 (pool_off j + c) = u k m (pool_off j + c)).
  { intros j k c Hj Hc Hk. apply u_ext. intros a Ha. apply Hf.
    rewrite (pool_off_step idx j) in Ha. unfold POOL, POOL_HDR, RING, ENT in *. nia. }
  assert (Hseq : forall j, idx < j -> u 8 m1 (pool_off j) = u 8 m (pool_off j)).
  { intros j Hj. pose proof (Hsame j 8%nat 0 Hj ltac:(lia) ltac:(done)) as H.
    by rewrite !Z.add_0_r in H. }
  destruct (IH m1 (idx + 1)) as (m2&Hr&Hp&Hl); [lia|done| |].
  { intros j Hj. rewrite Hseq by lia. apply Hs. lia. }
  exists m2. split; [exact Hr|]. split.
  - intros j Hj. destruct (Z.eq_dec j idx) as [->|Hne].
    + assert (Hfr : forall k c, 0 <= c -> c + Z.of_nat k <= POOL ->
        u k m2 (pool_off idx + c) = u k m1 (pool_off idx + c)).
      { intros k c Hc Hk. apply u_ext. intros a Ha. apply Hl.
        rewrite (pool_off_step idx (idx + 1)). lia. }
      pose proof (Hfr 8%nat 0 ltac:(lia) ltac:(done)) as H0. rewrite !Z.add_0_r in H0.
      by rewrite H0, (Hfr 4%nat 8) by (done || lia).
    + rewrite <- Hseq by lia. apply Hp. lia.
  - intros a Ha. rewrite Hl, Hf; [done|by left|]. rewrite (pool_off_step idx (idx + 1)). 
    unfold POOL, POOL_HDR, RING, ENT. lia.
Qed.

(** Whatever a previous provider or an abandoned writer left in the
    rings, after [reset_history] the plane is not ready, every pool's ring is empty, its
    sequence word is even again (an odd one is recovered), and readers see no entry. *)
Theorem reset_history_hides_all a m idx :
  mm a = Some m -> 0 <= _ver a < 2 ^ 64 - 1 ->
  (forall j, 0 <= j < pool_cap a -> 0 <= u 8 m (pool_off j) < 2 ^ 64 - 3) ->
  0 <= idx < pool_cap a ->
  exists a' m', reset_history a = (a', None) /\ mm a' = Some m' /\
    u 4 m' 20 = 0 /\ Z.even (u 8 m' (pool_off idx)) = true /\
    dump_ring a' idx = [] /\ latest m' idx = None.
Proof.
  intros Hm Hv Hs Hi. unfold reset_history. rewrite Hm.
  unfold set_ready_steps. rewrite !pack_u_ok by (cbn; lia). cbn [run_steps].
  set (m1 := store (store (store m 8 _) 20 _) 40 _).
  assert (H1 : forall j, 0 <= j -> u 8 m1 (pool_off j) = u 8 m (pool_off j)).
  { intros j Hj. apply u_ext. intros b Hb.
    change (m1 b) with (foldl run_step m [SPack 8 (Ret (le_enc 4 0)); SPack 20 (Ret (le_enc 4 0));
      SPack 40 (Ret (le_enc 8 0))] b). apply foldl_frame.
    unfold pool_off, HDR, POOL, POOL_HDR, RING, ENT in *.
    repeat (constructor; [unfold outside; cbn [step_range fst snd]; rewrite blen_le_enc; lia|]).
    constructor. }
  destruct (reset_pools_run (Z.to_nat (pool_cap a)) m1 (_ver a + 1) 0) as (m2&->&Hp&Hl);
    [lia|lia| |].
  { intros j Hj. rewrite H1 by lia. apply Hs. lia. }
  cbn [run_steps fst snd].
  set (m3 := store m2 24 _).
  assert (Hoff : 256 <= pool_off idx)
    by (unfold pool_off, HDR, POOL, POOL_HDR, RING, ENT; lia).
  destruct (Hp idx) as [Hq Hh]; [lia|].
  assert (Hq3 : u 8 m3 (pool_off idx) = evened (u 8 m1 (pool_off idx)) + 2).
  { unfold u at 1, m3. rewrite load_store_ne by (rewrite blen_le_enc; lia). exact Hq. }
  assert (Hh3 : u 4 m3 (pool_off idx + 8) = 0).
  { unfold u at 1, m3. rewrite load_store_ne by (rewrite blen_le_enc; lia). exact Hh. }
  eexists _, m3. split; [reflexivity|]. split; [done|]. split; [|split; [|split]].
  - unfold u, m3. rewrite load_store_ne by (rewrite blen_le_enc; lia).
    rewrite (load_ext m2 m1) by (intros b Hb; apply Hl; unfold pool_off, HDR; lia).
    unfold m1. mem_simp. reflexivity.
  - rewrite Hq3, Z.even_add. by destruct (evened_even (u 8 m1 (pool_off idx))) as [-> _].
  - unfold dump_ring. cbn [mm pool_cap]. destruct (pool_cap a <=? idx); [done|].
    unfold ring_of. by rewrite Hh3.
  - unfold latest. destruct (_ || _); [done|]. destruct (Z.odd _); [done|]. by rewrite Hh3.
Qed.

(** * A one-pool ring *)

Definition demo_mem : mem := default (fun _ => 0) (mm (create 1 (fun _ => 7))).
Definition demo_auth : authpub := create 1 (fun _ => 7).
Definition demo_pub : pub_args :=
  PubArgs 1234 [1; 2; 3] 2 (Some [9; 8; 7]) None (Some 55) COHERENT false.
Definition demo_vals : pub_vals :=
  match pub_prepare demo_pub with Ret v => v | Raise _ => PubVals [] 0 0 0 end.

Lemma demo_fits : pub_fits demo_mem 1 0 demo_pub.
Proof. constructor; vm_compute; try split; (discriminate || reflexivity). Qed.

Lemma publish_refines_ring_witness :
  exists a' m', publish demo_auth 0 demo_pub = (a', None) /\ mm a' = Some m' /\ _ver a' = 1 /\
    dump_ring a' 0 = take (Z.to_nat RING) (entry_of 1 demo_pub demo_vals :: []) /\
    u 8 m' (pool_off 0) = 2.
Proof.
  destruct (publish_refines_ring demo_auth 0 demo_pub demo_mem demo_vals eq_refl
    ltac:(vm_compute; reflexivity) demo_fits eq_refl) as (a'&m'&Hp&Hm&Hv&Hd&_&Hs).
  exists a', m'. split; [exact Hp|]. split; [exact Hm|]. split; [exact Hv|].
  split; [|exact Hs]. rewrite Hd. vm_compute. reflexivity.
Defined.

Lemma latest_at_every_store_witness :
  let ss := publish_steps demo_mem 1 0 demo_pub demo_vals in
  latest (run_steps demo_mem (take 5 ss)).1 0 = None /\
  latest (run_steps demo_mem (take 19 ss)).1 0 = Some (row_of 1 demo_pub demo_vals).
Proof.
  cbv zeta.
  pose proof (fun k => latest_at_every_store demo_auth 0 demo_pub demo_mem demo_vals k eq_refl
    ltac:(vm_compute; reflexivity) ltac:(vm_compute; discriminate) demo_fits eq_refl) as H.
  cbv zeta in H. split.
  - apply (proj1 (H 5%nat)); [reflexivity|]. split; [lia|]. vm_compute. lia.
  - apply (proj1 (proj2 (H 19%nat))). vm_compute. lia.
Defined.

(** An entry is published, then a publication is abandoned, then a third one runs: the word is even while
    it writes, so the pool shows, and odd when it is done, so the pool stays hidden. *)
Definition demo_abandoned : mem :=
  default demo_mem (mm (fst (publish (fst (publish demo_auth 0 demo_pub)) 0
    (PubArgs (-1) [1] 2 None None None COHERENT false)))).

Lemma shown_while_writing :
  let ss := publish_steps demo_abandoned 3 0 demo_pub demo_vals in
  latest demo_abandoned 0 = None /\
  l_slot <$> latest (run_steps demo_abandoned (take 1 ss)).1 0 = Some 1234 /\
  latest (run_steps demo_abandoned ss).1 0 = None.
Proof. cbv zeta. split; [|split]; vm_compute; reflexivity. Qed.

Lemma publish_error_hides_witness :
  exists a' m', publish demo_auth 0 (PubArgs (-1) [1] 2 None None None COHERENT false)
                  = (a', Some StructError) /\
    mm a' = Some m' /\
    (m' = demo_mem \/ (u 8 m' (pool_off 0) = u 8 demo_mem (pool_off 0) + 1 /\ latest m' 0 = None)).
Proof.
  destruct (publish demo_auth 0 (PubArgs (-1) [1] 2 None None None COHERENT false))
    as [a' o] eqn:E.
  assert (Ho : o = Some StructError).
  { change o with (snd (a', o)). rewrite <- E. vm_compute. reflexivity. }
  subst o.
  destruct (publish_error_hides demo_auth 0 _ demo_mem a' StructError eq_refl
    ltac:(lia) ltac:(vm_compute; reflexivity) E) as (m'&Hm&H).
  exists a', m'. split; [reflexivity|]. split; [exact Hm|exact H].
Defined.

Lemma reset_history_hides_all_witness :
  exists a' m', reset_history (AuthPub (Some (store demo_mem (pool_off 0) [5])) 1 3) = (a', None)
    /\ mm a' = Some m' /\ u 4 m' 20 = 0 /\ Z.even (u 8 m' (pool_off 0)) = true /\
    dump_ring a' 0 = [] /\ latest m' 0 = None.
Proof.
  apply (reset_history_hides_all _ (store demo_mem (pool_off 0) [5])); [reflexivity| | |].
  - vm_compute. split; [discriminate|reflexivity].
  - intros j Hj. change (0 <= j < 1) in Hj. replace j with 0 by lia.
    vm_compute. split; [discriminate|reflexivity].
  - vm_compute. split; [discriminate|reflexivity].
Defined.
