(* ===== verification/BankJournal.v ===== *)
(** Receipt-ordered bank evidence: arb-state/shyft/bank_context.py.  The SlotHashes decoder and
    the journal of slot and sysvar events of one provider connection. *)
From stdpp Require Import base list strings.
From Stdlib Require Import ZArith Lia.
From S2P Require Import Prelude PyBytes Sha256.
Open Scope Z_scope.
Open Scope py_scope.

(** * SlotHashes *)

Definition SYSVAR_OWNER : string := "Sysvar1111111111111111111111111111111111111".

Abbreviation slot_hash := (Z * bytes)%type.

Fixpoint hash_entries (data : bytes) (i n : nat) : pyres (list slot_hash) :=
  match n with
  | O => Ret []
  | S n' =>
      let o := 8 + Z.of_nat i * 40 in
      s <-! unpack_u 8 data o ;;
      rest <-! hash_entries data (S i) n' ;;
      Ret ((s, slice (o + 8) (o + 40) data) :: rest)
  end.

(** [any(a[0] <= b[0] for a, b in zip(values, values[1:]))] *)
Fixpoint descending (vs : list slot_hash) : bool :=
  match vs with
  | a :: ((b :: _) as rest) => negb (a.1 <=? b.1) && descending rest
  | _ => true
  end.

Definition parse_slot_hashes (data : bytes) : pyres (list slot_hash) :=
  if blen data <? 8 then Raise (ValueError "truncated SlotHashes") else
  n <-! unpack_u 8 data 0 ;;
  if (512 <? n) || (blen data <? 8 + n * 40)
     || existsb (fun b => negb (b =? 0)) (slice (8 + n * 40) (blen data) data)
  then Raise (ValueError "invalid SlotHashes length") else
  values <-! hash_entries data 0 (Z.to_nat n) ;;
  if negb (descending values) then Raise (ValueError "invalid SlotHashes order")
  else Ret values.

(** * The journal *)

Record jrow := JRow {
  j_slot : Z; j_bank : Z; j_parent : option Z; j_statuses : list Z;
  j_hashes : option (list slot_hash); j_conflict : bool; j_last_rx : Z;
  j_hashes_rx : option Z; j_sha256 : option bytes }.

#[export] Instance jrow_eq_dec : EqDecision jrow.
Proof. solve_decision. Defined.

Record journal := Journal {
  capacity : nat; generation : option string; records : list ((Z * Z) * jrow) }.

Definition new_journal : journal := Journal 2048 None [].

(** The payload of an event by its kind; [data_hex] decodes to [ba_data], [None] when it is no
    hex string. *)
Inductive bank_body :=
  | BSlot (parent : option Z) (status : Z)
  | BAccount (startup : bool) (owner : string) (data : option bytes)
  | BOther.

Inductive bank_event :=
  | EGeneration (gen : option string)
  | EDisconnect (gen : option string)
  | EBank (gen : option string) (slot : Z) (bank_id : option Z) (rx : Z) (body : bank_body).

Inductive jresult :=
  | RGenerationStarted | RStaleGeneration | RDisconnected | RIdentityMissing
  | RReceiptOrderConflict | RInvalidProvenance | RInvalidBytes | RConflict | RRecorded.

#[export] Instance jresult_eq_dec : EqDecision jresult.
Proof. solve_decision. Defined.

Definition set_conflict (r : jrow) : jrow :=
  JRow (j_slot r) (j_bank r) (j_parent r) (j_statuses r) (j_hashes r) true (j_last_rx r)
       (j_hashes_rx r) (j_sha256 r).

Definition set_rx (r : jrow) (rx : Z) : jrow :=
  JRow (j_slot r) (j_bank r) (j_parent r) (j_statuses r) (j_hashes r) (j_conflict r) rx
       (j_hashes_rx r) (j_sha256 r).

Definition apply_slot (r : jrow) (parent : option Z) (status : Z) : jrow :=
  let bad := match parent with
             | Some p => (j_slot r <=? p) ||
                         match j_parent r with Some q => negb (p =? q) | None => false end
             | None => false
             end in
  JRow (j_slot r) (j_bank r) (match parent with Some p => Some p | None => j_parent r end)
       (if bool_decide (status ∈ j_statuses r) then j_statuses r
        else j_statuses r ++ [status])
       (j_hashes r) (j_conflict r || bad) (j_last_rx r) (j_hashes_rx r) (j_sha256 r).

Definition apply_hashes (r : jrow) (rx : Z) (data : bytes) (hashes : list slot_hash) : jrow :=
  let bad := match hashes with (s, _) :: _ => j_slot r <=? s | [] => false end ||
             match j_hashes r with
             | Some old => negb (bool_decide (old = hashes))
             | None => false
             end in
  JRow (j_slot r) (j_bank r) (j_parent r) (j_statuses r) (Some hashes) (j_conflict r || bad)
       (j_last_rx r) (Some (default rx (j_hashes_rx r))) (Some (sha256 data)).

(** The last test of [apply]: the newest hash names another slot than the parent. *)
Definition link_broken (r : jrow) : bool :=
  match j_hashes r, j_parent r with
  | Some ((s, _) :: _), Some p => negb (s =? p)
  | _, _ => false
  end.

Definition finish_row (r : jrow) : jrow * jresult :=
  let r := if link_broken r then set_conflict r else r in
  (r, if j_conflict r then RConflict else RRecorded).

(** What [apply] does to the event's row. *)
Definition apply_row (r : jrow) (rx : Z) (body : bank_body) : jrow * jresult :=
  if rx <? j_last_rx r then (set_conflict r, RReceiptOrderConflict) else
  let r := set_rx r rx in
  match body with
  | BSlot parent status => finish_row (apply_slot r parent status)
  | BAccount startup owner data =>
      if startup || negb (String.eqb owner SYSVAR_OWNER)
      then (set_conflict r, RInvalidProvenance) else
      match data with
      | None => (set_conflict r, RInvalidBytes)
      | Some d =>
          match parse_slot_hashes d with
          | Raise _ => (set_conflict r, RInvalidBytes)
          | Ret hashes => finish_row (apply_hashes r rx d hashes)
          end
      end
  | BOther => finish_row r
  end.

Definition fresh_row (slot bank rx : Z) : jrow :=
  JRow slot bank None [] None false rx None None.

(** [self.records.pop(next(iter(self.records)))] when over the capacity *)
Definition cap_records (cap : nat) (rs : list ((Z * Z) * jrow)) : list ((Z * Z) * jrow) :=
  if (cap <? length rs)%nat then tail rs else rs.

(** A row is updated in place; one that was just evicted is no longer in the dict. *)
Definition put_row (rs : list ((Z * Z) * jrow)) (k : Z * Z) (r : jrow) :=
  if decide (k ∈ od_keys rs) then od_set rs k r else rs.

Definition apply (j : journal) (ev : bank_event) : journal * jresult :=
  match ev with
  | EGeneration gen => (Journal (capacity j) gen [], RGenerationStarted)
  | EDisconnect gen =>
      if negb (bool_decide (gen = generation j)) || bool_decide (gen = None)
      then (j, RStaleGeneration)
      else (Journal (capacity j) None [], RDisconnected)
  | EBank gen slot bank_id rx body =>
      if negb (bool_decide (gen = generation j)) || bool_decide (gen = None)
      then (j, RStaleGeneration) else
      match bank_id with
      | None => (j, RIdentityMissing)
      | Some bank =>
          let key := (slot, bank) in
          let row := default (fresh_row slot bank rx) (od_get (records j) key) in
          let rs := cap_records (capacity j) (od_setdefault (records j) key row) in
          let '(row', res) := apply_row row rx body in
          (Journal (capacity j) (generation j) (put_row rs key row'), res)
      end
  end.

Inductive ctx_reason :=
  | Available (r : jrow) | GenerationUnbound | CtxIdentityMissing | ContextMissing
  | NotAvailableAtDeadline | ContextConflict | DeadBank | ContextIncomplete.

Definition context (j : journal) (slot : Z) (bank_id : option Z) (gen : option string)
    (deadline : Z) : ctx_reason :=
  if bool_decide (gen = None) || negb (bool_decide (gen = generation j))
  then GenerationUnbound else
  match bank_id with
  | None => CtxIdentityMissing
  | Some bank =>
      match od_get (records j) (slot, bank) with
      | None => ContextMissing
      | Some row =>
          if deadline <? j_last_rx row then NotAvailableAtDeadline
          else if j_conflict row then ContextConflict
          else if bool_decide (6 ∈ j_statuses row) then DeadBank
          else match j_parent row, j_hashes row with
               | Some _, Some (_ :: _) => Available row
               | _, _ => ContextIncomplete
               end
      end
  end.

(** * SlotHashes round trip *)

Definition enc_pairs (vs : list slot_hash) : bytes := concat ((fun v => le_enc 8 v.1 ++ v.2) <$> vs).

Definition enc_slot_hashes (vs : list slot_hash) : bytes :=
  le_enc 8 (Z.of_nat (length vs)) ++ enc_pairs vs.

Definition hashes_ok (vs : list slot_hash) : Prop :=
  Forall (fun v => 0 <= v.1 < 2 ^ 64 /\ length v.2 = 32%nat) vs.

Lemma blen_enc_pairs vs : hashes_ok vs -> blen (enc_pairs vs) = 40 * Z.of_nat (length vs).
Proof.
  unfold enc_pairs. induction 1 as [|v vs [_ Hv] _ IH]; [done|].
  rewrite fmap_cons. cbn [concat length]. rewrite !blen_app, IH, blen_le_enc.
  unfold blen. lia.
Qed.

Lemma hash_entries_enc vs pre suf i :
  hashes_ok vs -> blen pre = 8 + Z.of_nat i * 40 ->
  hash_entries (pre ++ enc_pairs vs ++ suf) i (length vs) = Ret vs.
Proof.
  intros Hok. revert pre i. induction Hok as [|v vs [Hs Hv] _ IH]; intros pre i Hpre; [done|].
  assert (Hl : blen (le_enc 8 v.1) = 8) by apply blen_le_enc.
  assert (Hv' : blen v.2 = 32) by (unfold blen; lia).
  unfold enc_pairs. rewrite fmap_cons. cbn [concat length hash_entries].
  fold (enc_pairs vs). rewrite <- !app_assoc, unpack_u_at by done. cbn [py_bind].
  specialize (IH (pre ++ le_enc 8 v.1 ++ v.2) (S i)). rewrite <- !app_assoc in IH.
  rewrite IH by (rewrite !blen_app; lia). cbn [py_bind].
  rewrite (app_assoc pre), slice_at; [by destruct v|rewrite blen_app; lia|lia].
Qed.

Lemma existsb_zeros k : existsb (fun b => negb (b =? 0)) (replicate k 0) = false.
Proof. by induction k. Qed.

(** Every strictly descending list of at most 512 (slot, hash) pairs is
    read back exactly from its account encoding, zero padding included. *)
Theorem slot_hashes_roundtrip vs k :
  hashes_ok vs -> (length vs <= 512)%nat -> descending vs = true ->
  parse_slot_hashes (enc_slot_hashes vs ++ replicate k 0) = Ret vs.
Proof.
  intros Hok Hn Hd. unfold parse_slot_hashes, enc_slot_hashes.
  pose proof (blen_enc_pairs vs Hok) as Hb. set (n := Z.of_nat (length vs)) in *.
  assert (Hl8 : blen (le_enc 8 n) = 8) by apply blen_le_enc. rewrite <- app_assoc.
  set (data := le_enc 8 n ++ enc_pairs vs ++ replicate k 0).
  assert (Hlen : blen data = 8 + 40 * n + Z.of_nat k)
    by (unfold data; rewrite !blen_app, Hl8, Hb; unfold blen; rewrite length_replicate; lia).
  destruct (Z.ltb_spec (blen data) 8); [lia|].
  replace (unpack_u 8 data 0) with (Ret n : pyres Z)
    by (symmetry; apply (unpack_u_at 8 []); [done|lia]).
  cbn [py_bind]. destruct (Z.ltb_spec 512 n); [lia|].
  destruct (Z.ltb_spec (blen data) (8 + n * 40)); [lia|]. cbn [orb].
  pose proof (slice_at (8 + n * 40) (blen data) (le_enc 8 n ++ enc_pairs vs) (replicate k 0) [])
    as Hsl. rewrite app_nil_r, <- app_assoc in Hsl. fold data in Hsl.
  rewrite Hsl by (rewrite ?blen_app; unfold blen in *; rewrite ?length_replicate; lia).
  rewrite existsb_zeros. unfold n, data. rewrite Nat2Z.id.
  rewrite hash_entries_enc by (done || lia). cbn [py_bind]. by rewrite Hd.
Qed.

Lemma slot_hashes_roundtrip_witness :
  parse_slot_hashes (enc_slot_hashes [(9, replicate 32 1); (4, replicate 32 2)] ++ replicate 3 0)
  = Ret [(9, replicate 32 1); (4, replicate 32 2)].
Proof.
  apply slot_hashes_roundtrip; [|cbn; lia|reflexivity].
  repeat (apply Forall_cons; split; [split; [cbn; lia|reflexivity]|]). constructor.
Defined.

(** * Rows of a connection *)

(** What a row that is not in conflict satisfies: its parent and its newest hash are older than
    its slot, and they name the same slot. *)
Record row_sound (k : Z * Z) (r : jrow) : Prop := {
  rs_key : (j_slot r, j_bank r) = k;
  rs_parent : j_conflict r = false -> forall p, j_parent r = Some p -> p < j_slot r;
  rs_hash : j_conflict r = false ->
    forall s h rest, j_hashes r = Some ((s, h) :: rest) -> s < j_slot r;
  rs_link : j_conflict r = false -> link_broken r = false;
}.

Lemma row_sound_conflict k r : (j_slot r, j_bank r) = k -> row_sound k (set_conflict r).
Proof. intros Hk. by constructor. Qed.

Lemma row_sound_finish k r :
  (j_slot r, j_bank r) = k ->
  (j_conflict r = false -> (forall p, j_parent r = Some p -> p < j_slot r) /\
     (forall s h rest, j_hashes r = Some ((s, h) :: rest) -> s < j_slot r)) ->
  row_sound k (finish_row r).1.
Proof.
  intros Hk H. unfold finish_row. destruct (link_broken r) eqn:El; cbn [fst].
  - by apply row_sound_conflict.
  - constructor; [done|..]; intros Hc; by destruct (H Hc).
Qed.

Lemma apply_row_sound k r rx body : row_sound k r -> row_sound k (apply_row r rx body).1.
Proof.
  intros [Hk Hp Hh Hl]. unfold apply_row. destruct (rx <? j_last_rx r).
  { by apply row_sound_conflict. }
  destruct body as [parent status|startup owner data|].
  - apply row_sound_finish; [done|]. cbn. intros [Hc Hbad]%orb_false_iff.
    split; [|by apply Hh]. intros p. destruct parent as [q|]; [|by apply Hp].
    intros [= <-]. apply orb_false_iff in Hbad as [Hq _]. by apply Z.leb_gt in Hq.
  - destruct (_ || _); [by apply row_sound_conflict|].
    destruct data as [d|]; [|by apply row_sound_conflict].
    destruct (parse_slot_hashes d) as [vs|]; [|by apply row_sound_conflict].
    apply row_sound_finish; [done|]. cbn. intros [Hc Hbad]%orb_false_iff.
    split; [by apply Hp|]. intros s h rest [= ->]. apply orb_false_iff in Hbad as [Hq _].
    by apply Z.leb_gt in Hq.
  - apply row_sound_finish; [done|]. intros Hc. split; [by apply Hp|by apply Hh].
Qed.

(** A conflict of a row is never forgotten. *)
Lemma apply_row_conflict r rx body :
  j_conflict r = true -> j_conflict (apply_row r rx body).1 = true.
Proof.
  intros Hc. assert (Hf : forall r', j_conflict r' = true -> j_conflict (finish_row r').1 = true)
    by (intros r' H; unfold finish_row; by destruct (link_broken r')).
  unfold apply_row. destruct (rx <? j_last_rx r); [done|].
  destruct body as [parent status|startup owner data|].
  - apply Hf. cbn. by rewrite Hc.
  - destruct (_ || _); [done|]. destruct data as [d|]; [|done].
    destruct (parse_slot_hashes d); [|done]. apply Hf. cbn. by rewrite Hc.
  - by apply Hf.
Qed.

Definition journal_ok (j : journal) : Prop :=
  NoDup (od_keys (records j)) /\ (length (records j) <= capacity j)%nat /\
  forall k r, od_get (records j) k = Some r -> row_sound k r.

Lemma put_row_ok rs k r :
  NoDup (od_keys rs) -> (forall k r, od_get rs k = Some r -> row_sound k r) -> row_sound k r ->
  NoDup (od_keys (put_row rs k r)) /\ length (put_row rs k r) = length rs /\
  (forall k' r', od_get (put_row rs k r) k' = Some r' -> row_sound k' r').
Proof.
  intros Hnd Hall Hr. unfold put_row. case_decide as Hk; [|done].
  split; [auto with plane|]. split; [by rewrite length_od_set, decide_True|].
  intros k' r'. rewrite od_get_set. case_decide; [|apply Hall]. intros [= <-]. by subst.
Qed.

Lemma cap_records_drop cap rs :
  (length rs <= S cap)%nat -> cap_records cap rs = od_evict cap rs.
Proof.
  intros Hl. unfold cap_records, od_evict. destruct (Nat.ltb_spec cap (length rs)).
  - replace (length rs - cap)%nat with 1%nat by lia. by destruct rs.
  - by replace (length rs - cap)%nat with 0%nat by lia.
Qed.

Lemma apply_ok j ev : journal_ok j -> journal_ok (apply j ev).1.
Proof.
  intros (Hnd&Hcap&Hall). destruct ev as [gen|gen|gen slot bank_id rx body]; cbn [apply].
  - cbn. split; [constructor|]. split; [cbn; lia|done].
  - destruct (_ || _); cbn; [done|]. split; [constructor|]. split; [cbn; lia|done].
  - destruct (_ || _); [done|]. destruct bank_id as [bank|]; [|done].
    set (row := default _ _).
    assert (Hrow : row_sound (slot, bank) row).
    { unfold row. destruct (od_get (records j) (slot, bank)) eqn:E; [by apply Hall|].
      by constructor. }
    pose proof (apply_row_sound _ row rx body Hrow) as Hr'.
    destruct (apply_row row rx body) as [row' res]. cbn [fst] in *.
    set (rs0 := od_setdefault (records j) (slot, bank) row).
    assert (H0 : NoDup (od_keys rs0) /\ (length rs0 <= S (capacity j))%nat /\
        forall k r, od_get rs0 k = Some r -> row_sound k r).
    { unfold rs0, od_setdefault. destruct (od_get (records j) (slot, bank)) eqn:E.
      - split; [done|]. split; [lia|done].
      - split; [auto with plane|]. rewrite length_od_set. split; [case_decide; lia|].
        intros k r. rewrite od_get_set. case_decide; [|apply Hall]. by intros [= <-]; subst. }
    destruct H0 as (Hnd0&Hl0&Hall0). rewrite cap_records_drop by done.
    destruct (put_row_ok (od_evict (capacity j) rs0) (slot, bank) row') as (?&Hlen&?).
    + auto with plane.
    + intros k r Hg. apply Hall0. by eapply od_get_evict_Some.
    + done.
    + split; [done|]. cbn [records capacity]. rewrite Hlen. split; [apply length_od_evict|done].
Qed.

(** The journals a process can reach. *)
Inductive jreach : journal -> Prop :=
  | jreach_new : jreach new_journal
  | jreach_step j ev : jreach j -> jreach (apply j ev).1.

Lemma jreach_ok j : jreach j -> journal_ok j.
Proof.
  induction 1 as [|j ev _ IH]; [|by apply apply_ok].
  split; [constructor|]. split; [cbn; lia|done].
Qed.

(** In every journal a process can reach, a bank context is released
    only for the current, non-empty generation and an identified bank whose events were all
    received by the deadline, never for a dead bank or one with conflicting evidence; its parent
    is older than its slot and is exactly the newest slot of its SlotHashes. The journal never
    exceeds its capacity. *)
Theorem context_available_sound j slot bank_id gen deadline r :
  jreach j -> context j slot bank_id gen deadline = Available r ->
  (length (records j) <= capacity j)%nat /\ gen <> None /\ gen = generation j /\
  bank_id = Some (j_bank r) /\ j_slot r = slot /\ j_last_rx r <= deadline /\
  j_conflict r = false /\ 6 ∉ j_statuses r /\
  exists p h rest, j_parent r = Some p /\ j_hashes r = Some ((p, h) :: rest) /\ p < slot.
Proof.
  intros (Hnd&Hcap&Hall)%jreach_ok. unfold context. intros H.
  destruct (bool_decide (gen = None)) eqn:Eg; [done|].
  destruct (bool_decide (gen = generation j)) eqn:Eg'; [|done]. zb. cbn in H.
  destruct bank_id as [bank|]; [|done].
  destruct (od_get (records j) (slot, bank)) as [row|] eqn:Er; [|done].
  apply Hall in Er as [Hk Hp Hh Hl].
  destruct (Z.ltb_spec deadline (j_last_rx row)); [done|].
  destruct (j_conflict row) eqn:Ec; [done|]. case_bool_decide; [done|].
  destruct (j_parent row) as [p|] eqn:Ep; [|done].
  destruct (j_hashes row) as [[|[s h] rest]|] eqn:Eh; [done| |done]. injection H as <-.
  specialize (Hl eq_refl). unfold link_broken in Hl. rewrite Ep, Eh in Hl. zb. subst s.
  injection Hk as Hs Hb. rewrite Hb. repeat (split; [done|]).
  exists p, h, rest. specialize (Hp eq_refl p eq_refl). rewrite Hs in Hp. done.
Qed.

Definition demo_journal : journal :=
  (apply (apply (apply new_journal (EGeneration (Some "g"%string))).1
     (EBank (Some "g"%string) 10 (Some 3) 100 (BSlot (Some 9) 0))).1
     (EBank (Some "g"%string) 10 (Some 3) 101
        (BAccount false SYSVAR_OWNER
           (Some (enc_slot_hashes [(9, replicate 32 1); (4, replicate 32 2)]))))).1.

Lemma context_available_sound_witness :
  exists r, context demo_journal 10 (Some 3) (Some "g"%string) 150 = Available r /\
    j_last_rx r <= 150 /\ j_conflict r = false /\
    exists p h rest, j_parent r = Some p /\ j_hashes r = Some ((p, h) :: rest) /\ p < 10.
Proof.
  destruct (context demo_journal 10 (Some 3) (Some "g"%string) 150) as [r| | | | | | |] eqn:E;
    try (vm_compute in E; discriminate E).
  exists r. split; [reflexivity|].
  destruct (context_available_sound demo_journal 10 (Some 3) (Some "g"%string) 150 r
    (jreach_step _ _ (jreach_step _ _ (jreach_step _ _ jreach_new))) E)
    as (_&_&_&_&_&Hd&Hc&_&Hx).
  split; [exact Hd|]. split; [exact Hc|exact Hx].
Defined.

(** Events of another provider generation, or without one, never change
    the journal; only starting a generation does, and that clears every record. *)
Theorem stale_events_ignored j ev :
  let '(j', res) := apply j ev in
  match ev with
  | EGeneration gen => j' = Journal (capacity j) gen []
  | EDisconnect gen | EBank gen _ _ _ _ =>
      (gen = None \/ gen <> generation j) <-> res = RStaleGeneration
  end /\ (res = RStaleGeneration -> j' = j).
Proof.
  destruct (apply j ev) as [j' res] eqn:Eap. revert Eap.
  assert (Hrow : forall r rx b, (apply_row r rx b).2 <> RStaleGeneration).
  { intros r rx b. unfold apply_row, finish_row. repeat case_match; cbn; try done;
      repeat case_match; done. }
  destruct ev as [gen|gen|gen slot bank_id rx body]; cbn [apply].
  - by intros [= <- <-].
  - destruct (negb (bool_decide (gen = generation j)) || bool_decide (gen = None)) eqn:E.
    + intros [= <- <-]. split; [|done]. split; [done|]. intros _.
      apply orb_true_iff in E as [E|E]; [right|left]; by zb.
    + intros [= <- <-]. split; [|done]. split; [|done]. zb. naive_solver.
  - destruct (negb (bool_decide (gen = generation j)) || bool_decide (gen = None)) eqn:E.
    + intros [= <- <-]. split; [|done]. split; [done|]. intros _.
      apply orb_true_iff in E as [E|E]; [right|left]; by zb.
    + destruct bank_id as [bank|].
      * specialize (Hrow (default (fresh_row slot bank rx) (od_get (records j) (slot, bank)))
          rx body). destruct (apply_row _ rx body) as [row' r]. cbn [snd] in Hrow.
        intros [= <- <-]. split; [|done]. split; [|done]. zb. naive_solver.
      * intros [= <- <-]. split; [|done]. split; [|done]. zb. naive_solver.
Qed.
