(* ===== verification/DlmmQuote.v ===== *)
(** Quotes of the research replay: arb-cap/timer_decay/dlmm_quote.py.  Q64 arithmetic and bin
    prices, volatility and fees, the bin walk of a DLMM exact-in swap, the Pump quote and the
    two-leg cycle. *)
From stdpp Require Import base list.
From Stdlib Require Import ZArith Lia.
From S2P Require Import Prelude PyBytes PumpKernel.
Open Scope Z_scope.

(** * Fixed-point arithmetic *)

Definition U64 : Z := 2 ^ 64 - 1.
Definition U128 : Z := 2 ^ 128 - 1.
Definition FEE_PREC : Z := 1000000000.
Definition MAX_FEE : Z := 100000000.
Definition BPS : Z := 10000.
Definition ONE_Q64 : Z := 2 ^ 64.
Definition MIN_BIN : Z := -443636.
Definition MAX_BIN_ID : Z := 443636.
Definition PUMP_DEN : Z := 10000.

Definition _mul_shr64 (a b : Z) (round_up : bool) : option Z :=
  let a0 := Z.land a U64 in
  let a1 := Z.shiftr a 64 in
  let b0 := Z.land b U64 in
  let b1 := Z.shiftr b 64 in
  let p00 := a0 * b0 in
  let p01 := a0 * b1 in
  let p10 := a1 * b0 in
  let p11 := a1 * b1 in
  let mid := Z.shiftr p00 64 + Z.land p01 U64 + Z.land p10 U64 in
  let hi := p11 + Z.shiftr p01 64 + Z.shiftr p10 64 + Z.shiftr mid 64 in
  if negb (hi =? 0) then None else
  let r := Z.land mid U64 in
  if round_up && negb (Z.land p00 U64 =? 0)
  then (if r =? U128 then None else Some (r + 1))
  else Some r.

Definition _shl64_div (num den : Z) (round_up : bool) : option Z :=
  if (den =? 0) || (Z.shiftr U128 64 <? num) then None else
  let q := Z.shiftl num 64 / den in
  let rem := Z.shiftl num 64 mod den in
  if round_up && negb (rem =? 0)
  then (if q =? U128 then None else Some (q + 1))
  else Some q.

(** [for bit in range(19)], from [bit] on with [n] left. *)
Fixpoint price_loop (exp : Z) (bit : Z) (n : nat) (squared result : Z) : option Z :=
  match n with
  | O => Some result
  | S n' =>
      match (if Z.testbit exp bit then _mul_shr64 result squared false else Some result) with
      | None => None
      | Some result =>
          match (if bit + 1 <? 19 then _mul_shr64 squared squared false else Some squared) with
          | None => None
          | Some squared => price_loop exp (bit + 1) n' squared result
          end
      end
  end.

Definition price_from_id (bin_id bin_step : Z) : option Z :=
  if bin_id =? 0 then Some ONE_Q64 else
  let invert := bin_id <? 0 in
  let exp := if invert then - bin_id else bin_id in
  if 0x80000 <=? exp then None else
  let bps := Z.shiftl bin_step 64 / BPS in
  let base := ONE_Q64 + bps in
  let '(squared, invert) :=
    if ONE_Q64 <=? base then (U128 / base, negb invert) else (base, invert) in
  match price_loop exp 0 19 squared ONE_Q64 with
  | None => None
  | Some result =>
      if result =? 0 then None else Some (if invert then U128 / result else result)
  end.

Definition fits_u64 (r : option Z) : option Z :=
  match r with
  | Some v => if U64 <? v then None else Some v
  | None => None
  end.

Definition amount_out (amt_in price : Z) (swap_for_y : bool) : option Z :=
  fits_u64 (if swap_for_y then _mul_shr64 price amt_in false
            else _shl64_div amt_in price false).

Definition amount_in (amt_out price : Z) (swap_for_y round_up : bool) : option Z :=
  fits_u64 (if swap_for_y then _shl64_div amt_out price round_up
            else _mul_shr64 amt_out price round_up).

(** * State *)

Record qbin := QBin { q_id : Z; q_x : Z; q_y : Z; q_price : Z }.

Record dlmm := Dlmm {
  active_id : Z; bin_step : Z; d_status : Z; base_factor : Z; filter_period : Z;
  decay_period : Z; reduction_factor : Z; variable_fee_control : Z;
  max_volatility_accumulator : Z; protocol_share : Z; base_fee_power_factor : Z;
  collect_fee_mode : Z; vol_acc : Z; vol_ref : Z; idx_ref : Z; last_upd : Z;
  reserve_x : Z; reserve_y : Z; now_ts : Z; bins : list qbin }.

(** The fields a quote assigns to on its copy of the state. *)
Definition upd (s : dlmm) (active acc ref idx now : Z) (bs : list qbin) : dlmm :=
  {| active_id := active; bin_step := bin_step s; d_status := d_status s;
     base_factor := base_factor s; filter_period := filter_period s;
     decay_period := decay_period s; reduction_factor := reduction_factor s;
     variable_fee_control := variable_fee_control s;
     max_volatility_accumulator := max_volatility_accumulator s;
     protocol_share := protocol_share s; base_fee_power_factor := base_fee_power_factor s;
     collect_fee_mode := collect_fee_mode s; vol_acc := acc; vol_ref := ref; idx_ref := idx;
     last_upd := last_upd s; reserve_x := reserve_x s; reserve_y := reserve_y s;
     now_ts := now; bins := bs |}.

Record pump := Pump {
  pq_base : Z; pq_quote : Z; pq_virtual : Z; pq_lp : Z; pq_protocol : Z; pq_creator : Z;
  pq_disabled : Z; pq_status : Z }.

(** * Fees *)

Definition total_fee_rate (s : dlmm) : Z :=
  let base := base_factor s * bin_step s * 10 * 10 ^ base_fee_power_factor s in
  let variable :=
    if 0 <? variable_fee_control s then
      let vfa := vol_acc s * bin_step s in
      (variable_fee_control s * vfa * vfa + 99999999999) / 100000000000
    else 0 in
  let total := base + variable in
  if MAX_FEE <? total then MAX_FEE else total.

Definition update_references (s : dlmm) : dlmm :=
  let elapsed := now_ts s - last_upd s in
  if filter_period s <=? elapsed then
    upd s (active_id s) (vol_acc s)
        (if elapsed <? decay_period s then vol_acc s * reduction_factor s / BPS else 0)
        (active_id s) (now_ts s) (bins s)
  else s.

Definition update_volatility (s : dlmm) : dlmm :=
  let acc := vol_ref s + Z.abs (idx_ref s - active_id s) * BPS in
  let acc := if max_volatility_accumulator s <? acc then max_volatility_accumulator s
             else acc in
  upd s (active_id s) acc (vol_ref s) (idx_ref s) (now_ts s) (bins s).

Definition fee_on_input (s : dlmm) (swap_for_y : bool) : bool :=
  if collect_fee_mode s =? 1 then negb swap_for_y else true.

Definition compute_fee (s : dlmm) (amount : Z) : option Z :=
  let rate := total_fee_rate s in
  let den := FEE_PREC - rate in
  if den =? 0 then None else fits_u64 (Some ((amount * rate + den - 1) / den)).

Definition compute_fee_from_amount (s : dlmm) (amount_with_fees : Z) : option Z :=
  fits_u64 (Some ((amount_with_fees * total_fee_rate s + (FEE_PREC - 1)) / FEE_PREC)).

(** * The bin walk *)

Fixpoint find_bin (bs : list qbin) (bin_id : Z) : option qbin :=
  match bs with
  | [] => None
  | b :: bs' => if q_id b =? bin_id then Some b else find_bin bs' bin_id
  end.

(** [bin.price = p] on the bin [find_bin] returned. *)
Fixpoint set_price (bs : list qbin) (bin_id p : Z) : list qbin :=
  match bs with
  | [] => []
  | b :: bs' => if q_id b =? bin_id then QBin (q_id b) (q_x b) (q_y b) p :: bs'
                else b :: set_price bs' bin_id p
  end.

Definition max_out (b : qbin) (swap_for_y : bool) : Z := if swap_for_y then q_y b else q_x b.

(** [(used_in, leftover, out)] *)
Definition fill_mm (b : qbin) (amount : Z) (swap_for_y : bool) : option (Z * Z * Z) :=
  let mo := max_out b swap_for_y in
  if mo =? 0 then Some (0, amount, 0) else
  match amount_in mo (q_price b) swap_for_y true with
  | None => None
  | Some max_in =>
      if max_in <=? amount then Some (max_in, amount - max_in, mo) else
      match amount_out amount (q_price b) swap_for_y with
      | None => None
      | Some out => Some (amount, 0, out)
      end
  end.

(** The bin of the active id with its price computed, and the state that caches it. *)
Definition priced_bin (s : dlmm) : option (qbin * dlmm) :=
  match find_bin (bins s) (active_id s) with
  | None => None
  | Some b =>
      if negb (q_price b =? 0) then Some (b, s) else
      match price_from_id (q_id b) (bin_step s) with
      | None => None
      | Some p =>
          Some (QBin (q_id b) (q_x b) (q_y b) p,
                upd s (active_id s) (vol_acc s) (vol_ref s) (idx_ref s) (now_ts s)
                    (set_price (bins s) (active_id s) p))
      end
  end.

(** One pass of the loop up to [left -= included]: the state, what the bin consumed of the
    input with its fee, and what it pays out. *)
Definition quote_step (s : dlmm) (foi swap_for_y : bool) (left : Z)
    : option (dlmm * Z * Z) :=
  match priced_bin s with
  | None => None
  | Some (b, s) =>
      let s := update_volatility s in
      match (if foi then
               match compute_fee_from_amount s left with
               | None => None
               | Some fee => if left <? fee then None else Some (left - fee)
               end
             else Some left) with
      | None => None
      | Some excluded =>
          match fill_mm b excluded swap_for_y with
          | None => None
          | Some (used_in, leftover, out_amt) =>
              match (if 0 <? leftover then
                       let excluded := excluded - leftover in
                       if foi then
                         match compute_fee s excluded with
                         | None => None
                         | Some fee => Some (excluded + fee)
                         end
                       else Some excluded
                     else Some left) with
              | None => None
              | Some included =>
                  match (if foi then Some out_amt else
                         match compute_fee_from_amount s out_amt with
                         | None => None
                         | Some fee => if out_amt <? fee then None else Some (out_amt - fee)
                         end) with
                  | None => None
                  | Some out_amt =>
                      if left <? included then None else Some (s, included, out_amt)
                  end
              end
          end
      end
  end.

(** Step to the next bin id. *)
Definition move_active (s : dlmm) (swap_for_y : bool) : option dlmm :=
  if swap_for_y then
    if active_id s <=? MIN_BIN then None
    else Some (upd s (active_id s - 1) (vol_acc s) (vol_ref s) (idx_ref s) (now_ts s) (bins s))
  else
    if MAX_BIN_ID <=? active_id s then None
    else Some (upd s (active_id s + 1) (vol_acc s) (vol_ref s) (idx_ref s) (now_ts s) (bins s)).

(** [while left > 0 and guard < 256]; [n] passes are left. *)
Fixpoint quote_loop (n : nat) (s : dlmm) (foi swap_for_y : bool) (left total_out : Z)
    : option Z :=
  if left <=? 0 then Some total_out else
  match n with
  | O => None
  | S n' =>
      match quote_step s foi swap_for_y left with
      | None => None
      | Some (s, included, out_amt) =>
          let left := left - included in
          let total_out := total_out + out_amt in
          if 0 <? left then
            match move_active s swap_for_y with
            | None => None
            | Some s => quote_loop n' s foi swap_for_y left total_out
            end
          else quote_loop n' s foi swap_for_y left total_out
      end
  end.

Definition GUARD : nat := 256.

Definition quote_dlmm (state : dlmm) (amount_in_amt : Z) (swap_for_y : bool) : option Z :=
  if negb (d_status state =? 0) || (amount_in_amt =? 0) then None else
  let after := update_references state in
  quote_loop GUARD after (fee_on_input after swap_for_y) swap_for_y amount_in_amt 0.

(** * Time *)

Definition with_now (s : dlmm) (now : Z) : dlmm :=
  upd s (active_id s) (vol_acc s) (vol_ref s) (idx_ref s) now (bins s).

(** [(fee_rate, vol_acc, vol_ref)] *)
Definition fee_after_time (state : dlmm) (now : Z) : Z * Z * Z :=
  let s := update_volatility (update_references (with_now state now)) in
  (total_fee_rate s, vol_acc s, vol_ref s).

Inductive boundary := BFilter (t : Z) | BDecay (t : Z).
Definition boundary_time (b : boundary) : Z := match b with BFilter t | BDecay t => t end.

Definition next_boundaries (state : dlmm) (now : Z) : list boundary :=
  if variable_fee_control state =? 0 then [] else
  let t_f := last_upd state + filter_period state in
  let t_d := last_upd state + decay_period state in
  (if now <? t_f then [BFilter t_f] else []) ++
  (if (now <? t_d) && negb (t_d =? t_f) then [BDecay t_d] else []).

(** * Pump and the cycle *)

Definition _fee_bps (n bps : Z) : option Z :=
  if PUMP_DEN <? bps then None else Some (ceil_div (n * bps) PUMP_DEN).

(** The three fees on [n]; [None] when one of them is. *)
Definition three_fees (p : pump) (n : Z) : option (Z * Z * Z) :=
  match _fee_bps n (pq_lp p), _fee_bps n (pq_protocol p), _fee_bps n (pq_creator p) with
  | Some lp, Some proto, Some creator => Some (lp, proto, creator)
  | _, _, _ => None
  end.

Definition quote_pump (p : pump) (amount_in_amt direction : Z) : option Z :=
  if negb (pq_status p =? 0) || (amount_in_amt =? 0) then None else
  if negb ((direction =? 0) || (direction =? 1)) then None else
  let disable_bit := if direction =? 0 then 8 else 16 in
  if negb (Z.land (pq_disabled p) disable_bit =? 0) then None else
  let total_bps := pq_lp p + pq_protocol p + pq_creator p in
  if PUMP_DEN <=? total_bps then None else
  if (pq_base p =? 0) || (pq_quote p =? 0) then None else
  let qeff := pq_quote p + pq_virtual p in
  if (qeff <=? 0) || (U64 <? qeff) then None else
  let out :=
    if direction =? 1 then
      let gross := qeff * amount_in_amt / (pq_base p + amount_in_amt) in
      match three_fees p gross with
      | None => None
      | Some (lp, proto, creator) =>
          let fee := lp + proto + creator in
          if gross <? fee then None else Some (gross - fee)
      end
    else
      let effective := amount_in_amt * PUMP_DEN / (PUMP_DEN + total_bps) in
      match three_fees p effective with
      | None => None
      | Some (lp, proto, creator) =>
          let fee := lp + proto + creator in
          match (if amount_in_amt <? effective + fee then
                   let effective := effective - (effective + fee - amount_in_amt) in
                   match three_fees p effective with
                   | None => None
                   | Some _ => Some effective
                   end
                 else Some effective) with
          | None => None
          | Some effective =>
              if effective <? 1 then None else
              let net := effective - 1 in
              let out := pq_base p * net / (qeff + net) in
              if (out =? 0) || (pq_base p <? out) then None else Some out
          end
      end in
  match out with
  | None => None
  | Some out => if (out =? 0) || (U64 <? out) then None else Some out
  end.

Definition cycle_quote (d : dlmm) (p : pump) (ain direction now : Z) : option Z :=
  let d := with_now d now in
  if direction =? 0 then
    match quote_dlmm d ain false with
    | None => None
    | Some mid => quote_pump p mid 1
    end
  else
    match quote_pump p ain 0 with
    | None => None
    | Some mid => quote_dlmm d mid true
    end.

Definition hurdle (direction : Z) : Z :=
  let cu := if direction =? 0 then 169397 else 179440 in
  5000 + cu + 150000 + 50000.

(** * The arithmetic against its meaning *)

Lemma land_U64 a : Z.land a U64 = a mod 2 ^ 64.
Proof. change U64 with (Z.ones 64). apply Z.land_ones. lia. Qed.

Lemma shiftr_64 a : Z.shiftr a 64 = a / 2 ^ 64.
Proof. apply Z.shiftr_div_pow2. lia. Qed.

(** Schoolbook multiplication on 64-bit halves, shifted right by one half. *)
Lemma halves_product a b :
  let B := 2 ^ 64 in
  let p00 := (a mod B) * (b mod B) in
  let p01 := (a mod B) * (b / B) in
  let p10 := (a / B) * (b mod B) in
  let p11 := (a / B) * (b / B) in
  let mid := p00 / B + p01 mod B + p10 mod B in
  a * b / B = mid mod B + B * (p11 + p01 / B + p10 / B + mid / B) /\
  (a * b) mod B = p00 mod B.
Proof.
  cbv zeta. set (B := 2 ^ 64). assert (HB : 0 < B) by (unfold B; lia).
  pose proof (Z.div_mod a B ltac:(lia)) as Ea. pose proof (Z.div_mod b B ltac:(lia)) as Eb.
  set (a0 := a mod B) in *. set (a1 := a / B) in *. set (b0 := b mod B) in *.
  set (b1 := b / B) in *.
  assert (E : a * b = a0 * b0 + (a0 * b1 + a1 * b0 + a1 * b1 * B) * B) by (rewrite Ea, Eb; ring).
  rewrite E, Z.div_add, Z.mod_add by lia. split; [|done].
  set (mid := a0 * b0 / B + (a0 * b1) mod B + (a1 * b0) mod B).
  pose proof (Z.div_mod mid B ltac:(lia)). pose proof (Z.div_mod (a0 * b1) B ltac:(lia)).
  pose proof (Z.div_mod (a1 * b0) B ltac:(lia)). unfold mid in *. lia.
Qed.

(** What [_mul_shr64] computes. *)
Definition mul_shr64_spec (a b : Z) (round_up : bool) : option Z :=
  let q := a * b / 2 ^ 64 in
  if q <? 2 ^ 64 then Some (if round_up && negb ((a * b) mod 2 ^ 64 =? 0) then q + 1 else q)
  else None.

Lemma _mul_shr64_eq a b up :
  0 <= a -> 0 <= b -> _mul_shr64 a b up = mul_shr64_spec a b up.
Proof.
  intros Ha Hb. unfold _mul_shr64, mul_shr64_spec. rewrite !land_U64, !shiftr_64.
  destruct (halves_product a b) as [Eq Em]. cbv zeta in Eq, Em. rewrite Em.
  set (mid := _ / _ + _ + _) in *. set (hi := _ + mid / 2 ^ 64) in *.
  pose proof (Z.mod_pos_bound mid (2 ^ 64) ltac:(lia)) as Hm.
  assert (Hq : 0 <= a * b / 2 ^ 64) by (apply Z.div_pos; nia).
  destruct (Z.eqb_spec hi 0) as [Hh|Hh]; cbn [negb].
  - rewrite Hh in Eq. replace (a * b / 2 ^ 64) with (mid mod 2 ^ 64) by lia.
    destruct (Z.ltb_spec (mid mod 2 ^ 64) (2 ^ 64)); [|lia].
    destruct (Z.eqb_spec (mid mod 2 ^ 64) U128) as [He|_]; [unfold U128 in He; lia|].
    by destruct (up && _).
  - destruct (Z.ltb_spec (a * b / 2 ^ 64) (2 ^ 64)); [|done]. nia.
Qed.

(** Division of a 64-bit value by a Q64 price. *)
Lemma _shl64_div_eq num den up :
  0 <= num <= U64 -> 0 < den ->
  _shl64_div num den up = Some (if up then ceil_div (num * 2 ^ 64) den else num * 2 ^ 64 / den).
Proof.
  intros Hn Hd. unfold _shl64_div. rewrite Z.shiftl_mul_pow2, shiftr_64 by lia.
  destruct (Z.eqb_spec den 0); [lia|]. change (U128 / 2 ^ 64) with U64.
  destruct (Z.ltb_spec U64 num); [lia|]. cbn [orb]. unfold ceil_div.
  assert (Hq : num * 2 ^ 64 / den <= num * 2 ^ 64) by (apply Z.div_le_upper_bound; nia).
  destruct up; cbn [andb]; [|done].
  destruct (Z.eqb_spec ((num * 2 ^ 64) mod den) 0); cbn [negb]; [by rewrite Z.add_0_r|].
  destruct (Z.eqb_spec (num * 2 ^ 64 / den) U128) as [He|_]; [|done].
  unfold U64, U128 in *. lia.
Qed.

(** Rounding up a shifted product is a ceiling division. *)
Lemma mul_shr64_up a b : 0 <= a -> 0 <= b ->
  _mul_shr64 a b true = if a * b / 2 ^ 64 <? 2 ^ 64 then Some (ceil_div (a * b) (2 ^ 64)) else None.
Proof.
  intros Ha Hb. rewrite _mul_shr64_eq by done. unfold mul_shr64_spec, ceil_div. cbn [andb].
  destruct (_ <? _); [|done]. destruct (_ =? 0); cbn [negb]; by rewrite ?Z.add_0_r.
Qed.

(** The four-partial-product multiply of the port is exact: on nonnegative
    operands it is the 128-bit product shifted right by 64, rounded up when asked, and it
    answers nothing exactly when the shifted product does not fit 64 bits. *)
Theorem mul_shr64_exact a b up :
  0 <= a -> 0 <= b ->
  _mul_shr64 a b up =
    if a * b / 2 ^ 64 <? 2 ^ 64
    then Some (if up then ceil_div (a * b) (2 ^ 64) else a * b / 2 ^ 64)
    else None.
Proof.
  intros Ha Hb. destruct up; [by apply mul_shr64_up|].
  rewrite _mul_shr64_eq by done. unfold mul_shr64_spec. by destruct (_ <? _).
Qed.

Lemma mul_shr64_exact_witness :
  _mul_shr64 (2 ^ 65 + 3) (2 ^ 62 + 1) true = Some (ceil_div ((2 ^ 65 + 3) * (2 ^ 62 + 1)) (2 ^ 64)).
Proof. apply (mul_shr64_exact (2 ^ 65 + 3) (2 ^ 62 + 1) true); lia. Defined.

(** * Prices *)

Lemma mul_shr64_range a b v : 0 <= a -> 0 <= b -> _mul_shr64 a b false = Some v -> 0 <= v < 2 ^ 64.
Proof.
  intros Ha Hb. rewrite _mul_shr64_eq by done. unfold mul_shr64_spec. cbn [andb].
  destruct (Z.ltb_spec (a * b / 2 ^ 64) (2 ^ 64)); [|done]. intros [= <-].
  split; [apply Z.div_pos; nia|lia].
Qed.

Lemma price_loop_range exp n bit squared result r :
  0 <= squared -> 0 <= result <= 2 ^ 64 -> price_loop exp bit n squared result = Some r ->
  0 <= r <= 2 ^ 64.
Proof.
  revert bit squared result. induction n as [|n IH]; intros bit squared result Hs Hr H;
    cbn [price_loop] in H; [by simplify_eq|].
  destruct (if Z.testbit exp bit then _ else _) as [r1|] eqn:E1; [|done].
  destruct (if bit + 1 <? 19 then _ else _) as [s1|] eqn:E2; [|done].
  apply IH in H; [done|..].
  - destruct (bit + 1 <? 19); [|by simplify_eq]. apply mul_shr64_range in E2; lia.
  - destruct (Z.testbit exp bit); [|by simplify_eq]. apply mul_shr64_range in E1; lia.
Qed.

Lemma price_from_id_range bin_id step p :
  0 <= step -> price_from_id bin_id step = Some p ->
  0 < p <= U128 /\ Z.abs bin_id < 2 ^ 19.
Proof.
  intros Hs. unfold price_from_id.
  destruct (Z.eqb_spec bin_id 0) as [->|Hn]; [intros [= <-]; unfold ONE_Q64, U128; lia|].
  set (exp := if bin_id <? 0 then _ else _).
  assert (He : exp = Z.abs bin_id) by (unfold exp; destruct (Z.ltb_spec bin_id 0); lia).
  destruct (Z.leb_spec 0x80000 exp); [done|].
  assert (Hb : 0 <= Z.shiftl step 64 / BPS)
    by (rewrite Z.shiftl_mul_pow2 by lia; unfold BPS; apply Z.div_pos; lia).
  set (base := ONE_Q64 + _) in *. destruct (Z.leb_spec ONE_Q64 base); [|unfold base in *; lia].
  assert (Hu : 0 <= U128 / base) by (apply Z.div_pos; unfold U128, ONE_Q64 in *; lia).
  destruct (price_loop _ _ _ _ _) as [r|] eqn:El; [|done].
  apply price_loop_range in El; [|done|unfold ONE_Q64; lia].
  destruct (Z.eqb_spec r 0); [done|]. intros [= <-].
  assert (Hd : 1 <= U128 / r) by (apply Z.div_le_lower_bound; unfold U128; lia).
  assert (Hd' : U128 / r <= U128) by (apply Z.div_le_upper_bound; unfold U128 in *; nia).
  destruct (negb (bin_id <? 0)); unfold U128 in *; lia.
Qed.

Lemma price_pos bin_id step p : 0 <= step -> price_from_id bin_id step = Some p -> 0 < p.
Proof. intros Hs H. by apply price_from_id_range in H as [[? ?] ?]. Qed.

(** Every bin price is a positive 128-bit number, and only ids below
    2^19 in absolute value have one. *)
Theorem price_from_id_bounds bin_id step p :
  0 <= step -> price_from_id bin_id step = Some p ->
  0 < p <= U128 /\ Z.abs bin_id < 2 ^ 19.
Proof. apply price_from_id_range. Qed.

Lemma price_from_id_bounds_witness :
  exists p, price_from_id (-1234) 25 = Some p /\ 0 < p <= U128 /\ Z.abs (-1234) < 2 ^ 19.
Proof.
  destruct (price_from_id (-1234) 25) as [p|] eqn:E; [|vm_compute in E; discriminate E].
  exists p. split; [reflexivity|]. apply (price_from_id_bounds (-1234) 25 p); [lia|exact E].
Defined.

(** * One bin *)

Definition u64 (z : Z) : Prop := 0 <= z <= U64.

Lemma fits_u64_Some o v : fits_u64 o = Some v <-> o = Some v /\ v <= U64.
Proof.
  unfold fits_u64. destruct o as [w|]; [|naive_solver].
  destruct (Z.ltb_spec U64 w); naive_solver lia.
Qed.

Lemma amount_in_Some mo price sfy v :
  u64 mo -> 0 < price -> amount_in mo price sfy true = Some v ->
  v = (if sfy then ceil_div (mo * 2 ^ 64) price else ceil_div (mo * price) (2 ^ 64)).
Proof.
  intros [Hm Hm'] Hp H. apply fits_u64_Some in H as [H _]. destruct sfy.
  - rewrite _shl64_div_eq in H by done. congruence.
  - rewrite mul_shr64_up in H by lia. destruct (_ <? _); congruence.
Qed.

Lemma amount_out_Some a price sfy v :
  0 <= a -> 0 < price -> amount_out a price sfy = Some v ->
  v = (if sfy then price * a / 2 ^ 64 else a * 2 ^ 64 / price) /\ 0 <= v.
Proof.
  intros Ha Hp H. apply fits_u64_Some in H as [H _]. destruct sfy.
  - rewrite _mul_shr64_eq in H by lia. unfold mul_shr64_spec in H. cbn [andb] in H.
    destruct (_ <? _); simplify_eq. split; [done|]. apply Z.div_pos; nia.
  - destruct (Z.le_gt_cases a U64).
    + rewrite _shl64_div_eq in H by done. simplify_eq. split; [done|]. apply Z.div_pos; nia.
    + unfold _shl64_div in H. change (Z.shiftr U128 64) with U64 in H.
      destruct (Z.ltb_spec U64 a); [|lia]. by rewrite orb_true_r in H.
Qed.

Record qbin_ok (b : qbin) : Prop := {
  qb_x : u64 (q_x b); qb_y : u64 (q_y b); qb_price : 0 <= q_price b }.

Lemma max_out_u64 b sfy : qbin_ok b -> u64 (max_out b sfy).
Proof. intros [? ? _]. by destruct sfy. Qed.

Lemma fill_mm_spec b a sfy used leftover out :
  qbin_ok b -> 0 < q_price b -> 0 <= a -> fill_mm b a sfy = Some (used, leftover, out) ->
  0 <= used /\ 0 <= leftover /\ used + leftover = a /\ 0 <= out <= max_out b sfy /\
  (0 < leftover -> out = max_out b sfy).
Proof.
  intros Hb Hp Ha. pose proof (max_out_u64 b sfy Hb) as Hm. unfold fill_mm.
  destruct (Z.eqb_spec (max_out b sfy) 0) as [H0|H0]; [intros [= <- <- <-]; lia|].
  destruct (amount_in _ _ _ _) as [max_in|] eqn:Ei; [|done].
  apply amount_in_Some in Ei; [|done|done]. unfold u64, U64 in Hm.
  assert (Hmi : 0 <= max_in) by (subst; destruct sfy; apply ceil_div_nonneg; nia).
  destruct (Z.leb_spec max_in a); [intros [= <- <- <-]; lia|].
  destruct (amount_out _ _ _) as [v|] eqn:Eo; [|done].
  apply amount_out_Some in Eo as [Ev Hv0]; [|done|done]. intros [= <- <- <-].
  repeat (split; [lia|]). split; [|lia]. split; [done|]. subst v. destruct sfy.
  - pose proof (ceil_div_spec (max_out b true * 2 ^ 64) (q_price b) Hp) as Hc.
    rewrite <- Ei in Hc. apply Z.div_le_upper_bound; [lia|]. nia.
  - pose proof (ceil_div_spec (max_out b false * q_price b) (2 ^ 64) ltac:(lia)) as Hc.
    rewrite <- Ei in Hc. apply Z.div_le_upper_bound; [lia|]. nia.
Qed.

(** A bin never pays more than it holds: of the offered amount each unit is
    either used or left over, the output is at most the bin's reserve on the paying side, and
    something is left over only when the whole reserve was paid out. *)
Theorem fill_mm_conserves b a sfy used leftover out :
  qbin_ok b -> 0 < q_price b -> 0 <= a -> fill_mm b a sfy = Some (used, leftover, out) ->
  0 <= used /\ 0 <= leftover /\ used + leftover = a /\ 0 <= out <= max_out b sfy /\
  (0 < leftover -> out = max_out b sfy).
Proof. apply fill_mm_spec. Qed.

Definition demo_bin : qbin := QBin 5 1000 2000 (2 ^ 64 + 2 ^ 60).

Lemma demo_bin_ok : qbin_ok demo_bin /\ 0 < q_price demo_bin.
Proof. split; [constructor; vm_compute; (split; discriminate) || discriminate|reflexivity]. Qed.

Lemma fill_mm_conserves_witness :
  exists used leftover out, fill_mm demo_bin 5000 true = Some (used, leftover, out) /\
    used + leftover = 5000 /\ 0 <= out <= max_out demo_bin true.
Proof.
  destruct (fill_mm demo_bin 5000 true) as [[[used leftover] out]|] eqn:E;
    [|vm_compute in E; discriminate E].
  exists used, leftover, out. split; [reflexivity|].
  destruct (fill_mm_conserves demo_bin 5000 true used leftover out (proj1 demo_bin_ok)
    (proj2 demo_bin_ok) ltac:(lia) E) as (_&_&Hu&Ho&_).
  split; [exact Hu|exact Ho].
Defined.

(** * The walk pays at most the liquidity in its path *)

(** What the bins from [active] on, in the direction of the swap, hold of the paid token. *)
Fixpoint liquidity (swap_for_y : bool) (active : Z) (bs : list qbin) : Z :=
  match bs with
  | [] => 0
  | b :: bs' =>
      (if (if swap_for_y then q_id b <=? active else active <=? q_id b)
       then max_out b swap_for_y else 0) + liquidity swap_for_y active bs'
  end.

Record dlmm_ok (s : dlmm) : Prop := {
  dk_step : 0 <= bin_step s; dk_base : 0 <= base_factor s;
  dk_vfc : 0 <= variable_fee_control s; dk_bins : Forall qbin_ok (bins s) }.

Lemma dlmm_ok_upd s a acc ref idx now bs :
  dlmm_ok s -> Forall qbin_ok bs -> dlmm_ok (upd s a acc ref idx now bs).
Proof. intros [] ?. by constructor. Qed.

Definition next_id (swap_for_y : bool) (id : Z) : Z := if swap_for_y then id - 1 else id + 1.

Lemma liquidity_next sfy active bs :
  Forall qbin_ok bs ->
  0 <= liquidity sfy (next_id sfy active) bs /\
  liquidity sfy (next_id sfy active) bs <= liquidity sfy active bs.
Proof.
  induction 1 as [|b bs Hb Hbs [IH0 IH]]; cbn [liquidity]; [lia|].
  pose proof (max_out_u64 b sfy Hb) as [Hm _]. unfold next_id in *. destruct sfy.
  - destruct (Z.leb_spec (q_id b) (active - 1)), (Z.leb_spec (q_id b) active); lia.
  - destruct (Z.leb_spec (active + 1) (q_id b)), (Z.leb_spec active (q_id b)); lia.
Qed.

Lemma liquidity_active sfy active bs b :
  Forall qbin_ok bs -> find_bin bs active = Some b ->
  max_out b sfy + liquidity sfy (next_id sfy active) bs <= liquidity sfy active bs.
Proof.
  induction 1 as [|b' bs Hb Hbs IH]; cbn [liquidity find_bin]; [done|].
  pose proof (max_out_u64 b' sfy Hb) as [Hm _].
  pose proof (liquidity_next sfy active bs Hbs) as [_ Hl]. unfold next_id in *.
  destruct (Z.eqb_spec (q_id b') active) as [He|He].
  - intros [= <-]. rewrite He. destruct sfy; rewrite Z.leb_refl;
      [destruct (Z.leb_spec active (active - 1))|destruct (Z.leb_spec (active + 1) active)]; lia.
  - intros Hf. specialize (IH Hf). destruct sfy.
    + destruct (Z.leb_spec (q_id b') (active - 1)), (Z.leb_spec (q_id b') active); lia.
    + destruct (Z.leb_spec (active + 1) (q_id b')), (Z.leb_spec active (q_id b')); lia.
Qed.

Lemma liquidity_set_price sfy active bs id p :
  liquidity sfy active (set_price bs id p) = liquidity sfy active bs.
Proof.
  induction bs as [|b bs IH]; cbn [set_price liquidity]; [done|].
  destruct (q_id b =? id); cbn [liquidity q_id max_out]; [by destruct sfy|by rewrite IH].
Qed.

Lemma set_price_ok bs id p : 0 <= p -> Forall qbin_ok bs -> Forall qbin_ok (set_price bs id p).
Proof.
  intros Hp. induction 1 as [|b bs [Hx Hy Hpr] Hbs IH]; cbn [set_price]; [constructor|].
  destruct (q_id b =? id); constructor; [by constructor|done|by constructor|done].
Qed.

Lemma find_bin_ok bs id b : Forall qbin_ok bs -> find_bin bs id = Some b -> qbin_ok b.
Proof.
  induction 1 as [|b' bs Hb Hbs IH]; cbn [find_bin]; [done|].
  destruct (q_id b' =? id); [by intros [= <-]|done].
Qed.

Lemma priced_bin_spec s b s' :
  dlmm_ok s -> priced_bin s = Some (b, s') ->
  qbin_ok b /\ 0 < q_price b /\ dlmm_ok s' /\ active_id s' = active_id s /\
  (forall sfy a, liquidity sfy a (bins s') = liquidity sfy a (bins s)) /\
  exists b0, find_bin (bins s) (active_id s) = Some b0 /\
             forall sfy, max_out b sfy = max_out b0 sfy.
Proof.
  intros Hs. unfold priced_bin. destruct (find_bin _ _) as [b0|] eqn:Ef; [|done].
  pose proof (find_bin_ok _ _ _ (dk_bins _ Hs) Ef) as Hb0. destruct (Hb0) as [Hx Hy Hpr].
  destruct (Z.eqb_spec (q_price b0) 0) as [H0|H0]; cbn [negb].
  - destruct (price_from_id _ _) as [p|] eqn:Ep; [|done]. intros [= <- <-].
    pose proof (price_pos _ _ _ (dk_step _ Hs) Ep) as Hp.
    split; [constructor; cbn; (done || lia)|]. split; [done|].
    split; [apply dlmm_ok_upd; [done|]; apply set_price_ok; [lia|apply Hs]|].
    split; [done|]. split; [intros sfy a; apply liquidity_set_price|].
    exists b0. split; [done|]. by intros [].
  - intros [= <- <-]. split; [done|]. split; [lia|]. repeat (split; [done|]).
    by exists b0.
Qed.

Lemma total_fee_rate_nonneg s : dlmm_ok s -> 0 <= total_fee_rate s.
Proof.
  intros [Hst Hba Hv _]. unfold total_fee_rate.
  assert (0 <= base_factor s * bin_step s * 10 * 10 ^ base_fee_power_factor s).
  { pose proof (Z.pow_nonneg 10 (base_fee_power_factor s) ltac:(lia)). nia. }
  set (v := if 0 <? _ then _ else _).
  assert (0 <= v).
  { unfold v. destruct (Z.ltb_spec 0 (variable_fee_control s)); [|lia].
    cbv zeta. apply Z.div_pos; [|lia]. rewrite <- Z.mul_assoc.
    pose proof (Z.square_nonneg (vol_acc s * bin_step s)) as Hsq.
    apply Z.add_nonneg_nonneg; [by apply Z.mul_nonneg_nonneg|done]. }
  clearbody v. cbv zeta. unfold MAX_FEE. destruct (_ <? _); lia.
Qed.

Lemma fee_from_amount_nonneg s a fee :
  dlmm_ok s -> 0 <= a -> compute_fee_from_amount s a = Some fee -> 0 <= fee.
Proof.
  intros Hs Ha H. unfold compute_fee_from_amount in H. apply fits_u64_Some in H as [H _].
  simplify_eq. pose proof (total_fee_rate_nonneg s Hs). unfold FEE_PREC. apply Z.div_pos; nia.
Qed.

(** One pass of the loop: it uses part of what is left and pays at most the active bin. *)
Lemma quote_step_spec s foi sfy left s' included out :
  dlmm_ok s -> 0 < left -> quote_step s foi sfy left = Some (s', included, out) ->
  dlmm_ok s' /\ active_id s' = active_id s /\ included <= left /\
  (forall a, liquidity sfy a (bins s') = liquidity sfy a (bins s)) /\
  0 <= out /\
  out + liquidity sfy (next_id sfy (active_id s)) (bins s) <= liquidity sfy (active_id s) (bins s).
Proof.
  intros Hs Hl H. unfold quote_step in H.
  destruct (priced_bin s) as [[b s1]|] eqn:Eb; [|done].
  apply priced_bin_spec in Eb as (Hb&Hp&Hs1&Ha&Hq&b0&Hf&Hm); [|done].
  assert (Hs2 : dlmm_ok (update_volatility s1)) by (apply dlmm_ok_upd; [done|apply Hs1]).
  set (s2 := update_volatility s1) in *.
  destruct (if foi then _ else Some left) as [ex|] eqn:Ee; [|done].
  assert (Hex : 0 <= ex).
  { destruct foi; [|by simplify_eq; lia].
    destruct (compute_fee_from_amount s2 left) as [f|]; [|done].
    destruct (Z.ltb_spec left f); simplify_eq. lia. }
  destruct (fill_mm b ex sfy) as [[[used lo] o1]|] eqn:Efm; [|done].
  destruct (fill_mm_spec _ _ _ _ _ _ Hb Hp Hex Efm) as (_&_&_&Ho&_).
  destruct (if 0 <? lo then _ else Some left) as [inc|]; [|done].
  destruct (if foi then Some o1 else _) as [o2|] eqn:Eo; [|done].
  assert (Ho2 : 0 <= o2 <= o1).
  { destruct foi; [by simplify_eq; lia|].
    destruct (compute_fee_from_amount s2 o1) as [f|] eqn:Ef; [|done].
    apply fee_from_amount_nonneg in Ef; [|done|lia].
    destruct (Z.ltb_spec o1 f); simplify_eq. lia. }
  destruct (Z.ltb_spec left inc); simplify_eq.
  pose proof (liquidity_active sfy _ _ _ (dk_bins _ Hs) Hf) as Hliq. rewrite <- Hm in Hliq.
  split; [done|]. split; [done|]. split; [done|]. split; [apply Hq|]. lia.
Qed.

Lemma quote_loop_bound n s foi sfy left tot r :
  dlmm_ok s -> quote_loop n s foi sfy left tot = Some r ->
  tot <= r <= tot + Z.max 0 (liquidity sfy (active_id s) (bins s)).
Proof.
  revert s left tot. induction n as [|n IH]; intros s left tot Hs H; cbn [quote_loop] in H.
  - destruct (left <=? 0); simplify_eq. lia.
  - destruct (Z.leb_spec left 0); [simplify_eq; lia|].
    destruct (quote_step s foi sfy left) as [[[s' inc] o]|] eqn:Es; [|done].
    apply quote_step_spec in Es as (Hs'&Ha&Hi&Hq&Ho&Hb); [|done|done].
    pose proof (liquidity_next sfy (active_id s) (bins s) (dk_bins _ Hs)) as [Hn _].
    destruct (Z.ltb_spec 0 (left - inc)) as [Hl|Hl].
    + destruct (move_active s' sfy) as [s2|] eqn:Em; [|done].
      assert (dlmm_ok s2 /\ active_id s2 = next_id sfy (active_id s) /\ bins s2 = bins s')
        as (Hs2&Ha2&Hb2).
      { unfold move_active in Em. destruct sfy; destruct (_ <=? _); simplify_eq.
        all: split; [apply dlmm_ok_upd; [done|apply Hs']|]; cbn; by rewrite Ha. }
      apply IH in H; [|done]. rewrite Ha2, Hb2, Hq in H. lia.
    + destruct n; cbn [quote_loop] in H;
        destruct (Z.leb_spec (left - inc) 0); simplify_eq; lia.
Qed.

Lemma quote_dlmm_le s amount sfy out :
  dlmm_ok s -> quote_dlmm s amount sfy = Some out ->
  0 <= out <= Z.max 0 (liquidity sfy (active_id s) (bins s)).
Proof.
  intros Hs H. unfold quote_dlmm in H. destruct (_ || _); [done|].
  assert (Hu : dlmm_ok (update_references s) /\ active_id (update_references s) = active_id s /\
               bins (update_references s) = bins s).
  { unfold update_references. destruct (_ <=? _); [|done].
    split; [apply dlmm_ok_upd; [done|apply Hs]|done]. }
  destruct Hu as (Hu&Ha&Hb). apply quote_loop_bound in H; [|done].
  rewrite Ha, Hb in H. lia.
Qed.

(** A DLMM quote never promises more than the bins on its path hold: for
    a well-formed pool the answer lies between zero and the total of the paid token in the
    active bin and the bins beyond it in the direction of the swap, for every fee mode and any
    volatility state. *)
Theorem quote_dlmm_bounded s amount sfy out :
  dlmm_ok s -> quote_dlmm s amount sfy = Some out ->
  0 <= out <= Z.max 0 (liquidity sfy (active_id s) (bins s)).
Proof. apply quote_dlmm_le. Qed.

Definition demo_dlmm : dlmm := {|
  active_id := 5; bin_step := 10; d_status := 0; base_factor := 10000; filter_period := 30;
  decay_period := 600; reduction_factor := 5000; variable_fee_control := 40000;
  max_volatility_accumulator := 350000; protocol_share := 0; base_fee_power_factor := 0;
  collect_fee_mode := 0; vol_acc := 10000; vol_ref := 5000; idx_ref := 4; last_upd := 1000;
  reserve_x := 10 ^ 6; reserve_y := 10 ^ 6; now_ts := 1010;
  bins := [QBin 4 0 900000 0; demo_bin; QBin 6 700 0 (2 ^ 64)] |}.

Lemma demo_dlmm_ok : dlmm_ok demo_dlmm.
Proof.
  constructor; try (vm_compute; discriminate).
  repeat constructor; vm_compute; discriminate.
Qed.

Lemma quote_dlmm_bounded_witness :
  exists out, quote_dlmm demo_dlmm 50000 true = Some out /\ 2000 < out <= 902000.
Proof.
  destruct (quote_dlmm demo_dlmm 50000 true) as [out|] eqn:E; [|vm_compute in E; discriminate E].
  exists out. split; [reflexivity|].
  pose proof (quote_dlmm_bounded demo_dlmm 50000 true out demo_dlmm_ok E) as [_ Hb].
  split; [vm_compute in E; injection E as <-; reflexivity|exact Hb].
Defined.

(** * The Pump quote and the Pump kernel *)

Record pump_ok (p : pump) : Prop := {
  pk_base : u64 (pq_base p); pk_quote : u64 (pq_quote p); pk_lp : 0 <= pq_lp p;
  pk_protocol : 0 <= pq_protocol p; pk_creator : 0 <= pq_creator p }.

(** The snapshot of pump_apply.py for the same pool. *)
Definition kernel_of (p : pump) : pump_state := {|
  base_vault_amount := Some (pq_base p); quote_vault_amount := Some (pq_quote p);
  virtual_quote_reserves := Some (pq_virtual p); PumpKernel.reserve_base := pq_base p;
  reserve_quote := pq_quote p; virtual_quote := Some (pq_virtual p);
  lp_fee_bps := Some (pq_lp p); protocol_fee_bps := Some (pq_protocol p);
  creator_fee_bps := Some (pq_creator p); status := Some (pq_status p);
  PumpKernel.amount_in := None; direction := None; base_amount_out := None |}.

Definition bps_for (p : pump) : bps := Bps (pq_lp p) (pq_protocol p) (pq_creator p).

(** What the trader received between the snapshot and the one the kernel returns. *)
Definition received (p : pump) (a dir : Z) (after : pump_state) : Z :=
  if dir =? 0 then pq_base p - PumpKernel.reserve_base after else
  let gross := (pq_quote p + pq_virtual p) * a / (pq_base p + a) in
  pq_quote p - reserve_quote after - _fee gross (pq_protocol p) - _fee gross (pq_creator p).

Lemma three_fees_Some p n :
  pump_ok p -> pq_lp p + pq_protocol p + pq_creator p < PUMP_DEN ->
  three_fees p n = Some (_fee n (pq_lp p), _fee n (pq_protocol p), _fee n (pq_creator p)).
Proof.
  intros [_ _ ? ? ?] ?. unfold three_fees, _fee_bps.
  destruct (Z.ltb_spec PUMP_DEN (pq_lp p)); [lia|].
  destruct (Z.ltb_spec PUMP_DEN (pq_protocol p)); [lia|].
  by destruct (Z.ltb_spec PUMP_DEN (pq_creator p)); [lia|].
Qed.

(** The two branches, as the legs of the kernel (the sell leg without its vault check). *)
Lemma quote_pump_buy_leg p a :
  pump_ok p -> pq_lp p + pq_protocol p + pq_creator p < PUMP_DEN -> 0 < a ->
  let qeff := pq_quote p + pq_virtual p in
  0 < qeff <= U64 -> pq_status p = 0 -> Z.land (pq_disabled p) 8 = 0 ->
  pq_base p <> 0 -> pq_quote p <> 0 ->
  quote_pump p a 0 =
    option_map (fun r => fst (fst r)) (buy_leg (bps_for p) (pq_base p) (pq_quote p) qeff a).
Proof.
  intros Hp Ht Ha qeff Hq Hs Hd Hb Hv. unfold quote_pump. cbv zeta. fold qeff.
  rewrite Hs, (proj2 (Z.eqb_neq a 0)), (proj2 (Z.eqb_neq _ _) Hb), (proj2 (Z.eqb_neq _ _) Hv)
    by lia. cbn [Z.eqb negb orb]. rewrite Hd. cbn [Z.eqb negb].
  destruct (Z.leb_spec PUMP_DEN (pq_lp p + pq_protocol p + pq_creator p)); [lia|].
  destruct (Z.leb_spec qeff 0); [lia|]. destruct (Z.ltb_spec U64 qeff); [lia|]. cbn [orb].
  rewrite (three_fees_Some p _ Hp Ht). unfold buy_leg, effective_in, fee_sum, bps_for.
  cbn [b_lp b_protocol b_creator total_bps]. unfold PUMP_FEE_BPS_DEN, total_bps.
  cbn [b_lp b_protocol b_creator]. change 10000 with PUMP_DEN.
  set (eff := a * _ / _). set (fees := _ + _ + _).
  set (e2 := if a <? eff + fees then eff - (eff + fees - a) else eff).
  replace (if a <? eff + fees then _ else Some eff) with (Some e2)
    by (unfold e2; destruct (a <? eff + fees); [by rewrite (three_fees_Some p _ Hp Ht)|done]).
  destruct (Z.ltb_spec e2 1) as [|He]; [done|].
  set (out := _ / (qeff + _)). destruct (pk_base _ Hp) as [Hb0 Hb1].
  assert (0 <= out) by (apply Z.div_pos; nia).
  destruct (Z.eqb_spec out 0) as [Ho|Ho]; [done|].
  destruct (Z.ltb_spec (pq_base p) out); [done|]. cbn [orb option_map fst].
  destruct (Z.eqb_spec out 0); [lia|]. by destruct (Z.ltb_spec U64 out); [lia|].
Qed.

Lemma quote_pump_sell_leg p a :
  pump_ok p -> pq_lp p + pq_protocol p + pq_creator p < PUMP_DEN -> 0 < a ->
  let qeff := pq_quote p + pq_virtual p in
  0 < qeff <= U64 -> pq_status p = 0 -> Z.land (pq_disabled p) 16 = 0 ->
  pq_base p <> 0 -> pq_quote p <> 0 ->
  let gross := qeff * a / (pq_base p + a) in
  quote_pump p a 1 =
    if fee_sum (bps_for p) gross <? gross then Some (gross - fee_sum (bps_for p) gross) else None.
Proof.
  intros Hp Ht Ha qeff Hq Hs Hd Hb Hv gross. unfold quote_pump. cbv zeta. fold qeff. fold gross.
  rewrite Hs, (proj2 (Z.eqb_neq a 0)), (proj2 (Z.eqb_neq _ _) Hb), (proj2 (Z.eqb_neq _ _) Hv)
    by lia. cbn [Z.eqb Pos.eqb negb orb]. rewrite Hd. cbn [Z.eqb negb].
  destruct (Z.leb_spec PUMP_DEN (pq_lp p + pq_protocol p + pq_creator p)); [lia|].
  destruct (Z.leb_spec qeff 0); [lia|]. destruct (Z.ltb_spec U64 qeff); [lia|]. cbn [orb].
  rewrite (three_fees_Some p _ Hp Ht). unfold fee_sum, bps_for. cbn [b_lp b_protocol b_creator].
  set (fees := _fee gross _ + _ + _). pose proof (pk_base _ Hp) as [Hb0 _].
  assert (Hg : 0 <= gross <= qeff).
  { split; [apply Z.div_pos; nia|]. apply Z.div_le_upper_bound; nia. }
  assert (Hf : 0 <= fees).
  { apply (fee_sum_nonneg (bps_for p) gross); [|lia]. destruct Hp. by split_and!. }
  destruct (Z.ltb_spec gross fees), (Z.ltb_spec fees gross); try lia; [done|..].
  - destruct (Z.eqb_spec (gross - fees) 0); [lia|].
    by destruct (Z.ltb_spec U64 (gross - fees)); [lia|].
  - by destruct (Z.eqb_spec (gross - fees) 0); [|lia].
Qed.

(** A quote passes the gates that the kernel does not have. *)
Definition quotable (p : pump) (dir : Z) : Prop :=
  (dir = 0 \/ dir = 1) /\ Z.land (pq_disabled p) (if dir =? 0 then 8 else 16) = 0 /\
  pq_quote p + pq_virtual p <= U64.

Lemma quote_pump_closed p a dir :
  (pq_status p <> 0 \/ pq_base p = 0 \/ pq_quote p = 0 \/ pq_quote p + pq_virtual p <= 0 \/
   PUMP_DEN <= pq_lp p + pq_protocol p + pq_creator p) ->
  quote_pump p a dir = None /\ apply_swap (kernel_of p) a dir = None.
Proof.
  intros H. unfold quote_pump, apply_swap, kernel_of, rb_of, rq_of, vq_of, bps_of, total_bps.
  cbn -[Z.land]. unfold PUMP_FEE_BPS_DEN, PUMP_DEN in *.
  destruct (Z.eqb_spec (pq_status p) 0); cbn [negb orb]; [|by destruct (a <=? 0)].
  destruct (Z.leb_spec 10000 (pq_lp p + pq_protocol p + pq_creator p)).
  { repeat (case_match; try done). }
  destruct (Z.eqb_spec (pq_base p) 0); cbn [orb]; [repeat (case_match; try done)|].
  destruct (Z.eqb_spec (pq_quote p) 0); cbn [orb]; [repeat (case_match; try done)|].
  destruct (Z.leb_spec (pq_quote p + pq_virtual p) 0); cbn [orb];
    [repeat (case_match; try done)|]. intuition lia.
Qed.

(** An open pool: neither side answers [None] for a gate they share. *)
Definition open_pool (p : pump) : Prop :=
  pq_status p = 0 /\ pq_base p <> 0 /\ pq_quote p <> 0 /\ 0 < pq_quote p + pq_virtual p /\
  pq_lp p + pq_protocol p + pq_creator p < PUMP_DEN.

Lemma apply_swap_open p a dir :
  open_pool p -> 0 < a -> dir = 0 \/ dir = 1 ->
  apply_swap (kernel_of p) a dir =
    match (if dir =? 1 then sell_leg else buy_leg)
            (bps_for p) (pq_base p) (pq_quote p) (pq_quote p + pq_virtual p) a with
    | Some (out, rb, rq) =>
        if out <=? 0 then None else
        Some {| base_vault_amount := Some rb; quote_vault_amount := Some rq;
                virtual_quote_reserves := Some (pq_virtual p); PumpKernel.reserve_base := rb;
                reserve_quote := rq; virtual_quote := Some (pq_virtual p); lp_fee_bps := None;
                protocol_fee_bps := None; creator_fee_bps := None; status := None;
                PumpKernel.amount_in := Some a; direction := Some dir;
                base_amount_out := None |}
    | None => None
    end.
Proof.
  intros (Hs&Hb&Hq&He&Ht) Ha Hdir.
  unfold apply_swap, kernel_of, rb_of, rq_of, vq_of, bps_of, total_bps.
  cbn -[buy_leg sell_leg]. unfold PUMP_FEE_BPS_DEN, PUMP_DEN in *.
  destruct (Z.leb_spec a 0); [lia|]. rewrite Hs, (proj2 (Z.eqb_neq _ _) Hb), (proj2 (Z.eqb_neq _ _) Hq).
  cbn [Z.eqb negb orb]. destruct (Z.leb_spec (pq_quote p + pq_virtual p) 0); [lia|].
  destruct (Z.leb_spec 10000 (pq_lp p + pq_protocol p + pq_creator p)); [lia|].
  unfold PUMP_DIR_BASE_TO_QUOTE, PUMP_DIR_QUOTE_TO_BASE.
  destruct Hdir as [->| ->]; cbn [Z.eqb Pos.eqb]; fold (bps_for p);
    by destruct (_ : option (Z * Z * Z)) as [[[? ?] ?]|].
Qed.

Lemma open_pool_dec p :
  open_pool p \/
  (pq_status p <> 0 \/ pq_base p = 0 \/ pq_quote p = 0 \/ pq_quote p + pq_virtual p <= 0 \/
   PUMP_DEN <= pq_lp p + pq_protocol p + pq_creator p).
Proof. unfold open_pool. lia. Qed.

Lemma bps_for_ok p : pump_ok p -> bps_ok (bps_for p).
Proof. intros []. by split_and!. Qed.

(** The Pump quote is the kernel's swap: for a pool that passes the
    quote's own gates, when buying, or when selling against no positive virtual reserve, the
    quote answers exactly when the kernel applies the swap, and its answer is what the kernel's
    snapshots say the trader received. *)
Theorem quote_pump_matches_kernel p a dir :
  pump_ok p -> 0 < a -> quotable p dir -> (dir = 1 -> pq_virtual p <= 0) ->
  quote_pump p a dir = option_map (received p a dir) (apply_swap (kernel_of p) a dir).
Proof.
  intros Hp Ha (Hdir&Hd&Hu) Hv.
  destruct (open_pool_dec p) as [Ho|Hc];
    [|by destruct (quote_pump_closed p a dir Hc) as [-> ->]].
  rewrite (apply_swap_open p a dir Ho Ha Hdir). destruct Ho as (Hs&Hb&Hq&He&Ht).
  pose proof (bps_for_ok p Hp) as Hbp. pose proof (pk_base _ Hp) as [Hb0 _].
  destruct Hdir as [->| ->]; cbn [Z.eqb Pos.eqb] in Hd |- *.
  - rewrite (quote_pump_buy_leg p a) by (try done; lia).
    destruct (buy_leg _ _ _ _ _) as [[[out rb] rq]|] eqn:El; [|done].
    apply buy_leg_spec in El as (net&_&->&Ho&_); [|done|lia..]. cbn [option_map fst].
    destruct (Z.leb_spec out 0); [lia|]. unfold received. cbn. f_equal. lia.
  - rewrite (quote_pump_sell_leg p a) by (try done; lia). unfold sell_leg.
    set (gross := _ / _). specialize (Hv eq_refl).
    assert (Hg : 0 <= gross <= pq_quote p + pq_virtual p).
    { split; [apply Z.div_pos; nia|]. apply Z.div_le_upper_bound; nia. }
    pose proof (fee_sum_nonneg (bps_for p) gross Hbp (proj1 Hg)) as Hf.
    pose proof (_fee_nonneg gross (b_lp (bps_for p)) (proj1 Hg) (proj1 Hbp)) as Hlp.
    destruct (Z.ltb_spec gross (fee_sum (bps_for p) gross)).
    { by destruct (Z.ltb_spec (fee_sum (bps_for p) gross) gross); [lia|]. }
    destruct (Z.ltb_spec (pq_quote p) (gross - _fee gross (b_lp (bps_for p)))); [lia|].
    destruct (Z.ltb_spec (fee_sum (bps_for p) gross) gross),
      (Z.leb_spec (gross - fee_sum (bps_for p) gross) 0); try lia; [|done].
    unfold received. cbn [option_map Z.eqb reserve_quote]. fold gross. f_equal.
    unfold fee_sum. cbn [bps_for b_lp b_protocol b_creator]. lia.
Qed.

Definition demo_pump : pump := Pump 1000000 2000000 0 20 5 30 0 0.

Lemma demo_pump_ok : pump_ok demo_pump.
Proof. constructor; vm_compute; (split; discriminate) || discriminate. Qed.

Lemma quote_pump_matches_kernel_witness :
  quote_pump demo_pump 5000 0 =
    option_map (received demo_pump 5000 0) (apply_swap (kernel_of demo_pump) 5000 0) /\
  quote_pump demo_pump 5000 1 =
    option_map (received demo_pump 5000 1) (apply_swap (kernel_of demo_pump) 5000 1) /\
  quote_pump demo_pump 5000 0 = Some 2479.
Proof.
  split; [|split; [|vm_compute; reflexivity]].
  - apply (quote_pump_matches_kernel demo_pump 5000 0 demo_pump_ok); [lia| |lia].
    split; [left; reflexivity|]. split; [reflexivity|vm_compute; discriminate].
  - apply (quote_pump_matches_kernel demo_pump 5000 1 demo_pump_ok); [lia| |vm_compute; discriminate].
    split; [right; reflexivity|]. split; [reflexivity|vm_compute; discriminate].
Defined.

(** With a positive virtual reserve the quote promises a sale that
    the quote vault cannot pay and the kernel refuses. *)
Theorem quote_pump_ignores_vault :
  exists p a out, pump_ok p /\ quotable p 1 /\ 0 < a /\ quote_pump p a 1 = Some out /\
    pq_quote p < out /\ apply_swap (kernel_of p) a 1 = None.
Proof.
  exists (Pump 1000000 100 2000000 20 5 30 0 0), 5000, 9895.
  split; [constructor; vm_compute; (split; discriminate) || discriminate|].
  split; [split; [by right|split; [reflexivity|vm_compute; discriminate]]|].
  split; [lia|]. split; [vm_compute; reflexivity|]. split; [cbn; lia|vm_compute; reflexivity].
Qed.

(** * Time *)

(** Which of the three regimes of [update_references] holds [elapsed] seconds on. *)
Definition regime (s : dlmm) (now : Z) : bool * bool :=
  (filter_period s <=? now - last_upd s, now - last_upd s <? decay_period s).

Lemma fee_after_time_regime s t1 t2 :
  (fst (regime s t1) = fst (regime s t2) /\
   (fst (regime s t1) = true -> snd (regime s t1) = snd (regime s t2))) ->
  fee_after_time s t1 = fee_after_time s t2.
Proof.
  unfold regime, fee_after_time, update_references. cbn.
  destruct (_ <=? t1 - _) eqn:E1, (_ <=? t2 - _) eqn:E2; intros [H1 H2]; try done.
  by rewrite (H2 eq_refl).
Qed.

Lemma fee_rate_constant s acc1 acc2 ref1 ref2 idx1 idx2 now1 now2 a bs :
  variable_fee_control s = 0 ->
  total_fee_rate (upd s a acc1 ref1 idx1 now1 bs) = total_fee_rate (upd s a acc2 ref2 idx2 now2 bs).
Proof. intros H. unfold total_fee_rate. cbn. by rewrite H. Qed.

(** Nothing is missed between boundaries: if every boundary listed
    for [t1] is still in the future at [t2], the pool charges the same fee rate at both times,
    and with a variable fee the whole volatility state a quote would see is the same. *)
Theorem next_boundaries_complete s t1 t2 :
  t1 <= t2 -> Forall (fun b => t2 < boundary_time b) (next_boundaries s t1) ->
  fst (fst (fee_after_time s t1)) = fst (fst (fee_after_time s t2)) /\
  (variable_fee_control s <> 0 -> fee_after_time s t1 = fee_after_time s t2).
Proof.
  intros Ht Hf. unfold next_boundaries in Hf.
  destruct (Z.eqb_spec (variable_fee_control s) 0) as [H0|H0].
  - split; [|done]. unfold fee_after_time, update_volatility, update_references. cbn.
    destruct (_ <=? _), (_ <=? _); cbn; unfold total_fee_rate; cbn; by rewrite H0.
  - assert (Heq : fee_after_time s t1 = fee_after_time s t2); [|by rewrite Heq].
    apply fee_after_time_regime. unfold regime. cbn [fst snd].
    apply Forall_app in Hf as [Hf1 Hf2].
    assert (H1 : t1 < last_upd s + filter_period s -> t2 < last_upd s + filter_period s).
    { intros H. destruct (Z.ltb_spec t1 (last_upd s + filter_period s)); [|lia].
      by apply Forall_inv in Hf1. }
    assert (H2 : t1 < last_upd s + decay_period s -> decay_period s <> filter_period s ->
                 t2 < last_upd s + decay_period s).
    { intros H Hn. destruct (Z.ltb_spec t1 (last_upd s + decay_period s)); [|lia].
      destruct (Z.eqb_spec (last_upd s + decay_period s) (last_upd s + filter_period s)); [lia|].
      by apply Forall_inv in Hf2. }
    split.
    + destruct (Z.leb_spec (filter_period s) (t1 - last_upd s)),
        (Z.leb_spec (filter_period s) (t2 - last_upd s)); (done || lia).
    + intros Hft. apply Z.leb_le in Hft.
      destruct (Z.ltb_spec (t1 - last_upd s) (decay_period s)),
        (Z.ltb_spec (t2 - last_upd s) (decay_period s)); (done || lia).
Qed.

Lemma next_boundaries_complete_witness :
  next_boundaries demo_dlmm 1040 = [BDecay 1600] /\
  fee_after_time demo_dlmm 1040 = fee_after_time demo_dlmm 1599.
Proof.
  split; [reflexivity|].
  apply (next_boundaries_complete demo_dlmm 1040 1599); [lia| |vm_compute; discriminate].
  constructor; [reflexivity|constructor].
Defined.

(** A cycle composes the two quotes at the given time, DLMM first in
    direction 0 and Pump first otherwise, and answers exactly when both legs do; with a
    well-formed pool the DLMM leg of a direction-0 cycle is bounded by the base token its bins
    hold. *)
Theorem cycle_quote_spec d p ain dir now out :
  dlmm_ok d ->
  cycle_quote d p ain dir now = Some out <->
  exists mid,
    (dir = 0 /\ quote_dlmm (with_now d now) ain false = Some mid /\
     0 <= mid <= Z.max 0 (liquidity false (active_id d) (bins d)) /\
     quote_pump p mid 1 = Some out) \/
    (dir <> 0 /\ quote_pump p ain 0 = Some mid /\
     quote_dlmm (with_now d now) mid true = Some out /\
     0 <= out <= Z.max 0 (liquidity true (active_id d) (bins d))).
Proof.
  intros Hd.
  assert (Hb : forall a sfy o, quote_dlmm (with_now d now) a sfy = Some o ->
    0 <= o <= Z.max 0 (liquidity sfy (active_id d) (bins d))).
  { intros a sfy o H. apply quote_dlmm_le in H; [done|]. apply dlmm_ok_upd; [done|apply Hd]. }
  unfold cycle_quote. destruct (Z.eqb_spec dir 0) as [->|Hn].
  - destruct (quote_dlmm _ _ _) as [mid|] eqn:E; [|naive_solver].
    pose proof (Hb _ _ _ E). naive_solver.
  - destruct (quote_pump p ain 0) as [mid|] eqn:E; [|naive_solver]. split.
    + intros H. exists mid. right. pose proof (Hb _ _ _ H). done.
    + naive_solver.
Qed.

Lemma cycle_quote_spec_witness :
  exists out, cycle_quote demo_dlmm demo_pump 5000 1 1020 = Some out /\
    exists mid, quote_pump demo_pump 5000 0 = Some mid /\ 0 < mid.
Proof.
  destruct (cycle_quote demo_dlmm demo_pump 5000 1 1020) as [out|] eqn:E;
    [|vm_compute in E; discriminate E].
  exists out. split; [reflexivity|].
  destruct (proj1 (cycle_quote_spec demo_dlmm demo_pump 5000 1 1020 out demo_dlmm_ok) E)
    as [mid [[H _]|(_&Hp&_)]]; [discriminate H|].
  exists mid. split; [exact Hp|]. vm_compute in Hp. injection Hp as <-. reflexivity.
Defined.
