(* ===== verification/Recon.v ===== *)
(** The append-only reconciliation log: arb-state/shyft/recon.py.  The file is the byte string
    written so far; a record is a length word, an 80-byte fixed part and a body. *)
From stdpp Require Import base list strings.
From Stdlib Require Import ZArith Lia.
From S2P Require Import Prelude PyBytes.
Open Scope Z_scope.
Open Scope py_scope.

Definition RECON_MAGIC : Z := 0x36305453.
Definition RECON_AUTH : Z := 3.
Definition RECON_INVALIDATE : Z := 4.
Definition RECON_PLANE : Z := 5.

(** [struct.pack("<IHH", RECON_MAGIC, 1, 0)] *)
Definition recon_header : bytes := le_enc 4 RECON_MAGIC ++ le_enc 2 1 ++ le_enc 2 0.

(** [None] is a missing file. *)
Definition open_recon (file : option bytes) : bytes :=
  match file with
  | None | Some [] => recon_header
  | Some f => f
  end.

Definition fit_sig (sig : bytes) : bytes :=
  if negb (blen sig =? 64) then take 64 (sig ++ replicate 64 0) else sig.

Definition fixed_part (kind proto pool_idx : Z) (sig : bytes) (slot : Z) : pyres bytes :=
  k <-! pack_u 1 kind ;;
  p <-! pack_u 1 proto ;;
  z <-! pack_u 2 0 ;;
  i <-! pack_u 4 pool_idx ;;
  s <-! pack_u 8 slot ;;
  Ret (k ++ p ++ z ++ i ++ sig ++ s).

(** The bytes one call appends; every field is packed before the first write. *)
Definition rec_bytes (kind proto pool_idx : Z) (sig : bytes) (slot : Z) (body : bytes)
    : pyres bytes :=
  fixed <-! fixed_part kind proto pool_idx (fit_sig sig) slot ;;
  if negb (blen fixed =? 80) then Raise (RuntimeError "recon fixed") else
  n <-! pack_u 4 (80 + blen body) ;;
  Ret (n ++ fixed ++ body).

Definition write_rec (f : bytes) (kind proto pool_idx : Z) (sig : bytes) (slot : Z) (body : bytes)
    : bytes * option pyexn :=
  match rec_bytes kind proto pool_idx sig slot body with
  | Ret b => (f ++ b, None)
  | Raise e => (f, Some e)
  end.

Definition invalidate (f : bytes) (proto pool_idx rx_ns slot : Z) : bytes * option pyexn :=
  match pack_u 8 rx_ns with
  | Raise e => (f, Some e)
  | Ret rx => write_rec f RECON_INVALIDATE proto pool_idx
                (rx ++ le_enc 8 0 ++ replicate 48 0) slot []
  end.

(** The third argument, a slot, is not used by the code. *)
Definition plane (f : bytes) (ready : bool) (slot : Z) : bytes * option pyexn :=
  write_rec f RECON_PLANE 0 0 (replicate 64 0) (if ready then 1 else 0) [].

Definition auth (f : bytes) (proto pool_idx slot : Z) (body : bytes) : bytes * option pyexn :=
  write_rec f RECON_AUTH proto pool_idx (replicate 64 0) slot body.

(** * What the file says *)

Record frame := Frame {
  f_kind : Z; f_proto : Z; f_pool : Z; f_sig : bytes; f_slot : Z; f_body : bytes }.

(** A reference reader of the records: [None] for a torn file. *)
Fixpoint frames (fuel : nat) (raw : bytes) : option (list frame) :=
  match fuel, raw with
  | _, [] => Some []
  | O, _ => None
  | S fuel', _ =>
      let n := le_dec (take 4 raw) in
      let rest := drop 4 raw in
      if (n <? 80) || (blen rest <? n) then None else
      let fr := Frame (le_dec (slice 0 1 rest)) (le_dec (slice 1 2 rest))
                      (le_dec (slice 4 8 rest)) (slice 8 72 rest) (le_dec (slice 72 80 rest))
                      (slice 80 n rest) in
      match frames fuel' (drop (Z.to_nat n) rest) with
      | Some l => Some (fr :: l)
      | None => None
      end
  end.

Definition read_recon (raw : bytes) : option (list frame) :=
  if bool_decide (take 8 raw = recon_header) then frames (length raw) (drop 8 raw) else None.

(** * The calls and their records *)

Inductive rop :=
  | RInvalidate (proto pool_idx rx_ns slot : Z)
  | RPlane (ready : bool) (slot : Z)
  | RAuth (proto pool_idx slot : Z) (body : bytes).

Definition run_rop (f : bytes) (o : rop) : bytes * option pyexn :=
  match o with
  | RInvalidate p i rx slot => invalidate f p i rx slot
  | RPlane r slot => plane f r slot
  | RAuth p i slot body => auth f p i slot body
  end.

Definition frame_of (o : rop) : frame :=
  match o with
  | RInvalidate p i rx slot =>
      Frame RECON_INVALIDATE p i (le_enc 8 rx ++ le_enc 8 0 ++ replicate 48 0) slot []
  | RPlane r _ => Frame RECON_PLANE 0 0 (replicate 64 0) (if r then 1 else 0) []
  | RAuth p i slot body => Frame RECON_AUTH p i (replicate 64 0) slot body
  end.

Definition run_rops (f : bytes) (os : list rop) : bytes := foldl (fun f o => (run_rop f o).1) f os.

(** The calls that did not raise. *)
Definition accepted (o : rop) : bool :=
  match run_rop [] o with
  | (_, None) => true
  | (_, Some _) => false
  end.

(** * One record *)

Lemma slice_prefix a b p q : 0 <= a <= b -> b <= blen p -> slice a b (p ++ q) = slice a b p.
Proof.
  unfold slice, blen. intros Ha Hb. rewrite drop_app_le by lia.
  apply take_app_le. rewrite length_drop. lia.
Qed.

(** The fixed part, field by field. *)
Definition fixed_bytes (kind proto idx : Z) (sig : bytes) (slot : Z) : bytes :=
  le_enc 1 kind ++ le_enc 1 proto ++ le_enc 2 0 ++ le_enc 4 idx ++ sig ++ le_enc 8 slot.

Lemma blen_fixed kind proto idx sig slot :
  blen sig = 64 -> blen (fixed_bytes kind proto idx sig slot) = 80.
Proof. intros Hs. unfold fixed_bytes. rewrite !blen_app, !blen_le_enc, Hs. done. Qed.

Lemma fixed_fields kind proto idx sig slot :
  blen sig = 64 ->
  let p := fixed_bytes kind proto idx sig slot in
  slice 0 1 p = le_enc 1 kind /\ slice 1 2 p = le_enc 1 proto /\
  slice 4 8 p = le_enc 4 idx /\ slice 8 72 p = sig /\ slice 72 80 p = le_enc 8 slot.
Proof.
  intros Hs. cbv zeta. unfold fixed_bytes.
  split_and!.
  - by apply (slice_at 0 1 []).
  - by apply (slice_at 1 2 (le_enc 1 kind)).
  - rewrite (app_assoc (le_enc 1 kind)), (app_assoc (le_enc 1 kind ++ _)).
    by apply (slice_at 4 8 ((le_enc 1 kind ++ le_enc 1 proto) ++ le_enc 2 0)).
  - rewrite (app_assoc (le_enc 1 kind)), (app_assoc (le_enc 1 kind ++ _)),
      (app_assoc ((le_enc 1 kind ++ _) ++ _)).
    apply slice_at; [by rewrite !blen_app, !blen_le_enc|lia].
  - rewrite (app_assoc (le_enc 1 kind)), (app_assoc (le_enc 1 kind ++ _)),
      (app_assoc ((le_enc 1 kind ++ _) ++ _)), (app_assoc (((le_enc 1 kind ++ _) ++ _) ++ _)).
    rewrite <- (app_nil_r (le_enc 8 slot)) at 1.
    apply slice_at; [by rewrite !blen_app, !blen_le_enc, Hs|by rewrite blen_le_enc].
Qed.

(** A record's fields fit their words. *)
Definition frame_ok (fr : frame) : Prop :=
  0 <= f_kind fr < 2 ^ 8 /\ 0 <= f_proto fr < 2 ^ 8 /\ 0 <= f_pool fr < 2 ^ 32 /\
  blen (f_sig fr) = 64 /\ 0 <= f_slot fr < 2 ^ 64 /\ 80 + blen (f_body fr) < 2 ^ 32.

#[export] Instance frame_ok_dec fr : Decision (frame_ok fr).
Proof. unfold frame_ok. apply _. Defined.

Definition enc_frame (fr : frame) : bytes :=
  le_enc 4 (80 + blen (f_body fr)) ++
  fixed_bytes (f_kind fr) (f_proto fr) (f_pool fr) (f_sig fr) (f_slot fr) ++ f_body fr.

Lemma rec_bytes_spec kind proto idx sig slot body :
  blen sig = 64 ->
  rec_bytes kind proto idx sig slot body =
    if decide (frame_ok (Frame kind proto idx sig slot body))
    then Ret (enc_frame (Frame kind proto idx sig slot body)) else Raise StructError.
Proof.
  intros Hs. unfold rec_bytes, fixed_part, fit_sig, pack_u. rewrite Hs.
  cbn [negb Z.eqb Pos.eqb].
  change (8 * Z.of_nat 1) with 8. change (8 * Z.of_nat 2) with 16.
  change (8 * Z.of_nat 4) with 32. change (8 * Z.of_nat 8) with 64.
  pose proof (blen_fixed kind proto idx sig slot Hs) as Hf.
  assert (Hb : 0 <= blen body) by (unfold blen; lia).
  case_decide as Hok.
  - destruct Hok as (Hk&Hp&Hi&_&Hsl&Hn). cbn in Hk, Hp, Hi, Hsl, Hn.
    replace ((0 <=? kind) && (kind <? 2 ^ 8)) with true by lia.
    replace ((0 <=? proto) && (proto <? 2 ^ 8)) with true by lia.
    replace ((0 <=? idx) && (idx <? 2 ^ 32)) with true by lia.
    replace ((0 <=? slot) && (slot <? 2 ^ 64)) with true by lia.
    replace ((0 <=? 80 + blen body) && (80 + blen body <? 2 ^ 32)) with true by lia.
    cbn [py_bind]. change ((0 <=? 0) && (0 <? 2 ^ 16)) with true. cbn [py_bind].
    fold (fixed_bytes kind proto idx sig slot). by rewrite Hf.
  - change ((0 <=? 0) && (0 <? 2 ^ 16)) with true. cbv iota.
    destruct ((0 <=? kind) && (kind <? 2 ^ 8)) eqn:E1; [|done]. cbn [py_bind].
    destruct ((0 <=? proto) && (proto <? 2 ^ 8)) eqn:E2; [|done]. cbn [py_bind].
    destruct ((0 <=? idx) && (idx <? 2 ^ 32)) eqn:E3; [|done]. cbn [py_bind].
    destruct ((0 <=? slot) && (slot <? 2 ^ 64)) eqn:E4; [|done]. cbn [py_bind].
    fold (fixed_bytes kind proto idx sig slot). rewrite Hf. cbn [negb Z.eqb Pos.eqb].
    destruct ((0 <=? 80 + blen body) && (80 + blen body <? 2 ^ 32)) eqn:E5; [|done].
    destruct Hok. unfold frame_ok. cbn [f_kind f_proto f_pool f_sig f_slot f_body]. lia.
Qed.

Lemma length_enc_frame fr :
  blen (f_sig fr) = 64 -> blen (enc_frame fr) = 84 + blen (f_body fr).
Proof.
  intros Hs. unfold enc_frame. rewrite !blen_app, blen_le_enc, blen_fixed by done. lia.
Qed.

Lemma le_dec_field n z : 0 <= z < 2 ^ (8 * Z.of_nat n) -> le_dec (le_enc n z) = z.
Proof. apply le_dec_enc_small. Qed.

(** The reader takes one encoded record off the front. *)
Lemma frames_step fuel fr more :
  frame_ok fr ->
  frames (S fuel) (enc_frame fr ++ more) =
    match frames fuel more with Some l => Some (fr :: l) | None => None end.
Proof.
  intros (Hk&Hp&Hi&Hs&Hsl&Hn). destruct fr as [kind proto idx sig slot body].
  cbn [f_kind f_proto f_pool f_sig f_slot f_body] in *.
  assert (Hb : 0 <= blen body) by (unfold blen; lia).
  set (raw := enc_frame (Frame kind proto idx sig slot body) ++ more).
  assert (Hraw : raw = le_enc 4 (80 + blen body) ++
                       fixed_bytes kind proto idx sig slot ++ body ++ more)
    by (unfold raw, enc_frame; cbn [f_kind f_proto f_pool f_sig f_slot f_body];
        by rewrite <- !app_assoc).
  assert (Ht : take 4 raw = le_enc 4 (80 + blen body))
    by (rewrite Hraw; by apply take_app_length').
  assert (Hd : drop 4 raw = fixed_bytes kind proto idx sig slot ++ body ++ more)
    by (rewrite Hraw; by apply drop_app_length').
  clearbody raw. destruct raw as [|b raw']; [discriminate Hraw|].
  cbn [frames]. rewrite Ht, Hd, le_dec_field by (change (8 * Z.of_nat 4) with 32; lia).
  pose proof (blen_fixed kind proto idx sig slot Hs) as Hf.
  destruct (fixed_fields kind proto idx sig slot Hs) as (F1&F2&F3&F4&F5).
  replace ((80 + blen body <? 80) || _) with false.
  2:{ rewrite !blen_app, Hf. pose proof (Nat2Z.is_nonneg (length more)).
      unfold blen in *. lia. }
  rewrite !slice_prefix by (rewrite ?Hf; lia). rewrite F1, F2, F3, F4, F5.
  rewrite !le_dec_field by (cbn; lia).
  replace (slice 80 (80 + blen body) _) with body
    by (symmetry; apply slice_at; [done|lia]).
  replace (drop (Z.to_nat (80 + blen body)) _) with more; [done|].
  rewrite app_assoc. symmetry. apply drop_app_length'.
  rewrite length_app. unfold blen in *. lia.
Qed.

Lemma frames_enc fs fuel :
  Forall frame_ok fs -> (length (concat (enc_frame <$> fs)) <= fuel)%nat ->
  frames fuel (concat (enc_frame <$> fs)) = Some fs.
Proof.
  revert fuel. induction fs as [|fr fs IH]; intros fuel Hok Hlen.
  - by destruct fuel.
  - apply Forall_cons in Hok as [Hfr Hfs]. cbn [fmap list_fmap concat] in *.
    pose proof (length_enc_frame fr) as Hl. destruct Hfr as (H1&H2&H3&Hs&H5&H6).
    specialize (Hl Hs). rewrite length_app in Hlen. unfold blen in *.
    destruct fuel as [|fuel]; [lia|]. rewrite frames_step by done.
    by rewrite IH by (done || lia).
Qed.

(** * The calls *)

Lemma run_rop_spec f o :
  (forall p i rx slot, o = RInvalidate p i rx slot -> 0 <= rx < 2 ^ 64) ->
  run_rop f o = if decide (frame_ok (frame_of o)) then (f ++ enc_frame (frame_of o), None)
                else (f, Some StructError).
Proof.
  intros Hrx. destruct o as [p i rx slot|r slot|p i slot body]; cbn [run_rop frame_of].
  - unfold invalidate, pack_u. change (8 * Z.of_nat 8) with 64.
    specialize (Hrx p i rx slot eq_refl).
    replace ((0 <=? rx) && (rx <? 2 ^ 64)) with true by lia.
    unfold write_rec. rewrite rec_bytes_spec by (by rewrite !blen_app, !blen_le_enc).
    by case_decide.
  - unfold plane, write_rec. rewrite rec_bytes_spec by done. by case_decide.
  - unfold auth, write_rec. rewrite rec_bytes_spec by done. by case_decide.
Qed.

Lemma run_rop_bad_rx f p i rx slot :
  ~ 0 <= rx < 2 ^ 64 -> run_rop f (RInvalidate p i rx slot) = (f, Some StructError).
Proof.
  intros H. cbn. unfold invalidate, pack_u. change (8 * Z.of_nat 8) with 64.
  by replace ((0 <=? rx) && (rx <? 2 ^ 64)) with false by lia.
Qed.

(** A call either appends its record or raises [struct.error] and leaves the file alone. *)
Lemma run_rop_append f o :
  run_rop f o = (f ++ if accepted o then enc_frame (frame_of o) else [],
                 if accepted o then None else Some StructError) /\
  (accepted o = true -> frame_ok (frame_of o)).
Proof.
  assert (H : (exists p i rx slot, o = RInvalidate p i rx slot /\ ~ 0 <= rx < 2 ^ 64) \/
              forall p i rx slot, o = RInvalidate p i rx slot -> 0 <= rx < 2 ^ 64).
  { destruct o as [p i rx slot| |]; [|right; congruence..].
    destruct (decide (0 <= rx < 2 ^ 64)); [right; intros ???? [= -> -> -> ->]; lia|].
    left. by exists p, i, rx, slot. }
  unfold accepted. destruct H as [(p&i&rx&slot&->&H)|H].
  - rewrite !run_rop_bad_rx by done. by rewrite app_nil_r.
  - rewrite !run_rop_spec by done. case_decide; [done|]. by rewrite app_nil_r.
Qed.

Lemma run_rops_bytes f os :
  run_rops f os = f ++ concat (enc_frame <$> (frame_of <$> filter accepted os)).
Proof.
  revert f. induction os as [|o os IH]; intros f; [by rewrite app_nil_r|].
  unfold run_rops in *. cbn [foldl]. rewrite IH.
  destruct (run_rop_append f o) as [-> _]. cbn [fst]. rewrite filter_cons.
  destruct (accepted o); case_decide; try done; cbn [fmap list_fmap concat];
    by rewrite <- ?app_assoc, ?app_nil_r.
Qed.

(** The log is readable after any run: for every sequence of
    invalidate, plane and auth calls on a fresh file, whatever their arguments, reading the file
    back gives exactly the records of the calls that did not raise, in call order, and a call
    that raises leaves no bytes behind. *)
Theorem recon_log_roundtrip os :
  read_recon (run_rops (open_recon None) os) = Some (frame_of <$> filter accepted os).
Proof.
  rewrite run_rops_bytes. unfold read_recon. cbn [open_recon].
  rewrite take_app_length', drop_app_length' by done. rewrite bool_decide_true by done.
  apply frames_enc; [|rewrite length_app; lia].
  apply Forall_fmap, Forall_forall. intros o Ho. apply list_elem_of_filter in Ho as [Ho _].
  apply (run_rop_append [] o). by apply Is_true_eq_true.
Qed.
