(* ===== verification/Shadow.v ===== *)
(** The shadow gate: arb-state/shyft/shadow.py.  Predictions wait under (transaction, pool);
    a publication associated with one is compared field by field and scored.

    A state dict is an [sdict], an option per key the comparison reads.  Text is ASCII.  Time is
    the clock in its own unit; the mismatch bundle files are represented by their log rows and
    the flag that FIRST_MISMATCH.json exists. *)
From stdpp Require Import base list strings gmap.
From Stdlib Require Import ZArith Lia.
From Stdlib Require Ascii.
From S2P Require Import Prelude PyBytes Submap TxExpect.
Open Scope Z_scope.

(** * Data *)

Inductive bucket :=
  | BExact | KernelBug | MissingTxWrite | WrongAssociation | StalePreceding | FeeVolTiming
  | BinCoverage | ForkOrder | TriggerDecode | StateMissing | PublicationIncomplete.
#[export] Instance bucket_eq_dec : EqDecision bucket.
Proof. solve_decision. Defined.

Inductive field :=
  | FActiveId | FVolatility | FBinLiquidity | FReserves | FVirtualQuote | FFeeState | FOrdering.
#[export] Instance field_eq_dec : EqDecision field.
Proof. solve_decision. Defined.

Record sdict := SDict {
  sd_base_vault : option Z; sd_reserve_base : option Z;
  sd_quote_vault : option Z; sd_reserve_quote : option Z;
  sd_virtual_reserves : option Z; sd_virtual_quote : option Z;
  sd_active_after : option Z; sd_active_id : option Z;
  sd_vol_acc : option Z; sd_vol_ref : option Z; sd_idx_ref : option Z; sd_last_upd : option Z;
  sd_slot : option Z;
  sd_touched : list (Z * Z * Z);
  sd_bins : gmap Z (Z * Z);
  sd_direction : option Z; sd_amount_in : option Z;
}.

Definition empty_sdict : sdict :=
  SDict None None None None None None None None None None None None None [] ∅ None None.

(** A pool's stage: the keys of [rec.stage]. *)
Record stage := Stage {
  st_rx : option Z; st_slot : option Z; st_wait : option Z; st_sig : option bytes;
  st_reconcile : bool }.

Definition empty_stage : stage := Stage None None None None false.

(** One write collected since the pool was invalidated. *)
Record swrite := SWrite {
  w_pubkey : string; w_role : option role; w_slot : Z; w_wv : Z; w_sig : option string;
  w_dlen : Z }.

(** * Signatures *)

Inductive raw_sig := SigText (s : string) | SigBytes (b : bytes).

Definition boot_sig : bytes := [98; 111; 111; 116].

(** ASCII white space of [str.strip] *)
Definition is_space (c : Ascii.ascii) : bool :=
  let n := Ascii.nat_of_ascii c in
  ((9 <=? n) && (n <=? 13) || (28 <=? n) && (n <=? 32))%nat.

Fixpoint lstrip (s : list Ascii.ascii) : list Ascii.ascii :=
  match s with
  | c :: s' => if is_space c then lstrip s' else s
  | [] => []
  end.

Definition strip (s : list Ascii.ascii) : list Ascii.ascii := reverse (lstrip (reverse (lstrip s))).

Definition lower_char (c : Ascii.ascii) : Ascii.ascii :=
  let n := Ascii.nat_of_ascii c in
  if ((65 <=? n) && (n <=? 90))%nat then Ascii.ascii_of_nat (n + 32) else c.

Definition drop_0x (s : list Ascii.ascii) : list Ascii.ascii :=
  match s with
  | a :: b :: s' =>
      if (Ascii.nat_of_ascii a =? 48)%nat && (Ascii.nat_of_ascii b =? 120)%nat then s' else s
  | _ => s
  end.

Definition nonempty_text (s : list Ascii.ascii) : option string :=
  match s with [] => None | _ => Some (String.string_of_list_ascii s) end.

Definition sig_hex (raw : option raw_sig) : option string :=
  match raw with
  | None => None
  | Some (SigText s) =>
      nonempty_text (lower_char <$> drop_0x (strip (String.list_ascii_of_string s)))
  | Some (SigBytes b) =>
      if bool_decide (b = boot_sig) || bool_decide (b = []) then None else Some (hex b)
  end.

(** * Comparing a prediction with a publication *)

(** [_amt(row, k1, k2)] *)
Definition amt (a b : option Z) : option Z := match a with Some x => Some x | None => b end.

Definition base_amt (r : sdict) := amt (sd_base_vault r) (sd_reserve_base r).
Definition quote_amt (r : sdict) := amt (sd_quote_vault r) (sd_reserve_quote r).
Definition virtual_amt (r : sdict) := amt (sd_virtual_reserves r) (sd_virtual_quote r).

(** [a is not None and b is not None and a != b] *)
Definition both_differ (a b : option Z) : bool :=
  match a, b with Some x, Some y => negb (x =? y) | _, _ => false end.

(** [x or d] on an optional integer: zero is falsy too. *)
Definition or_int (o : option Z) (d : Z) : Z :=
  match o with Some x => if x =? 0 then d else x | None => d end.

Definition opt_eqb (a b : option Z) : bool := bool_decide (a = b).

(** [list(dict.fromkeys(fields))] *)
Definition uniq_fields (fs : list field) : list field :=
  foldl (fun acc f => if bool_decide (f ∈ acc) then acc else acc ++ [f]) [] fs.

Definition compare_pump (s_prime s_pub : sdict) (s_before : option sdict) : list field * bucket :=
  let fields :=
    (if both_differ (base_amt s_prime) (base_amt s_pub) then [FReserves] else []) ++
    (if both_differ (quote_amt s_prime) (quote_amt s_pub) then [FReserves] else []) ++
    (if both_differ (virtual_amt s_prime) (virtual_amt s_pub) then [FVirtualQuote] else []) in
  match fields with
  | [] => ([], BExact)
  | _ =>
      match s_before with
      | Some b => if opt_eqb (base_amt b) (base_amt s_pub) && opt_eqb (quote_amt b) (quote_amt s_pub)
                  then (fields, MissingTxWrite) else (fields, KernelBug)
      | None => (fields, KernelBug)
      end
  end.

Definition differs (want : option Z) (got : Z) : bool :=
  match want with Some x => negb (x =? got) | None => false end.

(** The loop over [touched]: whether a bin is missing, and its fields. *)
Fixpoint touched_loop (bins : gmap Z (Z * Z)) (touched : list (Z * Z * Z)) : bool * list field :=
  match touched with
  | [] => (false, [])
  | (bid, x, y) :: rest =>
      let '(miss, fs) := touched_loop bins rest in
      match bins !! bid with
      | None => (true, FBinLiquidity :: fs)
      | Some xy => (miss, if bool_decide (xy = (x, y)) then fs else FBinLiquidity :: fs)
      end
  end.

Definition NO_ID : Z := - 10 ^ 9.

(** The scalar fields of the DLMM comparison. *)
Definition dlmm_fields (s_prime s_pub : sdict) : list field :=
  (if differs (amt (sd_active_after s_prime) (sd_active_id s_prime)) (or_int (sd_active_id s_pub) NO_ID)
   then [FActiveId] else []) ++
  (if differs (sd_vol_acc s_prime) (default (-1) (sd_vol_acc s_pub)) then [FVolatility] else []) ++
  (if differs (sd_vol_ref s_prime) (default (-1) (sd_vol_ref s_pub)) then [FVolatility] else []) ++
  (if differs (sd_idx_ref s_prime) (or_int (sd_idx_ref s_pub) NO_ID) then [FFeeState] else []) ++
  (if both_differ (sd_last_upd s_prime) (sd_last_upd s_pub) then [FFeeState] else []).

Definition compare_dlmm (s_prime s_pub : sdict) (s_before : option sdict) : list field * bucket :=
  let '(missing_bin, bfs) := touched_loop (sd_bins s_pub) (sd_touched s_prime) in
  let fields := dlmm_fields s_prime s_pub ++ bfs in
  match fields with
  | [] => ([], BExact)
  | _ =>
      if missing_bin then (uniq_fields fields, BinCoverage) else
      if forallb (fun f => bool_decide (f ∈ [FVolatility; FFeeState])) fields
      then (fields, FeeVolTiming) else
      if match s_before with
         | Some b => opt_eqb (sd_active_id b) (sd_active_id s_pub) &&
                     (bool_decide (FActiveId ∈ fields) || bool_decide (FBinLiquidity ∈ fields))
         | None => false
         end
      then (uniq_fields fields, MissingTxWrite)
      else (uniq_fields fields, KernelBug)
  end.

Definition compare_exact (k : kind) (s_prime s_pub : sdict) (s_before : option sdict)
    : list field * bucket :=
  match k with
  | Pump => compare_pump s_prime s_pub s_before
  | Dlmm => compare_dlmm s_prime s_pub s_before
  end.

(** * The gate *)

(** Keys of [self.m], the nested "mismatch" and "bucket" dicts included. *)
Inductive mkey :=
  | PaperIngested | ShadowTotal | ShadowExact | ShadowMismatch | ShadowStateMissing
  | ShadowTriggerDecode | ShadowWrongAssociation | PumpTotal | PumpExact | DlmmTotal | DlmmExact
  | TxExactTotal | TxExactShadowed | TxExactBitexact | TxExactMismatch | FastsoakIngested
  | PublicationMismatch | PredictionMismatch | PredictionBug | PublicationBug
  | MismatchField (f : field) | BucketCount (b : bucket).
#[export] Instance mkey_eq_dec : EqDecision mkey.
Proof. solve_decision. Defined.

Definition metrics : Type := mkey -> nat.
Definition bump (k : mkey) (m : metrics) : metrics := fun k' => if decide (k' = k) then S (m k') else m k'.
Definition bump_all (ks : list mkey) (m : metrics) : metrics := foldl (fun m k => bump k m) m ks.

(** The "n" entry of a record. *)
Record note := Note {
  n_pool_idx : option Z; n_direction : option Z; n_amount_in : option Z }.

Record paper := Paper {
  r_synced : bool;                       (* kind = "opp_synced" *)
  r_sig : option raw_sig; r_s_prime : option sdict; r_n : note;
  r_auth_slot : option Z; r_auth_generation : option Z; r_auth_age : option Z;
  r_fresh_age : option Z; r_tx_exact : option Z; r_ix_exact : option Z;
  r_state_version : option Z; r_pool : option string; r_source : option string }.

Record pend := Pend {
  p_sig : string; p_idx : Z; p_s_prime : sdict; p_n : note; p_auth_slot : option Z;
  p_auth_generation : option Z; p_auth_age : option Z; p_tx_exact : option Z;
  p_ix_exact : option Z; p_state_version : option Z; p_pool : option string; p_raw : paper;
  p_ingest : Z }.

Inductive reason := PendingOverflow | PublishBeforeAuth | BitExactFail | NoAssociatedPublish.
#[export] Instance reason_eq_dec : EqDecision reason.
Proof. solve_decision. Defined.

(** A line of SHADOW.jsonl; [None] as the reason is an exact match. *)
Record logrow := LogRow {
  l_idx : Z; l_kind : option kind; l_bucket : bucket; l_reason : option reason;
  l_sig : string; l_slot : option Z; l_fields : list field }.

Abbreviation pkey := (string * Z)%type.

Record gate := Gate {
  pending : list (pkey * pend);
  by_idx : list (Z * list pkey);
  gm : metrics;
  glog : list logrow;
  explained : bool }.

Definition new_gate (explain_exists : bool) : gate := Gate [] [] (fun _ => O) [] explain_exists.

Definition with_m (g : gate) (m : metrics) : gate :=
  Gate (pending g) (by_idx g) m (glog g) (explained g).

Definition bucket_key (b : bucket) : list mkey :=
  match b with
  | WrongAssociation => [ShadowWrongAssociation]
  | StateMissing => [ShadowStateMissing]
  | StalePreceding => []
  | TriggerDecode => [ShadowTriggerDecode]
  | _ => [ShadowMismatch]
  end.

Definition _emit (g : gate) (b : bucket) (r : reason) (p : pend) (k : option kind)
    (slot : option Z) (fields : list field) : gate :=
  Gate (pending g) (by_idx g) (bump (BucketCount b) (bump_all (bucket_key b) (gm g)))
       (glog g ++ [LogRow (p_idx p) k b (Some r) (p_sig p) slot fields])
       (explained g || negb (bool_decide (b = StateMissing))).

Definition _drop (g : gate) (key : pkey) : gate :=
  match od_get (pending g) key with
  | None => Gate (od_pop (pending g) key) (by_idx g) (gm g) (glog g) (explained g)
  | Some p =>
      let lst := default [] (od_get (by_idx g) (p_idx p)) in
      Gate (od_pop (pending g) key)
           (od_set (by_idx g) (p_idx p) (filter (fun item => item <> key) lst))
           (gm g) (glog g) (explained g)
  end.

Definition PENDING_CAP : nat := 512.

(** [if len(self.pending) > 512] *)
Definition overflow (g : gate) : gate :=
  if (PENDING_CAP <? length (pending g))%nat then
    match pending g with
    | (oldest, stale) :: _ =>
        _drop (_emit g StateMissing PendingOverflow stale None None []) oldest
    | [] => g
    end
  else g.

Definition pend_of (now : Z) (r : paper) (sig : string) (idx : Z) (sp : sdict) : pend :=
  Pend sig idx sp (r_n r) (r_auth_slot r) (r_auth_generation r)
       (match r_auth_age r with Some a => Some a | None => r_fresh_age r end)
       (r_tx_exact r) (r_ix_exact r) (r_state_version r) (r_pool r) r now.

Definition ingest_paper (now : Z) (r : paper) (g : gate) : gate :=
  if negb (r_synced r) then g else
  let g := with_m g (bump PaperIngested (gm g)) in
  match n_pool_idx (r_n r) with
  | None => g
  | Some idx =>
      match r_s_prime r, sig_hex (r_sig r) with
      | Some sp, Some sig =>
          let key := (sig, idx) in
          let m := if bool_decide (r_tx_exact r = Some 1) then bump TxExactTotal (gm g) else gm g in
          overflow (Gate (od_set (pending g) key (pend_of now r sig idx sp))
                         (od_set (by_idx g) idx (default [] (od_get (by_idx g) idx) ++ [key]))
                         m (glog g) (explained g))
      | _, _ => with_m g (bump ShadowTriggerDecode (gm g))
      end
  end.

(** [source or "fastsoak"] *)
Definition direct_row (r : paper) : paper :=
  Paper true (r_sig r) (r_s_prime r) (r_n r) (r_auth_slot r) (r_auth_generation r) (r_auth_age r)
        (r_fresh_age r) (Some 1) (r_ix_exact r) (r_state_version r) (r_pool r)
        (or_str (r_source r) (Some "fastsoak")).

Definition ingest_direct (now : Z) (r : paper) (g : gate) : gate :=
  ingest_paper now (direct_row r) (with_m g (bump FastsoakIngested (gm g))).

Definition publication_plane (b : bucket) : bool :=
  match b with MissingTxWrite | BinCoverage | PublicationIncomplete => true | _ => false end.

(** [self.m] keys bumped by a scored publication. *)
Definition score_keys (k : kind) (tx_exact : option Z) (fields : list field) (b : bucket)
    : list mkey :=
  let tx := bool_decide (tx_exact = Some 1) in
  let pump := bool_decide (k = Pump) in
  [ShadowTotal] ++ (if tx then [TxExactShadowed] else []) ++
  [if pump then PumpTotal else DlmmTotal] ++
  match fields with
  | [] => [ShadowExact] ++ (if tx then [TxExactBitexact] else []) ++
          [if pump then PumpExact else DlmmExact]
  | _ => (MismatchField <$> fields) ++ (if tx then [TxExactMismatch] else []) ++
         (if publication_plane b then [PublicationMismatch; PublicationBug]
          else [PredictionMismatch; PredictionBug])
  end.

Definition score (g : gate) (key : pkey) (p : pend) (k : kind) (s_pub : sdict)
    (s_before : option sdict) : gate :=
  let '(fields, b) := compare_exact k (p_s_prime p) s_pub s_before in
  let g := with_m g (bump_all (score_keys k (p_tx_exact p) fields b) (gm g)) in
  let g := match fields with
           | [] => Gate (pending g) (by_idx g) (gm g)
                     (glog g ++ [LogRow key.2 (Some k) BExact None key.1 (sd_slot s_pub) []])
                     (explained g)
           | _ => _emit g b BitExactFail p (Some k) (sd_slot s_pub) fields
           end in
  _drop g key.

(** [pend.get("tx_exact")], or the record's when that is [None]. *)
Definition pend_tx_exact (p : pend) : option Z :=
  match p_tx_exact p with Some x => Some x | None => r_tx_exact (p_raw p) end.

Definition before_auth (p : pend) (s_pub : sdict) : bool :=
  match p_auth_slot p, sd_slot s_pub with
  | Some auth, Some pub => pub + 64 <? auth
  | _, _ => false
  end.

(** The test [stage.get("wait_slot") and not txn] never holds: [txn] is not empty there. *)
Definition on_publish (idx : Z) (k : kind) (boot : bool) (st : stage) (s_before : option sdict)
    (s_pub : sdict) (g : gate) : gate :=
  match sig_hex (SigBytes <$> st_sig st) with
  | None => g
  | Some txn =>
      if boot || bool_decide (st_sig st = Some boot_sig) then g else
      let key := (txn, idx) in
      match od_get (pending g) key with
      | None => g
      | Some p =>
          if bool_decide (pend_tx_exact p = Some 0) then _drop g key else
          if before_auth p s_pub
          then _drop (_emit g ForkOrder PublishBeforeAuth p (Some k) (sd_slot s_pub) [FOrdering]) key
          else score g key p k s_pub s_before
      end
  end.

Definition MAX_AGE : Z := 32.

Definition expire_one (now : Z) (g : gate) (e : pkey * pend) : gate :=
  if now - p_ingest e.2 <? MAX_AGE then g
  else _drop (_emit g StateMissing NoAssociatedPublish e.2 None None []) e.1.

(** The loop runs over a copy of the pending items. *)
Definition expire_stale (now : Z) (g : gate) : gate := foldl (expire_one now) g (pending g).

(** [reset_connection] clears both indexes. *)
Definition clear_pending (g : gate) : gate := Gate [] [] (gm g) (glog g) (explained g).

(** * Runs of the gate *)

Inductive gop :=
  | GDirect (now : Z) (r : paper)
  | GPaper (now : Z) (r : paper)
  | GPublish (idx : Z) (k : kind) (boot : bool) (st : stage) (s_before : option sdict) (s_pub : sdict)
  | GExpire (now : Z)
  | GClear.

Definition run_gop (g : gate) (o : gop) : gate :=
  match o with
  | GDirect now r => ingest_direct now r g
  | GPaper now r => ingest_paper now r g
  | GPublish idx k boot st sb sp => on_publish idx k boot st sb sp g
  | GExpire now => expire_stale now g
  | GClear => clear_pending g
  end.

(** ** Counters *)

Definition times (k : mkey) (ks : list mkey) : nat := length (filter (fun k' => k' = k) ks).

Lemma bump_spec k m k' : bump k m k' = (m k' + if decide (k' = k) then 1 else 0)%nat.
Proof. unfold bump. case_decide; lia. Qed.

Lemma times_cons k a ks : times k (a :: ks) = ((if decide (k = a) then 1 else 0) + times k ks)%nat.
Proof.
  unfold times. rewrite filter_cons.
  destruct (decide (a = k)), (decide (k = a)); (congruence || done).
Qed.

Lemma times_app k l1 l2 : times k (l1 ++ l2) = (times k l1 + times k l2)%nat.
Proof. unfold times. by rewrite filter_app, length_app. Qed.

Lemma times_mismatch k fs :
  (forall f, k <> MismatchField f) -> times k (MismatchField <$> fs) = O.
Proof.
  intros Hk. induction fs as [|f fs IH]; [done|]. cbn [fmap list_fmap]. rewrite times_cons, IH.
  case_decide; [by destruct (Hk f)|done].
Qed.

Lemma bump_all_spec ks m k : bump_all ks m k = (m k + times k ks)%nat.
Proof.
  revert m. induction ks as [|a ks IH]; intros m; [unfold times; cbn; lia|].
  unfold bump_all in *. cbn [foldl]. rewrite IH, times_cons, bump_spec.
  destruct (decide (k = a)); lia.
Qed.

Record balanced (m : metrics) : Prop := {
  bal_total : m ShadowTotal = (m ShadowExact + m PredictionMismatch + m PublicationMismatch)%nat;
  bal_kind : m ShadowTotal = (m PumpTotal + m DlmmTotal)%nat;
  bal_exact : m ShadowExact = (m PumpExact + m DlmmExact)%nat;
  bal_tx : m TxExactShadowed = (m TxExactBitexact + m TxExactMismatch)%nat }.

(** The counters the balance is about. *)
Definition scored (k : mkey) : bool :=
  match k with
  | ShadowTotal | ShadowExact | PredictionMismatch | PublicationMismatch | PumpTotal | DlmmTotal
  | PumpExact | DlmmExact | TxExactShadowed | TxExactBitexact | TxExactMismatch => true
  | _ => false
  end.

Lemma balanced_same m m' :
  (forall k, scored k = true -> m' k = m k) -> balanced m -> balanced m'.
Proof. intros H []. constructor; rewrite !H by done; done. Qed.

Lemma score_keys_balanced k tx fields b m :
  balanced m -> balanced (bump_all (score_keys k tx fields b) m).
Proof.
  intros [H1 H2 H3 H4]. unfold score_keys.
  constructor; rewrite !bump_all_spec;
    destruct fields as [|f fs];
    destruct k, (bool_decide (tx = Some 1)), (publication_plane b);
    try change (bool_decide (Dlmm = Pump)) with false;
    try change (bool_decide (Pump = Pump)) with true;
    rewrite ?times_app, ?times_mismatch by done;
    rewrite ?times_cons; repeat (case_decide; try congruence);
    unfold times; cbn [filter list_filter length]; lia.
Qed.

(** ** The two indexes *)

Definition listed (g : gate) (key : pkey) : Prop := key ∈ default [] (od_get (by_idx g) key.2).

Record gate_ok (g : gate) : Prop := {
  gk_nodup : NoDup (od_keys (pending g));
  gk_key : forall key p, od_get (pending g) key = Some p -> key = (p_sig p, p_idx p);
  gk_cap : (length (pending g) <= PENDING_CAP)%nat;
  gk_listed : forall key, listed g key <-> key ∈ od_keys (pending g);
  gk_bal : balanced (gm g) }.

Lemma emit_pending g b r p k sl fs :
  pending (_emit g b r p k sl fs) = pending g /\ by_idx (_emit g b r p k sl fs) = by_idx g.
Proof. done. Qed.

Lemma emit_scored g b r p k sl fs key :
  scored key = true -> gm (_emit g b r p k sl fs) key = gm g key.
Proof.
  intros Hs. unfold _emit. cbn [gm]. rewrite bump_spec, bump_all_spec.
  destruct (decide (key = BucketCount b)) as [->|_]; [done|].
  destruct key; try discriminate Hs; destruct b; cbn [bucket_key];
    rewrite ?times_cons; repeat (case_decide; try congruence); unfold times; cbn; lia.
Qed.

(** Dropping a key keeps everything but the key. *)
Lemma drop_ok g key :
  NoDup (od_keys (pending g)) ->
  (forall k p, od_get (pending g) k = Some p -> k = (p_sig p, p_idx p)) ->
  (forall k, listed g k <-> k ∈ od_keys (pending g)) ->
  NoDup (od_keys (pending (_drop g key))) /\
  (forall k p, od_get (pending (_drop g key)) k = Some p -> k <> key /\ od_get (pending g) k = Some p) /\
  (forall k, listed (_drop g key) k <-> k ∈ od_keys (pending (_drop g key))) /\
  gm (_drop g key) = gm g /\ glog (_drop g key) = glog g.
Proof.
  intros Hnd Hk Hl. unfold _drop.
  assert (Hget : forall k p, od_get (od_pop (pending g) key) k = Some p ->
                   k <> key /\ od_get (pending g) k = Some p).
  { intros k p Hp. destruct (decide (k = key)) as [->|Hne].
    - by rewrite od_get_pop_eq in Hp.
    - by rewrite od_get_pop_ne in Hp. }
  assert (Hkeys : forall k, k ∈ od_keys (od_pop (pending g) key) <->
                   k <> key /\ k ∈ od_keys (pending g)).
  { intros k. rewrite !od_key_is_Some. destruct (decide (k = key)) as [->|Hne].
    - rewrite od_get_pop_eq by done. split; [by intros [? ?]|naive_solver].
    - rewrite od_get_pop_ne by done. naive_solver. }
  destruct (od_get (pending g) key) as [p|] eqn:Ep; cbn [pending by_idx gm glog].
  - split; [by apply od_nodup_pop|]. split; [done|]. split; [|done].
    intros k. rewrite Hkeys, <- Hl. unfold listed. cbn [by_idx].
    pose proof (Hk _ _ Ep) as Heq. rewrite od_get_set. case_decide as Hd.
    + rewrite Hd. cbn [default id]. rewrite list_elem_of_filter. done.
    + assert (k <> key) by (intros ->; apply Hd; by rewrite Heq). naive_solver.
  - split; [by apply od_nodup_pop|]. split; [done|]. split; [|done].
    intros k. rewrite Hkeys, <- Hl. unfold listed. cbn [by_idx].
    split; [|by intros [? ?]]. intros Hin. split; [|done]. intros ->.
    apply od_get_None in Ep. by apply Ep, Hl.
Qed.

Lemma drop_gate_ok g key : gate_ok g -> gate_ok (_drop g key).
Proof.
  intros [Hnd Hk Hc Hl Hb]. destruct (drop_ok g key Hnd Hk Hl) as (H1&H2&H3&H4&_).
  constructor; [done| |..].
  - intros k p Hp. apply H2 in Hp as [_ Hp]. by apply Hk.
  - assert (pending (_drop g key) = od_pop (pending g) key) as ->
      by (unfold _drop; by destruct (od_get (pending g) key)).
    pose proof (length_od_pop (pending g) key). lia.
  - done.
  - by rewrite H4.
Qed.

Lemma emit_gate_ok g b r p k sl fs : gate_ok g -> gate_ok (_emit g b r p k sl fs).
Proof.
  intros [Hnd Hk Hc Hl Hb]. constructor; try done.
  eapply balanced_same; [|exact Hb]. intros key. apply emit_scored.
Qed.

Lemma bump_gate_ok g k : scored k = false -> gate_ok g -> gate_ok (with_m g (bump k (gm g))).
Proof.
  intros Hs [Hnd Hk Hc Hl Hb]. constructor; try done. eapply balanced_same; [|exact Hb].
  intros k' Hk'. cbn [with_m gm]. rewrite bump_spec. case_decide; [congruence|lia].
Qed.

Lemma log_gate_ok g l : gate_ok g -> gate_ok (Gate (pending g) (by_idx g) (gm g) l (explained g)).
Proof. intros []. by constructor. Qed.

(** A new prediction enters both indexes. *)
Lemma insert_gate_ok g sig idx p m :
  NoDup (od_keys (pending g)) ->
  (forall key q, od_get (pending g) key = Some q -> key = (p_sig q, p_idx q)) ->
  (forall key, listed g key <-> key ∈ od_keys (pending g)) ->
  p_sig p = sig -> p_idx p = idx ->
  let g' := Gate (od_set (pending g) (sig, idx) p)
              (od_set (by_idx g) idx (default [] (od_get (by_idx g) idx) ++ [(sig, idx)]))
              m (glog g) (explained g) in
  NoDup (od_keys (pending g')) /\
  (forall key q, od_get (pending g') key = Some q -> key = (p_sig q, p_idx q)) /\
  (forall key, listed g' key <-> key ∈ od_keys (pending g')).
Proof.
  intros Hnd Hk Hl Hs Hi g'. cbn [pending g']. split; [by apply od_nodup_set|]. split.
  - intros key q. rewrite od_get_set. case_decide as Hd; [|apply Hk].
    intros [= <-]. by rewrite <- Hd, Hs, Hi.
  - intros key. unfold listed, g'. cbn [by_idx pending].
    rewrite !od_key_is_Some, !od_get_set.
    specialize (Hl key). unfold listed in Hl. rewrite od_key_is_Some in Hl.
    destruct (decide (idx = key.2)) as [Hd|Hd], (decide ((sig, idx) = key)) as [Hd'|Hd'].
    + subst key. cbn [default id]. split; [done|]. intros _. apply elem_of_app. right.
      by apply list_elem_of_singleton.
    + cbn [default id]. rewrite <- Hl, <- Hd. rewrite elem_of_app, list_elem_of_singleton.
      naive_solver.
    + subst key. by destruct Hd.
    + done.
Qed.

Lemma ingest_gate_ok now r g : gate_ok g -> gate_ok (ingest_paper now r g).
Proof.
  intros Hg. unfold ingest_paper. destruct (r_synced r); [|done]. cbn [negb].
  pose proof (bump_gate_ok g PaperIngested eq_refl Hg) as Hg1. set (g1 := with_m g _) in *.
  destruct (n_pool_idx (r_n r)) as [idx|]; [|done].
  destruct (r_s_prime r) as [sp|]; [|by apply bump_gate_ok].
  destruct (sig_hex (r_sig r)) as [sig|]; [|by apply bump_gate_ok].
  destruct Hg1 as [Hnd Hk Hc Hl Hb].
  set (m := if bool_decide _ then _ else _).
  assert (Hm : balanced m).
  { unfold m. case_bool_decide; [|done]. eapply balanced_same; [|exact Hb].
    intros k Hk'. rewrite bump_spec. case_decide; [by subst|lia]. }
  destruct (insert_gate_ok g1 sig idx (pend_of now r sig idx sp) m Hnd Hk Hl eq_refl eq_refl)
    as (H1&H2&H3).
  set (g2 := Gate _ _ _ _ _) in *. unfold overflow.
  assert (Hlen : (length (pending g2) <= S PENDING_CAP)%nat).
  { unfold g2. cbn [pending]. rewrite length_od_set. case_decide; lia. }
  destruct (Nat.ltb_spec PENDING_CAP (length (pending g2))) as [Hover|Hle];
    [|by constructor].
  destruct (pending g2) as [|[oldest stale] rest] eqn:Ep; [cbn in Hover; lia|].
  set (g3 := _emit g2 _ _ _ _ _ _).
  assert (Hp3 : pending g3 = (oldest, stale) :: rest) by (unfold g3, _emit; cbn [pending]; exact Ep).
  destruct (drop_ok g3 oldest) as (D1&D2&D3&D4&_).
  { by rewrite Hp3. }
  { intros k p. rewrite Hp3. apply H2. }
  { intros k. rewrite Hp3. apply H3. }
  constructor; [done| |..].
  - intros k p Hp. apply D2 in Hp as [_ Hp]. rewrite Hp3 in Hp. by apply H2.
  - assert (pending (_drop g3 oldest) = od_pop (pending g3) oldest) as ->
      by (unfold _drop; by destruct (od_get (pending g3) oldest)).
    rewrite Hp3. cbn [od_pop]. rewrite decide_True by done. cbn [length] in *. lia.
  - done.
  - rewrite D4. eapply balanced_same; [|exact Hm]. intros k Hk'.
    unfold g3. by rewrite emit_scored.
Qed.

Lemma score_gate_ok g key p k s_pub sb : gate_ok g -> gate_ok (score g key p k s_pub sb).
Proof.
  intros Hg. unfold score. destruct (compare_exact _ _ _ _) as [fields b].
  apply drop_gate_ok. set (g1 := with_m g _).
  assert (Hg1 : gate_ok g1).
  { destruct Hg as [Hnd Hk Hc Hl Hb]. constructor; try done. by apply score_keys_balanced. }
  destruct fields; [by apply log_gate_ok|by apply emit_gate_ok].
Qed.

Lemma empty_gate_ok m l e : balanced m -> gate_ok (Gate [] [] m l e).
Proof.
  intros Hb. constructor; cbn [pending gm]; [apply NoDup_nil_2|done|cbn; lia| |done].
  intros key. unfold listed. cbn. done.
Qed.

Lemma run_gop_ok g o : gate_ok g -> gate_ok (run_gop g o).
Proof.
  intros Hg. destruct o as [now r|now r|idx k boot st sb sp|now|]; cbn [run_gop].
  - apply ingest_gate_ok. by apply bump_gate_ok.
  - by apply ingest_gate_ok.
  - unfold on_publish. destruct (sig_hex _) as [txn|]; [|done]. destruct (_ || _); [done|].
    destruct (od_get _ _) as [p|]; [|done].
    case_bool_decide; [by apply drop_gate_ok|].
    destruct (before_auth p sp); [by apply drop_gate_ok, emit_gate_ok|by apply score_gate_ok].
  - unfold expire_stale. generalize (pending g). intros l. revert g Hg.
    induction l as [|e l IH]; intros g Hg; [done|]. cbn [foldl]. apply IH.
    unfold expire_one. destruct (_ <? _); [done|]. by apply drop_gate_ok, emit_gate_ok.
  - destruct Hg as [_ _ _ _ Hb]. by apply empty_gate_ok.
Qed.

(** [greach h g]: the gate [g] after the operations [h], newest first. *)
Inductive greach (e : bool) : list gop -> gate -> Prop :=
  | greach_new : greach e [] (new_gate e)
  | greach_op h g o : greach e h g -> greach e (o :: h) (run_gop g o).

Lemma greach_ok e h g : greach e h g -> gate_ok g.
Proof.
  induction 1 as [|h g o _ IH]; [by apply empty_gate_ok|by apply run_gop_ok].
Qed.

(** Every scored publication is counted once on each axis: after any
    sequence of ingestions, publications, expiries and clears, the total is the exact ones plus
    the prediction and publication mismatches, it splits into Pump and DLMM, exact and
    transaction-exact counts split the same way; the waiting predictions have distinct keys, at
    most 512, and the per-pool index lists exactly them. *)
Theorem gate_accounts_balance e h g :
  greach e h g ->
  let m := gm g in
  m ShadowTotal = (m ShadowExact + m PredictionMismatch + m PublicationMismatch)%nat /\
  m ShadowTotal = (m PumpTotal + m DlmmTotal)%nat /\
  m ShadowExact = (m PumpExact + m DlmmExact)%nat /\
  m TxExactShadowed = (m TxExactBitexact + m TxExactMismatch)%nat /\
  NoDup (od_keys (pending g)) /\ (length (pending g) <= 512)%nat /\
  forall key, key ∈ od_keys (pending g) <-> key ∈ default [] (od_get (by_idx g) key.2).
Proof.
  intros H. apply greach_ok in H as [Hnd Hk Hc Hl [H1 H2 H3 H4]]. cbv zeta.
  repeat (split; [done|]). intros key. symmetry. apply Hl.
Qed.

Definition demo_sprime : sdict :=
  SDict (Some 10) None (Some 20) None None None None None None None None None None [] ∅
        (Some 1) (Some 5).
Definition demo_paper : paper :=
  Paper true (Some (SigText " 0xABcd")) (Some demo_sprime) (Note (Some 3) (Some 1) (Some 5))
        (Some 7) None None None None None None None None.

Lemma gate_accounts_balance_witness :
  let g := run_gop (new_gate false) (GDirect 5 demo_paper) in
  gm g ShadowTotal = (gm g ShadowExact + gm g PredictionMismatch + gm g PublicationMismatch)%nat /\
  NoDup (od_keys (pending g)) /\ length (pending g) = 1%nat.
Proof.
  destruct (gate_accounts_balance false [GDirect 5 demo_paper] _
              (greach_op false [] (new_gate false) (GDirect 5 demo_paper) (greach_new false)))
    as (H&_&_&_&Hnd&_).
  split; [exact H|]. split; [exact Hnd|reflexivity].
Defined.

(** ** Where a score comes from *)

(** An ingested record that predicts [sp] for the pair. *)
Definition predicts (h : list gop) (sig : string) (idx : Z) (sp : sdict) : Prop :=
  exists now r, (GDirect now r ∈ h \/ (GPaper now r ∈ h /\ r_synced r = true)) /\
    r_s_prime r = Some sp /\ sig_hex (r_sig r) = Some sig /\ n_pool_idx (r_n r) = Some idx.

Lemma predicts_mono h o sig idx sp : predicts h sig idx sp -> predicts (o :: h) sig idx sp.
Proof.
  intros (now&r&H&Hr). exists now, r. split; [|done]. rewrite !elem_of_cons. tauto.
Qed.

Lemma drop_get g k key p :
  od_get (pending (_drop g k)) key = Some p -> NoDup (od_keys (pending g)) ->
  od_get (pending g) key = Some p.
Proof.
  intros H Hnd.
  assert (pending (_drop g k) = od_pop (pending g) k) as Hp
    by (unfold _drop; by destruct (od_get (pending g) k)).
  rewrite Hp in H. by apply od_get_pop_Some in H as [_ H].
Qed.

(** What is waiting after an ingestion was waiting before, or is the ingested prediction. *)
Lemma ingest_get now r g key p :
  gate_ok g -> od_get (pending (ingest_paper now r g)) key = Some p ->
  od_get (pending g) key = Some p \/
  (r_synced r = true /\ r_s_prime r = Some (p_s_prime p) /\ sig_hex (r_sig r) = Some key.1 /\
   n_pool_idx (r_n r) = Some key.2).
Proof.
  intros Hg. unfold ingest_paper. destruct (r_synced r); [|by left]. cbn [negb].
  destruct (n_pool_idx (r_n r)) as [idx|]; [|by left].
  destruct (r_s_prime r) as [sp|]; [|by left]. destruct (sig_hex (r_sig r)) as [sig|]; [|by left].
  set (g2 := Gate _ _ _ _ _).
  assert (Hg2 : od_get (pending g2) key = Some p ->
    od_get (pending g) key = Some p \/
    (true = true /\ Some sp = Some (p_s_prime p) /\ Some sig = Some key.1 /\ Some idx = Some key.2)).
  { unfold g2. cbn [pending with_m]. rewrite od_get_set. case_decide as Hd; [|by left].
    intros [= <-]. right. by subst key. }
  assert (Hnd : NoDup (od_keys (pending g2))).
  { unfold g2. cbn [pending with_m]. apply od_nodup_set, Hg. }
  unfold overflow. destruct (_ <? _)%nat; [|done].
  destruct (pending g2) as [|[oldest stale] rest] eqn:Ep; [by rewrite Ep|].
  intros H. apply Hg2. rewrite <- Ep in *.
  apply drop_get in H; [done|]. by cbn [_emit pending].
Qed.

Lemma run_gop_get g o key p :
  gate_ok g -> od_get (pending (run_gop g o)) key = Some p ->
  od_get (pending g) key = Some p \/ predicts [o] key.1 key.2 (p_s_prime p).
Proof.
  intros Hg. destruct o as [now r|now r|idx k boot st sb sp|now|]; cbn [run_gop].
  - intros H. apply ingest_get in H as [H|(Hs&Hp&Hsig&Hi)]; [by left| |by apply bump_gate_ok].
    right. exists now, r. split; [left; by left|]. done.
  - intros H. apply ingest_get in H as [H|(Hs&Hp&Hsig&Hi)]; [by left| |done].
    right. exists now, r. split; [right; split; [by left|done]|]. done.
  - intros H. left. revert H. unfold on_publish.
    destruct (sig_hex _) as [txn|]; [|done]. destruct (_ || _); [done|].
    destruct (od_get (pending g) (txn, idx)) as [q|]; [|done].
    pose proof (gk_nodup _ Hg) as Hnd.
    case_bool_decide; [intros H'; by apply drop_get in H'|].
    destruct (before_auth q sp); [intros H'; by apply drop_get in H'|].
    unfold score. destruct (compare_exact _ _ _ _) as [[|f fs] b];
      intros H'; by apply drop_get in H'.
  - intros H. left. revert H. unfold expire_stale. generalize (pending g) at 1. intros l.
    revert g Hg. induction l as [|e l IH]; intros g Hg; [done|]. cbn [foldl]. intros H.
    apply IH in H.
    + unfold expire_one in H. destruct (_ <? _); [done|]. apply drop_get in H; [done|]. apply Hg.
    + unfold expire_one. destruct (_ <? _); [done|]. by apply drop_gate_ok, emit_gate_ok.
  - done.
Qed.

Lemma pending_predicted e h g key p :
  greach e h g -> od_get (pending g) key = Some p -> predicts h key.1 key.2 (p_s_prime p).
Proof.
  induction 1 as [|h g o Hr IH]; [done|]. intros H. pose proof (greach_ok _ _ _ Hr) as Hg.
  apply run_gop_get in H as [H|(now&r&H&Hp)]; [|..|done].
  - by apply predicts_mono, IH.
  - exists now, r. split; [|done]. rewrite !elem_of_cons. rewrite !list_elem_of_singleton in H. tauto.
Qed.

(** The count of exact publications after one. *)
Lemma on_publish_exact_count idx k boot st sb sp g :
  gm (on_publish idx k boot st sb sp g) ShadowExact = gm g ShadowExact \/
  exists txn p, sig_hex (SigBytes <$> st_sig st) = Some txn /\ boot = false /\
    od_get (pending g) (txn, idx) = Some p /\ pend_tx_exact p <> Some 0 /\
    before_auth p sp = false /\ fst (compare_exact k (p_s_prime p) sp sb) = [] /\
    gm (on_publish idx k boot st sb sp g) ShadowExact = S (gm g ShadowExact).
Proof.
  assert (Hd : forall g key, gm (_drop g key) = gm g)
    by (intros g' key; unfold _drop; by destruct (od_get _ _)).
  unfold on_publish. destruct (sig_hex _) as [txn|]; [|by left].
  destruct boot; [by left|]. cbn [orb]. case_bool_decide; [by left|].
  destruct (od_get _ _) as [p|] eqn:Ep; [|by left].
  case_bool_decide as Ht; [left; by rewrite Hd|].
  destruct (before_auth p sp) eqn:Eb; [left; rewrite Hd; by apply emit_scored|].
  unfold score. destruct (compare_exact _ _ _ _) as [fields b] eqn:Ec.
  rewrite Hd. destruct fields as [|f fs].
  - right. exists txn, p. repeat (split; [done|]). rewrite Ec. split; [done|].
    cbn [gm with_m]. rewrite bump_all_spec. unfold score_keys.
    destruct (bool_decide _), (bool_decide _); rewrite ?times_app, ?times_cons;
      repeat (case_decide; try congruence); unfold times; cbn; lia.
  - left. rewrite emit_scored by done. cbn [gm with_m]. rewrite bump_all_spec. unfold score_keys.
    destruct (bool_decide _), (bool_decide _), (publication_plane b);
      rewrite ?times_app, ?times_mismatch by done; rewrite ?times_cons;
      repeat (case_decide; try congruence); unfold times; cbn; lia.
Qed.

(** A publication is counted exact only for its own prediction: if the
    exact count grows at a publication, an earlier ingested record carries the transaction of
    the pool's stage and the pool, the publication is not a bootstrap one, and the predicted
    state agrees with the published one on every compared field. *)
Theorem exact_was_predicted e h g idx k boot st sb sp :
  greach e h g ->
  gm (on_publish idx k boot st sb sp g) ShadowExact <> gm g ShadowExact ->
  exists txn sprime, sig_hex (SigBytes <$> st_sig st) = Some txn /\ boot = false /\
    predicts h txn idx sprime /\ fst (compare_exact k sprime sp sb) = [] /\
    gm (on_publish idx k boot st sb sp g) ShadowExact = S (gm g ShadowExact).
Proof.
  intros Hr Hne.
  destruct (on_publish_exact_count idx k boot st sb sp g) as [H|(txn&p&H1&H2&H3&_&_&H4&H5)]; [done|].
  exists txn, (p_s_prime p). repeat (split; [done|]). split; [|done].
  exact (pending_predicted e h g (txn, idx) p Hr H3).
Qed.

Definition demo_stage : stage := Stage (Some 1) (Some 7) None (Some [171; 205]) false.
Definition demo_pub_pump : sdict :=
  SDict (Some 10) (Some 10) (Some 20) (Some 20) (Some 0) (Some 0) None None None None None None
        (Some 7) [] ∅ None None.

Lemma exact_was_predicted_witness :
  let g := run_gop (new_gate false) (GDirect 5 demo_paper) in
  exists txn sprime, sig_hex (SigBytes <$> st_sig demo_stage) = Some txn /\
    predicts [GDirect 5 demo_paper] txn 3 sprime /\
    fst (compare_exact Pump sprime demo_pub_pump None) = [].
Proof.
  destruct (exact_was_predicted false [GDirect 5 demo_paper] _ 3 Pump false demo_stage None
              demo_pub_pump
              (greach_op false [] (new_gate false) (GDirect 5 demo_paper) (greach_new false)))
    as (txn&sp&H1&_&H2&H3&_); [vm_compute; discriminate|].
  exists txn, sp. split; [exact H1|]. split; [exact H2|exact H3].
Defined.

(** ** What agreement means *)

(** Both sides give a value only if it is the same. *)
Definition agree (a b : option Z) : Prop := forall x y, a = Some x -> b = Some y -> x = y.

Lemma both_differ_false a b : both_differ a b = false <-> agree a b.
Proof.
  unfold agree, both_differ. destruct a as [x|], b as [y|]; try (split; [done|by intros]).
  - destruct (Z.eqb_spec x y); split; naive_solver.
Qed.

(** The predicted value, where there is one, is the published one. *)
Definition met (want : option Z) (got : Z) : Prop := forall x, want = Some x -> x = got.

Lemma differs_false w g : differs w g = false <-> met w g.
Proof.
  unfold differs, met. destruct w as [x|]; [|by split].
  destruct (Z.eqb_spec x g); split; naive_solver.
Qed.

Lemma if_nil {A} (b : bool) (x : A) : (if b then [x] else []) = [] <-> b = false.
Proof. by destruct b. Qed.

Lemma touched_loop_nil bins ts :
  snd (touched_loop bins ts) = [] <->
  Forall (fun t => bins !! t.1.1 = Some (t.1.2, t.2)) ts.
Proof.
  induction ts as [|[[bid x] y] ts IH]; cbn [touched_loop]; [done|].
  rewrite Forall_cons. cbn [fst snd]. destruct (touched_loop bins ts) as [miss fs].
  cbn [snd] in IH. destruct (bins !! bid) as [xy|]; cbn [snd].
  - case_bool_decide as Hxy; [rewrite IH; naive_solver|]. split; [done|]. naive_solver.
  - split; [done|]. by intros [? _].
Qed.

Lemma uniq_fields_nil fs : uniq_fields fs = [] -> fs = [].
Proof.
  destruct fs as [|f fs]; [done|]. unfold uniq_fields. cbn [foldl].
  assert (H : forall (l acc : list field), acc <> [] ->
    foldl (fun (acc : list field) (f : field) => if bool_decide (f ∈ acc) then acc else acc ++ [f]) acc l <> []).
  { induction l as [|a l IH]; intros acc Ha; [done|]. cbn [foldl]. apply IH.
    case_bool_decide; [done|]. by destruct acc. }
  case_bool_decide as Hf; [by apply elem_of_nil in Hf|]. intros Hn. by apply H in Hn.
Qed.

Lemma compare_exact_nil k s_prime s_pub s_before :
  fst (compare_exact k s_prime s_pub s_before) = [] <->
  match k with
  | Pump => agree (base_amt s_prime) (base_amt s_pub) /\
            agree (quote_amt s_prime) (quote_amt s_pub) /\
            agree (virtual_amt s_prime) (virtual_amt s_pub)
  | Dlmm =>
      met (amt (sd_active_after s_prime) (sd_active_id s_prime)) (or_int (sd_active_id s_pub) NO_ID) /\
      met (sd_vol_acc s_prime) (default (-1) (sd_vol_acc s_pub)) /\
      met (sd_vol_ref s_prime) (default (-1) (sd_vol_ref s_pub)) /\
      met (sd_idx_ref s_prime) (or_int (sd_idx_ref s_pub) NO_ID) /\
      agree (sd_last_upd s_prime) (sd_last_upd s_pub) /\
      Forall (fun t => sd_bins s_pub !! t.1.1 = Some (t.1.2, t.2)) (sd_touched s_prime)
  end.
Proof.
  destruct k; cbn [compare_exact].
  - unfold compare_dlmm. pose proof (touched_loop_nil (sd_bins s_pub) (sd_touched s_prime)) as Ht.
    destruct (touched_loop _ _) as [miss bfs]. cbn [snd] in Ht. rewrite <- Ht.
    transitivity (dlmm_fields s_prime s_pub ++ bfs = []).
    + destruct (_ ++ bfs) as [|f fs] eqn:E; [done|]. split; [|done].
      destruct miss; cbn [fst]; [by intros H%uniq_fields_nil|].
      destruct (forallb _ _); cbn [fst]; [done|].
      by destruct (match s_before with Some _ => _ | None => _ end); cbn [fst];
        intros H%uniq_fields_nil.
    + unfold dlmm_fields. rewrite !app_nil, !if_nil, !differs_false, both_differ_false. tauto.
  - unfold compare_pump. rewrite <- !both_differ_false.
    destruct (both_differ (base_amt s_prime) _), (both_differ (quote_amt s_prime) _),
      (both_differ (virtual_amt s_prime) _); cbn [app fst];
      (split; [|by intros (?&?&?)]); try done;
      destruct s_before; [destruct (_ && _)| | destruct (_ && _)| | destruct (_ && _)| |
        destruct (_ && _)| | destruct (_ && _)| | destruct (_ && _)| | destruct (_ && _)|]; done.
Qed.

(** A comparison is exact exactly when nothing predicted is contradicted:
    for Pump each of the two vaults and the virtual reserve agree where both sides give one; for
    DLMM the predicted active id, volatility pair, index reference and update time match the
    published values (with the code's stand-ins for missing ones) and every touched bin is
    published with the predicted amounts. *)
Theorem compare_exact_spec k s_prime s_pub s_before :
  fst (compare_exact k s_prime s_pub s_before) = [] <->
  match k with
  | Pump => agree (base_amt s_prime) (base_amt s_pub) /\
            agree (quote_amt s_prime) (quote_amt s_pub) /\
            agree (virtual_amt s_prime) (virtual_amt s_pub)
  | Dlmm =>
      met (amt (sd_active_after s_prime) (sd_active_id s_prime)) (or_int (sd_active_id s_pub) NO_ID) /\
      met (sd_vol_acc s_prime) (default (-1) (sd_vol_acc s_pub)) /\
      met (sd_vol_ref s_prime) (default (-1) (sd_vol_ref s_pub)) /\
      met (sd_idx_ref s_prime) (or_int (sd_idx_ref s_pub) NO_ID) /\
      agree (sd_last_upd s_prime) (sd_last_upd s_pub) /\
      Forall (fun t => sd_bins s_pub !! t.1.1 = Some (t.1.2, t.2)) (sd_touched s_prime)
  end.
Proof. apply compare_exact_nil. Qed.

(** A pool whose active bin is bin 0 can never score exact: the
    published id 0 counts as missing, so even a prediction equal to the publication on every
    key is reported as an active-id mismatch; the same holds for the index reference. *)
Theorem active_zero_never_exact s_prime s_pub s_before :
  (amt (sd_active_after s_prime) (sd_active_id s_prime) = Some 0 /\ sd_active_id s_pub = Some 0) \/
  (sd_idx_ref s_prime = Some 0 /\ sd_idx_ref s_pub = Some 0) ->
  fst (compare_exact Dlmm s_prime s_pub s_before) <> [].
Proof.
  intros H Hc. apply compare_exact_nil in Hc as (Ha&_&_&Hi&_).
  destruct H as [[H1 H2]|[H1 H2]].
  - rewrite H2 in Ha. specialize (Ha 0 H1). discriminate Ha.
  - rewrite H2 in Hi. specialize (Hi 0 H1). discriminate Hi.
Qed.

Definition demo_zero : sdict :=
  SDict None None None None None None None (Some 0) (Some 1) (Some 2) (Some 0) (Some 3) (Some 7)
        [] ∅ None None.

Lemma active_zero_never_exact_witness :
  fst (compare_exact Dlmm demo_zero demo_zero None) <> [].
Proof. apply (active_zero_never_exact demo_zero demo_zero None). left. split; reflexivity. Defined.
