(* ===== verification/Deps.v ===== *)
(** The pricing-dependency set of one universe generation: arb-state/shyft/deps.py, with the
    batched account read it makes (get_multiple of arb-cap/record_dlmm.py).  The JSON-RPC call
    itself is a parameter: what the node answers to one getMultipleAccounts request. *)
From stdpp Require Import base list strings.
From Stdlib Require Import ZArith Lia.
From S2P Require Import Prelude PyBytes Base58 Pda Submap Accounts.
Open Scope Z_scope.
Open Scope py_scope.

(** * Data *)

(** One entry of the response's "value", its base64 payload decoded. *)
Record rpc_account := RpcAccount { ra_owner : string; ra_data : bytes; ra_lamports : Z }.

(** The context slot and the values. *)
Record rpc_reply := RpcReply { rr_slot : Z; rr_value : list (option rpc_account) }.

Record rpc_config := RpcConfig { rc_commitment : option string; rc_min_slot : option Z }.

(** A row of [get_multiple]. *)
Record rpc_row := RpcRow {
  rw_slot : Z; rw_commitment : option string; rw_owner : string; rw_data : bytes;
  rw_lamports : Z }.

Record pool_meta := PoolMeta {
  me_idx : Z; me_kind : option kind; me_pubkey : option string; me_active : option Z;
  me_vault_base : option string; me_vault_quote : option string }.

Record derived := Derived {
  dv_required : list (string * role); dv_optional : list (string * role); dv_meta : pool_meta }.

(** A row of "pools" in the generation. *)
Record gen_row := GenRow {
  g_idx : Z; g_kind : kind; g_pubkey : option string; g_required : list (string * role);
  g_optional : list (string * role); g_n_required : nat; g_active : option Z;
  g_vault_base : option string; g_vault_quote : option string }.

Record generation := Generation {
  gn_accounts : acc_map; gn_pools : list gen_row; gn_required : nat; gn_univ_n : Z }.

Record universe := Universe { un_pools : list univ_pool; un_n : option Z }.

#[export] Instance pair_role_eq_dec : EqDecision (string * role).
Proof. apply _. Defined.

(** * Reading accounts *)

(** [l[i:i+n]] for [i] in [range(0, len(l), n)] *)
Fixpoint chunks {A} (fuel n : nat) (l : list A) : list (list A) :=
  match fuel, l with
  | O, _ | _, [] => []
  | S fuel', _ => take n l :: chunks fuel' n (drop n l)
  end.

(** [list(dict.fromkeys(keys))] *)
Definition fromkeys (keys : list string) : list string :=
  foldl (fun acc k => if bool_decide (k ∈ acc) then acc else acc ++ [k]) [] keys.

Section rpc.
Context (rpc : list string -> rpc_config -> pyres rpc_reply).

Definition row_of (slot : Z) (commitment : option string) (acc : option rpc_account)
    : option rpc_row :=
  match acc with
  | None => None
  | Some a => Some (RpcRow slot commitment (ra_owner a) (ra_data a) (ra_lamports a))
  end.

(** One pass of get_multiple's loop. *)
Definition get_chunk (config : rpc_config) (chunk : list string) : pyres (list (option rpc_row)) :=
  res <-! rpc chunk config ;;
  if match rc_min_slot config with Some m => rr_slot res <? m | None => false end
  then Raise (RuntimeError "RPC context below requested minimum") else
  if negb (length (rr_value res) =? length chunk)%nat
  then Raise (RuntimeError "RPC account count mismatch") else
  Ret (row_of (rr_slot res) (rc_commitment config) <$> rr_value res).

Fixpoint get_chunks (config : rpc_config) (cs : list (list string))
    : pyres (list (option rpc_row)) :=
  match cs with
  | [] => Ret []
  | c :: cs' =>
      rows <-! get_chunk config c ;;
      rest <-! get_chunks config cs' ;;
      Ret (rows ++ rest)
  end.

Definition known_commitment (c : option string) : bool :=
  match c with
  | None => true
  | Some s => String.eqb s "processed" || String.eqb s "confirmed" || String.eqb s "finalized"
  end.

Definition get_multiple (keys : list string) (commitment : option string) (min_slot : option Z)
    : pyres (list (option rpc_row)) :=
  if negb (known_commitment commitment) then Raise (ValueError "invalid commitment") else
  if match min_slot with Some m => m <? 0 | None => false end
  then Raise (ValueError "invalid min_context_slot") else
  get_chunks (RpcConfig commitment min_slot) (chunks (length keys) 100 keys).

(** [if row and row.get("data"): out[pk] = row] *)
Definition keep_row (out : list (string * rpc_row)) (kr : string * option rpc_row)
    : list (string * rpc_row) :=
  match kr.2 with
  | Some row => if bool_decide (rw_data row = []) then out else od_set out kr.1 row
  | None => out
  end.

Fixpoint chunk_rows (commitment : option string) (min_slot : option Z) (cs : list (list string))
    (out : list (string * rpc_row)) : pyres (list (string * rpc_row)) :=
  match cs with
  | [] => Ret out
  | c :: cs' =>
      rows <-! get_multiple c commitment min_slot ;;
      chunk_rows commitment min_slot cs' (foldl keep_row out (zip c rows))
  end.

Definition _chunk_get (keys : list string) (commitment : option string) (min_slot : option Z)
    : pyres (list (string * rpc_row)) :=
  let uniq := filter (fun k => k <> ""%string) (fromkeys keys) in
  chunk_rows commitment min_slot (chunks (length uniq) 80 uniq) [].

(** * Dependencies *)

Definition pump_global : pyres string :=
  prog <-! b58decode PUMP ;;
  raw <-! find_pda [ascii_bytes "global_config"] prog ;;
  Ret (b58encode raw).

Definition dlmm_oracle (pair : string) : pyres string :=
  pk <-! b58decode pair ;;
  prog <-! b58decode DLMM ;;
  raw <-! find_pda [ascii_bytes "oracle"; pk] prog ;;
  Ret (b58encode raw).

Definition bin_rows (pair : string) (active : Z) : pyres (list (string * role)) :=
  bins <-! bin_keys_for_active pair active ;;
  Ret ((fun b => (b, ROLE_DLMM_BIN)) <$> bins).

Definition bare_meta (p : univ_pool) : pool_meta :=
  PoolMeta (idx_of p) (kind_of p) (or_str (u_pubkey p) (u_pk p)) None None None.

(** [fetched[pk]["data"]] when the pool was fetched; an empty payload counts as none. *)
Definition fetched_raw (fetched : list (string * rpc_row)) (pk : string) : option bytes :=
  match od_get fetched pk with
  | Some row => if bool_decide (rw_data row = []) then None else Some (rw_data row)
  | None => None
  end.

Definition with_active (m : pool_meta) (a : Z) : pool_meta :=
  PoolMeta (me_idx m) (me_kind m) (me_pubkey m) (Some a) (me_vault_base m) (me_vault_quote m).

Definition derive_dlmm (p : univ_pool) (pk : string) (raw : option bytes) : pyres derived :=
  let pair := (pk, ROLE_DLMM_PAIR) in
  match raw with
  | Some data =>
      match parse_lbpair data with
      | Raise _ => Ret (Derived [pair] [] (bare_meta p))
      | Ret lb =>
          bins <-! bin_rows pk (active_id lb) ;;
          oracle <-! dlmm_oracle pk ;;
          Ret (Derived (pair :: bins)
                 [(oracle, ROLE_DLMM_ORACLE); (b58encode (token_x lb), ROLE_MINT);
                  (b58encode (token_y lb), ROLE_MINT)]
                 (with_active (bare_meta p) (active_id lb)))
      end
  | None =>
      match u_active p with
      | None => Ret (Derived [pair] [] (bare_meta p))
      | Some a =>
          bins <-! bin_rows pk a ;;
          Ret (Derived (pair :: bins) [] (with_active (bare_meta p) a))
      end
  end.

Definition derive_pump (p : univ_pool) (pk : string) (raw : option bytes) : pyres derived :=
  glob <-! pump_global ;;
  let base := [(pk, ROLE_PUMP_POOL); (glob, ROLE_PUMP_GLOBAL);
               (FEE_CONFIG_PK, ROLE_PUMP_FEE_CONFIG)] in
  let parsed := match raw with Some data => parse_pump_pool data | None => None end in
  let vb := or_str ((fun q => b58encode (pp_vault_base q)) <$> parsed)
                   (or_str (u_vault_base p) (u_vault_x p)) in
  let vq := or_str ((fun q => b58encode (pp_vault_quote q)) <$> parsed)
                   (or_str (u_vault_quote p) (u_vault_y p)) in
  let mint := match parsed with Some q => [(b58encode (pp_base q), ROLE_MINT)] | None => [] end in
  let opt := match parsed with Some q => [(b58encode (pp_quote q), ROLE_MINT)] | None => [] end in
  Ret (Derived (base ++ mint ++ opt_row vb ROLE_PUMP_VAULT_BASE ++ opt_row vq ROLE_PUMP_VAULT_QUOTE)
         opt
         (PoolMeta (idx_of p) (kind_of p) (or_str (u_pubkey p) (u_pk p)) None
            (long_key vb) (long_key vq))).

Definition derive_pool (p : univ_pool) (fetched : list (string * rpc_row)) : pyres derived :=
  match nonempty (or_str (u_pubkey p) (u_pk p)), kind_of p with
  | Some pk, Some k =>
      if idx_of p <? 0 then Ret (Derived [] [] (bare_meta p)) else
      match k with
      | Dlmm => derive_dlmm p pk (fetched_raw fetched pk)
      | Pump => derive_pump p pk (fetched_raw fetched pk)
      end
  | _, _ => Ret (Derived [] [] (bare_meta p))
  end.

(** The dependency rows one pool adds. *)
Definition pool_deps (idx : Z) (k : kind) (d : derived) : list (string * dep_row) :=
  (fun kr => (kr.1, DepRow idx kr.2 k (bool_decide (kr ∈ dv_required d))))
    <$> (dv_required d ++ dv_optional d).

Definition gen_row_of (k : kind) (d : derived) : gen_row :=
  GenRow (me_idx (dv_meta d)) k (me_pubkey (dv_meta d)) (dv_required d) (dv_optional d)
         (length (dv_required d)) (me_active (dv_meta d)) (me_vault_base (dv_meta d))
         (me_vault_quote (dv_meta d)).

Fixpoint derive_rows (fetched : list (string * rpc_row)) (pools : list univ_pool)
    (accounts : acc_map) (rows : list gen_row) (n : nat) : pyres (acc_map * list gen_row * nat) :=
  match pools with
  | [] => Ret (accounts, rows, n)
  | p :: ps =>
      match kind_of p with
      | None => derive_rows fetched ps accounts rows n
      | Some k =>
          d <-! derive_pool p fetched ;;
          derive_rows fetched ps (push_deps accounts (pool_deps (me_idx (dv_meta d)) k d))
            (rows ++ [gen_row_of k d]) (n + length (dv_required d))
      end
  end.

(** [p.get("pubkey") or p.get("pk")], the empty ones left out. *)
Definition pool_pk (p : univ_pool) : option string := nonempty (or_str (u_pubkey p) (u_pk p)).

Definition tracked (univ : universe) : list univ_pool :=
  filter (fun p => is_Some (kind_of p)) (un_pools univ).

Definition derive_generation (univ : universe) : pyres generation :=
  fetched <-! _chunk_get (omap pool_pk (tracked univ)) None None ;;
  out <-! derive_rows fetched (tracked univ) [] [] 0 ;;
  let n := match un_n univ with Some n => if n =? 0 then None else Some n | None => None end in
  Ret (Generation out.1.1 out.1.2 out.2
         (default (Z.of_nat (length (tracked univ))) n)).

End rpc.

(** * Batches *)

Lemma concat_chunks {A} fuel n (l : list A) :
  (0 < n)%nat -> (length l <= fuel)%nat ->
  concat (chunks fuel n l) = l /\ Forall (fun c => c <> [] /\ (length c <= n)%nat) (chunks fuel n l).
Proof.
  intros Hn. revert l. induction fuel as [|fuel IH]; intros l Hl.
  { by destruct l; [|cbn in Hl; lia]. }
  destruct l as [|x l]; [done|]. cbn [chunks concat].
  destruct (IH (drop n (x :: l))) as [IH1 IH2]; [rewrite length_drop; cbn in *; lia|].
  rewrite IH1, take_drop. split; [done|]. constructor; [|done]. split.
  - destruct n; [lia|done].
  - rewrite length_take. lia.
Qed.

Lemma elem_of_fromkeys keys : forall k, k ∈ fromkeys keys <-> k ∈ keys.
Proof.
  unfold fromkeys.
  assert (H : forall l acc k, k ∈ foldl (fun (acc : list string) (k : string) =>
    if bool_decide (k ∈ acc) then acc else acc ++ [k]) acc l <-> k ∈ acc \/ k ∈ l).
  { induction l as [|a l IH]; intros acc k; cbn [foldl].
    - split; [by left|]. intros [|H]; [done|by apply elem_of_nil in H].
    - rewrite IH, elem_of_cons. case_bool_decide as Ha.
      + naive_solver.
      + rewrite elem_of_app, list_elem_of_singleton. tauto. }
  intros k. rewrite H. split; [|by right]. intros [Hk|]; [by apply elem_of_nil in Hk|done].
Qed.

Section rpc_facts.
Context (rpc : list string -> rpc_config -> pyres rpc_reply).

(** What get_multiple promises of a row. *)
Definition row_good (commitment : option string) (min_slot : option Z) (o : option rpc_row) : Prop :=
  forall row, o = Some row -> rw_commitment row = commitment /\
    match min_slot with Some m => m <= rw_slot row | None => True end.

Lemma get_chunk_good c m chunk rows :
  get_chunk rpc (RpcConfig c m) chunk = Ret rows ->
  length rows = length chunk /\ Forall (row_good c m) rows.
Proof.
  unfold get_chunk. cbn [rc_min_slot rc_commitment].
  destruct (rpc chunk _) as [res|]; [|done]. cbn [py_bind].
  destruct (match m with Some _ => _ | None => _ end) eqn:Em; [done|].
  destruct (Nat.eqb_spec (length (rr_value res)) (length chunk)) as [Hl|]; [|done].
  intros [= <-]. rewrite length_fmap. split; [done|]. apply Forall_fmap, Forall_true.
  intros [a|] row; [|done]. intros [= <-]. split; [done|]. cbn. destruct m; [lia|done].
Qed.

Lemma get_chunks_good c m cs rows :
  get_chunks rpc (RpcConfig c m) cs = Ret rows ->
  length rows = length (concat cs) /\ Forall (row_good c m) rows.
Proof.
  revert rows. induction cs as [|chunk cs IH]; intros rows; cbn [get_chunks concat].
  { intros [= <-]. by split; [|constructor]. }
  intros H. apply py_bind_Ret in H as (r1&H1&H). apply py_bind_Ret in H as (r2&H2&H).
  injection H as <-. apply get_chunk_good in H1 as [L1 G1]. apply IH in H2 as [L2 G2].
  rewrite !length_app. split; [lia|]. by apply Forall_app.
Qed.

Lemma get_multiple_good keys c m rows :
  get_multiple rpc keys c m = Ret rows ->
  length rows = length keys /\ Forall (row_good c m) rows.
Proof.
  unfold get_multiple. destruct (negb _); [done|].
  destruct (match m with Some _ => _ | None => _ end); [done|]. intros H.
  apply get_chunks_good in H as [Hl Hg].
  destruct (concat_chunks (length keys) 100 keys) as [-> _] in Hl; [lia|lia|]. done.
Qed.

(** What the dict holds so far. *)
Record out_good (c : option string) (m : option Z) (ks : list string)
    (out : list (string * rpc_row)) : Prop := {
  og_nodup : NoDup (od_keys out);
  og_row : forall pk row, od_get out pk = Some row ->
    pk ∈ ks /\ rw_data row <> [] /\ row_good c m (Some row) }.

Lemma keep_row_good c m ks out k o :
  out_good c m ks out -> k ∈ ks -> row_good c m o -> out_good c m ks (keep_row out (k, o)).
Proof.
  intros [Hnd Hr] Hk Ho. unfold keep_row. cbn [fst snd]. destruct o as [row|]; [|done].
  case_bool_decide as Hd; [done|]. constructor; [by apply od_nodup_set|].
  intros pk r. rewrite od_get_set. case_decide as Heq; [|apply Hr].
  intros [= <-]. by subst pk.
Qed.

Lemma keep_rows_good c m ks krs out :
  out_good c m ks out -> Forall (fun kr => kr.1 ∈ ks /\ row_good c m kr.2) krs ->
  out_good c m ks (foldl keep_row out krs).
Proof.
  intros Ho Hf. revert out Ho. induction Hf as [|[k o] krs [Hk Hr] _ IH]; intros out Ho; [done|].
  cbn [foldl]. apply IH. by apply keep_row_good.
Qed.

Lemma chunk_rows_good c m ks cs out out' :
  out_good c m ks out -> Forall (fun chunk => forall k, k ∈ chunk -> k ∈ ks) cs ->
  chunk_rows rpc c m cs out = Ret out' -> out_good c m ks out'.
Proof.
  intros Ho Hf. revert out Ho. induction Hf as [|chunk cs Hc _ IH]; intros out Ho H;
    cbn [chunk_rows] in H; [by injection H as <-|].
  apply py_bind_Ret in H as (rows&Hr&H). apply IH in H; [done|].
  apply get_multiple_good in Hr as [_ Hg]. apply keep_rows_good; [done|].
  apply Forall_forall. intros [k o] Hin. cbn. split.
  - apply Hc. by apply elem_of_zip_l in Hin.
  - apply elem_of_zip_r in Hin. by rewrite Forall_forall in Hg; apply Hg.
Qed.
End rpc_facts.

(** Whatever the node answers, a batched read that returns contains only
    accounts that were asked for, each at most once and with data, read with the requested
    commitment at a context slot not below the requested minimum. *)
Theorem chunk_get_fresh rpc keys commitment min_slot out :
  _chunk_get rpc keys commitment min_slot = Ret out ->
  NoDup (od_keys out) /\
  forall pk row, od_get out pk = Some row ->
    pk ∈ keys /\ pk <> ""%string /\ rw_data row <> [] /\ rw_commitment row = commitment /\
    match min_slot with Some m => m <= rw_slot row | None => True end.
Proof.
  unfold _chunk_get. set (uniq := filter _ _). intros H.
  destruct (concat_chunks (length uniq) 80 uniq) as [Hc _]; [lia|lia|].
  apply (chunk_rows_good rpc commitment min_slot uniq) in H as [Hnd Hr].
  - split; [done|]. intros pk row Hp. destruct (Hr pk row Hp) as (Hin&Hd&Hg).
    apply list_elem_of_filter in Hin as [Hne Hin]. rewrite elem_of_fromkeys in Hin.
    by destruct (Hg row eq_refl).
  - constructor; [apply NoDup_nil_2|done].
  - apply Forall_forall. intros chunk Hch k Hk. rewrite <- Hc. apply elem_of_concat.
    by exists chunk.
Qed.

Definition demo_rpc (keys : list string) (cfg : rpc_config) : pyres rpc_reply :=
  Ret (RpcReply 77 ((fun k => if String.eqb k "b" then None else Some (RpcAccount "own" [1] 5))
                      <$> keys)).

Lemma chunk_get_fresh_witness :
  exists out, _chunk_get demo_rpc ["a"; "b"; ""; "a"; "c"]%string (Some "processed"%string) (Some 70)
                = Ret out /\
    od_keys out = ["a"; "c"]%string /\
    forall pk row, od_get out pk = Some row -> 70 <= rw_slot row.
Proof.
  eexists. split; [vm_compute; reflexivity|]. split; [reflexivity|]. intros pk row H.
  destruct (chunk_get_fresh demo_rpc ["a"; "b"; ""; "a"; "c"]%string (Some "processed"%string)
              (Some 70) _ eq_refl) as [_ Hr].
  destruct (Hr pk row H) as (_&_&_&_&Hm). exact Hm.
Defined.

(** * The generation's index *)

(** Every tracked pool in order, with what was derived for it. *)
Lemma derive_rows_spec fetched pools acc rows n acc' rows' n' :
  derive_rows fetched pools acc rows n = Ret (acc', rows', n') ->
  exists ds : list (kind * derived),
    Forall2 (fun p kd => kind_of p = Some kd.1 /\ derive_pool p fetched = Ret kd.2)
      (filter (fun p => is_Some (kind_of p)) pools) ds /\
    rows' = rows ++ ((fun kd => gen_row_of kd.1 kd.2) <$> ds) /\
    acc' = foldl (fun m kd => push_deps m (pool_deps (me_idx (dv_meta kd.2)) kd.1 kd.2)) acc ds /\
    n' = (n + sum_list_with (fun kd => length (dv_required kd.2)) ds)%nat.
Proof.
  revert acc rows n. induction pools as [|p pools IH]; intros acc rows n H; cbn [derive_rows] in H.
  { injection H as <- <- <-. exists []. rewrite app_nil_r. cbn. split; [constructor|].
    repeat (split; [done|]). lia. }
  rewrite filter_cons. destruct (kind_of p) as [k|] eqn:Ek.
  - rewrite decide_True by done. apply py_bind_Ret in H as (d&Hd&H).
    apply IH in H as (ds&Hds&->&->&->). exists ((k, d) :: ds).
    split; [by constructor|]. cbn. rewrite <- app_assoc. split; [done|]. split; [done|]. lia.
  - rewrite decide_False by (by intros [? ?]). by apply IH.
Qed.

Lemma deps_of_folds (ds : list (kind * derived)) acc pk row :
  row ∈ deps_of (foldl (fun m kd => push_deps m (pool_deps (me_idx (dv_meta kd.2)) kd.1 kd.2)) acc ds) pk <->
  row ∈ deps_of acc pk \/
  exists kd, kd ∈ ds /\ (pk, row) ∈ pool_deps (me_idx (dv_meta kd.2)) kd.1 kd.2.
Proof.
  revert acc. induction ds as [|kd ds IH]; intros acc; cbn [foldl].
  - split; [by left|]. intros [|(?&H&_)]; [done|by apply elem_of_nil in H].
  - rewrite IH, elem_of_deps_pushes. setoid_rewrite elem_of_cons. naive_solver.
Qed.

Lemma elem_of_pool_deps idx k d pk row :
  (pk, row) ∈ pool_deps idx k d <->
  exists r, (pk, r) ∈ dv_required d ++ dv_optional d /\
    row = DepRow idx r k (bool_decide ((pk, r) ∈ dv_required d)).
Proof.
  unfold pool_deps. rewrite list_elem_of_fmap. split.
  - intros ([pk' r]&[= -> ->]&Hin). by exists r.
  - intros (r&Hin&->). by exists (pk, r).
Qed.

(** The generation's account index is exactly the inverse of its
    pool rows: an account carries a dependency row if and only if a pool of the generation lists
    it, with that pool's index and kind and marked required exactly when it is in the pool's
    required list; there is one pool row per tracked pool of the universe, in order, and the
    counter is the total of their required lists. *)
Theorem derive_generation_index rpc univ g :
  derive_generation rpc univ = Ret g ->
  length (gn_pools g) = length (tracked univ) /\
  gn_required g = sum_list_with (fun r => length (g_required r)) (gn_pools g) /\
  forall pk row, row ∈ deps_of (gn_accounts g) pk <->
    exists r ro, r ∈ gn_pools g /\ (pk, ro) ∈ g_required r ++ g_optional r /\
      row = DepRow (g_idx r) ro (g_kind r) (bool_decide ((pk, ro) ∈ g_required r)).
Proof.
  unfold derive_generation. intros H. apply py_bind_Ret in H as (fetched&_&H).
  apply py_bind_Ret in H as ([[acc rows] n]&Hd&H). injection H as <-.
  cbn [gn_pools gn_required gn_accounts fst snd].
  apply derive_rows_spec in Hd as (ds&Hds&->&->&->). cbn [app Nat.add].
  split; [|split].
  - rewrite length_fmap. unfold tracked in *. apply Forall2_length in Hds.
    rewrite <- Hds. f_equal. symmetry.
    rewrite list_filter_filter. by apply list_filter_iff; intros p; naive_solver.
  - clear Hds. induction ds as [|kd ds IH]; [done|]. cbn. by rewrite IH.
  - intros pk row. rewrite deps_of_folds. split.
    + intros [Hn|(kd&Hin&Hp)]; [by apply elem_of_nil in Hn|].
      apply elem_of_pool_deps in Hp as (ro&Hro&->).
      exists (gen_row_of kd.1 kd.2), ro. split; [|done].
      apply list_elem_of_fmap. by exists kd.
    + intros (r&ro&Hr&Hro&->). apply list_elem_of_fmap in Hr as (kd&->&Hin). right. exists kd. split; [done|].
      apply elem_of_pool_deps. by exists ro.
Qed.

Definition demo_rpc_none (keys : list string) (cfg : rpc_config) : pyres rpc_reply :=
  Ret (RpcReply 5 (replicate (length keys) None)).

Definition demo_pair : univ_pool :=
  UnivPool (Some "dlmm"%string) None (Some "PairA"%string) None (Some 2) None None None None None.
Definition demo_univ : universe := Universe [demo_pair; demo_pair] (Some 9).

Lemma derive_generation_index_witness :
  exists g, derive_generation demo_rpc_none demo_univ = Ret g /\
    gn_required g = 2%nat /\ gn_univ_n g = 9 /\
    DepRow 2 ROLE_DLMM_PAIR Dlmm true ∈ deps_of (gn_accounts g) "PairA".
Proof.
  destruct (derive_generation demo_rpc_none demo_univ) as [g|e] eqn:E;
    [|vm_compute in E; discriminate E].
  destruct (derive_generation_index demo_rpc_none demo_univ g E) as (_&_&Hi).
  exists g. split; [reflexivity|]. vm_compute in E. injection E as <-.
  split; [reflexivity|]. split; [reflexivity|]. apply Hi.
  exists (GenRow 2 Dlmm (Some "PairA"%string) [("PairA"%string, ROLE_DLMM_PAIR)] [] 1 None None None),
    ROLE_DLMM_PAIR.
  split; [left|]. split; [left|reflexivity].
Defined.

(** * The pricing window *)

Lemma map_pda_elem pair idxs keys :
  map_pda pair idxs = Ret keys ->
  forall i, i ∈ idxs -> exists k, bin_array_pda pair i = Ret k /\ k ∈ keys.
Proof.
  revert keys. induction idxs as [|j idxs IH]; intros keys H i Hi; [by apply elem_of_nil in Hi|].
  cbn [map_pda] in H. apply py_bind_Ret in H as (k&Hk&H). apply py_bind_Ret in H as (ks&Hks&H).
  injection H as <-. apply elem_of_cons in Hi as [->|Hi].
  - exists k. split; [done|]. by left.
  - destruct (IH ks Hks i Hi) as (k'&?&?). exists k'. split; [done|]. by right.
Qed.

Lemma window_array active id :
  Z.abs (id - active) <= 16 -> bin_array_index id ∈ array_indexes active.
Proof.
  intros Hid. unfold array_indexes, array_indexes_k, bin_array_index. rewrite elem_of_py_range.
  unfold MAX_BIN. pose proof (Z.div_le_mono (active - 16) id 70 ltac:(lia) ltac:(lia)).
  pose proof (Z.div_le_mono id (active + 16) 70 ltac:(lia) ltac:(lia)). lia.
Qed.

(** A fetched DLMM pair requires everything its quote reads: when its
    data decodes, the required list holds the pair and the address of the bin array of every
    bin within 16 of the active one, and the active id is recorded; an undecodable pair requires
    only itself; and the only exceptions are those of the address derivations. *)
Theorem derive_dlmm_window p pk data :
  match parse_lbpair data with
  | Raise _ =>
      derive_dlmm p pk (Some data) = Ret (Derived [(pk, ROLE_DLMM_PAIR)] [] (bare_meta p))
  | Ret lb =>
      match derive_dlmm p pk (Some data) with
      | Ret d =>
          (pk, ROLE_DLMM_PAIR) ∈ dv_required d /\ me_active (dv_meta d) = Some (active_id lb) /\
          forall id, Z.abs (id - active_id lb) <= 16 ->
            exists key, bin_array_pda pk (bin_array_index id) = Ret key /\
                        (key, ROLE_DLMM_BIN) ∈ dv_required d
      | Raise e => bin_keys_for_active pk (active_id lb) = Raise e \/ dlmm_oracle pk = Raise e
      end
  end.
Proof.
  unfold derive_dlmm. destruct (parse_lbpair data) as [lb|e]; [|done].
  unfold bin_rows. destruct (bin_keys_for_active pk (active_id lb)) as [bins|e] eqn:Eb;
    cbn [py_bind]; [|by left].
  destruct (dlmm_oracle pk) as [oracle|e]; cbn [py_bind]; [|by right].
  cbn [dv_required dv_meta me_active with_active]. split; [left|]. split; [done|].
  intros id Hid. unfold bin_keys_for_active in Eb.
  destruct (map_pda_elem _ _ _ Eb (bin_array_index id) (window_array _ _ Hid)) as (k&Hk&Hin).
  exists k. split; [done|]. right. apply list_elem_of_fmap. by exists k.
Qed.
