(* ===== verification/ApplyN.v ===== *)
(** The bridge to the production state_apply binary: arb-state/shyft/apply_n.py.  The snapshot
    blobs and the request written to its standard input; the binary, with the JSON it answers,
    is a parameter, and so is the optional solders parser of public keys. *)
From stdpp Require Import base list strings gmap.
From Stdlib Require Import ZArith Lia.
From Stdlib Require String.
From S2P Require Import Prelude PyBytes Base58 Accounts PumpKernel Shadow.
Open Scope Z_scope.
Open Scope py_scope.

(** * Snapshot blobs *)

(** The DLMM state dict: [None] for a key that is missing. *)
Record dlmm_s := DlmmS {
  ds_active_id : Z; ds_bin_step : Z; ds_status : option Z; ds_base_factor : Z;
  ds_filter_period : option Z; ds_decay_period : option Z; ds_reduction_factor : option Z;
  ds_variable_fee_control : Z; ds_max_volatility : option Z; ds_protocol_share : option Z;
  ds_base_fee_power : option Z; ds_collect_fee_mode : option Z; ds_vol_acc : Z; ds_vol_ref : Z;
  ds_idx_ref : Z; ds_last_upd : option Z; ds_bins : list (Z * (Z * Z));
  ds_reserve_x : Z; ds_reserve_y : Z }.

Definition lb_of (s : dlmm_s) : lb_pair := {|
  Accounts.base_factor := ds_base_factor s; Accounts.filter_period := or0 (ds_filter_period s);
  Accounts.decay_period := or0 (ds_decay_period s);
  Accounts.reduction_factor := or0 (ds_reduction_factor s);
  Accounts.variable_fee_control := ds_variable_fee_control s;
  Accounts.max_volatility_accumulator := or0 (ds_max_volatility s);
  Accounts.protocol_share := or0 (ds_protocol_share s);
  Accounts.base_fee_power_factor := or0 (ds_base_fee_power s);
  Accounts.collect_fee_mode := or0 (ds_collect_fee_mode s);
  Accounts.vol_acc := ds_vol_acc s; Accounts.vol_ref := ds_vol_ref s;
  Accounts.idx_ref := ds_idx_ref s; Accounts.last_upd := or0 (ds_last_upd s);
  Accounts.active_id := ds_active_id s; Accounts.bin_step := ds_bin_step s;
  Accounts.lb_status := or0 (ds_status s);
  Accounts.token_x := []; Accounts.token_y := []; Accounts.vault_x := []; Accounts.vault_y := [] |}.

(** [rows.sort(key=lambda b: b["id"])] *)
Definition bin_rows_of (s : dlmm_s) : list bin :=
  sort_bins ((fun e => Bin e.1 e.2.1 e.2.2) <$> ds_bins s).

Definition pack_dlmm_blob (now : Z) (s : dlmm_s) : pyres bytes :=
  write_dlmm now (DlmmSnap (lb_of s) (bin_rows_of s) (ds_reserve_x s) (ds_reserve_y s)).

(** The Pump dict is the kernel's snapshot with its "disabled" key. *)
Definition pack_pump_blob (s : pump_state) (disabled : option Z) : pyres bytes :=
  let vq := match virtual_quote_reserves s with
            | Some v => v
            | None => or0 (virtual_quote s)
            end in
  write_pump (PumpRow (rb_of s) (rq_of s) vq (or0 (lp_fee_bps s)) (or0 (protocol_fee_bps s))
                (or0 (creator_fee_bps s)) (or0 disabled) (or0 (status s))).

(** * The request *)

Section apply.
Context (pubkey_from_string : string -> option bytes).
(* [None] when the binary is not installed *)
Context (state_apply : option (bytes -> option sdict)).

(** [n.to_bytes(32, "big")] *)
Definition to_bytes32 (n : Z) : pyres bytes :=
  if n <? 2 ^ 256 then Ret (be_enc 32 n) else Raise OverflowError.

Definition _pk32 (pk : string) : pyres bytes :=
  match pubkey_from_string pk with
  | Some raw => Ret raw
  | None => n <-! b58_value (String.list_ascii_of_string pk) 0 ;; to_bytes32 n
  end.

Fixpoint pk32_all (ks : list string) : pyres (list bytes) :=
  match ks with
  | [] => Ret []
  | k :: ks' => raw <-! _pk32 k ;; rest <-! pk32_all ks' ;; Ret (raw :: rest)
  end.

(** [bytes(range(n))] *)
Definition range_bytes (n : nat) : pyres bytes :=
  if (n <=? 256)%nat then Ret (Z.of_nat <$> seq 0 n)
  else Raise (ValueError "bytes must be in range(0, 256)").

(** [struct.pack("<H", len(b)) + b] *)
Definition sized (b : bytes) : pyres bytes :=
  n <-! pack_u 2 (blen b) ;; Ret (n ++ b).

Definition pack_stdin (accounts : list string) (data blob : bytes) : pyres bytes :=
  kraw <-! pk32_all accounts ;;
  acc <-! range_bytes (length kraw) ;;
  n <-! pack_u 2 (Z.of_nat (length kraw)) ;;
  a <-! sized acc ;;
  d <-! sized data ;;
  b <-! sized blob ;;
  Ret ((n ++ concat kraw) ++ a ++ d ++ b).

(** [apply_ix] with its blob given, as every caller of the state plane does. *)
Definition apply_ix (accounts : list string) (data blob : bytes) : pyres (option sdict) :=
  match state_apply with
  | None => Ret None
  | Some run => payload <-! pack_stdin accounts data blob ;; Ret (run payload)
  end.

End apply.

(** * Reading the request back *)

(** A reference reader of the binary's input. *)
Definition take_sized (raw : bytes) : option (bytes * bytes) :=
  let n := le_dec (take 2 raw) in
  let rest := drop 2 raw in
  if (blen raw <? 2) || (blen rest <? n) then None
  else Some (take (Z.to_nat n) rest, drop (Z.to_nat n) rest).

Fixpoint take_keys (n : nat) (raw : bytes) : option (list bytes * bytes) :=
  match n with
  | O => Some ([], raw)
  | S n' =>
      if blen raw <? 32 then None else
      match take_keys n' (drop 32 raw) with
      | Some (ks, rest) => Some (take 32 raw :: ks, rest)
      | None => None
      end
  end.

Record request := Request { q_keys : list bytes; q_acc : bytes; q_data : bytes; q_blob : bytes }.

Definition read_stdin (raw : bytes) : option request :=
  if blen raw <? 2 then None else
  match take_keys (Z.to_nat (le_dec (take 2 raw))) (drop 2 raw) with
  | None => None
  | Some (keys, raw) =>
      match take_sized raw with
      | None => None
      | Some (acc, raw) =>
          match take_sized raw with
          | None => None
          | Some (data, raw) =>
              match take_sized raw with
              | Some (blob, []) => Some (Request keys acc data blob)
              | _ => None
              end
          end
      end
  end.

Lemma pack_u_Ret n z b :
  pack_u n z = Ret b -> b = le_enc n z /\ 0 <= z < 2 ^ (8 * Z.of_nat n).
Proof.
  unfold pack_u. destruct (Z.leb_spec 0 z), (Z.ltb_spec z (2 ^ (8 * Z.of_nat n))); cbn; try done.
  by intros [= <-].
Qed.

Lemma sized_read b raw more :
  sized b = Ret raw -> take_sized (raw ++ more) = Some (b, more).
Proof.
  unfold sized. intros H. apply py_bind_Ret in H as (n&Hn&H). injection H as <-.
  apply pack_u_Ret in Hn as [-> Hb]. unfold take_sized. rewrite <- app_assoc.
  rewrite take_app_length', drop_app_length' by done.
  rewrite le_dec_enc_small by done.
  replace ((blen _ <? 2) || _) with false.
  2:{ rewrite !blen_app, blen_le_enc. unfold blen in *. symmetry; apply orb_false_iff; split; apply Z.ltb_ge; lia. }
  unfold blen. rewrite Nat2Z.id, take_app_length, drop_app_length. done.
Qed.

Lemma take_keys_concat ks more :
  Forall (fun k => length k = 32%nat) ks ->
  take_keys (length ks) (concat ks ++ more) = Some (ks, more).
Proof.
  induction 1 as [|k ks Hk _ IH]; [done|]. cbn [length take_keys concat].
  rewrite <- app_assoc. replace (blen _ <? 32) with false.
  2:{ symmetry. apply Z.ltb_ge. rewrite blen_app. unfold blen. lia. }
  rewrite take_app_length', drop_app_length' by done. by rewrite IH.
Qed.

Lemma pk32_all_lengths p ks raws :
  (forall s b, p s = Some b -> length b = 32%nat) ->
  pk32_all p ks = Ret raws -> Forall (fun k => length k = 32%nat) raws.
Proof.
  intros Hp. revert raws. induction ks as [|k ks IH]; intros raws H; cbn [pk32_all] in H.
  { injection H as <-. constructor. }
  apply py_bind_Ret in H as (r&Hr&H). apply py_bind_Ret in H as (rs&Hrs&H). injection H as <-.
  constructor; [|by apply IH]. unfold _pk32 in Hr. destruct (p k) as [b|] eqn:Ek.
  - injection Hr as <-. by eapply Hp.
  - apply py_bind_Ret in Hr as (n&_&Hr). unfold to_bytes32 in Hr.
    destruct (n <? 2 ^ 256); [|done]. injection Hr as <-.
    unfold be_enc. by rewrite length_reverse, length_le_enc.
Qed.

(** The request is unambiguous: whenever it is packed, reading its
    counted fields back gives the 32-byte keys of the accounts in order, the identity account
    map, the instruction data and the snapshot blob, with nothing left over. *)
Theorem pack_stdin_roundtrip p accounts data blob raw :
  (forall s b, p s = Some b -> length b = 32%nat) ->
  pack_stdin p accounts data blob = Ret raw ->
  exists keys, pk32_all p accounts = Ret keys /\ (length keys <= 256)%nat /\
    read_stdin raw = Some (Request keys (Z.of_nat <$> seq 0 (length keys)) data blob).
Proof.
  intros Hp H. unfold pack_stdin in H. apply py_bind_Ret in H as (keys&Hk&H).
  apply py_bind_Ret in H as (acc&Ha&H). apply py_bind_Ret in H as (n&Hn&H).
  apply py_bind_Ret in H as (a&Hsa&H). apply py_bind_Ret in H as (d&Hsd&H).
  apply py_bind_Ret in H as (b&Hsb&H). injection H as <-. exists keys. split; [done|].
  unfold range_bytes in Ha. destruct (Nat.leb_spec (length keys) 256); [|done].
  injection Ha as <-. split; [done|]. apply pack_u_Ret in Hn as [-> Hn].
  pose proof (pk32_all_lengths p accounts keys Hp Hk) as Hl.
  unfold read_stdin. rewrite <- app_assoc. rewrite take_app_length', drop_app_length' by done.
  replace (blen _ <? 2) with false
    by (symmetry; apply Z.ltb_ge; rewrite !blen_app, blen_le_enc; unfold blen; lia).
  rewrite le_dec_enc_small, Nat2Z.id by done. rewrite (take_keys_concat keys _ Hl).
  rewrite (sized_read _ _ _ Hsa), (sized_read _ _ _ Hsd).
  rewrite <- (app_nil_r b). by rewrite (sized_read _ _ _ Hsb).
Qed.

Lemma pack_stdin_roundtrip_witness :
  exists raw, pack_stdin (fun _ => None) ["2"; "1A"]%string [7; 8] [9] = Ret raw /\
    exists keys, read_stdin raw = Some (Request keys [0; 1] [7; 8] [9]) /\ length keys = 2%nat.
Proof.
  destruct (pack_stdin (fun _ => None) ["2"; "1A"]%string [7; 8] [9]) as [raw|e] eqn:E;
    [|vm_compute in E; discriminate E].
  exists raw. split; [reflexivity|].
  destruct (pack_stdin_roundtrip (fun _ => None) ["2"; "1A"]%string [7; 8] [9] raw
              ltac:(intros; discriminate) E) as (keys&Hk&_&Hr).
  vm_compute in Hk. injection Hk as <-. eexists. split; [exact Hr|reflexivity].
Defined.

(** The DLMM blob still carries the wall clock the comment says is
    pinned: packing one state at two different times gives two different requests. *)
Theorem dlmm_blob_time_varies :
  exists s b1 b2, pack_dlmm_blob 1000 s = Ret b1 /\ pack_dlmm_blob 1001 s = Ret b2 /\ b1 <> b2.
Proof.
  exists (DlmmS 5 10 None 10000 None None None 40000 None None None None 0 0 5 None [] 0 0).
  eexists _, _. split; [vm_compute; reflexivity|]. split; [vm_compute; reflexivity|].
  vm_compute. discriminate.
Qed.
