(* ===== verification/State008.v ===== *)
(** The coherent-state plane: arb-state/shyft/state008.py.  The state of State008, its operations
    and the event handler, in a state monad with Python exceptions.

    The pieces the plane owns are the models of their own files: the barrier (TxBarrier), the
    publication ring (AuthRing), the reconciliation log (Recon), the shadow gate (Shadow) and the
    bank journal (BankJournal).  Clocks, fresh tokens, the solders parser and the state_apply
    binary are the environment [env].  Threads, gRPC, JSON status files and prints are outside;
    what the plane asks of them is recorded in [s_req_q] and [s_tasks].  [rec.idx] is the key of
    the record in [self.pools], so an operation on a record takes that key. *)
From stdpp Require Import base list strings gmap.
From Stdlib Require Import ZArith Lia.
From coqutil.Datatypes Require Import RecordSetters.
From S2P Require Import Prelude PyBytes Base58 Pda Accounts PumpKernel PumpFee Submap.
From S2P Require Import TxExpect PumpOverlay TxBarrier Recon Shadow BankJournal AuthRing Deps ApplyN.
Import RecordSetters.DoubleBraceUpdate.
Open Scope Z_scope.

(** * Environment *)

Record environ := Environ {
  e_mono : nat -> Z;                           (* the n-th reading of _mono() *)
  e_wall : nat -> Z;                           (* int(time.time()) at that point *)
  e_token : nat -> string;                     (* uuid.uuid4().hex *)
  e_pubkey : string -> option bytes;           (* solders *)
  e_apply : option (bytes -> option sdict) }.  (* state_apply, if installed *)

(** * Pools *)

Inductive pstatus := ST_INCOMPLETE | ST_STAGING | ST_COHERENT | ST_GAPPED.
#[export] Instance pstatus_eq_dec : EqDecision pstatus.
Proof. solve_decision. Defined.

(** The published state of a DLMM pair. *)
Record pub_dlmm := PubDlmm {
  pd_active_id : Z; pd_vol_acc : Z; pd_vol_ref : Z; pd_idx_ref : Z; pd_last_upd : Z;
  pd_bin_step : Z; pd_base_factor : Z; pd_variable_fee_control : Z;
  pd_reserve_x : Z; pd_reserve_y : Z; pd_bins : gmap Z (Z * Z); pd_slot : Z }.

(** The published state of a Pump pool. *)
Record pub_pump := PubPump {
  pp_reserve_base : Z; pp_reserve_quote : Z; pp_virtual_quote : Z;
  pp_lp : Z; pp_protocol : Z; pp_creator_bps : Z; pp_disabled : Z; pp_slot : Z;
  pp_pool_creator : string; pp_coin_creator_key : string; pp_pool_creator_bps : Z;
  pp_base_mint : string; pp_quote_mint : string; pp_supply : Z; pp_fee_state : option fee_state }.

Inductive published := PDlmm (p : pub_dlmm) | PPump (p : pub_pump).

Record pool_rec := PoolRec {
  r_kind : kind; r_pubkey : option string; r_required : gset string; r_optional : gset string;
  r_status : pstatus; r_stage : stage; r_upd_since : Z; r_gen : nat;
  r_last_s : option published; r_last_blob : option bytes; r_s_before : option published;
  r_staged : list swrite; r_active_id : option Z }.

Definition new_rec (row : gen_row) : pool_rec :=
  PoolRec (g_kind row) (g_pubkey row) (list_to_set (g_required row).*1)
    (list_to_set (g_optional row).*1) ST_INCOMPLETE empty_stage 0 0 None None None []
    (g_active row).

(** * Events *)

Record tx_event := TxEvent {
  t_gen : option string; t_slot : Z;
  t_parsed : option (string * list string * list parsed_ix) }.

Inductive event :=
  | EvBank (ev : bank_event)
  | EvPlan (gen token : option string) (plan : generation)
  | EvBoot (gen token : option string) (accounts : list (string * rpc_row))
  | EvFetchError (gen token : option string)
  | EvUniv (gen : option string) (plan : generation) (accounts : list (string * rpc_row)) (mtime : Z)
  | EvDeps (gen : option string) (accounts : list (string * rpc_row))
  | EvTx (ev : tx_event)
  | EvAccount (row : acct_row).

(** [ev.get("provider_generation", ev.get("generation"))] *)
Definition event_gen (ev : event) : option string :=
  match ev with
  | EvBank (EGeneration g) | EvBank (EDisconnect g) | EvBank (EBank g _ _ _ _) => g
  | EvPlan g _ _ | EvBoot g _ _ | EvFetchError g _ | EvUniv g _ _ _ | EvDeps g _ => g
  | EvTx t => t_gen t
  | EvAccount row => a_gen row
  end.

Inductive task_kind := TBootstrapResult | TDependencyResult.

(** Work handed to a thread. *)
Inductive task :=
  | TaskFetch (k : task_kind) (keys : list string) (gen token : option string) (min_slot : Z)
  | TaskBootstrap (gen token : option string).

(** * State *)

(** The counters of [self.m]; the gauges are [s_gauges]. *)
Inductive skey :=
  | MPublished | MGaps | MDecodeFail | MDup | MWaitShape | MIncompleteAtBoundary | MTxExactSeen
  | MTxUnknownDex | MFastsoakPredict | MFastsoakSkipNoAuth | MFastsoakSkipApply
  | MFastsoakFailClosed | MNonExactReauth | MAuthPredictedExact | MAuthReconciled
  | MUnsupportedShape | MStaleGeneration | MStaleBootstrap | MRpcAmbiguous | MBufferOverflow
  | MFetchErrors | MSnapshotRejection (r : reject).
#[export] Instance skey_eq_dec : EqDecision skey.
Proof. solve_decision. Defined.

Record gauges := Gauges {
  ga_expected : Z; ga_subscribed : Z; ga_received : Z; ga_complete : Z;
  ga_wait_pair : nat; ga_wait_bin : nat; ga_wait_vault : nat }.

Record st := St {
  s_bytes : gmap string acct_row;
  s_acc_deps : acc_map;
  s_pools : list (Z * pool_rec);
  s_fees : Z * Z * Z * Z;
  s_stream_slot : Z;
  s_journal : journal;
  s_gen : option string;                 (* provider_generation *)
  s_token : option string;               (* bootstrap_token *)
  s_done : bool;                         (* bootstrap_done *)
  s_floors : gmap string Z;              (* rpc_floors *)
  s_boot_slot : Z;
  s_bootstrapping : bool;
  s_ready : bool;
  s_buf : list event;
  s_last_wv : gmap string Z;
  s_seen : gset (string * Z * Z);
  s_univ_n : Z;
  s_univ_mtime : Z;
  s_sub_keys : list string;
  s_gate : gate;
  s_barrier : barrier;
  s_auth : authpub;
  s_rf : bytes;
  s_ready_file : bool;
  s_m : skey -> nat;
  s_gauges : gauges;
  s_lat_stage : list Z;
  s_lat_pub : list Z;
  s_req_q : list (option string * list string);
  s_tasks : list task;
  s_ticks : nat }.

(** [State008()] over an opened ring and log. *)
Definition new_st (auth : authpub) (rf : bytes) (explain : bool) (ready_file : bool) : st := {|
  s_bytes := ∅; s_acc_deps := []; s_pools := []; s_fees := (20, 5, 0, 0); s_stream_slot := 0;
  s_journal := new_journal; s_gen := None; s_token := None; s_done := false; s_floors := ∅;
  s_boot_slot := 0; s_bootstrapping := true; s_ready := false; s_buf := []; s_last_wv := ∅;
  s_seen := ∅; s_univ_n := 0; s_univ_mtime := 0; s_sub_keys := []; s_gate := new_gate explain;
  s_barrier := empty_barrier; s_auth := auth; s_rf := rf; s_ready_file := ready_file;
  s_m := fun _ => O; s_gauges := Gauges 0 0 0 0 0 0 0; s_lat_stage := []; s_lat_pub := [];
  s_req_q := []; s_tasks := []; s_ticks := O |}.

(** * The monad *)

Definition M (A : Type) : Type := st -> st * pyres A.

Definition ret {A} (a : A) : M A := fun s => (s, Ret a).
Definition bind {A B} (m : M A) (f : A -> M B) : M B := fun s =>
  match m s with
  | (s', Ret a) => f a s'
  | (s', Raise e) => (s', Raise e)
  end.
Definition gets {A} (f : st -> A) : M A := fun s => (s, Ret (f s)).
Definition modify (f : st -> st) : M unit := fun s => (f s, Ret tt).
Definition lift {A} (r : pyres A) : M A := fun s => (s, r).

Declare Scope m_scope.
Delimit Scope m_scope with m.
Notation "x <- m ;; k" := (bind m (fun x => k))
  (at level 100, m at next level, right associativity) : m_scope.
Notation "m ;; k" := (bind m (fun _ => k)) (at level 100, right associativity) : m_scope.
Open Scope m_scope.

(** [for x in l: f(x)] *)
Fixpoint each {A} (f : A -> M unit) (l : list A) : M unit :=
  match l with
  | [] => ret tt
  | x :: l' => f x ;; each f l'
  end.

Definition when (b : bool) (m : M unit) : M unit := if b then m else ret tt.

(** * Small updates *)

Definition bump_m (k : skey) : M unit :=
  modify (fun s => s {{ s_m ::= fun m k' => if decide (k' = k) then S (m k') else m k' }}).

Definition bump_many (k : skey) (n : nat) : M unit :=
  modify (fun s => s {{ s_m ::= fun m k' => if decide (k' = k) then (m k' + n)%nat else m k' }}).

Definition set_rec (idx : Z) (f : pool_rec -> pool_rec) : M unit :=
  modify (fun s => s {{ s_pools ::= fun ps =>
    match od_get ps idx with Some r => od_set ps idx (f r) | None => ps end }}).

Definition get_rec (idx : Z) : M (option pool_rec) := gets (fun s => od_get (s_pools s) idx).

(** An operation on a record of [self.pools]. *)
Definition with_rec (idx : Z) (f : pool_rec -> M unit) : M unit :=
  o <- get_rec idx ;;
  match o with Some r => f r | None => ret tt end.

Definition set_status (idx : Z) (x : pstatus) : M unit :=
  set_rec idx (fun r => r {{ r_status := x }}).

(** A call that updates a component and may raise. *)
Definition on_auth (f : authpub -> authpub * option pyexn) : M unit := fun s =>
  let '(a, e) := f (s_auth s) in
  (s {{ s_auth := a }}, match e with None => Ret tt | Some x => Raise x end).

Definition on_rf (f : bytes -> bytes * option pyexn) : M unit := fun s =>
  let '(b, e) := f (s_rf s) in
  (s {{ s_rf := b }}, match e with None => Ret tt | Some x => Raise x end).

Definition on_barrier (f : barrier -> barrier) : M unit :=
  modify (fun s => s {{ s_barrier ::= f }}).

Definition on_gate (f : gate -> gate) : M unit := modify (fun s => s {{ s_gate ::= f }}).

Definition bump_incomplete (m : bmetrics) : bmetrics :=
  BMetrics (tx_shape m) (publish_wait_pair m) (publish_wait_bin m) (publish_wait_vault m)
    (publish_wait_shape m) (S (publish_incomplete_at_boundary m)) (evicted_transactions m).

Definition bump_wait_shape (m : bmetrics) : bmetrics :=
  BMetrics (tx_shape m) (publish_wait_pair m) (publish_wait_bin m) (publish_wait_vault m)
    (S (publish_wait_shape m)) (publish_incomplete_at_boundary m) (evicted_transactions m).

Definition n_pools (s : st) : Z := Z.of_nat (length (s_pools s)).

Definition proto_of (k : kind) : Z := match k with Dlmm => 1 | Pump => 2 end.

Abbreviation accounts := (gmap string acct_row).

Section plane.
Context (env : environ).

Definition _mono : M Z := fun s =>
  (s {{ s_ticks ::= S }}, Ret (e_mono env (s_ticks s))).

Definition wall : M Z := gets (fun s => e_wall env (s_ticks s)).

Definition LAT_CAP : nat := 8192.

(** [b.append(ns); del b[:len(b) - LAT_CAP]] *)
Definition push_lat (ns : Z) (b : list Z) : list Z :=
  if ns <? 0 then b else drop (length (b ++ [ns]) - LAT_CAP) (b ++ [ns]).

Definition lat_stage (rx : Z) : M unit :=
  t <- _mono ;; modify (fun s => s {{ s_lat_stage ::= push_lat (t - rx) }}).
Definition lat_pub (rx : Z) : M unit :=
  t <- _mono ;; modify (fun s => s {{ s_lat_pub ::= push_lat (t - rx) }}).

(** [recon.invalidate(self.rf, self.proto_of[rec.idx], rec.idx, rx, slot)] *)
Definition log_invalidate (idx : Z) (k : kind) (rx slot : Z) : M unit :=
  on_rf (fun f => Recon.invalidate f (proto_of k) idx rx slot).

(** * Readiness and connections *)

Definition gap_pool (e : Z * pool_rec) : M unit :=
  if bool_decide (r_status e.2 = ST_COHERENT) then
    set_status e.1 ST_GAPPED ;;
    rx <- _mono ;;
    slot <- gets s_stream_slot ;;
    log_invalidate e.1 (r_kind e.2) rx slot
  else ret tt.

Definition mark_uncertain : M unit :=
  modify (fun s => s {{ s_ready := false }}) ;;
  bump_m MGaps ;;
  s <- gets id ;;
  on_auth (fun a => set_ready a false (n_pools s) (s_stream_slot s)) ;;
  on_rf (fun f => plane f false (s_stream_slot s)) ;;
  each gap_pool (s_pools s) ;;
  modify (fun s => s {{ s_ready_file := false }}).

Definition mark_ready : M unit :=
  s <- gets id ;;
  if bool_decide (s_gen s = None) || negb (s_done s) then ret tt else
  modify (fun s => s {{ s_ready := true; s_bootstrapping := false; s_ready_file := true }}) ;;
  on_auth (fun a => set_ready a true (n_pools s) (s_stream_slot s)) ;;
  on_rf (fun f => plane f true (s_stream_slot s)).

Definition reset_pool (e : Z * pool_rec) : M unit :=
  set_rec e.1 (fun r => r {{ r_stage := empty_stage; r_staged := []; r_last_s := None;
                             r_last_blob := None; r_s_before := None; r_status := ST_GAPPED }}) ;;
  rx <- _mono ;;
  log_invalidate e.1 (r_kind e.2) rx 0.

Definition fresh_journal (gen : option string) : journal :=
  match gen with
  | None => new_journal
  | Some _ => fst (BankJournal.apply new_journal (EGeneration gen))
  end.

Definition reset_connection (gen : option string) : M unit :=
  mark_uncertain ;;
  on_auth reset_history ;;
  modify (fun s => if bool_decide (gen = s_gen s) then s else s {{ s_req_q := [] }}) ;;
  (match gen with None => ret 0 | Some _ => _mono end) ;;
  modify (fun s => s {{
    s_journal := fresh_journal gen; s_gen := gen; s_token := None; s_done := false;
    s_bootstrapping := true; s_boot_slot := 0; s_stream_slot := 0; s_bytes := ∅;
    s_floors := ∅; s_last_wv := ∅; s_seen := ∅; s_buf := []; s_barrier := empty_barrier;
    s_gate ::= clear_pending }}) ;;
  ps <- gets s_pools ;;
  each reset_pool ps.

(** * Generations *)

Definition rpc_account_row (gen : option string) (pk : string) (row : rpc_row) (rx : Z) : acct_row :=
  AcctRow pk (rw_slot row) 0 None gen None (rw_owner row) (rw_lamports row) (rw_data row) rx.

(** [self.rpc_row(pk, row)] *)
Definition to_row (pk : string) (row : rpc_row) : M acct_row :=
  rx <- _mono ;; gen <- gets s_gen ;; ret (rpc_account_row gen pk row rx).

(** [(self.bytes.get(pk) or {}).get("data")] is nonempty. *)
Definition have (s : st) (pk : string) : bool := has_data (s_bytes s !! pk).

Definition pool_complete (s : st) (r : pool_rec) : bool :=
  negb (bool_decide (r_required r = ∅)) && forallb (have s) (elements (r_required r)).

Definition count {A} (f : A -> bool) (l : list A) : Z := Z.of_nat (length (filter (fun x => f x = true) l)).

Definition is_coherent (e : Z * pool_rec) : bool := bool_decide (r_status e.2 = ST_COHERENT).

Definition demote (s : st) (r : pool_rec) : pool_rec :=
  if bool_decide (r_status r = ST_COHERENT) && negb (pool_complete s r)
  then r {{ r_status := ST_INCOMPLETE }} else r.

Definition _recount : M unit :=
  modify (fun s => s {{ s_pools ::= fmap (fun e => (e.1, demote s e.2)) }}) ;;
  modify (fun s => s {{ s_gauges ::= fun g =>
    Gauges (ga_expected g) (Z.of_nat (length (s_sub_keys s)))
      (count (have s) (od_keys (s_acc_deps s))) (count is_coherent (s_pools s))
      (ga_wait_pair g) (ga_wait_bin g) (ga_wait_vault g) }}).

(** The record of a generation row, created or merged. *)
Definition merge_rec (row : gen_row) (o : option pool_rec) : pool_rec :=
  match o with
  | None => new_rec row
  | Some r => r {{ r_required ::= union (list_to_set (g_required row).*1);
                   r_optional ::= union (list_to_set (g_optional row).*1);
                   r_active_id := match g_active row with Some a => Some a | None => r_active_id r end }}
  end.

Definition add_dep (row : gen_row) (m : acc_map) (kr : string * role) : acc_map :=
  let ds := deps_of m kr.1 in
  if existsb (fun d => (d_pool_idx d =? g_idx row) && bool_decide (d_role d = kr.2)) ds
  then od_setdefault m kr.1 []
  else push_dep m kr.1 (DepRow (g_idx row) kr.2 (g_kind row) (bool_decide (kr ∈ g_required row))).

Definition install_row (row : gen_row) : M unit :=
  modify (fun s => s {{
    s_pools ::= fun ps => od_set ps (g_idx row) (merge_rec row (od_get ps (g_idx row)));
    s_acc_deps ::= fun m => foldl (add_dep row) m (g_required row ++ g_optional row) }}).

(** [if pk in self.bytes: continue; self.bytes[pk] = self.rpc_row(pk, a)] *)
Definition adopt_row (kr : string * rpc_row) : M unit :=
  s <- gets id ;;
  match s_bytes s !! kr.1 with
  | Some _ => ret tt
  | None =>
      row <- to_row kr.1 kr.2 ;;
      modify (fun s => s {{ s_bytes ::= insert kr.1 row;
                            s_floors ::= insert kr.1 (rw_slot kr.2) }})
  end.

(** [gen.get("univ_n") or gen.get("n_pool") or 0] *)
Definition plan_univ_n (plan : generation) : Z :=
  if gn_univ_n plan =? 0 then Z.of_nat (length (gn_pools plan)) else gn_univ_n plan.

Definition install_generation (plan : generation) (extra : list (string * rpc_row)) : M unit :=
  modify (fun s => s {{ s_univ_n := plan_univ_n plan;
    s_gauges ::= fun g => Gauges (Z.of_nat (gn_required plan)) (ga_subscribed g) (ga_received g)
      (ga_complete g) (ga_wait_pair g) (ga_wait_bin g) (ga_wait_vault g) }}) ;;
  each install_row (gn_pools plan) ;;
  each adopt_row extra ;;
  _recount.

Definition subscribe_keys (keys : list string) : M unit :=
  modify (fun s => s {{ s_sub_keys := fromkeys keys;
    s_gauges ::= fun g => Gauges (ga_expected g) (Z.of_nat (length (fromkeys keys)))
      (ga_received g) (ga_complete g) (ga_wait_pair g) (ga_wait_bin g) (ga_wait_vault g);
    s_req_q ::= fun q => q ++ [(s_gen s, fromkeys keys)] }}).

Definition fetch_async (k : task_kind) (keys : list string) (token : option string) : M unit :=
  modify (fun s => s {{ s_tasks ::= fun ts =>
    ts ++ [TaskFetch k keys (s_gen s) token (s_stream_slot s)] }}).

(** [self._role(rec, pk)] *)
Definition _role (s : st) (idx : Z) (pk : string) : option role := _role_of pk idx (s_acc_deps s).

(** [{rec.pubkey: rec.idx for rec in self.pools.values() if rec.pubkey}] *)
Definition _pools_by_pk (s : st) : gmap string Z :=
  foldl (fun m e => match nonempty (r_pubkey e.2) with Some pk => <[pk := e.1]> m | None => m end)
    ∅ (s_pools s).

(** Whether the key is new to the pool and not yet held. *)
Definition add_required (idx : Z) (pk : string) (ro : role) : M bool :=
  o <- get_rec idx ;;
  match o with
  | None => ret false
  | Some r =>
      if bool_decide (pk ∈ r_required r) then ret false else
      modify (fun s => s {{
        s_acc_deps ::= fun m => push_dep m pk (DepRow idx ro (r_kind r) true) }}) ;;
      set_rec idx (fun r => r {{ r_required ::= union {[pk]}; r_status := ST_INCOMPLETE }}) ;;
      s <- gets id ;;
      ret (bool_decide (s_bytes s !! pk = None))
  end.

(** [self.invalidate(rec, rx_ns, slot)] *)
Definition touch_stage (rx slot : Z) (x : stage) : stage :=
  Stage (Some (default rx (st_rx x))) (Some slot) (st_wait x) (st_sig x) (st_reconcile x).

Definition invalidate (idx : Z) (rx slot : Z) : M unit :=
  with_rec idx (fun r =>
    when (negb (bool_decide (r_status r = ST_STAGING)))
      (log_invalidate idx (r_kind r) rx slot ;;
       set_rec idx (fun r => r {{
         r_s_before := match r_last_s r with Some x => Some x | None => r_s_before r end;
         r_staged := [] }})) ;;
    set_rec idx (fun r => r {{ r_status := ST_STAGING; r_upd_since := rx;
                               r_stage ::= touch_stage rx slot }}) ;;
    lat_stage rx).

(** * Publication *)

Definition sdict_of_dlmm (p : pub_dlmm) : sdict :=
  SDict None None None None None None None (Some (pd_active_id p)) (Some (pd_vol_acc p))
    (Some (pd_vol_ref p)) (Some (pd_idx_ref p)) (Some (pd_last_upd p)) (Some (pd_slot p)) []
    (pd_bins p) None None.

Definition sdict_of_pump (p : pub_pump) : sdict :=
  SDict (Some (pp_reserve_base p)) (Some (pp_reserve_base p)) (Some (pp_reserve_quote p))
    (Some (pp_reserve_quote p)) (Some (pp_virtual_quote p)) (Some (pp_virtual_quote p))
    None None None None None None (Some (pp_slot p)) [] ∅ None None.

(** The keys the shadow gate reads of a published state. *)
Definition sdict_of (p : published) : sdict :=
  match p with PDlmm d => sdict_of_dlmm d | PPump q => sdict_of_pump q end.

Definition pub_slot (p : published) : Z :=
  match p with PDlmm d => pd_slot d | PPump q => pp_slot q end.

(** [max(wv, int(w.get("write_version") or 0))] over the staged writes, from 0. *)
Definition max_wv (staged : list swrite) : Z := foldl (fun m w => Z.max m (w_wv w)) 0 staged.

Definition is_boot_sig (x : option bytes) : bool := bool_decide (x = Some boot_sig).

Definition publish_args (r : pool_rec) (p : published) (blob : bytes) : pub_args := {|
  pa_slot := pub_slot p; pa_blob := blob; pa_proto := proto_of (r_kind r);
  pa_sig := st_sig (r_stage r); pa_txn_index := None;
  pa_write_version := match r_staged r with [] => None | l => Some (max_wv l) end;
  pa_flags := if bool_decide (r_status r = ST_GAPPED) then Z.lor COHERENT GAPPED else COHERENT;
  pa_boot := is_boot_sig (st_sig (r_stage r)) |}.

Definition _finish_publish (idx : Z) (p : published) (blob : bytes) : M unit :=
  with_rec idx (fun r =>
    on_auth (fun a => publish a idx (publish_args r p blob)) ;;
    set_rec idx (fun r => r {{ r_stage := empty_stage; r_staged := [] }}) ;;
    on_gate (on_publish idx (r_kind r) (is_boot_sig (st_sig (r_stage r))) (r_stage r)
               (sdict_of <$> r_s_before r) (sdict_of p))).

(** What both publications do once the blob is written: log, mark, account, hand over. *)
Definition commit (idx : Z) (slot rx : Z) (p : published) (blob : bytes) : M unit :=
  with_rec idx (fun r =>
    on_rf (fun f => Recon.auth f (proto_of (r_kind r)) idx slot blob) ;;
    set_rec idx (fun r => r {{ r_status := ST_COHERENT; r_gen ::= S; r_last_s := Some p;
                               r_last_blob := Some blob }}) ;;
    bump_m MPublished ;;
    lat_pub rx ;;
    _finish_publish idx p blob).

(** The roles of a key for the pool. *)
Definition roles_of (s : st) (idx : Z) (pk : string) : list role :=
  d_role <$> filter (fun d => d_pool_idx d = idx) (deps_of (s_acc_deps s) pk).

(** [accounts[pk]["data"]] of the last required key, in iteration order, that [sel] takes. *)
Definition pick (accs : accounts) (sel : string -> bool) (keys : list string) : option bytes :=
  last (omap (fun pk => if sel pk then a_data <$> accs !! pk else None) keys).

Definition has_role (s : st) (idx : Z) (ro : role) (pk : string) : bool :=
  bool_decide (ro ∈ roles_of s idx pk).

Definition all_data (accs : accounts) (r : pool_rec) : bool :=
  forallb (fun pk => has_data (accs !! pk)) (elements (r_required r)).

Fixpoint require_bins (idx : Z) (need : list string) (added : bool) : M bool :=
  match need with
  | [] => ret added
  | k :: need' => b <- add_required idx k ROLE_DLMM_BIN ;; require_bins idx need' (b || added)
  end.

Definition pub_of_lb (lb : lb_pair) (snap : dlmm_snap) (slot : Z) : pub_dlmm := {|
  pd_active_id := active_id lb; pd_vol_acc := vol_acc lb; pd_vol_ref := vol_ref lb;
  pd_idx_ref := idx_ref lb; pd_last_upd := last_upd lb; pd_bin_step := bin_step lb;
  pd_base_factor := base_factor lb; pd_variable_fee_control := variable_fee_control lb;
  pd_reserve_x := sn_reserve_x snap; pd_reserve_y := sn_reserve_y snap;
  pd_bins := foldl (fun m b => <[bin_id b := (bin_x b, bin_y b)]> m) ∅ (sn_bins snap);
  pd_slot := slot |}.

Definition publish_dlmm (idx : Z) (r : pool_rec) (slot rx : Z) (accs : accounts) : M bool :=
  s <- gets id ;;
  if negb (all_data accs r) then ret false else
  match pick accs (has_role s idx ROLE_DLMM_PAIR) (elements (r_required r)) with
  | None => ret false
  | Some pair_raw =>
      match parse_lbpair pair_raw with
      | Raise _ => bump_m MDecodeFail ;; ret false
      | Ret lb =>
          need <- lift (bin_keys_for_active (default EmptyString (r_pubkey r)) (active_id lb)) ;;
          added <- require_bins idx need false ;;
          s <- gets id ;;
          when added
            (subscribe_keys (od_keys (s_acc_deps s)) ;;
             fetch_async TDependencyResult (filter (fun k => s_bytes s !! k = None) need) None) ;;
          if negb (forallb (fun k => bool_decide (is_Some (accs !! k))) need)
          then set_status idx ST_INCOMPLETE ;; ret false else
          o <- lift (snap_dlmm pair_raw (omap (fun k => a_data <$> accs !! k) need)) ;;
          match o with
          | None => set_status idx ST_INCOMPLETE ;; ret false
          | Some snap =>
              set_rec idx (fun r => r {{ r_active_id := Some (active_id lb) }}) ;;
              now <- wall ;;
              blob <- lift (write_dlmm now snap) ;;
              commit idx slot rx (PDlmm (pub_of_lb lb snap slot)) blob ;;
              ret true
          end
      end
  end.

(** The role a Pump key plays, by the order of the elif chain. *)
Definition pump_roles : list role :=
  [ROLE_PUMP_POOL; ROLE_PUMP_VAULT_BASE; ROLE_PUMP_VAULT_QUOTE; ROLE_PUMP_GLOBAL;
   ROLE_PUMP_FEE_CONFIG; ROLE_MINT].

Definition first_pump_role (s : st) (idx : Z) (pk : string) : option role :=
  head (filter (fun ro => has_role s idx ro pk = true) pump_roles).

Definition plays (s : st) (idx : Z) (ro : role) (pk : string) : bool :=
  bool_decide (first_pump_role s idx pk = Some ro).

(** [live.b58e(raw) if raw else ""] *)
Definition b58_or_empty (raw : bytes) : string :=
  match raw with [] => EmptyString | _ => b58encode raw end.

Definition pump_pool_meta (p : pump_pool) : PumpFee.pool_meta :=
  PumpFee.PoolMeta (b58_or_empty (pp_creator p)) (b58_or_empty (pp_base p))
    (b58_or_empty (pp_quote p)) (b58_or_empty (pp_coin_creator p)) (pp_creator_fee_bps p)
    None 0 0 0 false.

(** The resolved fees, [None] where the try block raises. *)
Definition resolved_fees (fee_raw glob : option bytes) (p : pump_pool) (supply rb rq : Z)
    : option fee_state :=
  match fee_raw, glob with
  | Some fr, Some gl =>
      match parse_fee_config fr, parse_global_config gl with
      | Ret fc, Ret gc =>
          match resolve_fee_state fc gc (pump_pool_meta p) supply rb rq None "coin_creator" "flat" with
          | Ret fs => Some fs
          | Raise _ => None
          end
      | _, _ => None
      end
  | _, _ => None
  end.

(** [(lp, proto, creator)] of the published row. *)
Definition row_fees (fees : Z * Z * Z * Z) (fs : option fee_state) : Z * Z * Z :=
  match fs with
  | Some f => (fs_lp f, fs_protocol f, fs_creator f)
  | None => fees.1
  end.

Definition pub_of_pump (p : pump_pool) (fees : Z * Z * Z * Z) (fs : option fee_state)
    (supply rb rq slot : Z) : pub_pump :=
  let '(lp, proto, creator) := row_fees fees fs in
  {| pp_reserve_base := rb; pp_reserve_quote := rq; pp_virtual_quote := Accounts.pp_virtual p;
     pp_lp := lp; pp_protocol := proto; pp_creator_bps := creator; pp_disabled := fees.2;
     pp_slot := slot; pp_pool_creator := b58_or_empty (pp_creator p);
     pp_coin_creator_key := b58_or_empty (pp_coin_creator p);
     pp_pool_creator_bps := pp_creator_fee_bps p; pp_base_mint := b58_or_empty (pp_base p);
     pp_quote_mint := b58_or_empty (pp_quote p); pp_supply := supply; pp_fee_state := fs |}.

Definition pump_row_of (p : pump_pool) (q : pub_pump) : pump_row :=
  PumpRow (pp_reserve_base q) (pp_reserve_quote q) (pp_virtual_quote q) (pp_lp q) (pp_protocol q)
    (pp_creator_bps q) (pp_disabled q)
    (if negb (pp_mayhem p =? 0) || negb (pp_cashback p =? 0) then 1 else 0).

Definition publish_pump (idx : Z) (r : pool_rec) (slot rx : Z) (accs : accounts) : M bool :=
  s <- gets id ;;
  if negb (all_data accs r) then ret false else
  let get ro := pick accs (plays s idx ro) (elements (r_required r)) in
  match get ROLE_PUMP_POOL, get ROLE_PUMP_VAULT_BASE, get ROLE_PUMP_VAULT_QUOTE with
  | Some pool_raw, Some vb, Some vq =>
      match parse_pump_pool pool_raw with
      | None => bump_m MDecodeFail ;; ret false
      | Some p =>
          rb <- lift (token_amount vb) ;;
          rq <- lift (token_amount vq) ;;
          if (rb =? 0) || (rq =? 0) then set_status idx ST_INCOMPLETE ;; ret false else
          fees <- (match get ROLE_PUMP_GLOBAL with
                   | Some glob => lift (parse_global glob)
                   | None => gets s_fees
                   end) ;;
          modify (fun s => s {{ s_fees := fees }}) ;;
          let supply := match get ROLE_MINT with Some m => parse_mint_supply m | None => 0 end in
          let fs := resolved_fees (get ROLE_PUMP_FEE_CONFIG) (get ROLE_PUMP_GLOBAL) p supply rb rq in
          let q := pub_of_pump p fees fs supply rb rq slot in
          blob <- lift (write_pump (pump_row_of p q)) ;;
          commit idx slot rx (PPump q) blob ;;
          ret true
      end
  | _, _, _ => set_status idx ST_INCOMPLETE ;; ret false
  end.

Definition _fail_tx_incomplete (idx : Z) (sig : string) : M unit :=
  with_rec idx (fun r =>
    bump_m MIncompleteAtBoundary ;;
    on_barrier (fun b => set_bm b (bump_incomplete (bm b))) ;;
    when (negb (String.eqb sig "")) (on_barrier (fun b => drop_pool b sig idx)) ;;
    set_rec idx (fun r => r {{ r_stage := empty_stage; r_staged := []; r_status := ST_INCOMPLETE }}) ;;
    rx <- _mono ;;
    slot <- gets s_stream_slot ;;
    log_invalidate idx (r_kind r) rx slot).

(** [x or d] *)
Definition or_z (o : option Z) (d : Z) : Z := or_int o d.

(** Copy the barrier's wait counters. *)
Definition copy_waits : M unit :=
  modify (fun s => s {{ s_gauges ::= fun g =>
    Gauges (ga_expected g) (ga_subscribed g) (ga_received g) (ga_complete g)
      (publish_wait_pair (bm (s_barrier s))) (publish_wait_bin (bm (s_barrier s)))
      (publish_wait_vault (bm (s_barrier s))) }}).

(** The accounts a publication without a transaction reads. *)
Definition current_accounts (s : st) (r : pool_rec) : accounts := freeze (r_required r) (s_bytes s).

(** Publish from a frozen read set; [sig] is the transaction, if any. *)
Definition publish_from (idx : Z) (r : pool_rec) (stream_slot : Z) (sig : option string)
    (reconcile : bool) (accs : accounts) : M unit :=
  rx <- (match st_rx (r_stage r) with
         | Some x => if x =? 0 then _mono else ret x
         | None => _mono
         end) ;;
  let slot := or_z (st_slot (r_stage r)) stream_slot in
  ok <- (match r_kind r with
         | Dlmm => publish_dlmm idx r slot rx accs
         | Pump => publish_pump idx r slot rx accs
         end) ;;
  match sig with
  | Some hx => when ok (bump_m MAuthPredictedExact ;; on_barrier (fun b => drop_pool b hx idx))
  | None => when (ok && reconcile) (bump_m MAuthReconciled)
  end.

(** Publish for a transaction: only from a barrier snapshot. *)
Definition publish_tx (idx : Z) (r : pool_rec) (stream_slot : Z) (hx : string) : M unit :=
  s <- gets id ;;
  match snapshot (s_barrier s) hx idx (r_required r) (s_bytes s) with
  | inl why => bump_m (MSnapshotRejection why) ;; _fail_tx_incomplete idx hx
  | inr accs => publish_from idx r stream_slot (Some hx) false accs
  end.

(** Boot or reconciliation: the read set of the moment. *)
Definition publish_boot (idx : Z) (stream_slot : Z) : M unit :=
  with_rec idx (fun r =>
    s <- gets id ;;
    publish_from idx r stream_slot None (st_reconcile (r_stage r)) (current_accounts s r)).

(** The stage becomes a reconciliation one. *)
Definition reconcile_stage (x : stage) : stage :=
  Stage (st_rx x) (st_slot x) (st_wait x) (Some boot_sig) true.

(** A staged transaction: wait for its shape and its writes, or give up. *)
Definition try_tx (idx : Z) (r : pool_rec) (stream_slot : Z) (hx : string) : M unit :=
  s <- gets id ;;
  let slot := or0 (st_slot (r_stage r)) in
  if negb (has_shape (s_barrier s) hx idx) then
    if slot + 8 <? stream_slot then
      bump_m MNonExactReauth ;;
      set_rec idx (fun r => r {{ r_stage ::= reconcile_stage }}) ;;
      publish_boot idx stream_slot
    else
      bump_m MWaitShape ;; on_barrier (fun b => set_bm b (bump_wait_shape (bm b)))
  else if negb (can_commit (s_barrier s) hx idx) then
    if slot <? stream_slot then _fail_tx_incomplete idx hx
    else
      on_barrier (fun b => mark_wait b (missing b hx idx) (_role s idx)) ;; copy_waits
  else publish_tx idx r stream_slot hx.

(** No key of the stage is set. *)
Definition stage_empty (x : stage) : bool :=
  match x with Stage None None None None false => true | _ => false end.

Definition try_publish (stream_slot : Z) (idx : Z) : M unit :=
  with_rec idx (fun r =>
    s <- gets id ;;
    if negb (pool_complete s r) then set_status idx ST_INCOMPLETE else
    if stage_empty (r_stage r) then ret tt else
    match sig_hex (SigBytes <$> st_sig (r_stage r)) with
    | Some hx => try_tx idx r stream_slot hx
    | None =>
        if is_boot_sig (st_sig (r_stage r)) then publish_boot idx stream_slot else
        let wait := or_z (st_wait (r_stage r)) (or0 (st_slot (r_stage r)) + 1) in
        if stream_slot <? wait then ret tt else publish_boot idx stream_slot
    end).

Definition maybe_publish (stream_slot : Z) : M unit :=
  ps <- gets s_pools ;;
  each (fun e =>
    with_rec (fst e) (fun r =>
      if bool_decide (r_status r = ST_COHERENT) then ret tt
      else try_publish stream_slot (fst e))) ps.

(** * Account updates *)

(** The last three branches: how an update changes the stage's transaction. *)
Definition note_sig (slot : Z) (txn : option bytes) (x : stage) : stage :=
  match txn with
  | Some sg =>
      if bool_decide (sg = []) then Stage (st_rx x) (Some slot) (Some (slot + 1)) (st_sig x) (st_reconcile x)
      else
        match st_sig x with
        | Some old =>
            if negb (bool_decide (old = [])) && negb (bool_decide (sg = old)) &&
               bool_decide (st_slot x = Some slot)
            then Stage (st_rx x) (st_slot x) (Some (slot + 1)) (st_sig x) (st_reconcile x)
            else Stage (st_rx x) (Some slot) (st_wait x) (Some sg) (st_reconcile x)
        | None => Stage (st_rx x) (Some slot) (st_wait x) (Some sg) (st_reconcile x)
        end
  | None => Stage (st_rx x) (Some slot) (Some (slot + 1)) (st_sig x) (st_reconcile x)
  end.

(** One dependent pool of an accepted update. *)
Definition stage_update (row : acct_row) (d : dep_row) : M unit :=
  let idx := d_pool_idx d in
  let pk := a_pubkey row in
  let slot := a_slot row in
  let hx := sig_hex (SigBytes <$> a_sig row) in
  with_rec idx (fun _ =>
    invalidate idx (a_rx row) slot ;;
    set_rec idx (fun r => r {{ r_staged ::= fun l =>
      l ++ [SWrite pk (Some (d_role d)) slot (a_wv row) hx (blen (a_data row))] }}) ;;
    (match hx with
     | Some sig => on_barrier (fun b => note_write b sig slot idx pk (Some row))
     | None => ret tt
     end) ;;
    set_rec idx (fun r => r {{ r_stage ::= note_sig slot (a_sig row) }})).

(** A write at the RPC floor's own slot: the account is given up until a later one. *)
Definition clear_stage (row : acct_row) (d : dep_row) : M unit :=
  let idx := d_pool_idx d in
  with_rec idx (fun _ =>
    invalidate idx (a_rx row) (a_slot row) ;;
    set_rec idx (fun r => r {{ r_stage := empty_stage; r_staged := [] }})).

Definition SEEN_CAP : nat := 400000.

Definition accept (row : acct_row) : M unit :=
  modify (fun s =>
    let seen := {[(a_pubkey row, a_slot row, a_wv row)]} ∪ s_seen s in
    s {{ s_seen := if (SEEN_CAP <? size seen)%nat then ∅ else seen;
         s_last_wv ::= insert (a_pubkey row) (a_wv row);
         s_bytes ::= insert (a_pubkey row) row }}).

Definition apply_update (row : acct_row) (from_buf : bool) : M unit :=
  s <- gets id ;;
  if bool_decide (a_gen row <> s_gen s) || bool_decide (s_gen s = None)
  then bump_m MStaleGeneration else
  let pk := a_pubkey row in
  let slot := a_slot row in
  let wv := a_wv row in
  let floor := default (-1) (s_floors s !! pk) in
  let deps := deps_of (s_acc_deps s) pk in
  if slot <=? floor then
    if (slot =? floor) && (match s_bytes s !! pk with Some r => a_slot r | None => 0 end <=? floor) then
      modify (fun s => s {{ s_bytes ::= delete pk }}) ;;
      each (clear_stage row) deps ;;
      bump_m MRpcAmbiguous
    else ret tt
  else if bool_decide ((pk, slot, wv) ∈ s_seen s) then bump_m MDup
  else if (0 <=? wv) && (wv <? default (-1) (s_last_wv s !! pk)) then ret tt
  else
    accept row ;;
    if s_bootstrapping s && negb from_buf then ret tt else each (stage_update row) deps.

(** * Transactions *)

(** The kernel's snapshot of a published Pump state. *)
Definition kernel_state (q : pub_pump) : pump_state := {|
  base_vault_amount := Some (pp_reserve_base q); quote_vault_amount := Some (pp_reserve_quote q);
  virtual_quote_reserves := Some (pp_virtual_quote q); reserve_base := pp_reserve_base q;
  reserve_quote := pp_reserve_quote q; virtual_quote := Some (pp_virtual_quote q);
  lp_fee_bps := Some (pp_lp q); protocol_fee_bps := Some (pp_protocol q);
  creator_fee_bps := Some (pp_creator_bps q); status := None; amount_in := None;
  direction := None; base_amount_out := None |}.

Definition sdict_of_kernel (s : pump_state) : sdict :=
  SDict (base_vault_amount s) (Some (reserve_base s)) (quote_vault_amount s)
    (Some (reserve_quote s)) (virtual_quote_reserves s) (virtual_quote s)
    None None None None None None None [] ∅ (direction s) (amount_in s).

Definition prediction (sig : string) (idx : Z) (r : pool_rec) (dir amount : option Z)
    (sp : sdict) (auth_slot : Z) : paper :=
  Paper true (Some (SigText sig)) (Some sp) (Note (Some idx) dir amount) (Some auth_slot)
    None None None (Some 1) None None (r_pubkey r) (Some "fastsoak"%string).

Definition predict (sig : string) (idx : Z) (r : pool_rec) (dir amount : option Z) (sp : sdict)
    (auth_slot : Z) : M unit :=
  bump_m MFastsoakPredict ;;
  now <- wall ;;
  on_gate (ingest_direct now (prediction sig idx r dir amount sp auth_slot)).

Definition predict_pump (sig : string) (idx : Z) (r : pool_rec) (q : pub_pump)
    (ixs : list parsed_ix) : M unit :=
  let cpis := cpis_from_parsed ixs (default EmptyString (r_pubkey r)) in
  if existsb is_unknown cpis then bump_m MFastsoakFailClosed else
  match last cpis with
  | None => bump_m MFastsoakSkipApply
  | Some c =>
      match apply_sequence (kernel_state q) cpis with
      | inr UnsupportedCpi => bump_m MFastsoakFailClosed
      | inr AssociationAmbiguity => bump_m MFastsoakSkipApply
      | inl term => predict sig idx r (c_direction c) (c_amount c) (sdict_of_kernel term) (pp_slot q)
      end
  end.

(** The first exact instruction of the pool with its data. *)
Definition dlmm_hit (pubkey : string) (ixs : list parsed_ix) : option (parsed_ix * bytes) :=
  head (omap (fun ix =>
    match data_of (p_data ix), p_accounts ix with
    | Some data, a :: _ =>
        if bool_decide (is_Some (classify_ix (p_program ix) data)) && String.eqb a pubkey
        then Some (ix, data) else None
    | _, _ => None
    end) ixs).

Definition predict_dlmm (sig : string) (idx : Z) (r : pool_rec) (last_s : published)
    (blob : bytes) (pubkey : string) (ixs : list parsed_ix) : M unit :=
  match dlmm_hit pubkey ixs with
  | None => bump_m MFastsoakSkipApply
  | Some (ix, data) =>
      o <- lift (apply_ix (e_pubkey env) (e_apply env) (p_accounts ix) data blob) ;;
      match o with
      | None => bump_m MFastsoakSkipApply
      | Some sp => predict sig idx r (sd_direction sp) (sd_amount_in sp) sp (pub_slot last_s)
      end
  end.

(** One pool of the transaction; without a published state there is nothing to predict from. *)
Definition predict_pool (sig : string) (ixs : list parsed_ix) (e : Z * exp_row) : M unit :=
  with_rec (fst e) (fun r =>
    match r_last_s r, r_last_blob r with
    | Some last_s, Some blob =>
        match last_s with
        | PPump q => predict_pump sig (fst e) r q ixs
        | PDlmm _ => predict_dlmm sig (fst e) r last_s blob (x_pubkey (snd e)) ixs
        end
    | _, _ => bump_m MFastsoakSkipNoAuth
    end).

Definition _fastsoak_predict (sig : string) (expect : exp_map) (ixs : list parsed_ix) : M unit :=
  each (predict_pool sig ixs) expect.

(** Accounts the transaction writes beyond the pool's known ones become bin requirements. *)
Definition require_expected (idx : Z) (pk : string) : M unit :=
  with_rec idx (fun r =>
    s <- gets id ;;
    if bool_decide (_role s idx pk = None) && bool_decide (r_kind r = Dlmm)
       && negb (bool_decide (r_pubkey r = Some pk))
    then added <- add_required idx pk ROLE_DLMM_BIN ;;
         s <- gets id ;;
         when added (subscribe_keys (od_keys (s_acc_deps s)))
    else ret tt).

Definition apply_tx (ev : tx_event) : M unit :=
  s <- gets id ;;
  if bool_decide (t_gen ev <> s_gen s) || bool_decide (s_gen s = None) then ret tt else
  match t_parsed ev with
  | None => ret tt
  | Some (sig, _, ixs) =>
      let expect := expect_from_instructions ixs (s_acc_deps s) (_pools_by_pk s) in
      let klass := tx_exact_status ixs in
      when (negb (n_unknown klass =? 0)%nat) (bump_m MTxUnknownDex ;; bump_m MUnsupportedShape) ;;
      bump_many MTxExactSeen (n_exact klass) ;;
      match expect with
      | [] => ret tt
      | _ =>
          each (fun e => each (require_expected (fst e)) (elements (x_expected (snd e)))) expect ;;
          on_barrier (fun b => note_tx b sig (t_slot ev) expect) ;;
          when (negb (n_exact klass =? 0)%nat) (_fastsoak_predict sig expect ixs) ;;
          slot <- gets s_stream_slot ;;
          maybe_publish slot
      end
  end.

(** * Bootstrap *)

Definition boot_rows (accs : list (string * rpc_row)) : list (string * rpc_row) :=
  filter (fun kr => negb (bool_decide (rw_data kr.2 = [])) && (0 <? rw_slot kr.2) = true) accs.

(** [{pk: self.rpc_row(pk, row) for ...}] *)
Fixpoint boot_bytes (rows : list (string * rpc_row)) (acc : gmap string acct_row)
    : M (gmap string acct_row) :=
  match rows with
  | [] => ret acc
  | kr :: rows' => row <- to_row kr.1 kr.2 ;; boot_bytes rows' (<[kr.1 := row]> acc)
  end.

Definition max_slot (m : gmap string Z) : Z := foldr Z.max 0 (map_to_list m).*2.

(** The highest slot among the pool's required accounts. *)
Definition required_slot (s : st) (r : pool_rec) : Z :=
  foldr Z.max 0 ((fun pk => match s_bytes s !! pk with Some x => a_slot x | None => 0 end)
                   <$> elements (r_required r)).

Definition boot_pool (idx : Z) : M unit :=
  with_rec idx (fun r =>
    s <- gets id ;;
    if pool_complete s r then
      let slot := required_slot s r in
      rx <- _mono ;;
      set_rec idx (fun r => r {{ r_stage := Stage (Some rx) (Some slot) None (Some boot_sig) false }}) ;;
      try_publish (Z.max (s_stream_slot s) slot) idx
    else set_status idx ST_INCOMPLETE).

Definition replay_event (ev : event) : M unit :=
  match ev with
  | EvAccount row => apply_update row true
  | EvTx t => apply_tx t
  | _ => ret tt
  end.

Definition finish_bootstrap (gen token : option string) (accs : list (string * rpc_row)) : M unit :=
  s <- gets id ;;
  if bool_decide (s_gen s = None) || bool_decide (gen <> s_gen s)
     || bool_decide (s_token s = None) || bool_decide (token <> s_token s) || s_done s
  then ret tt else
  rows <- boot_bytes (boot_rows accs) ∅ ;;
  modify (fun s => s {{ s_bytes := rows; s_floors := a_slot <$> rows;
                        s_boot_slot := max_slot (a_slot <$> rows); s_buf := [] }}) ;;
  each replay_event (s_buf s) ;;
  modify (fun s => s {{ s_done := true; s_bootstrapping := false }}) ;;
  ps <- gets s_pools ;;
  each (fun e => boot_pool (fst e)) ps ;;
  _recount ;;
  s <- gets id ;;
  when ((0 <? s_boot_slot s) && (s_boot_slot s <=? s_stream_slot s)) mark_ready.

(** * The handler *)

Inductive hresult :=
  | HStaleGeneration | HJournal (r : jresult) | HProcessedSlot | HStaleBootstrap
  | HBootstrapPlan | HBootstrapResult | HFetchError | HBootstrapInProgress | HUnivResult
  | HDependencyResult | HBufferOverflow | HBuffered | HTx | HAccount.
#[export] Instance hresult_eq_dec : EqDecision hresult.
Proof. solve_decision. Defined.

Definition BUF_CAP : nat := 20000.

Definition expire_pool (e : string * Z) : M unit :=
  with_rec e.2 (fun r =>
    if bool_decide (r_status r = ST_STAGING) then _fail_tx_incomplete e.2 e.1 else ret tt).

(** The state machine of processed slots. *)
Definition on_slot (gen : option string) (slot : Z) : M unit :=
  prev <- gets s_stream_slot ;;
  modify (fun s => s {{ s_stream_slot := Z.max prev slot }}) ;;
  when (negb (prev =? 0) && (prev + 32 <? slot))
    (reset_connection gen ;; modify (fun s => s {{ s_stream_slot := slot }})) ;;
  s <- gets id ;;
  when (s_bootstrapping s && bool_decide (s_token s = None))
    (modify (fun s =>
       let token := Some (e_token env (s_ticks s)) in
       s {{ s_token := token; s_tasks ::= fun ts => ts ++ [TaskBootstrap gen token];
            s_ticks ::= S }})) ;;
  s <- gets id ;;
  when (s_done s && negb (s_ready s) && (0 <? s_boot_slot s) && (s_boot_slot s <=? s_stream_slot s))
    mark_ready ;;
  s <- gets id ;;
  when (s_ready s)
    (each expire_pool (expire_at_boundary (s_barrier s) (s_stream_slot s)) ;;
     slot <- gets s_stream_slot ;;
     maybe_publish slot).

Definition on_bank (ev : bank_event) : M hresult :=
  s <- gets id ;;
  let '(j, res) := BankJournal.apply (s_journal s) ev in
  modify (fun s => s {{ s_journal := j }}) ;;
  match ev with
  | EBank gen slot _ _ (BSlot _ status) =>
      if negb (status =? 0) then ret (HJournal res) else on_slot gen slot ;; ret HProcessedSlot
  | _ => ret (HJournal res)
  end.

(** Whether a bootstrap message is for the running bootstrap. *)
Definition boot_current (s : st) (token : option string) : bool :=
  negb (bool_decide (s_token s = None)) && bool_decide (token = s_token s) && negb (s_done s).

Definition settle : M unit :=
  _recount ;; slot <- gets s_stream_slot ;; maybe_publish slot.

Definition on_boot_message (token : option string) (m : M unit) (r : hresult) : M hresult :=
  s <- gets id ;;
  if negb (boot_current s token) then bump_m MStaleBootstrap ;; ret HStaleBootstrap
  else m ;; ret r.

Definition on_plan (plan : generation) : M unit :=
  install_generation plan [] ;;
  s <- gets id ;;
  subscribe_keys (od_keys (s_acc_deps s)) ;;
  fetch_async TBootstrapResult (od_keys (s_acc_deps s)) (s_token s).

Definition on_stream (gen : option string) (ev : event) (m : M unit) (r : hresult) : M hresult :=
  s <- gets id ;;
  if s_bootstrapping s then
    modify (fun s => s {{ s_buf ::= fun b => b ++ [ev] }}) ;;
    n <- gets (fun s => length (s_buf s)) ;;
    if (BUF_CAP <? n)%nat
    then bump_m MBufferOverflow ;; reset_connection gen ;; ret HBufferOverflow
    else ret HBuffered
  else m ;; ret r.

Definition handle_event (ev : event) : M hresult :=
  s <- gets id ;;
  if bool_decide (event_gen ev = None) || bool_decide (event_gen ev <> s_gen s)
  then bump_m MStaleGeneration ;; ret HStaleGeneration else
  match ev with
  | EvBank b => on_bank b
  | EvPlan _ token plan => on_boot_message token (on_plan plan) HBootstrapPlan
  | EvBoot gen token accs => on_boot_message token (finish_bootstrap gen token accs) HBootstrapResult
  | EvFetchError _ token =>
      bump_m MFetchErrors ;;
      s <- gets id ;;
      when (boot_current s token) (modify (fun s => s {{ s_token := None }})) ;;
      ret HFetchError
  | EvUniv _ plan accs mtime =>
      if s_bootstrapping s then ret HBootstrapInProgress else
      modify (fun s => s {{ s_univ_mtime := mtime }}) ;;
      install_generation plan accs ;;
      s <- gets id ;;
      subscribe_keys (od_keys (s_acc_deps s)) ;;
      settle ;; ret HUnivResult
  | EvDeps _ accs =>
      if s_bootstrapping s then ret HBootstrapInProgress else
      each adopt_row accs ;; settle ;; ret HDependencyResult
  | EvTx t => on_stream (t_gen t) ev (apply_tx t) HTx
  | EvAccount row =>
      on_stream (a_gen row) ev
        (apply_update row false ;; slot <- gets s_stream_slot ;; maybe_publish slot) HAccount
  end.

(** * The other threads' turns, under the state lock *)

(** The gRPC loop: a connection opens with a fresh generation; when it ends, the generation is
    given up if it is still current. *)
Definition connect : M unit :=
  gen <- (fun s => (s {{ s_ticks ::= S }}, Ret (e_token env (s_ticks s)))) ;;
  reset_connection (Some gen).

Definition disconnect (gen : option string) : M unit :=
  s <- gets id ;;
  when (bool_decide (s_gen s = gen)) (reset_connection None).

(** The metrics loop. *)
Definition metrics_turn : M unit :=
  _recount ;; now <- wall ;; on_gate (expire_stale now).

(** The shadow loop: a paper record is taken only while ready. *)
Definition shadow_turn (r : paper) : M unit :=
  s <- gets id ;;
  now <- wall ;;
  when (s_ready s) (on_gate (ingest_paper now r)).

(** The decode loop's idle turn. *)
Definition idle : M unit :=
  s <- gets id ;;
  when (s_ready s) (maybe_publish (s_stream_slot s)).

End plane.
