(* ===== verification/StateInv.v ===== *)
(** Invariants of the coherent-state plane (State008): what holds of every state the handler and
    the other threads can reach.  Operations are reasoned about with triples over the monad. *)
From stdpp Require Import base list strings gmap.
From Stdlib Require Import ZArith Lia.
From coqutil.Datatypes Require Import RecordSetters.
From S2P Require Import Prelude PyBytes Pda Accounts Submap TxExpect TxBarrier.
From S2P Require Import Recon Shadow BankJournal AuthRing Deps ApplyN State008.
Import RecordSetters.DoubleBraceUpdate.
Open Scope Z_scope.

(** * Triples *)

(** From [P], [m] ends in [Q] whenever it does not raise. *)
Definition triple {A} (P : st -> Prop) (m : M A) (Q : A -> st -> Prop) : Prop :=
  forall s s' a, P s -> m s = (s', Ret a) -> Q a s'.

Definition keeps {A} (P : st -> Prop) (m : M A) : Prop := triple P m (fun _ => P).

Lemma triple_bind {A B} P (m : M A) (f : A -> M B) Q R :
  triple P m Q -> (forall a, triple (Q a) (f a) R) -> triple P (bind m f) R.
Proof.
  intros Hm Hf s s' b HP H. unfold bind in H. destruct (m s) as [s1 [a|e]] eqn:E; [|done].
  eapply Hf; [|exact H]. by eapply Hm.
Qed.

Lemma triple_weaken {A} (P P' : st -> Prop) (m : M A) Q Q' :
  (forall s, P s -> P' s) -> (forall a s, Q' a s -> Q a s) -> triple P' m Q' -> triple P m Q.
Proof. intros HP HQ H s s' a Hs He. eapply HQ, H; [|exact He]. by apply HP. Qed.

Lemma keeps_bind {A B} P (m : M A) (f : A -> M B) :
  keeps P m -> (forall a, keeps P (f a)) -> keeps P (bind m f).
Proof. intros Hm Hf. by eapply triple_bind. Qed.

Lemma keeps_ret {A} P (a : A) : keeps P (ret a).
Proof. intros s s' b HP [= <- <-]. done. Qed.

Lemma keeps_lift {A} P (r : pyres A) : keeps P (lift r).
Proof. intros s s' b HP [= <- Hr]. done. Qed.

(** Reading the state: the continuation may use what it read. *)
Lemma triple_gets {A B} (P : st -> Prop) (f : st -> A) (k : A -> M B) Q :
  (forall s0, P s0 -> triple (fun s => s = s0) (k (f s0)) Q) -> triple P (bind (gets f) k) Q.
Proof. intros H s s' b HP He. unfold bind, gets in He. by eapply (H s). Qed.

Lemma keeps_gets_bind {A B} (P : st -> Prop) (f : st -> A) (k : A -> M B) :
  (forall a, keeps P (k a)) -> keeps P (bind (gets f) k).
Proof. intros H s s' b HP He. unfold bind, gets in He. by eapply H. Qed.

Lemma keeps_each {A} P (f : A -> M unit) l : (forall x, x ∈ l -> keeps P (f x)) -> keeps P (each f l).
Proof.
  induction l as [|x l IH]; intros H; cbn [each]; [apply keeps_ret|].
  apply keeps_bind; [apply H; by left|]. intros _. apply IH. intros y Hy. apply H. by right.
Qed.

Lemma keeps_when P b m : keeps P m -> keeps P (when b m).
Proof. intros H. destruct b; [done|apply keeps_ret]. Qed.

Lemma keeps_modify (P : st -> Prop) f : (forall s, P s -> P (f s)) -> keeps P (modify f).
Proof. intros H s s' a HP [= <- _]. by apply H. Qed.

Lemma keeps_with_rec P idx f :
  (forall r, keeps P (f r)) -> keeps P (with_rec idx f).
Proof.
  intros H. unfold with_rec, get_rec. apply keeps_gets_bind. intros [r|]; [done|apply keeps_ret].
Qed.

Lemma triple_at {A} (P : st -> Prop) s0 (m : M A) Q :
  P s0 -> triple P m Q -> triple (fun s => s = s0) m Q.
Proof. intros HP H s s' a Hs He. subst s. by eapply H. Qed.

(** * What the invariants read *)

Record view := View {
  v_bytes : gmap string acct_row; v_pools : list (Z * pool_rec); v_deps : acc_map;
  v_gen : option string; v_done : bool; v_boot : bool; v_ready : bool }.

Definition view_of (s : st) : view :=
  View (s_bytes s) (s_pools s) (s_acc_deps s) (s_gen s) (s_done s) (s_bootstrapping s) (s_ready s).

(** An operation that leaves a part of the state alone. *)
Definition leaves {T A} (p : st -> T) (m : M A) : Prop := forall s, p (fst (m s)) = p s.

Section leaves.
Context {T : Type} (p : st -> T).

Lemma leaves_keeps {A} (P : T -> Prop) (m : M A) : leaves p m -> keeps (fun s => P (p s)) m.
Proof.
  intros H s s' a HP He. specialize (H s). rewrite He in H. cbn in H. by rewrite H.
Qed.

Lemma leaves_bind {A B} (m : M A) (f : A -> M B) :
  leaves p m -> (forall a, leaves p (f a)) -> leaves p (bind m f).
Proof.
  intros Hm Hf s. unfold bind. specialize (Hm s). destruct (m s) as [s1 [a|e]]; cbn in *; [|done].
  by rewrite Hf, Hm.
Qed.

Lemma leaves_ret {A} (a : A) : leaves p (ret a). Proof. done. Qed.
Lemma leaves_gets {A} (f : st -> A) : leaves p (gets f). Proof. done. Qed.
Lemma leaves_lift {A} (r : pyres A) : leaves p (lift r). Proof. done. Qed.
Lemma leaves_modify f : (forall s, p (f s) = p s) -> leaves p (modify f).
Proof. intros H s. apply H. Qed.
Lemma leaves_when b m : leaves p m -> leaves p (when b m).
Proof. intros H. by destruct b. Qed.
Lemma leaves_each {A} (f : A -> M unit) l : (forall x, leaves p (f x)) -> leaves p (each f l).
Proof.
  intros H. induction l as [|x l IH]; [done|]. cbn [each]. by apply leaves_bind.
Qed.
Lemma leaves_with_rec idx f : (forall r, leaves p (f r)) -> leaves p (with_rec idx f).
Proof. intros H. apply leaves_bind; [done|]. intros [r|]; [apply H|done]. Qed.

Lemma leaves_on_rf f : (forall s x, p (s {{ s_rf := x }}) = p s) -> leaves p (on_rf f).
Proof. intros H s. unfold on_rf. destruct (f (s_rf s)). apply H. Qed.
End leaves.

(** An operation outside the view. *)
Abbreviation quiet := (leaves view_of).

Lemma quiet_on_auth f : quiet (on_auth f).
Proof. intros s. unfold on_auth. by destruct (f (s_auth s)). Qed.
Lemma quiet_on_rf f : quiet (on_rf f).
Proof. by apply leaves_on_rf. Qed.

#[export] Hint Resolve leaves_bind leaves_ret leaves_gets leaves_lift leaves_when leaves_each
  leaves_with_rec quiet_on_auth quiet_on_rf : quiet.

(** * The invariant *)

Definition holds_data (bs : gmap string acct_row) (r : pool_rec) : Prop :=
  r_required r <> ∅ /\ forall pk, pk ∈ r_required r -> has_data (bs !! pk) = true.

Lemma pool_complete_spec s r : pool_complete s r = true <-> holds_data (s_bytes s) r.
Proof.
  unfold pool_complete, holds_data, have. rewrite andb_true_iff, negb_true_iff, bool_decide_eq_false.
  rewrite forallb_forall. setoid_rewrite <- list_elem_of_In. by setoid_rewrite elem_of_elements.
Qed.

(** The invariant but for the coherent pools of [X], which may still miss data. *)
Record core (X : Z -> Prop) (v : view) : Prop := {
  co_phase : v_boot v = negb (v_done v);
  co_ready : v_ready v = true -> v_done v = true /\ v_gen v <> None;
  co_rows : forall pk row, v_bytes v !! pk = Some row ->
    a_gen row = v_gen v /\ v_gen v <> None /\ a_pubkey row = pk;
  co_coherent : forall idx r, od_get (v_pools v) idx = Some r -> ~ X idx ->
    r_status r = ST_COHERENT -> holds_data (v_bytes v) r;
  co_deps : forall idx r pk, od_get (v_pools v) idx = Some r -> pk ∈ r_required r ->
    exists d, d ∈ deps_of (v_deps v) pk /\ d_pool_idx d = idx }.

Definition nowhere : Z -> Prop := fun _ => False.
Definition everywhere : Z -> Prop := fun _ => True.

(** No pool is coherent. *)
Definition dark (v : view) : Prop :=
  forall idx r, od_get (v_pools v) idx = Some r -> r_status r <> ST_COHERENT.

(** The invariant between two turns. *)
Definition inv (v : view) : Prop := core nowhere v /\ (v_done v = false -> dark v).

Definition Core (X : Z -> Prop) (b : bool) (s : st) : Prop :=
  core X (view_of s) /\ s_done s = b.

Lemma core_mono (X Y : Z -> Prop) v : (forall i, X i -> Y i) -> core X v -> core Y v.
Proof. intros H [? ? ? Hc ?]. constructor; try done. intros idx r Hr HY. apply (Hc idx r Hr). auto. Qed.

Lemma quiet_core {A} X b (m : M A) : quiet m -> keeps (Core X b) m.
Proof.
  intros Hq s s' a [Hc Hd] He. specialize (Hq s). rewrite He in Hq. cbn in Hq.
  split; [by rewrite Hq|]. injection Hq as _ _ _ _ Hdone _ _. by rewrite Hdone.
Qed.

(** ** Records *)

Lemma view_set_rec idx f s :
  view_of (fst (set_rec idx f s)) =
  View (s_bytes s) (match od_get (s_pools s) idx with
                    | Some r => od_set (s_pools s) idx (f r) | None => s_pools s end)
    (s_acc_deps s) (s_gen s) (s_done s) (s_bootstrapping s) (s_ready s).
Proof. done. Qed.

(** A change of a record that asks for no new account and makes nothing coherent. *)
Definition tame (f : pool_rec -> pool_rec) : Prop :=
  forall r, r_required (f r) = r_required r /\
    (r_status (f r) = ST_COHERENT -> r_status r = ST_COHERENT).

Lemma set_rec_core X b idx f : tame f -> keeps (Core X b) (set_rec idx f).
Proof.
  intros Hf s s' a [[Hp Hr Hb Hc Hd] Hdone] He.
  assert (s' = fst (set_rec idx f s)) as -> by (by rewrite He). clear He.
  split; [|done]. rewrite view_set_rec.
  constructor; cbn [v_boot v_done v_ready v_gen v_bytes v_pools v_deps]; try done.
  - intros i r Hi. destruct (od_get (s_pools s) idx) as [r0|] eqn:E; [|by apply Hc].
    rewrite od_get_set in Hi. case_decide as Hdec; [|by apply Hc].
    injection Hi as <-. subst i. intros HX Hst. destruct (Hf r0) as [Hreq Hstat].
    destruct (Hc idx r0 E HX (Hstat Hst)) as [H1 H2]. split; by rewrite Hreq.
  - intros i r pk Hi. destruct (od_get (s_pools s) idx) as [r0|] eqn:E; [|by apply Hd].
    rewrite od_get_set in Hi. case_decide as Hdec; [|by apply Hd].
    injection Hi as <-. subst i. destruct (Hf r0) as [Hreq _]. rewrite Hreq. by apply Hd.
Qed.

(** Taking a pool's coherence away also takes it out of the exceptions. *)
Lemma set_rec_uncoherent X b idx f :
  (forall r, r_required (f r) = r_required r /\ r_status (f r) <> ST_COHERENT) ->
  triple (Core X b) (set_rec idx f) (fun _ => Core (fun i => X i /\ i <> idx) b).
Proof.
  intros Hf s s' a [[Hp Hr Hb Hc Hd] Hdone] He.
  assert (s' = fst (set_rec idx f s)) as -> by (by rewrite He). clear He.
  split; [|done]. rewrite view_set_rec.
  constructor; cbn [v_boot v_done v_ready v_gen v_bytes v_pools v_deps]; try done.
  - intros i r Hi HX Hst. destruct (od_get (s_pools s) idx) as [r0|] eqn:E.
    + rewrite od_get_set in Hi. case_decide as Hdec.
      * injection Hi as <-. by destruct (Hf r0).
      * apply (Hc i r Hi); [|done]. intros Hx. by apply HX.
    + apply (Hc i r Hi); [|done]. intros Hx. apply HX. split; [done|]. intros ->. congruence.
  - intros i r pk Hi. destruct (od_get (s_pools s) idx) as [r0|] eqn:E; [|by apply Hd].
    rewrite od_get_set in Hi. case_decide as Hdec; [|by apply Hd].
    injection Hi as <-. subst i. destruct (Hf r0) as [Hreq _]. rewrite Hreq. by apply Hd.
Qed.

Section facts.
Context (env : environ).

Lemma quiet_mono : quiet (_mono env). Proof. done. Qed.
Lemma quiet_bump k : quiet (bump_m k). Proof. done. Qed.
Lemma quiet_bump_many k n : quiet (bump_many k n). Proof. done. Qed.
Lemma quiet_barrier f : quiet (on_barrier f). Proof. done. Qed.
Lemma quiet_gate f : quiet (on_gate f). Proof. done. Qed.
Lemma quiet_lat_stage rx : quiet (lat_stage env rx). Proof. done. Qed.
Lemma quiet_lat_pub rx : quiet (lat_pub env rx). Proof. done. Qed.
Lemma quiet_log idx k rx slot : quiet (log_invalidate idx k rx slot).
Proof. apply quiet_on_rf. Qed.
Lemma quiet_subscribe ks : quiet (subscribe_keys ks). Proof. done. Qed.
Lemma quiet_fetch k ks t : quiet (fetch_async k ks t). Proof. done. Qed.
Lemma quiet_copy_waits : quiet copy_waits. Proof. done. Qed.
Lemma quiet_wall : quiet (wall env). Proof. done. Qed.
Lemma quiet_to_row pk row : quiet (to_row env pk row). Proof. done. Qed.

#[local] Hint Resolve quiet_mono quiet_bump quiet_bump_many quiet_barrier quiet_gate
  quiet_lat_stage quiet_lat_pub quiet_log quiet_subscribe quiet_fetch quiet_copy_waits quiet_wall
  quiet_to_row : quiet.

(** Descend through the structure of an operation; what is left are its state changes. *)
Ltac keep_step :=
  match goal with
  | |- keeps _ (bind (gets _) _) => apply keeps_gets_bind; intros ?
  | |- keeps _ (bind _ _) => apply keeps_bind; [|intros ?]
  | |- keeps _ (ret _) => apply keeps_ret
  | |- keeps _ (lift _) => apply keeps_lift
  | |- keeps _ (when _ _) => apply keeps_when
  | |- keeps _ (with_rec _ _) => apply keeps_with_rec; intros ?
  | |- keeps _ (each _ _) => apply keeps_each; intros ? ?
  | |- keeps _ (if ?b then _ else _) => destruct b
  | |- keeps _ (match ?x with _ => _ end) => destruct x
  | |- keeps (Core _ _) (set_rec _ _) => apply set_rec_core; intros ?; done
  | |- keeps (Core _ _) (set_status _ _) => apply set_rec_core; intros ?; done
  | |- keeps (Core _ _) _ => apply quiet_core; solve [eauto 6 with quiet]
  end.
Ltac as_keeps :=
  cbv beta; match goal with |- triple ?P ?m (fun _ => ?P) => change (keeps P m) end.
Ltac keep := try as_keeps; repeat keep_step.

(** ** Staging *)

Lemma invalidate_core X b idx rx slot : keeps (Core X b) (invalidate env idx rx slot).
Proof. unfold invalidate. keep. Qed.

Lemma fail_core X b idx sig : keeps (Core X b) (_fail_tx_incomplete env idx sig).
Proof. unfold _fail_tx_incomplete. keep. Qed.

(** [invalidate] makes the pool uncoherent. *)
Lemma invalidate_uncoherent X b idx rx slot :
  triple (Core X b) (invalidate env idx rx slot) (fun _ => Core (fun i => X i /\ i <> idx) b).
Proof.
  unfold invalidate, with_rec, get_rec. apply triple_gets. intros s0 H0.
  destruct (od_get (s_pools s0) idx) as [r|] eqn:E.
  - eapply triple_at; [exact H0|].
    eapply triple_bind; [apply keeps_when; keep|intros ?].
    eapply triple_bind; [by apply set_rec_uncoherent|intros ?; keep].
  - intros s s' a Hs [= <- _]. subst s. destruct H0 as [[Hp Hr Hb Hc Hd] Hdone]. split; [|done].
    constructor; try done. intros i r Hi HX. apply (Hc i r Hi). intros Hx. apply HX.
    split; [done|]. intros ->. cbn in Hi. congruence.
Qed.

Lemma stage_update_core X b row d :
  triple (Core X b) (stage_update env row d)
    (fun _ => Core (fun i => X i /\ i <> d_pool_idx d) b).
Proof.
  unfold stage_update, with_rec at 1, get_rec. apply triple_gets. intros s0 H0.
  destruct (od_get (s_pools s0) (d_pool_idx d)) as [r|] eqn:E.
  - eapply triple_at; [exact H0|].
    eapply triple_bind; [apply invalidate_uncoherent|intros ?]. keep.
  - intros s s' a Hs [= <- _]. subst s. destruct H0 as [[Hp Hr Hb Hc Hd] Hdone]. split; [|done].
    constructor; try done. intros i r Hi HX. apply (Hc i r Hi). intros Hx. apply HX.
    split; [done|]. intros ->. cbn in Hi. congruence.
Qed.

Lemma clear_stage_core X b row d :
  triple (Core X b) (clear_stage env row d)
    (fun _ => Core (fun i => X i /\ i <> d_pool_idx d) b).
Proof.
  unfold clear_stage, with_rec at 1, get_rec. apply triple_gets. intros s0 H0.
  destruct (od_get (s_pools s0) (d_pool_idx d)) as [r|] eqn:E.
  - eapply triple_at; [exact H0|].
    eapply triple_bind; [apply invalidate_uncoherent|intros ?]. keep.
  - intros s s' a Hs [= <- _]. subst s. destruct H0 as [[Hp Hr Hb Hc Hd] Hdone]. split; [|done].
    constructor; try done. intros i r Hi HX. apply (Hc i r Hi). intros Hx. apply HX.
    split; [done|]. intros ->. cbn in Hi. congruence.
Qed.

(** Walking over a list takes the pool of each element out of the exceptions. *)
Lemma each_strip {A} X b (key : A -> Z) (f : A -> M unit) ds :
  (forall X d, triple (Core X b) (f d) (fun _ => Core (fun i => X i /\ i <> key d) b)) ->
  triple (Core X b) (each f ds)
    (fun _ => Core (fun i => X i /\ forall d, d ∈ ds -> i <> key d) b).
Proof.
  intros Hf. revert X. induction ds as [|d ds IH]; intros X; cbn [each].
  - intros s s' a [Hc Hd] [= <- _]. split; [|done]. eapply core_mono; [|exact Hc].
    intros i Hi. split; [done|]. intros d Hd'. by apply elem_of_nil in Hd'.
  - eapply triple_bind; [apply Hf|intros _x].
    intros s s' a H He. destruct (IH _ s s' a H He) as [Hc Hd]. split; [|done].
    eapply core_mono; [|exact Hc]. intros i [[Hi Hne] Hall]. split; [done|].
    intros d' Hd'. apply elem_of_cons in Hd' as [->|Hd']; [done|by apply Hall].
Qed.

Definition dependents (s : st) (pk : string) : Z -> Prop :=
  fun i => exists d, d ∈ deps_of (s_acc_deps s) pk /\ d_pool_idx d = i.

(** Changing the row of one account leaves only its dependents in doubt. *)
Lemma bytes_core b s pk (bs : gmap string acct_row) :
  Core nowhere b s ->
  (forall pk', pk' <> pk -> bs !! pk' = s_bytes s !! pk') ->
  (forall row, bs !! pk = Some row -> a_gen row = s_gen s /\ s_gen s <> None /\ a_pubkey row = pk) ->
  core (dependents s pk) (View bs (s_pools s) (s_acc_deps s) (s_gen s) (s_done s)
                               (s_bootstrapping s) (s_ready s)).
Proof.
  intros [[Hp Hr Hb Hc Hd] _] Hoth Hrow. constructor; cbn; try done.
  - intros pk' row Hpk. destruct (decide (pk' = pk)) as [->|Hne]; [by apply Hrow|].
    rewrite Hoth in Hpk by done. by apply Hb.
  - intros i r Hi HX Hst. destruct (Hc i r Hi) as [H1 H2]; [intros []|done|].
    split; [done|]. intros pk' Hpk'. destruct (decide (pk' = pk)) as [->|Hne].
    + destruct HX. destruct (Hd i r pk Hi Hpk') as (d&?&?). by exists d.
    + rewrite Hoth by done. by apply H2.
Qed.

Lemma strip_dependents b s0 pk (f : dep_row -> M unit) :
  (forall X d, triple (Core X b) (f d) (fun _ => Core (fun i => X i /\ i <> d_pool_idx d) b)) ->
  triple (Core (dependents s0 pk) b) (each f (deps_of (s_acc_deps s0) pk))
    (fun _ => Core nowhere b).
Proof.
  intros Hf. eapply triple_weaken; [intros s H; exact H| |by apply (each_strip _ _ d_pool_idx)].
  intros a s [Hc Hd]. split; [|done]. eapply core_mono; [|exact Hc].
  intros i [(d&Hd'&Hi) Hall]. by destruct (Hall d Hd').
Qed.

Lemma apply_update_core b row from_buf :
  triple (fun s => Core nowhere b s /\ (from_buf = true \/ s_bootstrapping s = false))
    (apply_update env row from_buf) (fun _ => Core nowhere b).
Proof.
  unfold apply_update. apply triple_gets. intros s0 [H0 Hbuf]. unfold id.
  destruct (bool_decide (a_gen row <> s_gen s0) || bool_decide (s_gen s0 = None)) eqn:Eg.
  { eapply triple_at; [exact H0|]. keep. }
  apply orb_false_iff in Eg as [Eg1 Eg2].
  apply bool_decide_eq_false in Eg1, Eg2. apply dec_stable in Eg1.
  destruct (a_slot row <=? _).
  { destruct (_ && _); [|eapply triple_at; [exact H0|]; keep].
    eapply triple_bind.
    { intros s s' a Hs [= <- _]. subst s.
      instantiate (1 := fun _ => Core (dependents s0 (a_pubkey row)) b). split; [|apply H0].
      apply (bytes_core b s0 (a_pubkey row) (delete (a_pubkey row) (s_bytes s0)) H0).
      - intros pk' Hne. by rewrite lookup_delete_ne.
      - intros r. by rewrite lookup_delete_eq. }
    intros ?. cbv beta. eapply triple_bind; [apply strip_dependents; intros; apply clear_stage_core|].
    intros ?. keep. }
  destruct (bool_decide (_ ∈ s_seen s0)); [eapply triple_at; [exact H0|]; keep|].
  destruct ((0 <=? a_wv row) && _); [eapply triple_at; [exact H0|]; keep|].
  eapply triple_bind.
  { intros s s' a Hs [= <- _]. subst s.
    instantiate (1 := fun _ => Core (dependents s0 (a_pubkey row)) b). split; [|apply H0].
    apply (bytes_core b s0 (a_pubkey row) (insert (a_pubkey row) row (s_bytes s0)) H0).
    - intros pk' Hne. by rewrite lookup_insert_ne.
    - intros r. rewrite lookup_insert_eq. intros [= <-]. done. }
  intros ?. cbv beta. destruct (s_bootstrapping s0 && negb from_buf) eqn:Eb.
  { apply andb_true_iff in Eb as [Eb1 Eb2]. apply negb_true_iff in Eb2.
    destruct Hbuf; congruence. }
  apply strip_dependents. intros. apply stage_update_core.
Qed.

(** ** Publication *)

(** The pool still asks for [req]. *)
Definition asks (idx : Z) (req : gset string) (v : view) : Prop :=
  exists r, od_get (v_pools v) idx = Some r /\ r_required r = req.

(** [accs] is the pool's frozen read set. *)
Definition frozen (idx : Z) (req : gset string) (accs : accounts) (v : view) : Prop :=
  asks idx req v /\ accs = freeze req (v_bytes v).

Definition At (X : Z -> Prop) (b : bool) (Q : view -> Prop) (s : st) : Prop :=
  Core X b s /\ Q (view_of s).

Lemma at_core {A} X b Q (m : M A) R : triple (Core X b) m R -> triple (At X b Q) m R.
Proof. intros H s s' a [Hc _] He. by eapply H. Qed.

Lemma quiet_at {A} X b Q (m : M A) : quiet m -> keeps (At X b Q) m.
Proof.
  intros Hq s s' a [Hc HQ] He. split; [by eapply (quiet_core X b m Hq)|].
  specialize (Hq s). rewrite He in Hq. cbn in Hq. by rewrite Hq.
Qed.

Lemma asks_set_rec i idx f req v' s :
  (forall r, r_required (f r) = r_required r) ->
  asks idx req (view_of s) -> v' = view_of (fst (set_rec i f s)) -> asks idx req v'.
Proof.
  intros Hf (r&Hr&Hreq) ->. rewrite view_set_rec. unfold asks. cbn [v_pools].
  cbn [view_of v_pools] in Hr.
  destruct (od_get (s_pools s) i) as [r0|] eqn:E; [|by exists r].
  destruct (decide (i = idx)) as [->|Hne].
  - exists (f r0). rewrite od_get_set_eq. split; [done|]. rewrite Hf. congruence.
  - exists r. by rewrite od_get_set_ne.
Qed.

Lemma set_rec_asks X b i idx f req :
  tame f -> keeps (At X b (asks idx req)) (set_rec i f).
Proof.
  intros Hf s s' a [Hc Ha] He. split; [by eapply (set_rec_core X b i f Hf)|].
  eapply (asks_set_rec i idx f req _ s); [apply Hf|done|]. by rewrite He.
Qed.

Lemma set_rec_frozen X b i idx f req accs :
  tame f -> keeps (At X b (frozen idx req accs)) (set_rec i f).
Proof.
  intros Hf s s' a [Hc [Ha Hacc]] He.
  destruct (set_rec_asks X b i idx f req Hf s s' a (conj Hc Ha) He) as [Hc' Ha'].
  split; [done|]. split; [done|]. rewrite Hacc.
  assert (s' = fst (set_rec i f s)) as -> by (by rewrite He). by rewrite view_set_rec.
Qed.

Lemma has_data_freeze req bs pk : pk ∈ req -> freeze req bs !! pk = bs !! pk.
Proof.
  intros Hpk. unfold freeze. destruct (bs !! pk) as [r|] eqn:E.
  - by apply map_lookup_filter_Some.
  - apply map_lookup_filter_None. by left.
Qed.

(** Marking a pool whose read set has data. *)
Lemma set_rec_coherent X b idx req accs f :
  (forall r, r_required (f r) = r_required r) ->
  req <> ∅ -> (forall pk, pk ∈ req -> has_data (accs !! pk) = true) ->
  triple (At X b (frozen idx req accs)) (set_rec idx f) (fun _ => Core X b).
Proof.
  intros Hf Hne Hdata s s' a [[[Hp Hr Hb Hc Hd] Hdone] [(r&Hget&Hreq) Hacc]] He.
  assert (s' = fst (set_rec idx f s)) as -> by (by rewrite He). clear He.
  cbn [view_of v_pools v_bytes] in Hget, Hacc.
  split; [|done]. rewrite view_set_rec, Hget.
  constructor; cbn [v_boot v_done v_ready v_gen v_bytes v_pools v_deps]; try done.
  - intros i ri Hi HX Hst. rewrite od_get_set in Hi. case_decide as Hdec; [|by apply (Hc i ri Hi)].
    injection Hi as <-. unfold holds_data. rewrite Hf, Hreq. split; [done|].
    intros pk Hpk. rewrite <- (has_data_freeze req) by done. rewrite <- Hacc. by apply Hdata.
  - intros i ri pk Hi. rewrite od_get_set in Hi. case_decide as Hdec; [|by apply Hd].
    injection Hi as <-. subst i. rewrite Hf. by apply Hd.
Qed.

Lemma finish_publish_core X b idx p blob : keeps (Core X b) (_finish_publish idx p blob).
Proof. unfold _finish_publish. keep. Qed.

Lemma commit_core X b idx req accs slot rx p blob :
  req <> ∅ -> (forall pk, pk ∈ req -> has_data (accs !! pk) = true) ->
  triple (At X b (frozen idx req accs)) (commit env idx slot rx p blob) (fun _ => Core X b).
Proof.
  intros Hne Hdata. unfold commit, with_rec at 1, get_rec. apply triple_gets. intros s0 H0.
  destruct (od_get (s_pools s0) idx) as [r|];
    [|eapply triple_at; [exact H0|]; apply at_core; keep].
  eapply triple_at; [exact H0|].
  eapply triple_bind; [apply quiet_at; auto with quiet|intros ?]. cbv beta.
  eapply triple_bind; [by apply set_rec_coherent|intros ?]. cbv beta.
  eapply triple_bind; [apply quiet_core; auto with quiet|intros ?]. cbv beta.
  eapply triple_bind; [apply quiet_core; auto with quiet|intros ?]. cbv beta.
  apply finish_publish_core.
Qed.

(** ** Adding a requirement *)

Lemma deps_of_push_mono m pk d pk' x : x ∈ deps_of m pk' -> x ∈ deps_of (push_dep m pk d) pk'.
Proof. intros H. rewrite deps_of_push. apply elem_of_app. by left. Qed.

Lemma add_required_core X b idx pk ro : keeps (Core X b) (add_required idx pk ro).
Proof.
  unfold add_required, get_rec. apply triple_gets. intros s0 H0.
  destruct (od_get (s_pools s0) idx) as [r|] eqn:E; [|eapply triple_at; [exact H0|]; keep].
  destruct (bool_decide (pk ∈ r_required r)); [eapply triple_at; [exact H0|]; keep|].
  intros s s' a -> He. injection He as <- _. destruct H0 as [[Hp Hr Hb Hc Hd] Hdone].
  split; [|done].
  change (core X (View (s_bytes s0)
    (match od_get (s_pools s0) idx with
     | Some r => od_set (s_pools s0) idx (r {{ r_required ::= union {[pk]}; r_status := ST_INCOMPLETE }})
     | None => s_pools s0 end)
    (push_dep (s_acc_deps s0) pk (DepRow idx ro (r_kind r) true)) (s_gen s0) (s_done s0)
    (s_bootstrapping s0) (s_ready s0))).
  rewrite E. constructor; cbn [v_boot v_done v_ready v_gen v_bytes v_pools v_deps]; try done.
  - intros i ri Hi HX Hst. rewrite od_get_set in Hi. case_decide; [|by apply (Hc i ri Hi)].
    injection Hi as <-. discriminate Hst.
  - intros i ri pk' Hi Hpk'. rewrite od_get_set in Hi. case_decide as Hdec.
    + injection Hi as <-. subst i. apply elem_of_union in Hpk' as [Hpk'|Hpk'].
      * apply elem_of_singleton in Hpk' as ->.
        exists (DepRow idx ro (r_kind r) true). split; [|done].
        rewrite deps_of_push. apply elem_of_app. right. rewrite decide_True by done. by left.
      * destruct (Hd idx r pk' E Hpk') as (d&Hd1&Hd2). exists d. split; [|done].
        by apply deps_of_push_mono.
    + destruct (Hd i ri pk' Hi Hpk') as (d&Hd1&Hd2). exists d. split; [|done].
      by apply deps_of_push_mono.
Qed.

(** Requiring what is already required changes nothing. *)
Lemma add_required_known X b idx pk ro req accs :
  pk ∈ req -> keeps (At X b (frozen idx req accs)) (add_required idx pk ro).
Proof.
  intros Hpk s s' a H He. unfold add_required, bind, get_rec, gets in He.
  destruct H as [Hc [(r&Hget&Hreq) Hacc]]. cbn [view_of v_pools] in Hget. rewrite Hget in He.
  rewrite bool_decide_true in He by (by rewrite Hreq). injection He as <- _.
  split; [done|]. split; [|done]. by exists r.
Qed.

Definition in_read_set (accs : accounts) (need : list string) : Prop :=
  forall k, k ∈ need -> is_Some (accs !! k).

Lemma require_bins_core X b idx req accs need need0 added :
  (forall k, k ∈ need -> k ∈ need0) ->
  keeps (fun s => Core X b s /\ (in_read_set accs need0 -> At X b (frozen idx req accs) s))
    (require_bins idx need added).
Proof.
  revert added. induction need as [|k need IH]; intros added Hsub; cbn [require_bins].
  - apply keeps_ret.
  - apply keeps_bind; [|intros a; apply IH; intros k' Hk'; apply Hsub; by right].
    intros s s' a [Hc Hat] He. split; [by eapply add_required_core|]. intros Hin.
    specialize (Hat Hin). destruct Hat as [Hc' Hf].
    assert (Hk : k ∈ req).
    { destruct (Hin k) as [row Hrow]; [apply Hsub; by left|]. destruct Hf as [_ ->].
      unfold freeze in Hrow. by apply map_lookup_filter_Some in Hrow as [_ ?]. }
    exact (add_required_known X b idx k ROLE_DLMM_BIN req accs Hk s s' a (conj Hc' Hf) He).
Qed.

Lemma all_data_spec accs r :
  all_data accs r = true -> forall pk, pk ∈ r_required r -> has_data (accs !! pk) = true.
Proof.
  unfold all_data. rewrite forallb_forall. intros H pk Hpk. apply H.
  rewrite <- list_elem_of_In. by apply elem_of_elements.
Qed.

Lemma pick_nonempty accs sel r d :
  pick accs sel (elements (r_required r)) = Some d -> r_required r <> ∅.
Proof. intros H Hn. by rewrite Hn, elements_empty in H. Qed.

Lemma publish_dlmm_core X b idx r slot rx accs :
  triple (At X b (frozen idx (r_required r) accs)) (publish_dlmm env idx r slot rx accs)
    (fun _ => Core X b).
Proof.
  unfold publish_dlmm. apply triple_gets. intros s0 H0. unfold id.
  destruct (all_data accs r) eqn:Ead; cbn [negb]; [|eapply triple_at; [exact H0|]; apply at_core; keep].
  destruct (pick accs _ _) as [pair_raw|] eqn:Epk; [|eapply triple_at; [exact H0|]; apply at_core; keep].
  destruct (parse_lbpair pair_raw) as [lb|]; [|eapply triple_at; [exact H0|]; apply at_core; keep].
  eapply triple_at; [exact H0|]. clear H0.
  pose proof (pick_nonempty _ _ _ _ Epk) as Hne. clear Epk s0.
  eapply triple_bind; [apply keeps_lift|intros need]. cbv beta.
  eapply triple_bind.
  { eapply triple_weaken; [|intros a s H; exact H|
      apply (require_bins_core X b idx (r_required r) accs need need)].
    - intros s H. split; [apply H|done].
    - done. }
  intros added. cbv beta. apply triple_gets. intros s0 [Hc0 Hat0]. unfold id.
  destruct (forallb _ need) eqn:Ein; cbn [negb].
  2:{ eapply triple_at; [exact Hc0|]. keep. }
  assert (Hin : in_read_set accs need).
  { intros k Hk. rewrite forallb_forall in Ein. specialize (Ein k).
    rewrite <- list_elem_of_In in Ein. specialize (Ein Hk). by apply bool_decide_eq_true in Ein. }
  eapply triple_at; [exact (Hat0 Hin)|]. clear Hc0 Hat0.
  eapply triple_bind; [apply quiet_at; auto with quiet|intros ?]. cbv beta.
  eapply triple_bind; [apply keeps_lift|intros o]. cbv beta.
  destruct o as [snap|]; [|apply at_core; keep].
  eapply triple_bind; [by apply set_rec_frozen|intros ?]. cbv beta.
  eapply triple_bind; [apply quiet_at; auto with quiet|intros now]. cbv beta.
  eapply triple_bind; [apply keeps_lift|intros blob]. cbv beta.
  eapply triple_bind; [|intros ?; apply keeps_ret].
  apply commit_core; [done|by apply all_data_spec].
Qed.

Lemma publish_pump_core X b idx r slot rx accs :
  triple (At X b (frozen idx (r_required r) accs)) (publish_pump env idx r slot rx accs)
    (fun _ => Core X b).
Proof.
  unfold publish_pump. apply triple_gets. intros s0 H0. unfold id.
  eapply triple_at; [exact H0|]. clear H0.
  destruct (all_data accs r) eqn:Ead; cbn [negb]; [|apply at_core; keep].
  destruct (pick accs (plays s0 idx ROLE_PUMP_POOL) _) as [pool_raw|] eqn:Epk; [|apply at_core; keep].
  destruct (pick accs (plays s0 idx ROLE_PUMP_VAULT_BASE) _) as [vb|]; [|apply at_core; keep].
  destruct (pick accs (plays s0 idx ROLE_PUMP_VAULT_QUOTE) _) as [vq|]; [|apply at_core; keep].
  destruct (parse_pump_pool pool_raw) as [p|]; [|apply at_core; keep].
  eapply triple_bind; [apply keeps_lift|intros rb]. cbv beta.
  eapply triple_bind; [apply keeps_lift|intros rq]. cbv beta.
  destruct (_ || _); [apply at_core; keep|].
  eapply triple_bind.
  { apply quiet_at. repeat case_match; auto with quiet. }
  intros fees. cbv beta.
  eapply triple_bind; [apply quiet_at, leaves_modify; done|intros ?]. cbv beta.
  eapply triple_bind; [apply keeps_lift|intros blob]. cbv beta.
  eapply triple_bind; [|intros ?; apply keeps_ret]. apply commit_core.
  - by eapply pick_nonempty.
  - by apply all_data_spec.
Qed.

Lemma publish_from_core X b idx r ss sig rec accs :
  triple (At X b (frozen idx (r_required r) accs)) (publish_from env idx r ss sig rec accs)
    (fun _ => Core X b).
Proof.
  unfold publish_from.
  eapply triple_bind.
  { apply quiet_at. destruct (st_rx _) as [x|]; [destruct (x =? 0)|]; auto with quiet. }
  intros rx. cbv beta. eapply triple_bind.
  { destruct (r_kind r); [apply publish_dlmm_core|apply publish_pump_core]. }
  intros ok. keep.
Qed.

Lemma publish_tx_core X b idx r ss hx :
  triple (At X b (asks idx (r_required r))) (publish_tx env idx r ss hx) (fun _ => Core X b).
Proof.
  unfold publish_tx. apply triple_gets. intros s0 H0. unfold id.
  destruct (snapshot _ _ _ _ _) as [why|accs] eqn:Es.
  - eapply triple_at; [exact H0|]. apply at_core. keep; apply fail_core.
  - apply snapshot_inr in Es as [Hacc _]. destruct H0 as [Hc Ha].
    eapply triple_at; [|apply publish_from_core]. split; [done|]. by split.
Qed.

Lemma publish_boot_core X b idx ss : keeps (Core X b) (publish_boot env idx ss).
Proof.
  unfold publish_boot, with_rec, get_rec. apply triple_gets. intros s0 H0.
  destruct (od_get (s_pools s0) idx) as [r|] eqn:E; [|eapply triple_at; [exact H0|]; keep].
  intros s s' a Hs He. subst s. unfold bind, gets, id in He.
  eapply publish_from_core; [|exact He]. split; [done|]. split; [|done]. by exists r.
Qed.

Lemma try_tx_core X b idx r ss hx :
  triple (At X b (asks idx (r_required r))) (try_tx env idx r ss hx) (fun _ => Core X b).
Proof.
  unfold try_tx. apply triple_gets. intros s0 H0. unfold id. eapply triple_at; [exact H0|].
  destruct (negb _).
  - destruct (_ <? _); apply at_core; [|keep].
    eapply triple_bind; [apply quiet_core; auto with quiet|intros ?]. cbv beta.
    eapply triple_bind; [by apply set_rec_core|intros ?]. apply publish_boot_core.
  - destruct (negb _); [|apply publish_tx_core].
    destruct (_ <? _); apply at_core; [apply fail_core|keep].
Qed.

Lemma try_publish_core X b ss idx : keeps (Core X b) (try_publish env ss idx).
Proof.
  unfold try_publish, with_rec, get_rec. apply triple_gets. intros s0 H0.
  destruct (od_get (s_pools s0) idx) as [r|] eqn:E; [|eapply triple_at; [exact H0|]; keep].
  intros s s' a Hs He. subst s. unfold bind at 1, gets, id in He.
  assert (Ha : asks idx (r_required r) (view_of s0)) by (by exists r).
  revert He. destruct (pool_complete s0 r); cbn [negb]; [|apply (set_rec_core X b); done].
  destruct (stage_empty _); [by intros [= <- _]|].
  destruct (sig_hex _) as [hx|]; [by apply try_tx_core|].
  destruct (is_boot_sig _); [by apply publish_boot_core|].
  destruct (_ <? _); [by intros [= <- _]|by apply publish_boot_core].
Qed.

Lemma maybe_publish_core X b ss : keeps (Core X b) (maybe_publish env ss).
Proof.
  unfold maybe_publish. keep. apply try_publish_core.
Qed.

(** ** Transactions *)

Lemma predict_core X b sig idx r d a sp au : keeps (Core X b) (predict env sig idx r d a sp au).
Proof. unfold predict. keep. Qed.

Lemma fastsoak_core X b sig expect ixs : keeps (Core X b) (_fastsoak_predict env sig expect ixs).
Proof.
  unfold _fastsoak_predict. apply keeps_each. intros e _. unfold predict_pool.
  apply keeps_with_rec. intros r. destruct (r_last_s r) as [p|]; [|keep].
  destruct (r_last_blob r) as [blob|]; [|keep]. destruct p as [d|q].
  - unfold predict_dlmm. destruct (dlmm_hit _ _) as [[ix data]|]; [|keep].
    apply keeps_bind; [apply keeps_lift|intros [sp|]]; [apply predict_core|keep].
  - unfold predict_pump. destruct (existsb _ _); [keep|]. destruct (last _) as [c|]; [|keep].
    destruct (PumpOverlay.apply_sequence _ _) as [term|[]]; [apply predict_core|keep|keep].
Qed.

Lemma require_expected_core X b idx pk : keeps (Core X b) (require_expected idx pk).
Proof.
  unfold require_expected. apply keeps_with_rec. intros r. apply keeps_gets_bind. intros s.
  destruct (_ && _); [|keep]. apply keeps_bind; [apply add_required_core|intros added]. keep.
Qed.

Lemma apply_tx_core X b ev : keeps (Core X b) (apply_tx env ev).
Proof.
  unfold apply_tx. apply keeps_gets_bind. intros s. destruct (_ || _); [keep|].
  destruct (t_parsed ev) as [[[sig keys] ixs]|]; [|keep].
  apply keeps_bind; [keep|intros ?]. apply keeps_bind; [keep|intros ?].
  destruct (expect_from_instructions _ _ _) as [|e es]; [keep|].
  apply keeps_bind; [|intros ?].
  { apply keeps_each. intros e' _. apply keeps_each. intros pk _. apply require_expected_core. }
  apply keeps_bind; [keep|intros ?].
  apply keeps_bind; [apply keeps_when, fastsoak_core|intros ?].
  apply keeps_gets_bind. intros slot. apply maybe_publish_core.
Qed.

(** ** Generations and readiness *)

Lemma core_bytes_gap X v : core X v -> v_gen v = None -> v_bytes v = ∅.
Proof.
  intros Hc Hg. apply map_empty. intros pk. destruct (v_bytes v !! pk) as [row|] eqn:E; [|done].
  destruct (co_rows X v Hc pk row E) as (_&Hn&_). by rewrite Hg in Hn.
Qed.

(** Without data nothing is coherent. *)
Lemma core_empty_dark v : core nowhere v -> v_bytes v = ∅ -> dark v.
Proof.
  intros Hc Hb idx r Hr Hst. destruct (co_coherent _ _ Hc idx r Hr (fun x => x) Hst) as [Hne Hdata].
  apply set_choose_L in Hne as [pk Hpk]. specialize (Hdata pk Hpk).
  by rewrite Hb, lookup_empty in Hdata.
Qed.

Lemma od_get_fmap (f : Z * pool_rec -> pool_rec) ps idx :
  od_get ((fun e => (e.1, f e)) <$> ps) idx = (fun r => f (idx, r)) <$> od_get ps idx.
Proof.
  induction ps as [|[i r] ps IH]; [done|]. rewrite fmap_cons. cbn [od_get fst].
  case_decide as H; [by rewrite H|exact IH].
Qed.

Lemma demote_required s r : r_required (demote s r) = r_required r.
Proof. unfold demote. by destruct (_ && _). Qed.

Lemma demote_coherent s r :
  r_status (demote s r) = ST_COHERENT -> r_status r = ST_COHERENT /\ pool_complete s r = true.
Proof.
  unfold demote. destruct (bool_decide (r_status r = ST_COHERENT)) eqn:E; cbn [andb].
  - apply bool_decide_eq_true in E. destruct (pool_complete s r); cbn; [done|discriminate].
  - intros H. by apply bool_decide_eq_false in E.
Qed.

(** What recounting makes of the view. *)
Definition recounted (s : st) : view :=
  View (s_bytes s) ((fun e => (e.1, demote s e.2)) <$> s_pools s) (s_acc_deps s) (s_gen s)
    (s_done s) (s_bootstrapping s) (s_ready s).

Lemma view_recount s : view_of (fst (_recount s)) = recounted s.
Proof. done. Qed.

Lemma recounted_get s idx r :
  od_get (v_pools (recounted s)) idx = Some r ->
  exists r0, od_get (s_pools s) idx = Some r0 /\ r = demote s r0.
Proof.
  cbn [recounted v_pools]. rewrite (od_get_fmap (fun e => demote s e.2)).
  destruct (od_get (s_pools s) idx) as [r0|]; [|done]. intros [= <-]. by exists r0.
Qed.

(** Recounting settles every exception. *)
Lemma recount_core X b : triple (Core X b) _recount (fun _ => Core nowhere b).
Proof.
  intros s s' a [[Hp Hr Hb Hc Hd] Hdone] He.
  assert (s' = fst (_recount s)) as -> by (by rewrite He). clear He. split; [|done].
  rewrite view_recount. constructor; try done.
  - intros idx r Hi _ Hst. apply recounted_get in Hi as (r0&E&->).
    apply demote_coherent in Hst as [_ Hst]. apply pool_complete_spec in Hst as [H1 H2].
    unfold holds_data. by rewrite demote_required.
  - intros idx r pk Hi. apply recounted_get in Hi as (r0&E&->). rewrite demote_required.
    by apply Hd.
Qed.

Lemma recount_dark : keeps (fun s => dark (view_of s)) _recount.
Proof.
  intros s s' a Hd He. assert (s' = fst (_recount s)) as -> by (by rewrite He). clear He.
  rewrite view_recount. intros idx r Hi Hst. apply recounted_get in Hi as (r0&E&->).
  apply demote_coherent in Hst as [Hst _]. by eapply Hd.
Qed.

(** The pools and dependencies a generation row leaves. *)
Definition installed (row : gen_row) (s : st) : view :=
  View (s_bytes s) (od_set (s_pools s) (g_idx row) (merge_rec row (od_get (s_pools s) (g_idx row))))
    (foldl (add_dep row) (s_acc_deps s) (g_required row ++ g_optional row)) (s_gen s)
    (s_done s) (s_bootstrapping s) (s_ready s).

Lemma view_install row s : view_of (fst (install_row row s)) = installed row s.
Proof. done. Qed.

Lemma deps_of_setdefault m pk pk' : deps_of (od_setdefault m pk []) pk' = deps_of m pk'.
Proof.
  unfold deps_of, od_setdefault. destruct (od_get m pk) eqn:E; [done|].
  rewrite od_get_set. case_decide; [subst; by rewrite E|done].
Qed.

Lemma add_dep_mono row m kr pk d : d ∈ deps_of m pk -> d ∈ deps_of (add_dep row m kr) pk.
Proof.
  intros H. unfold add_dep. case_match; [by rewrite deps_of_setdefault|by apply deps_of_push_mono].
Qed.

Lemma add_dep_self row m kr :
  exists d, d ∈ deps_of (add_dep row m kr) kr.1 /\ d_pool_idx d = g_idx row.
Proof.
  unfold add_dep. destruct (existsb _ _) eqn:E.
  - apply existsb_exists in E as (d&Hd&Hi). apply list_elem_of_In in Hd.
    apply andb_true_iff in Hi as [Hi _]. apply Z.eqb_eq in Hi. exists d.
    by rewrite deps_of_setdefault.
  - eexists. rewrite deps_of_push, decide_True by done. split; [apply elem_of_app; right; by left|].
    done.
Qed.

Lemma add_deps_mono row l m pk d :
  d ∈ deps_of m pk -> d ∈ deps_of (foldl (add_dep row) m l) pk.
Proof. revert m. induction l as [|kr l IH]; intros m H; [done|]. apply IH. by apply add_dep_mono. Qed.

Lemma add_deps_self row l m kr :
  kr ∈ l -> exists d, d ∈ deps_of (foldl (add_dep row) m l) kr.1 /\ d_pool_idx d = g_idx row.
Proof.
  revert m. induction l as [|kr' l IH]; intros m H; [by apply elem_of_nil in H|].
  cbn [foldl]. apply elem_of_cons in H as [->|H]; [|by apply IH].
  destruct (add_dep_self row m kr') as (d&Hd&Hi). exists d. split; [by apply add_deps_mono|done].
Qed.

Lemma merge_required row o pk :
  pk ∈ r_required (merge_rec row o) ->
  pk ∈ (g_required row).*1 \/ exists r, o = Some r /\ pk ∈ r_required r.
Proof.
  destruct o as [r|]; cbn.
  - rewrite elem_of_union, elem_of_list_to_set. intros [H|H]; [by left|right; by exists r].
  - rewrite elem_of_list_to_set. by left.
Qed.

Lemma install_row_core b row : keeps (Core everywhere b) (install_row row).
Proof.
  intros s s' a [[Hp Hr Hb Hc Hd] Hdone] He.
  assert (s' = fst (install_row row s)) as -> by (by rewrite He). clear He. split; [|done].
  rewrite view_install. constructor; try done.
  intros idx r pk Hi Hpk. cbn [installed v_pools v_deps] in *. rewrite od_get_set in Hi.
  case_decide as Hdec.
  - injection Hi as <-. subst idx. apply merge_required in Hpk as [Hpk|(r0&Hr0&Hpk)].
    + apply list_elem_of_fmap in Hpk as (kr&->&Hkr). apply add_deps_self.
      apply elem_of_app. by left.
    + destruct (Hd _ r0 pk Hr0 Hpk) as (d&Hin&Hx). exists d. split; [by apply add_deps_mono|done].
  - destruct (Hd idx r pk Hi Hpk) as (d&Hin&Hx). exists d. split; [by apply add_deps_mono|done].
Qed.

Lemma install_row_dark row : keeps (fun s => dark (view_of s)) (install_row row).
Proof.
  intros s s' a Hd He. assert (s' = fst (install_row row s)) as -> by (by rewrite He). clear He.
  rewrite view_install. intros idx r Hi. cbn [installed v_pools] in Hi. rewrite od_get_set in Hi.
  case_decide as Hdec; [|by apply (Hd idx)]. injection Hi as <-. subst idx.
  destruct (od_get (s_pools s) (g_idx row)) as [r0|] eqn:E; cbn; [by apply (Hd (g_idx row))|done].
Qed.

(** [Core] of a current connection. *)
Definition Live (X : Z -> Prop) (b : bool) (s : st) : Prop := Core X b s /\ s_gen s <> None.

(** The state after [adopt_row] on a key without a row. *)
Definition adopted (kr : string * rpc_row) (s : st) : view :=
  View (<[kr.1 := rpc_account_row (s_gen s) kr.1 kr.2 (e_mono env (s_ticks s))]> (s_bytes s))
    (s_pools s) (s_acc_deps s) (s_gen s) (s_done s) (s_bootstrapping s) (s_ready s).

Lemma view_adopt kr s :
  view_of (fst (adopt_row env kr s)) =
  match s_bytes s !! kr.1 with Some _ => view_of s | None => adopted kr s end.
Proof. unfold adopt_row, bind, gets, id. by destruct (s_bytes s !! kr.1). Qed.

Lemma adopt_row_live X b kr : keeps (Live X b) (adopt_row env kr).
Proof.
  intros s s' a [[[Hp Hr Hb Hc Hd] Hdone] Hgen] He.
  assert (s' = fst (adopt_row env kr s)) as -> by (by rewrite He). clear He.
  pose proof (view_adopt kr s) as Hv.
  assert (s_gen (fst (adopt_row env kr s)) = s_gen s) as Hg.
  { change (v_gen (view_of (fst (adopt_row env kr s))) = s_gen s). rewrite Hv.
    by destruct (s_bytes s !! kr.1). }
  assert (s_done (fst (adopt_row env kr s)) = s_done s) as Hdn.
  { change (v_done (view_of (fst (adopt_row env kr s))) = s_done s). rewrite Hv.
    by destruct (s_bytes s !! kr.1). }
  split; [|by rewrite Hg]. split; [|by rewrite Hdn]. rewrite Hv.
  destruct (s_bytes s !! kr.1) as [row0|] eqn:E; [by constructor|].
  constructor; try done; cbn [adopted v_bytes v_pools v_gen].
  - intros pk row. rewrite lookup_insert. case_decide as Hdec; [|by apply Hb].
    intros [= <-]. by subst pk.
  - intros idx r Hi HX Hst. destruct (Hc idx r Hi HX Hst) as [H1 H2]. split; [done|].
    intros pk Hpk. specialize (H2 pk Hpk). rewrite lookup_insert. case_decide as Hdec; [|done].
    subst pk. cbn in H2. by rewrite E in H2.
Qed.

Lemma adopt_row_dark kr : keeps (fun s => dark (view_of s)) (adopt_row env kr).
Proof.
  intros s s' a Hd He. assert (s' = fst (adopt_row env kr s)) as -> by (by rewrite He). clear He.
  rewrite view_adopt. by destruct (s_bytes s !! kr.1).
Qed.

Lemma live_keep {A} X Y b (m : M A) :
  triple (Core X b) m (fun _ => Core Y b) -> (forall s, s_gen (fst (m s)) = s_gen s) ->
  triple (Live X b) m (fun _ => Live Y b).
Proof.
  intros Hm Hg s s' a [Hc Hn] He. split; [by eapply Hm|]. specialize (Hg s). rewrite He in Hg.
  cbn in Hg. by rewrite Hg.
Qed.

Lemma install_generation_live b plan extra :
  triple (Live nowhere b) (install_generation env plan extra) (fun _ => Live nowhere b).
Proof.
  unfold install_generation.
  eapply triple_bind; [apply live_keep; [by apply quiet_core, leaves_modify|done]|intros ?]. cbv beta.
  eapply triple_bind with (Q := fun _ => Live everywhere b).
  { eapply (triple_weaken _ (Live everywhere b)).
    - intros s [[Hc Hd] Hn]. split; [|done]. split; [|done]. by eapply core_mono; [|exact Hc].
    - intros ? s H. exact H.
    - apply keeps_each. intros row _. apply live_keep; [apply install_row_core|done]. }
  intros ?. cbv beta.
  eapply triple_bind; [apply keeps_each; intros kr _; apply adopt_row_live|intros ?]. cbv beta.
  apply live_keep; [apply recount_core|done].
Qed.

Lemma install_generation_dark plan extra :
  keeps (fun s => dark (view_of s)) (install_generation env plan extra).
Proof.
  unfold install_generation. apply keeps_bind; [by apply (leaves_keeps view_of dark), leaves_modify|intros ?].
  apply keeps_bind; [apply keeps_each; intros ? _; apply install_row_dark|intros ?].
  apply keeps_bind; [apply keeps_each; intros ? _; apply adopt_row_dark|intros ?].
  apply recount_dark.
Qed.

(** ** Losing and gaining readiness *)

(** Not ready. *)
Definition Down (X : Z -> Prop) (b : bool) (s : st) : Prop := Core X b s /\ s_ready s = false.

Lemma gap_pool_down X b e : keeps (Down X b) (gap_pool env e).
Proof.
  unfold gap_pool. case_match; [|apply keeps_ret].
  apply keeps_bind.
  { intros s s2 x [Hc Hr] He. split; [|by injection He as <- _].
    eapply (set_rec_core X b e.1); [|exact Hc|exact He]. by intros r. }
  intros ?. apply keeps_bind; [|intros rx; apply keeps_gets_bind; intros slot];
    apply (quiet_at X b (fun v => v_ready v = false)); auto with quiet.
Qed.

Lemma mark_uncertain_down X b : triple (Core X b) (mark_uncertain env) (fun _ => Down X b).
Proof.
  unfold mark_uncertain. eapply triple_bind.
  { instantiate (1 := fun _ => Down X b).
    intros s s' res [[Hp Hr Hb Hc Hd] Hdone] [= <- _]. by split. }
  intros ?. cbv beta.
  assert (Hq : forall A (m : M A), quiet m -> keeps (Down X b) m).
  { intros A m. apply (quiet_at X b (fun v => v_ready v = false)). }
  apply keeps_bind; [by apply Hq|intros ?]. apply keeps_gets_bind. intros s0.
  apply keeps_bind; [apply Hq; auto with quiet|intros ?].
  apply keeps_bind; [apply Hq; auto with quiet|intros ?].
  apply keeps_bind; [apply keeps_each; intros e _; apply gap_pool_down|intros ?].
  by apply Hq, leaves_modify.
Qed.

Lemma reset_pool_strip X b e :
  triple (Core X b) (reset_pool env e) (fun _ => Core (fun i => X i /\ i <> e.1) b).
Proof.
  unfold reset_pool. eapply triple_bind; [by apply set_rec_uncoherent|intros ?]. keep.
Qed.

Lemma reset_pool_bytes e : keeps (fun s => s_bytes s = ∅) (reset_pool env e).
Proof.
  unfold reset_pool. apply keeps_bind; [by intros s s' res H [= <- _]|intros ?].
  apply keeps_bind; [by intros s s' res H [= <- _]|intros rx].
  apply (leaves_keeps view_of (fun v => v_bytes v = ∅)), quiet_log.
Qed.

Lemma triple_and {A} P P' (m : M A) Q Q' :
  triple P m Q -> triple P' m Q' ->
  triple (fun s => P s /\ P' s) m (fun a s => Q a s /\ Q' a s).
Proof. intros H H' s s' a [HP HP'] He. split; [by eapply H|by eapply H']. Qed.

(** The state of a connection that has just begun. *)
Definition blank (s : st) : Prop := Core nowhere false s /\ s_bytes s = ∅.

Lemma blank_inv s : blank s -> inv (view_of s).
Proof. intros [[Hc Hd] Hb]. split; [done|]. intros _. by apply core_empty_dark. Qed.

Lemma reset_pools_blank s0 :
  Core (fun i => i ∈ od_keys (s_pools s0)) false s0 -> s_bytes s0 = ∅ ->
  triple (fun s => s = s0) (each (reset_pool env) (s_pools s0)) (fun _ => blank).
Proof.
  intros Hc Hb. eapply triple_at.
  { instantiate (1 := fun s => Core (fun i => i ∈ od_keys (s_pools s0)) false s /\ s_bytes s = ∅).
    done. }
  eapply triple_weaken; [intros s H; exact H| |apply triple_and].
  3: { apply keeps_each. intros e _. apply reset_pool_bytes. }
  2: { apply (each_strip _ _ fst). intros X d. apply reset_pool_strip. }
  intros _ s [[Hc' Hd'] Hb']. split; [|done]. split; [|done]. eapply core_mono; [|exact Hc'].
  intros i [Hi Hall]. apply list_elem_of_fmap in Hi as (e&->&He). by apply (Hall e He).
Qed.

Lemma reset_connection_blank X b gen :
  triple (Core X b) (reset_connection env gen) (fun _ => blank).
Proof.
  unfold reset_connection.
  eapply triple_bind; [apply mark_uncertain_down|intros ?]. cbv beta.
  assert (Hq : forall A (m : M A), quiet m -> keeps (Down X b) m).
  { intros A m. apply (quiet_at X b (fun v => v_ready v = false)). }
  eapply triple_bind; [apply Hq; auto with quiet|intros ?]. cbv beta.
  eapply triple_bind; [apply Hq, leaves_modify; intros s; by case_bool_decide|intros ?]. cbv beta.
  eapply triple_bind; [apply Hq; destruct gen; auto with quiet|intros ?]. cbv beta.
  eapply triple_bind with
    (Q := fun _ s => Core (fun i => i ∈ od_keys (s_pools s)) false s /\ s_bytes s = ∅).
  { intros s s' res [[[Hp Hr Hb Hc Hd] Hdone] Hrd] [= <- _]. split; [|done]. split; [|done].
    constructor; try done.
    - intros Ht. change (s_ready s = true) in Ht. congruence.
    - intros idx r Hi Hn. destruct Hn. by eapply od_get_Some_key. }
  intros ?. apply triple_gets. intros s0 [H0 Hb0]. by apply reset_pools_blank.
Qed.

Lemma mark_ready_core X : keeps (Core X true) (mark_ready).
Proof.
  unfold mark_ready. apply triple_gets. intros s0 [H0 Hdone0]. unfold id.
  destruct (bool_decide (s_gen s0 = None) || negb (s_done s0)) eqn:E.
  { apply (triple_at (Core X true)); [by split|]. keep. }
  apply orb_false_iff in E as [E _]. apply bool_decide_eq_false in E.
  eapply triple_bind with (Q := fun _ => Core X true).
  { intros s s' res -> [= <- _]. split; [|done]. destruct H0 as [Hp Hr Hb Hc Hd].
    constructor; try done.
    change (false = negb (s_done s0)). by rewrite Hdone0. }
  intros ?. keep.
Qed.

(** ** Bootstrap *)

Lemma boot_bytes_spec rows : forall acc s s' m,
  (forall pk row, acc !! pk = Some row -> a_gen row = s_gen s /\ a_pubkey row = pk) ->
  boot_bytes env rows acc s = (s', Ret m) ->
  view_of s' = view_of s /\ s_done s' = s_done s /\
  (forall pk row, m !! pk = Some row -> a_gen row = s_gen s /\ a_pubkey row = pk).
Proof.
  induction rows as [|kr rows IH]; intros acc s s' m Hacc He; cbn [boot_bytes] in He.
  - by injection He as <- <-.
  - unfold bind at 1, to_row in He.
    cbn [bind _mono gets ret] in He.
    eapply IH in He as (Hv&Hd&Hm); [by rewrite Hv, Hd|].
    intros pk row. rewrite lookup_insert. case_decide; [|apply Hacc].
    intros [= <-]. by subst.
Qed.

Definition Inv (s : st) : Prop := inv (view_of s).

Lemma inv_core s : Inv s -> Core nowhere (s_done s) s.
Proof. intros [H _]. by split. Qed.

Lemma core_inv s : Core nowhere true s -> Inv s.
Proof. intros [H Hd]. split; [done|]. cbn. congruence. Qed.

Lemma replay_core ev : keeps (Core nowhere false) (replay_event env ev).
Proof.
  destruct ev; cbn [replay_event]; try apply keeps_ret; [apply apply_tx_core|].
  eapply triple_weaken; [|intros ? s H; exact H|apply apply_update_core].
  intros s H. split; [done|by left].
Qed.

Lemma boot_pool_core b idx : keeps (Core nowhere b) (boot_pool env idx).
Proof. unfold boot_pool. keep. apply try_publish_core. Qed.

(** Installing the bootstrap rows over a dark state. *)
Lemma boot_install s0 accs :
  Inv s0 -> s_done s0 = false -> s_gen s0 <> None ->
  triple (fun s => s = s0)
    (rows <- boot_bytes env (boot_rows accs) ∅ ;;
     modify (fun s => s {{ s_bytes := rows; s_floors := a_slot <$> rows;
                           s_boot_slot := max_slot (a_slot <$> rows); s_buf := [] }}))
    (fun _ => Core nowhere false).
Proof.
  intros [Hcore Hdark] Hdone Hgen s s' res Hs He. subst s. unfold bind at 1 in He.
  destruct (boot_bytes env (boot_rows accs) ∅ s0) as [s1 [rows|e]] eqn:Eb; [|done].
  apply boot_bytes_spec in Eb as (Hv&Hd&Hrows); [|intros pk row; by rewrite lookup_empty].
  injection He as <- _. split; [|change (s_done s1 = false); congruence].
  specialize (Hdark Hdone). rewrite <- Hv in Hcore, Hdark.
  destruct Hcore as [Hp Hr Hb Hc Hdp]. constructor; try done.
  - intros pk row Hpk. destruct (Hrows pk row Hpk) as [H1 H2].
    assert (s_gen s1 = s_gen s0) as Hg by (change (v_gen (view_of s1) = s_gen s0); by rewrite Hv).
    change (a_gen row = s_gen s1 /\ s_gen s1 <> None /\ a_pubkey row = pk). rewrite Hg. done.
  - intros idx r Hi _ Hst. by destruct (Hdark idx r Hi).
Qed.

Lemma bind_assoc {A B C} (m : M A) (f : A -> M B) (g : B -> M C) s :
  bind (bind m f) g s = bind m (fun a => bind (f a) g) s.
Proof. unfold bind. by destruct (m s) as [s' [a|e]]. Qed.

Lemma finish_bootstrap_inv gen token accs : keeps Inv (finish_bootstrap env gen token accs).
Proof.
  unfold finish_bootstrap. apply triple_gets. intros s0 H0. unfold id.
  destruct (_ || s_done s0) eqn:Eg; [eapply triple_at; [exact H0|apply keeps_ret]|].
  apply orb_false_iff in Eg as [Eg Hdone]. do 3 apply orb_false_iff in Eg as [Eg _].
  apply bool_decide_eq_false in Eg.
  pose proof (boot_install s0 accs H0 Hdone Eg) as Hi.
  assert (Hk : triple (Core nowhere false)
    (each (replay_event env) (s_buf s0) ;;
     modify (fun s => s {{ s_done := true; s_bootstrapping := false }}) ;;
     ps <- gets s_pools ;; each (fun e => boot_pool env (fst e)) ps ;;
     _recount ;; s <- gets id ;;
     when ((0 <? s_boot_slot s) && (s_boot_slot s <=? s_stream_slot s)) mark_ready)
    (fun _ => Core nowhere true)).
  { eapply triple_bind; [apply keeps_each; intros ev _; apply replay_core|intros ?].
    eapply triple_bind with (Q := fun _ => Core nowhere true).
    { intros s s' res [[Hp Hr Hb Hc Hd] Hdn] [= <- _]. split; [|done]. constructor; try done.
      intros Hrd. destruct (Hr Hrd) as [Hx _]. change (s_done s = true) in Hx. congruence. }
    intros ?. apply keeps_gets_bind. intros ps.
    apply keeps_bind; [apply keeps_each; intros e _; apply boot_pool_core|intros ?].
    apply keeps_bind; [apply recount_core|intros ?]. apply keeps_gets_bind. intros s.
    apply keeps_when, mark_ready_core. }
  pose proof (triple_bind _ _ _ _ _ Hi (fun _ => Hk)) as Hall.
  intros s s' res Hs He. apply core_inv. eapply Hall; [exact Hs|]. by rewrite bind_assoc.
Qed.

(** ** The handler *)

Lemma quiet_inv {A} (m : M A) : quiet m -> keeps Inv m.
Proof. apply (leaves_keeps view_of inv). Qed.

Lemma reset_inv gen : keeps Inv (reset_connection env gen).
Proof.
  intros s s' res H He. apply blank_inv. eapply reset_connection_blank; [|exact He].
  by apply inv_core.
Qed.

Lemma mark_ready_inv : keeps Inv (mark_ready).
Proof.
  intros s s' res H He. destruct (s_done s) eqn:Ed.
  - apply core_inv. eapply mark_ready_core; [|exact He]. rewrite <- Ed. by apply inv_core.
  - unfold mark_ready, bind at 1, gets, id in He. rewrite Ed in He. cbn [negb] in He.
    rewrite orb_true_r in He. by injection He as <- _.
Qed.

(** While ready the bootstrap is done. *)
Lemma inv_ready s : Inv s -> s_ready s = true -> s_done s = true.
Proof. intros [[_ Hr _ _ _] _] H. by apply Hr. Qed.

Lemma inv_done s : Inv s -> s_bootstrapping s = false -> s_done s = true.
Proof.
  intros [[Hp _ _ _ _] _] H. change (s_bootstrapping s = negb (s_done s)) in Hp.
  rewrite H in Hp. symmetry in Hp. by apply negb_false_iff in Hp.
Qed.

(** An operation of the running phase, guarded by the state that was read. *)
Lemma running_inv {A} (m : M A) s0 :
  Inv s0 -> s_done s0 = true -> (forall b, keeps (Core nowhere b) m) ->
  triple (fun s => s = s0) m (fun _ => Inv).
Proof.
  intros Hi Hd Hm s s' res -> He. apply core_inv. eapply Hm; [|exact He].
  rewrite <- Hd. by apply inv_core.
Qed.

Lemma expire_pool_core X b e : keeps (Core X b) (expire_pool env e).
Proof. unfold expire_pool. keep. apply fail_core. Qed.

Lemma on_slot_inv gen slot : keeps Inv (on_slot env gen slot).
Proof.
  unfold on_slot. apply keeps_gets_bind. intros prev.
  apply keeps_bind; [by apply quiet_inv, leaves_modify|intros ?].
  apply keeps_bind.
  { apply keeps_when, keeps_bind; [apply reset_inv|intros ?]. by apply quiet_inv, leaves_modify. }
  intros ?. apply keeps_gets_bind. intros s1.
  apply keeps_bind; [by apply keeps_when, quiet_inv, leaves_modify|intros ?].
  apply keeps_gets_bind. intros s2.
  apply keeps_bind; [apply keeps_when, mark_ready_inv|intros ?].
  apply triple_gets. intros s3 H3. unfold id. destruct (s_ready s3) eqn:Er; cbn [when].
  - apply running_inv; [done|by apply inv_ready|]. intros b.
    apply keeps_bind; [apply keeps_each; intros e _; apply expire_pool_core|intros ?].
    apply keeps_gets_bind. intros. apply maybe_publish_core.
  - apply (triple_at Inv); [done|apply keeps_ret].
Qed.

Lemma on_bank_inv ev : keeps Inv (on_bank env ev).
Proof.
  unfold on_bank. apply keeps_gets_bind. intros s0. unfold id.
  destruct (BankJournal.apply (s_journal s0) ev) as [j res].
  apply keeps_bind; [by apply quiet_inv, leaves_modify|intros ?].
  destruct ev as [g|g|g slot bank rx [parent status| |]]; try apply keeps_ret.
  destruct (negb _); [apply keeps_ret|].
  apply keeps_bind; [apply on_slot_inv|intros ?; apply keeps_ret].
Qed.

(** The invariant under a current connection. *)
Definition Here (s : st) : Prop := Inv s /\ s_gen s <> None.

Lemma here_live s : Here s -> Live nowhere (s_done s) s.
Proof. intros [Hi Hg]. split; [by apply inv_core|done]. Qed.

Lemma live_here s : Live nowhere true s -> Here s.
Proof. intros [Hc Hg]. split; [by apply core_inv|done]. Qed.

Lemma quiet_here {A} (m : M A) : quiet m -> keeps Here m.
Proof. apply (leaves_keeps view_of (fun v => inv v /\ v_gen v <> None)). Qed.

Lemma install_generation_here plan extra : keeps Here (install_generation env plan extra).
Proof.
  intros s s' res Hh He. pose proof (here_live s Hh) as Hl. destruct Hh as [[_ Hdark] _].
  pose proof (install_generation_live _ plan extra s s' res Hl He) as [[Hc Hd] Hg].
  split; [|done]. split; [done|]. intros Hdn. change (s_done s' = false) in Hdn.
  rewrite Hd in Hdn. eapply install_generation_dark; [|exact He]. by apply Hdark.
Qed.

Lemma adopt_row_here kr : keeps Here (adopt_row env kr).
Proof.
  intros s s' res Hh He. pose proof (here_live s Hh) as Hl. destruct Hh as [[_ Hdark] _].
  pose proof (adopt_row_live _ _ kr s s' res Hl He) as [[Hc Hd] Hg].
  split; [|done]. split; [done|]. intros Hdn. change (s_done s' = false) in Hdn.
  rewrite Hd in Hdn. eapply adopt_row_dark; [|exact He]. by apply Hdark.
Qed.

Definition Running (s : st) : Prop := Here s /\ s_done s = true.

(** [s_done] outlives what does not reset the connection. *)
Lemma here_done {A} (m : M A) :
  keeps Here m -> (forall b, keeps (Live nowhere b) m) ->
  keeps Running m.
Proof.
  intros Hh Hl s s' res [Hs Hd] He. split; [by eapply Hh|].
  pose proof (here_live s Hs) as H. rewrite Hd in H. by destruct (Hl _ s s' res H He) as [[_ ?] _].
Qed.

Lemma quiet_live {A} b (m : M A) : quiet m -> keeps (Live nowhere b) m.
Proof.
  intros Hq s s' a [Hc Hg] He. split; [by eapply quiet_core|].
  specialize (Hq s). rewrite He in Hq. cbn in Hq.
  change (v_gen (view_of s') <> None). by rewrite Hq.
Qed.

Lemma quiet_here_done {A} (m : M A) : quiet m -> keeps Running m.
Proof. intros Hq. apply here_done; [by apply quiet_here|intros b; by apply quiet_live]. Qed.

Lemma settle_core b : keeps (Core nowhere b) (settle env).
Proof.
  unfold settle. apply keeps_bind; [apply recount_core|intros ?].
  apply keeps_gets_bind. intros slot. apply maybe_publish_core.
Qed.

Lemma settle_running : triple Running (settle env) (fun _ => Inv).
Proof.
  intros s s' res [[Hi _] Hd] He. apply core_inv. eapply settle_core; [|exact He].
  rewrite <- Hd. by apply inv_core.
Qed.

Lemma on_stream_inv gen ev m r :
  (forall b, triple (fun s => Core nowhere b s /\ s_bootstrapping s = false) m
               (fun _ => Core nowhere b)) ->
  keeps Inv (on_stream env gen ev m r).
Proof.
  intros Hm. unfold on_stream. apply triple_gets. intros s0 H0. unfold id.
  destruct (s_bootstrapping s0) eqn:Eb.
  - apply (triple_at Inv); [done|].
    apply keeps_bind; [by apply quiet_inv, leaves_modify|intros ?]. apply keeps_gets_bind. intros n.
    destruct (_ <? _)%nat; [|apply keeps_ret].
    apply keeps_bind; [by apply quiet_inv|intros ?].
    apply keeps_bind; [apply reset_inv|intros ?; apply keeps_ret].
  - pose proof (inv_done s0 H0 Eb) as Hd.
    eapply triple_bind; [|intros ?; apply keeps_ret].
    intros s s' res -> He. apply core_inv. eapply Hm; [|exact He]. split; [|done].
    rewrite <- Hd. by apply inv_core.
Qed.

Lemma on_boot_message_inv token m r :
  triple Here m (fun _ => Inv) -> triple Here (on_boot_message token m r) (fun _ => Inv).
Proof.
  intros Hm. unfold on_boot_message. apply triple_gets. intros s0 H0.
  apply (triple_at Here); [done|]. destruct (negb _).
  - eapply triple_weaken; [intros s [H _]; exact H|intros ? s H; exact H|].
    apply keeps_bind; [by apply quiet_inv|intros ?; apply keeps_ret].
  - eapply triple_bind; [exact Hm|intros ?; apply keeps_ret].
Qed.

Lemma here_inv {A} (m : M A) : keeps Here m -> triple Here m (fun _ => Inv).
Proof. intros H s s' res Hs He. by destruct (H s s' res Hs He). Qed.

Lemma on_plan_here plan : triple Here (on_plan env plan) (fun _ => Inv).
Proof.
  apply here_inv. unfold on_plan. apply keeps_bind; [apply install_generation_here|intros ?].
  apply keeps_gets_bind. intros s.
  apply keeps_bind; [by apply quiet_here|intros ?; by apply quiet_here].
Qed.

Lemma handle_event_inv ev : keeps Inv (handle_event env ev).
Proof.
  unfold handle_event. apply triple_gets. intros s0 H0. unfold id.
  destruct (bool_decide (event_gen ev = None) || _) eqn:Eg.
  { apply (triple_at Inv); [done|]. apply keeps_bind; [by apply quiet_inv|intros ?; apply keeps_ret]. }
  apply orb_false_iff in Eg as [Eg1 Eg2]. apply bool_decide_eq_false in Eg1, Eg2.
  apply dec_stable in Eg2. assert (Hh : Here s0) by (split; congruence).
  assert (Hrun : s_bootstrapping s0 = false -> Running s0).
  { intros Hb. split; [done|]. by apply inv_done. }
  destruct ev as [b|g token plan|g token accs|g token|g plan accs mtime|g accs|t|row].
  - apply (triple_at Inv); [done|apply on_bank_inv].
  - apply (triple_at Here); [done|]. apply on_boot_message_inv, on_plan_here.
  - apply (triple_at Here); [done|]. apply on_boot_message_inv.
    eapply triple_weaken; [intros s [H _]; exact H|intros ? s H; exact H|apply finish_bootstrap_inv].
  - apply (triple_at Inv); [done|]. apply keeps_bind; [by apply quiet_inv|intros ?].
    apply keeps_gets_bind. intros s.
    apply keeps_bind; [by apply keeps_when, quiet_inv, leaves_modify|intros ?; apply keeps_ret].
  - destruct (s_bootstrapping s0); [apply (triple_at Inv); [done|apply keeps_ret]|].
    apply (triple_at Running); [exact (Hrun eq_refl)|].
    eapply triple_bind; [by apply quiet_here_done, leaves_modify|intros ?].
    eapply triple_bind.
    { apply here_done; [apply install_generation_here|intros ?; apply install_generation_live]. }
    intros ?. apply triple_gets. intros s1 H1. apply (triple_at Running); [exact H1|].
    eapply triple_bind; [by apply quiet_here_done|intros ?].
    eapply triple_bind; [apply settle_running|intros ?; apply keeps_ret].
  - destruct (s_bootstrapping s0); [apply (triple_at Inv); [done|apply keeps_ret]|].
    apply (triple_at Running); [exact (Hrun eq_refl)|].
    eapply triple_bind.
    { apply keeps_each. intros kr _.
      apply here_done; [apply adopt_row_here|intros ?; apply adopt_row_live]. }
    intros ?. eapply triple_bind; [apply settle_running|intros ?; apply keeps_ret].
  - apply (triple_at Inv); [done|]. apply on_stream_inv. intros b.
    eapply triple_weaken; [intros s [H _]; exact H|intros ? s H; exact H|apply apply_tx_core].
  - apply (triple_at Inv); [done|]. apply on_stream_inv. intros b.
    eapply triple_bind.
    { eapply triple_weaken; [|intros ? s H; exact H|apply apply_update_core].
      intros s [H Hb]. split; [done|by right]. }
    intros ?. apply keeps_gets_bind. intros slot. apply maybe_publish_core.
Qed.

(** ** Reachable states *)

(** The turns of the threads, each under the lock. *)
Inductive turn :=
  | TEvent (ev : event) | TConnect | TDisconnect (gen : option string) | TMetrics
  | TShadow (r : paper) | TIdle.

Definition run_turn (t : turn) : M unit :=
  match t with
  | TEvent ev => handle_event env ev ;; ret tt
  | TConnect => connect env
  | TDisconnect gen => disconnect env gen
  | TMetrics => metrics_turn env
  | TShadow r => shadow_turn env r
  | TIdle => idle env
  end.

(** The states reached by turns that return; a turn that raises ends its thread. *)
Inductive reach (s0 : st) : st -> Prop :=
  | reach_start : reach s0 s0
  | reach_turn s s' t : reach s0 s -> run_turn t s = (s', Ret tt) -> reach s0 s'.

Lemma run_turn_inv t : keeps Inv (run_turn t).
Proof.
  destruct t; cbn [run_turn].
  - apply keeps_bind; [apply handle_event_inv|intros ?; apply keeps_ret].
  - unfold connect. apply keeps_bind; [by apply quiet_inv|intros g; apply reset_inv].
  - unfold disconnect. apply keeps_gets_bind. intros s. apply keeps_when, reset_inv.
  - unfold metrics_turn. apply keeps_bind.
    + intros s s' res Hi He. split.
      * by destruct (recount_core nowhere _ s s' res (inv_core s Hi) He).
      * intros Hd. destruct (recount_core nowhere _ s s' res (inv_core s Hi) He) as [_ Hd'].
        change (s_done s' = false) in Hd. rewrite Hd' in Hd.
        eapply recount_dark; [|exact He]. by apply Hi.
    + intros ?. apply keeps_bind; [by apply quiet_inv|intros ?; by apply quiet_inv].
  - unfold shadow_turn. apply keeps_gets_bind. intros s.
    apply keeps_bind; [by apply quiet_inv|intros ?]. by apply keeps_when, quiet_inv.
  - unfold idle. apply triple_gets. intros s0 H0. unfold id.
    destruct (s_ready s0) eqn:Er; [|apply (triple_at Inv); [done|apply keeps_ret]].
    apply running_inv; [done|by apply inv_ready|]. intros b. apply maybe_publish_core.
Qed.

Lemma reach_inv s0 s : Inv s0 -> reach s0 s -> Inv s.
Proof. intros H0. induction 1 as [|s s' t _ IH He]; [done|]. by eapply run_turn_inv. Qed.

Lemma new_st_inv auth rf explain file : Inv (new_st auth rf explain file).
Proof.
  split; [|intros _ idx r Hr; done]. constructor; try done.
Qed.
End facts.

(** * What the turns promise *)

Section claims.
Context (env : environ) (auth : authpub) (rf : bytes) (explain file : bool).

Abbreviation start := (new_st auth rf explain file).

(** C3. Whatever the threads have done since the process started, a pool
    marked coherent requires some account, and each of its required accounts is held with
    nonempty data, stored under its own key, read on the current connection, and tracked as a
    dependency of that very pool, so that the next write to it will invalidate the pool. *)
Theorem coherent_pool_has_data s idx r :
  reach env start s -> od_get (s_pools s) idx = Some r -> r_status r = ST_COHERENT ->
  r_required r <> ∅ /\
  forall pk, pk ∈ r_required r ->
    exists row, s_bytes s !! pk = Some row /\ a_data row <> [] /\ a_pubkey row = pk /\
      a_gen row = s_gen s /\ s_gen s <> None /\
      exists d, d ∈ deps_of (s_acc_deps s) pk /\ d_pool_idx d = idx.
Proof.
  intros Hr Hget Hst. destruct (reach_inv env start s (new_st_inv _ _ _ _) Hr) as [[_ _ Hb Hc Hd] _].
  destruct (Hc idx r Hget (fun x => x) Hst) as [Hne Hdata]. split; [done|]. intros pk Hpk.
  specialize (Hdata pk Hpk). unfold has_data in Hdata. cbn [view_of v_bytes] in Hdata.
  destruct (s_bytes s !! pk) as [row|] eqn:E; [|done].
  apply negb_true_iff, bool_decide_eq_false in Hdata. destruct (Hb pk row E) as (H1&H2&H3).
  exists row. split; [done|]. split; [done|]. split; [done|]. split; [done|]. split; [done|].
  by apply (Hd idx r pk).
Qed.

(** In every reachable state the plane is either bootstrapping or done,
    never both; until the bootstrap is done no pool is coherent; and the plane's own ready flag
    implies a finished bootstrap on a live connection. *)
Theorem ready_after_bootstrap s :
  reach env start s ->
  s_bootstrapping s = negb (s_done s) /\
  (s_done s = false ->
     s_ready s = false /\
     forall idx r, od_get (s_pools s) idx = Some r -> r_status r <> ST_COHERENT) /\
  (s_ready s = true -> s_done s = true /\ s_gen s <> None).
Proof.
  intros Hr. destruct (reach_inv env start s (new_st_inv _ _ _ _) Hr) as [[Hp Hrd _ _ _] Hdark].
  split; [done|]. split; [|done]. intros Hdn. split; [|by apply Hdark].
  destruct (s_ready s) eqn:E; [|done]. destruct (Hrd E) as [H _].
  change (s_done s = true) in H. congruence.
Qed.
End claims.

(** A pool booted from the RPC rows of its three accounts. *)
Definition demo_env : environ :=
  Environ (fun n => 1000 + Z.of_nat n) (fun _ => 0) (fun _ => "g"%string) (fun _ => None) None.
Definition demo_start : st := new_st demo_auth [] false false.
Definition demo_gen : option string := Some "g"%string.
Definition demo_plan : generation :=
  Generation [] [GenRow 0 Pump (Some "pool"%string)
    [("pool"%string, ROLE_PUMP_POOL); ("base"%string, ROLE_PUMP_VAULT_BASE);
     ("quote"%string, ROLE_PUMP_VAULT_QUOTE)] [] 3 None None None] 3 1.
Definition demo_token_account (amount : Z) : bytes := replicate 64 0 ++ le_enc 8 amount.
Definition demo_rows : list (string * rpc_row) :=
  [("pool"%string, RpcRow 7 None EmptyString (replicate 211 0) 1);
   ("base"%string, RpcRow 7 None EmptyString (demo_token_account 500) 1);
   ("quote"%string, RpcRow 7 None EmptyString (demo_token_account 900) 1)].
Definition demo_turns : list turn :=
  [TConnect; TEvent (EvBank (EGeneration demo_gen));
   TEvent (EvBank (EBank demo_gen 9 (Some 1) 1001 (BSlot (Some 0) 0)));
   TEvent (EvPlan demo_gen demo_gen demo_plan);
   TEvent (EvBoot demo_gen demo_gen demo_rows)].

(** The state after turns that all return. *)
Fixpoint run_turns (env : environ) (ts : list turn) (s : st) : option st :=
  match ts with
  | [] => Some s
  | t :: ts' => match run_turn env t s with
                | (s', Ret _) => run_turns env ts' s'
                | (_, Raise _) => None
                end
  end.

Lemma run_turns_reach env s0 ts : forall s s',
  reach env s0 s -> run_turns env ts s = Some s' -> reach env s0 s'.
Proof.
  induction ts as [|t ts IH]; intros s s' Hr He; cbn [run_turns] in He; [by injection He as <-|].
  destruct (run_turn env t s) as [s1 [[]|e]] eqn:E; [|done].
  eapply IH; [|exact He]. by eapply reach_turn.
Qed.

Definition demo_st : st := default demo_start (run_turns demo_env demo_turns demo_start).

Lemma demo_reach : reach demo_env demo_start demo_st.
Proof.
  apply (run_turns_reach _ _ demo_turns demo_start); [apply reach_start|]. unfold demo_st.
  assert (Hs : bool_decide (is_Some (run_turns demo_env demo_turns demo_start)) = true)
    by (vm_compute; reflexivity).
  apply bool_decide_eq_true_1 in Hs as [s Hs]. rewrite Hs. reflexivity.
Qed.

Lemma demo_pool :
  (fun r => (bool_decide (r_status r = ST_COHERENT), bool_decide ("base"%string ∈ r_required r)))
    <$> od_get (s_pools demo_st) 0 = Some (true, true).
Proof. vm_compute. reflexivity. Qed.

Lemma coherent_pool_has_data_witness :
  exists r row, od_get (s_pools demo_st) 0 = Some r /\ r_status r = ST_COHERENT /\
    s_bytes demo_st !! "base"%string = Some row /\ a_data row <> [].
Proof.
  pose proof demo_pool as Hp. destruct (od_get (s_pools demo_st) 0) as [r|] eqn:E; [|done].
  injection Hp as Hst Hin. apply bool_decide_eq_true in Hst, Hin.
  destruct (coherent_pool_has_data demo_env demo_auth [] false false demo_st 0 r demo_reach E Hst)
    as [_ H].
  destruct (H "base"%string Hin) as (row&H1&H2&_). exists r, row.
  split; [reflexivity|]. split; [exact Hst|]. split; [exact H1|exact H2].
Defined.

Lemma ready_after_bootstrap_witness :
  s_ready demo_st = true /\ s_done demo_st = true /\ s_gen demo_st <> None.
Proof.
  assert (Hrd : s_ready demo_st = true) by (vm_compute; reflexivity).
  split; [exact Hrd|].
  exact (proj2 (proj2 (ready_after_bootstrap demo_env demo_auth [] false false demo_st demo_reach))
               Hrd).
Defined.
