(* ===== verification/StateSafe.v ===== *)
(** Safety of the coherent-state plane (State008) beyond its coherence invariant (StateInv): what
    a staged transaction needs to be published, and which version of an account is held. *)
From stdpp Require Import base list strings gmap.
From Stdlib Require Import ZArith Lia.
From coqutil.Datatypes Require Import RecordSetters.
From S2P Require Import Prelude PyBytes Pda Accounts Submap TxExpect TxBarrier.
From S2P Require Import Recon Shadow BankJournal AuthRing Deps ApplyN State008 StateInv.
Import RecordSetters.DoubleBraceUpdate.
Open Scope Z_scope.

(** Descend through an operation that leaves [p] alone. *)
Ltac leave_step :=
  match goal with
  | H : ?G |- ?G => exact H
  | |- leaves _ (bind _ _) => apply leaves_bind; [|intros ?]
  | |- leaves _ (ret _) => apply leaves_ret
  | |- leaves _ (lift _) => apply leaves_lift
  | |- leaves _ (gets _) => apply leaves_gets
  | |- leaves _ (modify _) => apply leaves_modify; intros ?; first [reflexivity | case_bool_decide; reflexivity]
  | |- leaves _ (when _ _) => apply leaves_when
  | |- leaves _ (with_rec _ _) => apply leaves_with_rec; intros ?
  | |- leaves _ (each _ _) => apply leaves_each; intros ?
  | |- leaves _ (on_rf _) => apply leaves_on_rf; intros ? ?; reflexivity
  | |- leaves _ (log_invalidate _ _ _ _) => apply leaves_on_rf; intros ? ?; reflexivity
  | |- leaves _ (if ?b then _ else _) => destruct b
  | |- leaves _ (match ?x with _ => _ end) => destruct x
  | |- leaves _ _ => solve [eauto with leaves]
  | |- leaves _ (on_auth _) => intros ?; unfold on_auth; case_match; reflexivity
  | |- leaves _ _ => intros ?; reflexivity
  end.
Ltac leave := repeat leave_step.

(** * A transaction is published only when it is certified *)

Section gated.
Context (env : environ).

Lemma fail_leaves_auth idx sig : leaves s_auth (_fail_tx_incomplete env idx sig).
Proof. unfold _fail_tx_incomplete. leave. Qed.

#[local] Hint Resolve fail_leaves_auth : leaves.

(** What [publish_tx] needs. *)
Lemma publish_tx_needs idx r ss hx s :
  s_auth (fst (publish_tx env idx r ss hx s)) <> s_auth s ->
  exists sp, spec (s_barrier s) hx idx = Some sp /\ certified hx sp (r_required r) (s_bytes s).
Proof.
  unfold publish_tx, bind at 1, gets, id.
  destruct (snapshot _ _ _ _ _) as [why|accs] eqn:E.
  - intros Hn. destruct Hn.
    assert (leaves s_auth (bump_m (MSnapshotRejection why) ;; _fail_tx_incomplete env idx hx)) as Hl
      by leave.
    apply Hl.
  - intros _. by apply snapshot_inr in E as [_ E].
Qed.

Lemma try_tx_needs idx r ss hx s :
  s_auth (fst (try_tx env idx r ss hx s)) <> s_auth s ->
  (exists sp, spec (s_barrier s) hx idx = Some sp /\ certified hx sp (r_required r) (s_bytes s)) \/
  has_shape (s_barrier s) hx idx = false /\ or0 (st_slot (r_stage r)) + 8 < ss.
Proof.
  unfold try_tx, bind at 1, gets at 1, id at 1. cbv beta zeta.
  destruct (has_shape (s_barrier s) hx idx) eqn:Esh; cbn [negb].
  - destruct (can_commit _ _ _); cbn [negb]; [|destruct (_ <? ss)].
    + intros Hn. left. by apply publish_tx_needs in Hn.
    + intros Hn. destruct Hn. apply fail_leaves_auth.
    + intros Hn. destruct Hn.
      assert (leaves s_auth (on_barrier (fun b => mark_wait b (missing (s_barrier s) hx idx)
        (_role s idx)) ;; copy_waits)) as Hl by leave.
      apply Hl.
  - destruct (_ <? ss) eqn:E; [intros _; right; split; [done|by apply Z.ltb_lt]|].
    intros Hn. destruct Hn.
    assert (leaves s_auth (bump_m MWaitShape ;;
      on_barrier (fun b => set_bm b (bump_wait_shape (bm b))))) as Hl by leave.
    apply Hl.
Qed.

(** C2. When a pool whose stage carries a transaction is tried and the ring
    changes, then every required account had data and either the barrier's spec for exactly that
    transaction and pool is certified against the accounts held at that moment (all expected
    writes received, without conflicting versions, inside the read set, still the current rows,
    nothing newer than the transaction's slot), or the transaction never got a shape and the
    stream is more than eight slots past it, the documented reconciliation. This holds however
    the attempt ends, exceptions included. *)
Theorem tx_publication_gated idx r ss hx s :
  od_get (s_pools s) idx = Some r ->
  sig_hex (SigBytes <$> st_sig (r_stage r)) = Some hx ->
  s_auth (fst (try_publish env ss idx s)) <> s_auth s ->
  (r_required r <> ∅ /\ forall pk, pk ∈ r_required r -> has_data (s_bytes s !! pk) = true) /\
  ((exists sp, spec (s_barrier s) hx idx = Some sp /\ certified hx sp (r_required r) (s_bytes s)) \/
   has_shape (s_barrier s) hx idx = false /\ or0 (st_slot (r_stage r)) + 8 < ss).
Proof.
  intros Hr Hhx. unfold try_publish, with_rec, get_rec, bind at 1, gets at 1. rewrite Hr.
  unfold bind at 1, gets at 1, id at 1.
  destruct (pool_complete s r) eqn:Ec; cbn [negb]; [|by intros []].
  destruct (stage_empty _); [by intros []|]. rewrite Hhx. intros Hn. split.
  - by apply pool_complete_spec.
  - by apply try_tx_needs in Hn.
Qed.
End gated.

(** The booted pool, a write to its base vault by a transaction, and that transaction's shape. *)
Definition demo_write : acct_row :=
  AcctRow "base" 10 77 (Some [1; 2]) demo_gen None EmptyString 1 (demo_token_account 600) 2000.
Definition demo_shape : exp_map :=
  [(0, ExpRow {["base"%string]} Pump "pool" VPumpSell)].
Definition demo_staged : st :=
  let s := fst (apply_update demo_env demo_write false demo_st) in
  fst (on_barrier (fun b => note_tx b "0102" 10 demo_shape) s).

Lemma demo_staged_pool :
  (fun r => sig_hex (SigBytes <$> st_sig (r_stage r))) <$> od_get (s_pools demo_staged) 0
    = Some (Some "0102"%string).
Proof. vm_compute. reflexivity. Qed.

Lemma demo_staged_published :
  _ver (s_auth (fst (try_publish demo_env 10 0 demo_staged))) <> _ver (s_auth demo_staged).
Proof. vm_compute. discriminate. Qed.

Lemma tx_publication_gated_witness :
  exists r sp, od_get (s_pools demo_staged) 0 = Some r /\
    spec (s_barrier demo_staged) "0102" 0 = Some sp /\
    certified "0102" sp (r_required r) (s_bytes demo_staged).
Proof.
  pose proof demo_staged_pool as Hp. pose proof demo_staged_published as Hn.
  destruct (od_get (s_pools demo_staged) 0) as [r|] eqn:E; [|discriminate Hp].
  cbn [fmap option_fmap option_map] in Hp. injection Hp as Hp.
  destruct (tx_publication_gated demo_env 0 r 10 "0102" demo_staged E Hp) as [_ [(sp&H1&H2)|[H _]]].
  - intros Heq. apply Hn. rewrite Heq. reflexivity.
  - exists r, sp. split; [reflexivity|]. split; [exact H1|exact H2].
  - exfalso. revert H. vm_compute. discriminate.
Defined.

(** * Which version of an account is held *)

(** Accounts, RPC floors and write versions. *)
Definition ledger (s : st) : gmap string acct_row * gmap string Z * gmap string Z :=
  (s_bytes s, s_floors s, s_last_wv s).

(** The row is the RPC snapshot of its key. *)
Definition rpc_held (floors : gmap string Z) (pk : string) (row : acct_row) : Prop :=
  floors !! pk = Some (a_slot row) /\ a_wv row = 0 /\ a_sig row = None.

(** The row is a stream write newer than the RPC snapshot, and the last one accepted. *)
Definition stream_held (floors wvs : gmap string Z) (pk : string) (row : acct_row) : Prop :=
  (forall f, floors !! pk = Some f -> f < a_slot row) /\ wvs !! pk = Some (a_wv row).

Definition ordered (l : gmap string acct_row * gmap string Z * gmap string Z) : Prop :=
  let '(bs, floors, wvs) := l in
  forall pk row, bs !! pk = Some row -> rpc_held floors pk row \/ stream_held floors wvs pk row.

Definition Ordered (s : st) : Prop := ordered (ledger s).

Section ordered.
Context (env : environ).

Lemma order_of {A} (m : M A) : leaves ledger m -> keeps Ordered m.
Proof. apply (leaves_keeps ledger ordered). Qed.

Lemma ledger_auth f : leaves ledger (on_auth f).
Proof. intros s. unfold on_auth. by destruct (f (s_auth s)). Qed.
Lemma ledger_lat_stage rx : leaves ledger (lat_stage env rx). Proof. done. Qed.
Lemma ledger_lat_pub rx : leaves ledger (lat_pub env rx). Proof. done. Qed.
Lemma ledger_add_required idx pk ro : leaves ledger (add_required idx pk ro).
Proof. unfold add_required, get_rec. leave. Qed.
#[local] Hint Resolve ledger_auth ledger_lat_stage ledger_lat_pub ledger_add_required : leaves.

Lemma ledger_invalidate idx rx slot : leaves ledger (invalidate env idx rx slot).
Proof. unfold invalidate. leave. Qed.
Lemma ledger_fail idx sig : leaves ledger (_fail_tx_incomplete env idx sig).
Proof. unfold _fail_tx_incomplete. leave. Qed.
#[local] Hint Resolve ledger_invalidate ledger_fail : leaves.

Lemma ledger_stage row d : leaves ledger (stage_update env row d).
Proof. unfold stage_update. leave. Qed.
Lemma ledger_clear row d : leaves ledger (clear_stage env row d).
Proof. unfold clear_stage. leave. Qed.
Lemma ledger_commit idx slot rx p blob : leaves ledger (commit env idx slot rx p blob).
Proof. unfold commit, _finish_publish. leave. Qed.
Lemma ledger_bins idx need added : leaves ledger (require_bins idx need added).
Proof. revert added. induction need; intros; cbn [require_bins]; leave. Qed.
#[local] Hint Resolve ledger_stage ledger_clear ledger_commit ledger_bins : leaves.

Lemma ledger_dlmm idx r slot rx accs : leaves ledger (publish_dlmm env idx r slot rx accs).
Proof. unfold publish_dlmm. leave. Qed.
Lemma ledger_pump idx r slot rx accs : leaves ledger (publish_pump env idx r slot rx accs).
Proof. unfold publish_pump. leave. Qed.
#[local] Hint Resolve ledger_dlmm ledger_pump : leaves.

Lemma ledger_from idx r ss sig rec accs : leaves ledger (publish_from env idx r ss sig rec accs).
Proof. unfold publish_from. leave. Qed.
#[local] Hint Resolve ledger_from : leaves.

Lemma ledger_boot idx ss : leaves ledger (publish_boot env idx ss).
Proof. unfold publish_boot. leave. Qed.
Lemma ledger_tx idx r ss hx : leaves ledger (publish_tx env idx r ss hx).
Proof. unfold publish_tx. leave. Qed.
#[local] Hint Resolve ledger_boot ledger_tx : leaves.

Lemma ledger_try_tx idx r ss hx : leaves ledger (try_tx env idx r ss hx).
Proof. unfold try_tx. leave. Qed.
#[local] Hint Resolve ledger_try_tx : leaves.
Lemma ledger_try ss idx : leaves ledger (try_publish env ss idx).
Proof. unfold try_publish. leave. Qed.
#[local] Hint Resolve ledger_try : leaves.
Lemma ledger_maybe ss : leaves ledger (maybe_publish env ss).
Proof. unfold maybe_publish. leave. Qed.
Lemma ledger_soak sig expect ixs : leaves ledger (_fastsoak_predict env sig expect ixs).
Proof. unfold _fastsoak_predict, predict_pool, predict_pump, predict_dlmm, predict. leave. Qed.
Lemma ledger_expected idx pk : leaves ledger (require_expected idx pk).
Proof. unfold require_expected. leave. Qed.
#[local] Hint Resolve ledger_maybe ledger_soak ledger_expected : leaves.

Lemma ledger_apply_tx ev : leaves ledger (apply_tx env ev).
Proof. unfold apply_tx. leave. Qed.
Lemma ledger_boot_pool idx : leaves ledger (boot_pool env idx).
Proof. unfold boot_pool. leave. Qed.
Lemma ledger_uncertain : leaves ledger (mark_uncertain env).
Proof. unfold mark_uncertain, gap_pool. leave. Qed.
Lemma ledger_ready : leaves ledger mark_ready.
Proof. unfold mark_ready. leave. Qed.
Lemma ledger_reset_pool e : leaves ledger (reset_pool env e).
Proof. unfold reset_pool. leave. Qed.
Lemma ledger_settle : leaves ledger (settle env).
Proof. unfold settle, _recount. leave. Qed.
#[local] Hint Resolve ledger_apply_tx ledger_boot_pool ledger_uncertain ledger_ready
  ledger_reset_pool ledger_settle : leaves.

Ltac order_step :=
  match goal with
  | H : keeps _ _ |- _ => exact H
  | |- keeps _ _ => solve [eauto with orders]
  | |- keeps _ _ => apply order_of; solve [leave]
  | |- keeps _ (bind (gets _) _) => apply keeps_gets_bind; intros ?
  | |- keeps _ (bind _ _) => apply keeps_bind; [|intros ?]
  | |- keeps _ (when _ _) => apply keeps_when
  | |- keeps _ (each _ _) => apply keeps_each; intros ? ?
  | |- keeps _ (if ?b then _ else _) => destruct b
  | |- keeps _ (match ?x with _ => _ end) => destruct x
  end.
Ltac order :=
  try match goal with |- triple ?P ?m (fun _ => ?P) => change (keeps P m) end;
  repeat order_step.

Lemma order_apply_update row fb : keeps Ordered (apply_update env row fb).
Proof.
  unfold apply_update. apply triple_gets. intros s0 H0. unfold id.
  destruct (_ || _); [apply (triple_at Ordered); [done|]; order|].
  destruct (a_slot row <=? _) eqn:Hgt.
  { apply (triple_at Ordered); [done|]. destruct (_ && _); [|order]. apply keeps_bind; [|intros ?; order].
    intros s s' res H [= <- _] pk r Hpk. cbn in Hpk.
    apply lookup_delete_Some in Hpk as [_ Hpk]. by apply H. }
  destruct (bool_decide _); [apply (triple_at Ordered); [done|]; order|].
  destruct (_ && _); [apply (triple_at Ordered); [done|]; order|].
  eapply triple_bind with (Q := fun _ => Ordered); [|intros ?; order].
  intros s s' res -> [= <- _] pk r Hpk.
  change (s_bytes (fst (accept row s0)) !! pk = Some r) in Hpk.
  change (rpc_held (s_floors s0) pk r \/
          stream_held (s_floors s0) (<[a_pubkey row := a_wv row]> (s_last_wv s0)) pk r).
  change (s_bytes (fst (accept row s0))) with (<[a_pubkey row := row]> (s_bytes s0)) in Hpk.
  rewrite lookup_insert in Hpk. case_decide as Hk.
  - injection Hpk as <-. subst pk. right. split; [|by rewrite lookup_insert_eq].
    intros f Hf. apply Z.leb_gt in Hgt. by rewrite Hf in Hgt.
  - destruct (H0 pk r Hpk) as [H|[H1 H2]]; [by left|right]. split; [done|].
    by rewrite lookup_insert_ne.
Qed.

Lemma order_adopt kr : keeps Ordered (adopt_row env kr).
Proof.
  intros s s' res H He. unfold adopt_row, bind at 1, gets, id in He.
  destruct (s_bytes s !! kr.1) as [r0|] eqn:E; [by injection He as <- _|].
  injection He as <- _. intros pk r Hpk.
  change (<[kr.1 := rpc_account_row (s_gen s) kr.1 kr.2 (e_mono env (s_ticks s))]> (s_bytes s) !! pk
          = Some r) in Hpk.
  change (rpc_held (<[kr.1 := rw_slot kr.2]> (s_floors s)) pk r \/
          stream_held (<[kr.1 := rw_slot kr.2]> (s_floors s)) (s_last_wv s) pk r).
  unfold rpc_held, stream_held. rewrite lookup_insert in Hpk.
  case_decide as Hk.
  - injection Hpk as <-. subst pk. left. by rewrite lookup_insert_eq.
  - rewrite lookup_insert_ne by done. by apply H.
Qed.
#[local] Hint Resolve order_apply_update order_adopt : orders.

Lemma order_install plan extra : keeps Ordered (install_generation env plan extra).
Proof. unfold install_generation, install_row, _recount. order. Qed.

Lemma order_reset gen : keeps Ordered (reset_connection env gen).
Proof.
  unfold reset_connection. order. intros s s' res H [= <- _] pk r Hpk.
  change ((∅ : gmap string acct_row) !! pk = Some r) in Hpk. by rewrite lookup_empty in Hpk.
Qed.
#[local] Hint Resolve order_install order_reset : orders.

(** The bootstrap rows are RPC rows. *)
Lemma boot_bytes_rpc rows : forall acc s s' m,
  (forall pk row, acc !! pk = Some row -> a_wv row = 0 /\ a_sig row = None) ->
  boot_bytes env rows acc s = (s', Ret m) ->
  forall pk row, m !! pk = Some row -> a_wv row = 0 /\ a_sig row = None.
Proof.
  induction rows as [|kr rows IH]; intros acc s s' m Hacc He; cbn [boot_bytes] in He.
  - by injection He as <- <-.
  - eapply IH; [|exact He]. intros pk row. rewrite lookup_insert.
    case_decide; [|apply Hacc]. by intros [= <-].
Qed.

Lemma order_boot_install accs :
  keeps Ordered (rows <- boot_bytes env (boot_rows accs) ∅ ;;
    modify (fun s => s {{ s_bytes := rows; s_floors := a_slot <$> rows;
                          s_boot_slot := max_slot (a_slot <$> rows); s_buf := [] }})).
Proof.
  intros s s' res _ He. unfold bind in He.
  destruct (boot_bytes env (boot_rows accs) ∅ s) as [s1 [rows|e]] eqn:E; [|done].
  injection He as <- _. intros pk row Hpk. left.
  assert (Hz : forall pk row, (∅ : gmap string acct_row) !! pk = Some row ->
    a_wv row = 0 /\ a_sig row = None) by (intros ? ?; by rewrite lookup_empty).
  destruct (boot_bytes_rpc _ _ _ _ _ Hz E pk row Hpk) as [H1 H2].
  split; [|by split]. change ((a_slot <$> rows) !! pk = Some (a_slot row)).
  rewrite lookup_fmap. by rewrite (Hpk : rows !! pk = Some row).
Qed.

Lemma order_replay ev : keeps Ordered (replay_event env ev).
Proof. unfold replay_event. order. Qed.
#[local] Hint Resolve order_boot_install order_replay : orders.

Lemma order_finish gen token accs : keeps Ordered (finish_bootstrap env gen token accs).
Proof.
  unfold finish_bootstrap. apply keeps_gets_bind. intros s0. unfold id.
  destruct (_ || s_done s0); [apply keeps_ret|].
  assert (Hk : keeps Ordered
    ((rows <- boot_bytes env (boot_rows accs) ∅ ;;
      modify (fun s => s {{ s_bytes := rows; s_floors := a_slot <$> rows;
                            s_boot_slot := max_slot (a_slot <$> rows); s_buf := [] }})) ;;
     each (replay_event env) (s_buf s0) ;;
     modify (fun s => s {{ s_done := true; s_bootstrapping := false }}) ;;
     ps <- gets s_pools ;;
     each (fun e => boot_pool env (fst e)) ps ;;
     _recount ;;
     s <- gets id ;;
     when ((0 <? s_boot_slot s) && (s_boot_slot s <=? s_stream_slot s)) mark_ready)).
  { apply keeps_bind; [apply order_boot_install|intros ?]. unfold _recount. order. }
  intros s s' res H He. eapply Hk; [exact H|]. by rewrite bind_assoc.
Qed.
#[local] Hint Resolve order_finish : orders.

Lemma order_slot gen slot : keeps Ordered (on_slot env gen slot).
Proof. unfold on_slot, expire_pool. order. Qed.
#[local] Hint Resolve order_slot : orders.

Lemma order_event ev : keeps Ordered (handle_event env ev).
Proof.
  unfold handle_event, on_bank, on_boot_message, on_plan, on_stream. order.
Qed.
#[local] Hint Resolve order_event : orders.

Lemma order_turn t : keeps Ordered (run_turn env t).
Proof.
  destruct t; cbn [run_turn]; unfold connect, disconnect, metrics_turn, shadow_turn, idle, _recount;
    order.
Qed.

(** ** One turn *)

Lemma rows_of {A} (P : gmap string acct_row -> Prop) (m : M A) : leaves ledger m -> keeps (fun s => P (s_bytes s)) m.
Proof. apply (leaves_keeps ledger (fun l => P l.1.1)). Qed.

(** Every row of [b0] is still held; no row is held that [b0] does not hold. *)
Definition Grown (b0 : gmap string acct_row) (s : st) : Prop := forall pk row, b0 !! pk = Some row -> s_bytes s !! pk = Some row.
Definition Shrunk (b0 : gmap string acct_row) (s : st) : Prop := forall pk row, s_bytes s !! pk = Some row -> b0 !! pk = Some row.

Lemma grown_of {A} b0 (m : M A) : leaves ledger m -> keeps (Grown b0) m.
Proof. apply (rows_of (fun b => forall pk row, b0 !! pk = Some row -> b !! pk = Some row)). Qed.
Lemma shrunk_of {A} b0 (m : M A) : leaves ledger m -> keeps (Shrunk b0) m.
Proof. apply (rows_of (fun b => forall pk row, b !! pk = Some row -> b0 !! pk = Some row)). Qed.

Ltac rows_step :=
  match goal with
  | |- keeps _ _ => solve [eauto with rows]
  | |- keeps (Grown _) _ => apply grown_of; solve [leave]
  | |- keeps (Shrunk _) _ => apply shrunk_of; solve [leave]
  | |- keeps _ (bind (gets _) _) => apply keeps_gets_bind; intros ?
  | |- keeps _ (bind _ _) => apply keeps_bind; [|intros ?]
  | |- keeps _ (when _ _) => apply keeps_when
  | |- keeps _ (each _ _) => apply keeps_each; intros ? ?
  | |- keeps _ (if ?b then _ else _) => destruct b
  | |- keeps _ (match ?x with _ => _ end) => destruct x
  end.
Ltac rows := repeat rows_step.

(** Only a key that holds nothing adopts a row. *)
Lemma grown_adopt b0 kr : keeps (Grown b0) (adopt_row env kr).
Proof.
  intros s s' res H He. unfold adopt_row, bind at 1, gets, id in He.
  destruct (s_bytes s !! kr.1) as [r0|] eqn:E; [by injection He as <- _|].
  injection He as <- _. intros pk r Hpk. specialize (H pk r Hpk).
  change (<[kr.1 := rpc_account_row (s_gen s) kr.1 kr.2 (e_mono env (s_ticks s))]> (s_bytes s) !! pk = Some r).
  rewrite lookup_insert_ne; [done|]. intros <-. congruence.
Qed.
#[local] Hint Resolve grown_adopt : rows.
Lemma grown_install b0 plan extra : keeps (Grown b0) (install_generation env plan extra).
Proof. unfold install_generation, install_row, _recount. rows. Qed.
#[local] Hint Resolve grown_install : rows.

Lemma shrunk_reset b0 gen : keeps (Shrunk b0) (reset_connection env gen).
Proof.
  unfold reset_connection. rows. intros s s' res H [= <- _] pk r Hpk.
  change ((∅ : gmap string acct_row) !! pk = Some r) in Hpk. by rewrite lookup_empty in Hpk.
Qed.
#[local] Hint Resolve shrunk_reset : rows.
Lemma shrunk_slot b0 gen slot : keeps (Shrunk b0) (on_slot env gen slot).
Proof. unfold on_slot, expire_pool. rows. Qed.
#[local] Hint Resolve shrunk_slot : rows.

(** What an accepted stream write has over what was held under its key. *)
Definition later_write (s : st) (pk : string) (old new : acct_row) : Prop :=
  (forall f, s_floors s !! pk = Some f -> f < a_slot new) /\
  (0 <= a_wv new -> default (-1) (s_last_wv s !! pk) <= a_wv new /\
     (stream_held (s_floors s) (s_last_wv s) pk old -> a_wv old <= a_wv new)).

Lemma update_replaces row fb s s' pk old new :
  apply_update env row fb s = (s', Ret tt) -> s_bytes s !! pk = Some old -> s_bytes s' !! pk = Some new ->
  new = old \/ new = row /\ pk = a_pubkey row /\ later_write s pk old new.
Proof.
  intros He Hold Hnew. unfold apply_update, bind at 1, gets in He. change (id s) with s in He.
  assert (Hl : forall (m : M unit) s1, leaves ledger m -> m s1 = (s', Ret tt) -> s_bytes s' = s_bytes s1).
  { intros m s1 Hm E. specialize (Hm s1). rewrite E in Hm. by injection Hm as -> _ _. }
  destruct (_ || _). { apply Hl in He; [|leave]. rewrite He in Hnew. left. congruence. }
  destruct (Z.leb_spec (a_slot row) (default (-1) (s_floors s !! a_pubkey row))) as [|Hslot].
  { destruct (_ && _).
    - apply (Hl (each (clear_stage env row) (deps_of (s_acc_deps s) (a_pubkey row)) ;; bump_m MRpcAmbiguous)
        (s {{ s_bytes ::= delete (a_pubkey row) }})) in He; [|leave]. rewrite He in Hnew.
      change (delete (a_pubkey row) (s_bytes s) !! pk = Some new) in Hnew.
      apply lookup_delete_Some in Hnew as [_ Hnew]. left. congruence.
    - injection He as <-. left. congruence. }
  destruct (bool_decide _). { apply Hl in He; [|leave]. rewrite He in Hnew. left. congruence. }
  destruct (_ && _) eqn:Hwv; [injection He as <-; left; congruence|].
  apply (Hl (if s_bootstrapping s && negb fb then ret tt else each (stage_update env row) (deps_of (s_acc_deps s) (a_pubkey row)))
    (fst (accept row s))) in He; [|leave].
  rewrite He in Hnew. change (<[a_pubkey row := row]> (s_bytes s) !! pk = Some new) in Hnew.
  rewrite lookup_insert in Hnew. case_decide as Hk; [|left; congruence].
  injection Hnew as <-. subst pk. right. split; [done|]. split; [done|]. split.
  - intros f Hf. by rewrite Hf in Hslot.
  - intros H0. apply andb_false_iff in Hwv as [Hwv|Hwv]; zb; [lia|]. split; [done|].
    intros [_ Hlast]. by rewrite Hlast in Hwv.
Qed.

(** A turn behind the bootstrap replaces a held row only by a later stream write. *)
Lemma turn_replaces t s s' pk old new :
  s_done s = true -> s_bootstrapping s = false -> run_turn env t s = (s', Ret tt) ->
  s_bytes s !! pk = Some old -> s_bytes s' !! pk = Some new ->
  new = old \/ t = TEvent (EvAccount new) /\ later_write s pk old new.
Proof.
  intros Hd Hb He Hold Hnew.
  assert (G : forall A (m : M A) r, keeps (Grown (s_bytes s)) m -> m s = (s', Ret r) -> new = old).
  { intros A m r Hm E. specialize (Hm s s' r (fun _ _ H => H) E pk old Hold). congruence. }
  assert (S : forall A (m : M A) r, keeps (Shrunk (s_bytes s)) m -> m s = (s', Ret r) -> new = old).
  { intros A m r Hm E. specialize (Hm s s' r (fun _ _ H => H) E pk new Hnew). congruence. }
  destruct t as [ev|gen'|gen'| |r|]; cbn [run_turn] in He.
  - unfold bind at 1 in He. destruct (handle_event env ev s) as [s1 [res|e]] eqn:E; [|done]. injection He as ->.
    unfold handle_event, bind at 1, gets, id in E. destruct (_ || _).
    { left. eapply S; [|exact E]. rows. }
    destruct ev as [b|gen token plan|gen token accs|gen token|gen plan accs mtime|gen accs|t|row].
    + left. eapply S; [|exact E]. unfold on_bank. rows.
    + left. unfold on_boot_message, boot_current, bind at 1, gets, id in E. rewrite Hd, !andb_false_r in E.
      eapply S; [|exact E]. rows.
    + left. unfold on_boot_message, boot_current, bind at 1, gets, id in E. rewrite Hd, !andb_false_r in E.
      eapply S; [|exact E]. rows.
    + left. eapply S; [|exact E]. rows.
    + left. eapply G; [|exact E]. rows.
    + left. eapply G; [|exact E]. rows.
    + left. unfold on_stream, bind at 1, gets, id in E. rewrite Hb in E. eapply S; [|exact E]. rows.
    + unfold on_stream, bind at 1, gets, id in E. rewrite Hb in E. unfold bind at 1, bind at 1 in E.
      destruct (apply_update env row false s) as [s2 [[]|e]] eqn:Eu; [|done].
      assert (Hs : s_bytes s' = s_bytes s2).
      { assert (Hl : leaves ledger (bind (slot <- gets s_stream_slot ;; maybe_publish env slot) (fun _ => ret HAccount))) by leave.
        specialize (Hl s2). unfold bind in Hl, E. cbn [gets] in Hl, E. rewrite E in Hl. by injection Hl as -> _ _. }
      rewrite Hs in Hnew. destruct (update_replaces _ _ _ _ _ _ _ Eu Hold Hnew) as [|(-> & _ & H)]; [by left|]. by right.
  - left. eapply S; [|exact He]. unfold connect. rows.
  - left. eapply S; [|exact He]. unfold disconnect. rows.
  - left. eapply S; [|exact He]. unfold metrics_turn, _recount. rows.
  - left. eapply S; [|exact He]. unfold shadow_turn. rows.
  - left. eapply S; [|exact He]. unfold idle. rows.
Qed.

(** C5. Whatever the threads have done, the row held for an account is
    either the RPC snapshot itself, at the very slot recorded as its floor and with no signature,
    or a stream write of a strictly later slot than the snapshot's whose write version is the
    last one accepted for that account.  And held rows move forward only: once the bootstrap is done, a turn
    after which an account is still held either leaves its row as it was or is the very write it now
    holds, of a later slot than the snapshot and with no lower write version than the last one
    accepted, so than that of the row it replaces. *)
Theorem held_accounts_ordered auth rf explain file s pk row :
  reach env (new_st auth rf explain file) s -> s_bytes s !! pk = Some row ->
  (rpc_held (s_floors s) pk row \/ stream_held (s_floors s) (s_last_wv s) pk row) /\
  forall t s' row', s_done s = true -> run_turn env t s = (s', Ret tt) -> s_bytes s' !! pk = Some row' ->
    row' = row \/ t = TEvent (EvAccount row') /\ later_write s pk row row'.
Proof.
  intros Hr Hpk. split.
  - revert pk row Hpk. change (Ordered s). induction Hr as [|s s' t _ IH He].
    + intros pk row Hpk. change ((∅ : gmap string acct_row) !! pk = Some row) in Hpk.
      by rewrite lookup_empty in Hpk.
    + by eapply order_turn.
  - intros t s' row' Hd He Hpk'. eapply turn_replaces; [exact Hd| |exact He|exact Hpk|exact Hpk'].
    destruct (reach_inv env _ s (new_st_inv _ _ _ _) Hr) as [[Hp _ _ _ _] _]. change (s_bootstrapping s = negb (s_done s)) in Hp.
    by rewrite Hp, Hd.
Qed.
End ordered.

Lemma returns {A} (x : st * pyres A) a : snd x = Ret a -> x = (fst x, Ret a).
Proof. destruct x. cbn. by intros ->. Qed.

(** A stream write of the base vault behind its snapshot. *)
Definition demo_newer : acct_row := AcctRow "base" 8 5 (Some [1; 2]) demo_gen None EmptyString 1 (demo_token_account 600) 3.
Definition demo_moved : st := fst (run_turn demo_env (TEvent (EvAccount demo_newer)) demo_st).

Lemma held_accounts_ordered_witness :
  exists row, s_bytes demo_st !! "base"%string = Some row /\
    (rpc_held (s_floors demo_st) "base" row \/
     stream_held (s_floors demo_st) (s_last_wv demo_st) "base" row) /\
    s_bytes demo_moved !! "base"%string = Some demo_newer /\ row <> demo_newer /\ later_write demo_st "base" row demo_newer.
Proof.
  destruct (s_bytes demo_st !! "base"%string) as [row|] eqn:E.
  - exists row. split; [reflexivity|].
    destruct (held_accounts_ordered demo_env demo_auth [] false false demo_st "base" row demo_reach E) as [H1 H2].
    split; [exact H1|].
    assert (Hm : s_bytes demo_moved !! "base"%string = Some demo_newer) by (vm_compute; reflexivity).
    assert (Hne : row <> demo_newer).
    { intros ->. assert (Hs : a_slot <$> s_bytes demo_st !! "base"%string = Some 7) by (vm_compute; reflexivity).
      rewrite E in Hs. discriminate Hs. }
    split; [exact Hm|]. split; [exact Hne|].
    destruct (H2 (TEvent (EvAccount demo_newer)) demo_moved demo_newer) as [Heq|[_ Hl]].
    + vm_compute. reflexivity.
    + unfold demo_moved. apply (returns (run_turn demo_env (TEvent (EvAccount demo_newer)) demo_st)). vm_compute. reflexivity.
    + exact Hm.
    + destruct (Hne (eq_sym Heq)).
    + exact Hl.
  - exfalso. revert E. vm_compute. discriminate.
Defined.

(** * What a write does to a dependent pool *)

(** The record an accepted write leaves in a dependent pool. *)
Definition staged_rec (row : acct_row) (d : dep_row) (r : pool_rec) : pool_rec :=
  let w := SWrite (a_pubkey row) (Some (d_role d)) (a_slot row) (a_wv row)
             (sig_hex (SigBytes <$> a_sig row)) (blen (a_data row)) in
  let fresh := negb (bool_decide (r_status r = ST_STAGING)) in
  PoolRec (r_kind r) (r_pubkey r) (r_required r) (r_optional r) ST_STAGING
    (note_sig (a_slot row) (a_sig row) (touch_stage (a_rx row) (a_slot row) (r_stage r)))
    (a_rx row) (r_gen r) (r_last_s r) (r_last_blob r)
    (if fresh then match r_last_s r with Some x => Some x | None => r_s_before r end
     else r_s_before r)
    ((if fresh then [] else r_staged r) ++ [w]) (r_active_id r).

(** The pool's record satisfies [P]. *)
Definition RecIs (idx : Z) (P : pool_rec -> Prop) (s : st) : Prop :=
  exists r, od_get (s_pools s) idx = Some r /\ P r.

Lemma leaves_rec {A} idx P (m : M A) : leaves s_pools m -> keeps (RecIs idx P) m.
Proof. apply (leaves_keeps s_pools (fun ps => exists r, od_get ps idx = Some r /\ P r)). Qed.

Lemma set_rec_is idx (P Q : pool_rec -> Prop) f :
  (forall r, P r -> Q (f r)) -> triple (RecIs idx P) (set_rec idx f) (fun _ => RecIs idx Q).
Proof.
  intros H s s' res (r&Hr&HP) [= <- _]. exists (f r). split; [|by apply H].
  change (od_get (match od_get (s_pools s) idx with
    | Some r => od_set (s_pools s) idx (f r) | None => s_pools s end) idx = Some (f r)).
  by rewrite Hr, od_get_set_eq.
Qed.

Lemma set_rec_eq idx r0 f :
  triple (RecIs idx (fun r => r = r0)) (set_rec idx f) (fun _ => RecIs idx (fun r => r = f r0)).
Proof. apply set_rec_is. by intros r ->. Qed.

Section staging.
Context (env : environ).

Lemma invalidate_rec idx rx slot r0 :
  triple (RecIs idx (fun r => r = r0)) (invalidate env idx rx slot)
    (fun _ => RecIs idx (fun r => r =
      let r1 := if bool_decide (r_status r0 = ST_STAGING) then r0 else
        r0 {{ r_s_before := match r_last_s r0 with Some x => Some x | None => r_s_before r0 end;
              r_staged := [] }} in
      r1 {{ r_status := ST_STAGING; r_upd_since := rx; r_stage ::= touch_stage rx slot }})).
Proof.
  unfold invalidate, with_rec, get_rec. apply triple_gets. intros s0 (r&Hr&->). rewrite Hr.
  apply (triple_at (RecIs idx (fun r => r = r0))); [by exists r0|].
  eapply triple_bind.
  { instantiate (1 := fun _ => RecIs idx (fun r => r =
      if bool_decide (r_status r0 = ST_STAGING) then r0 else
        r0 {{ r_s_before := match r_last_s r0 with Some x => Some x | None => r_s_before r0 end;
              r_staged := [] }})).
    case_bool_decide; cbn [negb when]; [apply keeps_ret|].
    eapply triple_bind; [apply leaves_rec; leave|intros ?]. apply set_rec_is. by intros r ->. }
  intros ?. eapply triple_bind; [apply set_rec_eq|intros ?].
  apply leaves_rec. leave.
Qed.

Lemma stage_update_rec row d r0 :
  triple (RecIs (d_pool_idx d) (fun r => r = r0)) (stage_update env row d)
    (fun _ => RecIs (d_pool_idx d) (fun r => r = staged_rec row d r0)).
Proof.
  unfold stage_update, with_rec at 1, get_rec. apply triple_gets. intros s0 (r&Hr&->). rewrite Hr.
  apply (triple_at (RecIs (d_pool_idx d) (fun r => r = r0))); [by exists r0|].
  eapply triple_bind; [apply invalidate_rec|intros ?]. cbv beta.
  eapply triple_bind; [apply set_rec_eq|intros ?]. cbv beta.
  eapply triple_bind; [apply leaves_rec; leave|intros ?]. cbv beta.
  apply set_rec_is. intros r ->. unfold staged_rec. by case_bool_decide; destruct r0.
Qed.

Lemma set_rec_other idx i P f : i <> idx -> keeps (RecIs i P) (set_rec idx f).
Proof.
  intros Hne s s' res (r&Hr&HP) [= <- _]. exists r. split; [|done].
  change (od_get (match od_get (s_pools s) idx with
    | Some r => od_set (s_pools s) idx (f r) | None => s_pools s end) i = Some r).
  destruct (od_get (s_pools s) idx); [|done]. by rewrite od_get_set_ne.
Qed.

Ltac rec_step :=
  match goal with
  | |- keeps _ (set_rec _ _) => by apply set_rec_other
  | |- keeps _ (with_rec _ _) => apply keeps_with_rec; intros ?
  | |- keeps _ (bind _ _) => apply keeps_bind; [|intros ?]
  | |- keeps _ (when _ _) => apply keeps_when
  | |- keeps _ (match ?x with _ => _ end) => destruct x
  | |- keeps _ _ => apply leaves_rec; solve [leave]
  end.

Lemma stage_update_other row d i P :
  i <> d_pool_idx d -> keeps (RecIs i P) (stage_update env row d).
Proof. intros Hne. unfold stage_update, invalidate. repeat rec_step. Qed.

(** The write is staged in the pool. *)
Definition holds_write (row : acct_row) (r : pool_rec) : Prop :=
  r_status r = ST_STAGING /\ st_slot (r_stage r) = Some (a_slot row) /\
  exists w, w ∈ r_staged r /\ w_pubkey w = a_pubkey row /\ w_slot w = a_slot row /\
            w_wv w = a_wv row.

Lemma note_sig_slot slot sg x : st_slot x = Some slot -> st_slot (note_sig slot sg x) = Some slot.
Proof. intros H. unfold note_sig. repeat case_match; done. Qed.

Lemma staged_rec_holds row d r : holds_write row (staged_rec row d r).
Proof.
  split; [done|]. split; [by apply note_sig_slot|]. eexists. split; [apply elem_of_app; right; by left|].
  done.
Qed.

Lemma stage_update_holds row d i :
  keeps (RecIs i (holds_write row)) (stage_update env row d).
Proof.
  destruct (decide (i = d_pool_idx d)) as [->|Hne]; [|by apply stage_update_other].
  intros s s' res (r&Hr&_) He.
  destruct (stage_update_rec row d r s s' res) as (r'&Hr'&->); [by exists r|exact He|].
  exists (staged_rec row d r). split; [exact Hr'|apply staged_rec_holds].
Qed.

Lemma stage_all row ds : forall s s',
  each (stage_update env row) ds s = (s', Ret tt) ->
  forall d, d ∈ ds -> is_Some (od_get (s_pools s) (d_pool_idx d)) ->
  RecIs (d_pool_idx d) (holds_write row) s'.
Proof.
  induction ds as [|d0 ds IH]; intros s s' He d Hd Hsome; [by apply elem_of_nil in Hd|].
  cbn [each] in He. unfold bind in He.
  destruct (stage_update env row d0 s) as [s1 [[]|e]] eqn:E; [|done].
  destruct Hsome as [r Hr].
  destruct (decide (d_pool_idx d = d_pool_idx d0)) as [Heq|Hne].
  - assert (RecIs (d_pool_idx d) (holds_write row) s1) as H1.
    { rewrite Heq in Hr |- *.
      destruct (stage_update_rec row d0 r s s1 tt) as (r'&Hr'&->); [by exists r|exact E|].
      exists (staged_rec row d0 r). split; [exact Hr'|apply staged_rec_holds]. }
    eapply (keeps_each _ (stage_update env row) ds); [|exact H1|exact He].
    intros ? _. apply stage_update_holds.
  - assert (RecIs (d_pool_idx d) (fun r' => r' = r) s1) as (r1&Hr1&_).
    { eapply stage_update_other; [exact Hne| |exact E]. by exists r. }
    apply elem_of_cons in Hd as [->|Hd]; [done|]. eapply IH; [exact He|exact Hd|by exists r1].
Qed.

(** The update passes every gate of apply_update. *)
Definition accepted_by (s : st) (row : acct_row) : Prop :=
  a_gen row = s_gen s /\ s_gen s <> None /\
  default (-1) (s_floors s !! a_pubkey row) < a_slot row /\
  (a_pubkey row, a_slot row, a_wv row) ∉ s_seen s /\
  ~ (0 <= a_wv row < default (-1) (s_last_wv s !! a_pubkey row)).

(** C6. An account write that passes the gates becomes the held row,
    and every known pool that depends on the account leaves the published states: it is staging,
    at the write's slot, with the write among its staged writes. *)
Theorem write_unpublishes_dependents row fb s s' :
  accepted_by s row -> s_bootstrapping s && negb fb = false ->
  apply_update env row fb s = (s', Ret tt) ->
  s_bytes s' !! a_pubkey row = Some row /\
  forall d, d ∈ deps_of (s_acc_deps s) (a_pubkey row) ->
    is_Some (od_get (s_pools s) (d_pool_idx d)) ->
    exists r, od_get (s_pools s') (d_pool_idx d) = Some r /\ holds_write row r.
Proof.
  intros (Hg&Hn&Hf&Hseen&Hwv) Hb. unfold apply_update, bind at 1, gets.
  change (id s) with s. rewrite bool_decide_false by tauto. rewrite bool_decide_false by done. cbn [orb].
  replace (a_slot row <=? _) with false by (symmetry; by apply Z.leb_gt).
  rewrite bool_decide_false by done.
  replace ((0 <=? a_wv row) && _) with false.
  2:{ symmetry. apply andb_false_iff. rewrite Z.leb_gt, Z.ltb_ge. lia. }
  unfold bind, accept, modify. rewrite Hb. intros He. split.
  - assert (Hl : leaves ledger (each (stage_update env row) (deps_of (s_acc_deps s) (a_pubkey row))))
      by (apply leaves_each; intros d; apply ledger_stage).
    specialize (Hl (fst (accept row s))). cbn [accept modify fst] in Hl. rewrite He in Hl.
    injection Hl as -> _ _. apply lookup_insert_eq.
  - intros d Hd Hsome. eapply stage_all; [exact He|exact Hd|exact Hsome].
Qed.

(** C9. Once a pool's stage carries a transaction's signature, no later
    write changes it while the pool is staged, not even one of another transaction and a later
    slot: invalidate has just set the stage's slot to the write's own slot, so the test that was
    to restrict the first branch to writes of the same slot always succeeds. *)
Theorem staged_signature_sticks row d s s' r old :
  od_get (s_pools s) (d_pool_idx d) = Some r ->
  st_sig (r_stage r) = Some old -> old <> [] ->
  stage_update env row d s = (s', Ret tt) ->
  exists r', od_get (s_pools s') (d_pool_idx d) = Some r' /\ st_sig (r_stage r') = Some old /\
    st_slot (r_stage r') = Some (a_slot row).
Proof.
  intros Hr Hold Hne He.
  destruct (stage_update_rec row d r s s' tt) as (r'&Hr'&->); [by exists r|exact He|].
  exists (staged_rec row d r). split; [done|]. split; [|by apply note_sig_slot].
  cbn [staged_rec r_stage]. unfold note_sig, touch_stage. cbn [st_sig st_slot st_rx st_wait].
  rewrite Hold. destruct (a_sig row) as [sg|]; [|done].
  case_bool_decide as Hsg; [done|]. rewrite (bool_decide_false (old = [])) by done.
  rewrite (bool_decide_true (Some (a_slot row) = _)) by done. cbn [negb andb].
  rewrite andb_true_r. case_bool_decide as Heq; [by subst|done].
Qed.
End staging.

Lemma write_unpublishes_dependents_witness :
  exists r, od_get (s_pools (fst (apply_update demo_env demo_write false demo_st))) 0 = Some r /\
    holds_write demo_write r.
Proof.
  destruct (write_unpublishes_dependents demo_env demo_write false demo_st
    (fst (apply_update demo_env demo_write false demo_st))) as [_ H].
  - unfold accepted_by. repeat split; vm_compute; first [reflexivity | discriminate | idtac].
    all: intros H; by destruct H.
  - vm_compute. reflexivity.
  - apply returns. vm_compute. reflexivity.
  - apply (H (DepRow 0 ROLE_PUMP_VAULT_BASE Pump true)).
    + apply list_elem_of_In. vm_compute. left. reflexivity.
    + pose proof demo_pool as Hp. cbn [d_pool_idx].
      destruct (od_get (s_pools demo_st) 0) as [r|]; [by exists r|discriminate Hp].
Defined.

(** A write of the next slot by another transaction. *)
Definition demo_later : acct_row :=
  AcctRow "base" 11 78 (Some [3; 4]) demo_gen None EmptyString 1 (demo_token_account 700) 2100.

Lemma demo_staged_sig :
  (fun r => st_sig (r_stage r)) <$> od_get (s_pools demo_staged) 0 = Some (Some [1; 2]).
Proof. vm_compute. reflexivity. Qed.

Lemma staged_signature_sticks_witness :
  exists r', od_get (s_pools (fst (stage_update demo_env demo_later
                                     (DepRow 0 ROLE_PUMP_VAULT_BASE Pump true) demo_staged))) 0
             = Some r' /\ st_sig (r_stage r') = Some [1; 2] /\ st_slot (r_stage r') = Some 11.
Proof.
  pose proof demo_staged_sig as Hs.
  destruct (od_get (s_pools demo_staged) 0) as [r|] eqn:E; [|discriminate Hs].
  cbn [fmap option_fmap option_map] in Hs. injection Hs as Hs.
  apply (staged_signature_sticks demo_env demo_later (DepRow 0 ROLE_PUMP_VAULT_BASE Pump true)
           demo_staged _ r [1; 2] E Hs).
  - discriminate.
  - apply returns. vm_compute. reflexivity.
Defined.
