(* ===== verification/StateRing.v ===== *)
(** The publication ring refines the plane's records: what a reader of the AUTH memory finds for a
    pool is exactly what the plane published for it on the current connection. *)
From stdpp Require Import base list strings gmap.
From Stdlib Require Import ZArith Lia.
From coqutil.Datatypes Require Import RecordSetters.
From S2P Require Import Prelude PyBytes Pda Accounts Submap TxExpect TxBarrier.
From S2P Require Import Recon Shadow BankJournal AuthRing Deps ApplyN State008 StateInv StateSafe.
Import RecordSetters.DoubleBraceUpdate.
Open Scope Z_scope.

(** * What a pool's part of the memory shows *)

(** Between two calls: the sequence word is even, no word is out of range, and a reader gets [o],
    the slot and blob of an entry. *)
Record shows (m : mem) (idx : Z) (o : option (Z * bytes)) : Prop := {
  sh_even : Z.even (u 8 m (pool_off idx)) = true;
  sh_seq : 0 <= u 8 m (pool_off idx);
  sh_head : 0 <= u 4 m (pool_off idx + 8);
  sh_latest : (fun l => (l_slot l, l_blob l)) <$> latest m idx = o }.

Lemma shows_ext m m' idx o :
  0 <= idx -> (forall a, pool_off idx <= a < pool_off idx + POOL -> m' a = m a) ->
  shows m idx o -> shows m' idx o.
Proof.
  intros H0 Hsame [H1 H2 H3 H4].
  assert (Hu : forall n c, 0 <= c -> c + Z.of_nat n <= POOL ->
      u n m' (pool_off idx + c) = u n m (pool_off idx + c))
    by (intros n c Hc Hn; apply u_ext; intros b Hb; apply Hsame; lia).
  pose proof (Hu 8%nat 0 ltac:(lia) ltac:(done)) as Hs. rewrite Z.add_0_r in Hs.
  pose proof (Hu 4%nat 8 ltac:(lia) ltac:(done)) as Hh.
  constructor; rewrite ?Hs, ?Hh; try done. by rewrite (latest_ext m' m).
Qed.

(** A call that returned ran all its stores. *)
Lemma run_steps_None m ss m' :
  run_steps m ss = (m', None) -> Forall step_ok ss /\ m' = foldl run_step m ss.
Proof.
  revert m. induction ss as [|[off [bs|e]|off n] ss IH]; intros m; cbn [run_steps].
  - by intros [= <-].
  - intros [H ->]%IH. split; [by constructor|done].
  - done.
  - intros [H ->]%IH. split; [by constructor|done].
Qed.

Lemma step_ok_pack off n z : step_ok (SPack off (pack_u n z)) -> 0 <= z < 2 ^ (8 * Z.of_nat n).
Proof.
  destruct (pack_u n z) as [bs|e] eqn:E; [|done]. intros _. by apply pack_u_inv in E as [_ ?].
Qed.

(** ** set_ready *)

Lemma set_ready_shows a ready n slot a' m m' idx o :
  mm a = Some m -> set_ready a ready n slot = (a', None) -> mm a' = Some m' -> 0 <= idx ->
  shows m idx o -> shows m' idx o.
Proof.
  intros Hm Hr Hm' H0. unfold set_ready in Hr. rewrite Hm in Hr. unfold with_mem in Hr.
  destruct (run_steps m _) as [m1 e] eqn:E. cbn [fst snd] in Hr.
  injection Hr as <- ->. cbn in Hm'. injection Hm' as ->.
  apply run_steps_None in E as [Hok ->]. apply shows_ext; [done|]. intros b Hb.
  apply foldl_frame. unfold set_ready_steps in *.
  assert (Ho : forall off k z, off + Z.of_nat k <= 256 -> outside b (SPack off (pack_u k z))).
  { intros off k z Hoff. unfold outside. destruct (pack_u k z) as [bs|] eqn:E; cbn.
    - apply pack_u_inv in E as [-> _]. rewrite blen_le_enc. right.
      unfold pool_off, HDR, POOL, POOL_HDR, RING, ENT in *. lia.
    - right. unfold pool_off, HDR, POOL, POOL_HDR, RING, ENT in *. lia. }
  repeat (constructor; [apply Ho; lia|]). constructor.
Qed.

(** ** publish *)

(** A publication of the plane whose stores all fit. *)
Lemma publish_fits a idx p m v m' o :
  mm a = Some m -> 0 <= idx -> shows m idx o -> blen (pa_blob p) <= BLOB ->
  0 <= pa_flags p < 2 ^ 32 ->
  run_steps m (publish_steps m (_ver a + 1) idx p v) = (m', None) ->
  pub_fits m (_ver a + 1) idx p.
Proof.
  intros Hm H0 [Hev Hq Hh _] Hb Hf Hrun. apply run_steps_None in Hrun as [Hok _].
  unfold publish_steps, publish_body, ent_steps in Hok. cbn [app] in Hok. cbv zeta in Hok.
  rewrite !Forall_cons in Hok. destruct Hok as (H1&_&H2&H3&_&_&_&_&_&_&_&_&_&_&H4&_&_&_&H5&_).
  apply step_ok_pack in H1, H2, H3, H4, H5.
  constructor; [done| | |lia|lia|done|done].
  - change (2 ^ (8 * Z.of_nat 8)) with (2 ^ 64) in *. lia.
  - change (2 ^ (8 * Z.of_nat 4)) with (2 ^ 32) in *. lia.
Qed.

(** What a returned publication shows: the published slot and blob for its pool, and nothing
    changed for the others. *)
Lemma publish_shows a idx p m a' o :
  mm a = Some m -> pool_cap a <= READER_CAP -> 0 <= idx < pool_cap a -> shows m idx o ->
  blen (pa_blob p) <= BLOB -> pa_flags p = COHERENT ->
  publish a idx p = (a', None) ->
  exists m', mm a' = Some m' /\ pool_cap a' = pool_cap a /\
    shows m' idx (Some (pa_slot p, pa_blob p)) /\
    forall idx' o', 0 <= idx' -> idx' <> idx -> shows m idx' o' -> shows m' idx' o'.
Proof.
  intros Hm Hrc Hi Hs Hb Hfl He. pose proof He as Hpub. unfold publish in He. rewrite Hm in He.
  destruct (Z.ltb_spec idx 0); [lia|]. destruct (Z.leb_spec (pool_cap a) idx); [lia|].
  cbn [orb] in He. destruct (Z.ltb_spec BLOB (blen (pa_blob p))); [lia|].
  destruct (pub_prepare p) as [v|] eqn:Ep; [|done].
  destruct (run_steps m _) as [m1 e] eqn:Er. cbn [fst snd] in He. injection He as _ ->.
  assert (Hfit : pub_fits m (_ver a + 1) idx p).
  { eapply publish_fits; [exact Hm|lia|exact Hs|exact Hb| |exact Er].
    rewrite Hfl. unfold COHERENT. lia. }
  pose proof (publish_run a idx p m v Hm ltac:(lia) Hfit Ep) as Hrun. cbv zeta in Hrun.
  destruct Hrun as [_ Hrun]. rewrite Hrun in Hpub.
  injection Hpub as <-. cbn [mm pool_cap].
  assert (Hgap : has (pa_flags p) (Z.lor INCOMPLETE GAPPED) = false) by (by rewrite Hfl).
  pose proof (pub_words m (_ver a + 1) idx p v Hfit) as [Hq Hh].
  pose proof (latest_published m (_ver a + 1) idx p v Hfit Ep ltac:(lia) (sh_even _ _ _ Hs) Hgap)
    as Hl. cbv zeta in Hl.
  match type of Hq with u 8 ?f _ = _ => exists f end.
  split; [done|]. split; [done|]. split.
  - constructor.
    + rewrite Hq, Z.even_add, (sh_even _ _ _ Hs). done.
    + rewrite Hq. pose proof (sh_seq _ _ _ Hs). lia.
    + rewrite Hh. pose proof (sh_head _ _ _ Hs). lia.
    + by rewrite Hl.
  - intros idx' o' Hi' Hne. apply shows_ext; [done|]. intros b Hbb.
    rewrite <- (firstn_all (pub_stores _ _ _ _ _ _ _)).
    by apply (other_pool m (_ver a + 1) idx p v _ idx').
Qed.

(** ** reset_history *)

(** The words of a hidden pool. *)
Definition hidden (m : mem) (idx : Z) : Prop :=
  Z.even (u 8 m (pool_off idx)) = true /\ 0 <= u 8 m (pool_off idx) /\ u 4 m (pool_off idx + 8) = 0.

Lemma hidden_shows m idx : hidden m idx -> shows m idx None.
Proof.
  intros (He&Hq&Hh). constructor; [done|done|lia|]. unfold latest.
  destruct (_ || _); [done|]. destruct (Z.odd _); [done|]. by rewrite Hh.
Qed.

Lemma hidden_ext m m' idx :
  (forall a, pool_off idx <= a < pool_off idx + POOL -> m' a = m a) -> hidden m idx -> hidden m' idx.
Proof.
  intros Hsame. unfold hidden.
  rewrite (u_ext 8 m' m), (u_ext 4 m' m); [done| |]; intros b Hb; apply Hsame;
    unfold POOL, POOL_HDR, RING, ENT; lia.
Qed.

Lemma outside_pack a off n z : a < off \/ off + Z.of_nat n <= a -> outside a (SPack off (pack_u n z)).
Proof.
  intros H. unfold outside. destruct (pack_u n z) as [bs|] eqn:E; cbn; [|lia].
  apply pack_u_inv in E as [-> _]. rewrite blen_le_enc. lia.
Qed.

(** One pool of the loop. *)
Lemma reset_pool_ran m ver idx m' :
  run_steps m (reset_pool_steps m ver idx) = (m', None) ->
  hidden m' idx /\ forall a, a < pool_off idx \/ pool_off idx + 24 <= a -> m' a = m a.
Proof.
  intros [Hok ->]%run_steps_None. unfold reset_pool_steps in *. cbv zeta in *.
  fold (evened (u 8 m (pool_off idx))) in *.
  pose proof (evened_even (u 8 m (pool_off idx))) as [Hev _].
  set (s := evened _) in *. set (off := pool_off idx) in *.
  pose proof Hok as Hb. rewrite !Forall_cons in Hb. destruct Hb as (H1&H2&H3&H4&H5&_).
  apply step_ok_pack in H1, H2, H3, H4, H5. split.
  - rewrite (pack_u_ok 8 (s + 1)), (pack_u_ok 4 0), (pack_u_ok 4 GAPPED), (pack_u_ok 8 ver),
      (pack_u_ok 8 (s + 2)) by done.
    assert (Hq : u 8 (foldl run_step m [SPack off (Ret (le_enc 8 (s + 1)));
      SPack (off + 8) (Ret (le_enc 4 0)); SPack (off + 12) (Ret (le_enc 4 GAPPED));
      SPack (off + 16) (Ret (le_enc 8 ver)); SPack off (Ret (le_enc 8 (s + 2)))]) off = s + 2).
    { mem_simp. by apply le_dec_enc_small. }
    unfold hidden. fold off. rewrite Hq. split; [by rewrite Z.even_add, Hev|]. split; [lia|].
    mem_simp. reflexivity.
  - intros a Ha. apply foldl_frame.
    repeat (constructor; [apply outside_pack; lia|]). constructor.
Qed.

Lemma reset_pools_ran n : forall m ver idx m',
  0 <= idx -> reset_pools m ver idx n = (m', None) ->
  (forall j, idx <= j < idx + Z.of_nat n -> hidden m' j) /\
  (forall a, a < pool_off idx -> m' a = m a).
Proof.
  induction n as [|n IH]; intros m ver idx m' H0 He; cbn [reset_pools] in He.
  { injection He as <-. split; [lia|done]. }
  destruct (run_steps m _) as [m1 [e|]] eqn:E; [done|].
  apply reset_pool_ran in E as [Hh Hf]. apply IH in He as [Hp Hl]; [|lia].
  assert (Hstep : pool_off (idx + 1) = pool_off idx + POOL) by (rewrite (pool_off_step idx); lia).
  split.
  - intros j Hj. destruct (Z.eq_dec j idx) as [->|Hne]; [|apply Hp; lia].
    eapply hidden_ext; [|exact Hh]. intros a Ha. apply Hl. lia.
  - intros a Ha. rewrite Hl, Hf; [done|by left|]. rewrite Hstep. unfold POOL, POOL_HDR, RING, ENT. lia.
Qed.

Lemma reset_history_shows a m a' :
  mm a = Some m -> reset_history a = (a', None) ->
  exists m', mm a' = Some m' /\ pool_cap a' = pool_cap a /\
    forall idx, 0 <= idx < pool_cap a -> shows m' idx None.
Proof.
  intros Hm He. unfold reset_history in He. rewrite Hm in He.
  destruct (run_steps m (set_ready_steps false 0 0)) as [m1 [e|]]; [done|].
  destruct (reset_pools m1 _ 0 _) as [m2 [e|]] eqn:E2; [done|].
  destruct (run_steps m2 _) as [m3 e] eqn:E3. cbn [fst snd] in He. injection He as <- ->.
  apply reset_pools_ran in E2 as [Hp _]; [|lia]. apply run_steps_None in E3 as [_ ->].
  eexists. split; [done|]. split; [done|]. intros idx Hi. apply hidden_shows.
  eapply hidden_ext; [|apply Hp; lia]. intros b Hb. apply foldl_frame.
  constructor; [|constructor]. apply outside_pack.
  unfold pool_off, HDR, POOL, POOL_HDR, RING, ENT in *. lia.
Qed.

(** * The ring and the records *)

(** The state a record says it last published. *)
Definition last_of (r : pool_rec) : option (Z * bytes) :=
  match r_last_s r, r_last_blob r with
  | Some p, Some b => Some (pub_slot p, b)
  | _, _ => None
  end.

(** What the refinement reads. *)
Definition ring_view (s : st) : authpub * list (Z * option (Z * bytes)) :=
  (s_auth s, (fun e => (e.1, last_of e.2)) <$> s_pools s).

Definition told (l : list (Z * option (Z * bytes))) (idx : Z) : option (Z * bytes) :=
  default None (od_get l idx).

(** Every pool of the ring shows what its record says. *)
Definition ring_ok (v : authpub * list (Z * option (Z * bytes))) : Prop :=
  pool_cap v.1 <= READER_CAP /\
  forall m idx, mm v.1 = Some m -> 0 <= idx < pool_cap v.1 -> shows m idx (told v.2 idx).

(** The same but for [idx], whose record is ahead of the ring. *)
Definition ring_but (idx : Z) (x : Z * bytes) (v : authpub * list (Z * option (Z * bytes))) : Prop :=
  pool_cap v.1 <= READER_CAP /\ told v.2 idx = Some x /\
  forall m j, mm v.1 = Some m -> 0 <= j < pool_cap v.1 ->
    exists o, shows m j o /\ (j <> idx -> o = told v.2 j).

Definition RingOk (s : st) : Prop := ring_ok (ring_view s).

Lemma od_get_last ps idx :
  od_get ((fun e : Z * pool_rec => (e.1, last_of e.2)) <$> ps) idx = last_of <$> od_get ps idx.
Proof.
  induction ps as [|[i r] ps IH]; [done|]. rewrite fmap_cons. cbn [od_get fst snd].
  case_decide; [done|exact IH].
Qed.

Lemma told_view s idx :
  told (ring_view s).2 idx = match od_get (s_pools s) idx with Some r => last_of r | None => None end.
Proof. unfold told, ring_view. cbn [snd]. rewrite od_get_last. by destruct (od_get _ _). Qed.

Lemma last_set_same ps idx r r' :
  od_get ps idx = Some r -> last_of r' = last_of r ->
  (fun e : Z * pool_rec => (e.1, last_of e.2)) <$> od_set ps idx r' =
  (fun e => (e.1, last_of e.2)) <$> ps.
Proof.
  intros Hr Hl. induction ps as [|[i r0] ps IH]; [done|]. cbn [od_get od_set] in *.
  case_decide as Hi; rewrite !fmap_cons; cbn [fst snd].
  - injection Hr as ->. by rewrite Hl.
  - by rewrite IH.
Qed.

Lemma ring_set_rec idx f : (forall r, last_of (f r) = last_of r) -> leaves ring_view (set_rec idx f).
Proof.
  intros Hf s. change ((s_auth s, (fun e => (e.1, last_of e.2)) <$>
    (match od_get (s_pools s) idx with Some r => od_set (s_pools s) idx (f r)
     | None => s_pools s end)) = ring_view s).
  destruct (od_get (s_pools s) idx) as [r|] eqn:E; [|done].
  by rewrite (last_set_same _ idx r).
Qed.

#[export] Hint Extern 1 (leaves ring_view (set_rec _ _)) =>
  (apply ring_set_rec; intros ?; reflexivity) : leaves.
#[export] Hint Extern 1 (leaves ring_view (set_status _ _)) =>
  (apply ring_set_rec; intros ?; reflexivity) : leaves.

Section ring.
Context (env : environ).

Lemma ring_lat_stage rx : leaves ring_view (lat_stage env rx). Proof. done. Qed.
Lemma ring_lat_pub rx : leaves ring_view (lat_pub env rx). Proof. done. Qed.
Lemma ring_add_required idx pk ro : leaves ring_view (add_required idx pk ro).
Proof. unfold add_required, get_rec. leave. Qed.
#[local] Hint Resolve ring_lat_stage ring_lat_pub ring_add_required : leaves.

Lemma ring_invalidate idx rx slot : leaves ring_view (invalidate env idx rx slot).
Proof. unfold invalidate. leave. Qed.
Lemma ring_fail idx sig : leaves ring_view (_fail_tx_incomplete env idx sig).
Proof. unfold _fail_tx_incomplete. leave. Qed.
Lemma ring_bins idx need added : leaves ring_view (require_bins idx need added).
Proof. revert added. induction need; intros; cbn [require_bins]; leave. Qed.
#[local] Hint Resolve ring_invalidate ring_fail ring_bins : leaves.

Lemma ring_stage row d : leaves ring_view (stage_update env row d).
Proof. unfold stage_update. leave. Qed.
Lemma ring_clear row d : leaves ring_view (clear_stage env row d).
Proof. unfold clear_stage. leave. Qed.
Lemma ring_gap e : leaves ring_view (gap_pool env e).
Proof. unfold gap_pool. leave. Qed.
Lemma ring_soak sig expect ixs : leaves ring_view (_fastsoak_predict env sig expect ixs).
Proof. unfold _fastsoak_predict, predict_pool, predict_pump, predict_dlmm, predict. leave. Qed.
Lemma ring_expected idx pk : leaves ring_view (require_expected idx pk).
Proof. unfold require_expected. leave. Qed.
Lemma ring_adopt kr : leaves ring_view (adopt_row env kr).
Proof. unfold adopt_row. leave. Qed.
Lemma ring_recount : leaves ring_view _recount.
Proof.
  unfold _recount. apply leaves_bind; [|intros ?; leave]. intros s.
  change ((s_auth s, (fun e => (e.1, last_of e.2)) <$> ((fun e => (e.1, demote s e.2)) <$> s_pools s))
          = ring_view s).
  rewrite <- list_fmap_compose. unfold ring_view. f_equal. apply list_fmap_ext. intros i [j r] _.
  unfold compose, demote. cbn [fst snd]. by destruct (_ && _).
Qed.
#[local] Hint Resolve ring_stage ring_clear ring_gap ring_soak ring_expected ring_adopt
  ring_recount : leaves.

Lemma ring_of {A} (m : M A) : leaves ring_view m -> keeps RingOk m.
Proof. apply (leaves_keeps ring_view ring_ok). Qed.

(** ** Ready words *)

Lemma on_auth_ready ready n slot : keeps RingOk (on_auth (fun a => set_ready a ready n slot)).
Proof.
  intros s s' res [Hc Hok] He. unfold on_auth in He.
  destruct (set_ready (s_auth s) ready n slot) as [a [e|]] eqn:E; [done|].
  injection He as <- _.
  assert (Hcap : pool_cap a = pool_cap (s_auth s)).
  { unfold set_ready, with_mem in E. destruct (mm (s_auth s)); injection E; intros; by subst a. }
  change (ring_ok (a, (ring_view s).2)). split; [cbn [fst]; by rewrite Hcap|].
  cbn [fst snd]. rewrite Hcap. intros m' idx Hm' Hi.
  destruct (mm (s_auth s)) as [m|] eqn:Em.
  - eapply set_ready_shows; [exact Em|exact E|exact Hm'|lia|]. by apply Hok.
  - unfold set_ready in E. rewrite Em in E. injection E as <-. congruence.
Qed.

(** ** Publication *)

(** The record is ahead of the ring and marked coherent. *)
Definition Ahead (idx : Z) (x : Z * bytes) (s : st) : Prop :=
  ring_but idx x (ring_view s) /\ RecIs idx (fun r => r_status r = ST_COHERENT) s.

Lemma ahead_keeps {A} idx x (m : M A) :
  leaves ring_view m -> leaves s_pools m -> keeps (Ahead idx x) m.
Proof.
  intros H1 H2 s s' res [Hb Hr] He. split.
  - by eapply (leaves_keeps ring_view (ring_but idx x) m H1).
  - by eapply (leaves_rec idx _ m H2).
Qed.

Lemma set_rec_ahead idx p blob f :
  (forall r, r_status (f r) = ST_COHERENT /\ last_of (f r) = Some (pub_slot p, blob)) ->
  triple (fun s => RingOk s /\ is_Some (od_get (s_pools s) idx)) (set_rec idx f)
    (fun _ => Ahead idx (pub_slot p, blob)).
Proof.
  intros Hf s s' res [[Hc Hok] [r Hr]] [= <- _].
  change (Ahead idx (pub_slot p, blob) (s {{ s_pools ::= fun ps =>
    match od_get ps idx with Some r => od_set ps idx (f r) | None => ps end }})).
  set (s1 := s {{ s_pools ::= _ }}).
  assert (Hp : s_pools s1 = od_set (s_pools s) idx (f r)).
  { change (match od_get (s_pools s) idx with Some r => od_set (s_pools s) idx (f r)
            | None => s_pools s end = od_set (s_pools s) idx (f r)). by rewrite Hr. }
  assert (Ht : forall j, told (ring_view s1).2 j =
    if decide (idx = j) then last_of (f r) else told (ring_view s).2 j).
  { intros j. rewrite !told_view, Hp, od_get_set. by case_decide. }
  destruct (Hf r) as [Hst Hl]. split.
  - split; [exact Hc|]. split; [by rewrite Ht, decide_True|]. intros m j Hm Hj.
    exists (told (ring_view s).2 j). split; [by apply Hok|]. intros Hne.
    by rewrite Ht, decide_False.
  - exists (f r). rewrite Hp, od_get_set_eq. done.
Qed.

Lemma publish_ahead idx p r blob :
  r_status r = ST_COHERENT -> blen blob <= BLOB ->
  triple (fun s => Ahead idx (pub_slot p, blob) s)
    (on_auth (fun a => publish a idx (publish_args r p blob))) (fun _ => RingOk).
Proof.
  intros Hst Hb s s' res [(Hc&Ht&Hok) _] He. unfold on_auth in He.
  destruct (publish (s_auth s) idx _) as [a [e|]] eqn:E; [done|]. injection He as <- _.
  change (ring_ok (a, (ring_view s).2)). cbn [ring_view fst] in Hc, Hok.
  destruct (mm (s_auth s)) as [m|] eqn:Em.
  2:{ unfold publish in E. rewrite Em in E. injection E as <-. split; [done|].
      cbn [fst]. intros m' j Hm'. congruence. }
  destruct (decide (0 <= idx < pool_cap (s_auth s))) as [Hi|Hi].
  - destruct (Hok m idx eq_refl Hi) as (o&Ho&_).
    destruct (publish_shows (s_auth s) idx (publish_args r p blob) m a o Em Hc Hi Ho Hb)
      as (m'&Hm'&Hcap&Hx&Hoth).
    { cbn [publish_args pa_flags]. by rewrite Hst. }
    { exact E. }
    split; [cbn [fst]; by rewrite Hcap|]. cbn [fst snd]. rewrite Hcap, Hm'.
    intros m'' j [= <-] Hj. destruct (decide (j = idx)) as [->|Hne].
    + by rewrite Ht.
    + destruct (Hok m j eq_refl Hj) as (o'&Ho'&Heq). rewrite <- (Heq Hne).
      apply Hoth; [lia|done|done].
  - assert (a = s_auth s) as ->.
    { unfold publish in E. rewrite Em in E.
      replace ((idx <? 0) || (pool_cap (s_auth s) <=? idx)) with true in E; [by injection E|].
      symmetry. apply orb_true_iff. rewrite Z.ltb_lt, Z.leb_le. lia. }
    split; [done|]. cbn [fst snd]. intros m' j Hm' Hj. rewrite Em in Hm'. injection Hm' as <-.
    destruct (Hok m j eq_refl Hj) as (o'&Ho'&Heq). rewrite <- Heq; [done|]. intros ->. by apply Hi.
Qed.

Lemma commit_ring idx slot rx p blob :
  blen blob <= BLOB -> keeps RingOk (commit env idx slot rx p blob).
Proof.
  intros Hb. unfold commit, with_rec at 1, get_rec. apply triple_gets. intros s0 H0.
  destruct (od_get (s_pools s0) idx) as [r|] eqn:E;
    [|apply (triple_at RingOk); [done|apply keeps_ret]].
  eapply (triple_at (fun s => RingOk s /\ is_Some (od_get (s_pools s) idx))); [by split; [|exists r]|].
  eapply triple_bind.
  { apply triple_and; [apply ring_of; leave|].
    apply (leaves_keeps s_pools (fun ps => is_Some (od_get ps idx))). leave. }
  intros ?. eapply triple_bind; [apply (set_rec_ahead idx p blob); intros r'; done|]. intros ?.
  eapply triple_bind; [apply ahead_keeps; leave|intros ?].
  eapply triple_bind; [apply ahead_keeps; leave|intros ?]. cbv beta.
  unfold _finish_publish, with_rec, get_rec. apply triple_gets. intros s1 H1.
  destruct H1 as [Hbut (r1&Hr1&Hst1)] eqn:EH. rewrite Hr1.
  eapply triple_at; [exact H1|].
  eapply triple_bind; [by apply publish_ahead|intros ?]. cbv beta. apply ring_of. leave.
Qed.

Lemma ring_dlmm idx r slot rx accs : keeps RingOk (publish_dlmm env idx r slot rx accs).
Proof.
  unfold publish_dlmm. apply keeps_gets_bind. intros s. unfold id.
  destruct (negb _); [apply keeps_ret|]. destruct (pick _ _ _); [|apply keeps_ret].
  destruct (parse_lbpair _); [|apply ring_of; leave].
  apply keeps_bind; [apply keeps_lift|intros need]. apply keeps_bind; [apply ring_of; leave|intros ?].
  apply keeps_gets_bind. intros ?. destruct (negb _); [apply ring_of; leave|].
  apply keeps_bind; [apply ring_of; leave|intros ?].
  apply keeps_bind; [apply keeps_lift|intros o]. destruct o; [|apply ring_of; leave].
  apply keeps_bind; [apply ring_of; leave|intros ?].
  apply keeps_bind; [apply ring_of; leave|intros now].
  intros s1 s' res H He. unfold bind at 1, lift in He.
  destruct (write_dlmm now _) as [blob|e] eqn:Ew; [|done].
  apply write_dlmm_size in Ew. revert He.
  assert (Hk : forall q, keeps RingOk (commit env idx slot rx q blob ;; ret true)).
  { intros q. apply keeps_bind; [apply commit_ring; unfold BLOB; lia|intros ?; apply keeps_ret]. }
  by apply Hk.
Qed.

Lemma ring_pump idx r slot rx accs : keeps RingOk (publish_pump env idx r slot rx accs).
Proof.
  unfold publish_pump. apply keeps_gets_bind. intros s. unfold id.
  destruct (negb _); [apply keeps_ret|].
  destruct (pick accs (plays s idx ROLE_PUMP_POOL) _); [|apply ring_of; leave].
  destruct (pick accs (plays s idx ROLE_PUMP_VAULT_BASE) _); [|apply ring_of; leave].
  destruct (pick accs (plays s idx ROLE_PUMP_VAULT_QUOTE) _); [|apply ring_of; leave].
  destruct (parse_pump_pool _); [|apply ring_of; leave].
  apply keeps_bind; [apply keeps_lift|intros rb]. apply keeps_bind; [apply keeps_lift|intros rq].
  destruct (_ || _); [apply ring_of; leave|].
  apply keeps_bind; [apply ring_of; leave|intros fees].
  apply keeps_bind; [apply ring_of; leave|intros ?].
  intros s1 s' res H He. unfold bind at 1, lift in He.
  destruct (write_pump _) as [blob|e] eqn:Ew; [|done].
  apply write_pump_size in Ew. revert He.
  assert (Hk : forall q, keeps RingOk (commit env idx slot rx q blob ;; ret true)).
  { intros q. apply keeps_bind; [apply commit_ring; unfold BLOB; lia|intros ?; apply keeps_ret]. }
  by apply Hk.
Qed.

Ltac ring_step :=
  match goal with
  | |- keeps _ _ => solve [eauto with rings]
  | |- keeps _ _ => apply ring_of; solve [leave]
  | |- keeps _ (bind (gets _) _) => apply keeps_gets_bind; intros ?
  | |- keeps _ (bind _ _) => apply keeps_bind; [|intros ?]
  | |- keeps _ (when _ _) => apply keeps_when
  | |- keeps _ (with_rec _ _) => apply keeps_with_rec; intros ?
  | |- keeps _ (each _ _) => apply keeps_each; intros ? ?
  | |- keeps _ (if ?b then _ else _) => destruct b
  | |- keeps _ (match ?x with _ => _ end) => destruct x
  end.
Ltac rings := repeat ring_step.

#[local] Hint Resolve ring_dlmm ring_pump on_auth_ready : rings.

Lemma ring_from idx r ss sig rec accs : keeps RingOk (publish_from env idx r ss sig rec accs).
Proof. unfold publish_from. rings. Qed.
#[local] Hint Resolve ring_from : rings.
Lemma ring_boot idx ss : keeps RingOk (publish_boot env idx ss).
Proof. unfold publish_boot. rings. Qed.
Lemma ring_tx idx r ss hx : keeps RingOk (publish_tx env idx r ss hx).
Proof. unfold publish_tx. rings. Qed.
#[local] Hint Resolve ring_boot ring_tx : rings.
Lemma ring_try_tx idx r ss hx : keeps RingOk (try_tx env idx r ss hx).
Proof. unfold try_tx. rings. Qed.
#[local] Hint Resolve ring_try_tx : rings.
Lemma ring_try ss idx : keeps RingOk (try_publish env ss idx).
Proof. unfold try_publish. rings. Qed.
#[local] Hint Resolve ring_try : rings.
Lemma ring_maybe ss : keeps RingOk (maybe_publish env ss).
Proof. unfold maybe_publish. rings. Qed.
#[local] Hint Resolve ring_maybe : rings.
Lemma ring_apply_tx ev : keeps RingOk (apply_tx env ev).
Proof. unfold apply_tx. rings. Qed.
Lemma ring_apply_update row fb : keeps RingOk (apply_update env row fb).
Proof. unfold apply_update. rings. Qed.
Lemma ring_boot_pool idx : keeps RingOk (boot_pool env idx).
Proof. unfold boot_pool. rings. Qed.
#[local] Hint Resolve ring_apply_tx ring_apply_update ring_boot_pool : rings.

Lemma ring_install_row row : keeps RingOk (install_row row).
Proof.
  intros s s' res [Hc Hok] He. assert (s' = fst (install_row row s)) as -> by (by rewrite He).
  split; [exact Hc|]. intros m idx Hm Hi. specialize (Hok m idx Hm Hi).
  replace (told (ring_view (fst (install_row row s))).2 idx) with (told (ring_view s).2 idx);
    [done|]. rewrite !told_view.
  change (s_pools (fst (install_row row s))) with
    (od_set (s_pools s) (g_idx row) (merge_rec row (od_get (s_pools s) (g_idx row)))).
  rewrite od_get_set. case_decide as Hd; [|done]. subst idx.
  by destruct (od_get (s_pools s) (g_idx row)).
Qed.
#[local] Hint Resolve ring_install_row : rings.

Lemma ring_install plan extra : keeps RingOk (install_generation env plan extra).
Proof. unfold install_generation. rings. Qed.
Lemma ring_uncertain : keeps RingOk (mark_uncertain env).
Proof. unfold mark_uncertain. rings. Qed.
Lemma ring_ready : keeps RingOk mark_ready.
Proof. unfold mark_ready. rings. Qed.
Lemma ring_settle : keeps RingOk (settle env).
Proof. unfold settle. rings. Qed.
Lemma ring_replay ev : keeps RingOk (replay_event env ev).
Proof. unfold replay_event. rings. Qed.
Lemma ring_boot_bytes rows : forall acc, keeps RingOk (boot_bytes env rows acc).
Proof. induction rows; intros acc; cbn [boot_bytes]; rings; apply IHrows. Qed.
#[local] Hint Resolve ring_install ring_uncertain ring_ready ring_settle ring_replay
  ring_boot_bytes : rings.
Lemma ring_finish gen token accs : keeps RingOk (finish_bootstrap env gen token accs).
Proof. unfold finish_bootstrap. rings. Qed.
#[local] Hint Resolve ring_finish : rings.

(** ** A new connection *)

(** The ring shows nothing of any pool. *)
Definition ring_blank (a : authpub) : Prop :=
  pool_cap a <= READER_CAP /\
  forall m idx, mm a = Some m -> 0 <= idx < pool_cap a -> shows m idx None.

Lemma reset_history_blank :
  triple (fun s => pool_cap (s_auth s) <= READER_CAP) (on_auth reset_history)
    (fun _ s => ring_blank (s_auth s)).
Proof.
  intros s s' res Hc He. unfold on_auth in He.
  destruct (reset_history (s_auth s)) as [a [e|]] eqn:E; [done|]. injection He as <- _.
  change (ring_blank a). destruct (mm (s_auth s)) as [m|] eqn:Em.
  - destruct (reset_history_shows _ _ _ Em E) as (m'&Hm'&Hcap&Hs). split; [by rewrite Hcap|].
    intros m'' idx Hm'' Hi. rewrite Hm' in Hm''. injection Hm'' as <-. apply Hs. by rewrite <- Hcap.
  - unfold reset_history in E. rewrite Em in E. injection E as <-. split; [done|].
    intros m' idx Hm'. congruence.
Qed.

(** The records of [ds] tell nothing. *)
Lemma reset_pools_told ds : forall s s',
  each (reset_pool env) ds s = (s', Ret tt) ->
  s_auth s' = s_auth s /\
  forall idx r, od_get (s_pools s') idx = Some r ->
    (exists r0, od_get (s_pools s) idx = Some r0 /\ (last_of r0 = None -> last_of r = None)) /\
    (idx ∈ ds.*1 -> last_of r = None).
Proof.
  induction ds as [|e ds IH]; intros s s' He; cbn [each] in He.
  { injection He as <-. split; [done|]. intros idx r Hr. split; [by exists r|].
    intros H. by apply elem_of_nil in H. }
  unfold bind in He. destruct (reset_pool env e s) as [s1 [[]|x]] eqn:E; [|done].
  destruct (IH s1 s' He) as [Ha Hp].
  assert (Hl : leaves s_auth (reset_pool env e)) by (unfold reset_pool; leave).
  specialize (Hl s). rewrite E in Hl. cbn [fst] in Hl. split; [by rewrite Ha|].
  assert (Hp1 : s_pools s1 = match od_get (s_pools s) e.1 with
    | Some r => od_set (s_pools s) e.1 (r {{ r_stage := empty_stage; r_staged := [];
        r_last_s := None; r_last_blob := None; r_s_before := None; r_status := ST_GAPPED }})
    | None => s_pools s end).
  { unfold reset_pool in E. unfold bind at 1 in E.
    match type of E with context [set_rec ?i ?f s] =>
      assert (Hk : leaves s_pools (rx <- _mono env ;; log_invalidate e.1 (r_kind e.2) rx 0))
        by leave; specialize (Hk (fst (set_rec i f s))) end.
    cbn [set_rec modify fst] in Hk, E. rewrite E in Hk. exact Hk. }
  intros idx r Hr. destruct (Hp idx r Hr) as [(r1&Hr1&Hkeep) Hin]. rewrite Hp1 in Hr1.
  destruct (od_get (s_pools s) e.1) as [re|] eqn:Ee.
  - rewrite od_get_set in Hr1. case_decide as Hd.
    + subst idx. injection Hr1 as <-. split; [exists re; split; [done|]|]; intros _; by apply Hkeep.
    + split; [by exists r1|]. cbn [fmap list_fmap]. intros [Heq|Hi]%elem_of_cons; [congruence|auto].
  - split; [by exists r1|]. cbn [fmap list_fmap]. intros [Heq|Hi]%elem_of_cons; [congruence|auto].
Qed.

Lemma uncertain_cap : leaves (fun s => pool_cap (s_auth s)) (mark_uncertain env).
Proof.
  unfold mark_uncertain, gap_pool. leave. intros s. unfold on_auth, set_ready, with_mem.
  by destruct (mm (s_auth s)).
Qed.

Lemma ring_reset gen :
  triple (fun s => pool_cap (s_auth s) <= READER_CAP) (reset_connection env gen) (fun _ => RingOk).
Proof.
  unfold reset_connection.
  eapply triple_bind with (Q := fun _ s => pool_cap (s_auth s) <= READER_CAP); [|intros ?].
  { apply (leaves_keeps _ (fun c => c <= READER_CAP)), uncertain_cap. }
  eapply triple_bind; [apply reset_history_blank|intros ?]. cbv beta.
  assert (Hq : forall A (m : M A), leaves s_auth m -> keeps (fun s => ring_blank (s_auth s)) m)
    by (intros A m; apply (leaves_keeps s_auth)).
  eapply triple_bind; [apply Hq; leave|intros ?]. cbv beta.
  eapply triple_bind; [apply Hq; leave|intros ?]. cbv beta.
  eapply triple_bind; [apply Hq; leave|intros ?]. cbv beta.
  apply triple_gets. intros s0 [Hc Hb] s s' [] -> He.
  destruct (reset_pools_told _ _ _ He) as [Ha Hp].
  split; [change (pool_cap (s_auth s') <= READER_CAP); by rewrite Ha|].
  change (forall m idx, mm (s_auth s') = Some m -> 0 <= idx < pool_cap (s_auth s') ->
    shows m idx (told (ring_view s').2 idx)).
  rewrite Ha. intros m idx Hm Hi. rewrite told_view.
  destruct (od_get (s_pools s') idx) as [r|] eqn:Er; [|by apply Hb].
  destruct (Hp idx r Er) as [(r0&Hr0&_) Hin]. rewrite Hin; [by apply Hb|].
  by eapply od_get_Some_key.
Qed.

Lemma ring_reset_keeps gen : keeps RingOk (reset_connection env gen).
Proof. intros s s' res [Hc _] He. eapply ring_reset; [exact Hc|exact He]. Qed.
#[local] Hint Resolve ring_reset_keeps : rings.

(** ** All turns *)

Lemma ring_slot gen slot : keeps RingOk (on_slot env gen slot).
Proof. unfold on_slot, expire_pool. rings. Qed.
#[local] Hint Resolve ring_slot : rings.

Lemma ring_event ev : keeps RingOk (handle_event env ev).
Proof. unfold handle_event, on_bank, on_boot_message, on_plan, on_stream. rings. Qed.
#[local] Hint Resolve ring_event : rings.

Lemma ring_turn t : keeps RingOk (run_turn env t).
Proof.
  destruct t; cbn [run_turn]; unfold connect, disconnect, metrics_turn, shadow_turn, idle; rings.
Qed.

(** C1. From the moment a connection opens, whatever state and whatever
    ring contents it finds, and as long as turns return: for every pool of the ring, the reader's
    latest answers exactly the slot and the blob the plane's record holds as last published, and
    nothing for a pool that has published nothing on the current connection. Entries of an
    earlier connection or process are never visible. *)
Theorem readers_see_the_records s0 s1 s m idx :
  pool_cap (s_auth s0) <= READER_CAP -> connect env s0 = (s1, Ret tt) -> reach env s1 s ->
  mm (s_auth s) = Some m -> 0 <= idx < pool_cap (s_auth s) ->
  (fun l => (l_slot l, l_blob l)) <$> latest m idx =
  match od_get (s_pools s) idx with Some r => last_of r | None => None end.
Proof.
  intros Hcap Hconn Hreach Hm Hi. rewrite <- told_view.
  assert (H1 : RingOk s1).
  { unfold connect, bind in Hconn. eapply ring_reset; [|exact Hconn]. exact Hcap. }
  assert (Hok : RingOk s).
  { clear Hm Hi. induction Hreach as [|s s' t _ IH He]; [exact H1|].
    eapply ring_turn; [exact IH|exact He]. }
  apply Hok; [done|exact Hi].
Qed.
End ring.

(** ** A ring left by an earlier process *)

(** The demo ring after a publication of that process. *)
Definition demo_left : authpub := fst (publish demo_auth 0 demo_pub).
Definition demo_open : st := fst (connect demo_env (new_st demo_left [] false false)).
Definition demo_later_st : st := default demo_open (run_turns demo_env (drop 1 demo_turns) demo_open).

Lemma demo_later_reach : reach demo_env demo_open demo_later_st.
Proof.
  apply (run_turns_reach _ _ (drop 1 demo_turns) demo_open); [apply reach_start|].
  unfold demo_later_st.
  assert (Hs : bool_decide (is_Some (run_turns demo_env (drop 1 demo_turns) demo_open)) = true)
    by (vm_compute; reflexivity).
  apply bool_decide_eq_true_1 in Hs as [s Hs]. rewrite Hs. reflexivity.
Qed.

Lemma demo_later_told :
  (l ← od_get (s_pools demo_later_st) 0; Some (fst <$> last_of l)) = Some (Some 7).
Proof. vm_compute. reflexivity. Qed.

Lemma demo_later_mem : bool_decide (is_Some (mm (s_auth demo_later_st))) = true.
Proof. vm_compute. reflexivity. Qed.

Lemma readers_see_the_records_witness :
  exists m blob, mm (s_auth demo_later_st) = Some m /\
    (fun l => (l_slot l, l_blob l)) <$> latest m 0 = Some (7, blob).
Proof.
  pose proof (bool_decide_eq_true_1 _ demo_later_mem) as [m Em].
  pose proof demo_later_told as Ht.
  pose proof (readers_see_the_records demo_env (new_st demo_left [] false false) demo_open
    demo_later_st m 0) as H.
  destruct (od_get (s_pools demo_later_st) 0) as [r|]; [|discriminate Ht].
  cbn [mbind option_bind] in Ht. injection Ht as Ht.
  destruct (last_of r) as [[slot blob]|]; [|discriminate Ht]. injection Ht as ->.
  exists m, blob. split; [exact Em|]. apply H.
  - vm_compute. discriminate.
  - apply returns. vm_compute. reflexivity.
  - exact demo_later_reach.
  - exact Em.
  - vm_compute. split; [discriminate|reflexivity].
Defined.
