(* ===== verification/StateReady.v ===== *)
(** The readiness that others see of the coherent-state plane (State008): the ready word of the shared memory and
    the READY file, against the plane's own flag and its phase. *)
From stdpp Require Import base list strings gmap.
From Stdlib Require Import ZArith Lia.
From coqutil.Datatypes Require Import RecordSetters.
From S2P Require Import Prelude PyBytes Pda Accounts Submap TxExpect TxBarrier.
From S2P Require Import Recon Shadow BankJournal AuthRing Deps ApplyN State008 StateInv StateSafe.
Import RecordSetters.DoubleBraceUpdate.
Open Scope Z_scope.

(** * The ready word *)

(** The word at 20 of the mapping, where there is one. *)
Definition ready_word (a : authpub) : option Z := (fun m => u 4 m 20) <$> mm a.

(** The stores keep off the word. *)
Definition off_word (s : step) : Prop := forall b, 20 <= b < 24 -> outside b s.

Lemma run_steps_word m ss : Forall off_word ss -> u 4 (run_steps m ss).1 20 = u 4 m 20.
Proof.
  intros H. revert m. induction H as [|s ss Hs _ IH]; intros m; [done|].
  assert (E : u 4 (run_step m s) 20 = u 4 m 20).
  { apply u_ext. intros b Hb. apply (foldl_frame m [s]). constructor; [apply Hs; lia|constructor]. }
  destruct s as [off [bs|e]|off n]; cbn [run_steps]; [by rewrite IH|done|by rewrite IH].
Qed.

Lemma pack_off_word off n z : 24 <= off \/ off + Z.of_nat n <= 20 -> off_word (SPack off (pack_u n z)).
Proof.
  intros H b Hb. unfold outside. destruct (pack_u n z) as [bs|] eqn:E; cbn [step_range fst snd].
  - apply pack_u_inv in E as [-> _]. rewrite blen_le_enc. lia.
  - lia.
Qed.
Lemma later_off_word off bs : 24 <= off -> off_word (SPack off (Ret bs)).
Proof. intros H b Hb. left. cbn. lia. Qed.
Lemma zero_off_word off n : 24 <= off -> off_word (SZero off n).
Proof. intros H b Hb. left. cbn. lia. Qed.

Ltac off_word := repeat first [apply Forall_nil_2 | apply Forall_cons_2; [first [apply pack_off_word; lia | apply later_off_word; lia | apply zero_off_word; lia]|]].

Lemma pool_off_pos idx : 0 <= idx -> 256 <= pool_off idx.
Proof. unfold pool_off, HDR, POOL, POOL_HDR, RING, ENT. lia. Qed.

Lemma publish_word a idx p : ready_word (fst (publish a idx p)) = ready_word a.
Proof.
  unfold publish, ready_word. destruct (mm a) as [m|] eqn:Em; [|cbn [fst]; by rewrite Em].
  destruct (Z.ltb_spec idx 0) as [|Hi]; cbn [orb]; [cbn [fst]; by rewrite Em|].
  destruct (_ <=? _); [cbn [fst]; by rewrite Em|]. destruct (_ <? _); [cbn [fst]; by rewrite Em|].
  destruct (pub_prepare p) as [v|e]; [|cbn [fst]; by rewrite Em]. cbn [fst mm fmap option_fmap option_map]. f_equal.
  apply run_steps_word. pose proof (pool_off_pos idx Hi).
  assert (He : pool_off idx + 64 <= ent_off idx (u 4 m (pool_off idx + 8) mod RING)).
  { pose proof (Z.mod_pos_bound (u 4 m (pool_off idx + 8)) RING ltac:(done)). unfold ent_off, POOL_HDR, ENT in *. lia. }
  unfold publish_steps, publish_body, ent_steps. cbv zeta. cbn [app]. off_word.
Qed.

Lemma reset_pools_word ver n : forall m idx, 0 <= idx -> u 4 (reset_pools m ver idx n).1 20 = u 4 m 20.
Proof.
  induction n as [|n IH]; intros m idx Hi; cbn [reset_pools]; [done|].
  assert (E : u 4 (run_steps m (reset_pool_steps m ver idx)).1 20 = u 4 m 20).
  { apply run_steps_word. pose proof (pool_off_pos idx Hi). unfold reset_pool_steps. cbv zeta. off_word. }
  destruct (run_steps m _) as [m' [e|]]; cbn [fst] in *; [done|]. by rewrite IH by lia.
Qed.

(** A call that returns has set the word. *)
Lemma set_ready_word a ready n slot a' : set_ready a ready n slot = (a', None) ->
  ready_word a' = (fun _ => Z.b2z ready) <$> ready_word a.
Proof.
  unfold set_ready, ready_word. destruct (mm a) as [m|] eqn:Em; [|by intros [= <-]; rewrite Em].
  unfold with_mem, set_ready_steps. cbn [run_steps].
  destruct (pack_u 4 n) as [b8|e]; [|done].
  assert (Er : pack_u 4 (if ready then 1 else 0) = Ret (le_enc 4 (Z.b2z ready))) by (by destruct ready). rewrite Er.
  destruct (pack_u 8 slot) as [b40|e] eqn:E40; [|done]. cbn [fst snd]. intros [= <-]. cbn [mm fmap option_fmap option_map]. f_equal.
  transitivity (u 4 (store (store m 8 b8) 20 (le_enc 4 (Z.b2z ready))) 20).
  - apply u_ext. intros b Hb. unfold store at 1. destruct (Z.leb_spec 40 b); [lia|done].
  - unfold u. rewrite load_store_eq by (by rewrite length_le_enc). rewrite le_dec_enc_small; [done|]. destruct ready; cbn; lia.
Qed.

Lemma reset_history_word a a' : reset_history a = (a', None) -> ready_word a' = (fun _ => 0) <$> ready_word a.
Proof.
  unfold reset_history. destruct (mm a) as [m|] eqn:Em; [|intros [= <-]; unfold ready_word; by rewrite Em].
  pose proof (set_ready_word a false 0 0) as Hs. unfold set_ready, ready_word in Hs. rewrite Em in Hs. unfold with_mem in Hs.
  destruct (run_steps m (set_ready_steps false 0 0)) as [m1 [e|]]; [done|].
  specialize (Hs _ eq_refl). cbn [mm fmap option_fmap option_map fst snd Z.b2z] in Hs. injection Hs as Hs.
  pose proof (reset_pools_word (_ver a + 1) (Z.to_nat (pool_cap a)) m1 0 ltac:(lia)) as Hp.
  destruct (reset_pools m1 _ 0 _) as [m2 [e|]]; [done|]. cbn [fst snd] in *.
  pose proof (run_steps_word m2 [SPack 24 (pack_u 8 (_ver a + 1))] ltac:(constructor; [apply pack_off_word; lia|constructor])) as Hv.
  destruct (run_steps m2 _) as [m3 [e|]]; [done|]. cbn [fst snd] in *. intros [= <-]. unfold ready_word. rewrite Em. cbn [mm fmap option_fmap option_map]. f_equal. congruence.
Qed.

(** * The three signs *)

(** The word, the flag and the file. *)
Definition signs (s : st) : option Z * bool * bool := (ready_word (s_auth s), s_ready s, s_ready_file s).

(** All three say the same. *)
Definition signs_agree (x : option Z * bool * bool) : Prop :=
  let '(w, ready, file) := x in file = ready /\ forall z, w = Some z -> z = Z.b2z ready.
Definition Agree (s : st) : Prop := signs_agree (signs s).

(** All three say not ready. *)
Definition Down (s : st) : Prop := Agree s /\ s_ready s = false.

Section signs.
Context (env : environ).

Lemma agree_of {A} (m : M A) : leaves signs m -> keeps Agree m.
Proof. apply (leaves_keeps signs signs_agree). Qed.
Lemma down_of {A} (m : M A) : leaves signs m -> keeps Down m.
Proof. apply (leaves_keeps signs (fun x => signs_agree x /\ x.1.2 = false)). Qed.

Lemma signs_publish idx r p blob : leaves signs (on_auth (fun a => publish a idx (publish_args r p blob))).
Proof.
  intros s. unfold on_auth. pose proof (publish_word (s_auth s) idx (publish_args r p blob)) as H.
  destruct (publish _ _ _) as [a e]. cbn [fst] in H.
  change ((ready_word a, s_ready s, s_ready_file s) = signs s). unfold signs. by rewrite H.
Qed.
#[local] Hint Resolve signs_publish : leaves.

Lemma signs_lat_stage rx : leaves signs (lat_stage env rx). Proof. done. Qed.
Lemma signs_lat_pub rx : leaves signs (lat_pub env rx). Proof. done. Qed.
#[local] Hint Resolve signs_lat_stage signs_lat_pub : leaves.
Lemma signs_add_required idx pk ro : leaves signs (add_required idx pk ro).
Proof. unfold add_required, get_rec. leave. Qed.
Lemma signs_invalidate idx rx slot : leaves signs (invalidate env idx rx slot).
Proof. unfold invalidate. leave. Qed.
Lemma signs_fail idx sig : leaves signs (_fail_tx_incomplete env idx sig).
Proof. unfold _fail_tx_incomplete. leave. Qed.
#[local] Hint Resolve signs_add_required signs_invalidate signs_fail : leaves.
Lemma signs_stage row d : leaves signs (stage_update env row d).
Proof. unfold stage_update. leave. Qed.
Lemma signs_clear row d : leaves signs (clear_stage env row d).
Proof. unfold clear_stage. leave. Qed.
Lemma signs_commit idx slot rx p blob : leaves signs (commit env idx slot rx p blob).
Proof. unfold commit, _finish_publish. leave. Qed.
Lemma signs_bins idx need added : leaves signs (require_bins idx need added).
Proof. revert added. induction need; intros; cbn [require_bins]; leave. Qed.
#[local] Hint Resolve signs_stage signs_clear signs_commit signs_bins : leaves.
Lemma signs_dlmm idx r slot rx accs : leaves signs (publish_dlmm env idx r slot rx accs).
Proof. unfold publish_dlmm. leave. Qed.
Lemma signs_pump idx r slot rx accs : leaves signs (publish_pump env idx r slot rx accs).
Proof. unfold publish_pump. leave. Qed.
#[local] Hint Resolve signs_dlmm signs_pump : leaves.
Lemma signs_from idx r ss sig rec accs : leaves signs (publish_from env idx r ss sig rec accs).
Proof. unfold publish_from. leave. Qed.
#[local] Hint Resolve signs_from : leaves.
Lemma signs_boot idx ss : leaves signs (publish_boot env idx ss).
Proof. unfold publish_boot. leave. Qed.
Lemma signs_tx idx r ss hx : leaves signs (publish_tx env idx r ss hx).
Proof. unfold publish_tx. leave. Qed.
#[local] Hint Resolve signs_boot signs_tx : leaves.
Lemma signs_try_tx idx r ss hx : leaves signs (try_tx env idx r ss hx).
Proof. unfold try_tx. leave. Qed.
#[local] Hint Resolve signs_try_tx : leaves.
Lemma signs_try ss idx : leaves signs (try_publish env ss idx).
Proof. unfold try_publish. leave. Qed.
#[local] Hint Resolve signs_try : leaves.
Lemma signs_maybe ss : leaves signs (maybe_publish env ss).
Proof. unfold maybe_publish. leave. Qed.
Lemma signs_soak sig expect ixs : leaves signs (_fastsoak_predict env sig expect ixs).
Proof. unfold _fastsoak_predict, predict_pool, predict_pump, predict_dlmm, predict. leave. Qed.
Lemma signs_expected idx pk : leaves signs (require_expected idx pk).
Proof. unfold require_expected. leave. Qed.
#[local] Hint Resolve signs_maybe signs_soak signs_expected : leaves.
Lemma signs_apply_tx ev : leaves signs (apply_tx env ev).
Proof. unfold apply_tx. leave. Qed.
Lemma signs_apply_update row fb : leaves signs (apply_update env row fb).
Proof. unfold apply_update, accept. leave. Qed.
#[local] Hint Resolve signs_apply_tx signs_apply_update : leaves.
Lemma signs_replay ev : leaves signs (replay_event env ev).
Proof. unfold replay_event. leave. Qed.
Lemma signs_boot_pool idx : leaves signs (boot_pool env idx).
Proof. unfold boot_pool. leave. Qed.
Lemma signs_boot_bytes rows : forall acc, leaves signs (boot_bytes env rows acc).
Proof. induction rows as [|kr rows IH]; intros acc; cbn [boot_bytes]; [leave|]. apply leaves_bind; [leave|intros ?; apply IH]. Qed.
Lemma signs_adopt kr : leaves signs (adopt_row env kr).
Proof. unfold adopt_row. leave. Qed.
#[local] Hint Resolve signs_replay signs_boot_pool signs_boot_bytes signs_adopt : leaves.
Lemma signs_install plan extra : leaves signs (install_generation env plan extra).
Proof. unfold install_generation, install_row, _recount. leave. Qed.
Lemma signs_reset_pool e : leaves signs (reset_pool env e).
Proof. unfold reset_pool. leave. Qed.
Lemma signs_gap e : leaves signs (gap_pool env e).
Proof. unfold gap_pool. leave. Qed.
Lemma signs_settle : leaves signs (settle env).
Proof. unfold settle, _recount. leave. Qed.
#[local] Hint Resolve signs_install signs_reset_pool signs_gap signs_settle : leaves.

(** ** Marking *)

(** Flag and word are down, the file may still be there. *)
Definition Dark (s : st) : Prop := s_ready s = false /\ forall z, ready_word (s_auth s) = Some z -> z = 0.

Lemma dark_of {A} (m : M A) : leaves signs m -> keeps Dark m.
Proof. apply (leaves_keeps signs (fun x => x.1.2 = false /\ forall z, x.1.1 = Some z -> z = 0)). Qed.

Lemma uncertain_signs_down : triple (fun _ => True) (mark_uncertain env) (fun _ => Down).
Proof.
  unfold mark_uncertain.
  eapply triple_bind with (Q := fun _ s => s_ready s = false); [by intros s s' res _ [= <- _]|intros ?].
  eapply triple_bind with (Q := fun _ s => s_ready s = false); [by intros s s' res H [= <- _]|intros ?].
  apply triple_gets. intros s0 H0. unfold id.
  eapply triple_bind with (Q := fun _ => Dark); [|intros ?].
  { intros s s' res -> He. unfold on_auth in He. destruct (set_ready _ _ _ _) as [a' [e|]] eqn:E; [done|]. injection He as <- _.
    split; [exact H0|]. intros z Hz. change (ready_word a' = Some z) in Hz. rewrite (set_ready_word _ _ _ _ _ E) in Hz.
    by destruct (ready_word (s_auth s0)); [injection Hz as <-|]. }
  eapply triple_bind with (Q := fun _ => Dark); [apply dark_of; leave|intros ?].
  eapply triple_bind with (Q := fun _ => Dark); [apply dark_of; leave|intros ?].
  intros s s' res [H1 H2] [= <- _]. split; [|exact H1]. split; [symmetry; exact H1|].
  intros z Hz. change (z = Z.b2z (s_ready s)). rewrite H1. by apply H2.
Qed.

Lemma ready_agree : keeps Agree mark_ready.
Proof.
  unfold mark_ready. apply triple_gets. intros s0 H0. unfold id. destruct (_ || _); [intros s s' res -> [= <- _]; exact H0|].
  eapply triple_bind with (Q := fun _ s => s_ready s = true /\ s_ready_file s = true); [by intros s s' res _ [= <- _]|intros ?].
  eapply triple_bind with (Q := fun _ => Agree); [|intros ?; apply agree_of; leave].
  intros s s' res [H1 H2] He. unfold on_auth in He. destruct (set_ready _ _ _ _) as [a' [e|]] eqn:E; [done|]. injection He as <- _.
  split; [change (s_ready_file s = s_ready s); congruence|]. intros z Hz. change (ready_word a' = Some z) in Hz.
  change (z = Z.b2z (s_ready s)). rewrite H1. rewrite (set_ready_word _ _ _ _ _ E) in Hz.
  by destruct (ready_word (s_auth s)); [injection Hz as <-|].
Qed.

(** Whatever it finds, a reset takes all three signs down. *)
Lemma reset_down gen : triple (fun _ => True) (reset_connection env gen) (fun _ => Down).
Proof.
  unfold reset_connection. eapply triple_bind; [apply uncertain_signs_down|intros ?].
  eapply triple_bind with (Q := fun _ => Down); [|intros ?].
  { intros s s' res [[Hf Hw] Hr] He. unfold on_auth in He. destruct (reset_history _) as [a' [e|]] eqn:E; [done|]. injection He as <- _.
    split; [|exact Hr]. split; [exact Hf|]. intros z Hz. change (ready_word a' = Some z) in Hz. change (z = Z.b2z (s_ready s)).
    rewrite Hr. rewrite (reset_history_word _ _ E) in Hz. by destruct (ready_word (s_auth s)); [injection Hz as <-|]. }
  match goal with |- triple (Down) ?m _ => change (keeps Down m) end. apply down_of. leave.
Qed.

Lemma reset_agree gen : keeps Agree (reset_connection env gen).
Proof. intros s s' res _ He. by destruct (reset_down gen s s' res I He). Qed.

(** ** All turns *)

#[local] Hint Resolve ready_agree reset_agree : signs.

Ltac agree_step :=
  match goal with
  | |- keeps _ _ => solve [eauto with signs]
  | |- keeps _ _ => apply agree_of; solve [leave]
  | |- keeps _ (bind (gets _) _) => apply keeps_gets_bind; intros ?
  | |- keeps _ (bind _ _) => apply keeps_bind; [|intros ?]
  | |- keeps _ (when _ _) => apply keeps_when
  | |- keeps _ (each _ _) => apply keeps_each; intros ? ?
  | |- keeps _ (if ?b then _ else _) => destruct b
  | |- keeps _ (match ?x with _ => _ end) => destruct x
  end.
Ltac agree := repeat agree_step.

Lemma agree_finish gen token accs : keeps Agree (finish_bootstrap env gen token accs).
Proof. unfold finish_bootstrap, _recount. agree. Qed.
Lemma agree_slot gen slot : keeps Agree (on_slot env gen slot).
Proof. unfold on_slot, expire_pool. agree. Qed.
#[local] Hint Resolve agree_finish agree_slot : signs.

Lemma agree_event ev : keeps Agree (handle_event env ev).
Proof. unfold handle_event, on_bank, on_boot_message, on_plan, on_stream. agree. Qed.
#[local] Hint Resolve agree_event : signs.


End signs.

(** ** Signs left by an earlier process *)




