(* ===== verification/Inventory.v ===== *)
(** Limit-order inventory of a DLMM bin: arb-cap/dlmm_orders/inventory.py, the gate and bin
    snapshot of state011_draft.py and the blob of wire.py.

    A bin is the Python dict the code passes around: a finite map from field names to
    integers.  A field that is read with [.get(k) or 0] is 0 when absent; one that is read
    with [bin[k]] raises KeyError. *)
From stdpp Require Import base list strings gmap.
From Stdlib Require Import ZArith Lia.
From S2P Require Import Prelude PyBytes.
Open Scope Z_scope.
Open Scope py_scope.

Abbreviation bdict := (gmap string Z).

(** [int(bin.get(k) or 0)] *)
Definition get0 (b : bdict) (k : string) : Z := default 0 (b !! k).

(** [bin[k]] *)
Definition get_key (b : bdict) (k : string) : pyres Z :=
  match b !! k with
  | Some v => Ret v
  | None => Raise (KeyError k)
  end.

Definition BIN_SIZE : Z := 144.
Definition MAX_BIN : Z := 70.
Definition BINS_OFF : Z := 48.

Definition FN_UNDETERMINED : Z := 0.
Definition FN_LIQUIDITY_MINING : Z := 1.
Definition FN_LIMIT_ORDER : Z := 2.

(** * Account bytes *)

Definition parse_bin (raw : bytes) (off : Z) : pyres bdict :=
  if blen raw <? off + BIN_SIZE then Raise (ValueError "short bin") else
  ax <-! unpack_u 8 raw off ;;
  ay <-! unpack_u 8 raw (off + 8) ;;
  price_lo <-! unpack_u 8 raw (off + 16) ;;
  price_hi <-! unpack_u 8 raw (off + 24) ;;
  liq_lo <-! unpack_u 8 raw (off + 32) ;;
  liq_hi <-! unpack_u 8 raw (off + 40) ;;
  fox <-! unpack_u 8 raw (off + 48) ;;
  foy <-! unpack_u 8 raw (off + 56) ;;
  fee_ask <-! unpack_u 8 raw (off + 64) ;;
  fee_bid <-! unpack_u 8 raw (off + 72) ;;
  open_amt <-! unpack_u 8 raw (off + 112) ;;
  proc_total <-! unpack_u 8 raw (off + 120) ;;
  proc_rem <-! unpack_u 8 raw (off + 128) ;;
  age <-! unpack_u 4 raw (off + 136) ;;
  ask <-! unpack_u 1 raw (off + 140) ;;
  Ret (list_to_map
    [("amount_x", ax);
     ("amount_y", ay);
     ("price", Z.lor price_lo (Z.shiftl price_hi 64));
     ("liquidity_supply", Z.lor liq_lo (Z.shiftl liq_hi 64));
     ("fulfilled_order_amount_x", fox);
     ("fulfilled_order_amount_y", foy);
     ("limit_order_fee_ask_side", fee_ask);
     ("limit_order_fee_bid_side", fee_bid);
     ("open_order_amount", open_amt);
     ("total_processing_order_amount", proc_total);
     ("processed_order_remaining_amount", proc_rem);
     ("order_age", age);
     ("limit_order_ask_side", ask)]%string).

(** The loop of parse_bin_array from bin [i] on, [n] bins left. *)
Fixpoint parse_bins (body : bytes) (lo : Z) (n : nat) (i : Z) : pyres (list bdict) :=
  match n with
  | O => Ret []
  | S n' =>
      b <-! parse_bin body (BINS_OFF + i * BIN_SIZE) ;;
      rest <-! parse_bins body lo n' (i + 1) ;;
      Ret (<["id"%string := lo + i]> b :: rest)
  end.

Definition parse_bin_array (data : bytes) : pyres (list bdict) :=
  if blen data <? 10136 then Ret [] else
  let body := if 10136 <=? blen data then drop 8 data else data in
  index <-! unpack_s 8 body 0 ;;
  parse_bins body (index * MAX_BIN) (Z.to_nat MAX_BIN) 0.

(** [struct.pack_into(fmt, buf, off, ...)] over bytes already packed: they replace as many
    bytes of the buffer. *)
Definition put (off : Z) (new buf : bytes) : bytes :=
  take (Z.to_nat off) buf ++ new ++ drop (Z.to_nat (off + blen new)) buf.

Definition pack_bin (amount_x amount_y open_order_amount total_processing_order_amount
    processed_order_remaining_amount limit_order_ask_side order_age price : Z) : pyres bytes :=
  let buf := replicate (Z.to_nat BIN_SIZE) 0 in
  ax <-! pack_u 8 amount_x ;;
  ay <-! pack_u 8 amount_y ;;
  let buf := put 0 (ax ++ ay) buf in
  plo <-! pack_u 8 (Z.land price (Z.shiftl 1 64 - 1)) ;;
  phi <-! pack_u 8 (Z.shiftr price 64) ;;
  let buf := put 16 (plo ++ phi) buf in
  op <-! pack_u 8 open_order_amount ;;
  tp <-! pack_u 8 total_processing_order_amount ;;
  pr <-! pack_u 8 processed_order_remaining_amount ;;
  let buf := put 112 (op ++ tp ++ pr) buf in
  age <-! pack_u 4 order_age ;;
  let buf := put 136 age buf in
  Ret (put 140 [Z.land limit_order_ask_side 255] buf).

(** * The fillable layers *)

Definition is_support_limit_order (function_type : Z) (reward_mints_all_default : bool) : bool :=
  if function_type =? FN_LIMIT_ORDER then true else
  if function_type =? FN_LIQUIDITY_MINING then false else
  if function_type =? FN_UNDETERMINED then reward_mints_all_default else
  false.

Definition limit_order_amounts_by_direction (b : bdict) (swap_for_y : bool) : Z * Z :=
  let is_ask := negb (get0 b "limit_order_ask_side" =? 0) in
  if (swap_for_y && negb is_ask) || (negb swap_for_y && is_ask)
  then (get0 b "open_order_amount", get0 b "processed_order_remaining_amount")
  else (0, 0).

Definition mm_amount (b : bdict) (swap_for_y : bool) : pyres Z :=
  get_key b (if swap_for_y then "amount_y" else "amount_x")%string.

Definition available_output (b : bdict) (swap_for_y support_limit_order : bool) : pyres Z :=
  mm <-! mm_amount b swap_for_y ;;
  if negb support_limit_order then Ret mm else
  let '(open_amt, proc_rem) := limit_order_amounts_by_direction b swap_for_y in
  Ret (mm + open_amt + proc_rem).

Definition kernel_available_output (b : bdict) (swap_for_y : bool) : pyres Z :=
  mm_amount b swap_for_y.

(** The dict fill_layers returns. *)
Record layers := Layers { l_mm : Z; l_processed : Z; l_open : Z; l_unfilled : Z }.

Definition fill_layers (b : bdict) (leftover_out : Z) (swap_for_y support_limit_order : bool)
    : pyres layers :=
  mm <-! mm_amount b swap_for_y ;;
  let take_mm := Z.min leftover_out mm in
  let left := leftover_out - take_mm in
  if support_limit_order && (0 <? left) then
    let '(open_amt, proc_rem) := limit_order_amounts_by_direction b swap_for_y in
    let take_proc := Z.min left proc_rem in
    let left := left - take_proc in
    let take_open := Z.min left open_amt in
    Ret (Layers take_mm take_proc take_open (left - take_open))
  else Ret (Layers take_mm 0 0 left).

(** * Comparing two snapshots *)

Definition delta_keys : list string :=
  ["amount_x"; "amount_y"; "open_order_amount"; "total_processing_order_amount";
   "processed_order_remaining_amount"; "limit_order_ask_side";
   "fulfilled_order_amount_x"; "fulfilled_order_amount_y"]%string.

Definition placement_delta (before after : bdict) : bdict :=
  list_to_map ((fun k => (k, get0 after k - get0 before k)) <$> delta_keys).

Definition mm_unchanged (delta : bdict) : bool :=
  (get0 delta "amount_x" =? 0) && (get0 delta "amount_y" =? 0).

(** One entry of [bins_with_order_inventory]; [b.get(k)] without a default is an option. *)
Record hidden_bin := HiddenBin {
  h_id : option Z; h_x : option Z; h_y : option Z; h_open : Z; h_proc_rem : Z;
  h_proc_total : option Z; h_ask : option Z }.

Definition summarize_bin (b : bdict) : option hidden_bin :=
  let o := get0 b "open_order_amount" in
  let p := get0 b "processed_order_remaining_amount" in
  if negb (o =? 0) || negb (p =? 0)
  then Some (HiddenBin (b !! "id") (b !! "amount_x") (b !! "amount_y") o p
               (b !! "total_processing_order_amount") (b !! "limit_order_ask_side"))%string
  else None.

Definition summarize_bins (bins : list bdict) : Z * list hidden_bin :=
  (Z.of_nat (length bins), omap summarize_bin bins).

(** * The gate of the pair account and the published bins (state011_draft.py) *)

Definition REWARD0_MINT : Z := 8 + 32 + 32 + 4 + 7 + 5 + 128 + 16 + 32.
Definition REWARD1_MINT : Z := REWARD0_MINT + 144.
Definition FN_TYPE_OFF : Z := 8 + 8 + 8 + 8 + 2 + 1.

Definition parse_function_type (pair : bytes) : pyres Z :=
  if blen pair <? FN_TYPE_OFF + 1 then Raise (ValueError "short pair")
  else py_index pair FN_TYPE_OFF.

Definition parse_reward_mask (pair : bytes) : Z :=
  if blen pair <? REWARD1_MINT + 32 then 0 else
  let live off := negb (bool_decide (slice off (off + 32) pair = replicate 32 0)) in
  let mask := if live REWARD0_MINT then Z.lor 0 1 else 0 in
  if live REWARD1_MINT then Z.lor mask 2 else mask.

(** function_type, reward_mint_live_mask, orders_enabled *)
Definition parse_orders_gate (pair : bytes) : pyres (Z * Z * bool) :=
  ft <-! parse_function_type pair ;;
  let mask := parse_reward_mask pair in
  Ret (ft, mask, is_support_limit_order ft (mask =? 0)).

(** [bins.extend(parse_bin_array(raw))] over the accounts. *)
Fixpoint parse_arrays (bin_datas : list bytes) : pyres (list bdict) :=
  match bin_datas with
  | [] => Ret []
  | raw :: rest =>
      bs <-! parse_bin_array raw ;;
      more <-! parse_arrays rest ;;
      Ret (bs ++ more)
  end.

(** The comprehension keeps the bins within [k] of the active one; a bin without "id" would
    raise KeyError. *)
Fixpoint keep_near (active_id k : Z) (bins : list bdict) : pyres (list bdict) :=
  match bins with
  | [] => Ret []
  | b :: rest =>
      i <-! get_key b "id" ;;
      more <-! keep_near active_id k rest ;;
      Ret (if Z.abs (i - active_id) <=? k then b :: more else more)
  end.

Definition snap_bins (bin_datas : list bytes) (active_id k : Z) : pyres (list bdict) :=
  bins <-! parse_arrays bin_datas ;;
  keep_near active_id k bins.

(** The five fields published for a bin. *)
Record pub_bin := PubBin { p_x : Z; p_y : Z; p_proc_rem : Z; p_open : Z; p_ask : Z }.

Fixpoint pub_bins (bins : list bdict) (acc : gmap Z pub_bin) : pyres (gmap Z pub_bin) :=
  match bins with
  | [] => Ret acc
  | b :: rest =>
      i <-! get_key b "id" ;;
      x <-! get_key b "amount_x" ;;
      y <-! get_key b "amount_y" ;;
      pr <-! get_key b "processed_order_remaining_amount" ;;
      o <-! get_key b "open_order_amount" ;;
      a <-! get_key b "limit_order_ask_side" ;;
      pub_bins rest (<[i := PubBin x y pr o a]> acc)
  end.

Definition published_s (pair : bytes) (bin_datas : list bytes) (active_id : Z)
    : pyres ((Z * Z * bool) * gmap Z pub_bin) :=
  gate <-! parse_orders_gate pair ;;
  bins <-! snap_bins bin_datas active_id 16 ;;
  pub <-! pub_bins bins ∅ ;;
  Ret (gate, pub).

(** * The blob of wire.py *)

(** [int(b.get(k1, b.get(k2, 0)))] *)
Definition get_either (b : bdict) (k1 k2 : string) : Z :=
  match b !! k1 with
  | Some v => v
  | None => get0 b k2
  end.

Definition write_bin_v2 (buf : bytes) (b : bdict) : pyres bytes :=
  i <-! get_key b "id" ;;
  id' <-! pack_s 4 i ;;
  x <-! (match b !! "x"%string with Some v => Ret v | None => get_key b "amount_x" end) ;;
  x' <-! pack_u 8 x ;;
  y <-! (match b !! "y"%string with Some v => Ret v | None => get_key b "amount_y" end) ;;
  y' <-! pack_u 8 y ;;
  pr <-! pack_u 8 (get_either b "proc_rem" "processed_order_remaining_amount") ;;
  o <-! pack_u 8 (get_either b "open" "open_order_amount") ;;
  Ret (buf ++ id' ++ x' ++ y' ++ pr ++ o ++
       [Z.land (get_either b "ask" "limit_order_ask_side") 255] ++ replicate 7 0).

Definition write_pool_gate (buf : bytes) (function_type reward_mask : Z) : bytes :=
  buf ++ [Z.land function_type 255; Z.land reward_mask 255].

(** * Reading and writing fields *)

Lemma unpack_u_ok n raw off :
  off + Z.of_nat n <= blen raw ->
  unpack_u n raw off = Ret (le_dec (slice off (off + Z.of_nat n) raw)).
Proof. intros H. unfold unpack_u. by destruct (Z.leb_spec (off + Z.of_nat n) (blen raw)); [|lia]. Qed.

Lemma slice_skip a b l1 l2 :
  blen l1 <= a -> slice a b (l1 ++ l2) = slice (a - blen l1) (b - blen l1) l2.
Proof.
  intros Ha. unfold slice, blen in *. rewrite drop_app_ge by lia.
  f_equal; [lia|]. f_equal. lia.
Qed.

Lemma unpack_u_skip n l1 l2 off :
  blen l1 <= off -> unpack_u n (l1 ++ l2) off = unpack_u n l2 (off - blen l1).
Proof.
  intros H. unfold unpack_u. rewrite slice_skip, blen_app by lia.
  replace (off - blen l1 + Z.of_nat n) with (off + Z.of_nat n - blen l1) by lia.
  destruct (Z.leb_spec (off + Z.of_nat n) (blen l1 + blen l2)),
           (Z.leb_spec (off + Z.of_nat n - blen l1) (blen l2)); try lia; done.
Qed.

Lemma unpack_u_here n z l :
  0 <= z < 2 ^ (8 * Z.of_nat n) -> unpack_u n (le_enc n z ++ l) 0 = Ret z.
Proof. intros Hz. by apply (unpack_u_at n [] z l 0). Qed.

Lemma put_at l1 l2 l3 new off :
  off = blen l1 -> length l2 = length new -> put off new (l1 ++ l2 ++ l3) = l1 ++ new ++ l3.
Proof.
  intros -> Hl. unfold put, blen. rewrite Nat2Z.id, take_app_length.
  replace (Z.to_nat _) with (length l1 + length new)%nat by lia.
  rewrite <- drop_drop, drop_app_length, <- Hl. by rewrite drop_app_length.
Qed.

Lemma pack_u_enc n z : 0 <= z < 2 ^ (8 * Z.of_nat n) -> pack_u n z = Ret (le_enc n z).
Proof.
  intros [H1 H2]. unfold pack_u.
  by rewrite (proj2 (Z.leb_le _ _) H1), (proj2 (Z.ltb_lt _ _) H2).
Qed.

(** A buffer that is a sequence of fields, each a width and a value. *)
Definition enc_fields (fs : list (nat * Z)) : bytes := concat ((fun p => le_enc p.1 p.2) <$> fs).
Definition width (fs : list (nat * Z)) : Z := Z.of_nat (sum_list (fst <$> fs)).

Lemma blen_enc_fields fs : blen (enc_fields fs) = width fs.
Proof.
  unfold enc_fields, width. induction fs as [|[n z] fs IH]; [done|]. rewrite !fmap_cons. cbn [concat].
  rewrite blen_app, blen_le_enc, IH. cbn [fst sum_list sum_list_with foldr]. simpl. lia.
Qed.

(** Every field of such a buffer reads back. *)
Lemma unpack_field fs i n z off :
  fs !! i = Some (n, z) -> off = width (take i fs) -> 0 <= z < 2 ^ (8 * Z.of_nat n) ->
  unpack_u n (enc_fields fs) off = Ret z.
Proof.
  intros Hi -> Hz. rewrite <- (take_drop_middle fs i (n, z) Hi) at 1.
  unfold enc_fields. rewrite fmap_app, concat_app, fmap_cons. cbn [concat fst snd].
  apply unpack_u_at; [|done]. symmetry. apply (blen_enc_fields (take i fs)).
Qed.

(** * parse_bin on every long enough buffer *)

Definition fld (n : nat) (raw : bytes) (off : Z) : Z := le_dec (slice off (off + Z.of_nat n) raw).

Lemma parse_bin_ok raw off :
  off + BIN_SIZE <= blen raw ->
  exists b, parse_bin raw off = Ret b /\
    b !! "amount_x"%string = Some (fld 8 raw off) /\
    b !! "amount_y"%string = Some (fld 8 raw (off + 8)) /\
    b !! "open_order_amount"%string = Some (fld 8 raw (off + 112)) /\
    b !! "processed_order_remaining_amount"%string = Some (fld 8 raw (off + 128)) /\
    b !! "limit_order_ask_side"%string = Some (fld 1 raw (off + 140)).
Proof.
  unfold BIN_SIZE. intros H. unfold parse_bin, BIN_SIZE.
  destruct (Z.ltb_spec (blen raw) (off + 144)); [lia|].
  repeat (rewrite unpack_u_ok by (cbn [Z.of_nat]; lia); cbn [py_bind]).
  eexists. split; [reflexivity|]. repeat split; vm_compute; reflexivity.
Qed.

(** * Packing a bin and reading it back *)

Lemma price_split price :
  0 <= price < 2 ^ 128 ->
  Z.lor (Z.land price (Z.shiftl 1 64 - 1)) (Z.shiftl (Z.shiftr price 64) 64) = price /\
  0 <= Z.land price (Z.shiftl 1 64 - 1) < 2 ^ 64 /\ 0 <= Z.shiftr price 64 < 2 ^ 64.
Proof.
  intros H. change (Z.shiftl 1 64 - 1) with (Z.ones 64).
  rewrite Z.land_ones, Z.shiftr_div_pow2 by lia.
  pose proof (Z.mod_pos_bound price (2 ^ 64) ltac:(lia)).
  pose proof (Z.div_mod price (2 ^ 64) ltac:(lia)).
  split; [|split; [lia|split; [apply Z.div_pos; lia|apply Z.div_lt_upper_bound; lia]]].
  apply Z.bits_inj'. intros n Hn. rewrite Z.lor_spec, Z.shiftl_spec by lia.
  destruct (Z.lt_ge_cases n 64).
  - rewrite Z.mod_pow2_bits_low, (Z.testbit_neg_r _ (n - 64)) by lia. apply orb_false_r.
  - rewrite Z.mod_pow2_bits_high, Z.div_pow2_bits by lia. cbn. f_equal. lia.
Qed.

Lemma length_le_enc_app n z l : length (le_enc n z ++ l) = (n + length l)%nat.
Proof. by rewrite length_app, length_le_enc. Qed.

(** The bytes of a packed bin. *)
Lemma pack_bin_bytes ax ay op tp pr ask age price :
  0 <= ax < 2 ^ 64 -> 0 <= ay < 2 ^ 64 -> 0 <= op < 2 ^ 64 -> 0 <= tp < 2 ^ 64 ->
  0 <= pr < 2 ^ 64 -> 0 <= age < 2 ^ 32 -> 0 <= price < 2 ^ 128 ->
  pack_bin ax ay op tp pr ask age price =
  Ret (le_enc 8 ax ++ le_enc 8 ay ++
       le_enc 8 (Z.land price (Z.shiftl 1 64 - 1)) ++ le_enc 8 (Z.shiftr price 64) ++
       replicate 80 0 ++ le_enc 8 op ++ le_enc 8 tp ++ le_enc 8 pr ++
       le_enc 4 age ++ le_enc 1 (Z.land ask 255) ++ replicate 3 0).
Proof.
  intros. destruct (price_split price) as (_ & Hlo & Hhi); [done|].
  unfold pack_bin. rewrite !pack_u_enc by assumption. cbn [py_bind]. f_equal.
  change (replicate (Z.to_nat BIN_SIZE) 0) with
    ([] ++ replicate 16 0 ++ replicate 16 0 ++ replicate 80 0 ++ replicate 24 0 ++
     replicate 4 0 ++ replicate 1 0 ++ replicate 3 0).
  rewrite (put_at []) by (by rewrite ?length_le_enc_app, ?length_le_enc).
  rewrite app_nil_l, (put_at (le_enc 8 ax ++ le_enc 8 ay))
    by (unfold blen; by rewrite ?length_le_enc_app, ?length_le_enc).
  set (plo := le_enc 8 (Z.land price _)). set (phi := le_enc 8 (Z.shiftr price 64)).
  replace ((le_enc 8 ax ++ le_enc 8 ay) ++ (plo ++ phi) ++ replicate 80 0 ++ replicate 24 0 ++
     replicate 4 0 ++ replicate 1 0 ++ replicate 3 0)
    with ((le_enc 8 ax ++ le_enc 8 ay ++ plo ++ phi ++ replicate 80 0) ++ replicate 24 0 ++
     (replicate 4 0 ++ replicate 1 0 ++ replicate 3 0)) by (by rewrite <- !app_assoc).
  rewrite put_at by (unfold blen, plo, phi; by rewrite ?length_le_enc_app, ?length_le_enc, ?length_replicate).
  set (l3 := le_enc 8 op ++ _).
  replace (_ ++ l3 ++ _) with
    ((le_enc 8 ax ++ le_enc 8 ay ++ plo ++ phi ++ replicate 80 0 ++ l3) ++ replicate 4 0 ++
     (replicate 1 0 ++ replicate 3 0)) by (by rewrite <- !app_assoc).
  rewrite put_at by (unfold blen, plo, phi, l3; by rewrite ?length_le_enc_app, ?length_app, ?length_le_enc_app, ?length_le_enc, ?length_replicate).
  replace (_ ++ le_enc 4 age ++ _) with
    ((le_enc 8 ax ++ le_enc 8 ay ++ plo ++ phi ++ replicate 80 0 ++ l3 ++ le_enc 4 age) ++
     replicate 1 0 ++ replicate 3 0) by (by rewrite <- !app_assoc).
  rewrite put_at by (unfold blen, plo, phi, l3; by rewrite ?length_le_enc_app, ?length_app, ?length_le_enc_app, ?length_le_enc, ?length_replicate).
  unfold l3. rewrite <- !app_assoc. repeat f_equal. cbn [le_enc]. f_equal.
  change 255 with (Z.ones 8). rewrite Z.land_ones by lia. change (2 ^ 8) with 256.
  by rewrite Z.mod_mod.
Qed.

(** The same bytes as a sequence of fields; the gap before the order amounts is 32 bytes. *)
Definition bin_fields (ax ay plo phi op tp pr age ask : Z) : list (nat * Z) :=
  zip [8; 8; 8; 8; 8; 8; 8; 8; 8; 8; 32; 8; 8; 8; 4; 1; 3]%nat
      [ax; ay; plo; phi; 0; 0; 0; 0; 0; 0; 0; op; tp; pr; age; ask; 0].

Lemma bin_fields_eq ax ay plo phi op tp pr age ask :
  le_enc 8 ax ++ le_enc 8 ay ++ le_enc 8 plo ++ le_enc 8 phi ++ replicate 80 0 ++ le_enc 8 op ++
  le_enc 8 tp ++ le_enc 8 pr ++ le_enc 4 age ++ le_enc 1 (Z.land ask 255) ++ replicate 3 0 =
  enc_fields (bin_fields ax ay plo phi op tp pr age (ask mod 256)).
Proof.
  unfold enc_fields, bin_fields. cbn [zip zip_with fmap list_fmap concat fst snd]. rewrite app_nil_r.
  change 255 with (Z.ones 8). rewrite Z.land_ones by lia. reflexivity.
Qed.

(** A bin that pack_bin writes from fields in range is 144 bytes long, and parse_bin reads
    those fields back (the ask side modulo 256), the 128-bit price included; the fields that
    pack_bin has no argument for read as 0. *)
Theorem pack_parse_bin ax ay op tp pr ask age price :
  0 <= ax < 2 ^ 64 -> 0 <= ay < 2 ^ 64 -> 0 <= op < 2 ^ 64 -> 0 <= tp < 2 ^ 64 ->
  0 <= pr < 2 ^ 64 -> 0 <= age < 2 ^ 32 -> 0 <= price < 2 ^ 128 ->
  exists raw, pack_bin ax ay op tp pr ask age price = Ret raw /\ blen raw = BIN_SIZE /\
    parse_bin raw 0 = Ret (list_to_map
      [("amount_x", ax); ("amount_y", ay); ("price", price); ("liquidity_supply", 0);
       ("fulfilled_order_amount_x", 0); ("fulfilled_order_amount_y", 0);
       ("limit_order_fee_ask_side", 0); ("limit_order_fee_bid_side", 0);
       ("open_order_amount", op); ("total_processing_order_amount", tp);
       ("processed_order_remaining_amount", pr); ("order_age", age);
       ("limit_order_ask_side", ask mod 256)]%string).
Proof.
  intros. rewrite pack_bin_bytes by assumption. eexists. split; [reflexivity|].
  destruct (price_split price) as (Hp & Hlo & Hhi); [done|].
  rewrite (bin_fields_eq ax ay). set (fs := bin_fields _ _ _ _ _ _ _ _ _).
  split; [apply blen_enc_fields|]. unfold parse_bin. rewrite blen_enc_fields.
  change (width fs <? 0 + BIN_SIZE) with false. cbv iota.
  rewrite (unpack_field fs 0 8 ax), (unpack_field fs 1 8 ay), (unpack_field fs 2 8 (Z.land _ _)),
    (unpack_field fs 3 8 (Z.shiftr price 64)), (unpack_field fs 4 8 0), (unpack_field fs 5 8 0),
    (unpack_field fs 6 8 0), (unpack_field fs 7 8 0), (unpack_field fs 8 8 0),
    (unpack_field fs 9 8 0), (unpack_field fs 11 8 op), (unpack_field fs 12 8 tp),
    (unpack_field fs 13 8 pr), (unpack_field fs 14 4 age), (unpack_field fs 15 1 (ask mod 256))
    by (reflexivity || assumption || (apply Z.mod_pos_bound; lia) || (cbn; lia)).
  cbn [py_bind]. by rewrite Hp.
Qed.

(** * The published bins, by id *)

(** The five fields of the bin at [off], read from the bytes. *)
Definition pub_at (raw : bytes) (off : Z) : pub_bin :=
  PubBin (fld 8 raw off) (fld 8 raw (off + 8)) (fld 8 raw (off + 128))
         (fld 8 raw (off + 112)) (fld 1 raw (off + 140)).

Definition array_lo (data : bytes) : Z := to_signed 8 (fld 8 (drop 8 data) 0) * MAX_BIN.

(** What one array account holds for bin [i]: a short account holds nothing, a full one the 70
    bins from 70 times its index. *)
Definition array_bin (i : Z) (data : bytes) : option pub_bin :=
  if (10136 <=? blen data) && (array_lo data <=? i) && (i <? array_lo data + MAX_BIN)
  then Some (pub_at (drop 8 data) (BINS_OFF + (i - array_lo data) * BIN_SIZE))
  else None.

(** [b] is a bin dict with id and the published fields as in [p]. *)
Definition reads (b : bdict) (p : Z * pub_bin) : Prop :=
  b !! "id"%string = Some p.1 /\
  b !! "amount_x"%string = Some (p_x p.2) /\
  b !! "amount_y"%string = Some (p_y p.2) /\
  b !! "processed_order_remaining_amount"%string = Some (p_proc_rem p.2) /\
  b !! "open_order_amount"%string = Some (p_open p.2) /\
  b !! "limit_order_ask_side"%string = Some (p_ask p.2).

Definition array_pairs (data : bytes) : list (Z * pub_bin) :=
  if blen data <? 10136 then [] else
  (fun j => (array_lo data + Z.of_nat j,
             pub_at (drop 8 data) (BINS_OFF + Z.of_nat j * BIN_SIZE))) <$> seq 0 70.

Lemma parse_bins_reads body lo n i :
  BINS_OFF + Z.of_nat (i + n) * BIN_SIZE <= blen body ->
  exists bs, parse_bins body lo n (Z.of_nat i) = Ret bs /\
    Forall2 reads bs ((fun j => (lo + Z.of_nat j, pub_at body (BINS_OFF + Z.of_nat j * BIN_SIZE)))
                        <$> seq i n).
Proof.
  unfold BINS_OFF, BIN_SIZE. revert i. induction n as [|n IH]; intros i H; cbn [parse_bins seq].
  - eexists. split; [done|]. constructor.
  - destruct (parse_bin_ok body (48 + Z.of_nat i * 144)) as (b & Hb & Hx & Hy & Ho & Hp & Ha);
      [unfold BIN_SIZE; lia|].
    unfold BINS_OFF, BIN_SIZE. rewrite Hb. cbn [py_bind].
    destruct (IH (S i)) as (bs & Hbs & Hf); [lia|].
    replace (Z.of_nat i + 1) with (Z.of_nat (S i)) by lia. unfold BINS_OFF, BIN_SIZE in Hbs.
    rewrite Hbs. cbn [py_bind]. eexists. split; [done|]. rewrite fmap_cons. constructor; [|done].
    by repeat split; cbn [fst snd]; rewrite ?lookup_insert_eq, ?lookup_insert_ne by done.
Qed.

Lemma parse_bin_array_reads data :
  exists bs, parse_bin_array data = Ret bs /\ Forall2 reads bs (array_pairs data).
Proof.
  unfold parse_bin_array, array_pairs. destruct (Z.ltb_spec (blen data) 10136) as [|Hl].
  - by exists [].
  - rewrite (proj2 (Z.leb_le _ _) Hl).
    assert (Hd : blen (drop 8 data) = blen data - 8).
    { unfold blen in *. rewrite length_drop. lia. }
    unfold unpack_s. rewrite unpack_u_ok by (cbn [Z.of_nat]; lia). cbn [py_bind].
    apply (parse_bins_reads _ _ 70 0). unfold BINS_OFF, BIN_SIZE. cbn. lia.
Qed.

Lemma parse_arrays_reads ds :
  exists bs, parse_arrays ds = Ret bs /\ Forall2 reads bs (concat (array_pairs <$> ds)).
Proof.
  induction ds as [|d ds (bs & Hbs & Hf)]; cbn [parse_arrays fmap list_fmap concat].
  - by exists [].
  - destruct (parse_bin_array_reads d) as (b & -> & Hb). cbn [py_bind]. rewrite Hbs. cbn [py_bind].
    eexists. split; [done|]. by apply Forall2_app.
Qed.

Lemma keep_near_reads a k bs ps :
  Forall2 reads bs ps ->
  exists bs', keep_near a k bs = Ret bs' /\
    Forall2 reads bs' (filter (fun p : Z * pub_bin => Z.abs (p.1 - a) <= k) ps).
Proof.
  induction 1 as [|b p bs ps (Hi & Hr) Hf (bs' & Hbs & IH)]; cbn [keep_near].
  - by exists [].
  - unfold get_key. rewrite Hi. cbn [py_bind]. rewrite Hbs. cbn [py_bind].
    rewrite filter_cons. destruct (Z.leb_spec (Z.abs (p.1 - a)) k).
    + rewrite decide_True by done. eexists. split; [done|]. by constructor.
    + rewrite decide_False by lia. by eexists.
Qed.

Lemma pub_bins_reads bs ps acc :
  Forall2 reads bs ps ->
  pub_bins bs acc = Ret (foldl (fun m (p : Z * pub_bin) => <[p.1 := p.2]> m) acc ps).
Proof.
  intros Hf. revert acc. induction Hf as [|b [i [x y pr o a]] bs ps (Hi & Hx & Hy & Hp & Ho & Ha) _ IH];
    intros acc; cbn [pub_bins foldl]; [done|].
  unfold get_key. rewrite Hi, Hx, Hy, Hp, Ho, Ha. cbn [py_bind fst snd]. by rewrite IH.
Qed.

Lemma lookup_foldl_insert (ps : list (Z * pub_bin)) (acc : gmap Z pub_bin) i :
  foldl (fun m (p : Z * pub_bin) => <[p.1 := p.2]> m) acc ps !! i =
  match last (omap (fun p : Z * pub_bin => if decide (p.1 = i) then Some p.2 else None) ps) with
  | Some v => Some v
  | None => acc !! i
  end.
Proof.
  revert acc. induction ps as [|[j v] ps IH]; intros acc; [done|]. cbn [foldl]. rewrite IH.
  cbn [omap list_omap fst snd]. case_decide as Hj.
  - subst. rewrite lookup_insert_eq, last_cons. by case_match.
  - by rewrite lookup_insert_ne by done.
Qed.

(** At most one bin of an account has a given id, and it is the one at that id's place. *)
Lemma omap_array_pairs i data :
  omap (fun p : Z * pub_bin => if decide (p.1 = i) then Some p.2 else None) (array_pairs data) =
  option_list (array_bin i data).
Proof.
  unfold array_pairs, array_bin, MAX_BIN.
  destruct (Z.ltb_spec (blen data) 10136), (Z.leb_spec 10136 (blen data)); try lia; [done|].
  cbn [andb]. set (lo := array_lo data). set (g := fun j : nat => _).
  assert (Hin : forall n k, omap (fun p : Z * pub_bin => if decide (p.1 = i) then Some p.2 else None)
      (g <$> seq k n) =
    option_list (if (lo + Z.of_nat k <=? i) && (i <? lo + Z.of_nat (k + n))
                 then Some (g (Z.to_nat (i - lo))).2 else None)).
  { induction n as [|n IH]; intros k; cbn [seq].
    - destruct (Z.leb_spec (lo + Z.of_nat k) i), (Z.ltb_spec i (lo + Z.of_nat (k + 0))); try lia; done.
    - rewrite fmap_cons. cbn [omap list_omap]. 
      destruct (decide ((g k).1 = i)) as [Hk|Hk]; cbn [g fst] in Hk.
      + replace (Z.to_nat (i - lo)) with k by lia.
        destruct (Z.leb_spec (lo + Z.of_nat k) i), (Z.ltb_spec i (lo + Z.of_nat (k + S n))); try lia.
        transitivity [(g k).2]; [f_equal|reflexivity]. etrans; [apply (IH (S k))|].
        by destruct (Z.leb_spec (lo + Z.of_nat (S k)) i); [lia|].
      + etrans; [apply (IH (S k))|]. replace (S k + n)%nat with (k + S n)%nat by lia.
        by destruct (Z.leb_spec (lo + Z.of_nat (S k)) i), (Z.leb_spec (lo + Z.of_nat k) i); try lia. }
  rewrite (Hin 70%nat 0%nat). replace (lo + Z.of_nat 0) with lo by lia.
  destruct (Z.leb_spec lo i); [|done]. cbn [andb]. change (Z.of_nat (0 + 70)) with 70.
  case_match; [|done]. unfold g. cbn [snd]. by rewrite Z2Nat.id by lia.
Qed.

Lemma concat_option_list {A B} (f : A -> option B) (l : list A) :
  concat ((fun x => option_list (f x)) <$> l) = omap f l.
Proof. induction l as [|x l IH]; [done|]. rewrite fmap_cons. cbn. destruct (f x); cbn; f_equal; exact IH. Qed.

(** The published value of an id is the last one among the pairs with that id. *)
Lemma last_filter_near (ps : list (Z * pub_bin)) a k i :
  omap (fun p : Z * pub_bin => if decide (p.1 = i) then Some p.2 else None)
    (filter (fun p : Z * pub_bin => Z.abs (p.1 - a) <= k) ps) =
  if Z.abs (i - a) <=? k
  then omap (fun p : Z * pub_bin => if decide (p.1 = i) then Some p.2 else None) ps else [].
Proof.
  induction ps as [|p ps IH]; [by destruct (Z.abs (i - a) <=? k)|]. rewrite filter_cons.
  destruct (decide (p.1 = i)) as [Hp|Hp], (Z.leb_spec (Z.abs (i - a)) k), (decide (Z.abs (p.1 - a) <= k));
    subst; try lia; cbn [omap list_omap]; rewrite ?(decide_True (P := p.1 = p.1)) by done;
    rewrite ?(decide_False (P := p.1 = i)) by done; try exact IH; f_equal; exact IH.
Qed.

(** published_s on a pair account of at least 36 bytes never raises, whatever the array
    accounts hold.  It publishes exactly the ids within 16 of the active one that some full array
    account covers (index * 70 to index * 70 + 69), each with the amounts, order inventory and
    side read at that bin's place in the last such account, and the gate of the function type
    and the reward mask. *)
Theorem published_window pair ds active_id :
  FN_TYPE_OFF + 1 <= blen pair ->
  exists ft pub,
    published_s pair ds active_id =
      Ret ((ft, parse_reward_mask pair, is_support_limit_order ft (parse_reward_mask pair =? 0)), pub) /\
    pair !! Z.to_nat FN_TYPE_OFF = Some ft /\
    forall i, pub !! i = if Z.abs (i - active_id) <=? 16 then last (omap (array_bin i) ds) else None.
Proof.
  intros Hl. unfold published_s, parse_orders_gate, parse_function_type, py_index.
  destruct (Z.ltb_spec (blen pair) (FN_TYPE_OFF + 1)); [lia|].
  destruct (lookup_lt_is_Some_2 pair (Z.to_nat FN_TYPE_OFF)) as [ft Hft].
  { unfold blen, FN_TYPE_OFF in *. lia. }
  rewrite Hft. cbn [py_bind]. unfold snap_bins.
  destruct (parse_arrays_reads ds) as (bs & -> & Hf). cbn [py_bind].
  destruct (keep_near_reads active_id 16 _ _ Hf) as (bs' & -> & Hf'). cbn [py_bind].
  rewrite (pub_bins_reads _ _ _ Hf'). cbn [py_bind].
  eexists _, _. split; [reflexivity|]. split; [done|]. intros i.
  rewrite lookup_foldl_insert, last_filter_near, lookup_empty.
  destruct (Z.abs (i - active_id) <=? 16); [|done]. rewrite omap_concat, <- list_fmap_compose.
  rewrite (list_fmap_ext _ (fun d => option_list (array_bin i d)) ds) by (intros; apply omap_array_pairs).
  rewrite concat_option_list. by case_match.
Qed.

Definition demo_array : bytes := replicate 8 0 ++ le_enc 8 0 ++ replicate 40 0 ++
  concat ((fun j => le_enc 8 (Z.of_nat j) ++ replicate 136 0) <$> seq 0 70).

Lemma published_window_witness :
  exists ft pub,
    published_s (replicate 36 2) [demo_array] 3 = Ret ((ft, 0, true), pub) /\
    pub !! 5 = Some (PubBin 5 0 0 0 0) /\ pub !! 20 = None.
Proof.
  destruct (published_window (replicate 36 2) [demo_array] 3) as (ft & pub & Hp & Hft & Hm).
  { vm_compute. discriminate. }
  vm_compute in Hft. injection Hft as <-. exists 2, pub. split; [exact Hp|].
  rewrite !Hm. split; vm_compute; reflexivity.
Defined.

Lemma pack_parse_bin_witness :
  exists raw, pack_bin 5 6 7 8 9 1 3 (2 ^ 64 + 1) = Ret raw /\
    (b <-! parse_bin raw 0 ;; get_key b "price") = Ret (2 ^ 64 + 1).
Proof.
  destruct (pack_parse_bin 5 6 7 8 9 1 3 (2 ^ 64 + 1)) as (raw & Hr & _ & Hp); try lia.
  exists raw. split; [exact Hr|]. rewrite Hp. vm_compute. reflexivity.
Defined.
