(* ===== verification/FillBin.v ===== *)
(** The order-aware swap of a DLMM pair: arb-cap/dlmm_orders/fill_bin.py.

    A swap takes a bin's market-maker inventory, then the processed remainder of its limit
    orders, then its open orders, and moves to the next bin.  The kernel of the file is defined
    for the price 2^64 only; another price raises NotImplementedError as in the code.
    [_find] returns the bin with its place in [bins], so that the in-place updates of
    apply_fill are updates of that list; the deep copy at the start of apply_swap is the
    functional update itself. *)
From stdpp Require Import base list strings gmap.
From Stdlib Require Import ZArith Lia.
From coqutil.Datatypes Require Import RecordSetters.
From S2P Require Import Prelude Inventory.
Import RecordSetters.DoubleBraceUpdate.
Open Scope Z_scope.
Open Scope py_scope.

Definition Q1 : Z := Z.shiftl 1 64.

Definition q1_only : string := "fixture kernel is Q1-only".

Definition _amount_out (amount price : Z) (swap_for_y : bool) : pyres Z :=
  if price =? Q1 then Ret amount else Raise (NotImplementedError q1_only).

Definition _amount_in (out price : Z) (swap_for_y : bool) : pyres Z :=
  if price =? Q1 then Ret out else Raise (NotImplementedError q1_only).

(** (in, left, out) *)
Definition _fill_against (max_out amount price : Z) (swap_for_y : bool) : pyres (Z * Z * Z) :=
  if max_out =? 0 then Ret (0, amount, 0) else
  max_in <-! _amount_in max_out price swap_for_y ;;
  if max_in <=? amount then Ret (max_in, amount - max_in, max_out) else
  out <-! _amount_out amount price swap_for_y ;;
  Ret (amount, 0, out).

Record OBin := MkOBin {
  id : Z; amount_x : Z; amount_y : Z; processed_order_remaining_amount : Z;
  open_order_amount : Z; total_processing_order_amount : Z; order_age : Z;
  limit_order_ask_side : Z; price : Z }.

Record OState := MkOState {
  active_id : Z; bin_step : Z; status : Z; function_type : Z; reward_mint_live_mask : Z;
  reserve_x : Z; reserve_y : Z; bins : list OBin }.

Record Fill := MkFill {
  mm_in : Z; mm_out : Z; proc_in : Z; proc_out : Z; open_in : Z; open_out : Z;
  used_in : Z; left : Z; out_amt : Z }.

Definition orders_enabled (s : OState) : bool :=
  is_support_limit_order (function_type s) (reward_mint_live_mask s =? 0).

(** [bin.__dict__] *)
Definition __dict__ (b : OBin) : bdict :=
  list_to_map
    [("id", id b); ("amount_x", amount_x b); ("amount_y", amount_y b);
     ("processed_order_remaining_amount", processed_order_remaining_amount b);
     ("open_order_amount", open_order_amount b);
     ("total_processing_order_amount", total_processing_order_amount b);
     ("order_age", order_age b); ("limit_order_ask_side", limit_order_ask_side b);
     ("price", price b)]%string.

Definition fill_mm (b : OBin) (amount : Z) (swap_for_y : bool) : pyres (Z * Z * Z) :=
  mm <-! mm_amount (__dict__ b) swap_for_y ;;
  _fill_against mm amount (price b) swap_for_y.

Definition fill_processed_order (b : OBin) (amount : Z) (swap_for_y orders_on : bool)
    : pyres (Z * Z * Z) :=
  let '(_, proc) :=
    if orders_on then limit_order_amounts_by_direction (__dict__ b) swap_for_y else (0, 0) in
  let proc := if negb orders_on then 0 else proc in
  _fill_against proc amount (price b) swap_for_y.

Definition fill_open_orders (b : OBin) (amount : Z) (swap_for_y orders_on : bool)
    : pyres (Z * Z * Z) :=
  let '(open_amt, _) :=
    if orders_on then limit_order_amounts_by_direction (__dict__ b) swap_for_y else (0, 0) in
  let open_amt := if negb orders_on then 0 else open_amt in
  _fill_against open_amt amount (price b) swap_for_y.

Definition fill_bin (b : OBin) (amount : Z) (swap_for_y orders_on : bool) : pyres Fill :=
  r1 <-! fill_mm b amount swap_for_y ;;
  let '(mi, left, mo) := r1 in
  r2 <-! fill_processed_order b left swap_for_y orders_on ;;
  let '(pi, left, po) := r2 in
  r3 <-! fill_open_orders b left swap_for_y orders_on ;;
  let '(oi, left, oo) := r3 in
  Ret (MkFill mi mo pi po oi oo (mi + pi + oi) left (mo + po + oo)).

(** The bin object and the state object after the call; [i] is the bin's place. *)
Definition apply_fill (i : nat) (b : OBin) (s : OState) (swap_for_y : bool) (f : Fill)
    : pyres OState :=
  bs <-! (if swap_for_y then
      if amount_y b <? mm_out f then Raise (ValueError "mm y") else
      Ret (b {{ amount_y ::= fun y => y - mm_out f; amount_x ::= Z.add (mm_in f) }},
           s {{ reserve_y ::= fun y => y - out_amt f; reserve_x ::= Z.add (used_in f) }})
    else
      if amount_x b <? mm_out f then Raise (ValueError "mm x") else
      Ret (b {{ amount_x ::= fun x => x - mm_out f; amount_y ::= Z.add (mm_in f) }},
           s {{ reserve_x ::= fun x => x - out_amt f; reserve_y ::= Z.add (used_in f) }})) ;;
  let '(b, s) := bs in
  if (processed_order_remaining_amount b <? proc_out f) || (open_order_amount b <? open_out f)
  then Raise (ValueError "order inventory") else
  let b := b {{ processed_order_remaining_amount ::= fun p => p - proc_out f;
                open_order_amount ::= fun o => o - open_out f }} in
  Ret (s {{ bins ::= <[i := b]> }}).

(** The first bin with that id, with its place. *)
Fixpoint find_bin (bs : list OBin) (bid : Z) : option (nat * OBin) :=
  match bs with
  | [] => None
  | b :: bs' =>
      if id b =? bid then Some (O, b)
      else match find_bin bs' bid with
           | Some (i, b') => Some (S i, b')
           | None => None
           end
  end.

Definition _find (s : OState) (bid : Z) : option (nat * OBin) := find_bin (bins s) bid.

Definition step_active (swap_for_y : bool) (s : OState) : OState :=
  s {{ active_id ::= fun a => if swap_for_y then a - 1 else a + 1 }}.

(** The while loop: [guard] is what is left of the 256 turns. *)
Fixpoint swap_loop (guard : nat) (after : OState) (left total_out : Z) (swap_for_y on : bool)
    : pyres (OState * Z * Z) :=
  if 0 <? left then
    match guard with
    | O => Ret (after, left, total_out)
    | S guard' =>
        match _find after (active_id after) with
        | None => Raise (ValueError "missing bin")
        | Some (i, b) =>
            f <-! fill_bin b left swap_for_y on ;;
            if (out_amt f =? 0) && (used_in f =? 0) then
              swap_loop guard' (step_active swap_for_y after) left total_out swap_for_y on
            else
              after <-! apply_fill i b after swap_for_y f ;;
              let left := left - used_in f in
              let total_out := total_out + out_amt f in
              let after := if 0 <? left then step_active swap_for_y after else after in
              swap_loop guard' after left total_out swap_for_y on
        end
    end
  else Ret (after, left, total_out).

(** The dict of the quote: amount_in, amount_out, active_id_after. *)
Record quote := Quote { q_amount_in : Z; q_amount_out : Z; q_active_id_after : Z }.

Definition apply_swap (before : OState) (amount_in : Z) (swap_for_y : bool)
    : pyres (OState * quote) :=
  let on := orders_enabled before in
  r <-! swap_loop 256 before amount_in 0 swap_for_y on ;;
  let '(after, left, total_out) := r in
  if 0 <? left then Raise (ValueError "unfilled") else
  Ret (after, Quote amount_in total_out (active_id after)).

(** The fields of a bin that the fixtures compare: id, amount_x, amount_y, processed remaining,
    open, side. *)
Definition bin_snap (b : OBin) : list (string * Z) :=
  [("id", id b); ("amount_x", amount_x b); ("amount_y", amount_y b);
   ("processed_order_remaining_amount", processed_order_remaining_amount b);
   ("open_order_amount", open_order_amount b);
   ("limit_order_ask_side", limit_order_ask_side b)]%string.

Example mm_then_orders :
  (f <-! fill_bin (MkOBin 0 0 20 10 30 0 0 0 Q1) 35 true true ;;
   Ret (mm_out f, proc_out f, open_out f, left f)) = Ret (20, 10, 5, 0).
Proof. reflexivity. Qed.

(** * What a bin holds and offers *)

Definition wf_bin (b : OBin) : Prop :=
  0 <= amount_x b /\ 0 <= amount_y b /\ 0 <= processed_order_remaining_amount b /\
  0 <= open_order_amount b /\ price b = Q1.

(** The side the orders of the bin sell: ask orders sell x, bid orders sell y. *)
Definition orders_match (b : OBin) (swap_for_y : bool) : bool :=
  if swap_for_y then limit_order_ask_side b =? 0 else negb (limit_order_ask_side b =? 0).

Definition order_amount (b : OBin) : Z :=
  processed_order_remaining_amount b + open_order_amount b.

Definition mm_of (swap_for_y : bool) (b : OBin) : Z :=
  if swap_for_y then amount_y b else amount_x b.

(** What a swap of that direction can take out of the bin. *)
Definition avail (swap_for_y on : bool) (b : OBin) : Z :=
  mm_of swap_for_y b + (if on && orders_match b swap_for_y then order_amount b else 0).

(** The tokens of that side the bin owes: its market-maker amount and its orders that sell it. *)
Definition held (swap_for_y : bool) (b : OBin) : Z :=
  mm_of swap_for_y b + (if orders_match b swap_for_y then order_amount b else 0).

Definition reserve (swap_for_y : bool) (s : OState) : Z :=
  if swap_for_y then reserve_y s else reserve_x s.

Fixpoint total (f : OBin -> Z) (bs : list OBin) : Z :=
  match bs with
  | [] => 0
  | b :: bs' => f b + total f bs'
  end.

(** * One bin *)

Lemma layer_amounts b swap_for_y :
  mm_amount (__dict__ b) swap_for_y = Ret (mm_of swap_for_y b) /\
  limit_order_amounts_by_direction (__dict__ b) swap_for_y =
    (if orders_match b swap_for_y then (open_order_amount b, processed_order_remaining_amount b)
     else (0, 0)).
Proof.
  split; [by destruct swap_for_y|].
  unfold limit_order_amounts_by_direction, orders_match.
  change (get0 (__dict__ b) "limit_order_ask_side") with (limit_order_ask_side b).
  change (get0 (__dict__ b) "open_order_amount") with (open_order_amount b).
  change (get0 (__dict__ b) "processed_order_remaining_amount")
    with (processed_order_remaining_amount b).
  by destruct swap_for_y, (limit_order_ask_side b =? 0).
Qed.

Lemma fill_against_q1 m amount d :
  0 <= m -> 0 <= amount ->
  _fill_against m amount Q1 d = Ret (Z.min amount m, amount - Z.min amount m, Z.min amount m).
Proof.
  intros Hm Ha. unfold _fill_against, _amount_in, _amount_out. rewrite Z.eqb_refl. cbn [py_bind].
  destruct (Z.eqb_spec m 0) as [->|]; [by rewrite Z.min_r, Z.sub_0_r by lia|].
  destruct (Z.leb_spec m amount); [by rewrite Z.min_r by lia|].
  rewrite Z.min_l by lia. by rewrite Z.sub_diag.
Qed.

(** The whole result of fill_bin at the fixture price. *)
Lemma fill_bin_q1 b amount d on :
  wf_bin b -> 0 <= amount ->
  let ords := on && orders_match b d in
  let p := if ords then processed_order_remaining_amount b else 0 in
  let o := if ords then open_order_amount b else 0 in
  let t1 := Z.min amount (mm_of d b) in
  let t2 := Z.min (amount - t1) p in
  let t3 := Z.min (amount - t1 - t2) o in
  fill_bin b amount d on =
  Ret (MkFill t1 t1 t2 t2 t3 t3 (t1 + t2 + t3) (amount - t1 - t2 - t3) (t1 + t2 + t3)).
Proof.
  intros (Hx & Hy & Hp & Ho & Hq) Ha ords p o t1 t2 t3. destruct (layer_amounts b d) as [Em El].
  assert (Hm : 0 <= mm_of d b) by (by destruct d).
  unfold fill_bin, fill_mm, fill_processed_order, fill_open_orders. rewrite Em. cbn [py_bind].
  rewrite Hq, fill_against_q1 by done. cbn [py_bind]. rewrite El.
  assert (0 <= p /\ 0 <= o) as [Hp' Ho'] by (unfold p, o; destruct ords; lia).
  destruct on; cbn [negb].
  - assert (E : (if orders_match b d then (open_order_amount b, processed_order_remaining_amount b)
                 else (0, 0)) = (o, p)) by (unfold o, p, ords; by destruct (orders_match b d)).
    rewrite E, (fill_against_q1 p) by lia. cbn [py_bind].
    by rewrite (fill_against_q1 o) by lia.
  - rewrite (fill_against_q1 0) by lia. cbn [py_bind]. by rewrite (fill_against_q1 0) by lia.
Qed.

(** At the fixture price fill_bin, which walks the layers by input, takes from each layer what
    the reference fill_layers takes by output, for every bin with nonnegative amounts, direction,
    gate and amount: never more than the bin offers, all of it when the amount suffices, and what
    is used and what is left add up to the amount. *)
Theorem fill_bin_refines_layers b amount d on :
  wf_bin b -> 0 <= amount ->
  exists f l, fill_bin b amount d on = Ret f /\ fill_layers (__dict__ b) amount d on = Ret l /\
    mm_out f = l_mm l /\ proc_out f = l_processed l /\ open_out f = l_open l /\
    left f = l_unfilled l /\
    available_output (__dict__ b) d on = Ret (avail d on b) /\
    out_amt f = Z.min amount (avail d on b) /\ used_in f = out_amt f /\ used_in f + left f = amount.
Proof.
  intros Hw Ha. pose proof (fill_bin_q1 b amount d on Hw Ha) as Hf. cbv zeta in Hf.
  destruct (layer_amounts b d) as [Em El]. destruct Hw as (Hx & Hy & Hp & Ho & Hq).
  assert (Hm : 0 <= mm_of d b) by (by destruct d).
  unfold fill_layers, available_output, avail, order_amount. rewrite Em, El. cbn [py_bind].
  destruct (Z.ltb_spec 0 (amount - Z.min amount (mm_of d b)));
    destruct on, (orders_match b d); cbn [andb negb] in *;
    eexists _, _; (split; [exact Hf|]); (split; [reflexivity|]);
    cbn [mm_out proc_out open_out left out_amt used_in l_mm l_processed l_open l_unfilled];
    repeat split; try (f_equal; lia); lia.
Qed.

Lemma fill_bin_refines_layers_witness :
  exists f l, fill_bin (MkOBin 0 0 20 10 30 0 0 0 Q1) 35 true true = Ret f /\
    fill_layers (__dict__ (MkOBin 0 0 20 10 30 0 0 0 Q1)) 35 true true = Ret l /\ open_out f = l_open l.
Proof.
  destruct (fill_bin_refines_layers (MkOBin 0 0 20 10 30 0 0 0 Q1) 35 true true)
    as (f & l & Hf & Hl & _ & _ & Ho & _).
  - unfold wf_bin; cbn; lia.
  - lia.
  - exists f, l. split; [exact Hf|]. split; [exact Hl|exact Ho].
Defined.

(** * One turn of the loop *)

Lemma find_bin_Some bs j i b : find_bin bs j = Some (i, b) -> bs !! i = Some b /\ id b = j.
Proof.
  revert i. induction bs as [|b0 bs IH]; intros i; cbn [find_bin]; [done|].
  destruct (Z.eqb_spec (id b0) j) as [Hj|Hj]; [by intros [= <- <-]|].
  destruct (find_bin bs j) as [[i' b']|] eqn:E; [|done]. intros [= <- <-]. by apply IH.
Qed.

Lemma find_bin_insert_ne bs i b b' j :
  bs !! i = Some b -> id b' = id b -> j <> id b ->
  snd <$> find_bin (<[i := b']> bs) j = snd <$> find_bin bs j.
Proof.
  revert i. induction bs as [|b0 bs IH]; intros i Hi Hid Hj; [done|].
  destruct i as [|i]; cbn [lookup list_lookup] in Hi.
  - injection Hi as ->. cbn [insert list_insert find_bin]. rewrite Hid.
    by destruct (Z.eqb_spec (id b) j); [lia|].
  - change (<[S i := b']> (b0 :: bs)) with (b0 :: <[i := b']> bs). cbn [find_bin].
    destruct (id b0 =? j); [done|]. specialize (IH i Hi Hid Hj).
    by destruct (find_bin (<[i := b']> bs) j) as [[? ?]|], (find_bin bs j) as [[? ?]|].
Qed.

Lemma total_insert f bs i b b' :
  bs !! i = Some b -> total f (<[i := b']> bs) = total f bs - f b + f b'.
Proof.
  revert i. induction bs as [|b0 bs IH]; intros [|i] Hi; [done|done| |];
    cbn [lookup list_lookup] in Hi.
  - injection Hi as ->. cbn [insert list_insert total]. lia.
  - change (<[S i := b']> (b0 :: bs)) with (b0 :: <[i := b']> bs). cbn [total].
    rewrite (IH i Hi). lia.
Qed.

(** Applying the fill of a bin: it never raises, takes what was offered out of the bin and the
    reserve, and pays the input into the other reserve. *)
Lemma apply_fill_q1 i b s amount d on f :
  wf_bin b -> 0 <= amount -> fill_bin b amount d on = Ret f ->
  exists b' s', apply_fill i b s d f = Ret s' /\ bins s' = <[i := b']> (bins s) /\
    active_id s' = active_id s /\ id b' = id b /\ wf_bin b' /\
    used_in f = Z.min amount (avail d on b) /\ out_amt f = used_in f /\
    held d b' = held d b - out_amt f /\
    held (negb d) b <= held (negb d) b' <= held (negb d) b + used_in f /\
    reserve d s' = reserve d s - out_amt f /\
    reserve (negb d) s' = reserve (negb d) s + used_in f.
Proof.
  intros Hw Ha Hf. rewrite (fill_bin_q1 b amount d on Hw Ha) in Hf. injection Hf as <-.
  destruct Hw as (Hx & Hy & Hp & Ho & Hq).
  unfold apply_fill, held, avail, order_amount, orders_match, reserve, mm_of, wf_bin.
  destruct b as [bid x y pr op tp age ask pc], s as [act st ss ft rm rx ry bs]. cbn in *.
  destruct d, on, (Z.eqb_spec ask 0); cbn in *;
  match goal with |- context [?a <? ?c] => destruct (Z.ltb_spec a c); [lia|] end; cbn;
  match goal with |- context [(?a <? ?c) || (?e <? ?g)] =>
    destruct (Z.ltb_spec a c); [lia|]; destruct (Z.ltb_spec e g); [lia|] end; cbn;
  eexists _, _; (split; [reflexivity|]); cbn; (split; [reflexivity|]); repeat split;
    try reflexivity; try assumption; try lia;
  cbn; destruct (Z.eqb_spec ask 0); try contradiction; cbn; lia.
Qed.

(** * The whole swap against a walk over what the bins offer *)

Inductive walk_end := Filled (active : Z) | MissingBin | Unfilled.

Definition next_id (swap_for_y : bool) (i : Z) : Z := if swap_for_y then i - 1 else i + 1.

(** From bin [i] on, over the bins as they are before the swap: the walk ends in the first bin
    that offers what is still missing, at the first id without a bin, or after [n] bins. *)
Fixpoint walk (n : nat) (bs : list OBin) (d on : bool) (i missing : Z) : walk_end :=
  match n with
  | O => Unfilled
  | S n' =>
      match snd <$> find_bin bs i with
      | None => MissingBin
      | Some b =>
          if missing <=? avail d on b then Filled i
          else walk n' bs d on (next_id d i) (missing - avail d on b)
      end
  end.

(** [i] has been passed when the walk is at [j]. *)
Definition passed (d : bool) (i j : Z) : Prop := if d then j < i else i < j.

Lemma passed_next d i j : passed d i j -> passed d i (next_id d j).
Proof. destruct d; cbn; lia. Qed.

(** Changing a bin the walk has passed does not change where it ends. *)
Lemma walk_insert n bs d on i b b' j missing :
  bs !! i = Some b -> id b' = id b -> passed d (id b) j ->
  walk n (<[i := b']> bs) d on j missing = walk n bs d on j missing.
Proof.
  intros Hi Hid. revert j missing. induction n as [|n IH]; intros j missing Hj; [done|].
  cbn [walk]. rewrite (find_bin_insert_ne bs i b b' j) by (try done; destruct d; cbn in Hj; lia).
  destruct (snd <$> find_bin bs j); [|done]. case_match; [done|]. apply IH. by apply passed_next.
Qed.

(** What a filled swap of [amount] does to the state: the output reserve pays the amount, the
    input reserve receives it, the bins owe that much less of the output token and at most that
    much more of the input token, and every bin stays well formed. *)
Definition settled (d : bool) (amount : Z) (s s' : OState) : Prop :=
  reserve d s' = reserve d s - amount /\
  reserve (negb d) s' = reserve (negb d) s + amount /\
  total (held d) (bins s') = total (held d) (bins s) - amount /\
  total (held (negb d)) (bins s) <= total (held (negb d)) (bins s')
    <= total (held (negb d)) (bins s) + amount /\
  Forall wf_bin (bins s').

Lemma avail_nonneg d on b : wf_bin b -> 0 <= avail d on b.
Proof.
  intros (Hx & Hy & Hp & Ho & _). unfold avail, order_amount, mm_of.
  destruct d, on, (orders_match b _); cbn; lia.
Qed.

Lemma swap_loop_walk n s missing acc d on :
  Forall wf_bin (bins s) -> 0 < missing ->
  match walk n (bins s) d on (active_id s) missing with
  | Filled i => exists s', swap_loop n s missing acc d on = Ret (s', 0, acc + missing) /\
      active_id s' = i /\ settled d missing s s'
  | MissingBin => swap_loop n s missing acc d on = Raise (ValueError "missing bin")
  | Unfilled => exists s' left out, swap_loop n s missing acc d on = Ret (s', left, out) /\ 0 < left
  end.
Proof.
  revert s missing acc. induction n as [|n IH]; intros s missing acc Hw Hm.
  { cbn. rewrite (proj2 (Z.ltb_lt _ _) Hm). by eexists _, _, _. }
  cbn [walk swap_loop]. rewrite (proj2 (Z.ltb_lt _ _) Hm). unfold _find.
  destruct (find_bin (bins s) (active_id s)) as [[i b]|] eqn:Ef; cbn [fmap option_fmap option_map snd];
    [|done].
  destruct (find_bin_Some _ _ _ _ Ef) as [Hi Hid].
  assert (Hb : wf_bin b) by (eapply Forall_lookup_1; [exact Hw|exact Hi]).
  pose proof (avail_nonneg d on b Hb) as Hav.
  pose proof (fill_bin_q1 b missing d on Hb ltac:(lia)) as Hf. cbv zeta in Hf.
  rewrite Hf. set (f := MkFill _ _ _ _ _ _ _ _ _) in *. cbn [py_bind].
  destruct (apply_fill_q1 i b s missing d on f Hb ltac:(lia) Hf)
    as (b' & s1 & Ha & Hbs & Hact & Hid' & Hwb & Hu & Ho & Hh & Hh' & Hr & Hr').
  clearbody f. rewrite Ha, Ho, Hu. cbn [py_bind].
  assert (Hnext : active_id (step_active d s1) = next_id d (active_id s)).
  { rewrite <- Hact. by destruct s1, d. }
  destruct (Z.leb_spec missing (avail d on b)) as [Hle|Hgt].
  - rewrite Z.min_l by lia. destruct (Z.eqb_spec missing 0); [lia|]. cbn [andb].
    replace (missing - missing) with 0 by lia. change (0 <? 0) with false. cbv iota.
    exists s1. split; [by destruct n|]. split; [done|].
    unfold settled. rewrite Hbs, !(total_insert _ _ _ _ _ Hi).
    rewrite Z.min_l in Hu by lia.
    repeat split; try lia. by apply Forall_insert.
  - rewrite Z.min_r by lia. destruct (Z.eqb_spec (avail d on b) 0) as [Hz|Hz]; cbn [andb].
    + rewrite Hz, Z.sub_0_r. specialize (IH (step_active d s) missing acc Hw Hm).
      assert (E : active_id (step_active d s) = next_id d (active_id s)) by by destruct d.
      rewrite E in IH. exact IH.
    + rewrite (proj2 (Z.ltb_lt 0 (missing - avail d on b)) ltac:(lia)). cbv iota.
      specialize (IH (step_active d s1) (missing - avail d on b) (acc + avail d on b)).
      rewrite Hnext in IH. change (bins (step_active d s1)) with (bins s1) in IH.
      rewrite Hbs, (walk_insert _ _ _ _ _ b) in IH
        by (try done; rewrite Hid; destruct d; cbn; lia).
      specialize (IH (Forall_insert _ _ _ _ Hw Hwb) ltac:(lia)).
      destruct (walk n _ _ _ _ _); [|exact IH|exact IH].
      destruct IH as (s' & Hs' & Hac & H1 & H2 & H3 & H4 & H5). exists s'.
      split; [rewrite Hs'; do 2 f_equal; lia|]. split; [done|].
      change (reserve ?x (step_active d s1)) with (reserve x s1) in *.
      change (bins (step_active d s1)) with (bins s1) in *.
      rewrite Hbs, (total_insert _ _ _ _ _ Hi) in H3. rewrite Hbs, !(total_insert _ _ _ _ _ Hi) in H4.
      rewrite Z.min_r in Hu by lia.
      unfold settled. repeat split; try lia. done.
Qed.

(** For every state whose bins are at the fixture price with nonnegative amounts, and every
    positive amount, apply_swap is decided by the walk over the bins as they were before the swap,
    256 bins long: it returns exactly when some bin of the walk offers what the earlier ones left
    missing, and then gives out the amount, ends at that bin and settles the reserves against the
    inventory; otherwise it raises "missing bin" at the first gap or "unfilled" after 256 bins,
    and never "mm x", "mm y" or "order inventory". *)
Theorem apply_swap_outcome s amount d :
  Forall wf_bin (bins s) -> 0 < amount ->
  match walk 256 (bins s) d (orders_enabled s) (active_id s) amount with
  | Filled i => exists s', apply_swap s amount d = Ret (s', Quote amount amount i) /\
      active_id s' = i /\ settled d amount s s'
  | MissingBin => apply_swap s amount d = Raise (ValueError "missing bin")
  | Unfilled => apply_swap s amount d = Raise (ValueError "unfilled")
  end.
Proof.
  intros Hw Ha. unfold apply_swap.
  pose proof (swap_loop_walk 256 s amount 0 d (orders_enabled s) Hw Ha) as H.
  destruct (walk _ _ _ _ _ _) as [i| |].
  - destruct H as (s' & -> & Hact & Hs). exists s'. cbn [py_bind Z.ltb Z.compare]. by subst.
  - by rewrite H.
  - destruct H as (s' & l & o & -> & Hl). cbn [py_bind]. by rewrite (proj2 (Z.ltb_lt _ _) Hl).
Qed.

Definition demo_pair : OState :=
  MkOState 0 1 0 FN_LIMIT_ORDER 0 0 100
    [MkOBin 0 0 20 10 30 0 0 0 Q1; MkOBin (-1) 0 40 0 0 0 0 0 Q1].

Lemma apply_swap_outcome_witness :
  exists s', apply_swap demo_pair 75 true = Ret (s', Quote 75 75 (-1)) /\
    settled true 75 demo_pair s'.
Proof.
  pose proof (apply_swap_outcome demo_pair 75 true) as H.
  assert (E : walk 256 (bins demo_pair) true (orders_enabled demo_pair) (active_id demo_pair) 75
              = Filled (-1)) by (vm_compute; reflexivity).
  rewrite E in H. destruct H as (s' & Hs & _ & Hset).
  - repeat constructor; cbn; lia.
  - lia.
  - exists s'. split; [exact Hs|exact Hset].
Defined.
