(* ===== verification/FrameV1.v ===== *)
(** Transaction framing: arb-cap/frame_v1/parse.py, the reference parser of legacy, v0 and v1
    transactions and the classification of their instructions.

    A parse is [Ok], [Need why] (klass "incomplete"), [Bad why] (klass "invalid") or [Exn], the
    exception a subscript out of range would raise; that it never happens is a theorem. *)
From stdpp Require Import base list strings.
From Stdlib Require Import ZArith Lia.
From S2P Require Import Prelude PyBytes.
Open Scope Z_scope.

Definition TX_SIG_MAX : Z := 12.
Definition TX_KEY_MAX : Z := 64.
Definition TX_INSTR_MAX : Z := 64.
Definition TX_V1_PREFIX : Z := 129.
Definition TX_V1_MAX : Z := 4096.
Definition TX_V1_CFG_KNOWN : Z := 31.
Definition TX_V1_HDR : Z := 42.

Definition PROG_DLMM : bytes :=
  [4; 233; 225; 47; 188; 132; 232; 38; 201; 50; 204; 233; 226; 100; 12; 206;
   21; 89; 12; 28; 98; 115; 176; 146; 87; 8; 186; 59; 133; 32; 176; 188].
Definition PROG_PUMP : bytes :=
  [12; 20; 222; 252; 130; 94; 198; 118; 148; 37; 8; 24; 187; 101; 64; 101;
   244; 41; 141; 49; 86; 213; 113; 180; 212; 248; 9; 12; 24; 233; 168; 99].
Definition DLMM_SWAP2 : bytes := [65; 75; 63; 76; 235; 91; 91; 136].
Definition DLMM_SWAP1 : bytes := [248; 198; 158; 145; 225; 117; 135; 200].
Definition PUMP_SELL : bytes := [51; 230; 133; 164; 1; 127; 131; 173].
Definition PUMP_BUY_EQ : bytes := [198; 46; 21; 82; 180; 217; 232; 112].
Definition PUMP_BUY : bytes := [102; 6; 61; 18; 1; 218; 235; 234].
Definition EXACT : list bytes := [DLMM_SWAP2; DLMM_SWAP1; PUMP_SELL; PUMP_BUY_EQ].

(** * Results *)

Inductive parsed (A : Type) :=
  | Ok (a : A)
  | Need (why : string)
  | Bad (why : string)
  | Exn (e : pyexn).
Arguments Ok {A} a.
Arguments Need {A} why.
Arguments Bad {A} why.
Arguments Exn {A} e.

Definition pbind {A B} (m : parsed A) (f : A -> parsed B) : parsed B :=
  match m with
  | Ok a => f a
  | Need w => Need w
  | Bad w => Bad w
  | Exn e => Exn e
  end.

Declare Scope parse_scope.
Notation "x <-? m ;; k" := (pbind m (fun x => k))
  (at level 100, m at next level, right associativity) : parse_scope.
Open Scope parse_scope.

(** [p[i]] *)
Definition at_ (p : bytes) (i : Z) : parsed Z :=
  match p !! Z.to_nat i with
  | Some b => Ok b
  | None => Exn IndexError
  end.

(** * Compact u16 *)

Inductive cures := CNone | CBad | CVal (v off : Z).

Definition cu16 (b : bytes) (off : Z) : parsed cures :=
  if blen b <=? off then Ok CNone else
  b0 <-? at_ b off ;;
  if Z.land b0 128 =? 0 then Ok (CVal b0 (off + 1)) else
  if blen b <=? off + 1 then Ok CNone else
  b1 <-? at_ b (off + 1) ;;
  if Z.land b1 128 =? 0 then
    if b1 =? 0 then Ok CBad
    else Ok (CVal (Z.lor (Z.land b0 127) (Z.shiftl b1 7)) (off + 2))
  else
  if blen b <=? off + 2 then Ok CNone else
  b2 <-? at_ b (off + 2) ;;
  if negb (Z.land b2 252 =? 0) || (b2 =? 0) then Ok CBad else
  Ok (CVal (Z.lor (Z.lor (Z.land b0 127) (Z.shiftl (Z.land b1 127) 7)) (Z.shiftl b2 14)) (off + 3)).

(** [got = cu16(p, off)] followed by the two returns on [None] and on ["bad"]. *)
Definition get_cu16 (p : bytes) (off : Z) (need bad : string) : parsed (Z * Z) :=
  got <-? cu16 p off ;;
  match got with
  | CNone => Need need
  | CBad => Bad bad
  | CVal v off' => Ok (v, off')
  end.

Definition header_ok (nsig ro_s ro_u nkeys : Z) : bool :=
  if (nsig <? 1) || (TX_SIG_MAX <? nsig) then false else
  if nsig <=? ro_s then false else
  if (nkeys <? nsig) || (TX_KEY_MAX <? nkeys) then false else
  if nkeys <? nsig + ro_u then false else
  true.

(** * The framed transaction *)

Record instr := Ix { ix_prog : Z; ix_acc : list Z; ix_data : bytes }.

Record frame := Frame {
  f_ver : string; f_nsig : Z; f_nkeys : Z; f_ninstr : Z; f_keys : list bytes;
  f_ixs : list instr; f_tx_end : Z; f_luts : bool; f_mask : option Z }.

(** [[p[off + i * 32: off + (i + 1) * 32] for i in range(n)]] *)
Definition key_list (p : bytes) (off n : Z) : list bytes :=
  (fun i => slice (off + Z.of_nat i * 32) (off + (Z.of_nat i + 1) * 32) p) <$> seq 0 (Z.to_nat n).

(** * Legacy and v0 *)

(** The signature count, the signatures and the version byte: (nsig, versioned, off), where
    [off] is behind the signature count of the message header. *)
Definition legacy_head (p : bytes) : parsed (Z * bool * Z) :=
  got <-? get_cu16 p 0 "truncated_nsig" "bad_nsig" ;;
  let '(nsig, off) := got in
  if (nsig <? 1) || (TX_SIG_MAX <? nsig) then Bad "nsig_range" else
  if blen p <? off + nsig * 64 then Need "truncated_sigs" else
  let off := off + nsig * 64 in
  if blen p <=? off then Need "truncated_hdr" else
  b0 <-? at_ p off ;;
  let off := off + 1 in
  if negb (Z.land b0 128 =? 0) then
    if negb (Z.land b0 127 =? 0) then Bad "bad_version" else
    if blen p <=? off then Bad "hdr_nsig" else
    b1 <-? at_ p off ;;
    if negb (b1 =? nsig) then Bad "hdr_nsig" else
    Ok (nsig, true, off + 1)
  else if negb (b0 =? nsig) then Bad "hdr_nsig" else
    Ok (nsig, false, off).

(** The loop over the instructions, [n] of them left. *)
Fixpoint ix_loop (n : nat) (p : bytes) (nkeys : Z) (versioned : bool) (off : Z) (ixs : list instr)
    : parsed (list instr * Z) :=
  match n with
  | O => Ok (ixs, off)
  | S n' =>
      if blen p <=? off then Need "truncated_ix" else
      prog <-? at_ p off ;;
      let off := off + 1 in
      if negb versioned && (nkeys <=? prog) then Bad "prog_idx" else
      got <-? get_cu16 p off "ix_acc" "ix_acc" ;;
      let '(nacct, off) := got in
      if blen p <? off + nacct then Need "truncated_acc" else
      let acc := slice off (off + nacct) p in
      let off := off + nacct in
      got <-? get_cu16 p off "ix_data" "ix_data" ;;
      let '(dlen, off) := got in
      if blen p <? off + dlen then Need "truncated_data" else
      let data := slice off (off + dlen) p in
      ix_loop n' p nkeys versioned (off + dlen) (ixs ++ [Ix prog acc data])
  end.

(** One of the two index vectors of a lookup table. *)
Definition skip_indexes (p : bytes) (off : Z) : parsed Z :=
  got <-? get_cu16 p off "alt_idx" "alt_idx" ;;
  let '(nw, off) := got in
  if blen p <? off + nw then Need "truncated_alt_idx" else
  Ok (off + nw).

Fixpoint lut_loop (n : nat) (p : bytes) (off : Z) : parsed Z :=
  match n with
  | O => Ok off
  | S n' =>
      if blen p <? off + 32 then Need "truncated_alt" else
      off <-? skip_indexes p (off + 32) ;;
      off <-? skip_indexes p off ;;
      lut_loop n' p off
  end.

Definition legacy_body (p : bytes) (start nsig : Z) (versioned : bool) (off : Z) : parsed frame :=
  if blen p <? off + 2 then Need "truncated_hdr" else
  ro_s <-? at_ p off ;;
  ro_u <-? at_ p (off + 1) ;;
  let off := off + 2 in
  got <-? get_cu16 p off "truncated_nkeys" "bad_nkeys" ;;
  let '(nkeys, off) := got in
  if negb (header_ok nsig ro_s ro_u nkeys) then Bad "header" else
  if blen p <? off + nkeys * 32 + 32 then Need "truncated_keys" else
  let keys := key_list p off nkeys in
  let off := off + nkeys * 32 + 32 in
  got <-? get_cu16 p off "truncated_ix" "bad_ix" ;;
  let '(ninstr, off) := got in
  if (ninstr =? 0) || (TX_INSTR_MAX <? ninstr) then Bad "ninstr" else
  r <-? ix_loop (Z.to_nat ninstr) p nkeys versioned off [] ;;
  let '(ixs, off) := r in
  off <-? (if versioned then
      got <-? get_cu16 p off "lut" "lut" ;;
      let '(nlut, off) := got in
      if 32 <? nlut then Bad "nlut" else lut_loop (Z.to_nat nlut) p off
    else Ok off) ;;
  Ok (Frame (if versioned then "v0" else "legacy") nsig nkeys ninstr keys ixs (start + off)
        versioned None).

Definition parse_legacy_v0 (raw : bytes) (start : Z) : parsed frame :=
  let p := drop (Z.to_nat start) raw in
  h <-? legacy_head p ;;
  let '(nsig, versioned, off) := h in
  legacy_body p start nsig versioned off.

(** * v1 *)

(** [bin(mask).count("1")] *)
Fixpoint pos_ones (q : positive) : Z :=
  match q with
  | xH => 1
  | xO q' => pos_ones q'
  | xI q' => 1 + pos_ones q'
  end.
Definition count_ones (z : Z) : Z :=
  match z with
  | Z0 => 0
  | Zpos q => pos_ones q
  | Zneg q => pos_ones q
  end.

(** The loop over the 4-byte instruction headers: the headers and the payload length. *)
Fixpoint v1_headers (n : nat) (p : bytes) (naddr off : Z) (headers : list (Z * Z * Z)) (pay : Z)
    : parsed (list (Z * Z * Z) * Z) :=
  match n with
  | O => Ok (headers, pay)
  | S n' =>
      prog <-? at_ p off ;;
      nacct <-? at_ p (off + 1) ;;
      d0 <-? at_ p (off + 2) ;;
      d1 <-? at_ p (off + 3) ;;
      let dlen := Z.lor d0 (Z.shiftl d1 8) in
      if naddr <=? prog then Bad "prog_idx" else
      v1_headers n' p naddr (off + 4) (headers ++ [(prog, nacct, dlen)]) (pay + (nacct + dlen))
  end.

Fixpoint v1_payload (headers : list (Z * Z * Z)) (p : bytes) (naddr cursor : Z) (ixs : list instr)
    : parsed (list instr * Z) :=
  match headers with
  | [] => Ok (ixs, cursor)
  | (prog, nacct, dlen) :: rest =>
      if blen p <? cursor + nacct + dlen then Need "truncated_payload" else
      let acc := slice cursor (cursor + nacct) p in
      if existsb (fun a => naddr <=? a) acc then Bad "acc_idx" else
      let data := slice (cursor + nacct) (cursor + nacct + dlen) p in
      v1_payload rest p naddr (cursor + (nacct + dlen)) (ixs ++ [Ix prog acc data])
  end.

Definition parse_v1 (p : bytes) (start : Z) : parsed frame :=
  if blen p <=? start then Need "truncated_prefix" else
  b <-? at_ p start ;;
  if negb (b =? TX_V1_PREFIX) then Bad "not_v1" else
  if blen p <? start + TX_V1_HDR then Need "truncated_hdr" else
  nsig <-? at_ p (start + 1) ;;
  ro_s <-? at_ p (start + 2) ;;
  ro_u <-? at_ p (start + 3) ;;
  let mask := le_dec (slice (start + 4) (start + 8) p) in
  if negb (Z.land mask (Z.lnot TX_V1_CFG_KNOWN) =? 0) then Bad "unknown_mask" else
  if (Z.land mask 3 =? 1) || (Z.land mask 3 =? 2) then Bad "partial_priority_fee" else
  ninstr <-? at_ p (start + 40) ;;
  naddr <-? at_ p (start + 41) ;;
  if (ninstr =? 0) || (TX_INSTR_MAX <? ninstr) then Bad "ninstr" else
  if negb (header_ok nsig ro_s ro_u naddr) then Bad "header" else
  let off := start + TX_V1_HDR in
  if blen p <? off + naddr * 32 then Need "truncated_keys" else
  let keys := key_list p off naddr in
  if negb (Z.of_nat (length (remove_dups keys)) =? naddr) then Bad "duplicate_address" else
  let off := off + naddr * 32 in
  let cfg_n := count_ones mask * 4 in
  if blen p <? off + cfg_n then Need "truncated_cfg" else
  let off := off + cfg_n in
  if blen p <? off + ninstr * 4 then Need "truncated_ixhdr" else
  r <-? v1_headers (Z.to_nat ninstr) p naddr off [] 0 ;;
  let '(headers, pay) := r in
  let off := off + ninstr * 4 in
  let proj := (off - start) + pay + nsig * 64 in
  if TX_V1_MAX <? proj then Bad "oversize" else
  if blen p <? off + pay then Need "truncated_payload" else
  r <-? v1_payload headers p naddr off [] ;;
  let '(ixs, off) := r in
  if blen p <? off + nsig * 64 then Need "truncated_sigs" else
  let off := off + nsig * 64 in
  Ok (Frame "v1" nsig naddr ninstr keys ixs off false (Some mask)).

Definition parse_any (raw : bytes) (start : Z) : parsed frame :=
  if (start <? blen raw) && bool_decide (raw !! Z.to_nat start = Some TX_V1_PREFIX)
  then parse_v1 raw start
  else parse_legacy_v0 raw start.

Definition wire_kind (raw : bytes) : parsed string :=
  match raw with
  | [] => Ok "empty"%string
  | b :: _ =>
      if b =? TX_V1_PREFIX then Ok "v1"%string else
      got <-? cu16 raw 0 ;;
      match got with
      | CNone | CBad => Ok "unknown"%string
      | CVal nsig off =>
          if (nsig <? 1) || (blen raw <=? off + nsig * 64) then Ok "unknown"%string else
          b0 <-? at_ raw (off + nsig * 64) ;;
          if b0 =? 128 then Ok "v0"%string else Ok "legacy"%string
      end
  end.

(** * Classification of a framed transaction's instructions *)

Inductive stage := TX_EXACT | IX_EXACT | UNKNOWN.

Record counts := Counts { n_exact : Z; n_unknown : Z; n_other : Z }.

(** [pk in (PROG_DLMM, PROG_PUMP)] *)
Definition is_dex (pk : bytes) : bool := bool_decide (pk = PROG_DLMM) || bool_decide (pk = PROG_PUMP).

Definition count_ix (keys : list bytes) (c : counts) (x : instr) : counts :=
  if Z.of_nat (length keys) <=? ix_prog x then Counts (n_exact c) (n_unknown c + 1) (n_other c) else
  match keys !! Z.to_nat (ix_prog x) with
  | None => c
  | Some pk =>
      let data := ix_data x in
      if is_dex pk then
        if (24 <=? blen data) && bool_decide (take 8 data ∈ EXACT)
        then Counts (n_exact c + 1) (n_unknown c) (n_other c)
        else if (8 <=? blen data) && bool_decide (take 8 data = PUMP_BUY)
        then Counts (n_exact c) (n_unknown c + 1) (n_other c)
        else Counts (n_exact c) (n_unknown c + 1) (n_other c)
      else Counts (n_exact c) (n_unknown c) (n_other c + 1)
  end.

(** The counters, the stage and [dex_static]. *)
Definition classify_ixs (keys : list bytes) (ixs : list instr) : counts * stage * bool :=
  let c := foldl (count_ix keys) (Counts 0 0 0) ixs in
  (c,
   if negb (n_exact c =? 0) && (n_unknown c =? 0) then TX_EXACT
   else if negb (n_exact c =? 0) then IX_EXACT
   else UNKNOWN,
   existsb is_dex keys).

(** * Reading a buffer and reading a longer one

    [stable Q r1 r2]: [r1], computed on a buffer, is never an exception; unless it is
    "incomplete", it is also the result [r2] on every longer buffer; and what it returns
    satisfies [Q]. *)

Definition stable {A} (Q : A -> Prop) (r1 r2 : parsed A) : Prop :=
  match r1 with
  | Ok a => r2 = Ok a /\ Q a
  | Need _ => True
  | Bad w => r2 = Bad w
  | Exn _ => False
  end.

(** [tight en n off r1 r2]: when [r2], on the longer buffer, returns a value that ends ([en]) at
    or after [off] and within the first [n] bytes, [r1], on those [n] bytes, returns it too. *)
Definition tight {A} (en : A -> Z) (n off : Z) (r1 r2 : parsed A) : Prop :=
  forall b, r2 = Ok b -> off <= en b /\ (en b <= n -> r1 = Ok b).

Lemma stable_bind {A B} (Q : A -> Prop) (R : B -> Prop) r1 r2 f g :
  stable Q r1 r2 -> (forall a, Q a -> stable R (f a) (g a)) -> stable R (pbind r1 f) (pbind r2 g).
Proof.
  intros H Hf. destruct r1; cbn in *; [|done|by subst|done].
  destruct H as [-> Hq]. cbn. by apply Hf.
Qed.

Lemma stable_need {A} (R : A -> Prop) (b1 b2 : bool) w k1 k2 :
  (b1 = false -> b2 = false /\ stable R k1 k2) ->
  stable R (if b1 then Need w else k1) (if b2 then Need w else k2).
Proof. destruct b1; [done|]. intros H. by destruct (H eq_refl) as [-> ?]. Qed.

Lemma stable_bad {A} (R : A -> Prop) (b : bool) w k1 k2 :
  (b = false -> stable R k1 k2) ->
  stable R (if b then Bad w else k1) (if b then Bad w else k2).
Proof. destruct b; [done|]. auto. Qed.

Lemma stable_weaken {A} (Q R : A -> Prop) r1 r2 :
  stable Q r1 r2 -> (forall a, Q a -> R a) -> stable R r1 r2.
Proof. destruct r1; cbn; naive_solver. Qed.

Lemma tight_bind {A B} (en1 : A -> Z) (en2 : B -> Z) n off r1 r2 f g :
  tight en1 n off r1 r2 ->
  (forall a, r2 = Ok a -> off <= en1 a -> tight en2 n (en1 a) (f a) (g a)) ->
  tight en2 n off (pbind r1 f) (pbind r2 g).
Proof.
  intros H Hf b Hb. destruct r2 as [a|w|w|e]; [|done..]. cbn in Hb.
  destruct (H a eq_refl) as [Ho Ha]. destruct (Hf a eq_refl Ho b Hb) as [Ho' Hb'].
  split; [lia|]. intros Hn. rewrite Ha by lia. cbn. by apply Hb'.
Qed.

Lemma tight_need {A} (en : A -> Z) n off (b1 b2 : bool) m w k1 k2 :
  off <= m -> (m <= n -> b1 = false) -> tight en n m k1 k2 ->
  tight en n off (if b1 then Need w else k1) (if b2 then Need w else k2).
Proof.
  intros Hm Hb H b Hk. destruct b2; [done|]. destruct (H b Hk) as [Ho He].
  split; [lia|]. intros Hn. rewrite Hb by lia. by apply He.
Qed.

Lemma tight_need' {A} (en : A -> Z) n off (b1 b2 : bool) m w k1 k2 :
  off <= m -> (m <= n -> b1 = false) -> (b2 = false -> tight en n m k1 k2) ->
  tight en n off (if b1 then Need w else k1) (if b2 then Need w else k2).
Proof.
  intros Hm Hb H. destruct b2; [intros ? ?; discriminate|]. by apply (tight_need _ _ _ _ false m); auto.
Qed.

Lemma tight_short {A} (en : A -> Z) n off (b1 b2 : bool) m w k1 k2 :
  off <= m -> (m <= n -> b1 = false) -> tight en n m k1 k2 ->
  tight en n off (if b1 then Bad w else k1) (if b2 then Bad w else k2).
Proof.
  intros Hm Hb H b Hk. destruct b2; [done|]. destruct (H b Hk) as [Ho He].
  split; [lia|]. intros Hn. rewrite Hb by lia. by apply He.
Qed.

Lemma tight_bad {A} (en : A -> Z) n off (b : bool) w k1 k2 :
  tight en n off k1 k2 -> tight en n off (if b then Bad w else k1) (if b then Bad w else k2).
Proof. by destruct b. Qed.

Lemma tight_ret {A} (en : A -> Z) n off a : off <= en a -> tight en n off (Ok a) (Ok a).
Proof. intros H b [= <-]. done. Qed.

Lemma tight_raise {A} (en : A -> Z) n off off' r1 r2 :
  tight en n off r1 r2 -> (forall b, r2 = Ok b -> off' <= en b) -> tight en n off' r1 r2.
Proof. intros H Hr b Hb. split; [by apply Hr|]. by apply H. Qed.

(** The left program may be changed where the buffers agree. *)
Lemma tight_change {A} (en : A -> Z) n off r1 r1' r2 :
  tight en n off r1' r2 -> (off <= n -> r1 = r1') -> tight en n off r1 r2.
Proof.
  intros H E b Hb. destruct (H b Hb) as [Ho Hr]. split; [done|]. intros Hn.
  rewrite E by lia. by apply Hr.
Qed.

Lemma tight_weaken {A} (en : A -> Z) n off off' r1 r2 :
  off <= off' -> tight en n off' r1 r2 -> tight en n off r1 r2.
Proof. intros Ho H b Hb. destruct (H b Hb). split; [lia|done]. Qed.

Section buffers.
Context (p e : bytes) (Hby : is_bytes (p ++ e)).

Lemma blen_ge : blen p <= blen (p ++ e).
Proof. rewrite blen_app. unfold blen. lia. Qed.

Lemma at_in i : 0 <= i < blen p -> exists b, at_ p i = Ok b /\ at_ (p ++ e) i = Ok b /\ is_byte b.
Proof.
  intros Hi. unfold at_, blen in *. destruct (lookup_lt_is_Some_2 p (Z.to_nat i)) as [b Hb]; [lia|].
  exists b. rewrite (lookup_app_l_Some _ _ _ _ Hb), Hb. split; [done|]. split; [done|].
  eapply Forall_lookup_1; [exact Hby|]. by apply lookup_app_l_Some.
Qed.

Lemma at_stable i : 0 <= i < blen p -> stable is_byte (at_ p i) (at_ (p ++ e) i).
Proof. intros Hi. destruct (at_in i Hi) as (b & -> & -> & Hb). done. Qed.

Lemma slice_app_in a b : 0 <= a -> b <= blen p -> slice a b (p ++ e) = slice a b p.
Proof.
  intros Ha Hb. unfold slice, blen in *.
  destruct (Z.le_gt_cases b a).
  { by replace (Z.to_nat (b - a)) with 0%nat by lia. }
  rewrite drop_app_le by lia. apply take_app_le. rewrite length_drop. lia.
Qed.

Lemma at_tight {A} (en : A -> Z) off i k1 k2 :
  0 <= i < off -> (forall x, is_byte x -> tight en (blen p) off (k1 x) (k2 x)) ->
  tight en (blen p) off (pbind (at_ p i) k1) (pbind (at_ (p ++ e) i) k2).
Proof.
  intros Hi H b Hb. destruct (at_ (p ++ e) i) as [x|w|w|ex] eqn:Ex; [|done..]. cbn in Hb.
  assert (Hx : is_byte x).
  { unfold at_ in Ex. destruct ((p ++ e) !! Z.to_nat i) eqn:El; [|done]. injection Ex as <-.
    eapply Forall_lookup_1; [exact Hby|exact El]. }
  destruct (H x Hx b Hb) as [Ho Hr]. split; [done|]. intros Hn.
  destruct (at_in i ltac:(lia)) as (y & -> & Hy & _). rewrite Ex in Hy. injection Hy as ->.
  cbn. by apply Hr.
Qed.

Lemma byte_land_bound b m : is_byte b -> 0 <= m -> 0 <= Z.land b m.
Proof. intros [? _] ?. by apply Z.land_nonneg; left. Qed.

Definition cu_post (off : Z) (r : Z * Z) : Prop := 0 <= r.1 /\ off < r.2 <= blen p.

Lemma get_cu16_stable off need bad :
  0 <= off -> stable (cu_post off) (get_cu16 p off need bad) (get_cu16 (p ++ e) off need bad).
Proof.
  intros Hoff. pose proof blen_ge. unfold get_cu16, cu16, cu_post.
  destruct (Z.leb_spec (blen p) off); [done|]. destruct (Z.leb_spec (blen (p ++ e)) off); [lia|].
  destruct (at_in off) as (b0 & -> & -> & Hb0); [lia|]. cbn [pbind].
  destruct (Z.land b0 128 =? 0); [split; [done|]; cbn; unfold is_byte in Hb0; lia|].
  destruct (Z.leb_spec (blen p) (off + 1)); [done|].
  destruct (Z.leb_spec (blen (p ++ e)) (off + 1)); [lia|].
  destruct (at_in (off + 1)) as (b1 & -> & -> & Hb1); [lia|]. cbn [pbind].
  pose proof (byte_land_bound b0 127 Hb0 ltac:(lia)).
  destruct (Z.land b1 128 =? 0).
  { destruct (b1 =? 0); [done|]. split; [done|]. cbn [fst snd]. split; [|lia].
    apply Z.lor_nonneg. split; [done|]. apply Z.shiftl_nonneg. unfold is_byte in Hb1. lia. }
  destruct (Z.leb_spec (blen p) (off + 2)); [done|].
  destruct (Z.leb_spec (blen (p ++ e)) (off + 2)); [lia|].
  destruct (at_in (off + 2)) as (b2 & -> & -> & Hb2); [lia|]. cbn [pbind].
  destruct (negb _ || _)%bool; [done|]. split; [done|]. cbn [fst snd]. split; [|lia].
  rewrite !Z.lor_nonneg, !Z.shiftl_nonneg. pose proof (byte_land_bound b1 127 Hb1 ltac:(lia)).
  unfold is_byte in Hb2. lia.
Qed.

Lemma get_cu16_tight off need bad :
  0 <= off -> tight snd (blen p) (off + 1) (get_cu16 p off need bad) (get_cu16 (p ++ e) off need bad).
Proof.
  intros Hoff [v o] Hq. pose proof blen_ge. unfold get_cu16, cu16 in *.
  destruct (Z.leb_spec (blen (p ++ e)) off); [done|].
  destruct (at_ (p ++ e) off) as [b0| | |] eqn:E0; [|done..]. cbn [pbind] in Hq.
  assert (E0' : off < blen p -> at_ p off = Ok b0).
  { intros. destruct (at_in off) as (b & Hb & Hb' & _); [lia|]. congruence. }
  destruct (Z.land b0 128 =? 0) eqn:Ez0.
  { injection Hq as -> <-. cbn [snd]. split; [lia|]. intros Hn.
    destruct (Z.leb_spec (blen p) off); [lia|]. rewrite E0' by lia. cbn [pbind]. by rewrite Ez0. }
  destruct (Z.leb_spec (blen (p ++ e)) (off + 1)); [done|].
  destruct (at_ (p ++ e) (off + 1)) as [b1| | |] eqn:E1; [|done..]. cbn [pbind] in Hq.
  assert (E1' : off + 1 < blen p -> at_ p (off + 1) = Ok b1).
  { intros. destruct (at_in (off + 1)) as (b & Hb & Hb' & _); [lia|]. congruence. }
  destruct (Z.land b1 128 =? 0) eqn:Ez1.
  { destruct (b1 =? 0) eqn:Ez; [done|]. injection Hq as <- <-. cbn [snd]. split; [lia|]. intros Hn.
    destruct (Z.leb_spec (blen p) off); [lia|]. rewrite E0' by lia. cbn [pbind]. rewrite Ez0.
    destruct (Z.leb_spec (blen p) (off + 1)); [lia|]. rewrite E1' by lia. cbn [pbind].
    by rewrite Ez1, Ez. }
  destruct (Z.leb_spec (blen (p ++ e)) (off + 2)); [done|].
  destruct (at_ (p ++ e) (off + 2)) as [b2| | |] eqn:E2; [|done..]. cbn [pbind] in Hq.
  assert (E2' : off + 2 < blen p -> at_ p (off + 2) = Ok b2).
  { intros. destruct (at_in (off + 2)) as (b & Hb & Hb' & _); [lia|]. congruence. }
  destruct (negb _ || _)%bool eqn:Ez2; [done|]. injection Hq as <- <-. cbn [snd]. split; [lia|].
  intros Hn.
  destruct (Z.leb_spec (blen p) off); [lia|]. rewrite E0' by lia. cbn [pbind]. rewrite Ez0.
  destruct (Z.leb_spec (blen p) (off + 1)); [lia|]. rewrite E1' by lia. cbn [pbind]. rewrite Ez1.
  destruct (Z.leb_spec (blen p) (off + 2)); [lia|]. rewrite E2' by lia. cbn [pbind]. by rewrite Ez2.
Qed.
End buffers.

Lemma get_cu16_post q off need bad r :
  is_bytes q -> 0 <= off -> get_cu16 q off need bad = Ok r -> 0 <= r.1 /\ off < r.2 <= blen q.
Proof.
  intros Hq Hoff Hr. pose proof (get_cu16_stable q [] ltac:(by rewrite app_nil_r) off need bad Hoff) as H.
  rewrite Hr in H. by destruct H.
Qed.

(** * The loops of the two parsers *)

Definition ix_in (p : bytes) (nkeys : Z) (versioned : bool) (x : instr) : Prop :=
  (versioned = false -> ix_prog x < nkeys) /\ 0 <= ix_prog x.

Section loops.
Context (p e : bytes) (Hby : is_bytes (p ++ e)).

Local Notation stb Q f := (stable Q (f p) (f (p ++ e))).

Lemma ix_loop_stable n nkeys v off ixs :
  0 <= off <= blen p ->
  stable (fun r => off <= r.2 <= blen p /\ exists more, r.1 = ixs ++ more /\ length more = n /\
                   Forall (ix_in p nkeys v) more)
    (ix_loop n p nkeys v off ixs) (ix_loop n (p ++ e) nkeys v off ixs).
Proof.
  pose proof (blen_ge p e) as Hge.
  revert off ixs. induction n as [|n IH]; intros off ixs Hoff; cbn [ix_loop].
  { split; [done|]. cbn [fst snd]. split; [lia|]. exists []. by rewrite app_nil_r. }
  apply stable_need. intros Hl. zb. split; [apply Z.leb_gt; lia|].
  eapply stable_bind; [apply at_stable; [done|lia]|]. intros prog Hprog. cbv beta zeta.
  apply stable_bad. intros Hpi.
  eapply stable_bind; [apply get_cu16_stable; [done|lia]|]. intros [na o1] [Hna Ho1]. cbn [fst snd] in *.
  apply stable_need. intros Hl1. zb. split; [apply Z.ltb_ge; lia|].
  eapply stable_bind; [apply get_cu16_stable; [done|lia]|]. intros [dl o2] [Hdl Ho2]. cbn [fst snd] in *.
  apply stable_need. intros Hl2. zb. split; [apply Z.ltb_ge; lia|].
  rewrite !slice_app_in by lia.
  eapply stable_weaken; [apply IH; lia|]. intros [ixs' o3] (Ho3 & more & Hm & Hlen & Hf).
  cbn [fst snd] in *. split; [lia|]. eexists (_ :: more). rewrite Hm, <- app_assoc.
  split; [reflexivity|]. split; [cbn; lia|]. constructor; [|done].
  split; cbn; [|by destruct Hprog]. intros ->. cbn [negb andb] in Hpi. lia.
Qed.

Lemma ix_loop_tight n nkeys v off ixs :
  0 <= off ->
  tight snd (blen p) off (ix_loop n p nkeys v off ixs) (ix_loop n (p ++ e) nkeys v off ixs).
Proof.
  revert off ixs. induction n as [|n IH]; intros off ixs Hoff; cbn [ix_loop].
  { by apply tight_ret. }
  apply tight_need with (m := off + 1); [lia|intros; apply Z.leb_gt; lia|].
  apply at_tight; [done|lia|]. intros prog Hprog. cbv beta zeta.
  apply tight_bad. eapply tight_bind.
  { eapply tight_weaken; [|by apply get_cu16_tight; [|lia]]. lia. }
  intros [na o1] Hc _. apply get_cu16_post in Hc as [Hna Ho1]; [|done|lia]. cbn [fst snd] in *.
  apply tight_need with (m := o1 + na); [lia|intros; apply Z.ltb_ge; lia|].
  eapply tight_bind.
  { eapply tight_weaken; [|by apply get_cu16_tight; [|lia]]. lia. }
  intros [dl o2] Hc _. apply get_cu16_post in Hc as [Hdl Ho2]; [|done|lia]. cbn [fst snd] in *.
  apply tight_need with (m := o2 + dl); [lia|intros; apply Z.ltb_ge; lia|].
  eapply tight_change; [apply IH; lia|]. intros Hn. by rewrite !slice_app_in by lia.
Qed.

Lemma skip_indexes_stable off :
  0 <= off -> stable (fun o => off <= o <= blen p) (skip_indexes p off) (skip_indexes (p ++ e) off).
Proof.
  intros Hoff. pose proof (blen_ge p e). unfold skip_indexes.
  eapply stable_bind; [apply get_cu16_stable; [done|lia]|]. intros [nw o] [Hnw Ho]. cbn [fst snd] in *.
  apply stable_need. intros Hl. zb. split; [apply Z.ltb_ge; lia|]. split; [done|lia].
Qed.

Lemma skip_indexes_tight off :
  0 <= off -> tight id (blen p) off (skip_indexes p off) (skip_indexes (p ++ e) off).
Proof.
  intros Hoff. unfold skip_indexes. eapply tight_bind.
  { eapply tight_weaken; [|by apply get_cu16_tight; [|lia]]. lia. }
  intros [nw o] Hc _. apply get_cu16_post in Hc as [Hnw Ho]; [|done|lia]. cbn [fst snd] in *.
  apply tight_need with (m := o + nw); [lia|intros; apply Z.ltb_ge; lia|].
  by apply tight_ret.
Qed.

Lemma lut_loop_stable n off :
  0 <= off <= blen p ->
  stable (fun o => off <= o <= blen p) (lut_loop n p off) (lut_loop n (p ++ e) off).
Proof.
  pose proof (blen_ge p e).
  revert off. induction n as [|n IH]; intros off Hoff; cbn [lut_loop]; [split; [done|lia]|].
  apply stable_need. intros Hl. zb. split; [apply Z.ltb_ge; lia|].
  eapply stable_bind; [apply skip_indexes_stable; lia|]. intros o1 Ho1. cbv beta in *.
  eapply stable_bind; [apply skip_indexes_stable; lia|]. intros o2 Ho2. cbv beta in *.
  eapply stable_weaken; [apply IH; lia|]. cbv beta. lia.
Qed.

Lemma lut_loop_tight n off :
  0 <= off -> tight id (blen p) off (lut_loop n p off) (lut_loop n (p ++ e) off).
Proof.
  revert off. induction n as [|n IH]; intros off Hoff; cbn [lut_loop]; [by apply tight_ret|].
  apply tight_need with (m := off + 32); [lia|intros; apply Z.ltb_ge; lia|].
  eapply tight_bind; [apply skip_indexes_tight; lia|]. intros o1 _ Ho1. cbv [id] in *.
  eapply tight_bind; [apply skip_indexes_tight; lia|]. intros o2 _ Ho2. cbv [id] in *.
  apply IH. lia.
Qed.

Definition hdr_ok (naddr : Z) (h : Z * Z * Z) : Prop :=
  0 <= h.1.1 < naddr /\ 0 <= h.1.2 /\ 0 <= h.2.

Definition payload_len (hs : list (Z * Z * Z)) : Z :=
  foldr (fun h s => h.1.2 + h.2 + s) 0 hs.

Lemma v1_headers_in n naddr off hs pay :
  0 <= off -> off + Z.of_nat n * 4 <= blen p ->
  stable (fun r => exists more, r.1 = hs ++ more /\ length more = n /\ Forall (hdr_ok naddr) more /\
                   r.2 = pay + payload_len more)
    (v1_headers n p naddr off hs pay) (v1_headers n (p ++ e) naddr off hs pay).
Proof.
  revert off hs pay. induction n as [|n IH]; intros off hs pay Hoff Hn; cbn [v1_headers].
  { split; [done|]. exists []. rewrite app_nil_r. cbn. repeat split; [constructor|lia]. }
  eapply stable_bind; [apply at_stable; [done|lia]|]. intros prog Hprog.
  eapply stable_bind; [apply at_stable; [done|lia]|]. intros na Hna.
  eapply stable_bind; [apply at_stable; [done|lia]|]. intros d0 Hd0.
  eapply stable_bind; [apply at_stable; [done|lia]|]. intros d1 Hd1. cbv beta zeta.
  apply stable_bad. intros Hp. zb.
  eapply stable_weaken; [apply IH; lia|]. intros [hs' pay'] (more & Hm & Hlen & Hf & Hpay).
  cbn [fst snd] in *. eexists (_ :: more). rewrite Hm, <- app_assoc. split; [reflexivity|].
  split; [cbn; lia|]. unfold is_byte in *. assert (0 <= Z.lor d0 (Z.shiftl d1 8)).
  { rewrite Z.lor_nonneg, Z.shiftl_nonneg. lia. }
  split; [constructor; [|done]; unfold hdr_ok; cbn; lia|]. cbn [payload_len foldr fst snd].
  unfold payload_len in Hpay. lia.
Qed.

Lemma v1_payload_stable hs naddr cursor ixs :
  Forall (hdr_ok naddr) hs -> 0 <= cursor <= blen p ->
  stable (fun r => r.2 = cursor + payload_len hs /\ r.2 <= blen p /\
            exists more, r.1 = ixs ++ more /\ length more = length hs /\
              Forall (fun x => 0 <= ix_prog x < naddr /\ Forall (fun a => a < naddr) (ix_acc x)) more)
    (v1_payload hs p naddr cursor ixs) (v1_payload hs (p ++ e) naddr cursor ixs).
Proof.
  pose proof (blen_ge p e) as Hge. intros Hf. revert cursor ixs.
  induction Hf as [|[[prog na] dl] hs (Hp & Hna & Hdl) Hf IH]; intros cursor ixs Hc; cbn [v1_payload].
  { split; [done|]. cbn. split; [lia|]. split; [lia|]. exists []. by rewrite app_nil_r. }
  cbn [fst snd] in *. apply stable_need. intros Hl. zb. split; [apply Z.ltb_ge; lia|]. cbv zeta.
  rewrite !slice_app_in by lia. apply stable_bad. intros Ha.
  eapply stable_weaken; [apply IH; lia|]. intros [ixs' c'] (Hc' & Hle & more & Hm & Hlen & Hfa).
  cbn [fst snd payload_len foldr] in *. fold (payload_len hs). split; [unfold payload_len in *; lia|].
  split; [done|]. eexists (_ :: more). rewrite Hm, <- app_assoc. split; [reflexivity|].
  split; [cbn; lia|]. constructor; [|done]. cbn. split; [done|].
  apply Forall_forall. intros a Hin. destruct (Z.lt_ge_cases a naddr) as [|Hge']; [done|].
  exfalso. assert (He : existsb (fun a => naddr <=? a) (slice cursor (cursor + na) p) = true).
  { apply existsb_exists. exists a. split; [by apply list_elem_of_In|]. by apply Z.leb_le. }
  congruence.
Qed.

Lemma v1_headers_tight n naddr off hs pay m :
  0 <= off -> off + Z.of_nat n * 4 <= m ->
  tight (fun _ => m) (blen p) m (v1_headers n p naddr off hs pay) (v1_headers n (p ++ e) naddr off hs pay).
Proof.
  revert off hs pay. induction n as [|n IH]; intros off hs pay Hoff Hm; cbn [v1_headers].
  { by apply tight_ret. }
  do 4 (apply at_tight; [done|lia|]; intros ? ?). cbv zeta. apply tight_bad. apply IH; lia.
Qed.

Lemma v1_payload_tight hs naddr cursor ixs :
  Forall (hdr_ok naddr) hs -> 0 <= cursor ->
  tight snd (blen p) cursor (v1_payload hs p naddr cursor ixs) (v1_payload hs (p ++ e) naddr cursor ixs).
Proof.
  intros Hf. revert cursor ixs.
  induction Hf as [|[[prog na] dl] hs (Hp & Hna & Hdl) Hf IH]; intros cursor ixs Hc; cbn [v1_payload].
  { by apply tight_ret. }
  cbn [fst snd] in *.
  apply tight_need with (m := cursor + na + dl); [lia|intros; apply Z.ltb_ge; lia|]. cbv zeta.
  set (k2 := if existsb _ (slice cursor (cursor + na) (p ++ e)) then _ else _).
  eapply tight_change; [|intros Hn; rewrite <- !(slice_app_in p e) by lia; reflexivity].
  apply tight_bad. replace (cursor + na + dl) with (cursor + (na + dl)) by lia. apply IH. lia.
Qed.

Lemma key_list_app off n :
  0 <= off -> 0 <= n -> off + n * 32 <= blen p -> key_list (p ++ e) off n = key_list p off n.
Proof.
  intros Ho Hn Hl. unfold key_list. apply list_fmap_ext. intros i x Hi.
  apply lookup_seq in Hi as [-> Hi]. apply slice_app_in; lia.
Qed.

Lemma key_list_ok off n :
  0 <= off -> 0 <= n -> off + n * 32 <= blen p ->
  Z.of_nat (length (key_list p off n)) = n /\ Forall (fun k => blen k = 32) (key_list p off n).
Proof.
  intros Ho Hn Hl. unfold key_list. split; [rewrite length_fmap, length_seq; lia|].
  apply Forall_fmap, Forall_forall. intros i Hi%elem_of_seq. cbn. unfold slice, blen in *.
  rewrite length_take, length_drop. lia.
Qed.
End loops.

Lemma v1_headers_post q n naddr off hs pay r :
  is_bytes q -> 0 <= off -> off + Z.of_nat n * 4 <= blen q ->
  v1_headers n q naddr off hs pay = Ok r ->
  exists more, r.1 = hs ++ more /\ Forall (hdr_ok naddr) more /\ r.2 = pay + payload_len more /\
    0 <= payload_len more.
Proof.
  intros Hq Ho Hn Hr.
  pose proof (v1_headers_in q [] ltac:(by rewrite app_nil_r) n naddr off hs pay Ho Hn) as H.
  rewrite Hr in H. destruct H as [_ (more & Hm & _ & Hf & Hp)]. exists more. do 3 (split; [done|]).
  clear -Hf. unfold payload_len. induction Hf as [|h hs (? & ? & ?) _ IH]; cbn; lia.
Qed.

Lemma v1_payload_end q hs naddr cursor ixs r :
  v1_payload hs q naddr cursor ixs = Ok r -> r.2 = cursor + payload_len hs.
Proof.
  revert cursor ixs. induction hs as [|[[prog na] dl] hs IH]; intros cursor ixs; cbn [v1_payload].
  - intros [= <-]. cbn. lia.
  - case_match; [done|]. cbv zeta. case_match; [done|]. intros Hr. apply IH in Hr. unfold payload_len in *. cbn in *. lia.
Qed.

Lemma header_ok_spec nsig ro_s ro_u nkeys :
  header_ok nsig ro_s ro_u nkeys = true ->
  1 <= nsig <= TX_SIG_MAX /\ ro_s < nsig /\ nsig + ro_u <= nkeys /\ nsig <= nkeys <= TX_KEY_MAX.
Proof. unfold header_ok. repeat (case_match; [done|]). intros _. zb. lia. Qed.

(** * The two parsers on a buffer and on a longer one *)

(** What every framed transaction satisfies, [n] being the length of the buffer. *)
Definition frame_ok (start n : Z) (f : frame) : Prop :=
  start < f_tx_end f <= n /\
  1 <= f_nsig f <= TX_SIG_MAX /\ f_nsig f <= f_nkeys f <= TX_KEY_MAX /\
  Z.of_nat (length (f_keys f)) = f_nkeys f /\ Forall (fun k => blen k = 32) (f_keys f) /\
  1 <= f_ninstr f <= TX_INSTR_MAX /\ Z.of_nat (length (f_ixs f)) = f_ninstr f /\
  (f_ver f <> "v0"%string -> Forall (fun x => 0 <= ix_prog x < f_nkeys f) (f_ixs f)) /\
  (f_ver f = "v1"%string ->
     Forall (fun x => Forall (fun a => a < f_nkeys f) (ix_acc x)) (f_ixs f) /\
     NoDup (f_keys f) /\ f_tx_end f - start <= TX_V1_MAX).

Lemma lor_ge a b : 0 <= a -> 0 <= b -> b <= Z.lor a b.
Proof.
  intros Ha Hb. apply Z.ldiff_le; [by apply Z.lor_nonneg|].
  apply Z.bits_inj'. intros n Hn. rewrite Z.ldiff_spec, Z.lor_spec, Z.bits_0.
  by destruct (Z.testbit a n), (Z.testbit b n).
Qed.

(** A compact u16 below 128 takes one byte. *)
Lemma get_cu16_small q off need bad v o :
  is_bytes q -> 0 <= off -> get_cu16 q off need bad = Ok (v, o) -> v < 128 -> o = off + 1.
Proof.
  intros Hq Hoff. unfold get_cu16, cu16.
  destruct (Z.leb_spec (blen q) off); [done|].
  destruct (at_in q [] ltac:(by rewrite app_nil_r) off) as (b0 & -> & _ & Hb0); [lia|]. cbn [pbind].
  destruct (Z.land b0 128 =? 0); [by intros [= -> <-]|].
  destruct (Z.leb_spec (blen q) (off + 1)); [done|].
  destruct (at_in q [] ltac:(by rewrite app_nil_r) (off + 1)) as (b1 & -> & _ & Hb1); [lia|]. cbn [pbind].
  pose proof (byte_land_bound b0 127 Hb0 ltac:(lia)). unfold is_byte in *.
  destruct (Z.land b1 128 =? 0).
  { destruct (Z.eqb_spec b1 0); [done|]. intros [= <- <-] Hv.
    pose proof (lor_ge (Z.land b0 127) (Z.shiftl b1 7)) as Hge.
    rewrite Z.shiftl_mul_pow2 in * by lia. lia. }
  destruct (Z.leb_spec (blen q) (off + 2)); [done|].
  destruct (at_in q [] ltac:(by rewrite app_nil_r) (off + 2)) as (b2 & -> & _ & Hb2); [lia|]. cbn [pbind].
  destruct (Z.eqb_spec b2 0); rewrite ?orb_true_r; [done|].
  destruct (negb _ || _)%bool; [done|]. intros [= <- <-] Hv.
  pose proof (byte_land_bound b1 127 Hb1 ltac:(lia)). unfold is_byte in *.
  pose proof (lor_ge (Z.lor (Z.land b0 127) (Z.shiftl (Z.land b1 127) 7)) (Z.shiftl b2 14)) as Hge.
  rewrite Z.lor_nonneg, !Z.shiftl_nonneg in Hge. rewrite (Z.shiftl_mul_pow2 b2) in * by lia. lia.
Qed.

Section parsers.
Context (p e : bytes) (Hby : is_bytes (p ++ e)).

Lemma legacy_body_stable start nsig v off :
  0 <= start -> 0 <= off <= blen p ->
  stable (frame_ok start (start + blen p)) (legacy_body p start nsig v off)
         (legacy_body (p ++ e) start nsig v off).
Proof.
  intros Hs Hoff. pose proof (blen_ge p e) as Hge. unfold legacy_body.
  apply stable_need. intros Hl. zb. split; [apply Z.ltb_ge; lia|].
  eapply stable_bind; [apply at_stable; [done|lia]|]. intros ro_s Hro.
  eapply stable_bind; [apply at_stable; [done|lia]|]. intros ro_u Hru. cbv beta zeta.
  eapply stable_bind; [apply get_cu16_stable; [done|lia]|]. intros [nk o1] [Hnk Ho1]. cbn [fst snd] in *.
  apply stable_bad. intros Hh. apply negb_false_iff, header_ok_spec in Hh.
  apply stable_need. intros Hl1. zb. split; [apply Z.ltb_ge; lia|]. cbv zeta.
  eapply stable_bind; [apply get_cu16_stable; [done|lia]|]. intros [ni o2] [Hni Ho2]. cbn [fst snd] in *.
  apply stable_bad. intros Hn. zb.
  eapply stable_bind; [apply ix_loop_stable; [done|lia]|]. intros [ixs o3] (Ho3 & more & Hm & Hlen & Hf).
  cbn [fst snd] in *. change ([] ++ more) with more in Hm. subst more.
  eapply (stable_bind (fun o => o3 <= o <= blen p)).
  { destruct v; [|split; [done|lia]].
    eapply stable_bind; [apply get_cu16_stable; [done|lia]|]. intros [nl o4] [Hnl Ho4]. cbn [fst snd] in *.
    apply stable_bad. intros _. eapply stable_weaken; [apply lut_loop_stable; [done|lia]|].
    cbv beta. lia. }
  intros o5 Ho5. rewrite key_list_app by lia. split; [done|].
  destruct (key_list_ok p o1 nk) as [Hk1 Hk2]; [lia..|].
  unfold frame_ok. cbn [f_tx_end f_nsig f_nkeys f_keys f_ninstr f_ixs f_ver].
  repeat split; try lia; try done.
  - intros Hv. destruct v; [done|]. eapply Forall_impl; [exact Hf|]. intros x [H1 H2]. split; auto.
  - by destruct v.
  - by destruct v.
  - by destruct v.
Qed.

Lemma legacy_body_tight start nsig v off :
  0 <= off ->
  tight (fun f => f_tx_end f - start) (blen p) off (legacy_body p start nsig v off)
         (legacy_body (p ++ e) start nsig v off).
Proof.
  intros Hoff. pose proof (blen_ge p e) as Hge. unfold legacy_body.
  apply tight_need with (m := off + 2); [lia|intros; apply Z.ltb_ge; lia|].
  do 2 (apply at_tight; [done|lia|]; intros ? ?). cbv zeta.
  eapply tight_bind.
  { eapply tight_weaken; [|by apply get_cu16_tight; [|lia]]. lia. }
  intros [nk o1] Hc _. apply get_cu16_post in Hc as [Hnk Ho1]; [|done|lia]. cbn [fst snd] in *.
  apply tight_bad.
  apply tight_need with (m := o1 + nk * 32 + 32); [lia|intros; apply Z.ltb_ge; lia|].
  eapply tight_bind.
  { eapply tight_weaken; [|by apply get_cu16_tight; [|lia]]. lia. }
  intros [ni o2] Hc _. apply get_cu16_post in Hc as [Hni Ho2]; [|done|lia]. cbn [fst snd] in *.
  apply tight_bad.
  eapply tight_bind; [apply ix_loop_tight; [done|lia]|]. intros [ixs o3] _ Ho3. cbn [snd] in *.
  eapply (tight_bind id).
  { destruct v; [|by apply tight_ret].
    eapply tight_bind.
    { eapply tight_weaken; [|by apply get_cu16_tight; [|lia]]. lia. }
    intros [nl o4] Hc _. apply get_cu16_post in Hc as [Hnl Ho4]; [|done|lia]. cbn [fst snd] in *.
    apply tight_bad. apply lut_loop_tight; [done|lia]. }
  intros o5 _ Ho5. cbv [id] in *.
  eapply tight_change; [apply tight_ret; cbn; lia|]. intros Hn. by rewrite key_list_app by lia.
Qed.

(** The head of a legacy or v0 transaction.  "hdr_nsig" is the one answer a longer buffer may
    change: the code gives it when the buffer ends right behind the version byte. *)
Lemma legacy_head_stable :
  match legacy_head p with
  | Ok r => legacy_head (p ++ e) = Ok r /\ 0 < r.2 <= blen p
  | Need _ => True
  | Bad w => legacy_head (p ++ e) = Bad w \/
      (w = "hdr_nsig"%string /\ exists n, 1 <= n /\ blen p = 2 + 64 * n /\
         forall r, legacy_head (p ++ e) = Ok r -> r.1 = (n, true))
  | Exn _ => False
  end.
Proof.
  unfold legacy_head. pose proof (blen_ge p e) as Hge.
  pose proof (get_cu16_stable p e Hby 0 "truncated_nsig" "bad_nsig" ltac:(lia)) as Hc.
  destruct (get_cu16 p 0 _ _) as [[nsig off]|w|w|ex] eqn:Ec; cbn [stable] in Hc; [|done|by left; rewrite Hc|done].
  destruct Hc as [Hc [Hns Ho]]. rewrite Hc. cbn [pbind fst snd] in *. unfold TX_SIG_MAX.
  destruct (Z.ltb_spec nsig 1); [by left|]. destruct (Z.ltb_spec 12 nsig); [by left|]. cbn [orb].
  assert (off = 1) as -> by (eapply (get_cu16_small p 0); [apply is_bytes_app in Hby; apply Hby|lia|exact Ec|lia]).
  destruct (Z.ltb_spec (blen p) (1 + nsig * 64)); [done|].
  destruct (Z.ltb_spec (blen (p ++ e)) (1 + nsig * 64)); [lia|].
  destruct (Z.leb_spec (blen p) (1 + nsig * 64)); [done|].
  destruct (Z.leb_spec (blen (p ++ e)) (1 + nsig * 64)); [lia|].
  destruct (at_in p e Hby (1 + nsig * 64)) as (b0 & -> & -> & Hb0); [lia|]. cbn [pbind].
  destruct (negb (Z.land b0 128 =? 0)).
  - destruct (negb (Z.land b0 127 =? 0)); [by left|].
    destruct (Z.leb_spec (blen p) (1 + nsig * 64 + 1)).
    + right. split; [done|]. exists nsig. split; [done|]. split; [lia|]. intros r.
      destruct (blen (p ++ e) <=? 1 + nsig * 64 + 1); [done|].
      destruct (at_ (p ++ e) (1 + nsig * 64 + 1)); cbn [pbind]; [|done..].
      destruct (negb (a =? nsig)); [done|]. by intros [= <-].
    + destruct (Z.leb_spec (blen (p ++ e)) (1 + nsig * 64 + 1)); [lia|].
      destruct (at_in p e Hby (1 + nsig * 64 + 1)) as (b1 & -> & -> & Hb1); [lia|]. cbn [pbind].
      destruct (negb (b1 =? nsig)); [by left|]. split; [done|]. cbn. lia.
  - destruct (negb (b0 =? nsig)); [by left|]. split; [done|]. cbn. lia.
Qed.

Lemma legacy_head_tight : tight snd (blen p) 0 (legacy_head p) (legacy_head (p ++ e)).
Proof.
  unfold legacy_head. eapply tight_bind.
  { eapply tight_weaken; [|by apply get_cu16_tight; [|lia]]. lia. }
  intros [ns off] Hc _. apply get_cu16_post in Hc as [Hns Ho]; [|done|lia]. cbn [fst snd] in *.
  apply tight_bad.
  apply tight_need with (m := off + ns * 64); [lia|intros; apply Z.ltb_ge; lia|].
  apply tight_need with (m := off + ns * 64 + 1); [lia|intros; apply Z.leb_gt; lia|].
  apply at_tight; [done|lia|]. intros b0 _. cbv zeta. destruct (negb (Z.land b0 128 =? 0)).
  - apply tight_bad.
    apply tight_short with (m := off + ns * 64 + 2); [lia|intros; apply Z.leb_gt; lia|].
    apply at_tight; [done|lia|]. intros b1 _. apply tight_bad. apply tight_ret. cbn. lia.
  - apply tight_bad. apply tight_ret. cbn. lia.
Qed.

Lemma count_ones_nonneg z : 0 <= count_ones z.
Proof. assert (H : forall q, 0 <= pos_ones q) by (induction q; cbn; lia). destruct z; cbn; auto; lia. Qed.

Lemma remove_dups_NoDup (ks : list bytes) n :
  Z.of_nat (length ks) = n -> Z.of_nat (length (remove_dups ks)) = n -> NoDup ks.
Proof.
  intros <-. induction ks as [|k ks IH]; cbn [remove_dups]; [constructor|].
  assert (Hle : (length (remove_dups ks) <= length ks)%nat).
  { apply submseteq_length, NoDup_submseteq; [apply NoDup_remove_dups|]. intros x. by rewrite elem_of_remove_dups. }
  case_decide as Hin; cbn [length]; [lia|]. intros H. apply NoDup_cons. split; [done|]. apply IH. lia.
Qed.

Lemma parse_v1_stable start :
  0 <= start -> stable (frame_ok start (blen p)) (parse_v1 p start) (parse_v1 (p ++ e) start).
Proof.
  intros Hs. pose proof (blen_ge p e) as Hge. unfold parse_v1, TX_V1_HDR.
  apply stable_need. intros Hl. zb. split; [apply Z.leb_gt; lia|].
  eapply stable_bind; [apply at_stable; [done|lia]|]. intros b _. apply stable_bad. intros _.
  apply stable_need. intros Hl1. zb. split; [apply Z.ltb_ge; lia|].
  do 3 (eapply stable_bind; [apply at_stable; [done|lia]|]; intros ? ?). cbv zeta.
  rewrite (slice_app_in p e (start + 4)) by lia. set (mask := le_dec _).
  pose proof (count_ones_nonneg mask).
  apply stable_bad. intros _. apply stable_bad. intros _.
  eapply stable_bind; [apply at_stable; [done|lia]|]. intros ni Hni.
  eapply stable_bind; [apply at_stable; [done|lia]|]. intros na Hna.
  apply stable_bad. intros Hn. zb.
  apply stable_bad. intros Hh. apply negb_false_iff, header_ok_spec in Hh. unfold is_byte in *.
  apply stable_need. intros Hl2. zb. split; [apply Z.ltb_ge; lia|].
  destruct (key_list_ok p (start + 42) na) as [Hk1 Hk2]; [lia..|].
  rewrite key_list_app by lia. apply stable_bad. intros Hdup. apply negb_false_iff, Z.eqb_eq in Hdup.
  apply stable_need. intros Hl3. zb. split; [apply Z.ltb_ge; lia|].
  apply stable_need. intros Hl4. zb. split; [apply Z.ltb_ge; lia|].
  eapply stable_bind; [apply v1_headers_in; [done|lia|lia]|].
  intros [hs pay] (more & Hm & Hlen & Hf & Hpay). cbn [fst snd] in *.
  change ([] ++ more) with more in Hm. subst more.
  apply stable_bad. intros Hproj. zb.
  apply stable_need. intros Hl5. zb. split; [apply Z.ltb_ge; lia|].
  eapply stable_bind; [apply v1_payload_stable; [exact Hf|lia]|].
  intros [ixs o] (Ho & Hob & more & Hm & Hlen' & Hfi). cbn [fst snd] in *.
  change ([] ++ more) with more in Hm. subst more.
  apply stable_need. intros Hl6. zb. split; [apply Z.ltb_ge; lia|]. split; [done|].
  assert (0 <= payload_len hs).
  { clear -Hf. unfold payload_len. induction Hf as [|h hs (? & ? & ?) _ IH]; cbn; lia. }
  unfold frame_ok. cbn [f_tx_end f_nsig f_nkeys f_keys f_ninstr f_ixs f_ver].
  repeat split; try lia; try done.
  - intros _. eapply Forall_impl; [exact Hfi|]. by intros x [? _].
  - eapply Forall_impl; [exact Hfi|]. by intros x [_ ?].
  - by eapply remove_dups_NoDup.
Qed.

Lemma parse_v1_tight start :
  0 <= start ->
  tight f_tx_end (blen p) start (parse_v1 p start) (parse_v1 (p ++ e) start).
Proof.
  intros Hs. pose proof (blen_ge p e) as Hge. unfold parse_v1, TX_V1_HDR.
  apply tight_need with (m := start + 1); [lia|intros; apply Z.leb_gt; lia|].
  apply at_tight; [done|lia|]. intros b _. apply tight_bad.
  apply tight_need with (m := start + 42); [lia|intros; apply Z.ltb_ge; lia|].
  apply at_tight; [done|lia|]. intros ns Hns. apply at_tight; [done|lia|]. intros ro_s Hros.
  apply at_tight; [done|lia|]. intros ro_u Hrou. cbv zeta.
  set (mask := le_dec (slice (start + 4) (start + 8) (p ++ e))).
  eapply tight_change; [|intros Hn; rewrite <- (slice_app_in p e (start + 4)) by lia; reflexivity].
  fold mask. pose proof (count_ones_nonneg mask).
  do 2 apply tight_bad. apply at_tight; [done|lia|]. intros ni Hni.
  apply at_tight; [done|lia|]. intros na Hna. unfold is_byte in *.
  apply tight_bad. destruct (header_ok ns ro_s ro_u na) eqn:Hh; cbn [negb]; [|intros ? ?; discriminate].
  apply header_ok_spec in Hh.
  apply tight_need with (m := start + 42 + na * 32); [lia|intros; apply Z.ltb_ge; lia|].
  eapply tight_change; [|intros Hn; rewrite <- (key_list_app p e) by lia; reflexivity].
  apply tight_bad.
  apply tight_need with (m := start + 42 + na * 32 + count_ones mask * 4);
    [lia|intros; apply Z.ltb_ge; lia|].
  apply tight_need' with (m := start + 42 + na * 32 + count_ones mask * 4 + ni * 4);
    [lia|intros; apply Z.ltb_ge; lia|]. intros Hlq. zb.
  eapply tight_bind; [apply v1_headers_tight; [done|lia|lia]|].
  intros [hs pay] Hq _.
  apply v1_headers_post in Hq as (more & Hm & Hf & Hp & Hpay); [|done|lia|lia].
  cbn [fst snd] in *. change ([] ++ more) with more in Hm. subst more.
  apply tight_bad.
  apply tight_need with (m := start + 42 + na * 32 + count_ones mask * 4 + ni * 4 + pay);
    [lia|intros; apply Z.ltb_ge; lia|].
  eapply tight_bind.
  { eapply tight_raise; [apply v1_payload_tight; [exact Hf|lia]|].
    intros r Hr. apply v1_payload_end in Hr. lia. }
  intros [ixs o] _ Ho. cbn [snd] in *.
  apply tight_need with (m := o + ns * 64); [lia|intros; apply Z.ltb_ge; lia|].
  apply tight_ret. cbn. lia.
Qed.


End parsers.

(** * The dispatching parser *)

Lemma is_bytes_drop n (l : bytes) : is_bytes l -> is_bytes (drop n l).
Proof. apply Forall_drop. Qed.

Lemma blen_drop start (raw : bytes) :
  0 <= start <= blen raw -> blen (drop (Z.to_nat start) raw) = blen raw - start.
Proof. intros H. unfold blen in *. rewrite length_drop. lia. Qed.

Lemma legacy_past_end raw start :
  blen raw <= start -> parse_legacy_v0 raw start = Need "truncated_nsig".
Proof.
  intros H. unfold parse_legacy_v0. rewrite drop_ge by (unfold blen in H; lia). reflexivity.
Qed.

Lemma pbind_Ok {A B} (m : parsed A) (f : A -> parsed B) b :
  pbind m f = Ok b -> exists a, m = Ok a /\ f a = Ok b.
Proof. destruct m; cbn; [eauto|done..]. Qed.

Lemma legacy_body_fields p start nsig v off f :
  legacy_body p start nsig v off = Ok f ->
  f_ver f = (if v then "v0" else "legacy")%string /\ f_nsig f = nsig.
Proof.
  unfold legacy_body. case_match; [done|]. cbv zeta.
  intros (ro_s & _ & Hf)%pbind_Ok. apply pbind_Ok in Hf as (ro_u & _ & Hf).
  apply pbind_Ok in Hf as ([nk o1] & _ & Hf). case_match; [done|]. case_match; [done|].
  apply pbind_Ok in Hf as ([ni o2] & _ & Hf). case_match; [done|].
  apply pbind_Ok in Hf as ([ixs o3] & _ & Hf). apply pbind_Ok in Hf as (o5 & _ & Hf).
  by injection Hf as <-.
Qed.

Lemma parse_legacy_stable p e start :
  is_bytes (p ++ e) -> 0 <= start <= blen p ->
  match parse_legacy_v0 p start with
  | Ok f => parse_legacy_v0 (p ++ e) start = Ok f /\ frame_ok start (blen p) f
  | Need _ => True
  | Bad w => parse_legacy_v0 (p ++ e) start = Bad w \/
      (w = "hdr_nsig"%string /\ forall f, parse_legacy_v0 (p ++ e) start = Ok f ->
         f_ver f = "v0"%string /\ blen p = start + 2 + 64 * f_nsig f)
  | Exn _ => False
  end.
Proof.
  intros Hby Hs. unfold parse_legacy_v0.
  rewrite drop_app_le by (unfold blen in Hs; lia).
  pose proof (blen_drop start p Hs) as Hl.
  assert (Hby' : is_bytes (drop (Z.to_nat start) p ++ e)).
  { apply is_bytes_app. apply is_bytes_app in Hby as [? ?]. split; [by apply is_bytes_drop|done]. }
  pose proof (legacy_head_stable (drop (Z.to_nat start) p) e Hby') as Hh.
  destruct (legacy_head (drop (Z.to_nat start) p)) as [[[n v] off]|w|w|ex]; cbn [pbind]; [|done| |done].
  - destruct Hh as [-> Ho]. cbn [snd pbind] in *.
    pose proof (legacy_body_stable (drop (Z.to_nat start) p) e Hby' start n v off) as Hb.
    replace (start + blen (drop (Z.to_nat start) p)) with (blen p) in Hb by lia.
    unfold stable in Hb.
    destruct (legacy_body _ _ _ _ _) as [f|w|w|ex]; [apply Hb; lia|done|left; apply Hb; lia|apply Hb; lia].
  - destruct Hh as [->|(-> & n & Hn & Hlen & Hr)]; [by left|]. right. split; [done|]. intros f.
    destruct (legacy_head _) as [[[n' v'] off]| | |] eqn:E; cbn [pbind]; [|done..].
    specialize (Hr _ eq_refl) as [= -> ->]. intros Hf.
    assert (Hfv : f_ver f = "v0"%string /\ f_nsig f = n).
    { by apply legacy_body_fields in Hf. }
    destruct Hfv as [-> ->]. split; [done|]. lia.
Qed.

Lemma parse_legacy_tight p e start :
  is_bytes (p ++ e) -> 0 <= start <= blen p ->
  tight f_tx_end (blen p) start (parse_legacy_v0 p start) (parse_legacy_v0 (p ++ e) start).
Proof.
  intros Hby Hs f Hf. unfold parse_legacy_v0 in *.
  rewrite drop_app_le in Hf by (unfold blen in Hs; lia).
  pose proof (blen_drop start p Hs) as Hl.
  assert (Hby' : is_bytes (drop (Z.to_nat start) p ++ e)).
  { apply is_bytes_app. apply is_bytes_app in Hby as [? ?]. split; [by apply is_bytes_drop|done]. }
  assert (Ht : tight (fun f => f_tx_end f - start) (blen (drop (Z.to_nat start) p)) 0
    (h <-? legacy_head (drop (Z.to_nat start) p) ;;
     let '(nsig, v, off) := h in legacy_body (drop (Z.to_nat start) p) start nsig v off)
    (h <-? legacy_head (drop (Z.to_nat start) p ++ e) ;;
     let '(nsig, v, off) := h in legacy_body (drop (Z.to_nat start) p ++ e) start nsig v off)).
  { eapply tight_bind; [by apply legacy_head_tight|]. intros [[n v] off] _ Ho. cbn [snd] in *.
    by apply legacy_body_tight. }
  destruct (Ht f Hf) as [H1 H2]. split; [lia|]. intros Hn. apply H2. lia.
Qed.

Lemma v1_test_app p e start :
  0 <= start < blen p ->
  (start <? blen (p ++ e)) && bool_decide ((p ++ e) !! Z.to_nat start = Some TX_V1_PREFIX) =
  (start <? blen p) && bool_decide (p !! Z.to_nat start = Some TX_V1_PREFIX).
Proof.
  intros Hs. pose proof (blen_ge p e). rewrite lookup_app_l by (unfold blen in Hs; lia).
  by destruct (Z.ltb_spec start (blen p)), (Z.ltb_spec start (blen (p ++ e))); try lia.
Qed.

Lemma parse_any_stable p e start :
  is_bytes (p ++ e) -> 0 <= start ->
  match parse_any p start with
  | Ok f => parse_any (p ++ e) start = Ok f /\ frame_ok start (blen p) f
  | Need _ => True
  | Bad w => parse_any (p ++ e) start = Bad w \/
      (w = "hdr_nsig"%string /\ forall f, parse_any (p ++ e) start = Ok f ->
         f_ver f = "v0"%string /\ blen p = start + 2 + 64 * f_nsig f)
  | Exn _ => False
  end.
Proof.
  intros Hby Hs. unfold parse_any. destruct (Z.le_gt_cases (blen p) start) as [Hle|Hlt].
  { rewrite (proj2 (Z.ltb_ge start (blen p)) Hle). cbn [andb]. by rewrite legacy_past_end. }
  rewrite v1_test_app by lia. destruct ((start <? blen p) && _).
  - pose proof (parse_v1_stable p e Hby start Hs) as H.
    destruct (parse_v1 p start); [exact H|done|by left|done].
  - apply parse_legacy_stable; [done|lia].
Qed.

Lemma parse_any_tight p e start :
  is_bytes (p ++ e) -> 0 <= start < blen p ->
  tight f_tx_end (blen p) start (parse_any p start) (parse_any (p ++ e) start).
Proof.
  intros Hby Hs. unfold parse_any. rewrite v1_test_app by lia. destruct ((start <? blen p) && _).
  - apply parse_v1_tight; [done|lia].
  - apply parse_legacy_tight; [done|lia].
Qed.

(** parse_any is total on bytes: no subscript is ever out of range, and a framed transaction
    lies inside the buffer, has between 1 and 12 signatures, as many 32-byte keys as it says, at
    most 64, and 1 to 64 instructions; outside v0 every program index is one of its keys; a v1
    transaction moreover has distinct keys, account indexes below their number and at most 4096
    bytes. *)
Theorem framing_total raw start :
  is_bytes raw -> 0 <= start ->
  match parse_any raw start with
  | Ok f => frame_ok start (blen raw) f
  | Exn _ => False
  | _ => True
  end.
Proof.
  intros Hby Hs. pose proof (parse_any_stable raw [] start) as H. rewrite app_nil_r in H.
  specialize (H Hby Hs). destruct (parse_any raw start); [apply H|done..|done].
Qed.

(** Cutting a buffer.  If a transaction is framed in a buffer, then in the first [k] bytes
    of it parse_any finds the same transaction as soon as they contain all of it, and answers
    "incomplete", never "invalid", for a shorter cut; the one exception is a v0 transaction cut
    right behind its version byte, which is called invalid. *)
Theorem framing_cut raw start k f :
  is_bytes raw -> 0 <= start -> parse_any raw start = Ok f ->
  (f_tx_end f <= Z.of_nat k -> parse_any (take k raw) start = Ok f) /\
  (Z.of_nat k < f_tx_end f ->
     (exists why, parse_any (take k raw) start = Need why) \/
     (f_ver f = "v0"%string /\ Z.of_nat k = start + 2 + 64 * f_nsig f /\
      parse_any (take k raw) start = Bad "hdr_nsig")).
Proof.
  intros Hby Hs Hf.
  assert (Hok : frame_ok start (blen raw) f).
  { pose proof (parse_any_stable raw [] start) as H. rewrite app_nil_r in H.
    specialize (H Hby Hs). rewrite Hf in H. apply H. }
  destruct Hok as [Hend _].
  assert (Hlen : blen (take k raw) = Z.min (Z.of_nat k) (blen raw)).
  { unfold blen. rewrite length_take. lia. }
  rewrite <- (take_drop k raw) in Hby, Hf. split; intros Hk.
  - assert (Hs' : 0 <= start < blen (take k raw)) by lia.
    apply (parse_any_tight _ _ start Hby Hs' f Hf). lia.
  - pose proof (parse_any_stable _ _ start Hby Hs) as H.
    destruct (parse_any (take k raw) start) as [f'|w|w|ex]; [|by left; exists w| |done].
    + destruct H as [H [Hend' _]]. rewrite Hf in H. injection H as <-. lia.
    + right. destruct H as [H|[-> H]]; [congruence|]. destruct (H f Hf). split; [done|]. split; [lia|done].
Qed.

(** * The wire format and the transactions that frame

    The encoders below are the reference: the Solana message layout the parser's tables
    describe, written from the fields. *)

Definition enc_cu16 (v : Z) : bytes :=
  if v <? 128 then [v]
  else if v <? 16384 then [v mod 128 + 128; v / 128]
  else [v mod 128 + 128; (v / 128) mod 128 + 128; v / 16384].

Definition enc_ix (x : instr) : bytes :=
  [ix_prog x] ++ enc_cu16 (blen (ix_acc x)) ++ ix_acc x ++ enc_cu16 (blen (ix_data x)) ++ ix_data x.

(** A lookup table: its key and the writable and readonly indexes. *)
Definition enc_lut (t : bytes * bytes * bytes) : bytes :=
  t.1.1 ++ enc_cu16 (blen t.1.2) ++ t.1.2 ++ enc_cu16 (blen t.2) ++ t.2.

Record wire := Wire {
  w_sigs : list bytes; w_ro_s : Z; w_ro_u : Z; w_keys : list bytes; w_hash : bytes;
  w_ixs : list instr }.

Definition w_nsig (w : wire) : Z := Z.of_nat (length (w_sigs w)).
Definition w_nkeys (w : wire) : Z := Z.of_nat (length (w_keys w)).
Definition w_nix (w : wire) : Z := Z.of_nat (length (w_ixs w)).

(** A legacy message, or with [luts] a v0 message. *)
Definition enc_legacy (w : wire) (luts : option (list (bytes * bytes * bytes))) : bytes :=
  enc_cu16 (w_nsig w) ++ concat (w_sigs w) ++
  match luts with Some _ => [128] | None => [] end ++
  [w_nsig w; w_ro_s w; w_ro_u w] ++ enc_cu16 (w_nkeys w) ++ concat (w_keys w) ++ w_hash w ++
  enc_cu16 (w_nix w) ++ concat (enc_ix <$> w_ixs w) ++
  match luts with Some ts => enc_cu16 (Z.of_nat (length ts)) ++ concat (enc_lut <$> ts) | None => [] end.

Definition v1_header (x : instr) : bytes :=
  [ix_prog x; blen (ix_acc x)] ++ le_enc 2 (blen (ix_data x)).

Definition enc_v1 (w : wire) (mask : Z) (cfg : bytes) : bytes :=
  [TX_V1_PREFIX; w_nsig w; w_ro_s w; w_ro_u w] ++ le_enc 4 mask ++ w_hash w ++
  [w_nix w; w_nkeys w] ++ concat (w_keys w) ++ cfg ++ concat (v1_header <$> w_ixs w) ++
  concat ((fun x => ix_acc x ++ ix_data x) <$> w_ixs w) ++ concat (w_sigs w).

(** The conditions both formats share. *)
Definition wf_wire (w : wire) : Prop :=
  header_ok (w_nsig w) (w_ro_s w) (w_ro_u w) (w_nkeys w) = true /\
  Forall (fun s => blen s = 64) (w_sigs w) /\ Forall (fun k => blen k = 32) (w_keys w) /\
  blen (w_hash w) = 32 /\ 1 <= w_nix w <= TX_INSTR_MAX /\
  Forall (fun x => blen (ix_acc x) < 65536 /\ blen (ix_data x) < 65536) (w_ixs w).

(** The bytes [s] are at [off] in [p]. *)
Definition has (p : bytes) (off : Z) (s : bytes) : Prop :=
  exists l r, p = l ++ s ++ r /\ off = blen l.

Lemma has_app p off s1 s2 : has p off (s1 ++ s2) <-> has p off s1 /\ has p (off + blen s1) s2.
Proof.
  split.
  - intros (l & r & -> & ->). split.
    + exists l, (s2 ++ r). by rewrite <- !app_assoc.
    + exists (l ++ s1), r. rewrite blen_app, <- !app_assoc. done.
  - intros [(l & r & Hp & Hl) (l' & r' & Hp' & Hl')]. exists l, r'. split; [|done].
    assert (l' = l ++ s1 /\ r = s2 ++ r') as [-> ->]; [|by rewrite Hp', <- !app_assoc].
    rewrite Hp in Hp'. rewrite app_assoc in Hp'.
    assert (length (l ++ s1) = length l') by (unfold blen in *; rewrite length_app; lia).
    by apply app_inj_1 in Hp' as [-> ->].
Qed.

Lemma has_eq p off off' s : has p off s -> off = off' -> has p off' s.
Proof. by intros ? <-. Qed.

Lemma has_slice p off s : has p off s -> slice off (off + blen s) p = s.
Proof. intros (l & r & -> & ->). by apply slice_middle. Qed.

Lemma has_len p off s : has p off s -> 0 <= off /\ off + blen s <= blen p.
Proof. intros (l & r & -> & ->). rewrite !blen_app. unfold blen. lia. Qed.

Lemma has_at p off b s : has p off (b :: s) -> at_ p off = Ok b.
Proof.
  intros (l & r & -> & ->). unfold at_, blen. rewrite Nat2Z.id, lookup_app_r by done.
  by replace (length l - length l)%nat with 0%nat by lia.
Qed.

Lemma has_cons p off b s : has p off (b :: s) -> has p (off + 1) s.
Proof. intros H. change (b :: s) with ([b] ++ s) in H. apply has_app in H as [_ H]. exact H. Qed.

Lemma land_128_low b : 0 <= b < 128 -> Z.land b 128 = 0.
Proof.
  intros H. apply Z.bits_inj'. intros n Hn. rewrite Z.land_spec, Z.bits_0. change 128 with (2 ^ 7).
  rewrite Z.pow2_bits_eqb by lia. destruct (Z.eqb_spec 7 n) as [<-|]; [|apply andb_false_r].
  rewrite Z.testbit_eqb by lia. rewrite Z.div_small by (cbn; lia). done.
Qed.

Lemma land_high b : 0 <= b < 128 -> Z.land (b + 128) 128 <> 0 /\ Z.land (b + 128) 127 = b.
Proof.
  intros H. assert (Hb : b + 128 = Z.lor b 128).
  { rewrite <- Z.add_nocarry_lor; [done|]. by apply land_128_low. }
  split.
  - intros E. apply (f_equal (fun z => Z.testbit z 7)) in E. rewrite Z.land_spec in E.
    rewrite Hb, Z.lor_spec in E. change (Z.testbit 128 7) with true in E.
    rewrite orb_true_r in E. done.
  - change 127 with (Z.ones 7). rewrite Z.land_ones by lia. change (2 ^ 7) with 128.
    rewrite <- (Z.mod_small b 128) at 2 by lia.
    replace (b + 128) with (b + 1 * 128) by lia. by rewrite Z.mod_add.
Qed.

Lemma lor_shift a b k : 0 <= k -> 0 <= a < 2 ^ k -> Z.lor a (Z.shiftl b k) = a + 2 ^ k * b.
Proof.
  intros Hk Ha. assert (Hz : Z.land a (Z.shiftl b k) = 0).
  { apply Z.bits_inj'. intros n Hn. rewrite Z.land_spec, Z.bits_0, Z.shiftl_spec by lia.
    destruct (Z.lt_ge_cases n k).
    - rewrite (Z.testbit_neg_r b) by lia. apply andb_false_r.
    - rewrite Z.testbit_eqb by lia. rewrite Z.div_small; [done|]. split; [lia|].
      eapply Z.lt_le_trans; [apply Ha|]. by apply Z.pow_le_mono_r. }
  rewrite <- Z.add_nocarry_lor by done. rewrite Z.shiftl_mul_pow2 by lia. lia.
Qed.

Lemma land_252_low b : 0 <= b < 4 -> Z.land b 252 = 0.
Proof. intros H. assert (b = 0 \/ b = 1 \/ b = 2 \/ b = 3) as [->|[->|[->| ->]]] by lia; done. Qed.

(** Every value below 2^16 reads back from its compact form. *)
Lemma get_cu16_enc p off v need bad :
  0 <= v < 65536 -> has p off (enc_cu16 v) ->
  get_cu16 p off need bad = Ok (v, off + blen (enc_cu16 v)).
Proof.
  intros Hv Hh. pose proof (has_len _ _ _ Hh) as [Ho Hl].
  unfold get_cu16, cu16. unfold enc_cu16 in *.
  pose proof (Z.mod_pos_bound v 128 ltac:(lia)) as Hm.
  pose proof (Z.div_mod v 128 ltac:(lia)) as Hdm.
  destruct (Z.ltb_spec v 128); [|destruct (Z.ltb_spec v 16384)];
    cbn [blen length] in *; change (blen [_]) with 1 in *; change (blen [_; _]) with 2 in *;
    change (blen [_; _; _]) with 3 in *;
    destruct (Z.leb_spec (blen p) off); try lia; rewrite (has_at _ _ _ _ Hh); cbn [pbind].
  - by rewrite land_128_low by lia.
  - destruct (land_high (v mod 128)) as [Hn He]; [done|].
    rewrite (proj2 (Z.eqb_neq _ 0) Hn), He. destruct (Z.leb_spec (blen p) (off + 1)); [lia|].
    apply has_cons in Hh. rewrite (has_at _ _ _ _ Hh). cbn [pbind].
    rewrite (land_128_low (v / 128)) by (split; [apply Z.div_pos; lia|apply Z.div_lt_upper_bound; lia]).
    cbn [Z.eqb]. destruct (Z.eqb_spec (v / 128) 0); [lia|].
    rewrite lor_shift by lia. change (2 ^ 7) with 128. cbn [pbind]. do 2 f_equal. lia.
  - destruct (land_high (v mod 128)) as [Hn He]; [done|].
    rewrite (proj2 (Z.eqb_neq _ 0) Hn), He. destruct (Z.leb_spec (blen p) (off + 1)); [lia|].
    apply has_cons in Hh. rewrite (has_at _ _ _ _ Hh). cbn [pbind].
    pose proof (Z.mod_pos_bound (v / 128) 128 ltac:(lia)).
    pose proof (Z.div_mod (v / 128) 128 ltac:(lia)). rewrite Z.div_div in * by lia.
    change (128 * 128) with 16384 in *.
    destruct (land_high ((v / 128) mod 128)) as [Hn1 He1]; [done|].
    rewrite (proj2 (Z.eqb_neq _ 0) Hn1), He1. destruct (Z.leb_spec (blen p) (off + 2)); [lia|].
    apply has_cons in Hh. replace (off + 1 + 1) with (off + 2) in Hh by lia.
    rewrite (has_at _ _ _ _ Hh). cbn [pbind].
    assert (0 < v / 16384 < 4) by (split; [apply Z.div_str_pos; lia|apply Z.div_lt_upper_bound; lia]).
    rewrite land_252_low by lia. destruct (Z.eqb_spec (v / 16384) 0); [lia|]. cbn [negb orb Z.eqb].
    rewrite (lor_shift _ _ 7) by lia. change (2 ^ 7) with 128.
    rewrite (lor_shift _ _ 14) by (change (2 ^ 14) with 16384; lia). change (2 ^ 14) with 16384.
    cbn [pbind]. do 2 f_equal. lia.
Qed.

Lemma blen_cons x (l : bytes) : blen (x :: l) = 1 + blen l.
Proof. unfold blen. cbn [length]. lia. Qed.

Lemma blen_concat n (ls : list bytes) :
  Forall (fun l => blen l = n) ls -> blen (concat ls) = Z.of_nat (length ls) * n.
Proof.
  induction 1 as [|l ls Hl _ IH]; [done|]. cbn [concat length]. rewrite blen_app, Hl, IH. lia.
Qed.

Lemma has_key_list p off ks :
  Forall (fun k => blen k = 32) ks -> has p off (concat ks) ->
  key_list p off (Z.of_nat (length ks)) = ks.
Proof.
  intros Hk Hh. pose proof (has_len _ _ _ Hh) as [Ho _]. unfold key_list. rewrite Nat2Z.id.
  apply list_eq. intros i. rewrite list_lookup_fmap. destruct (ks !! i) as [k|] eqn:Hi.
  - pose proof (lookup_lt_Some _ _ _ Hi) as Hlt. rewrite lookup_seq_lt by done. cbn. f_equal.
    rewrite <- (take_drop_middle ks i k Hi), concat_app in Hh. cbn [concat] in Hh.
    apply has_app in Hh as [_ Hh]. apply has_app in Hh as [Hh _].
    rewrite (blen_concat 32) in Hh by (by apply Forall_take).
    rewrite length_take in Hh. apply has_slice in Hh.
    assert (Hkl : blen k = 32) by (exact (Forall_lookup_1 _ _ _ _ Hk Hi)). rewrite Hkl in Hh.
    rewrite Nat.min_l in Hh by lia. rewrite <- Hh. f_equal; lia.
  - rewrite lookup_seq_ge by (by apply lookup_ge_None). done.
Qed.

Lemma enc_cu16_len v : 0 <= v < 65536 -> 1 <= blen (enc_cu16 v).
Proof. intros _. unfold enc_cu16. repeat case_match; unfold blen; cbn [length]; lia. Qed.

Lemma ix_loop_enc p nkeys v ixs off acc :
  Forall (fun x => blen (ix_acc x) < 65536 /\ blen (ix_data x) < 65536) ixs ->
  (v = false -> Forall (fun x => ix_prog x < nkeys) ixs) ->
  has p off (concat (enc_ix <$> ixs)) ->
  ix_loop (length ixs) p nkeys v off acc = Ok (acc ++ ixs, off + blen (concat (enc_ix <$> ixs))).
Proof.
  intros Hf. revert off acc. induction Hf as [|x ixs [Ha Hd] _ IH]; intros off acc Hp Hh;
    cbn [length ix_loop].
  { rewrite app_nil_r. do 2 f_equal. unfold blen. cbn. lia. }
  rewrite fmap_cons in *. cbn [concat] in *. unfold enc_ix in Hh at 1.
  apply has_app in Hh as [Hx Hh]. pose proof (has_len _ _ _ Hx) as [Ho Hxl].
  rewrite !has_app in Hx. destruct Hx as (H1 & H2 & H3 & H4 & H5).
  rewrite !blen_app in Hxl. change (blen [ix_prog x]) with 1 in *.
  assert (Hna : 0 <= blen (ix_acc x)) by (unfold blen; lia).
  assert (Hnd : 0 <= blen (ix_data x)) by (unfold blen; lia).
  pose proof (enc_cu16_len (blen (ix_acc x))). pose proof (enc_cu16_len (blen (ix_data x))).
  destruct (Z.leb_spec (blen p) off); [lia|]. rewrite (has_at _ _ _ _ H1). cbn [pbind].
  assert (Hb : negb v && (nkeys <=? ix_prog x) = false).
  { destruct v; [done|]. specialize (Hp eq_refl). apply Forall_cons in Hp as [Hp _]. cbn.
    by apply Z.leb_gt. }
  rewrite Hb, (get_cu16_enc p _ (blen (ix_acc x))) by (lia || exact H2). cbn [pbind].
  apply has_slice in H3 as Hs3. apply has_len in H3. rewrite Hs3.
  match goal with |- context [?a <? ?b] => destruct (Z.ltb_spec a b) end; [lia|].
  rewrite (get_cu16_enc p _ (blen (ix_data x))) by (lia || exact H4). cbn [pbind].
  apply has_slice in H5 as Hs5. apply has_len in H5. rewrite Hs5.
  match goal with |- context [?a <? ?b] => destruct (Z.ltb_spec a b) end; [lia|].
  rewrite IH.
  - rewrite <- app_assoc. cbn [app]. destruct x. do 2 f_equal. unfold enc_ix.
    rewrite !blen_app. change (blen [?b]) with 1. lia.
  - intros Hv. specialize (Hp Hv). by apply Forall_cons in Hp as [_ ?].
  - eapply has_eq; [exact Hh|]. rewrite !blen_app. change (blen [?b]) with 1. lia.
Qed.

Lemma skip_indexes_enc p off (l : bytes) :
  blen l < 65536 -> has p off (enc_cu16 (blen l) ++ l) ->
  skip_indexes p off = Ok (off + blen (enc_cu16 (blen l) ++ l)).
Proof.
  intros Hl Hh. apply has_app in Hh as [H1 H2]. unfold skip_indexes.
  assert (0 <= blen l) by (unfold blen; lia).
  rewrite (get_cu16_enc p _ (blen l)) by (lia || exact H1). cbn [pbind]. apply has_len in H2.
  match goal with |- context [?a <? ?b] => destruct (Z.ltb_spec a b) end; [lia|].
  f_equal. rewrite blen_app. lia.
Qed.

Lemma lut_loop_enc p ts off :
  Forall (fun t : bytes * bytes * bytes => blen t.1.1 = 32 /\ blen t.1.2 < 65536 /\ blen t.2 < 65536) ts ->
  has p off (concat (enc_lut <$> ts)) ->
  lut_loop (length ts) p off = Ok (off + blen (concat (enc_lut <$> ts))).
Proof.
  intros Hf. revert off. induction Hf as [|[[k w] r] ts (Hk & Hw & Hr) _ IH]; intros off Hh;
    cbn [length lut_loop].
  { f_equal. unfold blen. cbn. lia. }
  cbn [fst snd] in *. rewrite fmap_cons in *. cbn [concat] in *.
  apply has_app in Hh as [Hx Hh]. unfold enc_lut in Hx. cbn [fst snd] in Hx.
  apply has_app in Hx as [H1 Hx]. rewrite app_assoc in Hx. apply has_app in Hx as [H2 H3].
  apply has_len in H1. rewrite Hk in *.
  destruct (Z.ltb_spec (blen p) (off + 32)); [lia|].
  rewrite (skip_indexes_enc p (off + 32) w Hw H2). cbn [pbind].
  rewrite (skip_indexes_enc p _ r Hr H3). cbn [pbind].
  unfold enc_lut in Hh at 1. cbn [fst snd] in Hh. rewrite IH.
  - f_equal. unfold enc_lut at 2. cbn [fst snd]. rewrite !blen_app, Hk. lia.
  - eapply has_eq; [exact Hh|]. rewrite !blen_app, Hk. lia.
Qed.

Definition wf_luts (luts : option (list (bytes * bytes * bytes))) : Prop :=
  match luts with
  | Some ts => (length ts <= 32)%nat /\
      Forall (fun t : bytes * bytes * bytes => blen t.1.1 = 32 /\ blen t.1.2 < 65536 /\ blen t.2 < 65536) ts
  | None => True
  end.

Definition is_v0 (luts : option (list (bytes * bytes * bytes))) : bool :=
  match luts with Some _ => true | None => false end.

(** The framed form of a message. *)
Definition wire_frame (w : wire) (ver : string) (tx_end : Z) (luts : bool) (mask : option Z) : frame :=
  Frame ver (w_nsig w) (w_nkeys w) (w_nix w) (w_keys w) (w_ixs w) tx_end luts mask.

Lemma legacy_head_enc p w luts rest :
  wf_wire w ->
  has p 0 (enc_cu16 (w_nsig w) ++ concat (w_sigs w) ++
           match luts with Some _ => [128] | None => [] end ++ [w_nsig w] ++ rest) ->
  let off := blen (enc_cu16 (w_nsig w) ++ concat (w_sigs w) ++
                   match luts with Some _ => [128] | None => [] end ++ [w_nsig w]) in
  legacy_head p = Ok (w_nsig w, is_v0 luts, off) /\ has p off rest.
Proof.
  intros (Hh & Hs & _) Hp off. apply header_ok_spec in Hh as (Hn & _). unfold TX_SIG_MAX in Hn.
  apply has_app in Hp as [H1 Hp]. apply has_app in Hp as [H2 Hp]. unfold legacy_head.
  rewrite (get_cu16_enc p 0 (w_nsig w)) by (lia || exact H1). cbn [pbind].
  unfold TX_SIG_MAX. destruct (Z.ltb_spec (w_nsig w) 1); [lia|].
  destruct (Z.ltb_spec 12 (w_nsig w)); [lia|]. cbn [orb].
  pose proof (has_len _ _ _ H2) as H2l. rewrite (blen_concat 64) in * by done. fold (w_nsig w) in *.
  destruct (Z.ltb_spec (blen p) (0 + blen (enc_cu16 (w_nsig w)) + w_nsig w * 64)); [lia|].
  assert (Hl64 : Z.land (w_nsig w) 128 = 0) by (apply land_128_low; lia).
  destruct luts as [ts|]; apply has_app in Hp as [Ha Hp].
  - change (blen [128]) with 1 in Hp. apply has_app in Hp as [Hb Hp]. change (blen [w_nsig w]) with 1 in Hp.
    pose proof (has_len _ _ _ Ha) as Hal. pose proof (has_len _ _ _ Hb) as Hbl.
    change (blen [?b]) with 1 in *.
    match goal with |- context [blen p <=? ?b] => destruct (Z.leb_spec (blen p) b); [lia|] end.
    rewrite (has_at _ _ _ _ Ha). cbn [pbind]. change (negb (Z.land 128 128 =? 0)) with true.
    change (negb (Z.land 128 127 =? 0)) with false. cbv iota zeta.
    match goal with |- context [blen p <=? ?b] => destruct (Z.leb_spec (blen p) b); [lia|] end.
    rewrite (has_at _ _ _ _ Hb). cbn [pbind]. rewrite Z.eqb_refl. cbn [negb].
    assert (Eo : off = 0 + blen (enc_cu16 (w_nsig w)) + w_nsig w * 64 + 1 + 1).
    { unfold off. rewrite !blen_app, (blen_concat 64) by done. fold (w_nsig w). 
      change (blen [_]) with 1. change (blen [128]) with 1. lia. }
    split; [do 3 f_equal; lia|]. eapply has_eq; [exact Hp|lia].
  - change (blen []) with 0 in Hp. rewrite Z.add_0_r in Hp. apply has_app in Hp as [Hb Hp].
    change (blen [w_nsig w]) with 1 in Hp. pose proof (has_len _ _ _ Hb) as Hbl.
    change (blen [?b]) with 1 in *.
    match goal with |- context [blen p <=? ?b] => destruct (Z.leb_spec (blen p) b); [lia|] end.
    rewrite (has_at _ _ _ _ Hb). cbn [pbind]. rewrite Hl64. cbn [negb Z.eqb]. rewrite Z.eqb_refl.
    cbn [negb]. assert (Eo : off = 0 + blen (enc_cu16 (w_nsig w)) + w_nsig w * 64 + 1).
    { unfold off. rewrite !blen_app, (blen_concat 64) by done. fold (w_nsig w). 
      change (blen [_]) with 1. change (blen []) with 0. lia. }
    split; [do 3 f_equal; lia|]. eapply has_eq; [exact Hp|lia].
Qed.

Lemma legacy_body_enc p start w luts off :
  wf_wire w -> wf_luts luts ->
  (luts = None -> Forall (fun x => ix_prog x < w_nkeys w) (w_ixs w)) ->
  has p off ([w_ro_s w; w_ro_u w] ++ enc_cu16 (w_nkeys w) ++ concat (w_keys w) ++ w_hash w ++
    enc_cu16 (w_nix w) ++ concat (enc_ix <$> w_ixs w) ++
    match luts with Some ts => enc_cu16 (Z.of_nat (length ts)) ++ concat (enc_lut <$> ts) | None => [] end) ->
  legacy_body p start (w_nsig w) (is_v0 luts) off =
    Ok (wire_frame w (if is_v0 luts then "v0" else "legacy")
      (start + (off + blen ([w_ro_s w; w_ro_u w] ++ enc_cu16 (w_nkeys w) ++ concat (w_keys w) ++
        w_hash w ++ enc_cu16 (w_nix w) ++ concat (enc_ix <$> w_ixs w) ++
        match luts with
        | Some ts => enc_cu16 (Z.of_nat (length ts)) ++ concat (enc_lut <$> ts)
        | None => []
        end))) (is_v0 luts) None).
Proof.
  intros (Hh & Hs & Hk & Hbh & Hni & Hix) Hlut Hprog Hp.
  pose proof Hh as Hh'. apply header_ok_spec in Hh' as (Hn & Hr1 & Hr2 & Hnk).
  unfold TX_SIG_MAX, TX_KEY_MAX, TX_INSTR_MAX in *. rewrite !has_app in Hp.
  destruct Hp as (H1 & H2 & H3 & H4 & H5 & H6 & H7).
  pose proof (has_len _ _ _ H1) as H1l. pose proof (has_len _ _ _ H4) as H4l.
  pose proof (has_len _ _ _ H3) as H3l.
  change (blen [_; _]) with 2 in *. rewrite (blen_concat 32) in * by done. fold (w_nkeys w) in *.
  rewrite Hbh in *. unfold legacy_body.
  destruct (Z.ltb_spec (blen p) (off + 2)); [lia|].
  rewrite (has_at _ _ _ _ H1). cbn [pbind].
  rewrite (has_at _ _ _ _ (has_cons _ _ _ _ H1)). cbn [pbind].
  rewrite (get_cu16_enc p _ (w_nkeys w)) by (lia || exact H2). cbn [pbind]. rewrite Hh. cbn [negb].
  match goal with |- context [blen p <? ?b] => destruct (Z.ltb_spec (blen p) b); [lia|] end.
  rewrite (get_cu16_enc p _ (w_nix w)); [|lia|eapply has_eq; [exact H5|lia]]. cbn [pbind].
  unfold TX_INSTR_MAX. destruct (Z.eqb_spec (w_nix w) 0); [lia|].
  destruct (Z.ltb_spec 64 (w_nix w)); [lia|]. cbn [orb].
  unfold w_nix at 1. rewrite Nat2Z.id, ix_loop_enc; [|exact Hix|by destruct luts; [|auto]|
    eapply has_eq; [exact H6|lia]].
  cbn [pbind app]. pose proof (has_key_list p _ (w_keys w) Hk H3) as Hkl. fold (w_nkeys w) in Hkl.
  rewrite Hkl. unfold wire_frame. destruct luts as [ts|]; cbn [is_v0 pbind].
  - apply has_app in H7 as [Hl1 Hl2]. destruct Hlut as [Hlen Hlut].
    rewrite (get_cu16_enc p _ (Z.of_nat (length ts))); [|lia|eapply has_eq; [exact Hl1|lia]].
    cbn [pbind]. destruct (Z.ltb_spec 32 (Z.of_nat (length ts))); [lia|]. rewrite Nat2Z.id.
    rewrite lut_loop_enc; [|exact Hlut|eapply has_eq; [exact Hl2|lia]]. cbn [pbind].
    do 2 f_equal. rewrite !blen_cons, !blen_app, (blen_concat 32 (w_keys w)), Hbh by done.
    fold (w_nkeys w). lia.
  - do 2 f_equal. rewrite !blen_cons, !blen_app, (blen_concat 32 (w_keys w)), Hbh by done.
    fold (w_nkeys w). change (blen []) with 0. lia.
Qed.

(** What parse_any makes of an encoded message. *)
Lemma message_frames pre w luts rest :
  is_bytes (pre ++ enc_legacy w luts ++ rest) -> wf_wire w -> wf_luts luts ->
  (luts = None -> Forall (fun x => ix_prog x < w_nkeys w) (w_ixs w)) ->
  parse_any (pre ++ enc_legacy w luts ++ rest) (blen pre) =
  Ok (wire_frame w (if is_v0 luts then "v0" else "legacy")
        (blen pre + blen (enc_legacy w luts)) (is_v0 luts) None).
Proof.
  intros Hby Hw Hl Hp. unfold parse_any.
  assert (Hd : drop (Z.to_nat (blen pre)) (pre ++ enc_legacy w luts ++ rest) = enc_legacy w luts ++ rest).
  { unfold blen. by rewrite Nat2Z.id, drop_app_length. }
  assert (Hn : 1 <= w_nsig w <= 12) by (destruct Hw as [Hh _]; by apply header_ok_spec in Hh as [Hn _]).
  assert (Hv1 : bool_decide ((pre ++ enc_legacy w luts ++ rest) !! Z.to_nat (blen pre) = Some TX_V1_PREFIX) = false).
  { apply bool_decide_eq_false. unfold blen. rewrite Nat2Z.id, lookup_app_r, Nat.sub_diag by done.
    unfold enc_legacy, enc_cu16 at 1. destruct (Z.ltb_spec (w_nsig w) 128); [|lia].
    cbn. intros [= E]. unfold TX_V1_PREFIX in E. lia. }
  rewrite Hv1, andb_false_r. unfold parse_legacy_v0. rewrite Hd.
  assert (Hh : has (enc_legacy w luts ++ rest) 0 (enc_legacy w luts)) by (by exists [], rest).
  unfold enc_legacy in Hh at 2. change ([w_nsig w; w_ro_s w; w_ro_u w] ++ ?t) with ([w_nsig w] ++ [w_ro_s w; w_ro_u w] ++ t) in Hh.
  destruct (legacy_head_enc _ w luts _ Hw Hh) as [-> Hb]. cbn [pbind].
  rewrite (legacy_body_enc _ _ w luts _ Hw Hl Hp Hb). do 2 f_equal.
  unfold enc_legacy. rewrite !blen_app. change (blen [_; _; _]) with 3.
  change (blen [_; _]) with 2. change (blen [_]) with 1. lia.
Qed.

(** The rules of frame.c for the instructions: at most 255 accounts and, without lookup tables, a
    program and accounts among the message's keys. *)
Definition well_addressed (w : wire) (luts : option (list (bytes * bytes * bytes))) : Prop :=
  Forall (fun x => blen (ix_acc x) <= 255 /\
    (luts = None -> Forall (fun a => 0 <= a < w_nkeys w) (ix_prog x :: ix_acc x))) (w_ixs w).

(** C40. Every well-formed legacy or v0 message, one whose header, lengths, program and account
    indexes keep the framing rules of frame.c, frames at any place of any buffer: parse_any
    returns its signature, key and instruction counts, its keys and its instructions, and ends
    right behind it, whatever bytes follow; and in a legacy message the program and every account of each framed
    instruction name one of the framed keys.  (The parser itself does not look at the accounts.) *)
Theorem legacy_message_frames pre w luts rest :
  is_bytes (pre ++ enc_legacy w luts ++ rest) -> wf_wire w -> wf_luts luts -> well_addressed w luts ->
  exists f, parse_any (pre ++ enc_legacy w luts ++ rest) (blen pre) = Ok f /\
    f = wire_frame w (if is_v0 luts then "v0" else "legacy")
          (blen pre + blen (enc_legacy w luts)) (is_v0 luts) None /\
    (luts = None -> Forall (fun x => Forall (fun a => is_Some (f_keys f !! Z.to_nat a)) (ix_prog x :: ix_acc x)) (f_ixs f)).
Proof.
  intros Hb Hw Hl Ha. eexists. split; [apply message_frames; [done..|]|split; [reflexivity|]].
  - intros Hn. eapply Forall_impl; [exact Ha|]. intros x [_ Hx]. apply Forall_cons in Hx as [? _]; [lia|done].
  - intros Hn. cbn [wire_frame f_ixs f_keys]. eapply Forall_impl; [exact Ha|]. intros x [_ Hx].
    eapply Forall_impl; [by apply Hx|]. intros a Hk. apply lookup_lt_is_Some. unfold w_nkeys in Hk. lia.
Qed.

Definition hdr_of (x : instr) : Z * Z * Z := (ix_prog x, blen (ix_acc x), blen (ix_data x)).

Definition payload (ixs : list instr) : bytes := concat ((fun x => ix_acc x ++ ix_data x) <$> ixs).

Lemma payload_len_enc ixs : payload_len (hdr_of <$> ixs) = blen (payload ixs).
Proof.
  unfold payload, payload_len. induction ixs as [|x ixs IH]; [done|].
  rewrite !fmap_cons. cbn [foldr concat hdr_of fst snd]. rewrite !blen_app, <- IH. lia.
Qed.

Lemma v1_headers_enc p naddr ixs off hs pay :
  Forall (fun x => ix_prog x < naddr /\ blen (ix_data x) < 65536) ixs ->
  has p off (concat (v1_header <$> ixs)) ->
  v1_headers (length ixs) p naddr off hs pay = Ok (hs ++ (hdr_of <$> ixs), pay + blen (payload ixs)).
Proof.
  intros Hf. revert off hs pay. induction Hf as [|x ixs [Hp Hd] _ IH]; intros off hs pay Hh;
    cbn [length v1_headers].
  { rewrite app_nil_r. do 2 f_equal. change (blen (payload [])) with 0. lia. }
  rewrite fmap_cons in Hh. cbn [concat] in Hh. apply has_app in Hh as [H1 H2].
  assert (Hd0 : 0 <= blen (ix_data x)) by (unfold blen; lia).
  unfold v1_header in H1. cbn [le_enc app] in H1.
  rewrite (has_at _ _ _ _ H1). apply has_cons in H1. cbn [pbind].
  rewrite (has_at _ _ _ _ H1). apply has_cons in H1. cbn [pbind].
  replace (off + 1 + 1) with (off + 2) in H1 by lia.
  rewrite (has_at _ _ _ _ H1). apply has_cons in H1. cbn [pbind].
  replace (off + 2 + 1) with (off + 3) in H1 by lia.
  rewrite (has_at _ _ _ _ H1). cbn [pbind].
  pose proof (Z.mod_pos_bound (blen (ix_data x)) 256 ltac:(lia)).
  pose proof (Z.div_mod (blen (ix_data x)) 256 ltac:(lia)).
  rewrite (Z.mod_small (blen (ix_data x) / 256)) by
    (split; [apply Z.div_pos; lia|apply Z.div_lt_upper_bound; lia]).
  rewrite lor_shift by (change (2 ^ 8) with 256; lia). change (2 ^ 8) with 256.
  replace (blen (ix_data x) mod 256 + 256 * (blen (ix_data x) / 256)) with (blen (ix_data x)) by lia.
  destruct (Z.leb_spec naddr (ix_prog x)); [lia|].
  rewrite IH by (eapply has_eq; [exact H2|reflexivity]).
  rewrite <- app_assoc, fmap_cons. do 2 f_equal. unfold payload. rewrite fmap_cons. cbn [concat].
  rewrite !blen_app. lia.
Qed.

Lemma v1_payload_enc p naddr ixs off acc :
  Forall (fun x => Forall (fun a => a < naddr) (ix_acc x)) ixs ->
  has p off (payload ixs) ->
  v1_payload (hdr_of <$> ixs) p naddr off acc = Ok (acc ++ ixs, off + blen (payload ixs)).
Proof.
  intros Hf. revert off acc. induction Hf as [|x ixs Ha _ IH]; intros off acc Hh.
  { change (payload []) with (@nil Z). cbn [v1_payload fmap list_fmap]. rewrite app_nil_r.
    do 2 f_equal. change (blen []) with 0. lia. }
  unfold payload in *. rewrite fmap_cons in *. cbn [concat v1_payload hdr_of fmap list_fmap] in *.
  apply has_app in Hh as [H1 H2]. apply has_app in H1 as [H1 H1'].
  pose proof (has_len _ _ _ H1'). apply has_slice in H1, H1'.
  destruct (Z.ltb_spec (blen p) (off + blen (ix_acc x) + blen (ix_data x))); [lia|].
  rewrite H1, H1'.
  assert (He : existsb (fun a => naddr <=? a) (ix_acc x) = false).
  { apply not_true_is_false. intros (a & Hin & Hle)%existsb_exists. apply list_elem_of_In in Hin.
    rewrite Forall_forall in Ha. specialize (Ha a Hin). zb. lia. }
  rewrite He. rewrite blen_app in H2.
  etrans; [apply (IH _ _ H2)|]. rewrite <- app_assoc. f_equal. f_equal; [by destruct x|]. rewrite !blen_app. lia.
Qed.

Definition wf_v1 (w : wire) (mask : Z) (cfg : bytes) : Prop :=
  0 <= mask < 32 /\ Z.land mask 3 <> 1 /\ Z.land mask 3 <> 2 /\ blen cfg = 4 * count_ones mask /\
  NoDup (w_keys w) /\
  Forall (fun x => ix_prog x < w_nkeys w /\ Forall (fun a => a < w_nkeys w) (ix_acc x)) (w_ixs w).

Lemma blen_v1_headers ixs : blen (concat (v1_header <$> ixs)) = Z.of_nat (length ixs) * 4.
Proof.
  rewrite (blen_concat 4) by (apply Forall_fmap, Forall_true; intros x; done). by rewrite length_fmap.
Qed.

Lemma enc_v1_len w mask cfg :
  Forall (fun s => blen s = 64) (w_sigs w) -> Forall (fun k => blen k = 32) (w_keys w) ->
  blen (w_hash w) = 32 -> blen cfg = 4 * count_ones mask ->
  blen (enc_v1 w mask cfg) = 42 + w_nkeys w * 32 + count_ones mask * 4 +
    w_nix w * 4 + blen (payload (w_ixs w)) + w_nsig w * 64.
Proof.
  intros Hs Hk Hbh Hcfg. unfold enc_v1.
  rewrite !blen_app, blen_le_enc, (blen_concat 32 (w_keys w)), (blen_concat 64 (w_sigs w)),
    Hbh, Hcfg, blen_v1_headers by done.
  unfold payload, w_nkeys, w_nsig, w_nix.
  change (blen [_; _; _; _]) with 4. change (blen [_; _]) with 2. lia.
Qed.

Lemma remove_dups_id (ks : list bytes) : NoDup ks -> remove_dups ks = ks.
Proof.
  induction 1 as [|k ks Hk _ IH]; [done|]. cbn [remove_dups].
  case_decide; [done|by rewrite IH].
Qed.

(** Where the parts of an encoded v1 transaction are. *)
Lemma v1_places p start w mask cfg :
  wf_wire w -> wf_v1 w mask cfg -> has p start (enc_v1 w mask cfg) ->
  let off := start + 42 + w_nkeys w * 32 + count_ones mask * 4 in
  at_ p start = Ok TX_V1_PREFIX /\ at_ p (start + 1) = Ok (w_nsig w) /\
  at_ p (start + 2) = Ok (w_ro_s w) /\ at_ p (start + 3) = Ok (w_ro_u w) /\
  le_dec (slice (start + 4) (start + 8) p) = mask /\
  at_ p (start + 40) = Ok (w_nix w) /\ at_ p (start + 41) = Ok (w_nkeys w) /\
  key_list p (start + 42) (w_nkeys w) = w_keys w /\
  has p off (concat (v1_header <$> w_ixs w)) /\ has p (off + w_nix w * 4) (payload (w_ixs w)).
Proof.
  intros (Hh & Hs & Hk & Hbh & Hni & Hix) (Hm & Hm1 & Hm2 & Hcfg & Hnd & Hin) Hp off.
  unfold enc_v1 in Hp. rewrite !has_app in Hp.
  destruct Hp as (H1 & H2 & _ & H4 & H5 & _ & H7 & H8 & _).
  change (blen [_; _; _; _]) with 4 in *. change (blen [_; _]) with 2 in *.
  rewrite blen_le_enc, Hbh, ?(blen_concat 32 (w_keys w) Hk), Hcfg in *. fold (w_nkeys w) in *.
  change (Z.of_nat 4) with 4 in *. rewrite (blen_v1_headers (w_ixs w)) in H8. fold (w_nix w) in H8.
  split; [exact (has_at _ _ _ _ H1)|]. apply has_cons in H1. split; [exact (has_at _ _ _ _ H1)|].
  apply has_cons in H1. split; [rewrite <- (has_at _ _ _ _ H1); f_equal; lia|].
  apply has_cons in H1. split; [rewrite <- (has_at _ _ _ _ H1); f_equal; lia|]. split.
  { apply has_slice in H2. rewrite blen_le_enc in H2. change (Z.of_nat 4) with 4 in H2.
    replace (start + 8) with (start + 4 + 4) by lia. rewrite H2. apply le_dec_enc_small. cbn. lia. }
  split; [rewrite <- (has_at _ _ _ _ H4); f_equal; lia|].
  apply has_cons in H4. split; [rewrite <- (has_at _ _ _ _ H4); f_equal; lia|].
  split; [apply has_key_list; [done|]; eapply has_eq; [exact H5|lia]|].
  split; [eapply has_eq; [exact H7|lia]|eapply has_eq; [exact H8|lia]].
Qed.

(** The guards of parse_v1 on an encoded transaction that is all there. *)
Lemma parse_v1_enc p start w mask cfg :
  wf_wire w -> wf_v1 w mask cfg -> blen (enc_v1 w mask cfg) <= TX_V1_MAX ->
  has p start (enc_v1 w mask cfg) ->
  parse_v1 p start = Ok (wire_frame w "v1" (start + blen (enc_v1 w mask cfg)) false (Some mask)).
Proof.
  intros Hw Hv Hmax Hp. pose proof (v1_places p start w mask cfg Hw Hv Hp) as Hpl. cbv zeta in Hpl.
  destruct Hpl as (B0 & B1 & B2 & B3 & Bm & B40 & B41 & Bk & H7 & H8).
  destruct Hw as (Hh & Hs & Hk & Hbh & Hni & Hix), Hv as (Hm & Hm1 & Hm2 & Hcfg & Hnd & Hin).
  pose proof Hh as Hh'. apply header_ok_spec in Hh' as (Hn & Hr1 & Hr2 & Hnk).
  pose proof (enc_v1_len w mask cfg Hs Hk Hbh Hcfg) as Hlen.
  pose proof (has_len _ _ _ Hp) as [Hst Hpl]. rewrite Hlen in Hmax, Hpl |- *.
  assert (Hpay : 0 <= blen (payload (w_ixs w))) by (unfold blen; lia).
  pose proof (count_ones_nonneg mask) as Hc. unfold TX_SIG_MAX, TX_KEY_MAX, TX_INSTR_MAX, TX_V1_MAX in *.
  assert (Hfit : forall x, x <= start + 42 + w_nkeys w * 32 + count_ones mask * 4 + w_nix w * 4 +
    blen (payload (w_ixs w)) + w_nsig w * 64 -> (blen p <? x) = false) by (intros; apply Z.ltb_ge; lia).
  unfold parse_v1, TX_V1_HDR. destruct (Z.leb_spec (blen p) start); [lia|].
  rewrite B0, B1, B2, B3, Bm. cbn [pbind]. rewrite Z.eqb_refl. cbn [negb].
  rewrite (Hfit (start + 42)) by lia.
  assert (Hknown : Z.land mask (Z.lnot TX_V1_CFG_KNOWN) = 0).
  { unfold TX_V1_CFG_KNOWN. change 31 with (Z.ones 5). rewrite <- Z.ldiff_land, Z.ldiff_ones_r by lia.
    rewrite Z.shiftr_div_pow2, Z.div_small by lia. done. }
  rewrite Hknown, (proj2 (Z.eqb_neq _ _) Hm1), (proj2 (Z.eqb_neq _ _) Hm2), B40, B41.
  cbn [negb Z.eqb orb pbind]. unfold TX_INSTR_MAX.
  rewrite (proj2 (Z.eqb_neq (w_nix w) 0)), (proj2 (Z.ltb_ge 64 (w_nix w))), Hh by lia. cbn [negb orb].
  rewrite Hfit, Bk, (remove_dups_id _ Hnd) by lia. fold (w_nkeys w). rewrite Z.eqb_refl. cbn [negb].
  rewrite !Hfit by lia. unfold w_nix at 1. rewrite Nat2Z.id, v1_headers_enc;
    [|rewrite Forall_forall in *; intros x Hx; split; [by apply Hin|by apply Hix]|exact H7].
  cbn [pbind app]. unfold TX_V1_MAX. rewrite (proj2 (Z.ltb_ge 4096 _)), Hfit by lia.
  rewrite v1_payload_enc; [|rewrite Forall_forall in *; intros x Hx; by apply Hin|exact H8].
  cbn [pbind app]. rewrite Hfit by lia. unfold wire_frame. do 2 f_equal. lia.
Qed.

(** Every well-formed v1 transaction of at most 4096 bytes frames, at any place of any
    buffer, with its counts, keys, instructions and configuration mask, and ends right behind
    its signatures, whatever bytes follow. *)
Theorem v1_transaction_frames pre w mask cfg rest :
  wf_wire w -> wf_v1 w mask cfg -> blen (enc_v1 w mask cfg) <= TX_V1_MAX ->
  parse_any (pre ++ enc_v1 w mask cfg ++ rest) (blen pre) =
  Ok (wire_frame w "v1" (blen pre + blen (enc_v1 w mask cfg)) false (Some mask)).
Proof.
  intros Hw Hv Hmax. set (p := pre ++ enc_v1 w mask cfg ++ rest).
  assert (Hp : has p (blen pre) (enc_v1 w mask cfg)) by (by exists pre, rest).
  rewrite <- (parse_v1_enc p (blen pre) w mask cfg Hw Hv Hmax Hp). unfold parse_any.
  pose proof (v1_places p (blen pre) w mask cfg Hw Hv Hp) as [B0 _]. unfold at_ in B0.
  assert (Hlt : blen pre < blen p).
  { unfold p. rewrite !blen_app. unfold enc_v1. cbn [app]. rewrite blen_cons. unfold blen. lia. }
  rewrite (proj2 (Z.ltb_lt _ _) Hlt). destruct (p !! _); [injection B0 as ->|done].
  by rewrite bool_decide_eq_true_2.
Qed.

(** A framed v1 transaction is never taken for a legacy one: the framer from before v1 answers
    "incomplete" or "invalid" on its first byte. *)
Lemma legacy_rejects_v1 raw start f :
  is_bytes raw -> 0 <= start -> raw !! Z.to_nat start = Some TX_V1_PREFIX ->
  parse_legacy_v0 raw start <> Ok f.
Proof.
  intros Hby Hs Hp Hf. unfold parse_legacy_v0 in Hf.
  apply pbind_Ok in Hf as ([[n v] off] & Hh & _). unfold legacy_head in Hh.
  apply pbind_Ok in Hh as ([ns o] & Hc & Hh). destruct (Z.ltb_spec 12 ns) as [|Hn].
  { unfold TX_SIG_MAX in Hh. rewrite (proj2 (Z.ltb_lt 12 ns)), orb_true_r in Hh by lia. done. }
  assert (Hby' : is_bytes (drop (Z.to_nat start) raw)) by by apply is_bytes_drop.
  pose proof (get_cu16_small _ 0 _ _ ns o Hby' ltac:(lia) Hc ltac:(lia)) as ->.
  unfold get_cu16, cu16 in Hc. assert (Hat : at_ (drop (Z.to_nat start) raw) 0 = Ok TX_V1_PREFIX).
  { unfold at_. rewrite lookup_drop, Nat.add_0_r, Hp. done. }
  rewrite Hat in Hc. cbn [pbind] in Hc. change (Z.land TX_V1_PREFIX 128 =? 0) with false in Hc.
  destruct (blen _ <=? 0); [done|]. destruct (blen _ <=? 0 + 1); [done|].
  destruct (at_ _ (0 + 1)) as [b1| | |]; cbn [pbind] in Hc; [|done..].
  destruct (Z.land b1 128 =? 0); [by destruct (b1 =? 0)|].
  destruct (blen _ <=? 0 + 2); [done|].
  destruct (at_ _ (0 + 2)) as [b2| | |]; cbn [pbind] in Hc; [|done..].
  by destruct (negb _ || _)%bool.
Qed.

(** * What the stages say *)

(** The instruction's program is one of the two exchanges, by the keys of the transaction. *)
Definition dex_ix (keys : list bytes) (x : instr) : bool :=
  match keys !! Z.to_nat (ix_prog x) with
  | Some pk => is_dex pk
  | None => false
  end.

(** It is a swap whose effect the writer expectations are exact for. *)
Definition exact_ix (keys : list bytes) (x : instr) : bool :=
  (ix_prog x <? Z.of_nat (length keys)) && dex_ix keys x &&
  (24 <=? blen (ix_data x)) && bool_decide (take 8 (ix_data x) ∈ EXACT).

(** It may touch an exchange pool in a way the framer does not know. *)
Definition unknown_ix (keys : list bytes) (x : instr) : bool :=
  if Z.of_nat (length keys) <=? ix_prog x then true
  else dex_ix keys x && negb (exact_ix keys x).

Definition cnt (f : instr -> bool) (ixs : list instr) : Z := Z.of_nat (length (List.filter f ixs)).

Lemma count_ix_spec keys ixs c :
  Forall (fun x => 0 <= ix_prog x) ixs ->
  foldl (count_ix keys) c ixs =
  Counts (n_exact c + cnt (exact_ix keys) ixs) (n_unknown c + cnt (unknown_ix keys) ixs)
    (n_other c + cnt (fun x => negb (exact_ix keys x) && negb (unknown_ix keys x)) ixs).
Proof.
  intros Hf. revert c. induction Hf as [|x ixs Hx _ IH]; intros [a b o]; cbn [foldl n_exact n_unknown n_other].
  { unfold cnt. cbn. f_equal; lia. }
  rewrite IH. unfold cnt. cbn [List.filter n_exact n_unknown n_other].
  assert (E : (exact_ix keys x = true /\ unknown_ix keys x = false /\
               count_ix keys (Counts a b o) x = Counts (a + 1) b o) \/
              (exact_ix keys x = false /\ unknown_ix keys x = true /\
               count_ix keys (Counts a b o) x = Counts a (b + 1) o) \/
              (exact_ix keys x = false /\ unknown_ix keys x = false /\
               count_ix keys (Counts a b o) x = Counts a b (o + 1))).
  { unfold count_ix, unknown_ix, exact_ix, dex_ix. cbn [n_exact n_unknown n_other].
    destruct (Z.leb_spec (Z.of_nat (length keys)) (ix_prog x)) as [Hp|Hp].
    - rewrite (proj2 (Z.ltb_ge _ _) Hp). cbn. right. left. done.
    - rewrite (proj2 (Z.ltb_lt _ _) Hp). destruct (lookup_lt_is_Some_2 keys (Z.to_nat (ix_prog x))) as [pk ->]; [lia|].
      destruct (is_dex pk), (24 <=? blen (ix_data x)), (bool_decide (take 8 (ix_data x) ∈ EXACT));
        cbn [andb negb]; repeat case_match; auto. }
  destruct E as [(-> & -> & ->)|[(-> & -> & ->)|(-> & -> & ->)]]; cbn [andb negb length n_exact n_unknown n_other];
    f_equal; lia.
Qed.

Lemma cnt_ex f ixs : cnt f ixs <> 0 <-> exists x, x ∈ ixs /\ f x = true.
Proof.
  unfold cnt. induction ixs as [|y ixs IH]; cbn [List.filter].
  - split; [done|]. intros (x & Hx & _). by apply elem_of_nil in Hx.
  - destruct (f y) eqn:E; cbn [length].
    + split; [|lia]. intros _. exists y. split; [apply list_elem_of_here|done].
    + rewrite IH. split; intros (x & Hx & Ht).
      * exists x. split; [by apply list_elem_of_further|done].
      * apply elem_of_cons in Hx as [->|Hx]; [congruence|eauto].
Qed.

Lemma cnt_nonneg f ixs : 0 <= cnt f ixs.
Proof. unfold cnt. lia. Qed.

(** The stage of a framed transaction: TX_EXACT means that some instruction is a known swap
    of an exchange program and every instruction of such a program is one; IX_EXACT that some is
    but another exchange instruction, or one whose program is not among the keys, is not; UNKNOWN
    that none is.  The three counters count every instruction once. *)
Theorem classify_stage keys ixs :
  Forall (fun x => 0 <= ix_prog x) ixs ->
  let '(c, st, dex) := classify_ixs keys ixs in
  let some_exact := exists x, x ∈ ixs /\ exact_ix keys x = true in
  let some_unknown := exists x, x ∈ ixs /\ unknown_ix keys x = true in
  (st = TX_EXACT <-> some_exact /\ ~ some_unknown) /\
  (st = IX_EXACT <-> some_exact /\ some_unknown) /\
  (st = UNKNOWN <-> ~ some_exact) /\
  n_exact c + n_unknown c + n_other c = Z.of_nat (length ixs) /\
  (dex = true <-> exists k, k ∈ keys /\ (k = PROG_DLMM \/ k = PROG_PUMP)).
Proof.
  intros Hf. unfold classify_ixs. rewrite count_ix_spec by done. cbn [n_exact n_unknown n_other].
  cbv zeta. rewrite <- !cnt_ex. pose proof (cnt_nonneg (exact_ix keys) ixs).
  split; [|split; [|split; [|split]]].
  1-3: destruct (Z.eqb_spec (0 + cnt (exact_ix keys) ixs) 0),
    (Z.eqb_spec (0 + cnt (unknown_ix keys) ixs) 0); cbn [negb andb]; split; try done; try lia.
  - unfold cnt. clear. induction ixs as [|x ixs IH]; [done|]. cbn [List.filter length].
    assert (Hx : exact_ix keys x && unknown_ix keys x = false).
    { unfold unknown_ix. destruct (exact_ix keys x) eqn:E; [|done]. unfold exact_ix in E. zb.
      destruct (Z.leb_spec (Z.of_nat (length keys)) (ix_prog x)); [lia|]. by rewrite andb_false_r. }
    destruct (exact_ix keys x), (unknown_ix keys x); cbn [negb andb length] in *; try done; lia.
  - rewrite existsb_exists. unfold is_dex. split.
    + intros (k & Hk & Hd). exists k. apply list_elem_of_In in Hk. split; [done|].
      apply orb_true_iff in Hd as [Hd|Hd]; apply bool_decide_eq_true in Hd; auto.
    + intros (k & Hk & Hd). exists k. split; [by apply list_elem_of_In|].
      apply orb_true_iff. rewrite !bool_decide_eq_true. done.
Qed.

(** * Concrete transactions *)

Definition demo_ix (acc : list Z) : instr := Ix 1 acc (PUMP_SELL ++ replicate 16 0).

Definition demo_wire (acc : list Z) : wire :=
  Wire [replicate 64 9] 0 1 [replicate 32 1; PROG_PUMP] (replicate 32 3) [demo_ix acc].

Lemma demo_wire_wf acc : blen acc < 65536 -> wf_wire (demo_wire acc).
Proof.
  intros Ha. unfold wf_wire, demo_wire. cbn [w_sigs w_keys w_hash w_ixs].
  split; [reflexivity|]. split; [by repeat constructor|]. split; [by repeat constructor|].
  split; [reflexivity|]. split; [split; vm_compute; discriminate|].
  constructor; [|constructor]. split; [done|reflexivity].
Qed.

Definition demo_v0 : bytes := enc_legacy (demo_wire [0; 1]) (Some [(replicate 32 5, [1; 2], [3])]).
Definition demo_v1 : bytes := enc_v1 (demo_wire [0; 1]) 3 (replicate 8 0).

Lemma demo_v0_bytes rest : is_bytes rest -> is_bytes ([] ++ demo_v0 ++ rest).
Proof.
  intros Hr. cbn [app]. apply is_bytes_app. split; [|done].
  apply (bool_decide_unpack _). vm_compute. exact I.
Qed.

Lemma legacy_message_frames_witness :
  wf_luts (Some [(replicate 32 5, [1; 2], [3])]) /\
  parse_any ([] ++ demo_v0 ++ [7; 7]) (blen []) =
  Ok (wire_frame (demo_wire [0; 1]) "v0" (blen [] + blen demo_v0) true None) /\
  (exists f, parse_any ([4] ++ enc_legacy (demo_wire [0; 1]) None ++ [7]) (blen [4]) = Ok f /\
     Forall (fun x => Forall (fun a => is_Some (f_keys f !! Z.to_nat a)) (ix_prog x :: ix_acc x)) (f_ixs f)).
Proof.
  assert (Hl : wf_luts (Some [(replicate 32 5, [1; 2], [3])])).
  { split; [cbn; lia|]. constructor; [|constructor]. cbn. repeat split; reflexivity. }
  assert (Ha : forall luts, well_addressed (demo_wire [0; 1]) luts).
  { intros luts. constructor; [|constructor]. split; [discriminate|]. intros _. repeat constructor; (discriminate || reflexivity). }
  split; [exact Hl|]. split.
  - destruct (legacy_message_frames [] (demo_wire [0; 1]) (Some [(replicate 32 5, [1; 2], [3])]) [7; 7]) as (f & E & -> & _).
    + apply demo_v0_bytes. by repeat constructor.
    + apply demo_wire_wf. reflexivity.
    + exact Hl.
    + apply Ha.
    + exact E.
  - destruct (legacy_message_frames [4] (demo_wire [0; 1]) None [7]) as (f & E & _ & H).
    + apply (bool_decide_unpack _). vm_compute. exact I.
    + apply demo_wire_wf. reflexivity.
    + exact I.
    + apply Ha.
    + exists f. split; [exact E|]. by apply H.
Defined.

Lemma v1_transaction_frames_witness :
  parse_any ([4] ++ demo_v1 ++ [7; 7]) (blen [4]) =
  Ok (wire_frame (demo_wire [0; 1]) "v1" (blen [4] + blen demo_v1) false (Some 3)).
Proof.
  apply (v1_transaction_frames [4] (demo_wire [0; 1]) 3 (replicate 8 0) [7; 7]).
  - apply demo_wire_wf. reflexivity.
  - unfold wf_v1. split; [lia|]. split; [discriminate|]. split; [discriminate|].
    split; [reflexivity|]. split.
    + apply (bool_decide_unpack _). vm_compute. exact I.
    + constructor; [|constructor]. split; [reflexivity|]. by repeat constructor.
  - vm_compute. discriminate.
Defined.

Lemma framing_total_witness :
  exists f, parse_any demo_v1 0 = Ok f /\ frame_ok 0 (blen demo_v1) f.
Proof.
  assert (Hb : is_bytes demo_v1) by (apply (bool_decide_unpack _); vm_compute; exact I).
  pose proof (framing_total demo_v1 0 Hb ltac:(lia)) as H.
  destruct (parse_any demo_v1 0) as [f|w|w|ex] eqn:E; [|vm_compute in E; discriminate E..].
  exists f. split; [reflexivity|exact H].
Defined.

Lemma framing_cut_witness :
  (exists why, parse_any (take 150 demo_v1) 0 = Need why) \/
  parse_any (take 150 demo_v1) 0 = Bad "hdr_nsig".
Proof.
  assert (Hb : is_bytes demo_v1) by (apply (bool_decide_unpack _); vm_compute; exact I).
  destruct (parse_any demo_v1 0) as [f|w|w|ex] eqn:E; [|vm_compute in E; discriminate E..].
  destruct (framing_cut demo_v1 0 150 f Hb ltac:(lia) E) as [_ H].
  destruct H as [H|(_ & _ & H)]; [|left; exact H|right; exact H].
  vm_compute in E. injection E as <-. cbn. lia.
Defined.

Lemma classify_stage_witness :
  Forall (fun x => 0 <= ix_prog x) [demo_ix [0]] /\
  (classify_ixs [replicate 32 1; PROG_PUMP] [demo_ix [0]]).1.2 = TX_EXACT.
Proof.
  assert (Hf : Forall (fun x => 0 <= ix_prog x) [demo_ix [0]]) by (constructor; [cbn; lia|constructor]).
  split; [exact Hf|].
  pose proof (classify_stage [replicate 32 1; PROG_PUMP] [demo_ix [0]] Hf) as H.
  destruct (classify_ixs [replicate 32 1; PROG_PUMP] [demo_ix [0]]) as [[c st] dex].
  destruct H as [H _]. cbn [fst snd]. apply H. split.
  - exists (demo_ix [0]). split; [apply list_elem_of_here|vm_compute; reflexivity].
  - intros (x & Hx & Hu). apply list_elem_of_singleton in Hx. subst x. vm_compute in Hu. discriminate Hu.
Defined.

(** The cut of a v0 transaction behind its version byte: 66 bytes of a transaction that frames. *)
Lemma v0_cut_invalid :
  is_Some (match parse_any demo_v0 0 with Ok f => Some f | _ => None end) /\
  parse_any (take 66 demo_v0) 0 = Bad "hdr_nsig".
Proof. split; [by vm_compute; eexists|vm_compute; reflexivity]. Qed.

(** A legacy message frames although an instruction names account 7 of 2. *)
Lemma legacy_accounts_unchecked :
  exists f, parse_any (enc_legacy (demo_wire [7]) None) 0 = Ok f /\ f_ver f = "legacy"%string /\
    f_nkeys f = 2 /\ f_ixs f = [demo_ix [7]].
Proof. eexists. split; [vm_compute; reflexivity|]. repeat split; reflexivity. Qed.
