(* ===== verification/AuthRead.v ===== *)
(** Readers of what the plane publishes: parse_dlmm and parse_pump of
    arb-cap/timer_decay/auth_ro.py, which decode the blobs that write_dlmm and write_pump
    (Accounts) put into the ring, and iter_recs of arb-cap/timer_decay/replay.py, which reads the
    log that recon.py (Recon) writes. *)
From stdpp Require Import base list strings.
From Stdlib Require Import ZArith Lia.
From S2P Require Import Prelude PyBytes Accounts DlmmQuote Recon Inventory.
Open Scope Z_scope.
Open Scope py_scope.

(** The loop over the bins of a blob: an outer [None] of the option is the [return None]. *)
Fixpoint blob_bins (n : nat) (blob : bytes) (o : Z) : pyres (option (list qbin)) :=
  match n with
  | O => Ret (Some [])
  | S n' =>
      if blen blob <? o + 20 then Ret None else
      bid <-! unpack_s 4 blob o ;;
      x <-! unpack_u 8 blob (o + 4) ;;
      y <-! unpack_u 8 blob (o + 12) ;;
      rest <-! blob_bins n' blob (o + 20) ;;
      Ret (match rest with Some bs => Some (QBin bid x y 0 :: bs) | None => None end)
  end.

Definition parse_dlmm (blob : bytes) : pyres (option dlmm) :=
  if blen blob <? 67 then Ret None else
  active <-! unpack_s 4 blob 0 ;;
  bin_step <-! unpack_u 2 blob 4 ;;
  status <-! py_index blob 6 ;;
  bf <-! unpack_u 2 blob 7 ;;
  fp <-! unpack_u 2 blob 9 ;;
  dp <-! unpack_u 2 blob 11 ;;
  rf <-! unpack_u 2 blob 13 ;;
  vfc <-! unpack_u 4 blob 15 ;;
  mva <-! unpack_u 4 blob 19 ;;
  pshare <-! unpack_u 2 blob 23 ;;
  power <-! py_index blob 25 ;;
  fee_mode <-! py_index blob 26 ;;
  vacc <-! unpack_u 4 blob 27 ;;
  vref <-! unpack_u 4 blob 31 ;;
  iref <-! unpack_s 4 blob 35 ;;
  last <-! unpack_s 8 blob 39 ;;
  rx <-! unpack_u 8 blob 47 ;;
  ry <-! unpack_u 8 blob 55 ;;
  now <-! unpack_s 8 blob 63 ;;
  nbin <-! unpack_u 2 blob 71 ;;
  bins <-! blob_bins (Z.to_nat nbin) blob 73 ;;
  Ret (match bins with
       | Some bs => Some (Dlmm active bin_step status bf fp dp rf vfc mva pshare power fee_mode
                            vacc vref iref last rx ry now bs)
       | None => None
       end).

Definition parse_pump (blob : bytes) : pyres (option pump) :=
  if blen blob <? 50 then Ret None else
  rb <-! unpack_u 8 blob 0 ;;
  rq <-! unpack_u 8 blob 8 ;;
  vq <-! unpack_s 8 blob 16 ;;
  lp <-! unpack_u 8 blob 24 ;;
  proto <-! unpack_u 8 blob 32 ;;
  creator <-! unpack_u 8 blob 40 ;;
  disabled <-! py_index blob 48 ;;
  status <-! py_index blob 49 ;;
  Ret (Some (Pump rb rq vq lp proto creator disabled status)).

(** * The log reader *)

Definition FIXED : Z := 80.

(** One record of the log: kind, proto, idx, slot, body. *)
Record rrec := RRec { rr_kind : Z; rr_proto : Z; rr_idx : Z; rr_slot : Z; rr_body : bytes }.

(** The generator's loop on the bytes not read yet. *)
Fixpoint iter_loop (fuel : nat) (raw : bytes) : pyres (list rrec) :=
  match fuel with
  | O => Ret []
  | S fuel' =>
      if blen raw <? 4 then Ret [] else
      let ln := le_dec (take 4 raw) in
      if (ln <? FIXED) || (5000 <? ln) then Ret [] else
      let blob := take (Z.to_nat ln) (drop 4 raw) in
      if blen blob <? ln then Ret [] else
      kind <-! unpack_u 1 blob 0 ;;
      proto <-! unpack_u 1 blob 1 ;;
      idx <-! unpack_u 4 blob 4 ;;
      slot <-! unpack_u 8 blob 72 ;;
      let body := drop (Z.to_nat FIXED) blob in
      rest <-! iter_loop fuel' (drop (Z.to_nat (4 + ln)) raw) ;;
      Ret (RRec kind proto idx slot body :: rest)
  end.

(** Every turn consumes at least 84 bytes, so the length of the file is fuel enough. *)
Definition iter_recs (file : bytes) : pyres (list rrec) :=
  let hdr := take 8 file in
  if (blen hdr <? 8) || negb (le_dec (take 4 hdr) =? 0x36305453)
  then Raise (RuntimeError "bad recon magic")
  else iter_loop (length file) (drop 8 file).

(** * Reading packed fields *)

Lemma py_bind_ret {A B} (a : A) (f : A -> pyres B) : py_bind (Ret a) f = f a.
Proof. done. Qed.


Lemma unpack_s_field fs i n z off :
  fs !! i = Some (n, z) -> off = width (take i fs) -> (0 < n)%nat ->
  - 2 ^ (8 * Z.of_nat n - 1) <= z < 2 ^ (8 * Z.of_nat n - 1) ->
  unpack_s n (enc_fields fs) off = Ret z.
Proof.
  intros Hi -> Hn Hz. pose proof (take_drop_middle fs i (n, z) Hi) as Hfs.
  assert (E : exists r, enc_fields fs = enc_fields (take i fs) ++ le_enc n z ++ r).
  { exists (enc_fields (drop (S i) fs)). rewrite <- Hfs at 1.
    unfold enc_fields. by rewrite fmap_app, concat_app, fmap_cons. }
  destruct E as [r ->]. unfold unpack_s, unpack_u.
  rewrite <- (blen_enc_fields (take i fs)).
  destruct (Z.leb_spec (blen (enc_fields (take i fs)) + Z.of_nat n)
              (blen (enc_fields (take i fs) ++ le_enc n z ++ r))) as [|Hgt].
  - cbn [py_bind]. f_equal. rewrite <- (blen_le_enc n z), slice_middle by done.
    by apply to_signed_enc.
  - rewrite !blen_app, blen_le_enc in Hgt. unfold blen in Hgt. lia.
Qed.

Lemma py_index_unpack blob i b : unpack_u 1 blob i = Ret b -> 0 <= i -> py_index blob i = Ret b.
Proof.
  unfold unpack_u, py_index, slice. destruct (Z.leb_spec (i + Z.of_nat 1) (blen blob)) as [H|]; [|done].
  intros [= <-] Hi. destruct (lookup_lt_is_Some_2 blob (Z.to_nat i)) as [x Hx].
  { unfold blen in H. lia. }
  rewrite Hx. f_equal. replace (Z.to_nat (i + Z.of_nat 1 - i)) with 1%nat by lia.
  rewrite (drop_S _ _ _ Hx). change (x = le_dec [x]). cbn [le_dec]. lia.
Qed.

Inductive fsign := FU | FS.
Definition pack1 (f : fsign * nat * Z) : pyres bytes :=
  match f with
  | (FU, n, z) => pack_u n z
  | (FS, n, z) => pack_s n z
  end.

Definition fits (f : fsign * nat * Z) : Prop :=
  match f with
  | (FU, n, z) => 0 <= z < 2 ^ (8 * Z.of_nat n)
  | (FS, n, z) => - 2 ^ (8 * Z.of_nat n - 1) <= z < 2 ^ (8 * Z.of_nat n - 1)
  end.

Definition unsign (f : fsign * nat * Z) : nat * Z := (f.1.2, f.2).

(** What was packed is the sequence of the fields, each in its range. *)
Lemma pack_all_fields fs b :
  pack_all (pack1 <$> fs) = Ret b -> b = enc_fields (unsign <$> fs) /\ Forall fits fs.
Proof.
  revert b. induction fs as [|[[sg n] z] fs IH]; intros b; cbn [fmap list_fmap pack_all].
  { intros [= <-]. done. }
  intros H. apply py_bind_Ret in H as (b1 & H1 & H). apply py_bind_Ret in H as (b2 & H2 & H).
  injection H as <-. apply IH in H2 as [-> Hf].
  assert (E : b1 = le_enc n z /\ fits (sg, n, z)).
  { destruct sg; cbn [pack1] in H1; unfold pack_u, pack_s in H1;
      destruct (_ && _) eqn:Hr; try discriminate; injection H1 as <-; split; try done; unfold fits; zb; lia. }
  destruct E as [-> Hz]. split; [done|]. by constructor.
Qed.

(** * What readers decode is what was published *)

Definition published_bins (snap : dlmm_snap) : list bin :=
  sort_bins (dedup_bins [] (filter (in_window (Accounts.active_id (sn_lb snap))) (sn_bins snap))).

(** The state a published snapshot stands for. *)
Definition dlmm_of (snap : dlmm_snap) (now : Z) : dlmm :=
  let lb := sn_lb snap in
  Dlmm (Accounts.active_id lb) (Accounts.bin_step lb) (lb_status lb) (Accounts.base_factor lb)
    (Accounts.filter_period lb) (Accounts.decay_period lb) (Accounts.reduction_factor lb)
    (Accounts.variable_fee_control lb) (Accounts.max_volatility_accumulator lb)
    (Accounts.protocol_share lb) (Accounts.base_fee_power_factor lb)
    (Accounts.collect_fee_mode lb) (Accounts.vol_acc lb) (Accounts.vol_ref lb)
    (Accounts.idx_ref lb) (Accounts.last_upd lb) (sn_reserve_x snap) (sn_reserve_y snap) now
    ((fun b => QBin (bin_id b) (bin_x b) (bin_y b) 0) <$> published_bins snap).

Definition bin_fields (b : bin) : list (fsign * nat * Z) :=
  [(FS, 4%nat, bin_id b); (FU, 8%nat, bin_x b); (FU, 8%nat, bin_y b)].

Definition dlmm_fields (now : Z) (snap : dlmm_snap) : list (fsign * nat * Z) :=
  let lb := sn_lb snap in
  [(FS, 4%nat, Accounts.active_id lb); (FU, 2%nat, Accounts.bin_step lb); (FU, 1%nat, lb_status lb);
   (FU, 2%nat, Accounts.base_factor lb); (FU, 2%nat, Accounts.filter_period lb);
   (FU, 2%nat, Accounts.decay_period lb); (FU, 2%nat, Accounts.reduction_factor lb);
   (FU, 4%nat, Accounts.variable_fee_control lb); (FU, 4%nat, Accounts.max_volatility_accumulator lb);
   (FU, 2%nat, Accounts.protocol_share lb); (FU, 1%nat, Accounts.base_fee_power_factor lb);
   (FU, 1%nat, Accounts.collect_fee_mode lb); (FU, 4%nat, Accounts.vol_acc lb);
   (FU, 4%nat, Accounts.vol_ref lb); (FS, 4%nat, Accounts.idx_ref lb); (FS, 8%nat, Accounts.last_upd lb);
   (FU, 8%nat, sn_reserve_x snap); (FU, 8%nat, sn_reserve_y snap); (FS, 8%nat, now);
   (FU, 2%nat, Z.of_nat (length (published_bins snap)))] ++
  concat (bin_fields <$> published_bins snap).

Lemma write_bins_fields bs : write_bins bs = pack1 <$> concat (bin_fields <$> bs).
Proof.
  unfold write_bins. induction bs as [|b bs IH]; [done|].
  rewrite !fmap_cons. cbn [concat]. by rewrite IH, fmap_app.
Qed.

Lemma write_dlmm_fields now snap : write_dlmm now snap = pack_all (pack1 <$> dlmm_fields now snap).
Proof.
  unfold write_dlmm, dlmm_fields. rewrite fmap_app, write_bins_fields. reflexivity.
Qed.

Lemma width_app fs gs : width (fs ++ gs) = width fs + width gs.
Proof.
  unfold width. rewrite fmap_app. induction fs as [|f fs IH]; [done|].
  cbn [app fmap list_fmap] in *. change (sum_list (?x :: ?l)) with (x + sum_list l)%nat. lia.
Qed.

Lemma blob_bins_fields pre bs :
  Forall fits (concat (bin_fields <$> bs)) ->
  blob_bins (length bs) (enc_fields (pre ++ (unsign <$> concat (bin_fields <$> bs)))) (width pre) =
  Ret (Some ((fun b => QBin (bin_id b) (bin_x b) (bin_y b) 0) <$> bs)).
Proof.
  revert pre. induction bs as [|b bs IH]; intros pre Hf; [done|].
  rewrite fmap_cons in *. cbn [concat length blob_bins] in *. rewrite fmap_app.
  apply Forall_app in Hf as [Hb Hf].
  set (fs := pre ++ (unsign <$> bin_fields b) ++ (unsign <$> concat (bin_fields <$> bs))).
  inversion_clear Hb as [|? ? H1 Hb1]. inversion_clear Hb1 as [|? ? H2 Hb2].
  inversion_clear Hb2 as [|? ? H3 _].
  assert (Hw : width fs = width pre + 20 + width (unsign <$> concat (bin_fields <$> bs))).
  { unfold fs. rewrite !width_app. change (width (unsign <$> bin_fields b)) with 20. lia. }
  rewrite blen_enc_fields.
  destruct (Z.ltb_spec (width fs) (width pre + 20)) as [Hlt|_]; [unfold width in *; lia|].
  assert (Ht : forall k, (k <= 3)%nat ->
    take (length pre + k) fs = pre ++ take k (unsign <$> bin_fields b)).
  { intros k Hk. unfold fs. rewrite take_app_add. f_equal. rewrite take_app_le; [done|]. cbn. lia. }
  assert (Hw0 : width (take 0 (unsign <$> bin_fields b)) = 0) by reflexivity.
  assert (Hw1 : width (take 1 (unsign <$> bin_fields b)) = 4) by reflexivity.
  assert (Hw2 : width (take 2 (unsign <$> bin_fields b)) = 12) by reflexivity.
  rewrite (unpack_s_field fs (length pre + 0) 4 (bin_id b)), (unpack_field fs (length pre + 1) 8 (bin_x b)),
    (unpack_field fs (length pre + 2) 8 (bin_y b));
    try (rewrite Ht by lia; rewrite width_app, ?Hw0, ?Hw1, ?Hw2; lia);
    try (unfold fs; rewrite lookup_app_r by lia; rewrite Nat.add_sub_swap, Nat.sub_diag by lia; done);
    try assumption; try lia.
  cbn [py_bind]. specialize (IH (pre ++ (unsign <$> bin_fields b)) Hf).
  rewrite <- app_assoc in IH. fold fs in IH. rewrite width_app in IH.
  change (width (unsign <$> bin_fields b)) with 20 in IH. by rewrite IH.
Qed.

(** A header field reads back, whatever fields follow the header. *)
Section header.
Context (hs : list (fsign * nat * Z)) (rest : list (nat * Z)) (Hfit : Forall fits hs).
Let blob := enc_fields ((unsign <$> hs) ++ rest).

Lemma header_lookup i sg n z :
  hs !! i = Some (sg, n, z) ->
  ((unsign <$> hs) ++ rest) !! i = Some (n, z) /\
  take i ((unsign <$> hs) ++ rest) = take i (unsign <$> hs) /\ fits (sg, n, z).
Proof.
  intros Hi. pose proof (lookup_lt_Some _ _ _ Hi) as Hl. split; [|split].
  - rewrite lookup_app_l by (by rewrite length_fmap). by rewrite list_lookup_fmap, Hi.
  - apply take_app_le. rewrite length_fmap. lia.
  - exact (Forall_lookup_1 _ _ _ _ Hfit Hi).
Qed.

Lemma header_u i n z off :
  hs !! i = Some (FU, n, z) -> off = width (take i (unsign <$> hs)) -> unpack_u n blob off = Ret z.
Proof.
  intros Hi ->. destruct (header_lookup i FU n z Hi) as (H1 & H2 & H3).
  apply (unpack_field _ i); [done|by rewrite H2|exact H3].
Qed.

Lemma header_s i n z off :
  hs !! i = Some (FS, n, z) -> off = width (take i (unsign <$> hs)) -> (0 < n)%nat ->
  unpack_s n blob off = Ret z.
Proof.
  intros Hi -> Hn. destruct (header_lookup i FS n z Hi) as (H1 & H2 & H3).
  apply (unpack_s_field _ i); [done|by rewrite H2|done|exact H3].
Qed.

Lemma header_b i z off :
  hs !! i = Some (FU, 1%nat, z) -> off = width (take i (unsign <$> hs)) -> py_index blob off = Ret z.
Proof.
  intros Hi Ho. apply py_index_unpack; [by apply (header_u i)|]. subst. unfold width. lia.
Qed.
End header.

(** A DLMM snapshot that write_dlmm can encode is decoded by the readers' parse_dlmm to the
    same state: every pair field, the two reserves, the clock, and the bins of the window, each id
    once, with their amounts. *)
Theorem parse_write_dlmm now snap blob :
  write_dlmm now snap = Ret blob -> parse_dlmm blob = Ret (Some (dlmm_of snap now)).
Proof.
  rewrite write_dlmm_fields. intros H. apply pack_all_fields in H as [-> Hf].
  unfold dlmm_fields in *. rewrite fmap_app. apply Forall_app in Hf as [Hh Hb].
  set (lb := sn_lb snap) in *. set (bs := published_bins snap) in *.
  match goal with |- context [(unsign <$> ?h) ++ ?r] => set (hs := h) in *; set (rest := r) end.
  assert (Hw : width (unsign <$> hs) = 73) by reflexivity.
  unfold parse_dlmm. rewrite blen_enc_fields, width_app, Hw.
  destruct (Z.ltb_spec (73 + width rest) 67) as [Hlt|_]; [unfold width in Hlt; lia|].
  rewrite (header_s hs rest Hh 0 4 (Accounts.active_id lb)) by (reflexivity || lia). rewrite py_bind_ret.
  rewrite (header_u hs rest Hh 1 2 (Accounts.bin_step lb)) by reflexivity. rewrite py_bind_ret.
  rewrite (header_b hs rest Hh 2 (lb_status lb)) by reflexivity. rewrite py_bind_ret.
  rewrite (header_u hs rest Hh 3 2 (Accounts.base_factor lb)) by reflexivity. rewrite py_bind_ret.
  rewrite (header_u hs rest Hh 4 2 (Accounts.filter_period lb)) by reflexivity. rewrite py_bind_ret.
  rewrite (header_u hs rest Hh 5 2 (Accounts.decay_period lb)) by reflexivity. rewrite py_bind_ret.
  rewrite (header_u hs rest Hh 6 2 (Accounts.reduction_factor lb)) by reflexivity. rewrite py_bind_ret.
  rewrite (header_u hs rest Hh 7 4 (Accounts.variable_fee_control lb)) by reflexivity. rewrite py_bind_ret.
  rewrite (header_u hs rest Hh 8 4 (Accounts.max_volatility_accumulator lb)) by reflexivity. rewrite py_bind_ret.
  rewrite (header_u hs rest Hh 9 2 (Accounts.protocol_share lb)) by reflexivity. rewrite py_bind_ret.
  rewrite (header_b hs rest Hh 10 (Accounts.base_fee_power_factor lb)) by reflexivity. rewrite py_bind_ret.
  rewrite (header_b hs rest Hh 11 (Accounts.collect_fee_mode lb)) by reflexivity. rewrite py_bind_ret.
  rewrite (header_u hs rest Hh 12 4 (Accounts.vol_acc lb)) by reflexivity. rewrite py_bind_ret.
  rewrite (header_u hs rest Hh 13 4 (Accounts.vol_ref lb)) by reflexivity. rewrite py_bind_ret.
  rewrite (header_s hs rest Hh 14 4 (Accounts.idx_ref lb)) by (reflexivity || lia). rewrite py_bind_ret.
  rewrite (header_s hs rest Hh 15 8 (Accounts.last_upd lb)) by (reflexivity || lia). rewrite py_bind_ret.
  rewrite (header_u hs rest Hh 16 8 (sn_reserve_x snap)) by reflexivity. rewrite py_bind_ret.
  rewrite (header_u hs rest Hh 17 8 (sn_reserve_y snap)) by reflexivity. rewrite py_bind_ret.
  rewrite (header_s hs rest Hh 18 8 now) by (reflexivity || lia). rewrite py_bind_ret.
  rewrite (header_u hs rest Hh 19 2 (Z.of_nat (length bs))) by reflexivity. rewrite py_bind_ret.
  rewrite Nat2Z.id, <- Hw. unfold rest. rewrite blob_bins_fields by done. reflexivity.
Qed.

(** A Pump row that write_pump can encode is decoded by the readers' parse_pump to the same
    reserves, virtual reserve, fees, disabled mask and status. *)
Theorem parse_write_pump row blob :
  write_pump row = Ret blob ->
  parse_pump blob = Ret (Some (Pump (pr_reserve_base row) (pr_reserve_quote row) (pr_virtual row)
    (pr_lp row) (pr_protocol row) (pr_creator row) (pr_disabled row) (pr_status row))).
Proof.
  intros H. change (write_pump row) with (pack_all (pack1 <$>
    [(FU, 8%nat, pr_reserve_base row); (FU, 8%nat, pr_reserve_quote row); (FS, 8%nat, pr_virtual row);
     (FU, 8%nat, pr_lp row); (FU, 8%nat, pr_protocol row); (FU, 8%nat, pr_creator row);
     (FU, 1%nat, pr_disabled row); (FU, 1%nat, pr_status row)])) in H.
  set (hs := [_; _; _; _; _; _; _; _]) in H. apply pack_all_fields in H as [-> Hh].
  rewrite <- (app_nil_r (unsign <$> hs)). unfold parse_pump. rewrite blen_enc_fields, width_app.
  assert (Hw : width (unsign <$> hs) + width [] = 50) by reflexivity.
  rewrite Hw. change (50 <? 50) with false. cbv iota.
  rewrite (header_u hs [] Hh 0 8 (pr_reserve_base row)) by reflexivity. rewrite py_bind_ret.
  rewrite (header_u hs [] Hh 1 8 (pr_reserve_quote row)) by reflexivity. rewrite py_bind_ret.
  rewrite (header_s hs [] Hh 2 8 (pr_virtual row)) by (reflexivity || lia). rewrite py_bind_ret.
  rewrite (header_u hs [] Hh 3 8 (pr_lp row)) by reflexivity. rewrite py_bind_ret.
  rewrite (header_u hs [] Hh 4 8 (pr_protocol row)) by reflexivity. rewrite py_bind_ret.
  rewrite (header_u hs [] Hh 5 8 (pr_creator row)) by reflexivity. rewrite py_bind_ret.
  rewrite (header_b hs [] Hh 6 (pr_disabled row)) by reflexivity. rewrite py_bind_ret.
  rewrite (header_b hs [] Hh 7 (pr_status row)) by reflexivity. reflexivity.
Qed.

Definition demo_snap : dlmm_snap :=
  DlmmSnap (LbPair 10 30 600 5000 40000 350000 1000 0 0 7 3 (-5) 1700000000 (-4) 20 0 [] [] [] [])
    [Bin (-4) 100 200; Bin 30 9 9; Bin (-5) 1 0; Bin (-4) 8 8] 101 200.

Lemma parse_write_dlmm_witness :
  (match write_dlmm 1700000100 demo_snap with Ret _ => true | Raise _ => false end) = true /\
  forall blob, write_dlmm 1700000100 demo_snap = Ret blob ->
    parse_dlmm blob = Ret (Some (dlmm_of demo_snap 1700000100)).
Proof.
  split; [vm_compute; reflexivity|]. intros blob H. exact (parse_write_dlmm _ _ _ H).
Defined.

Lemma parse_write_pump_witness :
  exists blob, write_pump (PumpRow 5 6 (-7) 20 5 30 0 0) = Ret blob /\
    parse_pump blob = Ret (Some (Pump 5 6 (-7) 20 5 30 0 0)).
Proof.
  eexists. split; [vm_compute; reflexivity|].
  apply (parse_write_pump (PumpRow 5 6 (-7) 20 5 30 0 0)). vm_compute. reflexivity.
Defined.

(** The length test of parse_dlmm is six bytes short of the header: a blob of 67 to 72 bytes
    raises instead of giving None. *)
Lemma parse_dlmm_guard_short : parse_dlmm (replicate 70 0) = Raise StructError.
Proof. vm_compute. reflexivity. Qed.

(** * The log *)

Definition rrec_of (fr : frame) : rrec :=
  RRec (f_kind fr) (f_proto fr) (f_pool fr) (f_slot fr) (f_body fr).

Lemma unpack_slice n raw a :
  a + Z.of_nat n <= blen raw -> unpack_u n raw a = Ret (le_dec (slice a (a + Z.of_nat n) raw)).
Proof. intros H. unfold unpack_u. by rewrite (proj2 (Z.leb_le _ _) H). Qed.

Lemma iter_loop_step fuel fr more :
  frame_ok fr -> blen (f_body fr) <= 4920 ->
  iter_loop (S fuel) (enc_frame fr ++ more) =
  (rest <-! iter_loop fuel more ;; Ret (rrec_of fr :: rest)).
Proof.
  intros (Hk & Hp & Hi & Hs & Hsl & Hn) Hb. destruct fr as [kind proto idx sig slot body].
  cbn [f_kind f_proto f_pool f_sig f_slot f_body] in *.
  assert (Hb0 : 0 <= blen body) by (unfold blen; lia).
  pose proof (blen_fixed kind proto idx sig slot Hs) as Hf.
  destruct (fixed_fields kind proto idx sig slot Hs) as (F1 & F2 & F3 & F4 & F5).
  set (fx := fixed_bytes kind proto idx sig slot) in *.
  unfold enc_frame. cbn [f_kind f_proto f_pool f_sig f_slot f_body]. fold fx.
  cbn [iter_loop]. unfold FIXED.
  assert (Hl : blen ((le_enc 4 (80 + blen body) ++ fx ++ body) ++ more) = 84 + blen body + blen more).
  { rewrite !blen_app, blen_le_enc, Hf. lia. }
  rewrite Hl. destruct (Z.ltb_spec (84 + blen body + blen more) 4) as [Hlt|_]; [unfold blen in Hlt; lia|].
  assert (Ht : take 4 ((le_enc 4 (80 + blen body) ++ fx ++ body) ++ more) = le_enc 4 (80 + blen body)).
  { rewrite <- !app_assoc. by apply take_app_length'. }
  assert (Hd : drop 4 ((le_enc 4 (80 + blen body) ++ fx ++ body) ++ more) = (fx ++ body) ++ more).
  { rewrite <- !app_assoc. by apply drop_app_length'. }
  assert (Hlen : length (fx ++ body) = Z.to_nat (80 + blen body)).
  { rewrite length_app. unfold blen in *. lia. }
  rewrite Ht, Hd, le_dec_enc_small by (cbn; lia).
  destruct (Z.ltb_spec (80 + blen body) 80); [lia|].
  destruct (Z.ltb_spec 5000 (80 + blen body)); [lia|]. cbn [orb].
  rewrite (take_app_length' (fx ++ body)) by done.
  assert (Hfb : blen (fx ++ body) = 80 + blen body) by (by rewrite blen_app, Hf).
  rewrite Hfb, Z.ltb_irrefl, !unpack_slice by (rewrite Hfb; cbn; lia). rewrite !py_bind_ret.
  rewrite !slice_prefix by (rewrite ?Hf; cbn; lia).
  change (slice 0 (0 + Z.of_nat 1) fx) with (slice 0 1 fx).
  change (slice 1 (1 + Z.of_nat 1) fx) with (slice 1 2 fx).
  change (slice 4 (4 + Z.of_nat 4) fx) with (slice 4 8 fx).
  change (slice 72 (72 + Z.of_nat 8) fx) with (slice 72 80 fx).
  rewrite F1, F2, F3, F5, !le_dec_enc_small by (cbn; lia).
  replace (Z.to_nat (4 + (80 + blen body))) with (4 + Z.to_nat (80 + blen body))%nat by lia.
  rewrite <- drop_drop, Hd, (drop_app_length' (fx ++ body)) by done.
  rewrite (drop_app_length' fx) by (unfold blen in Hf; lia). done.
Qed.

Lemma iter_loop_frames fs fuel :
  Forall frame_ok fs -> Forall (fun fr => blen (f_body fr) <= 4920) fs -> (length fs < fuel)%nat ->
  iter_loop fuel (concat (enc_frame <$> fs)) = Ret (rrec_of <$> fs).
Proof.
  revert fuel. induction fs as [|fr fs IH]; intros fuel Hok Hb Hl.
  { destruct fuel; [lia|]. done. }
  apply Forall_cons in Hok as [Hfr Hok]. apply Forall_cons in Hb as [Hb1 Hb].
  destruct fuel as [|fuel]; [lia|]. cbn [length] in Hl. rewrite fmap_cons. cbn [concat].
  rewrite iter_loop_step, IH by (done || lia). done.
Qed.

(** The replay reads back what the plane logged: on the file left by any sequence of
    invalidate, plane and auth calls with bodies of at most 4920 bytes (every published snapshot
    is smaller), iter_recs yields the kind, protocol, pool, slot and body of every call that did
    not raise, in order. *)
Theorem iter_recs_reads_log os :
  Forall (fun o => blen (f_body (frame_of o)) <= 4920) os ->
  iter_recs (run_rops (open_recon None) os) = Ret (rrec_of <$> (frame_of <$> filter accepted os)).
Proof.
  intros Hb. rewrite run_rops_bytes. cbn [open_recon]. unfold iter_recs.
  rewrite take_app_length', drop_app_length' by done.
  change (blen recon_header <? 8) with false.
  change (le_dec (take 4 recon_header) =? 0x36305453) with true. cbn [orb negb].
  assert (Hok : Forall frame_ok (frame_of <$> filter accepted os)).
  { apply Forall_fmap, Forall_forall. intros o Ho. apply list_elem_of_filter in Ho as [Ho _].
    apply (run_rop_append [] o). by apply Is_true_eq_true. }
  apply iter_loop_frames.
  - exact Hok.
  - apply Forall_fmap, Forall_forall. intros o Ho. apply list_elem_of_filter in Ho as [_ Ho].
    rewrite Forall_forall in Hb. exact (Hb o Ho).
  - rewrite length_app. assert (H : forall fs, Forall frame_ok fs ->
      (length fs <= length (concat (enc_frame <$> fs)))%nat).
    { induction 1 as [|fr fs Hfr _ IH]; [done|]. rewrite fmap_cons. cbn [concat length].
      rewrite length_app. pose proof (length_enc_frame fr) as Hl. destruct Hfr as (_ & _ & _ & Hs & _).
      specialize (Hl Hs). unfold blen in Hl. lia. }
    specialize (H _ Hok). cbn. lia.
Qed.

Lemma iter_recs_reads_log_witness :
  iter_recs (run_rops (open_recon None) [RPlane true 9; RAuth 2 7 100 [1; 2; 3]]) =
  Ret [RRec 5 0 0 1 []; RRec 3 2 7 100 [1; 2; 3]].
Proof.
  rewrite (iter_recs_reads_log [RPlane true 9; RAuth 2 7 100 [1; 2; 3]]).
  - vm_compute. reflexivity.
  - constructor; [vm_compute; discriminate|]. constructor; [vm_compute; discriminate|constructor].
Defined.
