(* ===== verification/TimerReplay.v ===== *)
(** The timer-decay replay: arb-cap/timer_decay/replay.py.  The main loop over the log as a state
    machine: pools come and go with AUTH and INVALIDATE records, boundaries of a pair's volatility
    filter are scheduled in a heap, fire when the log's clock reaches them, and openings are
    followed until the pair changes.

    heapq is the list of its items in order; the records the script appends to [fired] are shared
    by [opens] and [watching], so those hold positions in [fired].  [e_id n] is [id(job)] of the
    n-th job: the interpreter chooses it, and only jobs that live at the same time are sure to
    have different ones.  Universe rows carry a pubkey and an idx, as the files do.  The network
    call mev_hits, the files and the summary are outside; join_mev takes the rows it returns. *)
From stdpp Require Import base list strings gmap pretty.
From Stdlib Require Import ZArith Lia Sorted.
From coqutil.Datatypes Require Import RecordSetters.
From S2P Require Import Prelude PyBytes DlmmQuote Inventory AuthRead.
Import RecordSetters.DoubleBraceUpdate.
Open Scope Z_scope.
Open Scope py_scope.

Definition AUTH : Z := 3.
Definition INV : Z := 4.
Definition PROTO_DLMM : Z := 1.
Definition PROTO_PUMP : Z := 2.
Definition NOW_LO : Z := 1790300000.
Definition NOW_HI : Z := 1790400000.
Definition WSOL : string := "So11111111111111111111111111111111111111112".

Definition SIZES : list Z :=
  [50000000; 100000000; 250000000; 500000000; 1000000000; 2000000000; 5000000000].
Definition SIZE_LABEL : list string := ["0.05"; "0.10"; "0.25"; "0.50"; "1"; "2"; "5"]%string.

Definition SEARCHERS : list (string * string) :=
  [("MriyaNN8TMp6qRWjfr723PK7xgQK7yCt7Kg2v2PQu7X", "Mriya");
   ("4BQ6ATUt26GFdiYQfht23iwfKyYD9D7XbL5ATqNGk3xK", "4BQ");
   ("DtvmxrTACskMG2W8a6KXgSemUfvyNVeQTgfpJoGvMVKx", "Dtvmxr");
   ("7dGrdJRYtsNR8UYxZ3TnifXGjGc9eRYLq9sELwYpuuUu", "7dGrdJ");
   ("gtagyESa99t49VmUqnnfsuowYnigSNKuYXdXWyXWNdd", "gtagyE");
   ("9EwQoN74Hzw747EM7wB3WtvgAdRGH1czaPtbqZj1qDj4", "9EwQoN")]%string.

(** * Universe and routes *)

(** A row of the universe file; [None] is a missing field. *)
Record upool := UPool {
  u_proto : option string; u_my : option string; u_mx : option string;
  u_token : option string; u_pubkey : string; u_idx : Z }.

(** [a or b] on strings and None. *)
Definition str_or (a b : option string) : option string :=
  match a with
  | Some s => if decide (s = ""%string) then b else Some s
  | None => b
  end.

Definition partners (pools : list upool) (idx : Z) : list upool :=
  if Z.of_nat (length pools) <=? idx then [] else
  match pools !! Z.to_nat idx with
  | None => []
  | Some d =>
      if negb (bool_decide (u_proto d = Some "dlmm"%string)) || negb (bool_decide (u_my d = Some WSOL))
      then [] else
      let token := str_or (u_token d) (u_mx d) in
      filter (fun p => u_proto p = Some "pump"%string /\ str_or (u_token p) (u_mx p) = token) pools
  end.

(** gross and net are both None or both numbers. *)
Record size_rec := SizeRec { z_size : string; z_quote : option (Z * Z) }.
Definition z_net (r : size_rec) : option Z := snd <$> z_quote r.

Record route := Route {
  rt_pump : string; rt_pump_idx : Z; rt_route : string; rt_direction : Z;
  rt_best : option size_rec; rt_sizes : list size_rec }.

Definition route_name (direction : Z) : string :=
  if direction =? 0 then "dlmm-pump" else "pump-dlmm".

Definition eval_size (d : dlmm) (p : pump) (direction now : Z) (la : string * Z) : size_rec :=
  match cycle_quote d p la.2 direction now with
  | None => SizeRec la.1 None
  | Some out => let gross := out - la.2 in SizeRec la.1 (Some (gross, gross - hurdle direction))
  end.

(** [if best is None or net > best["net"]: best = rec] *)
Definition better (best : option size_rec) (r : size_rec) : option size_rec :=
  match z_net r with
  | None => best
  | Some n =>
      match best with
      | None => Some r
      | Some b => if default 0 (z_net b) <? n then Some r else best
      end
  end.

Definition eval_dir (d : dlmm) (meta : upool) (p : pump) (now direction : Z) : route :=
  let sizes := eval_size d p direction now <$> zip SIZE_LABEL SIZES in
  Route (u_pubkey meta) (u_idx meta) (route_name direction) direction
    (foldl better None sizes) sizes.

Definition eval_routes (d : dlmm) (pumps : list (upool * pump)) (now : Z) : list route :=
  concat ((fun mp => [eval_dir d mp.1 mp.2 now 0; eval_dir d mp.1 mp.2 now 1]) <$> pumps).

(** * Jobs, fired records, state *)

Record job := Job {
  j_id : Z; j_pool : string; j_pool_idx : Z; j_token : option string; j_era : string;
  j_univ_n : Z; j_sched_ts : Z; j_boundary : Z; j_kind : string; j_dlmm : dlmm;
  j_pumps : list (upool * pump * Z); j_fee_before : Z; j_vol_acc_before : Z }.

Record cross := Cross {
  c_route : string; c_pump : string; c_size : string; c_net_before : Z; c_net_after : Z;
  c_gross_before : Z; c_gross_after : Z }.

Inductive follow_state :=
  | WATCH | STATE_UNCERTAIN | NATURALLY_CLOSED_BY_FLOW | STILL_OPEN
  | CAPTURED_KNOWN_ARB | CAPTURED_UNKNOWN_SEARCHER.
#[export] Instance follow_eq_dec : EqDecision follow_state.
Proof. solve_decision. Defined.

Record frec := FRec {
  f_pool : string; f_pool_idx : Z; f_token : option string; f_era : string;
  f_scheduled_at : Z; f_decay_boundary : Z; f_kind : string;
  f_fee_before : Z; f_fee_after : Z; f_fee_delta : Z;
  f_vol_acc_before : Z; f_vol_acc_after : Z; f_partner_untouched : bool;
  f_crosses : list cross; f_crossed_hurdle : bool; f_univ_n : Z;
  f_best : option cross;                         (* route, size and nets of the opening *)
  f_follow : option follow_state; f_time_open : option Z; f_closed_slot : option Z;
  f_subsequent_taker : option string; f_known_searcher : option string }.

Record state := State {
  switched : bool; last_dlmm : gmap Z (Z * dlmm); last_pump : gmap Z (Z * pump * Z);
  heap : list (Z * Z * job); seq : Z; dead : gset Z; fired : list frec; opens : list nat;
  watching : gmap Z (list nat); n_auth : Z; n_sched : Z;
  t0 : option Z; t1 : option Z; clock : Z }.

Definition state0 : state := State false ∅ ∅ [] 0 ∅ [] [] ∅ 0 0 None None 0.

(** * The heap *)

Definition key_le (a b : Z * Z * job) : bool :=
  (a.1.1 <? b.1.1) || ((a.1.1 =? b.1.1) && (a.1.2 <=? b.1.2)).

Fixpoint heappush (x : Z * Z * job) (h : list (Z * Z * job)) : list (Z * Z * job) :=
  match h with
  | [] => [x]
  | y :: h' => if key_le x y then x :: h else y :: heappush x h'
  end.

(** [dead.update(id(j) for _, _, j in heap if j["pool_idx"] == idx and not j.get("fired"))]; a
    fired job has left the heap. *)
Definition cancel (idx : Z) (s : state) : state :=
  s {{ dead ::= union (list_to_set ((fun x => j_id x.2) <$>
                        filter (fun x => j_pool_idx x.2 = idx) (heap s))) }}.

(** * Firing *)

(** [by0.get(key)]: of the rows with that key the last one. *)
Definition route_at (rows : list route) (pump_idx direction : Z) : option route :=
  last (filter (fun r => rt_pump_idx r = pump_idx /\ rt_direction r = direction) rows).

Definition cross_of (r1 : route) (ab : size_rec * size_rec) : option cross :=
  match z_quote ab.1, z_quote ab.2 with
  | Some (ga, na), Some (gb, nb) =>
      if (na <=? 0) && (0 <? nb)
      then Some (Cross (rt_route r1) (rt_pump r1) (z_size ab.2) na nb ga gb)
      else None
  | _, _ => None
  end.

Definition crosses_of (e0 e1 : list route) : list cross :=
  concat ((fun r1 => match route_at e0 (rt_pump_idx r1) (rt_direction r1) with
                     | None => []
                     | Some r0 => omap (cross_of r1) (zip (rt_sizes r0) (rt_sizes r1))
                     end) <$> e1).

(** [max(crosses, key=lambda x: x["net_after"])]: the first of the largest. *)
Definition best_cross (cs : list cross) : option cross :=
  match cs with
  | [] => None
  | c :: cs' => Some (foldl (fun b x => if c_net_after b <? c_net_after x then x else b) c cs')
  end.

(** The partner was republished after the schedule and no later than the boundary. *)
Definition partner_moved (lps : gmap Z (Z * pump * Z)) (j : job) (mp : upool * pump * Z) : bool :=
  match lps !! u_idx mp.1.1 with
  | Some (ts, _, _) => (j_sched_ts j <? ts) && (ts <=? j_boundary j)
  | None => false
  end.

Definition fire_rec (lps : gmap Z (Z * pump * Z)) (j : job) : frec :=
  let '(fee1, vacc1, _) := fee_after_time (j_dlmm j) (j_boundary j) in
  let fee0 := j_fee_before j in
  let pumps := fst <$> filter (fun mp => partner_moved lps j mp = false) (j_pumps j) in
  let crosses :=
    if negb (fee1 =? fee0) && negb (bool_decide (pumps = []))
    then crosses_of (eval_routes (j_dlmm j) pumps (j_sched_ts j))
                    (eval_routes (j_dlmm j) pumps (j_boundary j))
    else [] in
  FRec (j_pool j) (j_pool_idx j) (j_token j) (j_era j) (j_sched_ts j) (j_boundary j) (j_kind j)
    fee0 fee1 (fee1 - fee0) (j_vol_acc_before j) vacc1
    (negb (existsb (partner_moved lps j) (j_pumps j)))
    crosses (negb (bool_decide (crosses = []))) (j_univ_n j)
    (best_cross crosses)
    (if decide (crosses = []) then None else Some WATCH) None None None None.

#[export] Instance pump_eq_dec : EqDecision pump.
Proof. solve_decision. Defined.

(** One job taken off the heap. *)
Definition fire_job (j : job) (s : state) : state :=
  if decide (j_id j ∈ dead s) then s else
  let rec := fire_rec (last_pump s) j in
  let i := length (fired s) in
  let s := s {{ fired ::= fun l => l ++ [rec] }} in
  if decide (f_crosses rec = []) then s else
  s {{ opens ::= fun l => l ++ [i];
       watching ::= fun w => <[j_pool_idx j := default [] (w !! j_pool_idx j) ++ [i]]> w }}.

Fixpoint fire_heap (h : list (Z * Z * job)) (ts : Z) (s : state) : state :=
  match h with
  | [] => s {{ heap := [] }}
  | x :: h' => if x.1.1 <=? ts then fire_heap h' ts (fire_job x.2 s) else s {{ heap := h }}
  end.

Definition fire_upto (ts : Z) (s : state) : state := fire_heap (heap s) ts s.

(** * Following openings *)

Definition close_rec (f : follow_state) (ts : Z) (slot : option Z) (r : frec) : frec :=
  if bool_decide (f_follow r = Some WATCH)
  then r {{ f_follow := Some f; f_time_open := Some (ts - f_decay_boundary r);
            f_closed_slot ::= fun c => match slot with Some x => Some x | None => c end }}
  else r.

Definition close_at (f : follow_state) (ts : Z) (slot : option Z) (l : list frec) (i : nat) : list frec :=
  alter (close_rec f ts slot) i l.

(** [for rec in watching.pop(idx, []): ...] *)
Definition close_pool (f : follow_state) (ts : Z) (slot : option Z) (idx : Z) (s : state) : state :=
  s {{ fired := foldl (close_at f ts slot) (fired s) (default [] (watching s !! idx));
       watching ::= delete idx }}.

(** * The main loop *)

Section replay.
Context (u171 u645 : list upool) (e_id : Z -> Z).

Definition univ (s : state) : list upool := if switched s then u645 else u171.

(** The record's own clock, when it is a DLMM snapshot with a plausible one. *)
Definition rec_ts (r : rrec) : pyres (option Z) :=
  if (rr_kind r =? AUTH) && (rr_proto r =? PROTO_DLMM) && (71 <=? blen (rr_body r)) then
    now <-! unpack_s 8 (rr_body r) 63 ;;
    Ret (if (NOW_LO <=? now) && (now <=? NOW_HI) then Some now else None)
  else Ret None.

Definition kind_name (b : boundary) : string :=
  match b with BFilter _ => "filter" | BDecay _ => "decay" end.

(** One boundary: nothing if it is not in the future, else a job in the heap. *)
Definition schedule (idx ts : Z) (d : dlmm) (parts : list (upool * pump * Z)) (fee0 vacc0 : Z)
    (s : state) (b : boundary) : state :=
  let bts := boundary_time b in
  if bts <=? ts then s else
  let s := s {{ seq ::= Z.add 1; n_sched ::= Z.add 1 }} in
  let pools := univ s in
  let row := if idx <? Z.of_nat (length pools) then pools !! Z.to_nat idx else None in
  let j := Job (e_id (seq s)) (match row with Some p => u_pubkey p | None => pretty idx end) idx
             (match row with Some p => u_token p | None => None end)
             (if switched s then "u645" else "u171") (Z.of_nat (length pools))
             ts bts (kind_name b) d parts fee0 vacc0 in
  s {{ heap ::= heappush (bts, seq s, j) }}.

(** [for meta in partners(pools, idx): lp = last_pump.get(meta["idx"]); ...] *)
Definition parts_of (s : state) (idx : Z) : list (upool * pump * Z) :=
  omap (fun meta => match last_pump s !! u_idx meta with
                    | Some (ts, p, _) => Some (meta, p, ts)
                    | None => None
                    end) (partners (univ s) idx).

Definition on_dlmm (idx ts slot : Z) (d : dlmm) (s : state) : state :=
  let s := cancel idx s in
  let s := close_pool NATURALLY_CLOSED_BY_FLOW ts (Some slot) idx s in
  let s := s {{ last_dlmm ::= <[idx := (ts, d)]> }} in
  let parts := parts_of s idx in
  if bool_decide (parts = []) then s else
  let '(fee0, vacc0, _) := fee_after_time d ts in
  foldl (schedule idx ts d parts fee0 vacc0) s (next_boundaries d ts).

Definition on_record (r : rrec) (ts : Z) (s : state) : pyres state :=
  if rr_kind r =? INV then
    let s := cancel (rr_idx r) s in
    let s := s {{ last_dlmm ::= delete (rr_idx r) }} in
    Ret (close_pool STATE_UNCERTAIN ts None (rr_idx r) s)
  else if negb (rr_kind r =? AUTH) then Ret s
  else
  let s := s {{ n_auth ::= Z.add 1 }} in
  if rr_proto r =? PROTO_PUMP then
    p <-! parse_pump (rr_body r) ;;
    Ret (match p with
         | Some p => s {{ last_pump ::= <[rr_idx r := (ts, p, rr_slot r)]> }}
         | None => s
         end)
  else if negb (rr_proto r =? PROTO_DLMM) then Ret s
  else
    d <-! parse_dlmm (rr_body r) ;;
    Ret (match d with
         | Some d => on_dlmm (rr_idx r) ts (rr_slot r) d s
         | None => s
         end).

Definition step (s : state) (r : rrec) : pyres state :=
  let s := if 170 <? rr_idx r then s {{ switched := true }} else s in
  ots <-! rec_ts r ;;
  let ts := match ots with
            | Some t => Some t
            | None => if clock s =? 0 then None else Some (clock s)
            end in
  match ts with
  | None => Ret s
  | Some ts =>
      let ts := if ts <? clock s then clock s else ts in
      let s := s {{ clock := ts;
                    t0 ::= fun t => match t with None => Some ts | Some _ => t end;
                    t1 := Some ts }} in
      on_record r ts (fire_upto ts s)
  end.

Fixpoint steps (s : state) (rs : list rrec) : pyres state :=
  match rs with
  | [] => Ret s
  | r :: rs' => s' <-! step s r ;; steps s' rs'
  end.

(** [(t1 or clock)] *)
Definition end_ts (s : state) : Z :=
  match t1 s with
  | Some t => if t =? 0 then clock s else t
  | None => clock s
  end.

(** After the loop: the last firing, and the openings still watched. *)
Definition finish (s : state) : state :=
  let s := fire_upto (clock s) s in
  s {{ fired := foldl (fun l kv => foldl (close_at STILL_OPEN (end_ts s) None) l kv.2)
                  (fired s) (map_to_list (watching s)) }}.

Definition replay (file : bytes) : pyres state :=
  rs <-! iter_recs file ;;
  s <-! steps state0 rs ;;
  Ret (finish s).
End replay.

(** * Joining the openings with the arbitrages found on chain *)

Record arb := Arb {
  a_two_leg_arb_mint : option string; a_time : option Z; a_signature : option string;
  a_user : option string }.

Definition str_true (s : option string) : bool :=
  match s with Some x => negb (bool_decide (x = ""%string)) | None => false end.

Definition searcher_of (user : option string) : option string :=
  match find (fun p => bool_decide (fst p = default ""%string user)) SEARCHERS with
  | Some (_, n) => Some n
  | None => user
  end.

(** The arbitrages of the opening's token between its boundary and its close. *)
Definition hits_of (rows : list arb) (r : frec) : list arb :=
  let close := f_decay_boundary r +
    (match f_time_open r with Some t => if t =? 0 then 30 else t | None => 30 end) in
  filter (fun a => str_true (a_two_leg_arb_mint a) = true /\
                   a_two_leg_arb_mint a = Some (default ""%string (f_token r)) /\
                   f_decay_boundary r <= or0 (a_time a) <= close) rows.

Definition join_rec (rows : list arb) (r : frec) : frec :=
  match hits_of rows r with
  | [] => r
  | a :: _ =>
      let known := searcher_of (a_user a) in
      let r := r {{ f_subsequent_taker := a_signature a; f_known_searcher := known }} in
      if bool_decide (f_follow r ∈ [Some STILL_OPEN; Some WATCH; Some NATURALLY_CLOSED_BY_FLOW])
      then r {{ f_follow := Some (if bool_decide (known ∈ Some <$> SEARCHERS.*2)
                                  then CAPTURED_KNOWN_ARB else CAPTURED_UNKNOWN_SEARCHER) }}
      else r
  end.

Definition join_mev (rows : list arb) (s : state) : state :=
  if negb (bool_decide (opens s = [])) && (Z.of_nat (length (opens s)) <=? 250)
  then s {{ fired := foldl (fun l i => alter (join_rec rows) i l) (fired s) (opens s) }}
  else s.

(** * Frames: what the small operations leave alone *)

Lemma alter_fmap {A B} (g : A -> B) (f : A -> A) (i : nat) (l : list A) :
  (forall x, g (f x) = g x) -> g <$> alter f i l = g <$> l.
Proof.
  intros Hg. apply list_eq. intros k. rewrite !list_lookup_fmap.
  destruct (decide (i = k)) as [->|Hne].
  - rewrite list_lookup_alter_eq. destruct (l !! k); cbn; [by rewrite Hg|done].
  - by rewrite list_lookup_alter_ne by done.
Qed.

Lemma close_rec_kept f ts slot r :
  f_decay_boundary (close_rec f ts slot r) = f_decay_boundary r /\
  f_scheduled_at (close_rec f ts slot r) = f_scheduled_at r /\
  f_pool_idx (close_rec f ts slot r) = f_pool_idx r /\
  f_crosses (close_rec f ts slot r) = f_crosses r.
Proof. unfold close_rec. case_match; by destruct r. Qed.

Lemma close_many_fmap {B} (g : frec -> B) f ts slot ks l :
  (forall r, g (close_rec f ts slot r) = g r) ->
  g <$> foldl (close_at f ts slot) l ks = g <$> l.
Proof.
  intros Hg. revert l. induction ks as [|i ks IH]; intros l; [done|]. cbn [foldl].
  rewrite IH. by apply alter_fmap.
Qed.

(** The timing fields of a fired record. *)
Definition timing (r : frec) : Z * Z := (f_scheduled_at r, f_decay_boundary r).

Lemma close_timing f ts slot ks l :
  timing <$> foldl (close_at f ts slot) l ks = timing <$> l.
Proof.
  apply close_many_fmap. intros r. unfold timing.
  destruct (close_rec_kept f ts slot r) as (-> & -> & _). done.
Qed.

Lemma fire_rec_timing lps j : timing (fire_rec lps j) = (j_sched_ts j, j_boundary j).
Proof. unfold fire_rec. by destruct (fee_after_time _ _) as [[? ?] ?]. Qed.

Lemma fire_job_timing j s :
  timing <$> fired (fire_job j s) =
  (timing <$> fired s) ++ (if decide (j_id j ∈ dead s) then [] else [(j_sched_ts j, j_boundary j)]).
Proof.
  unfold fire_job. case_decide; [by rewrite app_nil_r|]. cbv zeta.
  rewrite <- (fire_rec_timing (last_pump s) j). case_decide; destruct s; cbn; by rewrite fmap_app.
Qed.

Lemma fire_job_frame j s :
  heap (fire_job j s) = heap s /\ clock (fire_job j s) = clock s /\ dead (fire_job j s) = dead s /\
  last_pump (fire_job j s) = last_pump s /\ seq (fire_job j s) = seq s /\
  n_sched (fire_job j s) = n_sched s /\ switched (fire_job j s) = switched s /\ t1 (fire_job j s) = t1 s.
Proof.
  unfold fire_job. case_decide; [by repeat split|]. cbv zeta.
  case_decide; destruct s; cbn; by repeat split.
Qed.

Lemma fire_heap_frame h ts s :
  let s' := fire_heap h ts s in
  dead s' = dead s /\ last_pump s' = last_pump s /\ seq s' = seq s /\ n_sched s' = n_sched s /\
  switched s' = switched s /\ t1 s' = t1 s /\ clock s' = clock s.
Proof.
  revert s. induction h as [|x h IH]; intros s; cbn [fire_heap]; [by destruct s|].
  case_match; [|by destruct s]. destruct (IH (fire_job x.2 s)) as (-> & -> & -> & -> & -> & -> & ->).
  destruct (fire_job_frame x.2 s) as (_ & ? & ? & ? & ? & ? & ? & ?). by repeat split.
Qed.

Lemma cancel_frame idx s :
  heap (cancel idx s) = heap s /\ clock (cancel idx s) = clock s /\ fired (cancel idx s) = fired s /\
  last_pump (cancel idx s) = last_pump s /\ seq (cancel idx s) = seq s /\
  n_sched (cancel idx s) = n_sched s /\ watching (cancel idx s) = watching s /\
  opens (cancel idx s) = opens s /\ switched (cancel idx s) = switched s /\ t1 (cancel idx s) = t1 s.
Proof. by destruct s. Qed.

Lemma close_pool_frame f ts slot idx s :
  heap (close_pool f ts slot idx s) = heap s /\ clock (close_pool f ts slot idx s) = clock s /\
  last_pump (close_pool f ts slot idx s) = last_pump s /\ seq (close_pool f ts slot idx s) = seq s /\
  n_sched (close_pool f ts slot idx s) = n_sched s /\ dead (close_pool f ts slot idx s) = dead s /\
  opens (close_pool f ts slot idx s) = opens s /\
  switched (close_pool f ts slot idx s) = switched s /\ t1 (close_pool f ts slot idx s) = t1 s /\
  timing <$> fired (close_pool f ts slot idx s) = timing <$> fired s.
Proof. destruct s. do 9 (split; [reflexivity|]). apply close_timing. Qed.

(** * The order of the heap *)

Definition heap_sorted (h : list (Z * Z * job)) : Prop :=
  StronglySorted (fun a b => key_le a b = true) h.

Lemma key_le_boundary a b : key_le a b = true -> a.1.1 <= b.1.1.
Proof. unfold key_le. intros H. apply orb_true_iff in H as [H|H]; zb; lia. Qed.

Lemma key_le_total a b : key_le a b = false -> key_le b a = true.
Proof.
  unfold key_le. intros H. zb. destruct (Z.eqb_spec a.1.1 b.1.1) as [E|]; cbn [andb] in *.
  - rewrite E, Z.ltb_irrefl, Z.eqb_refl. cbn. zb. apply Z.leb_le. lia.
  - apply orb_true_iff. left. apply Z.ltb_lt. lia.
Qed.

Lemma key_le_trans a b c : key_le a b = true -> key_le b c = true -> key_le a c = true.
Proof.
  unfold key_le. rewrite !orb_true_iff, !andb_true_iff, !Z.ltb_lt, !Z.eqb_eq, !Z.leb_le. lia.
Qed.

Lemma heappush_elem x h y : y ∈ heappush x h <-> y = x \/ y ∈ h.
Proof.
  induction h as [|z h IH]; cbn [heappush].
  - rewrite list_elem_of_singleton. split; [auto|]. intros [?|H]; [done|by apply elem_of_nil in H].
  - case_match; rewrite !elem_of_cons; [done|]. rewrite IH. naive_solver.
Qed.

Lemma heappush_perm x h : heappush x h ≡ₚ x :: h.
Proof.
  induction h as [|z h IH]; cbn [heappush]; [done|]. case_match; [done|].
  rewrite IH. apply Permutation_swap.
Qed.

Lemma heappush_sorted x h : heap_sorted h -> heap_sorted (heappush x h).
Proof.
  induction 1 as [|y h Hs IH Hy]; cbn [heappush]; [repeat constructor|].
  destruct (key_le x y) eqn:E.
  - constructor; [by constructor|]. constructor; [done|].
    eapply Forall_impl; [exact Hy|]. intros z Hz. by eapply key_le_trans.
  - constructor; [done|]. rewrite Forall_forall in *. intros z Hz.
    apply heappush_elem in Hz as [->|Hz]; [by apply key_le_total|by apply Hy].
Qed.

(** * Invariants of a run *)

(** The parts of the state an invariant of the jobs and openings looks at. *)
Definition core (s : state) :=
  (heap s, seq s, n_sched s, dead s, fired s, opens s, watching s, clock s, t1 s).

(** The log's clock set to [ts]. *)
Definition tick (ts : Z) (s : state) : state :=
  s {{ clock := ts; t0 ::= fun t => match t with None => Some ts | Some _ => t end; t1 := Some ts }}.

Section invariants.
Context (u171 u645 : list upool) (e_id : Z -> Z).

(** What a property of states needs to hold along a run: it is about the core, and the five
    operations a record is made of keep it. *)
Record preserved (I : state -> Prop) : Prop := {
  pv_core : forall s s', core s' = core s -> I s -> I s';
  pv_cancel : forall idx s, I s -> I (cancel idx s);
  pv_close : forall f slot idx s, f <> WATCH -> I s -> I (close_pool f (clock s) slot idx s);
  pv_schedule : forall idx d parts fee0 vacc0 b s,
    I s -> I (schedule u171 u645 e_id idx (clock s) d parts fee0 vacc0 s b);
  pv_tick : forall ts s, clock s <= ts -> I s -> I (fire_upto ts (tick ts s)) }.

Lemma clock_schedule idx ts d parts fee0 vacc0 b s :
  clock (schedule u171 u645 e_id idx ts d parts fee0 vacc0 s b) = clock s.
Proof. unfold schedule. case_match; [done|]. by destruct s. Qed.

Lemma clock_tick ts s : clock (fire_upto ts (tick ts s)) = ts.
Proof.
  unfold fire_upto. destruct (fire_heap_frame (heap (tick ts s)) ts (tick ts s)) as (_ & _ & _ & _ & _ & _ & ->).
  by destruct s.
Qed.

Section kept.
Context (I : state -> Prop) (HI : preserved I).

Lemma schedules_preserved idx ts d parts fee0 vacc0 bs s :
  clock s = ts -> I s -> I (foldl (schedule u171 u645 e_id idx ts d parts fee0 vacc0) s bs).
Proof.
  revert s. induction bs as [|b bs IH]; intros s Hc H; [done|]. cbn [foldl]. apply IH.
  - by rewrite clock_schedule.
  - rewrite <- Hc. by apply (pv_schedule I HI).
Qed.

Lemma on_dlmm_preserved idx ts slot d s :
  clock s = ts -> I s -> I (on_dlmm u171 u645 e_id idx ts slot d s).
Proof.
  intros Hc H. unfold on_dlmm. cbv zeta.
  pose proof (pv_close I HI NATURALLY_CLOSED_BY_FLOW (Some slot) idx _ ltac:(done)
                (pv_cancel I HI idx s H)) as H1.
  destruct (cancel_frame idx s) as (_ & Ec & _). rewrite Ec, Hc in H1.
  destruct (close_pool_frame NATURALLY_CLOSED_BY_FLOW ts (Some slot) idx (cancel idx s)) as (_ & Ec1 & _).
  rewrite Ec, Hc in Ec1. set (s1 := close_pool _ _ _ _ _) in *. clearbody s1.
  set (s2 := s1 {{ last_dlmm ::= _ }}).
  assert (H2 : I s2 /\ clock s2 = ts).
  { split; [by apply (pv_core I HI s1); [destruct s1|]|by destruct s1]. }
  destruct H2 as [H2 Hc2]. clearbody s2. case_match; [done|].
  destruct (fee_after_time d ts) as [[fee0 vacc0] ?]. cbv beta iota. by apply schedules_preserved.
Qed.

Lemma on_record_preserved r s s' :
  I s -> on_record u171 u645 e_id r (clock s) s = Ret s' -> I s'.
Proof.
  intros H. unfold on_record. cbv zeta. destruct (rr_kind r =? INV).
  { intros [= <-]. set (s1 := (cancel (rr_idx r) s) {{ last_dlmm ::= delete (rr_idx r) }}).
    assert (H1 : I s1 /\ clock s1 = clock s).
    { split; [|by destruct s]. apply (pv_core I HI (cancel (rr_idx r) s)); [by destruct s|].
      by apply (pv_cancel I HI). }
    destruct H1 as [H1 <-]. by apply (pv_close I HI). }
  destruct (negb (rr_kind r =? AUTH)); [by intros [= <-]|].
  set (s1 := s {{ n_auth ::= _ }}).
  assert (H1 : I s1 /\ clock s1 = clock s) by (split; [by apply (pv_core I HI s); [destruct s|]|by destruct s]).
  destruct H1 as [H1 Hc1]. clearbody s1. destruct (rr_proto r =? PROTO_PUMP).
  { intros E. apply py_bind_Ret in E as (p & _ & [= <-]). destruct p as [p|]; [|done].
    by apply (pv_core I HI s1); [destruct s1|]. }
  destruct (negb (rr_proto r =? PROTO_DLMM)); [by intros [= <-]|].
  intros E. apply py_bind_Ret in E as (d & _ & [= <-]). destruct d as [d|]; [|done].
  by apply on_dlmm_preserved.
Qed.

Lemma step_preserved r s s' : I s -> step u171 u645 e_id s r = Ret s' -> I s'.
Proof.
  intros H. unfold step. cbv zeta. set (s1 := if 170 <? rr_idx r then _ else s).
  assert (H1 : I s1).
  { unfold s1. case_match; [|done]. by apply (pv_core I HI s); [destruct s|]. }
  clearbody s1. intros E. apply py_bind_Ret in E as (ots & _ & E).
  set (t := match ots with Some t => Some t | None => _ end) in E. clearbody t.
  destruct t as [t|]; [|by injection E as <-].
  set (ts := if t <? clock s1 then clock s1 else t) in *.
  assert (Hts : clock s1 <= ts) by (unfold ts; destruct (Z.ltb_spec t (clock s1)); lia). clearbody ts.
  fold (tick ts s1) in E. rewrite <- (clock_tick ts s1) in E at 1.
  eapply on_record_preserved; [|exact E]. by apply (pv_tick I HI).
Qed.

Lemma steps_preserved rs s s' : I s -> steps u171 u645 e_id s rs = Ret s' -> I s'.
Proof.
  revert s. induction rs as [|r rs IH]; intros s H; cbn [steps]; [by intros [= <-]|].
  intros E. apply py_bind_Ret in E as (s1 & Hs & E). apply (IH s1); [by eapply step_preserved|done].
Qed.
End kept.
End invariants.

(** * Firing on time *)

Definition job_ok (x : Z * Z * job) : Prop :=
  x.1.1 = j_boundary x.2 /\ j_sched_ts x.2 < x.1.1.

(** The fired records are in the order of their boundaries, none before its schedule, all of them
    at most [c]. *)
Definition fired_ok (c : Z) (l : list frec) : Prop :=
  StronglySorted Z.le (snd <$> (timing <$> l)) /\
  Forall (fun p : Z * Z => p.1 < p.2 <= c) (timing <$> l).

Record on_time (s : state) : Prop := {
  ot_sorted : heap_sorted (heap s);
  ot_heap : Forall (fun x => job_ok x /\ clock s < x.1.1) (heap s);
  ot_fired : fired_ok (clock s) (fired s) }.

Lemma fired_ok_weaken c c' l : c <= c' -> fired_ok c l -> fired_ok c' l.
Proof. intros Hc [H1 H2]. split; [done|]. eapply Forall_impl; [exact H2|]. cbn. lia. Qed.

Lemma sorted_snoc (l : list Z) x :
  StronglySorted Z.le l -> Forall (fun y => y <= x) l -> StronglySorted Z.le (l ++ [x]).
Proof.
  induction 1 as [|y l Hs IH Hy]; intros Hx; cbn [app]; [repeat constructor|].
  apply Forall_cons in Hx as [Hx1 Hx]. constructor; [auto|]. apply Forall_app. split; [done|].
  by repeat constructor.
Qed.

Lemma fired_ok_snoc c l s t l' :
  fired_ok c l -> c <= t -> s < t -> timing <$> l' = (timing <$> l) ++ [(s, t)] -> fired_ok t l'.
Proof.
  intros [H1 H2] Hc Hs E. unfold fired_ok. rewrite E, fmap_app. split.
  - apply sorted_snoc; [done|]. apply Forall_fmap. eapply Forall_impl; [exact H2|]. cbn. lia.
  - apply Forall_app. split; [|repeat constructor; cbn; lia].
    eapply Forall_impl; [exact H2|]. cbn. lia.
Qed.

Lemma fire_job_ok c j s :
  fired_ok c (fired s) -> j_sched_ts j < j_boundary j -> c <= j_boundary j ->
  fired_ok (j_boundary j) (fired (fire_job j s)).
Proof.
  intros Hf Hj Hc. pose proof (fire_job_timing j s) as E. destruct (decide (j_id j ∈ dead s)).
  - rewrite app_nil_r in E. unfold fired_ok in *. rewrite E. destruct Hf as [H1 H2].
    split; [done|]. eapply Forall_impl; [exact H2|]. cbn. lia.
  - by eapply fired_ok_snoc.
Qed.

(** Firing up to [ts]: exactly the boundaries up to [ts] leave the heap, in order. *)
Lemma fire_heap_on_time h ts s c :
  heap_sorted h -> Forall (fun x => job_ok x /\ c <= x.1.1) h -> fired_ok c (fired s) -> c <= ts ->
  let s' := fire_heap h ts s in
  (exists done, h = done ++ heap s' /\ Forall (fun x => x.1.1 <= ts) done) /\
  Forall (fun x => ts < x.1.1) (heap s') /\ fired_ok ts (fired s') /\ clock s' = clock s.
Proof.
  intros Hs. revert s c. induction Hs as [|x h Hs IH Hx]; intros s c Hh Hf Hc; cbn [fire_heap].
  { destruct s; cbn. split; [by exists []|]. split; [constructor|]. split; [by eapply fired_ok_weaken|done]. }
  apply Forall_cons in Hh as [[[Hj1 Hj2] Hcx] Hh].
  destruct (Z.leb_spec x.1.1 ts) as [Hle|Hgt].
  - destruct (IH (fire_job x.2 s) x.1.1) as ((dn & Hdn & Hd) & Hr & Hf' & Hck); [| |lia|].
    + rewrite Forall_forall in *. intros y Hy. split; [by apply Hh|]. by apply key_le_boundary, Hx.
    + rewrite Hj1. apply fire_job_ok with (c := c); [done|lia|lia].
    + split; [|split; [done|split; [done|]]].
      * exists (x :: dn). rewrite Hdn at 1. split; [done|]. by constructor.
      * rewrite Hck. apply (fire_job_frame x.2 s).
  - destruct s; cbn in *. split; [by exists []|]. split; [|split; [by eapply fired_ok_weaken|done]].
    constructor; [done|]. rewrite Forall_forall in *. intros y Hy.
    specialize (Hx y Hy). apply key_le_boundary in Hx. lia.
Qed.

Lemma on_time_ext s s' :
  on_time s -> heap s' = heap s -> clock s' = clock s ->
  timing <$> fired s' = timing <$> fired s -> on_time s'.
Proof.
  intros [H1 H2 H3] Eh Ec Et. constructor; unfold fired_ok in *; rewrite ?Eh, ?Ec, ?Et; done.
Qed.

Lemma on_time_cancel idx s : on_time s -> on_time (cancel idx s).
Proof. intros H. eapply on_time_ext; [exact H|by destruct s..]. Qed.

Lemma on_time_close f ts slot idx s : on_time s -> on_time (close_pool f ts slot idx s).
Proof.
  intros H. destruct (close_pool_frame f ts slot idx s) as (? & ? & _ & _ & _ & _ & _ & _ & _ & ?).
  by eapply on_time_ext.
Qed.

Section runs.
Context (u171 u645 : list upool) (e_id : Z -> Z).

Lemma schedule_on_time idx ts d parts fee0 vacc0 s b :
  on_time s -> clock s = ts ->
  on_time (schedule u171 u645 e_id idx ts d parts fee0 vacc0 s b) /\
  clock (schedule u171 u645 e_id idx ts d parts fee0 vacc0 s b) = ts.
Proof.
  intros [H1 H2 H3] Hc. unfold schedule. destruct (Z.leb_spec (boundary_time b) ts) as [|Hgt]; [done|].
  cbv zeta. set (j := Job _ _ _ _ _ _ _ _ _ _ _ _ _).
  assert (Hj : j_boundary j = boundary_time b /\ j_sched_ts j = ts) by done. clearbody j.
  destruct s as [sw ld lp hp sq de fi op wa na ns ti0 ti1 ck]. cbn in *. subst ck. split; [|done].
  constructor; cbn; [by apply heappush_sorted| |done].
  rewrite Forall_forall in *. intros x Hx. apply heappush_elem in Hx as [->|Hx]; [|by apply H2].
  unfold job_ok. cbn. destruct Hj as [-> ->]. lia.
Qed.

Lemma sorted_app_r (dn h : list (Z * Z * job)) : heap_sorted (dn ++ h) -> heap_sorted h.
Proof. induction dn as [|y dn IH]; [done|]. intros H. apply IH. by inversion H. Qed.

(** Firing up to [ts] when the clock has just been set to [ts]. *)
Lemma fire_upto_on_time c ts s :
  heap_sorted (heap s) -> Forall (fun x => job_ok x /\ c < x.1.1) (heap s) ->
  fired_ok c (fired s) -> c <= ts -> clock s = ts -> on_time (fire_upto ts s).
Proof.
  intros H1 H2 H3 Hc Hck. unfold fire_upto.
  destruct (fire_heap_on_time (heap s) ts s c) as ((dn & Hdn & _) & Hr & Hf & Hck'); [done| |done|done|].
  { eapply Forall_impl; [exact H2|]. intros x [? ?]. split; [done|lia]. }
  constructor.
  - rewrite Hdn in H1. by apply sorted_app_r in H1.
  - rewrite Hck', Hck. rewrite Forall_forall in *. intros x Hx. split; [|by apply Hr].
    apply H2. rewrite Hdn. apply elem_of_app. right. exact Hx.
  - by rewrite Hck', Hck.
Qed.

Lemma on_time_core s s' : core s' = core s -> on_time s -> on_time s'.
Proof.
  unfold core. intros [= Eh _ _ _ Ef _ _ Ec _] H. eapply on_time_ext; [exact H|done..|by rewrite Ef].
Qed.

Lemma on_time_preserved : preserved u171 u645 e_id on_time.
Proof.
  constructor; [exact on_time_core|exact on_time_cancel|intros; by apply on_time_close| |].
  - intros. by apply schedule_on_time.
  - intros ts s Hts [H1 H2 H3]. by apply (fire_upto_on_time (clock s)); destruct s.
Qed.

Lemma on_time0 : on_time state0.
Proof. constructor; [constructor|constructor|split; constructor]. Qed.

(** C14. Replaying a log: whatever the records, the decay boundaries fire in their order, each
    after the time it was scheduled at and none after the log's clock; and when the replay is
    done, every job still in the heap is for a boundary the clock has not reached. *)
Theorem replay_fires_on_time rs s :
  steps u171 u645 e_id state0 rs = Ret s ->
  let s' := finish s in
  StronglySorted Z.le (f_decay_boundary <$> fired s') /\
  Forall (fun r => f_scheduled_at r < f_decay_boundary r <= clock s') (fired s') /\
  Forall (fun x => clock s' < j_boundary x.2) (heap s').
Proof.
  intros Hs s'. apply (steps_preserved _ _ _ _ on_time_preserved) in Hs; [|apply on_time0]. destruct Hs as [H1 H2 H3].
  pose proof (fire_upto_on_time (clock s) (clock s) s H1 H2 H3 ltac:(lia) eq_refl) as [_ H5 H6].
  assert (E : clock s' = clock (fire_upto (clock s) s) /\ heap s' = heap (fire_upto (clock s) s) /\
              timing <$> fired s' = timing <$> fired (fire_upto (clock s) s)).
  { unfold s', finish. set (s1 := fire_upto (clock s) s). clearbody s1.
    split; [by destruct s1|]. split; [by destruct s1|].
    generalize (map_to_list (watching s1)). intros kvs.
    transitivity (timing <$> foldl (fun l kv => foldl (close_at STILL_OPEN (end_ts s1) None) l kv.2)
                    (fired s1) kvs); [by destruct s1|].
    generalize (fired s1). induction kvs as [|kv kvs IH]; intros l; [done|]. cbn [foldl].
    rewrite IH. apply close_timing. }
  destruct E as (-> & -> & E). unfold fired_ok in H6. rewrite <- E in H6. destruct H6 as [H6 H7].
  rewrite <- list_fmap_compose in H6. split; [exact H6|]. split; [by apply Forall_fmap in H7|].
  eapply Forall_impl; [exact H5|]. intros x [[<- _] ?]. done.
Qed.
End runs.

(** * Every job has one fate *)

Lemma filter_ext_in {X} (P Q : X -> Prop) `{forall x, Decision (P x)} `{forall x, Decision (Q x)} (L : list X) :
  (forall x, x ∈ L -> P x <-> Q x) -> filter P L = filter Q L.
Proof.
  induction L as [|x L IH]; intros HPQ; [done|]. rewrite !filter_cons, IH by (intros; apply HPQ; by right).
  pose proof (HPQ x ltac:(by left)). do 2 case_decide; tauto.
Qed.

(** Adding the ids of some items to a set moves exactly the live ones of them into it. *)
Lemma cancel_count {X} (xid : X -> Z) (P : X -> Prop) `{forall x, Decision (P x)} (L : list X) (D : gset Z) :
  NoDup (xid <$> L) ->
  (size ((list_to_set (xid <$> filter P L) : gset Z) ∪ D) +
     length (filter (fun x => xid x ∉ (list_to_set (xid <$> filter P L) : gset Z) ∪ D) L) =
   size D + length (filter (fun x => xid x ∉ D) L))%nat.
Proof.
  revert D. induction L as [|x L IH]; intros D Hnd; [cbn; by rewrite union_empty_l_L|].
  rewrite fmap_cons in Hnd. apply NoDup_cons in Hnd as [Hx Hnd].
  assert (Hin : forall y, y ∈ L -> xid y <> xid x).
  { intros y Hy E. apply Hx. rewrite <- E. by apply list_elem_of_fmap_2. }
  rewrite (filter_cons P). destruct (decide (P x)) as [HP|HP].
  - rewrite fmap_cons, list_to_set_cons.
    set (S0 := list_to_set (xid <$> filter P L) : gset Z) in *.
    replace ({[xid x]} ∪ S0 ∪ D) with (S0 ∪ ({[xid x]} ∪ D)) by set_solver.
    rewrite filter_cons_False by set_solver. specialize (IH ({[xid x]} ∪ D) Hnd). fold S0 in IH. rewrite IH.
    rewrite (filter_ext_in _ (fun y => xid y ∉ D) L) by (intros y Hy; specialize (Hin y Hy); set_solver).
    rewrite filter_cons. destruct (decide (xid x ∈ D)) as [HD|HD].
    + replace ({[xid x]} ∪ D) with D by set_solver. case_decide; [done|lia].
    + rewrite size_union, size_singleton by set_solver. case_decide; [cbn [length]; lia|done].
  - set (S0 := list_to_set (xid <$> filter P L) : gset Z) in *.
    assert (HxS : xid x ∉ S0).
    { unfold S0. rewrite elem_of_list_to_set. intros Hi. apply list_elem_of_fmap in Hi as (y & E & Hy).
      apply list_elem_of_filter in Hy as [_ Hy]. by apply (Hin y). }
    specialize (IH D Hnd). fold S0 in IH. rewrite !filter_cons.
    assert (HD : xid x ∉ S0 ∪ D <-> xid x ∉ D).
    { rewrite elem_of_union. tauto. }
    destruct (decide (xid x ∉ S0 ∪ D)), (decide (xid x ∉ D)); cbn [length]; first [lia|tauto].
Qed.

Definition job_key (x : Z * Z * job) : Z := x.1.2.
Definition job_id (x : Z * Z * job) : Z := j_id x.2.

(** The jobs of a heap that nobody cancelled. *)
Definition alive (dd : gset Z) (h : list (Z * Z * job)) : list (Z * Z * job) :=
  filter (fun x => job_id x ∉ dd) h.

Lemma alive_perm dd h h' : h ≡ₚ h' -> alive dd h ≡ₚ alive dd h'.
Proof. intros E. unfold alive. by rewrite E. Qed.

Lemma fire_job_count x s :
  (length (fired (fire_job x.2 s)) = length (fired s) + length (alive (dead s) [x]))%nat.
Proof.
  pose proof (f_equal length (fire_job_timing x.2 s)) as E. rewrite length_app, !length_fmap in E.
  rewrite E. unfold alive, job_id. rewrite filter_cons. destruct (decide (j_id x.2 ∈ dead s)).
  - by rewrite decide_False by auto.
  - by rewrite decide_True by auto.
Qed.

(** Firing moves live jobs from the heap to the ledger and drops the cancelled ones. *)
Lemma fire_heap_count h ts s :
  let s' := fire_heap h ts s in
  (length (fired s') + length (alive (dead s) (heap s')) = length (fired s) + length (alive (dead s) h))%nat /\
  exists done, h = done ++ heap s'.
Proof.
  revert s. induction h as [|x h IH]; intros s; cbn [fire_heap].
  { split; [by destruct s|]. exists []. by destruct s. }
  destruct (x.1.1 <=? ts).
  - destruct (IH (fire_job x.2 s)) as [E [dn Hd]].
    destruct (fire_job_frame x.2 s) as (_ & _ & Ed & _). rewrite Ed in E. split.
    + rewrite E, fire_job_count. unfold alive. rewrite (filter_app _ [x] h), length_app. lia.
    + exists (x :: dn). by rewrite Hd at 1.
  - split; [by destruct s|]. exists []. by destruct s.
Qed.

Section fates.
Context (u171 u645 : list upool) (e_id : Z -> Z).
Context (id_inj : forall m n, e_id m = e_id n -> m = n).

(** Where every scheduled job is: fired, cancelled, or live in the heap. *)
Record ledger (s : state) : Prop := {
  lg_seq : n_sched s = seq s;
  lg_keys : Forall (fun x => 1 <= job_key x <= seq s /\ job_id x = e_id (job_key x)) (heap s);
  lg_nodup : NoDup (job_key <$> heap s);
  lg_dead : forall i, i ∈ dead s -> exists n, 1 <= n <= seq s /\ i = e_id n;
  lg_count : seq s = Z.of_nat (length (fired s) + length (alive (dead s) (heap s)) + size (dead s)) }.

Lemma ledger0 : ledger state0.
Proof. by constructor; try constructor. Qed.

Lemma ledger_ext s s' :
  ledger s -> n_sched s' = n_sched s -> seq s' = seq s -> heap s' = heap s -> dead s' = dead s ->
  length (fired s') = length (fired s) -> ledger s'.
Proof. intros [H1 H2 H3 H4 H5] En Es Eh Ed Ef. constructor; rewrite ?En, ?Es, ?Eh, ?Ed, ?Ef; done. Qed.

Lemma ids_nodup h n :
  Forall (fun x => 1 <= job_key x <= n /\ job_id x = e_id (job_key x)) h ->
  NoDup (job_key <$> h) -> NoDup (job_id <$> h).
Proof.
  intros Hk Hn. replace (job_id <$> h) with (e_id <$> (job_key <$> h)).
  - apply NoDup_fmap_2; [|done]. intros ? ?. apply id_inj.
  - rewrite <- list_fmap_compose. induction Hk as [|x h [_ E] _ IH]; [done|]. cbn in *.
    apply NoDup_cons in Hn as [_ Hn]. by rewrite IH, E.
Qed.

Lemma ledger_cancel idx s : ledger s -> ledger (cancel idx s).
Proof.
  intros [H1 H2 H3 H4 H5].
  pose proof (cancel_count job_id (fun x => j_pool_idx x.2 = idx) (heap s) (dead s)
                ltac:(by eapply ids_nodup)) as Hc.
  assert (Hd : dead (cancel idx s) =
    list_to_set (job_id <$> filter (fun x => j_pool_idx x.2 = idx) (heap s)) ∪ dead s) by (by destruct s).
  destruct (cancel_frame idx s) as (Eh & _ & Ef & _ & Es & En & _).
  constructor; rewrite ?Hd, ?Eh, ?Ef, ?Es, ?En; try done.
  - intros i Hi. apply elem_of_union in Hi as [Hi|Hi]; [|by apply H4].
    apply elem_of_list_to_set, list_elem_of_fmap in Hi as (x & -> & Hx).
    apply list_elem_of_filter in Hx as [_ Hx]. rewrite Forall_forall in H2.
    destruct (H2 x Hx) as [? ->]. eauto.
  - rewrite H5. unfold alive in *. lia.
Qed.

Lemma ledger_close f ts slot idx s : ledger s -> ledger (close_pool f ts slot idx s).
Proof.
  intros H. destruct (close_pool_frame f ts slot idx s) as (? & _ & _ & ? & ? & ? & _ & _ & _ & E).
  apply (f_equal length) in E. rewrite !length_fmap in E. by eapply ledger_ext.
Qed.

Lemma ledger_fire ts s : ledger s -> ledger (fire_upto ts s).
Proof.
  intros [H1 H2 H3 H4 H5]. unfold fire_upto.
  destruct (fire_heap_count (heap s) ts s) as [Hc [dn Hd]].
  destruct (fire_heap_frame (heap s) ts s) as (Ed & _ & Es & En & _).
  set (s' := fire_heap (heap s) ts s) in *. constructor; rewrite ?Ed, ?Es, ?En; try done.
  - rewrite Hd in H2. by apply Forall_app in H2 as [_ H2].
  - rewrite Hd, fmap_app in H3. by apply NoDup_app in H3 as (_ & _ & H3).
  - rewrite H5. lia.
Qed.

Lemma ledger_schedule idx ts d parts fee0 vacc0 s b :
  ledger s -> ledger (schedule u171 u645 e_id idx ts d parts fee0 vacc0 s b).
Proof.
  intros [H1 H2 H3 H4 H5]. unfold schedule. destruct (boundary_time b <=? ts); [done|].
  cbv zeta. set (j := Job _ _ _ _ _ _ _ _ _ _ _ _ _).
  assert (Hj : j_id j = e_id (1 + seq s)) by (by destruct s). clearbody j.
  destruct s as [sw ld lp hp sq de fi op wa na ns ti0 ti1 ck].
  cbn -[Z.add alive size] in *. set (x := (boundary_time b, 1 + sq, j) : Z * Z * job).
  assert (Hx : job_key x = 1 + sq /\ job_id x = e_id (1 + sq)) by done. destruct Hx as [Hx1 Hx2].
  constructor; cbn -[Z.add alive size]; [lia| | | |].
  - rewrite Forall_forall in *. intros y Hy. apply heappush_elem in Hy as [->|Hy].
    + change (1 <= job_key x <= 1 + sq /\ job_id x = e_id (job_key x)). rewrite Hx1. split; [lia|done].
    + destruct (H2 y Hy). split; [lia|done].
  - rewrite heappush_perm, fmap_cons. apply NoDup_cons. split; [|done]. intros Hin.
    apply list_elem_of_fmap in Hin as (y & Ey & Hy). rewrite Forall_forall in H2.
    destruct (H2 y Hy) as [? _]. fold x in Ey. lia.
  - intros i Hi. destruct (H4 i Hi) as (n & ? & ->). exists n. split; [lia|done].
  - assert (E : alive de (heappush x hp) ≡ₚ x :: alive de hp).
    { rewrite (alive_perm _ _ _ (heappush_perm x hp)). unfold alive. rewrite filter_cons_True; [done|].
      rewrite Hx2. intros Hi. destruct (H4 _ Hi) as (n & ? & E). apply id_inj in E. lia. }
    fold x. rewrite E. cbn [length]. lia.
Qed.

Lemma ledger_preserved : preserved u171 u645 e_id ledger.
Proof.
  constructor; [|exact ledger_cancel|intros; by apply ledger_close| |].
  - unfold core. intros s s' [= Eh Es En Ed Ef _ _ _ _] H. eapply ledger_ext; [exact H|done..|by rewrite Ef].
  - intros. by apply ledger_schedule.
  - intros ts s _ H. apply ledger_fire. by eapply ledger_ext; [exact H|destruct s..].
Qed.

Lemma close_all_length f ts kvs (l : list frec) :
  length (foldl (fun l (kv : Z * list nat) => foldl (close_at f ts None) l kv.2) l kvs) = length l.
Proof.
  revert l. induction kvs as [|kv kvs IH]; intros l; [done|]. cbn [foldl]. rewrite IH.
  pose proof (f_equal length (close_timing f ts None kv.2 l)) as E. by rewrite !length_fmap in E.
Qed.

(** C13. Every scheduled job has exactly one fate: when a log has been replayed, the number of
    jobs scheduled is the number of records fired, plus the number of jobs cancelled because
    their pool was republished or invalidated first, plus the live jobs whose boundary the log's
    clock has not reached; none is lost and none fires twice.  The interpreter's ids are assumed
    not to be used again ([reused_id_drops_job] is what happens when one is). *)
Theorem every_job_accounted rs s :
  steps u171 u645 e_id state0 rs = Ret s ->
  let s' := finish s in
  n_sched s' = Z.of_nat (length (fired s') + size (dead s') + length (alive (dead s') (heap s'))) /\
  Forall (fun x => clock s' < j_boundary x.2) (alive (dead s') (heap s')).
Proof.
  intros E s'.
  pose proof (steps_preserved _ _ _ _ (on_time_preserved u171 u645 e_id) rs _ _ on_time0 E) as Hot.
  apply (steps_preserved _ _ _ _ ledger_preserved) in E; [|apply ledger0].
  apply (ledger_fire (clock s)) in E. destruct Hot as [O1 O2 O3].
  pose proof (fire_upto_on_time (clock s) (clock s) s O1 O2 O3 ltac:(lia) eq_refl) as [_ Hh _].
  set (s1 := fire_upto (clock s) s) in *.
  assert (Hs : n_sched s' = n_sched s1 /\ dead s' = dead s1 /\ heap s' = heap s1 /\ clock s' = clock s1 /\
               length (fired s') = length (fired s1)).
  { unfold s', finish. fold s1. clearbody s1.
    do 4 (split; [by destruct s1|]).
    transitivity (length (foldl (fun l (kv : Z * list nat) => foldl (close_at STILL_OPEN (end_ts s1) None) l kv.2)
                            (fired s1) (map_to_list (watching s1)))); [by destruct s1|].
    apply close_all_length. }
  destruct Hs as (-> & -> & -> & -> & ->). destruct E as [-> _ _ _ ->]. split; [f_equal; lia|].
  unfold alive. rewrite Forall_forall in *. intros x Hx. apply list_elem_of_filter in Hx as [_ Hx].
  destruct (Hh x Hx) as [[<- _] ?]. done.
Qed.
End fates.

(** * Every opening is followed to an end *)

(** An opening with an end: a verdict and how long it lasted, inside the log's time. *)
Definition settled (c : Z) (r : frec) : Prop :=
  exists f t, f_follow r = Some f /\ f <> WATCH /\ f_time_open r = Some t /\
    0 <= t /\ f_decay_boundary r + t <= c.

Definition rec_ok (c : Z) (r : frec) : Prop :=
  (f_crosses r = [] /\ f_follow r = None) \/
  (f_crosses r <> [] /\ ((f_follow r = Some WATCH /\ f_decay_boundary r <= c) \/ settled c r)).

Lemma rec_ok_weaken c c' r : c <= c' -> rec_ok c r -> rec_ok c' r.
Proof.
  intros Hc [H|[Hr [[H Hb]|(f & t & H)]]]; [by left|right; split; [done|left; split; [done|lia]]|].
  right. split; [done|]. right. exists f, t. naive_solver lia.
Qed.

Lemma close_rec_ok f ts slot r : f <> WATCH -> rec_ok ts r -> rec_ok ts (close_rec f ts slot r).
Proof.
  intros Hf H. unfold close_rec. case_bool_decide as Ew; [|done].
  destruct H as [[_ E]|[Hc [[_ Hb]|(g & t & E & Hg & _)]]]; [congruence| |congruence].
  right. destruct r. cbn in *. split; [done|]. right. unfold settled. cbn.
  eexists f, _. split; [done|]. split; [done|]. split; [done|]. lia.
Qed.

Lemma close_rec_not_watch f ts slot r : f <> WATCH -> f_follow (close_rec f ts slot r) <> Some WATCH.
Proof. intros Hf. unfold close_rec. case_bool_decide; [destruct r; by intros [= E]|done]. Qed.

Lemma close_rec_idem f ts slot r :
  f <> WATCH -> close_rec f ts slot (close_rec f ts slot r) = close_rec f ts slot r.
Proof.
  intros Hf. unfold close_rec at 1. rewrite bool_decide_eq_false_2; [done|]. by apply close_rec_not_watch.
Qed.

Lemma close_many_lookup f ts slot ks l i :
  f <> WATCH ->
  foldl (close_at f ts slot) l ks !! i =
  (fun r => if decide (i ∈ ks) then close_rec f ts slot r else r) <$> l !! i.
Proof.
  intros Hf. revert l. induction ks as [|k ks IH]; intros l.
  { cbn [foldl]. destruct (l !! i); [cbn|done]. by rewrite decide_False by apply not_elem_of_nil. }
  cbn [foldl]. rewrite IH. unfold close_at. destruct (decide (k = i)) as [->|Hne].
  - rewrite list_lookup_alter_eq. destruct (l !! i) as [r|]; [cbn|done]. f_equal.
    rewrite (decide_True (P := i ∈ i :: ks)) by (by left). case_decide; [by apply close_rec_idem|done].
  - rewrite list_lookup_alter_ne by done. destruct (l !! i) as [r|]; [cbn|done]. f_equal.
    destruct (decide (i ∈ ks)) as [Hin|Hni]; [by rewrite decide_True by (by right)|].
    rewrite decide_False; [done|]. intros Hin. apply elem_of_cons in Hin as [->|]; done.
Qed.

Lemma close_all_concat f ts (kvs : list (Z * list nat)) l :
  foldl (fun l kv => foldl (close_at f ts None) l kv.2) l kvs =
  foldl (close_at f ts None) l (concat (kvs.*2)).
Proof.
  revert l. induction kvs as [|kv kvs IH]; intros l; [done|]. rewrite fmap_cons. cbn [foldl concat].
  by rewrite IH, foldl_app.
Qed.

Record followed (s : state) : Prop := {
  fw_rec : Forall (rec_ok (clock s)) (fired s);
  fw_watch : forall i r, fired s !! i = Some r -> f_follow r = Some WATCH ->
    exists l, watching s !! f_pool_idx r = Some l /\ i ∈ l;
  fw_heap : Forall (fun x => x.1.1 = j_boundary x.2) (heap s);
  fw_t1 : (t1 s = None /\ clock s = 0) \/ t1 s = Some (clock s) }.

Lemma followed_ext s s' :
  heap s' = heap s -> fired s' = fired s -> watching s' = watching s -> clock s' = clock s ->
  t1 s' = t1 s -> followed s -> followed s'.
Proof. intros E1 E2 E3 E4 E5 [H1 H2 H3 H4]. constructor; rewrite ?E1, ?E2, ?E3, ?E4, ?E5; done. Qed.

Lemma followed0 : followed state0.
Proof. constructor; [constructor|done|constructor|by left]. Qed.

Lemma fire_rec_ok lps j c : j_boundary j <= c -> rec_ok c (fire_rec lps j).
Proof.
  intros Hb. unfold fire_rec. destruct (fee_after_time _ _) as [[? ?] ?]. unfold rec_ok.
  cbn [f_crosses f_follow f_decay_boundary]. case_decide; [by left|]. right. split; [done|]. by left.
Qed.

Lemma fire_rec_follow lps j :
  f_crosses (fire_rec lps j) = [] -> f_follow (fire_rec lps j) = None.
Proof.
  unfold fire_rec. destruct (fee_after_time _ _) as [[? ?] ?]. cbn [f_crosses f_follow]. by case_decide.
Qed.

Lemma fire_rec_pool lps j : f_pool_idx (fire_rec lps j) = j_pool_idx j.
Proof. unfold fire_rec. by destruct (fee_after_time _ _) as [[? ?] ?]. Qed.

Lemma followed_fire_job j s : j_boundary j <= clock s -> followed s -> followed (fire_job j s).
Proof.
  intros Hb H. unfold fire_job. case_decide; [done|]. cbv zeta.
  pose proof (fire_rec_ok (last_pump s) j _ Hb) as Hok.
  pose proof (fire_rec_follow (last_pump s) j) as Hfo.
  pose proof (fire_rec_pool (last_pump s) j) as Hpo.
  set (rec := fire_rec (last_pump s) j) in *. clearbody rec. destruct H as [H1 H2 H3 H4].
  destruct s as [sw ld lp hp sq de fi op wa na ns ti0 ti1 ck].
  case_decide as Ec; cbn in *; (constructor; cbn; [apply Forall_app; by rewrite Forall_singleton| |done|done]);
    intros i r Hi Hw; apply lookup_app_Some in Hi as [Hi|[Hi1 Hi2]].
  - by apply (H2 i).
  - apply list_lookup_singleton_Some in Hi2 as [_ <-]. rewrite Hfo in Hw by done. done.
  - destruct (H2 i r Hi Hw) as (l & Hl & Hil). destruct (decide (f_pool_idx r = j_pool_idx j)) as [E|Hne].
    + rewrite E in *. rewrite lookup_insert_eq, Hl. eexists. split; [done|]. apply elem_of_app. by left.
    + rewrite lookup_insert_ne by done. eauto.
  - apply list_lookup_singleton_Some in Hi2 as [Hi2 <-]. assert (i = length fi) as -> by lia.
    rewrite Hpo, lookup_insert_eq. eexists. split; [done|]. apply elem_of_app. right. by left.
Qed.

Lemma followed_fire_heap h ts s :
  Forall (fun x => x.1.1 = j_boundary x.2) h -> clock s = ts -> followed s -> followed (fire_heap h ts s).
Proof.
  revert s. induction h as [|x h IH]; intros s Hh Hc H; cbn [fire_heap].
  - destruct H as [H1 H2 H3 H4]. by constructor; destruct s.
  - apply Forall_cons in Hh as [Hx Hh]. destruct (Z.leb_spec x.1.1 ts).
    + apply IH; [done| |apply followed_fire_job; [lia|done]].
      by destruct (fire_job_frame x.2 s) as (_ & -> & _).
    + destruct H as [H1 H2 H3 H4]. constructor; destruct s; try done. by constructor.
Qed.

Lemma close_pool_fields f ts slot idx s :
  fired (close_pool f ts slot idx s) = foldl (close_at f ts slot) (fired s) (default [] (watching s !! idx)) /\
  watching (close_pool f ts slot idx s) = delete idx (watching s).
Proof. by destruct s. Qed.

Lemma followed_close f slot idx s : f <> WATCH -> followed s -> followed (close_pool f (clock s) slot idx s).
Proof.
  intros Hf [H1 H2 H3 H4].
  destruct (close_pool_frame f (clock s) slot idx s) as (Eh & Ec & _ & _ & _ & _ & _ & _ & Et & _).
  destruct (close_pool_fields f (clock s) slot idx s) as [Ef Ew].
  constructor; rewrite ?Eh, ?Ec, ?Et, ?Ef, ?Ew; [| |done|done].
  - rewrite Forall_lookup in *. intros i r Hi. rewrite close_many_lookup in Hi by done.
    apply fmap_Some in Hi as (r0 & Hi & ->). case_decide; [|by eapply H1]. apply close_rec_ok; [done|by eapply H1].
  - intros i r Hi Hw. rewrite close_many_lookup in Hi by done. apply fmap_Some in Hi as (r0 & Hi & ->).
    case_decide as Hin; [by apply close_rec_not_watch in Hw|]. destruct (H2 i r0 Hi Hw) as (l & Hl & Hil).
    exists l. split; [|done]. rewrite lookup_delete_ne; [done|]. intros E. rewrite <- E in Hl.
    by rewrite Hl in Hin.
Qed.

Section resolved.
Context (u171 u645 : list upool) (e_id : Z -> Z).

Lemma followed_preserved : preserved u171 u645 e_id followed.
Proof.
  constructor.
  - unfold core. intros s s' [= Eh _ _ _ Ef _ Ew Ec Et]. by apply followed_ext.
  - intros idx s H. eapply followed_ext; [..|exact H]; by destruct s.
  - intros. by apply followed_close.
  - intros idx d parts fee0 vacc0 b s Hf. unfold schedule. destruct (boundary_time b <=? clock s); [done|].
    destruct Hf as [H1 H2 H3 H4].
    cbv zeta. set (j := Job _ _ _ _ _ _ _ _ _ _ _ _ _).
    assert (Hj : boundary_time b = j_boundary j) by done. clearbody j.
    destruct s. constructor; cbn in *; [done..| |done].
    rewrite heappush_perm. by constructor.
  - intros ts s Hts [H1 H2 H3 H4]. unfold fire_upto. apply followed_fire_heap; [by destruct s..|].
    destruct s. constructor; cbn in *; [|done..|by right].
    eapply Forall_impl; [exact H1|]. intros r. by apply rec_ok_weaken.
Qed.

(** C15. No opening is left hanging: in the ledger of a finished replay a record is an opening,
    with a verdict, exactly when it has a cross; the verdict is not WATCH, and the time it stayed
    open is not negative and ends inside the log. *)
Theorem openings_resolved rs s :
  steps u171 u645 e_id state0 rs = Ret s ->
  Forall (fun r => (f_crosses r = [] /\ f_follow r = None) \/
                   (f_crosses r <> [] /\ settled (clock (finish s)) r)) (fired (finish s)).
Proof.
  intros E. apply (steps_preserved _ _ _ _ followed_preserved) in E; [|apply followed0].
  assert (H1 : followed (fire_upto (clock s) s)).
  { unfold fire_upto. apply followed_fire_heap; [by destruct E|done|done]. }
  unfold finish. set (s1 := fire_upto (clock s) s) in *. clearbody s1. destruct H1 as [H1 H2 H3 H4].
  assert (He : end_ts s1 = clock s1).
  { unfold end_ts. destruct H4 as [[-> ?]| ->]; [done|]. by case_match. }
  replace (clock (s1 {{ fired := _ }})) with (clock s1) by (by destruct s1).
  match goal with |- Forall ?P (fired ?x) => change (fired x) with
    (foldl (fun l kv => foldl (close_at STILL_OPEN (end_ts s1) None) l kv.2) (fired s1) (map_to_list (watching s1))) end.
  rewrite close_all_concat, He. rewrite Forall_lookup in *. intros i r Hi.
  rewrite close_many_lookup in Hi by done. apply fmap_Some in Hi as (r0 & Hi & ->).
  assert (Hr : rec_ok (clock s1) (if decide (i ∈ concat (map_to_list (watching s1)).*2)
                                  then close_rec STILL_OPEN (clock s1) None r0 else r0) /\
               f_follow (if decide (i ∈ concat (map_to_list (watching s1)).*2)
                         then close_rec STILL_OPEN (clock s1) None r0 else r0) <> Some WATCH).
  { case_decide as Hin.
    - split; [apply close_rec_ok; [done|by eapply H1]|by apply close_rec_not_watch].
    - split; [by eapply H1|]. intros Hw. destruct (H2 i r0 Hi Hw) as (l & Hl & Hil). apply Hin.
      apply list_elem_of_In, in_concat. exists l. split; [|by apply list_elem_of_In].
      apply list_elem_of_In, list_elem_of_fmap. exists (f_pool_idx r0, l). split; [done|].
      by apply elem_of_map_to_list. }
  destruct Hr as [[Hr|[Hc [[Hw _]|Hs]]] Hw']; [by left|by apply Hw' in Hw|by right].
Qed.
End resolved.

(** * What a cross is *)

Lemma zip_fmap2 {A B C} (f : A -> B) (g : A -> C) (l : list A) :
  zip (f <$> l) (g <$> l) = (fun x => (f x, g x)) <$> l.
Proof. induction l as [|x l IH]; [done|]. rewrite !fmap_cons. cbn [zip zip_with]. f_equal. exact IH. Qed.

Lemma eval_routes_cons d mp pumps now :
  eval_routes d (mp :: pumps) now =
  eval_dir d mp.1 mp.2 now 0 :: eval_dir d mp.1 mp.2 now 1 :: eval_routes d pumps now.
Proof. done. Qed.

Lemma eval_routes_elem d pumps now r :
  r ∈ eval_routes d pumps now <->
  exists m p dir, (m, p) ∈ pumps /\ (dir = 0 \/ dir = 1) /\ r = eval_dir d m p now dir.
Proof.
  induction pumps as [|[m p] pumps IH]; [split; [intros H; by apply elem_of_nil in H|]|].
  { intros (? & ? & ? & H & _). by apply elem_of_nil in H. }
  rewrite eval_routes_cons, !elem_of_cons, IH. cbn [fst snd]. split.
  - intros [->|[->|(m' & p' & dir & H & Hd & ->)]].
    + exists m, p, 0. split; [by left|auto].
    + exists m, p, 1. split; [by left|auto].
    + exists m', p', dir. split; [by right|auto].
  - intros (m' & p' & dir & H & Hd & ->). apply elem_of_cons in H as [[= -> ->]|H].
    + destruct Hd as [->| ->]; auto.
    + right. right. by exists m', p', dir.
Qed.

Lemma last_filter_none {X} (P : X -> Prop) `{forall x, Decision (P x)} (l : list X) :
  (forall x, x ∈ l -> ~ P x) -> filter P l = [].
Proof.
  induction l as [|x l IH]; intros Hl; [done|]. rewrite filter_cons_False by (apply Hl; by left).
  apply IH. intros y Hy. apply Hl. by right.
Qed.

(** With distinct pump indexes the dictionary of rows finds each row under its own key. *)
Lemma route_at_eval d pumps now m p dir :
  NoDup ((fun mp => u_idx mp.1) <$> pumps) -> (m, p) ∈ pumps -> dir = 0 \/ dir = 1 ->
  route_at (eval_routes d pumps now) (u_idx m) dir = Some (eval_dir d m p now dir).
Proof.
  intros Hn Hin Hd. unfold route_at. induction pumps as [|mp pumps IH]; [by apply elem_of_nil in Hin|].
  rewrite fmap_cons in Hn. apply NoDup_cons in Hn as [Hx Hn]. rewrite eval_routes_cons, !filter_cons.
  cbn [eval_dir rt_pump_idx rt_direction]. apply elem_of_cons in Hin as [<-|Hin].
  - rewrite last_filter_none.
    + cbn [fst snd] in *. destruct Hd as [->| ->]; [rewrite decide_True, decide_False by (split || intros []; done)|
        rewrite decide_False, decide_True by (split || intros []; done)]; done.
    + intros r Hr [H1 _]. apply eval_routes_elem in Hr as (m' & p' & dir' & Hmp & _ & ->).
      apply Hx. apply list_elem_of_fmap. exists (m', p'). split; [cbn in *; congruence|done].
  - assert (Hne : u_idx mp.1 <> u_idx m).
    { intros E. apply Hx. apply list_elem_of_fmap. by exists (m, p). }
    rewrite !decide_False by (intros [? _]; done). by apply IH.
Qed.

(** The nets of a cycle at two times. *)
Definition nets (d : dlmm) (p : pump) (dir ain ta tb : Z) (oa ob na nb : Z) : Prop :=
  cycle_quote d p ain dir ta = Some oa /\ cycle_quote d p ain dir tb = Some ob /\
  na = oa - ain - hurdle dir /\ nb = ob - ain - hurdle dir.

Lemma cross_of_eval d m p dir ta tb la c :
  cross_of (eval_dir d m p tb dir) (eval_size d p dir ta la, eval_size d p dir tb la) = Some c <->
  exists oa ob na nb, nets d p dir la.2 ta tb oa ob na nb /\ na <= 0 < nb /\
    c = Cross (route_name dir) (u_pubkey m) la.1 na nb (oa - la.2) (ob - la.2).
Proof.
  unfold cross_of, eval_size, nets. cbn [fst snd eval_dir rt_route rt_pump].
  destruct (cycle_quote d p la.2 dir ta) as [oa|]; cbn [z_quote];
    [|split; [done|intros (? & ? & ? & ? & (? & _) & _); done]].
  destruct (cycle_quote d p la.2 dir tb) as [ob|]; cbn [z_quote z_size];
    [|split; [done|intros (? & ? & ? & ? & (_ & ? & _) & _); done]].
  split.
  - destruct (Z.leb_spec (oa - la.2 - hurdle dir) 0), (Z.ltb_spec 0 (ob - la.2 - hurdle dir)); cbn [andb];
      try done. intros [= <-]. exists oa, ob. eexists _, _. split; [done|]. split; [lia|done].
  - intros (? & ? & na & nb & ([= <-] & [= <-] & -> & ->) & [Ha Hb] & ->).
    apply Z.leb_le in Ha. apply Z.ltb_lt in Hb. by rewrite Ha, Hb.
Qed.

Lemma crosses_of_elem d pumps ta tb c :
  NoDup ((fun mp => u_idx mp.1) <$> pumps) ->
  c ∈ crosses_of (eval_routes d pumps ta) (eval_routes d pumps tb) <->
  exists m p dir la, (m, p) ∈ pumps /\ (dir = 0 \/ dir = 1) /\ la ∈ zip SIZE_LABEL SIZES /\
    cross_of (eval_dir d m p tb dir) (eval_size d p dir ta la, eval_size d p dir tb la) = Some c.
Proof.
  intros Hn. unfold crosses_of. rewrite list_elem_of_In, in_concat. split.
  - intros (cs & Hcs & Hc). apply list_elem_of_In, list_elem_of_fmap in Hcs as (r1 & -> & Hr1).
    apply list_elem_of_In in Hc. apply eval_routes_elem in Hr1 as (m & p & dir & Hmp & Hd & ->).
    change (rt_pump_idx (eval_dir d m p tb dir)) with (u_idx m) in Hc.
    change (rt_direction (eval_dir d m p tb dir)) with dir in Hc.
    rewrite (route_at_eval d pumps ta m p dir) in Hc by done.
    cbn [eval_dir rt_sizes] in Hc. rewrite zip_fmap2 in Hc.
    apply list_elem_of_omap in Hc as (ab & Hab & Hc).
    apply list_elem_of_fmap in Hab as (la & -> & Hla). by exists m, p, dir, la.
  - intros (m & p & dir & la & Hmp & Hd & Hla & Hc). eexists. split.
    + apply list_elem_of_In, list_elem_of_fmap. exists (eval_dir d m p tb dir). split; [reflexivity|].
      apply eval_routes_elem. by exists m, p, dir.
    + apply list_elem_of_In. change (rt_pump_idx (eval_dir d m p tb dir)) with (u_idx m).
      change (rt_direction (eval_dir d m p tb dir)) with dir.
      rewrite (route_at_eval d pumps ta m p dir) by done.
      cbn [eval_dir rt_sizes]. rewrite zip_fmap2. apply list_elem_of_omap. eexists. split; [|exact Hc].
      apply list_elem_of_fmap. by exists la.
Qed.

(** The partners a fired job is evaluated against. *)
Definition still_partners (lps : gmap Z (Z * pump * Z)) (j : job) : list (upool * pump) :=
  fst <$> filter (fun mp => partner_moved lps j mp = false) (j_pumps j).

Lemma still_partners_elem lps j m p :
  (m, p) ∈ still_partners lps j <->
  exists pts, (m, p, pts) ∈ j_pumps j /\ partner_moved lps j (m, p, pts) = false.
Proof.
  unfold still_partners. rewrite list_elem_of_fmap. split.
  - intros ([[m' p'] pts] & [= <- <-] & H). apply list_elem_of_filter in H as [H1 H2]. eauto.
  - intros (pts & H1 & H2). exists (m, p, pts). split; [done|]. by apply list_elem_of_filter.
Qed.

Lemma still_partners_nodup lps j :
  NoDup ((fun mp => u_idx mp.1.1) <$> j_pumps j) -> NoDup ((fun mp => u_idx mp.1) <$> still_partners lps j).
Proof.
  unfold still_partners. rewrite <- list_fmap_compose.
  change ((fun mp => u_idx mp.1) ∘ fst) with (fun mp : upool * pump * Z => u_idx mp.1.1).
  generalize (j_pumps j). intros l. induction l as [|mp l IH]; [done|].
  rewrite fmap_cons. intros H. apply NoDup_cons in H as [Hx Hn]. rewrite filter_cons.
  case_decide; [|by apply IH]. rewrite fmap_cons. apply NoDup_cons. split; [|by apply IH].
  intros Hin. apply Hx. apply list_elem_of_fmap in Hin as (y & -> & Hy).
  apply list_elem_of_filter in Hy as [_ Hy]. apply list_elem_of_fmap. by exists y.
Qed.

Lemma fire_rec_crosses lps j :
  f_crosses (fire_rec lps j) =
  if fst (fst (fee_after_time (j_dlmm j) (j_boundary j))) =? j_fee_before j then [] else
  crosses_of (eval_routes (j_dlmm j) (still_partners lps j) (j_sched_ts j))
             (eval_routes (j_dlmm j) (still_partners lps j) (j_boundary j)).
Proof.
  unfold fire_rec. destruct (fee_after_time _ _) as [[fee1 vacc1] vref1]. cbn [fst f_crosses].
  fold (still_partners lps j). destruct (fee1 =? j_fee_before j); cbn [negb andb]; [done|].
  case_bool_decide as E; [by rewrite E|done].
Qed.

(** C12. A cross is a real one and none is missed: what a fired job lists as crosses is exactly
    the cycles, over its partners not republished between schedule and boundary, both directions
    and every size, whose exact quote less the hurdle was not profitable when the job was
    scheduled and is at the boundary, provided the boundary changes the pair's fee. *)
Theorem crosses_are_real lps j c :
  NoDup ((fun mp => u_idx mp.1.1) <$> j_pumps j) ->
  c ∈ f_crosses (fire_rec lps j) <->
  fst (fst (fee_after_time (j_dlmm j) (j_boundary j))) <> j_fee_before j /\
  exists m p pts dir lab ain oa ob na nb,
    (m, p, pts) ∈ j_pumps j /\ partner_moved lps j (m, p, pts) = false /\
    (dir = 0 \/ dir = 1) /\ (lab, ain) ∈ zip SIZE_LABEL SIZES /\
    nets (j_dlmm j) p dir ain (j_sched_ts j) (j_boundary j) oa ob na nb /\ na <= 0 < nb /\
    c = Cross (route_name dir) (u_pubkey m) lab na nb (oa - ain) (ob - ain).
Proof.
  intros Hn. rewrite fire_rec_crosses.
  destruct (Z.eqb_spec (fst (fst (fee_after_time (j_dlmm j) (j_boundary j)))) (j_fee_before j)) as [E|E].
  { split; [intros H; by apply elem_of_nil in H|intros [? _]; done]. }
  rewrite (crosses_of_elem _ _ _ _ _ (still_partners_nodup lps j Hn)). split.
  - intros (m & p & dir & [lab ain] & Hmp & Hd & Hla & Hc). split; [done|].
    apply still_partners_elem in Hmp as (pts & Hmp & Hs).
    apply cross_of_eval in Hc as (oa & ob & na & nb & Hnets & Hb & ->).
    by exists m, p, pts, dir, lab, ain, oa, ob, na, nb.
  - intros [_ (m & p & pts & dir & lab & ain & oa & ob & na & nb & Hmp & Hs & Hd & Hla & Hnets & Hb & ->)].
    exists m, p, dir, (lab, ain). split; [apply still_partners_elem; by exists pts|]. do 2 (split; [done|]).
    apply cross_of_eval. by exists oa, ob, na, nb.
Qed.

(** * Concrete logs *)

Definition demo_univ : list upool :=
  [UPool (Some "dlmm") (Some WSOL) (Some "T") None "pair" 0;
   UPool (Some "pump") None (Some "T") None "pool" 1]%string.

Definition T0 : Z := 1790300000.

(** A snapshot of a pair taken at [now] whose volatility was last updated then. *)
Definition demo_body (now : Z) : bytes :=
  enc_fields (zip [4; 2; 1; 2; 2; 2; 2; 4; 4; 2; 1; 1; 4; 4; 4; 8; 8; 8; 8; 2; 4; 8; 8]%nat
    [5; 10; 0; 10000; 10; 100; 5000; 400000; 350000; 1000; 0; 0; 300000; 300000; 5; now; 0; 0; now; 1;
     5; 100000000000; 100000000000]).

Definition demo_pump_body : bytes :=
  enc_fields (zip [8; 8; 8; 8; 8; 8; 1; 1]%nat [1000000000000; 1040000000000; 0; 20; 5; 30; 0; 0]).

Definition demo_auth (idx now : Z) : rrec := RRec AUTH PROTO_DLMM idx 1 (demo_body now).

(** The pair is watched, invalidated with two jobs pending, and published again after the first
    of them was due; another pool moves the clock. *)
Definition demo_log : list rrec :=
  [demo_auth 0 T0; RRec AUTH PROTO_PUMP 1 1 demo_pump_body; demo_auth 0 (T0 + 1);
   RRec INV 0 0 0 []; demo_auth 5 (T0 + 50); demo_auth 0 (T0 + 60); demo_auth 5 (T0 + 80)].

Definition fates (e_id : Z -> Z) (rs : list rrec) : option (Z * Z * Z * Z) :=
  match steps demo_univ demo_univ e_id state0 rs with
  | Ret s => let s := finish s in
             Some (n_sched s, Z.of_nat (length (fired s)), Z.of_nat (size (dead s)),
                   Z.of_nat (length (alive (dead s) (heap s))))
  | Raise _ => None
  end.

(** [id] of a freed job may be given to a new one, while the old one stays in [dead]: the new job
    then never fires, though nothing happened to its pool. *)
Lemma reused_id_drops_job :
  fates (fun n => n) demo_log = Some (4, 1, 2, 1) /\
  fates (fun n => if n =? 3 then 1 else n) demo_log = Some (4, 0, 2, 1).
Proof. split; vm_compute; reflexivity. Qed.

Lemma demo_runs : match steps demo_univ demo_univ (fun n => n) state0 demo_log with
                  | Ret _ => true | Raise _ => false end = true.
Proof. vm_compute. reflexivity. Qed.

Lemma every_job_accounted_witness :
  exists s, steps demo_univ demo_univ (fun n => n) state0 demo_log = Ret s /\
    n_sched (finish s) =
      Z.of_nat (length (fired (finish s)) + size (dead (finish s)) +
                length (alive (dead (finish s)) (heap (finish s)))).
Proof.
  destruct (steps demo_univ demo_univ (fun n => n) state0 demo_log) as [s|e] eqn:E.
  - exists s. split; [reflexivity|].
    exact (proj1 (every_job_accounted demo_univ demo_univ (fun n => n) (fun m n H => H) demo_log s E)).
  - exfalso. pose proof demo_runs as H. rewrite E in H. discriminate H.
Defined.

Lemma replay_fires_on_time_witness :
  exists s, steps demo_univ demo_univ (fun n => n) state0 demo_log = Ret s /\
    StronglySorted Z.le (f_decay_boundary <$> fired (finish s)).
Proof.
  destruct (steps demo_univ demo_univ (fun n => n) state0 demo_log) as [s|e] eqn:E.
  - exists s. split; [reflexivity|].
    exact (proj1 (replay_fires_on_time demo_univ demo_univ (fun n => n) demo_log s E)).
  - exfalso. pose proof demo_runs as H. rewrite E in H. discriminate H.
Defined.

(** A job pending at the boundary [T0 + 70], where the fee falls from 3.7% to 1%. *)
Definition demo_job : job :=
  Job 3 "pair" 0 (Some "T"%string) "u171" 2 (T0 + 60) (T0 + 70) "filter"
    (Dlmm 5 10 0 10000 10 100 5000 400000 350000 1000 0 0 300000 300000 5 (T0 + 60) 0 0 (T0 + 60)
       [QBin 5 100000000000 100000000000 0])
    [(UPool (Some "pump") None (Some "T") None "pool" 1,
      Pump 1000000000000 1040000000000 0 20 5 30 0 0, T0 + 1)]%string
    37000000 300000.

Lemma crosses_are_real_witness :
  Cross "dlmm-pump" "pool" "0.05" (-824448) 564733 (-450051) 939130 ∈ f_crosses (fire_rec ∅ demo_job).
Proof.
  apply (crosses_are_real ∅ demo_job).
  - apply NoDup_singleton.
  - split; [vm_compute; discriminate|].
    eexists _, _, _, 0, "0.05"%string, 50000000, 49549949, 50939130, (-824448), 564733.
    split; [by left|]. split; [reflexivity|]. split; [by left|]. split; [by left|].
    split; [split; [vm_compute; reflexivity|]; split; [vm_compute; reflexivity|]; by split|].
    split; [lia|reflexivity].
Defined.

Lemma demo_opening : match steps demo_univ demo_univ (fun n => n) state0 demo_log with
                    | Ret s => f_follow <$> fired (finish s) | Raise _ => [] end = [Some STILL_OPEN].
Proof. vm_compute. reflexivity. Qed.

Lemma openings_resolved_witness :
  exists s, steps demo_univ demo_univ (fun n => n) state0 demo_log = Ret s /\
    f_follow <$> fired (finish s) = [Some STILL_OPEN] /\
    Forall (fun r => (f_crosses r = [] /\ f_follow r = None) \/
                     (f_crosses r <> [] /\ settled (clock (finish s)) r)) (fired (finish s)).
Proof.
  pose proof demo_opening as H.
  destruct (steps demo_univ demo_univ (fun n => n) state0 demo_log) as [s|e] eqn:E; [|discriminate H].
  exists s. split; [reflexivity|]. split; [exact H|].
  exact (openings_resolved demo_univ demo_univ (fun n => n) demo_log s E).
Defined.
