(* ===== verification/TimerShadow.v ===== *)
(** The live timer shadow: arb-cap/timer_decay/shadow.py.  The main loop as a state machine over
    what each pass reads: the shared memory (through AuthRing's latest and AuthRead's parsers) and
    the clock.

    Every pass takes a snapshot of all pools, schedules the boundaries of the pairs' volatility
    filters, fires what is due and follows the openings.  [scheduled] is the dict in insertion
    order; [fired] holds the records, which [opens] and [pending] share, so those are positions in
    it.  Routes, sizes and crosses are those of the replay (TimerReplay): the two scripts carry the
    same code.  The HTTP query, the files and the summary are outside; join_arbs takes the rows. *)
From stdpp Require Import base list strings gmap.
From Stdlib Require Import ZArith Lia.
From coqutil.Datatypes Require Import RecordSetters.
From S2P Require Import Prelude PyBytes DlmmQuote AuthRing AuthRead TimerReplay.
Import RecordSetters.DoubleBraceUpdate.
Open Scope Z_scope.
Open Scope py_scope.

(** * Snapshots *)

Inductive snap_state := SnDlmm (d : dlmm) | SnPump (p : pump).
Record snap := Snap { sn_gen : Z; sn_slot : Z; sn_sig : bytes; sn_state : snap_state }.

Definition snapshot_pool (m : mem) (idx : Z) : pyres (option snap) :=
  match latest m idx with
  | None => Ret None
  | Some row =>
      let mk x := Snap (l_generation row) (l_slot row) (l_sig row) x in
      if l_proto row =? PROTO_DLMM then
        st <-! parse_dlmm (l_blob row) ;; Ret (mk <$> (SnDlmm <$> st))
      else if l_proto row =? PROTO_PUMP then
        st <-! parse_pump (l_blob row) ;; Ret (mk <$> (SnPump <$> st))
      else Ret None
  end.

(** [snaps], of the indexes from [i] on. *)
Fixpoint take_snaps (m : mem) (i : Z) (n : nat) : pyres (gmap Z snap) :=
  match n with
  | O => Ret ∅
  | S n' =>
      s <-! snapshot_pool m i ;;
      rest <-! take_snaps m (i + 1) n' ;;
      Ret (match s with Some x => <[i := x]> rest | None => rest end)
  end.

(** [p.get("my") == WSOL or True] is true of every pool. *)
Definition partners (pools : list upool) (d : upool) : list upool :=
  if negb (bool_decide (u_my d = Some WSOL)) then [] else
  filter (fun p => u_proto p = Some "pump"%string /\
                   str_or (u_token p) (u_mx p) = str_or (u_token d) (u_mx d)) pools.

(** * State *)

(** A partner as it was when the job was scheduled: row, pool, generation. *)
Notation part := (upool * pump * Z)%type.

Record sjob := SJob {
  g_pool : string; g_idx : Z; g_token : option string; g_sched : Z; g_boundary : Z; g_kind : string;
  g_gen : Z; g_slot : Z; g_dlmm : dlmm; g_parts : list part; g_econ0 : list route;
  g_fee0 : Z; g_vacc0 : Z; g_vref0 : Z; g_fired : bool }.

Definition job_key (j : sjob) : Z * Z * string * Z := (g_idx j, g_gen j, g_kind j, g_boundary j).

Record srec := SRec {
  v_pool : string; v_idx : Z; v_token : option string; v_sched : Z; v_boundary : Z; v_kind : string;
  v_survived : bool; v_partner_untouched : bool; v_event_at_cross : bool;
  v_fee_before : Z; v_fee_after : Z; v_fee_delta : Z; v_vacc_before : Z; v_vacc_after : Z;
  v_vref_before : Z; v_vref_after : Z; v_crosses : list cross; v_crossed_hurdle : bool;
  v_slot_at_sched : Z; v_gen : Z; v_fired_at : Z;
  v_best : option cross; v_follow : option follow_state; v_time_open : option Z;
  v_closed_slot : option Z; v_close_sig : option bytes;
  v_subsequent_taker : option string; v_known_searcher : option string }.

Record sstate := SState {
  scheduled : list sjob; sfired : list srec; sopens : list nat; pending : list nat; seen_sched : Z }.

Definition sstate0 : sstate := SState [] [] [] [] 0.

(** * Scheduling *)

Definition pump_of (snaps : gmap Z snap) (meta : upool) : option part :=
  match snaps !! u_idx meta with
  | Some s => match sn_state s with SnPump p => Some (meta, p, sn_gen s) | SnDlmm _ => None end
  | None => None
  end.

Definition schedule_at (i : Z) (row : upool) (sn : snap) (d : dlmm) (parts : list part) (now : Z)
    (s : sstate) (b : boundary) : sstate :=
  let ts := boundary_time b in
  let key := (i, sn_gen sn, kind_name b, ts) in
  if bool_decide (key ∈ job_key <$> scheduled s) then s else
  let econ0 := eval_routes d (fst <$> parts) now in
  let '(fee0, vacc0, vref0) := fee_after_time d now in
  let j := SJob (u_pubkey row) i (u_token row) now ts (kind_name b) (sn_gen sn) (sn_slot sn) d parts econ0
             fee0 vacc0 vref0 false in
  s {{ scheduled ::= fun l => l ++ [j]; seen_sched ::= Z.add 1 }}.

Definition schedule_pool (pools : list upool) (snaps : gmap Z snap) (now : Z) (s : sstate) (i : nat) : sstate :=
  match snaps !! Z.of_nat i, pools !! i with
  | Some sn, Some row =>
      match sn_state sn with
      | SnPump _ => s
      | SnDlmm d =>
          let parts := omap (pump_of snaps) (partners pools row) in
          if bool_decide (parts = []) then s else
          foldl (schedule_at (Z.of_nat i) row sn d parts now) s (next_boundaries d now)
      end
  | _, _ => s
  end.

(** * Firing *)

Definition is_due (now : Z) (j : sjob) : bool := (g_boundary j <=? now) && negb (g_fired j).

(** The pair's snapshot is still the one the job was scheduled on. *)
Definition survives (snaps : gmap Z snap) (j : sjob) : bool :=
  match snaps !! g_idx j with
  | Some s => (sn_gen s =? g_gen j) && match sn_state s with SnDlmm _ => true | SnPump _ => false end
  | None => false
  end.

Definition part_same (snaps : gmap Z snap) (p : part) : bool :=
  match snaps !! u_idx p.1.1 with
  | Some s => sn_gen s =? p.2
  | None => false
  end.

Definition fire_srec (snaps : gmap Z snap) (now : Z) (j : sjob) : srec :=
  let survived := survives snaps j in
  let pump_ok := negb survived || forallb (part_same snaps) (g_parts j) in
  let '(fee1, vacc1, vref1) := fee_after_time (g_dlmm j) (g_boundary j) in
  let econ1 := eval_routes (g_dlmm j) (fst <$> g_parts j) (g_boundary j) in
  let crosses := if survived then crosses_of (g_econ0 j) econ1 else [] in
  SRec (g_pool j) (g_idx j) (g_token j) (g_sched j) (g_boundary j) (g_kind j)
    survived (survived && pump_ok) (negb survived)
    (g_fee0 j) fee1 (fee1 - g_fee0 j) (g_vacc0 j) vacc1 (g_vref0 j) vref1
    crosses (negb (bool_decide (crosses = []))) (g_slot j) (g_gen j) now
    (best_cross crosses) (if decide (crosses = []) then None else Some WATCH)
    None None None None None.

Definition fire_sjob (snaps : gmap Z snap) (now : Z) (s : sstate) (j : sjob) : sstate :=
  let rec := fire_srec snaps now j in
  let i := length (sfired s) in
  let s := s {{ sfired ::= fun l => l ++ [rec] }} in
  if decide (v_crosses rec = []) then s else
  s {{ sopens ::= fun l => l ++ [i]; pending ::= fun l => l ++ [i] }}.

Definition fire_due (snaps : gmap Z snap) (now : Z) (s : sstate) : sstate :=
  let due := filter (fun j => is_due now j = true) (scheduled s) in
  let s := s {{ scheduled ::= fmap (fun j => if is_due now j then j {{ g_fired := true }} else j) }} in
  foldl (fire_sjob snaps now) s due.

(** * Following *)

(** The clock as read for one pending opening: its whole seconds, and whether the run is about
    to end. *)
Definition follow_one (snaps : gmap Z snap) (clock : Z * bool) (r : srec) : srec * bool :=
  let cur := snaps !! v_idx r in
  match cur with
  | Some c =>
      if negb (sn_gen c =? v_gen r) then
        (r {{ v_time_open := Some (clock.1 - v_boundary r); v_closed_slot := Some (sn_slot c);
              v_follow := Some NATURALLY_CLOSED_BY_FLOW;
              v_close_sig := if bool_decide (sn_sig c = []) then None else Some (sn_sig c) }}, false)
      else if clock.2 then
        (r {{ v_time_open := Some (clock.1 - v_boundary r); v_follow := Some STILL_OPEN }}, false)
      else (r, true)
  | None =>
      if clock.2 then
        (r {{ v_time_open := Some (clock.1 - v_boundary r); v_follow := Some STILL_OPEN }}, false)
      else (r, true)
  end.

Fixpoint follow (snaps : gmap Z snap) (clocks : nat -> Z * bool) (k : nat) (todo still : list nat) (s : sstate) : sstate :=
  match todo with
  | [] => s {{ pending := still }}
  | i :: todo' =>
      match sfired s !! i with
      | None => follow snaps clocks (S k) todo' still s
      | Some r =>
          let '(r', keep) := follow_one snaps (clocks k) r in
          follow snaps clocks (S k) todo' (if (keep : bool) then still ++ [i] else still)
            (s {{ sfired ::= <[i := r']> }})
      end
  end.

(** * The loop *)

Record pass := Pass { ps_mem : mem; ps_now : Z; ps_clocks : nat -> Z * bool }.

Section shadow.
Context (pools : list upool) (n : Z).

(** [min(n, len(pools))] *)
Definition width : nat := Z.to_nat (Z.min n (Z.of_nat (length pools))).

Definition one_pass (s : sstate) (p : pass) : pyres sstate :=
  snaps <-! take_snaps (ps_mem p) 0 width ;;
  let now := ps_now p in
  let s := foldl (schedule_pool pools snaps now) s (List.seq 0 width) in
  let s := fire_due snaps now s in
  Ret (follow snaps (ps_clocks p) 0 (pending s) [] s).

Fixpoint passes (s : sstate) (ps : list pass) : pyres sstate :=
  match ps with
  | [] => Ret s
  | p :: ps' => s' <-! one_pass s p ;; passes s' ps'
  end.

(** The openings still pending when the time is up; the clock is read for each. *)
Definition still_open (clock : Z) (r : srec) : srec :=
  r {{ v_time_open := Some (clock - v_boundary r); v_follow := Some STILL_OPEN }}.

Fixpoint finish_all (clocks : nat -> Z) (k : nat) (todo : list nat) (l : list srec) : list srec :=
  match todo with
  | [] => l
  | i :: todo' => finish_all clocks (S k) todo' (alter (still_open (clocks k)) i l)
  end.

Definition finish (clocks : nat -> Z) (s : sstate) : sstate :=
  s {{ sfired := finish_all clocks 0 (pending s) (sfired s) }}.

Definition shadow (ps : list pass) (clocks : nat -> Z) : pyres sstate :=
  s <-! passes sstate0 ps ;;
  Ret (finish clocks s).
End shadow.

(** * Arbitrages found on chain *)

Definition hits_in (rows : list arb) (r : srec) : list arb :=
  filter (fun a => str_true (a_two_leg_arb_mint a) = true /\
                   a_two_leg_arb_mint a = Some (default ""%string (v_token r)) /\
                   v_boundary r <= or0 (a_time a) <= v_boundary r + 30) rows.

Definition join_arb (rows : list arb) (r : srec) : srec :=
  match hits_in rows r with
  | [] => if bool_decide (v_follow r = Some STILL_OPEN) then r {{ v_subsequent_taker := None }} else r
  | a :: _ =>
      let known := searcher_of (a_user a) in
      let r := r {{ v_subsequent_taker := a_signature a; v_known_searcher := known }} in
      if bool_decide (v_follow r = Some STILL_OPEN)
      then r {{ v_follow := Some (if bool_decide (known ∈ Some <$> SEARCHERS.*2)
                                  then CAPTURED_KNOWN_ARB else CAPTURED_UNKNOWN_SEARCHER) }}
      else r
  end.

Definition join_arbs (rows : list arb) (s : sstate) : sstate :=
  s {{ sfired := foldl (fun l i => alter (join_arb rows) i l) (sfired s) (sopens s) }}.

(** * Frames *)

(** What identifies a record, and its times. *)
Definition rec_key (r : srec) : Z * Z * string * Z := (v_idx r, v_gen r, v_kind r, v_boundary r).

(** What following and finishing leave alone of a record. *)
Definition fixed (r : srec) := (rec_key r, v_crosses r, v_survived r, v_sched r, v_fired_at r).

Lemma follow_one_fixed snaps ck r : fixed (follow_one snaps ck r).1 = fixed r.
Proof. unfold follow_one. repeat case_match; by destruct r. Qed.

Lemma still_open_fixed ck r : fixed (still_open ck r) = fixed r.
Proof. by destruct r. Qed.

Lemma fmap_set {A B} (g : A -> B) (l : list A) (i : nat) x y : l !! i = Some x -> g y = g x -> g <$> <[i:=y]> l = g <$> l.
Proof. intros Hl Hg. rewrite list_fmap_insert, Hg. apply list_insert_id. by rewrite list_lookup_fmap, Hl. Qed.

Lemma follow_frame snaps cks k todo still s :
  let s' := follow snaps cks k todo still s in
  fixed <$> sfired s' = fixed <$> sfired s /\ scheduled s' = scheduled s /\ sopens s' = sopens s /\
  seen_sched s' = seen_sched s.
Proof.
  revert k still s. induction todo as [|i todo IH]; intros k still s; cbn [follow]; [by destruct s|].
  destruct (sfired s !! i) as [r|] eqn:Hr; [|apply IH].
  pose proof (follow_one_fixed snaps (cks k) r) as Hf. destruct (follow_one snaps (cks k) r) as [r' keep].
  cbn [fst] in Hf. destruct (IH (S k) (if keep then still ++ [i] else still) (s {{ sfired ::= <[i:=r']> }}))
    as (H1 & H2 & H3 & H4). destruct s as [sch fi op pe se]. cbn in *.
  rewrite H1. split; [|done]. by apply (fmap_set _ _ _ r).
Qed.

(** Scheduling only adds jobs, and those have not fired. *)
Definition firing (s : sstate) :=
  (sfired s, sopens s, pending s, filter (fun j => g_fired j = true) (scheduled s)).

Lemma schedule_at_frame i row sn d parts now s b : firing (schedule_at i row sn d parts now s b) = firing s.
Proof. unfold schedule_at. case_bool_decide; [done|]. destruct (fee_after_time _ _) as [[? ?] ?].
  destruct s. unfold firing. cbn. by rewrite filter_app, filter_cons_False, filter_nil, app_nil_r by done.
Qed.

Lemma foldl_keeps_frame {A B C} (g : A -> C) (f : A -> B -> A) l a :
  (forall x y, g (f x y) = g x) -> g (foldl f a l) = g a.
Proof. intros H. revert a. induction l as [|y l IH]; intros a; [done|]. cbn [foldl]. by rewrite IH, H. Qed.

Lemma schedule_pool_frame pools snaps now s i : firing (schedule_pool pools snaps now s i) = firing s.
Proof.
  unfold schedule_pool. destruct (snaps !! Z.of_nat i) as [sn|]; [|done]. destruct (pools !! i) as [row|]; [|done].
  destruct (sn_state sn) as [d|]; [|done]. case_bool_decide; [done|].
  apply foldl_keeps_frame. intros. apply schedule_at_frame.
Qed.

(** * Jobs *)

(** What a job was scheduled with. *)
Record job_ok (pools : list upool) (j : sjob) : Prop := {
  jk_future : g_sched j < g_boundary j;
  jk_econ0 : g_econ0 j = eval_routes (g_dlmm j) (fst <$> g_parts j) (g_sched j);
  jk_parts : NoDup (u_idx <$> pools) -> NoDup ((fun mp => u_idx mp.1.1) <$> g_parts j);
  jk_metas : Forall (fun mp => mp.1.1 ∈ pools) (g_parts j) }.

Record jobs_inv (pools : list upool) (s : sstate) : Prop := {
  ji_keys : NoDup (job_key <$> scheduled s);
  ji_seen : seen_sched s = Z.of_nat (length (scheduled s));
  ji_jobs : Forall (job_ok pools) (scheduled s) }.

Lemma next_boundaries_future d now b : b ∈ next_boundaries d now -> now < boundary_time b.
Proof.
  unfold next_boundaries. destruct (_ =? 0); [intros H; by apply elem_of_nil in H|].
  intros H. apply elem_of_app in H as [H|H].
  - destruct (Z.ltb_spec now (last_upd d + filter_period d)); [|by apply elem_of_nil in H].
    apply list_elem_of_singleton in H as ->. done.
  - destruct (Z.ltb_spec now (last_upd d + decay_period d)); cbn [andb] in H; [|by apply elem_of_nil in H].
    destruct (negb _); [|by apply elem_of_nil in H]. apply list_elem_of_singleton in H as ->. done.
Qed.

Lemma pump_of_row snaps m p : pump_of snaps m = Some p -> p.1.1 = m.
Proof. unfold pump_of. destruct (snaps !! _) as [x|]; [|done]. destruct (sn_state x); [done|]. by intros [= <-]. Qed.

Lemma parts_idx snaps l :
  NoDup (u_idx <$> l) -> NoDup ((fun mp : part => u_idx mp.1.1) <$> omap (pump_of snaps) l).
Proof.
  induction l as [|m l IH]; [constructor|]. rewrite fmap_cons. intros H. apply NoDup_cons in H as [Hm Hl].
  cbn [omap list_omap]. destruct (pump_of snaps m) as [p|] eqn:E; [|by apply IH].
  rewrite fmap_cons. apply NoDup_cons. split; [|by apply IH]. rewrite (pump_of_row _ _ _ E).
  intros Hin. apply Hm. apply list_elem_of_fmap in Hin as (q & Hq & Hin). apply list_elem_of_omap in Hin as (y & Hy & Ey).
  rewrite (pump_of_row _ _ _ Ey) in Hq. apply list_elem_of_fmap. by exists y.
Qed.

Lemma partners_sub pools row : partners pools row `sublist_of` pools.
Proof. unfold partners. destruct (negb _); [apply sublist_nil_l|apply sublist_filter]. Qed.

Lemma schedule_at_inv pools i row sn d parts now s b :
  now < boundary_time b ->
  (NoDup (u_idx <$> pools) -> NoDup ((fun mp => u_idx mp.1.1) <$> parts)) -> Forall (fun mp => mp.1.1 ∈ pools) parts ->
  jobs_inv pools s -> jobs_inv pools (schedule_at i row sn d parts now s b).
Proof.
  intros Hb Hn Hm [H1 H2 H3]. unfold schedule_at. case_bool_decide as Hk; [by constructor|].
  destruct (fee_after_time d now) as [[fee0 vacc0] vref0]. destruct s as [sch fi op pe se]. cbn in *.
  constructor; cbn.
  - rewrite fmap_app. apply NoDup_app. split; [done|]. split; [|apply NoDup_singleton].
    intros x Hx Hx'. apply list_elem_of_singleton in Hx' as ->. done.
  - rewrite length_app. cbn. lia.
  - apply Forall_app. split; [done|]. constructor; [by constructor|constructor].
Qed.

Lemma schedule_pool_inv pools snaps now s i :
  jobs_inv pools s -> jobs_inv pools (schedule_pool pools snaps now s i).
Proof.
  intros H. unfold schedule_pool. destruct (snaps !! Z.of_nat i) as [sn|]; [|done]. destruct (pools !! i) as [row|]; [|done].
  destruct (sn_state sn) as [d|]; [|done]. case_bool_decide; [done|].
  set (parts := omap (pump_of snaps) (partners pools row)).
  assert (Hn : NoDup (u_idx <$> pools) -> NoDup ((fun mp : part => u_idx mp.1.1) <$> parts)).
  { intros Hp. apply parts_idx. eapply sublist_NoDup; [exact Hp|]. apply fmap_sublist, partners_sub. }
  assert (Hm : Forall (fun mp : part => mp.1.1 ∈ pools) parts).
  { apply Forall_forall. intros p Hp. apply list_elem_of_omap in Hp as (y & Hy & Ey). rewrite (pump_of_row _ _ _ Ey).
    eapply elem_of_submseteq; [exact Hy|]. apply sublist_submseteq, partners_sub. }
  assert (Hb : Forall (fun b => now < boundary_time b) (next_boundaries d now))
    by (apply Forall_forall; intros b; apply next_boundaries_future).
  clearbody parts. revert s H. induction Hb as [|b bs Hb _ IH]; intros s H; [done|]. cbn [foldl].
  apply IH. by apply schedule_at_inv.
Qed.

Lemma foldl_inv {A B} (P : A -> Prop) (f : A -> B -> A) l a : (forall x y, P x -> P (f x y)) -> P a -> P (foldl f a l).
Proof. intros H. revert a. induction l as [|y l IH]; intros a Ha; [done|]. cbn [foldl]. by apply IH, H. Qed.

(** * Firing *)

Definition mark (now : Z) (j : sjob) : sjob := if is_due now j then j {{ g_fired := true }} else j.

Lemma mark_key now j : job_key (mark now j) = job_key j.
Proof. unfold mark. destruct (is_due now j); by destruct j. Qed.

Lemma mark_job pools now j : job_ok pools j -> job_ok pools (mark now j).
Proof. unfold mark. destruct (is_due now j); [|done]. intros []. destruct j. by constructor. Qed.

Lemma marked_fired now l :
  job_key <$> filter (fun j => g_fired j = true) (mark now <$> l) ≡ₚ
  (job_key <$> filter (fun j => g_fired j = true) l) ++ (job_key <$> filter (fun j => is_due now j = true) l).
Proof.
  induction l as [|j l IH]; [done|]. rewrite fmap_cons, !filter_cons. pose proof (mark_key now j) as Hk.
  assert (Hd : is_due now j = true \/ is_due now j = false) by (destruct (is_due now j); auto).
  destruct Hd as [Ed|Ed].
  - assert (Ef : g_fired j = false) by (unfold is_due in Ed; zb; done).
    assert (Em : g_fired (mark now j) = true) by (unfold mark; rewrite Ed; by destruct j).
    rewrite (decide_True (P := g_fired (mark now j) = true)) by done.
    rewrite (decide_True (P := is_due now j = true)) by done.
    rewrite (decide_False (P := g_fired j = true)) by (by rewrite Ef).
    by rewrite !fmap_cons, IH, <- Permutation_middle, Hk.
  - assert (Em : mark now j = j) by (unfold mark; by rewrite Ed). rewrite Em.
    rewrite (decide_False (P := is_due now j = true)) by (by rewrite Ed).
    case_decide; [by rewrite !fmap_cons, IH|exact IH].
Qed.

Lemma fire_srec_key snaps now j : rec_key (fire_srec snaps now j) = job_key j.
Proof. unfold fire_srec. by destruct (fee_after_time _ _) as [[? ?] ?]. Qed.

Lemma fire_srec_times snaps now j :
  v_sched (fire_srec snaps now j) = g_sched j /\ v_fired_at (fire_srec snaps now j) = now /\
  v_survived (fire_srec snaps now j) = survives snaps j /\
  v_crosses (fire_srec snaps now j) =
    if survives snaps j then crosses_of (g_econ0 j) (eval_routes (g_dlmm j) (fst <$> g_parts j) (g_boundary j)) else [].
Proof. unfold fire_srec. by destruct (fee_after_time _ _) as [[? ?] ?]. Qed.

Lemma fire_srec_follow snaps now j :
  v_follow (fire_srec snaps now j) = if decide (v_crosses (fire_srec snaps now j) = []) then None else Some WATCH.
Proof. unfold fire_srec. by destruct (fee_after_time _ _) as [[? ?] ?]. Qed.

Lemma fire_all_recs snaps now due s :
  let s' := foldl (fire_sjob snaps now) s due in
  sfired s' = sfired s ++ (fire_srec snaps now <$> due) /\ scheduled s' = scheduled s /\ seen_sched s' = seen_sched s.
Proof.
  revert s. induction due as [|j due IH]; intros s; cbn [foldl]; [by rewrite app_nil_r|].
  destruct (IH (fire_sjob snaps now s j)) as (H1 & H2 & H3). cbv zeta. rewrite H1, H2, H3.
  unfold fire_sjob. rewrite fmap_cons. destruct s as [sch fi op pe se].
  case_decide; cbn; (split; [by rewrite <- app_assoc|done]).
Qed.

(** * Every boundary fires once *)

Definition rec_times (r : srec) : Prop := v_sched r < v_boundary r <= v_fired_at r.

Record fires_inv (pools : list upool) (s : sstate) : Prop := {
  fi_jobs : jobs_inv pools s;
  fi_recs : rec_key <$> sfired s ≡ₚ job_key <$> filter (fun j => g_fired j = true) (scheduled s);
  fi_times : Forall rec_times (sfired s) }.

Lemma fire_due_inv pools snaps now s :
  fires_inv pools s -> fires_inv pools (fire_due snaps now s) /\
  Forall (fun j => g_boundary j <= now -> g_fired j = true) (scheduled (fire_due snaps now s)).
Proof.
  intros [[H1 H2 H3] H4 H5]. unfold fire_due.
  set (due := filter (fun j => is_due now j = true) (scheduled s)).
  set (s1 := s {{ scheduled ::= _ }}).
  assert (E1 : scheduled s1 = mark now <$> scheduled s /\ sfired s1 = sfired s /\ seen_sched s1 = seen_sched s)
    by (by destruct s). destruct E1 as (E1 & E2 & E3).
  destruct (fire_all_recs snaps now due s1) as (F1 & F2 & F3). cbv zeta in F1, F2, F3.
  split; [|rewrite F2, E1; apply Forall_fmap, Forall_forall; intros j _; cbn; unfold mark, is_due].
  - constructor; [constructor|..]; rewrite ?F1, ?F2, ?F3, ?E1, ?E2, ?E3.
    + rewrite <- list_fmap_compose. erewrite list_fmap_ext; [exact H1|]. intros; apply mark_key.
    + by rewrite length_fmap.
    + apply Forall_fmap. eapply Forall_impl; [exact H3|]. intros j. apply mark_job.
    + rewrite fmap_app, marked_fired, H4. apply Permutation_app_head. rewrite <- list_fmap_compose.
      erewrite list_fmap_ext; [done|]. intros. apply fire_srec_key.
    + apply Forall_app. split; [done|]. apply Forall_fmap, Forall_forall. intros j Hj. unfold due in Hj.
      apply list_elem_of_filter in Hj as [Hd Hj]. rewrite Forall_forall in H3. destruct (H3 j Hj) as [Hf _ _ _].
      unfold is_due in Hd. apply andb_true_iff in Hd as [Hd _]. apply Z.leb_le in Hd.
      destruct (fire_srec_times snaps now j) as (T1 & T2 & _). pose proof (fire_srec_key snaps now j) as K.
      apply (f_equal snd) in K. change (v_boundary (fire_srec snaps now j) = g_boundary j) in K.
      change (rec_times (fire_srec snaps now j)). unfold rec_times. rewrite T1, T2, K. lia.
  - destruct (Z.leb_spec (g_boundary j) now) as [Hle|Hgt]; cbn [andb].
    + destruct (g_fired j) eqn:Ef; cbn [negb]; [done|]. by destruct j.
    + intros. lia.
Qed.

Lemma fixed_recs (l l' : list srec) : fixed <$> l = fixed <$> l' -> Forall rec_times l' -> Forall rec_times l.
Proof.
  intros E H. rewrite Forall_lookup in *. intros i r Hi.
  assert (Hf : (fixed <$> l') !! i = Some (fixed r)) by (by rewrite <- E, list_lookup_fmap, Hi).
  rewrite list_lookup_fmap in Hf. apply fmap_Some in Hf as (r' & Hr' & Ef). specialize (H i r' Hr').
  unfold fixed, rec_key in Ef. injection Ef as _ _ _ Eb _ _ Es Ea. unfold rec_times. by rewrite Es, Eb, Ea.
Qed.

Lemma fixed_keys (l l' : list srec) : fixed <$> l = fixed <$> l' -> rec_key <$> l = rec_key <$> l'.
Proof.
  intros E. apply (f_equal (fmap (fun x => x.1.1.1.1))) in E. by rewrite <- !list_fmap_compose in E.
Qed.

Lemma one_pass_inv pools n s p s' :
  fires_inv pools s -> one_pass pools n s p = Ret s' ->
  fires_inv pools s' /\ Forall (fun j => g_boundary j <= ps_now p -> g_fired j = true) (scheduled s').
Proof.
  intros [Hj H4 H5] H. unfold one_pass in H. apply py_bind_Ret in H as (snaps & _ & [= <-]).
  set (s1 := foldl (schedule_pool pools snaps (ps_now p)) s (List.seq 0 (width pools n))).
  assert (Hj1 : jobs_inv pools s1).
  { unfold s1. apply (foldl_inv (jobs_inv pools)); [intros; by apply schedule_pool_inv|done]. }
  assert (Hf : firing s1 = firing s) by (unfold s1; apply foldl_keeps_frame; intros; apply schedule_pool_frame).
  injection Hf as E1 _ _ E4.
  assert (Hi1 : fires_inv pools s1) by (constructor; [done|by rewrite E1, E4|by rewrite E1]).
  destruct (fire_due_inv pools snaps (ps_now p) s1 Hi1) as [[Hj2 H42 H52] Hd].
  set (s2 := fire_due snaps (ps_now p) s1) in *. clearbody s2.
  destruct (follow_frame snaps (ps_clocks p) 0 (pending s2) [] s2) as (F1 & F2 & _ & F4).
  set (s3 := follow snaps (ps_clocks p) 0 (pending s2) [] s2) in *. clearbody s3.
  split; [|by rewrite F2]. destruct Hj2 as [J1 J2 J3]. constructor.
  - constructor; rewrite ?F2, ?F4; done.
  - by rewrite F2, (fixed_keys _ _ F1).
  - by eapply fixed_recs.
Qed.

(** * Openings are followed to an end *)

Definition resolved_as (r : srec) : Prop :=
  (v_follow r = Some NATURALLY_CLOSED_BY_FLOW \/ v_follow r = Some STILL_OPEN) /\ is_Some (v_time_open r).

(** The record at place [i], when [live] are the places still followed. *)
Definition rec_open (live : list nat) (i : nat) (r : srec) : Prop :=
  (v_crosses r = [] /\ v_follow r = None /\ i ∉ live) \/
  (v_crosses r <> [] /\ ((v_follow r = Some WATCH /\ i ∈ live) \/ resolved_as r)).

Definition open_inv (live : list nat) (l : list srec) : Prop := forall i r, l !! i = Some r -> rec_open live i r.

Lemma rec_open_perm live live' i r : (forall k, k ∈ live <-> k ∈ live') -> rec_open live i r -> rec_open live' i r.
Proof. intros H. unfold rec_open. rewrite (H i). tauto. Qed.

Lemma follow_one_resolved snaps ck r r' : follow_one snaps ck r = (r', false) -> resolved_as r'.
Proof.
  unfold follow_one, resolved_as. repeat case_match; intros [= <-]; destruct r; cbn; eauto.
Qed.

Lemma follow_one_kept snaps ck r r' : follow_one snaps ck r = (r', true) -> r' = r.
Proof. unfold follow_one. repeat case_match; by intros [= <-]. Qed.

Lemma fixed_crosses r r' : fixed r' = fixed r -> v_crosses r' = v_crosses r.
Proof. unfold fixed. congruence. Qed.

(** Resolving the record at the head of the places still followed. *)
Lemma open_inv_resolve i live l r r' :
  l !! i = Some r -> v_crosses r <> [] -> v_crosses r' = v_crosses r -> resolved_as r' ->
  open_inv (i :: live) l -> open_inv live (<[i := r']> l).
Proof.
  intros Hr Hc Ec Hres H k x Hk. destruct (decide (k = i)) as [->|Hne].
  - rewrite list_lookup_insert_eq in Hk by (by eapply lookup_lt_Some). injection Hk as <-.
    right. rewrite Ec. split; [done|by right].
  - rewrite list_lookup_insert_ne in Hk by done. specialize (H k x Hk). unfold rec_open in *.
    rewrite elem_of_cons in H. naive_solver.
Qed.

Lemma open_inv_cross i live l r : open_inv live l -> l !! i = Some r -> i ∈ live -> v_crosses r <> [].
Proof. intros H Hr Hi. destruct (H i r Hr) as [(_ & _ & Hn)|[Hc _]]; [done|exact Hc]. Qed.

Lemma follow_open snaps cks k todo still s :
  (forall i, i ∈ todo ++ still -> is_Some (sfired s !! i)) ->
  open_inv (todo ++ still) (sfired s) ->
  let s' := follow snaps cks k todo still s in
  open_inv (pending s') (sfired s') /\ (forall i, i ∈ pending s' -> is_Some (sfired s' !! i)).
Proof.
  revert k still s. induction todo as [|i todo IH]; intros k still s Hv H; cbn [follow]; [by destruct s|].
  destruct (sfired s !! i) as [r|] eqn:Hr.
  2: { destruct (Hv i) as [x Hx]; [by left|congruence]. }
  pose proof (open_inv_cross _ _ _ _ H Hr ltac:(by left)) as Hc.
  destruct (follow_one snaps (cks k) r) as [r' keep] eqn:Ef.
  assert (Efired : sfired (s {{ sfired ::= <[i:=r']> }}) = <[i:=r']> (sfired s)) by (by destruct s).
  apply IH; rewrite Efired.
  - intros x Hx. apply lookup_lt_is_Some. rewrite length_insert. apply lookup_lt_is_Some, Hv.
    destruct keep; [|by right]. rewrite app_assoc in Hx. apply elem_of_app in Hx as [Hx|Hx]; [by right|].
    apply list_elem_of_singleton in Hx as ->. by left.
  - destruct keep.
    + apply follow_one_kept in Ef as ->. rewrite list_insert_id by done. intros x y Hy.
      eapply rec_open_perm; [|by apply H]. intros z. cbn. rewrite elem_of_cons, !elem_of_app, list_elem_of_singleton. tauto.
    + pose proof (follow_one_fixed snaps (cks k) r) as Hfix. rewrite Ef in Hfix.
      eapply open_inv_resolve; [exact Hr|exact Hc|by apply fixed_crosses|by eapply follow_one_resolved|exact H].
Qed.

Lemma fire_sjob_open snaps now s j :
  (forall i, i ∈ pending s -> is_Some (sfired s !! i)) -> open_inv (pending s) (sfired s) ->
  let s' := fire_sjob snaps now s j in
  (forall i, i ∈ pending s' -> is_Some (sfired s' !! i)) /\ open_inv (pending s') (sfired s').
Proof.
  intros Hv H. unfold fire_sjob. pose proof (fire_srec_follow snaps now j) as Hfol.
  set (r := fire_srec snaps now j) in *. clearbody r. destruct s as [sch fi op pe se]. cbn in Hv, H.
  assert (Hfresh : length fi ∉ pe).
  { intros Hi. apply Hv, lookup_lt_is_Some in Hi. lia. }
  destruct (decide (v_crosses r = [])) as [Hc|Hc]; cbn; split.
  - intros i Hi. rewrite lookup_app_l; [by apply Hv|]. by apply lookup_lt_is_Some, Hv.
  - intros i x Hx. apply lookup_snoc_Some in Hx as [[_ Hx]|[-> <-]]; [by apply H|]. by left.
  - intros i Hi. apply elem_of_app in Hi as [Hi|Hi].
    + rewrite lookup_app_l; [by apply Hv|]. by apply lookup_lt_is_Some, Hv.
    + apply list_elem_of_singleton in Hi as ->. by rewrite list_lookup_middle.
  - intros i x Hx. apply lookup_snoc_Some in Hx as [[Hlt Hx]|[-> <-]].
    + specialize (H i x Hx). unfold rec_open in *. rewrite elem_of_app, list_elem_of_singleton.
      assert (i <> length fi) by lia. naive_solver.
    + right. split; [done|]. left. split; [done|]. apply elem_of_app. right. by left.
Qed.

Lemma one_pass_open pools n s p s' :
  (forall i, i ∈ pending s -> is_Some (sfired s !! i)) -> open_inv (pending s) (sfired s) ->
  one_pass pools n s p = Ret s' ->
  (forall i, i ∈ pending s' -> is_Some (sfired s' !! i)) /\ open_inv (pending s') (sfired s').
Proof.
  intros Hv H E. unfold one_pass in E. apply py_bind_Ret in E as (snaps & _ & [= <-]).
  set (s1 := foldl (schedule_pool pools snaps (ps_now p)) s (List.seq 0 (width pools n))).
  assert (Hf : firing s1 = firing s) by (unfold s1; apply foldl_keeps_frame; intros; apply schedule_pool_frame).
  injection Hf as E1 _ E3 _. clearbody s1.
  set (s2 := fire_due snaps (ps_now p) s1).
  assert (H2 : (forall i, i ∈ pending s2 -> is_Some (sfired s2 !! i)) /\ open_inv (pending s2) (sfired s2)).
  { unfold s2, fire_due.
    apply (foldl_inv (fun s => (forall i, i ∈ pending s -> is_Some (sfired s !! i)) /\ open_inv (pending s) (sfired s))).
    - intros x y [Hx1 Hx2]. by apply fire_sjob_open.
    - replace (pending _) with (pending s) by (by destruct s1). replace (sfired _) with (sfired s) by (by destruct s1). done. }
  destruct H2 as [Hv2 H2]. destruct (follow_open snaps (ps_clocks p) 0 (pending s2) [] s2) as [F1 F2].
  - intros i Hi. rewrite app_nil_r in Hi. by apply Hv2.
  - by rewrite app_nil_r.
  - by split.
Qed.

Lemma alter_as_insert {A} (f : A -> A) (l : list A) (i : nat) x : l !! i = Some x -> alter f i l = <[i := f x]> l.
Proof.
  intros Hx. apply list_eq. intros k. destruct (decide (k = i)) as [->|Hne].
  - rewrite list_lookup_alter_eq, list_lookup_insert_eq by (by eapply lookup_lt_Some). by rewrite Hx.
  - by rewrite list_lookup_alter_ne, list_lookup_insert_ne by done.
Qed.

Lemma finish_all_open cks k todo l :
  (forall i, i ∈ todo -> is_Some (l !! i)) -> open_inv todo l -> open_inv [] (finish_all cks k todo l).
Proof.
  revert k l. induction todo as [|i todo IH]; intros k l Hv H; cbn [finish_all]; [done|].
  destruct (Hv i) as [r Hr]; [by left|].
  assert (E : alter (still_open (cks k)) i l = <[i := still_open (cks k) r]> l).
  { by apply alter_as_insert. }
  pose proof (open_inv_cross _ _ _ _ H Hr ltac:(by left)) as Hc.
  apply IH; rewrite E.
  - intros x Hx. apply lookup_lt_is_Some. rewrite length_insert. apply lookup_lt_is_Some, Hv. by right.
  - eapply open_inv_resolve; [exact Hr|exact Hc|by destruct r| |exact H].
    unfold resolved_as. destruct r. cbn. eauto.
Qed.

(** * What the shadow promises *)

Lemma passes_inv pools n ps s s' :
  fires_inv pools s -> (forall i, i ∈ pending s -> is_Some (sfired s !! i)) -> open_inv (pending s) (sfired s) ->
  passes pools n s ps = Ret s' ->
  fires_inv pools s' /\ (forall i, i ∈ pending s' -> is_Some (sfired s' !! i)) /\ open_inv (pending s') (sfired s').
Proof.
  revert s. induction ps as [|p ps IH]; intros s H1 H2 H3; cbn [passes]; [by intros [= <-]|].
  intros H. apply py_bind_Ret in H as (s1 & Hp & H). destruct (one_pass_open _ _ _ _ _ H2 H3 Hp) as [H4 H5].
  destruct (one_pass_inv _ _ _ _ _ H1 Hp) as [H6 _]. by apply (IH s1).
Qed.

Lemma reached_inv pools n ps s :
  passes pools n sstate0 ps = Ret s ->
  fires_inv pools s /\ (forall i, i ∈ pending s -> is_Some (sfired s !! i)) /\ open_inv (pending s) (sfired s).
Proof.
  apply passes_inv; [|intros i Hi; by apply elem_of_nil in Hi|intros i r Hr; by destruct i].
  constructor; [constructor|..]; by try constructor.
Qed.

Lemma passes_snoc pools n ps p s s' :
  passes pools n s (ps ++ [p]) = Ret s' <-> exists s1, passes pools n s ps = Ret s1 /\ one_pass pools n s1 p = Ret s'.
Proof.
  revert s. induction ps as [|q ps IH]; intros s; cbn [app passes].
  - split.
    + intros H. apply py_bind_Ret in H as (x & Hx & [= <-]). by exists s.
    + intros (s1 & [= <-] & ->). done.
  - destruct (one_pass pools n s q) as [x|e]; cbn [py_bind]; [apply IH|].
    split; [discriminate|by intros (s1 & [=] & _)].
Qed.

(** C16. Every scheduled boundary fires exactly once and not early: the keys of the records are
    those of the fired jobs, each key is scheduled once, a record was scheduled before its
    boundary and fired at or after it, and after any pass no job whose boundary the pass's clock
    has reached is left. *)
Theorem shadow_fires_once pools n ps p s :
  passes pools n sstate0 (ps ++ [p]) = Ret s ->
  NoDup (job_key <$> scheduled s) /\ seen_sched s = Z.of_nat (length (scheduled s)) /\
  rec_key <$> sfired s ≡ₚ job_key <$> filter (fun j => g_fired j = true) (scheduled s) /\
  Forall (fun r => v_sched r < v_boundary r <= v_fired_at r) (sfired s) /\
  Forall (fun j => g_boundary j <= ps_now p -> g_fired j = true) (scheduled s).
Proof.
  intros H. apply passes_snoc in H as (s1 & H1 & H). apply reached_inv in H1 as [H1 _].
  destruct (one_pass_inv _ _ _ _ _ H1 H) as [[[? ? ?] ? ?] ?]. done.
Qed.

(** The shadow leaves no opening behind: in the ledger of a finished run a record has a
    verdict exactly when it has a cross, the verdict is closed by flow or still open, with the
    time it lasted, and none is left on WATCH. *)
Theorem shadow_openings_followed pools n ps clocks s :
  shadow pools n ps clocks = Ret s ->
  Forall (fun r => (v_crosses r = [] /\ v_follow r = None) \/
    (v_crosses r <> [] /\ (v_follow r = Some NATURALLY_CLOSED_BY_FLOW \/ v_follow r = Some STILL_OPEN) /\
     is_Some (v_time_open r))) (sfired s).
Proof.
  unfold shadow. intros H. apply py_bind_Ret in H as (s1 & H1 & [= <-]). apply reached_inv in H1 as (_ & Hv & Ho).
  replace (sfired (finish clocks s1)) with (finish_all clocks 0 (pending s1) (sfired s1)) by (by destruct s1).
  apply Forall_lookup. intros i r Hr.
  destruct (finish_all_open clocks 0 _ _ Hv Ho i r Hr) as [(? & ? & _)|(Hc & [[_ Hn]|Hres])]; [by left| |by right].
  by apply elem_of_nil in Hn.
Qed.

(** * Crosses *)

(** The crosses of a firing are the real ones: for a job the shadow scheduled, over a universe
    whose rows have distinct indexes, a cross is listed exactly when the pair's snapshot is still
    the scheduled one and the exact quote of some partner, direction and size, less the hurdle, was
    not profitable at the schedule and is at the boundary. *)
Theorem shadow_crosses_exact pools n ps s j snaps now c :
  NoDup (u_idx <$> pools) -> passes pools n sstate0 ps = Ret s -> j ∈ scheduled s ->
  c ∈ v_crosses (fire_srec snaps now j) <->
  survives snaps j = true /\ exists m p gen dir lab ain oa ob na nb,
    (m, p, gen) ∈ g_parts j /\ m ∈ pools /\ (dir = 0 \/ dir = 1) /\ (lab, ain) ∈ zip SIZE_LABEL SIZES /\
    nets (g_dlmm j) p dir ain (g_sched j) (g_boundary j) oa ob na nb /\ na <= 0 < nb /\
    c = Cross (route_name dir) (u_pubkey m) lab na nb (oa - ain) (ob - ain).
Proof.
  intros Hn H Hj. apply reached_inv in H as [[[_ _ Hjobs] _ _] _]. rewrite Forall_forall in Hjobs.
  destruct (Hjobs j Hj) as [_ He Hp Hm]. specialize (Hp Hn).
  destruct (fire_srec_times snaps now j) as (_ & _ & _ & ->).
  destruct (survives snaps j); [|split; [intros Hc; by apply elem_of_nil in Hc|by intros [? _]]].
  rewrite He, crosses_of_elem by (by rewrite <- list_fmap_compose). split.
  - intros (m & p & dir & [lab ain] & Hmp & Hd & Hla & Hc). split; [done|].
    apply list_elem_of_fmap in Hmp as ([[m' p'] gen] & [= -> ->] & Hin).
    apply cross_of_eval in Hc as (oa & ob & na & nb & Hnets & Hb & ->).
    exists m', p', gen, dir, lab, ain, oa, ob, na, nb. rewrite Forall_forall in Hm. specialize (Hm _ Hin). done.
  - intros [_ (m & p & gen & dir & lab & ain & oa & ob & na & nb & Hin & _ & Hd & Hla & Hnets & Hb & ->)].
    exists m, p, dir, (lab, ain). split; [apply list_elem_of_fmap; by exists (m, p, gen)|].
    do 2 (split; [done|]). apply cross_of_eval. by exists oa, ob, na, nb.
Qed.

Lemma filter_all {A} (P : A -> Prop) `{!forall x, Decision (P x)} (l : list A) : Forall P l -> filter P l = l.
Proof. induction 1 as [|x l Hx _ IH]; [done|]. by rewrite filter_cons_True, IH. Qed.

(** Shadow and replay agree: on the same pair, partners and times, when the pair survives, no
    partner was republished before the boundary and the boundary moves the pair's fee, the live
    shadow and the replay of the log find the same crosses, pick the same opening and report the
    same fees. *)
Theorem shadow_agrees_with_replay pools snaps now lps (sj : sjob) (j : job) :
  job_ok pools sj -> g_dlmm sj = j_dlmm j -> g_sched sj = j_sched_ts j -> g_boundary sj = j_boundary j ->
  (fst <$> g_parts sj) = (fst <$> j_pumps j) -> g_fee0 sj = j_fee_before j ->
  survives snaps sj = true -> Forall (fun mp => partner_moved lps j mp = false) (j_pumps j) ->
  fst (fst (fee_after_time (j_dlmm j) (j_boundary j))) <> j_fee_before j ->
  let r := fire_srec snaps now sj in let f := fire_rec lps j in
  v_crosses r = f_crosses f /\ v_best r = f_best f /\ v_fee_after r = f_fee_after f /\
  v_fee_delta r = f_fee_delta f /\ v_vacc_after r = f_vol_acc_after f /\ v_follow r = f_follow f.
Proof.
  intros [_ He _ _] Ed Es Eb Ep Ef Hs Hm Hfee. cbv zeta.
  pose proof (filter_all _ _ Hm) as Hall.
  unfold fire_srec, fire_rec. rewrite He, Hs, Ed, Es, Eb, Ep, Ef, Hall.
  destruct (fee_after_time (j_dlmm j) (j_boundary j)) as [[fee1 vacc1] vref1]. cbn [fst] in Hfee.
  rewrite (proj2 (Z.eqb_neq _ _)) by done. cbn [negb andb].
  destruct (bool_decide (fst <$> j_pumps j = [])) eqn:E; cbn [negb]; [|done].
  apply bool_decide_eq_true in E. by rewrite E.
Qed.

(** * A run *)

(** The two pools of the demo log, published into an empty ring at [now], with the boundary of the
    pair ten seconds later. *)
Definition demo_ring (now gen : Z) : mem :=
  let a := AuthPub (Some (fun _ => 0)) 2 gen in
  let pub idx proto body a := fst (publish a idx (PubArgs 1234 body proto None None (Some 1) COHERENT false)) in
  default (fun _ => 0) (mm (pub 1 PROTO_PUMP demo_pump_body (pub 0 PROTO_DLMM (demo_body now) a))).

Definition demo_passes : list pass :=
  [Pass (demo_ring T0 7) T0 (fun _ => (T0, false));
   Pass (demo_ring T0 7) (T0 + 10) (fun _ => (T0 + 10, false));
   Pass (demo_ring (T0 + 10) 9) (T0 + 12) (fun _ => (T0 + 13, false))].

Definition ledger (s : sstate) : list (string * Z * Z * option cross * option follow_state * option Z) :=
  (fun r => (v_kind r, v_boundary r, v_fired_at r, v_best r, v_follow r, v_time_open r)) <$> sfired s.

Lemma demo_closed :
  (s <-! passes demo_univ 2 sstate0 demo_passes ;;
   Ret (v_fired_at <$> sfired s, v_follow <$> sfired s, v_time_open <$> sfired s, length (scheduled s))) =
  Ret ([T0 + 10], [Some NATURALLY_CLOSED_BY_FLOW], [Some 3], 4%nat).
Proof. vm_compute. reflexivity. Qed.

Lemma demo_left_open :
  (s <-! shadow demo_univ 2 (take 2 demo_passes) (fun _ => T0 + 11) ;;
   Ret (v_follow <$> sfired s, v_time_open <$> sfired s)) = Ret ([Some STILL_OPEN], [Some 1]).
Proof. vm_compute. reflexivity. Qed.

Lemma shadow_fires_once_witness :
  exists s, passes demo_univ 2 sstate0 demo_passes = Ret s /\ length (sfired s) = 1%nat /\
    rec_key <$> sfired s ≡ₚ job_key <$> filter (fun j => g_fired j = true) (scheduled s).
Proof.
  destruct (passes demo_univ 2 sstate0 demo_passes) as [s|e] eqn:E.
  - exists s. split; [reflexivity|]. pose proof demo_closed as H. rewrite E in H. cbn [py_bind] in H.
    injection H as Hf _ _ _. split; [by rewrite <- (length_fmap v_fired_at), Hf|].
    exact (proj1 (proj2 (proj2 (shadow_fires_once demo_univ 2 (take 2 demo_passes) (List.last demo_passes (Pass (fun _ => 0) 0 (fun _ => (0, false)))) s E)))).
  - exfalso. pose proof demo_closed as H. rewrite E in H. discriminate H.
Defined.

Lemma shadow_openings_followed_witness :
  exists s, shadow demo_univ 2 (take 2 demo_passes) (fun _ => T0 + 11) = Ret s /\
    v_follow <$> sfired s = [Some STILL_OPEN] /\
    Forall (fun r => (v_crosses r = [] /\ v_follow r = None) \/
      (v_crosses r <> [] /\ (v_follow r = Some NATURALLY_CLOSED_BY_FLOW \/ v_follow r = Some STILL_OPEN) /\
       is_Some (v_time_open r))) (sfired s).
Proof.
  destruct (shadow demo_univ 2 (take 2 demo_passes) (fun _ => T0 + 11)) as [s|e] eqn:E.
  - exists s. split; [reflexivity|]. pose proof demo_left_open as H. rewrite E in H. cbn [py_bind] in H.
    injection H as Hf _. split; [exact Hf|].
    exact (shadow_openings_followed demo_univ 2 (take 2 demo_passes) (fun _ => T0 + 11) s E).
  - exfalso. pose proof demo_left_open as H. rewrite E in H. discriminate H.
Defined.

(** The pair as the second pass reads it. *)
Definition demo_snaps : gmap Z snap :=
  match take_snaps (demo_ring T0 7) 0 2 with Ret m => m | Raise _ => ∅ end.

Lemma demo_crosses :
  (s <-! passes demo_univ 2 sstate0 (take 1 demo_passes) ;;
   Ret (match scheduled s with
        | j :: _ => match v_crosses (fire_srec demo_snaps (T0 + 10) j) with c :: _ => Some (c_route c, c_size c) | [] => None end
        | [] => None
        end)) = Ret (Some ("dlmm-pump", "0.05")%string).
Proof. vm_compute. reflexivity. Qed.

Lemma shadow_crosses_exact_witness :
  exists s j c, passes demo_univ 2 sstate0 (take 1 demo_passes) = Ret s /\ j ∈ scheduled s /\
    c ∈ v_crosses (fire_srec demo_snaps (T0 + 10) j) /\ survives demo_snaps j = true.
Proof.
  destruct (passes demo_univ 2 sstate0 (take 1 demo_passes)) as [s|e] eqn:E.
  - pose proof demo_crosses as H. rewrite E in H. cbn [py_bind] in H.
    destruct (scheduled s) as [|j l] eqn:El; [discriminate H|].
    destruct (v_crosses (fire_srec demo_snaps (T0 + 10) j)) as [|c cs] eqn:Ec; [discriminate H|].
    assert (Hj : j ∈ scheduled s) by (rewrite El; by left).
    assert (Hc : c ∈ v_crosses (fire_srec demo_snaps (T0 + 10) j)) by (rewrite Ec; by left).
    exists s, j, c. split; [reflexivity|]. split; [exact Hj|]. split; [exact Hc|].
    assert (Hn : NoDup (u_idx <$> demo_univ)) by (by apply (bool_decide_unpack _); vm_compute).
    exact (proj1 (proj1 (shadow_crosses_exact demo_univ 2 (take 1 demo_passes) s j demo_snaps (T0 + 10) c Hn E Hj) Hc)).
  - exfalso. pose proof demo_crosses as H. rewrite E in H. discriminate H.
Defined.

(** The replay's demo job as the shadow would have scheduled it. *)
Definition demo_sjob : sjob :=
  SJob "pair" 0 (Some "T"%string) (T0 + 60) (T0 + 70) "filter" 8 1234 (j_dlmm demo_job)
    ((fun mp => (mp, 1)) <$> (fst <$> j_pumps demo_job))
    (eval_routes (j_dlmm demo_job) (fst <$> j_pumps demo_job) (T0 + 60)) 37000000 300000 300000 false.

Lemma shadow_agrees_with_replay_witness :
  let r := fire_srec demo_snaps (T0 + 71) demo_sjob in
  v_crosses r = f_crosses (fire_rec ∅ demo_job) /\ v_follow r = f_follow (fire_rec ∅ demo_job).
Proof.
  destruct (shadow_agrees_with_replay demo_univ demo_snaps (T0 + 71) ∅ demo_sjob demo_job) as (H1 & _ & _ & _ & _ & H2).
  - constructor; [vm_compute; reflexivity|reflexivity|intros _; apply NoDup_singleton|].
    apply Forall_singleton. right. by left.
  - reflexivity.
  - reflexivity.
  - reflexivity.
  - reflexivity.
  - reflexivity.
  - vm_compute. reflexivity.
  - repeat constructor.
  - vm_compute. discriminate.
  - split; [exact H1|exact H2].
Defined.
