(* ===== verification/PyVal.v ===== *)
(** Python scalars out of JSON: truth, [int()], [str()] and the string methods that the gates of
    arb-exec (ExecGates, ExecFunnel) apply to the fields of journal and plane rows.  Texts are
    ASCII; a JSON number with a fraction does not occur in the fields modelled. *)
From stdpp Require Import base list strings pretty.
From Stdlib Require Import ZArith Lia Ascii.
From Stdlib Require String.
From S2P Require Import Prelude PyBytes.
Open Scope Z_scope.
Open Scope py_scope.

(** [VNone] is None and also a missing key under [dict.get]. *)
Inductive pyval := VNone | VBool (b : bool) | VInt (z : Z) | VStr (s : string).
#[export] Instance pyval_eq_dec : EqDecision pyval.
Proof. solve_decision. Defined.

Definition truthy (v : pyval) : bool :=
  match v with
  | VNone => false
  | VBool b => b
  | VInt z => negb (z =? 0)
  | VStr s => negb (bool_decide (s = ""%string))
  end.

(** [a or b] *)
Definition py_or (a b : pyval) : pyval := if truthy a then a else b.

(** [v == 1]; True equals 1. *)
Definition is_one (v : pyval) : bool :=
  match v with VBool b => b | VInt z => z =? 1 | _ => false end.

(** ** Characters *)

Definition chars (s : string) : list ascii := String.list_ascii_of_string s.
Definition text (l : list ascii) : string := String.string_of_list_ascii l.

Lemma chars_text l : chars (text l) = l.
Proof. apply String.list_ascii_of_string_of_list_ascii. Qed.
Lemma text_chars s : text (chars s) = s.
Proof. apply String.string_of_list_ascii_of_string. Qed.

Definition code (c : ascii) : Z := Z.of_nat (nat_of_ascii c).

(** The characters str.strip and int() take off: tab to carriage return, the four separators,
    space. *)
Definition is_space (c : ascii) : bool :=
  let n := code c in ((9 <=? n) && (n <=? 13)) || ((28 <=? n) && (n <=? 32)).

Fixpoint lstrip (p : ascii -> bool) (l : list ascii) : list ascii :=
  match l with
  | [] => []
  | c :: l' => if p c then lstrip p l' else l
  end.
Definition rstrip (p : ascii -> bool) (l : list ascii) : list ascii := reverse (lstrip p (reverse l)).
Definition strip (s : string) : string := text (rstrip is_space (lstrip is_space (chars s))).

Definition digit (c : ascii) : option Z :=
  let n := code c in if (48 <=? n) && (n <=? 57) then Some (n - 48) else None.

(** Decimal digits, with single underscores between two of them; [after] says that the last
    character was a digit. *)
Fixpoint number (after : bool) (acc : Z) (l : list ascii) : option Z :=
  match l with
  | [] => if after then Some acc else None
  | c :: l' =>
      match digit c with
      | Some d => number true (10 * acc + d) l'
      | None => if Ascii.eqb c "_" && after then number false acc l' else None
      end
  end.

(** [int(text)] *)
Definition int_text (s : string) : pyres Z :=
  let res (o : option Z) := match o with Some z => Ret z | None => Raise (ValueError "invalid literal") end in
  match chars (strip s) with
  | [] => res None
  | c :: l =>
      if Ascii.eqb c "+" then res (number false 0 l)
      else if Ascii.eqb c "-" then res (Z.opp <$> number false 0 l)
      else res (number false 0 (c :: l))
  end.

(** [int(v)] *)
Definition py_int (v : pyval) : pyres Z :=
  match v with
  | VNone => Raise TypeError
  | VBool b => Ret (if b then 1 else 0)
  | VInt z => Ret z
  | VStr s => int_text s
  end.

(** [str(v)] *)
Definition py_str (v : pyval) : string :=
  match v with
  | VNone => "None"
  | VBool b => if b then "True" else "False"
  | VInt z => pretty z
  | VStr s => s
  end.

Example int_texts :
  int_text " -1_000 " = Ret (-1000) /\ int_text "1__0" = Raise (ValueError "invalid literal") /\
  int_text "" = Raise (ValueError "invalid literal") /\ py_str (VInt (-12)) = "-12"%string.
Proof. vm_compute. done. Qed.

(** ** bytes.fromhex and startswith *)

Definition hex_value (c : ascii) : option Z :=
  let n := code c in
  if (48 <=? n) && (n <=? 57) then Some (n - 48)
  else if (97 <=? n) && (n <=? 102) then Some (n - 87)
  else if (65 <=? n) && (n <=? 70) then Some (n - 55)
  else None.

(** Spaces are allowed between bytes; [None] is the ValueError. *)
Fixpoint fromhex (l : list ascii) : option bytes :=
  match l with
  | [] => Some []
  | c :: l' =>
      if ((9 <=? code c) && (code c <=? 13)) || (code c =? 32) then fromhex l' else
      match l' with
      | [] => None
      | c2 :: l'' =>
          match hex_value c, hex_value c2, fromhex l'' with
          | Some a, Some b, Some bs => Some (16 * a + b :: bs)
          | _, _, _ => None
          end
      end
  end.

(** [s.startswith(pre)] *)
Fixpoint starts_with (pre l : list ascii) : bool :=
  match pre, l with
  | [], _ => true
  | c :: pre', d :: l' => Ascii.eqb c d && starts_with pre' l'
  | _ :: _, [] => false
  end.

(** [sub in s] *)
Fixpoint contains (sub l : list ascii) : bool :=
  starts_with sub l || match l with [] => false | _ :: l' => contains sub l' end.
