(* ===== verification/ExecGates.v ===== *)
(** The send gates: arb-exec/scripts/exec_gates.py.

    A journal row, an alt-plane row and the cooldown file are JSON objects; the model names the
    fields that the gates read, with None for a missing one ([(rec.get("frame") or {}).get("class")]
    is the field [o_class]).  Pool addresses in plane rows are texts, as alt_plane.py writes
    them.  Dictionaries read by key only are finite maps; the cooldown routes, which are also
    iterated, an association list. *)
From stdpp Require Import base list strings gmap.
From Stdlib Require Import ZArith Lia Ascii.
From Stdlib Require String.
From S2P Require Import Prelude PyBytes Base58 TxExpect PyVal.
Open Scope Z_scope.
Open Scope py_scope.

Definition MAX_IN : Z := 50000000.
Definition MIN_IN : Z := 10000000.
Definition ROUTE0_FAMILIES : list Z := [0; 5].
Definition SUPPORTED_SEQ : list string := ["dlmm-pump"; "pump-dlmm"]%string.
Definition CU_LIMIT : Z := 400000.
Definition CU_PRICE : Z := 800000.
Definition SIG_FEE : Z := 5000.
Definition SWQOS_UNIT : Z := 150000.
Definition SAFETY : Z := 50000.

Definition wire_hurdle (cu_limit cu_price : Z) : Z :=
  let onchain := cu_limit * cu_price / 1000000 + SIG_FEE in
  onchain + SWQOS_UNIT + SAFETY.

Definition HURDLE : Z := wire_hurdle CU_LIMIT CU_PRICE.

Example hurdle_is : HURDLE = 525000. Proof. reflexivity. Qed.

Definition AUTH_READY_DEFAULT : string := "/home/louis/captures/state008/READY".
Definition STATE007_READY_ALIAS : string := "/home/louis/captures/state007/READY".

(** * Names of pools *)

(** The copy of the encoder in this file: nothing stands for a value of zero. *)
Definition b58encode (raw : bytes) : string :=
  let n := be_dec raw in
  text (replicate (leading (Z.eqb 0) raw) "1"%char ++ b58_digits (b58_fuel n) n []).

Definition pool_pubkey (pool : string) : string :=
  let t := strip pool in
  if (length (chars t) =? 64)%nat then
    match fromhex (chars t) with
    | None => t
    | Some raw => if (length raw =? 32)%nat then b58encode raw else t
    end
  else t.

(** * Shapes and paths *)

Definition v1_executable (family n_hop seq : pyval) : bool :=
  if truthy seq then match seq with VStr s => bool_decide (s ∈ SUPPORTED_SEQ) | _ => false end else
  match py_int family with
  | Raise _ => false
  | Ret fam =>
      let hops := match n_hop with
                  | VNone => 0
                  | _ => match py_int n_hop with Ret h => h | Raise _ => 0 end
                  end in
      if 3 <=? hops then false else bool_decide (fam ∈ ROUTE0_FAMILIES)
  end.

Definition slash (c : ascii) : ascii := if Ascii.eqb c "\" then "/"%char else c.

(** The path and why it does not arm. *)
Definition resolve_auth_ready (env_value : option string) : string * option string :=
  match env_value with
  | None | Some EmptyString => (AUTH_READY_DEFAULT, None)
  | Some v =>
      let norm := rstrip (Ascii.eqb "/") (slash <$> chars v) in
      if bool_decide (text norm = STATE007_READY_ALIAS) || contains (chars "/captures/state007/") norm
      then (text norm, Some "state007_ready_cannot_arm"%string)
      else if negb (bool_decide (text norm = AUTH_READY_DEFAULT))
      then (text norm, Some "auth_ready_path_not_mandatory"%string)
      else (text norm, None)
  end.

(** * The plane *)

Record route := Route {
  r_dlmm : option string; r_pump : option string; r_RACE_READY : pyval; r_race_ready : pyval;
  r_vector_ready : pyval; r_tmpl0 : pyval; r_tmpl1 : pyval }.

Definition pair_of (r : route) : option string * option string := (r_dlmm r, r_pump r).

(** The keys a row is filed under: [if not key: continue]. *)
Definition keys_of (r : route) : list string :=
  filter (fun k => k <> ""%string) (omap id [r_dlmm r; r_pump r]).

Notation owners := (gmap string (option string * option string)).

Definition own_key (pair : option string * option string) (st : owners * gset string) (key : string)
    : owners * gset string :=
  let '(own, amb) := st in
  (<[key := pair]> own,
   match own !! key with
   | Some prev => if decide (prev = pair) then amb else {[key]} ∪ amb
   | None => amb
   end).

Definition own_route (st : owners * gset string) (r : route) : owners * gset string :=
  foldl (own_key (pair_of r)) st (keys_of r).

Definition ambiguous_pool_keys (routes : list route) : gset string :=
  snd (foldl own_route (∅, ∅) routes).

Record prow := PRow {
  p_dlmm : option string; p_pump : option string; p_ready : Z; p_hops_ready : Z;
  p_vector : Z; p_tmpl0 : pyval; p_tmpl1 : pyval; p_ambiguous : Z }.

Definition plane_rec (r : route) : pyres prow :=
  let plane_ready := truthy (r_RACE_READY r) && truthy (r_tmpl0 r) && truthy (r_tmpl1 r) in
  hops <-! py_int (py_or (r_race_ready r) (VInt 0)) ;;
  vec <-! py_int (py_or (r_vector_ready r) (VInt 0)) ;;
  Ret (PRow (r_dlmm r) (r_pump r) (if plane_ready then 1 else 0) hops vec (r_tmpl0 r) (r_tmpl1 r) 0).

(** The row as filed under [key]. *)
Definition file_row (amb : gset string) (rec : prow) (key : string) : prow :=
  if decide (key ∈ amb)
  then PRow (p_dlmm rec) (p_pump rec) 0 (p_hops_ready rec) (p_vector rec) (p_tmpl0 rec) (p_tmpl1 rec) 1
  else rec.

Fixpoint index_loop (amb : gset string) (routes : list route) (by_key : gmap string prow)
    : pyres (gmap string prow) :=
  match routes with
  | [] => Ret by_key
  | r :: rs =>
      rec <-! plane_rec r ;;
      index_loop amb rs (foldl (fun m k => <[k := file_row amb rec k]> m) by_key (keys_of r))
  end.

Definition index_plane (routes : list route) : pyres (gmap string prow) :=
  index_loop (ambiguous_pool_keys routes) routes ∅.

Definition plane_row (plane : gmap string prow) (pool : string) : option prow :=
  if decide (pool = ""%string) then None else
  match plane !! pool with
  | Some row => Some row
  | None => plane !! pool_pubkey pool
  end.

(** * The gates *)

Record flags := Flags { fl_tx_exact : Z; fl_plane : Z; fl_both : Z }.

Definition race_flags (journal_race_ready plane_race_ready : pyval) : flags :=
  let tx_exact := is_one journal_race_ready in
  let plane := is_one plane_race_ready in
  Flags (if tx_exact then 1 else 0) (if plane then 1 else 0) (if tx_exact && plane then 1 else 0).

(** The routes of the cooldown file with their SEND_BLOCKED. *)
Notation cooldown := (list (string * pyval)).

Definition blocked (cool : cooldown) (key : string) : bool := truthy (default VNone (od_get cool key)).

Definition route_blocked (pool : string) (cool : cooldown) : bool :=
  if blocked cool pool then true else
  let b58 := pool_pubkey pool in
  if negb (bool_decide (b58 = pool)) && blocked cool b58 then true else
  let name := if decide (b58 = ""%string) then pool else b58 in
  let pref := take 8 (chars name) in
  existsb (fun kv => truthy kv.2 &&
             (starts_with pref (chars kv.1) || starts_with (chars kv.1) (chars name))) cool.

(** An opp_synced row. *)
Record opp := Opp {
  o_pool : pyval; o_race_ready : pyval; o_class : pyval; o_direction : pyval; o_cap_ok : pyval;
  o_cap_gross : pyval; o_seq : pyval; o_family : pyval; o_n_hop : pyval; o_arb_seq : pyval;
  o_arb_family : pyval; o_arb_n_hop : pyval }.

Definition pool_text (rec : opp) : string := py_str (py_or (o_pool rec) (VStr "")).

Definition row_ready (row : option prow) : pyval :=
  match row with Some r => VInt (p_ready r) | None => VNone end.

Definition framed_ready (rec : opp) (plane : gmap string prow) (ready_exists : bool) : bool :=
  let pool := pool_text rec in
  let row := plane_row plane pool in
  let fl := race_flags (o_race_ready rec) (row_ready row) in
  bool_decide (o_class rec = VStr "framed") && (fl_both fl =? 1) && ready_exists &&
  negb (bool_decide (pool = ""%string)) &&
  match row with Some r => truthy (p_tmpl0 r) && truthy (p_tmpl1 r) | None => false end.

Definition if_none (a b : pyval) : pyval := match a with VNone => b | _ => a end.

(** [arb_seq or arb_fam is not None or arb_hops is not None] and not executable. *)
Definition bad_shape (rec : opp) : bool :=
  let arb_seq := py_or (o_seq rec) (o_arb_seq rec) in
  let arb_fam := if_none (o_family rec) (o_arb_family rec) in
  let arb_hops := if_none (o_n_hop rec) (o_arb_n_hop rec) in
  (truthy arb_seq || negb (bool_decide (arb_fam = VNone)) || negb (bool_decide (arb_hops = VNone))) &&
  negb (v1_executable arb_fam arb_hops (if truthy arb_seq then VStr (py_str arb_seq) else VNone)).

(** [direction is None or int(direction) not in (0, 1)] *)
Definition bad_direction (v : pyval) : pyres bool :=
  match v with
  | VNone => Ret true
  | _ => d <-! py_int v ;; Ret (negb (bool_decide (d ∈ [0; 1])))
  end.

Definition size_gate (rec : opp) (plane : gmap string prow) (ready_exists : bool) (cool : cooldown)
    : pyres (option (Z * Z)) :=
  if negb (framed_ready rec plane ready_exists) then Ret None else
  bad <-! bad_direction (o_direction rec) ;;
  if (bad : bool) then Ret None else
  if route_blocked (pool_text rec) cool then Ret None else
  if negb (truthy (o_cap_ok rec)) then Ret None else
  gross <-! py_int (py_or (o_cap_gross rec) (VInt 0)) ;;
  if (MAX_IN <? MIN_IN) || (gross <=? HURDLE) then Ret None else
  if bad_shape rec then Ret None else
  Ret (Some (MAX_IN, gross)).

Definition classify_opp (rec : opp) (plane : gmap string prow) (ready_exists : bool)
    (cool : cooldown) (family n_hop seq : pyval) : pyres string :=
  if (negb (bool_decide (family = VNone)) || negb (bool_decide (n_hop = VNone)) || truthy seq) &&
     negb (v1_executable family n_hop seq) then Ret "not_v1_executable"%string else
  if negb (bool_decide (o_class rec = VStr "framed")) then Ret "not_framed"%string else
  if negb (is_one (o_race_ready rec)) then Ret "ix_only"%string else
  if negb ready_exists then Ret "ready_file_missing"%string else
  let pool := pool_text rec in
  match plane_row plane pool with
  | None => Ret "plane_miss"%string
  | Some row =>
      if p_ambiguous row =? 1 then Ret "ambiguous_pool"%string else
      if negb (p_ready row =? 1) || negb (truthy (p_tmpl0 row)) || negb (truthy (p_tmpl1 row))
      then Ret "plane_not_race_ready"%string else
      bad <-! bad_direction (o_direction rec) ;;
      if (bad : bool) then Ret "bad_direction"%string else
      if route_blocked pool cool then Ret "cooldown"%string else
      if negb (truthy (o_cap_ok rec)) then Ret "cap_not_ok"%string else
      gross <-! py_int (py_or (o_cap_gross rec) (VInt 0)) ;;
      if (MAX_IN <? MIN_IN) || (gross <=? HURDLE) then Ret "below_oneshot_hurdle"%string else
      sz <-! size_gate rec plane ready_exists cool ;;
      match sz with None => Ret "size_gate"%string | Some _ => Ret "would_fire"%string end
  end.

(** * Shared pubkeys *)

Definition mentions (k : string) (r : route) : Prop := k ∈ keys_of r.
#[export] Instance mentions_dec k r : Decision (mentions k r).
Proof. unfold mentions. apply _. Defined.

(** The last row of the file that mentions [k]. *)
Definition last_of (routes : list route) (k : string) : option route :=
  last (filter (mentions k) routes).

Lemma last_of_snoc routes r k :
  last_of (routes ++ [r]) k = if decide (mentions k r) then Some r else last_of routes k.
Proof.
  unfold last_of. rewrite filter_app, filter_cons, filter_nil. case_decide; [apply last_snoc|by rewrite app_nil_r].
Qed.

Lemma last_of_elem routes k r : last_of routes k = Some r -> r ∈ routes /\ mentions k r.
Proof.
  unfold last_of. intros H. apply last_Some in H as [l H].
  assert (Hin : r ∈ filter (mentions k) routes) by (rewrite H; apply elem_of_app; right; by left).
  apply list_elem_of_filter in Hin as [? ?]. done.
Qed.

Lemma last_of_some routes k r : r ∈ routes -> mentions k r -> is_Some (last_of routes k).
Proof.
  intros Hr Hk. unfold last_of. apply last_is_Some. intros E.
  assert (Hin : r ∈ filter (mentions k) routes) by (by apply list_elem_of_filter).
  rewrite E in Hin. by apply elem_of_nil in Hin.
Qed.

(** Two rows that mention [k] with different pairs. *)
Definition clash (routes : list route) (k : string) : Prop :=
  exists r1 r2, r1 ∈ routes /\ r2 ∈ routes /\ mentions k r1 /\ mentions k r2 /\ pair_of r1 <> pair_of r2.

Lemma own_keys_spec pair ks own amb :
  let '(own', amb') := foldl (own_key pair) (own, amb) ks in
  (forall k, own' !! k = if decide (k ∈ ks) then Some pair else own !! k) /\
  (forall k, k ∈ amb' <-> k ∈ amb \/ (k ∈ ks /\ exists prev, own !! k = Some prev /\ prev <> pair)).
Proof.
  revert own amb. induction ks as [|x ks IH]; intros own amb; cbn [foldl].
  { split; [done|]. intros k. split; [by left|]. intros [?|[H _]]; [done|by apply elem_of_nil in H]. }
  cbn [own_key]. set (amb1 := match own !! x with Some prev => _ | None => amb end).
  specialize (IH (<[x:=pair]> own) amb1). destruct (foldl _ _ ks) as [own' amb'].
  destruct IH as [Ho Ha]. split.
  - intros k. rewrite Ho. destruct (decide (k ∈ ks)) as [Hk|Hk]; [by rewrite decide_True by (by right)|].
    destruct (decide (k = x)) as [->|Hne]; [by rewrite lookup_insert_eq, decide_True by (by left)|].
    rewrite lookup_insert_ne by done. rewrite decide_False; [done|].
    intros H. apply elem_of_cons in H as [?|?]; done.
  - intros k. rewrite Ha.
    assert (Hamb1 : k ∈ amb1 <-> k ∈ amb \/ (k = x /\ exists prev, own !! k = Some prev /\ prev <> pair)).
    { unfold amb1. destruct (own !! x) as [prev|] eqn:E; [case_decide as Ep|].
      - split; [by left|]. intros [?|(-> & p & Hp & Hne)]; [done|]. rewrite E in Hp. congruence.
      - rewrite elem_of_union, elem_of_singleton. split; [|naive_solver].
        intros [->|?]; [right; split; [done|by exists prev]|by left].
      - split; [by left|]. intros [?|(-> & p & Hp & _)]; [done|congruence]. }
    rewrite Hamb1, elem_of_cons. destruct (decide (k = x)) as [->|Hne].
    + split; [|naive_solver]. rewrite lookup_insert_eq. intros [[?|?]|(_ & prev & [= <-] & ?)]; naive_solver.
    + rewrite lookup_insert_ne by done. naive_solver.
Qed.

Lemma own_routes_spec routes :
  let '(own, amb) := foldl own_route (∅, ∅) routes in
  (forall k, own !! k = pair_of <$> last_of routes k) /\ (forall k, k ∈ amb <-> clash routes k).
Proof.
  induction routes as [|r routes IH] using rev_ind.
  { cbn. split; [done|]. intros k. split; [set_solver|]. intros (r1 & ? & H & _). by apply elem_of_nil in H. }
  rewrite foldl_app. cbn [foldl]. destruct (foldl own_route (∅, ∅) routes) as [own amb].
  destruct IH as [Ho Ha]. unfold own_route.
  pose proof (own_keys_spec (pair_of r) (keys_of r) own amb) as H.
  destruct (foldl (own_key (pair_of r)) (own, amb) (keys_of r)) as [own' amb']. destruct H as [Ho' Ha'].
  split; intros k.
  - rewrite Ho', last_of_snoc, Ho. unfold mentions. repeat case_decide; done.
  - rewrite Ha', Ha, Ho. split.
    + intros [(r1 & r2 & H1 & H2 & H)|(Hk & prev & Hp & Hne)].
      * exists r1, r2. split; [apply elem_of_app; by left|]. split; [apply elem_of_app; by left|]. done.
      * apply fmap_Some in Hp as (r0 & Hl & ->). apply last_of_elem in Hl as [H0 Hm].
        exists r0, r. split; [apply elem_of_app; by left|]. split; [apply elem_of_app; right; by left|]. done.
    + intros (r1 & r2 & H1 & H2 & M1 & M2 & Hne).
      apply elem_of_app in H1, H2. rewrite list_elem_of_singleton in H1, H2.
      assert (Hold : forall x, x ∈ routes -> mentions k x -> mentions k r -> pair_of x <> pair_of r ->
        clash routes k \/ k ∈ keys_of r /\ (exists prev, pair_of <$> last_of routes k = Some prev /\ prev <> pair_of r)).
      { intros x Hx Mx Mr Hd. destruct (last_of_some routes k x Hx Mx) as [l Hl].
        destruct (decide (pair_of l = pair_of r)) as [E|E].
        - left. apply last_of_elem in Hl as [? ?]. exists x, l. rewrite E. done.
        - right. split; [done|]. exists (pair_of l). by rewrite Hl. }
      destruct H1 as [H1| ->], H2 as [H2| ->]; [left; by exists r1, r2|exact (Hold r1 H1 M1 M2 Hne)|
        exact (Hold r2 H2 M2 M1 (not_eq_sym Hne))|done].
Qed.

Lemma ambiguous_spec routes k : k ∈ ambiguous_pool_keys routes <-> clash routes k.
Proof.
  unfold ambiguous_pool_keys. pose proof (own_routes_spec routes) as H.
  destruct (foldl own_route (∅, ∅) routes) as [own amb]. apply H.
Qed.

(** * What the plane index holds *)

Lemma file_keys_lookup amb rec ks (m : gmap string prow) k :
  foldl (fun m k => <[k := file_row amb rec k]> m) m ks !! k =
  if decide (k ∈ ks) then Some (file_row amb rec k) else m !! k.
Proof.
  revert m. induction ks as [|x ks IH]; intros m; cbn [foldl]; [by rewrite decide_False by apply not_elem_of_nil|].
  rewrite IH. destruct (decide (k ∈ ks)) as [H|H]; [by rewrite decide_True by (by right)|].
  destruct (decide (k = x)) as [->|Hne]; [by rewrite lookup_insert_eq, decide_True by (by left)|].
  rewrite lookup_insert_ne by done. rewrite decide_False; [done|].
  intros Hin. apply elem_of_cons in Hin as [?|?]; done.
Qed.

Lemma last_of_cons r routes k :
  last_of (r :: routes) k =
  match last_of routes k with Some x => Some x | None => if decide (mentions k r) then Some r else None end.
Proof.
  unfold last_of. rewrite filter_cons. case_decide; [rewrite last_cons|]; by destruct (last _).
Qed.

Lemma index_loop_lookup amb routes m plane k :
  index_loop amb routes m = Ret plane ->
  match last_of routes k with
  | Some r => exists rec, plane_rec r = Ret rec /\ plane !! k = Some (file_row amb rec k)
  | None => plane !! k = m !! k
  end.
Proof.
  revert m. induction routes as [|r routes IH]; intros m; cbn [index_loop]; [by intros [= <-]|].
  intros H. apply py_bind_Ret in H as (rec & Hr & H). rewrite last_of_cons.
  specialize (IH _ H). destruct (last_of routes k) as [x|]; [done|].
  rewrite file_keys_lookup in IH.
  destruct (decide (mentions k r)) as [Hm|Hm]; unfold mentions in Hm.
  - rewrite decide_True in IH by done. by exists rec.
  - by rewrite decide_False in IH by done.
Qed.

(** A row of the plane comes from the last line of its key, and is ready only when that line is
    and the key belongs to one pair. *)
Lemma index_plane_row routes plane k row :
  index_plane routes = Ret plane -> plane !! k = Some row ->
  exists r, last_of routes k = Some r /\ p_tmpl0 row = r_tmpl0 r /\ p_tmpl1 row = r_tmpl1 r /\
    (p_ready row = 1 <-> truthy (r_RACE_READY r) = true /\ truthy (r_tmpl0 r) = true /\
                         truthy (r_tmpl1 r) = true /\ ~ clash routes k) /\
    (p_ambiguous row = 1 <-> clash routes k).
Proof.
  intros H Hk. pose proof (index_loop_lookup _ _ _ _ k H) as Hl.
  destruct (last_of routes k) as [r|]; [|by rewrite Hk in Hl].
  destruct Hl as (rec & Hr & E). rewrite Hk in E. injection E as ->. exists r. split; [done|].
  unfold plane_rec in Hr. apply py_bind_Ret in Hr as (hops & _ & Hr). apply py_bind_Ret in Hr as (vec & _ & [= <-]).
  unfold file_row. pose proof (ambiguous_spec routes k) as Ha. case_decide as Hd; cbn.
  - do 2 (split; [done|]). split; [|naive_solver]. split; [done|]. naive_solver.
  - do 2 (split; [done|]). split; [|naive_solver].
    destruct (truthy (r_RACE_READY r)), (truthy (r_tmpl0 r)), (truthy (r_tmpl1 r)); cbn; naive_solver.
Qed.

(** * What a send needs *)

Lemma plane_row_key plane pool row :
  plane_row plane pool = Some row ->
  pool <> ""%string /\ exists key, (key = pool \/ key = pool_pubkey pool) /\ plane !! key = Some row.
Proof.
  unfold plane_row. case_decide; [done|]. destruct (plane !! pool) eqn:E.
  - intros [= ->]. eauto.
  - intros H2. eauto.
Qed.

Lemma framed_ready_spec rec plane ready :
  framed_ready rec plane ready = true <->
  o_class rec = VStr "framed" /\ is_one (o_race_ready rec) = true /\ ready = true /\
  exists row, plane_row plane (pool_text rec) = Some row /\ p_ready row = 1 /\
    truthy (p_tmpl0 row) = true /\ truthy (p_tmpl1 row) = true.
Proof.
  unfold framed_ready, race_flags. cbn [fl_both].
  pose proof (plane_row_key plane (pool_text rec)) as Hk.
  destruct (plane_row plane (pool_text rec)) as [row|]; cbn [row_ready is_one].
  - destruct (Hk row eq_refl) as [Hne _]. rewrite (bool_decide_eq_false_2 _ Hne). cbn [negb].
    rewrite !andb_true_iff, bool_decide_eq_true.
    destruct (is_one (o_race_ready rec)), (Z.eqb_spec (p_ready row) 1); cbn; naive_solver.
  - rewrite !andb_true_iff. naive_solver.
Qed.

Lemma bad_direction_spec v : bad_direction v = Ret false <-> exists d, py_int v = Ret d /\ (d = 0 \/ d = 1).
Proof.
  unfold bad_direction. destruct v; cbn [py_bind].
  1: split; [done|intros (? & ? & _); done].
  all: destruct (py_int _) as [d|e]; cbn [py_bind]; [|split; [done|intros (? & ? & _); done]].
  all: case_bool_decide as H; rewrite ?elem_of_cons, elem_of_nil in H; cbn; naive_solver.
Qed.

(** Every condition of a send, in one place. *)
Lemma size_gate_spec rec plane ready cool amt gross :
  size_gate rec plane ready cool = Ret (Some (amt, gross)) <->
  framed_ready rec plane ready = true /\ bad_direction (o_direction rec) = Ret false /\
  route_blocked (pool_text rec) cool = false /\ truthy (o_cap_ok rec) = true /\
  py_int (py_or (o_cap_gross rec) (VInt 0)) = Ret gross /\ HURDLE < gross /\
  bad_shape rec = false /\ amt = MAX_IN.
Proof.
  unfold size_gate. destruct (framed_ready rec plane ready); cbn [negb]; [|naive_solver].
  destruct (bad_direction (o_direction rec)) as [[|]|e]; cbn [py_bind]; [naive_solver| |naive_solver].
  destruct (route_blocked _ _); [naive_solver|]. destruct (truthy (o_cap_ok rec)); cbn [negb]; [|naive_solver].
  destruct (py_int _) as [g|e]; cbn [py_bind]; [|naive_solver].
  change (MAX_IN <? MIN_IN) with false. cbn [orb].
  destruct (Z.leb_spec g HURDLE), (bad_shape rec); split; try naive_solver lia.
Qed.

(** A send needs every gate: the size gate lets a row through only with the frozen amount, a
    quoted gross above the wire fee of 525000 lamports, a framed and exact row, the READY file, a
    direction, no cooldown on any name of the pool, and a plane line of the pool's key that is
    race-ready with both templates; and every line of the plane that mentions that key is for the
    same pair, so the template cannot be another pair's. *)
Theorem send_needs_every_gate routes plane rec ready cool amt gross :
  index_plane routes = Ret plane ->
  size_gate rec plane ready cool = Ret (Some (amt, gross)) ->
  amt = MAX_IN /\ 525000 < gross /\ py_int (py_or (o_cap_gross rec) (VInt 0)) = Ret gross /\
  ready = true /\ o_class rec = VStr "framed" /\ is_one (o_race_ready rec) = true /\
  (exists d, py_int (o_direction rec) = Ret d /\ (d = 0 \/ d = 1)) /\
  route_blocked (pool_text rec) cool = false /\
  exists key r, (key = pool_text rec \/ key = pool_pubkey (pool_text rec)) /\
    last_of routes key = Some r /\ truthy (r_RACE_READY r) = true /\
    truthy (r_tmpl0 r) = true /\ truthy (r_tmpl1 r) = true /\
    (forall r', r' ∈ routes -> mentions key r' -> pair_of r' = pair_of r).
Proof.
  intros Hp Hs. apply size_gate_spec in Hs as (Hf & Hd & Hb & Hc & Hg & Hh & _ & ->).
  apply framed_ready_spec in Hf as (Hcl & Hr & -> & row & Hrow & Hready & _).
  apply bad_direction_spec in Hd. rewrite hurdle_is in Hh. do 8 (split; [done|]).
  apply plane_row_key in Hrow as (_ & key & Hkey & Hrow). exists key.
  destruct (index_plane_row routes plane key row Hp Hrow) as (r & Hl & _ & _ & Hrd & _).
  apply Hrd in Hready as (H1 & H2 & H3 & Hcl'). exists r. do 5 (split; [done|]).
  intros r' Hr' Hm. destruct (decide (pair_of r' = pair_of r)) as [|Hne]; [done|].
  exfalso. apply Hcl'. apply last_of_elem in Hl as [? ?]. by exists r', r.
Qed.

(** The guard of the shape classify_opp is asked about. *)
Lemma asked_spec family n_hop seq :
  (negb (bool_decide (family = VNone)) || negb (bool_decide (n_hop = VNone)) || truthy seq) &&
    negb (v1_executable family n_hop seq) = false <->
  (family = VNone /\ n_hop = VNone /\ truthy seq = false) \/ v1_executable family n_hop seq = true.
Proof.
  rewrite andb_false_iff, !orb_false_iff, !negb_false_iff, !bool_decide_eq_true. tauto.
Qed.

(** A row that fires has passed the size gate: it is the last test. *)
Lemma would_fire_sized rec plane ready cool family n_hop seq :
  classify_opp rec plane ready cool family n_hop seq = Ret "would_fire"%string ->
  exists x, size_gate rec plane ready cool = Ret (Some x).
Proof.
  unfold classify_opp. intros H. do 4 (if_in H; [done|]).
  destruct (plane_row plane (pool_text rec)) as [row|]; [|done]. do 2 (if_in H; [done|]).
  apply py_bind_Ret in H as (bad & _ & H). destruct bad; [done|]. do 2 (if_in H; [done|]).
  apply py_bind_Ret in H as (g & _ & H). if_in H; [done|].
  apply py_bind_Ret in H as (sz & Hsz & H). destruct sz as [x|]; [|done]. by exists x.
Qed.

(** The funnel's verdict is the gate's: an opp_synced row is classified "would_fire" exactly
    when the shape it was asked about, if any, is executable and the size gate would send; so the
    order in which classify_opp tries its buckets hides no send and invents none. *)
Theorem would_fire_iff routes plane rec ready cool family n_hop seq :
  index_plane routes = Ret plane ->
  classify_opp rec plane ready cool family n_hop seq = Ret "would_fire"%string <->
  ((family = VNone /\ n_hop = VNone /\ truthy seq = false) \/ v1_executable family n_hop seq = true) /\
  exists gross, size_gate rec plane ready cool = Ret (Some (MAX_IN, gross)).
Proof.
  intros Hp. split.
  - intros H. destruct (would_fire_sized _ _ _ _ _ _ _ H) as [[amt g] Hs]. split.
    + apply asked_spec. unfold classify_opp in H. if_in H; done.
    + apply size_gate_spec in Hs as Hs'. exists g. by destruct Hs' as (_ & _ & _ & _ & _ & _ & _ & <-).
  - intros [Hasked [g Hs]]. apply asked_spec in Hasked.
    pose proof Hs as Hs'. apply size_gate_spec in Hs' as (Hf & Hd & Hb & Hc & Hg & Hh & _ & _).
    apply framed_ready_spec in Hf as (Hcl & Hr & -> & row & Hrow & Hready & Ht0 & Ht1).
    pose proof (plane_row_key _ _ _ Hrow) as (_ & key & _ & Hk).
    destruct (index_plane_row routes plane key row Hp Hk) as (r & _ & _ & _ & Hrd & Ham).
    assert (Hna : p_ambiguous row <> 1) by tauto. unfold classify_opp.
    rewrite Hasked, (bool_decide_eq_true_2 _ Hcl), Hr, Hrow, (proj2 (Z.eqb_neq _ _) Hna), Hready, Ht0, Ht1, Hd.
    cbn [negb orb py_bind Z.eqb Pos.eqb]. rewrite Hb, Hc, Hg. cbn [negb py_bind].
    rewrite (proj2 (Z.leb_gt _ _) Hh). change (MAX_IN <? MIN_IN) with false. cbn [orb]. by rewrite Hs.
Qed.

(** * Names *)

(** Apart from the text of an all-zero input the two encoders are the same. *)
Lemma b58encode_nonzero raw :
  is_bytes raw -> drop (leading (Z.eqb 0) raw) raw <> [] -> b58encode raw = Base58.b58encode raw.
Proof.
  intros Hb Hne. unfold b58encode, Base58.b58encode. cbv zeta. unfold text.
  destruct (b58_digits (b58_fuel (be_dec raw)) (be_dec raw) []) as [|c cs] eqn:E; [|done]. exfalso.
  pose proof (b58_any_roundtrip_nz raw Hb Hne) as Hr. unfold Base58.b58encode in Hr. rewrite E in Hr.
  change ["1"%char] with (replicate 1 "1"%char) in Hr. rewrite <- replicate_add, replicate_ones in Hr.
  rewrite <- (app_nil_r (replicate _ 0)), b58decode_any_digits in Hr; [|constructor|done].
  injection Hr as Hr. cbn [horner Z.eqb] in Hr. rewrite app_nil_r in Hr. apply Hne. rewrite <- Hr.
  assert (Hl : forall n, leading (Z.eqb 0) (replicate n 0) = n) by (induction n; simpl; congruence).
  rewrite Hl. apply drop_ge. by rewrite length_replicate.
Qed.

Lemma b58encode_zeros k : b58encode (replicate k 0) = text (replicate k "1"%char).
Proof.
  unfold b58encode. rewrite be_dec_zeros. cbn [b58_digits b58_fuel Z.eqb]. rewrite app_nil_r.
  assert (Hl : leading (Z.eqb 0) (replicate k 0) = k) by (induction k; simpl; congruence). by rewrite Hl.
Qed.

(** The name the plane files a key under reads back as the key, zeros included. *)
Lemma b58encode_roundtrip raw : is_bytes raw -> b58decode_any (b58encode raw) = Ret raw.
Proof.
  intros Hb. destruct (decide (drop (leading (Z.eqb 0) raw) raw = [])) as [E|E].
  - assert (Hz : exists k, raw = replicate k 0).
    { pose proof (leading_split raw) as Hs. rewrite E, app_nil_r in Hs. by exists (leading (Z.eqb 0) raw). }
    destruct Hz as [k ->]. rewrite b58encode_zeros, replicate_ones. unfold text.
    rewrite <- (app_nil_r (replicate k 0)), b58decode_any_digits; [|constructor|done].
    cbn [horner Z.eqb]. by rewrite !app_nil_r.
  - rewrite b58encode_nonzero by done. by apply b58_any_roundtrip_nz.
Qed.

Lemma hex_digit_value n :
  0 <= n < 16 -> hex_value (hex_digit n) = Some n /\ is_space (hex_digit n) = false.
Proof.
  intros Hn. assert (Hall : forallb (fun k => bool_decide (hex_value (hex_digit (Z.of_nat k)) = Some (Z.of_nat k)) &&
                 negb (is_space (hex_digit (Z.of_nat k)))) (seq 0 16) = true) by (vm_compute; reflexivity).
  rewrite forallb_forall in Hall. specialize (Hall (Z.to_nat n)). rewrite Z2Nat.id in Hall by lia.
  assert (Hin : List.In (Z.to_nat n) (seq 0 16)) by (apply List.in_seq; lia).
  specialize (Hall Hin). apply andb_true_iff in Hall as [H1 H2].
  apply bool_decide_eq_true in H1. by apply negb_true_iff in H2.
Qed.

Definition hex_chars (raw : bytes) : list ascii :=
  concat ((fun x => [hex_digit (x / 16); hex_digit (x mod 16)]) <$> raw).

Lemma chars_hex raw : chars (hex raw) = hex_chars raw.
Proof. apply chars_text. Qed.

Lemma byte_nibbles x : 0 <= x < 256 -> 0 <= x / 16 < 16 /\ 0 <= x mod 16 < 16.
Proof. intros H. pose proof (Z.div_mod x 16 ltac:(lia)). pose proof (Z.mod_pos_bound x 16). lia. Qed.

Lemma fromhex_hex raw : is_bytes raw -> fromhex (hex_chars raw) = Some raw.
Proof.
  induction 1 as [|x raw Hx _ IH]; [done|]. unfold hex_chars in *. rewrite fmap_cons. cbn [concat app fromhex].
  destruct (byte_nibbles x Hx) as [Hd Hm].
  destruct (hex_digit_value (x / 16) Hd) as [Ev Es]. unfold is_space in Es.
  destruct (hex_digit_value (x mod 16) Hm) as [Ev2 _].
  assert (Hns : (9 <=? code (hex_digit (x / 16))) && (code (hex_digit (x / 16)) <=? 13)
                || (code (hex_digit (x / 16)) =? 32) = false).
  { apply orb_false_iff in Es as [-> E2]. cbn [orb]. apply Z.eqb_neq. intros E. rewrite E in E2. done. }
  rewrite Hns, Ev, Ev2, IH. do 2 f_equal. pose proof (Z.div_mod x 16 ltac:(lia)). lia.
Qed.

Lemma lstrip_none p l : Forall (fun c => p c = false) l -> lstrip p l = l.
Proof. destruct 1 as [|c l Hc _]; [done|]. cbn [lstrip]. by rewrite Hc. Qed.

Lemma strip_none s : Forall (fun c => is_space c = false) (chars s) -> strip s = s.
Proof.
  intros H. unfold strip, rstrip. rewrite (lstrip_none _ (chars s)) by done.
  rewrite lstrip_none by (by apply Forall_reverse). by rewrite reverse_involutive, text_chars.
Qed.

Lemma hex_no_space raw : is_bytes raw -> Forall (fun c => is_space c = false) (hex_chars raw).
Proof.
  induction 1 as [|x raw Hx _ IH]; [constructor|]. unfold hex_chars in *. rewrite fmap_cons. cbn [concat app].
  destruct (byte_nibbles x Hx) as [Hd Hm]. repeat constructor; [by apply hex_digit_value..|done].
Qed.

Lemma length_hex_chars raw : length (hex_chars raw) = (2 * length raw)%nat.
Proof. induction raw as [|x raw IH]; [done|]. unfold hex_chars in *. rewrite fmap_cons. cbn [concat app length]. lia. Qed.

(** The journal's name of a pool finds the plane's: the 64 hex digits of a 32-byte key become
    a base58 text that decodes to that key, so two journal pools never share a plane name; and
    unless the key is all zeros it is the text the rest of the system uses. *)
Theorem hex_pool_name raw :
  is_bytes raw -> length raw = 32%nat ->
  b58decode_any (pool_pubkey (hex raw)) = Ret raw /\
  (drop (leading (Z.eqb 0) raw) raw <> [] -> pool_pubkey (hex raw) = Base58.b58encode raw).
Proof.
  intros Hb Hl. assert (E : pool_pubkey (hex raw) = b58encode raw).
  { unfold pool_pubkey. rewrite strip_none by (rewrite chars_hex; by apply hex_no_space).
    rewrite chars_hex, length_hex_chars, Hl. cbn [Nat.mul Nat.add Nat.eqb].
    by rewrite fromhex_hex, Hl by done. }
  rewrite E. split; [by apply b58encode_roundtrip|by apply b58encode_nonzero].
Qed.

(** The encoders of pump_fee.py and record_dlmm.py give the system program's address (32 zero
    bytes) 33 digits instead of 32. *)
Lemma b58_zero_key :
  String.length (b58encode ZERO32) = 32%nat /\ String.length (Base58.b58encode ZERO32) = 33%nat.
Proof. vm_compute. done. Qed.

(** The only path that arms. *)
Lemma auth_ready_arms env_value :
  snd (resolve_auth_ready env_value) = None -> fst (resolve_auth_ready env_value) = AUTH_READY_DEFAULT.
Proof.
  unfold resolve_auth_ready. destruct env_value as [[|c s]|]; [done| |done]. cbv zeta.
  destruct (bool_decide _ || _); [done|]. case_bool_decide; done.
Qed.

(** * A plane and a row *)

Definition demo_key : bytes := replicate 31 7 ++ [9].
Definition demo_routes : list route :=
  [Route (Some "shared"%string) (Some "pumpA"%string) (VBool true) VNone VNone (VStr "aa") (VStr "bb");
   Route (Some "shared"%string) (Some (pool_pubkey (hex demo_key))) (VBool true) VNone (VInt 1) (VStr "cc") (VStr "dd")].
Definition demo_opp : opp :=
  Opp (VStr (hex demo_key)) (VInt 1) (VStr "framed") (VInt 0) (VBool true) (VInt 600000)
    VNone VNone VNone (VStr "dlmm-pump") VNone VNone.

(** The row is sent; the pool two pairs share is not. *)
Example demo_sends :
  match index_plane demo_routes with
  | Ret plane => size_gate demo_opp plane true [("other"%string, VBool true)] = Ret (Some (50000000, 600000)) /\
                 (p_ready <$> plane !! "shared"%string) = Some 0
  | Raise _ => False
  end.
Proof. vm_compute. split; reflexivity. Qed.

Lemma demo_plane : exists plane, index_plane demo_routes = Ret plane /\
  size_gate demo_opp plane true [] = Ret (Some (50000000, 600000)).
Proof. eexists. split; [reflexivity|vm_compute; reflexivity]. Qed.

Lemma send_needs_every_gate_witness :
  exists plane, index_plane demo_routes = Ret plane /\ 525000 < 600000 /\
    exists key r, (key = pool_text demo_opp \/ key = pool_pubkey (pool_text demo_opp)) /\
      last_of demo_routes key = Some r /\ truthy (r_RACE_READY r) = true.
Proof.
  destruct demo_plane as (plane & Hp & Hs). exists plane. split; [exact Hp|].
  destruct (send_needs_every_gate demo_routes plane demo_opp true [] _ _ Hp Hs)
    as (_ & Hg & _ & _ & _ & _ & _ & _ & key & r & Hk & Hl & Hr & _).
  split; [exact Hg|]. exists key, r. split; [exact Hk|]. split; [exact Hl|exact Hr].
Defined.

Lemma would_fire_iff_witness :
  exists plane, index_plane demo_routes = Ret plane /\
    classify_opp demo_opp plane true [] (VInt 5) (VInt 2) VNone = Ret "would_fire"%string.
Proof.
  destruct demo_plane as (plane & Hp & Hs). exists plane. split; [exact Hp|].
  apply (would_fire_iff demo_routes plane demo_opp true [] (VInt 5) (VInt 2) VNone Hp).
  split; [right; reflexivity|]. exists 600000. exact Hs.
Defined.

Lemma hex_pool_name_witness :
  is_bytes demo_key /\ b58decode_any (pool_pubkey (hex demo_key)) = Ret demo_key.
Proof.
  assert (Hb : is_bytes demo_key) by (apply (bool_decide_unpack _); vm_compute; exact I).
  split; [exact Hb|]. exact (proj1 (hex_pool_name demo_key Hb eq_refl)).
Defined.
