(* ===== verification/ExecFunnel.v ===== *)
(** The read-only funnel over an audit file: arb-cap/exec_v1/exec_funnel.py, on top of the send
    gates (ExecGates).  The audit is the list of its rows that lie in the time window, in file
    order; reading the files and the window's clock arithmetic are outside. *)
From stdpp Require Import base list strings gmap pretty.
From Stdlib Require Import ZArith Lia.
From S2P Require Import Prelude PyBytes TxExpect PyVal ExecGates.
Open Scope Z_scope.
Open Scope py_scope.

(** An opp_synced row: what the gates read, and what the funnel reads besides. *)
Record opp_row := OppRow {
  w_opp : opp; w_pool_idx : pyval; w_shred_slot : pyval; w_tx_exact : pyval }.

(** A gate row. *)
Record gate_row := GateRow {
  g_would_send_new : pyval; g_pool_idx : pyval; g_shred_slot : pyval; g_family : pyval;
  g_n_hop : pyval; g_seq : pyval }.

Inductive audit := AGate (g : gate_row) | AOpp (o : opp_row) | AOther.

(** A pool of the universe file; [None] is a missing idx. *)
Record upool := UPool { u_pubkey : pyval; u_pk : pyval; u_idx : option pyval }.

Fixpoint univ_loop (i : Z) (pools : list upool) (out : gmap Z string) : gmap Z string :=
  match pools with
  | [] => out
  | p :: ps =>
      let pk := py_or (u_pubkey p) (py_or (u_pk p) (VStr "")) in
      let out :=
        match py_int (default (VInt i) (u_idx p)) with
        | Raise _ => out
        | Ret idx => if truthy pk then <[idx := py_str pk]> out else out
        end in
      univ_loop (i + 1) ps out
  end.

Definition univ_index (pools : list upool) : gmap Z string := univ_loop 0 pools ∅.

(** Dictionary keys: True and 1 are the same key. *)
Definition as_key (v : pyval) : pyval :=
  match v with VBool b => VInt (if b then 1 else 0) | _ => v end.
Definition opp_key (rec : opp_row) : pyval * pyval := (as_key (w_pool_idx rec), as_key (w_shred_slot rec)).

(** [by.setdefault(opp_key(rec), []).append(rec)] and [by_opp.get(key) or []]: the rows of a key in
    order. *)
Definition cands (opps : list opp_row) (key : pyval * pyval) : list opp_row :=
  filter (fun o => opp_key o = key) opps.

Definition pick_opp (cs : list opp_row) : option opp_row :=
  match find (fun rec => is_one (o_race_ready (w_opp rec)) || is_one (w_tx_exact rec)) cs with
  | Some rec => Some rec
  | None => head cs
  end.

Definition with_pool (o : opp) (pool : pyval) : opp :=
  Opp pool (o_race_ready o) (o_class o) (o_direction o) (o_cap_ok o) (o_cap_gross o) (o_seq o)
    (o_family o) (o_n_hop o) (o_arb_seq o) (o_arb_family o) (o_arb_n_hop o).

(** A row without a pool borrows the one the gate's index names. *)
Definition fill_pool (gate : gate_row) (univ : gmap Z string) (o : opp) : opp :=
  if bool_decide (pool_text o = ""%string) then
    let pool := match py_int (g_pool_idx gate) with
                | Ret i => default ""%string (univ !! i)
                | Raise _ => ""%string
                end in
    if bool_decide (pool = ""%string) then o else with_pool o (VStr pool)
  else o.

Section funnel.
Context (plane : gmap string prow) (ready : bool) (cool : cooldown) (univ : gmap Z string).

Definition classify_gate (gate : gate_row) (o : option opp_row) : pyres string :=
  if negb (v1_executable (g_family gate) (g_n_hop gate) (g_seq gate))
  then Ret "not_v1_executable"%string else
  match o with
  | None => Ret "no_opp_synced"%string
  | Some o => classify_opp (fill_pool gate univ (w_opp o)) plane ready cool
                (g_family gate) (g_n_hop gate) (g_seq gate)
  end.

Definition row_flags (rec : opp_row) : flags :=
  let journal := match o_race_ready (w_opp rec) with VNone => w_tx_exact rec | v => v end in
  race_flags journal (row_ready (plane_row plane (pool_text (w_opp rec)))).

Inductive source := WouldSendNew | OppSynced.
#[export] Instance source_eq_dec : EqDecision source.
Proof. solve_decision. Defined.
#[export] Instance source_countable : Countable source.
Proof.
  refine (inj_countable' (fun s => match s with WouldSendNew => true | OppSynced => false end)
                         (fun b : bool => if b then WouldSendNew else OppSynced) _).
  by intros [].
Defined.

Record item := Item { i_source : source; i_bucket : string; i_flags : flags }.

(** The counter's keys: a bucket, or ("opp", bucket). *)
Notation counter := (gmap (source * string) Z).
Definition count (k : source * string) (c : counter) : counter := <[k := or0 (c !! k) + 1]> c.

Definition gate_item (opps : list opp_row) (gate : gate_row) : pyres item :=
  let o := pick_opp (cands opps (as_key (g_pool_idx gate), as_key (g_shred_slot gate))) in
  bucket <-! classify_gate gate o ;;
  Ret (Item WouldSendNew bucket (match o with Some o => row_flags o | None => Flags 0 0 0 end)).

Definition opp_item (o : opp_row) : pyres item :=
  bucket <-! classify_opp (w_opp o) plane ready cool VNone VNone VNone ;;
  Ret (Item OppSynced bucket (row_flags o)).

(** The two loops, over what each row becomes. *)
Fixpoint collect {A} (f : A -> pyres item) (rows : list A) (out : list item) (counts : counter)
    : pyres (list item * counter) :=
  match rows with
  | [] => Ret (out, counts)
  | r :: rs => x <-! f r ;; collect f rs (out ++ [x]) (count (i_source x, i_bucket x) counts)
  end.

Definition gates_of (rows : list audit) : list gate_row :=
  filter (fun g => truthy (g_would_send_new g) = true)
    (omap (fun r => match r with AGate g => Some g | _ => None end) rows).
Definition opps_of (rows : list audit) : list opp_row :=
  omap (fun r => match r with AOpp o => Some o | _ => None end) rows.

Definition reduce (rows : list audit) : pyres (list item * counter) :=
  let opps := opps_of rows in
  st <-! collect (gate_item opps) (gates_of rows) [] ∅ ;;
  collect opp_item opps st.1 st.2.

(** * The summary *)

Definition BUCKETS : list string :=
  ["not_v1_executable"; "no_opp_synced"; "ix_only"; "plane_miss"; "plane_not_race_ready";
   "ready_file_missing"; "cooldown"; "bad_direction"; "cap_not_ok"; "below_oneshot_hurdle";
   "would_fire"; "not_framed"; "size_gate"]%string.

Definition in_bucket (name : string) (rows : list item) : Z :=
  Z.of_nat (length (filter (fun r => i_bucket r = name) rows)).

(** One line per bucket that is not empty: its name and its count. *)
Definition bucket_lines (rows : list item) : list (string * Z) :=
  filter (fun l => l.2 <> 0) ((fun name => (name, in_bucket name rows)) <$> BUCKETS).

Definition of_source (s : source) (rows : list item) : list item := filter (fun r => i_source r = s) rows.

Definition show_lines (ls : list (string * Z)) : list string :=
  (fun l => "  " +:+ l.1 +:+ "=" +:+ pretty l.2)%string <$> ls.

Definition total (f : flags -> Z) (rows : list item) : Z :=
  Z.of_nat (length (filter (fun r => f (i_flags r) <> 0) rows)).

Definition summary_lines (rows : list item) : list string :=
  let wsn := of_source WouldSendNew rows in
  let ops := of_source OppSynced rows in
  ["would_send_new=" +:+ pretty (Z.of_nat (length wsn)) +:+ " opp_synced=" +:+ pretty (Z.of_nat (length ops))
     +:+ " auth_ready=" +:+ (if ready then "1" else "0");
   "send_hurdle=" +:+ pretty HURDLE +:+
     " (oneshot fee schedule; paper cap_hurdle is not the send floor)";
   "would_send_new buckets:"]%string ++
  show_lines (bucket_lines wsn) ++
  ["opp_synced flags tx_exact=" +:+ pretty (total fl_tx_exact ops) +:+ " plane_race_ready=" +:+
     pretty (total fl_plane ops) +:+ " both_and=" +:+ pretty (total fl_both ops) +:+ " (not OR)";
   "opp_synced buckets:"]%string ++
  show_lines (bucket_lines ops).

(** * Every row is counted once *)

Definition counted (k : source * string) (rows : list item) : Z :=
  Z.of_nat (length (filter (fun x => (i_source x, i_bucket x) = k) rows)).

Lemma count_lookup k k' c : or0 (count k c !! k') = or0 (c !! k') + (if decide (k = k') then 1 else 0).
Proof.
  unfold count. destruct (decide (k = k')) as [->|Hne]; [by rewrite lookup_insert_eq|].
  rewrite lookup_insert_ne by done. lia.
Qed.

Lemma collect_spec {A} (f : A -> pyres item) rows out counts out' counts' :
  collect f rows out counts = Ret (out', counts') ->
  exists xs, out' = out ++ xs /\ Forall2 (fun r x => f r = Ret x) rows xs /\
    forall k, or0 (counts' !! k) = or0 (counts !! k) + counted k xs.
Proof.
  revert out counts. induction rows as [|r rows IH]; intros out counts; cbn [collect].
  { intros [= <- <-]. exists []. split; [by rewrite app_nil_r|]. split; [constructor|].
    intros k. unfold counted. rewrite filter_nil. cbn [length]. lia. }
  intros H. apply py_bind_Ret in H as (x & Hx & H). apply IH in H as (xs & -> & Hxs & Hc).
  exists (x :: xs). split; [by rewrite <- app_assoc|]. split; [by constructor|].
  intros k. rewrite Hc, count_lookup. unfold counted. rewrite filter_cons.
  case_decide; cbn [length]; lia.
Qed.

(** The funnel gives every row one bucket: the items are one per gate that would send anew
    and one per opp_synced row, in file order and each with the bucket its classifier returns,
    and the counter of each kind and bucket is the number of items of that kind in it. *)
Theorem reduce_counts_rows rows out counts :
  reduce rows = Ret (out, counts) ->
  exists ws os, out = ws ++ os /\
    Forall2 (fun g x => gate_item (opps_of rows) g = Ret x) (gates_of rows) ws /\
    Forall2 (fun o x => opp_item o = Ret x) (opps_of rows) os /\
    forall k, or0 (counts !! k) = counted k out.
Proof.
  unfold reduce. cbv zeta. intros H. apply py_bind_Ret in H as ([out1 counts1] & H1 & H2).
  apply collect_spec in H1 as (ws & -> & Hw & Hc1). apply collect_spec in H2 as (os & -> & Ho & Hc2).
  exists ws, os. cbn [app fst snd] in *. split; [done|]. split; [done|]. split; [done|].
  intros k. rewrite Hc2, Hc1, lookup_empty. change (or0 None) with 0. unfold counted.
  rewrite filter_app, length_app. lia.
Qed.

(** * What the summary shows *)

Lemma bucket_in_summary name rows n :
  (name, n) ∈ bucket_lines rows <-> name ∈ BUCKETS /\ n = in_bucket name rows /\ n <> 0.
Proof.
  unfold bucket_lines. rewrite list_elem_of_filter, list_elem_of_fmap. cbn [snd]. split.
  - intros [Hn (x & [= -> ->] & Hx)]. done.
  - intros (Hx & -> & Hn). split; [done|]. by exists name.
Qed.

Lemma size_gate_bool rec amt gross :
  size_gate rec plane ready cool = Ret (Some (amt, gross)) -> amt = MAX_IN.
Proof. intros H. by apply size_gate_spec in H as (_ & _ & _ & _ & _ & _ & _ & ->). Qed.

(** The buckets classify_opp can give. *)
Definition opp_buckets : list string := "ambiguous_pool"%string :: BUCKETS.

Lemma classify_bucket rec family n_hop seq b :
  classify_opp rec plane ready cool family n_hop seq = Ret b -> b ∈ opp_buckets.
Proof.
  intros H. apply (bool_decide_unpack _). unfold classify_opp in H.
  do 4 (if_in H; [injection H as <-; vm_compute; exact I|]).
  destruct (plane_row plane (pool_text rec)) as [row|]; [|injection H as <-; vm_compute; exact I].
  do 2 (if_in H; [injection H as <-; vm_compute; exact I|]).
  apply py_bind_Ret in H as (bad & _ & H). destruct bad; [injection H as <-; vm_compute; exact I|].
  do 2 (if_in H; [injection H as <-; vm_compute; exact I|]).
  apply py_bind_Ret in H as (g & _ & H). if_in H; [injection H as <-; vm_compute; exact I|].
  apply py_bind_Ret in H as (sz & _ & H). destruct sz; injection H as <-; vm_compute; exact I.
Qed.

(** The number of rows the bucket lines of a summary account for. *)
Definition shown (rows : list item) : Z := foldr Z.add 0 (snd <$> bucket_lines rows).

Lemma shown_all names rows :
  NoDup names -> Forall (fun r => i_bucket r ∈ names) rows ->
  foldr Z.add 0 ((fun name => in_bucket name rows) <$> names) = Z.of_nat (length rows).
Proof.
  revert rows. induction names as [|name names IH]; intros rows Hn Hr.
  { destruct rows as [|r rows]; [done|]. apply Forall_cons in Hr as [Hr _]. by apply elem_of_nil in Hr. }
  apply NoDup_cons in Hn as [Hx Hn]. rewrite fmap_cons. cbn [foldr].
  set (rest := filter (fun r => i_bucket r <> name) rows).
  assert (Hrest : foldr Z.add 0 ((fun name => in_bucket name rest) <$> names) = Z.of_nat (length rest)).
  { apply IH; [done|]. unfold rest. rewrite Forall_forall in *. intros r Hin.
    apply list_elem_of_filter in Hin as [Hne Hin]. specialize (Hr r Hin).
    apply elem_of_cons in Hr as [?|?]; done. }
  assert (Hsame : (fun name => in_bucket name rows) <$> names = (fun name => in_bucket name rest) <$> names).
  { apply list_fmap_ext. intros i m Hm. unfold in_bucket, rest. do 2 f_equal.
    rewrite list_filter_filter. apply list_filter_iff. intros r. split; [|tauto].
    intros <-. split; [done|]. intros E. apply Hx. rewrite <- E. by eapply list_elem_of_lookup_2. }
  rewrite Hsame, Hrest. unfold in_bucket, rest. rewrite <- Nat2Z.inj_add. f_equal.
  clear. induction rows as [|r rows IH]; [done|]. rewrite !filter_cons.
  destruct (decide (i_bucket r = name)) as [E|E].
  - rewrite decide_False by auto. cbn [length]. lia.
  - rewrite decide_True by auto. cbn [length]. lia.
Qed.

Lemma shown_sum rows : shown rows = foldr Z.add 0 ((fun name => in_bucket name rows) <$> BUCKETS).
Proof.
  unfold shown, bucket_lines. generalize BUCKETS. intros names.
  induction names as [|name names IH]; [done|]. rewrite !fmap_cons, filter_cons. cbn [snd foldr].
  case_decide as H; [rewrite fmap_cons; cbn [snd foldr]; by rewrite IH|]. rewrite IH. lia.
Qed.

(** What the summary leaves out: of the opp_synced rows, the bucket lines account for all but
    those of a pool that two pairs share, whose bucket "ambiguous_pool" the summary does not list. *)
Theorem summary_misses_ambiguous opps os :
  Forall2 (fun o x => opp_item o = Ret x) opps os ->
  shown os + in_bucket "ambiguous_pool" os = Z.of_nat (length opps).
Proof.
  intros H. assert (Hb : Forall (fun r => i_bucket r ∈ opp_buckets) os).
  { induction H as [|o x opps os Hx _ IH]; constructor; [|done]. unfold opp_item in Hx.
    apply py_bind_Ret in Hx as (b & Hx & [= <-]). by eapply classify_bucket. }
  rewrite (Forall2_length _ _ _ H), <- (shown_all opp_buckets os), shown_sum; [|by apply (bool_decide_unpack _)|done].
  unfold opp_buckets. rewrite fmap_cons. cbn [foldr]. lia.
Qed.

(** A gate row fires only on a send: when the funnel puts a gate in "would_fire", the gate's
    shape is executable, an opp_synced row of the same pool and slot exists, and the size gate
    sends that row, with the pool the gate names when the row has none. *)
Theorem gate_fires_on_send opps gate x :
  gate_item opps gate = Ret x -> i_bucket x = "would_fire"%string ->
  v1_executable (g_family gate) (g_n_hop gate) (g_seq gate) = true /\
  exists o gross, o ∈ opps /\ opp_key o = (as_key (g_pool_idx gate), as_key (g_shred_slot gate)) /\
    size_gate (fill_pool gate univ (w_opp o)) plane ready cool = Ret (Some (MAX_IN, gross)).
Proof.
  intros H Hb. unfold gate_item in H. apply py_bind_Ret in H as (b & H & [= <-]). cbn in Hb. subst b.
  unfold classify_gate in H. destruct (v1_executable _ _ _) eqn:E; [|done]. split; [done|]. cbn [negb] in H.
  set (key := (as_key (g_pool_idx gate), as_key (g_shred_slot gate))) in *.
  destruct (pick_opp (cands opps key)) as [o|] eqn:Ho; [|done].
  assert (Hin : o ∈ cands opps key).
  { unfold pick_opp in Ho. destruct (find _ _) eqn:F.
    - injection Ho as ->. apply find_some in F as [F _]. by apply list_elem_of_In.
    - destruct (cands opps key); [done|]. injection Ho as ->. by left. }
  apply list_elem_of_filter in Hin as [Hk Hin]. exists o.
  destruct (would_fire_sized _ _ _ _ _ _ _ H) as [[amt gross] Hs].
  exists gross. split; [done|]. split; [done|]. by rewrite Hs, (size_gate_bool _ _ _ Hs).
Qed.
End funnel.

(** * An audit *)

Definition demo_row (pool : string) (slot : Z) : opp_row :=
  OppRow (with_pool demo_opp (VStr pool)) (VInt 7) (VInt slot) VNone.

(** A gate that would send and its row, and a row of the pool two pairs share. *)
Definition demo_audit : list audit :=
  [AGate (GateRow (VBool true) (VInt 7) (VInt 100) (VInt 5) (VInt 2) VNone); AOther;
   AOpp (demo_row (TxExpect.hex demo_key) 100); AOpp (demo_row "shared" 101)].

Definition demo_index : gmap string prow :=
  match index_plane demo_routes with Ret plane => plane | Raise _ => ∅ end.

Lemma demo_reduced :
  match reduce demo_index true [] ∅ demo_audit with
  | Ret (out, _) => bool_decide (i_bucket <$> out = ["would_fire"; "would_fire"; "ambiguous_pool"]%string)
  | Raise _ => false
  end = true.
Proof. vm_compute. reflexivity. Qed.

Lemma reduce_counts_rows_witness : exists out counts,
  reduce demo_index true [] ∅ demo_audit = Ret (out, counts) /\
  or0 (counts !! (OppSynced, "would_fire"%string)) = counted (OppSynced, "would_fire"%string) out.
Proof.
  pose proof demo_reduced as Hd.
  destruct (reduce demo_index true [] ∅ demo_audit) as [[out counts]|e] eqn:H; [|discriminate Hd].
  exists out, counts. split; [reflexivity|].
  destruct (reduce_counts_rows demo_index true [] ∅ demo_audit out counts H) as (ws & os & _ & _ & _ & Hc).
  exact (Hc _).
Defined.

Lemma demo_item : exists x,
  gate_item demo_index true [] ∅ (opps_of demo_audit)
    (GateRow (VBool true) (VInt 7) (VInt 100) (VInt 5) (VInt 2) VNone) = Ret x /\
  i_bucket x = "would_fire"%string.
Proof. eexists. split; vm_compute; reflexivity. Qed.

Lemma gate_fires_on_send_witness : v1_executable (VInt 5) (VInt 2) VNone = true /\
  exists o gross, o ∈ opps_of demo_audit /\
    size_gate (fill_pool (GateRow (VBool true) (VInt 7) (VInt 100) (VInt 5) (VInt 2) VNone) ∅ (w_opp o))
      demo_index true [] = Ret (Some (MAX_IN, gross)).
Proof.
  destruct demo_item as (x & H & Hb).
  destruct (gate_fires_on_send demo_index true [] ∅ _ _ x H Hb) as (E & o & gross & Ho & _ & Hs).
  split; [exact E|]. exists o, gross. split; [exact Ho|exact Hs].
Defined.

(** A row of the summary's blind spot: classified, counted, and on none of its lines. *)
Lemma demo_opp_items : exists x,
  opp_item demo_index true [] (demo_row "shared" 101) = Ret x /\
  i_bucket x = "ambiguous_pool"%string /\ shown [x] = 0.
Proof. eexists. split; [vm_compute; reflexivity|]. split; vm_compute; reflexivity. Qed.

Lemma summary_misses_ambiguous_witness : exists x,
  opp_item demo_index true [] (demo_row "shared" 101) = Ret x /\
  shown [x] + in_bucket "ambiguous_pool" [x] = 1.
Proof.
  destruct demo_opp_items as (x & H & _). exists x. split; [exact H|].
  change 1 with (Z.of_nat (length [demo_row "shared" 101])).
  apply (summary_misses_ambiguous demo_index true [] [demo_row "shared" 101] [x]).
  constructor; [exact H|constructor].
Defined.
