(* ===== verification/ExecTemplate.v ===== *)
(** The transaction template of the live executor: arb-exec/scripts/exec_live002b.py.

    v0_parts lists the accounts of a route, lookup_prepared finds a lookup table that covers them,
    compile_v0 and compile_v0_buy lay the transaction out with zeros where the shot goes, patch
    and sign_v0 fill it in.  The signer is a parameter; the table accounts come from
    get_multiple (Deps).  The RPC senders, the deploy and simulate commands are outside. *)
From stdpp Require Import base list strings gmap.
From Stdlib Require Import ZArith Lia Ascii.
From Stdlib Require String.
From S2P Require Import Prelude PyBytes Base58 Pda FrameV1.
Open Scope Z_scope.
Open Scope py_scope.

Definition DLMM : string := "LBUZKhRxPF3XUpBCjp4YzTKgLccjZhTSDM9YuVaPwxo".
Definition PUMP : string := "pAMMBay6oceH9fJKBRHGP5D4bD4sWpmSwMn52FMfXEA".
Definition PAIR_DLMM : string := "DAErPzgiYQDhDwpMRgdvikXaZmnmznc3du3jy9i1AABk".
Definition PAIR_PUMP : string := "BRjMA8UALNp3diTKHfdeAn5riQrYPoaYez7KhYWD4oEs".
Definition TOKENKEG : string := "TokenkegQfeZyiNwAJbNbGKPFXCWuBvf9Ss623VQ5DA".
Definition TOKEN2022 : string := "TokenzQdBNbLqP5VEhdkAS6EPFLC1PHnBqCXEpPxuEb".
Definition SYSTEM : string := "11111111111111111111111111111111".
Definition ATA_PROG : string := "ATokenGPvbdGVxr1b2hvZbsiqW5xWH25efTNsLJA8knL".
Definition MEMO : string := "MemoSq4gqABAXKb96qnH8TysNcWxMyWCqXgDLGmfcHr".
Definition FEE_PROG : string := "pfeeUxB6jkeY1Hxd7CsFCAjcbHA9rWtchMGdZ6VojVZ".
Definition CU_PROG : string := "ComputeBudget111111111111111111111111111111".
Definition ALT_PROG : string := "AddressLookupTab1e1111111111111111111111111".

Definition V0_TX_LEN : Z := 623.
Definition V0_OFF_SIG : Z := 1.
Definition V0_OFF_MSG : Z := 65.
Definition V0_MSG_LEN : Z := 558.
Definition V0_OFF_BH : Z := 422.
Definition V0_OFF_PRICE : Z := 467.
Definition V0_OFF_DIR : Z := 546.
Definition V0_OFF_AMT : Z := 547.
Definition V0_OFF_MIN : Z := 555.
Definition CU_LIMIT : Z := 400000.
(** b"ARBEXEC0" *)
Definition DISC : bytes := [65; 82; 66; 69; 88; 69; 67; 48].

Definition NAMES : list string := [
  "authority"; "user_quote"; "user_base"; "token_program"; "system_program";
  "ata_program"; "memo_program"; "dlmm_program"; "dlmm_event_auth";
  "dlmm_lb_pair"; "dlmm_bitmap"; "dlmm_reserve_x"; "dlmm_reserve_y";
  "dlmm_oracle"; "dlmm_host_fee"; "dlmm_token_x_mint"; "dlmm_token_y_mint";
  "dlmm_bin_0"; "dlmm_bin_1"; "pump_program"; "pump_event_auth"; "pump_pool";
  "pump_global"; "pump_fee_config"; "pump_fee_program"; "pump_base_mint";
  "pump_quote_mint"; "pump_pool_base"; "pump_pool_quote"; "pump_proto_fee";
  "pump_proto_fee_ata"; "pump_creator_ata"; "pump_creator_auth";
  "pump_global_vol"; "pump_user_vol"]%string.

Definition IX_IDX : bytes := [
  0; 11; 12; 3; 4; 5; 6; 7; 26; 13;
  7; 14; 15; 16; 7; 27; 28; 17; 18; 8;
  29; 19; 30; 31; 10; 27; 28; 20; 21; 32;
  22; 23; 33; 34; 24;
  9;
  19; 0; 30; 27; 28; 12; 11; 20; 21; 32;
  22; 9; 3; 4; 5; 29; 8; 23; 33; 31;
  10; 34; 35; 25].

Definition range (a b : nat) : bytes := Z.of_nat <$> seq a (b - a).

Definition ALT_WR_IX : bytes := range 0 14 ++ [23].
Definition ALT_RO_IX : bytes := range 14 23 ++ [24].

Definition IX_IDX_BUY : bytes := [
  0; 11; 12; 3; 4; 5; 6; 7; 27; 13;
  7; 14; 15; 16; 7; 28; 29; 17; 18; 8;
  30; 19; 31; 32; 10; 28; 29; 20; 21; 33;
  22; 23; 34; 35; 24;
  9;
  19; 0; 31; 28; 29; 12; 11; 20; 21; 33;
  22; 9; 3; 4; 5; 30; 8; 23; 34; 26; 24; 32;
  10; 35; 36; 25].
Definition ALT_WR_IX_BUY : bytes := range 0 14 ++ [23; 25].
Definition ALT_RO_IX_BUY : bytes := range 14 23 ++ [24].
Definition V0_TX_LEN_BUY : Z := 626.
Definition V0_MSG_LEN_BUY : Z := 561.
Definition V0_OFF_DIR_BUY : Z := 548.
Definition V0_OFF_AMT_BUY : Z := 549.
Definition V0_OFF_MIN_BUY : Z := 557.

(** * The accounts of a route *)

Record pump_accs := PumpAccs {
  pa_proto_fee : string; pa_proto_fee_ata : string; pa_event : string; pa_global : string;
  pa_creator_ata : string; pa_creator_auth : string }.

(** The dict of resolve, resolve_pair and alt_plane.resolve_all. *)
Record accs := Accs {
  a_pair_dlmm : option string; a_pair_pump : option string; a_user_quote : string;
  a_user_base : string; a_vault_x : string; a_vault_y : string; a_oracle : string;
  a_bin0 : string; a_bin1 : string; a_vault_b : string; a_vault_q : string; a_uvol : string;
  a_event_dlmm : string; a_mint_x : string; a_mint_y : string; a_fee_cfg : string;
  a_pool_v2 : string; a_fee_rec_quote : string; a_fee_recipient : string; a_base_tok : string;
  a_pump : pump_accs }.

Definition pair_or (o : option string) (dflt : string) : string :=
  match o with
  | Some s => if decide (s = ""%string) then dflt else s
  | None => dflt
  end.

Definition v0_parts (wallet our_exec : string) (a : accs) : list string * list string * list string :=
  let static := [wallet; our_exec; CU_PROG; TOKENKEG; SYSTEM; ATA_PROG; MEMO; DLMM; PUMP; TOKEN2022; FEE_PROG] in
  let wr := [a_user_quote a; a_user_base a; pair_or (a_pair_dlmm a) PAIR_DLMM; a_vault_x a; a_vault_y a;
             a_oracle a; a_bin0 a; a_bin1 a; pair_or (a_pair_pump a) PAIR_PUMP; a_vault_b a;
             a_vault_q a; pa_proto_fee_ata (a_pump a); pa_creator_ata (a_pump a); a_uvol a] in
  let ro := [a_event_dlmm a; a_mint_x a; a_mint_y a; pa_event (a_pump a); pa_global (a_pump a);
             a_fee_cfg a; pa_proto_fee (a_pump a); pa_creator_auth (a_pump a); a_pool_v2 a] in
  (static, wr ++ [a_fee_rec_quote a], ro ++ [a_fee_recipient a]).

Definition loaded_keys (static wr ro : list string) : list string := static ++ wr ++ ro.

(** [l[i] for i in ix] for nonnegative [ix]. *)
Fixpoint pick {A} (l : list A) (ix : list Z) : pyres (list A) :=
  match ix with
  | [] => Ret []
  | i :: ix' =>
      match l !! Z.to_nat i with
      | None => Raise IndexError
      | Some x => r <-! pick l ix' ;; Ret (x :: r)
      end
  end.

Definition logical35 (loaded : list string) : pyres (list string) := pick loaded (take 35 IX_IDX).

(** * The template *)

Fixpoint decode_keys (ks : list string) : pyres bytes :=
  match ks with
  | [] => Ret []
  | k :: ks' => x <-! b58decode k ;; r <-! decode_keys ks' ;; Ret (x ++ r)
  end.

(** [x or default] on bytes *)
Definition bytes_or (o : option bytes) (dflt : bytes) : bytes :=
  match o with
  | Some (b :: l) => b :: l
  | _ => dflt
  end.

Definition zeros (n : nat) : bytes := replicate n 0.

(** The appends that both compilers make, with their own accounts and table sizes. *)
Definition lay_out (static : list string) (alt : string) (idx : bytes) (nwr : Z) (wr_ix ro_ix : bytes)
    : pyres bytes :=
  keys <-! decode_keys static ;;
  limit <-! pack_u 4 CU_LIMIT ;;
  a <-! b58decode alt ;;
  Ret ([1] ++ zeros 64 ++ [0x80; 1; 0; 10; 11] ++ keys ++ zeros 32 ++ [3] ++
       ([2; 0; 5; 2] ++ limit) ++ ([2; 0; 9; 3] ++ zeros 8) ++
       ([1; blen idx] ++ idx ++ [25] ++ DISC ++ zeros 17) ++
       ([1] ++ a) ++ ([nwr] ++ wr_ix) ++ ([10] ++ ro_ix)).

Definition compile_v0 (static : list string) (alt : string) (wr_ix ro_ix : option bytes) : pyres bytes :=
  let wr_ix := bytes_or wr_ix ALT_WR_IX in
  let ro_ix := bytes_or ro_ix ALT_RO_IX in
  if negb (blen wr_ix =? 15) || negb (blen ro_ix =? 10) then Raise (SystemExit "v0 alt ix") else
  out <-! lay_out static alt IX_IDX 15 wr_ix ro_ix ;;
  if negb (blen out =? V0_TX_LEN) then Raise (SystemExit "v0 len") else
  b <-! py_index out V0_OFF_DIR ;;
  if negb (b =? 0) || negb (bool_decide (slice 538 546 out = DISC))
  then Raise (SystemExit "v0 offset lock failed") else
  Ret out.

Definition compile_v0_buy (static : list string) (alt : string) (wr_ix ro_ix : option bytes) : pyres bytes :=
  if negb (blen IX_IDX_BUY =? 62) then Raise (SystemExit "IX_IDX_BUY") else
  let wr_ix := bytes_or wr_ix ALT_WR_IX_BUY in
  let ro_ix := bytes_or ro_ix ALT_RO_IX_BUY in
  if negb (blen wr_ix =? 16) || negb (blen ro_ix =? 10) then Raise (SystemExit "v0 buy alt ix") else
  out <-! lay_out static alt IX_IDX_BUY 16 wr_ix ro_ix ;;
  if negb (blen out =? V0_TX_LEN_BUY) then Raise (SystemExit "v0 buy len") else
  b <-! py_index out V0_OFF_DIR_BUY ;;
  if negb (b =? 0) || negb (bool_decide (slice 540 548 out = DISC))
  then Raise (SystemExit "v0 buy offset lock failed") else
  Ret out.

(** [out[a:b] = x] on a bytearray, for bounds inside it. *)
Definition put_slice (a b : Z) (x out : bytes) : bytes :=
  take (Z.to_nat a) out ++ x ++ drop (Z.to_nat b) out.

(** [out[i] = v] *)
Definition put_byte (i v : Z) (out : bytes) : pyres bytes :=
  if negb ((0 <=? v) && (v <? 256)) then Raise (ValueError "byte must be in range(0, 256)") else
  if blen out <=? i then Raise IndexError else
  Ret (<[Z.to_nat i := v]> out).

Definition patch (tmpl : bytes) (direction amount min_profit : Z) (bh : bytes) (price : Z) (buy : bool)
    : pyres bytes :=
  let off_dir := if buy then V0_OFF_DIR_BUY else V0_OFF_DIR in
  let off_amt := if buy then V0_OFF_AMT_BUY else V0_OFF_AMT in
  let off_min := if buy then V0_OFF_MIN_BUY else V0_OFF_MIN in
  let out := put_slice V0_OFF_BH (V0_OFF_BH + 32) bh tmpl in
  p <-! pack_u 8 price ;;
  let out := put_slice V0_OFF_PRICE (V0_OFF_PRICE + 8) p out in
  out <-! put_byte off_dir direction out ;;
  a <-! pack_u 8 amount ;;
  let out := put_slice off_amt (off_amt + 8) a out in
  m <-! pack_u 8 min_profit ;;
  Ret (put_slice off_min (off_min + 8) m out).

Definition sign_v0 (sign_message : bytes -> bytes) (tx : bytes) (buy : bool) : bytes :=
  let msg_len := if buy then V0_MSG_LEN_BUY else V0_MSG_LEN in
  let sig := sign_message (slice V0_OFF_MSG (V0_OFF_MSG + msg_len) tx) in
  put_slice V0_OFF_SIG (V0_OFF_SIG + 64) sig tx.

(** * Lookup tables *)

(** The table's addresses in its account: 32 bytes each behind a header of 56, a rest of less
    than 32 dropped. *)
Fixpoint alt_keys (fuel : nat) (raw : bytes) (i : Z) : list string :=
  match fuel with
  | O => []
  | S fuel' =>
      if blen raw <? i + 32 then [] else
      b58encode (slice i (i + 32) raw) :: alt_keys fuel' raw (i + 32)
  end.

(** [None]: the account was not found in eight tries. *)
Definition alt_addresses (acc : option bytes) : list string :=
  match acc with
  | None => []
  | Some raw => if blen raw <? 56 then [] else alt_keys (length raw) raw 56
  end.

Record alt_row := AltRow { t_pubkey : string; t_addresses : list string }.

(** The tables publish_plane writes and load_alt_plane reads: those with a key and addresses. *)
Definition publish_plane (alts : list alt_row) : list alt_row :=
  filter (fun a => t_pubkey a <> ""%string /\ t_addresses a <> []) alts.

(** [{a: i for i, a in enumerate(have)}]: the last place of an address. *)
Fixpoint pos_from (i : Z) (have : list string) (m : gmap string Z) : gmap string Z :=
  match have with
  | [] => m
  | a :: have' => pos_from (i + 1) have' (<[a := i]> m)
  end.
Definition pos_of (have : list string) : gmap string Z := pos_from 0 have ∅.

(** [bytes(pos[a] for a in keys)] *)
Fixpoint place (pos : gmap string Z) (keys : list string) : pyres bytes :=
  match keys with
  | [] => Ret []
  | a :: keys' =>
      match pos !! a with
      | None => Raise (KeyError a)
      | Some i =>
          if negb ((0 <=? i) && (i <? 256)) then Raise (ValueError "bytes must be in range(0, 256)") else
          r <-! place pos keys' ;; Ret (i :: r)
      end
  end.

Fixpoint lookup_prepared (plane : list alt_row) (wr ro : list string) : pyres (string * bytes * bytes) :=
  match plane with
  | [] => Raise (AltPlaneMiss "no prepared ALT")
  | alt :: rest =>
      let pos := pos_of (t_addresses alt) in
      if existsb (fun a => bool_decide (pos !! a = None)) (wr ++ ro) then lookup_prepared rest wr ro else
      w <-! place pos wr ;;
      r <-! place pos ro ;;
      Ret (t_pubkey alt, w, r)
  end.

(** * The transaction as a message

    A shot: what the template leaves open, and what it is compiled for. *)
Record shot := Shot {
  s_sig : bytes; s_keys : list bytes; s_bh : bytes; s_price : Z; s_dir : Z; s_amt : Z; s_min : Z;
  s_alt : bytes; s_wr : bytes; s_ro : bytes }.

Definition idx_of (buy : bool) : bytes := if buy then IX_IDX_BUY else IX_IDX.
Definition nwr_of (buy : bool) : Z := if buy then 16 else 15.

(** The fixed stretches between the open fields. *)
Definition gap_price : bytes := [3; 2; 0; 5; 2] ++ le_enc 4 CU_LIMIT ++ [2; 0; 9; 3].
Definition gap_dir (buy : bool) : bytes := [1; blen (idx_of buy)] ++ idx_of buy ++ [25] ++ DISC.
Definition tables (s : shot) : bytes :=
  [1] ++ s_alt s ++ [blen (s_wr s)] ++ s_wr s ++ [blen (s_ro s)] ++ s_ro s.

Definition wire_of (buy : bool) (s : shot) : bytes :=
  [1] ++ s_sig s ++ ([0x80; 1; 0; 10; 11] ++ concat (s_keys s)) ++ s_bh s ++ gap_price ++
  le_enc 8 (s_price s) ++ gap_dir buy ++ [s_dir s] ++ le_enc 8 (s_amt s) ++ le_enc 8 (s_min s) ++ tables s.

Record wf_shot (buy : bool) (s : shot) : Prop := {
  ws_keys : length (s_keys s) = 11%nat;
  ws_key : Forall (fun k => blen k = 32 /\ is_bytes k) (s_keys s);
  ws_sig : blen (s_sig s) = 64 /\ is_bytes (s_sig s);
  ws_bh : blen (s_bh s) = 32 /\ is_bytes (s_bh s);
  ws_alt : blen (s_alt s) = 32 /\ is_bytes (s_alt s);
  ws_wr : blen (s_wr s) = nwr_of buy /\ is_bytes (s_wr s);
  ws_ro : blen (s_ro s) = 10 /\ is_bytes (s_ro s);
  ws_dir : 0 <= s_dir s < 256 }.

(** The same message in the terms of the framing model. *)
Definition ixs_of (buy : bool) (s : shot) : list instr :=
  [Ix 2 [] (2 :: le_enc 4 CU_LIMIT); Ix 2 [] (3 :: le_enc 8 (s_price s));
   Ix 1 (idx_of buy) (DISC ++ [s_dir s] ++ le_enc 8 (s_amt s) ++ le_enc 8 (s_min s))].
Definition message_of (buy : bool) (s : shot) : wire :=
  Wire [s_sig s] 0 10 (s_keys s) (s_bh s) (ixs_of buy s).

Lemma blen_zeros n : blen (zeros n) = Z.of_nat n.
Proof. unfold blen, zeros. by rewrite length_replicate. Qed.

Lemma is_bytes_zeros n : is_bytes (zeros n).
Proof. apply Forall_replicate. split; lia. Qed.

Lemma blen_keys s : length (s_keys s) = 11%nat -> Forall (fun k => blen k = 32 /\ is_bytes k) (s_keys s) ->
  blen (concat (s_keys s)) = 352.
Proof.
  intros Hl Hk. rewrite (blen_concat 32), Hl; [done|]. eapply Forall_impl; [exact Hk|]. by intros k [? _].
Qed.

(** The bytes are the encoding of that message: both compact lengths and counts fit a byte. *)
Lemma wire_of_message buy s :
  wf_shot buy s -> wire_of buy s = enc_legacy (message_of buy s) (Some [(s_alt s, s_wr s, s_ro s)]).
Proof.
  intros []. unfold wire_of, enc_legacy, message_of, w_nsig, w_nkeys, w_nix.
  cbn [w_sigs w_keys w_hash w_ixs w_ro_s w_ro_u ixs_of length concat fmap list_fmap].
  rewrite ws_keys0, !app_nil_r. unfold enc_lut, enc_ix, tables. cbn [fst snd ix_prog ix_acc ix_data].
  destruct ws_wr0 as [-> _], ws_ro0 as [-> _].
  rewrite <- !app_assoc. destruct buy; reflexivity.
Qed.

(** * Filling in *)

Lemma put_slice_at a b x l1 l2 l3 :
  a = blen l1 -> b = a + blen l2 -> put_slice a b x (l1 ++ l2 ++ l3) = l1 ++ x ++ l3.
Proof.
  intros -> ->. unfold put_slice, blen. rewrite Nat2Z.id, take_app_length.
  replace (Z.to_nat _) with (length l1 + length l2)%nat by lia.
  by rewrite <- drop_drop, drop_app_length, drop_app_length.
Qed.

Lemma put_byte_at i v l1 o l3 :
  i = blen l1 -> 0 <= v < 256 -> put_byte i v (l1 ++ [o] ++ l3) = Ret (l1 ++ [v] ++ l3).
Proof.
  intros -> Hv. unfold put_byte. rewrite (proj2 (Z.leb_le _ _)), (proj2 (Z.ltb_lt _ _)) by lia.
  cbn [andb negb]. rewrite !blen_app. change (blen [o]) with 1.
  destruct (Z.leb_spec (blen l1 + (1 + blen l3)) (blen l1)); [unfold blen in *; lia|].
  f_equal. unfold blen. rewrite Nat2Z.id. rewrite insert_app_r_alt by lia. by rewrite Nat.sub_diag.
Qed.

Definition set_sig (x : bytes) (s : shot) : shot :=
  Shot x (s_keys s) (s_bh s) (s_price s) (s_dir s) (s_amt s) (s_min s) (s_alt s) (s_wr s) (s_ro s).

Definition off_dir_of (buy : bool) : Z := if buy then 548 else 546.

Lemma blen_gap_dir buy : 475 + blen (gap_dir buy) = off_dir_of buy.
Proof. by destruct buy. Qed.

Section filled.
Context (buy : bool) (s : shot) (Hs : wf_shot buy s).

(** What comes before each open field, with its length. *)
Definition upto_bh : bytes := [1] ++ s_sig s ++ [0x80; 1; 0; 10; 11] ++ concat (s_keys s).
Lemma blen_upto_bh : blen upto_bh = 422.
Proof.
  unfold upto_bh. rewrite !blen_app, (blen_keys s) by apply Hs.
  destruct (ws_sig _ _ Hs) as [-> _]. reflexivity.
Qed.

Lemma wire_len : blen (wire_of buy s) = if buy then 626 else 623.
Proof.
  unfold wire_of, tables. rewrite !blen_app, (blen_keys s) by apply Hs.
  destruct (ws_sig _ _ Hs) as [-> _], (ws_bh _ _ Hs) as [-> _], (ws_alt _ _ Hs) as [-> _],
    (ws_wr _ _ Hs) as [-> _], (ws_ro _ _ Hs) as [-> _]. rewrite !blen_le_enc.
  pose proof (blen_gap_dir buy). change (blen [_]) with 1. change (blen gap_price) with 13.
  change (blen [_; _; _; _; _]) with 5. change (Z.of_nat 8) with 8.
  unfold nwr_of, off_dir_of in *. destruct buy; lia.
Qed.

(** A template is filled in place: only the blockhash, the price, the direction and the two
    amounts change. *)
Lemma patch_wire dir amt mn bh price :
  blen bh = 32 -> 0 <= dir < 256 -> 0 <= amt < 2 ^ 64 -> 0 <= mn < 2 ^ 64 -> 0 <= price < 2 ^ 64 ->
  patch (wire_of buy s) dir amt mn bh price buy =
  Ret (wire_of buy (Shot (s_sig s) (s_keys s) bh price dir amt mn (s_alt s) (s_wr s) (s_ro s))).
Proof.
  intros Hbh Hdir Hamt Hmn Hpr. unfold patch.
  rewrite !pack_u_small by done. cbn [py_bind].
  pose proof blen_upto_bh as Hu. pose proof (blen_gap_dir buy) as Hg.
  set (r0 := gap_price ++ le_enc 8 (s_price s) ++ gap_dir buy ++ [s_dir s] ++ le_enc 8 (s_amt s) ++
             le_enc 8 (s_min s) ++ tables s).
  replace (wire_of buy s) with (upto_bh ++ s_bh s ++ r0) by (unfold wire_of, upto_bh; by rewrite <- !app_assoc).
  rewrite put_slice_at by (unfold V0_OFF_BH; destruct (ws_bh _ _ Hs); lia).
  set (r1 := gap_dir buy ++ [s_dir s] ++ le_enc 8 (s_amt s) ++ le_enc 8 (s_min s) ++ tables s).
  replace (upto_bh ++ bh ++ r0) with ((upto_bh ++ bh ++ gap_price) ++ le_enc 8 (s_price s) ++ r1)
    by (unfold r0, r1; by rewrite <- !app_assoc).
  assert (Hl1 : blen (upto_bh ++ bh ++ gap_price) = 467).
  { rewrite !blen_app, Hu, Hbh. reflexivity. }
  rewrite put_slice_at by (unfold V0_OFF_PRICE; rewrite ?blen_le_enc, ?Hl1; done).
  set (l2 := upto_bh ++ bh ++ gap_price ++ le_enc 8 price ++ gap_dir buy).
  assert (Hl2 : blen l2 = off_dir_of buy).
  { unfold l2. rewrite !blen_app, Hu, Hbh, blen_le_enc. change (blen gap_price) with 13.
    change (Z.of_nat 8) with 8. lia. }
  set (r2 := le_enc 8 (s_amt s) ++ le_enc 8 (s_min s) ++ tables s).
  replace ((upto_bh ++ bh ++ gap_price) ++ le_enc 8 price ++ r1) with (l2 ++ [s_dir s] ++ r2)
    by (unfold l2, r1, r2; by rewrite <- !app_assoc).
  rewrite put_byte_at by (rewrite ?Hl2; unfold off_dir_of; by destruct buy). cbn [py_bind].
  set (r3 := le_enc 8 (s_min s) ++ tables s).
  replace (l2 ++ [dir] ++ r2) with ((l2 ++ [dir]) ++ le_enc 8 (s_amt s) ++ r3)
    by (unfold r2, r3; by rewrite <- !app_assoc).
  assert (Hl3 : blen (l2 ++ [dir]) = off_dir_of buy + 1) by (by rewrite blen_app, Hl2).
  rewrite put_slice_at by (rewrite ?blen_le_enc, ?Hl3; unfold off_dir_of; by destruct buy).
  replace ((l2 ++ [dir]) ++ le_enc 8 amt ++ r3)
    with ((l2 ++ [dir] ++ le_enc 8 amt) ++ le_enc 8 (s_min s) ++ tables s)
    by (unfold r3; by rewrite <- !app_assoc).
  rewrite put_slice_at by (rewrite ?blen_app, ?blen_le_enc, ?Hl2; unfold off_dir_of; by destruct buy).
  f_equal. unfold wire_of, l2, upto_bh, tables. cbn [s_sig s_keys s_bh s_price s_dir s_amt s_min s_alt s_wr s_ro].
  by rewrite <- !app_assoc.
Qed.

(** The message that is signed is all of the transaction behind the signature. *)
Lemma sign_wire (sign : bytes -> bytes) :
  sign_v0 sign (wire_of buy s) buy = wire_of buy (set_sig (sign (drop 65 (wire_of buy s))) s).
Proof.
  unfold sign_v0. pose proof wire_len as Hl.
  assert (Hm : slice V0_OFF_MSG (V0_OFF_MSG + (if buy then V0_MSG_LEN_BUY else V0_MSG_LEN)) (wire_of buy s)
               = drop 65 (wire_of buy s)).
  { unfold slice. change (Z.to_nat V0_OFF_MSG) with 65%nat. apply take_ge. rewrite length_drop.
    unfold blen in Hl. unfold V0_OFF_MSG, V0_MSG_LEN, V0_MSG_LEN_BUY. destruct buy; lia. }
  rewrite Hm. unfold wire_of at 2. rewrite put_slice_at; [done|done|].
  destruct (ws_sig _ _ Hs) as [-> _]. done.
Qed.

Lemma wire_bytes : is_bytes (wire_of buy s).
Proof.
  destruct Hs. assert (Hc : is_bytes (concat (s_keys s))).
  { apply Forall_concat. eapply Forall_impl; [exact ws_key0|]. by intros k [_ ?]. }
  assert (Hk : forall l, bool_decide (is_bytes l) = true -> is_bytes l) by (intros l; apply bool_decide_eq_true).
  unfold wire_of, tables. rewrite !is_bytes_app.
  repeat split; first [apply is_bytes_le_enc | tauto | idtac].
  all: first [apply Hk; destruct buy; vm_compute; reflexivity | idtac].
  - repeat constructor; lia.
  - destruct ws_wr0 as [-> _]. apply Hk. by destruct buy.
  - destruct ws_ro0 as [-> _]. by apply Hk.
Qed.

Lemma message_wf : wf_wire (message_of buy s) /\ wf_luts (Some [(s_alt s, s_wr s, s_ro s)]).
Proof.
  destruct Hs. unfold wf_wire, message_of, w_nsig, w_nkeys, w_nix. cbn [w_sigs w_keys w_hash w_ixs w_ro_s w_ro_u].
  rewrite ws_keys0. split; [split; [reflexivity|]|].
  - split; [constructor; [tauto|constructor]|]. split; [eapply Forall_impl; [exact ws_key0|]; by intros k [? _]|].
    split; [tauto|]. split; [unfold TX_INSTR_MAX; cbn; lia|].
    repeat constructor; cbn [ix_acc ix_data ixs_of]; by destruct buy.
  - cbn [wf_luts length]. split; [lia|]. repeat constructor; cbn [fst snd]; [tauto|..].
    + destruct ws_wr0 as [-> _]. by destruct buy.
    + destruct ws_ro0 as [-> _]. lia.
Qed.

(** What the framing parser makes of it. *)
Lemma wire_frames :
  parse_any (wire_of buy s) 0 =
  Ok (wire_frame (message_of buy s) "v0" (if buy then 626 else 623) true None).
Proof.
  pose proof (wire_of_message buy s Hs) as E. pose proof wire_len as Hl.
  pose proof (message_frames [] (message_of buy s) (Some [(s_alt s, s_wr s, s_ro s)]) []) as H.
  rewrite app_nil_r, app_nil_l, <- E in H. cbn [is_v0] in H. change (blen []) with 0 in H.
  rewrite Hl, Z.add_0_l in H. destruct message_wf as [Hw Hlut].
  apply H; [exact wire_bytes|exact Hw|exact Hlut|discriminate].
Qed.
End filled.

(** * Compiling *)

Definition compile (buy : bool) := if buy then compile_v0_buy else compile_v0.

Lemma b58decode_key k x : b58decode k = Ret x -> blen x = 32 /\ is_bytes x.
Proof.
  unfold b58decode, b58decode_any. intros H. apply py_bind_Ret in H as (raw & H & [= <-]).
  apply py_bind_Ret in H as (n & _ & [= <-]).
  set (h := if n =? 0 then [] else be_enc (byte_length n) n).
  assert (Hb : is_bytes (replicate (leading (Ascii.eqb "1") (String.list_ascii_of_string k)) 0 ++ h)).
  { apply is_bytes_app. split; [apply is_bytes_zeros|]. unfold h. destruct (n =? 0); [constructor|].
    apply is_bytes_reverse, is_bytes_le_enc. }
  revert Hb. generalize (replicate (leading (Ascii.eqb "1") (String.list_ascii_of_string k)) 0 ++ h).
  intros raw Hb. unfold fit32, blen. destruct (Nat.leb_spec 32 (length raw)).
  - split; [rewrite length_drop; lia|by apply Forall_drop].
  - split; [rewrite length_app, length_replicate; lia|]. apply is_bytes_app. by split; [apply is_bytes_zeros|].
Qed.

Lemma decode_keys_spec ks raw :
  decode_keys ks = Ret raw ->
  exists l, raw = concat l /\ Forall2 (fun k x => b58decode k = Ret x) ks l /\
    Forall (fun k => blen k = 32 /\ is_bytes k) l.
Proof.
  revert raw. induction ks as [|k ks IH]; intros raw; cbn [decode_keys].
  { intros [= <-]. exists []. repeat constructor. }
  intros H. apply py_bind_Ret in H as (x & Hx & H). apply py_bind_Ret in H as (r & Hr & [= <-]).
  destruct (IH r Hr) as (l & -> & H2 & H3). exists (x :: l). split; [done|].
  split; constructor; try done. by apply b58decode_key in Hx.
Qed.

Lemma decode_keys_total ks l :
  Forall2 (fun k x => b58decode k = Ret x) ks l -> decode_keys ks = Ret (concat l).
Proof. induction 1 as [|k x ks l Hx _ IH]; [done|]. cbn [decode_keys]. by rewrite Hx, IH. Qed.

(** The empty shot of a template. *)
Definition blank (keys : list bytes) (a wr ro : bytes) : shot :=
  Shot (zeros 64) keys (zeros 32) 0 0 0 0 a wr ro.

Lemma lay_out_blank buy static alt wr ro out :
  blen wr = nwr_of buy -> blen ro = 10 ->
  lay_out static alt (idx_of buy) (nwr_of buy) wr ro = Ret out ->
  exists keys a, Forall2 (fun k x => b58decode k = Ret x) static keys /\
    Forall (fun k => blen k = 32 /\ is_bytes k) keys /\ b58decode alt = Ret a /\
    out = wire_of buy (blank keys a wr ro).
Proof.
  intros Hw Hr. unfold lay_out. intros H. apply py_bind_Ret in H as (raw & Hk & H).
  change (pack_u 4 CU_LIMIT) with (Ret (le_enc 4 CU_LIMIT)) in H. cbn [py_bind] in H.
  apply py_bind_Ret in H as (a & Ha & [= <-]). apply decode_keys_spec in Hk as (keys & -> & H1 & H2).
  exists keys, a. do 3 (split; [done|]). unfold wire_of, blank, tables, gap_price, gap_dir.
  cbn [s_sig s_keys s_bh s_price s_dir s_amt s_min s_alt s_wr s_ro]. rewrite Hw, Hr.
  change (zeros 17) with ([0] ++ zeros 8 ++ zeros 8). change (le_enc 8 0) with (zeros 8).
  by rewrite <- !app_assoc.
Qed.

Lemma lay_out_total buy static alt wr ro keys a :
  Forall2 (fun k x => b58decode k = Ret x) static keys -> b58decode alt = Ret a ->
  exists out, lay_out static alt (idx_of buy) (nwr_of buy) wr ro = Ret out.
Proof.
  intros Hk Ha. unfold lay_out. rewrite (decode_keys_total _ _ Hk), Ha.
  change (pack_u 4 CU_LIMIT) with (Ret (le_enc 4 CU_LIMIT)). cbn [py_bind]. eauto.
Qed.

(** The length of a laid out template tells the number of its static keys. *)
Lemma blank_len buy keys a wr ro :
  Forall (fun k => blen k = 32 /\ is_bytes k) keys -> blen a = 32 -> blen wr = nwr_of buy -> blen ro = 10 ->
  blen (wire_of buy (blank keys a wr ro)) = (if buy then 274 else 271) + 32 * Z.of_nat (length keys).
Proof.
  intros Hk Ha Hw Hr. unfold wire_of, blank, tables.
  cbn [s_sig s_keys s_bh s_price s_dir s_amt s_min s_alt s_wr s_ro].
  rewrite !blen_app, (blen_concat 32 keys) by (eapply Forall_impl; [exact Hk|]; by intros k [? _]).
  rewrite Ha, Hw, Hr, !blen_le_enc, !blen_zeros, !blen_cons. change (blen gap_price) with 13.
  change (blen []) with 0.
  pose proof (blen_gap_dir buy). unfold off_dir_of, nwr_of in *. destruct buy; lia.
Qed.

Lemma wf_blank buy keys a wr ro :
  length keys = 11%nat -> Forall (fun k => blen k = 32 /\ is_bytes k) keys -> blen a = 32 /\ is_bytes a ->
  blen wr = nwr_of buy /\ is_bytes wr -> blen ro = 10 /\ is_bytes ro -> wf_shot buy (blank keys a wr ro).
Proof.
  intros. constructor; cbn [blank s_sig s_keys s_bh s_price s_dir s_amt s_min s_alt s_wr s_ro]; try done.
  - split; [apply blen_zeros|apply is_bytes_zeros].
  - split; [apply blen_zeros|apply is_bytes_zeros].
Qed.

Lemma blank_lock buy keys a wr ro :
  wf_shot buy (blank keys a wr ro) ->
  py_index (wire_of buy (blank keys a wr ro)) (off_dir_of buy) = Ret 0 /\
  slice (off_dir_of buy - 8) (off_dir_of buy) (wire_of buy (blank keys a wr ro)) = DISC.
Proof.
  intros Hs. set (s := blank keys a wr ro) in *. pose proof (blen_upto_bh buy s Hs) as Hu.
  set (l := upto_bh s ++ s_bh s ++ gap_price ++ le_enc 8 (s_price s) ++ [1; blen (idx_of buy)] ++ idx_of buy ++ [25]).
  set (r := [s_dir s] ++ le_enc 8 (s_amt s) ++ le_enc 8 (s_min s) ++ tables s).
  assert (E : wire_of buy s = l ++ DISC ++ r).
  { unfold l, r, wire_of, upto_bh, gap_dir. by rewrite <- !app_assoc. }
  assert (Hl : blen l = off_dir_of buy - 8).
  { unfold l. rewrite !blen_app, Hu, blen_le_enc. destruct (ws_bh _ _ Hs) as [-> _].
    change (blen gap_price) with 13. by destruct buy. }
  rewrite E. split.
  - unfold py_index. rewrite app_assoc, lookup_app_r;
      [|rewrite length_app; change (length DISC) with 8%nat; unfold blen, off_dir_of in *; destruct buy; lia].
    rewrite length_app. change (length DISC) with 8%nat.
    replace (Z.to_nat (off_dir_of buy) - _)%nat with 0%nat by (unfold blen, off_dir_of in *; destruct buy; lia). done.
  - apply slice_at; [by rewrite Hl|]. change (blen DISC) with 8. lia.
Qed.

(** Compiling succeeds exactly on eleven keys and a table address that decode and on index lists
    of the template's sizes; neither of the two self-checks ever fires. *)
Lemma compile_spec (buy : bool) (static : list string) (alt : string) (wr_ix ro_ix : option bytes) (t : bytes) :
  let wr := bytes_or wr_ix (if buy then ALT_WR_IX_BUY else ALT_WR_IX) in
  let ro := bytes_or ro_ix (if buy then ALT_RO_IX_BUY else ALT_RO_IX) in
  is_bytes wr -> is_bytes ro ->
  compile buy static alt wr_ix ro_ix = Ret t <->
  exists keys a, Forall2 (fun k x => b58decode k = Ret x) static keys /\ b58decode alt = Ret a /\
    wf_shot buy (blank keys a wr ro) /\ t = wire_of buy (blank keys a wr ro).
Proof.
  intros wr ro Hbw Hbr.
  assert (E : compile buy static alt wr_ix ro_ix =
    (if negb (blen wr =? nwr_of buy) || negb (blen ro =? 10)
    then Raise (SystemExit (if buy then "v0 buy alt ix" else "v0 alt ix")) else
    py_bind (lay_out static alt (idx_of buy) (nwr_of buy) wr ro) (fun out =>
    if negb (blen out =? (if buy then 626 else 623))
    then Raise (SystemExit (if buy then "v0 buy len" else "v0 len")) else
    py_bind (py_index out (off_dir_of buy)) (fun b =>
    if negb (b =? 0) || negb (bool_decide (slice (off_dir_of buy - 8) (off_dir_of buy) out = DISC))
    then Raise (SystemExit (if buy then "v0 buy offset lock failed" else "v0 offset lock failed")) else
    Ret out)))) by (by destruct buy).
  rewrite E. clear E. destruct (Z.eqb_spec (blen wr) (nwr_of buy)) as [Hw|Hw]; cbn [negb orb].
  2: { split; [done|]. intros (keys & a & _ & _ & Hs & _). by destruct (ws_wr _ _ Hs). }
  destruct (Z.eqb_spec (blen ro) 10) as [Hr|Hr]; cbn [negb].
  2: { split; [done|]. intros (keys & a & _ & _ & Hs & _). by destruct (ws_ro _ _ Hs). }
  split.
  - intros H. apply py_bind_Ret in H as (out & Ho & H).
    destruct (lay_out_blank buy static alt wr ro out Hw Hr Ho) as (keys & a & Hk & Hkey & Ha & ->).
    destruct (Z.eqb_spec (blen (wire_of buy (blank keys a wr ro))) (if buy then 626 else 623)) as [Hl|]; [|done].
    pose proof (b58decode_key _ _ Ha) as Hab.
    rewrite (blank_len buy keys a wr ro Hkey (proj1 Hab) Hw Hr) in Hl.
    assert (Hs : wf_shot buy (blank keys a wr ro)) by (apply wf_blank; [destruct buy; lia|done..]).
    exists keys, a. do 3 (split; [done|]). cbn [negb] in H. apply py_bind_Ret in H as (b & _ & H).
    by if_in H; [|injection H].
  - intros (keys & a & Hk & Ha & Hs & ->).
    destruct (lay_out_total buy static alt wr ro keys a Hk Ha) as [out Ho]. rewrite Ho. cbn [py_bind].
    destruct (lay_out_blank buy static alt wr ro out Hw Hr Ho) as (keys' & a' & Hk' & _ & Ha' & ->).
    assert (keys' = keys /\ a' = a) as [-> ->].
    { split; [|congruence]. clear -Hk Hk'. revert keys' Hk'. induction Hk as [|k x ks l Hx _ IH]; intros keys' Hk'.
      - by inversion Hk'.
      - inversion Hk' as [|k' x' ks' l' Hx' Hl']; subst. f_equal; [congruence|]. by apply IH. }
    rewrite wire_len by done. rewrite Z.eqb_refl. cbn [negb].
    destruct (blank_lock buy keys a wr ro Hs) as [-> ->]. cbn [py_bind].
    by rewrite bool_decide_eq_true_2.
Qed.

(** A template filled in and signed. *)
Lemma template_shot (buy : bool) static alt wr_ix ro_ix tmpl sign dir amt mn bh price :
  let wr := bytes_or wr_ix (if buy then ALT_WR_IX_BUY else ALT_WR_IX) in
  let ro := bytes_or ro_ix (if buy then ALT_RO_IX_BUY else ALT_RO_IX) in
  is_bytes wr -> is_bytes ro -> (forall m, blen (sign m) = 64 /\ is_bytes (sign m)) ->
  compile buy static alt wr_ix ro_ix = Ret tmpl ->
  blen bh = 32 /\ is_bytes bh -> 0 <= dir < 256 -> 0 <= amt < 2 ^ 64 -> 0 <= mn < 2 ^ 64 ->
  0 <= price < 2 ^ 64 ->
  exists keys a tx0, Forall2 (fun k x => b58decode k = Ret x) static keys /\ b58decode alt = Ret a /\
    patch tmpl dir amt mn bh price buy = Ret tx0 /\
    let tx := sign_v0 sign tx0 buy in
    let ixs := [Ix 2 [] (2 :: le_enc 4 CU_LIMIT); Ix 2 [] (3 :: le_enc 8 price);
                Ix 1 (idx_of buy) (DISC ++ [dir] ++ le_enc 8 amt ++ le_enc 8 mn)] in
    parse_any tx 0 = Ok (Frame "v0" 1 11 3 keys ixs (blen tx) true None) /\
    tx = enc_legacy (Wire [sign (drop 65 tx)] 0 10 keys bh ixs) (Some [(a, wr, ro)]).
Proof.
  intros wr ro Hbw Hbr Hsign Hc Hbh Hdir Hamt Hmn Hpr.
  apply compile_spec in Hc as (keys & a & Hk & Ha & Hs & ->); [|done..]. fold wr ro in Hs |- *.
  exists keys, a. eexists. split; [done|]. split; [done|]. split; [apply patch_wire; [done|apply Hbh|done..]|].
  cbn [blank s_sig s_keys s_alt s_wr s_ro].
  set (s0 := Shot (zeros 64) keys bh price dir amt mn a wr ro).
  assert (Hs0 : wf_shot buy s0) by (destruct Hs; by constructor).
  rewrite (sign_wire buy s0 Hs0). set (m := drop 65 (wire_of buy s0)). set (s1 := set_sig (sign m) s0).
  assert (Hs1 : wf_shot buy s1) by (destruct Hs0; constructor; [done|done|apply Hsign|done..]).
  assert (Hm : drop 65 (wire_of buy s1) = m).
  { assert (Hd : forall x, wf_shot buy x -> drop 65 (wire_of buy x) = (([0x80; 1; 0; 10; 11] ++ concat (s_keys x)) ++
      s_bh x ++ gap_price ++ le_enc 8 (s_price x) ++ gap_dir buy ++ [s_dir x] ++ le_enc 8 (s_amt x) ++
      le_enc 8 (s_min x) ++ tables x)).
    { intros x Hx. unfold wire_of. rewrite app_assoc. apply drop_app_length'.
      rewrite length_app. destruct (ws_sig _ _ Hx) as [Hl _]. unfold blen in Hl. cbn [length]. lia. }
    unfold m. by rewrite (Hd s1 Hs1), (Hd s0 Hs0). }
  cbv zeta. rewrite Hm, (wire_frames buy s1 Hs1), (wire_len buy s1 Hs1). split.
  - unfold wire_frame, message_of, w_nsig, w_nkeys, w_nix. cbn [w_sigs w_keys w_ixs].
    by rewrite (ws_keys _ _ Hs1).
  - exact (wire_of_message buy s1 Hs1).
Qed.

(** C22. What a shot puts on the wire: a template that compiled, patched with any direction byte,
    amounts, price and blockhash and signed, is a single v0 transaction with nothing behind it: it
    frames with one signature, the template's eleven keys and three instructions, whose data are
    the compute limit, the price and the direction with the two amounts; it has the bytes of the
    message with that blockhash and that lookup table, and the signature is of all the bytes
    behind it. *)
Theorem shot_on_the_wire (buy : bool) static alt wr_ix ro_ix tmpl sign dir amt mn bh price :
  let wr := bytes_or wr_ix (if buy then ALT_WR_IX_BUY else ALT_WR_IX) in
  let ro := bytes_or ro_ix (if buy then ALT_RO_IX_BUY else ALT_RO_IX) in
  is_bytes wr -> is_bytes ro -> (forall m, blen (sign m) = 64 /\ is_bytes (sign m)) ->
  compile buy static alt wr_ix ro_ix = Ret tmpl ->
  blen bh = 32 /\ is_bytes bh -> 0 <= dir < 256 -> 0 <= amt < 2 ^ 64 -> 0 <= mn < 2 ^ 64 ->
  0 <= price < 2 ^ 64 ->
  exists keys a tx0, Forall2 (fun k x => b58decode k = Ret x) static keys /\ b58decode alt = Ret a /\
    patch tmpl dir amt mn bh price buy = Ret tx0 /\
    let tx := sign_v0 sign tx0 buy in
    let ixs := [Ix 2 [] (2 :: le_enc 4 CU_LIMIT); Ix 2 [] (3 :: le_enc 8 price);
                Ix 1 (idx_of buy) (DISC ++ [dir] ++ le_enc 8 amt ++ le_enc 8 mn)] in
    parse_any tx 0 = Ok (Frame "v0" 1 11 3 keys ixs (blen tx) true None) /\
    tx = enc_legacy (Wire [sign (drop 65 tx)] 0 10 keys bh ixs) (Some [(a, wr, ro)]).
Proof. exact (template_shot buy static alt wr_ix ro_ix tmpl sign dir amt mn bh price). Qed.

(** * The accounts the program sees *)

Lemma pos_from_lookup have i m a j :
  0 <= i -> pos_from i have m !! a = Some j ->
  (i <= j /\ have !! Z.to_nat (j - i) = Some a) \/ m !! a = Some j.
Proof.
  revert i m. induction have as [|x have IH]; intros i m Hi; cbn [pos_from]; [by right|].
  intros H. apply IH in H as [[Hj H]|H]; [| |lia].
  - left. split; [lia|]. replace (Z.to_nat (j - i)) with (S (Z.to_nat (j - (i + 1)))) by lia. exact H.
  - destruct (decide (a = x)) as [->|Hne].
    + rewrite lookup_insert_eq in H. injection H as <-. left. split; [lia|]. by rewrite Z.sub_diag.
    + rewrite lookup_insert_ne in H by done. by right.
Qed.

Lemma place_pick have keys ix :
  place (pos_of have) keys = Ret ix -> pick have ix = Ret keys /\ is_bytes ix.
Proof.
  revert ix. induction keys as [|a keys IH]; intros ix; cbn [place]; [intros [= <-]; by split; [|constructor]|].
  destruct (pos_of have !! a) as [i|] eqn:Ha; [|done]. intros H. if_in H; [done|].
  apply negb_false_iff in E. zb. apply py_bind_Ret in H as (r & Hr & [= <-]).
  destruct (IH r Hr) as [Hp Hb]. unfold pos_of in Ha. apply pos_from_lookup in Ha as [[Hi Ha]|Ha]; [|by rewrite lookup_empty in Ha|done].
  rewrite Z.sub_0_r in Ha. cbn [pick]. rewrite Ha, Hp. split; [done|]. constructor; [split; lia|done].
Qed.

Lemma lookup_prepared_spec plane wr ro alt wi ri :
  lookup_prepared plane wr ro = Ret (alt, wi, ri) ->
  exists have, AltRow alt have ∈ plane /\ pick have wi = Ret wr /\ pick have ri = Ret ro /\
    is_bytes wi /\ is_bytes ri.
Proof.
  induction plane as [|t plane IH]; cbn [lookup_prepared]; [done|].
  destruct (existsb _ _); intros H.
  - destruct (IH H) as (have & Hin & ?). exists have. split; [by right|done].
  - apply py_bind_Ret in H as (w & Hw & H). apply py_bind_Ret in H as (r & Hr & [= <- <- <-]).
    apply place_pick in Hw as [? ?]. apply place_pick in Hr as [? ?].
    destruct t. eexists. split; [by left|done].
Qed.

(** Every address of a table has a place below its length. *)
Lemma pos_of_total have a : a ∈ have -> exists i, pos_of have !! a = Some i /\ 0 <= i < Z.of_nat (length have).
Proof.
  assert (H : forall have i m, 0 <= i -> a ∈ have \/ is_Some (m !! a) ->
    is_Some (pos_from i have m !! a)).
  { clear. induction have as [|x have IH]; intros i m Hi Ha; cbn [pos_from].
    - destruct Ha as [Ha|?]; [by apply elem_of_nil in Ha|done].
    - apply IH; [lia|]. destruct (decide (a = x)) as [->|Hne]; [right; rewrite lookup_insert_eq; eauto|].
      rewrite lookup_insert_ne by done. destruct Ha as [Ha|?]; [|by right]. left. by apply elem_of_cons in Ha as [?|?]. }
  intros Ha. destruct (H have 0 ∅ ltac:(lia) (or_introl Ha)) as [j Hj]. exists j. split; [exact Hj|].
  apply pos_from_lookup in Hj as [[Hi Hj]|Hj]; [|by rewrite lookup_empty in Hj|lia].
  apply lookup_lt_Some in Hj. lia.
Qed.

Lemma place_total have keys :
  Z.of_nat (length have) <= 256 -> keys ⊆ have ->
  exists ix, place (pos_of have) keys = Ret ix /\ length ix = length keys.
Proof.
  intros Hl. induction keys as [|a keys IH]; intros Hs; cbn [place]; [by exists []|].
  destruct (pos_of_total have a) as (i & -> & Hi); [apply Hs; by left|].
  rewrite (proj2 (Z.leb_le _ _)), (proj2 (Z.ltb_lt _ _)) by lia. cbn [andb negb].
  destruct IH as (ix & -> & Hx); [intros x Hx; apply Hs; by right|]. exists (i :: ix). cbn. by rewrite Hx.
Qed.

Lemma existsb_covered have (need : list string) :
  existsb (fun a => bool_decide (pos_of have !! a = None)) need = false <-> need ⊆ have.
Proof.
  split.
  - intros H x Hx. destruct (decide (x ∈ have)) as [|Hn]; [done|]. exfalso.
    assert (Ht : existsb (fun a => bool_decide (pos_of have !! a = None)) need = true); [|congruence].
    apply existsb_exists. exists x. split; [by apply list_elem_of_In|]. apply bool_decide_eq_true.
    destruct (pos_of have !! x) as [i|] eqn:E; [|done]. exfalso. apply Hn. unfold pos_of in E.
    apply pos_from_lookup in E as [[_ E]|E]; [by apply list_elem_of_lookup_2 in E|by rewrite lookup_empty in E|lia].
  - intros Hs. apply not_true_iff_false. intros H. apply existsb_exists in H as (x & Hx & E).
    apply list_elem_of_In in Hx. destruct (pos_of_total have x (Hs x Hx)) as (i & Hi & _).
    apply bool_decide_eq_true in E. congruence.
Qed.

(** A table that holds a route's addresses is enough: some table is chosen, with an index for each
    address. *)
Lemma lookup_prepared_total plane wr ro :
  Forall (fun t => Z.of_nat (length (t_addresses t)) <= 256) plane ->
  Exists (fun t => wr ++ ro ⊆ t_addresses t) plane ->
  exists alt wi ri, lookup_prepared plane wr ro = Ret (alt, wi, ri) /\
    length wi = length wr /\ length ri = length ro.
Proof.
  induction plane as [|t plane IH]; intros Hl He; [by apply Exists_nil in He|]. cbn [lookup_prepared].
  apply Forall_cons in Hl as [Ht Hl].
  destruct (existsb _ _) eqn:E.
  - apply IH; [done|]. apply Exists_cons in He as [He|?]; [|done].
    apply existsb_covered in He. congruence.
  - apply existsb_covered in E.
    destruct (place_total (t_addresses t) wr Ht) as (wi & -> & Hw); [intros x Hx; apply E, elem_of_app; by left|].
    destruct (place_total (t_addresses t) ro Ht) as (ri & -> & Hr); [intros x Hx; apply E, elem_of_app; by right|].
    cbn [py_bind]. by exists (t_pubkey t), wi, ri.
Qed.

(** The executor's own accounts, by the names of EXEC-001; the place of the Pump global volume
    account holds the pool-v2 account. *)
Definition exec_accounts (wallet : string) (a : accs) : list string :=
  let p := a_pump a in
  [wallet; a_user_quote a; a_user_base a; TOKENKEG; SYSTEM; ATA_PROG; MEMO; DLMM; a_event_dlmm a;
   pair_or (a_pair_dlmm a) PAIR_DLMM; DLMM; a_vault_x a; a_vault_y a; a_oracle a; DLMM; a_mint_x a;
   a_mint_y a; a_bin0 a; a_bin1 a; PUMP; pa_event p; pair_or (a_pair_pump a) PAIR_PUMP; pa_global p;
   a_fee_cfg a; FEE_PROG; a_mint_x a; a_mint_y a; a_vault_b a; a_vault_q a; pa_proto_fee p;
   pa_proto_fee_ata p; pa_creator_ata p; pa_creator_auth p; a_pool_v2 a; a_uvol a].

(** The metas of the Pump instruction: sell, and buy_exact_quote_in with the volume accounts. *)
Definition pump_accounts (wallet : string) (a : accs) (volumes : list string) : list string :=
  let p := a_pump a in
  [pair_or (a_pair_pump a) PAIR_PUMP; wallet; pa_global p; a_mint_x a; a_mint_y a; a_user_base a;
   a_user_quote a; a_vault_b a; a_vault_q a; pa_proto_fee p; pa_proto_fee_ata p; TOKEN2022; TOKENKEG;
   SYSTEM; ATA_PROG; pa_event p; PUMP; pa_creator_ata p; pa_creator_auth p] ++ volumes ++
  [a_fee_cfg a; FEE_PROG; a_pool_v2 a; a_fee_recipient a; a_fee_rec_quote a].

(** The accounts a covered route resolves to. *)
Lemma accounts_resolve wallet our_exec a gvol plane (buy : bool) static wr ro alt wi ri :
  v0_parts wallet our_exec a = (static, wr, ro) ->
  let wr' := if buy then wr ++ [gvol] else wr in
  lookup_prepared plane wr' ro = Ret (alt, wi, ri) ->
  exists have lw lr, AltRow alt have ∈ plane /\ pick have wi = Ret lw /\ pick have ri = Ret lr /\
    pick (static ++ lw ++ lr) (idx_of buy) =
      Ret (exec_accounts wallet a ++ [TOKEN2022] ++
           pump_accounts wallet a (if buy then [gvol; a_uvol a] else [])) /\
    (buy = false -> logical35 (loaded_keys static lw lr) = Ret (exec_accounts wallet a)).
Proof.
  intros [= <- <- <-] wr' H. apply lookup_prepared_spec in H as (have & Hin & Hw & Hr & _).
  exists have, wr'. eexists. split; [exact Hin|]. split; [exact Hw|]. split; [exact Hr|].
  unfold wr'. destruct buy; (split; [reflexivity|]); [done|reflexivity].
Qed.

(** C21. The program gets the right accounts: when a lookup table of the plane covers a route, the
    account list of the third instruction, resolved over the static keys and the table entries the
    template names, is the executor's 35 accounts, Token-2022, and the Pump metas in the order of
    its instruction, for a sale as for a purchase, where the writable list ends with the global
    volume account; in the sell list the first 35 are logical35. *)
Theorem template_accounts wallet our_exec a gvol plane (buy : bool) static wr ro alt wi ri :
  v0_parts wallet our_exec a = (static, wr, ro) ->
  let wr' := if buy then wr ++ [gvol] else wr in
  lookup_prepared plane wr' ro = Ret (alt, wi, ri) ->
  exists have lw lr, AltRow alt have ∈ plane /\ pick have wi = Ret lw /\ pick have ri = Ret lr /\
    pick (static ++ lw ++ lr) (idx_of buy) =
      Ret (exec_accounts wallet a ++ [TOKEN2022] ++
           pump_accounts wallet a (if buy then [gvol; a_uvol a] else [])) /\
    (buy = false -> logical35 (loaded_keys static lw lr) = Ret (exec_accounts wallet a)).
Proof. exact (accounts_resolve wallet our_exec a gvol plane buy static wr ro alt wi ri). Qed.

(** The name that inspect_logical prints for the 34th account is not the account's. *)
Lemma name_of_pool_v2 wallet a :
  NAMES !! 33%nat = Some "pump_global_vol"%string /\ exec_accounts wallet a !! 33%nat = Some (a_pool_v2 a).
Proof. done. Qed.

(** The base token program of the Pump leg is Token-2022 whatever program owns the mint. *)
Lemma base_tok_ignored wallet a volumes :
  pump_accounts wallet a volumes !! 11%nat = Some TOKEN2022 /\
  forall our_exec tok, v0_parts wallet our_exec a =
    v0_parts wallet our_exec (Accs (a_pair_dlmm a) (a_pair_pump a) (a_user_quote a) (a_user_base a)
      (a_vault_x a) (a_vault_y a) (a_oracle a) (a_bin0 a) (a_bin1 a) (a_vault_b a) (a_vault_q a) (a_uvol a)
      (a_event_dlmm a) (a_mint_x a) (a_mint_y a) (a_fee_cfg a) (a_pool_v2 a) (a_fee_rec_quote a)
      (a_fee_recipient a) tok (a_pump a)).
Proof. done. Qed.

(** * A route *)

Definition demo_accs : accs :=
  Accs None (Some "") "uq" "ub" "vx" "vy" "or" "b0" "b1" "vb" "vq" "uv" "ed" "mx" "my" "fc" "pv" "fq" "fr" "bt"
    (PumpAccs "pf" "pfa" "pe" "pg" "ca" "cu").

Definition demo_table : alt_row :=
  AltRow SYSTEM (["x"; "uq"; "ub"; "vx"; "vy"; "or"; "b0"; "b1"; "vb"; "vq"; "pfa"; "ca"; "uv"; "fq"; "gv";
    "ed"; "mx"; "my"; "pe"; "pg"; "fc"; "pf"; "cu"; "pv"; "fr"; PAIR_DLMM; PAIR_PUMP]%string).

Lemma demo_lookup :
  match lookup_prepared [AltRow "other" []; demo_table]
          ((v0_parts SYSTEM PUMP demo_accs).1.2 ++ ["gv"%string]) (v0_parts SYSTEM PUMP demo_accs).2 with
  | Ret (alt, wi, ri) => bool_decide (alt = SYSTEM) && (blen wi =? 16) && (blen ri =? 10)
  | Raise _ => false
  end = true.
Proof. vm_compute. reflexivity. Qed.

Lemma template_accounts_witness :
  exists have lw lr, AltRow SYSTEM have ∈ [AltRow "other" []; demo_table] /\
    pick ((v0_parts SYSTEM PUMP demo_accs).1.1 ++ lw ++ lr) IX_IDX_BUY =
      Ret (exec_accounts SYSTEM demo_accs ++ [TOKEN2022] ++ pump_accounts SYSTEM demo_accs ["gv"; "uv"]%string).
Proof.
  pose proof demo_lookup as Hd.
  destruct (lookup_prepared [AltRow "other" []; demo_table]
    ((v0_parts SYSTEM PUMP demo_accs).1.2 ++ ["gv"%string]) (v0_parts SYSTEM PUMP demo_accs).2)
    as [[[alt wi] ri]|e] eqn:E; [|discriminate Hd].
  apply andb_true_iff in Hd as [Hd _]. apply andb_true_iff in Hd as [Hd _]. apply bool_decide_eq_true in Hd. subst alt.
  destruct (template_accounts SYSTEM PUMP demo_accs "gv" _ true _ _ _ _ wi ri eq_refl E)
    as (have & lw & lr & Hin & _ & _ & Hp & _).
  exists have, lw, lr. split; [exact Hin|exact Hp].
Defined.

Definition demo_static : list string := (v0_parts SYSTEM PUMP demo_accs).1.1.

Lemma demo_compiles :
  match compile false demo_static SYSTEM None None with Ret t => blen t =? 623 | Raise _ => false end = true.
Proof. vm_compute. reflexivity. Qed.

Lemma shot_on_the_wire_witness :
  exists tmpl keys tx0, compile false demo_static SYSTEM None None = Ret tmpl /\
    patch tmpl 0 50000000 525000 (zeros 32) 800000 false = Ret tx0 /\
    let tx := sign_v0 (fun _ => replicate 64 7) tx0 false in
    parse_any tx 0 = Ok (Frame "v0" 1 11 3 keys
      [Ix 2 [] (2 :: le_enc 4 CU_LIMIT); Ix 2 [] (3 :: le_enc 8 800000);
       Ix 1 IX_IDX (DISC ++ [0] ++ le_enc 8 50000000 ++ le_enc 8 525000)] (blen tx) true None).
Proof.
  pose proof demo_compiles as Hd.
  destruct (compile false demo_static SYSTEM None None) as [tmpl|e] eqn:E; [|discriminate Hd].
  assert (Hb : forall l, bool_decide (is_bytes l) = true -> is_bytes l) by (intros l; apply bool_decide_eq_true).
  destruct (shot_on_the_wire false demo_static SYSTEM None None tmpl (fun _ => replicate 64 7) 0 50000000 525000
      (zeros 32) 800000 ltac:(apply Hb; vm_compute; reflexivity) ltac:(apply Hb; vm_compute; reflexivity)
      (fun _ => conj eq_refl (Hb (replicate 64 7) ltac:(vm_compute; reflexivity))) E
      (conj (blen_zeros 32) (is_bytes_zeros 32)) ltac:(lia) ltac:(lia) ltac:(lia) ltac:(lia))
    as (keys & a & tx0 & _ & _ & Hp & Hf & _).
  exists tmpl, keys, tx0. split; [reflexivity|]. split; [exact Hp|exact Hf].
Defined.
