(* ===== verification/Oneshot.v ===== *)
(** One funded shot: arb-exec/scripts/oneshot_live.py.

    The plane of ready templates, the loop over the lines of the audit as a state machine whose
    states are the armed flag, the cooldown file, what was handed to the racer and the verdict, and
    the shot itself, built from the template model (ExecTemplate) behind the send gates
    (ExecGates).  An event is one turn of the loop with all that the outside answers during it:
    the clock, the line, the READY file at its two tests, the resident blockhash, the racer and the
    RPC node.  Start-up checks, wallet and files are outside; so is resolve_pair, which no path of
    the race calls. *)
From stdpp Require Import base list strings gmap.
From Stdlib Require Import ZArith Lia Ascii.
From Stdlib Require String.
From S2P Require Import Prelude PyBytes Base58 TxExpect FrameV1 PyVal ExecGates ExecTemplate.
Open Scope Z_scope.
Open Scope py_scope.

Definition MIN_PROFIT : Z := HURDLE.
Definition MISSING_BLOCK : Z := 3.

(** * The universe *)

Record upool := UPool { u_proto : pyval; u_kind : pyval; u_token : pyval }.

Definition pool_at (pools : list upool) (idx : Z) : option upool :=
  if (0 <=? idx) && (idx <? Z.of_nat (length pools)) then pools !! Z.to_nat idx else None.

Definition proto_of (p : upool) : string := py_str (py_or (u_proto p) (py_or (u_kind p) (VStr ""))).

Definition partner (pools : list upool) (meta : upool) (want : string) : option upool :=
  let tok := u_token meta in
  if negb (truthy tok) then None else
  find (fun p => bool_decide (proto_of p = want) && bool_decide (u_token p = tok)) pools.

(** * The cooldown file *)

Record crow := CRow { c_missing : pyval; c_blocked : pyval }.
#[export] Instance crow_eq_dec : EqDecision crow.
Proof. solve_decision. Defined.
Notation coolfile := (list (string * crow)).

(** What the gates read of it. *)
Definition cool_flags (c : coolfile) : list (string * pyval) := prod_map id c_blocked <$> c.

Definition note_row (row : crow) : pyres crow :=
  n <-! py_int (py_or (c_missing row) (VInt 0)) ;;
  Ret (CRow (VInt (n + 1)) (if MISSING_BLOCK <=? n + 1 then VBool true else c_blocked row)).

Definition note_trigger_missing (pool : string) (c : coolfile) : pyres coolfile :=
  row <-! note_row (default (CRow (VInt 0) (VBool false)) (od_get c pool)) ;;
  Ret (od_set c pool row).

(** * The plane of ready templates *)

Record lroute := LRoute {
  l_dlmm : option string; l_pump : option string; l_RACE_READY : pyval; l_tmpl0 : pyval; l_tmpl1 : pyval }.

(** What ambiguous_pool_keys and index_plane read of it. *)
Definition to_route (r : lroute) : ExecGates.route :=
  ExecGates.Route (l_dlmm r) (l_pump r) (l_RACE_READY r) VNone VNone (l_tmpl0 r) (l_tmpl1 r).

Record lrow := LRow {
  lr_dlmm : string; lr_pump : string; lr_tmpl0 : bytes; lr_tmpl1 : bytes; lr_ready : Z; lr_ambiguous : Z }.

Definition key_field (name : string) (o : option string) : pyres string :=
  match o with Some k => Ret k | None => Raise (KeyError name) end.

Definition hex_field (v : pyval) : pyres bytes :=
  match v with
  | VStr s => match fromhex (chars s) with
              | Some b => Ret b
              | None => Raise (ValueError "non-hexadecimal number found")
              end
  | _ => Raise TypeError
  end.

Definition is_ready (r : lroute) : bool :=
  truthy (l_RACE_READY r) && truthy (l_tmpl0 r) && truthy (l_tmpl1 r).

Fixpoint load_rows (routes : list lroute) (by_key : gmap string lrow) : pyres (gmap string lrow) :=
  match routes with
  | [] => Ret by_key
  | r :: rs =>
      if negb (is_ready r) then load_rows rs by_key else
      dl <-! key_field "dlmm" (l_dlmm r) ;;
      pu <-! key_field "pump" (l_pump r) ;;
      t0 <-! hex_field (l_tmpl0 r) ;;
      t1 <-! hex_field (l_tmpl1 r) ;;
      let rec := LRow dl pu t0 t1 1 0 in
      load_rows rs (<[pu := rec]> (<[dl := rec]> by_key))
  end.

(** [ambiguous] is taken over the ready rows only. *)
Definition load_race_plane (srcs : list (list lroute)) : pyres (gmap string lrow) :=
  by_key <-! load_rows (concat srcs) ∅ ;;
  let ambiguous := ambiguous_pool_keys (to_route <$> filter (fun r => is_ready r = true) (concat srcs)) in
  Ret (map_imap (fun k r => Some (if decide (k ∈ ambiguous)
         then LRow (lr_dlmm r) (lr_pump r) (lr_tmpl0 r) (lr_tmpl1 r) 0 1 else r)) by_key).

(** The rows as the gates see them. *)
Definition gate_row_of (r : lrow) : prow :=
  PRow (Some (lr_dlmm r)) (Some (lr_pump r)) (lr_ready r) 0 0
    (VBool (negb (bool_decide (lr_tmpl0 r = [])))) (VBool (negb (bool_decide (lr_tmpl1 r = [])))) (lr_ambiguous r).
Definition gate_plane (plane : gmap string lrow) : gmap string prow := gate_row_of <$> plane.

(** * The shot *)

(** [direction is None] and [int(direction) not in (0, 1)] raise. *)
Definition shot_direction (v : pyval) : pyres Z :=
  match v with
  | VNone => Raise (RuntimeError "direction missing")
  | _ => d <-! py_int v ;;
         if bool_decide (d ∈ [0; 1]) then Ret d else Raise (RuntimeError "direction")
  end.

(** fire up to the signed transaction; the template is looked up under the row's own pool text. *)
Definition build (plane : gmap string lrow) (sign : bytes -> bytes) (rec : opp) (send_lamports : Z) (bh : bytes)
    : pyres bytes :=
  match plane !! pool_text rec with
  | None => Raise (AltPlaneMiss "no resident template")
  | Some row =>
      direction <-! shot_direction (o_direction rec) ;;
      let tmpl := if direction =? 1 then lr_tmpl1 row else lr_tmpl0 row in
      if bool_decide (tmpl = []) then Raise (AltPlaneMiss "dir template missing") else
      if negb (blen bh =? 32) then Raise (RuntimeError "no resident blockhash") else
      let buy := direction =? 1 in
      tx <-! patch tmpl direction send_lamports MIN_PROFIT bh CU_PRICE buy ;;
      Ret (sign_v0 sign tx buy)
  end.

(** racer_send takes it. *)
Definition racer_len (tx : bytes) : bool := negb ((blen tx <? 64) || (1232 <? blen tx)).

(** * Verdicts *)

Inductive tx_err := NoErr | Custom6 | OtherErr.
Record sig_status := SigStatus { ss_err : tx_err; ss_confirmed : bool }.

(** [why] after the shot: the racer's return code and the status, if one was seen. *)
Definition why_of (rc : Z) (status : option sig_status) : string :=
  if negb (rc =? 0) then "never_lands_swqos_fail" else
  match status with
  | None => "never_lands"
  | Some st =>
      match ss_err st with
      | Custom6 => "stale_custom6"
      | OtherErr => "program_error"
      | NoErr => if ss_confirmed st then "success" else "never_lands"
      end
  end.

Inductive outcome := Disappeared | LandedFailed | LandedSuccess.
#[export] Instance outcome_eq_dec : EqDecision outcome.
Proof. solve_decision. Defined.

(** A signature of the pair's history: which, slot, failed. *)
Record hist_row := HistRow { h_sig : string; h_slot : option Z; h_failed : bool }.

(** [slot or None]: zero counts as missing. *)
Definition slot_or (o : option Z) : option Z :=
  match o with Some z => if z =? 0 then None else Some z | None => None end.

(** The transactions of others between the trigger and ours. *)
Definition competitors (n_sig ours : option string) (n_slot o_slot : option Z) (dlmm : string)
    (hist : list hist_row) : list hist_row :=
  match slot_or n_slot with
  | None => []
  | Some ns =>
      if bool_decide (dlmm = ""%string) then [] else
      filter (fun h => negb (bool_decide (Some (h_sig h) = n_sig)) && negb (bool_decide (Some (h_sig h) = ours)) &&
                match h_slot h with
                | None => false
                | Some sl => (ns <=? sl) && (sl <=? default sl (slot_or o_slot))
                end = true) hist
  end.

Definition upper (s : string) : string :=
  text ((fun c => if (97 <=? code c) && (code c <=? 122)
                  then ascii_of_nat (nat_of_ascii c - 32) else c) <$> chars s).

Definition classify_race (why : string) (n_outcome : option outcome) (others : list hist_row) : string :=
  if bool_decide (why = "success"%string) then "WIN" else
  if bool_decide (why ∈ ["never_lands"; "never_lands_swqos_fail"]%string) then "OURS_NEVER_LANDS" else
  if bool_decide (why ∈ ["stale_custom6"; "TRIGGER_MISSING"]%string) then
    if existsb (fun h => negb (h_failed h)) others then "LOST_RACE"
    else if bool_decide (n_outcome = Some LandedSuccess) && bool_decide (others = []) then "CUSTOM6_NO_COMPETITOR"
    else if bool_decide (n_outcome = Some Disappeared) then "TRIGGER_MISSING"
    else "CUSTOM6"
  else upper why.

(** * The loop *)

(** The integers send_journal takes of a row, besides the gates' cap_gross. *)
Record line := Line {
  ln_opp : opp; ln_amount_in : pyval; ln_gross : pyval; ln_final : pyval; ln_cap_final : pyval }.

Record journal := Journal {
  jr_amount : Z; jr_gross : Z; jr_final : Z; jr_cap_final : Z; jr_cap_gross : Z; jr_send : bool }.

Definition int_or0 (v : pyval) : pyres Z := py_int (py_or v (VInt 0)).

Definition send_journal (l : line) (gate : option (Z * Z)) : pyres journal :=
  amount <-! int_or0 (ln_amount_in l) ;;
  gross <-! int_or0 (ln_gross l) ;;
  final <-! int_or0 (ln_final l) ;;
  cap_final <-! int_or0 (ln_cap_final l) ;;
  cap_gross <-! int_or0 (o_cap_gross (ln_opp l)) ;;
  Ret (Journal amount gross final cap_final cap_gross (match gate with Some _ => true | None => false end)).

(** The trigger's fate: no signature in the row, a call that raised, or an answer. *)
Inductive trigger := NoTrigger | TriggerFail | TriggerIs (o : outcome).

(** What wakes the loop: a line or the follower's pause, the deadline, or the keyboard. *)
Inductive wake := Woken | Deadline | Interrupt.

(** [ev_reply]: None when the racer, the status poll or the timing fields of the row raised. *)
Record event := Event {
  ev_wake : wake; ev_line : option line; ev_ready_framed : bool; ev_ready_size : bool;
  ev_bh : bytes; ev_reply : option (Z * option sig_status); ev_trigger : trigger }.

Inductive ending := Returned (code : Z) | Crashed (e : pyexn).

Record live := Live {
  armed : bool; disarmed : option string; cool : coolfile; sent : list bytes; seen : Z; ended : option ending }.

Definition live0 (c : coolfile) : live := Live true None c [] 0 None.

Definition disarm (why : string) (code : Z) (s : live) : live :=
  Live false (Some why) (cool s) (sent s) (seen s) (Some (Returned code)).
Definition crash (e : pyexn) (s : live) : live :=
  Live (armed s) (disarmed s) (cool s) (sent s) (seen s) (Some (Crashed e)).
Definition set_armed (b : bool) (s : live) : live :=
  Live b (disarmed s) (cool s) (sent s) (seen s) (ended s).
Definition set_cool (c : coolfile) (s : live) : live :=
  Live (armed s) (disarmed s) c (sent s) (seen s) (ended s).
Definition add_sent (tx : bytes) (s : live) : live :=
  Live (armed s) (disarmed s) (cool s) (sent s ++ [tx]) (seen s) (ended s).
Definition add_seen (s : live) : live :=
  Live (armed s) (disarmed s) (cool s) (sent s) (seen s + 1) (ended s).

Section oneshot.
Context (plane : gmap string lrow) (sign : bytes -> bytes).

(** After the racer answered: the verdict, the trigger, the cooldown. *)
Definition settle (rec : opp) (rc : Z) (status : option sig_status) (tr : trigger) (s : live) : live :=
  let why := why_of rc status in
  match tr with
  | NoTrigger => disarm why 0 s
  | TriggerFail => crash (RuntimeError "rpc") s
  | TriggerIs o =>
      if bool_decide (why = "stale_custom6"%string) && bool_decide (o = Disappeared) then
        match note_trigger_missing (pool_text rec) (cool s) with
        | Raise e => crash e s
        | Ret c => disarm "TRIGGER_MISSING" 0 (set_cool c s)
        end
      else disarm why 0 s
  end.

(** A shot the gates let through. *)
Definition shoot (rec : opp) (send : Z) (ev : event) (s : live) : live :=
  match build plane sign rec send (ev_bh ev) with
  | Raise (AltPlaneMiss _) => s
  | Raise _ => disarm "setup_or_send_fail" 1 s
  | Ret tx =>
      let s := set_armed false s in
      if negb (racer_len tx) then disarm "setup_or_send_fail" 1 s else
      let s := add_sent tx s in
      match ev_reply ev with
      | None => disarm "setup_or_send_fail" 1 s
      | Some (rc, status) => settle rec rc (if rc =? 0 then status else None) (ev_trigger ev) s
      end
  end.

Definition on_line (l : line) (ev : event) (s : live) : live :=
  let rec := ln_opp l in
  if negb (framed_ready rec (gate_plane plane) (ev_ready_framed ev)) then s else
  let s := add_seen s in
  match size_gate rec (gate_plane plane) (ev_ready_size ev) (cool_flags (cool s)) with
  | Raise e => crash e s
  | Ret gate =>
      match send_journal l gate with
      | Raise e => crash e s
      | Ret _ => match gate with
                 | None => s
                 | Some (send, _) => shoot rec send ev s
                 end
      end
  end.

(** One turn of the loop; a run that ended stays ended. *)
Definition turn (s : live) (ev : event) : live :=
  match ended s with
  | Some _ => s
  | None =>
      match ev_wake ev with
      | Interrupt => disarm "interrupted" 1 s
      | Deadline => disarm "timeout" 0 s
      | Woken => match ev_line ev with
                 | None => s
                 | Some l => on_line l ev s
                 end
      end
  end.

Definition run (s : live) (evs : list event) : live := foldl turn s evs.
End oneshot.

(** * What the gates see of the plane *)

Lemma load_rows_keys routes m plane k row :
  load_rows routes m = Ret plane -> plane !! k = Some row ->
  m !! k = Some row \/
  exists r, r ∈ routes /\ is_ready r = true /\ l_dlmm r = Some (lr_dlmm row) /\ l_pump r = Some (lr_pump row) /\
    (k = lr_dlmm row \/ k = lr_pump row) /\ hex_field (l_tmpl0 r) = Ret (lr_tmpl0 row) /\
    hex_field (l_tmpl1 r) = Ret (lr_tmpl1 row) /\ lr_ready row = 1 /\ lr_ambiguous row = 0.
Proof.
  revert m. induction routes as [|r routes IH]; intros m; cbn [load_rows]; [intros [= ->]; by left|].
  intros H Hk. destruct (is_ready r) eqn:Hr; cbn [negb] in H.
  2: { destruct (IH _ H Hk) as [?|(x & ? & ?)]; [by left|]. right. exists x. split; [by right|done]. }
  apply py_bind_Ret in H as (dl & Hdl & H). apply py_bind_Ret in H as (pu & Hpu & H).
  apply py_bind_Ret in H as (t0 & Ht0 & H). apply py_bind_Ret in H as (t1 & Ht1 & H).
  assert (Hfield : forall n o x, key_field n o = Ret x -> o = Some x) by (intros n [y|] x; cbn; congruence).
  destruct (IH _ H Hk) as [Hm|(x & ? & ?)]; [|right; exists x; split; [by right|done]].
  destruct (decide (k = pu)) as [->|Hp].
  - rewrite lookup_insert_eq in Hm. injection Hm as <-. right. exists r. cbn.
    split; [by left|]. split; [done|]. split; [by eapply Hfield|]. split; [by eapply Hfield|]. by repeat (split; [by auto|]).
  - rewrite lookup_insert_ne in Hm by done. destruct (decide (k = dl)) as [->|Hd].
    + rewrite lookup_insert_eq in Hm. injection Hm as <-. right. exists r. cbn.
      split; [by left|]. split; [done|]. split; [by eapply Hfield|]. split; [by eapply Hfield|]. by repeat (split; [by auto|]).
    + rewrite lookup_insert_ne in Hm by done. by left.
Qed.

(** The ready rows the loader kept, as the gates' routes. *)
Definition ready_routes (srcs : list (list lroute)) : list ExecGates.route :=
  to_route <$> filter (fun r => is_ready r = true) (concat srcs).

(** A row of the plane is a ready row of a file, of its key's pair; it is itself ready exactly
    when no other ready row has the key for another pair. *)
Lemma load_race_plane_row srcs plane k row :
  load_race_plane srcs = Ret plane -> plane !! k = Some row ->
  exists r, r ∈ concat srcs /\ is_ready r = true /\ l_dlmm r = Some (lr_dlmm row) /\ l_pump r = Some (lr_pump row) /\
    (k = lr_dlmm row \/ k = lr_pump row) /\ hex_field (l_tmpl0 r) = Ret (lr_tmpl0 row) /\
    hex_field (l_tmpl1 r) = Ret (lr_tmpl1 row) /\
    (lr_ready row = 1 <-> ~ clash (ready_routes srcs) k).
Proof.
  unfold load_race_plane. intros H Hk. apply py_bind_Ret in H as (by_key & Hb & [= <-]).
  rewrite map_lookup_imap in Hk. destruct (by_key !! k) as [row0|] eqn:E; [|done]. cbn [mbind option_bind] in Hk.
  destruct (load_rows_keys _ _ _ _ _ Hb E) as [He|(r & Hr & Hrd & Hd & Hp & Hkey & H0 & H1 & Hone & _)];
    [by rewrite lookup_empty in He|].
  exists r. pose proof (ambiguous_spec (ready_routes srcs) k) as Ha. fold (ready_routes srcs) in Hk.
  case_decide as Hc; injection Hk as <-; cbn [lr_dlmm lr_pump lr_tmpl0 lr_tmpl1 lr_ready];
    do 7 (split; [done|]); rewrite <- Ha; [split; [done|intros Hn; by destruct Hn]|by rewrite Hone].
Qed.

(** * At most one shot *)

Section invariant.
Context (plane : gmap string lrow) (sign : bytes -> bytes) (c : coolfile).

(** What the sent transaction is: the gates passed on the row, and the template was filled in. *)
Definition shot_of (ev : event) (tx : bytes) : Prop :=
  exists l gross, ev_wake ev = Woken /\ ev_line ev = Some l /\
    size_gate (ln_opp l) (gate_plane plane) (ev_ready_size ev) (cool_flags c) = Ret (Some (MAX_IN, gross)) /\
    build plane sign (ln_opp l) MAX_IN (ev_bh ev) = Ret tx /\ racer_len tx = true.

(** A run that goes on has sent nothing, is armed and left the cooldown file alone. *)
Definition waiting (s : live) : Prop := sent s = [] /\ armed s = true /\ cool s = c.

Record shot_inv (evs : list event) (s : live) : Prop := {
  si_wait : ended s = None -> waiting s;
  si_one : sent s = [] \/ exists tx ev, sent s = [tx] /\ armed s = false /\ ev ∈ evs /\ shot_of ev tx }.

Lemma settle_keeps rec rc st tr s :
  sent (settle rec rc st tr s) = sent s /\ (armed s = false -> armed (settle rec rc st tr s) = false) /\
  ended (settle rec rc st tr s) <> None.
Proof.
  unfold settle. destruct tr as [| |o]; [done..|]. destruct (_ && _); [|done].
  by destruct (note_trigger_missing _ _).
Qed.

Lemma shoot_inv rec gross ev l s evs :
  waiting s -> ended s = None -> ev ∈ evs -> ev_wake ev = Woken -> ev_line ev = Some l -> rec = ln_opp l ->
  size_gate rec (gate_plane plane) (ev_ready_size ev) (cool_flags c) = Ret (Some (MAX_IN, gross)) ->
  shot_inv evs (shoot plane sign rec MAX_IN ev s).
Proof.
  intros Hw He Hin Hwk Hl -> Hg. pose proof Hw as (Hs & Ha & Hc). unfold shoot.
  destruct (build plane sign (ln_opp l) MAX_IN (ev_bh ev)) as [tx|e] eqn:Hb.
  2: { assert (Hd : shot_inv evs (disarm "setup_or_send_fail" 1 s)) by (constructor; [done|by left]).
       assert (Hk : shot_inv evs s) by (constructor; [done|by left]). by destruct e. }
  destruct (racer_len tx) eqn:Hr; cbn [negb]; [|by constructor; [|left]].
  assert (Hof : shot_of ev tx) by (exists l, gross; done).
  assert (Hone : forall s', sent s' = sent (add_sent tx (set_armed false s)) -> armed s' = false ->
                   ended s' <> None -> shot_inv evs s').
  { intros s' H1 H2 H3. constructor; [done|]. right. exists tx, ev. rewrite H1. cbn. by rewrite Hs. }
  destruct (ev_reply ev) as [[rc st]|]; [|by apply Hone].
  destruct (settle_keeps (ln_opp l) rc (if rc =? 0 then st else None) (ev_trigger ev) (add_sent tx (set_armed false s)))
    as (H1 & H2 & H3). apply Hone; [done|by apply H2|done].
Qed.

Lemma turn_inv evs s ev : shot_inv evs s -> shot_inv (evs ++ [ev]) (turn plane sign s ev).
Proof.
  intros [Hw Ho].
  assert (Hmono : sent s = [] \/ (exists tx ev', sent s = [tx] /\ armed s = false /\ ev' ∈ evs ++ [ev] /\ shot_of ev' tx)).
  { destruct Ho as [?|(tx & e & ? & ? & ? & ?)]; [by left|]. right. exists tx, e.
    do 2 (split; [done|]). split; [apply elem_of_app; by left|done]. }
  unfold turn. destruct (ended s) eqn:He; [constructor; [by rewrite He|done]|]. specialize (Hw eq_refl). pose proof Hw as (Hs & Ha & Hc).
  assert (Hend : forall s', sent s' = [] -> (ended s' = None -> waiting s') -> shot_inv (evs ++ [ev]) s')
    by (intros; constructor; [done|by left]).
  destruct (ev_wake ev) eqn:Hwk; [|by apply Hend..]. destruct (ev_line ev) as [l|] eqn:Hl; [|by apply Hend].
  unfold on_line. destruct (framed_ready _ _ _); cbn [negb]; [|by apply Hend].
  change (cool (add_seen s)) with (cool s). rewrite Hc.
  destruct (size_gate _ _ _ _) as [gate|e] eqn:Hg; [|by apply Hend].
  destruct (send_journal l gate) as [j|e]; [|by apply Hend].
  destruct gate as [[amt gross]|]; [|by apply Hend].
  assert (amt = MAX_IN) as -> by (apply size_gate_spec in Hg; tauto).
  apply (shoot_inv _ gross ev l); try done; apply elem_of_app; right; by left.
Qed.

Lemma run_inv evs : shot_inv evs (run plane sign (live0 c) evs).
Proof.
  induction evs as [|ev evs IH] using rev_ind; [constructor; [done|by left]|].
  unfold run in *. rewrite foldl_app. cbn [foldl]. by apply turn_inv.
Qed.
End invariant.

(** C19. A funded run shoots at most once, and only through the gates: after any lines, clocks,
    blockhashes, racer and RPC answers, a run that goes on has sent nothing, is still armed and
    has not touched the cooldown file; otherwise it sent nothing, or it is over and unarmed and
    sent the one transaction built for a row that had passed the size gate, at the frozen amount,
    while the file was as it started. *)
Theorem one_shot plane sign c evs :
  let s := run plane sign (live0 c) evs in
  (ended s = None -> sent s = [] /\ armed s = true /\ cool s = c) /\
  (sent s = [] \/
   exists tx ev l gross, sent s = [tx] /\ armed s = false /\ ended s <> None /\ ev ∈ evs /\ ev_line ev = Some l /\
     size_gate (ln_opp l) (gate_plane plane) (ev_ready_size ev) (cool_flags c) = Ret (Some (MAX_IN, gross)) /\
     build plane sign (ln_opp l) MAX_IN (ev_bh ev) = Ret tx).
Proof.
  cbv zeta. destruct (run_inv plane sign c evs) as [Hw Ho]. split; [exact Hw|].
  destruct Ho as [?|(tx & ev & Hs & Ha & Hin & l & gross & _ & Hl & Hg & Hb & _)]; [by left|].
  right. exists tx, ev, l, gross. do 2 (split; [done|]). split; [|done].
  intros He. destruct (Hw He) as (_ & Ha' & _). congruence.
Qed.

(** * What the shot is *)

Definition tmpl_of (buy : bool) (row : lrow) : bytes := if buy then lr_tmpl1 row else lr_tmpl0 row.

(** Every template of the plane came out of the compiler, as alt_plane.py publishes them. *)
Definition compiled_plane (plane : gmap string lrow) : Prop :=
  forall k row (buy : bool), plane !! k = Some row ->
    exists static alt wi ri, compile buy static alt wi ri = Ret (tmpl_of buy row) /\
      is_bytes (bytes_or wi (if buy then ALT_WR_IX_BUY else ALT_WR_IX)) /\
      is_bytes (bytes_or ri (if buy then ALT_RO_IX_BUY else ALT_RO_IX)).

Lemma build_spec plane sign rec send bh tx :
  build plane sign rec send bh = Ret tx ->
  exists row d tx0, plane !! pool_text rec = Some row /\ py_int (o_direction rec) = Ret d /\ (d = 0 \/ d = 1) /\
    blen bh = 32 /\ patch (tmpl_of (d =? 1) row) d send MIN_PROFIT bh CU_PRICE (d =? 1) = Ret tx0 /\
    tx = sign_v0 sign tx0 (d =? 1).
Proof.
  unfold build. destruct (plane !! pool_text rec) as [row|]; [|done]. intros H.
  apply py_bind_Ret in H as (d & Hd & H). if_in H; [done|]. if_in H; [done|]. zb.
  apply py_bind_Ret in H as (tx0 & Hp & [= <-]). exists row, d, tx0. split; [done|].
  assert (Hdd : py_int (o_direction rec) = Ret d /\ (d = 0 \/ d = 1)).
  { unfold shot_direction in Hd. destruct (o_direction rec) eqn:Eo; [done|..].
    all: apply py_bind_Ret in Hd as (d' & Hd' & Hd); case_bool_decide as Hin; [|done]; injection Hd as ->.
    all: split; [done|]; rewrite !elem_of_cons, elem_of_nil in Hin; tauto. }
  destruct Hdd. do 2 (split; [done|]). split; [lia|done].
Qed.

(** A built transaction frames as the shot of its row, whatever compiled the row's template. *)
Lemma build_frames plane sign rec bh tx :
  (forall m, blen (sign m) = 64 /\ is_bytes (sign m)) -> is_bytes bh ->
  build plane sign rec MAX_IN bh = Ret tx ->
  exists row d, plane !! pool_text rec = Some row /\ py_int (o_direction rec) = Ret d /\ (d = 0 \/ d = 1) /\
    let ixs := [Ix 2 [] (2 :: le_enc 4 400000); Ix 2 [] (3 :: le_enc 8 800000);
                Ix 1 (idx_of (d =? 1)) (DISC ++ [d] ++ le_enc 8 50000000 ++ le_enc 8 525000)] in
    forall static alt wi ri,
      is_bytes (bytes_or wi (if d =? 1 then ALT_WR_IX_BUY else ALT_WR_IX)) ->
      is_bytes (bytes_or ri (if d =? 1 then ALT_RO_IX_BUY else ALT_RO_IX)) ->
      compile (d =? 1) static alt wi ri = Ret (tmpl_of (d =? 1) row) ->
      exists keys a, Forall2 (fun k x => b58decode k = Ret x) static keys /\ b58decode alt = Ret a /\
        parse_any tx 0 = Ok (Frame "v0" 1 11 3 keys ixs (blen tx) true None) /\
        tx = enc_legacy (Wire [sign (drop 65 tx)] 0 10 keys bh ixs)
          (Some [(a, bytes_or wi (if d =? 1 then ALT_WR_IX_BUY else ALT_WR_IX),
                  bytes_or ri (if d =? 1 then ALT_RO_IX_BUY else ALT_RO_IX))]).
Proof.
  intros Hsign Hbh Hb. apply build_spec in Hb as (row & d & tx0 & Hrow & Hd & Hdd & Hlen & Hp & ->).
  exists row, d. do 3 (split; [done|]). cbv zeta. intros static alt wi ri Hbw Hbr Hc.
  destruct (template_shot (d =? 1) static alt wi ri _ sign d MAX_IN MIN_PROFIT bh CU_PRICE Hbw Hbr Hsign Hc
    (conj Hlen Hbh)) as (keys & a & tx1 & Hk & Ha & Hp' & Hf & He); [by destruct Hdd as [-> | ->]|done..|].
  rewrite Hp in Hp'. injection Hp' as <-. exists keys, a. do 2 (split; [done|]). split; [exact Hf|exact He].
Qed.

(** C20. What the one shot is: with templates that compiled and a 64-byte signature, a sent
    transaction is a single signed v0 transaction on the blockhash of its moment, of exactly the
    compute limit 400000, the price 800000, and the executor's call with the row's direction, 0.05
    SOL in and a least profit of 525000 lamports, which the row's quoted gross exceeds. *)
Theorem sent_shot plane sign c evs tx :
  compiled_plane plane -> (forall m, blen (sign m) = 64 /\ is_bytes (sign m)) ->
  Forall (fun ev => is_bytes (ev_bh ev)) evs -> tx ∈ sent (run plane sign (live0 c) evs) ->
  exists ev l gross d keys a wr ro, ev ∈ evs /\ ev_line ev = Some l /\
    py_int (o_direction (ln_opp l)) = Ret d /\ (d = 0 \/ d = 1) /\
    py_int (py_or (o_cap_gross (ln_opp l)) (VInt 0)) = Ret gross /\ 525000 < gross /\
    let ixs := [Ix 2 [] (2 :: le_enc 4 400000); Ix 2 [] (3 :: le_enc 8 800000);
                Ix 1 (idx_of (d =? 1)) (DISC ++ [d] ++ le_enc 8 50000000 ++ le_enc 8 525000)] in
    parse_any tx 0 = Ok (Frame "v0" 1 11 3 keys ixs (blen tx) true None) /\
    tx = enc_legacy (Wire [sign (drop 65 tx)] 0 10 keys (ev_bh ev) ixs) (Some [(a, wr, ro)]).
Proof.
  intros Hcp Hsign Hbh Htx. destruct (run_inv plane sign c evs) as [_ [Hs|(tx' & ev & Hs & _ & Hin & Hof)]];
    rewrite Hs in Htx; [by apply elem_of_nil in Htx|apply list_elem_of_singleton in Htx as ->].
  destruct Hof as (l & gross & _ & Hl & Hg & Hb & _). apply size_gate_spec in Hg as (_ & _ & _ & _ & Hg & Hh & _).
  rewrite Forall_forall in Hbh. specialize (Hbh ev Hin). rewrite hurdle_is in Hh.
  destruct (build_frames _ _ _ _ _ Hsign Hbh Hb) as (row & d & Hrow & Hd & Hdd & Hfr).
  destruct (Hcp _ _ (d =? 1) Hrow) as (static & alt & wi & ri & Hc & Hbw & Hbr).
  destruct (Hfr static alt wi ri Hbw Hbr Hc) as (keys & a & _ & _ & Hf & He).
  do 4 eexists. exists keys, a. do 2 eexists. do 6 (split; [done|]). split; [exact Hf|exact He].
Qed.

(** * The cooldown *)

Fixpoint notes (n : nat) (pool : string) (c : coolfile) : pyres coolfile :=
  match n with
  | O => Ret c
  | S n' => c' <-! note_trigger_missing pool c ;; notes n' pool c'
  end.

(** The count the file holds, as note_trigger_missing writes it. *)
Definition count (row : crow) (k : Z) : Prop := c_missing row = VInt k /\ 0 <= k.

Lemma note_row_count row k :
  count row k -> exists row', note_row row = Ret row' /\ count row' (k + 1) /\
    c_blocked row' = if 3 <=? k + 1 then VBool true else c_blocked row.
Proof.
  intros [Hm Hk]. unfold note_row. rewrite Hm. unfold MISSING_BLOCK.
  assert (E : py_int (py_or (VInt k) (VInt 0)) = Ret k).
  { unfold py_or. cbn [truthy]. by destruct (Z.eqb_spec k 0) as [->|]. }
  rewrite E. cbn [py_bind]. eexists. split; [done|]. split; [|done]. split; [done|lia].
Qed.

Lemma blocked_flags c pool :
  blocked (cool_flags c) pool = match od_get c pool with Some row => truthy (c_blocked row) | None => false end.
Proof.
  unfold blocked, cool_flags. induction c as [|[k row] c IH]; [done|].
  rewrite fmap_cons. cbn [prod_map od_get fst snd id]. by case_decide.
Qed.

Lemma notes_spec n pool c k :
  match od_get c pool with Some row => count row k | None => k = 0 end ->
  exists c', notes n pool c = Ret c' /\ (forall p, p <> pool -> od_get c' p = od_get c p) /\
    ((0 < n)%nat -> exists row, od_get c' pool = Some row /\ count row (k + Z.of_nat n) /\
       (3 <= k + Z.of_nat n -> c_blocked row = VBool true)).
Proof.
  revert c k. induction n as [|n IH]; intros c k Hc; cbn [notes]; [exists c; repeat split; lia|].
  set (row0 := default (CRow (VInt 0) (VBool false)) (od_get c pool)).
  assert (H0 : count row0 k).
  { unfold row0. destruct (od_get c pool); [done|]. subst k. by split. }
  destruct (note_row_count row0 k H0) as (row1 & Hn & H1 & Hb).
  unfold note_trigger_missing. fold row0. rewrite Hn. cbn [py_bind].
  destruct (IH (od_set c pool row1) (k + 1)) as (c' & Hc' & Ho & Hl); [by rewrite od_get_set_eq|].
  exists c'. split; [done|]. split; [intros p Hp; by rewrite Ho, od_get_set_ne|]. intros _.
  destruct n as [|n].
  - cbn [notes] in Hc'. injection Hc' as <-. exists row1. rewrite od_get_set_eq. split; [done|].
    split; [exact H1|]. intros H3. rewrite Hb. by rewrite (proj2 (Z.leb_le _ _)) by lia.
  - destruct Hl as (row & Hr & Hcnt & Hbl); [lia|]. exists row. split; [done|].
    replace (k + Z.of_nat (S (S n))) with (k + 1 + Z.of_nat (S n)) by lia. done.
Qed.

(** Three missing triggers block the pool: whatever a run counted before, three notes on a
    pool succeed and leave the other pools' rows alone, and from then on, until the file is
    edited, no row that names the pool that way passes the size gate, so no later run shoots on
    it. *)
Theorem three_misses_block c pool k :
  match od_get c pool with Some row => count row k | None => k = 0 end ->
  exists c', notes 3 pool c = Ret c' /\ (forall p, p <> pool -> od_get c' p = od_get c p) /\
    forall plane sign evs, Forall (fun ev => forall l, ev_line ev = Some l -> pool_text (ln_opp l) = pool) evs ->
      sent (run plane sign (live0 c') evs) = [].
Proof.
  intros Hc. destruct (notes_spec 3 pool c k Hc) as (c' & Hn & Ho & Hl). exists c'. do 2 (split; [done|]).
  intros plane sign evs Hev. destruct Hl as (row & Hr & [_ Hk] & Hb); [lia|].
  destruct (run_inv plane sign c' evs) as [_ [?|(tx & ev & _ & _ & Hin & l & g & _ & Hln & Hg & _)]]; [done|].
  rewrite Forall_forall in Hev. specialize (Hev ev Hin l Hln). apply size_gate_spec in Hg as (_ & _ & Hrb & _).
  exfalso. rewrite Hev in Hrb. unfold route_blocked in Hrb. rewrite blocked_flags, Hr, Hb in Hrb; [done|].
  assert (0 <= k); [|lia]. destruct (od_get c pool) as [?|]; [by destruct Hc|lia].
Qed.

(** * Verdicts *)

Lemma competitors_spec n_sig ours n_slot o_slot dlmm hist h :
  h ∈ competitors n_sig ours n_slot o_slot dlmm hist <->
  h ∈ hist /\ dlmm <> ""%string /\ Some (h_sig h) <> n_sig /\ Some (h_sig h) <> ours /\
  exists ns sl, n_slot = Some ns /\ ns <> 0 /\ h_slot h = Some sl /\ ns <= sl /\
    (forall os, o_slot = Some os -> os <> 0 -> sl <= os).
Proof.
  unfold competitors. destruct n_slot as [ns|]; cbn [slot_or].
  2: { split; [intros H; by apply elem_of_nil in H|]. naive_solver. }
  destruct (Z.eqb_spec ns 0) as [->|Hns].
  { split; [intros H; by apply elem_of_nil in H|]. naive_solver. }
  case_bool_decide as Hd; [split; [intros H; by apply elem_of_nil in H|naive_solver]|].
  rewrite list_elem_of_filter, !andb_true_iff, !negb_true_iff, !bool_decide_eq_false.
  destruct (h_slot h) as [sl|]; [|naive_solver]. rewrite andb_true_iff, !Z.leb_le.
  assert (Hle : sl <= default sl (slot_or o_slot) <-> (forall os, o_slot = Some os -> os <> 0 -> sl <= os)).
  { destruct o_slot as [os|]; cbn [slot_or]; [destruct (Z.eqb_spec os 0) as [->|]|]; cbn [default];
      split; intros; naive_solver lia. }
  rewrite Hle. naive_solver.
Qed.

Lemma classify_failed why o others :
  why = "stale_custom6"%string \/ why = "TRIGGER_MISSING"%string ->
  classify_race why o others = "LOST_RACE"%string <-> existsb (fun h => negb (h_failed h)) others = true.
Proof.
  intros Hw. unfold classify_race. rewrite (bool_decide_eq_false_2 (why = "success"%string)) by naive_solver.
  rewrite bool_decide_eq_false_2 by (rewrite !elem_of_cons, elem_of_nil; naive_solver).
  rewrite bool_decide_eq_true_2 by (rewrite !elem_of_cons, elem_of_nil; naive_solver).
  destruct (existsb _ _); [done|]. split; [|done]. by repeat case_match.
Qed.

(** A lost race has a winner: a shot is filed as LOST_RACE exactly when it failed on the
    profit check or lost its trigger and another transaction of the pair, neither the trigger nor
    ours, succeeded from the trigger's slot on and not after our slot where that is known. *)
Theorem lost_race_winner rc status (missing : bool) o n_sig ours n_slot o_slot dlmm hist :
  let why := if missing then "TRIGGER_MISSING"%string else why_of rc status in
  classify_race why o (competitors n_sig ours n_slot o_slot dlmm hist) = "LOST_RACE"%string <->
  (missing = true \/ (rc = 0 /\ exists st, status = Some st /\ ss_err st = Custom6)) /\
  exists h ns sl, h ∈ hist /\ h_failed h = false /\ dlmm <> ""%string /\ Some (h_sig h) <> n_sig /\
    Some (h_sig h) <> ours /\ n_slot = Some ns /\ ns <> 0 /\ h_slot h = Some sl /\ ns <= sl /\
    (forall os, o_slot = Some os -> os <> 0 -> sl <= os).
Proof.
  cbv zeta. set (others := competitors n_sig ours n_slot o_slot dlmm hist).
  assert (Hx : existsb (fun h => negb (h_failed h)) others = true <->
    exists h ns sl, h ∈ hist /\ h_failed h = false /\ dlmm <> ""%string /\ Some (h_sig h) <> n_sig /\
    Some (h_sig h) <> ours /\ n_slot = Some ns /\ ns <> 0 /\ h_slot h = Some sl /\ ns <= sl /\
    (forall os, o_slot = Some os -> os <> 0 -> sl <= os)).
  { rewrite existsb_exists. split.
    - intros (h & Hin & Hf). apply list_elem_of_In, competitors_spec in Hin as (? & ? & ? & ? & ns & sl & ?).
      apply negb_true_iff in Hf. exists h, ns, sl. tauto.
    - intros (h & ns & sl & Hin & Hf & ? & ? & ? & Hr). exists h. rewrite Hf. split; [|done].
      apply list_elem_of_In, competitors_spec. do 4 (split; [done|]). by exists ns, sl. }
  rewrite <- Hx. clearbody others. clear Hx.
  destruct missing; [rewrite classify_failed by auto; tauto|].
  unfold why_of. destruct (Z.eqb_spec rc 0) as [->|Hrc]; cbn [negb]; [|split; [intros H; discriminate H|naive_solver]].
  destruct status as [[[] []]|]; cbn [ss_err ss_confirmed].
  all: first [rewrite classify_failed by auto; naive_solver | split; [intros H; discriminate H|naive_solver]].
Qed.

(** * Where the loop departs from its gates *)

(** The journal may name a pool by the 64 hex digits of its key; the gates resolve that name, fire
    does not, so such a row passes every gate and is then skipped, whatever its template. *)
Lemma unresolved_name_never_fires plane sign rec send bh :
  plane !! pool_text rec = None -> build plane sign rec send bh = Raise (AltPlaneMiss "no resident template").
Proof. intros H. unfold build. by rewrite H. Qed.

Definition hex_plane : gmap string lrow :=
  <[pool_pubkey (hex demo_key) := LRow "A" (pool_pubkey (hex demo_key)) [1] [2] 1 0]> ∅.

Lemma hex_pool_passes_and_is_skipped sign bh :
  size_gate demo_opp (gate_plane hex_plane) true [] = Ret (Some (MAX_IN, 600000)) /\
  build hex_plane sign demo_opp MAX_IN bh = Raise (AltPlaneMiss "no resident template").
Proof. split; [vm_compute; reflexivity|]. apply unresolved_name_never_fires. vm_compute. reflexivity. Qed.

(** A key that a row without templates gives to another pair is sent on by the live plane and is
    ambiguous for the funnel's: the loader looks only at the ready rows. *)
Definition two_pairs : list lroute :=
  [LRoute (Some "A") (Some "B") (VBool true) (VStr "01") (VStr "02");
   LRoute (Some "A") (Some "C") (VBool false) VNone VNone]%string.

Lemma live_plane_sends_shared_key :
  match load_race_plane [two_pairs], index_plane (to_route <$> two_pairs) with
  | Ret live, Ret funnel =>
      bool_decide (lr_ready <$> live !! "A"%string = Some 1) &&
      bool_decide (p_ambiguous <$> funnel !! "A"%string = Some 1)
  | _, _ => false
  end = true.
Proof. vm_compute. reflexivity. Qed.

(** A framed row whose direction is no number ends the process outside its own handlers: the armed
    flag stays behind, and the next start refuses. *)
Definition worded_opp : opp :=
  Opp (VStr "B") (VInt 1) (VStr "framed") (VStr "buy") (VBool true) (VInt 600000)
    VNone VNone VNone (VStr "dlmm-pump") VNone VNone.

Lemma worded_direction_leaves_armed sign c :
  let plane := <["B"%string := LRow "A" "B" [1] [2] 1 0]> ∅ in
  let ev := Event Woken (Some (Line worded_opp VNone VNone VNone VNone)) true true [] None NoTrigger in
  let s := run plane sign (live0 c) [ev] in
  ended s = Some (Crashed (ValueError "invalid literal")) /\ armed s = true /\ disarmed s = None.
Proof. vm_compute. done. Qed.

(** * A run *)

Definition demo_tmpl (buy : bool) : bytes :=
  match compile buy demo_static SYSTEM None None with Ret t => t | Raise _ => [] end.

Definition live_plane : gmap string lrow :=
  <["A"%string := LRow "A" "B" (demo_tmpl false) (demo_tmpl true) 1 0]> ∅.

Definition live_opp : opp :=
  Opp (VStr "A") (VInt 1) (VStr "framed") (VInt 1) (VBool true) (VInt 600000)
    VNone VNone VNone (VStr "dlmm-pump") VNone VNone.

Definition demo_event : event :=
  Event Woken (Some (Line live_opp VNone VNone VNone VNone)) true true (zeros 32)
    (Some (0, Some (SigStatus Custom6 false))) (TriggerIs Disappeared).

Definition demo_run : live := run live_plane (fun _ => replicate 64 7) (live0 []) [demo_event; demo_event].

(** Two good rows, one shot; the lost trigger is noted. *)
Lemma demo_run_shoots :
  bool_decide (length (sent demo_run) = 1%nat) && negb (armed demo_run) &&
  bool_decide (disarmed demo_run = Some "TRIGGER_MISSING"%string) &&
  bool_decide (od_get (cool demo_run) "A"%string = Some (CRow (VInt 1) (VBool false))) = true.
Proof. vm_compute. reflexivity. Qed.

Lemma demo_tmpl_compiled buy : compile buy demo_static SYSTEM None None = Ret (demo_tmpl buy).
Proof.
  assert (H : match compile buy demo_static SYSTEM None None with Ret _ => true | Raise _ => false end = true)
    by (destruct buy; vm_compute; reflexivity).
  unfold demo_tmpl. by destruct (compile _ _ _ _ _).
Qed.

Lemma live_plane_compiled : compiled_plane live_plane.
Proof.
  intros k row buy H. unfold live_plane in H. apply lookup_insert_Some in H as [[_ <-]|[_ H]]; [|by rewrite lookup_empty in H].
  exists demo_static, SYSTEM, None, None. split; [rewrite demo_tmpl_compiled; by destruct buy|].
  split; apply (bool_decide_unpack _); destruct buy; vm_compute; exact I.
Qed.

Lemma demo_events_bytes : Forall (fun ev => is_bytes (ev_bh ev)) [demo_event; demo_event].
Proof. constructor; [apply is_bytes_zeros|]. constructor; [apply is_bytes_zeros|constructor]. Qed.

Lemma sent_shot_witness :
  exists tx ev l d, tx ∈ sent demo_run /\ ev_line ev = Some l /\ py_int (o_direction (ln_opp l)) = Ret d.
Proof.
  pose proof demo_run_shoots as H. apply andb_true_iff in H as [H _]. apply andb_true_iff in H as [H _].
  apply andb_true_iff in H as [H _]. apply bool_decide_eq_true in H.
  destruct (sent demo_run) as [|tx txs] eqn:E; [discriminate H|].
  assert (Htx : tx ∈ sent demo_run) by (rewrite E; left).
  assert (Hb : forall l, bool_decide (is_bytes l) = true -> is_bytes l) by (intros l; apply bool_decide_eq_true).
  destruct (sent_shot live_plane (fun _ => replicate 64 7) [] [demo_event; demo_event] tx live_plane_compiled
    (fun _ => conj eq_refl (Hb (replicate 64 7) eq_refl))
    demo_events_bytes Htx) as (ev & l & g & d & _ & _ & _ & _ & _ & Hl & Hd & _).
  exists tx, ev, l, d. rewrite <- E. split; [exact Htx|]. split; [exact Hl|exact Hd].
Defined.

Lemma three_misses_block_witness :
  exists c', notes 3 "A"%string [] = Ret c' /\
    sent (run live_plane (fun _ => replicate 64 7) (live0 c') [demo_event]) = [].
Proof.
  destruct (three_misses_block [] "A"%string 0 eq_refl) as (c' & Hn & _ & H). exists c'. split; [exact Hn|].
  apply H. repeat constructor. intros l [= <-]. reflexivity.
Defined.
