(* ===== verification/AltPlane.v ===== *)
(** The control plane of the executor: arb-exec/scripts/alt_plane.py.

    sync registers the known lookup tables, resolves every route of a DLMM pair with a Pump pool
    (resolve_all), plans which table holds a route's addresses (greedy_pack), brings the tables
    on chain (materialize_packs), compiles both templates of each route (compile_route, over
    ExecTemplate) and publishes the rows that the live process loads (Oneshot).  The node's answers
    to account reads are the parameter of Deps; what the chain answers while tables and token
    accounts are created is an input per table and per route.  Prints, files and the
    percentage are outside. *)
From stdpp Require Import base list strings gmap.
From Stdlib Require Import ZArith Lia Ascii.
From Stdlib Require String.
From S2P Require Import Prelude PyBytes Base58 Pda Submap Accounts TxExpect Deps FrameV1 PyVal ExecGates ExecTemplate Oneshot.
Open Scope Z_scope.
Open Scope py_scope.

Definition SEED : list string := [
  "J6jmHvnetqmzmBxpWyKDYmWEnTU77Dmcd7Le2sLyAfwu";
  "A3y4efDfkbJGF4QJtScfQAwubm2BzpTauAbZ8ohAHMgn";
  "3iN6TXFH5nwhRhMYsY92muGfyey8aKkiSTVYXL8Bu7SG"]%string.
Definition ALT_MAX : nat := 256.
Definition RESERVE_LAMPORTS : Z := 80000000.

(** exec_live002b.py's *)
Definition SOL : string := "So11111111111111111111111111111111111111112".
Definition FEE_CFG_LIVE : string := "5PHirr8joyTMp9JMm6nW7hNDVyEYdkzDqazxPD7RaTjx".
Definition FEE_RECIPIENT : string := "5cjcW9wExnJJiqgLjq7DEG75Pm6JBgE1hNv4B2vHXUW6".

(** * Known tables *)

(** A deploy file: its own key and those of its tables. *)
Record alt_doc := AltDoc { ad_pubkey : option string; ad_alts : list (option string) }.

Definition doc_keys (o : alt_doc) : list string :=
  omap nonempty (ad_pubkey o :: ad_alts o).

Definition known_pubkeys (docs : list alt_doc) : list string :=
  fromkeys (concat (doc_keys <$> docs) ++ SEED).

(** [fetch pk]: what alt_addresses got for the account in the end. *)
Fixpoint register (fetch : string -> pyres (option bytes)) (pks : list string) : pyres (list alt_row) :=
  match pks with
  | [] => Ret []
  | pk :: pks' =>
      acc <-! fetch pk ;;
      rest <-! register fetch pks' ;;
      let addrs := alt_addresses acc in
      Ret (if bool_decide (addrs = []) then rest else AltRow pk addrs :: rest)
  end.

(** * Routes *)

Record meta := Meta {
  m_token : option string; m_proto : option string; m_kind : option string;
  m_pubkey : option string; m_sol_side : bool }.

Definition proto_text (m : meta) : string := default ""%string (or_str (m_proto m) (m_kind m)).

Notation groups := (list (string * list (string * list meta))).

(** [by_tok.setdefault(tok, {}).setdefault(proto, []).append(meta)] *)
Definition add_meta (by_tok : groups) (m : meta) : groups :=
  match nonempty (m_token m) with
  | None => by_tok
  | Some tok =>
      let proto := proto_text m in
      if negb (bool_decide (proto ∈ ["dlmm"; "pump"]%string)) then by_tok else
      let g := default [] (od_get by_tok tok) in
      od_set by_tok tok (od_set g proto (default [] (od_get g proto) ++ [m]))
  end.

Definition of_proto (g : list (string * list meta)) (proto : string) : list meta :=
  default [] (od_get g proto).

Definition pair_row (tok : string) (dlmm pump : meta) : pyres (list (string * string * string)) :=
  if negb (m_sol_side dlmm) then Ret [] else
  a <-! key_field "pubkey" (m_pubkey dlmm) ;;
  b <-! key_field "pubkey" (m_pubkey pump) ;;
  Ret [(a, b, tok)].

Definition route0_pairs (pools : list meta) : pyres (list (string * string * string)) :=
  collect_all (fun tg => collect_all (fun dlmm => collect_all (pair_row tg.1 dlmm) (of_proto tg.2 "pump"))
                           (of_proto tg.2 "dlmm"))
    (foldl add_meta [] pools).

(** * Derived addresses *)

(** [_pk(find_pda(seeds, b58decode(program)))] *)
Definition pda (seeds : list bytes) (program : string) : pyres string :=
  prog <-! b58decode program ;;
  raw <-! find_pda seeds prog ;;
  Ret (Base58.b58encode raw).

Definition ata (owner mint tok : string) : pyres string :=
  o <-! b58decode owner ;;
  t <-! b58decode tok ;;
  m <-! b58decode mint ;;
  pda [o; t; m] ATA_PROG.

Definition PROTO_FEE : string := "G5UZAVbAf46s7cKWoyKu8kYTip9DGTpbLZ2qa9Aq69dP".
Definition FALLBACK_CREATOR_ATA : string := "75mhQAcZeGKiL3wcuuVjTjg2SHJewZuQpd59ukiG24yv".
Definition FALLBACK_CREATOR_AUTH : string := "F2Ne1XNs5f7LQNBdfB5WE69AGunwjAa6akdVGfVXiZxY".

Definition pump_fallback : pyres pump_accs :=
  global <-! pda [ascii_bytes "global_config"] ExecTemplate.PUMP ;;
  fee_ata <-! ata PROTO_FEE SOL TOKENKEG ;;
  event <-! pda [ascii_bytes "__event_authority"] ExecTemplate.PUMP ;;
  Ret (PumpAccs PROTO_FEE fee_ata event global FALLBACK_CREATOR_ATA FALLBACK_CREATOR_AUTH).

(** Authority and token account of the creator, of oneshot_live.py. *)
Definition creator_from_pool (raw : bytes) (quote : string) : pyres (string * string) :=
  fb <-! pump_fallback ;;
  if blen raw <? 243 then Ret (pa_creator_auth fb, pa_creator_ata fb) else
  let coin := slice 211 243 raw in
  if bool_decide (coin = ZERO32) then Ret (pa_creator_auth fb, pa_creator_ata fb) else
  auth <-! pda [ascii_bytes "creator_vault"; coin] ExecTemplate.PUMP ;;
  a <-! ata auth quote TOKENKEG ;;
  Ret (auth, a).

Definition oracle_of (pair : string) : pyres string :=
  x <-! b58decode pair ;; pda [ascii_bytes "oracle"; x] ExecTemplate.DLMM.

(** * Resolving *)

Record found := Found {
  f_dlmm : string; f_pump : string; f_token : string; f_lb : lb_pair; f_p : pump_pool;
  f_raw : bytes; f_mint_x : string; f_mint_y : string; f_active : Z; f_bins : list string }.

Record aroute := ARoute {
  ar_dlmm : string; ar_pump : string; ar_token : string; ar_mint_x : string; ar_base_tok : string;
  ar_user_quote : string; ar_user_base : string; ar_static : list string; ar_wr : list string;
  ar_wr_buy : list string; ar_ro : list string; ar_need : list string; ar_active : Z;
  (** what v0_parts was given, and the global volume account *)
  ar_acc : accs; ar_gvol : string }.

Definition neighbors (active : Z) : list Z :=
  let a := bin_array_index active in [a; a + 1; a - 1; a + 2; a - 2].

Section resolve.
Context (rpc : list string -> rpc_config -> pyres rpc_reply).

Notation fetched := (gmap string (option rpc_row)).

(** [out[pk] = got[j]] *)
Fixpoint get_loop (cs : list (list string)) (out : fetched) : pyres fetched :=
  match cs with
  | [] => Ret out
  | c :: cs' =>
      got <-! Deps.get_multiple rpc c None None ;;
      get_loop cs' (foldl (fun m kr => <[kr.1 := kr.2]> m) out (zip c got))
  end.

Definition _get_many (pks : list string) : pyres fetched :=
  let uniq := filter (fun k => k <> ""%string) (fromkeys pks) in
  get_loop (chunks (length uniq) 80 uniq) ∅.

Definition row_at (m : fetched) (pk : string) : option rpc_row := default None (m !! pk).

(** First loop: the pairs whose accounts parse and whose Y mint is wrapped SOL. *)
Definition find_pair (accs : fetched) (pair : string * string * string) : pyres (list found) :=
  let '(dlmm_pk, pump_pk, tok) := pair in
  match row_at accs dlmm_pk, row_at accs pump_pk with
  | Some dacc, Some pacc =>
      match parse_lbpair (rw_data dacc) with
      | Raise _ => Ret []
      | Ret lb =>
          match parse_pump_pool (rw_data pacc) with
          | None => Ret []
          | Some p =>
              let mint_x := Base58.b58encode (token_x lb) in
              let mint_y := Base58.b58encode (token_y lb) in
              if negb (bool_decide (mint_y = SOL)) then Ret [] else
              neighbor <-! py_map (bin_array_pda dlmm_pk) (neighbors (active_id lb)) ;;
              _ <-! oracle_of dlmm_pk ;;
              Ret [Found dlmm_pk pump_pk tok lb p (rw_data pacc) mint_x mint_y (active_id lb) neighbor]
          end
      end
  | _, _ => Ret []
  end.

(** The second batch of accounts to read. *)
Definition extra_of (row : found) : pyres (list string) :=
  o <-! oracle_of (f_dlmm row) ;; Ret (f_bins row ++ [f_mint_x row; o]).

(** Second loop: the accounts of one route. *)
Definition route_of (wallet our_exec : string) (extra : fetched) (row : found) : pyres (list aroute) :=
  let mint_x := f_mint_x row in
  let base_tok := default TOKEN2022 (nonempty (rw_owner <$> row_at extra mint_x)) in
  if negb (bool_decide (base_tok ∈ [TOKENKEG; TOKEN2022])) then Ret [] else
  let live_bins := filter (fun b => is_Some (row_at extra b)) (f_bins row) in
  match live_bins with
  | b0 :: b1 :: _ =>
      creator <-! creator_from_pool (f_raw row) (f_mint_y row) ;;
      fb <-! pump_fallback ;;
      let pump := PumpAccs (pa_proto_fee fb) (pa_proto_fee_ata fb) (pa_event fb) (pa_global fb)
                    creator.2 creator.1 in
      fee_rec_quote <-! ata FEE_RECIPIENT (f_mint_y row) TOKENKEG ;;
      user_quote <-! ata wallet SOL TOKENKEG ;;
      user_base <-! ata wallet mint_x base_tok ;;
      event <-! pda [ascii_bytes "__event_authority"] ExecTemplate.DLMM ;;
      oracle <-! oracle_of (f_dlmm row) ;;
      gvol <-! pda [ascii_bytes "global_volume_accumulator"] ExecTemplate.PUMP ;;
      mx <-! b58decode mint_x ;;
      pool_v2 <-! pda [ascii_bytes "pool-v2"; mx] ExecTemplate.PUMP ;;
      w <-! b58decode wallet ;;
      uvol <-! pda [ascii_bytes "user_volume_accumulator"; w] ExecTemplate.PUMP ;;
      let acc := Accs (Some (f_dlmm row)) (Some (f_pump row)) user_quote user_base
        (Base58.b58encode (vault_x (f_lb row))) (Base58.b58encode (vault_y (f_lb row))) oracle b0 b1
        (Base58.b58encode (pp_vault_base (f_p row))) (Base58.b58encode (pp_vault_quote (f_p row))) uvol
        event mint_x (f_mint_y row) FEE_CFG_LIVE pool_v2 fee_rec_quote FEE_RECIPIENT base_tok pump in
      let '(static, wr, ro) := v0_parts wallet our_exec acc in
      let wr_buy := wr ++ [gvol] in
      Ret [ARoute (f_dlmm row) (f_pump row) (f_token row) mint_x base_tok user_quote user_base
             static wr wr_buy ro (fromkeys (wr_buy ++ ro ++ live_bins)) (f_active row) acc gvol]
  | _ => Ret []
  end.

Definition resolve_all (wallet our_exec : string) (pools : list meta) : pyres (list aroute) :=
  pairs <-! route0_pairs pools ;;
  accs <-! _get_many (concat ((fun t => [t.1.1; t.1.2]) <$> pairs)) ;;
  rows <-! collect_all (find_pair accs) pairs ;;
  extra <-! collect_all extra_of rows ;;
  quote <-! ata wallet SOL TOKENKEG ;;
  extra_accs <-! _get_many (extra ++ [quote]) ;;
  collect_all (route_of wallet our_exec extra_accs) rows.
End resolve.

(** * Packing

    [k_addresses] is absent until the table has been brought on chain. *)
Record pack := Pack {
  k_pubkey : option string; k_frozen : nat; k_planned : list string; k_addresses : option (list string) }.

Definition pack_of (alt : alt_row) : pack :=
  Pack (Some (t_pubkey alt)) (length (t_addresses alt)) (t_addresses alt) None.

(** [[a for a in need if a not in planned]] *)
Definition missing_of (need planned : list string) : list string := filter (fun a => a ∉ planned) need.

(** The first table with room takes the route; otherwise a new table does. *)
Fixpoint place_need (need : list string) (packs : list pack) : list pack :=
  match packs with
  | [] => [Pack None 0 (fromkeys need) None]
  | p :: ps =>
      let extra := missing_of need (k_planned p) in
      if (length (k_planned p) + length extra <=? ALT_MAX)%nat
      then Pack (k_pubkey p) (k_frozen p) (k_planned p ++ extra) (k_addresses p) :: ps
      else p :: place_need need ps
  end.

(** [sorted(routes, key=lambda r: -len(r["need"]))], stable *)
Fixpoint insert_route (r : aroute) (l : list aroute) : list aroute :=
  match l with
  | [] => [r]
  | x :: l' => if (length (ar_need x) <=? length (ar_need r))%nat then r :: l else x :: insert_route r l'
  end.
Definition by_need (routes : list aroute) : list aroute := foldr insert_route [] routes.

Definition greedy_pack (routes : list aroute) (existing : list alt_row) : list pack :=
  foldl (fun ps r => place_need (ar_need r) ps) (pack_of <$> existing) (by_need routes).

(** * On chain *)

(** What the chain answers for one table: its addresses now, whether the extension raised, the
    polls after it and the last look, the balance, and the created table. *)
Record pack_io := PackIO {
  io_have : list string; io_extend : pyres (); io_polls : list (list string); io_last : list string;
  io_balance : Z; io_create : pyres string; io_created : list string }.

Definition spendable (balance : Z) : Z := Z.max 0 (balance - RESERVE_LAMPORTS).

Definition set_addresses (p : pack) (pk : option string) (l : list string) : pack :=
  Pack pk (k_frozen p) (k_planned p) (Some l).

(** One table; the flag says that the loop goes on to publish. *)
Definition materialize_one (p : pack) (io : pack_io) : pyres (pack * bool) :=
  match nonempty (k_pubkey p) with
  | Some pk =>
      let have := io_have io in
      let extra := drop (length have) (k_planned p) in
      if bool_decide (extra = []) then Ret (set_addresses p (k_pubkey p) have, true) else
      _ <-! io_extend io ;;
      Ret (set_addresses p (k_pubkey p)
             (default (io_last io)
                (find (fun got => (length have + length extra <=? length got)%nat) (take 16 (io_polls io)))), true)
  | None =>
      if spendable (io_balance io) <? 6000000 then Ret (set_addresses p (k_pubkey p) [], false) else
      pk <-! io_create io ;;
      Ret (set_addresses p (Some pk) (io_created io), true)
  end.

(** [[p for p in packs if p.get("pubkey") and p.get("addresses")]] *)
Definition live_alts (packs : list pack) : list alt_row :=
  omap (fun p => match nonempty (k_pubkey p), k_addresses p with
                 | Some pk, Some (a :: l) => Some (AltRow pk (a :: l))
                 | _, _ => None
                 end) packs.

(** The tables from the [i]-th on, and the planes published on the way; [ios i] is what the chain
    answers for the [i]-th table. *)
Fixpoint materialize_packs (ios : nat -> pack_io) (i : nat) (done todo : list pack)
    : pyres (list pack * list (list alt_row)) :=
  match todo with
  | [] => Ret (done, [])
  | p :: todo' =>
      pb <-! materialize_one p (ios i) ;;
      let done' := done ++ [pb.1] in
      rest <-! materialize_packs ios (S i) done' todo' ;;
      Ret (rest.1, (if (pb.2 : bool) then [live_alts (done' ++ todo')] else []) ++ rest.2)
  end.

(** What the chain answers for a route's token account: there before, the balance, whether the
    creation raised, there after. *)
Record ata_io := AtaIO { at_before : bool; at_balance : Z; at_create : pyres (); at_after : bool }.

Definition ensure_route_ata (io : ata_io) : bool :=
  if at_before io then true else
  if spendable (at_balance io) <? 3000000 then false else
  match at_create io with Ret _ => at_after io | Raise _ => false end.

(** * Compiling *)

Record compiled := Compiled {
  c_dir0 : bool; c_dir1 : bool; c_alt : option string; c_tmpl0 : option bytes; c_tmpl1 : option bytes;
  c_err : list (Z * pyexn) }.

(** The exceptions compile_route keeps. *)
Definition caught (e : pyexn) : bool :=
  match e with AltPlaneMiss _ | SystemExit _ | RuntimeError _ | ValueError _ => true | _ => false end.

Definition try_dir (plane : list alt_row) (buy : bool) (r : aroute) : pyres (string * bytes) :=
  t <-! lookup_prepared plane (if buy then ar_wr_buy r else ar_wr r) (ar_ro r) ;;
  let '(alt, wr, ro) := t in
  tmpl <-! compile buy (ar_static r) alt (Some wr) (Some ro) ;;
  Ret (alt, tmpl).

Definition compile_route (plane : list alt_row) (r : aroute) : pyres compiled :=
  let out := Compiled false false None None None [] in
  out <-! match try_dir plane false r with
          | Ret (alt0, tmpl0) => Ret (Compiled true false (Some alt0) (Some tmpl0) None [])
          | Raise e => if caught e then Ret (Compiled false false None None None [(0, e)]) else Raise e
          end ;;
  match try_dir plane true r with
  | Ret (alt1, tmpl1) => Ret (Compiled (c_dir0 out) true (Some alt1) (c_tmpl0 out) (Some tmpl1) (c_err out))
  | Raise e => if caught e then Ret (Compiled (c_dir0 out) false (c_alt out) (c_tmpl0 out) None (c_err out ++ [(1, e)]))
               else Raise e
  end.

(** The row of the plane file, as the live process reads it. *)
Definition hex_if (race : bool) (t : option bytes) : pyval :=
  if race then match t with Some b => VStr (hex b) | None => VNone end else VNone.

Definition ready_row (r : aroute) (comp : compiled) (ata_ok : bool) : lroute :=
  let race := c_dir0 comp && c_dir1 comp && ata_ok in
  LRoute (Some (ar_dlmm r)) (Some (ar_pump r)) (VBool race) (hex_if race (c_tmpl0 comp)) (hex_if race (c_tmpl1 comp)).

(** [ata_ok i]: the flag of ensure_route_atas for the [i]-th route, or both accounts there at the
    end. *)
Fixpoint ready_rows (plane : list alt_row) (ata_ok : nat -> bool) (i : nat) (routes : list aroute)
    : pyres (list lroute) :=
  match routes with
  | [] => Ret []
  | r :: rs =>
      comp <-! compile_route plane r ;;
      rest <-! ready_rows plane ata_ok (S i) rs ;;
      Ret (ready_row r comp (ata_ok i) :: rest)
  end.

(** All that happens outside during one sync, by the number of the table or of the route. *)
Record sync_io := SyncIO {
  sy_docs : list alt_doc; sy_fetch : string -> pyres (option bytes);
  sy_rpc : list string -> rpc_config -> pyres rpc_reply; sy_pools : list meta;
  sy_packs : nat -> pack_io; sy_atas : nat -> ata_io; sy_both : nat -> bool }.

(** What a sync leaves: the tables of the plane and its rows. *)
Definition sync (wallet our_exec : string) (io : sync_io) : pyres (list alt_row * list lroute) :=
  existing <-! register (sy_fetch io) (known_pubkeys (sy_docs io)) ;;
  routes <-! resolve_all (sy_rpc io) wallet our_exec (sy_pools io) ;;
  mp <-! materialize_packs (sy_packs io) 0 [] (greedy_pack routes existing) ;;
  let plane := publish_plane (live_alts mp.1) in
  rows <-! ready_rows plane (fun i => ensure_route_ata (sy_atas io i) || sy_both io i) 0 routes ;;
  Ret (plane, rows).

(** * Packing: every route has its table *)

(** Tables only grow at the end and keep their key. *)
Definition grows (ps qs : list pack) : Prop :=
  forall i p, ps !! i = Some p ->
    exists q, qs !! i = Some q /\ k_pubkey q = k_pubkey p /\ k_planned p `prefix_of` k_planned q.

Lemma grows_refl ps : grows ps ps.
Proof. intros i p H. by exists p. Qed.

Lemma grows_trans ps qs rs : grows ps qs -> grows qs rs -> grows ps rs.
Proof.
  intros H1 H2 i p Hp. destruct (H1 i p Hp) as (q & Hq & E1 & P1). destruct (H2 i q Hq) as (r & Hr & E2 & P2).
  exists r. split; [done|]. split; [congruence|]. by etrans.
Qed.

Lemma grows_cons p q ps qs :
  k_pubkey q = k_pubkey p -> k_planned p `prefix_of` k_planned q -> grows ps qs -> grows (p :: ps) (q :: qs).
Proof. intros E P H [|i] x; [|apply H]. intros [= <-]. by exists q. Qed.

Definition covers (need : list string) (p : pack) : Prop := need ⊆ k_planned p.
Definition fits (p : pack) : Prop := (length (k_planned p) <= ALT_MAX)%nat.

Lemma NoDup_fromkeys ks : NoDup (fromkeys ks).
Proof.
  unfold fromkeys. cut (forall acc : list string, NoDup acc ->
    NoDup (foldl (fun acc k => if bool_decide (k ∈ acc) then acc else acc ++ [k]) acc ks)).
  { intros H. apply H. constructor. }
  induction ks as [|x ks IH]; intros acc Ha; [done|]. cbn [foldl].
  apply IH. case_bool_decide as Hx; [done|]. apply NoDup_app. split; [done|]. split; [|apply NoDup_singleton].
  intros y Hy Hyx. apply list_elem_of_singleton in Hyx as ->. done.
Qed.

Lemma length_fromkeys ks : (length (fromkeys ks) <= length ks)%nat.
Proof.
  apply submseteq_length, NoDup_submseteq; [apply NoDup_fromkeys|]. intros k. by rewrite elem_of_fromkeys.
Qed.

Lemma place_need_spec need packs :
  (length need <= ALT_MAX)%nat -> Forall fits packs ->
  Forall fits (place_need need packs) /\ grows packs (place_need need packs) /\
  Exists (covers need) (place_need need packs).
Proof.
  intros Hn. induction packs as [|p ps IH]; intros Hf; cbn [place_need].
  { split; [|split].
    - constructor; [|constructor]. unfold fits. cbn. pose proof (length_fromkeys need). lia.
    - intros i p H. by rewrite lookup_nil in H.
    - left. intros x Hx. by apply elem_of_fromkeys. }
  apply Forall_cons in Hf as [Hp Hf]. destruct (IH Hf) as (H1 & H2 & H3).
  destruct (Nat.leb_spec (length (k_planned p) + length (missing_of need (k_planned p))) ALT_MAX) as [Hle|Hgt].
  - split; [constructor; [|done]; unfold fits; cbn; rewrite length_app; lia|]. split.
    + apply grows_cons; [done|by apply prefix_app_r|apply grows_refl].
    + left. intros x Hx. cbn. apply elem_of_app. destruct (decide (x ∈ k_planned p)); [by left|].
      right. apply list_elem_of_filter. done.
  - split; [by constructor|]. split; [by apply grows_cons|by right].
Qed.

Lemma covers_grows need ps qs : grows ps qs -> Exists (covers need) ps -> Exists (covers need) qs.
Proof.
  intros Hg H. apply Exists_exists in H as (p & Hp & Hc). apply list_elem_of_lookup in Hp as [i Hi].
  destruct (Hg i p Hi) as (q & Hq & _ & [l El]). apply Exists_exists. exists q.
  split; [by eapply list_elem_of_lookup_2|]. intros x Hx. rewrite El. apply elem_of_app. left. by apply Hc.
Qed.

Lemma insert_route_perm r l : insert_route r l ≡ₚ r :: l.
Proof.
  induction l as [|x l IH]; cbn [insert_route]; [done|]. destruct (_ <=? _)%nat; [done|].
  rewrite IH. apply Permutation_swap.
Qed.

Lemma by_need_perm routes : by_need routes ≡ₚ routes.
Proof. induction routes as [|r rs IH]; [done|]. cbn [by_need foldr]. by rewrite insert_route_perm, IH. Qed.

Lemma place_all_spec rs packs :
  Forall (fun r => length (ar_need r) <= ALT_MAX)%nat rs -> Forall fits packs ->
  let qs := foldl (fun ps r => place_need (ar_need r) ps) packs rs in
  Forall fits qs /\ grows packs qs /\ Forall (fun r => Exists (covers (ar_need r)) qs) rs.
Proof.
  revert packs. induction rs as [|r rs IH]; intros packs Hn Hf; cbn [foldl]; [split; [done|]; split; [apply grows_refl|done]|].
  apply Forall_cons in Hn as [Hr Hn]. destruct (place_need_spec _ packs Hr Hf) as (H1 & H2 & H3).
  destruct (IH _ Hn H1) as (H4 & H5 & H6). split; [done|]. split; [by eapply grows_trans|].
  constructor; [by eapply covers_grows|done].
Qed.

Lemma greedy_pack_spec routes existing :
  Forall (fun r => length (ar_need r) <= ALT_MAX)%nat routes ->
  Forall (fun a => length (t_addresses a) <= ALT_MAX)%nat existing ->
  Forall fits (greedy_pack routes existing) /\ grows (pack_of <$> existing) (greedy_pack routes existing) /\
  Forall (fun r => Exists (covers (ar_need r)) (greedy_pack routes existing)) routes.
Proof.
  intros Hn He. unfold greedy_pack.
  destruct (place_all_spec (by_need routes) (pack_of <$> existing)) as (H1 & H2 & H3).
  - by rewrite by_need_perm.
  - apply Forall_fmap. exact He.
  - split; [done|]. split; [done|]. by rewrite by_need_perm in H3.
Qed.

(** * What a resolved route is *)

(** The accounts of a route are v0_parts of its own account record; its table needs them all and
    at most five bin arrays. *)
Record resolved (wallet our_exec : string) (r : aroute) : Prop := {
  rs_parts : v0_parts wallet our_exec (ar_acc r) = (ar_static r, ar_wr r, ar_ro r);
  rs_buy : ar_wr_buy r = ar_wr r ++ [ar_gvol r];
  rs_need : ar_wr_buy r ++ ar_ro r ⊆ ar_need r;
  rs_size : (length (ar_need r) <= 31)%nat;
  rs_dlmm : a_pair_dlmm (ar_acc r) = Some (ar_dlmm r);
  rs_pump : a_pair_pump (ar_acc r) = Some (ar_pump r);
  rs_quote : a_mint_y (ar_acc r) = SOL }.

Lemma find_pair_spec accs pair l f :
  find_pair accs pair = Ret l -> f ∈ l -> f_mint_y f = SOL /\ length (f_bins f) = 5%nat.
Proof.
  destruct pair as [[dk pk] tok]. unfold find_pair.
  destruct (row_at accs dk) as [dacc|]; [|intros [= <-] H; by apply elem_of_nil in H].
  destruct (row_at accs pk) as [pacc|]; [|intros [= <-] H; by apply elem_of_nil in H].
  destruct (parse_lbpair _) as [lb|]; [|intros [= <-] H; by apply elem_of_nil in H].
  destruct (parse_pump_pool _) as [p|]; [|intros [= <-] H; by apply elem_of_nil in H].
  case_bool_decide as Hy; cbn [negb]; [|intros [= <-] H; by apply elem_of_nil in H].
  intros H Hf. apply py_bind_Ret in H as (nb & Hn & H). apply py_bind_Ret in H as (o & _ & [= <-]).
  apply list_elem_of_singleton in Hf as ->. cbn [f_mint_y f_bins]. split; [done|].
  by apply py_map_length in Hn as ->.
Qed.

Lemma route_of_resolved wallet our_exec extra f l r :
  f_mint_y f = SOL -> length (f_bins f) = 5%nat -> route_of wallet our_exec extra f = Ret l -> r ∈ l ->
  resolved wallet our_exec r.
Proof.
  intros Hy Hb. unfold route_of. destruct (bool_decide _); cbn [negb]; [|intros [= <-] H; by apply elem_of_nil in H].
  pose proof (length_filter (fun b => is_Some (row_at extra b)) (f_bins f)) as Hl.
  destruct (filter _ (f_bins f)) as [|b0 [|b1 bs]] eqn:Hbins; [intros [= <-] H; by apply elem_of_nil in H..|].
  intros H Hr. repeat (apply py_bind_Ret in H as (? & _ & H)). 
  match type of H with context [v0_parts ?w ?e ?a] => destruct (v0_parts w e a) as [[st wr] ro] eqn:E end.
  assert (Hlen : length wr = 15%nat /\ length ro = 10%nat) by (unfold v0_parts in E; by injection E as _ <- <-).
  injection H as <-. apply list_elem_of_singleton in Hr as ->. constructor; [exact E|done| | |done|done|exact Hy].
  - intros k Hk. cbn [ar_need]. rewrite elem_of_fromkeys.
    cbn [ar_wr_buy ar_ro] in Hk. apply elem_of_app in Hk as [Hk|Hk]; apply elem_of_app; [by left|].
    right. apply elem_of_app. by left.
  - cbn [ar_need]. etrans; [apply length_fromkeys|]. rewrite !length_app. cbn [length] in Hl |- *. destruct Hlen. lia.
Qed.

Lemma resolve_all_resolved rpc wallet our_exec pools routes r :
  resolve_all rpc wallet our_exec pools = Ret routes -> r ∈ routes -> resolved wallet our_exec r.
Proof.
  intros H Hr. unfold resolve_all in H. apply py_bind_Ret in H as (pairs & _ & H).
  apply py_bind_Ret in H as (accs & _ & H). apply py_bind_Ret in H as (rows & Hrows & H).
  apply py_bind_Ret in H as (extra & _ & H). apply py_bind_Ret in H as (q & _ & H).
  apply py_bind_Ret in H as (ex & _ & H).
  destruct (collect_all_elem _ _ _ _ H Hr) as (f & l & Hf & Hl & Hrl).
  destruct (collect_all_elem _ _ _ _ Hrows Hf) as (pair & l' & _ & Hl' & Hf').
  destruct (find_pair_spec _ _ _ _ Hl' Hf') as [Hy Hb]. by eapply route_of_resolved.
Qed.

(** * Compiling a route *)

Definition wr_of (buy : bool) (r : aroute) : list string := if buy then ar_wr_buy r else ar_wr r.

(** What a template of the plane was compiled from. *)
Definition compiled_from (plane : list alt_row) (buy : bool) (r : aroute) (t : bytes) : Prop :=
  exists alt wi ri, lookup_prepared plane (wr_of buy r) (ar_ro r) = Ret (alt, wi, ri) /\
    compile buy (ar_static r) alt (Some wi) (Some ri) = Ret t.

Lemma try_dir_spec plane buy r alt t : try_dir plane buy r = Ret (alt, t) -> compiled_from plane buy r t.
Proof.
  unfold try_dir. intros H. apply py_bind_Ret in H as ([[a w] ro] & Hl & H).
  apply py_bind_Ret in H as (tm & Hc & [= <- <-]). exists a, w, ro. by destruct buy.
Qed.

Lemma compile_route_spec plane r comp :
  compile_route plane r = Ret comp -> c_dir0 comp = true -> c_dir1 comp = true ->
  exists t0 t1, c_tmpl0 comp = Some t0 /\ c_tmpl1 comp = Some t1 /\
    compiled_from plane false r t0 /\ compiled_from plane true r t1.
Proof.
  unfold compile_route. intros H H0 H1. apply py_bind_Ret in H as (out & Ho & H).
  destruct (try_dir plane true r) as [[a1 t1]|e1] eqn:E1; [injection H as <-|].
  2: { destruct (caught e1); [injection H as <-; done|done]. }
  destruct (try_dir plane false r) as [[a0 t0]|e0] eqn:E0; [injection Ho as <-|].
  2: { destruct (caught e0); [injection Ho as <-; done|done]. }
  apply try_dir_spec in E0. apply try_dir_spec in E1. by exists t0, t1.
Qed.

Lemma compiled_bytes plane buy r t : compiled_from plane buy r t -> is_bytes t.
Proof.
  intros (alt & wi & ri & Hl & Hc). apply lookup_prepared_spec in Hl as (have & _ & _ & _ & Hw & Hr).
  assert (Hor : forall l d, is_bytes l -> is_bytes d -> is_bytes (bytes_or (Some l) d)) by (by intros [|? ?]).
  apply compile_spec in Hc as (keys & a & _ & _ & Hs & ->); [by apply wire_bytes|..];
    apply Hor; try done; apply (bool_decide_unpack _); destruct buy; vm_compute; exact I.
Qed.

Lemma hex_back b : is_bytes b -> hex_field (VStr (hex b)) = Ret b.
Proof. intros Hb. unfold hex_field. by rewrite chars_hex, fromhex_hex. Qed.

(** Both directions compile once a table holds the route's addresses and the keys decode. *)
Lemma compile_total buy static wr ro plane :
  (exists keys, Forall2 (fun k x => b58decode k = Ret x) static keys) -> length static = 11%nat ->
  Z.of_nat (length wr) = nwr_of buy -> length ro = 10%nat ->
  Forall (fun t => Z.of_nat (length (t_addresses t)) <= 256 /\ exists a, b58decode (t_pubkey t) = Ret a) plane ->
  Exists (fun t => wr ++ ro ⊆ t_addresses t) plane ->
  exists pk wi ri t, lookup_prepared plane wr ro = Ret (pk, wi, ri) /\ compile buy static pk (Some wi) (Some ri) = Ret t.
Proof.
  intros [keys Hk] Hst Hw Hr Hp He.
  destruct (lookup_prepared_total plane wr ro) as (pk & wi & ri & Hl & Hwi & Hri);
    [by eapply Forall_impl; [exact Hp|]; intros ? [? _]|done|].
  pose proof Hl as Hl'. apply lookup_prepared_spec in Hl' as (have & Hin & _ & _ & Hbw & Hbr).
  rewrite Forall_forall in Hp. destruct (Hp _ Hin) as [_ [a Ha]].
  assert (Hnw : bytes_or (Some wi) (if buy then ALT_WR_IX_BUY else ALT_WR_IX) = wi).
  { destruct wi; [|done]. cbn [length] in Hwi. rewrite <- Hwi in Hw. by destruct buy. }
  assert (Hnr : bytes_or (Some ri) (if buy then ALT_RO_IX_BUY else ALT_RO_IX) = ri).
  { destruct ri; [|done]. cbn [length] in Hri. lia. }
  exists pk, wi, ri. eexists. split; [exact Hl|]. apply compile_spec; rewrite ?Hnw, ?Hnr; [done..|].
  exists keys, a. do 2 (split; [done|]). split; [|done]. apply wf_blank.
  - by rewrite <- (Forall2_length _ _ _ Hk).
  - clear -Hk. induction Hk as [|k x ks xs Hx _ IH]; constructor; [by apply b58decode_key in Hx|done].
  - by apply b58decode_key in Ha.
  - split; [|done]. unfold blen. by rewrite Hwi.
  - split; [|done]. unfold blen. by rewrite Hri, Hr.
Qed.

Lemma parts_sizes wallet our_exec r :
  resolved wallet our_exec r ->
  length (ar_static r) = 11%nat /\ (forall buy, Z.of_nat (length (wr_of buy r)) = nwr_of buy) /\ length (ar_ro r) = 10%nat.
Proof.
  intros []. unfold v0_parts in rs_parts0. injection rs_parts0 as <- Ew <-.
  split; [done|]. split; [|done]. intros []; unfold wr_of; [rewrite rs_buy0|]; by rewrite <- Ew.
Qed.

Lemma small_needs wallet our_exec routes :
  Forall (resolved wallet our_exec) routes -> Forall (fun r => length (ar_need r) <= ALT_MAX)%nat routes.
Proof. intros H. eapply Forall_impl; [exact H|]. intros r Hr. etrans; [by eapply rs_size|]. unfold ALT_MAX. lia. Qed.

(** Packing loses nothing: for resolved routes, as resolve_all gives them, and any registered
    tables of at most 256 addresses, every planned table has at most 256, every route's addresses are all in
    one table, and the registered tables come first, keep their keys and only grow at the end, so
    the indexes that published templates use stay right. *)
Theorem greedy_pack_fits wallet our_exec routes existing :
  Forall (resolved wallet our_exec) routes ->
  Forall (fun a => length (t_addresses a) <= ALT_MAX)%nat existing ->
  let packs := greedy_pack routes existing in
  (forall p, p ∈ packs -> (length (k_planned p) <= ALT_MAX)%nat) /\
  (forall r, r ∈ routes -> exists p, p ∈ packs /\ ar_need r ⊆ k_planned p) /\
  (forall i a, existing !! i = Some a -> exists p, packs !! i = Some p /\
     k_pubkey p = Some (t_pubkey a) /\ t_addresses a `prefix_of` k_planned p).
Proof.
  intros Hr He packs. destruct (greedy_pack_spec routes existing) as (H1 & H2 & H3); [|done|].
  { by eapply small_needs. }
  split; [by apply Forall_forall|]. split.
  - intros r Hin. rewrite Forall_forall in H3. by apply Exists_exists, H3.
  - intros i a Hi. apply (H2 i (pack_of a)). by rewrite list_lookup_fmap, Hi.
Qed.

(** ** Routes become ready *)

Lemma const_keys :
  forallb (fun k => match b58decode k with Ret _ => true | Raise _ => false end)
    [CU_PROG; TOKENKEG; SYSTEM; ATA_PROG; MEMO; ExecTemplate.DLMM; ExecTemplate.PUMP; TOKEN2022; FEE_PROG] = true.
Proof. vm_compute. reflexivity. Qed.

Lemma static_decodes wallet our_exec r :
  resolved wallet our_exec r -> (exists w, b58decode wallet = Ret w) -> (exists x, b58decode our_exec = Ret x) ->
  exists keys, Forall2 (fun k x => b58decode k = Ret x) (ar_static r) keys.
Proof.
  intros Hr [w Hw] [x Hx]. pose proof (rs_parts _ _ _ Hr) as Hp. unfold v0_parts in Hp. injection Hp as <- _ _.
  assert (Hall : forall l, forallb (fun k => match b58decode k with Ret _ => true | Raise _ => false end) l = true ->
    exists keys, Forall2 (fun k x => b58decode k = Ret x) l keys).
  { induction l as [|k l IH]; cbn [forallb]; [by exists []|]. intros H. apply andb_true_iff in H as [Hk Hl].
    destruct (b58decode k) as [y|] eqn:E; [|done]. destruct (IH Hl) as [ys Hys]. exists (y :: ys). by constructor. }
  destruct (Hall _ const_keys) as [keys Hk]. exists (w :: x :: keys). by do 2 (constructor; [done|]).
Qed.

(** C18. Packing is enough: once the planned tables are on chain, under readable keys and at most
    256 addresses each, every resolved route gets both its templates, so the only things that
    keep it from being ready are its token accounts. *)
Theorem packed_routes_compile wallet our_exec routes existing plane :
  Forall (resolved wallet our_exec) routes ->
  Forall (fun a => length (t_addresses a) <= ALT_MAX)%nat existing ->
  (exists w, b58decode wallet = Ret w) -> (exists x, b58decode our_exec = Ret x) ->
  Forall (fun t => Z.of_nat (length (t_addresses t)) <= 256 /\ exists a, b58decode (t_pubkey t) = Ret a) plane ->
  (forall p, p ∈ greedy_pack routes existing -> exists t, t ∈ plane /\ k_planned p ⊆ t_addresses t) ->
  forall r, r ∈ routes -> exists comp, compile_route plane r = Ret comp /\ c_dir0 comp = true /\ c_dir1 comp = true.
Proof.
  intros Hroutes He Hw Hx Hp Hon r Hr. pose proof (proj1 (Forall_forall _ _) Hroutes r Hr) as Hres.
  destruct (greedy_pack_spec routes existing) as (_ & _ & H3); [|done|].
  { by eapply small_needs. }
  rewrite Forall_forall in H3. specialize (H3 r Hr). apply Exists_exists in H3 as (p & Hpin & Hcov).
  destruct (Hon p Hpin) as (t & Ht & Hsub).
  assert (Hneed : ar_wr_buy r ++ ar_ro r ⊆ t_addresses t).
  { intros k Hk. apply Hsub, Hcov. by apply (rs_need _ _ _ Hres). }
  destruct (parts_sizes _ _ _ Hres) as (Hst & Hwr & Hro).
  assert (Hdir : forall buy, exists alt tm, try_dir plane buy r = Ret (alt, tm)).
  { intros buy. destruct (compile_total buy (ar_static r) (wr_of buy r) (ar_ro r) plane
      (static_decodes _ _ _ Hres Hw Hx) Hst (Hwr buy) Hro Hp) as (pk & wi & ri & tm & Hl & Hc).
    - apply Exists_exists. exists t. split; [done|]. intros k Hk. apply Hneed.
      apply elem_of_app in Hk as [Hk|Hk]; apply elem_of_app; [left|by right].
      destruct buy; [done|]. rewrite (rs_buy _ _ _ Hres). apply elem_of_app. by left.
    - exists pk, tm. unfold try_dir. fold (wr_of buy r). rewrite Hl. cbn [py_bind]. by rewrite Hc. }
  destruct (Hdir false) as (a0 & t0 & E0), (Hdir true) as (a1 & t1 & E1).
  unfold compile_route. rewrite E0, E1. cbn [py_bind]. by eexists.
Qed.

(** * From the plane to the shot *)

Lemma ready_rows_elem plane oks i routes rows x :
  ready_rows plane oks i routes = Ret rows -> x ∈ rows ->
  exists r comp ok, r ∈ routes /\ compile_route plane r = Ret comp /\ x = ready_row r comp ok.
Proof.
  revert i rows. induction routes as [|r rs IH]; intros i rows; cbn [ready_rows].
  { intros [= <-] H. by apply elem_of_nil in H. }
  intros H Hx. apply py_bind_Ret in H as (comp & Hc & H). apply py_bind_Ret in H as (rest & Hr & [= <-]).
  apply elem_of_cons in Hx as [->|Hx]; [exists r, comp, (oks i); split; [by left|done]|].
  destruct (IH _ _ Hr Hx) as (r' & c' & ok & ? & ?). exists r', c', ok. split; [by right|done].
Qed.

(** Tables and rows that a sync published, for some resolved routes. *)
Definition synced (wallet our_exec : string) (src : list alt_row * list lroute) : Prop :=
  exists oks routes, Forall (resolved wallet our_exec) routes /\ ready_rows src.1 oks 0 routes = Ret src.2.

Lemma sync_synced wallet our_exec io plane rows : sync wallet our_exec io = Ret (plane, rows) -> synced wallet our_exec (plane, rows).
Proof.
  unfold sync. intros H. apply py_bind_Ret in H as (ex & _ & H). apply py_bind_Ret in H as (routes & Hroutes & H).
  apply py_bind_Ret in H as (mp & _ & H). apply py_bind_Ret in H as (rws & Hrws & [= <- <-]).
  do 2 eexists. split; [|exact Hrws]. apply Forall_forall. intros r Hr. by eapply resolve_all_resolved.
Qed.

(** A published row of the source is the route's, compiled against the source's tables. *)
Definition published_row (src : list alt_row * list lroute) (r : aroute) : Prop :=
  exists comp ok, compile_route src.1 r = Ret comp /\ ready_row r comp ok ∈ src.2.

(** A row of the live plane is a resolved route of its pair, with the templates compiled against the tables
    that were published with it. *)
Lemma plane_rows_resolved wallet our_exec srcs lp k row :
  Forall (synced wallet our_exec) srcs -> load_race_plane (snd <$> srcs) = Ret lp -> lp !! k = Some row ->
  exists src r, src ∈ srcs /\ published_row src r /\ resolved wallet our_exec r /\
    ar_dlmm r = lr_dlmm row /\ ar_pump r = lr_pump row /\
    (k = lr_dlmm row \/ k = lr_pump row) /\ forall buy, compiled_from src.1 buy r (tmpl_of buy row).
Proof.
  intros Hs Hl Hk. destruct (load_race_plane_row _ _ _ _ Hl Hk) as (x & Hx & Hrd & Hd & Hp & Hkey & H0 & H1 & _).
  apply elem_of_concat in Hx as (rows & Hx & Hrows). apply list_elem_of_fmap in Hrows as (src & -> & Hsrc).
  rewrite Forall_forall in Hs. destruct (Hs _ Hsrc) as (oks & routes & Hroutes & Hrws).
  destruct (ready_rows_elem _ _ _ _ _ _ Hrws Hx) as (r & comp & ok & Hr & Hc & ->).
  rewrite Forall_forall in Hroutes. exists src, r. split; [done|]. split; [by exists comp, ok|]. split; [by apply Hroutes|].
  do 2 (split; [cbn in Hd, Hp; congruence|]). split; [exact Hkey|].
  unfold is_ready, ready_row in Hrd, H0, H1.
  cbn [l_RACE_READY l_tmpl0 l_tmpl1 truthy] in Hrd, H0, H1.
  apply andb_true_iff in Hrd as [Hrd _]. apply andb_true_iff in Hrd as [Hrace _].
  rewrite Hrace in H0, H1. apply andb_true_iff in Hrace as [Hrace _]. apply andb_true_iff in Hrace as [Hc0 Hc1].
  destruct (compile_route_spec _ _ _ Hc Hc0 Hc1) as (t0 & t1 & E0 & E1 & C0 & C1).
  rewrite E0 in H0. rewrite E1 in H1. cbn [hex_if] in H0, H1.
  rewrite hex_back in H0 by (by eapply compiled_bytes). rewrite hex_back in H1 by (by eapply compiled_bytes).
  injection H0 as H0. injection H1 as H1. intros [|]; cbn [tmpl_of]; [by rewrite <- H1|by rewrite <- H0].
Qed.

(** C17. From the control plane to the wire: when the live process loads planes that syncs of this
    wallet and program published, whatever was armed, whatever lines and answers came, a sent
    transaction is a v0 transaction on its moment's blockhash with the frozen amount and least
    profit; its row named the DLMM pair or the Pump pool of one route that a sync published; the lookup table its
    bytes name is one of the tables published with that route; and the account list of the
    executor's call, resolved over the transaction's static keys and that table's addresses, is the
    executor's accounts and the Pump metas of that route. *)
Theorem shot_for_the_pair wallet our_exec srcs lp sign c evs tx :
  Forall (synced wallet our_exec) srcs -> load_race_plane (snd <$> srcs) = Ret lp ->
  (forall m, blen (sign m) = 64 /\ is_bytes (sign m)) -> Forall (fun ev => is_bytes (ev_bh ev)) evs ->
  tx ∈ sent (run lp sign (live0 c) evs) ->
  exists ev l d src r alt have a keys wi ri lw lr,
    ev ∈ evs /\ ev_line ev = Some l /\ py_int (o_direction (ln_opp l)) = Ret d /\ (d = 0 \/ d = 1) /\
    src ∈ srcs /\ published_row src r /\ resolved wallet our_exec r /\
    (a_pair_dlmm (ar_acc r) = Some (pool_text (ln_opp l)) \/ a_pair_pump (ar_acc r) = Some (pool_text (ln_opp l))) /\
    Forall2 (fun k x => b58decode k = Ret x) (ar_static r) keys /\
    AltRow alt have ∈ src.1 /\ b58decode alt = Ret a /\
    pick have wi = Ret lw /\ pick have ri = Ret lr /\
    pick (ar_static r ++ lw ++ lr) (idx_of (d =? 1)) =
      Ret (exec_accounts wallet (ar_acc r) ++ [TOKEN2022] ++
           pump_accounts wallet (ar_acc r) (if d =? 1 then [ar_gvol r; a_uvol (ar_acc r)] else [])) /\
    let ixs := [Ix 2 [] (2 :: le_enc 4 400000); Ix 2 [] (3 :: le_enc 8 800000);
                Ix 1 (idx_of (d =? 1)) (DISC ++ [d] ++ le_enc 8 50000000 ++ le_enc 8 525000)] in
    parse_any tx 0 = Ok (Frame "v0" 1 11 3 keys ixs (blen tx) true None) /\
    tx = enc_legacy (Wire [sign (drop 65 tx)] 0 10 keys (ev_bh ev) ixs) (Some [(a, wi, ri)]).
Proof.
  intros Hs Hload Hsign Hbh Htx.
  destruct (run_inv lp sign c evs) as [_ [Hsent|(tx' & ev & Hsent & _ & Hin & Hof)]];
    rewrite Hsent in Htx; [by apply elem_of_nil in Htx|apply list_elem_of_singleton in Htx as ->].
  destruct Hof as (l & gross & _ & Hl & _ & Hb & _). rewrite Forall_forall in Hbh. specialize (Hbh ev Hin).
  destruct (build_frames _ _ _ _ _ Hsign Hbh Hb) as (row & d & Hrow & Hd & Hdd & Hfr).
  destruct (plane_rows_resolved _ _ _ _ _ _ Hs Hload Hrow) as (src & r & Hsrc & Hpub & Hres & Hpd & Hpp & Hk & Hcf).
  destruct (Hcf (d =? 1)) as (alt & wi & ri & Hlk & Hc).
  pose proof Hlk as Hlk'. apply lookup_prepared_spec in Hlk' as (have' & _ & Hpw & Hpr & Hbw & Hbr).
  destruct (parts_sizes _ _ _ Hres) as (_ & Hwr & Hro).
  assert (Hne : forall l (d : bytes), l <> [] -> bytes_or (Some l) d = l) by (by intros [|? ?]).
  assert (Hlen : forall A (have : list A) ix keys, pick have ix = Ret keys -> length ix = length keys).
  { clear. intros A have. induction ix as [|i ix IH]; intros keys; cbn [pick]; [by intros [= <-]|].
    destruct (have !! _); [|done]. intros H. apply py_bind_Ret in H as (ks & Hks & [= <-]). cbn. by rewrite (IH ks). }
  assert (Hwi : wi <> []).
  { intros ->. apply Hlen in Hpw. specialize (Hwr (d =? 1)). rewrite <- Hpw in Hwr. by destruct (d =? 1). }
  assert (Hri : ri <> []) by (intros ->; apply Hlen in Hpr; by rewrite Hro in Hpr).
  destruct (Hfr (ar_static r) alt (Some wi) (Some ri)) as (keys & a & Hkeys & Ha & Hf & He);
    [by rewrite Hne by done..|exact Hc|]. rewrite !Hne in He by done.
  assert (Hwro : wr_of (d =? 1) r = if d =? 1 then ar_wr r ++ [ar_gvol r] else ar_wr r).
  { unfold wr_of. destruct (d =? 1); [|done]. exact (rs_buy _ _ _ Hres). }
  rewrite Hwro in Hlk.
  destruct (accounts_resolve wallet our_exec (ar_acc r) (ar_gvol r) src.1 (d =? 1) _ _ _ alt wi ri
    (rs_parts _ _ _ Hres) Hlk) as (have & lw & lr & Hin' & Hw & Hr' & Hpick & _).
  exists ev, l, d, src, r, alt, have, a, keys, wi, ri, lw, lr.
  do 7 (split; [done|]). split.
  { rewrite (rs_dlmm _ _ _ Hres), (rs_pump _ _ _ Hres), Hpd, Hpp. by destruct Hk as [-> | ->]; [left|right]. }
  do 6 (split; [done|]). split; [exact Hf|exact He].
Qed.

(** * A plane *)

Definition demo_route : aroute :=
  let acc := Accs (Some "A") (Some "B") "uq" "ub" "vx" "vy" "or" "b0" "b1" "vb" "vq" "uv" "ed" "mx" SOL "fc" "pv"
    "fq" "fr" TOKEN2022 (PumpAccs "pf" "pfa" "pe" "pg" "ca" "cu") in
  let '(static, wr, ro) := v0_parts SYSTEM ExecTemplate.PUMP acc in
  ARoute "A" "B" "T" "mx" TOKEN2022 "uq" "ub" static wr (wr ++ ["gv"%string]) ro
    (fromkeys ((wr ++ ["gv"%string]) ++ ro ++ ["b0"; "b1"; "b2"]%string)) 7 acc "gv".

Lemma demo_route_resolved : resolved SYSTEM ExecTemplate.PUMP demo_route.
Proof.
  constructor; [reflexivity|reflexivity| |apply Nat.leb_le; vm_compute; reflexivity|reflexivity..].
  apply (bool_decide_unpack _). vm_compute. exact I.
Qed.

Definition demo_alts : list alt_row := [AltRow ExecTemplate.DLMM ["x"; "uq"]%string; AltRow SYSTEM (ar_need demo_route)].

Lemma demo_routes_resolved : Forall (resolved SYSTEM ExecTemplate.PUMP) [demo_route].
Proof. constructor; [apply demo_route_resolved|constructor]. Qed.

Lemma greedy_pack_fits_witness :
  exists p, p ∈ greedy_pack [demo_route] demo_alts /\ ar_need demo_route ⊆ k_planned p.
Proof.
  assert (H : Forall (fun a => length (t_addresses a) <= ALT_MAX)%nat demo_alts)
    by (apply (bool_decide_unpack _); vm_compute; exact I).
  destruct (greedy_pack_fits SYSTEM ExecTemplate.PUMP [demo_route] demo_alts demo_routes_resolved H) as (_ & Hr & _).
  apply Hr. left.
Defined.

(** The first table takes the route, so it is the one that has to be on chain. *)
Definition demo_on_chain : list alt_row := [AltRow SYSTEM ("x"%string :: ar_need demo_route)].

Lemma demo_planned :
  forallb (fun p => bool_decide (k_planned p ⊆ "x"%string :: ar_need demo_route)) (greedy_pack [demo_route] demo_alts) = true.
Proof. vm_compute. reflexivity. Qed.

Lemma packed_routes_compile_witness :
  exists comp, compile_route demo_on_chain demo_route = Ret comp /\ c_dir0 comp = true /\ c_dir1 comp = true.
Proof.
  apply (packed_routes_compile SYSTEM ExecTemplate.PUMP [demo_route] demo_alts demo_on_chain demo_routes_resolved).
  - apply (bool_decide_unpack _). vm_compute. exact I.
  - eexists. vm_compute. reflexivity.
  - eexists. vm_compute. reflexivity.
  - constructor; [split; [vm_compute; discriminate|]|constructor]. eexists. vm_compute. reflexivity.
  - intros p Hp. exists (AltRow SYSTEM ("x"%string :: ar_need demo_route)). split; [left|].
    pose proof demo_planned as Hd. rewrite forallb_forall in Hd. apply list_elem_of_In in Hp.
    specialize (Hd p Hp). apply bool_decide_eq_true in Hd. exact Hd.
  - left.
Defined.

Definition demo_rows : list lroute :=
  match ready_rows demo_on_chain (fun _ => true) 0 [demo_route] with Ret rows => rows | Raise _ => [] end.
Definition demo_live : gmap string lrow := match load_race_plane [demo_rows] with Ret lp => lp | Raise _ => ∅ end.

(** The live process loads the row and shoots on it. *)
Lemma demo_live_shoots :
  match ready_rows demo_on_chain (fun _ => true) 0 [demo_route], load_race_plane [demo_rows] with
  | Ret _, Ret _ => bool_decide (length (sent (run demo_live (fun _ => replicate 64 7) (live0 []) [demo_event])) = 1%nat)
  | _, _ => false
  end = true.
Proof. vm_compute. reflexivity. Qed.

Lemma demo_event_bytes : Forall (fun ev => is_bytes (ev_bh ev)) [demo_event].
Proof. constructor; [apply is_bytes_zeros|constructor]. Qed.

Lemma shot_for_the_pair_witness :
  exists tx ev l r have, tx ∈ sent (run demo_live (fun _ => replicate 64 7) (live0 []) [demo_event]) /\ ev_line ev = Some l /\
    (a_pair_dlmm (ar_acc r) = Some (pool_text (ln_opp l)) \/ a_pair_pump (ar_acc r) = Some (pool_text (ln_opp l))) /\
    published_row (demo_on_chain, demo_rows) r /\ (exists alt, AltRow alt have ∈ demo_on_chain).
Proof.
  pose proof demo_live_shoots as H.
  destruct (ready_rows demo_on_chain (fun _ => true) 0 [demo_route]) as [rows|] eqn:Er; [|discriminate H].
  destruct (load_race_plane [demo_rows]) as [lp|] eqn:El; [|discriminate H].
  apply bool_decide_eq_true in H.
  destruct (sent (run demo_live (fun _ => replicate 64 7) (live0 []) [demo_event])) as [|tx txs] eqn:E; [discriminate H|].
  assert (Htx : tx ∈ sent (run demo_live (fun _ => replicate 64 7) (live0 []) [demo_event])) by (rewrite E; left).
  assert (Hs : Forall (synced SYSTEM ExecTemplate.PUMP) [(demo_on_chain, demo_rows)]).
  { constructor; [|constructor]. exists (fun _ => true), [demo_route].
    split; [apply demo_routes_resolved|]. unfold demo_rows. cbn [fst snd]. by rewrite Er. }
  assert (Hlp : load_race_plane [demo_rows] = Ret demo_live) by (unfold demo_live; by rewrite El).
  assert (Hb : is_bytes (replicate 64 7)) by (apply (bool_decide_unpack _); vm_compute; exact I).
  destruct (shot_for_the_pair SYSTEM ExecTemplate.PUMP [(demo_on_chain, demo_rows)] demo_live (fun _ => replicate 64 7) [] [demo_event] tx
    Hs Hlp (fun _ => conj eq_refl Hb) demo_event_bytes Htx)
    as (ev & l & d & src & r & alt & hv & a & ks & wi & ri & lw & lr & _ & Hl & _ & _ & Hsrc & Hpub & _ & Hp & _ & Halt & _).
  apply list_elem_of_singleton in Hsrc as ->.
  exists tx, ev, l, r, hv. rewrite <- E. split; [exact Htx|]. split; [exact Hl|]. split; [exact Hp|]. split; [exact Hpub|].
  exists alt. exact Halt.
Defined.
(** * Which pairs are routes *)

(** A pool of the token's group. *)
Definition in_group (tok proto : string) (m : meta) : bool :=
  bool_decide (nonempty (m_token m) = Some tok) && bool_decide (proto_text m = proto).

Lemma groups_spec pools :
  let g := foldl add_meta [] pools in
  NoDup (od_keys g) /\ forall tok proto, proto ∈ ["dlmm"; "pump"]%string ->
    of_proto (default [] (od_get g tok)) proto = filter (fun m => in_group tok proto m = true) pools.
Proof.
  induction pools as [|m pools IH] using rev_ind; [split; [constructor|done]|].
  rewrite foldl_app. cbn [foldl]. destruct IH as [Hn Hg]. set (g := foldl add_meta [] pools) in *.
  split.
  - unfold add_meta. destruct (nonempty (m_token m)); [|done]. destruct (bool_decide _); [|done]. by apply od_nodup_set.
  - intros tok proto Hp. rewrite filter_app, <- (Hg tok proto Hp), filter_cons, filter_nil.
    unfold in_group, add_meta. destruct (nonempty (m_token m)) as [t|] eqn:Et.
    2: { rewrite bool_decide_eq_false_2 by done. rewrite decide_False by done. by rewrite app_nil_r. }
    case_bool_decide as Hpm; cbn [negb].
    + rewrite od_get_set. case_decide as Ht.
      * subst t. rewrite (bool_decide_eq_true_2 (Some tok = Some tok)) by done. cbn [default andb].
        unfold of_proto, default, from_option, id. rewrite od_get_set. case_decide as Hq.
        -- subst proto. rewrite bool_decide_eq_true_2, decide_True by done. done.
        -- rewrite bool_decide_eq_false_2, decide_False by done. by rewrite app_nil_r.
      * rewrite (bool_decide_eq_false_2 (Some t = Some tok)) by congruence.
        rewrite decide_False by done. by rewrite app_nil_r.
    + rewrite (bool_decide_eq_false_2 (proto_text m = proto)) by (intros <-; done).
      rewrite andb_false_r, decide_False by done. by rewrite app_nil_r.
Qed.

(** The legal routes: route0_pairs lists a pair exactly when one pool is a DLMM pool with a SOL
    side, one is a Pump pool, and both carry the same token. *)
Theorem route0_pairs_exact pools pairs a b tok :
  route0_pairs pools = Ret pairs ->
  (a, b, tok) ∈ pairs <->
  exists d p, d ∈ pools /\ p ∈ pools /\ m_sol_side d = true /\ m_pubkey d = Some a /\ m_pubkey p = Some b /\
    nonempty (m_token d) = Some tok /\ nonempty (m_token p) = Some tok /\
    proto_text d = "dlmm"%string /\ proto_text p = "pump"%string.
Proof.
  intros H. unfold route0_pairs in H. rewrite (collect_all_iff _ _ _ _ H).
  pose proof (groups_spec pools) as [Hn Hg]. set (g := foldl add_meta [] pools) in *.
  assert (Hin : forall t proto m, proto ∈ ["dlmm"; "pump"]%string ->
    m ∈ of_proto (default [] (od_get g t)) proto <-> m ∈ pools /\ nonempty (m_token m) = Some t /\ proto_text m = proto).
  { intros t proto m Hp. rewrite Hg by done. rewrite list_elem_of_filter. unfold in_group.
    rewrite andb_true_iff, !bool_decide_eq_true. tauto. }
  split.
  - intros ([t gr] & ys & Htg & Hys & Hx). cbn [fst snd] in Hys. apply od_elem_get in Htg; [|done].
    apply (collect_all_elem _ _ _ _ Hys) in Hx as (d & ys2 & Hd & Hys2 & Hx).
    apply (collect_all_elem _ _ _ _ Hys2) in Hx as (p & ys3 & Hp & Hys3 & Hx).
    unfold pair_row in Hys3. destruct (m_sol_side d) eqn:Hs; cbn [negb] in Hys3.
    2: { injection Hys3 as <-. by apply elem_of_nil in Hx. }
    apply py_bind_Ret in Hys3 as (x & Hxk & Hys3). apply py_bind_Ret in Hys3 as (y & Hyk & [= <-]).
    apply list_elem_of_singleton in Hx as [= -> -> ->].
    assert (E : gr = default [] (od_get g t)) by (by rewrite Htg). rewrite E in Hd, Hp.
    apply Hin in Hd as (? & ? & ?); [|by left]. apply Hin in Hp as (? & ? & ?); [|right; by left].
    unfold key_field in Hxk, Hyk. destruct (m_pubkey d) eqn:?, (m_pubkey p) eqn:?; [|done..].
    exists d, p. naive_solver.
  - intros (d & p & Hd & Hp & Hs & Ha & Hb & Htd & Htp & Hpd & Hpp).
    destruct (od_get g tok) as [gr|] eqn:Eg.
    2: { specialize (Hin tok "dlmm"%string d). rewrite Eg in Hin. exfalso.
         eapply not_elem_of_nil, Hin; [by left|done]. }
    assert (Edl : d ∈ of_proto gr "dlmm").
    { specialize (Hin tok "dlmm"%string d). rewrite Eg in Hin. apply Hin; [by left|done]. }
    assert (Epu : p ∈ of_proto gr "pump").
    { specialize (Hin tok "pump"%string p). rewrite Eg in Hin. apply Hin; [right; by left|done]. }
    assert (Htg : (tok, gr) ∈ g) by (by apply od_get_elem).
    destruct (collect_all_ret _ _ _ _ H Htg) as [ys Hys]. exists (tok, gr), ys. do 2 (split; [done|]).
    cbn [fst snd] in Hys. apply (collect_all_iff _ _ _ _ Hys).
    destruct (collect_all_ret _ _ _ _ Hys Edl) as [ys2 Hys2]. exists d, ys2. do 2 (split; [done|]).
    apply (collect_all_iff _ _ _ _ Hys2). exists p, [(a, b, tok)]. split; [done|]. split; [|by left].
    unfold pair_row. by rewrite Hs, Ha, Hb.
Qed.

Lemma route0_pairs_exact_witness :
  let d := Meta (Some "T") (Some "dlmm") None (Some "A") true in
  let p := Meta (Some "T") None (Some "pump") (Some "B") false in
  ("A", "B", "T")%string ∈ [("A", "B", "T")%string] /\
  exists x y, x ∈ [d; p] /\ y ∈ [d; p] /\ m_pubkey x = Some "A"%string /\ m_pubkey y = Some "B"%string.
Proof.
  intros d p. assert (H : route0_pairs [d; p] = Ret [("A", "B", "T")%string]) by reflexivity.
  assert (Hin : ("A", "B", "T")%string ∈ [("A", "B", "T")%string]) by left. split; [exact Hin|].
  destruct (proj1 (route0_pairs_exact [d; p] _ "A" "B" "T" H) Hin) as (x & y & Hx & Hy & _ & Hkx & Hky & _).
  exists x, y. split; [exact Hx|]. split; [exact Hy|]. split; [exact Hkx|exact Hky].
Defined.
