(* ===== verification/Recorder.v ===== *)
(** The swap recorder: arb-cap/record_dlmm.py.

    Snapshots of DLMM pairs from batched account reads (snapshot_pool, refresh_all), decoding of
    swaps from a transaction, the count of a pair's transactions between two slots (pair_events)
    and the main loop, which writes a triple when exactly one successful swap of a pair lies between
    two snapshots of it.  The node's answers are inputs: one reading of the accounts per
    snapshot, the signature lists and the transactions of each turn.  Prints and sleeps are
    outside. *)
From stdpp Require Import base list strings gmap sorting.
From Stdlib Require Import ZArith Lia.
From coqutil.Datatypes Require Import RecordSetters.
From S2P Require Import Prelude PyBytes Base58 Pda Accounts TxExpect Deps.
Import RecordSetters.DoubleBraceUpdate.
Open Scope Z_scope.
Open Scope py_scope.

(** * Snapshots of a pair *)

Notation accounts := (list (string * rpc_row)).

Record psnap := PSnap {
  p_slot : Z; p_lb : lb_pair; p_bins : list bin; p_rx : Z; p_ry : Z; p_watch : list string }.

(** [by.update({k: a for k, a in zip(ks, rows) if a})] *)
Definition take_rows (by_key : accounts) (ks : list string) (rows : list (option rpc_row)) : accounts :=
  foldl (fun m kr => match kr.2 with Some a => od_set m kr.1 a | None => m end) by_key (zip ks rows).

Definition pool_keys (pair : string) (lb : lb_pair) : pyres (list string) :=
  arrays <-! py_map (bin_array_pda pair) (array_indexes (active_id lb)) ;;
  Ret (fromkeys (filter (fun k => k <> ""%string)
                   (pair :: b58encode (vault_x lb) :: b58encode (vault_y lb) :: arrays))).

(** [prev] is the pair of the snapshot before, if any. *)
Definition watch_keys (pair : string) (prev : option lb_pair) : pyres (list string) :=
  match prev with
  | Some lb => pool_keys pair lb
  | None => Ret [pair]
  end.

Definition big_dlmm (a : rpc_row) : bool :=
  String.eqb (rw_owner a) Pda.DLMM && (10136 <=? blen (rw_data a)).

Definition bins_at (pair : string) (ka : string * rpc_row) : pyres (list bin) :=
  let a := ka.2 in
  if negb (big_dlmm a) then Ret [] else
  if negb (String.eqb (b58encode (slice 24 56 (rw_data a))) pair) then Ret [] else
  parse_bin_array (rw_data a).

Definition amount_or (by_key : accounts) (vault : bytes) (total : Z) : pyres Z :=
  match od_get by_key (b58encode vault) with
  | Some v => token_amount (rw_data v)
  | None => Ret total
  end.

Definition watched (pair : string) (ka : string * rpc_row) : bool :=
  String.eqb (rw_owner ka.2) Pda.DLMM && ((10136 <=? blen (rw_data ka.2)) || String.eqb ka.1 pair).

Definition snap_from_accounts (pair : string) (by_key : accounts) : pyres (option psnap) :=
  match od_get by_key pair with
  | None => Ret None
  | Some acc =>
      if negb (String.eqb (rw_owner acc) Pda.DLMM) then Ret None else
      match parse_lbpair (rw_data acc) with
      | Raise (ValueError _) => Ret None
      | Raise e => Raise e
      | Ret lb =>
          bins <-! collect_all (bins_at pair) by_key ;;
          rx <-! amount_or by_key (vault_x lb) (sum_by bin_x bins) ;;
          ry <-! amount_or by_key (vault_y lb) (sum_by bin_y bins) ;;
          let watch := [pair; b58encode (vault_x lb); b58encode (vault_y lb)] ++
                       (filter (fun ka => watched pair ka = true) by_key).*1 in
          Ret (Some (PSnap (rw_slot acc) lb bins rx ry (take 10 (fromkeys watch))))
      end
  end.

Section reads.
Context (rpc : list string -> rpc_config -> pyres rpc_reply).

Definition _merge_missing (pair : string) (by_key : accounts) : pyres (option psnap) :=
  sn <-! snap_from_accounts pair by_key ;;
  match sn with
  | None => Ret None
  | Some s =>
      keys <-! pool_keys pair (p_lb s) ;;
      let miss := filter (fun k => k ∉ od_keys by_key) keys in
      if bool_decide (miss = []) then Ret (Some s) else
      accs <-! Deps.get_multiple rpc miss None None ;;
      sn' <-! snap_from_accounts pair (take_rows by_key miss accs) ;;
      Ret (Some (default s sn'))
  end.

Definition snapshot_pool (pair : string) (prev : option lb_pair) : pyres (option psnap) :=
  ukeys <-! watch_keys pair prev ;;
  accs <-! Deps.get_multiple rpc ukeys None None ;;
  _merge_missing pair (take_rows [] ukeys accs).

(** ** refresh_all *)

Notation snaps := (list (string * psnap)).

(** The keys of all pairs, each once. *)
Definition keys_of (sn : snaps) (pair : string) : pyres (list string) :=
  watch_keys pair (p_lb <$> od_get sn pair).

(** What the pools of the first reading lack. *)
Definition extra_keys (by_key : accounts) (pair : string) : pyres (list string) :=
  sn <-! snap_from_accounts pair by_key ;;
  match sn with
  | None => Ret []
  | Some s => keys <-! pool_keys pair (p_lb s) ;; Ret (filter (fun k => k ∉ od_keys by_key) keys)
  end.

Definition set_snap (by_key : accounts) (sn : snaps) (pair : string) : pyres snaps :=
  s <-! snap_from_accounts pair by_key ;;
  Ret (match s with Some x => od_set sn pair x | None => sn end).

Definition refresh_all (pairs : list string) (sn : snaps) : pyres snaps :=
  all <-! collect_all (keys_of sn) pairs ;;
  let keys := fromkeys all in
  if bool_decide (keys = []) then Ret sn else
  accs <-! Deps.get_multiple rpc keys None None ;;
  let by_key := take_rows [] keys accs in
  more <-! collect_all (extra_keys by_key) pairs ;;
  let extra := fromkeys more in
  by_key <-! (if bool_decide (extra = []) then Ret by_key else
              accs2 <-! Deps.get_multiple rpc extra None None ;;
              Ret (take_rows by_key extra accs2)) ;;
  py_foldl (set_snap by_key) sn pairs.

(** ** pricing_snap *)

Record pricing := Pricing {
  pr_slot : Z; pr_pair : string; pr_lb : lb_pair; pr_bins : list bin; pr_rx : Z; pr_ry : Z;
  pr_vault_x : option Z; pr_vault_y : option Z; pr_k : Z }.

Definition vault_amount (v : option rpc_row) : pyres (option Z) :=
  match v with
  | Some a => n <-! token_amount (rw_data a) ;; Ret (Some n)
  | None => Ret None
  end.

Definition arrays_bins (arrs : list (option rpc_row)) : pyres (list bin) :=
  collect_all (fun a => match a with Some r => parse_bin_array (rw_data r) | None => Ret [] end) arrs.

Definition pricing_snap (pair : string) (k : Z) : pyres (option pricing) :=
  accs <-! Deps.get_multiple rpc [pair] None None ;;
  match accs with
  | Some acc :: _ =>
      if negb (String.eqb (rw_owner acc) Pda.DLMM) then Ret None else
      match parse_lbpair (rw_data acc) with
      | Raise (ValueError _) => Ret None
      | Raise e => Raise e
      | Ret lb =>
          keys <-! py_map (bin_array_pda pair) (array_indexes_k (active_id lb) k) ;;
          arrs <-! Deps.get_multiple rpc keys None None ;;
          bins <-! arrays_bins arrs ;;
          let use := sort_bins (filter (fun b => Z.abs (bin_id b - active_id lb) <= k) bins) in
          vaults <-! Deps.get_multiple rpc [b58encode (vault_x lb); b58encode (vault_y lb)] None None ;;
          vx <-! vault_amount (default None (vaults !! 0%nat)) ;;
          vy <-! vault_amount (default None (vaults !! 1%nat)) ;;
          Ret (Some (Pricing (rw_slot acc) pair lb use (sum_by bin_x use) (sum_by bin_y use) vx vy k))
      end
  | _ => Ret None
  end.
End reads.

(** * Swaps of a transaction *)

(** An account key of the JSON form: a text, or an object with a pubkey. *)
Inductive jkey := KText (s : string) | KDict (pubkey : string).
Definition key_text (k : jkey) : string := match k with KText s => s | KDict s => s end.

(** Instruction data: a base58 text or a list of integers. *)
Inductive jdata := DText (s : string) | DList (l : list Z).
(** An instruction's account: a position or a key. *)
Inductive jacc := AIndex (i : Z) | AKey (s : string).

Record jix := JIx {
  j_program : option string; j_program_index : option Z; j_data : option jdata; j_accounts : list jacc }.

Record jtx := JTx {
  j_err : bool; j_keys : list jkey; j_writable : list jkey; j_readonly : list jkey;
  j_ixs : list jix; j_inner : list (list jix); j_slot : option Z; j_time : option Z }.

Record swap := Swap { w_pair : string; w_in : Z; w_min : Z; w_accounts : list string; w_keys : list string }.

Definition tx_keys (tx : jtx) : list string := key_text <$> j_keys tx ++ j_writable tx ++ j_readonly tx.

(** [l[i]], counting from the end for a negative [i]. *)
Definition at_index {A} (l : list A) (i : Z) : pyres A :=
  let i := if i <? 0 then i + Z.of_nat (length l) else i in
  if i <? 0 then Raise IndexError else
  match l !! Z.to_nat i with Some x => Ret x | None => Raise IndexError end.

Definition program_id (keys : list string) (ix : jix) : pyres (option string) :=
  match j_program ix, j_program_index ix with
  | Some p, _ => Ret (Some p)
  | None, Some i => if i <? Z.of_nat (length keys) then p <-! at_index keys i ;; Ret (Some p) else Ret None
  | None, None => Ret None
  end.

Definition ix_data (d : option jdata) : pyres bytes :=
  match d with
  | Some (DText s) => b58decode_any s
  | Some (DList l) => if forallb (fun b => (0 <=? b) && (b <? 256)) l then Ret l
                      else Raise (ValueError "bytes must be in range(0, 256)")
  | None => Ret []
  end.

Definition acc_key (keys : list string) (a : jacc) : pyres string :=
  match a with AIndex i => at_index keys i | AKey s => Ret s end.

Definition decode_ix (keys : list string) (ix : jix) : pyres (list swap) :=
  pid <-! program_id keys ix ;;
  if negb (bool_decide (pid = Some Pda.DLMM)) then Ret [] else
  data <-! ix_data (j_data ix) ;;
  if (blen data <? 24) || negb (bool_decide (slice 0 8 data = DLMM_SWAP2 \/ slice 0 8 data = DLMM_SWAP1))
  then Ret [] else
  amount_in <-! unpack_u 8 data 8 ;;
  min_out <-! unpack_u 8 data 16 ;;
  accs <-! py_map (acc_key keys) (j_accounts ix) ;;
  match accs with
  | [] => Ret []
  | p :: _ => Ret [Swap p amount_in min_out accs keys]
  end.

Definition decode_swaps (tx : jtx) : pyres (list swap) :=
  if j_err tx then Ret [] else
  collect_all (decode_ix (tx_keys tx)) (j_ixs tx ++ concat (j_inner tx)).

Definition decode_swap2 (tx : jtx) : pyres (option swap) :=
  sw <-! decode_swaps tx ;; Ret (head sw).

(** * Transactions of a pair between two slots *)

Record sigrow := SigRow { g_sig : string; g_slot : option Z; g_err : bool }.

(** One page, newest first: the count and whether the answer is final. *)
Fixpoint scan_page (lo hi n : Z) (page : list sigrow) : Z * bool :=
  match page with
  | [] => (n, false)
  | s :: page' =>
      let slot := or0 (g_slot s) in
      if slot <=? lo then (n, true) else
      if (slot <=? hi) && negb (g_err s) then
        if 1 <? n + 1 then (n + 1, true) else scan_page lo hi (n + 1) page'
      else scan_page lo hi n page'
  end.

(** [pages before]: the at most 30 signatures older than [before]. *)
Fixpoint event_pages (pages : option string -> pyres (list sigrow)) (lo hi : Z) (turns : nat)
    (before : option string) (n : Z) : pyres Z :=
  match turns with
  | O => Ret n
  | S turns' =>
      sigs <-! pages before ;;
      match List.rev sigs with
      | [] => Ret n
      | last :: _ =>
          let '(n', final) := scan_page lo hi n sigs in
          if (final : bool) then Ret n' else
          if or0 (g_slot last) <=? lo then Ret n' else
          event_pages pages lo hi turns' (Some (g_sig last)) n'
      end
  end.

Definition pair_events (pages : option string -> pyres (list sigrow)) (lo hi : Z) : pyres Z :=
  event_pages pages lo hi 8 None 0.

(** * Triples *)

Record triple := Triple {
  t_pool : Z; t_swap_for_y : Z; t_in : Z; t_min : Z; t_now : Z;
  t_lb0 : lb_pair; t_lb1 : lb_pair;
  t_before : list bin; t_after : list bin; t_before_rx : Z; t_before_ry : Z; t_after_rx : Z; t_after_ry : Z;
  t_vault_rx0 : Z; t_vault_ry0 : Z; t_vault_rx1 : Z; t_vault_ry1 : Z;
  t_slot0 : Z; t_slot1 : Z; t_pair : string; t_sig : string; t_tx_slot : Z; t_gap : Z }.

Definition window_at (active : Z) (l : list bin) : list bin :=
  filter (fun b => Z.abs (bin_id b - active) <= 16) l.

(** [now] is the block's time, or the clock's when the block has none; the signature, the slot and
    the gap are added by the main loop. *)
Definition emit_triple (pool_idx : Z) (before after : psnap) (sw : swap) (now : Z)
    (sig : string) (tx_slot gap : Z) : triple :=
  let lb0 := p_lb before in
  let lb1 := p_lb after in
  let window := window_at (active_id lb0) (p_bins before) in
  let near := window_at (active_id lb0) (p_bins after) in
  let window_after := if bool_decide (near = []) then window_at (active_id lb1) (p_bins after) else near in
  Triple pool_idx (if p_rx before <? p_rx after then 1 else 0) (w_in sw) (w_min sw) now lb0 lb1
    window window_after (sum_by bin_x window) (sum_by bin_y window)
    (sum_by bin_x window_after) (sum_by bin_y window_after)
    (p_rx before) (p_ry before) (p_rx after) (p_ry after) (p_slot before) (p_slot after)
    (w_pair sw) sig tx_slot gap.

(** * The main loop *)

(** [pairs] and [idx] get their keys together and their values are not read later but for [idx]. *)
Record rstate := RState {
  r_have : Z; r_seen : gset string; r_last : option string; r_snaps : list (string * psnap);
  r_pairs : list string; r_idx : list (string * Z); r_out : list triple }.

(** What the node answers in one turn: per adopted pair and per pair processed one reading of the
    accounts. *)
Record turn := Turn {
  n_sigs : pyres (list sigrow);
  n_tx : string -> pyres (option jtx);
  n_adopt : string -> list string -> rpc_config -> pyres rpc_reply;
  n_read : string -> list string -> rpc_config -> pyres rpc_reply;
  n_events : string -> option string -> pyres (list sigrow);
  n_refresh : list string -> rpc_config -> pyres rpc_reply;
  n_clock : Z }.

(** The successful signatures above the last one seen, newest first. *)
Fixpoint new_heads (last : option string) (seen : gset string) (sigs : list sigrow) : list sigrow :=
  match sigs with
  | [] => []
  | s :: sigs' =>
      if bool_decide (Some (g_sig s) = last) then [] else
      if g_err s || bool_decide (g_sig s ∈ seen) then new_heads last seen sigs'
      else s :: new_heads last seen sigs'
  end.

Notation found := (list (string * list (sigrow * jtx * swap))).

Definition add_found (by_pair : found) (s : sigrow) (tx : jtx) (sw : swap) : found :=
  od_set by_pair (w_pair sw) (default [] (od_get by_pair (w_pair sw)) ++ [(s, tx, sw)]).

(** One swap: a known pair's is kept, an unknown pair is adopted while there are fewer than 12. *)
Definition on_swap (w : turn) (s : sigrow) (tx : jtx) (sf : rstate * found) (sw : swap) : pyres (rstate * found) :=
  let '(r, by_pair) := sf in
  match od_get (r_snaps r) (w_pair sw) with
  | Some _ => Ret (r, add_found by_pair s tx sw)
  | None =>
      if (length (r_snaps r) <? 12)%nat then
        sn <-! snapshot_pool (n_adopt w (w_pair sw)) (w_pair sw) None ;;
        match sn with
        | None => Ret (r, by_pair)
        | Some x =>
            Ret (r {{ r_snaps ::= fun l => od_set l (w_pair sw) x;
                      r_pairs ::= fun l => if bool_decide (w_pair sw ∈ l) then l else l ++ [w_pair sw];
                      r_idx ::= fun l => od_set l (w_pair sw) (Z.of_nat (length l)) }}, by_pair)
        end
      else Ret (r, by_pair)
  end.

(** A transaction; one that cannot be fetched is skipped. *)
Definition on_head (w : turn) (sf : rstate * found) (s : sigrow) : pyres (rstate * found) :=
  match n_tx w (g_sig s) with
  | Raise _ | Ret None => Ret sf
  | Ret (Some tx) => sws <-! decode_swaps tx ;; py_foldl (on_swap w s tx) sf sws
  end.

(** The snapshot is replaced and the signatures are done with. *)
Definition settle (pk : string) (sn : option psnap) (sigs : list string) (r : rstate) : rstate :=
  r {{ r_snaps ::= fun l => match sn with Some x => od_set l pk x | None => l end;
       r_seen ::= union (list_to_set sigs) }}.

Section record.
Context (target : Z).

(** One pair's swaps of this turn. *)
Definition on_pair (w : turn) (r : rstate) (pd : string * list (sigrow * jtx * swap)) : pyres rstate :=
  let '(pk, decoded) := pd in
  match decoded with
  | [(s, tx, sw)] =>
      let tx_slot := or0 (j_slot tx) in
      let before := od_get (r_snaps r) pk in
      match before with
      | Some b =>
          if tx_slot <=? p_slot b then
            sn <-! snapshot_pool (n_read w pk) pk None ;; Ret (settle pk sn [g_sig s] r)
          else
            after <-! snapshot_pool (n_read w pk) pk None ;;
            match after with
            | None => Ret r
            | Some a =>
                let gap := p_slot a - p_slot b in
                let drop := Ret (settle pk (Some a) [g_sig s] r) in
                if 16 <? gap then drop else
                match pair_events (n_events w pk) (p_slot b) (p_slot a) with
                | Raise _ => drop
                | Ret nev =>
                    if negb (nev =? 1) then drop else
                    pool <-! match od_get (r_idx r) pk with Some i => Ret i | None => Raise (KeyError pk) end ;;
                    let now := match or0 (j_time tx) with 0 => n_clock w | t => t end in
                    let rec := emit_triple pool b a sw now (g_sig s) tx_slot gap in
                    if bool_decide (t_before rec = []) || bool_decide (t_after rec = []) then drop else
                    Ret ((settle pk (Some a) [g_sig s] r)
                           {{ r_out ::= fun l => l ++ [rec]; r_have ::= Z.add 1 }})
                end
            end
      | None => sn <-! snapshot_pool (n_read w pk) pk None ;; Ret (settle pk sn [g_sig s] r)
      end
  | _ =>
      sn <-! snapshot_pool (n_read w pk) pk None ;;
      Ret (settle pk sn ((fun d => g_sig d.1.1) <$> decoded) r)
  end.

Fixpoint on_pairs (w : turn) (r : rstate) (by_pair : found) : pyres rstate :=
  match by_pair with
  | [] => Ret r
  | pd :: by_pair' =>
      if target <=? r_have r then Ret r else
      r' <-! on_pair w r pd ;; on_pairs w r' by_pair'
  end.

(** One turn; [None] once the target is reached.  A failing list of signatures skips the turn, a
    failing refresh leaves the snapshots as they are. *)
Definition record_turn (w : turn) (r : rstate) : pyres rstate :=
  match n_sigs w with
  | Raise _ => Ret r
  | Ret sigs =>
      let heads := new_heads (r_last r) (r_seen r) sigs in
      let r := match sigs with s :: _ => r {{ r_last := Some (g_sig s) }} | [] => r end in
      sf <-! py_foldl (on_head w) (r, []) (List.rev heads) ;;
      r <-! on_pairs w sf.1 sf.2 ;;
      match refresh_all (n_refresh w) (r_pairs r) (r_snaps r) with
      | Ret sn => Ret (r {{ r_snaps := sn }})
      | Raise _ => Ret r
      end
  end.

Fixpoint record_turns (ws : list turn) (r : rstate) : pyres rstate :=
  match ws with
  | [] => Ret r
  | w :: ws' => if target <=? r_have r then Ret r else r' <-! record_turn w r ;; record_turns ws' r'
  end.
End record.

(** * What a turn collects *)

(** The part of the state that only on_pair changes. *)
Definition ledger (r : rstate) := (r_have r, r_seen r, r_out r).

(** A swap of [pair] that the node's transaction of [s] has. *)
Definition seen_swap (w : turn) (seen : gset string) (pair : string) (d : sigrow * jtx * swap) : Prop :=
  g_sig d.1.1 ∉ seen /\ n_tx w (g_sig d.1.1) = Ret (Some d.1.2) /\ w_pair d.2 = pair /\
  exists sws, decode_swaps d.1.2 = Ret sws /\ d.2 ∈ sws.

Record found_ok (w : turn) (seen : gset string) (by_pair : found) : Prop := {
  fo_nodup : NoDup (od_keys by_pair);
  fo_swaps : forall k ds, (k, ds) ∈ by_pair -> Forall (seen_swap w seen k) ds }.

Lemma add_found_ok w seen by_pair s tx sw sws :
  found_ok w seen by_pair -> g_sig s ∉ seen -> n_tx w (g_sig s) = Ret (Some tx) ->
  decode_swaps tx = Ret sws -> sw ∈ sws -> found_ok w seen (add_found by_pair s tx sw).
Proof.
  intros [Hn Hs] H1 H2 H3 H4. unfold add_found. constructor; [by apply od_nodup_set|].
  intros k ds Hp. apply od_elem_get in Hp; [|by apply od_nodup_set]. rewrite od_get_set in Hp.
  case_decide as Hk; [|by apply Hs, od_get_elem]. injection Hp as <-. subst k.
  apply Forall_app. split.
  - destruct (od_get by_pair (w_pair sw)) as [old|] eqn:Eo; [|constructor]. by apply Hs, od_get_elem.
  - apply Forall_singleton. split; [done|]. split; [done|]. split; [done|]. by exists sws.
Qed.

Lemma on_swap_ok w seen s tx sws sw r by_pair r' by_pair' :
  found_ok w seen by_pair -> g_sig s ∉ seen -> n_tx w (g_sig s) = Ret (Some tx) ->
  decode_swaps tx = Ret sws -> sw ∈ sws -> on_swap w s tx (r, by_pair) sw = Ret (r', by_pair') ->
  found_ok w seen by_pair' /\ ledger r' = ledger r.
Proof.
  intros Hf H1 H2 H3 H4. unfold on_swap.
  destruct (od_get (r_snaps r) (w_pair sw)).
  { intros [= <- <-]. split; [by eapply add_found_ok|done]. }
  destruct (_ <? _)%nat; [|by intros [= <- <-]].
  intros H. apply py_bind_Ret in H as ([x|] & _ & [= <- <-]); [|done]. split; [done|]. by destruct r.
Qed.

Lemma on_head_ok w seen s r by_pair r' by_pair' :
  found_ok w seen by_pair -> g_sig s ∉ seen -> on_head w (r, by_pair) s = Ret (r', by_pair') ->
  found_ok w seen by_pair' /\ ledger r' = ledger r.
Proof.
  intros Hf Hs. unfold on_head. destruct (n_tx w (g_sig s)) as [[tx|]|e] eqn:Etx; try (by intros [= <- <-]).
  intros H. apply py_bind_Ret in H as (sws & Hd & H).
  apply (py_foldl_inv (fun sf => found_ok w seen sf.2 /\ ledger sf.1 = ledger r)) in H; [done| |done].
  intros sw [r1 b1] [r2 b2] Hsw [Hb1 Hr1] Hstep. cbn [fst snd] in *.
  destruct (on_swap_ok w seen s tx sws sw r1 b1 r2 b2) as [? E]; try done. by rewrite E.
Qed.

Lemma new_heads_fresh last seen sigs : Forall (fun s => g_sig s ∉ seen) (new_heads last seen sigs).
Proof.
  induction sigs as [|s sigs IH]; cbn [new_heads]; [constructor|]. destruct (bool_decide _); [constructor|].
  destruct (g_err s); [done|]. cbn [orb]. case_bool_decide; [done|]. by constructor.
Qed.

Lemma on_heads_ok w seen heads r r' by_pair' :
  Forall (fun s => g_sig s ∉ seen) heads -> py_foldl (on_head w) (r, []) (List.rev heads) = Ret (r', by_pair') ->
  found_ok w seen by_pair' /\ ledger r' = ledger r.
Proof.
  intros Hh H. rewrite Forall_forall in Hh.
  apply (py_foldl_inv (fun sf => found_ok w seen sf.2 /\ ledger sf.1 = ledger r)) in H; [done| |].
  - intros s [r1 b1] [r2 b2] Hs [Hb1 Hr1] Hstep. cbn [fst snd] in *.
    destruct (on_head_ok w seen s r1 b1 r2 b2) as [? E]; [done| |done|by rewrite E].
    apply Hh. apply list_elem_of_In, in_rev. by apply list_elem_of_In.
  - split; [|done]. constructor; [constructor|]. intros ? ? Hn. by apply elem_of_nil in Hn.
Qed.

(** * What a turn writes *)

Record aligned (ws : list turn) (t : triple) : Prop := {
  al_tx : t_slot0 t < t_tx_slot t;
  al_gap : t_gap t = t_slot1 t - t_slot0 t /\ t_slot1 t - t_slot0 t <= 16;
  al_window : t_before t <> [] /\ t_after t <> [];
  al_source : exists w tx sws sw, w ∈ ws /\ n_tx w (t_sig t) = Ret (Some tx) /\ or0 (j_slot tx) = t_tx_slot t /\
    decode_swaps tx = Ret sws /\ sw ∈ sws /\ w_pair sw = t_pair t /\ w_in sw = t_in t /\ w_min sw = t_min t /\
    pair_events (n_events w (t_pair t)) (t_slot0 t) (t_slot1 t) = Ret 1 }.

Lemma aligned_mono ws ws' t : ws ⊆ ws' -> aligned ws t -> aligned ws' t.
Proof. intros Hs [? ? ? (w & tx & sws & sw & Hw & H)]. constructor; try done. exists w, tx, sws, sw. split; [by apply Hs|done]. Qed.

(** What on_pair does to the ledger: it settles the pair's signatures and may write one triple. *)
Definition pair_step (w : turn) (seen : gset string) (pair : string) (r r' : rstate) : Prop :=
  r_seen r ⊆ r_seen r' /\
  ((r_have r' = r_have r /\ r_out r' = r_out r) \/
   (exists t, r_have r' = r_have r + 1 /\ r_out r' = r_out r ++ [t] /\ t_pair t = pair /\
     t_sig t ∉ seen /\ t_sig t ∈ r_seen r' /\ aligned [w] t)).

Lemma settle_step w seen pair sn sigs r : pair_step w seen pair r (settle pair sn sigs r).
Proof. unfold pair_step. destruct r. cbn. split; [set_solver|by left]. Qed.

Lemma on_pair_step w seen pair ds r r' :
  Forall (seen_swap w seen pair) ds -> on_pair w r (pair, ds) = Ret r' -> pair_step w seen pair r r'.
Proof.
  intros Hds. unfold on_pair.
  assert (Hdrop : forall sn sigs, pair_step w seen pair r (settle pair sn sigs r)) by (intros; apply settle_step).
  destruct ds as [|[[s tx] sw] [|d2 ds]];
    try (intros H; apply py_bind_Ret in H as (? & _ & [= <-]); apply Hdrop).
  destruct (od_get (r_snaps r) pair) as [b|] eqn:Eb;
    [|intros H; apply py_bind_Ret in H as (? & _ & [= <-]); apply Hdrop].
  destruct (Z.leb_spec (or0 (j_slot tx)) (p_slot b)) as [Hle|Hlt];
    [intros H; apply py_bind_Ret in H as (? & _ & [= <-]); apply Hdrop|].
  intros H. apply py_bind_Ret in H as (oa & _ & H). destruct oa as [a|]; [|injection H as <-; split; [done|by left]].
  cbv zeta in H. destruct (Z.ltb_spec 16 (p_slot a - p_slot b)) as [Hbig|Hgap]; [injection H as <-; apply Hdrop|].
  destruct (pair_events _ _ _) as [nev|] eqn:Ev; [|injection H as <-; apply Hdrop].
  destruct (Z.eqb_spec nev 1) as [->|Hne]; cbn [negb] in H; [|injection H as <-; apply Hdrop].
  apply py_bind_Ret in H as (pool & _ & H).
  set (rec := emit_triple pool b a sw _ _ _ _) in H.
  case_bool_decide as W1; [injection H as <-; apply Hdrop|]. cbn [orb] in H.
  case_bool_decide as W2; [injection H as <-; apply Hdrop|]. injection H as <-.
  apply Forall_singleton in Hds as (Hfresh & Htx & Hp & sws & Hd & Hsw). cbn [fst snd] in *. subst pair.
  assert (Ha : aligned [w] rec).
  { constructor; [done|split; [done|exact Hgap]|done|]. exists w, tx, sws, sw. split; [by left|]. done. }
  split; [destruct r; cbn; set_solver|]. right. exists rec. destruct r. cbn.
  split; [lia|]. do 3 (split; [done|]). split; [set_solver|exact Ha].
Qed.

(** * Every turn *)

(** What the recorder has written, from an empty ledger. *)
Record book (ws : list turn) (h0 : Z) (r : rstate) : Prop := {
  bk_have : r_have r = h0 + Z.of_nat (length (r_out r));
  bk_seen : Forall (fun t => t_sig t ∈ r_seen r) (r_out r);
  bk_once : NoDup ((fun t => (t_sig t, t_pair t)) <$> r_out r);
  bk_aligned : Forall (aligned ws) (r_out r) }.

Lemma book_mono ws ws' h0 r : ws ⊆ ws' -> book ws h0 r -> book ws' h0 r.
Proof.
  intros Hs [? ? ? H]. constructor; try done. eapply Forall_impl; [exact H|]. intros t. by apply aligned_mono.
Qed.

Lemma pair_step_book w ws seen h0 todo pair r r' :
  w ∈ ws -> book ws h0 r -> Forall (fun t => t_sig t ∈ seen \/ t_pair t ∉ pair :: todo) (r_out r) ->
  pair ∉ todo -> pair_step w seen pair r r' ->
  book ws h0 r' /\ Forall (fun t => t_sig t ∈ seen \/ t_pair t ∉ todo) (r_out r').
Proof.
  intros Hw [B1 B2 B3 B4] Hp Hn [Hsee [[Hh Ho]|(t & Hh & Ho & Et & Hfresh & Hin & Hal)]].
  - split; [constructor; rewrite ?Hh, ?Ho; try done; eapply Forall_impl; [exact B2|set_solver]|].
    rewrite Ho. eapply Forall_impl; [exact Hp|]. cbn. intros x Hx. rewrite not_elem_of_cons in Hx. tauto.
  - split.
    + constructor; rewrite ?Hh, ?Ho.
      * rewrite length_app. cbn [length]. lia.
      * apply Forall_app. split; [eapply Forall_impl; [exact B2|set_solver]|by apply Forall_singleton].
      * rewrite fmap_app. apply NoDup_app. split; [done|]. split; [|apply NoDup_singleton].
        intros x Hx Hx2. apply list_elem_of_singleton in Hx2 as ->. apply list_elem_of_fmap in Hx as (u & [= E1 E2] & Hu).
        rewrite Forall_forall in Hp. destruct (Hp u Hu) as [Hs|Hs]; [by rewrite <- E1 in Hs|].
        rewrite <- E2, Et in Hs. apply not_elem_of_cons in Hs as [Hs _]. by destruct Hs.
      * apply Forall_app. split; [done|]. apply Forall_singleton. eapply aligned_mono; [|exact Hal].
        intros x Hx. by apply list_elem_of_singleton in Hx as ->.
    + rewrite Ho. apply Forall_app. split; [|apply Forall_singleton; right; rewrite Et; exact Hn].
      eapply Forall_impl; [exact Hp|]. cbn. intros x Hx. rewrite not_elem_of_cons in Hx. tauto.
Qed.

Lemma on_pairs_book target w ws seen h0 by_pair r r' :
  w ∈ ws -> NoDup (od_keys by_pair) -> (forall k ds, (k, ds) ∈ by_pair -> Forall (seen_swap w seen k) ds) ->
  book ws h0 r -> Forall (fun t => t_sig t ∈ seen \/ t_pair t ∉ od_keys by_pair) (r_out r) ->
  on_pairs target w r by_pair = Ret r' -> book ws h0 r'.
Proof.
  intros Hw. revert r. induction by_pair as [|[k ds] by_pair IH]; intros r Hn Hs Hb Hp; cbn [on_pairs]; [by intros [= <-]|].
  destruct (_ <=? _); [by intros [= <-]|]. intros H. apply py_bind_Ret in H as (r1 & H1 & H).
  apply NoDup_cons in Hn as [Hk Hn]. change ((k, ds).1) with k in Hk.
  assert (Hds : Forall (seen_swap w seen k) ds) by (apply Hs; by left).
  destruct (pair_step_book w ws seen h0 (od_keys by_pair) k r r1) as [Hb1 Hp1]; try done.
  { by eapply on_pair_step. }
  apply (IH r1); try done. intros k' ds' Hin. apply Hs. by right.
Qed.

Lemma record_turn_book target w ws h0 r r' :
  w ∈ ws -> book ws h0 r -> record_turn target w r = Ret r' -> book ws h0 r'.
Proof.
  intros Hw Hb. unfold record_turn. destruct (n_sigs w) as [sigs|]; [|by intros [= <-]].
  set (heads := new_heads _ _ _). set (r0 := match sigs with [] => r | _ => _ end). intros H.
  assert (E0 : ledger r0 = ledger r) by (unfold r0; destruct sigs; by destruct r).
  apply py_bind_Ret in H as ([r1 by_pair] & Hh & H). apply py_bind_Ret in H as (r2 & H2 & H). cbn [fst snd] in *.
  destruct (on_heads_ok w (r_seen r) heads r0 r1 by_pair (new_heads_fresh _ _ _) Hh) as [[Hn Hs] E1].
  rewrite E0 in E1. injection E1 as Eh Es Eo.
  assert (Hb1 : book ws h0 r1) by (destruct Hb; constructor; rewrite ?Eh, ?Es, ?Eo; done).
  assert (Hb2 : book ws h0 r2).
  { eapply (on_pairs_book target w ws (r_seen r)); try done. rewrite Eo. eapply Forall_impl; [apply Hb|]. by left. }
  destruct (refresh_all _ _ _); injection H as <-; [|done]. destruct Hb2; destruct r2; by constructor.
Qed.

Lemma record_turns_book target ws0 ws h0 r r' :
  ws ⊆ ws0 -> book ws0 h0 r -> record_turns target ws r = Ret r' -> book ws0 h0 r'.
Proof.
  revert r. induction ws as [|w ws IH]; intros r Hs Hb; cbn [record_turns]; [by intros [= <-]|].
  destruct (_ <=? _); [by intros [= <-]|]. intros H. apply py_bind_Ret in H as (r1 & H1 & H).
  apply (IH r1); [set_solver| |done]. eapply record_turn_book; [|exact Hb|exact H1]. set_solver.
Qed.

(** * Counting a pair's transactions *)

Definition in_range (lo hi : Z) (s : sigrow) : bool :=
  (lo <? or0 (g_slot s)) && (or0 (g_slot s) <=? hi) && negb (g_err s).
Definition count (lo hi : Z) (l : list sigrow) : Z :=
  Z.of_nat (length (filter (fun s => in_range lo hi s = true) l)).
Definition newer (lo : Z) (l : list sigrow) : list sigrow := filter (fun s => lo < or0 (g_slot s)) l.

(** The node's pages of a history, newest first. *)
Fixpoint older (before : option string) (h : list sigrow) : list sigrow :=
  match before with
  | None => h
  | Some b => match h with
              | [] => []
              | s :: h' => if String.eqb (g_sig s) b then h' else older before h'
              end
  end.
Definition pages_of (h : list sigrow) (before : option string) : pyres (list sigrow) :=
  Ret (take 30 (older before h)).

Definition newest_first (h : list sigrow) : Prop :=
  StronglySorted (fun a b => or0 (g_slot b) <= or0 (g_slot a)) h.

Lemma count_app lo hi a b : count lo hi (a ++ b) = count lo hi a + count lo hi b.
Proof. unfold count. rewrite filter_app, length_app. lia. Qed.

Lemma count_nonneg lo hi l : 0 <= count lo hi l.
Proof. unfold count. lia. Qed.

Lemma count_cons lo hi s l : count lo hi (s :: l) = (if in_range lo hi s then 1 else 0) + count lo hi l.
Proof. unfold count. rewrite filter_cons. destruct (in_range lo hi s) eqn:E; case_decide; cbn [length]; try done; lia. Qed.

(** Behind an entry that is old enough nothing counts. *)
Lemma count_old lo hi s l : newest_first (s :: l) -> or0 (g_slot s) <= lo -> count lo hi (s :: l) = 0.
Proof.
  intros Hs Hle. assert (Hall : Forall (fun x => or0 (g_slot x) <= lo) (s :: l)).
  { inversion Hs as [|? ? _ H]; subst. constructor; [done|]. eapply Forall_impl; [exact H|]. cbn. intros; lia. }
  clear Hs Hle. induction Hall as [|x xs Hx _ IH]; [done|]. rewrite count_cons, IH. unfold in_range.
  destruct (Z.ltb_spec lo (or0 (g_slot x))); [lia|done].
Qed.

Lemma scan_page_spec lo hi n page rest :
  0 <= n <= 1 -> newest_first (page ++ rest) ->
  let '(n', final) := scan_page lo hi n page in
  if (final : bool) then n' = Z.min 2 (n + count lo hi (page ++ rest))
  else n' = n + count lo hi page /\ 0 <= n' <= 1 /\ Forall (fun s => lo < or0 (g_slot s)) page.
Proof.
  revert n. induction page as [|s page IH]; intros n Hn Hs; cbn [scan_page app].
  { unfold count. cbn. split; [lia|]. split; [lia|constructor]. }
  destruct (Z.leb_spec (or0 (g_slot s)) lo) as [Hle|Hgt].
  { rewrite (count_old lo hi s (page ++ rest)) by done. lia. }
  inversion Hs as [|? ? Hs' _]; subst. pose proof (count_nonneg lo hi (page ++ rest)) as Hpos.
  rewrite !count_cons. unfold in_range. destruct (Z.ltb_spec lo (or0 (g_slot s))); [|lia]. cbn [andb].
  destruct ((or0 (g_slot s) <=? hi) && negb (g_err s)).
  - destruct (Z.ltb_spec 1 (n + 1)); [lia|]. specialize (IH (n + 1) ltac:(lia) Hs').
    destruct (scan_page lo hi (n + 1) page) as [n' []]; [lia|].
    destruct IH as (-> & ? & ?). split; [lia|]. split; [lia|]. by constructor.
  - specialize (IH n Hn Hs'). destruct (scan_page lo hi n page) as [n' []]; [lia|].
    destruct IH as (-> & ? & ?). split; [lia|]. split; [lia|]. by constructor.
Qed.

Lemma older_last h pre page rest x :
  NoDup (g_sig <$> h) -> h = pre ++ page ++ x :: rest -> older (Some (g_sig x)) h = rest.
Proof.
  intros Hn ->. rewrite app_assoc in *. generalize dependent (pre ++ page). clear. intros l Hn.
  induction l as [|y l IH]; cbn.
  - by rewrite String.eqb_refl.
  - apply NoDup_cons in Hn as [Hy Hn]. destruct (String.eqb_spec (g_sig y) (g_sig x)) as [E|]; [|by apply IH].
    destruct Hy. rewrite E. apply list_elem_of_fmap. exists x. split; [done|]. apply elem_of_app. right. by left.
Qed.

Lemma length_newer_app lo a b : length (newer lo (a ++ b)) = (length (newer lo a) + length (newer lo b))%nat.
Proof. unfold newer. by rewrite filter_app, length_app. Qed.

Lemma newer_all lo l : Forall (fun s => lo < or0 (g_slot s)) l -> length (newer lo l) = length l.
Proof. intros H. unfold newer. induction H as [|x l Hx _ IH]; [done|]. rewrite filter_cons_True by done. cbn. by rewrite IH. Qed.

Lemma event_pages_spec h lo hi turns : forall pre rest before n,
  NoDup (g_sig <$> h) -> newest_first rest -> h = pre ++ rest -> older before h = rest -> 0 <= n <= 1 ->
  (length (newer lo rest) < 30 * turns)%nat ->
  event_pages (pages_of h) lo hi turns before n = Ret (Z.min 2 (n + count lo hi rest)).
Proof.
  induction turns as [|turns IH]; intros pre rest before n Hn Hs Hh Ho Hn1 Hlen; [lia|].
  cbn [event_pages]. unfold pages_of at 1. rewrite Ho. cbn [py_bind].
  assert (Hsplit : rest = take 30 rest ++ drop 30 rest) by (by rewrite take_drop).
  pose proof (scan_page_spec lo hi n (take 30 rest) (drop 30 rest) Hn1) as Hscan.
  rewrite <- Hsplit in Hscan. specialize (Hscan Hs).
  destruct (List.rev (take 30 rest)) as [|last init] eqn:Erev.
  { assert (E : rest = []). { destruct rest as [|s rest]; [done|]. cbn in Erev. by destruct (List.rev (take 29 rest)). }
    subst. unfold count. cbn. f_equal. lia. }
  assert (Ep : take 30 rest = List.rev init ++ [last]).
  { rewrite <- (rev_involutive (take 30 rest)), Erev. done. }
  destruct (scan_page lo hi n (take 30 rest)) as [n' [|]]; [by f_equal|].
  destruct Hscan as (-> & Hn' & Hall).
  assert (Hlast : lo < or0 (g_slot last)).
  { rewrite Forall_forall in Hall. apply Hall. rewrite Ep. apply elem_of_app. right. by left. }
  destruct (Z.leb_spec (or0 (g_slot last)) lo); [lia|].
  pose proof (newer_all _ _ Hall) as Hnew. rewrite Hsplit, length_newer_app, Hnew in Hlen.
  rewrite Hsplit at 2. rewrite count_app.
  destruct (Nat.le_gt_cases 30 (length rest)) as [Hbig|Hsmall].
  - rewrite length_take_le in Hlen by done.
    rewrite (IH (pre ++ take 30 rest) (drop 30 rest) (Some (g_sig last)) (n + count lo hi (take 30 rest))).
    + f_equal. lia.
    + done.
    + rewrite Hsplit in Hs. unfold newest_first in *. by apply StronglySorted_app in Hs as (_ & _ & Hs).
    + by rewrite <- app_assoc, take_drop.
    + eapply (older_last h pre (List.rev init)); [done|]. rewrite Hh. f_equal. rewrite Hsplit at 1. rewrite Ep, <- app_assoc. done.
    + lia.
    + lia.
  - assert (Hd : drop 30 rest = []) by (apply drop_ge; lia). rewrite Hd. change (count lo hi []) with 0.
    assert (Hold : older (Some (g_sig last)) h = []).
    { eapply (older_last h pre (List.rev init)); [done|]. rewrite Hh. f_equal. rewrite Hsplit at 1. rewrite Ep, Hd, app_nil_r. done. }
    destruct turns as [|turns]; cbn [event_pages]; [f_equal; lia|].
    unfold pages_of at 1. rewrite Hold. cbn [take List.rev py_bind]. f_equal. lia.
Qed.

(** * What the recorder promises *)

(** The count is exact up to two: when at most 239 of the pair's transactions are newer
    than the first snapshot, pair_events counts the successful ones between the snapshots, and
    answers one exactly when there is exactly one. *)
Theorem pair_events_exact h lo hi :
  NoDup (g_sig <$> h) -> newest_first h -> (length (newer lo h) < 240)%nat ->
  pair_events (pages_of h) lo hi = Ret (Z.min 2 (count lo hi h)) /\
  (pair_events (pages_of h) lo hi = Ret 1 <-> count lo hi h = 1).
Proof.
  intros Hn Hs Hl. assert (E : pair_events (pages_of h) lo hi = Ret (Z.min 2 (count lo hi h))).
  { unfold pair_events. rewrite (event_pages_spec h lo hi 8 [] h None 0); try done; try lia. by destruct h. }
  split; [done|]. rewrite E. split; [intros [= H]; lia|intros ->; done].
Qed.

(** Every triple the recorder writes is justified, and none is written twice: the swap is of
    a transaction the node returned under the triple's signature and lies after the first
    snapshot, the pair saw exactly one success between the snapshots, at most sixteen slots apart,
    both windows hold bins; the counter counts the lines, their signatures are never read again
    and no signature comes twice for a pair. *)
Theorem triples_justified target ws r0 r :
  r_out r0 = [] -> record_turns target ws r0 = Ret r ->
  r_have r = r_have r0 + Z.of_nat (length (r_out r)) /\
  Forall (fun t => t_sig t ∈ r_seen r) (r_out r) /\
  NoDup ((fun t => (t_sig t, t_pair t)) <$> r_out r) /\
  Forall (aligned ws) (r_out r).
Proof.
  intros H0 H. destruct (record_turns_book target ws ws (r_have r0) r0 r); [done| |done|done].
  constructor; rewrite H0; [cbn; lia|constructor|constructor|constructor].
Qed.

(** * A turn on concrete data *)

Definition demo_raw : bytes := replicate 32 7.
Definition demo_pair : string := Eval vm_compute in b58encode demo_raw.

Definition demo_lb_data : bytes := LBPAIR_DISC ++ replicate 68 0 ++ le_enc 4 35 ++ replicate 824 0.
Definition demo_array : bytes := replicate 24 0 ++ demo_raw ++ replicate 10080 0.
Definition demo_zero : string := Eval vm_compute in b58encode ZERO32.

(** The pair alone, and then its vault and its bin array, read at slot 12. *)
Definition demo_read (ks : list string) (_ : rpc_config) : pyres rpc_reply :=
  Ret (RpcReply 12 (if (length ks =? 1)%nat then [Some (RpcAccount Pda.DLMM demo_lb_data 0)]
                    else [None; Some (RpcAccount Pda.DLMM demo_array 0)])).

Definition demo_lb : lb_pair :=
  match parse_lbpair demo_lb_data with Ret lb => lb | Raise _ => LbPair 0 0 0 0 0 0 0 0 0 0 0 0 0 0 0 0 [] [] [] [] end.
Definition demo_bins : list bin := Eval vm_compute in (fun i => Bin (Z.of_nat i) 0 0) <$> seq 0 70.

Definition demo_key : string :=
  Eval vm_compute in
    match b58decode Pda.DLMM with
    | Ret prog => match find_from on_curve_bn [ascii_bytes "bin_array"; demo_raw; le_enc 8 0] prog 255 with
                  | Ret raw => b58encode raw | Raise _ => ""%string end
    | Raise _ => ""%string
    end.

Lemma demo_array_key : bin_array_pda demo_pair 0 = Ret demo_key.
Proof.
  unfold bin_array_pda.
  destruct (b58decode demo_pair) as [seed|] eqn:Es; [|vm_compute in Es; discriminate].
  destruct (pack_s 8 0) as [ix|] eqn:Ei; [|vm_compute in Ei; discriminate].
  destruct (b58decode Pda.DLMM) as [prog|] eqn:Ep; [|vm_compute in Ep; discriminate].
  vm_compute in Es, Ei, Ep. injection Es as <-. injection Ei as <-. injection Ep as <-. cbn [py_bind].
  match goal with |- context [find_pda ?ss ?pp] => destruct (find_pda_bn ss pp) as [-> _] end.
  vm_compute. reflexivity.
Qed.

Definition demo_row (data : bytes) : rpc_row := RpcRow 12 None Pda.DLMM data 0.
Definition demo_after : psnap := PSnap 12 demo_lb demo_bins 0 0 [demo_pair; demo_zero; demo_key].

Lemma demo_alone : exists s, snap_from_accounts demo_pair [(demo_pair, demo_row demo_lb_data)] = Ret (Some s) /\ p_lb s = demo_lb.
Proof. eexists. split; vm_compute; reflexivity. Qed.

Lemma demo_both :
  snap_from_accounts demo_pair [(demo_pair, demo_row demo_lb_data); (demo_key, demo_row demo_array)] = Ret (Some demo_after).
Proof. vm_compute. reflexivity. Qed.

Lemma demo_keys : pool_keys demo_pair demo_lb = Ret [demo_pair; demo_zero; demo_key].
Proof.
  unfold pool_keys. replace (array_indexes (active_id demo_lb)) with [0] by (vm_compute; reflexivity).
  cbn [py_map]. rewrite demo_array_key. cbn [py_bind]. f_equal; vm_compute; reflexivity.
Qed.

Lemma demo_missing :
  filter (fun k => k ∉ od_keys [(demo_pair, demo_row demo_lb_data)]) [demo_pair; demo_zero; demo_key] = [demo_zero; demo_key].
Proof. rewrite filter_cons_False by (intros H; apply H; by left). by rewrite !filter_cons_True by (by apply not_elem_of_cons; split; [|apply not_elem_of_nil]). Qed.

(** Any node that answers the two questions so. *)
Lemma demo_snapshot_on rpc :
  Deps.get_multiple rpc [demo_pair] None None = Ret [Some (demo_row demo_lb_data)] ->
  Deps.get_multiple rpc [demo_zero; demo_key] None None = Ret [None; Some (demo_row demo_array)] ->
  snapshot_pool rpc demo_pair None = Ret (Some demo_after).
Proof.
  intros H1 H2. unfold snapshot_pool. cbn [watch_keys py_bind]. rewrite H1.
  cbn [py_bind]. replace (take_rows [] [demo_pair] [Some (demo_row demo_lb_data)])
    with [(demo_pair, demo_row demo_lb_data)] by reflexivity.
  unfold _merge_missing. destruct demo_alone as (s & -> & Hs). cbn [py_bind]. rewrite Hs, demo_keys. cbn [py_bind].
  rewrite demo_missing. rewrite bool_decide_eq_false_2 by done. rewrite H2.
  cbn [py_bind]. replace (take_rows [(demo_pair, demo_row demo_lb_data)] [demo_zero; demo_key] [None; Some (demo_row demo_array)])
    with [(demo_pair, demo_row demo_lb_data); (demo_key, demo_row demo_array)] by reflexivity.
  rewrite demo_both. reflexivity.
Qed.

Lemma demo_snapshot : snapshot_pool demo_read demo_pair None = Ret (Some demo_after).
Proof. apply demo_snapshot_on; reflexivity. Qed.

(** A swap of the pair in slot [slot], and another transaction of the pair in slot 11. *)
Definition demo_tx (slot : Z) : jtx :=
  JTx false [] [] [] [JIx (Some Pda.DLMM) None (Some (DList (DLMM_SWAP2 ++ le_enc 8 500 ++ le_enc 8 1))) [AKey demo_pair]] []
    (Some slot) (Some 1700000000).
Definition demo_turn (slot : Z) : turn :=
  Turn (Ret [SigRow "sig" (Some slot) false]) (fun _ => Ret (Some (demo_tx slot)))
    (fun _ => demo_read) (fun _ => demo_read)
    (fun _ => pages_of [SigRow "other" (Some 11) false; SigRow "old" (Some 9) false])
    (fun _ _ => Raise (RuntimeError "down")) 0.
Definition demo_before : psnap := PSnap 10 demo_lb demo_bins 0 0 [demo_pair].
(** No pair is listed for the refresh at the end of the turn. *)
Definition demo_r0 : rstate := RState 0 ∅ None [(demo_pair, demo_before)] [] [(demo_pair, 0)] [].

Lemma demo_record slot : slot = 11 \/ slot = 15 ->
  (r <-! record_turns 1 [demo_turn slot] demo_r0 ;;
   Ret ((fun t => (t_tx_slot t, t_slot0 t, t_slot1 t)) <$> r_out r)) = Ret [(slot, 10, 12)].
Proof.
  intros Hslot. cbn [record_turns]. change (1 <=? r_have demo_r0) with false. cbv iota.
  unfold record_turn. cbn [n_sigs demo_turn].
  destruct (py_foldl _ _ _) as [[r by_pair]|] eqn:E; destruct Hslot as [-> | ->]; vm_compute in E; try discriminate E;
    injection E as <- <-; cbn [py_bind fst snd on_pairs]; unfold on_pair at 1; cbv beta iota zeta;
    match goal with |- context [snapshot_pool ?f ?k None] =>
      change (snapshot_pool f k None) with (snapshot_pool demo_read demo_pair None) end;
    rewrite demo_snapshot; vm_compute; reflexivity.
Qed.

(** A triple may be written whose swap lies behind the second snapshot: nothing compares the
    transaction's slot with it, so the one success that was counted is another transaction. *)
Lemma swap_behind_its_triple :
  exists r t, record_turns 1 [demo_turn 15] demo_r0 = Ret r /\ r_out r = [t] /\ t_slot1 t < t_tx_slot t.
Proof.
  pose proof (demo_record 15 (or_intror eq_refl)) as H.
  destruct (record_turns 1 [demo_turn 15] demo_r0) as [r|e] eqn:E; [|discriminate H]. cbn [py_bind] in H.
  injection H as H. destruct (r_out r) as [|t [|t2 l]] eqn:Eo; try discriminate H. exists r, t.
  split; [reflexivity|]. split; [done|]. cbn in H. injection H as H1 H2 H3. lia.
Qed.

Lemma triples_justified_witness :
  exists r, record_turns 1 [demo_turn 11] demo_r0 = Ret r /\ length (r_out r) = 1%nat /\
    Forall (aligned [demo_turn 11]) (r_out r).
Proof.
  pose proof (demo_record 11 (or_introl eq_refl)) as H.
  destruct (record_turns 1 [demo_turn 11] demo_r0) as [r|e] eqn:E; [|discriminate H]. cbn [py_bind] in H.
  injection H as H. exists r. split; [reflexivity|].
  split; [by rewrite <- (length_fmap (fun t => (t_tx_slot t, t_slot0 t, t_slot1 t))), H|].
  exact (proj2 (proj2 (proj2 (triples_justified 1 [demo_turn 11] demo_r0 r eq_refl E)))).
Defined.

Lemma pair_events_exact_witness :
  let h := [SigRow "c" (Some 12) false; SigRow "b" (Some 11) true; SigRow "a" (Some 9) false] in
  count 9 12 h = 1 /\ pair_events (pages_of h) 9 12 = Ret 1.
Proof.
  set (h := [SigRow "c" (Some 12) false; SigRow "b" (Some 11) true; SigRow "a" (Some 9) false]).
  assert (Hc : count 9 12 h = 1) by reflexivity. split; [exact Hc|].
  apply (pair_events_exact h 9 12).
  - apply (bool_decide_unpack _). vm_compute. exact I.
  - repeat constructor; vm_compute; discriminate.
  - vm_compute. lia.
  - exact Hc.
Defined.
