(* ===== verification/HopsVector.v ===== *)
(** The account vector of one hop of an ARBHOPS0 route: arb-exec/scripts/hops_vector.py, first half.

    Every account of a Pump or DLMM hop is derived from the pool's own data (derive_pump_hop,
    derive_dlmm_hop), laid out in the order of the instruction (flatten) and compared key by key
    with a vector to be sent (validate_pump_keys, validate_dlmm_keys).  The node's answers to account
    reads are the parameter of Deps; pool data comes as the metadata record both functions accept.
    The printed reports are outside. *)
From stdpp Require Import base list strings gmap pretty.
From Stdlib Require Import ZArith Lia.
From Stdlib Require String.
From S2P Require Import Prelude PyBytes Base58 Pda Submap Accounts Deps PyVal ExecTemplate AltPlane Recorder.
Open Scope Z_scope.
Open Scope py_scope.

(** * Names *)

Definition PUMP_HEAD_ROLES : list string := [
  "pool"; "user"; "global_config"; "base_mint"; "quote_mint";
  "user_base_ata"; "user_quote_ata"; "pool_base_vault"; "pool_quote_vault";
  "protocol_fee_recipient"; "protocol_fee_recipient_quote_ata";
  "token_program_base"; "token_program_quote";
  "system_program"; "associated_token_program";
  "event_authority"; "program";
  "creator_vault_ata"; "creator_vault"]%string.
Definition PUMP_BUY_TAIL : list string := [
  "global_volume_accumulator"; "user_volume_accumulator";
  "fee_config"; "fee_program"; "pool_v2";
  "fee_recipient"; "fee_recipient_quote_ata"]%string.
Definition PUMP_SELL_TAIL : list string := [
  "fee_config"; "fee_program"; "pool_v2";
  "fee_recipient"; "fee_recipient_quote_ata"]%string.
Definition DLMM_ROLES : list string := [
  "lb_pair"; "bitmap"; "vault_x"; "vault_y"; "oracle";
  "host"; "mint_x"; "mint_y"; "bin0"; "bin1"]%string.

Definition PUMP_PDA_ROLES : list string := [
  "global_config"; "event_authority"; "creator_vault"; "creator_vault_ata";
  "global_volume_accumulator"; "user_volume_accumulator"; "pool_v2";
  "protocol_fee_recipient_quote_ata"; "fee_recipient_quote_ata"]%string.
Definition DLMM_PDA_ROLES : list string := ["oracle"; "bin0"; "bin1"]%string.

Definition FEE_RECIPIENTS : list string := [
  "5YxQFdt3Tr9zJLvkFccqXVUwhdTWJQc1fFg2YPbxvxeD";
  "9M4giFFMxmFGXtc3feFzRai56WbBqehoSeRE5GK7gf7";
  "GXPFM2caqTtQYC2cJ5yJRi9VDkpsYZXzYdwYpGnLmtDL";
  "3BpXnfJaUTiwXnJNe7Ej1rcbzqTTQUvLShZaWazebsVR";
  "5cjcW9wExnJJiqgLjq7DEG75Pm6JBgE1hNv4B2vHXUW6";
  "EHAAiTxcdDwQ3U4bU6YcMsQGaekdzLS3B5SmYo46kJtL";
  "5eHhjP8JaYkz83CWwvGU2uMUXefd3AazWGx4gpcuEEYD";
  "A7hAgCzFw14fejgCp387JUJRMNyz4j89JKnhtKU8piqW"]%string.

Definition pump_roles (buy : bool) : list string :=
  PUMP_HEAD_ROLES ++ (if buy then PUMP_BUY_TAIL else PUMP_SELL_TAIL).

(** * Addresses with their bumps *)

(** The second loop of pda_ex: the highest bump whose digest is [digest], or -1. *)
Fixpoint bump_of (seeds : list bytes) (prog digest : bytes) (bump : nat) : Z :=
  if bool_decide (pda_digest seeds prog (Z.of_nat bump) = digest) then Z.of_nat bump else
  match bump with O => -1 | S b => bump_of seeds prog digest b end.

Definition pda_ex (seeds : list bytes) (program : string) : pyres (string * Z) :=
  prog <-! b58decode program ;;
  digest <-! find_pda seeds prog ;;
  Ret (b58encode digest, bump_of seeds prog digest 255).

(** * Pool data *)

Record pump_fields := PumpFields {
  pf_base : string; pf_quote : string; pf_vault_base : string; pf_vault_quote : string;
  pf_coin_creator : option string; pf_pool_creator : option string; pf_source : string }.

Definition parse_pump_fields (raw : bytes) : pyres pump_fields :=
  match parse_pump_pool raw with
  | None => Raise (RuntimeError "pump parse")
  | Some p =>
      let pool_creator := if 43 <=? blen raw then Some (b58encode (slice 11 43 raw)) else None in
      let blob := if 243 <=? blen raw then slice 211 243 raw else ZERO32 in
      Ret (PumpFields (b58encode (pp_base p)) (b58encode (pp_quote p)) (b58encode (pp_vault_base p))
             (b58encode (pp_vault_quote p)) (Some (b58encode blob)) pool_creator
             (if bool_decide (blob = ZERO32) then "default" else "coin_creator"))
  end.

Record dlmm_fields := DlmmFields {
  df_mint_x : string; df_mint_y : string; df_vault_x : string; df_vault_y : string; df_active : Z }.

Definition fields_of_lb (lb : lb_pair) : dlmm_fields :=
  DlmmFields (b58encode (token_x lb)) (b58encode (token_y lb)) (b58encode (vault_x lb))
    (b58encode (vault_y lb)) (active_id lb).

(** A seed as it is kept for the report: a text, or a bin-array index. *)
Inductive seed := SText (s : string) | SIndex (i : Z).

Record pump_hop := PumpHop {
  ph_pool : string; ph_global_config : string; ph_base_mint : string; ph_quote_mint : string;
  ph_user_base_ata : string; ph_user_quote_ata : string; ph_pool_base_vault : string;
  ph_pool_quote_vault : string; ph_protocol_fee_recipient : string;
  ph_protocol_fee_recipient_quote_ata : string; ph_coin_creator : string; ph_creator_vault : string;
  ph_creator_vault_ata : string; ph_global_volume_accumulator : string;
  ph_user_volume_accumulator : string; ph_pool_v2 : string; ph_token_program_base : string;
  ph_token_program_quote : string; ph_associated_token_program : string; ph_system_program : string;
  ph_event_authority : string; ph_program : string; ph_fee_config : string; ph_fee_program : string;
  ph_fee_recipient : string; ph_fee_recipient_quote_ata : string; ph_buy : bool;
  ph_bumps : list (string * Z); ph_seeds : list (string * list seed) }.

Definition flatten (h : pump_hop) (wallet : string) : list string :=
  [ph_pool h; wallet; ph_global_config h; ph_base_mint h; ph_quote_mint h;
   ph_user_base_ata h; ph_user_quote_ata h;
   ph_pool_base_vault h; ph_pool_quote_vault h;
   ph_protocol_fee_recipient h; ph_protocol_fee_recipient_quote_ata h;
   ph_token_program_base h; ph_token_program_quote h;
   ph_system_program h; ph_associated_token_program h;
   ph_event_authority h; ph_program h;
   ph_creator_vault_ata h; ph_creator_vault h] ++
  (if ph_buy h then
     [ph_global_volume_accumulator h; ph_user_volume_accumulator h;
      ph_fee_config h; ph_fee_program h; ph_pool_v2 h;
      ph_fee_recipient h; ph_fee_recipient_quote_ata h]
   else
     [ph_fee_config h; ph_fee_program h; ph_pool_v2 h;
      ph_fee_recipient h; ph_fee_recipient_quote_ata h]).

(** [dict(zip(roles, keys))]; the roles are distinct. *)
Definition role_map (h : pump_hop) (wallet : string) : list (string * string) :=
  zip (pump_roles (ph_buy h)) (flatten h wallet).

Record dlmm_hop := DlmmHop {
  dh_pool : string; dh_bitmap : string; dh_vault_x : string; dh_vault_y : string; dh_oracle : string;
  dh_host : string; dh_mint_x : string; dh_mint_y : string; dh_bin0 : string; dh_bin1 : string;
  dh_bin0_index : Z; dh_bin1_index : Z; dh_active : Z;
  dh_bumps : list (string * Z); dh_seeds : list (string * list seed) }.

Definition flatten_dlmm (h : dlmm_hop) : list string :=
  [dh_pool h; dh_bitmap h; dh_vault_x h; dh_vault_y h; dh_oracle h;
   dh_host h; dh_mint_x h; dh_mint_y h; dh_bin0 h; dh_bin1 h].

Definition dlmm_role_map (h : dlmm_hop) : list (string * string) := zip DLMM_ROLES (flatten_dlmm h).

(** * Derivation *)

Section node.
Context (rpc : list string -> rpc_config -> pyres rpc_reply).

(** [d.get_multiple([pk])[0]] *)
Definition row1 (pk : string) : pyres (option rpc_row) :=
  rows <-! Deps.get_multiple rpc [pk] None None ;;
  match rows with r :: _ => Ret r | [] => Raise IndexError end.

Definition exists_ (pk : string) : pyres bool :=
  r <-! row1 pk ;; Ret (bool_decide (is_Some r)).

(** mint_tok with the module's cache before and after. *)
Definition mint_tok_step (cache : gmap string string) (mint : string) : pyres (string * gmap string string) :=
  match cache !! mint with
  | Some tok => Ret (tok, cache)
  | None =>
      info <-! row1 mint ;;
      match info with
      | None => Raise (RuntimeError ("mint missing " ++ String.substring 0 8 mint))
      | Some i =>
          if bool_decide (rw_owner i ∈ [TOKENKEG; TOKEN2022])
          then Ret (rw_owner i, <[mint := rw_owner i]> cache)
          else Raise (RuntimeError ("mint owner " ++ rw_owner i))
      end
  end.

Definition mint_cache : gmap string string := {[SOL := TOKENKEG]}.

(** The answer does not depend on what was asked before (cached_mint_tok below). *)
Definition mint_tok (mint : string) : pyres string :=
  r <-! mint_tok_step mint_cache mint ;; Ret r.1.

Fixpoint pick_from (quote tok : string) (recs : list string) : pyres (string * string) :=
  match recs with
  | [] => a <-! ata FEE_RECIPIENT quote tok ;; Ret (FEE_RECIPIENT, a)
  | rec :: recs' =>
      a <-! ata rec quote tok ;;
      live <-! exists_ a ;;
      if (live : bool) then Ret (rec, a) else pick_from quote tok recs'
  end.

Definition pick_fee_recipient (quote : string) : pyres (string * string) :=
  tok <-! (if String.eqb quote SOL then Ret TOKENKEG else mint_tok quote) ;;
  pick_from quote tok FEE_RECIPIENTS.

Definition no_creator (pair : string) (meta : pump_fields) : pyexn :=
  RuntimeError ("VECTOR_FAIL role=coin_creator reason=MISSING pool=" ++ pair ++
                " pool_creator=" ++ default "None" (pf_pool_creator meta)).

Definition missing_pool (pair : string) : pyexn :=
  RuntimeError ("VECTOR_FAIL role=pool reason=MISSING pool=" ++ pair).

Definition pump_meta_of (pair : string) (meta : option pump_fields) : pyres pump_fields :=
  match meta with
  | Some m => Ret m
  | None =>
      pacc <-! row1 pair ;;
      match pacc with
      | None => Raise (missing_pool pair)
      | Some a => parse_pump_fields (rw_data a)
      end
  end.

Definition derive_pump_hop (pair : string) (buy : bool) (wallet user_base user_quote : string)
    (meta : option pump_fields) : pyres pump_hop :=
  meta <-! pump_meta_of pair meta ;;
  let mx := pf_base meta in
  let my := pf_quote meta in
  match nonempty (pf_coin_creator meta) with
  | None => Raise (no_creator pair meta)
  | Some coin =>
      tok_b <-! mint_tok mx ;;
      tok_q <-! mint_tok my ;;
      coin_raw <-! b58decode coin ;;
      cv <-! pda_ex [ascii_bytes "creator_vault"; coin_raw] ExecTemplate.PUMP ;;
      creator_ata <-! ata cv.1 my tok_q ;;
      g <-! pda_ex [ascii_bytes "global_config"] ExecTemplate.PUMP ;;
      event <-! pda_ex [ascii_bytes "__event_authority"] ExecTemplate.PUMP ;;
      gvol <-! pda_ex [ascii_bytes "global_volume_accumulator"] ExecTemplate.PUMP ;;
      w <-! b58decode wallet ;;
      uvol <-! pda_ex [ascii_bytes "user_volume_accumulator"; w] ExecTemplate.PUMP ;;
      mint <-! b58decode mx ;;
      v2 <-! pda_ex [ascii_bytes "pool-v2"; mint] ExecTemplate.PUMP ;;
      fb <-! pump_fallback ;;
      let proto := pa_proto_fee fb in
      proto_ata <-! ata proto my tok_q ;;
      fee <-! pick_fee_recipient my ;;
      Ret (PumpHop pair g.1 mx my user_base user_quote (pf_vault_base meta) (pf_vault_quote meta)
        proto proto_ata coin cv.1 creator_ata gvol.1 uvol.1 v2.1 tok_b tok_q ATA_PROG SYSTEM event.1
        ExecTemplate.PUMP FEE_CFG_LIVE FEE_PROG fee.1 fee.2 buy
        [("global_config", g.2); ("event_authority", event.2); ("creator_vault", cv.2);
         ("global_volume_accumulator", gvol.2); ("user_volume_accumulator", uvol.2); ("pool_v2", v2.2)]
        [("global_config", [SText "global_config"]);
         ("event_authority", [SText "__event_authority"]);
         ("creator_vault", [SText "creator_vault"; SText coin]);
         ("global_volume_accumulator", [SText "global_volume_accumulator"]);
         ("user_volume_accumulator", [SText "user_volume_accumulator"; SText wallet]);
         ("pool_v2", [SText "pool-v2"; SText mx]);
         ("creator_vault_ata", [SText "ata"; SText cv.1; SText my; SText tok_q]);
         ("protocol_fee_recipient_quote_ata", [SText "ata"; SText proto; SText my; SText tok_q]);
         ("fee_recipient_quote_ata", [SText "ata"; SText fee.1; SText my; SText tok_q])])%string
  end.

(** A bin array that was found: its index, address and bump. *)
Notation found_bin := (Z * string * Z)%type.

(** The arrays near the active one that exist, two at most. *)
Fixpoint find_bins (pair : string) (ixs : list Z) (bins : list found_bin) : pyres (list found_bin) :=
  match ixs with
  | [] => Ret bins
  | i :: ixs' =>
      raw <-! b58decode pair ;;
      ix <-! pack_s 8 i ;;
      pb <-! pda_ex [ascii_bytes "bin_array"; raw; ix] ExecTemplate.DLMM ;;
      live <-! (if bool_decide (pb.1 ∈ (fun b : found_bin => b.1.2) <$> bins) then Ret false else exists_ pb.1) ;;
      let bins' := if (live : bool) then bins ++ [(i, pb.1, pb.2)] else bins in
      if (length bins' =? 2)%nat then Ret bins' else find_bins pair ixs' bins'
  end.

Definition no_snapshot (pair : string) : pyexn :=
  RuntimeError ("VECTOR_FAIL role=lb_pair reason=SNAPSHOT pool=" ++ pair).

(** What the snapshot of record_dlmm says of the pair; also _dlmm_meta of hops_live.py. *)
Definition _dlmm_meta (pair : string) : pyres dlmm_fields :=
  sn <-! snapshot_pool rpc pair None ;;
  match sn with
  | None => Raise (no_snapshot pair)
  | Some s => Ret (fields_of_lb (p_lb s))
  end.

Definition no_bin (pair : string) (active : Z) : pyexn :=
  RuntimeError ("VECTOR_FAIL role=bin0 reason=MISSING pool=" ++ pair ++ " active_id=" ++ pretty active).

Definition derive_dlmm_hop (pair : string) (meta : option dlmm_fields) : pyres dlmm_hop :=
  meta <-! match meta with Some m => Ret m | None => _dlmm_meta pair end ;;
  let active := df_active meta in
  bins <-! find_bins pair (neighbors active) [] ;;
  match bins with
  | [] => Raise (no_bin pair active)
  | b0 :: rest =>
      let b1 := match rest with b :: _ => b | [] => b0 end in
      raw <-! b58decode pair ;;
      o <-! pda_ex [ascii_bytes "oracle"; raw] ExecTemplate.DLMM ;;
      Ret (DlmmHop pair ExecTemplate.DLMM (df_vault_x meta) (df_vault_y meta) o.1 ExecTemplate.DLMM
        (df_mint_x meta) (df_mint_y meta) b0.1.2 b1.1.2 b0.1.1 b1.1.1 active
        [("oracle", o.2); ("bin0", b0.2); ("bin1", b1.2)]
        [("oracle", [SText "oracle"; SText pair]);
         ("bin0", [SText "bin_array"; SText pair; SIndex b0.1.1]);
         ("bin1", [SText "bin_array"; SText pair; SIndex b1.1.1])])%string
  end.
End node.

(** * Comparison *)

(** A VECTOR_FAIL record: route, hop, role and the further entries in order. *)
Record vfail := VFail { vf_route : pyval; vf_hop : Z; vf_role : string; vf_kw : list (string * pyval) }.

Definition opt_val (o : option string) : pyval := match o with Some s => VStr s | None => VNone end.
Definition bump_val (bumps : list (string * Z)) (role : string) : pyval :=
  match od_get bumps role with Some z => VInt z | None => VNone end.
Definition val_if (b : bool) (s : string) : pyval := if b then VStr s else VNone.

(** [role.endswith("_ata")] *)
Definition ends_with (suf s : string) : bool :=
  starts_with (List.rev (chars suf)) (List.rev (chars s)).

Definition pump_fail (e : pump_hop) (wallet : string) (rid : pyval) (hi : Z) (seq : string)
    (role got exp : string) : vfail :=
  VFail rid hi role
    [("seq", VStr seq);
     ("reason", VStr (if bool_decide (role ∈ PUMP_PDA_ROLES) then "PDA_SEEDS" else "MISMATCH"));
     ("actual", VStr got); ("expected", VStr exp);
     ("direction", VStr (if ph_buy e then "buy" else "sell"));
     ("pool", VStr (ph_pool e)); ("mint", VStr (ph_base_mint e)); ("coin_creator", VStr (ph_coin_creator e));
     ("fee_recipient", VStr (ph_fee_recipient e)); ("creator_vault", VStr (ph_creator_vault e));
     ("volume_accumulator", VStr (ph_global_volume_accumulator e));
     ("user_volume_accumulator", VStr (ph_user_volume_accumulator e)); ("pool_v2", VStr (ph_pool_v2 e));
     ("bump", bump_val (ph_bumps e) role);
     ("seed_creator", val_if (bool_decide (role ∈ ["creator_vault"; "creator_vault_ata"]))
                        (ph_coin_creator e));
     ("seed_mint", if String.eqb role "pool_v2" then VStr (ph_base_mint e)
                   else val_if (ends_with "_ata" role) (ph_quote_mint e));
     ("seed_wallet", val_if (String.eqb role "user_volume_accumulator") wallet)]%string.

Definition dlmm_fail (e : dlmm_hop) (rid : pyval) (hi : Z) (seq : string) (role got exp : string) : vfail :=
  VFail rid hi role
    [("seq", VStr seq);
     ("reason", VStr (if bool_decide (role ∈ ["bin0"; "bin1"]) then "BIN_ARRAY"
                      else if bool_decide (role ∈ DLMM_PDA_ROLES) then "PDA_SEEDS" else "MISMATCH"));
     ("actual", VStr got); ("expected", VStr exp);
     ("pool", VStr (dh_pool e)); ("seed_pool", VStr (dh_pool e));
     ("seed_bin_index", if String.eqb role "bin0" then VInt (dh_bin0_index e)
                        else if String.eqb role "bin1" then VInt (dh_bin1_index e) else VNone);
     ("bump", bump_val (dh_bumps e) role)]%string.

(** [for role, got, exp in zip(roles, hop_keys, want)] *)
Definition compare_keys (fail : string -> string -> string -> vfail) (roles hop_keys want : list string) : list vfail :=
  omap (fun rge => if String.eqb rge.1.2 rge.2 then None else Some (fail rge.1.1 rge.1.2 rge.2))
    (zip (zip roles hop_keys) want).

Definition validate_pump_keys (hop_keys : list string) (expected : pump_hop) (wallet : string)
    (rid : pyval) (hi : Z) (seq : string) : list vfail :=
  compare_keys (pump_fail expected wallet rid hi seq) (pump_roles (ph_buy expected)) hop_keys
    (flatten expected wallet).

Definition validate_dlmm_keys (hop_keys : list string) (expected : dlmm_hop)
    (rid : pyval) (hi : Z) (seq : string) : list vfail :=
  compare_keys (dlmm_fail expected rid hi seq) DLMM_ROLES hop_keys (flatten_dlmm expected).

(** * Bumps *)

Lemma bump_of_at curve seeds prog d b n :
  (b <= n)%nat -> pda_digest seeds prog (Z.of_nat b) = d -> curve d = false ->
  (forall k, (b < k <= n)%nat -> curve (pda_digest seeds prog (Z.of_nat k)) = true) ->
  bump_of seeds prog d n = Z.of_nat b.
Proof.
  intros Hb Hd Hc Hk. induction n as [|n IH]; cbn [bump_of].
  - assert (b = 0%nat) as -> by lia. by rewrite bool_decide_eq_true_2.
  - destruct (decide (b = S n)) as [->|Hne]; [by rewrite bool_decide_eq_true_2|].
    rewrite bool_decide_eq_false_2; [apply IH; [lia|]; intros k Hk'; apply Hk; lia|].
    intros E. specialize (Hk (S n) ltac:(lia)). congruence.
Qed.

(** pda_ex reports the canonical bump: the address is the off-curve digest of that bump, every
    higher bump's digest lies on the curve, and the search for it never comes back with -1. *)
Theorem pda_ex_canonical seeds program pk bump :
  pda_ex seeds program = Ret (pk, bump) ->
  exists prog, b58decode program = Ret prog /\ 0 <= bump <= 255 /\
    pk = b58encode (pda_digest seeds prog bump) /\ on_curve (pda_digest seeds prog bump) = false /\
    forall b, bump < b <= 255 -> on_curve (pda_digest seeds prog b) = true.
Proof.
  unfold pda_ex. intros H. apply py_bind_Ret in H as (prog & Hp & H). apply py_bind_Ret in H as (d & Hd & H).
  destruct (find_from_spec _ _ _ _ _ Hd) as (b & Hb & Hdg & Hc & Hk).
  rewrite (bump_of_at on_curve seeds prog d b 255) in H by done. injection H as <- <-. exists prog. rewrite <- Hdg.
  split; [done|]. split; [lia|]. split; [done|]. split; [done|]. intros k Hkb.
  replace k with (Z.of_nat (Z.to_nat k)) by lia. apply Hk. lia.
Qed.

(** * Comparison *)

Lemma length_roles h w : length (pump_roles (ph_buy h)) = length (flatten h w).
Proof. unfold pump_roles, flatten. by destruct (ph_buy h). Qed.

Lemma compare_keys_elem fail roles hop want f :
  f ∈ compare_keys fail roles hop want <->
  exists i role got exp, roles !! i = Some role /\ hop !! i = Some got /\ want !! i = Some exp /\
    got <> exp /\ f = fail role got exp.
Proof.
  unfold compare_keys. rewrite list_elem_of_omap. split.
  - intros ([[role got] exp] & Hin & Hf). cbn [fst snd] in Hf.
    destruct (String.eqb_spec got exp); [done|]. injection Hf as <-.
    apply list_elem_of_lookup in Hin as [i Hi]. apply lookup_zip_Some in Hi as [Hi ?]. apply lookup_zip_Some in Hi as [? ?].
    by exists i, role, got, exp.
  - intros (i & role & got & exp & H1 & H2 & H3 & Hne & ->). exists ((role, got), exp). cbn [fst snd].
    destruct (String.eqb_spec got exp); [done|]. split; [|done]. apply list_elem_of_lookup. exists i.
    apply lookup_zip_Some. split; [|done]. by apply lookup_zip_Some.
Qed.

Lemma compare_keys_exact fail roles hop want :
  length roles = length want -> length hop = length want -> compare_keys fail roles hop want = [] <-> hop = want.
Proof.
  intros Hr Hl. split.
  - intros Hnil. apply list_eq_same_length with (length want); [done|done|]. intros i x y Hi Hx Hy.
    destruct (decide (x = y)) as [|Hne]; [done|]. destruct (lookup_lt_is_Some_2 roles i) as [role Hrole]; [lia|].
    assert (fail role x y ∈ compare_keys fail roles hop want) as Hin
      by (apply compare_keys_elem; by exists i, role, x, y).
    rewrite Hnil in Hin. by apply elem_of_nil in Hin.
  - intros ->. destruct (compare_keys fail roles want want) as [|f l] eqn:E; [done|].
    assert (f ∈ compare_keys fail roles want want) as Hin by (rewrite E; by left).
    apply compare_keys_elem in Hin as (i & ? & ? & ? & _ & H1 & H2 & Hne & _). congruence.
Qed.

Lemma validate_dlmm_nil hop e rid hi seq :
  length hop = 10%nat -> validate_dlmm_keys hop e rid hi seq = [] <-> hop = flatten_dlmm e.
Proof. intros Hl. by apply compare_keys_exact. Qed.

Lemma validate_pump_nil hop e w rid hi seq :
  length hop = length (flatten e w) -> validate_pump_keys hop e w rid hi seq = [] <-> hop = flatten e w.
Proof. intros Hl. by apply compare_keys_exact; [apply length_roles|]. Qed.

(** The comparison of a Pump hop is exact: of a vector of the right length it reports nothing
    when the vector is the derived one, and otherwise one record for each position that differs,
    under that position's role. *)
Theorem validate_pump_exact hop e w rid hi seq :
  length hop = length (flatten e w) ->
  (validate_pump_keys hop e w rid hi seq = [] <-> hop = flatten e w) /\
  forall f, f ∈ validate_pump_keys hop e w rid hi seq <->
    exists i role got exp, pump_roles (ph_buy e) !! i = Some role /\ hop !! i = Some got /\
      flatten e w !! i = Some exp /\ got <> exp /\ f = pump_fail e w rid hi seq role got exp.
Proof. intros Hl. split; [by apply validate_pump_nil|]. intros f. apply compare_keys_elem. Qed.

(** * Answers of the node *)

Section node.
Context (rpc : list string -> rpc_config -> pyres rpc_reply).

(** The cached answers are the ones the node gives. *)
Definition cache_ok (cache : gmap string string) : Prop :=
  cache !! SOL = Some TOKENKEG /\ forall m t, cache !! m = Some t -> mint_tok rpc m = Ret t.

Lemma mint_cache_ok : cache_ok mint_cache.
Proof.
  split; [by apply lookup_singleton_eq|]. intros m t Ht. unfold mint_tok, mint_tok_step. by rewrite Ht.
Qed.

Lemma fresh_mint_tok m : m <> SOL ->
  mint_tok rpc m = (r <-! mint_tok_step rpc ∅ m ;; Ret r.1).
Proof.
  intros Hm. unfold mint_tok, mint_tok_step. unfold mint_cache. rewrite lookup_singleton_ne by done. rewrite lookup_empty.
  destruct (row1 rpc m) as [[i|]|]; try done. cbn [py_bind]. by case_bool_decide.
Qed.

(** The cache of mint_tok is unobservable: asked in any order, each question is
    answered as it would be without what was asked before, errors included, and what the cache
    holds stays the node's answers. *)
Theorem cached_mint_tok cache m :
  cache_ok cache ->
  (r <-! mint_tok_step rpc cache m ;; Ret r.1) = mint_tok rpc m /\
  forall t cache', mint_tok_step rpc cache m = Ret (t, cache') -> cache_ok cache'.
Proof.
  intros [HS Hc]. destruct (cache !! m) as [t|] eqn:Em.
  { unfold mint_tok_step. rewrite Em. cbn [py_bind fst]. split; [symmetry; by apply Hc|]. by intros ? ? [= <- <-]. }
  assert (Hm : m <> SOL) by (intros ->; congruence).
  assert (E : (r <-! mint_tok_step rpc cache m ;; Ret r.1) = mint_tok rpc m).
  { rewrite fresh_mint_tok by done. unfold mint_tok_step. rewrite Em, lookup_empty.
    destruct (row1 rpc m) as [[i|]|]; try done. cbn [py_bind]. by case_bool_decide. }
  split; [done|]. intros t cache' H. rewrite H in E. cbn [py_bind fst] in E.
  unfold mint_tok_step in H. rewrite Em in H. apply py_bind_Ret in H as ([i|] & _ & H); [|done].
  case_bool_decide; [|done]. injection H as <- <-. split; [by rewrite lookup_insert_ne|].
  intros m' t'. rewrite lookup_insert_Some. intros [[<- <-]|[_ Hl]]; [done|by apply Hc].
Qed.
End node.

(** * Bin arrays of a DLMM hop *)

Lemma pda_ex_addr seeds program pb :
  pda_ex seeds program = Ret pb ->
  exists prog d, b58decode program = Ret prog /\ find_pda seeds prog = Ret d /\ pb.1 = b58encode d.
Proof.
  unfold pda_ex. generalize 255%nat. intros n H. apply py_bind_Ret in H as (prog & Hp & H).
  apply py_bind_Ret in H as (d & Hd & H). exists prog, d. split; [done|]. split; [done|]. by injection H as <-.
Qed.

Section bins.
Context (rpc : list string -> rpc_config -> pyres rpc_reply) (pair : string).

(** The pool's array [i] exists on chain. *)
Definition array_exists (i : Z) : bool :=
  match bin_array_pda pair i with
  | Ret a => match exists_ rpc a with Ret b => b | Raise _ => false end
  | Raise _ => false
  end.

Lemma array_pda_ex raw ix i pb :
  b58decode pair = Ret raw -> pack_s 8 i = Ret ix ->
  pda_ex [ascii_bytes "bin_array"; raw; ix] ExecTemplate.DLMM = Ret pb -> bin_array_pda pair i = Ret pb.1.
Proof.
  intros Hr Hi H. apply pda_ex_addr in H as (prog & d & Hp & Hd & ->).
  assert (Hp' : b58decode Pda.DLMM = Ret prog) by exact Hp. clear Hp.
  unfold bin_array_pda. revert Hp'. generalize Pda.DLMM. intros D Hp.
  rewrite Hr, Hi. cbn [py_bind]. rewrite Hp. cbn [py_bind]. by rewrite Hd.
Qed.

(** The first of the indexes and the first behind it with another address. *)
Definition other (i0 i : Z) : Prop := bin_array_pda pair i <> bin_array_pda pair i0.
#[local] Instance other_dec i0 i : Decision (other i0 i).
Proof. unfold other. apply _. Defined.
Definition first_two (ixs : list Z) : list Z :=
  match ixs with
  | [] => []
  | i0 :: rest => i0 :: take 1 (filter (other i0) rest)
  end.

Lemma first_two_more a b : length (first_two a) = 2%nat -> first_two (a ++ b) = first_two a.
Proof.
  destruct a as [|i0 r]; [done|]. cbn [first_two app length]. rewrite filter_app.
  destruct (filter (other i0) r) as [|x l]; [done|]. by intros _.
Qed.

Definition index_of (b : Z * string * Z) : Z := b.1.1.

(** Behind the indexes [past]: the arrays found so far. *)
Record found_bins (past : list Z) (bins : list (Z * string * Z)) : Prop := {
  fb_index : index_of <$> bins = first_two (filter (fun i => array_exists i = true) past);
  fb_addr : Forall (fun b => bin_array_pda pair (index_of b) = Ret b.1.2) bins }.

Lemma first_two_snoc l i :
  (length (first_two l) < 2)%nat ->
  first_two (l ++ [i]) = match l with [] => [i] | i0 :: _ => if decide (other i0 i) then [i0; i] else [i0] end.
Proof.
  destruct l as [|i0 r]; [done|]. cbn [first_two app length]. rewrite filter_app.
  destruct (filter (other i0) r) as [|x l]; [|cbn; lia]. intros _. cbn [app].
  case_decide; [by rewrite filter_cons_True|by rewrite filter_cons_False].
Qed.

Lemma found_bins_step past bins i raw ix pb (live : bool) :
  found_bins past bins -> (length bins < 2)%nat ->
  b58decode pair = Ret raw -> pack_s 8 i = Ret ix ->
  pda_ex [ascii_bytes "bin_array"; raw; ix] ExecTemplate.DLMM = Ret pb ->
  (if bool_decide (pb.1 ∈ (fun b : Z * string * Z => b.1.2) <$> bins) then Ret false else exists_ rpc pb.1) = Ret live ->
  found_bins (past ++ [i]) (if live then bins ++ [(i, pb.1, pb.2)] else bins).
Proof.
  intros [F1 F2] Hl Hr Hi Hpb Hlive. pose proof (array_pda_ex raw ix i pb Hr Hi Hpb) as Hpda.
  assert (Ex : forall b, exists_ rpc pb.1 = Ret b -> array_exists i = b).
  { intros b Hb. unfold array_exists. by rewrite Hpda, Hb. }
  constructor; [|destruct live; [apply Forall_app; split; [done|by apply Forall_singleton]|done]].
  rewrite filter_app. destruct bins as [|b0 [|b1 bins]]; [| |cbn in Hl; lia].
  - rewrite bool_decide_eq_false_2 in Hlive by apply not_elem_of_nil. specialize (Ex live Hlive).
    destruct (filter _ past); [|done]. destruct live; [by rewrite filter_cons_True|].
    by rewrite filter_cons_False by (by rewrite Ex).
  - apply Forall_cons in F2 as [F2 _]. rewrite fmap_cons in F1.
    destruct (filter (fun i => array_exists i = true) past) as [|i0 r] eqn:Ep; [done|].
    cbn [first_two] in F1. injection F1 as E0 Er.
    assert (Hlen : (length (first_two (i0 :: r)) < 2)%nat) by (cbn [first_two]; rewrite <- Er; cbn; lia).
    assert (Ho : other i0 i <-> pb.1 <> b0.1.2).
    { unfold other. rewrite Hpda, <- E0, F2. split; intros Hx Hy; apply Hx; [by rewrite Hy|by injection Hy]. }
    case_bool_decide as Hin; cbn [fmap list_fmap] in Hin; rewrite list_elem_of_singleton in Hin.
    + injection Hlive as <-. destruct (decide (array_exists i = true)) as [Ha|Ha].
      * rewrite filter_cons_True by done. rewrite first_two_snoc by done. rewrite decide_False by (intros Hx; by apply Ho in Hx).
        by rewrite <- E0.
      * rewrite filter_cons_False by done. rewrite app_nil_r. cbn [first_two]. by rewrite <- Er, <- E0.
    + specialize (Ex live Hlive). destruct live.
      * rewrite filter_cons_True by done. rewrite first_two_snoc by done. rewrite decide_True by (by apply Ho).
        by rewrite <- E0.
      * rewrite filter_cons_False by (by rewrite Ex). rewrite app_nil_r. cbn [first_two]. by rewrite <- Er, <- E0.
Qed.

Lemma find_bins_spec ixs : forall past bins res,
  found_bins past bins -> (length bins < 2)%nat -> find_bins rpc pair ixs bins = Ret res ->
  found_bins (past ++ ixs) res /\ (length res <= 2)%nat.
Proof.
  induction ixs as [|i ixs IH]; intros past bins res Hf Hl; cbn [find_bins].
  { intros [= <-]. rewrite app_nil_r. split; [done|lia]. }
  intros H. apply py_bind_Ret in H as (raw & Hr & H). apply py_bind_Ret in H as (ix & Hi & H).
  apply py_bind_Ret in H as (pb & Hpb & H). apply py_bind_Ret in H as (live & Hlive & H).
  change (i :: ixs) with ([i] ++ ixs). rewrite app_assoc.
  pose proof (found_bins_step past bins i raw ix pb live Hf Hl Hr Hi Hpb Hlive) as Hstep.
  cbv zeta in H. destruct (Nat.eqb_spec (length (if live then bins ++ [(i, pb.1, pb.2)] else bins)) 2) as [E|E].
  - injection H as <-. split; [|lia]. destruct Hstep as [S1 S2]. constructor; [|done].
    rewrite filter_app, first_two_more; [done|]. by rewrite <- S1, length_fmap.
  - eapply IH; [exact Hstep| |exact H]. destruct live; [|done]. rewrite length_app in *. cbn [length] in *. lia.
Qed.
End bins.

(** The bin arrays of a DLMM hop are the pool's own, nearest first: among the active array
    and the two on either side, in the order active, +1, -1, +2, -2, the first that exists and the
    next one at another address, which is the first again when there is none; their keys are the
    addresses derived from pool and index. *)
Theorem hop_bins_nearest rpc pair meta h :
  derive_dlmm_hop rpc pair (Some meta) = Ret h ->
  exists i0 rest,
    first_two pair (filter (fun i => array_exists rpc pair i = true) (neighbors (df_active meta))) = i0 :: rest /\
    dh_bin0_index h = i0 /\ dh_bin1_index h = default i0 (head rest) /\
    bin_array_pda pair (dh_bin0_index h) = Ret (dh_bin0 h) /\
    bin_array_pda pair (dh_bin1_index h) = Ret (dh_bin1 h).
Proof.
  unfold derive_dlmm_hop. cbn [py_bind]. intros H. apply py_bind_Ret in H as (bins & Hb & H).
  destruct bins as [|b0 bins]; [done|]. apply py_bind_Ret in H as (raw & _ & H). apply py_bind_Ret in H as (o & _ & [= <-]).
  cbn [dh_bin0_index dh_bin1_index dh_bin0 dh_bin1].
  assert (H0 : found_bins rpc pair [] []) by (constructor; constructor).
  destruct (find_bins_spec rpc pair _ [] [] _ H0 ltac:(cbn; lia) Hb) as [[F1 F2] Hl].
  cbn [app] in F1. rewrite <- F1. apply Forall_cons in F2 as [A0 F2]. rewrite fmap_cons.
  eexists _, _. split; [done|]. split; [done|]. destruct bins as [|b1 bins]; [done|].
  split; [done|]. split; [done|]. by apply Forall_cons in F2 as [A1 _].
Qed.

(** * A hop on concrete data *)

Lemma pda_ex_by seeds program prog d :
  b58decode program = Ret prog -> find_from on_curve_bn seeds prog 255 = Ret d ->
  exists bump, pda_ex seeds program = Ret (b58encode d, bump).
Proof.
  intros Hp Hd. exists (bump_of seeds prog d 255). unfold pda_ex. rewrite Hp. cbn [py_bind].
  destruct (find_pda_bn seeds prog) as [-> _]. rewrite Hd. reflexivity.
Qed.

(** When the first two arrays asked for exist, the hop stands. *)
Lemma dlmm_hop_stands rpc pair meta raw i0 i1 rest ix0 ix1 a0 a1 o :
  neighbors (df_active meta) = i0 :: i1 :: rest -> b58decode pair = Ret raw ->
  pack_s 8 i0 = Ret ix0 -> pack_s 8 i1 = Ret ix1 ->
  pda_ex [ascii_bytes "bin_array"; raw; ix0] ExecTemplate.DLMM = Ret a0 ->
  pda_ex [ascii_bytes "bin_array"; raw; ix1] ExecTemplate.DLMM = Ret a1 ->
  pda_ex [ascii_bytes "oracle"; raw] ExecTemplate.DLMM = Ret o ->
  exists_ rpc a0.1 = Ret true -> exists_ rpc a1.1 = Ret true -> a1.1 <> a0.1 ->
  exists h, derive_dlmm_hop rpc pair (Some meta) = Ret h.
Proof.
  intros Hn Hr H0 H1 A0 A1 Ho E0 E1 Hne. unfold derive_dlmm_hop. cbn [py_bind]. rewrite Hn.
  cbn [find_bins]. rewrite Hr. cbn [py_bind]. rewrite H0. cbn [py_bind]. rewrite A0. cbn [py_bind].
  rewrite bool_decide_eq_false_2 by apply not_elem_of_nil. rewrite E0. cbn [py_bind app length Nat.eqb].
  rewrite H1. cbn [py_bind]. rewrite A1. cbn [py_bind].
  rewrite bool_decide_eq_false_2 by (cbn [fmap list_fmap fst snd]; by rewrite list_elem_of_singleton).
  rewrite E1. cbn [py_bind app length Nat.eqb]. rewrite Ho. cbn [py_bind]. by eexists.
Qed.

Definition demo_meta : dlmm_fields := fields_of_lb demo_lb.

(** A node on which every account exists. *)
Definition demo_node (ks : list string) (_ : rpc_config) : pyres rpc_reply :=
  Ret (RpcReply 12 ((fun _ => Some (RpcAccount TOKENKEG [] 0)) <$> ks)).

Lemma demo_exists pk : exists_ demo_node pk = Ret true.
Proof. reflexivity. Qed.

(** The address of a derivation by the fast test. *)
Definition fast_pda (seeds : list bytes) (program : string) : bytes :=
  match b58decode program with
  | Ret prog => match find_from on_curve_bn seeds prog 255 with Ret d => d | Raise _ => [] end
  | Raise _ => []
  end.
Definition demo_array0 : bytes := Eval vm_compute in fast_pda [ascii_bytes "bin_array"; demo_raw; le_enc 8 0] ExecTemplate.DLMM.
Definition demo_array1 : bytes := Eval vm_compute in fast_pda [ascii_bytes "bin_array"; demo_raw; le_enc 8 1] ExecTemplate.DLMM.
Definition demo_oracle : bytes := Eval vm_compute in fast_pda [ascii_bytes "oracle"; demo_raw] ExecTemplate.DLMM.
Definition demo_prog : bytes := Eval vm_compute in match b58decode ExecTemplate.DLMM with Ret p => p | Raise _ => [] end.

Lemma demo_prog_ok : b58decode ExecTemplate.DLMM = Ret demo_prog.
Proof. vm_compute. reflexivity. Qed.

Ltac demo_pda d := apply (pda_ex_by _ _ demo_prog d demo_prog_ok); vm_compute; reflexivity.

Lemma demo_pda0 : exists b, pda_ex [ascii_bytes "bin_array"; demo_raw; le_enc 8 0] ExecTemplate.DLMM = Ret (b58encode demo_array0, b).
Proof. demo_pda demo_array0. Qed.
Lemma demo_pda1 : exists b, pda_ex [ascii_bytes "bin_array"; demo_raw; le_enc 8 1] ExecTemplate.DLMM = Ret (b58encode demo_array1, b).
Proof. demo_pda demo_array1. Qed.
Lemma demo_pda_oracle : exists b, pda_ex [ascii_bytes "oracle"; demo_raw] ExecTemplate.DLMM = Ret (b58encode demo_oracle, b).
Proof. demo_pda demo_oracle. Qed.

Lemma demo_pair_raw : b58decode demo_pair = Ret demo_raw.
Proof. vm_compute. reflexivity. Qed.

Lemma demo_dlmm_hop : exists h, derive_dlmm_hop demo_node demo_pair (Some demo_meta) = Ret h.
Proof.
  destruct demo_pda0 as [b0 P0], demo_pda1 as [b1 P1], demo_pda_oracle as [b2 P2].
  eapply (dlmm_hop_stands demo_node demo_pair demo_meta demo_raw 0 1 [-1; 2; -2] (le_enc 8 0) (le_enc 8 1));
    [reflexivity|exact demo_pair_raw|reflexivity|reflexivity|exact P0|exact P1|exact P2|reflexivity|reflexivity|].
  vm_compute. discriminate.
Qed.

Lemma hop_bins_nearest_witness :
  exists h i0 rest, derive_dlmm_hop demo_node demo_pair (Some demo_meta) = Ret h /\
    first_two demo_pair (filter (fun i => array_exists demo_node demo_pair i = true) (neighbors 35)) = i0 :: rest /\
    dh_bin0_index h = i0.
Proof.
  destruct demo_dlmm_hop as [h Hh].
  destruct (hop_bins_nearest demo_node demo_pair demo_meta h Hh) as (i0 & rest & H1 & H2 & _).
  exists h, i0, rest. split; [exact Hh|]. split; [exact H1|exact H2].
Defined.

Lemma pda_ex_canonical_witness :
  exists bump, pda_ex [ascii_bytes "oracle"; demo_raw] ExecTemplate.DLMM = Ret (b58encode demo_oracle, bump) /\
    0 <= bump <= 255.
Proof.
  destruct demo_pda_oracle as [b Hb]. exists b. split; [exact Hb|].
  destruct (pda_ex_canonical _ _ _ _ Hb) as (prog & _ & H & _). exact H.
Defined.

Definition demo_pump_hop : pump_hop :=
  PumpHop "p" "g" "b" "q" "ub" "uq" "vb" "vq" "f" "fa" "c" "cv" "cva" "gv" "uv" "v2" "tb" "tq" "at" "sy" "ev" "pr"
    "fc" "fp" "fr" "fra" false [("pool_v2", 254)] [].

Lemma validate_pump_exact_witness :
  validate_pump_keys (flatten demo_pump_hop "w") demo_pump_hop "w" (VInt 1) 0 "dlmm-pump" = [] /\
  vf_role <$> validate_pump_keys (<[21%nat := "x"%string]> (flatten demo_pump_hop "w")) demo_pump_hop "w" (VInt 1) 0 "dlmm-pump" =
    ["pool_v2"%string].
Proof.
  split; [|reflexivity].
  exact (proj2 (proj1 (validate_pump_exact (flatten demo_pump_hop "w") demo_pump_hop "w" (VInt 1) 0 "dlmm-pump" eq_refl)) eq_refl).
Defined.

Lemma cached_mint_tok_witness :
  (r <-! mint_tok_step demo_node mint_cache demo_pair ;; Ret r.1) = mint_tok demo_node demo_pair.
Proof. exact (proj1 (cached_mint_tok demo_node mint_cache demo_pair (mint_cache_ok demo_node))). Defined.
