(* ===== verification/HopsGolden.v ===== *)
(** Failures and fixtures of ARBHOPS0 routes: arb-exec/scripts/hops_vector.py, second half.

    parse_anchor_constraint and explain_sim_fail read the logs of a failed simulation and name the
    hop and the account at fault; build_golden_doc, persist_golden, check_golden and flatten_fixture
    keep the account vector of a sequence that once succeeded and compare later vectors with it.
    The directories of fixtures are maps from the short name to the document; the JSON text, the
    simulate call and the prints are outside.  Log lines are ASCII. *)
From stdpp Require Import base list strings gmap pretty.
From Stdlib Require Import ZArith Lia Ascii.
From Stdlib Require String.
From coqutil.Datatypes Require Import RecordSetters.
From S2P Require Import Prelude PyBytes PyVal Submap ExecTemplate AltPlane Deps Recorder HopsVector.
Import RecordSetters.DoubleBraceUpdate.
Open Scope Z_scope.
Open Scope py_scope.

(** * Logs of a simulation *)

Definition SEQ_SHORT : list (string * string) := [
  ("dlmm-dlmm", "dd"); ("dlmm-pump", "dp"); ("pump-dlmm", "pd"); ("pump-pump", "pp");
  ("dlmm-dlmm-dlmm", "ddd"); ("dlmm-dlmm-pump", "ddp"); ("pump-dlmm-dlmm", "pdd")]%string.

Definition ANCHOR_ROLE : list (string * string) := [
  ("pool", "pool"); ("user", "user"); ("global_config", "global_config"); ("global", "global_config");
  ("base_mint", "base_mint"); ("quote_mint", "quote_mint");
  ("user_base_token_account", "user_base_ata"); ("user_quote_token_account", "user_quote_ata");
  ("pool_base_token_account", "pool_base_vault"); ("pool_quote_token_account", "pool_quote_vault");
  ("protocol_fee_recipient", "protocol_fee_recipient");
  ("protocol_fee_recipient_token_account", "protocol_fee_recipient_quote_ata");
  ("coin_creator_vault_authority", "creator_vault"); ("coin_creator_vault_ata", "creator_vault_ata");
  ("coin_creator_vault", "creator_vault"); ("creator_vault", "creator_vault");
  ("global_volume_accumulator", "global_volume_accumulator");
  ("user_volume_accumulator", "user_volume_accumulator"); ("fee_config", "fee_config");
  ("coin_creator", "coin_creator"); ("pool_v2", "pool_v2"); ("fee_recipient", "fee_recipient");
  ("protocol_fee_recipient_quote_ata", "protocol_fee_recipient_quote_ata")]%string.

Definition is_word (c : ascii) : bool :=
  let n := code c in
  ((48 <=? n) && (n <=? 57)) || ((65 <=? n) && (n <=? 90)) || ((97 <=? n) && (n <=? 122)) || (n =? 95).
Definition is_digit (c : ascii) : bool := bool_decide (is_Some (digit c)).

Fixpoint span (p : ascii -> bool) (l : list ascii) : list ascii :=
  match l with
  | c :: l' => if p c then c :: span p l' else []
  | [] => []
  end.

(** [re.search(lit + r"\s*([cls]+)", s)], the group of the leftmost match; [cls] holds no space. *)
Fixpoint search (lit : list ascii) (cls : ascii -> bool) (l : list ascii) : option (list ascii) :=
  let here := if starts_with lit l then span cls (lstrip is_space (drop (length lit) l)) else [] in
  match here, l with
  | c :: w, _ => Some (c :: w)
  | [], _ :: l' => search lit cls l'
  | [], [] => None
  end.

(** [s.split()[-1] if s.split() else s] *)
Definition last_word (s : string) : string :=
  match List.rev (span (fun c => negb (is_space c)) (lstrip is_space (List.rev (chars s)))) with
  | [] => s
  | w => text w
  end.

Definition lower (c : ascii) : ascii :=
  if (65 <=? code c) && (code c <=? 90) then ascii_of_nat (nat_of_ascii c + 32) else c.

Record anchor := Anchor {
  an_caused : option string; an_left : option string; an_right : option string; an_number : option Z;
  an_take_left : bool; an_take_right : bool; an_invokes : list string }.

(** [number or n] *)
Definition or_number (o : option Z) (n : Z) : option Z :=
  match o with Some z => if z =? 0 then Some n else Some z | None => Some n end.

Definition ends (suf : string) (l : list ascii) : bool := starts_with (List.rev (chars suf)) (List.rev l).

(** The program a line invokes, if it is a venue. *)
Definition venue_of (l : list ascii) : list string :=
  if negb (contains (chars " invoke [") l) then [] else
  if contains (chars (String.substring 0 8 ExecTemplate.PUMP)) l || contains (chars "pAMM") l then ["pump"%string]
  else if contains (chars (String.substring 0 8 ExecTemplate.DLMM)) l || contains (chars "LBUZ") l then ["dlmm"%string]
  else [].

Definition anchor_line (a : anchor) (s : string) : anchor :=
  let l := chars s in
  let a := a {{ an_invokes ::= fun v => v ++ venue_of l }} in
  let a := match search (chars "caused by account:") is_word l with
           | Some w => a {{ an_caused := Some (text w) }} | None => a end in
  let a := match search (chars "Error Number:") is_digit l with
           | Some w => a {{ an_number := number false 0 w }} | None => a end in
  if ends "Left:" (rstrip is_space l) then a {{ an_take_left := true }} else
  if ends "Right:" (rstrip is_space l) then a {{ an_take_right := true }} else
  let a := if an_take_left a then a {{ an_left := Some (last_word s); an_take_left := false }} else a in
  let a := if an_take_right a then a {{ an_right := Some (last_word s); an_take_right := false }} else a in
  let a := if contains (chars "0x7d6") l || contains (chars "custom program error: 2006") (lower <$> l)
           then a {{ an_number ::= fun n => or_number n 2006 }} else a in
  if contains (chars "0xbbd") l || contains (chars "custom program error: 3005") (lower <$> l)
  then a {{ an_number ::= fun n => or_number n 3005 }} else a.

Definition parse_anchor_constraint (logs : list string) : anchor :=
  foldl anchor_line (Anchor None None None None false false []) logs.

(** * Explanation *)

(** A hop's accounts, of either venue. *)
Inductive hop_sem := HopPump (h : pump_hop) | HopDlmm (h : dlmm_hop).

(** The last hop of the venue the error number speaks of, for logs without invocations. *)
Definition hop_by_number (num : option Z) (hops : list hop_sem) : Z :=
  let step acc ih :=
    match ih.2 with
    | HopPump _ => if bool_decide (num = Some 2006) then Some (Z.of_nat ih.1) else acc
    | HopDlmm _ => if bool_decide (num = Some 3005) then Some (Z.of_nat ih.1) else acc
    end in
  or0 (foldl step None (imap pair hops)).

(** The hop at fault: the last one invoked, or by the number when the log shows no invocation. *)
Definition hop_at (num : option Z) (invokes : list string) (hops : list hop_sem) : Z :=
  match invokes with
  | [] => hop_by_number num hops
  | _ => Z.min (Z.of_nat (length invokes)) (Z.of_nat (length hops)) - 1
  end.

Definition set_kw (l : list (string * pyval)) (kv : string * pyval) : list (string * pyval) := od_set l kv.1 kv.2.
(** [if rec.get(k) is None: rec[k] = v] *)
Definition fill_kw (l : list (string * pyval)) (k : string) (v : pyval) : list (string * pyval) :=
  match od_get l k with Some VNone | None => od_set l k v | Some _ => l end.

Definition pump_extra (h : pump_hop) (wallet role : string) (kw : list (string * pyval)) : list (string * pyval) :=
  let kw := foldl set_kw kw
    [("pool", VStr (ph_pool h)); ("mint", VStr (ph_base_mint h)); ("coin_creator", VStr (ph_coin_creator h));
     ("fee_recipient", VStr (ph_fee_recipient h)); ("creator_vault", VStr (ph_creator_vault h));
     ("volume_accumulator", VStr (ph_global_volume_accumulator h));
     ("user_volume_accumulator", VStr (ph_user_volume_accumulator h)); ("pool_v2", VStr (ph_pool_v2 h));
     ("bump", bump_val (ph_bumps h) role); ("seed_creator", VStr (ph_coin_creator h));
     ("seed_mint", VStr (ph_base_mint h))]%string in
  let got := opt_val (od_get (role_map h wallet) role) in
  let exp_pda :=
    if String.eqb role "creator_vault" then VStr (ph_creator_vault h)
    else if String.eqb role "pool_v2" then VStr (ph_pool_v2 h)
    else if String.eqb role "creator_vault_ata" then VStr (ph_creator_vault_ata h) else VNone in
  fill_kw (fill_kw kw "actual" got) "expected" exp_pda.

Definition dlmm_extra (h : dlmm_hop) (role : string) (kw : list (string * pyval)) : list (string * pyval) :=
  foldl set_kw kw
    [("pool", VStr (dh_pool h)); ("seed_pool", VStr (dh_pool h));
     ("seed_bin_index", VInt (if String.eqb role "bin0" then dh_bin0_index h else dh_bin1_index h));
     ("bump", bump_val (dh_bumps h) role)]%string.

Definition direction_of (hop : option hop_sem) : string :=
  match hop with
  | Some (HopPump h) => if ph_buy h then "buy" else "sell"
  | _ => "dlmm"
  end.

Definition explain_sim_fail (seq : string) (rid : pyval) (hops : list hop_sem) (wallet : string)
    (logs : list string) : pyres (list vfail) :=
  let p := parse_anchor_constraint logs in
  let num := an_number p in
  let caused := nonempty (an_caused p) in
  if negb (bool_decide (num ∈ [Some 2006; Some 3005])) && bool_decide (caused = None) then Ret [] else
  let num := match num, caused with None, Some _ => Some 2006 | n, _ => n end in
  let reason := (if bool_decide (num = Some 2006) then "ANCHOR_2006"
                 else if bool_decide (num = Some 3005) then "ANCHOR_3005" else "ANCHOR")%string in
  let role := default (default "unknown" caused)%string (od_get ANCHOR_ROLE (default "" caused)%string) in
  let hop_i := hop_at num (an_invokes p) hops in
  hop <-! (if hop_i <? Z.of_nat (length hops) then h <-! at_index hops hop_i ;; Ret (Some h) else Ret None) ;;
  let kw := [("seq", VStr seq); ("reason", VStr reason); ("caused_by", opt_val (an_caused p));
             ("actual", opt_val (an_left p)); ("expected", opt_val (an_right p));
             ("direction", VStr (direction_of hop))]%string in
  let kw := match hop with
            | Some (HopPump h) => pump_extra h wallet role kw
            | Some (HopDlmm h) => dlmm_extra h role kw
            | None => kw
            end in
  Ret [VFail rid hop_i role kw].

(** * Fixtures *)

Definition pump_writable (buy : bool) (i : nat) : bool :=
  if buy then bool_decide (i ∈ [0; 1; 5; 6; 7; 8; 10; 17; 19; 20; 25]%nat)
  else bool_decide (i ∈ [0; 1; 5; 6; 7; 8; 10; 17; 23]%nat).

Definition dlmm_writable (i : nat) : bool := bool_decide (i ∈ [0; 2; 3; 4; 8; 9]%nat).

Definition static_set (wallet : string) (hops_pid : option string) : list string :=
  [wallet; TOKENKEG; TOKEN2022; SYSTEM; ATA_PROG; MEMO; ExecTemplate.DLMM; ExecTemplate.PUMP; FEE_PROG] ++
  option_list (nonempty hops_pid).

Record arow := ARow {
  aw_role : string; aw_pubkey : string; aw_writable : bool; aw_signer : bool;
  aw_token_program : option string; aw_static : bool }.

Definition account_row (role pk : string) (writable signer : bool) (statics : list string)
    (tok : option string) : arow :=
  ARow role pk writable signer tok (bool_decide (pk ∈ statics)).

Record ghop := GHop {
  gh_venue : string; gh_direction : string; gh_pool : string; gh_coin_creator : option string;
  gh_active : option Z; gh_bins : option (Z * Z);
  gh_bumps : list (string * Z); gh_seeds : list (string * list seed); gh_accounts : list arow }.

Record golden := Golden {
  go_seq : string; go_id : pyval; go_custom6 : bool; go_cu : pyval; go_alt : bool; go_n_acc : Z;
  go_keys : list string; go_shared : list arow; go_hops : list ghop; go_match : bool }.

Definition SHARED_ROLES : list string := [
  "authority"; "user0"; "user1"; "user2";
  "tokenkeg"; "token2022"; "memo"; "dlmm_prog"; "dlmm_event"]%string.

Definition shared_row (keys statics : list string) (ir : nat * string) : pyres arow :=
  let '(i, role) := ir in
  pk <-! at_index keys (Z.of_nat i) ;;
  Ret (account_row role pk (bool_decide (i ∈ [0; 1; 2; 3]%nat)) (i =? 0)%nat statics
         (if (i =? 1)%nat then Some TOKENKEG else None)).

Definition pump_tok (h : pump_hop) (role : string) : option string :=
  if bool_decide (role ∈ ["user_base_ata"; "pool_base_vault"]%string) then Some (ph_token_program_base h)
  else if bool_decide (role ∈ ["user_quote_ata"; "pool_quote_vault"; "protocol_fee_recipient_quote_ata";
                               "creator_vault_ata"; "fee_recipient_quote_ata"]%string)
  then Some (ph_token_program_quote h)
  else if String.eqb role "token_program_base" then Some (ph_token_program_base h)
  else if String.eqb role "token_program_quote" then Some (ph_token_program_quote h) else None.

Definition pump_rows (h : pump_hop) (wallet : string) (statics : list string) : list arow :=
  imap (fun i rp => account_row rp.1 rp.2 (pump_writable (ph_buy h) i)
                      (String.eqb rp.2 wallet && String.eqb rp.1 "user") statics (pump_tok h rp.1))
    (zip (pump_roles (ph_buy h)) (flatten h wallet)).

Section node.
Context (rpc : list string -> rpc_config -> pyres rpc_reply).

Definition dlmm_row (h : dlmm_hop) (statics : list string) (irp : nat * (string * string)) : pyres arow :=
  let '(i, (role, pk)) := irp in
  tok <-! (if String.eqb role "vault_x" then t <-! mint_tok rpc (dh_mint_x h) ;; Ret (Some t)
           else if String.eqb role "vault_y" then t <-! mint_tok rpc (dh_mint_y h) ;; Ret (Some t)
           else Ret None) ;;
  Ret (account_row role pk (dlmm_writable i) false statics tok).

Definition hop_doc (wallet : string) (statics : list string) (h : hop_sem) : pyres ghop :=
  match h with
  | HopPump h =>
      Ret (GHop "pump" (if ph_buy h then "buy" else "sell") (ph_pool h) (Some (ph_coin_creator h)) None None
             (ph_bumps h) (ph_seeds h) (pump_rows h wallet statics))
  | HopDlmm h =>
      rows <-! py_map (dlmm_row h statics) (imap pair (zip DLMM_ROLES (flatten_dlmm h))) ;;
      Ret (GHop "dlmm" "swap2" (dh_pool h) None (Some (dh_active h)) (Some (dh_bin0_index h, dh_bin1_index h))
             (dh_bumps h) (dh_seeds h) rows)
  end.

Definition flatten_fixture (doc : golden) : list string :=
  (aw_pubkey <$> go_shared doc) ++ concat ((fun h => aw_pubkey <$> gh_accounts h) <$> go_hops doc).

(** [rid] and [cu] are the route's id and the simulation's units. *)
Definition build_golden_doc (seq : string) (rid : pyval) (wallet : string) (keys : list string)
    (hops : list hop_sem) (cu : pyval) (used_alt : bool) (hops_pid : option string) : pyres golden :=
  let statics := static_set wallet hops_pid in
  shared <-! py_map (shared_row keys statics) (imap pair SHARED_ROLES) ;;
  docs <-! py_map (hop_doc wallet statics) hops ;;
  let rebuilt := (aw_pubkey <$> shared) ++ concat ((fun h => aw_pubkey <$> gh_accounts h) <$> docs) in
  Ret (Golden seq rid true cu used_alt (Z.of_nat (length keys)) keys shared docs (bool_decide (rebuilt = keys))).

(** A directory of fixtures, by short name. *)
Notation fixtures := (gmap string golden).

Definition persist_one (short : string) (doc : golden) (root : fixtures) : fixtures :=
  match root !! short with
  | Some old => if go_custom6 old then root else <[short := doc]> root
  | None => <[short := doc]> root
  end.

Definition persist_golden (seq : string) (rid : pyval) (wallet : string) (keys : list string)
    (hops : list hop_sem) (cu : pyval) (used_alt : bool) (hops_pid : option string)
    (roots : list fixtures) : pyres (list fixtures) :=
  match od_get SEQ_SHORT seq with
  | None => Ret roots
  | Some short =>
      doc <-! build_golden_doc seq rid wallet keys hops cu used_alt hops_pid ;;
      Ret (persist_one short doc <$> roots)
  end.

Definition count_text (l : list string) : string := "n=" ++ pretty (Z.of_nat (length l)).

Definition check_golden (root : fixtures) (seq : string) (rid : pyval) (keys : list string) : pyres (list vfail) :=
  short <-! match od_get SEQ_SHORT seq with Some s => Ret s | None => Raise (KeyError seq) end ;;
  match root !! short with
  | None => Ret []
  | Some gold =>
      if negb (bool_decide (go_id gold = rid)) then Ret [] else
      if bool_decide (go_keys gold = keys) then Ret [] else
      Ret [VFail rid 0 "golden"
             [("seq", VStr seq); ("reason", VStr "GOLDEN_REGRESS"); ("actual", VStr (count_text keys));
              ("expected", VStr (count_text (go_keys gold) ++ " id=" ++ py_str (go_id gold)))]%string]
  end.
End node.

(** * Explanations *)

Lemma at_index_in {A} (l : list A) (i : Z) : 0 <= i < Z.of_nat (length l) -> exists x, at_index l i = Ret x /\ l !! Z.to_nat i = Some x.
Proof.
  intros H. unfold at_index. destruct (Z.ltb_spec i 0); [lia|]. destruct (Z.ltb_spec i 0); [lia|].
  destruct (lookup_lt_is_Some_2 l (Z.to_nat i)) as [x Hx]; [lia|]. rewrite Hx. by exists x.
Qed.

Lemma hop_by_number_bounds num hops : hops <> [] -> 0 <= hop_by_number num hops < Z.of_nat (length hops).
Proof.
  intros Hne. unfold hop_by_number. set (step := fun acc ih => _).
  assert (H : forall l acc, (forall z, acc = Some z -> 0 <= z < Z.of_nat (length hops)) ->
    Forall (fun ih : nat * hop_sem => (ih.1 < length hops)%nat) l ->
    forall z, foldl step acc l = Some z -> 0 <= z < Z.of_nat (length hops)).
  { induction l as [|[i h] l IH]; intros acc Hacc Hl z; [apply Hacc|]. apply Forall_cons in Hl as [Hi Hl].
    cbn [foldl]. apply IH; [|done]. intros y. unfold step. cbn [fst snd] in *.
    destruct h; case_bool_decide; (by apply Hacc) || (intros [= <-]; lia). }
  destruct (foldl step None (imap pair hops)) as [z|] eqn:E; cbn.
  - eapply (H _ None); [done| |exact E]. apply Forall_lookup. intros i [k h] Hi.
    rewrite list_lookup_imap in Hi. destruct (hops !! i) eqn:Eh; [|done]. injection Hi as <- <-. cbn.
    by apply lookup_lt_Some in Eh.
  - destruct hops; [done|cbn; lia].
Qed.

Lemma hop_at_bounds num v hops : hops <> [] -> 0 <= hop_at num v hops < Z.of_nat (length hops).
Proof.
  intros H. unfold hop_at. destruct v; [by apply hop_by_number_bounds|]. destruct hops; [done|cbn [length]; lia].
Qed.

Lemma hop_picked (hops : list hop_sem) (hi : Z) :
  0 <= hi < Z.of_nat (length hops) ->
  exists x, (if hi <? Z.of_nat (length hops) then h <-! at_index hops hi ;; Ret (Some h) else Ret None) = Ret (Some x).
Proof.
  intros Hb. destruct (Z.ltb_spec hi (Z.of_nat (length hops))); [|lia].
  destruct (at_index_in hops hi Hb) as (x & -> & _). by exists x.
Qed.

(** A simulation that failed is explained or nothing is said: with at least one hop no log
    makes the explanation raise; it is empty exactly when the log shows neither error 2006 or 3005
    nor an account at fault, and otherwise one record of a hop of the route. *)
Theorem explanation_total seq rid hops wallet logs :
  hops <> [] ->
  let p := parse_anchor_constraint logs in
  exists l, explain_sim_fail seq rid hops wallet logs = Ret l /\
    (l = [] <-> an_number p <> Some 2006 /\ an_number p <> Some 3005 /\ nonempty (an_caused p) = None) /\
    (length l <= 1)%nat /\ Forall (fun f => 0 <= vf_hop f < Z.of_nat (length hops)) l.
Proof.
  intros Hne. cbv zeta. unfold explain_sim_fail. set (p := parse_anchor_constraint logs).
  case_bool_decide as H1; cbn [negb andb]; [|case_bool_decide as H2].
  2: { exists []. split; [done|]. split; [|split; [cbn; lia|constructor]]. split; [intros _|done].
       rewrite !elem_of_cons in H1. split; [|split]; [intros E; apply H1; by left|intros E; apply H1; right; by left|done]. }
  - match goal with |- context [hop_at ?n ?v hops] => destruct (hop_picked hops _ (hop_at_bounds n v hops Hne)) as [x Hx];
      pose proof (hop_at_bounds n v hops Hne) as Hb end.
    rewrite Hx. cbn [py_bind].
    eexists. split; [done|]. split; [|split; [cbn; lia|by constructor]].
    split; [done|]. intros (Ha & Hc & _). rewrite !elem_of_cons in H1.
    destruct H1 as [H1|[H1|H1]]; [done|done|by apply elem_of_nil in H1].
  - match goal with |- context [hop_at ?n ?v hops] => destruct (hop_picked hops _ (hop_at_bounds n v hops Hne)) as [x Hx];
      pose proof (hop_at_bounds n v hops Hne) as Hb end.
    rewrite Hx. cbn [py_bind].
    eexists. split; [done|]. split; [|split; [cbn; lia|by constructor]].
    split; [done|]. by intros (_ & _ & Hd).
Qed.

(** * Fixtures *)

(** The keys of one hop, in the instruction's order. *)
Definition hop_keys (wallet : string) (h : hop_sem) : list string :=
  match h with HopPump h => flatten h wallet | HopDlmm h => flatten_dlmm h end.

Lemma py_map_pubkeys {A} (f : A -> pyres arow) (key : A -> string) (l : list A) rows :
  (forall a r, a ∈ l -> f a = Ret r -> aw_pubkey r = key a) -> py_map f l = Ret rows -> aw_pubkey <$> rows = key <$> l.
Proof.
  revert rows. induction l as [|a l IH]; intros rows Hf; cbn [py_map]; [by intros [= <-]|].
  intros H. apply py_bind_Ret in H as (r & Hr & H). apply py_bind_Ret in H as (rs & Hrs & [= <-]).
  rewrite !fmap_cons. f_equal; [by apply Hf; [left|]|]. apply IH; [|done]. intros b x Hb. apply Hf. by right.
Qed.

Lemma imap_pair_keys {A B} (g : A -> B) (l : list A) : (fun ix : nat * A => g ix.2) <$> imap pair l = g <$> l.
Proof. rewrite fmap_imap. apply (imap_const g). Qed.

Lemma zip_snd {A B} (k : list A) (l : list B) : length k = length l -> snd <$> zip k l = l.
Proof. intros H. apply snd_zip. lia. Qed.

Lemma shared_rows_keys keys statics rows :
  py_map (shared_row keys statics) (imap pair SHARED_ROLES) = Ret rows -> aw_pubkey <$> rows = take 9 keys.
Proof.
  intros H. destruct (decide (9 <= length keys)%nat) as [Hl|Hl].
  - do 9 (destruct keys as [|? keys]; [cbn in Hl; lia|]). vm_compute in H. injection H as <-. done.
  - exfalso. do 9 (destruct keys as [|? keys]; [vm_compute in H; discriminate H|]). cbn in Hl. lia.
Qed.

Lemma hop_doc_keys rpc wallet statics h doc :
  hop_doc rpc wallet statics h = Ret doc -> aw_pubkey <$> gh_accounts doc = hop_keys wallet h.
Proof.
  destruct h as [h|h]; cbn [hop_doc hop_keys].
  - intros [= <-]. cbn [gh_accounts]. unfold pump_rows. rewrite fmap_imap.
    transitivity (imap (const snd) (zip (pump_roles (ph_buy h)) (flatten h wallet))); [by apply imap_ext|].
    rewrite imap_const. apply zip_snd, length_roles.
  - intros H. apply py_bind_Ret in H as (rows & Hrows & [= <-]). cbn [gh_accounts].
    assert (Hrow : forall irp r, irp ∈ imap pair (zip DLMM_ROLES (flatten_dlmm h)) ->
      dlmm_row rpc h statics irp = Ret r -> aw_pubkey r = irp.2.2).
    { intros [i [role pk]] r _ Hr. unfold dlmm_row in Hr. by apply py_bind_Ret in Hr as (tok & _ & [= <-]). }
    rewrite (py_map_pubkeys _ _ _ _ Hrow Hrows), (imap_pair_keys snd). by apply zip_snd.
Qed.

Lemma hop_docs_keys rpc wallet statics hops docs :
  py_map (hop_doc rpc wallet statics) hops = Ret docs ->
  (fun h => aw_pubkey <$> gh_accounts h) <$> docs = hop_keys wallet <$> hops.
Proof.
  revert docs. induction hops as [|h hops IH]; intros docs; cbn [py_map]; [by intros [= <-]|].
  intros H. apply py_bind_Ret in H as (d & Hd & H). apply py_bind_Ret in H as (ds & Hds & [= <-]).
  rewrite !fmap_cons. f_equal; [by eapply hop_doc_keys|by apply IH].
Qed.

Lemma golden_doc_keys rpc seq rid wallet keys hops cu alt pid doc :
  build_golden_doc rpc seq rid wallet keys hops cu alt pid = Ret doc ->
  go_id doc = rid /\ go_keys doc = keys /\ go_custom6 doc = true /\
  flatten_fixture doc = take 9 keys ++ concat (hop_keys wallet <$> hops) /\
  go_match doc = bool_decide (flatten_fixture doc = keys).
Proof.
  unfold build_golden_doc. intros H. apply py_bind_Ret in H as (shared & Hs & H).
  apply py_bind_Ret in H as (docs & Hd & [= <-]). do 3 (split; [done|]). unfold flatten_fixture. cbn [go_shared go_hops go_match].
  split; [|done]. by rewrite (shared_rows_keys _ _ _ Hs), (hop_docs_keys _ _ _ _ _ Hd).
Qed.

(** A fixture reproduces the vector it was made from: flattening the document gives the
    shared accounts and the hops' derived accounts in order, and semantic_match says exactly
    whether that is the vector that was sent. *)
Theorem golden_flattens_back rpc seq rid wallet keys hops cu alt pid doc :
  build_golden_doc rpc seq rid wallet keys hops cu alt pid = Ret doc ->
  flatten_fixture doc = take 9 keys ++ concat (hop_keys wallet <$> hops) /\
  (go_match doc = true <-> drop 9 keys = concat (hop_keys wallet <$> hops)).
Proof.
  intros H. apply golden_doc_keys in H as (_ & _ & _ & Hf & ->). split; [done|].
  rewrite bool_decide_eq_true, Hf. split.
  - intros E. rewrite <- (take_drop 9 keys) in E at 2. by apply app_inv_head in E.
  - intros <-. apply take_drop.
Qed.

(** A kept fixture guards the vector: once a vector was persisted with no fixture frozen
    before, check_golden accepts that vector for the route and reports any other; a frozen fixture is
    never overwritten. *)
Theorem golden_guards rpc seq short rid wallet keys hops cu alt pid root roots root' roots' keys' :
  od_get SEQ_SHORT seq = Some short ->
  persist_golden rpc seq rid wallet keys hops cu alt pid (root :: roots) = Ret (root' :: roots') ->
  match root !! short with
  | Some old => if go_custom6 old then root' = root else
      (check_golden root' seq rid keys' = Ret [] <-> keys' = keys)
  | None => check_golden root' seq rid keys' = Ret [] <-> keys' = keys
  end.
Proof.
  intros Hs. unfold persist_golden. rewrite Hs. intros H. apply py_bind_Ret in H as (doc & Hdoc & H).
  cbn [fmap list_fmap] in H. injection H as <- _.
  apply golden_doc_keys in Hdoc as (Hid & Hk & _ & _ & _). unfold persist_one.
  assert (Hc : check_golden (<[short := doc]> root) seq rid keys' = Ret [] <-> keys' = keys).
  { unfold check_golden. rewrite Hs. cbn [py_bind]. rewrite lookup_insert_eq.
    rewrite bool_decide_eq_true_2 by done. cbn [negb]. rewrite Hk. case_bool_decide; [|split; [discriminate|congruence]].
    split; [by intros _|done]. }
  destruct (root !! short) as [old|] eqn:Eo; [|done]. by destruct (go_custom6 old).
Qed.

(** ** Concrete logs and fixtures *)

Definition demo_logs : list string := [
  "Program pAMMBay6oceH9fJKBRHGP5D4bD4sWpmSwMn52FMfXEA invoke [2]";
  "Program log: AnchorError caused by account: creator_vault. Error Code: ConstraintSeeds. Error Number: 2006.";
  "Program log: Left:"; "Program log: aaa"; "Program log: Right:"; "Program log: bbb "]%string.

Example demo_anchor :
  parse_anchor_constraint demo_logs =
    Anchor (Some "creator_vault") (Some "aaa") (Some "bbb") (Some 2006) false false ["pump"]%string.
Proof. vm_compute. reflexivity. Qed.

Lemma explanation_total_witness :
  exists l, explain_sim_fail "pump-dlmm" (VInt 7) [HopPump demo_pump_hop] "w" demo_logs = Ret l /\
    (length l <= 1)%nat.
Proof.
  destruct (explanation_total "pump-dlmm" (VInt 7) [HopPump demo_pump_hop] "w" demo_logs ltac:(discriminate))
    as (l & H1 & _ & H2 & _).
  exists l. split; [exact H1|exact H2].
Defined.

Definition demo_vector : list string :=
  ["w"; "u0"; "u1"; "u2"; "tk"; "t2"; "me"; "dl"; "ev"]%string ++ flatten demo_pump_hop "w".

Lemma demo_doc_built : exists doc,
  build_golden_doc demo_node "pump-pump" (VInt 7) "w" demo_vector [HopPump demo_pump_hop] VNone false None = Ret doc.
Proof. eexists. reflexivity. Qed.

Lemma golden_flattens_back_witness :
  exists doc, build_golden_doc demo_node "pump-pump" (VInt 7) "w" demo_vector [HopPump demo_pump_hop] VNone false None = Ret doc /\
    flatten_fixture doc = demo_vector /\ go_match doc = true.
Proof.
  destruct demo_doc_built as [doc Hd]. exists doc. split; [exact Hd|].
  destruct (golden_flattens_back _ _ _ _ _ _ _ _ _ _ Hd) as [H1 H2]. split; [exact H1|]. apply H2. reflexivity.
Defined.

Lemma golden_guards_witness :
  exists root', persist_golden demo_node "pump-pump" (VInt 7) "w" demo_vector [HopPump demo_pump_hop] VNone false None [∅] =
      Ret [root'] /\ check_golden root' "pump-pump" (VInt 7) demo_vector = Ret [].
Proof.
  destruct demo_doc_built as [doc Hd].
  assert (Hp : persist_golden demo_node "pump-pump" (VInt 7) "w" demo_vector [HopPump demo_pump_hop] VNone false None [∅] =
    Ret [persist_one "pp" doc ∅]) by (unfold persist_golden; rewrite Hd; reflexivity).
  exists (persist_one "pp" doc ∅). split; [exact Hp|].
  pose proof (golden_guards demo_node "pump-pump" "pp" (VInt 7) "w" demo_vector [HopPump demo_pump_hop] VNone false None
    ∅ [] (persist_one "pp" doc ∅) [] demo_vector eq_refl Hp) as H.
  rewrite lookup_empty in H. apply H. reflexivity.
Defined.
