(* ===== verification/HopsProgram.v ===== *)
(** The ARBHOPS0 instruction and the on-chain program that runs it.

    pack_ix is the 40-byte payload of arb-exec/scripts/closure_gate.py and hops_plane.py, which
    hops_live.py's build_route_accounts writes the same way.  process is the entry point of
    arb-exec/program_hops/src/lib.rs: it reads the payload, calls one venue per hop with what the
    hop before brought in, and fails unless the first token account has gained the least profit.
    The chain is a parameter: a state, the balance of a token account in it (None when the account
    cannot be read as one) and what a call does to it (None when the call fails).  A failing
    instruction leaves the chain as it was. *)
From stdpp Require Import base list strings.
From Stdlib Require Import ZArith Lia.
From S2P Require Import Prelude PyBytes ExecTemplate.
Open Scope Z_scope.
Open Scope py_scope.

(** * The payload *)

Definition DISC : bytes := [65; 82; 66; 72; 79; 80; 83; 48].

(** One hop: protocol, token account paid from, token account paid to, number of accounts. *)
Notation ix_hop := (Z * Z * Z * Z)%type.

Fixpoint put_hops (i : Z) (hops : list ix_hop) (buf : bytes) : pyres bytes :=
  match hops with
  | [] => Ret buf
  | (proto, ina, outa, n) :: hops' =>
      buf <-! put_byte (25 + i * 3) proto buf ;;
      buf <-! put_byte (26 + i * 3) ina buf ;;
      buf <-! put_byte (27 + i * 3) outa buf ;;
      buf <-! put_byte (34 + i) n buf ;;
      put_hops (i + 1) hops' buf
  end.

(** The buffer of 40 bytes with the hop count [n]. *)
Definition pack_hops (n : Z) (hops : list ix_hop) (amount min_profit : Z) : pyres bytes :=
  buf <-! put_byte 8 n (put_slice 0 8 DISC (zeros 40)) ;;
  a <-! pack_u 8 amount ;;
  p <-! pack_u 8 min_profit ;;
  put_hops 0 hops (put_slice 9 25 (a ++ p) buf).

Definition pack_ix (hops : list ix_hop) (amount min_profit : Z) : pyres bytes :=
  pack_hops (Z.of_nat (length hops)) hops amount min_profit.

(** * The program *)

Definition DLMM_SWAP2 : bytes := [0x41; 0x4b; 0x3f; 0x4c; 0xeb; 0x5b; 0x5b; 0x88].
Definition PUMP_SELL : bytes := [0x33; 0xe6; 0x85; 0xa4; 0x01; 0x7f; 0x83; 0xad].
Definition PUMP_BUY_EXACT_Q : bytes := [0xc6; 0x2e; 0x15; 0x52; 0xb4; 0xd9; 0xe8; 0x70].

Definition ERR_IX : Z := 1.
Definition ERR_ACCOUNTS : Z := 2.
Definition ERR_SIGNER : Z := 3.
Definition ERR_DLMM : Z := 4.
Definition ERR_PUMP : Z := 5.
Definition ERR_PROFIT : Z := 6.
Definition ERR_TOKEN : Z := 7.
Definition ERR_HOP : Z := 8.

(** A cross-program call: each account with its writable and signer flags. *)
Record call := Call { c_program : string; c_metas : list (string * bool * bool); c_data : bytes }.

Inductive outcome (A : Type) := Done (a : A) | Fail (code : Z).
Arguments Done {A} a.
Arguments Fail {A} code.

Definition then_ {A C} (m : outcome A) (f : A -> outcome C) : outcome C :=
  match m with Done a => f a | Fail e => Fail e end.
Definition or_fail {A} (o : option A) (code : Z) : outcome A :=
  match o with Some a => Done a | None => Fail code end.
Notation "x <-? m ;; k" := (then_ m (fun x => k)) (at level 100, m at next level, right associativity) : py_scope.

(** [acc[i]]; every use is behind a length test. *)
Definition acc_at (accs : list string) (i : nat) : string := nth i accs ""%string.
Definition data_at (data : bytes) (i : nat) : Z := nth i data 0.

Definition user_ata (accs : list string) (i : Z) : option string :=
  if i =? 0 then Some (acc_at accs 1) else
  if i =? 1 then Some (acc_at accs 2) else
  if i =? 2 then Some (acc_at accs 3) else None.

Definition pump_writable_sell (i : nat) : bool := bool_decide (i ∈ [0; 1; 5; 6; 7; 8; 10; 17; 23]%nat).
Definition pump_writable_buy (i : nat) : bool := bool_decide (i ∈ [0; 1; 5; 6; 7; 8; 10; 17; 19; 20; 25]%nat).

Definition pump_metas (accs : list string) (hop n : nat) (writable : nat -> bool) : list (string * bool * bool) :=
  imap (fun i k => (k, writable i, String.eqb k (acc_at accs 0))) (take n (drop hop accs)).

Section chain.
Context {B : Type} (balance : B -> string -> option Z) (invoke : B -> call -> option B).

Definition tok_amt (b : B) (k : string) : outcome Z := or_fail (balance b k) ERR_TOKEN.

Definition cpi_dlmm (accs : list string) (hop : nat) (amount_in : Z) (user_in user_out : string) (b : B) : outcome B :=
  if (length accs <? hop + 10)%nat then Fail ERR_ACCOUNTS else
  let a i := acc_at accs (hop + i) in
  let metas := [(a 0%nat, true, false); (a 1%nat, false, false); (a 2%nat, true, false); (a 3%nat, true, false);
    (user_in, true, false); (user_out, true, false); (a 6%nat, false, false); (a 7%nat, false, false);
    (a 4%nat, true, false); (a 5%nat, false, false); (acc_at accs 0, true, true); (acc_at accs 5, false, false);
    (acc_at accs 4, false, false); (acc_at accs 6, false, false); (acc_at accs 8, false, false);
    (acc_at accs 7, false, false); (a 8%nat, true, false); (a 9%nat, true, false)] in
  or_fail (invoke b (Call (acc_at accs 7) metas (DLMM_SWAP2 ++ le_enc 8 amount_in ++ replicate 12 0))) ERR_DLMM.

Definition cpi_pump_sell (accs : list string) (hop : nat) (amount_in : Z) (b : B) : outcome B :=
  if (length accs <? hop + 24)%nat then Fail ERR_ACCOUNTS else
  or_fail (invoke b (Call (acc_at accs (hop + 16)) (pump_metas accs hop 24 pump_writable_sell)
                       (PUMP_SELL ++ le_enc 8 amount_in ++ replicate 8 0))) ERR_PUMP.

Definition cpi_pump_buy (accs : list string) (hop : nat) (amount_in : Z) (b : B) : outcome B :=
  if (length accs <? hop + 26)%nat then Fail ERR_ACCOUNTS else
  or_fail (invoke b (Call (acc_at accs (hop + 16)) (pump_metas accs hop 26 pump_writable_buy)
                       (PUMP_BUY_EXACT_Q ++ le_enc 8 amount_in ++ le_enc 8 1))) ERR_PUMP.

(** The loop from hop [i] on, with [left] hops to go: the chain behind it. *)
Fixpoint hop_loop (accs : list string) (data : bytes) (left i off : nat) (amount : Z) (b : B) : outcome B :=
  match left with
  | O => Done b
  | S left' =>
      let proto := data_at data (25 + i * 3) in
      let n := Z.to_nat (data_at data (34 + i)) in
      if (length accs <? off + n)%nat then Fail ERR_ACCOUNTS else
      user_in <-? or_fail (user_ata accs (data_at data (26 + i * 3))) ERR_IX ;;
      user_out <-? or_fail (user_ata accs (data_at data (27 + i * 3))) ERR_IX ;;
      before <-? tok_amt b user_out ;;
      b' <-? (if proto =? 1 then
                if negb (n =? 10)%nat then Fail ERR_HOP else cpi_dlmm accs off amount user_in user_out b
              else if proto =? 2 then
                if (n =? 26)%nat then cpi_pump_buy accs off amount b
                else if (n =? 24)%nat then cpi_pump_sell accs off amount b else Fail ERR_HOP
              else Fail ERR_HOP) ;;
      after <-? tok_amt b' user_out ;;
      let amount' := Z.max 0 (after - before) in
      if amount' =? 0 then Fail ERR_HOP else hop_loop accs data left' (S i) (off + n) amount' b'
  end.

Definition process (accs : list string) (signer : bool) (data : bytes) (b : B) : outcome B :=
  if negb (length data =? 40)%nat || negb (bool_decide (take 8 data = DISC)) then Fail ERR_IX else
  if (length accs <? 9)%nat then Fail ERR_ACCOUNTS else
  if negb signer then Fail ERR_SIGNER else
  let hop_count := data_at data 8 in
  if (hop_count <? 2) || (3 <? hop_count) then Fail ERR_IX else
  let amount := le_dec (slice 9 17 data) in
  let min_profit := le_dec (slice 17 25 data) in
  if amount =? 0 then Fail ERR_IX else
  q0 <-? tok_amt b (acc_at accs 1) ;;
  b' <-? hop_loop accs data (Z.to_nat hop_count) 0 9 amount b ;;
  q1 <-? tok_amt b' (acc_at accs 1) ;;
  if (q1 <? q0) || (q1 - q0 <? min_profit) then Fail ERR_PROFIT else Done b'.
End chain.

(** * The payload read back *)

Definition byte_hop (h : ix_hop) : Prop :=
  let '(p, i, o, n) := h in (0 <= p < 256 /\ 0 <= i < 256) /\ (0 <= o < 256 /\ 0 <= n < 256).

(** Where the bytes of the hops go. *)
Definition slots (hops : list ix_hop) : bytes :=
  take 9 (concat ((fun h => [h.1.1.1; h.1.1.2; h.1.2]) <$> hops) ++ replicate 9 0) ++
  take 6 ((snd <$> hops) ++ replicate 6 0).
Definition wire_ix (n : Z) (hops : list ix_hop) (amount min_profit : Z) : bytes :=
  DISC ++ [n] ++ le_enc 8 amount ++ le_enc 8 min_profit ++ slots hops.

Lemma put_byte_in i v out : 0 <= v < 256 -> i < blen out -> put_byte i v out = Ret (<[Z.to_nat i := v]> out).
Proof.
  intros Hv Hi. unfold put_byte. destruct (Z.leb_spec 0 v); [|lia]. destruct (Z.ltb_spec v 256); [|lia].
  cbn [andb negb]. by destruct (Z.leb_spec (blen out) i); [lia|].
Qed.

Lemma pack_hops_wire n hops amount min_profit :
  (length hops <= 3)%nat -> Forall byte_hop hops -> 0 <= n < 256 ->
  0 <= amount < 2 ^ 64 -> 0 <= min_profit < 2 ^ 64 ->
  pack_hops n hops amount min_profit = Ret (wire_ix n hops amount min_profit).
Proof.
  intros Hl Hb Hn Ha Hm. unfold pack_hops, wire_ix. rewrite put_byte_in by (done || reflexivity). cbn [py_bind].
  rewrite !pack_u_small by done. cbn [py_bind].
  pose proof (length_le_enc 8 amount) as La. pose proof (length_le_enc 8 min_profit) as Lm.
  set (a := le_enc 8 amount) in *. set (m := le_enc 8 min_profit) in *. clearbody a m.
  do 9 (destruct a as [|? a]; [try discriminate La|]); [|discriminate La].
  do 9 (destruct m as [|? m]; [try discriminate Lm|]); [|discriminate Lm].
  destruct hops as [|[[[p1 i1] o1] n1] hops]; [reflexivity|].
  apply Forall_cons in Hb as [[[? ?] [? ?]] Hb].
  destruct hops as [|[[[p2 i2] o2] n2] hops]; cbn [put_hops].
  { do 4 (rewrite put_byte_in by (done || reflexivity); cbn [py_bind]). reflexivity. }
  apply Forall_cons in Hb as [[[? ?] [? ?]] Hb].
  destruct hops as [|[[[p3 i3] o3] n3] hops]; cbn [put_hops].
  { do 8 (rewrite put_byte_in by (done || reflexivity); cbn [py_bind]). reflexivity. }
  apply Forall_cons in Hb as [[[? ?] [? ?]] Hb].
  destruct hops as [|h hops]; [|cbn in Hl; lia]. cbn [put_hops].
  do 12 (rewrite put_byte_in by (done || reflexivity); cbn [py_bind]). reflexivity.
Qed.

(** What the program reads of the hop [i]. *)
Definition read_hop (data : bytes) (i : nat) : ix_hop :=
  (data_at data (25 + i * 3), data_at data (26 + i * 3), data_at data (27 + i * 3), data_at data (34 + i)).

Lemma wire_reads n hops amount min_profit :
  (length hops <= 3)%nat -> 0 <= amount < 2 ^ 64 -> 0 <= min_profit < 2 ^ 64 ->
  let d := wire_ix n hops amount min_profit in
  length d = 40%nat /\ take 8 d = DISC /\ data_at d 8 = n /\
  le_dec (slice 9 17 d) = amount /\ le_dec (slice 17 25 d) = min_profit /\
  forall i h, hops !! i = Some h -> read_hop d i = h.
Proof.
  intros Hl Ha Hm. cbv zeta. unfold wire_ix.
  assert (Ea : le_dec (le_enc 8 amount) = amount) by (by apply le_dec_enc_small).
  assert (Em : le_dec (le_enc 8 min_profit) = min_profit) by (by apply le_dec_enc_small).
  pose proof (length_le_enc 8 amount) as La. pose proof (length_le_enc 8 min_profit) as Lm.
  set (a := le_enc 8 amount) in *. set (m := le_enc 8 min_profit) in *. clearbody a m.
  do 9 (destruct a as [|? a]; [try discriminate La|]); [|discriminate La].
  do 9 (destruct m as [|? m]; [try discriminate Lm|]); [|discriminate Lm].
  destruct hops as [|[[[p1 i1] o1] n1] [|[[[p2 i2] o2] n2] [|[[[p3 i3] o3] n3] [|? ?]]]];
    [| | | |cbn in Hl; lia].
  all: split; [reflexivity|]; split; [reflexivity|]; split; [reflexivity|]; split; [exact Ea|]; split; [exact Em|].
  all: intros [|[|[|i]]] h Hi; try discriminate Hi; injection Hi as <-; reflexivity.
Qed.

(** The program reads what the packer wrote: a payload of two or three hops with byte-sized
    fields is 40 bytes long under the program's discriminator, and the program's offsets give back
    hop count, amount, least profit and each hop. *)
Theorem payload_read_back hops amount min_profit :
  (2 <= length hops <= 3)%nat -> Forall byte_hop hops -> 0 <= amount < 2 ^ 64 -> 0 <= min_profit < 2 ^ 64 ->
  exists d, pack_ix hops amount min_profit = Ret d /\ length d = 40%nat /\ take 8 d = DISC /\
    data_at d 8 = Z.of_nat (length hops) /\
    le_dec (slice 9 17 d) = amount /\ le_dec (slice 17 25 d) = min_profit /\
    read_hop d <$> seq 0 (length hops) = hops.
Proof.
  intros Hl Hb Ha Hm. unfold pack_ix. rewrite pack_hops_wire by (done || lia).
  eexists. split; [done|].
  destruct (wire_reads (Z.of_nat (length hops)) hops amount min_profit) as (H1 & H2 & H3 & H4 & H5 & H6); [lia|done|done|].
  do 5 (split; [done|]). apply list_eq. intros i. rewrite list_lookup_fmap.
  destruct (decide (i < length hops)%nat) as [Hi|Hi].
  - rewrite lookup_seq_lt by done. destruct (lookup_lt_is_Some_2 hops i Hi) as [h Hh].
    cbn [fmap option_fmap option_map Nat.add]. rewrite Hh. f_equal. by apply H6.
  - rewrite lookup_seq_ge by lia. cbn. symmetry. apply lookup_ge_None. lia.
Qed.

Lemma payload_read_back_witness :
  exists d, pack_ix [(1, 0, 1, 10); (2, 1, 0, 24)] 50000000 1000000000 = Ret d /\
    read_hop d <$> seq 0 2 = [(1, 0, 1, 10); (2, 1, 0, 24)].
Proof.
  destruct (payload_read_back [(1, 0, 1, 10); (2, 1, 0, 24)] 50000000 1000000000) as (d & H1 & _ & _ & _ & _ & _ & H2).
  - cbn. lia.
  - repeat constructor; lia.
  - lia.
  - lia.
  - exists d. split; [exact H1|exact H2].
Defined.

(** * What a settled instruction did *)

Section settled.
Context {B : Type} (balance : B -> string -> option Z) (invoke : B -> call -> option B).

(** One call after the other, each with the chain behind it. *)
Fixpoint chained (b : B) (path : list (call * B)) : Prop :=
  match path with
  | [] => True
  | (c, b1) :: path' => invoke b c = Some b1 /\ chained b1 path'
  end.
Definition behind (b : B) (path : list (call * B)) : B := default b (snd <$> last path).

Lemma then_done {X Y} (m : outcome X) (f : X -> outcome Y) y :
  then_ m f = Done y <-> exists x, m = Done x /\ f x = Done y.
Proof. destruct m; cbn; naive_solver. Qed.

Lemma or_fail_done {X} (o : option X) e x : or_fail o e = Done x <-> o = Some x.
Proof. destruct o; cbn; naive_solver. Qed.

Lemma cpi_invokes accs off proto n amount uin uout b b' :
  (if proto =? 1 then if negb (n =? 10)%nat then Fail ERR_HOP else cpi_dlmm invoke accs off amount uin uout b
   else if proto =? 2 then
     if (n =? 26)%nat then cpi_pump_buy invoke accs off amount b
     else if (n =? 24)%nat then cpi_pump_sell invoke accs off amount b else Fail ERR_HOP
   else Fail ERR_HOP) = Done b' ->
  exists c, invoke b c = Some b' /\ slice 8 16 (c_data c) = le_enc 8 amount.
Proof.
  assert (Ha : forall d rest, length d = 8%nat -> slice 8 16 (d ++ le_enc 8 amount ++ rest) = le_enc 8 amount).
  { intros d rest Hd. apply slice_at; unfold blen; rewrite ?Hd, ?length_le_enc; reflexivity. }
  repeat case_match; try done; unfold cpi_dlmm, cpi_pump_buy, cpi_pump_sell; case_match; try done;
    intros Hd; apply or_fail_done in Hd; eexists; (split; [exact Hd|]); by apply Ha.
Qed.

Lemma hop_loop_path accs data left : forall i off amount b b',
  hop_loop balance invoke accs data left i off amount b = Done b' ->
  exists path, chained b path /\ length path = left /\ behind b path = b' /\
    (left <> 0%nat -> exists c b1 rest, path = (c, b1) :: rest /\ slice 8 16 (c_data c) = le_enc 8 amount).
Proof.
  induction left as [|left IH]; intros i off amount b b'; cbn [hop_loop].
  { intros [= <-]. by exists []. }
  cbv zeta. destruct (_ <? _)%nat; [done|]. intros H.
  apply then_done in H as (uin & _ & H). apply then_done in H as (uout & _ & H).
  apply then_done in H as (before & _ & H). apply then_done in H as (b1 & Hc & H).
  apply then_done in H as (after & _ & H). destruct (_ =? 0); [done|].
  apply cpi_invokes in Hc as (c & Hc & Hd). apply IH in H as (path & Hp & Hl & Hb & _).
  exists ((c, b1) :: path). split; [by split|]. split; [cbn; by rewrite Hl|].
  split; [|intros _; by exists c, b1, path].
  unfold behind in *. destruct path as [|x path]; [done|]. rewrite last_cons_cons.
  destruct (last (x :: path)) eqn:E; [exact Hb|]. by apply last_None in E.
Qed.
End settled.

(** C28. An instruction that settles has gained: it is signed, it has made two or three calls, as
    many as the payload says, one upon the other and the first with the payload's amount, and the
    first token account holds at least the least profit more than before; otherwise it fails. *)
Theorem settled_gains {B} (balance : B -> string -> option Z) (invoke : B -> call -> option B) accs signer data b b' :
  process balance invoke accs signer data b = Done b' ->
  signer = true /\ exists path q0 q1,
    chained invoke b path /\ behind b path = b' /\
    Z.of_nat (length path) = data_at data 8 /\ (2 <= length path <= 3)%nat /\
    (exists c b1 rest, path = (c, b1) :: rest /\ slice 8 16 (c_data c) = le_enc 8 (le_dec (slice 9 17 data))) /\
    balance b (acc_at accs 1) = Some q0 /\ balance b' (acc_at accs 1) = Some q1 /\
    q0 <= q1 /\ q0 + le_dec (slice 17 25 data) <= q1.
Proof.
  unfold process. destruct (_ || _); [done|]. destruct (_ <? 9)%nat; [done|]. destruct signer; [|done]. cbn [negb].
  destruct (Z.ltb_spec (data_at data 8) 2); [done|]. destruct (Z.ltb_spec 3 (data_at data 8)); [done|]. cbn [orb].
  destruct (_ =? 0); [done|]. intros Hd. apply then_done in Hd as (q0 & Hq0 & Hd). apply then_done in Hd as (b1 & Hl & Hd).
  apply then_done in Hd as (q1 & Hq1 & Hd).
  destruct (Z.ltb_spec q1 q0); [done|]. destruct (Z.ltb_spec (q1 - q0) (le_dec (slice 17 25 data))); [done|].
  injection Hd as <-. apply hop_loop_path in Hl as (path & P1 & P2 & P3 & P4). split; [done|]. exists path, q0, q1.
  do 2 (split; [done|]). split; [lia|]. split; [lia|]. split; [apply P4; lia|].
  split; [by apply or_fail_done in Hq0|]. split; [by apply or_fail_done in Hq1|]. lia.
Qed.

(** A chain that is a number, every balance of which is that number; each call adds one. *)
Definition demo_balance (b : Z) (_ : string) : option Z := Some b.
Definition demo_invoke (b : Z) (_ : call) : option Z := Some (b + 1).
Definition demo_accs : list string := replicate 29 "k"%string.
Definition demo_data : bytes := wire_ix 2 [(1, 0, 1, 10); (1, 1, 0, 10)] 10000 2.

Lemma settled_gains_witness :
  process demo_balance demo_invoke demo_accs true demo_data 5 = Done 7 /\
  exists path, chained demo_invoke 5 path /\ behind 5 path = 7 /\ Z.of_nat (length path) = 2.
Proof.
  assert (H : process demo_balance demo_invoke demo_accs true demo_data 5 = Done 7) by (vm_compute; reflexivity).
  split; [exact H|].
  destruct (settled_gains demo_balance demo_invoke demo_accs true demo_data 5 7 H) as (_ & path & q0 & q1 & H1 & H2 & H3 & _).
  exists path. split; [exact H1|]. split; [exact H2|exact H3].
Defined.
