(* ===== verification/HopsRoute.v ===== *)
(** ARBHOPS0 routes: the account vector and payload of a route and their check, of
    arb-exec/scripts/hops_live.py.

    route_mints follows the tokens through the pools; build_route_accounts resolves every hop
    (HopsVector), lays out shared accounts and hops and packs the instruction; validate_vector compares
    a vector with the chain and with the derived hops.  Pool and route rows are records of the
    fields read; a pool row has its pubkey.  The node's answers are the parameter of Deps; the cache
    of Pump pool data, a file, is an input. *)
From stdpp Require Import base list strings gmap pretty.
From Stdlib Require Import ZArith Lia Ascii.
From Stdlib Require String.
From S2P Require Import Prelude PyBytes Base58 Pda Submap Accounts Deps PyVal ExecTemplate AltPlane Recorder HopsVector HopsGolden HopsProgram.
Open Scope Z_scope.
Open Scope py_scope.

Definition TINY_IN : Z := 10000.
Definition MIN_PROFIT : Z := 1000000000.
Definition V0_MAX : Z := 1232.

Record hpool := HPool {
  hp_pubkey : string; hp_mx : option string; hp_mint_x : option string;
  hp_my : option string; hp_mint_y : option string; hp_proto : option string; hp_kind : option string }.

Record hroute := HRoute {
  hr_id : pyval; hr_seq : string; hr_n_hop : Z;
  hr_p0 : option Z; hr_p1 : option Z; hr_p2 : option Z; hr_exec : bool; hr_fam : Z }.

(** * Tokens of a route *)

(** [s.split(sep)] *)
Fixpoint split_on (sep : ascii) (acc l : list ascii) : list string :=
  match l with
  | [] => [text (List.rev acc)]
  | c :: l' => if Ascii.eqb c sep then text (List.rev acc) :: split_on sep [] l' else split_on sep (c :: acc) l'
  end.
Definition protos_of (r : hroute) : list string := split_on "-" [] (chars (hr_seq r)).

(** [l[:n]] *)
Definition slice_to {A} (n : Z) (l : list A) : list A :=
  take (Z.to_nat (if n <? 0 then Z.max 0 (Z.of_nat (length l) + n) else n)) l.
Definition idxs_of (r : hroute) : list (option Z) := slice_to (hr_n_hop r) [hr_p0 r; hr_p1 r; hr_p2 r].

(** [pools[int(idxs[hi])]] *)
Definition pool_at (pools : list hpool) (r : hroute) (hi : nat) : pyres hpool :=
  i <-! at_index (idxs_of r) (Z.of_nat hi) ;;
  match i with
  | None => Raise TypeError
  | Some i => at_index pools i
  end.

Definition mx_of (p : hpool) : string := default ""%string (or_str (hp_mx p) (hp_mint_x p)).
Definition my_of (p : hpool) : string := default ""%string (or_str (hp_my p) (hp_mint_y p)).

Definition no_mints (r : hroute) (hi : nat) (p : hpool) : pyexn :=
  RuntimeError ("VECTOR_FAIL route=" ++ py_str (hr_id r) ++ " hop=" ++ pretty (Z.of_nat hi) ++ " role=pool_mints " ++
                "expected_mint=base58 got_mint=empty pool=" ++ hp_pubkey p).

(** [my if incoming == mx else mx] *)
Definition outgoing_of (p : hpool) (incoming : string) : string :=
  if String.eqb incoming (mx_of p) then my_of p else mx_of p.

Definition mint_step (pools : list hpool) (r : hroute) (mints : list string) (hi : nat) : pyres (list string) :=
  p <-! pool_at pools r hi ;;
  if (String.length (mx_of p) <? 32)%nat || (String.length (my_of p) <? 32)%nat then Raise (no_mints r hi p) else
  incoming <-! at_index mints (-1) ;;
  Ret (mints ++ [outgoing_of p incoming]).

Definition route_mints (pools : list hpool) (r : hroute) : pyres (list string) :=
  py_foldl (mint_step pools r) [SOL] (seq 0 (length (protos_of r))).

(** * Accounts and payload *)

(** [0 if m == SOL else (1 if m == mints[1] else 2)] *)
Definition ata_slot (mints : list string) (m : string) : pyres Z :=
  if String.eqb m SOL then Ret 0 else
  m1 <-! at_index mints 1 ;;
  Ret (if String.eqb m m1 then 1 else 2).

Definition buys (proto incoming : string) : bool := String.eqb proto "pump" && String.eqb incoming SOL.
Definition n_accs (proto : string) (buy : bool) : Z :=
  if String.eqb proto "dlmm" then 10 else if buy then 26 else 24.

Section node.
Context (rpc : list string -> rpc_config -> pyres rpc_reply).
(** "pump_meta" of the cache file. *)
Context (cache : gmap string pump_fields).

Definition _pump_meta (pair : string) : pyres pump_fields :=
  let fetch := pump_meta_of rpc pair None in
  match cache !! pair with
  | Some hit => if bool_decide (is_Some (nonempty (pf_coin_creator hit)) /\ pf_base hit <> ""%string) then Ret hit else fetch
  | None => fetch
  end.

Definition ata_of (wallet mint : string) : pyres string :=
  tok <-! mint_tok rpc mint ;; ata wallet mint tok.

Definition add_user (wallet : string) (users : list string) (m : string) : pyres (list string) :=
  pk <-! ata_of wallet m ;;
  Ret (if bool_decide (pk ∈ users) then users else users ++ [pk]).

(** [while len(users) < 3: users.append(users[0])] *)
Definition pad_users (users : list string) : list string :=
  users ++ replicate (3 - length users) (hd ""%string users).

Definition user_atas (wallet : string) (mints : list string) : pyres (list string) :=
  m0 <-! at_index mints 0 ;;
  u0 <-! ata_of wallet m0 ;;
  users <-! py_foldl (add_user wallet) [u0] (drop 1 mints) ;;
  Ret (pad_users users).

Definition hop_want (r : hroute) (hi : nat) (want : Z) (accs : list string) : pyexn :=
  RuntimeError (hr_seq r ++ " hop" ++ pretty (Z.of_nat hi) ++ " want " ++ pretty want ++
                " got " ++ pretty (Z.of_nat (length accs))).

(** One turn of the loop over the hops: accounts, derived hop and payload entry. *)
Definition build_hop (wallet : string) (pools : list hpool) (r : hroute) (mints users : list string)
    (hp : nat * string) : pyres (list string * hop_sem * ix_hop) :=
  let '(hi, proto) := hp in
  p <-! pool_at pools r hi ;;
  let pk := hp_pubkey p in
  incoming <-! at_index mints (Z.of_nat hi) ;;
  outgoing <-! at_index mints (Z.of_nat hi + 1) ;;
  ina <-! ata_slot mints incoming ;;
  outa <-! ata_slot mints outgoing ;;
  let buy := buys proto incoming in
  let nacc := n_accs proto buy in
  sem <-! (if String.eqb proto "dlmm" then
             meta <-! _dlmm_meta rpc pk ;;
             h <-! derive_dlmm_hop rpc pk (Some meta) ;;
             Ret (HopDlmm h)
           else
             let token := if String.eqb incoming SOL then outgoing else incoming in
             user_base <-! ata_of wallet token ;;
             user_quote <-! at_index users 0 ;;
             meta <-! _pump_meta pk ;;
             h <-! derive_pump_hop rpc pk buy wallet user_base user_quote (Some meta) ;;
             Ret (HopPump h)) ;;
  let accs := hop_keys wallet sem in
  if negb (Z.of_nat (length accs) =? nacc) then Raise (hop_want r hi nacc accs) else
  Ret (accs, sem, (if String.eqb proto "dlmm" then 1 else 2, ina, outa, nacc)).

Definition shared_keys (wallet event_dlmm : string) (users : list string) : pyres (list string) :=
  u0 <-! at_index users 0 ;;
  u1 <-! at_index users 1 ;;
  u2 <-! at_index users 2 ;;
  Ret [wallet; u0; u1; u2; TOKENKEG; TOKEN2022; MEMO; ExecTemplate.DLMM; event_dlmm].

Definition build_route_accounts (wallet : string) (pools : list hpool) (r : hroute)
    : pyres (list string * bytes * list hop_sem) :=
  mints <-! route_mints pools r ;;
  users <-! user_atas wallet mints ;;
  event_dlmm <-! pda [ascii_bytes "__event_authority"] ExecTemplate.DLMM ;;
  shared <-! shared_keys wallet event_dlmm users ;;
  hops <-! py_map (build_hop wallet pools r mints users) (imap pair (protos_of r)) ;;
  let keys := shared ++ concat ((fun h => h.1.1) <$> hops) in
  buf <-! pack_hops (hr_n_hop r) (snd <$> hops) TINY_IN MIN_PROFIT ;;
  Ret (keys, buf, (fun h => h.1.2) <$> hops).
End node.

(** metas_for: writable and signer flags of the transaction. *)
Definition metas_for (keys : list string) (wallet : string) : list (string * bool * bool) :=
  imap (fun i k => let signer := String.eqb k wallet && (i =? 0)%nat in
                   (k, signer, signer || bool_decide (i ∈ [1; 2; 3]%nat) || (9 <=? i)%nat)) keys.

(** * What a route means *)

(** A hop with the token accounts it pays from and to. *)
Record leg := Leg { l_sem : hop_sem; l_in : string; l_out : string }.

(** The venue's swap instruction with the hop's own accounts. *)
Definition dlmm_swap (h : dlmm_hop) (wallet event user_in user_out : string) (amount : Z) : call :=
  Call ExecTemplate.DLMM
    [(dh_pool h, true, false); (dh_bitmap h, false, false); (dh_vault_x h, true, false); (dh_vault_y h, true, false);
     (user_in, true, false); (user_out, true, false); (dh_mint_x h, false, false); (dh_mint_y h, false, false);
     (dh_oracle h, true, false); (dh_host h, false, false); (wallet, true, true); (TOKEN2022, false, false);
     (TOKENKEG, false, false); (MEMO, false, false); (event, false, false); (ExecTemplate.DLMM, false, false);
     (dh_bin0 h, true, false); (dh_bin1 h, true, false)]
    (DLMM_SWAP2 ++ le_enc 8 amount ++ replicate 12 0).
Definition pump_swap (h : pump_hop) (wallet : string) (amount : Z) : call :=
  Call (ph_program h) (imap (fun i k => (k, pump_writable (ph_buy h) i, String.eqb k wallet)) (flatten h wallet))
    (if ph_buy h then PUMP_BUY_EXACT_Q ++ le_enc 8 amount ++ le_enc 8 1
     else PUMP_SELL ++ le_enc 8 amount ++ replicate 8 0).

Section spec.
Context {B : Type} (balance : B -> string -> option Z) (invoke : B -> call -> option B).

Definition swap (wallet event : string) (l : leg) (amount : Z) (b : B) : outcome B :=
  match l_sem l with
  | HopDlmm h => or_fail (invoke b (dlmm_swap h wallet event (l_in l) (l_out l) amount)) ERR_DLMM
  | HopPump h => or_fail (invoke b (pump_swap h wallet amount)) ERR_PUMP
  end.

(** Each hop pays out into its account, and what arrived there is what the next one pays in. *)
Fixpoint run_legs (wallet event : string) (legs : list leg) (amount : Z) (b : B) : outcome B :=
  match legs with
  | [] => Done b
  | l :: legs' =>
      before <-? tok_amt balance b (l_out l) ;;
      b' <-? swap wallet event l amount b ;;
      after <-? tok_amt balance b' (l_out l) ;;
      if after <=? before then Fail ERR_HOP else run_legs wallet event legs' (after - before) b'
  end.

Definition run_route (wallet event purse : string) (legs : list leg) (amount profit : Z) (b : B) : outcome B :=
  q0 <-? tok_amt balance b purse ;;
  b' <-? run_legs wallet event legs amount b ;;
  q1 <-? tok_amt balance b' purse ;;
  if q1 <? q0 + profit then Fail ERR_PROFIT else Done b'.
End spec.

(** * The accounts of a hop in the vector *)

Lemma acc_inside (pre l post : list string) (k : nat) :
  (k < length l)%nat -> acc_at (pre ++ l ++ post) (length pre + k) = nth k l ""%string.
Proof. intros Hk. unfold acc_at. rewrite app_nth2_plus. by rewrite app_nth1. Qed.

Definition head_ok (wallet event : string) (users keys : list string) : Prop :=
  exists u0 u1 u2, users = [u0; u1; u2] /\
    take 9 keys = [wallet; u0; u1; u2; TOKENKEG; TOKEN2022; MEMO; ExecTemplate.DLMM; event].

Lemma head_at wallet event users keys :
  head_ok wallet event users keys ->
  acc_at keys 0 = wallet /\ acc_at keys 4 = TOKENKEG /\ acc_at keys 5 = TOKEN2022 /\ acc_at keys 6 = MEMO /\
  acc_at keys 7 = ExecTemplate.DLMM /\ acc_at keys 8 = event /\
  forall s u, 0 <= s -> users !! Z.to_nat s = Some u -> user_ata keys s = Some u.
Proof.
  intros (u0 & u1 & u2 & -> & H). rewrite <- (take_drop 9 keys), H. generalize (drop 9 keys). intros r.
  do 6 (split; [reflexivity|]). intros s u Hs Hu.
  destruct (decide (s = 0)) as [->|]; [by injection Hu as <-|].
  destruct (decide (s = 1)) as [->|]; [by injection Hu as <-|].
  destruct (decide (s = 2)) as [->|]; [by injection Hu as <-|].
  apply lookup_lt_Some in Hu. cbn [length] in Hu. lia.
Qed.

Section calls.
Context {B : Type} (balance : B -> string -> option Z) (invoke : B -> call -> option B).
Context (wallet event : string) (users pre post : list string).

Lemma cpi_dlmm_swap h amount uin uout b :
  head_ok wallet event users (pre ++ flatten_dlmm h ++ post) ->
  cpi_dlmm invoke (pre ++ flatten_dlmm h ++ post) (length pre) amount uin uout b =
  or_fail (invoke b (dlmm_swap h wallet event uin uout amount)) ERR_DLMM.
Proof.
  intros Hh. apply head_at in Hh as (H0 & H4 & H5 & H6 & H7 & H8 & _). unfold cpi_dlmm.
  destruct (Nat.ltb_spec (length (pre ++ flatten_dlmm h ++ post)) (length pre + 10)) as [Hl|_].
  { rewrite !length_app in Hl. cbn [flatten_dlmm length] in Hl. lia. }
  rewrite H0, H4, H5, H6, H7, H8. rewrite !acc_inside by (cbn; lia). reflexivity.
Qed.

Lemma pump_writable_is (i : nat) :
  pump_writable_buy i = pump_writable true i /\ pump_writable_sell i = pump_writable false i.
Proof. done. Qed.

Lemma pump_call_swap h amount b n :
  head_ok wallet event users (pre ++ flatten h wallet ++ post) -> n = length (flatten h wallet) ->
  (if (n =? 26)%nat then cpi_pump_buy invoke (pre ++ flatten h wallet ++ post) (length pre) amount b
   else if (n =? 24)%nat then cpi_pump_sell invoke (pre ++ flatten h wallet ++ post) (length pre) amount b
   else Fail ERR_HOP) =
  or_fail (invoke b (pump_swap h wallet amount)) ERR_PUMP.
Proof.
  intros Hh ->. apply head_at in Hh as (H0 & _). unfold cpi_pump_buy, cpi_pump_sell, pump_metas. rewrite H0.
  assert (Hl : length (flatten h wallet) = if ph_buy h then 26%nat else 24%nat)
    by (unfold flatten; by destruct (ph_buy h)).
  rewrite acc_inside by (rewrite Hl; destruct (ph_buy h); lia).
  assert (Hp : nth 16 (flatten h wallet) ""%string = ph_program h) by reflexivity.
  rewrite Hp, drop_app_length, !length_app. unfold pump_swap.
  destruct (ph_buy h); rewrite Hl; cbn [Nat.eqb].
  all: match goal with |- context [(?a <? ?b)%nat] => destruct (Nat.ltb_spec a b); [lia|] end.
  all: rewrite <- Hl at 1; by rewrite take_app_length.
Qed.
End calls.

(** * The program on the built vector *)

Notation built := (list string * hop_sem * ix_hop)%type (only parsing).

Definition code_of (h : hop_sem) : Z := match h with HopDlmm _ => 1 | HopPump _ => 2 end.
Definition ina_of (h : built) : Z := h.2.1.1.2.
Definition outa_of (h : built) : Z := h.2.1.2.

Definition leg_of (users : list string) (h : built) : leg :=
  Leg h.1.2 (nth (Z.to_nat (ina_of h)) users ""%string) (nth (Z.to_nat (outa_of h)) users ""%string).

Record built_hop (wallet : string) (h : built) : Prop := {
  bh_accs : h.1.1 = hop_keys wallet h.1.2;
  bh_ix : h.2 = (code_of h.1.2, ina_of h, outa_of h, Z.of_nat (length h.1.1));
  bh_slots : 0 <= ina_of h <= 2 /\ 0 <= outa_of h <= 2 }.

Lemma built_byte wallet h : built_hop wallet h -> byte_hop h.2.
Proof.
  intros [Ha Hx [Hi Ho]]. rewrite Hx, Ha. cbn [byte_hop].
  destruct h as [[a [p|d]] x]; cbn [fst snd code_of hop_keys]; [|cbn; lia].
  unfold flatten. destruct (ph_buy p); cbn [app length]; lia.
Qed.

Section run.
Context {B : Type} (balance : B -> string -> option Z) (invoke : B -> call -> option B).
Context (wallet event : string) (users : list string).

Lemma swap_called pre h post amount uin uout b :
  built_hop wallet h -> head_ok wallet event users (pre ++ h.1.1 ++ post) ->
  let n := Z.to_nat h.2.2 in
  (if h.2.1.1.1 =? 1 then
     if negb (n =? 10)%nat then Fail ERR_HOP
     else cpi_dlmm invoke (pre ++ h.1.1 ++ post) (length pre) amount uin uout b
   else if h.2.1.1.1 =? 2 then
     if (n =? 26)%nat then cpi_pump_buy invoke (pre ++ h.1.1 ++ post) (length pre) amount b
     else if (n =? 24)%nat then cpi_pump_sell invoke (pre ++ h.1.1 ++ post) (length pre) amount b else Fail ERR_HOP
   else Fail ERR_HOP) = swap invoke wallet event (Leg h.1.2 uin uout) amount b.
Proof.
  intros [Ha Hx _] Hh. cbv zeta. rewrite Hx. cbn [fst snd]. rewrite Nat2Z.id. rewrite Ha in *.
  destruct h as [[a [p|d]] x]; cbn [fst snd code_of hop_keys] in *; cbn [Z.eqb Pos.eqb swap l_sem l_in l_out].
  - by eapply pump_call_swap.
  - cbn [flatten_dlmm length Nat.eqb negb]. by eapply cpi_dlmm_swap.
Qed.

Lemma hop_loop_legs data rest : forall pre i amount b,
  Forall (built_hop wallet) rest -> head_ok wallet event users (pre ++ concat ((fun h => h.1.1) <$> rest)) ->
  (forall j h, rest !! j = Some h -> read_hop data (i + j) = h.2) ->
  hop_loop balance invoke (pre ++ concat ((fun h => h.1.1) <$> rest)) data (length rest) i (length pre) amount b =
  run_legs balance invoke wallet event (leg_of users <$> rest) amount b.
Proof.
  induction rest as [|h rest IH]; intros pre i amount b Hb Hh Hr; [done|].
  apply Forall_cons in Hb as [Hb Hbs]. rewrite fmap_cons in Hh |- *. cbn [concat] in Hh |- *.
  pose proof (Hr 0%nat h eq_refl) as H0. rewrite Nat.add_0_r in H0.
  cbn [length hop_loop fmap list_fmap run_legs]. fold (leg_of users <$> rest).
  assert (F4 : data_at data (25 + i * 3) = h.2.1.1.1) by (by rewrite <- H0).
  assert (F3 : data_at data (26 + i * 3) = ina_of h) by (unfold ina_of; by rewrite <- H0).
  assert (F1 : data_at data (27 + i * 3) = outa_of h) by (unfold outa_of; by rewrite <- H0).
  assert (F2 : data_at data (34 + i) = h.2.2) by (by rewrite <- H0).
  assert (Hn : Z.to_nat h.2.2 = length h.1.1).
  { destruct Hb as [_ Hx _]. rewrite Hx. cbn [fst snd]. lia. }
  pose proof (head_at _ _ _ _ Hh) as (_ & _ & _ & _ & _ & _ & Hu).
  destruct Hh as (u0 & u1 & u2 & Eu & Ht).
  assert (Hs : forall s, 0 <= s <= 2 ->
    user_ata (pre ++ h.1.1 ++ concat ((fun h => h.1.1) <$> rest)) s = Some (nth (Z.to_nat s) users ""%string)).
  { intros s Hs. apply Hu; [lia|]. rewrite Eu. assert (s = 0 \/ s = 1 \/ s = 2) as [->|[->| ->]] by lia; done. }
  rewrite F1, F2, F3, F4. destruct (bh_slots _ _ Hb) as [Hi Ho].
  destruct (Nat.ltb_spec (length (pre ++ h.1.1 ++ concat ((fun h => h.1.1) <$> rest))) (length pre + Z.to_nat h.2.2)) as [Hl|_].
  { rewrite !length_app in Hl. lia. }
  rewrite !Hs by done. cbn [or_fail then_ leg_of l_out]. destruct (tok_amt balance b _) as [before|]; [|done].
  cbn [then_]. rewrite swap_called by (done || by exists u0, u1, u2).
  fold (leg_of users h). unfold leg_of at 1. destruct (swap _ _ _ _ _ _) as [b'|]; [|done]. cbn [then_].
  destruct (tok_amt balance b' _) as [after|]; [|done]. cbn [then_].
  destruct (Z.leb_spec after before) as [Hle|Hgt].
  { by replace (Z.max 0 (after - before)) with 0 by lia. }
  replace (Z.max 0 (after - before)) with (after - before) by lia.
  destruct (Z.eqb_spec (after - before) 0); [lia|].
  rewrite app_assoc, Hn. rewrite <- (length_app pre h.1.1). apply IH; [done| |].
  - rewrite <- app_assoc. by exists u0, u1, u2.
  - intros j h' Hj. replace (S i + j)%nat with (i + S j)%nat by lia. by apply (Hr (S j)).
Qed.

Lemma process_route hops data amount profit b :
  (2 <= length hops <= 3)%nat -> Forall (built_hop wallet) hops -> 0 < amount < 2 ^ 64 -> 0 <= profit < 2 ^ 64 ->
  length users = 3%nat ->
  pack_hops (Z.of_nat (length hops)) (snd <$> hops) amount profit = Ret data ->
  forall u0 u1 u2, users = [u0; u1; u2] ->
  process balance invoke
    ([wallet; u0; u1; u2; TOKENKEG; TOKEN2022; MEMO; ExecTemplate.DLMM; event] ++ concat ((fun h => h.1.1) <$> hops))
    true data b =
  run_route balance invoke wallet event u0 (leg_of users <$> hops) amount profit b.
Proof.
  intros Hl Hb Ha Hp Hu Hd u0 u1 u2 Eu.
  rewrite pack_hops_wire in Hd; [|by rewrite length_fmap; lia| |lia|lia|done].
  2: { apply Forall_fmap. eapply Forall_impl; [exact Hb|]. intros h. apply built_byte. }
  injection Hd as <-.
  destruct (wire_reads (Z.of_nat (length hops)) (snd <$> hops) amount profit)
    as (H1 & H2 & H3 & H4 & H5 & H6); [rewrite length_fmap; lia|lia|done|].
  unfold process. rewrite H1, H2, H3, H4, H5, bool_decide_eq_true_2 by done. cbn [Nat.eqb negb orb].
  set (S9 := [wallet; u0; u1; u2; TOKENKEG; TOKEN2022; MEMO; ExecTemplate.DLMM; event]).
  destruct (Nat.ltb_spec (length (S9 ++ concat ((fun h => h.1.1) <$> hops))) 9) as [Hlt|_].
  { rewrite length_app in Hlt. cbn [length S9] in Hlt. lia. }
  destruct (Z.ltb_spec (Z.of_nat (length hops)) 2); [lia|]. destruct (Z.ltb_spec 3 (Z.of_nat (length hops))); [lia|].
  destruct (Z.eqb_spec amount 0); [lia|]. cbn [orb]. rewrite Nat2Z.id. unfold run_route.
  replace (acc_at (S9 ++ concat ((fun h => h.1.1) <$> hops)) 1) with u0 by done.
  destruct (tok_amt balance b u0) as [q0|]; [|done]. cbn [then_].
  pose proof (hop_loop_legs (wire_ix (Z.of_nat (length hops)) (snd <$> hops) amount profit) hops S9 0 amount b) as HL.
  change (length S9) with 9%nat in HL. rewrite HL; [|done|by exists u0, u1, u2|].
  - destruct (run_legs _ _ _ _ _ _ _) as [b'|]; [|done]. cbn [then_].
    destruct (tok_amt balance b' u0) as [q1|]; [|done]. cbn [then_].
    destruct (Z.ltb_spec q1 (q0 + profit)); destruct (Z.ltb_spec q1 q0); destruct (Z.ltb_spec (q1 - q0) profit);
      cbn [orb]; try reflexivity; lia.
  - intros j h Hj. apply (H6 j). rewrite list_lookup_fmap. by rewrite Hj.
Qed.
End run.

(** * What the builder built *)

Lemma mint_steps_grow pools r l : forall acc mints,
  py_foldl (mint_step pools r) acc l = Ret mints ->
  exists tl, mints = acc ++ tl /\ length tl = length l.
Proof.
  induction l as [|hi l IH]; intros acc mints; cbn [py_foldl].
  { intros [= <-]. exists []. by rewrite app_nil_r. }
  intros H. apply py_bind_Ret in H as (acc' & Hs & H). apply IH in H as (tl & -> & Hl).
  unfold mint_step in Hs. apply py_bind_Ret in Hs as (p & _ & Hs).
  destruct (_ || _); [done|]. apply py_bind_Ret in Hs as (inc & _ & [= <-]).
  eexists (_ :: tl). rewrite <- app_assoc. split; [done|]. cbn [length]. by rewrite Hl.
Qed.

Lemma route_mints_shape pools r mints :
  route_mints pools r = Ret mints -> exists tl, mints = SOL :: tl /\ length tl = length (protos_of r).
Proof.
  intros H. apply mint_steps_grow in H as (tl & -> & Hl). exists tl. split; [done|]. by rewrite Hl, length_seq.
Qed.

Lemma at_index_nat {A} (l : list A) (n : nat) x : at_index l (Z.of_nat n) = Ret x <-> l !! n = Some x.
Proof.
  unfold at_index. destruct (Z.ltb_spec (Z.of_nat n) 0); [lia|]. destruct (Z.ltb_spec (Z.of_nat n) 0); [lia|].
  rewrite Nat2Z.id. destruct (l !! n); naive_solver.
Qed.

Section build.
Context (rpc : list string -> rpc_config -> pyres rpc_reply) (cache : gmap string pump_fields) (wallet : string).

(** Tokens of the route that share a token account are the same token. *)
Definition own_accounts (mints : list string) : Prop :=
  forall m m' a, m ∈ mints -> m' ∈ mints -> ata_of rpc wallet m = Ret a -> ata_of rpc wallet m' = Ret a -> m = m'.

(** A closed route of two or three hops that leaves SOL at once. *)
Definition closed_route (mints : list string) : Prop :=
  (3 <= length mints <= 4)%nat /\ last mints = Some SOL /\ mints !! 1%nat <> Some SOL.

Lemma add_user_ret users m a :
  ata_of rpc wallet m = Ret a -> add_user rpc wallet users m = Ret (if bool_decide (a ∈ users) then users else users ++ [a]).
Proof. intros H. unfold add_user. by rewrite H. Qed.

Lemma user_atas_slots mints tl users :
  mints = SOL :: tl -> closed_route mints -> own_accounts mints -> user_atas rpc wallet mints = Ret users ->
  length users = 3%nat /\
  forall m s, m ∈ mints -> ata_slot mints m = Ret s ->
    0 <= s <= 2 /\ ata_of rpc wallet m = Ret (nth (Z.to_nat s) users ""%string).
Proof.
  intros -> ([Hl1 Hl2] & Hlast & Hm1) Hown H. unfold user_atas in H. apply py_bind_Ret in H as (m0 & [= <-] & H).
  apply py_bind_Ret in H as (u0 & Hu0 & H). apply py_bind_Ret in H as (us & Hus & [= <-]).
  destruct tl as [|m1 [|m2 tl]]; [cbn in Hl1; lia|cbn in Hl1; lia|]. cbn [lookup list_lookup] in Hm1.
  cbn [drop py_foldl] in Hus. apply py_bind_Ret in Hus as (us1 & H1 & Hus). apply py_bind_Ret in Hus as (us2 & H2 & Hus).
  assert (N1 : m1 <> SOL) by congruence.
  assert (E0 : SOL ∈ SOL :: m1 :: m2 :: tl) by (by apply (list_elem_of_lookup_2 _ 0)).
  assert (E1 : m1 ∈ SOL :: m1 :: m2 :: tl) by (by apply (list_elem_of_lookup_2 _ 1)).
  assert (E2 : m2 ∈ SOL :: m1 :: m2 :: tl) by (by apply (list_elem_of_lookup_2 _ 2)).
  unfold add_user in H1. apply py_bind_Ret in H1 as (a1 & Ha1 & [= <-]).
  rewrite bool_decide_eq_false_2 in H2.
  2: { rewrite list_elem_of_singleton. intros ->. apply N1. exact (Hown m1 SOL u0 E1 E0 Ha1 Hu0). }
  unfold add_user in H2. apply py_bind_Ret in H2 as (a2 & Ha2 & [= <-]).
  assert (Hslot : forall m s, ata_slot (SOL :: m1 :: m2 :: tl) m = Ret s ->
    s = if String.eqb m SOL then 0 else if String.eqb m m1 then 1 else 2).
  { intros m s. unfold ata_slot. destruct (String.eqb m SOL); [by intros [= <-]|]. cbn. by intros [= <-]. }
  assert (Hfin : exists a3, us = (if bool_decide (a3 ∈ [u0; a1]) then [u0; a1] else [u0; a1; a3]) /\
     forall m, m ∈ SOL :: m1 :: m2 :: tl -> m = SOL \/ m = m1 \/ ata_of rpc wallet m = Ret a3 /\ a3 ∉ [u0; a1]).
  { destruct tl as [|m3 [|? ?]]; [| |cbn in Hl2; lia].
    - cbn in Hlast. injection Hlast as ->. rewrite Hu0 in Ha2. injection Ha2 as <-. injection Hus as <-.
      exists u0. rewrite bool_decide_eq_true_2 by (by left). split; [done|].
      intros m Hm. rewrite !elem_of_cons, elem_of_nil in Hm.
      destruct Hm as [->|[->|[->|[]]]]; [by left|by right; left|by left].
    - cbn in Hlast. injection Hlast as ->. apply py_bind_Ret in Hus as (us3 & H3 & [= <-]).
      rewrite (add_user_ret _ _ _ Hu0) in H3. injection H3 as <-. exists a2.
      rewrite (bool_decide_eq_true_2 (u0 ∈ _)) by (case_bool_decide; by left). split; [done|].
      intros m Hm. destruct (decide (m = SOL)) as [|Nm]; [by left|]. destruct (decide (m = m1)) as [|Nm1]; [by right; left|].
      rewrite !elem_of_cons, elem_of_nil in Hm.
      destruct Hm as [Em|[Em|[->|[Em|[]]]]]; [by destruct (Nm Em)|by destruct (Nm1 Em)| |by destruct (Nm Em)].
      right; right. split; [done|].
      intros Hin. apply elem_of_cons in Hin as [->|Hin]; [exact (Nm (Hown m2 SOL u0 E2 E0 Ha2 Hu0))|].
      apply list_elem_of_singleton in Hin as ->. exact (Nm1 (Hown m2 m1 a1 E2 E1 Ha2 Ha1)). }
  destruct Hfin as (a3 & -> & Hall). split.
  { by destruct (bool_decide (a3 ∈ [u0; a1])). }
  intros m s Hm Hs. apply Hslot in Hs as ->.
  destruct (String.eqb_spec m SOL) as [->|]; [split; [lia|]; rewrite Hu0; by destruct (bool_decide (a3 ∈ [u0; a1]))|].
  destruct (String.eqb_spec m m1) as [->|]; [split; [lia|]; rewrite Ha1; by destruct (bool_decide (a3 ∈ [u0; a1]))|].
  split; [lia|]. destruct (Hall m Hm) as [|[|[Ha Hn]]]; [done|done|]. rewrite Ha. by rewrite bool_decide_eq_false_2.
Qed.

Lemma derive_pump_shape pair buy w ub uq meta h :
  derive_pump_hop rpc pair buy w ub uq (Some meta) = Ret h ->
  ph_buy h = buy /\ ph_user_base_ata h = ub /\ ph_user_quote_ata h = uq /\ ph_pool h = pair /\ ph_program h = ExecTemplate.PUMP.
Proof.
  unfold derive_pump_hop. cbn [pump_meta_of py_bind]. destruct (nonempty _); [|done]. intros H.
  do 15 (apply py_bind_Ret in H as (? & _ & H)). by injection H as <-.
Qed.

Lemma dlmm_hop_pool pair meta h : derive_dlmm_hop rpc pair (Some meta) = Ret h -> dh_pool h = pair.
Proof.
  unfold derive_dlmm_hop. cbn [py_bind]. intros H. apply py_bind_Ret in H as (bins & _ & H).
  destruct bins as [|b0 bins]; [done|]. apply py_bind_Ret in H as (raw & _ & H). by apply py_bind_Ret in H as (o & _ & [= <-]).
Qed.

(** The hop is the one derived from the chain for the pool at [pk], by protocol [proto], from token
    [m] to token [m']: a Pump hop buys when it starts from SOL, its base account is the wallet's
    account of the token that is not SOL, and its quote account is [user_quote]. *)
Definition derived_hop (pk proto m m' user_quote : string) (sem : hop_sem) : Prop :=
  match sem with
  | HopDlmm d => proto = "dlmm"%string /\ dh_pool d = pk /\
      exists meta, _dlmm_meta rpc pk = Ret meta /\ derive_dlmm_hop rpc pk (Some meta) = Ret d
  | HopPump q => proto <> "dlmm"%string /\ ph_pool q = pk /\ ph_buy q = buys proto m /\ ph_user_quote_ata q = user_quote /\
      ata_of rpc wallet (if String.eqb m SOL then m' else m) = Ret (ph_user_base_ata q) /\
      exists meta, _pump_meta rpc cache pk = Ret meta /\
        derive_pump_hop rpc pk (buys proto m) wallet (ph_user_base_ata q) user_quote (Some meta) = Ret q
  end.

(** A built hop goes with its place in the route. *)
Record hop_fits (pools : list hpool) (r : hroute) (mints users : list string) (i : nat) (h : list string * hop_sem * ix_hop) : Prop := {
  hf_pool : exists p proto m m', pool_at pools r i = Ret p /\ protos_of r !! i = Some proto /\
    mints !! i = Some m /\ mints !! S i = Some m' /\ derived_hop (hp_pubkey p) proto m m' (nth 0 users ""%string) h.1.2;
  hf_in : exists m, mints !! i = Some m /\ ata_slot mints m = Ret (ina_of h);
  hf_out : exists m, mints !! S i = Some m /\ ata_slot mints m = Ret (outa_of h) }.

Lemma build_hop_built pools r mints users i proto h :
  protos_of r !! i = Some proto -> build_hop rpc cache wallet pools r mints users (i, proto) = Ret h ->
  h.1.1 = hop_keys wallet h.1.2 /\ h.2 = (code_of h.1.2, ina_of h, outa_of h, Z.of_nat (length h.1.1)) /\
  hop_fits pools r mints users i h.
Proof.
  unfold build_hop. intros Hproto H. apply py_bind_Ret in H as (p & Hp & H). apply py_bind_Ret in H as (inc & Hi & H).
  apply py_bind_Ret in H as (out & Ho & H). apply py_bind_Ret in H as (ina & Hia & H). apply py_bind_Ret in H as (outa & Hoa & H).
  cbv zeta in H. apply py_bind_Ret in H as (sem & Hs & H).
  destruct (Z.eqb_spec (Z.of_nat (length (hop_keys wallet sem))) (n_accs proto (buys proto inc))) as [Hn|]; [|done].
  cbn [negb] in H. injection H as <-. cbn [fst snd]. rewrite at_index_nat in Hi.
  replace (Z.of_nat i + 1) with (Z.of_nat (S i)) in Ho by lia. rewrite at_index_nat in Ho.
  assert (Hc : (if String.eqb proto "dlmm" then 1 else 2) = code_of sem /\
               derived_hop (hp_pubkey p) proto inc out (nth 0 users ""%string) sem).
  { destruct (String.eqb_spec proto "dlmm") as [Hd|Hd].
    - apply py_bind_Ret in Hs as (meta & Hmeta & Hs). apply py_bind_Ret in Hs as (d & Hs' & [= <-]). split; [done|].
      split; [done|]. split; [by eapply dlmm_hop_pool|]. by exists meta.
    - apply py_bind_Ret in Hs as (ub & Hub & Hs). apply py_bind_Ret in Hs as (uq & Huq & Hs).
      apply py_bind_Ret in Hs as (meta & Hmeta & Hs). apply py_bind_Ret in Hs as (q & Hq & [= <-]).
      apply (at_index_nat users 0) in Huq. apply (nth_lookup_Some _ _ ""%string) in Huq as Hnth.
      destruct (derive_pump_shape _ _ _ _ _ _ _ Hq) as (E1 & <- & <- & E4 & _). split; [done|].
      do 4 (split; [done|]). split; [exact Hub|]. exists meta. by rewrite Hnth. }
  destruct Hc as [-> Hpool]. split; [done|]. rewrite Hn. split; [done|]. constructor; cbn [fst snd].
  - exists p, proto, inc, out. by split_and!.
  - by exists inc.
  - by exists out.
Qed.
End build.

(** The leg [l] is the hop [i] of the route: the hop derived for the route's pool and protocol, on the
    wallet's accounts of the tokens on either side.  A Pump hop has them at the fifth and sixth place
    of its accounts: it buys from the SOL account into the token's, or sells the other way. *)
Definition leg_at (rpc : list string -> rpc_config -> pyres rpc_reply) (cache : gmap string pump_fields) (wallet : string)
    (pools : list hpool) (r : hroute) (mints : list string) (i : nat) (l : leg) : Prop :=
  exists p proto m m' purse, pool_at pools r i = Ret p /\ protos_of r !! i = Some proto /\
    mints !! i = Some m /\ mints !! S i = Some m' /\
    ata_of rpc wallet m = Ret (l_in l) /\ ata_of rpc wallet m' = Ret (l_out l) /\ ata_of rpc wallet SOL = Ret purse /\
    derived_hop rpc cache wallet (hp_pubkey p) proto m m' purse (l_sem l) /\
    match l_sem l with
    | HopDlmm _ => True
    | HopPump q =>
        (m = SOL -> take 2 (drop 5 (flatten q wallet)) = [l_out l; l_in l]) /\
        (m <> SOL -> m' = SOL -> take 2 (drop 5 (flatten q wallet)) = [l_in l; l_out l])
    end.

Lemma three_of (users : list string) : length users = 3%nat -> exists u0 u1 u2, users = [u0; u1; u2].
Proof. destruct users as [|u0 [|u1 [|u2 [|? ?]]]]; try discriminate. intros _. by exists u0, u1, u2. Qed.

Section route.
Context (rpc : list string -> rpc_config -> pyres rpc_reply) (cache : gmap string pump_fields) (wallet : string).
Context (pools : list hpool) (r : hroute) (mints : list string).
Hypothesis Hmints : route_mints pools r = Ret mints.

(** The parts of a built route. *)
Lemma build_route_parts keys data sems :
  build_route_accounts rpc cache wallet pools r = Ret (keys, data, sems) ->
  exists users event shared hops,
    user_atas rpc wallet mints = Ret users /\ pda [ascii_bytes "__event_authority"] ExecTemplate.DLMM = Ret event /\
    shared_keys wallet event users = Ret shared /\
    py_map (build_hop rpc cache wallet pools r mints users) (imap pair (protos_of r)) = Ret hops /\
    pack_hops (hr_n_hop r) (snd <$> hops) TINY_IN MIN_PROFIT = Ret data /\
    keys = shared ++ concat ((fun h => h.1.1) <$> hops) /\ sems = (fun h => h.1.2) <$> hops.
Proof.
  unfold build_route_accounts. generalize (pda [ascii_bytes "__event_authority"] ExecTemplate.DLMM). intros ev H.
  rewrite Hmints in H. cbn [py_bind] in H.
  apply py_bind_Ret in H as (users & Hu & H). apply py_bind_Ret in H as (event & He & H).
  apply py_bind_Ret in H as (shared & Hs & H). apply py_bind_Ret in H as (hops & Hh & H).
  apply py_bind_Ret in H as (buf & Hb & H). injection H as <- <- <-.
  exists users, event, shared, hops. do 6 (split; [assumption || reflexivity|]). reflexivity.
Qed.

Lemma built_hops users hops :
  py_map (build_hop rpc cache wallet pools r mints users) (imap pair (protos_of r)) = Ret hops ->
  length hops = length (protos_of r) /\
  forall i h, hops !! i = Some h ->
    h.1.1 = hop_keys wallet h.1.2 /\ h.2 = (code_of h.1.2, ina_of h, outa_of h, Z.of_nat (length h.1.1)) /\
    hop_fits rpc cache wallet pools r mints users i h.
Proof.
  intros Hh. split; [by rewrite (py_map_length _ _ _ Hh), length_imap|].
  intros i h Hi. destruct (py_map_lookup _ _ _ _ _ Hh Hi) as ([i' proto] & Hx & Hf).
  rewrite list_lookup_imap in Hx. destruct (protos_of r !! i) eqn:Ep; [|done]. injection Hx as <- <-.
  by eapply build_hop_built in Hf.
Qed.

Section legs.
Context (users : list string) (hops : list (list string * hop_sem * ix_hop)).
Hypothesis Hslot : forall m s, m ∈ mints -> ata_slot mints m = Ret s ->
  0 <= s <= 2 /\ ata_of rpc wallet m = Ret (nth (Z.to_nat s) users ""%string).
Hypothesis Hfits : forall i h, hops !! i = Some h ->
  h.1.1 = hop_keys wallet h.1.2 /\ h.2 = (code_of h.1.2, ina_of h, outa_of h, Z.of_nat (length h.1.1)) /\
  hop_fits rpc cache wallet pools r mints users i h.

Lemma legs_at i l : (leg_of users <$> hops) !! i = Some l -> leg_at rpc cache wallet pools r mints i l.
Proof.
  intros Hi. rewrite list_lookup_fmap in Hi. destruct (hops !! i) as [h|] eqn:Ei; [|done]. injection Hi as <-.
  destruct (Hfits i h Ei) as (_ & _ & [(p & proto & m & m' & Hp & Hproto & Hm & Hm' & Hsem) (m1 & Hm1 & Hsi) (m2 & Hm2 & Hso)]).
  rewrite Hm in Hm1. injection Hm1 as <-. rewrite Hm' in Hm2. injection Hm2 as <-.
  pose proof (proj2 (Hslot m _ (list_elem_of_lookup_2 _ _ _ Hm) Hsi)) as Ain.
  pose proof (proj2 (Hslot m' _ (list_elem_of_lookup_2 _ _ _ Hm') Hso)) as Aout.
  destruct (route_mints_shape _ _ _ Hmints) as (tl & Em & _).
  assert (Asol : ata_of rpc wallet SOL = Ret (nth 0 users ""%string)).
  { refine (proj2 (Hslot SOL 0 _ _)); rewrite Em; [by left|reflexivity]. }
  exists p, proto, m, m', (nth 0 users ""%string). do 8 (split; [assumption|]).
  change (l_sem (leg_of users h)) with h.1.2. destruct h.1.2 as [q|d] eqn:Eh; [|done].
  destruct Hsem as (_ & _ & _ & Hq & Hb & _). unfold flatten. cbn [leg_of l_in l_out app drop take]. rewrite Hq. split.
  - intros ->. rewrite String.eqb_refl in Hb. congruence.
  - intros Hne ->. rewrite (proj2 (String.eqb_neq _ _) Hne) in Hb. congruence.
Qed.

Lemma legs_built : Forall (built_hop wallet) hops.
Proof.
  apply Forall_lookup_2. intros i h Hi. destruct (Hfits i h Hi) as (F1 & F2 & [_ (m & Hmi & Hsi) (m' & Hmo & Hso)]).
  constructor; [exact F1|exact F2|].
  split; [exact (proj1 (Hslot m _ (list_elem_of_lookup_2 _ _ _ Hmi) Hsi))|].
  exact (proj1 (Hslot m' _ (list_elem_of_lookup_2 _ _ _ Hmo) Hso)).
Qed.
End legs.
End route.

(** C27. The route's vector and payload run as the route: on them the on-chain program does hop by
    hop each venue's swap on that hop's own accounts, paid from the wallet's account of the token
    that comes in and into its account of the token that goes out, with what the hop before
    brought as amount, and settles when the SOL account has gained the least profit.  Each hop is the
    one derived for the pool that the route names, and a Pump hop buys where it starts from SOL and
    sells where it ends there, between the wallet's own accounts.  The route has to be closed, of
    two or three hops and as many protocols as it says, must not stay in SOL, and its tokens have to
    have token accounts of their own. *)
Theorem route_runs_its_hops {B} (balance : B -> string -> option Z) (invoke : B -> call -> option B)
    rpc cache wallet pools r mints keys data sems :
  build_route_accounts rpc cache wallet pools r = Ret (keys, data, sems) ->
  route_mints pools r = Ret mints -> hr_n_hop r = Z.of_nat (length (protos_of r)) ->
  closed_route mints -> own_accounts rpc wallet mints ->
  exists (legs : list leg) event purse, l_sem <$> legs = sems /\ length legs = length (protos_of r) /\
    (forall i l, legs !! i = Some l -> leg_at rpc cache wallet pools r mints i l) /\
    ata_of rpc wallet SOL = Ret purse /\ pda [ascii_bytes "__event_authority"] ExecTemplate.DLMM = Ret event /\
    forall b, process balance invoke keys true data b =
      run_route balance invoke wallet event purse legs TINY_IN MIN_PROFIT b.
Proof.
  intros H Hm Hn Hc Hown. destruct (route_mints_shape _ _ _ Hm) as (tl & Em & Hl).
  destruct (build_route_parts rpc cache wallet pools r mints Hm keys data sems H)
    as (users & event & shared & hops & Hu & He & Hs & Hh & Hb & -> & ->).
  destruct (user_atas_slots rpc wallet mints tl users Em Hc Hown Hu) as [Hu3 Hslot].
  destruct (built_hops _ _ _ _ _ _ _ _ Hh) as [Hlen Hfits].
  destruct (three_of users Hu3) as (u0 & u1 & u2 & Eu). rewrite Eu in Hs. injection Hs as <-.
  exists (leg_of users <$> hops), event, u0.
  split; [by rewrite <- list_fmap_compose|]. split; [by rewrite length_fmap|].
  split; [by eapply legs_at|]. split; [|split; [exact He|]].
  - rewrite Em in Hslot. rewrite Eu in Hslot.
    exact (proj2 (Hslot SOL 0 (list_elem_of_lookup_2 (SOL :: tl) 0 SOL eq_refl) eq_refl)).
  - intros b. rewrite Hn, <- Hlen in Hb. destruct Hc as [Hml _]. rewrite Em in Hml. cbn [length] in Hml.
    refine (process_route balance invoke wallet event users hops data TINY_IN MIN_PROFIT b _ _ _ _ Hu3 Hb u0 u1 u2 Eu);
      [lia|by apply (legs_built rpc cache wallet pools r mints users)|unfold TINY_IN; lia|unfold MIN_PROFIT; lia].
Qed.

(** * A route over two pools, the second a DLMM pool *)

Section two_pools.
Context (rpc : list string -> rpc_config -> pyres rpc_reply) (cache : gmap string pump_fields) (wallet : string).
Context (pools : list hpool) (r : hroute) (m : string) (p : hpool) (meta : dlmm_fields) (h : dlmm_hop) (u0 u1 ev : string).
Hypothesis Hm : route_mints pools r = Ret [SOL; m; SOL].
Hypothesis Hne : m <> SOL.
Hypothesis H0 : ata_of rpc wallet SOL = Ret u0.
Hypothesis H1 : ata_of rpc wallet m = Ret u1.
Hypothesis Hu : u1 <> u0.
Hypothesis Hev : pda [ascii_bytes "__event_authority"] ExecTemplate.DLMM = Ret ev.
Hypothesis Hp1 : pool_at pools r 1 = Ret p.
Hypothesis Hmeta : _dlmm_meta rpc (hp_pubkey p) = Ret meta.
Hypothesis Hhop : derive_dlmm_hop rpc (hp_pubkey p) (Some meta) = Ret h.

Lemma two_users : user_atas rpc wallet [SOL; m; SOL] = Ret [u0; u1; u0].
Proof.
  unfold user_atas. replace (at_index [SOL; m; SOL] 0) with (Ret SOL) by reflexivity. cbn [py_bind].
  rewrite H0. cbn [py_bind drop py_foldl]. unfold add_user. rewrite H1. cbn [py_bind].
  rewrite bool_decide_eq_false_2 by (by rewrite list_elem_of_singleton). cbn [app]. rewrite H0. cbn [py_bind].
  rewrite bool_decide_eq_true_2 by (by left). reflexivity.
Qed.

Lemma two_slots : ata_slot [SOL; m; SOL] SOL = Ret 0 /\ ata_slot [SOL; m; SOL] m = Ret 1.
Proof.
  unfold ata_slot. split; [reflexivity|]. destruct (String.eqb_spec m SOL) as [E|_]; [destruct (Hne E)|]. rewrite (proj2 (at_index_nat [SOL; m; SOL] 1 m) eq_refl : at_index [SOL; m; SOL] 1 = Ret m). cbn [py_bind].
  by rewrite String.eqb_refl.
Qed.

Lemma two_hop users i inc out ina outa :
  pool_at pools r i = Ret p -> [SOL; m; SOL] !! i = Some inc -> [SOL; m; SOL] !! S i = Some out ->
  ata_slot [SOL; m; SOL] inc = Ret ina -> ata_slot [SOL; m; SOL] out = Ret outa ->
  build_hop rpc cache wallet pools r [SOL; m; SOL] users (i, "dlmm"%string) =
    Ret (flatten_dlmm h, HopDlmm h, (1, ina, outa, 10)).
Proof.
  intros Hi Hin Hout Hia Hoa. unfold build_hop. rewrite Hi. cbn [py_bind].
  rewrite (proj2 (at_index_nat _ i inc) Hin). cbn [py_bind].
  replace (Z.of_nat i + 1) with (Z.of_nat (S i)) by lia. rewrite (proj2 (at_index_nat _ (S i) out) Hout). cbn [py_bind].
  rewrite Hia. cbn [py_bind]. rewrite Hoa. cbn [py_bind].
  cbn [String.eqb Ascii.eqb Bool.eqb]. rewrite Hmeta. cbn [py_bind]. rewrite Hhop. reflexivity.
Qed.

Lemma two_built k0 s0 c0 n0 k1 s1 c1 n1 a b data :
  protos_of r = [a; b] ->
  build_hop rpc cache wallet pools r [SOL; m; SOL] [u0; u1; u0] (0%nat, a) = Ret (k0, s0, (c0, 0, 1, n0)) ->
  build_hop rpc cache wallet pools r [SOL; m; SOL] [u0; u1; u0] (1%nat, b) = Ret (k1, s1, (c1, 1, 0, n1)) ->
  pack_hops (hr_n_hop r) [(c0, 0, 1, n0); (c1, 1, 0, n1)] TINY_IN MIN_PROFIT = Ret data ->
  build_route_accounts rpc cache wallet pools r =
    Ret ([wallet; u0; u1; u0; TOKENKEG; TOKEN2022; MEMO; ExecTemplate.DLMM; ev] ++ k0 ++ k1, data, [s0; s1]).
Proof.
  intros Hprotos B0 B1 Hd. pose proof Hev as He. revert He. unfold build_route_accounts.
  generalize (pda [ascii_bytes "__event_authority"] ExecTemplate.DLMM). intros e ->.
  rewrite Hm. cbn [py_bind]. rewrite two_users. cbn [py_bind].
  replace (shared_keys wallet ev [u0; u1; u0])
    with (Ret [wallet; u0; u1; u0; TOKENKEG; TOKEN2022; MEMO; ExecTemplate.DLMM; ev]) by reflexivity.
  cbn [py_bind]. rewrite Hprotos. replace (imap pair [a; b]) with [(0%nat, a); (1%nat, b)] by reflexivity.
  cbn [py_map]. rewrite B0. cbn [py_bind]. rewrite B1. cbn [py_bind fmap list_fmap snd fst]. rewrite Hd. cbn [py_bind].
  cbn [concat]. by rewrite app_nil_r.
Qed.

Lemma two_dlmm_built :
  protos_of r = ["dlmm"; "dlmm"]%string -> hr_n_hop r = 2 -> pool_at pools r 0 = Ret p ->
  exists keys data sems, build_route_accounts rpc cache wallet pools r = Ret (keys, data, sems).
Proof.
  intros Hprotos Hn P0. destruct two_slots as [S0 S1]. eexists _, _, _.
  eapply two_built; [exact Hprotos|by apply (two_hop [u0; u1; u0] 0 SOL m)|by apply (two_hop [u0; u1; u0] 1 m SOL)|].
  rewrite Hn. vm_compute. reflexivity.
Qed.

Lemma two_own : own_accounts rpc wallet [SOL; m; SOL].
Proof.
  intros x y a Hx Hy. rewrite !elem_of_cons, elem_of_nil in Hx, Hy.
  destruct Hx as [->|[->|[->|[]]]], Hy as [->|[->|[->|[]]]]; rewrite ?H0, ?H1; congruence.
Qed.

Lemma pump_hop_built q pmeta qh proto mints users i inc out ina outa token ub uq :
  String.eqb proto "dlmm" = false -> pool_at pools r i = Ret q -> at_index mints (Z.of_nat i) = Ret inc ->
  at_index mints (Z.of_nat i + 1) = Ret out -> ata_slot mints inc = Ret ina -> ata_slot mints out = Ret outa ->
  (if String.eqb inc SOL then out else inc) = token -> ata_of rpc wallet token = Ret ub -> at_index users 0 = Ret uq ->
  _pump_meta rpc cache (hp_pubkey q) = Ret pmeta ->
  derive_pump_hop rpc (hp_pubkey q) (buys proto inc) wallet ub uq (Some pmeta) = Ret qh ->
  build_hop rpc cache wallet pools r mints users (i, proto) =
    Ret (flatten qh wallet, HopPump qh, (2, ina, outa, if buys proto inc then 26 else 24)).
Proof.
  intros Hd Hq Hi Ho Hia Hoa <- Hub Huq Hpm Hh.
  assert (Hlen : Z.of_nat (length (flatten qh wallet)) = if buys proto inc then 26 else 24).
  { apply derive_pump_shape in Hh as (Eb & _). unfold flatten. rewrite Eb. by destruct (buys proto inc). }
  unfold build_hop. rewrite Hq. cbn [py_bind]. rewrite Hi. cbn [py_bind]. rewrite Ho. cbn [py_bind]. rewrite Hia. cbn [py_bind].
  rewrite Hoa. cbn [py_bind]. unfold n_accs. rewrite Hd. rewrite Hub. cbn [py_bind]. rewrite Huq. cbn [py_bind]. rewrite Hpm. cbn [py_bind].
  rewrite Hh. cbn [py_bind hop_keys]. by rewrite Hlen, Z.eqb_refl.
Qed.

(** A route that buys on Pump and sells on DLMM. *)
Lemma pump_dlmm_built q pmeta qh :
  protos_of r = ["pump"; "dlmm"]%string -> hr_n_hop r = 2 -> pool_at pools r 0 = Ret q ->
  _pump_meta rpc cache (hp_pubkey q) = Ret pmeta ->
  derive_pump_hop rpc (hp_pubkey q) true wallet u1 u0 (Some pmeta) = Ret qh ->
  exists keys data, build_route_accounts rpc cache wallet pools r = Ret (keys, data, [HopPump qh; HopDlmm h]).
Proof.
  intros Hprotos Hn P0 Hpm Hq. destruct two_slots as [S0 S1]. eexists _, _.
  eapply (two_built (flatten qh wallet) (HopPump qh) 2 26); [exact Hprotos| |by apply (two_hop [u0; u1; u0] 1 m SOL)|rewrite Hn; vm_compute; reflexivity].
  by apply (pump_hop_built q pmeta qh "pump" [SOL; m; SOL] [u0; u1; u0] 0 SOL m 0 1 m u1 u0).
Qed.
End two_pools.

(** * A route on concrete data *)

Definition demo_wallet : string := "HHNzjTABPAbPY5uEXU7NTvfmcD9RYTdXtLntyKAtpXLX".

(** The pool of Recorder's demo, mints owned by the token program, nothing else. *)
Definition demo_rpc (ks : list string) (c : rpc_config) : pyres rpc_reply :=
  if (2 <? length ks)%nat then Ret (RpcReply 12 (replicate (length ks) None)) else
  if bool_decide (ks = [demo_zero]) then Ret (RpcReply 12 [Some (RpcAccount TOKENKEG [] 0)]) else demo_read ks c.

Definition demo_pool : hpool := HPool demo_pair (Some SOL) None (Some demo_zero) None None None.
Definition demo_route : hroute := HRoute (VInt 7) "dlmm-dlmm" 2 (Some 0) (Some 0) None true 0.

Lemma pda_by seeds program prog d :
  b58decode program = Ret prog -> find_from on_curve_bn seeds prog 255 = Ret d -> pda seeds program = Ret (b58encode d).
Proof.
  intros Hp Hd. unfold pda. rewrite Hp. cbn [py_bind]. destruct (find_pda_bn seeds prog) as [-> _]. by rewrite Hd.
Qed.

Lemma ata_by owner mint tok o t m prog d :
  b58decode owner = Ret o -> b58decode tok = Ret t -> b58decode mint = Ret m -> b58decode ATA_PROG = Ret prog ->
  find_from on_curve_bn [o; t; m] prog 255 = Ret d -> ata owner mint tok = Ret (b58encode d).
Proof.
  intros Ho Ht Hm Hp Hd. unfold ata. rewrite Ho. cbn [py_bind]. rewrite Ht. cbn [py_bind]. rewrite Hm. cbn [py_bind].
  by apply (pda_by _ _ prog).
Qed.

Definition demo_dec (s : string) : bytes := match b58decode s with Ret b => b | Raise _ => [] end.
Definition demo_user0 : bytes := Eval vm_compute in fast_pda [demo_dec demo_wallet; demo_dec TOKENKEG; demo_dec SOL] ATA_PROG.
Definition demo_user1 : bytes := Eval vm_compute in fast_pda [demo_dec demo_wallet; demo_dec TOKENKEG; demo_dec demo_zero] ATA_PROG.
Definition demo_event : bytes := Eval vm_compute in fast_pda [ascii_bytes "__event_authority"] ExecTemplate.DLMM.
Definition demo_wallet_raw : bytes := Eval vm_compute in demo_dec demo_wallet.
Definition demo_keg_raw : bytes := Eval vm_compute in demo_dec TOKENKEG.
Definition demo_sol_raw : bytes := Eval vm_compute in demo_dec SOL.
Definition demo_ata_raw : bytes := Eval vm_compute in demo_dec ATA_PROG.

Ltac demo_ata m d :=
  apply (ata_by _ _ _ demo_wallet_raw demo_keg_raw m demo_ata_raw d); vm_compute; reflexivity.

Lemma demo_ata_sol : ata_of demo_rpc demo_wallet SOL = Ret (b58encode demo_user0).
Proof.
  unfold ata_of. replace (mint_tok demo_rpc SOL) with (Ret TOKENKEG) by reflexivity. cbn [py_bind].
  demo_ata demo_sol_raw demo_user0.
Qed.

Lemma demo_ata_mint : ata_of demo_rpc demo_wallet demo_zero = Ret (b58encode demo_user1).
Proof.
  unfold ata_of. replace (mint_tok demo_rpc demo_zero) with (Ret TOKENKEG) by (vm_compute; reflexivity). cbn [py_bind].
  demo_ata ZERO32 demo_user1.
Qed.

Lemma demo_event_pda : pda [ascii_bytes "__event_authority"] ExecTemplate.DLMM = Ret (b58encode demo_event).
Proof. apply (pda_by _ _ demo_prog); vm_compute; reflexivity. Qed.

Lemma demo_users_differ : b58encode demo_user1 <> b58encode demo_user0.
Proof. vm_compute. discriminate. Qed.

Lemma demo_route_mints : route_mints [demo_pool] demo_route = Ret [SOL; demo_zero; SOL].
Proof. vm_compute. reflexivity. Qed.

Lemma demo_meta_read : _dlmm_meta demo_rpc demo_pair = Ret demo_meta.
Proof.
  unfold _dlmm_meta. rewrite demo_snapshot_on by (vm_compute; reflexivity). reflexivity.
Qed.

Lemma demo_rpc_hop : exists h, derive_dlmm_hop demo_rpc demo_pair (Some demo_meta) = Ret h.
Proof.
  destruct demo_pda0 as [b0 P0], demo_pda1 as [b1 P1], demo_pda_oracle as [b2 P2].
  eapply (dlmm_hop_stands demo_rpc demo_pair demo_meta demo_raw 0 1 [-1; 2; -2] (le_enc 8 0) (le_enc 8 1));
    [reflexivity|exact demo_pair_raw|reflexivity|reflexivity|exact P0|exact P1|exact P2|vm_compute; reflexivity|vm_compute; reflexivity|].
  vm_compute. discriminate.
Qed.

Lemma demo_route_built :
  exists keys data sems, build_route_accounts demo_rpc ∅ demo_wallet [demo_pool] demo_route = Ret (keys, data, sems).
Proof.
  destruct demo_rpc_hop as [h Hh].
  apply (two_dlmm_built demo_rpc ∅ demo_wallet [demo_pool] demo_route demo_zero demo_pool demo_meta h
    (b58encode demo_user0) (b58encode demo_user1) (b58encode demo_event));
    [exact demo_route_mints|vm_compute; discriminate|exact demo_ata_sol|exact demo_ata_mint|
     exact demo_users_differ|exact demo_event_pda|reflexivity|exact demo_meta_read|exact Hh|vm_compute; reflexivity|reflexivity|reflexivity].
Qed.

Lemma demo_own : own_accounts demo_rpc demo_wallet [SOL; demo_zero; SOL].
Proof. exact (two_own _ _ _ _ _ demo_ata_sol demo_ata_mint demo_users_differ). Qed.

(** ** A Pump pool in front *)

(** The hop stands when every account it derives can be derived. *)
Lemma pump_hop_stands rpc pair buy w ub uq meta coin craw wraw mraw tb tq cv cva g e gv uv v2 fb pfa fee :
  nonempty (pf_coin_creator meta) = Some coin -> mint_tok rpc (pf_base meta) = Ret tb -> mint_tok rpc (pf_quote meta) = Ret tq ->
  b58decode coin = Ret craw -> b58decode w = Ret wraw -> b58decode (pf_base meta) = Ret mraw ->
  pda_ex [ascii_bytes "creator_vault"; craw] ExecTemplate.PUMP = Ret cv -> ata cv.1 (pf_quote meta) tq = Ret cva ->
  pda_ex [ascii_bytes "global_config"] ExecTemplate.PUMP = Ret g -> pda_ex [ascii_bytes "__event_authority"] ExecTemplate.PUMP = Ret e ->
  pda_ex [ascii_bytes "global_volume_accumulator"] ExecTemplate.PUMP = Ret gv ->
  pda_ex [ascii_bytes "user_volume_accumulator"; wraw] ExecTemplate.PUMP = Ret uv ->
  pda_ex [ascii_bytes "pool-v2"; mraw] ExecTemplate.PUMP = Ret v2 ->
  pump_fallback = Ret fb -> ata (pa_proto_fee fb) (pf_quote meta) tq = Ret pfa -> pick_fee_recipient rpc (pf_quote meta) = Ret fee ->
  exists h, derive_pump_hop rpc pair buy w ub uq (Some meta) = Ret h.
Proof.
  unfold derive_pump_hop, pump_meta_of. cbn [py_bind].
  generalize (pda_ex [ascii_bytes "global_config"] ExecTemplate.PUMP) (pda_ex [ascii_bytes "__event_authority"] ExecTemplate.PUMP)
    (pda_ex [ascii_bytes "global_volume_accumulator"] ExecTemplate.PUMP) pump_fallback.
  intros rg re rgv rfb -> E1 E2 E3 E4 E5 E6 E7 -> -> -> E8 E9 -> E10 E11.
  rewrite E1. cbn [py_bind]. rewrite E2. cbn [py_bind]. rewrite E3. cbn [py_bind]. rewrite E6. cbn [py_bind]. rewrite E7. cbn [py_bind].
  rewrite E4. cbn [py_bind]. rewrite E8. cbn [py_bind]. rewrite E5. cbn [py_bind]. rewrite E9. cbn [py_bind]. rewrite E10. cbn [py_bind].
  rewrite E11. by eexists.
Qed.

Definition demo_buy_pool : hpool := HPool "pump-pool" (Some demo_zero) None (Some SOL) None None None.
Definition demo_buy_meta : pump_fields := PumpFields demo_zero SOL "vb" "vq" (Some demo_pair) None "cache".
Definition demo_buy_cache : gmap string pump_fields := {["pump-pool"%string := demo_buy_meta]}.
Definition demo_buy_route : hroute := HRoute (VInt 8) "pump-dlmm" 2 (Some 1) (Some 0) None true 0.

Definition demo_pump_raw : bytes := Eval vm_compute in demo_dec ExecTemplate.PUMP.
Definition demo_pump_pda (seeds : list bytes) : bytes := fast_pda seeds ExecTemplate.PUMP.
Definition demo_creator : bytes := Eval vm_compute in demo_pump_pda [ascii_bytes "creator_vault"; demo_raw].
Definition demo_global : bytes := Eval vm_compute in demo_pump_pda [ascii_bytes "global_config"].
Definition demo_pump_event : bytes := Eval vm_compute in demo_pump_pda [ascii_bytes "__event_authority"].
Definition demo_gvol : bytes := Eval vm_compute in demo_pump_pda [ascii_bytes "global_volume_accumulator"].
Definition demo_uvol : bytes := Eval vm_compute in demo_pump_pda [ascii_bytes "user_volume_accumulator"; demo_wallet_raw].
Definition demo_v2 : bytes := Eval vm_compute in demo_pump_pda [ascii_bytes "pool-v2"; ZERO32].
Definition demo_ata_of (owner : string) : bytes := fast_pda [demo_dec owner; demo_dec TOKENKEG; demo_dec SOL] ATA_PROG.
Definition demo_proto_ata : bytes := Eval vm_compute in demo_ata_of PROTO_FEE.
Definition demo_creator_ata : bytes := Eval vm_compute in demo_ata_of (b58encode demo_creator).
Definition demo_fee_ata : bytes := Eval vm_compute in demo_ata_of (hd ""%string FEE_RECIPIENTS).
Definition demo_proto_raw : bytes := Eval vm_compute in demo_dec PROTO_FEE.
Definition demo_fee_raw : bytes := Eval vm_compute in demo_dec (hd ""%string FEE_RECIPIENTS).

Lemma demo_amm_raw : b58decode ExecTemplate.PUMP = Ret demo_pump_raw.
Proof. vm_compute. reflexivity. Qed.

Ltac demo_pump_ex d := apply (pda_ex_by _ _ demo_pump_raw d demo_amm_raw); vm_compute; reflexivity.
Ltac demo_sol_ata o d := apply (ata_by _ _ _ o demo_keg_raw demo_sol_raw demo_ata_raw d); vm_compute; reflexivity.

Lemma demo_ex_creator : exists b, pda_ex [ascii_bytes "creator_vault"; demo_raw] ExecTemplate.PUMP = Ret (b58encode demo_creator, b).
Proof. demo_pump_ex demo_creator. Qed.
Lemma demo_ex_global : exists b, pda_ex [ascii_bytes "global_config"] ExecTemplate.PUMP = Ret (b58encode demo_global, b).
Proof. demo_pump_ex demo_global. Qed.
Lemma demo_ex_event : exists b, pda_ex [ascii_bytes "__event_authority"] ExecTemplate.PUMP = Ret (b58encode demo_pump_event, b).
Proof. demo_pump_ex demo_pump_event. Qed.
Lemma demo_ex_gvol : exists b, pda_ex [ascii_bytes "global_volume_accumulator"] ExecTemplate.PUMP = Ret (b58encode demo_gvol, b).
Proof. demo_pump_ex demo_gvol. Qed.
Lemma demo_ex_uvol : exists b, pda_ex [ascii_bytes "user_volume_accumulator"; demo_wallet_raw] ExecTemplate.PUMP = Ret (b58encode demo_uvol, b).
Proof. demo_pump_ex demo_uvol. Qed.
Lemma demo_ex_v2 : exists b, pda_ex [ascii_bytes "pool-v2"; ZERO32] ExecTemplate.PUMP = Ret (b58encode demo_v2, b).
Proof. demo_pump_ex demo_v2. Qed.
Lemma demo_creator_token : ata (b58encode demo_creator) SOL TOKENKEG = Ret (b58encode demo_creator_ata).
Proof. demo_sol_ata demo_creator demo_creator_ata. Qed.
Lemma demo_proto_token : ata PROTO_FEE SOL TOKENKEG = Ret (b58encode demo_proto_ata).
Proof. demo_sol_ata demo_proto_raw demo_proto_ata. Qed.
Lemma demo_fee_token : ata (hd ""%string FEE_RECIPIENTS) SOL TOKENKEG = Ret (b58encode demo_fee_ata).
Proof. demo_sol_ata demo_fee_raw demo_fee_ata. Qed.

Lemma demo_global_pda : pda [ascii_bytes "global_config"] ExecTemplate.PUMP = Ret (b58encode demo_global).
Proof. apply (pda_by _ _ demo_pump_raw); vm_compute; reflexivity. Qed.
Lemma demo_pump_event_pda : pda [ascii_bytes "__event_authority"] ExecTemplate.PUMP = Ret (b58encode demo_pump_event).
Proof. apply (pda_by _ _ demo_pump_raw); vm_compute; reflexivity. Qed.

Lemma demo_fallback : exists fb, pump_fallback = Ret fb /\ pa_proto_fee fb = PROTO_FEE.
Proof.
  pose proof demo_global_pda as H1. pose proof demo_pump_event_pda as H2. pose proof demo_proto_token as H3. revert H1 H2 H3. unfold pump_fallback.
  generalize (pda [ascii_bytes "global_config"] ExecTemplate.PUMP) (pda [ascii_bytes "__event_authority"] ExecTemplate.PUMP)
    (ata PROTO_FEE SOL TOKENKEG).
  intros g e a -> -> ->. by eexists.
Qed.

Lemma demo_fee_picked : pick_fee_recipient demo_rpc SOL = Ret (hd ""%string FEE_RECIPIENTS, b58encode demo_fee_ata).
Proof.
  unfold pick_fee_recipient. rewrite String.eqb_refl. cbn [py_bind FEE_RECIPIENTS pick_from].
  pose proof demo_fee_token as H. cbn [hd FEE_RECIPIENTS] in H. rewrite H. cbn [py_bind].
  replace (exists_ demo_rpc (b58encode demo_fee_ata)) with (Ret true) by (vm_compute; reflexivity). reflexivity.
Qed.

Lemma demo_buy_hop :
  exists q, derive_pump_hop demo_rpc "pump-pool" true demo_wallet (b58encode demo_user1) (b58encode demo_user0) (Some demo_buy_meta) = Ret q.
Proof.
  destruct demo_ex_creator as [b1 E1], demo_ex_global as [b2 E2], demo_ex_event as [b3 E3], demo_ex_gvol as [b4 E4],
    demo_ex_uvol as [b5 E5], demo_ex_v2 as [b6 E6], demo_fallback as (fb & E7 & Efb).
  eapply (pump_hop_stands demo_rpc "pump-pool" true demo_wallet _ _ demo_buy_meta demo_pair demo_raw demo_wallet_raw ZERO32 TOKENKEG TOKENKEG);
    [reflexivity|vm_compute; reflexivity|reflexivity|exact demo_pair_raw|vm_compute; reflexivity|vm_compute; reflexivity|
     exact E1|exact demo_creator_token|exact E2|exact E3|exact E4|exact E5|exact E6|exact E7|rewrite Efb; exact demo_proto_token|exact demo_fee_picked].
Qed.

Lemma demo_buy_mints : route_mints [demo_pool; demo_buy_pool] demo_buy_route = Ret [SOL; demo_zero; SOL].
Proof. vm_compute. reflexivity. Qed.

Lemma demo_buy_built :
  exists keys data q d, build_route_accounts demo_rpc demo_buy_cache demo_wallet [demo_pool; demo_buy_pool] demo_buy_route =
    Ret (keys, data, [HopPump q; HopDlmm d]).
Proof.
  destruct demo_rpc_hop as [h Hh], demo_buy_hop as [q Hq].
  destruct (pump_dlmm_built demo_rpc demo_buy_cache demo_wallet [demo_pool; demo_buy_pool] demo_buy_route demo_zero demo_pool demo_meta h
    (b58encode demo_user0) (b58encode demo_user1) (b58encode demo_event)) with (q := demo_buy_pool) (pmeta := demo_buy_meta) (qh := q)
    as (keys & data & Hb);
    [exact demo_buy_mints|vm_compute; discriminate|exact demo_ata_sol|exact demo_ata_mint|exact demo_users_differ|exact demo_event_pda|
     reflexivity|exact demo_meta_read|exact Hh|vm_compute; reflexivity|reflexivity|reflexivity|vm_compute; reflexivity|exact Hq|].
  by exists keys, data, q, h.
Qed.

(** Buying on the Pump pool pays from the SOL account into the token's. *)
Lemma route_runs_its_hops_witness :
  exists keys data (legs : list leg) event purse q l,
    legs !! 0%nat = Some l /\ l_sem l = HopPump q /\ take 2 (drop 5 (flatten q demo_wallet)) = [l_out l; l_in l] /\
    forall b, process (fun (b : Z) (_ : string) => Some b) (fun b _ => Some (b + 1)) keys true data b =
      run_route (fun (b : Z) (_ : string) => Some b) (fun b _ => Some (b + 1)) demo_wallet event purse legs TINY_IN MIN_PROFIT b.
Proof.
  destruct demo_buy_built as (keys & data & q & d & Hb).
  destruct (route_runs_its_hops (fun (b : Z) (_ : string) => Some b) (fun b _ => Some (b + 1)) demo_rpc demo_buy_cache demo_wallet
    [demo_pool; demo_buy_pool] demo_buy_route [SOL; demo_zero; SOL] keys data [HopPump q; HopDlmm d] Hb demo_buy_mints eq_refl)
    as (legs & event & purse & Hsems & _ & Hat & _ & _ & Hrun).
  - split; [cbn; lia|]. split; [reflexivity|]. vm_compute. discriminate.
  - exact demo_own.
  - destruct legs as [|l legs]; [discriminate Hsems|]. injection Hsems as Hl _.
    exists keys, data, (l :: legs), event, purse, q, l. split; [reflexivity|]. split; [exact Hl|]. split; [|exact Hrun].
    destruct (Hat 0%nat l eq_refl) as (p & proto & m & m' & pu & _ & _ & Hm & _ & _ & _ & _ & _ & Hside).
    injection Hm as <-. rewrite Hl in Hside. exact (proj1 Hside eq_refl).
Defined.

(** * The form of the vector *)

Lemma ata_slot_range mints m s : ata_slot mints m = Ret s -> 0 <= s <= 2.
Proof.
  unfold ata_slot. destruct (String.eqb m SOL); [intros [= <-]; lia|]. intros H. apply py_bind_Ret in H as (m1 & _ & [= <-]).
  destruct (String.eqb m m1); lia.
Qed.

Lemma shared_keys_length wallet event users shared : shared_keys wallet event users = Ret shared -> length shared = 9%nat.
Proof.
  unfold shared_keys. intros H. do 3 (apply py_bind_Ret in H as (? & _ & H)). by injection H as <-.
Qed.

Lemma wire_is_bytes n hops amount profit :
  Forall byte_hop hops -> 0 <= n < 256 -> is_bytes (wire_ix n hops amount profit).
Proof.
  intros Hh Hn. unfold wire_ix, slots, is_bytes. rewrite !Forall_app. split; [repeat (constructor; [unfold is_byte; lia|]); constructor|].
  split; [apply Forall_singleton; exact Hn|]. split; [apply is_bytes_le_enc|]. split; [apply is_bytes_le_enc|].
  split; apply Forall_take; rewrite Forall_app; (split; [|apply Forall_replicate; unfold is_byte; lia]).
  - apply Forall_concat, Forall_fmap. eapply Forall_impl; [exact Hh|]. intros [[[p i] o] k] [[? ?] [? ?]].
    repeat (constructor; [unfold is_byte; cbn [fst snd]; lia|]); constructor.
  - apply Forall_fmap. eapply Forall_impl; [exact Hh|]. intros [[[p i] o] k] [[? ?] [? ?]]. unfold compose, is_byte. cbn [snd]. lia.
Qed.

(** C39. A built instruction is well-formed: nine shared accounts and then the accounts of each hop
    in order, and 40 bytes under the discriminator in which hop by hop stand a known venue, two of
    the three token accounts and the number of accounts the hop has. *)
Theorem built_vector_typed rpc cache wallet pools r keys data sems :
  build_route_accounts rpc cache wallet pools r = Ret (keys, data, sems) ->
  (length (protos_of r) <= 3)%nat -> 0 <= hr_n_hop r < 256 ->
  (exists shared, length shared = 9%nat /\ keys = shared ++ concat (hop_keys wallet <$> sems)) /\
  length sems = length (protos_of r) /\
  length data = 40%nat /\ is_bytes data /\ take 8 data = DISC /\ data_at data 8 = hr_n_hop r /\
  forall i sem, sems !! i = Some sem ->
    exists ina outa, read_hop data i = (code_of sem, ina, outa, Z.of_nat (length (hop_keys wallet sem))) /\
      (0 <= ina <= 2 /\ 0 <= outa <= 2).
Proof.
  intros H Hl Hn. destruct (route_mints pools r) as [mints|e] eqn:Em;
    [|unfold build_route_accounts in H; by rewrite Em in H].
  destruct (build_route_parts rpc cache wallet pools r mints Em keys data sems H)
    as (users & event & shared & hops & _ & _ & Hs & Hh & Hb & -> & ->). clear H.
  destruct (built_hops _ _ _ _ _ _ _ _ Hh) as [Hlen Hfits].
  assert (Hbh : forall i h, hops !! i = Some h -> built_hop wallet h).
  { intros i h Hi. destruct (Hfits i h Hi) as (F1 & F2 & [_ (m & _ & Hsi) (m' & _ & Hso)]).
    constructor; [exact F1|exact F2|]. split; by eapply ata_slot_range. }
  assert (Hbytes : Forall byte_hop (snd <$> hops)).
  { apply Forall_fmap, Forall_lookup_2. intros i h Hi. exact (built_byte _ _ (Hbh i h Hi)). }
  assert (Hl3 : (length (snd <$> hops) <= 3)%nat) by (rewrite length_fmap; lia).
  rewrite pack_hops_wire in Hb by (unfold TINY_IN, MIN_PROFIT; first [assumption|lia]). injection Hb as <-.
  destruct (wire_reads (hr_n_hop r) (snd <$> hops) TINY_IN MIN_PROFIT) as (W1 & W2 & W3 & _ & _ & W6);
    [exact Hl3|unfold TINY_IN; lia|unfold MIN_PROFIT; lia|].
  assert (Hk : (fun h => h.1.1) <$> hops = hop_keys wallet <$> ((fun h => h.1.2) <$> hops)).
  { rewrite <- list_fmap_compose. apply list_fmap_ext. intros i h Hi. exact (bh_accs _ _ (Hbh i h Hi)). }
  split; [exists shared; split; [by eapply shared_keys_length|by rewrite Hk]|].
  split; [by rewrite length_fmap|]. split; [exact W1|]. split; [by apply wire_is_bytes|]. split; [exact W2|]. split; [exact W3|].
  intros i sem Hi. rewrite list_lookup_fmap in Hi. destruct (hops !! i) as [h|] eqn:Ei; [|done]. injection Hi as <-.
  exists (ina_of h), (outa_of h). destruct (Hbh i h Ei) as [Ba Bx Bs]. split; [|exact Bs].
  rewrite <- Ba, <- Bx. apply W6. rewrite list_lookup_fmap. by rewrite Ei.
Qed.

Lemma built_vector_typed_witness :
  exists keys data sems, build_route_accounts demo_rpc ∅ demo_wallet [demo_pool] demo_route = Ret (keys, data, sems) /\
    length sems = 2%nat /\ length data = 40%nat.
Proof.
  destruct demo_route_built as (keys & data & sems & Hb). exists keys, data, sems. split; [exact Hb|].
  destruct (built_vector_typed demo_rpc ∅ demo_wallet [demo_pool] demo_route keys data sems Hb) as (_ & H1 & H2 & _).
  - vm_compute. lia.
  - cbn. lia.
  - split; [exact H1|exact H2].
Defined.
