(* ===== verification/Closure.v ===== *)
(** The closed routes of the pool universe: arb-exec/scripts/closure_gate.py and fam6_gate.py.

    closure_gate.main walks the graph whose edges are pools and whose nodes are tokens and lists the
    cycles of two and three pools through SOL; fam6_gate.enumerate_dlmm2 lists the cycles of two
    DLMM pools by token.  Pool rows are those of HopsRoute.  The reports' texts are outside. *)
From stdpp Require Import base list strings gmap.
From Stdlib Require Import ZArith Lia.
From S2P Require Import Prelude PyBytes Submap ExecTemplate AltPlane HopsRoute.
Open Scope Z_scope.

(** * The graph *)

Definition PROTO : list (string * Z) := [("dlmm", 1); ("pump", 2)]%string.

Record edge := Edge { e_pool : nat; e_proto : string; e_mx : string; e_my : string }.

Definition proto_of (p : hpool) : string := default ""%string (or_str (hp_proto p) (hp_kind p)).

Definition edge_of (ip : nat * hpool) : option edge :=
  let '(i, p) := ip in
  if negb (bool_decide (proto_of p ∈ PROTO.*1)) then None else
  if String.eqb (mx_of p) "" || String.eqb (my_of p) "" || String.eqb (mx_of p) (my_of p) then None
  else Some (Edge i (proto_of p) (mx_of p) (my_of p)).
Definition edges_of (pools : list hpool) : list edge := omap edge_of (imap pair pools).

Definition other (mx my incoming : string) : option string :=
  if String.eqb incoming mx then Some my else
  if String.eqb incoming my then Some mx else None.
(** The token that comes out of [e] for [t]. *)
Definition out_of (e : edge) (t : string) : option string := other (e_mx e) (e_my e) t.

(** [by_mint], a defaultdict of lists. *)
Definition push {A} (m : gmap string (list A)) (k : string) (x : A) : gmap string (list A) :=
  <[k := default [] (m !! k) ++ [x]]> m.
Definition add_edge (m : gmap string (list nat)) (ie : nat * edge) : gmap string (list nat) :=
  push (push m (e_mx ie.2) ie.1) (e_my ie.2) ie.1.
Definition by_mint (es : list edge) : gmap string (list nat) := foldl add_edge ∅ (imap pair es).
Definition at_mint (m : gmap string (list nat)) (t : string) : list nat := default [] (m !! t).

(** * The cycles *)

Record route2 := Route2 { r2_seq : string * string; r2_pools : nat * nat; r2_token : string }.
Record route3 := Route3 { r3_seq : string * string * string; r3_pools : nat * nat * nat; r3_tokens : string * string }.
Inductive found := Two (r : route2) | Three (r : route3).

Section walk.
Context (es : list edge) (bm : gmap string (list nat)).

Definition third (e1i e2i : nat) (e1 e2 : edge) (first_out mid : string) (e3i : nat) : list found :=
  if bool_decide (e3i ∈ [e1i; e2i]) then [] else
  match es !! e3i with
  | None => []
  | Some e3 =>
      if bool_decide (out_of e3 mid = Some SOL)
      then [Three (Route3 (e_proto e1, e_proto e2, e_proto e3) (e_pool e1, e_pool e2, e_pool e3) (first_out, mid))]
      else []
  end.

Definition second (e1i : nat) (e1 : edge) (first_out : string) (e2i : nat) : list found :=
  if (e2i =? e1i)%nat then [] else
  match es !! e2i with
  | None => []
  | Some e2 =>
      match out_of e2 first_out with
      | None => []
      | Some mid =>
          if String.eqb mid SOL then [Two (Route2 (e_proto e1, e_proto e2) (e_pool e1, e_pool e2) first_out)] else
          if String.eqb mid first_out then [] else
          at_mint bm mid ≫= third e1i e2i e1 e2 first_out mid
      end
  end.

Definition first (ie : nat * edge) : list found :=
  match nonempty (out_of ie.2 SOL) with
  | None => []
  | Some first_out =>
      if String.eqb first_out SOL then [] else at_mint bm first_out ≫= second ie.1 ie.2 first_out
  end.
End walk.

Definition cycles (pools : list hpool) : list found :=
  let es := edges_of pools in imap pair es ≫= first es (by_mint es).

Definition get_two (f : found) : option route2 := match f with Two r => Some r | Three _ => None end.
Definition get_three (f : found) : option route3 := match f with Three r => Some r | Two _ => None end.
Definition two_of (pools : list hpool) : list route2 := omap get_two (cycles pools).
Definition three_of (pools : list hpool) : list route3 := omap get_three (cycles pools).

(** * Counts per sequence *)

Definition SEQS_2 : list string := ["dlmm-dlmm"; "dlmm-pump"; "pump-dlmm"; "pump-pump"]%string.
Definition SEQS_3 : list string := [
  "dlmm-dlmm-dlmm"; "dlmm-dlmm-pump"; "dlmm-pump-dlmm"; "dlmm-pump-pump";
  "pump-dlmm-dlmm"; "pump-dlmm-pump"; "pump-pump-dlmm"; "pump-pump-pump"]%string.

Definition name2 (r : route2) : string := ((r2_seq r).1 ++ "-" ++ (r2_seq r).2)%string.
Definition name3 (r : route3) : string :=
  let '(a, b, c) := r3_seq r in (a ++ "-" ++ b ++ "-" ++ c)%string.

Definition count_str (s : string) (l : list string) : Z := Z.of_nat (length (filter (fun x => x = s) l)).
Definition seq_counts (pools : list hpool) : list (string * Z) :=
  ((fun s => (s, count_str s (name2 <$> two_of pools))) <$> SEQS_2) ++
  ((fun s => (s, count_str s (name3 <$> three_of pools))) <$> SEQS_3).
Definition graph_missing (pools : list hpool) : list string :=
  fst <$> filter (fun sn : string * Z => sn.2 = 0) (seq_counts pools).

(** * Cycles of two DLMM pools (fam6_gate.py) *)

Definition token_of (mx my : string) : option string :=
  if (String.eqb mx SOL || String.eqb my SOL) && negb (String.eqb mx my)
  then Some (if String.eqb my SOL then mx else my) else None.

(** [str(p.get("mx") or p.get("mint_x"))]: a missing token reads "None". *)
Definition str_mx (p : hpool) : string := default "None"%string (or_str (hp_mx p) (hp_mint_x p)).
Definition str_my (p : hpool) : string := default "None"%string (or_str (hp_my p) (hp_mint_y p)).
Definition dlmm_token (p : hpool) : option string :=
  if String.eqb (proto_of p) "dlmm" then nonempty (token_of (str_mx p) (str_my p)) else None.

Definition od_push {A} (d : list (string * list A)) (k : string) (x : A) : list (string * list A) :=
  od_set d k (default [] (od_get d k) ++ [x]).
Definition add_pool (d : list (string * list nat)) (ip : nat * hpool) : list (string * list nat) :=
  match dlmm_token ip.2 with Some t => od_push d t ip.1 | None => d end.
Definition by_tok (pools : list hpool) : list (string * list nat) := foldl add_pool [] (imap pair pools).

Record froute := FRoute {
  fr_p0 : nat; fr_p1 : nat; fr_pk0 : string; fr_pk1 : string; fr_token : string; fr_mint_ok : bool }.

Definition pair_route (pools : list hpool) (tok : string) (a b : nat) : list froute :=
  if (a =? b)%nat then [] else
  match pools !! a, pools !! b with
  | Some pa, Some pb =>
      if bool_decide (token_of (str_mx pa) (str_my pa) <> Some tok) ||
         bool_decide (token_of (str_mx pb) (str_my pb) <> Some tok) then [] else
      [FRoute a b (hp_pubkey pa) (hp_pubkey pb) tok
         (negb (String.eqb tok SOL) && negb (String.eqb (str_mx pa) (str_my pa)) && negb (String.eqb (str_mx pb) (str_my pb)))]
  | _, _ => []
  end.

Definition enumerate_dlmm2 (pools : list hpool) : list froute :=
  by_tok pools ≫= fun '(tok, idxs) =>
    if (length idxs <? 2)%nat then [] else
    idxs ≫= fun a => idxs ≫= fun b => pair_route pools tok a b.

Definition DISC_DLMM2 : bytes := [65; 82; 66; 68; 76; 77; 77; 50].
Definition pack_dlmm2 (amount min_profit dir0 dir1 : Z) : pyres bytes :=
  (a <-! pack_u 8 amount ;; p <-! pack_u 8 min_profit ;; d0 <-! pack_u 1 dir0 ;; d1 <-! pack_u 1 dir1 ;;
   Ret (DISC_DLMM2 ++ a ++ p ++ d0 ++ d1))%py.

(** * The graph is the universe *)

(** Pool [i] swaps between two tokens. *)
Definition is_edge (pools : list hpool) (i : nat) (e : edge) : Prop :=
  exists p, pools !! i = Some p /\ edge_of (i, p) = Some e.

Lemma edge_of_pool i p e : edge_of (i, p) = Some e ->
  e_pool e = i /\ e_mx e <> ""%string /\ e_my e <> ""%string /\ e_mx e <> e_my e /\ e_proto e ∈ PROTO.*1.
Proof.
  unfold edge_of. case_bool_decide as Hp; [|done]. cbn [negb].
  destruct (String.eqb_spec (mx_of p) ""); [done|]. destruct (String.eqb_spec (my_of p) ""); [done|].
  destruct (String.eqb_spec (mx_of p) (my_of p)); [done|]. by intros [= <-].
Qed.

Lemma is_edge_elem pools i e : is_edge pools i e <-> e ∈ edges_of pools /\ e_pool e = i.
Proof.
  unfold edges_of. rewrite list_elem_of_omap. split.
  - intros (p & Hp & He). split; [|by apply edge_of_pool in He as [? _]]. exists (i, p). split; [|done].
    apply list_elem_of_lookup. exists i. by rewrite list_lookup_imap, Hp.
  - intros [([j p] & Hj & He) Hi]. apply list_elem_of_lookup in Hj as [k Hk]. rewrite list_lookup_imap in Hk.
    destruct (pools !! k) as [q|] eqn:Eq; [|done]. injection Hk as <- <-.
    pose proof (edge_of_pool _ _ _ He) as [E _]. assert (k = i) as -> by congruence. by exists q.
Qed.

Lemma NoDup_omap_key {A B C} (f : A -> option B) (g : B -> C) (h : A -> C) (l : list A) :
  (forall x y, f x = Some y -> g y = h x) -> NoDup (h <$> l) -> NoDup (g <$> omap f l).
Proof.
  intros Hf. induction l as [|x l IH]; [intros _; apply NoDup_nil_2|]. rewrite fmap_cons. intros Hn.
  apply NoDup_cons in Hn as [Hx Hn]. cbn [omap list_omap]. destruct (f x) as [y|] eqn:E; [|by apply IH].
  rewrite fmap_cons. apply NoDup_cons. split; [|by apply IH]. rewrite (Hf _ _ E).
  intros Hin. apply Hx. apply list_elem_of_fmap in Hin as (y' & E' & Hy). apply list_elem_of_omap in Hy as (x' & Hx' & E2).
  apply list_elem_of_fmap. exists x'. split; [|done]. rewrite E'. by apply Hf.
Qed.

Lemma imap_fst {A} (l : list A) : fst <$> imap pair l = seq 0 (length l).
Proof.
  apply list_eq. intros i. rewrite list_lookup_fmap, list_lookup_imap. destruct (l !! i) eqn:E; cbn.
  - rewrite lookup_seq_lt; [done|]. by apply lookup_lt_Some in E.
  - rewrite lookup_seq_ge; [done|]. by apply lookup_ge_None in E.
Qed.

Lemma edges_distinct pools : NoDup (e_pool <$> edges_of pools).
Proof.
  apply (NoDup_omap_key _ _ fst).
  - intros [i p] e He. by apply edge_of_pool in He as [? _].
  - rewrite imap_fst. apply NoDup_seq.
Qed.

Lemma edge_index pools a b ea eb :
  edges_of pools !! a = Some ea -> edges_of pools !! b = Some eb -> e_pool ea = e_pool eb -> a = b.
Proof.
  intros Ha Hb E. apply (NoDup_lookup _ a b (e_pool ea) (edges_distinct pools)); rewrite list_lookup_fmap; [by rewrite Ha|by rewrite Hb, E].
Qed.

Definition touches (t : string) (e : edge) : Prop := e_mx e = t \/ e_my e = t.
#[local] Instance touches_dec t e : Decision (touches t e).
Proof. unfold touches. apply _. Defined.

(** Every edge of the graph is one of a pool with two tokens. *)
Definition two_tokens (e : edge) : Prop := e_mx e <> ""%string /\ e_my e <> ""%string /\ e_mx e <> e_my e.

Lemma edges_two_tokens pools e : e ∈ edges_of pools -> two_tokens e /\ e_proto e ∈ PROTO.*1.
Proof.
  intros H. assert (He : is_edge pools (e_pool e) e) by by apply is_edge_elem. destruct He as (p & _ & He).
  apply edge_of_pool in He as (_ & ? & ? & ? & ?). by split.
Qed.

Lemma at_mint_push m k x t : at_mint (push m k x) t = at_mint m t ++ (if decide (k = t) then [x] else []).
Proof.
  unfold at_mint, push. case_decide as E; [subst k; by rewrite lookup_insert_eq|].
  rewrite lookup_insert_ne by done. by rewrite app_nil_r.
Qed.

Lemma by_mint_fold t l : forall m, Forall (fun ie : nat * edge => two_tokens ie.2) l ->
  at_mint (foldl add_edge m l) t = at_mint m t ++ (fst <$> filter (fun ie : nat * edge => touches t ie.2) l).
Proof.
  induction l as [|[i e] l IH]; intros m Hl; [by rewrite app_nil_r|].
  apply Forall_cons in Hl as [(_ & _ & Hne) Hl]. cbn [foldl]. rewrite IH by done. unfold add_edge. cbn [fst snd] in *.
  rewrite !at_mint_push, <- !app_assoc. f_equal. rewrite filter_cons. unfold touches at 2. cbn [snd].
  destruct (decide (e_mx e = t)), (decide (e_my e = t)); cbn [app]; case_decide; try done; try (exfalso; naive_solver congruence).
Qed.

Section exact.
Context (pools : list hpool).
Notation es := (edges_of pools).
Notation bm := (by_mint es).

Lemma at_mint_is t : at_mint bm t = fst <$> filter (fun ie : nat * edge => touches t ie.2) (imap pair es).
Proof.
  unfold by_mint. rewrite by_mint_fold; [done|]. apply Forall_lookup_2. intros i [j e] Hi.
  rewrite list_lookup_imap in Hi. destruct (es !! i) eqn:E; [|done]. injection Hi as <- <-.
  exact (proj1 (edges_two_tokens pools e0 (list_elem_of_lookup_2 _ _ _ E))).
Qed.

Lemma at_mint_elem t i : i ∈ at_mint bm t <-> exists e, es !! i = Some e /\ touches t e.
Proof.
  rewrite at_mint_is, list_elem_of_fmap. split.
  - intros ([j e] & -> & H). apply list_elem_of_filter in H as [Ht H]. apply list_elem_of_lookup in H as [k Hk].
    rewrite list_lookup_imap in Hk. destruct (es !! k) eqn:E; [|done]. injection Hk as <- <-. by exists e0.
  - intros (e & He & Ht). exists (i, e). split; [done|]. apply list_elem_of_filter. split; [done|].
    apply list_elem_of_lookup. exists i. by rewrite list_lookup_imap, He.
Qed.

Lemma at_mint_nodup t : NoDup (at_mint bm t).
Proof.
  rewrite at_mint_is. apply (sublist_NoDup _ (fst <$> imap pair es)).
  - rewrite imap_fst. apply NoDup_seq.
  - apply fmap_sublist, sublist_filter.
Qed.

Lemma out_touches e t u : out_of e t = Some u -> touches t e.
Proof.
  unfold out_of, other, touches. destruct (String.eqb_spec t (e_mx e)) as [->|]; [by left|].
  destruct (String.eqb_spec t (e_my e)) as [->|]; [by right|done].
Qed.

Lemma out_token e t u : two_tokens e -> out_of e t = Some u -> u <> t /\ u <> ""%string.
Proof.
  intros (H1 & H2 & H3). unfold out_of, other. destruct (String.eqb_spec t (e_mx e)) as [->|]; [intros [= <-]; done|].
  destruct (String.eqb_spec t (e_my e)) as [->|]; [intros [= <-]; done|done].
Qed.

(** ** What the walk lists *)

Definition closed2 (r : route2) : Prop :=
  exists e1 e2, is_edge pools (r2_pools r).1 e1 /\ is_edge pools (r2_pools r).2 e2 /\ (r2_pools r).1 <> (r2_pools r).2 /\
    out_of e1 SOL = Some (r2_token r) /\ out_of e2 (r2_token r) = Some SOL /\ r2_seq r = (e_proto e1, e_proto e2).

Definition closed3 (r : route3) : Prop :=
  exists e1 e2 e3, let '(i1, i2, i3) := r3_pools r in
    is_edge pools i1 e1 /\ is_edge pools i2 e2 /\ is_edge pools i3 e3 /\ i1 <> i2 /\ i1 <> i3 /\ i2 <> i3 /\
    out_of e1 SOL = Some (r3_tokens r).1 /\ out_of e2 (r3_tokens r).1 = Some (r3_tokens r).2 /\ (r3_tokens r).2 <> SOL /\
    out_of e3 (r3_tokens r).2 = Some SOL /\ r3_seq r = (e_proto e1, e_proto e2, e_proto e3).

Definition closed (f : found) : Prop := match f with Two r => closed2 r | Three r => closed3 r end.

(** The cycle goes through the edges with these places in the list. *)
Definition through (f : found) (a b : nat) (c : option nat) : Prop :=
  exists e1 e2, es !! a = Some e1 /\ es !! b = Some e2 /\ a <> b /\
  match f, c with
  | Two r, None => r = Route2 (e_proto e1, e_proto e2) (e_pool e1, e_pool e2) (r2_token r) /\
      out_of e1 SOL = Some (r2_token r) /\ out_of e2 (r2_token r) = Some SOL
  | Three r, Some c => exists e3, es !! c = Some e3 /\ c <> a /\ c <> b /\
      r = Route3 (e_proto e1, e_proto e2, e_proto e3) (e_pool e1, e_pool e2, e_pool e3) (r3_tokens r) /\
      out_of e1 SOL = Some (r3_tokens r).1 /\ out_of e2 (r3_tokens r).1 = Some (r3_tokens r).2 /\
      (r3_tokens r).2 <> SOL /\ out_of e3 (r3_tokens r).2 = Some SOL
  | _, _ => False
  end.

Lemma third_elem a b e1 e2 m mid c f :
  es !! a = Some e1 -> es !! b = Some e2 -> a <> b -> out_of e1 SOL = Some m -> out_of e2 m = Some mid -> mid <> SOL ->
  f ∈ third es a b e1 e2 m mid c <-> through f a b (Some c) /\ match f with Three r => r3_tokens r = (m, mid) | Two _ => False end.
Proof.
  intros Ha Hb Hab H1 H2 Hmid. unfold third, through. split.
  - case_bool_decide as Hc; [by intros H; apply elem_of_nil in H|]. destruct (es !! c) as [e3|] eqn:Ec; [|by intros H; apply elem_of_nil in H].
    case_bool_decide as Ho; [|by intros H; apply elem_of_nil in H]. intros ->%list_elem_of_singleton. cbn [r3_tokens fst snd].
    rewrite !not_elem_of_cons in Hc. destruct Hc as (N1 & N2 & _). split; [|done]. exists e1, e2. do 3 (split; [done|]).
    by exists e3.
  - intros [(e1' & e2' & Ha' & Hb' & _ & Hf) Ht]. destruct f as [r|r]; [done|].
    destruct Hf as (e3 & Hc & N1 & N2 & Hr & O1 & O2 & _ & O3). simplify_eq. rewrite Ht in *. cbn [fst snd] in *.
    rewrite bool_decide_eq_false_2 by (rewrite !not_elem_of_cons; split; [done|split; [done|apply not_elem_of_nil]]).
    rewrite Hc, bool_decide_eq_true_2 by done. apply list_elem_of_singleton. by f_equal.
Qed.

Lemma found_token e1 t m : es !! e1 = Some t -> out_of t SOL = Some m -> m <> SOL /\ m <> ""%string.
Proof.
  intros He Ho. apply (out_token t); [|done]. exact (proj1 (edges_two_tokens pools t (list_elem_of_lookup_2 _ _ _ He))).
Qed.

Lemma second_elem a e1 m b f :
  es !! a = Some e1 -> out_of e1 SOL = Some m ->
  f ∈ second es bm a e1 m b <->
  exists c, through f a b c /\ match f with Two r => r2_token r = m | Three r => (r3_tokens r).1 = m end.
Proof.
  intros Ha H1. unfold second. destruct (Nat.eqb_spec b a) as [->|Hba].
  { split; [by intros H; apply elem_of_nil in H|]. by intros (c & (e1' & e2' & _ & _ & Hne & _) & _). }
  destruct (es !! b) as [e2|] eqn:Hb.
  2: { split; [by intros H; apply elem_of_nil in H|]. intros (c & (e1' & e2' & _ & Hb' & _) & _). congruence. }
  destruct (out_of e2 m) as [mid|] eqn:H2.
  2: { split; [by intros H; apply elem_of_nil in H|]. intros (c & (e1' & e2' & Ha' & Hb' & _ & Hf) & Hm). simplify_eq.
       destruct f as [r|r], c as [c|]; try done; [destruct Hf as (_ & _ & H); congruence|].
       destruct Hf as (e3 & _ & _ & _ & _ & _ & H & _). congruence. }
  destruct (String.eqb_spec mid SOL) as [->|Hmid].
  - rewrite list_elem_of_singleton. split.
    + intros ->. exists None. split; [|done]. exists e1, e2. do 2 (split; [done|]). by split.
    + intros (c & (e1' & e2' & Ha' & Hb' & _ & Hf) & Hm). simplify_eq. destruct f as [r|r], c as [c|]; try done.
      * destruct Hf as (Hr & _). rewrite <- Hm. by f_equal.
      * destruct Hf as (e3 & _ & _ & _ & _ & _ & H & Hn & _). congruence.
  - assert (Hnm : mid <> m).
    { apply (out_token e2); [|done]. exact (proj1 (edges_two_tokens pools e2 (list_elem_of_lookup_2 _ _ _ Hb))). }
    destruct (String.eqb_spec mid m) as [|_]; [done|]. rewrite list_elem_of_bind. split.
    + intros (c & Hf & Hc). apply (third_elem a b e1 e2 m mid c f Ha Hb) in Hf as [Hf Ht]; [|done..].
      exists (Some c). split; [done|]. destruct f as [r|r]; [done|]. by rewrite Ht.
    + intros (c & Ht & Hm). pose proof Ht as (e1' & e2' & Ha' & Hb' & Hab & Hf). simplify_eq.
      destruct f as [r|r], c as [c|]; try done; [destruct Hf as (_ & _ & H); congruence|].
      destruct Hf as (e3 & Hc & N1 & N2 & Hr & O1 & O2 & O3 & O4).
      assert (Ht2 : r3_tokens r = (m, mid)) by (rewrite Hm, H2 in O2; injection O2 as O2; rewrite O2, <- Hm; by destruct (r3_tokens r)).
      exists c. split.
      * by apply (third_elem a b e1 e2 m mid c (Three r)).
      * apply at_mint_elem. exists e3. split; [done|]. apply (out_touches e3 _ SOL). by rewrite Ht2 in O4.
Qed.

Lemma first_elem a e1 f : es !! a = Some e1 -> f ∈ first es bm (a, e1) <-> exists b c, through f a b c.
Proof.
  intros Ha. unfold first. cbn [fst snd].
  assert (Hout : forall b c, through f a b c -> out_of e1 SOL = Some (match f with Two r => r2_token r | Three r => (r3_tokens r).1 end)).
  { intros b c (e1' & e2' & Ha' & Hb' & _ & Hf). simplify_eq. destruct f as [r|r], c as [c|]; try done.
    - by destruct Hf as (_ & H & _).
    - by destruct Hf as (e3 & _ & _ & _ & _ & H & _). }
  destruct (out_of e1 SOL) as [m|] eqn:H1.
  2: { split; [by intros H; apply elem_of_nil in H|]. intros (b & c & H). apply Hout in H. congruence. }
  destruct (found_token a e1 m Ha H1) as [N1 N2]. unfold nonempty, or_str.
  destruct (String.eqb_spec m ""); [done|]. destruct (String.eqb_spec m SOL); [done|].
  rewrite list_elem_of_bind. split.
  - intros (b & Hf & _). apply second_elem in Hf as (c & Hf & _); [|done..]. by exists b, c.
  - intros (b & c & H). pose proof (Hout b c H) as E. injection E as E. exists b. split.
    + apply second_elem; [done..|]. exists c. split; [done|]. by destruct f.
    + destruct H as (e1' & e2' & Ha' & Hb' & _ & Hf). apply at_mint_elem. exists e2'. split; [done|].
      destruct f as [r|r], c as [c|]; try done.
      * apply (out_touches _ _ SOL). subst m. by destruct Hf as (_ & _ & H).
      * destruct Hf as (e3 & _ & _ & _ & _ & _ & H & _). apply (out_touches _ _ (r3_tokens r).2). by subst m.
Qed.

Lemma cycles_elem f : f ∈ cycles pools <-> exists a b c, through f a b c.
Proof.
  unfold cycles. rewrite list_elem_of_bind. split.
  - intros ([a e1] & Hf & Hin). apply list_elem_of_lookup in Hin as [k Hk]. rewrite list_lookup_imap in Hk.
    destruct (es !! k) eqn:E; [|done]. injection Hk as <- <-. apply first_elem in Hf; [|done]. by exists k.
  - intros (a & b & c & H). pose proof H as (e1 & e2 & Ha & _). exists (a, e1). split; [apply first_elem; [done|by exists b, c]|].
    apply list_elem_of_lookup. exists a. by rewrite list_lookup_imap, Ha.
Qed.

Lemma edge_at i e : is_edge pools i e <-> exists a, es !! a = Some e /\ e_pool e = i.
Proof. rewrite is_edge_elem, list_elem_of_lookup. naive_solver. Qed.

Lemma through_closed f : (exists a b c, through f a b c) <-> closed f.
Proof.
  split.
  - intros (a & b & c & e1 & e2 & Ha & Hb & Hab & Hf).
    assert (D : forall x y ex ey, es !! x = Some ex -> es !! y = Some ey -> x <> y -> e_pool ex <> e_pool ey)
      by (intros x y ex ey Hx Hy Hne E; apply Hne; by apply (edge_index pools x y ex ey)).
    destruct f as [r|r], c as [c|]; try done; cbn [closed].
    + destruct Hf as (Hr & O1 & O2). exists e1, e2. rewrite Hr. cbn [r2_pools r2_token r2_seq fst snd].
      rewrite !edge_at. split; [by exists a|]. split; [by exists b|]. split; [by apply (D a b)|]. done.
    + destruct Hf as (e3 & Hc & N1 & N2 & Hr & O1 & O2 & O3 & O4). exists e1, e2, e3. rewrite Hr.
      cbn [r3_pools r3_tokens r3_seq]. rewrite !edge_at.
      split; [by exists a|]. split; [by exists b|]. split; [by exists c|].
      split; [by apply (D a b)|]. split; [by apply (D a c)|]. split; [by apply (D b c)|]. done.
  - destruct f as [r|r]; cbn [closed].
    + intros (e1 & e2 & H1 & H2 & Hne & O1 & O2 & Hs). apply edge_at in H1 as (a & Ha & E1). apply edge_at in H2 as (b & Hb & E2).
      exists a, b, None, e1, e2. do 2 (split; [done|]). split; [intros ->; congruence|]. split; [|done].
      destruct r as [s [i j] t]. cbn [r2_pools r2_token r2_seq fst snd] in *. by subst.
    + intros (e1 & e2 & e3 & H). destruct r as [s [[i j] k] [m mid]]. cbn [r3_pools r3_tokens r3_seq fst snd] in *.
      destruct H as (H1 & H2 & H3 & N1 & N2 & N3 & O1 & O2 & O3 & O4 & Hs).
      apply edge_at in H1 as (a & Ha & E1). apply edge_at in H2 as (b & Hb & E2). apply edge_at in H3 as (c & Hc & E3).
      exists a, b, (Some c), e1, e2. do 2 (split; [done|]). split; [intros ->; congruence|].
      exists e3. split; [done|]. split; [intros ->; congruence|]. split; [intros ->; congruence|]. by subst.
Qed.
End exact.

(** ** Each cycle once *)

Section once.
Context (pools : list hpool).
Notation es := (edges_of pools).
Notation bm := (by_mint es).

Lemma through_unique f a b c a' b' c' : through pools f a b c -> through pools f a' b' c' -> a = a' /\ b = b' /\ c = c'.
Proof.
  intros (e1 & e2 & Ha & Hb & _ & Hf) (e1' & e2' & Ha' & Hb' & _ & Hf').
  destruct f as [r|r], c as [c|], c' as [c'|]; try done.
  - destruct Hf as (Hr & _), Hf' as (Hr' & _). rewrite Hr in Hr'. injection Hr' as _ _ E1 E2.
    split; [by apply (edge_index pools a a' e1 e1')|]. split; [by apply (edge_index pools b b' e2 e2')|done].
  - destruct Hf as (e3 & Hc & _ & _ & Hr & _), Hf' as (e3' & Hc' & _ & _ & Hr' & _).
    rewrite Hr in Hr'. injection Hr' as _ _ _ E1 E2 E3.
    split; [by apply (edge_index pools a a' e1 e1')|]. split; [by apply (edge_index pools b b' e2 e2')|].
    f_equal. by apply (edge_index pools c c' e3 e3').
Qed.

Lemma third_once a b e1 e2 m mid c : NoDup (third es a b e1 e2 m mid c).
Proof.
  unfold third. repeat case_match; first [apply NoDup_nil_2|apply NoDup_singleton].
Qed.

Lemma second_once a e1 m b : es !! a = Some e1 -> out_of e1 SOL = Some m -> NoDup (second es bm a e1 m b).
Proof.
  intros Ha H1. unfold second. destruct (Nat.eqb_spec b a) as [|Hba]; [apply NoDup_nil_2|].
  destruct (es !! b) as [e2|] eqn:Hb; [|apply NoDup_nil_2]. destruct (out_of e2 m) as [mid|] eqn:H2; [|apply NoDup_nil_2].
  destruct (String.eqb_spec mid SOL) as [|Hmid]; [apply NoDup_singleton|]. destruct (String.eqb mid m); [apply NoDup_nil_2|].
  apply NoDup_bind; [|intros c _; apply third_once|apply at_mint_nodup].
  intros c c' f _ _ Hc Hc'. apply (third_elem pools a b e1 e2 m mid c f) in Hc as [Hc _]; [|done..].
  apply (third_elem pools a b e1 e2 m mid c' f) in Hc' as [Hc' _]; [|done..].
  destruct (through_unique _ _ _ _ _ _ _ Hc Hc') as (_ & _ & E). by injection E.
Qed.

Lemma first_once a e1 : es !! a = Some e1 -> NoDup (first es bm (a, e1)).
Proof.
  intros Ha. unfold first. cbn [fst snd]. destruct (out_of e1 SOL) as [m|] eqn:H1; [|apply NoDup_nil_2].
  destruct (found_token pools a e1 m Ha H1) as [N1 N2]. unfold nonempty, or_str.
  destruct (String.eqb_spec m ""); [done|]. destruct (String.eqb m SOL); [apply NoDup_nil_2|].
  apply NoDup_bind; [|intros b _; by apply second_once|apply at_mint_nodup].
  intros b b' f _ _ Hb Hb'. apply second_elem in Hb as (c & Hb & _); [|done..]. apply second_elem in Hb' as (c' & Hb' & _); [|done..].
  by destruct (through_unique _ _ _ _ _ _ _ Hb Hb') as (_ & E & _).
Qed.

Lemma imap_elem {A} (l : list A) a x : (a, x) ∈ imap pair l <-> l !! a = Some x.
Proof.
  rewrite list_elem_of_lookup. split.
  - intros [k Hk]. rewrite list_lookup_imap in Hk. destruct (l !! k) eqn:E; [|done]. by injection Hk as <- <-.
  - intros H. exists a. by rewrite list_lookup_imap, H.
Qed.

Lemma cycles_once : NoDup (cycles pools).
Proof.
  unfold cycles. apply NoDup_bind.
  - intros [a e1] [a' e1'] f Hx Hx' Hf Hf'. apply imap_elem in Hx, Hx'.
    apply first_elem in Hf as (b & c & Hf); [|done]. apply first_elem in Hf' as (b' & c' & Hf'); [|done].
    destruct (through_unique _ _ _ _ _ _ _ Hf Hf') as (-> & _ & _). congruence.
  - intros [a e1] Hx. apply imap_elem in Hx. by apply first_once.
  - apply (NoDup_fmap_1 fst). rewrite imap_fst. apply NoDup_seq.
Qed.
End once.

Lemma NoDup_omap_inj {A B} (f : A -> option B) (l : list A) :
  (forall x y z, f x = Some z -> f y = Some z -> x = y) -> NoDup l -> NoDup (omap f l).
Proof.
  intros Hf. induction l as [|x l IH]; [intros _; apply NoDup_nil_2|]. intros Hn. apply NoDup_cons in Hn as [Hx Hn]. cbn [omap list_omap].
  destruct (f x) as [z|] eqn:E; [|by apply IH]. apply NoDup_cons. split; [|by apply IH].
  intros Hin. apply list_elem_of_omap in Hin as (y & Hy & E'). by rewrite (Hf _ _ _ E E') in Hx.
Qed.

(** What the lists hold. *)
Lemma two_elem pools r : r ∈ two_of pools <-> closed2 pools r.
Proof.
  unfold two_of. rewrite list_elem_of_omap. split.
  - intros ([x|x] & Hx & Hr); [|done]. injection Hr as <-. by apply cycles_elem, through_closed in Hx.
  - intros H. exists (Two r). split; [|done]. by apply cycles_elem, through_closed.
Qed.
Lemma three_elem pools r : r ∈ three_of pools <-> closed3 pools r.
Proof.
  unfold three_of. rewrite list_elem_of_omap. split.
  - intros ([x|x] & Hx & Hr); [done|]. injection Hr as <-. by apply cycles_elem, through_closed in Hx.
  - intros H. exists (Three r). split; [|done]. by apply cycles_elem, through_closed.
Qed.

(** C29. The closure is complete and exact: the two lists are the cycles of two and three distinct
    pools that take SOL to SOL through tokens other than SOL, each listed once. *)
Theorem closure_exact pools :
  (forall r, r ∈ two_of pools <-> closed2 pools r) /\ (forall r, r ∈ three_of pools <-> closed3 pools r) /\
  NoDup (two_of pools) /\ NoDup (three_of pools).
Proof.
  split; [apply two_elem|]. split; [apply three_elem|].
  split; apply NoDup_omap_inj; try apply cycles_once; intros [x|x] [y|y] z; cbn; congruence.
Qed.

Lemma count_zero s l : count_str s l = 0 <-> s ∉ l.
Proof.
  unfold count_str. split.
  - intros H Hin. destruct (filter (fun x => x = s) l) eqn:E; [|cbn in H; lia].
    assert (s ∈ filter (fun x => x = s) l) by by apply list_elem_of_filter. rewrite E in *. by apply elem_of_nil in H0.
  - intros H. destruct (filter (fun x => x = s) l) as [|x l'] eqn:E; [done|]. exfalso. apply H.
    assert (Hx : x ∈ filter (fun x => x = s) l) by (rewrite E; by left). by apply list_elem_of_filter in Hx as [-> ?].
Qed.

(** A sequence is reported missing exactly when the universe has no cycle of that sequence. *)
Theorem missing_exact pools s :
  s ∈ graph_missing pools <->
  s ∈ SEQS_2 /\ (forall r, closed2 pools r -> name2 r <> s) \/ s ∈ SEQS_3 /\ (forall r, closed3 pools r -> name3 r <> s).
Proof.
  assert (H : s ∈ graph_missing pools <-> (s, 0) ∈ seq_counts pools).
  { unfold graph_missing. rewrite list_elem_of_fmap. split.
    - intros ([x n] & -> & H). apply list_elem_of_filter in H as [H0 H]. cbn [snd fst] in *. by subst n.
    - intros H. exists (s, 0). split; [done|]. by apply list_elem_of_filter. }
  assert (N2 : forall l : list route2, s ∉ (name2 <$> l) <-> forall r, r ∈ l -> name2 r <> s).
  { intros l. rewrite list_elem_of_fmap. naive_solver. }
  assert (N3 : forall l : list route3, s ∉ (name3 <$> l) <-> forall r, r ∈ l -> name3 r <> s).
  { intros l. rewrite list_elem_of_fmap. naive_solver. }
  rewrite H. unfold seq_counts. rewrite elem_of_app, !list_elem_of_fmap. setoid_rewrite <- two_elem. setoid_rewrite <- three_elem.
  split.
  - intros [(x & E & Hx)|(x & E & Hx)]; injection E as <- E; [left|right]; (split; [done|]).
    + by apply N2, count_zero.
    + by apply N3, count_zero.
  - intros [[Hs Hn]|[Hs Hn]]; [left|right]; exists s; (split; [|done]); f_equal; symmetry; apply count_zero; [by apply N2|by apply N3].
Qed.

(** * Cycles of two DLMM pools *)

Definition got {A} (d : list (string * list A)) (t : string) : list A := default [] (od_get d t).

Lemma by_tok_fold t l : forall d,
  got (foldl add_pool d l) t = got d t ++ (fst <$> filter (fun ip : nat * hpool => dlmm_token ip.2 = Some t) l).
Proof.
  induction l as [|[i p] l IH]; intros d; [by rewrite app_nil_r|]. cbn [foldl]. rewrite IH, filter_cons. cbn [fst snd].
  unfold add_pool. cbn [fst snd]. destruct (dlmm_token p) as [t'|]; [|by rewrite decide_False by done].
  unfold got, od_push. destruct (decide (t' = t)) as [->|Hne].
  - rewrite od_get_set_eq, decide_True by done. rewrite fmap_cons. unfold default. cbn [id fst]. by rewrite <- app_assoc.
  - rewrite od_get_set_ne by done. by rewrite decide_False by congruence.
Qed.

Lemma by_tok_keys pools : NoDup (od_keys (by_tok pools)).
Proof.
  unfold by_tok. assert (H : forall l d, NoDup (od_keys d) -> NoDup (od_keys (foldl add_pool d l))).
  { induction l as [|[i p] l IH]; intros d Hd; [done|]. cbn [foldl]. apply IH. unfold add_pool. cbn [fst snd].
    destruct (dlmm_token p); [|done]. by apply od_nodup_set. }
  apply H, NoDup_nil_2.
Qed.

Lemma by_tok_elem pools t i : i ∈ got (by_tok pools) t <-> exists p, pools !! i = Some p /\ dlmm_token p = Some t.
Proof.
  unfold by_tok. rewrite by_tok_fold. unfold got at 1. cbn [od_get]. unfold default, id. cbn [app]. rewrite list_elem_of_fmap. split.
  - intros ([j p] & -> & H). apply list_elem_of_filter in H as [Ht H]. apply imap_elem in H. by exists p.
  - intros (p & Hp & Ht). exists (i, p). split; [done|]. apply list_elem_of_filter. split; [done|]. by apply imap_elem.
Qed.

Lemma dlmm_token_of p t : dlmm_token p = Some t -> proto_of p = "dlmm"%string /\ token_of (str_mx p) (str_my p) = Some t /\ t <> ""%string.
Proof.
  unfold dlmm_token, nonempty, or_str. destruct (String.eqb_spec (proto_of p) "dlmm"); [|done].
  destruct (token_of _ _) as [u|]; [|done]. destruct (String.eqb_spec u ""); [done|]. by intros [= <-].
Qed.

Lemma pair_route_elem pools t a b f :
  f ∈ pair_route pools t a b <-> exists pa pb, a <> b /\ pools !! a = Some pa /\ pools !! b = Some pb /\
    token_of (str_mx pa) (str_my pa) = Some t /\ token_of (str_mx pb) (str_my pb) = Some t /\
    f = FRoute a b (hp_pubkey pa) (hp_pubkey pb) t true.
Proof.
  assert (Hok : forall p, token_of (str_mx p) (str_my p) = Some t -> t <> SOL /\ str_mx p <> str_my p).
  { intros p. unfold token_of. destruct (String.eqb_spec (str_mx p) SOL), (String.eqb_spec (str_my p) SOL),
      (String.eqb_spec (str_mx p) (str_my p)); cbn; try done; intros [= <-]; (split; congruence). }
  unfold pair_route. split.
  - destruct (Nat.eqb_spec a b); [by intros H; apply elem_of_nil in H|].
    destruct (pools !! a) as [pa|], (pools !! b) as [pb|]; try (by intros H; apply elem_of_nil in H).
    case_bool_decide as Ha; [by intros H; apply elem_of_nil in H|]. case_bool_decide as Hb; [by intros H; apply elem_of_nil in H|].
    cbn [orb]. intros ->%list_elem_of_singleton. exists pa, pb. do 5 (split; [done|]).
    destruct (Hok pa Ha), (Hok pb Hb). do 3 (match goal with |- context [String.eqb ?x ?y] => destruct (String.eqb_spec x y); [done|] end).
    done.
  - intros (pa & pb & Hne & -> & -> & Ta & Tb & ->). destruct (Nat.eqb_spec a b); [done|].
    rewrite !bool_decide_eq_false_2 by (intros Hx; by apply Hx). cbn [orb]. apply list_elem_of_singleton.
    destruct (Hok pa Ta), (Hok pb Tb). do 3 (match goal with |- context [String.eqb ?x ?y] => destruct (String.eqb_spec x y); [done|] end).
    done.
Qed.

Lemma two_members {A} (l : list A) a b : a ∈ l -> b ∈ l -> a <> b -> (2 <= length l)%nat.
Proof.
  destruct l as [|x [|y l]]; [|rewrite !list_elem_of_singleton; congruence|cbn; lia]. intros H. by apply elem_of_nil in H.
Qed.

Lemma dlmm2_elem pools f :
  f ∈ enumerate_dlmm2 pools <-> exists pa pb t, fr_p0 f <> fr_p1 f /\
    pools !! fr_p0 f = Some pa /\ pools !! fr_p1 f = Some pb /\ dlmm_token pa = Some t /\ dlmm_token pb = Some t /\
    f = FRoute (fr_p0 f) (fr_p1 f) (hp_pubkey pa) (hp_pubkey pb) t true.
Proof.
  unfold enumerate_dlmm2. rewrite list_elem_of_bind. split.
  - intros ([t idxs] & Hf & Hin). apply od_get_elem_2 in Hin; [|apply by_tok_keys].
    assert (Hg : forall i, i ∈ idxs -> exists p, pools !! i = Some p /\ dlmm_token p = Some t).
    { intros i Hi. apply by_tok_elem. unfold got. by rewrite Hin. }
    destruct (_ <? 2)%nat; [by apply elem_of_nil in Hf|].
    apply list_elem_of_bind in Hf as (a & Hf & Ha). apply list_elem_of_bind in Hf as (b & Hf & Hb).
    apply pair_route_elem in Hf as (pa & pb & Hne & Hpa & Hpb & _ & _ & ->). cbn [fr_p0 fr_p1].
    destruct (Hg a Ha) as (pa' & Ea & Ta), (Hg b Hb) as (pb' & Eb & Tb). exists pa, pb, t. split; [done|].
    split; [done|]. split; [done|]. split; [congruence|]. split; [congruence|done].
  - intros (pa & pb & t & Hne & Hpa & Hpb & Ta & Tb & Hf).
    assert (Ha : fr_p0 f ∈ got (by_tok pools) t) by (apply by_tok_elem; by exists pa).
    assert (Hb : fr_p1 f ∈ got (by_tok pools) t) by (apply by_tok_elem; by exists pb).
    unfold got in Ha, Hb. destruct (od_get (by_tok pools) t) as [idxs|] eqn:Eg; [|by apply elem_of_nil in Ha].
    unfold default, id in Ha, Hb. exists (t, idxs). split; [|by apply od_get_elem].
    destruct (Nat.ltb_spec (length idxs) 2) as [Hl|_]; [pose proof (two_members _ _ _ Ha Hb Hne); lia|].
    apply list_elem_of_bind. exists (fr_p0 f). split; [|done]. apply list_elem_of_bind. exists (fr_p1 f). split; [|done].
    apply pair_route_elem. exists pa, pb. do 3 (split; [done|]).
    by destruct (dlmm_token_of _ _ Ta) as (_ & ? & _), (dlmm_token_of _ _ Tb) as (_ & ? & _).
Qed.

(** The DLMM pools of the universe name both tokens. *)
Definition dlmm_named (pools : list hpool) : Prop :=
  forall i p, pools !! i = Some p -> proto_of p = "dlmm"%string -> mx_of p <> ""%string /\ my_of p <> ""%string.

Lemma named_text (a b : option string) :
  default ""%string (or_str a b) <> ""%string -> default "None"%string (or_str a b) = default ""%string (or_str a b).
Proof. by destruct (or_str a b). Qed.

Lemma dlmm_edge pools i p t :
  dlmm_named pools -> pools !! i = Some p ->
  dlmm_token p = Some t <->
  proto_of p = "dlmm"%string /\ exists e, edge_of (i, p) = Some e /\ out_of e SOL = Some t /\ out_of e t = Some SOL.
Proof.
  intros Hn Hp. destruct (String.eqb_spec (proto_of p) "dlmm") as [Hd|Hd].
  2: { split; [intros H; by apply dlmm_token_of in H as [? _]|by intros [? _]]. }
  destruct (Hn i p Hp Hd) as [Hx Hy]. unfold dlmm_token, edge_of. rewrite Hd. cbn [String.eqb Ascii.eqb Bool.eqb].
  replace (str_mx p) with (mx_of p) by (symmetry; by apply named_text).
  replace (str_my p) with (my_of p) by (symmetry; by apply named_text).
  rewrite (bool_decide_eq_true_2 ("dlmm"%string ∈ PROTO.*1)) by (by left). cbn [negb].
  destruct (String.eqb_spec (mx_of p) ""); [done|]. destruct (String.eqb_spec (my_of p) ""); [done|]. cbn [orb].
  unfold token_of, nonempty, or_str.
  destruct (String.eqb_spec (mx_of p) (my_of p)) as [E|Hne].
  { rewrite andb_false_r. split; [done|]. intros (_ & e & He & _). done. }
  rewrite andb_true_r. unfold out_of, other.
  destruct (String.eqb_spec (mx_of p) SOL) as [Ex|Ex], (String.eqb_spec (my_of p) SOL) as [Ey|Ey]; cbn [orb]; try congruence.
  - destruct (String.eqb_spec (my_of p) ""); [done|]. split.
    + intros [= <-]. split; [done|]. eexists. split; [done|]. cbn [e_mx e_my]. rewrite <- Ex, String.eqb_refl. split; [done|].
      destruct (String.eqb_spec (my_of p) (mx_of p)); [congruence|]. by rewrite String.eqb_refl.
    + intros (_ & e & [= <-] & H & _). cbn [e_mx e_my] in H. rewrite <- Ex, String.eqb_refl in H. done.
  - destruct (String.eqb_spec (mx_of p) ""); [done|]. split.
    + intros [= <-]. split; [done|]. eexists. split; [done|]. cbn [e_mx e_my]. rewrite <- Ey.
      destruct (String.eqb_spec (my_of p) (mx_of p)); [congruence|]. rewrite !String.eqb_refl. done.
    + intros (_ & e & [= <-] & H & _). cbn [e_mx e_my] in H. rewrite <- Ey in H.
      destruct (String.eqb_spec (my_of p) (mx_of p)); [congruence|]. by rewrite String.eqb_refl in H.
  - split; [done|]. intros (_ & e & [= <-] & H & _). cbn [e_mx e_my] in H.
    destruct (String.eqb_spec SOL (mx_of p)); [congruence|]. destruct (String.eqb_spec SOL (my_of p)); [congruence|]. done.
Qed.

Lemma edge_dlmm i p e : edge_of (i, p) = Some e -> e_proto e = proto_of p.
Proof. unfold edge_of. repeat case_match; try done. by intros [= <-]. Qed.

(** The two enumerations agree: in a universe whose DLMM pools name both tokens, the routes of
    fam6_gate are the DLMM-DLMM cycles of the closure, pool by pool and token by token, and each is
    marked as closing. *)
Theorem enumerations_agree pools a b t :
  dlmm_named pools ->
  (exists f, f ∈ enumerate_dlmm2 pools /\ (fr_p0 f, fr_p1 f, fr_token f, fr_mint_ok f) = (a, b, t, true)) <->
  Route2 ("dlmm", "dlmm")%string (a, b) t ∈ two_of pools.
Proof.
  intros Hn. rewrite two_elem. unfold closed2, is_edge. cbn [r2_pools r2_token r2_seq fst snd]. split.
  - intros (f & Hf & E). injection E as <- <- <- _. apply dlmm2_elem in Hf as (pa & pb & t' & Hne & Hpa & Hpb & Ta & Tb & Hf).
    assert (fr_token f = t') as -> by (by rewrite Hf).
    apply (dlmm_edge pools _ pa t' Hn Hpa) in Ta as (Da & ea & Ea & Oa & _).
    apply (dlmm_edge pools _ pb t' Hn Hpb) in Tb as (Db & eb & Eb & _ & Ob).
    exists ea, eb. split; [by exists pa|]. split; [by exists pb|]. do 3 (split; [done|]).
    by rewrite (edge_dlmm _ _ _ Ea), (edge_dlmm _ _ _ Eb), Da, Db.
  - intros (ea & eb & (pa & Hpa & Ea) & (pb & Hpb & Eb) & Hne & Oa & Ob & Hs). injection Hs as Sa Sb.
    rewrite (edge_dlmm _ _ _ Ea) in Sa. rewrite (edge_dlmm _ _ _ Eb) in Sb.
    assert (Back : forall i p e u v, edge_of (i, p) = Some e -> out_of e u = Some v -> out_of e v = Some u).
    { intros i p e u v He. apply edge_of_pool in He as (_ & _ & _ & Hd & _). unfold out_of, other.
      destruct (String.eqb_spec u (e_mx e)) as [->|]; [intros [= <-]|].
      - destruct (String.eqb_spec (e_my e) (e_mx e)); [congruence|]. by rewrite String.eqb_refl.
      - destruct (String.eqb_spec u (e_my e)) as [->|]; [|done]. intros [= <-]. by rewrite String.eqb_refl. }
    exists (FRoute a b (hp_pubkey pa) (hp_pubkey pb) t true). split; [|done]. apply dlmm2_elem. exists pa, pb, t. cbn [fr_p0 fr_p1].
    split; [done|]. split; [done|]. split; [done|].
    split; [apply (dlmm_edge pools a pa t Hn Hpa); split; [done|]; exists ea; eauto|].
    split; [apply (dlmm_edge pools b pb t Hn Hpb); split; [done|]; exists eb; eauto|done].
Qed.

(** * On concrete pools *)

Definition demo_universe : list hpool := [
  HPool "a" (Some SOL) None (Some "T") None (Some "dlmm") None;
  HPool "b" None (Some "T") None (Some SOL) None (Some "dlmm");
  HPool "c" (Some "T") None (Some SOL) None (Some "pump") None;
  HPool "d" (Some "T") None (Some "U") None (Some "dlmm") None;
  HPool "e" (Some "U") None (Some SOL) None (Some "dlmm") None]%string.

Example demo_counts : (snd <$> seq_counts demo_universe) = [2; 2; 2; 0; 4; 1; 0; 0; 1; 0; 0; 0].
Proof. vm_compute. reflexivity. Qed.

Lemma enumerations_agree_witness :
  Route2 ("dlmm", "dlmm")%string (0, 1)%nat "T" ∈ two_of demo_universe.
Proof.
  apply (enumerations_agree demo_universe 0 1 "T").
  - intros i p Hp _. do 5 (destruct i as [|i]; [injection Hp as <-; split; vm_compute; discriminate|]). discriminate Hp.
  - eexists. split; [apply list_elem_of_lookup; exists 0%nat; vm_compute; reflexivity|reflexivity].
Defined.

(** Two DLMM pools whose second token is missing are no edge of the closure, but fam6_gate
    routes from one to the other through a token of the name None. *)
Theorem missing_token_routed :
  let pools := [HPool "a" (Some SOL) None None None (Some "dlmm") None;
                HPool "b" (Some SOL) None None None (Some "dlmm") None]%string in
  cycles pools = [] /\
  enumerate_dlmm2 pools = [FRoute 0 1 "a" "b" "None" true; FRoute 1 0 "b" "a" "None" true].
Proof. vm_compute. by split. Qed.
