(* ===== verification/HopsPlane.v ===== *)
(** The plane of ARBHOPS0 templates: arb-exec/scripts/hops_plane.py and the publish and audit stages
    of hops_live.py.

    hops_plane.main compiles one row per executable route and carries the flags of the plane before;
    cmd_publish brings the flags up to date with the chain; cmd_audit declares the plane complete.
    A row is a record of its entries, the plane file the list of its rows with the counts the audit
    reads.  The node's answers are a parameter; creating accounts and lookup tables, and the prints,
    are outside. *)
From stdpp Require Import base list strings relations.
From Stdlib Require Import ZArith Lia.
From S2P Require Import Prelude PyBytes PyVal Submap TxExpect Deps ExecTemplate AltPlane Recorder HopsVector HopsProgram HopsRoute.
Open Scope Z_scope.
Open Scope py_scope.

(** * Rows *)

Record prow := PRow {
  pw_id : pyval; pw_fam : Z; pw_seq : string; pw_n_hop : Z; pw_ix : string;
  pw_hops : list ix_hop; pw_mints : list string; pw_template : Z;
  pw_ata_ready : Z; pw_alt_ready : Z; pw_size_ok : option Z; pw_vector_ready : option Z; pw_race_ready : Z }.

Definition hop_n (proto : string) (in_ata : Z) : Z :=
  if String.eqb proto "dlmm" then 10 else if in_ata =? 0 then 26 else 24.

Definition plane_ix (hops : list ix_hop) : pyres string :=
  buf <-! pack_ix hops 50000000 1000000000 ;; Ret (hex buf).

(** One turn of the loop over the hops: tokens and hops so far. *)
Definition plane_hop (pools : list hpool) (r : hroute) (st : list string * list ix_hop) (hp : nat * string)
    : pyres (list string * list ix_hop) :=
  let '(mints, hops) := st in
  let '(hi, proto) := hp in
  p <-! pool_at pools r hi ;;
  incoming <-! at_index mints (-1) ;;
  let outgoing := outgoing_of p incoming in
  let mints := mints ++ [outgoing] in
  ina <-! ata_slot mints incoming ;;
  outa <-! ata_slot mints outgoing ;;
  Ret (mints, hops ++ [(if String.eqb proto "dlmm" then 1 else 2, ina, outa, hop_n proto ina)]).

Definition compile_row (pools : list hpool) (r : hroute) : pyres prow :=
  st <-! py_foldl (plane_hop pools r) ([SOL], []) (imap pair (protos_of r)) ;;
  ix <-! plane_ix st.2 ;;
  Ret (PRow (hr_id r) (hr_fam r) (hr_seq r) (hr_n_hop r) ix st.2 st.1 1 0 0 None None 0).

(** [if old.get(k): row[k] = old[k]] *)
Definition keep (old new : Z) : Z := if old =? 0 then new else old.
Definition keep_opt (old new : option Z) : option Z := if or0 old =? 0 then new else old.
Definition carry (old row : prow) : prow :=
  PRow (pw_id row) (pw_fam row) (pw_seq row) (pw_n_hop row) (pw_ix row) (pw_hops row) (pw_mints row) (pw_template row)
    (keep (pw_ata_ready old) (pw_ata_ready row)) (keep (pw_alt_ready old) (pw_alt_ready row))
    (keep_opt (pw_size_ok old) (pw_size_ok row)) (pw_vector_ready row) (keep (pw_race_ready old) (pw_race_ready row)).

(** [prev[old.get("id")] = old], the last row of an id. *)
Definition prev_rows (rows : list prow) : list (pyval * prow) :=
  foldl (fun d o => od_set d (pw_id o) o) [] rows.
Definition carry_from (prev : list (pyval * prow)) (row : prow) : prow :=
  match od_get prev (pw_id row) with Some old => carry old row | None => row end.

(** hops_plane.main: the rows written, from the rows of the file before. *)
Definition recompile (pools : list hpool) (routes : list hroute) (old : list prow) : pyres (list prow) :=
  compiled <-! py_map (compile_row pools) (filter (fun r => hr_exec r = true) routes) ;;
  Ret (carry_from (prev_rows old) <$> compiled).

Definition kept (rows : list prow) : Z := Z.of_nat (length (filter (fun r => pw_race_ready r <> 0) rows)).

(** * Publish *)

Record size_row := SizeRow { sz_ok : bool; sz_raw : option Z }.
Definition no_size : size_row := SizeRow false None.

Section node.
Context (rpc : list string -> rpc_config -> pyres rpc_reply) (wallet : string).

(** [all(x.exists(ata_of(wallet, m)) for m in mints if m)] *)
Fixpoint atas_ok (mints : list string) : pyres bool :=
  match mints with
  | [] => Ret true
  | m :: mints' =>
      if String.eqb m "" then atas_ok mints' else
      a <-! ata_of rpc wallet m ;;
      live <-! exists_ rpc a ;;
      if (live : bool) then atas_ok mints' else Ret false
  end.

(** [int(sz.get("raw") or 9999)] *)
Definition raw_or (sz : size_row) : Z := let z := or0 (sz_raw sz) in if z =? 0 then 9999 else z.

Definition publish_row (sizes : list (pyval * size_row)) (alts : bool) (r : prow) : pyres prow :=
  atas <-! atas_ok (pw_mints r) ;;
  let sz := default no_size (od_get sizes (pw_id r)) in
  let size := sz_ok sz && (raw_or sz <=? V0_MAX) in
  let vector := Z.b2z (atas && size) in
  let race := if pw_race_ready r =? 0 then 0 else vector in
  Ret (PRow (pw_id r) (pw_fam r) (pw_seq r) (pw_n_hop r) (pw_ix r) (pw_hops r) (pw_mints r) (pw_template r)
    (Z.b2z atas) (Z.b2z alts) (Some (Z.b2z size)) (Some vector) race).

Definition publish_rows (sizes : list (pyval * size_row)) (alts : bool) (rows : list prow) : pyres (list prow) :=
  py_map (publish_row sizes alts) rows.
End node.

(** * Audit *)

Record plane := Plane { pl_rows : list prow; pl_ata : Z; pl_vector : Z; pl_race : Z }.

(** The counts cmd_publish writes. *)
Definition count_rows (P : prow -> bool) (rows : list prow) : Z := Z.of_nat (length (filter (fun r => P r = true) rows)).
Definition published (rows : list prow) : plane :=
  Plane rows (count_rows (fun r => negb (pw_ata_ready r =? 0)) rows)
    (count_rows (fun r => negb (or0 (pw_vector_ready r) =? 0)) rows)
    (count_rows (fun r => negb (pw_race_ready r =? 0)) rows).
(** The counts hops_plane.main writes; it has no vector_ready, which the audit reads as 0. *)
Definition compiled (rows : list prow) : plane := Plane rows 0 0 (kept rows).

Definition audit_complete (routes : list hroute) (pl : plane) : bool :=
  let n := Z.of_nat (length (filter (fun r => hr_exec r = true) routes)) in
  let tmpl := Z.of_nat (length (pl_rows pl)) in
  let missing := Z.of_nat (length (filter (fun r => hr_exec r = false) routes)) in
  let fam255 := Z.of_nat (length (filter (fun r => hr_fam r = 255) routes)) in
  (0 <? n) && (tmpl =? n) && (pl_vector pl =? n) && (pl_race pl =? n) && (missing =? 0) && (fam255 =? 0).

(** * The template is the vector's *)

Lemma outgoing_snoc pools r mints hi p inc :
  pool_at pools r hi = Ret p -> at_index mints (-1) = Ret inc ->
  (32 <= String.length (mx_of p))%nat -> (32 <= String.length (my_of p))%nat ->
  mint_step pools r mints hi = Ret (mints ++ [outgoing_of p inc]).
Proof.
  intros Hp Hi Hx Hy. unfold mint_step. rewrite Hp. cbn [py_bind].
  destruct (Nat.ltb_spec (String.length (mx_of p)) 32); [lia|]. destruct (Nat.ltb_spec (String.length (my_of p)) 32); [lia|].
  cbn [orb]. by rewrite Hi.
Qed.

Lemma at_one {A} (a b : A) l : at_index (a :: b :: l) 1 = Ret b.
Proof. by apply (at_index_nat _ 1). Qed.

(** The place of a token does not depend on the tokens behind the second. *)
Lemma ata_slot_prefix mints more m s : (2 <= length mints)%nat -> ata_slot mints m = Ret s -> ata_slot (mints ++ more) m = Ret s.
Proof.
  intros Hl. unfold ata_slot. destruct (String.eqb m SOL); [done|].
  destruct mints as [|a [|b mints]]; [cbn in Hl; lia|cbn in Hl; lia|].
  intros H. apply py_bind_Ret in H as (x & Hx & H). apply (at_index_nat _ 1) in Hx. injection Hx as <-.
  change ((a :: b :: mints) ++ more) with (a :: b :: (mints ++ more)). rewrite at_one. exact H.
Qed.

Lemma ata_slot_ret mints m : (2 <= length mints)%nat -> exists s, ata_slot mints m = Ret s.
Proof.
  intros Hl. unfold ata_slot. destruct (String.eqb m SOL); [by eexists|].
  destruct mints as [|a [|b mints]]; [cbn in Hl; lia|cbn in Hl; lia|].
  rewrite at_one. by eexists.
Qed.

(** The hops the templates and the vectors give a route with these tokens. *)
Definition hop_entry (mints : list string) (i : nat) (proto : string) (h : ix_hop) : Prop :=
  exists inc out ina outa, mints !! i = Some inc /\ mints !! S i = Some out /\
    ata_slot mints inc = Ret ina /\ ata_slot mints out = Ret outa /\
    h = (if String.eqb proto "dlmm" then 1 else 2, ina, outa, hop_n proto ina).

Lemma at_last {A} (l : list A) x : at_index (l ++ [x]) (-1) = Ret x.
Proof.
  unfold at_index. cbn [Z.ltb Z.compare]. rewrite length_app. cbn [length].
  destruct (Z.ltb_spec (-1 + Z.of_nat (length l + 1)) 0); [lia|].
  replace (Z.to_nat (-1 + Z.of_nat (length l + 1))) with (length l) by lia.
  by rewrite lookup_app_r, Nat.sub_diag by lia.
Qed.

Lemma hop_entry_unique mints i proto h h' : hop_entry mints i proto h -> hop_entry mints i proto h' -> h = h'.
Proof.
  intros (inc & out & ina & outa & H1 & H2 & H3 & H4 & ->) (inc' & out' & ina' & outa' & H1' & H2' & H3' & H4' & ->). congruence.
Qed.

Lemma mint_step_inv pools r mints hi mints' :
  mint_step pools r mints hi = Ret mints' ->
  exists p inc, pool_at pools r hi = Ret p /\ at_index mints (-1) = Ret inc /\ mints' = mints ++ [outgoing_of p inc].
Proof.
  unfold mint_step. intros H. apply py_bind_Ret in H as (p & Hp & H). destruct (_ || _); [done|].
  apply py_bind_Ret in H as (inc & Hi & [= <-]). by exists p, inc.
Qed.

Lemma plane_follows pools r protos : forall k pre last hops mints,
  length pre = k -> py_foldl (mint_step pools r) (pre ++ [last]) (seq k (length protos)) = Ret mints ->
  exists hops', py_foldl (plane_hop pools r) (pre ++ [last], hops) (zip (seq k (length protos)) protos) = Ret (mints, hops ++ hops') /\
    length hops' = length protos /\
    forall i proto h, protos !! i = Some proto -> hops' !! i = Some h -> hop_entry mints (k + i) proto h.
Proof.
  induction protos as [|proto protos IH]; intros k pre last hops mints Hk; cbn [length seq py_foldl zip zip_with].
  { intros [= <-]. exists []. rewrite app_nil_r. by split. }
  intros H. apply py_bind_Ret in H as (mints1 & Hs & H). destruct (mint_step_inv _ _ _ _ _ Hs) as (p & inc & Hp & Hi & ->).
  rewrite at_last in Hi. injection Hi as <-. set (out := outgoing_of p last) in *.
  destruct (mint_steps_grow _ _ _ _ _ H) as (tl & Em & _).
  assert (Hl : (2 <= length ((pre ++ [last]) ++ [out]))%nat) by (rewrite !length_app; cbn; lia).
  destruct (ata_slot_ret _ last Hl) as [ina Hina]. destruct (ata_slot_ret _ out Hl) as [outa Houta].
  set (h := (if String.eqb proto "dlmm" then 1 else 2, ina, outa, hop_n proto ina)).
  destruct (IH (S k) (pre ++ [last]) out (hops ++ [h]) mints) as (hops' & Hf & Hlen & Hall); [rewrite length_app; cbn; lia|exact H|].
  exists (h :: hops'). split; [|split; [cbn; by rewrite Hlen|]].
  - unfold plane_hop at 1. rewrite Hp. cbn [py_bind]. rewrite at_last. cbn [py_bind]. fold out. rewrite Hina. cbn [py_bind].
    rewrite Houta. cbn [py_bind]. fold h. replace (hops ++ h :: hops') with ((hops ++ [h]) ++ hops') by by rewrite <- app_assoc.
    exact Hf.
  - intros [|i] pr x; cbn [lookup list_lookup].
    + intros [= <-] [= <-]. rewrite Nat.add_0_r. exists last, out, ina, outa. rewrite Em.
      split; [rewrite <- !app_assoc; rewrite lookup_app_r by lia; by rewrite Hk, Nat.sub_diag|].
      split; [rewrite lookup_app_l by (rewrite !length_app; cbn; lia); rewrite lookup_app_r by (rewrite length_app; cbn; lia);
              rewrite length_app; cbn [length]; by replace (S k - (length pre + 1))%nat with 0%nat by lia|].
      split; [by apply ata_slot_prefix|]. split; [by apply ata_slot_prefix|done].
    + intros Hpr Hx. replace (k + S i)%nat with (S k + i)%nat by lia. by apply Hall.
Qed.

Lemma imap_pair_zip {A} (l : list A) : imap pair l = zip (seq 0 (length l)) l.
Proof.
  apply list_eq. intros i. rewrite list_lookup_imap, lookup_zip_with. destruct (l !! i) eqn:E.
  - rewrite lookup_seq_lt by (by apply lookup_lt_Some in E). done.
  - rewrite lookup_seq_ge by (by apply lookup_ge_None in E). done.
Qed.

Lemma ata_slot_zero mints m s : ata_slot mints m = Ret s -> (s =? 0) = String.eqb m SOL.
Proof.
  unfold ata_slot. destruct (String.eqb m SOL); [by intros [= <-]|]. intros H. apply py_bind_Ret in H as (x & _ & [= <-]).
  by destruct (String.eqb m x).
Qed.

Lemma build_hop_entry rpc cache wallet pools r mints users i proto h :
  proto ∈ ["dlmm"; "pump"]%string -> build_hop rpc cache wallet pools r mints users (i, proto) = Ret h -> hop_entry mints i proto h.2.
Proof.
  intros Hpr. unfold build_hop. intros H. apply py_bind_Ret in H as (p & _ & H). apply py_bind_Ret in H as (inc & Hi & H).
  apply py_bind_Ret in H as (out & Ho & H). apply py_bind_Ret in H as (ina & Hia & H). apply py_bind_Ret in H as (outa & Hoa & H).
  cbv zeta in H. apply py_bind_Ret in H as (sem & _ & H). destruct (negb _); [done|]. injection H as <-. cbn [snd].
  rewrite at_index_nat in Hi. replace (Z.of_nat i + 1) with (Z.of_nat (S i)) in Ho by lia. rewrite at_index_nat in Ho.
  exists inc, out, ina, outa. do 4 (split; [done|]). f_equal. unfold n_accs, hop_n, buys.
  rewrite (ata_slot_zero _ _ _ Hia). apply elem_of_cons in Hpr as [->|Hpr]; [done|]. apply list_elem_of_singleton in Hpr as ->. done.
Qed.

(** C30. The template of a route is its vector's: when the account vector of a route over the two
    venues is built, the plane compiles the route too, with the same tokens and the same hops, so
    its payload differs from the vector's in the amount only. *)
Theorem template_matches_vector rpc cache wallet pools r keys data sems :
  build_route_accounts rpc cache wallet pools r = Ret (keys, data, sems) ->
  Forall (fun p => p ∈ ["dlmm"; "pump"]%string) (protos_of r) ->
  hr_n_hop r = Z.of_nat (length (protos_of r)) -> (length (protos_of r) <= 3)%nat ->
  exists row ix, compile_row pools r = Ret row /\
    route_mints pools r = Ret (pw_mints row) /\
    pack_ix (pw_hops row) TINY_IN MIN_PROFIT = Ret data /\
    pack_ix (pw_hops row) 50000000 MIN_PROFIT = Ret ix /\ pw_ix row = hex ix.
Proof.
  intros H Hpr Hn Hl. destruct (route_mints pools r) as [mints|e] eqn:Em;
    [|unfold build_route_accounts in H; by rewrite Em in H].
  destruct (build_route_parts rpc cache wallet pools r mints Em keys data sems H)
    as (users & event & shared & hops & _ & _ & _ & Hh & Hb & _ & _). clear H.
  destruct (built_hops _ _ _ _ _ _ _ _ Hh) as [Hlen Hfits].
  destruct (plane_follows pools r (protos_of r) 0 [] SOL [] mints eq_refl Em) as (hops' & Hf & Hlen' & Hall).
  assert (E : hops' = snd <$> hops).
  { apply list_eq_same_length with (length (protos_of r)); [by rewrite length_fmap|done|]. intros i x y Hi Hx Hy.
    rewrite list_lookup_fmap in Hy. destruct (hops !! i) as [h|] eqn:Eh; [|done]. injection Hy as <-.
    destruct (py_map_lookup _ _ _ _ _ Hh Eh) as ([i' proto] & Hp & Hbh). rewrite list_lookup_imap in Hp.
    destruct (protos_of r !! i) as [pr|] eqn:Ep; [|done]. injection Hp as <- <-.
    apply (hop_entry_unique mints i pr); [by apply (Hall i pr)|]. eapply build_hop_entry; [|exact Hbh].
    by apply (Forall_lookup_1 _ _ _ _ Hpr Ep). }
  assert (Hbytes : Forall byte_hop hops').
  { rewrite E. apply Forall_fmap, Forall_lookup_2. intros i h Hi. destruct (Hfits i h Hi) as (F1 & F2 & [_ (m & _ & Hsi) (m' & _ & Hso)]).
    apply (built_byte wallet). constructor; [exact F1|exact F2|]. split; by eapply ata_slot_range. }
  assert (Hp50 : pack_ix hops' 50000000 1000000000 = Ret (wire_ix (Z.of_nat (length hops')) hops' 50000000 1000000000)).
  { unfold pack_ix. apply pack_hops_wire; [lia|done|lia|lia|lia]. }
  eexists _, _. split.
  { unfold compile_row. rewrite imap_pair_zip. cbn [app] in Hf. rewrite Hf. cbn [py_bind snd fst]. unfold plane_ix.
    rewrite Hp50. cbn [py_bind]. reflexivity. }
  cbn [pw_mints pw_hops pw_ix]. split; [done|]. split.
  { unfold pack_ix. rewrite Hlen', <- Hn, E. exact Hb. }
  split; [exact Hp50|done].
Qed.

(** * The flags of a plane over time *)

(** One run of a program that writes the rows. *)
Inductive plane_step (rows : list prow) : list prow -> Prop :=
  | StepCompile pools routes rows' : recompile pools routes rows = Ret rows' -> plane_step rows rows'
  | StepPublish rpc wallet sizes alts rows' : publish_rows rpc wallet sizes alts rows = Ret rows' -> plane_step rows rows'.

(** The row was ready before, under the same id. *)
Definition ready_before (rows : list prow) (r : prow) : Prop :=
  pw_race_ready r <> 0 -> exists r0, r0 ∈ rows /\ pw_id r0 = pw_id r /\ pw_race_ready r0 <> 0.

Lemma prev_rows_elem rows id r : od_get (prev_rows rows) id = Some r -> r ∈ rows /\ pw_id r = id.
Proof.
  unfold prev_rows. assert (H : forall l d, od_get (foldl (fun d o => od_set d (pw_id o) o) d l) id = Some r ->
    od_get d id = Some r \/ (r ∈ l /\ pw_id r = id)).
  { induction l as [|o l IH]; intros d; [by left|]. cbn [foldl]. intros Hd. apply IH in Hd as [Hd|[Hin Hid]].
    - rewrite od_get_set in Hd. case_decide as E; [|by left]. injection Hd as ->. right. split; [by left|done].
    - right. split; [by right|done]. }
  intros Hr. by apply H in Hr as [Hr|Hr].
Qed.

Lemma compile_row_flags pools r row :
  compile_row pools r = Ret row -> pw_id row = hr_id r /\ pw_race_ready row = 0 /\ pw_vector_ready row = None.
Proof.
  unfold compile_row. intros H. apply py_bind_Ret in H as (st & _ & H). by apply py_bind_Ret in H as (ix & _ & [= <-]).
Qed.

Lemma recompile_ready pools routes old rows r :
  recompile pools routes old = Ret rows -> r ∈ rows -> ready_before old r.
Proof.
  unfold recompile. intros H Hr Hrace. apply py_bind_Ret in H as (rows0 & Hc & [= <-]).
  apply list_elem_of_fmap in Hr as (row & -> & Hrow). apply list_elem_of_lookup in Hrow as [i Hi].
  destruct (py_map_lookup _ _ _ _ _ Hc Hi) as (x & _ & Hx). apply compile_row_flags in Hx as (_ & H0 & _).
  unfold carry_from in *. destruct (od_get (prev_rows old) (pw_id row)) as [o|] eqn:Eo; [|done].
  apply prev_rows_elem in Eo as [Ho Hid]. exists o. split; [done|]. cbn [carry pw_id pw_race_ready] in *. split; [done|].
  unfold keep in Hrace. destruct (Z.eqb_spec (pw_race_ready o) 0); [by rewrite H0 in Hrace|done].
Qed.

Lemma publish_row_flags rpc wallet sizes alts r r' :
  publish_row rpc wallet sizes alts r = Ret r' ->
  pw_id r' = pw_id r /\
  (pw_race_ready r' <> 0 -> pw_race_ready r <> 0 /\ pw_race_ready r' = 1 /\ pw_vector_ready r' = Some 1 /\
     pw_ata_ready r' = 1 /\ pw_size_ok r' = Some 1 /\ atas_ok rpc wallet (pw_mints r) = Ret true).
Proof.
  unfold publish_row. intros H. apply py_bind_Ret in H as (b & Hb & [= <-]). cbn [pw_id pw_race_ready pw_vector_ready pw_ata_ready pw_size_ok].
  split; [done|]. destruct (Z.eqb_spec (pw_race_ready r) 0); [done|]. intros Hv.
  destruct b; [|done]. destruct (_ && _); [|done]. done.
Qed.

Lemma ready_before_rtc rows0 rows r : rtc plane_step rows0 rows -> r ∈ rows -> ready_before rows0 r.
Proof.
  intros H. revert r. induction H as [rows|rows0 rows1 rows Hs _ IH]; intros r Hr; [intros Hn; by exists r|].
  intros Hn. destruct (IH r Hr Hn) as (r1 & Hr1 & Hid & Hn1). clear IH.
  destruct Hs as [pools routes rows1 Hc|rpc wallet sizes alts rows1 Hp].
  - destruct (recompile_ready _ _ _ _ _ Hc Hr1 Hn1) as (r0 & ? & ? & ?). exists r0. split; [done|]. split; [congruence|done].
  - apply list_elem_of_lookup in Hr1 as [i Hi]. destruct (py_map_lookup _ _ _ _ _ Hp Hi) as (r0 & Hr0 & Hrow).
    apply publish_row_flags in Hrow as (Hid0 & Hrace). exists r0. split; [by apply list_elem_of_lookup_2 in Hr0|].
    split; [congruence|]. by apply Hrace.
Qed.

(** Publishing never invents readiness: over any runs of the template compiler and the
    publisher, whatever their inputs, a row is race ready only if a row of its id was race ready in
    the plane they started from. *)
Theorem race_never_invented rows0 rows r :
  rtc plane_step rows0 rows -> r ∈ rows -> ready_before rows0 r.
Proof. apply ready_before_rtc. Qed.

Lemma published_counts rows : pl_race (published rows) = kept rows.
Proof.
  unfold published, kept, count_rows. cbn [pl_race]. do 2 f_equal. apply list_filter_iff. intros r.
  by destruct (Z.eqb_spec (pw_race_ready r) 0).
Qed.

Lemma none_ready rows : (forall r, r ∈ rows -> pw_race_ready r = 0) -> kept rows = 0.
Proof.
  intros H. unfold kept. destruct (filter _ rows) as [|r l] eqn:E; [done|].
  assert (Hr : r ∈ filter (fun r => pw_race_ready r <> 0) rows) by (rewrite E; by left).
  apply list_elem_of_filter in Hr as [Hn Hr]. destruct (Hn (H r Hr)).
Qed.

(** No run of these programs makes the plane complete: from no plane at all, no row ever gets
    race ready and the audit stays incomplete, however the routes, the sizes and the chain are. *)
Theorem audit_never_complete rows :
  rtc plane_step [] rows ->
  (forall r, r ∈ rows -> pw_race_ready r = 0) /\
  forall routes, audit_complete routes (published rows) = false /\ audit_complete routes (compiled rows) = false.
Proof.
  intros H. assert (H0 : forall r, r ∈ rows -> pw_race_ready r = 0).
  { intros r Hr. destruct (decide (pw_race_ready r = 0)) as [|Hn]; [done|].
    destruct (ready_before_rtc _ _ _ H Hr Hn) as (r0 & Hr0 & _). by apply elem_of_nil in Hr0. }
  split; [done|]. intros routes. unfold audit_complete. rewrite published_counts. cbn [pl_race compiled].
  rewrite (none_ready rows H0). set (n := Z.of_nat (length (filter (fun r => hr_exec r = true) routes))).
  destruct (Z.ltb_spec 0 n) as [Hn|_]; [|done]. destruct (Z.eqb_spec 0 n) as [E|_]; [lia|].
  split; cbn [andb]; by rewrite andb_false_r.
Qed.

(** * On concrete data *)

Lemma template_matches_vector_witness :
  exists row data, compile_row [demo_pool] demo_route = Ret row /\
    pw_hops row = [(1, 0, 1, 10); (1, 1, 0, 10)] /\ pack_ix (pw_hops row) TINY_IN MIN_PROFIT = Ret data.
Proof.
  destruct demo_route_built as (keys & data & sems & Hb).
  destruct (template_matches_vector demo_rpc ∅ demo_wallet [demo_pool] demo_route keys data sems Hb) as (row & ix & H1 & _ & H2 & _).
  - vm_compute protos_of. repeat constructor; set_solver.
  - vm_compute. reflexivity.
  - vm_compute. lia.
  - exists row, data. split; [exact H1|]. split; [|exact H2].
    assert (E : (row <-! compile_row [demo_pool] demo_route ;; Ret (pw_hops row)) = Ret [(1, 0, 1, 10); (1, 1, 0, 10)])
      by (vm_compute; reflexivity).
    rewrite H1 in E. by injection E.
Defined.

(** A plane with one ready row, published on a node where every account exists. *)
Definition demo_row (race : Z) : prow := PRow (VInt 7) 0 "dlmm-dlmm" 2 "" [] [] 1 0 0 None None race.

Lemma demo_published : publish_rows demo_rpc demo_wallet [(VInt 7, SizeRow true (Some 900))] true [demo_row 1] =
  Ret [PRow (VInt 7) 0 "dlmm-dlmm" 2 "" [] [] 1 1 1 (Some 1) (Some 1) 1].
Proof. vm_compute. reflexivity. Qed.

Lemma race_never_invented_witness :
  ready_before [demo_row 1] (PRow (VInt 7) 0 "dlmm-dlmm" 2 "" [] [] 1 1 1 (Some 1) (Some 1) 1).
Proof.
  apply (race_never_invented [demo_row 1] [PRow (VInt 7) 0 "dlmm-dlmm" 2 "" [] [] 1 1 1 (Some 1) (Some 1) 1]).
  - eapply rtc_l; [|apply rtc_refl]. eapply StepPublish. exact demo_published.
  - by left.
Defined.

Lemma audit_never_complete_witness :
  exists rows, recompile [demo_pool] [demo_route] [] = Ret rows /\ length rows = 1%nat /\
    audit_complete [demo_route] (published rows) = false.
Proof.
  destruct (recompile [demo_pool] [demo_route] []) as [rows|e] eqn:E; [|vm_compute in E; discriminate E].
  exists rows. split; [reflexivity|]. split.
  - assert (El : (rows <-! recompile [demo_pool] [demo_route] [] ;; Ret (length rows)) = Ret 1%nat) by (vm_compute; reflexivity).
    rewrite E in El. by injection El.
  - apply (audit_never_complete rows). eapply rtc_l; [|apply rtc_refl]. eapply StepCompile. exact E.
Defined.
