(* ===== verification/HopsCheck.v ===== *)
(** The check of a route's account vector before it is sent: validate_vector of
    arb-exec/scripts/hops_live.py, with the account fetch it reads the chain by.

    The vector is compared with the chain (programs, mints and owners of the token accounts) and
    with the hops the derivation gave; each difference is a record (HopsVector's vfail).  The
    node's answers and the cache of Pump pool data are parameters, as in HopsRoute. *)
From stdpp Require Import base list strings gmap pretty.
From Stdlib Require Import ZArith Lia.
From S2P Require Import Prelude PyBytes Base58 Submap Accounts Deps PyVal ExecTemplate AltPlane Recorder HopsVector HopsGolden HopsProgram HopsRoute.
Open Scope Z_scope.
Open Scope py_scope.

Definition BPF_LOADERS : list string := [
  "BPFLoaderUpgradeab1e11111111111111111111111";
  "BPFLoader21111111111111111111111111111111111"]%string.

Notation infos := (list (string * option rpc_row)).

(** [infos.get(pk)] *)
Definition info_of (inf : infos) (pk : string) : option rpc_row := default None (od_get inf pk).
Definition owner_of (inf : infos) (pk : string) : option string := rw_owner <$> info_of inf pk.

Definition tok_mint_owner (info : option rpc_row) : option string * option string :=
  match info with
  | None => (None, None)
  | Some row =>
      if blen (rw_data row) <? 64 then (None, None)
      else (Some (b58encode (slice 0 32 (rw_data row))), Some (b58encode (slice 32 64 (rw_data row))))
  end.

(** [str(e)] of what route_mints raises. *)
Definition exn_text (e : pyexn) : string :=
  match e with
  | RuntimeError m | ValueError m => m
  | IndexError => "list index out of range"
  | TypeError => "int() argument must be a string, a bytes-like object or a real number, not 'NoneType'"
  | _ => ""
  end.

(** [f"{a}/{b}"] *)
Definition mint_pair (a b : string) : string := (a ++ "/" ++ b)%string.

(** The token account [pk] holds [mint] under the token program [tok] and belongs to [own]. *)
Definition tok_differs (inf : infos) (pk tok mint : string) : bool :=
  negb (bool_decide (owner_of inf pk = Some tok)) ||
  negb (bool_decide ((tok_mint_owner (info_of inf pk)).1 = Some mint)).

Section check.
Context (rpc : list string -> rpc_config -> pyres rpc_reply) (cache : gmap string pump_fields) (wallet : string).

(** One request per 80 keys. *)
Definition fetch_chunk (out : infos) (chunk : list string) : pyres infos :=
  rows <-! Deps.get_multiple rpc chunk None None ;;
  Ret (foldl (fun o kr => od_set o kr.1 kr.2) out (zip chunk rows)).
Definition fetch_accs (pks : list string) : pyres infos :=
  let uniq := filter (fun p => p <> ""%string) (fromkeys pks) in
  py_foldl fetch_chunk [] (chunks (length uniq) 80 uniq).

Section vector.
Context (rid : pyval) (inf : infos).

Definition check_shared (keys : list string) : list vfail :=
  (if String.eqb (acc_at keys 0) wallet then []
   else [VFail rid 0 "authority" [("expected", VStr wallet); ("got", VStr (acc_at keys 0))]]) ++
  (if String.eqb (acc_at keys 4) TOKENKEG then []
   else [VFail rid 0 "tokenkeg" [("expected", VStr TOKENKEG); ("got", VStr (acc_at keys 4))]]) ++
  (if String.eqb (acc_at keys 5) TOKEN2022 then []
   else [VFail rid 0 "token2022" [("expected", VStr TOKEN2022); ("got", VStr (acc_at keys 5))]]) ++
  (if String.eqb (acc_at keys 7) ExecTemplate.DLMM then []
   else [VFail rid 0 "dlmm_prog" [("expected", VStr ExecTemplate.DLMM); ("got", VStr (acc_at keys 7))]]) ++
  (if bool_decide (owner_of inf (acc_at keys 7) ∈ Some <$> BPF_LOADERS) then []
   else [VFail rid 0 "dlmm_prog" [("expected_program", VStr "BPFLoader");
           ("got_program", opt_val (owner_of inf (acc_at keys 7))); ("got", VStr (acc_at keys 7))]]).

(** The wallet's token account [ata] in the place [ui]. *)
Definition check_user (ui : nat) (mint ata : string) : pyres (list vfail) :=
  if String.eqb mint "" || String.eqb ata "" then Ret [] else
  want <-! mint_tok rpc mint ;;
  let role := ("user" ++ pretty ui)%string in
  let '(got_mint, got_own) := tok_mint_owner (info_of inf ata) in
  Ret ((if bool_decide (owner_of inf ata = Some want) then []
        else [VFail rid 0 role [("expected_program", VStr want); ("got_program", opt_val (owner_of inf ata));
                ("expected_mint", VStr mint); ("got", VStr ata)]]) ++
       (if bool_decide (got_mint = Some mint) then []
        else [VFail rid 0 role [("expected_mint", VStr mint); ("got_mint", opt_val got_mint); ("got", VStr ata)]]) ++
       (if bool_decide (got_own = Some wallet) then []
        else [VFail rid 0 role [("expected_owner", VStr wallet); ("got_owner", opt_val got_own); ("got", VStr ata)]])).

Definition check_users (keys mints : list string) : pyres (list vfail) :=
  collect_all (fun um => check_user um.1 um.2 (acc_at keys (1 + um.1))) (imap pair (take 3 mints)).

Definition check_vault (hi : Z) (hop : list string) (rim : string * nat * string) : pyres (list vfail) :=
  let '(role, idx, mint) := rim in
  let key := acc_at hop idx in
  tok <-! mint_tok rpc mint ;;
  Ret (if tok_differs inf key tok mint
       then [VFail rid hi role [("expected_mint", VStr mint); ("got_mint", opt_val (tok_mint_owner (info_of inf key)).1);
               ("expected_program", VStr tok); ("got_program", opt_val (owner_of inf key))]]
       else []).

Definition check_dlmm (hi : Z) (pair mx my : string) (hop : list string) : pyres (list vfail) :=
  let own := owner_of inf (acc_at hop 0) in
  vaults <-! collect_all (check_vault hi hop) [("vault_x"%string, 2%nat, mx); ("vault_y"%string, 3%nat, my)] ;;
  Ret ((if negb (String.eqb (acc_at hop 0) pair) || negb (bool_decide (own = Some ExecTemplate.DLMM))
        then [VFail rid hi "lb_pair" [("expected", VStr pair); ("got", VStr (acc_at hop 0));
                ("expected_program", VStr ExecTemplate.DLMM); ("got_program", opt_val own)]] else []) ++
       (if negb (String.eqb (acc_at hop 6) mx) || negb (String.eqb (acc_at hop 7) my)
        then [VFail rid hi "dlmm_mints" [("expected_mint", VStr (mint_pair (mx) (my)));
                ("got_mint", VStr (mint_pair (acc_at hop 6) (acc_at hop 7)))]] else []) ++ vaults).

Definition check_pump_user (hi : Z) (hop : list string) (rim : string * nat * string) : pyres (list vfail) :=
  let '(role, idx, mint) := rim in
  let key := acc_at hop idx in
  let go := (tok_mint_owner (info_of inf key)).2 in
  tok <-! mint_tok rpc mint ;;
  Ret (if tok_differs inf key tok mint || negb (bool_decide (go = Some wallet))
       then [VFail rid hi role [("expected_mint", VStr mint); ("got_mint", opt_val (tok_mint_owner (info_of inf key)).1);
               ("expected_program", VStr tok); ("got_program", opt_val (owner_of inf key));
               ("expected_owner", VStr wallet); ("got_owner", opt_val go)]]
       else []).

Definition check_pump (hi : Z) (pair mx my token : string) (hop : list string) : pyres (list vfail) :=
  let own := owner_of inf (acc_at hop 0) in
  users <-! collect_all (check_pump_user hi hop) [("user_base"%string, 5%nat, token); ("user_quote"%string, 6%nat, SOL)] ;;
  tx <-! mint_tok rpc mx ;;
  ty <-! mint_tok rpc my ;;
  Ret ((if negb (String.eqb (acc_at hop 0) pair) || negb (bool_decide (own = Some ExecTemplate.PUMP))
        then [VFail rid hi "pool" [("expected", VStr pair); ("got", VStr (acc_at hop 0));
                ("expected_program", VStr ExecTemplate.PUMP); ("got_program", opt_val own)]] else []) ++
       (if String.eqb (acc_at hop 16) ExecTemplate.PUMP then []
        else [VFail rid hi "pump_prog" [("expected_program", VStr ExecTemplate.PUMP); ("got_program", VStr (acc_at hop 16))]]) ++
       (if negb (String.eqb (acc_at hop 3) mx) || negb (String.eqb (acc_at hop 4) my)
        then [VFail rid hi "pump_mints" [("expected_mint", VStr (mint_pair (mx) (my)));
                ("got_mint", VStr (mint_pair (acc_at hop 3) (acc_at hop 4)))]] else []) ++ users ++
       (if negb (String.eqb (acc_at hop 11) tx) || negb (String.eqb (acc_at hop 12) ty)
        then [VFail rid hi "pump_token_program" [("expected_program", VStr (mint_pair (tx) (ty)));
                ("got_program", VStr (mint_pair (acc_at hop 11) (acc_at hop 12)))]] else [])).
End vector.

(** The derived hop: the one given, or derived anew. *)
Definition derive_sem (sems : list hop_sem) (hi : nat) (proto pair incoming outgoing : string) : pyres hop_sem :=
  match sems !! hi with
  | Some s => Ret s
  | None =>
      if String.eqb proto "dlmm" then
        meta <-! _dlmm_meta rpc pair ;;
        h <-! derive_dlmm_hop rpc pair (Some meta) ;;
        Ret (HopDlmm h)
      else
        let token := if String.eqb incoming SOL then outgoing else incoming in
        user_base <-! ata_of rpc wallet token ;;
        user_quote <-! ata_of rpc wallet SOL ;;
        meta <-! _pump_meta rpc cache pair ;;
        h <-! derive_pump_hop rpc pair (buys proto incoming) wallet user_base user_quote (Some meta) ;;
        Ret (HopPump h)
  end.

(** A hop of the other venue has none of the attributes read. *)
Definition compare_hop (proto : string) (sem : hop_sem) (hop : list string) (rid : pyval) (hi : Z) (seq : string)
    : pyres (list vfail) :=
  match sem with
  | HopDlmm h => if String.eqb proto "dlmm" then Ret (validate_dlmm_keys hop h rid hi seq) else Raise AttributeError
  | HopPump h => if String.eqb proto "dlmm" then Raise AttributeError else Ret (validate_pump_keys hop h wallet rid hi seq)
  end.

(** The loop over the hops; a hop that is cut short ends it. *)
Fixpoint check_hops (pools : list hpool) (r : hroute) (inf : infos) (mints keys : list string) (sems : list hop_sem)
    (off : nat) (hops : list (nat * string)) : pyres (list vfail) :=
  match hops with
  | [] => Ret []
  | (hi, proto) :: hops' =>
      p <-! pool_at pools r hi ;;
      let pair := hp_pubkey p in
      incoming <-! at_index mints (Z.of_nat hi) ;;
      outgoing <-! at_index mints (Z.of_nat hi + 1) ;;
      let nacc := Z.to_nat (n_accs proto (buys proto incoming)) in
      let hop := take nacc (drop off keys) in
      if negb (length hop =? nacc)%nat
      then Ret [VFail (hr_id r) (Z.of_nat hi) "hop_len"
                  [("expected", VInt (Z.of_nat nacc)); ("got", VInt (Z.of_nat (length hop)))]]
      else
        here <-! (if String.eqb proto "dlmm" then check_dlmm (hr_id r) inf (Z.of_nat hi) pair (mx_of p) (my_of p) hop
                  else check_pump (hr_id r) inf (Z.of_nat hi) pair (mx_of p) (my_of p)
                         (if String.eqb incoming SOL then outgoing else incoming) hop) ;;
        sem <-! derive_sem sems hi proto pair incoming outgoing ;;
        cmp <-! compare_hop proto sem hop (hr_id r) (Z.of_nat hi) (hr_seq r) ;;
        rest <-! check_hops pools r inf mints keys sems (off + nacc) hops' ;;
        Ret (here ++ cmp ++ rest)
  end.

Definition validate_vector (pools : list hpool) (r : hroute) (keys : list string) (sems : list hop_sem) : pyres (list vfail) :=
  match route_mints pools r with
  | Raise e => Ret [VFail (hr_id r) 0 "mints" [("detail", VStr (exn_text e))]]
  | Ret mints =>
      if (length keys <? 9)%nat
      then Ret [VFail (hr_id r) 0 "shared" [("detail", VStr ("n_acc=" ++ pretty (Z.of_nat (length keys)))%string)]]
      else
        inf <-! fetch_accs (keys ++ mints) ;;
        users <-! check_users (hr_id r) inf keys mints ;;
        hops <-! check_hops pools r inf mints keys sems 9 (imap pair (protos_of r)) ;;
        Ret (check_shared (hr_id r) inf keys ++ users ++ hops)
  end.
End check.

(** * What is reported *)

Section faults.
Context (rpc : list string -> rpc_config -> pyres rpc_reply) (cache : gmap string pump_fields) (wallet : string).
Context (pools : list hpool) (r : hroute) (mints users : list string).

(** The compared hop differs from the derived one: a record of this hop. *)
Lemma compare_hop_reports proto sem hop rid hi seq fails :
  length hop = length (hop_keys wallet sem) -> compare_hop wallet proto sem hop rid hi seq = Ret fails ->
  hop = hop_keys wallet sem \/ exists f, f ∈ fails /\ vf_hop f = hi.
Proof.
  intros Hl. destruct sem as [h|h]; cbn [compare_hop hop_keys] in *; destruct (String.eqb proto "dlmm"); try done; intros [= <-].
  - destruct (validate_pump_keys hop h wallet rid hi seq) as [|f l] eqn:E; [left; by apply (validate_pump_nil hop h wallet rid hi seq Hl)|].
    right. exists f. split; [by left|]. assert (Hf : f ∈ f :: l) by by left. rewrite <- E in Hf.
    by apply compare_keys_elem in Hf as (i & role & got & exp & _ & _ & _ & _ & ->).
  - destruct (validate_dlmm_keys hop h rid hi seq) as [|f l] eqn:E; [left; by apply (validate_dlmm_nil hop h rid hi seq Hl)|].
    right. exists f. split; [by left|]. assert (Hf : f ∈ f :: l) by by left. rewrite <- E in Hf.
    by apply compare_keys_elem in Hf as (i & role & got & exp & _ & _ & _ & _ & ->).
Qed.

Lemma build_hop_accounts hi proto h :
  build_hop rpc cache wallet pools r mints users (hi, proto) = Ret h ->
  h.1.1 = hop_keys wallet h.1.2 /\
  exists incoming, at_index mints (Z.of_nat hi) = Ret incoming /\ Z.of_nat (length h.1.1) = n_accs proto (buys proto incoming).
Proof.
  unfold build_hop. intros H. apply py_bind_Ret in H as (p & _ & H). apply py_bind_Ret in H as (inc & Hi & H).
  apply py_bind_Ret in H as (out & _ & H). apply py_bind_Ret in H as (ina & _ & H). apply py_bind_Ret in H as (outa & _ & H).
  cbv zeta in H. apply py_bind_Ret in H as (sem & _ & H). destruct (Z.eqb_spec (Z.of_nat (length (hop_keys wallet sem))) (n_accs proto (buys proto inc))) as [Hn|]; [|done].
  cbn [negb] in H. injection H as <-. cbn [fst snd]. split; [done|]. by exists inc.
Qed.

(** From the offset on the keys are the hops', or a hop is reported. *)
Lemma check_hops_reports inf keys sems l : forall bs off fails,
  py_map (build_hop rpc cache wallet pools r mints users) l = Ret bs ->
  (forall j hp b, l !! j = Some hp -> bs !! j = Some b -> sems !! hp.1 = Some b.1.2) ->
  check_hops rpc cache wallet pools r inf mints keys sems off l = Ret fails ->
  (exists rest, drop off keys = concat ((fun b => b.1.1) <$> bs) ++ rest) \/
  (exists f hp, f ∈ fails /\ hp ∈ l /\ vf_hop f = Z.of_nat hp.1).
Proof.
  induction l as [|[hi proto] l IH]; intros bs off fails; cbn [py_map check_hops].
  { intros [= <-] _ _. left. by eexists. }
  intros H Hs Hc. apply py_bind_Ret in H as (b & Hb & H). apply py_bind_Ret in H as (bs' & Hbs & [= <-]).
  apply py_bind_Ret in Hc as (p & _ & Hc). apply py_bind_Ret in Hc as (inc & Hi & Hc). apply py_bind_Ret in Hc as (out & _ & Hc).
  destruct (build_hop_accounts _ _ _ Hb) as (Ha & inc' & Hi' & Hn). rewrite Hi in Hi'. injection Hi' as <-.
  cbv zeta in Hc. rewrite <- Hn, Nat2Z.id in Hc. set (hop := take (length b.1.1) (drop off keys)) in *.
  destruct (Nat.eqb_spec (length hop) (length b.1.1)) as [Hl|Hl]; cbn [negb] in Hc.
  2: { injection Hc as <-. right. eexists _, (hi, proto). split; [by left|]. split; [by left|done]. }
  apply py_bind_Ret in Hc as (here & _ & Hc). apply py_bind_Ret in Hc as (sem & Hsem & Hc).
  apply py_bind_Ret in Hc as (cmp & Hcmp & Hc). apply py_bind_Ret in Hc as (rest & Hrest & [= <-]).
  unfold derive_sem in Hsem. rewrite (Hs 0%nat (hi, proto) b eq_refl eq_refl : sems !! hi = Some b.1.2) in Hsem. injection Hsem as <-.
  apply compare_hop_reports in Hcmp as [Hhop|(f & Hf & Hfh)]; [| |by rewrite Hl, Ha].
  2: { right. exists f, (hi, proto). split; [apply elem_of_app; right; apply elem_of_app; by left|]. split; [by left|done]. }
  destruct (IH bs' (off + length b.1.1)%nat rest Hbs) as [(tl & Ht)|(f & hp & Hf & Hp & Hh)]; [| exact Hrest | |].
  - intros j hp b' Hj Hbj. exact (Hs (S j) hp b' Hj Hbj).
  - left. exists tl. rewrite fmap_cons. cbn [concat]. rewrite <- app_assoc, <- Ht.
    rewrite <- (take_drop (length b.1.1) (drop off keys)) at 1. rewrite drop_drop. f_equal. fold hop. by rewrite Hhop.
  - right. exists f, hp. split; [apply elem_of_app; right; apply elem_of_app; by right|]. split; [by right|done].
Qed.
End faults.

(** The token account [ata] holds the wallet's [mint]. *)
Definition account_right (rpc : list string -> rpc_config -> pyres rpc_reply) (wallet : string) (inf : infos)
    (mint ata : string) : Prop :=
  exists row, info_of inf ata = Some row /\ mint_tok rpc mint = Ret (rw_owner row) /\ 64 <= blen (rw_data row) /\
    b58encode (slice 0 32 (rw_data row)) = mint /\ b58encode (slice 32 64 (rw_data row)) = wallet.

Lemma check_user_reports rpc wallet rid inf ui mint ata fails :
  mint <> ""%string -> ata <> ""%string -> check_user rpc wallet rid inf ui mint ata = Ret fails ->
  account_right rpc wallet inf mint ata \/
  exists f, f ∈ fails /\ vf_hop f = 0 /\ vf_role f = ("user" ++ pretty ui)%string.
Proof.
  intros Hm Ha. unfold check_user. destruct (String.eqb_spec mint ""); [done|]. destruct (String.eqb_spec ata ""); [done|].
  cbn [orb]. intros H. apply py_bind_Ret in H as (want & Hw & H). destruct (tok_mint_owner (info_of inf ata)) as [gm go] eqn:Et.
  injection H as <-.
  case_bool_decide as H1; [|right; eexists; split; [by left|done]].
  case_bool_decide as H2; [|right; eexists; split; [by left|done]].
  case_bool_decide as H3; [|right; eexists; split; [by left|done]].
  left. unfold owner_of in H1. unfold tok_mint_owner in Et. destruct (info_of inf ata) as [row|] eqn:Ei; [|by injection Et as <- <-].
  cbn in H1. injection H1 as <-. destruct (Z.ltb_spec (blen (rw_data row)) 64); [by injection Et as <- <-|].
  injection Et as <- <-. injection H2 as H2. injection H3 as H3. by exists row.
Qed.

(** C35. What is wrong with a vector is reported: of a vector that reads its first nine keys, either the
    keys behind them begin with the accounts that were derived for the route, hop after hop, or a
    hop of the route is reported; and each of the first three tokens has the wallet's token account
    in its place on chain, or its place is reported. *)
Theorem vector_faults_reported rpc cache wallet pools r mints keys0 data sems keys fails :
  build_route_accounts rpc cache wallet pools r = Ret (keys0, data, sems) ->
  route_mints pools r = Ret mints -> (9 <= length keys)%nat ->
  validate_vector rpc cache wallet pools r keys sems = Ret fails ->
  ((exists rest, drop 9 keys = drop 9 keys0 ++ rest) \/
   (exists f i, f ∈ fails /\ vf_hop f = Z.of_nat i /\ (i < length sems)%nat)) /\
  exists inf, fetch_accs rpc (keys ++ mints) = Ret inf /\
    forall ui m, take 3 mints !! ui = Some m -> m <> ""%string -> acc_at keys (1 + ui) <> ""%string ->
      account_right rpc wallet inf m (acc_at keys (1 + ui)) \/
      exists f, f ∈ fails /\ vf_hop f = 0 /\ vf_role f = ("user" ++ pretty ui)%string.
Proof.
  intros H Hm Hk Hv. unfold validate_vector in Hv. rewrite Hm in Hv. destruct (Nat.ltb_spec (length keys) 9); [lia|].
  apply py_bind_Ret in Hv as (inf & Hinf & Hv). apply py_bind_Ret in Hv as (us & Hus & Hv).
  apply py_bind_Ret in Hv as (hs & Hhs & [= <-]).
  destruct (build_route_parts rpc cache wallet pools r mints Hm keys0 data sems H)
    as (users & event & shared & bs & _ & _ & Hsh & Hbs & _ & -> & ->). clear H.
  pose proof (py_map_length _ _ _ Hbs) as Hlen. rewrite length_imap in Hlen.
  assert (Hin : forall hp, hp ∈ imap pair (protos_of r) -> (hp.1 < length (protos_of r))%nat).
  { intros hp Hhp. apply list_elem_of_lookup in Hhp as [j Hj]. rewrite list_lookup_imap in Hj.
    destruct (protos_of r !! j) eqn:E; [|done]. injection Hj as <-. by apply lookup_lt_Some in E. }
  split.
  - apply check_hops_reports with (bs := bs) (users := users) in Hhs as [(rest & Hrest)|(f & hp & Hf & Hhp & Hh)]; [| |exact Hbs|].
    + left. exists rest. rewrite Hrest. f_equal. by rewrite drop_app_length' by (by rewrite (shared_keys_length _ _ _ _ Hsh)).
    + right. exists f, hp.1. split; [apply elem_of_app; right; apply elem_of_app; by right|]. split; [done|].
      rewrite length_fmap, Hlen. by apply Hin.
    + intros j hp b Hj Hb. rewrite list_lookup_imap in Hj. destruct (protos_of r !! j) eqn:E; [|done]. injection Hj as <-.
      rewrite list_lookup_fmap. cbn [fst]. by rewrite Hb.
  - exists inf. split; [exact Hinf|]. intros ui m Hui Hne Ha.
    assert (Hel : (ui, m) ∈ imap pair (take 3 mints)).
    { apply list_elem_of_lookup. exists ui. by rewrite list_lookup_imap, Hui. }
    destruct (collect_all_ret _ _ _ _ Hus Hel) as [fs Hfs]. cbn [fst snd] in Hfs.
    destruct (check_user_reports _ _ _ _ _ _ _ _ Hne Ha Hfs) as [|(f & Hf & Hh & Hr)]; [by left|]. right. exists f.
    split; [|done]. apply elem_of_app. right. apply elem_of_app. left. apply (collect_all_iff _ _ _ _ Hus). by exists (ui, m), fs.
Qed.

Lemma vector_faults_reported_witness :
  exists keys0 data sems fails,
    build_route_accounts demo_rpc ∅ demo_wallet [demo_pool] demo_route = Ret (keys0, data, sems) /\
    validate_vector demo_rpc ∅ demo_wallet [demo_pool] demo_route (replicate 9 "k"%string) sems = Ret fails /\
    exists f, f ∈ fails /\ vf_role f = "user1"%string.
Proof.
  destruct demo_route_built as (keys0 & data & sems & Hb). exists keys0, data, sems.
  assert (Hv : exists fails, validate_vector demo_rpc ∅ demo_wallet [demo_pool] demo_route (replicate 9 "k"%string) sems = Ret fails).
  { eexists. vm_compute. reflexivity. }
  destruct Hv as [fails Hv]. exists fails. split; [exact Hb|]. split; [exact Hv|].
  assert (Hk : (9 <= length (replicate 9 "k"%string))%nat) by (cbn; lia).
  pose proof (vector_faults_reported demo_rpc ∅ demo_wallet [demo_pool] demo_route [SOL; demo_zero; SOL] keys0 data sems
    (replicate 9 "k"%string) fails Hb demo_route_mints Hk Hv) as HH.
  destruct HH as (_ & inf & Hinf & Hu).
  assert (N1 : demo_zero <> ""%string) by (vm_compute; discriminate).
  assert (N2 : acc_at (replicate 9 "k"%string) 2 <> ""%string) by (vm_compute; discriminate).
  destruct (Hu 1%nat demo_zero eq_refl N1 N2) as [(row & Hrow & _)|(f & Hf & _ & Hr)]; [|exists f; split; [exact Hf|exact Hr]].
  assert (E : (i <-! fetch_accs demo_rpc (replicate 9 "k"%string ++ [SOL; demo_zero; SOL]) ;; Ret (info_of i "k"%string)) = Ret None)
    by (vm_compute; reflexivity).
  rewrite Hinf in E. cbn [py_bind] in E. injection E as E. unfold acc_at in Hrow. cbn [replicate nth plus] in Hrow. congruence.
Defined.
