(* ===== verification/HopsMessage.v ===== *)
(** The transaction of an ARBHOPS0 route and its economics: arb-exec/scripts/hops_message.py, and the
    hurdles hops_live.py writes for the C side.

    compile_message is modelled to the instructions it hands to the message compiler, which is a
    library: the account metas with their flags.  net_economics takes lamports as any Python value
    and refuses what is not an integer.  Bytes of the message, the hash and the signature are outside. *)
From stdpp Require Import base list strings.
From Stdlib Require Import ZArith Lia.
From S2P Require Import Prelude PyBytes PyVal ExecTemplate AltPlane HopsVector HopsProgram HopsRoute.
Open Scope Z_scope.
Open Scope py_scope.

(** * Account metas *)

(** [i in (0, 1, 2, 3) or i >= 9] *)
Definition tx_writable (i : nat) : bool := bool_decide (i ∈ [0; 1; 2; 3]%nat) || (9 <=? i)%nat.

(** Each key with its signer and writable flags. *)
Definition route_metas (keys : list string) : list (string * bool * bool) :=
  imap (fun i k => (k, (i =? 0)%nat, tx_writable i)) keys.

Definition check_message (payer : string) (keys : list string) (data : bytes) : pyres (list (string * bool * bool)) :=
  match keys with
  | k :: _ =>
      if negb (String.eqb k payer) then Raise (ValueError "First route account must be the payer") else
      if negb (length data =? 40)%nat || negb (bool_decide (take 8 data = DISC)) then Raise (ValueError "Invalid ARBHOPS0 payload")
      else Ret (route_metas keys)
  | [] => Raise (ValueError "First route account must be the payer")
  end.

(** * Lamports *)

Record economics := Economics {
  success_cost : Z; charged_failure_cost : Z; ec_fixed_cost : Z;
  conditional_success_net : option Z; expected_net : option Z; break_even_gross : option Z;
  probabilities_measured : bool }.

(** [type(x) is int] *)
Definition int_of (v : pyval) : option Z := match v with VInt z => Some z | _ => None end.
Definition lamports (v : pyval) : pyres Z :=
  match int_of v with
  | Some z => if z <? 0 then Raise (ValueError "Costs must be nonnegative integer lamports") else Ret z
  | None => Raise (ValueError "Costs must be nonnegative integer lamports")
  end.
Definition gross_of (v : pyval) : pyres (option Z) :=
  match v with
  | VNone => Ret None
  | VInt z => Ret (Some z)
  | _ => Raise (ValueError "Gross must be integer lamports or unknown")
  end.

Definition outcome_bps (s f : pyval) : pyres (Z * Z) :=
  match int_of s, int_of f with
  | Some s, Some f =>
      if (0 <=? s) && (s <=? 10000) && (0 <=? f) && (f <=? 10000) && (s + f <=? 10000) then Ret (s, f)
      else Raise (ValueError "Invalid mutually exclusive outcome probabilities")
  | _, _ => Raise (ValueError "Invalid mutually exclusive outcome probabilities")
  end.

Definition net_economics (gross success_fee failed_fee success_tip failed_tip fixed_cost success_bps failure_bps : pyval)
    : pyres economics :=
  sf <-! lamports success_fee ;;
  ff <-! lamports failed_fee ;;
  st <-! lamports success_tip ;;
  ft <-! lamports failed_tip ;;
  fx <-! lamports fixed_cost ;;
  g <-! gross_of gross ;;
  let net := (fun g => g - sf - st - fx) <$> g in
  let bare := Economics (sf + st) (ff + ft) fx net None None false in
  match success_bps, failure_bps with
  | VNone, _ | _, VNone => Ret bare
  | _, _ =>
      b <-! outcome_bps success_bps failure_bps ;;
      let '(s, f) := b in
      let cost := s * (sf + st) + f * (ff + ft) + 10000 * fx in
      Ret (Economics (sf + st) (ff + ft) fx net
        ((fun g => (s * g - cost) / 10000) <$> g)
        (if s =? 0 then None else Some ((cost + s - 1) / s)) false)
  end.

(** * Hurdles *)

Definition HOPS_CU_PRICE : Z := 1000000.
Definition SIG : Z := 5000.
Definition SWQOS : Z := 150000.
Definition HOPS_SAFETY : Z := 50000.
Definition SEQS : list string := [
  "dlmm-dlmm"; "dlmm-pump"; "pump-dlmm"; "pump-pump"; "dlmm-dlmm-dlmm"; "dlmm-dlmm-pump"; "pump-dlmm-dlmm"]%string.

(** A simulated sequence: its units, and whether it ended in Custom(6). *)
Record sim_row := SimRow { sr_seq : string; sr_ok : bool; sr_cu : Z }.
Record hops_hurdle := Hurdle {
  hu_seq : string; hu_cu : option Z; hu_cu_limit : Z; hu_onchain_fee : Z; hu_min_gross : Z; hu_custom6 : bool }.

(** [{r["seq"]: r for r in rows if r.get("ok") and r.get("cu")}] *)
Definition by_seq (rows : list sim_row) : list (string * sim_row) :=
  foldl (fun d r => od_set d (sr_seq r) r) [] (filter (fun r => sr_ok r && negb (sr_cu r =? 0) = true) rows).

(** [int(cu * 12 / 10)]; units are far below the 2^53 a float holds exactly. *)
Definition cu_limit (cu : option Z) : Z := match cu with Some c => c * 12 / 10 | None => 200000 end.
Definition min_gross (lim : Z) : Z := SIG + lim * HOPS_CU_PRICE / 1000000 + SWQOS + HOPS_SAFETY.

Definition hurdle_of (by_ : list (string * sim_row)) (seq : string) : hops_hurdle :=
  let r := od_get by_ seq in
  let cu := sr_cu <$> r in
  let lim := cu_limit cu in
  Hurdle seq cu lim (SIG + lim * HOPS_CU_PRICE / 1000000) (min_gross lim) (match r with Some x => sr_ok x | None => false end).
Definition hurdles (rows : list sim_row) : list hops_hurdle := hurdle_of (by_seq rows) <$> SEQS.

(** The header's hops_hurdle_for_seq: the lines written, then the default. *)
Fixpoint hops_hurdle_for_seq (hs : list hops_hurdle) (seq : string) : Z :=
  match hs with
  | [] => min_gross 200000
  | h :: hs' => if String.eqb seq (hu_seq h) then min_gross (hu_cu_limit h) else hops_hurdle_for_seq hs' seq
  end.

(** * The program stays within the transaction's privileges *)

Definition privileged (metas : list (string * bool * bool)) (c : call) : Prop :=
  forall k w s, (k, w, s) ∈ c_metas c ->
    (w = true -> exists s', (k, s', true) ∈ metas) /\ (s = true -> exists w', (k, true, w') ∈ metas).

Lemma route_meta_at keys i k : keys !! i = Some k -> (k, (i =? 0)%nat, tx_writable i) ∈ route_metas keys.
Proof.
  intros H. apply list_elem_of_lookup. exists i. unfold route_metas. by rewrite list_lookup_imap, H.
Qed.

Lemma acc_lookup keys i : (i < length keys)%nat -> keys !! i = Some (acc_at keys i).
Proof. intros H. unfold acc_at. by destruct (nth_lookup_or_length keys i ""%string); [|lia]. Qed.

Section privileges.
Context {B : Type} (balance : B -> string -> option Z) (invoke : B -> call -> option B) (keys : list string).

(** Account [k] may be passed with these flags. *)
Definition allowed (k : string) (w s : bool) : Prop :=
  (w = true -> exists s', (k, s', true) ∈ route_metas keys) /\ (s = true -> exists w', (k, true, w') ∈ route_metas keys).

Lemma allowed_read k : allowed k false false.
Proof. by split. Qed.

Lemma allowed_write i : (i < length keys)%nat -> tx_writable i = true -> allowed (acc_at keys i) true false.
Proof.
  intros Hi Hw. split; [|done]. intros _. exists (i =? 0)%nat. rewrite <- Hw. by apply route_meta_at, acc_lookup.
Qed.

Lemma allowed_sign : (0 < length keys)%nat -> allowed (acc_at keys 0) true true.
Proof.
  intros H0. pose proof (route_meta_at keys 0 _ (acc_lookup keys 0 H0)) as Hm. split; intros _; by eexists.
Qed.

Lemma allowed_hop off i w : (9 <= off)%nat -> (off + i < length keys)%nat -> allowed (acc_at keys (off + i)) w false.
Proof.
  intros Ho Hl. destruct w; [|apply allowed_read]. apply allowed_write; [done|]. unfold tx_writable.
  destruct (Nat.leb_spec 9 (off + i)); [by rewrite orb_true_r|lia].
Qed.

Lemma allowed_user i u w : (9 <= length keys)%nat -> user_ata keys i = Some u -> allowed u w false.
Proof.
  intros Hl. destruct w; [|intros _; apply allowed_read]. unfold user_ata.
  destruct (i =? 0); [intros [= <-]; by apply allowed_write; [lia|]|].
  destruct (i =? 1); [intros [= <-]; by apply allowed_write; [lia|]|].
  destruct (i =? 2); [intros [= <-]; by apply allowed_write; [lia|]|done].
Qed.

Lemma privileged_nil p d : privileged (route_metas keys) (Call p [] d).
Proof. intros k w s H. by apply elem_of_nil in H. Qed.

Lemma privileged_cons p k w s metas d :
  allowed k w s -> privileged (route_metas keys) (Call p metas d) -> privileged (route_metas keys) (Call p ((k, w, s) :: metas) d).
Proof. intros Ha Hm k' w' s' H. cbn [c_metas] in H. apply elem_of_cons in H as [[= -> -> ->]|H]; [done|by apply Hm]. Qed.

Lemma dlmm_privileged off amount uin uout b b' :
  (9 <= off)%nat -> allowed uin true false -> allowed uout true false -> (9 <= length keys)%nat ->
  cpi_dlmm invoke keys off amount uin uout b = Done b' ->
  exists c, invoke b c = Some b' /\ privileged (route_metas keys) c.
Proof.
  intros Ho Hin Hout Hl. unfold cpi_dlmm. destruct (Nat.ltb_spec (length keys) (off + 10)); [done|]. intros Hd.
  apply or_fail_done in Hd. eexists. split; [exact Hd|].
  repeat (apply privileged_cons; [first [exact Hin|exact Hout|apply allowed_sign; lia|apply allowed_hop; lia|apply allowed_read]|]).
  apply privileged_nil.
Qed.

Lemma pump_metas_privileged off n writable p d :
  (9 <= off)%nat -> (off + n <= length keys)%nat -> privileged (route_metas keys) (Call p (pump_metas keys off n writable) d).
Proof.
  intros Ho Hl k w s H. cbn [c_metas] in H. unfold pump_metas in H. apply list_elem_of_lookup in H as [i Hi].
  rewrite list_lookup_imap in Hi. destruct (take n (drop off keys) !! i) as [x|] eqn:E; [|done]. injection Hi as <- <- <-.
  assert (Hin : (i < n)%nat) by (apply lookup_lt_Some in E; rewrite length_take in E; lia).
  rewrite lookup_take_lt, lookup_drop in E by done.
  assert (Hx : x = acc_at keys (off + i)) by (rewrite acc_lookup in E by lia; by injection E).
  split.
  - intros _. rewrite Hx. by apply (allowed_hop off i true Ho); [lia|].
  - intros Hs. apply String.eqb_eq in Hs. rewrite Hs. by apply (allowed_sign ltac:(lia)).
Qed.

Lemma pump_privileged off n amount b b' :
  (9 <= off)%nat ->
  (if (n =? 26)%nat then cpi_pump_buy invoke keys off amount b
   else if (n =? 24)%nat then cpi_pump_sell invoke keys off amount b else Fail ERR_HOP) = Done b' ->
  exists c, invoke b c = Some b' /\ privileged (route_metas keys) c.
Proof.
  intros Ho. unfold cpi_pump_buy, cpi_pump_sell. destruct (n =? 26)%nat; [|destruct (n =? 24)%nat; [|done]].
  - destruct (Nat.ltb_spec (length keys) (off + 26)); [done|]. intros Hd. apply or_fail_done in Hd.
    eexists. split; [exact Hd|]. by apply pump_metas_privileged; [|lia].
  - destruct (Nat.ltb_spec (length keys) (off + 24)); [done|]. intros Hd. apply or_fail_done in Hd.
    eexists. split; [exact Hd|]. by apply pump_metas_privileged; [|lia].
Qed.

Lemma loop_privileged data left : forall i off amount b b',
  (9 <= off)%nat -> (9 <= length keys)%nat -> hop_loop balance invoke keys data left i off amount b = Done b' ->
  exists path, chained invoke b path /\ behind b path = b' /\ length path = left /\
    Forall (fun cb : call * B => privileged (route_metas keys) cb.1) path.
Proof.
  induction left as [|left IH]; intros i off amount b b' Ho Hl; cbn [hop_loop]; [intros [= <-]; by exists []|].
  cbv zeta. destruct (_ <? _)%nat; [done|]. intros H.
  apply then_done in H as (uin & Hin & H). apply then_done in H as (uout & Hout & H). apply or_fail_done in Hin, Hout.
  apply then_done in H as (before & _ & H). apply then_done in H as (b1 & Hc & H). apply then_done in H as (after & _ & H).
  destruct (_ =? 0); [done|].
  assert (Hcall : exists c, invoke b c = Some b1 /\ privileged (route_metas keys) c).
  { destruct (data_at data (25 + i * 3) =? 1).
    - destruct (negb _); [done|]. eapply dlmm_privileged; [exact Ho|exact (allowed_user _ _ _ Hl Hin)|exact (allowed_user _ _ _ Hl Hout)|exact Hl|exact Hc].
    - destruct (data_at data (25 + i * 3) =? 2); [|done]. exact (pump_privileged _ _ _ _ _ Ho Hc). }
  destruct Hcall as (c & Hcc & Hp). apply IH in H as (path & P1 & P2 & P3 & P4); [|lia|done].
  exists ((c, b1) :: path). split; [by split|]. split; [|split; [cbn; by rewrite P3|by constructor]].
  unfold behind in *. destruct path as [|x path]; [done|]. rewrite last_cons_cons.
  destruct (last (x :: path)) eqn:E; [exact P2|]. by apply last_None in E.
Qed.
End privileges.

(** C36. The flags suffice: a message that passes the compiler's checks gives every account the
    program writes as writable and every account it signs for as signer, so no call of a settling
    run asks for more than the transaction grants. *)
Theorem calls_within_privileges {B} (balance : B -> string -> option Z) (invoke : B -> call -> option B)
    payer keys data metas b b' :
  check_message payer keys data = Ret metas ->
  process balance invoke keys true data b = Done b' ->
  exists path, chained invoke b path /\ behind b path = b' /\ Z.of_nat (length path) = data_at data 8 /\
    Forall (fun cb : call * B => privileged metas cb.1) path.
Proof.
  unfold check_message. destruct keys as [|k keys]; [done|]. destruct (negb (String.eqb k payer)); [done|].
  destruct (_ || _); [done|]. intros [= <-]. unfold process. destruct (_ || _); [done|].
  destruct (Nat.ltb_spec (length (k :: keys)) 9); [done|]. cbn [negb].
  destruct (Z.ltb_spec (data_at data 8) 2); [done|]. destruct (Z.ltb_spec 3 (data_at data 8)); [done|]. cbn [orb].
  destruct (_ =? 0); [done|]. intros Hd. apply then_done in Hd as (q0 & _ & Hd). apply then_done in Hd as (b1 & Hl & Hd).
  apply then_done in Hd as (q1 & _ & Hd). destruct (_ || _); [done|]. injection Hd as <-.
  apply loop_privileged in Hl as (path & P1 & P2 & P3 & P4); [|lia|lia]. exists path.
  split; [exact P1|]. split; [exact P2|]. split; [|exact P4]. rewrite P3. lia.
Qed.

(** * Lamports *)

(** C37. Break-even is exact: with integer costs and a success probability above zero, the expected
    net of a gross is not negative from the reported break-even gross on and negative below it, and
    it is the exact expectation rounded down. *)
Theorem break_even_exact sf ff st ft fx s f :
  0 <= sf -> 0 <= ff -> 0 <= st -> 0 <= ft -> 0 <= fx -> 0 < s -> 0 <= f -> s + f <= 10000 ->
  exists be, forall g,
    exists e, net_economics (VInt g) (VInt sf) (VInt ff) (VInt st) (VInt ft) (VInt fx) (VInt s) (VInt f) = Ret e /\
      break_even_gross e = Some be /\
      exists net, expected_net e = Some net /\ (0 <= net <-> be <= g) /\
        10000 * net <= s * (g - sf - st) - f * (ff + ft) - 10000 * fx < 10000 * (net + 1).
Proof.
  intros H1 H2 H3 H4 H5 H6 H7 H8.
  set (cost := s * (sf + st) + f * (ff + ft) + 10000 * fx).
  exists ((cost + s - 1) / s). intros g. unfold net_economics, lamports. cbn [int_of].
  rewrite !(proj2 (Z.ltb_ge _ _)) by done. cbn [py_bind gross_of outcome_bps int_of].
  rewrite !(proj2 (Z.leb_le _ _)) by lia. cbn [andb py_bind]. destruct (Z.eqb_spec s 0); [lia|].
  eexists. split; [reflexivity|]. cbn [break_even_gross expected_net fmap option_fmap option_map]. split; [reflexivity|].
  fold cost. eexists. split; [reflexivity|].
  pose proof (Z.div_mod (s * g - cost) 10000 ltac:(lia)) as D1. pose proof (Z.mod_pos_bound (s * g - cost) 10000 ltac:(lia)) as M1.
  pose proof (Z.div_mod (cost + s - 1) s ltac:(lia)) as D2. pose proof (Z.mod_pos_bound (cost + s - 1) s ltac:(lia)) as M2.
  set (q := (s * g - cost) / 10000) in *. set (be := (cost + s - 1) / s) in *.
  split; [|unfold cost in *; lia]. split; intros H.
  - assert (cost <= s * g) by lia. assert (s * be < s * (g + 1)) by lia. apply Z.lt_succ_r. apply (Zmult_lt_reg_r _ _ s); lia.
  - assert (s * be <= s * g) by (apply Z.mul_le_mono_nonneg_l; lia). lia.
Qed.

(** * Hurdles *)

Lemma hurdle_found hs seq h :
  NoDup (hu_seq <$> hs) -> h ∈ hs -> hu_seq h = seq -> hops_hurdle_for_seq hs seq = min_gross (hu_cu_limit h).
Proof.
  induction hs as [|x hs IH]; [intros _ H; by apply elem_of_nil in H|]. rewrite fmap_cons. intros Hn Hin E.
  apply NoDup_cons in Hn as [Hx Hn]. cbn [hops_hurdle_for_seq]. apply elem_of_cons in Hin as [->|Hin].
  - by rewrite E, String.eqb_refl.
  - destruct (String.eqb_spec seq (hu_seq x)) as [E'|]; [|by apply IH]. exfalso. apply Hx. rewrite <- E', <- E.
    by apply list_elem_of_fmap_2.
Qed.

(** The header is the table: for each sequence the generated C function returns the least gross
    of that sequence's row, which pays fees and margins of a limit a fifth above the measured units. *)
Theorem hurdle_header_is_table rows h :
  h ∈ hurdles rows ->
  hops_hurdle_for_seq (hurdles rows) (hu_seq h) = hu_min_gross h /\
  hu_min_gross h = hu_onchain_fee h + SWQOS + HOPS_SAFETY /\
  forall cu, hu_cu h = Some cu -> 0 <= cu -> cu <= hu_cu_limit h /\ 5 * hu_cu_limit h <= 6 * cu < 5 * (hu_cu_limit h + 1).
Proof.
  intros H. split; [|split].
  - rewrite (hurdle_found _ (hu_seq h) h); [| |done|done].
    + unfold hurdles in H. by apply list_elem_of_fmap in H as (s & -> & _).
    + unfold hurdles. rewrite <- list_fmap_compose. replace ((hu_seq ∘ hurdle_of (by_seq rows)) <$> SEQS) with SEQS.
      * apply (bool_decide_unpack _). vm_compute. reflexivity.
      * reflexivity.
  - unfold hurdles in H. apply list_elem_of_fmap in H as (s & -> & _). reflexivity.
  - unfold hurdles in H. apply list_elem_of_fmap in H as (s & -> & _). unfold hurdle_of. cbn [hu_cu hu_cu_limit].
    intros cu -> Hcu. cbn [cu_limit]. pose proof (Z.div_mod (cu * 12) 10 ltac:(lia)). pose proof (Z.mod_pos_bound (cu * 12) 10 ltac:(lia)). lia.
Qed.

(** * On concrete data *)

Lemma calls_within_privileges_witness :
  check_message "k" demo_accs demo_data = Ret (route_metas demo_accs) /\
  exists path, chained demo_invoke 5 path /\ behind 5 path = 7 /\
    Forall (fun cb : call * Z => privileged (route_metas demo_accs) cb.1) path.
Proof.
  assert (Hc : check_message "k" demo_accs demo_data = Ret (route_metas demo_accs)) by (vm_compute; reflexivity).
  split; [exact Hc|].
  assert (H : process demo_balance demo_invoke demo_accs true demo_data 5 = Done 7) by (vm_compute; reflexivity).
  destruct (calls_within_privileges demo_balance demo_invoke "k" demo_accs demo_data (route_metas demo_accs) 5 7 Hc H)
    as (path & H1 & H2 & _ & H4).
  exists path. split; [exact H1|]. split; [exact H2|exact H4].
Defined.

Lemma break_even_exact_witness :
  exists be, forall g, exists e,
    net_economics (VInt g) (VInt 105000) (VInt 5000) (VInt 150000) (VInt 0) (VInt 0) (VInt 2500) (VInt 7000) = Ret e /\
    break_even_gross e = Some be.
Proof.
  destruct (break_even_exact 105000 5000 150000 0 0 2500 7000) as (be & H); try lia. exists be. intros g.
  destruct (H g) as (e & He & Hbe & _). exists e. split; [exact He|exact Hbe].
Defined.

Definition demo_sim : list sim_row := [SimRow "dlmm-dlmm" true 87236; SimRow "dlmm-pump" true 135673; SimRow "pump-dlmm" false 0].

Lemma hurdle_header_is_table_witness :
  hops_hurdle_for_seq (hurdles demo_sim) "dlmm-dlmm" = 309683.
Proof.
  assert (H : hurdle_of (by_seq demo_sim) "dlmm-dlmm" ∈ hurdles demo_sim) by (unfold hurdles; apply list_elem_of_fmap_2; by left).
  exact (proj1 (hurdle_header_is_table demo_sim _ H)).
Defined.
