(* ===== verification/RouteSnapshot.v ===== *)
(** The restricted quote of a route from one account response: arb-exec/scripts/route_snapshot.py.

    An account response is admitted only when every account the quote reads is what the route
    expects (owner, discriminator, topology, token extensions, bin arrays around the active one,
    no limit orders); then both directions are quoted with the research models of DlmmQuote, and
    what a simulation transferred is read back.  Account data comes as base64 text, whose decoding
    is an input ([None]: it raises); how a public key prints is the library's, a parameter. *)
From stdpp Require Import base list strings gmap.
From Stdlib Require Import ZArith Lia.
From S2P Require Import Prelude PyBytes Base58 Sha256 Pda PumpKernel PumpFee Accounts Inventory DlmmQuote PyVal ExecTemplate Recorder.
Open Scope Z_scope.
Open Scope py_scope.

Definition CLOCK : string := "SysvarC1ock11111111111111111111111111111111".
Definition TOKEN : string := "TokenkegQfeZyiNwAJbNbGKPFXCWuBvf9Ss623VQ5DA".
Definition TOKEN22 : string := "TokenzQdBNbLqP5VEhdkAS6EPFLC1PHnBqCXEpPxuEb".
Definition SYSVAR : string := "Sysvar1111111111111111111111111111111111111".

Record sacct := SAcct { sa_owner : string; sa_data : option bytes }.

(** [accounts[key]] *)
Definition account_at (accs : gmap string (option sacct)) (k : string) : pyres (option sacct) :=
  match accs !! k with Some a => Ret a | None => Raise (KeyError k) end.

Definition account_raw (a : option sacct) (owner : option string) : pyres bytes :=
  match a with
  | None => Raise (ValueError "missing_or_wrong_owner")
  | Some a =>
      if (match owner with Some o => negb (String.eqb (sa_owner a) o) | None => false end)
      then Raise (ValueError "missing_or_wrong_owner")
      else match sa_data a with Some d => Ret d | None => Raise (ValueError "base64") end
  end.

(** * Token accounts and mints *)

Definition token_base (mint : bool) : Z := if mint then 82 else 165.
(** MetadataPointer and TokenMetadata on a mint, ImmutableOwner on an account. *)
Definition allowed_ext (mint : bool) : list Z := if mint then [18; 19] else [7].

(** [any(data[offset:])] *)
Definition any_byte (l : bytes) : bool := existsb (fun b => negb (b =? 0)) l.

(** The loop over the extensions; [None]: the fuel is used up. *)
Fixpoint ext_loop (fuel : nat) (mint : bool) (data : bytes) (offset : Z) (types : list Z) : option (pyres (list Z)) :=
  match fuel with
  | O => None
  | S fuel' =>
      if negb ((offset <? blen data) && any_byte (drop (Z.to_nat offset) data)) then Some (Ret types) else
      if blen data <? offset + 4 then Some (Raise (ValueError "truncated_extension")) else
      let kind := le_dec (slice offset (offset + 2) data) in
      let len := le_dec (slice (offset + 2) (offset + 4) data) in
      let offset := offset + 4 in
      if negb (bool_decide (kind ∈ allowed_ext mint)) || bool_decide (kind ∈ types) || (blen data <? offset + len)
      then Some (Raise (ValueError "unsupported_or_malformed_extension")) else
      if (kind =? 7) && negb (len =? 0) then Some (Raise (ValueError "immutable_owner_length")) else
      ext_loop fuel' mint data (offset + len) (types ++ [kind])
  end.

(** One pass per byte is more than enough. *)
Definition ext_types (mint : bool) (data : bytes) : pyres (list Z) :=
  match ext_loop (S (length data)) mint data 166 [] with
  | Some r => r
  | None => Raise (RuntimeError "fuel")
  end.

Definition token_data (a : option sacct) (mint : bool) : pyres (bytes * list Z) :=
  data <-! account_raw a None ;;
  let owner := default ""%string (sa_owner <$> a) in
  let base := token_base mint in
  if negb (bool_decide (owner ∈ [TOKEN; TOKEN22])) || (blen data <? base) then Raise (ValueError "invalid_token_account") else
  state <-! py_index data (if mint then 45 else 108) ;;
  if negb (state =? 1) then Raise (ValueError "token_uninitialized_or_frozen") else
  if String.eqb owner TOKEN then
    if negb (blen data =? base) then Raise (ValueError "legacy_token_length") else Ret (data, [])
  else if blen data =? base then Ret (data, [])
  else if (blen data <? 166) || negb (bool_decide (data !! 165%nat = Some (if mint then 1 else 2))) ||
          (mint && any_byte (slice 82 165 data))
  then Raise (ValueError "invalid_extension_header") else
  types <-! ext_types mint data ;;
  Ret (data, types).

(** * The snapshot *)

Definition BINARR_DISC : bytes := [92; 142; 92; 220; 5; 148; 70; 181].

(** [hashlib.sha256(name).digest()[:8]] *)
Definition discriminator (name : string) : bytes := take 8 (sha256 (ascii_bytes name)).

Record snapshot_state := SnapshotState {
  ss_dp : dlmm; ss_pd : dlmm; ss_pump : pump; ss_fees : fee_state; ss_extensions : gmap string (list Z); ss_inventory : Z; ss_now : Z; ss_active : Z }.

Section admission.
Context (pk : bytes -> pyres string) (accs : gmap string (option sacct)).

(** The roles of the second hop's accounts, and the keys of the fixture's transaction. *)
Context (roles : gmap string string) (dk : list string).

Definition role_key (r : string) : pyres string :=
  match roles !! r with Some k => Ret k | None => Raise (KeyError r) end.

Definition snapshot_clock (slot : Z) : pyres Z :=
  a <-! account_at accs CLOCK ;;
  clock <-! account_raw a (Some SYSVAR) ;;
  if negb (blen clock =? 40) then Raise (ValueError "clock_context_mismatch") else
  s <-! unpack_u 8 clock 0 ;;
  if negb (s =? slot) then Raise (ValueError "clock_context_mismatch") else
  unpack_s 8 clock 32.

(** [(pk(token_x), pk(token_y), pk(vault_x), pk(vault_y)) != (dk[15], dk[16], dk[11], dk[12])] *)
Definition snapshot_pair (pair : string) : pyres lb_pair :=
  a <-! account_at accs pair ;;
  raw <-! account_raw a (Some Pda.DLMM) ;;
  lb <-! parse_lbpair raw ;;
  if negb (bool_decide (Accounts.collect_fee_mode lb ∈ [0; 1])) || negb (lb_status lb =? 0)
  then Raise (ValueError "unsupported_dlmm_mode") else
  tx <-! pk (token_x lb) ;; ty <-! pk (token_y lb) ;; vx <-! pk (vault_x lb) ;; vy <-! pk (vault_y lb) ;;
  mx <-! at_index dk 15 ;; my <-! at_index dk 16 ;; kx <-! at_index dk 11 ;; ky <-! at_index dk 12 ;;
  if bool_decide ((tx, ty, vx, vy) = (mx, my, kx, ky)) then Ret lb else Raise (ValueError "dlmm_topology_changed").

(** The Pump pool and its fee fields. *)
Definition snapshot_pump : pyres pool_meta :=
  pk_pool <-! role_key "pool" ;;
  a <-! account_at accs pk_pool ;;
  raw <-! account_raw a (Some ExecTemplate.PUMP) ;;
  if negb (bool_decide (take 8 raw = discriminator "account:Pool")) then Raise (ValueError "pump_discriminator") else
  pool <-! parse_pool_meta raw ;;
  mx <-! at_index dk 15 ;; my <-! at_index dk 16 ;;
  if negb (bool_decide ((pm_base_mint pool, pm_quote_mint pool) = (mx, my))) || negb (String.eqb (pm_quote_mint pool) WSOL)
  then Raise (ValueError "route_mint_mismatch") else
  if negb (pm_mayhem pool =? 0) || negb (pm_cashback pool =? 0) || negb (pm_holder pool =? 0)
  then Raise (ValueError "unsupported_pump_mode") else
  vb <-! pk (slice 139 171 raw) ;; rb <-! role_key "pool_base_vault" ;;
  if negb (String.eqb vb rb) then Raise (ValueError "pump_vault_topology_changed") else
  vq <-! pk (slice 171 203 raw) ;; rq <-! role_key "pool_quote_vault" ;;
  if negb (String.eqb vq rq) then Raise (ValueError "pump_vault_topology_changed") else Ret pool.

(** The two mints: their data and extension types by key. *)
Definition mint_of (me : gmap string bytes * gmap string (list Z)) (key : string)
    : pyres (gmap string bytes * gmap string (list Z)) :=
  a <-! account_at accs key ;;
  de <-! token_data a true ;;
  Ret (<[key := de.1]> me.1, <[key := de.2]> me.2).
Definition snapshot_mints : pyres (gmap string bytes * gmap string (list Z)) :=
  mx <-! at_index dk 15 ;; my <-! at_index dk 16 ;;
  py_foldl mint_of (∅, ∅) [mx; my].

Definition owner_text (a : option sacct) : string := default ""%string (sa_owner <$> a).

(** One token account: of this mint, under this authority, under the mint's own token program. *)
Definition amount_of (me : gmap string Z * gmap string (list Z)) (kma : string * string * string)
    : pyres (gmap string Z * gmap string (list Z)) :=
  let '(key, mint, authority) := kma in
  a <-! account_at accs key ;;
  de <-! token_data a false ;;
  pm <-! pk (slice 0 32 de.1) ;;
  if negb (String.eqb pm mint) then Raise (ValueError "token_topology_mismatch") else
  po <-! pk (slice 32 64 de.1) ;;
  if negb (String.eqb po authority) then Raise (ValueError "token_topology_mismatch") else
  am <-! account_at accs mint ;;
  match am with
  | None => Raise TypeError
  | Some _ =>
      if negb (String.eqb (owner_text a) (owner_text am)) then Raise (ValueError "token_topology_mismatch")
      else Ret (<[key := le_dec (slice 64 72 de.1)]> me.1, <[key := de.2]> me.2)
  end.

Definition snapshot_amounts (pair : string) (exts : gmap string (list Z)) : pyres (gmap string Z * gmap string (list Z)) :=
  k0 <-! at_index dk 0 ;; k1 <-! at_index dk 1 ;; k2 <-! at_index dk 2 ;; k11 <-! at_index dk 11 ;; k12 <-! at_index dk 12 ;;
  k15 <-! at_index dk 15 ;; k16 <-! at_index dk 16 ;;
  pool <-! role_key "pool" ;; vb <-! role_key "pool_base_vault" ;; vq <-! role_key "pool_quote_vault" ;;
  py_foldl amount_of (∅, exts) [(k1, k16, k0); (k2, k15, k0); (k11, k15, pair); (k12, k16, pair); (vb, k15, pool); (vq, k16, pool)].

(** A decoded bin as the quote has it. *)
Definition quote_bin (b : bdict) : pyres qbin :=
  i <-! get_key b "id" ;; x <-! get_key b "amount_x" ;; y <-! get_key b "amount_y" ;; p <-! get_key b "price" ;;
  Ret (QBin i x y p).

Definition has_orders (b : bdict) : pyres bool :=
  o <-! get_key b "open_order_amount" ;;
  if negb (o =? 0) then Ret true else
  r <-! get_key b "processed_order_remaining_amount" ;; Ret (negb (r =? 0)).
Fixpoint any_orders (bs : list bdict) : pyres bool :=
  match bs with
  | [] => Ret false
  | b :: bs' => o <-! has_orders b ;; if o then Ret true else any_orders bs'
  end.

Definition snapshot_array (pair : string) (m : gmap Z (list qbin)) (ik : Z * string) : pyres (gmap Z (list qbin)) :=
  let '(index, key) := ik in
  a <-! account_at accs key ;;
  data <-! account_raw a (Some Pda.DLMM) ;;
  if negb (bool_decide (take 8 data = BINARR_DISC)) then Raise (ValueError "invalid_bin_array_identity") else
  i <-! unpack_s 8 data 8 ;;
  if negb (i =? index) then Raise (ValueError "invalid_bin_array_identity") else
  p <-! pk (slice 24 56 data) ;;
  if negb (String.eqb p pair) then Raise (ValueError "invalid_bin_array_identity") else
  parsed <-! Inventory.parse_bin_array data ;;
  if negb (length parsed =? 70)%nat then Raise (ValueError "truncated_bins") else
  o <-! any_orders parsed ;;
  if o then Raise (ValueError "unsupported_limit_order_inventory") else
  bs <-! py_map quote_bin parsed ;;
  Ret (<[index := bs]> m).

(** The arrays that are given, and the bins each direction walks: the active array and its neighbour. *)
Definition snapshot_bins (pair : string) (bin_keys : list (Z * string)) (active : Z) : pyres (list qbin * list qbin) :=
  arrays <-! py_foldl (snapshot_array pair) ∅ bin_keys ;;
  match arrays !! (active - 1), arrays !! active, arrays !! (active + 1) with
  | Some below, Some at_, Some above => Ret (at_ ++ above, at_ ++ below)
  | _, _, _ => Raise (ValueError "active_bin_moved_outside_discovery")
  end.

(** The two fee configurations. *)
Definition snapshot_config (r owner : string) : pyres bytes :=
  k <-! role_key r ;; a <-! account_at accs k ;; account_raw a (Some owner).
Definition config_named (raw : bytes) (name : string) : bool := bool_decide (take 8 raw = discriminator ("account:" ++ name)).

Definition key_of {A} (m : gmap string A) (k : string) : pyres A :=
  match m !! k with Some v => Ret v | None => Raise (KeyError k) end.

(** The [q.Dlmm] of the decoded fields, the vaults' amounts and the clock. *)
Definition dlmm_of (lb : lb_pair) (rx ry now : Z) (bs : list qbin) : dlmm := {|
  DlmmQuote.active_id := Accounts.active_id lb; DlmmQuote.bin_step := Accounts.bin_step lb; d_status := lb_status lb;
  DlmmQuote.base_factor := Accounts.base_factor lb; DlmmQuote.filter_period := Accounts.filter_period lb;
  DlmmQuote.decay_period := Accounts.decay_period lb; DlmmQuote.reduction_factor := Accounts.reduction_factor lb;
  DlmmQuote.variable_fee_control := Accounts.variable_fee_control lb;
  DlmmQuote.max_volatility_accumulator := Accounts.max_volatility_accumulator lb;
  DlmmQuote.protocol_share := Accounts.protocol_share lb;
  DlmmQuote.base_fee_power_factor := Accounts.base_fee_power_factor lb;
  DlmmQuote.collect_fee_mode := Accounts.collect_fee_mode lb; DlmmQuote.vol_acc := Accounts.vol_acc lb;
  DlmmQuote.vol_ref := Accounts.vol_ref lb; DlmmQuote.idx_ref := Accounts.idx_ref lb;
  DlmmQuote.last_upd := Accounts.last_upd lb; reserve_x := rx; reserve_y := ry; now_ts := now; bins := bs |}.

Definition quote_snapshot (slot : Z) (bin_keys : list (Z * string)) : pyres snapshot_state :=
  pair <-! at_index dk 9 ;;
  now <-! snapshot_clock slot ;;
  lb <-! snapshot_pair pair ;;
  pool <-! snapshot_pump ;;
  mints <-! snapshot_mints ;;
  am <-! snapshot_amounts pair mints.2 ;;
  let amounts := am.1 in
  let active := Accounts.active_id lb / 70 in
  walked <-! snapshot_bins pair bin_keys active ;;
  globraw <-! snapshot_config "global_config" ExecTemplate.PUMP ;;
  feeraw <-! snapshot_config "fee_config" PFEE ;;
  if negb (config_named globraw "GlobalConfig") || negb (config_named feeraw "FeeConfig")
  then Raise (ValueError "config_discriminator") else
  glob <-! parse_global_config globraw ;;
  fee <-! parse_fee_config feeraw ;;
  vb <-! role_key "pool_base_vault" ;; rb <-! key_of amounts vb ;;
  vq <-! role_key "pool_quote_vault" ;; rq <-! key_of amounts vq ;;
  k15 <-! at_index dk 15 ;; mint <-! key_of mints.1 k15 ;;
  fees <-! resolve_fee_state fee glob pool (le_dec (slice 36 44 mint)) rb rq None "coin_creator" "flat" ;;
  if 10000 <? fs_buyback_bps fees then Raise (ValueError "invalid_protocol_fee_carve") else
  k11 <-! at_index dk 11 ;; rx <-! key_of amounts k11 ;;
  k12 <-! at_index dk 12 ;; ry <-! key_of amounts k12 ;;
  k1 <-! at_index dk 1 ;; inventory <-! key_of amounts k1 ;;
  Ret {| ss_dp := dlmm_of lb rx ry now walked.1; ss_pd := dlmm_of lb rx ry now walked.2;
         ss_pump := Pump rb rq (or0 (pm_virtual pool)) (fs_lp fees) (fs_protocol fees) (fs_creator fees)
                      (disable_flags glob) 0;
         ss_fees := fees; ss_extensions := am.2; ss_inventory := inventory; ss_now := now; ss_active := active |}.
End admission.

(** * Both directions *)

Record quote_row := QuoteRow {
  qr_dp : bool; qr_in : Z; qr_mid : option Z; qr_out : option Z; qr_gross : option Z; qr_available : bool }.

(** What the sale would leave in the quote vault. *)
Definition liability_gate (p : pump) (mid : Z) (out : option Z) : pyres (option Z) :=
  if pq_base p + mid =? 0 then Raise ZeroDivisionError else
  let gross := (pq_quote p + pq_virtual p) * mid / (pq_base p + mid) in
  let lp := (gross * pq_lp p + 9999) / 10000 in
  Ret (if pq_quote p <? gross - lp then None else out).

Definition quote_dp (s : snapshot_state) (amount : Z) : pyres (option Z * option Z) :=
  let mid := quote_dlmm (ss_dp s) amount false in
  match mid with
  | None => Ret (None, None)
  | Some m => out <-! liability_gate (ss_pump s) m (quote_pump (ss_pump s) m 1) ;; Ret (mid, out)
  end.

Definition quote_pd (s : snapshot_state) (amount : Z) : option Z * option Z :=
  let mid := quote_pump (ss_pump s) amount 0 in
  (mid, match mid with None => None | Some m => quote_dlmm (ss_pd s) m true end).

Definition sized_row (s : snapshot_state) (dp : bool) (amount : Z) : pyres (list quote_row) :=
  if ss_inventory s <? amount then Ret [] else
  mo <-! (if dp then quote_dp s amount else Ret (quote_pd s amount)) ;;
  let gross := (fun o => o - amount) <$> mo.2 in
  Ret [QuoteRow dp amount mo.1 mo.2 gross (bool_decide (is_Some mo.2))].

Definition quote_sizes (s : snapshot_state) (sizes : list Z) : pyres (list quote_row) :=
  collect_all (fun da => sized_row s da.1 da.2) (((fun a => (true, a)) <$> sizes) ++ ((fun a => (false, a)) <$> sizes)).

(** * What a simulation moved *)

(** A parsed inner instruction: its program, the type and the [info] fields it has; the two
    places an amount may stand ([None]: the key is missing). *)
Record tix := TIx {
  ti_program : option string; ti_type : option string; ti_source : option string; ti_dest : option string;
  ti_amount : option pyval; ti_token_amount : option pyval }.

Inductive sim_err := ErrNone | ErrCustom6 | ErrOther.

Record simulated := Simulated { sm_err : sim_err; sm_logs : list string; sm_inner : list tix }.

Record cycle_amounts := CycleAmounts {
  ca_in : Z; ca_mid : Z; ca_out : Z; ca_gross : Z; ca_committed : bool }.

Definition venue_ok (logs : list string) (program : string) : bool :=
  bool_decide (("Program " ++ program ++ " success")%string ∈ logs) &&
  forallb (fun s => negb (starts_with (chars ("Program " ++ program ++ " failed")) (chars s))) logs.

(** [flow[k][i] += amount] when the key is there. *)
Definition bump_sent (k : option string) (amount : Z) (flow : gmap string (Z * Z)) : gmap string (Z * Z) :=
  match k with
  | Some k => match flow !! k with Some f => <[k := (f.1 + amount, f.2)]> flow | None => flow end
  | None => flow
  end.
Definition bump_received (k : option string) (amount : Z) (flow : gmap string (Z * Z)) : gmap string (Z * Z) :=
  match k with
  | Some k => match flow !! k with Some f => <[k := (f.1, f.2 + amount)]> flow | None => flow end
  | None => flow
  end.

Definition tix_amount (ix : tix) : pyres Z :=
  py_int (default (default (VInt (-1)) (ti_token_amount ix)) (ti_amount ix)).

Definition is_token_ix (ix : tix) : bool := bool_decide (ti_program ix ∈ [Some TOKEN; Some TOKEN22]).

(** The loop over the inner instructions; [Ret None]: an early return. *)
Fixpoint flow_loop (ixs : list tix) (flow : gmap string (Z * Z)) (n : Z) : pyres (option (gmap string (Z * Z) * Z)) :=
  match ixs with
  | [] => Ret (Some (flow, n))
  | ix :: ixs' =>
      if negb (is_token_ix ix) then flow_loop ixs' flow n else
      if negb (bool_decide (ti_type ix ∈ [Some "transfer"; Some "transferChecked"]%string)) then Ret None else
      amount <-! tix_amount ix ;;
      if amount <? 0 then Ret None else
      flow_loop ixs' (bump_received (ti_dest ix) amount (bump_sent (ti_source ix) amount flow)) (n + 1)
  end.

(** The amounts from the flow of the two user accounts. *)
Definition read_cycle (ixs : list tix) (user_quote user_base : string) (committed : bool) : pyres (option cycle_amounts) :=
  r <-! flow_loop ixs (<[user_base := (0, 0)]> (<[user_quote := (0, 0)]> ∅)) 0 ;;
  match r with
  | None => Ret None
  | Some (flow, n) =>
      q <-! key_of flow user_quote ;;
      b <-! key_of flow user_base ;;
      if (n =? 0) || (q.1 =? 0) || (b.2 =? 0) || negb (b.2 =? b.1) then Ret None else
      Ret (Some (CycleAmounts q.1 b.2 q.2 (q.2 - q.1) committed))
  end.

Definition transient_cycle_amounts (v : simulated) (user_quote user_base executor : string) : pyres (option cycle_amounts) :=
  match sm_err v with
  | ErrOther => Ret None
  | err =>
      let ok := match err with ErrNone => true | _ => false end in
      if negb (venue_ok (sm_logs v) Pda.DLMM && venue_ok (sm_logs v) ExecTemplate.PUMP) then Ret None else
      if negb ok && negb (bool_decide (("Program " ++ executor ++ " failed: custom program error: 0x6")%string ∈ sm_logs v))
      then Ret None else read_cycle (sm_inner v) user_quote user_base ok
  end.

(** * The extension loop *)

Lemma ext_loop_more n mint data off ts r : ext_loop n mint data off ts = Some r -> ext_loop (S n) mint data off ts = Some r.
Proof.
  revert off ts. induction n as [|n IH]; intros off ts; [done|].
  remember (S n) as m eqn:Em. rewrite Em at 1. cbn [ext_loop]. cbv zeta. subst m.
  destruct (negb _); [done|]. destruct (_ <? _); [done|]. destruct (_ || _); [done|].
  destruct (_ && _); [done|]. apply IH.
Qed.

Lemma ext_loop_mono n k mint data off ts r : (n <= k)%nat -> ext_loop n mint data off ts = Some r -> ext_loop k mint data off ts = Some r.
Proof. intros Hk H. induction Hk as [|k Hk IH]; [done|]. by apply ext_loop_more. Qed.

(** No kind comes twice and only the allowed ones come, so there are few passes. *)
Lemma ext_loop_passes mint data n : forall off ts,
  NoDup ts -> ts ⊆ allowed_ext mint -> (length (allowed_ext mint) < length ts + n)%nat ->
  is_Some (ext_loop n mint data off ts).
Proof.
  induction n as [|n IH]; intros off ts Hn Hs Hl.
  - pose proof (submseteq_length _ _ (NoDup_submseteq _ _ Hn Hs)). lia.
  - cbn [ext_loop]. destruct (negb _); [by eexists|]. destruct (_ <? _); [by eexists|]. cbv zeta.
    destruct (bool_decide_reflect (le_dec (slice off (off + 2) data) ∈ allowed_ext mint)) as [Ha|]; [|by eexists].
    destruct (bool_decide_reflect (le_dec (slice off (off + 2) data) ∈ ts)) as [|Ht]; [by eexists|]. cbn [negb orb].
    destruct (_ <? _); [by eexists|]. destruct (_ && _); [by eexists|]. apply IH.
    + apply NoDup_app. split; [done|]. split; [|apply NoDup_singleton]. by intros x Hx ->%list_elem_of_singleton.
    + intros x [Hx| ->%list_elem_of_singleton]%elem_of_app; [by apply Hs|done].
    + rewrite length_app. cbn. lia.
Qed.

(** C34. The extension loop ends: whatever the account holds, three tests settle it, more fuel
    changes nothing, and the fuel that is given is never used up. *)
Theorem extensions_terminate mint data :
  is_Some (ext_loop 3 mint data 166 []) /\
  (forall fuel, (3 <= fuel)%nat -> ext_loop fuel mint data 166 [] = ext_loop 3 mint data 166 []) /\
  ext_types mint data <> Raise (RuntimeError "fuel").
Proof.
  assert (H3 : is_Some (ext_loop 3 mint data 166 [])).
  { apply ext_loop_passes; [constructor|by intros x ?%elem_of_nil|by destruct mint; cbn; lia]. }
  assert (Hm : forall fuel, (3 <= fuel)%nat -> ext_loop fuel mint data 166 [] = ext_loop 3 mint data 166 []).
  { destruct H3 as [r Hr]. intros fuel Hf. rewrite Hr. by apply (ext_loop_mono 3). }
  split; [done|]. split; [done|]. unfold ext_types.
  assert (Hno : forall n off ts r, ext_loop n mint data off ts = Some r -> r <> Raise (RuntimeError "fuel")).
  { induction n as [|n IH]; intros off ts r; cbn [ext_loop]; [done|].
    destruct (negb _); [by intros [= <-]|]. destruct (_ <? _); [by intros [= <-]|]. cbv zeta.
    destruct (_ || _); [by intros [= <-]|]. destruct (_ && _); [by intros [= <-]|]. apply IH. }
  destruct (Nat.le_gt_cases 3 (S (length data))) as [Hl|Hl].
  - rewrite (Hm _ Hl). destruct H3 as [r Hr]. rewrite Hr. by apply Hno in Hr.
  - assert (E : ext_loop 1 mint data 166 [] = Some (Ret [])).
    { cbn [ext_loop]. destruct (Z.ltb_spec 166 (blen data)); [unfold blen in *; lia|done]. }
    by rewrite (ext_loop_mono 1 (S (length data)) mint data 166 [] _ ltac:(lia) E).
Qed.

(** One extension, and what follows the header of an account that carries them. *)
Definition tlv (kb : Z * bytes) : bytes := le_enc 2 kb.1 ++ le_enc 2 (blen kb.2) ++ kb.2.
Definition ext_ok (mint : bool) (kb : Z * bytes) : Prop :=
  kb.1 ∈ allowed_ext mint /\ blen kb.2 < 2 ^ 16 /\ (kb.1 = 7 -> kb.2 = []).

Lemma any_byte_false l : any_byte l = false <-> l = replicate (length l) 0.
Proof.
  induction l as [|b l IH]; [done|]. cbn [any_byte existsb length replicate]. fold (any_byte l). rewrite orb_false_iff, IH.
  destruct (Z.eqb_spec b 0) as [->|Hb]; cbn [negb]; split; [by intros [_ <-]|by intros [= <-]|by intros []|by intros [= ? _]].
Qed.

Lemma any_byte_app l1 l2 : any_byte (l1 ++ l2) = any_byte l1 || any_byte l2.
Proof. apply existsb_app. Qed.

Lemma allowed_range mint k : k ∈ allowed_ext mint -> 0 < k < 256.
Proof.
  destruct mint; cbn [allowed_ext]; intros H; repeat (apply elem_of_cons in H as [->|H]; [lia|]); by apply elem_of_nil in H.
Qed.

Lemma tlv_any mint kb : ext_ok mint kb -> any_byte (tlv kb) = true.
Proof.
  intros (Hk & _). apply allowed_range in Hk. unfold tlv. rewrite any_byte_app. cbn [le_enc]. rewrite Z.mod_small by lia.
  cbn [any_byte existsb]. by destruct (Z.eqb_spec kb.1 0); [lia|].
Qed.

Lemma length_tlv kb : length (tlv kb) = (4 + length kb.2)%nat.
Proof. unfold tlv. by rewrite !length_app, !length_le_enc. Qed.

(** Reading an extension that is written at the offset. *)
Lemma ext_loop_tlv n mint pre kb rest ts :
  ext_ok mint kb -> kb.1 ∉ ts ->
  ext_loop (S n) mint (pre ++ tlv kb ++ rest) (blen pre) ts =
  ext_loop n mint ((pre ++ tlv kb) ++ rest) (blen (pre ++ tlv kb)) (ts ++ [kb.1]).
Proof.
  intros Hok Hin. pose proof Hok as (Hk & Hl & H7). pose proof (allowed_range _ _ Hk) as Hr. cbn [ext_loop].
  assert (Hpre : 0 <= blen pre) by (unfold blen; lia). assert (Hb : 0 <= blen kb.2) by (unfold blen; lia).
  assert (Hlen : blen (pre ++ tlv kb ++ rest) = blen pre + 4 + blen kb.2 + blen rest).
  { rewrite !blen_app. unfold tlv. rewrite !blen_app, !blen_le_enc. lia. }
  assert (0 <= blen rest) by (unfold blen; lia).
  destruct (Z.ltb_spec (blen pre) (blen (pre ++ tlv kb ++ rest))); [|lia].
  replace (Z.to_nat (blen pre)) with (length pre) by (unfold blen; lia). rewrite drop_app_length, any_byte_app, (tlv_any mint kb Hok).
  cbn [andb orb negb]. destruct (Z.ltb_spec (blen (pre ++ tlv kb ++ rest)) (blen pre + 4)); [lia|].
  assert (Ek : slice (blen pre) (blen pre + 2) (pre ++ tlv kb ++ rest) = le_enc 2 kb.1).
  { unfold tlv. rewrite <- !app_assoc. apply slice_at; [done|by rewrite blen_le_enc]. }
  assert (El : slice (blen pre + 2) (blen pre + 4) (pre ++ tlv kb ++ rest) = le_enc 2 (blen kb.2)).
  { unfold tlv. rewrite <- !app_assoc. rewrite (app_assoc pre). apply slice_at; rewrite ?blen_app, ?blen_le_enc; lia. }
  rewrite Ek, El, !le_dec_enc_small by lia. cbv zeta. rewrite bool_decide_true by done. rewrite bool_decide_false by done.
  cbn [negb orb]. destruct (Z.ltb_spec (blen (pre ++ tlv kb ++ rest)) (blen pre + 4 + blen kb.2)); [lia|].
  replace ((kb.1 =? 7) && negb (blen kb.2 =? 0)) with false
    by (destruct (Z.eqb_spec kb.1 7) as [E|]; [by rewrite (H7 E)|done]).
  rewrite <- app_assoc. f_equal. rewrite blen_app. unfold tlv. rewrite !blen_app, !blen_le_enc. lia.
Qed.

Lemma slice_behind i j pre rest : 0 <= i -> slice (blen pre + i) (blen pre + j) (pre ++ rest) = slice i j rest.
Proof.
  intros Hi. unfold slice, blen. replace (Z.of_nat (length pre) + j - (Z.of_nat (length pre) + i)) with (j - i) by lia.
  f_equal. replace (Z.to_nat (Z.of_nat (length pre) + i)) with (length pre + Z.to_nat i)%nat by lia.
  rewrite drop_app_ge by lia. f_equal. lia.
Qed.

(** Four header bytes and as many bytes as they say make an extension. *)
Lemma tlv_read rest len :
  is_bytes rest -> len = le_dec (slice 2 4 rest) -> 4 + len <= blen rest -> 4 <= blen rest ->
  rest = tlv (le_dec (slice 0 2 rest), slice 4 (4 + len) rest) ++ drop (Z.to_nat (4 + len)) rest /\ 0 <= len < 2 ^ 16 /\
  blen (slice 4 (4 + len) rest) = len.
Proof.
  intros Hb El Hl H4. assert (Hs : forall i j, is_bytes (slice i j rest)) by (intros; by apply is_bytes_slice).
  assert (L2 : length (slice 0 2 rest) = 2%nat) by (rewrite length_slice; unfold blen in *; lia).
  assert (L4 : length (slice 2 4 rest) = 2%nat) by (rewrite length_slice; unfold blen in *; lia).
  assert (Hlen : 0 <= len < 2 ^ 16) by (rewrite El; pose proof (le_dec_bound _ (Hs 2 4)) as B; rewrite L4 in B; exact B).
  assert (Lp : blen (slice 4 (4 + len) rest) = len) by (unfold blen; rewrite length_slice; unfold blen in *; lia).
  split; [|done]. unfold tlv. cbn [fst snd]. rewrite Lp.
  replace (le_enc 2 len) with (slice 2 4 rest) by (rewrite El, <- L4; symmetry; by apply le_enc_dec).
  replace (le_enc 2 (le_dec (slice 0 2 rest))) with (slice 0 2 rest) by (rewrite <- L2; symmetry; by apply le_enc_dec).
  unfold slice. replace (Z.to_nat (4 + len - 4)) with (Z.to_nat len) by lia. change (Z.to_nat (2 - 0)) with 2%nat.
  change (Z.to_nat (4 - 2)) with 2%nat. change (Z.to_nat 0) with 0%nat. change (Z.to_nat 2) with 2%nat. change (Z.to_nat 4) with 4%nat.
  rewrite drop_0. replace (Z.to_nat (4 + len)) with (4 + Z.to_nat len)%nat by lia. rewrite <- !app_assoc.
  rewrite <- drop_drop, take_drop. rewrite <- (take_drop 2 rest) at 1. f_equal. 
  rewrite <- (take_drop 2 (drop 2 rest)) at 1. f_equal. by rewrite drop_drop.
Qed.

Lemma ext_loop_accepts n mint : forall pre rest ts r,
  is_bytes rest -> ext_loop n mint (pre ++ rest) (blen pre) ts = Some (Ret r) ->
  exists exts k, rest = concat (tlv <$> exts) ++ replicate k 0 /\ r = ts ++ exts.*1 /\ Forall (ext_ok mint) exts /\
    (NoDup ts -> NoDup r).
Proof.
  induction n as [|n IH]; intros pre rest ts r Hb; [done|]. intros H.
  assert (Hblen : blen (pre ++ rest) = blen pre + blen rest) by apply blen_app.
  assert (Hdrop : drop (Z.to_nat (blen pre)) (pre ++ rest) = rest).
  { replace (Z.to_nat (blen pre)) with (length pre) by (unfold blen; lia). apply drop_app_length. }
  destruct (any_byte rest) eqn:Ea.
  2: { exists [], (length rest). cbn [ext_loop] in H. rewrite Hdrop, Ea, andb_false_r in H. cbn [negb] in H.
       injection H as <-. split; [by apply any_byte_false|]. split; [by rewrite app_nil_r|]. split; [constructor|done]. }
  assert (Hne : 0 < blen rest) by (destruct rest; [done|unfold blen; cbn; lia]).
  cbn [ext_loop] in H. rewrite Hdrop, Ea in H. destruct (Z.ltb_spec (blen pre) (blen (pre ++ rest))); [|lia].
  cbn [andb negb] in H. destruct (Z.ltb_spec (blen (pre ++ rest)) (blen pre + 4)); [done|].
  assert (Es : slice (blen pre) (blen pre + 2) (pre ++ rest) = slice 0 2 rest)
    by (rewrite <- (slice_behind 0 2 pre rest) by lia; by rewrite Z.add_0_r).
  rewrite Es, (slice_behind 2 4) in H by lia. cbv zeta in H.
  set (k := le_dec (slice 0 2 rest)) in *. set (len := le_dec (slice 2 4 rest)) in *.
  destruct (bool_decide_reflect (k ∈ allowed_ext mint)) as [Hk|]; [|done].
  destruct (bool_decide_reflect (k ∈ ts)) as [|Hn]; [done|]. cbn [negb orb] in H.
  destruct (Z.ltb_spec (blen (pre ++ rest)) (blen pre + 4 + len)); [done|].
  destruct ((k =? 7) && negb (len =? 0)) eqn:E7; [done|].
  destruct (tlv_read rest len Hb eq_refl ltac:(lia) ltac:(lia)) as (Hr & Hlen & Hp). fold k in Hr.
  set (p := slice 4 (4 + len) rest) in *. set (rest' := drop (Z.to_nat (4 + len)) rest) in *.
  assert (Hok : ext_ok mint (k, p)).
  { split; [done|]. cbn [fst snd]. split; [lia|]. intros ->. cbn [Z.eqb Pos.eqb andb] in E7.
    destruct (Z.eqb_spec len 0) as [E0|]; [|done]. rewrite E0 in Hp. destruct p; [done|unfold blen in Hp; cbn in Hp; lia]. }
  assert (Hoff : blen pre + 4 + len = blen (pre ++ tlv (k, p))).
  { rewrite blen_app. unfold blen at 3. rewrite length_tlv. cbn [snd]. unfold blen in Hp. lia. }
  rewrite Hoff in H. rewrite Hr, app_assoc in H.
  apply IH in H as (exts & z & X1 & -> & X3 & X4); [|by apply Forall_drop].
  exists ((k, p) :: exts), z. split; [rewrite Hr, X1, fmap_cons; cbn [concat]; by rewrite app_assoc|].
  split; [by rewrite <- app_assoc|]. split; [by constructor|]. intros Hnd. apply X4. apply NoDup_app. split; [done|].
  split; [by intros x Hx ->%list_elem_of_singleton|apply NoDup_singleton].
Qed.

Lemma ext_loop_reads mint k exts : forall pre ts,
  Forall (ext_ok mint) exts -> NoDup (ts ++ exts.*1) ->
  ext_loop (S (length exts)) mint (pre ++ concat (tlv <$> exts) ++ replicate k 0) (blen pre) ts = Some (Ret (ts ++ exts.*1)).
Proof.
  induction exts as [|kb exts IH]; intros pre ts Hf Hn.
  - cbn [ext_loop length fmap list_fmap concat app]. replace (Z.to_nat (blen pre)) with (length pre) by (unfold blen; lia).
    rewrite drop_app_length, app_nil_r. rewrite (proj2 (any_byte_false (replicate k 0))) by (by rewrite length_replicate).
    by rewrite andb_false_r.
  - apply Forall_cons in Hf as [Hkb Hf]. rewrite !fmap_cons. cbn [concat length]. rewrite <- app_assoc, ext_loop_tlv; [|done|].
    + rewrite fmap_cons in Hn. rewrite IH; [|done|by rewrite <- app_assoc]. by rewrite <- app_assoc.
    + rewrite fmap_cons in Hn. apply NoDup_app in Hn as (_ & Hd & _). intros Hin. apply (Hd _ Hin). by left.
Qed.

(** * The layout of a Token-2022 account *)

(** Header, extensions of the allowed kinds, each once, and zeros. *)
Definition extended (mint : bool) (data : bytes) (types : list Z) : Prop :=
  166 <= blen data /\ data !! 165%nat = Some (if mint then 1 else 2) /\
  (mint = true -> Forall (fun b => b = 0) (slice 82 165 data)) /\
  exists exts k, drop 166 data = concat (tlv <$> exts) ++ replicate k 0 /\ types = exts.*1 /\
    NoDup types /\ Forall (ext_ok mint) exts.

Lemma any_byte_zeros l : any_byte l = false <-> Forall (fun b => b = 0) l.
Proof.
  induction l as [|b l IH]; [by split; [constructor|]|]. cbn [any_byte existsb]. fold (any_byte l).
  rewrite orb_false_iff, Forall_cons, IH, negb_false_iff, Z.eqb_eq. done.
Qed.

Lemma ext_types_exact mint data types :
  is_bytes data -> 166 <= blen data ->
  ext_types mint data = Ret types <->
  exists exts k, drop 166 data = concat (tlv <$> exts) ++ replicate k 0 /\ types = exts.*1 /\ NoDup types /\ Forall (ext_ok mint) exts.
Proof.
  intros Hb Hl. set (pre := take 166 data). assert (Hpre : blen pre = 166) by (unfold pre, blen in *; rewrite length_take; lia).
  assert (Hd : data = pre ++ drop 166 data) by (symmetry; apply take_drop). unfold ext_types. split.
  - intros H. destruct (ext_loop (S (length data)) mint data 166 []) as [x|] eqn:E; [|done]. rewrite H in E.
    assert (E' : ext_loop (S (length data)) mint (pre ++ drop 166 data) (blen pre) [] = Some (Ret types))
      by (rewrite <- Hd, Hpre; exact E).
    apply ext_loop_accepts in E' as (exts & k & H1 & H2 & H3 & H4); [|by apply Forall_drop].
    exists exts, k. cbn [app] in H2. split; [done|]. split; [done|]. split; [apply H4; constructor|done].
  - intros (exts & k & H1 & -> & Hn & Hf). pose proof (ext_loop_reads mint k exts pre [] Hf Hn) as H.
    rewrite <- H1, <- Hd, Hpre in H.
    assert (Hx : (length exts <= length (drop 166 data))%nat).
    { rewrite H1, length_app. clear. induction exts as [|kb exts IH]; [cbn; lia|]. rewrite fmap_cons. cbn [concat length].
      rewrite length_app, length_tlv. lia. }
    rewrite length_drop in Hx. by rewrite (ext_loop_mono (S (length exts)) (S (length data)) _ _ _ _ _ ltac:(lia) H).
Qed.

(** A Token-2022 account is admitted exactly when its bytes are initialised and unfrozen, and
    are the bare base layout, or the header of the right kind and then extensions of the allowed
    kinds, each at most once and within its length, padded by zeros; the kinds are those reported. *)
Theorem token_data_exact data mint d types :
  is_bytes data ->
  token_data (Some (SAcct TOKEN22 (Some data))) mint = Ret (d, types) <->
  d = data /\ token_base mint <= blen data /\ data !! (if mint then 45 else 108)%nat = Some 1 /\
  ((blen data = token_base mint /\ types = []) \/ extended mint data types).
Proof.
  intros Hb. unfold token_data, account_raw. cbn [sa_owner sa_data py_bind fmap option_fmap option_map default].
  change (default ""%string (Some TOKEN22)) with TOKEN22. cbv zeta.
  rewrite bool_decide_true by (right; by left). cbn [negb orb].
  assert (Hbase : token_base mint = 82 /\ mint = true \/ token_base mint = 165 /\ mint = false) by (destruct mint; auto).
  destruct (Z.ltb_spec (blen data) (token_base mint)) as [|Hl]; [by split; [done|intros (_ & ? & _); lia]|].
  unfold py_index. replace (Z.to_nat (if mint then 45 else 108)) with (if mint then 45 else 108)%nat by (by destruct mint).
  destruct (data !! (if mint then 45 else 108)%nat) as [st|] eqn:Est; cbn [py_bind]; [|by split; [done|intros (_ & _ & ? & _)]].
  destruct (Z.eqb_spec st 1) as [->|]; cbn [negb]; [|split; [done|intros (_ & _ & [= ->] & _); lia]].
  change (String.eqb TOKEN22 TOKEN) with false. cbv iota.
  destruct (Z.eqb_spec (blen data) (token_base mint)) as [E|E].
  { split; [intros [= <- <-]; repeat split; auto|]. intros (-> & _ & _ & [[_ ->]|(He & Ht & _)]); [done|].
    destruct Hbase as [[Hm ->]|[Hm ->]]; lia. }
  unfold extended. destruct (Z.ltb_spec (blen data) 166) as [|H166].
  { split; [done|]. intros (_ & _ & _ & [[? _]|(? & _)]); lia. }
  cbn [orb]. destruct (bool_decide_reflect (data !! 165%nat = Some (if mint then 1 else 2))) as [Ht|Ht]; cbn [negb orb].
  2: { split; [done|]. intros (_ & _ & _ & [[? _]|(_ & ? & _)]); [lia|done]. }
  destruct (mint && any_byte (slice 82 165 data)) eqn:Ea.
  { apply andb_prop in Ea as [-> Ea]. split; [done|]. intros (_ & _ & _ & [[? _]|(_ & _ & Hz & _)]); [lia|].
    by rewrite (proj2 (any_byte_zeros _) (Hz eq_refl)) in Ea. }
  assert (Hz : mint = true -> Forall (fun b => b = 0) (slice 82 165 data)) by (intros ->; by apply any_byte_zeros).
  pose proof (ext_types_exact mint data types Hb H166) as Hx. split.
  - intros H. apply py_bind_Ret in H as (ts & Hts & [= <- ->]). do 3 (split; [done|]). right. do 3 (split; [done|]). by apply Hx.
  - intros (-> & _ & _ & [[? _]|(_ & _ & _ & He)]); [lia|]. by rewrite (proj2 Hx He).
Qed.

(** * The rows and the Pump kernel *)

Lemma quote_pump_gates p a dir out : quote_pump p a dir = Some out -> quotable p dir /\ open_pool p /\ a <> 0.
Proof.
  unfold quote_pump, quotable, open_pool. destruct (Z.eqb_spec (pq_status p) 0); [|done]. cbn [negb orb].
  destruct (Z.eqb_spec a 0); [done|].
  destruct ((dir =? 0) || (dir =? 1)) eqn:Ed; cbn [negb]; [|done].
  assert (Hd : dir = 0 \/ dir = 1) by (apply orb_prop in Ed as [?%Z.eqb_eq|?%Z.eqb_eq]; auto). clear Ed.
  destruct (Z.eqb_spec (Z.land (pq_disabled p) (if dir =? 0 then 8 else 16)) 0); cbn [negb]; [|done].
  destruct (Z.leb_spec PUMP_DEN (pq_lp p + pq_protocol p + pq_creator p)); [done|].
  destruct (Z.eqb_spec (pq_base p) 0); [done|]. destruct (Z.eqb_spec (pq_quote p) 0); [done|]. cbn [orb].
  destruct (Z.leb_spec (pq_quote p + pq_virtual p) 0); [done|]. destruct (Z.ltb_spec U64 (pq_quote p + pq_virtual p)); [done|].
  done.
Qed.

Lemma apply_swap_gates p a dir after : apply_swap (kernel_of p) a dir = Some after -> 0 < a /\ open_pool p.
Proof.
  intros H. destruct (open_pool_dec p) as [Ho|Hc]; [|by rewrite (proj2 (quote_pump_closed p a dir Hc)) in H].
  split; [|done]. unfold apply_swap in H. by destruct (Z.leb_spec a 0).
Qed.

Lemma fee_round_up n b : _fee n b = (n * b + 9999) / 10000.
Proof.
  unfold _fee, ceil_div, PUMP_FEE_BPS_DEN. pose proof (Z.div_mod (n * b) 10000 ltac:(lia)) as D.
  pose proof (Z.mod_pos_bound (n * b) 10000 ltac:(lia)) as M.
  destruct (Z.eqb_spec (n * b mod 10000) 0); [apply Z.div_unique with 9999; lia|].
  apply Z.div_unique with (n * b mod 10000 - 1); lia.
Qed.

(** Buying: no gate is needed. *)
Lemma buy_quote_is_kernel p a out :
  pump_ok p -> 0 <= a ->
  quote_pump p a 0 = Some out <->
  quotable p 0 /\ exists after, apply_swap (kernel_of p) a 0 = Some after /\ out = received p a 0 after.
Proof.
  intros Hp Ha.
  assert (Heq : quotable p 0 -> open_pool p -> 0 < a ->
    quote_pump p a 0 = option_map (received p a 0) (apply_swap (kernel_of p) a 0)).
  { intros (_ & Hd & Hu) Ho Ha'. rewrite (apply_swap_open p a 0 Ho Ha' (or_introl eq_refl)). destruct Ho as (Hs & Hb & Hq & He & Ht).
    rewrite (quote_pump_buy_leg p a) by (try done; lia). cbn [Z.eqb]. pose proof (bps_for_ok p Hp). pose proof (pk_base _ Hp) as [? _].
    destruct (buy_leg _ _ _ _ _) as [[[o rb] rq]|] eqn:El; [|done].
    apply buy_leg_spec in El as (net & _ & -> & Ho & _); [|done|lia..]. cbn [option_map fst].
    destruct (Z.leb_spec o 0); [lia|]. unfold received. cbn. f_equal. lia. }
  split.
  - intros H. destruct (quote_pump_gates _ _ _ _ H) as (Hq & Ho & Hn). split; [done|]. rewrite Heq in H by (done || lia).
    destruct (apply_swap (kernel_of p) a 0) as [after|]; [|done]. injection H as <-. by exists after.
  - intros (Hq & after & Hk & ->). destruct (apply_swap_gates _ _ _ _ Hk) as [Hpos Ho]. rewrite Heq by done. by rewrite Hk.
Qed.

(** Selling: the gate makes the quote the kernel's swap, virtual reserves included. *)
Lemma sell_quote_is_kernel p a out :
  pump_ok p -> 0 <= a ->
  liability_gate p a (quote_pump p a 1) = Ret (Some out) <->
  quotable p 1 /\ exists after, apply_swap (kernel_of p) a 1 = Some after /\ out = received p a 1 after.
Proof.
  intros Hp Ha. pose proof (pk_base _ Hp) as [Hb0 _].
  assert (Heq : quotable p 1 -> open_pool p -> 0 < a ->
    liability_gate p a (quote_pump p a 1) = Ret (option_map (received p a 1) (apply_swap (kernel_of p) a 1))).
  { intros (_ & Hd & Hu) Ho Ha'. rewrite (apply_swap_open p a 1 Ho Ha' (or_intror eq_refl)). destruct Ho as (Hs & Hb & Hq & He & Ht).
    rewrite (quote_pump_sell_leg p a) by (try done; lia). cbn [Z.eqb Pos.eqb]. unfold liability_gate, sell_leg.
    destruct (Z.eqb_spec (pq_base p + a) 0); [lia|]. set (gross := _ / (pq_base p + a)). cbn [bps_for b_lp]. rewrite <- fee_round_up.
    assert (Hg : 0 <= gross) by (apply Z.div_pos; nia).
    pose proof (fee_sum_nonneg (bps_for p) gross (bps_for_ok p Hp) Hg) as Hf.
    destruct (Z.ltb_spec (pq_quote p) (gross - _fee gross (pq_lp p))).
    { f_equal. by destruct (Z.ltb_spec gross (fee_sum (bps_for p) gross)). }
    destruct (Z.ltb_spec gross (fee_sum (bps_for p) gross)), (Z.ltb_spec (fee_sum (bps_for p) gross) gross); try lia; try done.
    - destruct (Z.leb_spec (gross - fee_sum (bps_for p) gross) 0); [lia|]. unfold received. cbn [option_map Z.eqb Pos.eqb reserve_quote].
      fold gross. do 2 f_equal. unfold fee_sum. cbn [bps_for b_lp b_protocol b_creator]. lia.
    - by destruct (Z.leb_spec (gross - fee_sum (bps_for p) gross) 0); [|lia]. }
  split.
  - intros H. assert (Hs : exists o, quote_pump p a 1 = Some o).
    { unfold liability_gate in H. destruct (_ =? 0); [done|]. cbv zeta in H. destruct (_ <? _); [done|]. injection H as H. by exists out. }
    destruct Hs as [o Ho]. destruct (quote_pump_gates _ _ _ _ Ho) as (Hq & Hop & Hn). split; [done|].
    rewrite Heq in H by (done || lia). destruct (apply_swap (kernel_of p) a 1) as [after|]; [|done]. injection H as <-. by exists after.
  - intros (Hq & after & Hk & ->). destruct (apply_swap_gates _ _ _ _ Hk) as [Hpos Ho]. rewrite Heq by done. by rewrite Hk.
Qed.

(** The trade both venues would execute, one after the other. *)
Definition executes (s : snapshot_state) (dp : bool) (amount out : Z) : Prop :=
  if dp then exists mid after, quote_dlmm (ss_dp s) amount false = Some mid /\ quotable (ss_pump s) 1 /\
      apply_swap (kernel_of (ss_pump s)) mid 1 = Some after /\ out = received (ss_pump s) mid 1 after
  else exists after, quotable (ss_pump s) 0 /\ apply_swap (kernel_of (ss_pump s)) amount 0 = Some after /\
      quote_dlmm (ss_pd s) (received (ss_pump s) amount 0 after) true = Some out.

(** C33. A row is a trade that executes: each size within the inventory has a row in each
    direction, whose output is there exactly when the DLMM model and the Pump kernel, reserves
    checked, take the trade one after the other, and is what they pay; gross is the difference.  Pools with
    a virtual reserve are included, whose vault the quote by itself does not check. *)
Theorem rows_execute s sizes rows :
  pump_ok (ss_pump s) -> dlmm_ok (ss_dp s) -> Forall (fun a => 0 <= a) sizes -> quote_sizes s sizes = Ret rows ->
  (forall dp a, (exists r, r ∈ rows /\ qr_dp r = dp /\ qr_in r = a) <-> a ∈ sizes /\ a <= ss_inventory s) /\
  forall r, r ∈ rows ->
    (forall out, qr_out r = Some out <-> executes s (qr_dp r) (qr_in r) out) /\
    qr_gross r = (fun o => o - qr_in r) <$> qr_out r /\ (qr_available r = true <-> is_Some (qr_out r)).
Proof.
  intros Hp Hd Hs H. unfold quote_sizes in H.
  assert (Hin : forall dp a, (dp, a) ∈ ((fun a : Z => (true, a)) <$> sizes) ++ ((fun a : Z => (false, a)) <$> sizes) <-> a ∈ sizes).
  { intros dp a. rewrite elem_of_app, !list_elem_of_fmap. split; [by intros [(x & [= -> ->] & ?)|(x & [= -> ->] & ?)]|].
    intros Ha. destruct dp; [left|right]; by exists a. }
  assert (Hrow : forall dp a rs, sized_row s dp a = Ret rs -> (ss_inventory s < a /\ rs = []) \/
    exists mo, a <= ss_inventory s /\ (if dp then quote_dp s a else Ret (quote_pd s a)) = Ret mo /\
      rs = [QuoteRow dp a mo.1 mo.2 ((fun o => o - a) <$> mo.2) (bool_decide (is_Some mo.2))]).
  { intros dp a rs Hr. unfold sized_row in Hr. destruct (Z.ltb_spec (ss_inventory s) a); [injection Hr as <-; by left|].
    apply py_bind_Ret in Hr as (mo & Hmo & [= <-]). right. by exists mo. }
  split.
  - intros dp a. split.
    + intros (r & Hr & <- & <-). apply (collect_all_iff _ _ _ _ H) in Hr as ([dp' a'] & rs & Hel & Hf & Hrs). cbn [fst snd] in Hf.
      apply Hin in Hel. apply Hrow in Hf as [[_ ->]|(mo & Hle & _ & ->)]; [by apply elem_of_nil in Hrs|].
      apply list_elem_of_singleton in Hrs as ->. by split.
    + intros [Ha Hle]. pose proof (proj2 (Hin dp a) Ha) as Hel. destruct (collect_all_ret _ _ _ _ H Hel) as [rs Hrs].
      cbn [fst snd] in Hrs. pose proof Hrs as Hr'. apply Hrow in Hrs as [[? _]|(mo & _ & _ & ->)]; [lia|].
      eexists. split; [apply (collect_all_iff _ _ _ _ H); exists (dp, a); eexists; split; [exact Hel|]; split; [exact Hr'|by left]|]. done.
  - intros r Hr. apply (collect_all_iff _ _ _ _ H) in Hr as ([dp a] & rs & Hel & Hf & Hrs). cbn [fst snd] in Hf.
    apply Hin in Hel. apply (proj1 (Forall_forall _ _) Hs) in Hel as Hpos.
    apply Hrow in Hf as [[_ ->]|(mo & Hle & Hmo & ->)]; [by apply elem_of_nil in Hrs|].
    apply list_elem_of_singleton in Hrs as ->. cbn [qr_out qr_dp qr_in qr_gross qr_available].
    split; [|split; [done|apply bool_decide_eq_true]]. intros out. unfold executes. destruct dp.
    + unfold quote_dp in Hmo. destruct (quote_dlmm (ss_dp s) a false) as [mid|] eqn:Em.
      * apply py_bind_Ret in Hmo as (o & Ho & [= <-]). cbn [snd]. pose proof (quote_dlmm_le _ _ _ _ Hd Em) as [Hm0 _].
        pose proof (sell_quote_is_kernel (ss_pump s) mid out Hp Hm0) as Hk. rewrite Ho in Hk.
        split; [intros ->; destruct (proj1 Hk eq_refl) as (Hq & after & H1 & H2); by exists mid, after|].
        intros (mid' & after & [= <-] & Hq & H1 & H2). assert (X : Ret o = Ret (Some out)) by (apply Hk; split; [done|by exists after]).
        by injection X.
      * injection Hmo as <-. cbn [snd]. split; [done|]. by intros (? & ? & ? & _).
    + injection Hmo as <-. unfold quote_pd. cbn [snd]. split.
      * destruct (quote_pump (ss_pump s) a 0) as [m|] eqn:Em; [|done]. intros Ho.
        apply (buy_quote_is_kernel _ _ _ Hp Hpos) in Em as (Hq & after & H1 & ->). by exists after.
      * intros (after & Hq & H1 & H2).
        rewrite (proj2 (buy_quote_is_kernel _ _ _ Hp Hpos) (conj Hq (ex_intro _ after (conj H1 eq_refl)))). exact H2.
Qed.

(** * What the simulation moved, as sums *)

Definition amount_or0 (ix : tix) : Z := match tix_amount ix with Ret a => a | Raise _ => 0 end.

(** What the token instructions move from ([ti_source]) or to ([ti_dest]) an account. *)
Definition moved (side : tix -> option string) (k : string) (ixs : list tix) : Z :=
  foldr (fun ix acc => (if is_token_ix ix && bool_decide (side ix = Some k) then amount_or0 ix else 0) + acc) 0 ixs.

(** A token instruction that is read: a transfer of an amount. *)
Definition readable (ix : tix) : Prop :=
  is_token_ix ix = true -> ti_type ix ∈ [Some "transfer"; Some "transferChecked"]%string /\ exists a, tix_amount ix = Ret a /\ 0 <= a.

Definition token_count (ixs : list tix) : Z := foldr (fun ix acc => (if is_token_ix ix then 1 else 0) + acc) 0 ixs.

Lemma bump_sent_lookup src a flow k :
  bump_sent src a flow !! k = (fun f => (f.1 + (if bool_decide (src = Some k) then a else 0), f.2)) <$> flow !! k.
Proof.
  destruct src as [s|]; cbn [bump_sent].
  2: { rewrite bool_decide_false by done. destruct (flow !! k) as [[x y]|]; cbn; [by rewrite Z.add_0_r|done]. }
  destruct (decide (s = k)) as [->|Hne].
  - rewrite bool_decide_true by done. destruct (flow !! k) as [f|] eqn:E; [by rewrite lookup_insert_eq|by rewrite E].
  - rewrite bool_decide_false by congruence.
    assert (E : (match flow !! s with Some f => <[s := (f.1 + a, f.2)]> flow | None => flow end) !! k = flow !! k)
      by (destruct (flow !! s); [by rewrite lookup_insert_ne|done]).
    rewrite E. destruct (flow !! k) as [[x y]|]; cbn; [by rewrite Z.add_0_r|done].
Qed.

Lemma bump_received_lookup dst a flow k :
  bump_received dst a flow !! k = (fun f => (f.1, f.2 + (if bool_decide (dst = Some k) then a else 0))) <$> flow !! k.
Proof.
  destruct dst as [s|]; cbn [bump_received].
  2: { rewrite bool_decide_false by done. destruct (flow !! k) as [[x y]|]; cbn; [by rewrite Z.add_0_r|done]. }
  destruct (decide (s = k)) as [->|Hne].
  - rewrite bool_decide_true by done. destruct (flow !! k) as [f|] eqn:E; [by rewrite lookup_insert_eq|by rewrite E].
  - rewrite bool_decide_false by congruence.
    assert (E : (match flow !! s with Some f => <[s := (f.1, f.2 + a)]> flow | None => flow end) !! k = flow !! k)
      by (destruct (flow !! s); [by rewrite lookup_insert_ne|done]).
    rewrite E. destruct (flow !! k) as [[x y]|]; cbn; [by rewrite Z.add_0_r|done].
Qed.

Lemma flow_loop_sums ixs : forall flow n flow' n',
  flow_loop ixs flow n = Ret (Some (flow', n')) ->
  Forall readable ixs /\ n' = n + token_count ixs /\
  forall k, flow' !! k = (fun f => (f.1 + moved ti_source k ixs, f.2 + moved ti_dest k ixs)) <$> flow !! k.
Proof.
  induction ixs as [|ix ixs IH]; intros flow n flow' n'; cbn [flow_loop token_count moved foldr].
  { intros [= <- <-]. split; [constructor|]. split; [lia|]. intros k. destruct (flow !! k) as [[x y]|]; cbn; [by rewrite !Z.add_0_r|done]. }
  fold (token_count ixs). destruct (is_token_ix ix) eqn:Et; cbn [negb andb].
  2: { intros (H1 & -> & H3)%IH. split; [constructor; [by unfold readable; rewrite Et|done]|]. split; [lia|]. intros k.
       rewrite H3. reflexivity. }
  destruct (bool_decide_reflect (ti_type ix ∈ [Some "transfer"; Some "transferChecked"]%string)) as [Hty|]; [|done]. cbn [negb].
  intros H. apply py_bind_Ret in H as (a & Ha & H). destruct (Z.ltb_spec a 0); [done|].
  apply IH in H as (H1 & -> & H3). split; [constructor; [|done]|].
  { intros _. split; [done|]. by exists a. }
  split; [lia|]. intros k. rewrite H3, bump_received_lookup, bump_sent_lookup. fold (moved ti_source k ixs) (moved ti_dest k ixs).
  assert (Ea : amount_or0 ix = a) by (unfold amount_or0; by rewrite Ha). rewrite Ea.
  destruct (flow !! k) as [[x y]|]; cbn; [|done]. do 2 f_equal; lia.
Qed.

Lemma flow_loop_total ixs : forall flow n,
  Forall readable ixs -> exists flow', flow_loop ixs flow n = Ret (Some (flow', n + token_count ixs)).
Proof.
  induction ixs as [|ix ixs IH]; intros flow n Hf; cbn [flow_loop token_count foldr]; [exists flow; by rewrite Z.add_0_r|].
  fold (token_count ixs). apply Forall_cons in Hf as [Hr Hf]. destruct (is_token_ix ix) eqn:Et; cbn [negb].
  2: { destruct (IH flow n Hf) as [f' H']. exists f'. rewrite H'. do 3 f_equal; lia. }
  destruct (Hr Et) as (Hty & a & Ha & Hpos). rewrite bool_decide_true by done. cbn [negb]. rewrite Ha. cbn [py_bind].
  destruct (Z.ltb_spec a 0); [lia|]. destruct (IH (bump_received (ti_dest ix) a (bump_sent (ti_source ix) a flow)) (n + 1) Hf) as [f' H'].
  exists f'. rewrite H'. do 3 f_equal; lia.
Qed.

Lemma moved_nothing side k ixs : token_count ixs = 0 -> moved side k ixs = 0.
Proof.
  assert (Hpos : forall l, 0 <= token_count l).
  { induction l as [|x l IH]; cbn [token_count foldr]; [lia|]. fold (token_count l). destruct (is_token_ix x); lia. }
  induction ixs as [|ix ixs IH]; cbn [token_count moved foldr]; [done|]. fold (token_count ixs) (moved side k ixs).
  intros H. pose proof (Hpos ixs). destruct (is_token_ix ix); [lia|]. cbn [andb]. rewrite IH by lia. lia.
Qed.

(** The amounts are the sums of the transfers. *)
Definition sums (ixs : list tix) (user_quote user_base : string) (r : cycle_amounts) : Prop :=
  ca_in r = moved ti_source user_quote ixs /\ ca_out r = moved ti_dest user_quote ixs /\
  ca_mid r = moved ti_dest user_base ixs /\ ca_mid r = moved ti_source user_base ixs /\
  ca_in r <> 0 /\ ca_mid r <> 0 /\ ca_gross r = ca_out r - ca_in r.

Lemma read_cycle_sums ixs uq ub committed r :
  uq <> ub ->
  read_cycle ixs uq ub committed = Ret (Some r) <-> Forall readable ixs /\ sums ixs uq ub r /\ ca_committed r = committed.
Proof.
  intros Hne. unfold read_cycle. set (flow0 := <[ub := (0, 0)]> (<[uq := (0, 0)]> ∅) : gmap string (Z * Z)).
  assert (Hq : flow0 !! uq = Some (0, 0)) by (unfold flow0; rewrite lookup_insert_ne by done; by rewrite lookup_insert_eq).
  assert (Hb : flow0 !! ub = Some (0, 0)) by (unfold flow0; by rewrite lookup_insert_eq).
  assert (Hflow : forall flow' n, flow_loop ixs flow0 0 = Ret (Some (flow', n)) ->
    Forall readable ixs /\ n = token_count ixs /\ key_of flow' uq = Ret (moved ti_source uq ixs, moved ti_dest uq ixs) /\
    key_of flow' ub = Ret (moved ti_source ub ixs, moved ti_dest ub ixs)).
  { intros flow' n H. apply flow_loop_sums in H as (H1 & -> & H3). unfold key_of. rewrite !H3, Hq, Hb. done. }
  split.
  - intros H. apply py_bind_Ret in H as ([[flow' n]|] & Hl & H); [|done]. destruct (Hflow _ _ Hl) as (Hr & -> & E1 & E2).
    rewrite E1, E2 in H. cbn [py_bind fst snd] in H. destruct (_ =? 0); [done|].
    destruct (Z.eqb_spec (moved ti_source uq ixs) 0); [done|]. destruct (Z.eqb_spec (moved ti_dest ub ixs) 0); [done|].
    destruct (Z.eqb_spec (moved ti_dest ub ixs) (moved ti_source ub ixs)); [|done]. injection H as <-.
    by repeat split.
  - intros (Hr & (E1 & E2 & E3 & E4 & N1 & N2 & E5) & E6). destruct (flow_loop_total ixs flow0 0 Hr) as [flow' Hl].
    destruct (Hflow _ _ Hl) as (_ & En & K1 & K2). rewrite Hl. cbn [py_bind]. rewrite K1, K2. cbn [py_bind fst snd]. rewrite En.
    destruct (Z.eqb_spec (token_count ixs) 0) as [E0|]; [by rewrite E1, moved_nothing in N1|].
    rewrite <- E1, <- E2, <- E3, <- E4. destruct (Z.eqb_spec (ca_in r) 0); [done|]. destruct (Z.eqb_spec (ca_mid r) 0); [done|].
    rewrite Z.eqb_refl. cbn [orb negb]. rewrite <- E5, <- E6. by destruct r.
Qed.

(** The end of the run that lets its transfers be read. *)
Definition readable_run (v : simulated) (executor : string) : Prop :=
  sm_err v <> ErrOther /\ venue_ok (sm_logs v) Pda.DLMM = true /\ venue_ok (sm_logs v) ExecTemplate.PUMP = true /\
  (sm_err v = ErrCustom6 -> ("Program " ++ executor ++ " failed: custom program error: 0x6")%string ∈ sm_logs v).

(** The amounts of a simulated cycle are sums of its transfers: they are given exactly for a
    run that ended well or in the executor's own profit guard, with both venues succeeding and each
    token instruction a transfer, where the base token received is all passed on; the input is
    all that left the quote account, the output all that came back, whatever the order. *)
Theorem cycle_amounts_exact v user_quote user_base executor r :
  user_quote <> user_base ->
  transient_cycle_amounts v user_quote user_base executor = Ret (Some r) <->
  readable_run v executor /\ Forall readable (sm_inner v) /\
  sums (sm_inner v) user_quote user_base r /\ (ca_committed r = true <-> sm_err v = ErrNone).
Proof.
  intros Hne. unfold transient_cycle_amounts, readable_run.
  destruct (venue_ok (sm_logs v) Pda.DLMM); [|split; [by destruct (sm_err v)|by intros ((_ & ? & _) & _)]].
  destruct (venue_ok (sm_logs v) ExecTemplate.PUMP); [|split; [by destruct (sm_err v)|by intros ((_ & _ & ? & _) & _)]].
  cbn [andb negb]. destruct (sm_err v) eqn:Ee; cbn [negb andb].
  - rewrite read_cycle_sums by done. split; [intros (H1 & H2 & H3); by rewrite H3|]. intros (_ & H1 & H2 & H3). by rewrite (proj2 H3).
  - destruct (bool_decide_reflect (("Program " ++ executor ++ " failed: custom program error: 0x6")%string ∈ sm_logs v)) as [Hlog|Hlog]; cbn [negb].
    + rewrite read_cycle_sums by done. split; [intros (H1 & H2 & H3); by rewrite H3|]. intros (_ & H1 & H2 & H3).
      split; [done|]. split; [done|]. destruct (ca_committed r); [by specialize (proj1 H3 eq_refl)|done].
    + split; [done|]. intros ((_ & _ & _ & H) & _). by specialize (H eq_refl).
  - split; [done|]. by intros ((H & _) & _).
Qed.

(** * The bins a direction walks *)

(** A quoted bin shows what the account holds, and no orders are hidden in it. *)
Definition shows (q : qbin) (p : Z * pub_bin) : Prop :=
  q_id q = p.1 /\ q_x q = p_x p.2 /\ q_y q = p_y p.2 /\ p_open p.2 = 0 /\ p_proc_rem p.2 = 0.

(** The account [key] is the pair's bin array of this index. *)
Definition array_account (pk : bytes -> pyres string) (accs : gmap string (option sacct)) (pair : string)
    (index : Z) (key : string) (data : bytes) : Prop :=
  exists a, accs !! key = Some (Some a) /\ sa_owner a = Pda.DLMM /\ sa_data a = Some data /\
    take 8 data = BINARR_DISC /\ 10136 <= blen data /\ array_lo data = index * MAX_BIN /\ pk (slice 24 56 data) = Ret pair.

Lemma parse_bin_price raw off b : parse_bin raw off = Ret b -> exists p, b !! "price"%string = Some p.
Proof.
  unfold parse_bin. destruct (_ <? _); [done|]. intros H.
  repeat (let x := fresh "x" in apply py_bind_Ret in H as (x & _ & H)). injection H as <-.
  eexists. vm_compute. reflexivity.
Qed.

Lemma parse_bins_price body lo n : forall i bs, parse_bins body lo n i = Ret bs -> Forall (fun b : bdict => exists p, b !! "price"%string = Some p) bs.
Proof.
  induction n as [|n IH]; intros i bs; cbn [parse_bins]; [intros [= <-]; constructor|]. intros H.
  apply py_bind_Ret in H as (b & Hb & H). apply py_bind_Ret in H as (rest & Hr & [= <-]). constructor; [|by apply (IH _ _ Hr)].
  rewrite lookup_insert_ne by done. by apply parse_bin_price in Hb.
Qed.

(** An index read from the account is the array's. *)
Lemma array_index data i : 10136 <= blen data -> unpack_s 8 data 8 = Ret i <-> array_lo data = i * MAX_BIN.
Proof.
  intros Hl. unfold unpack_s. rewrite unpack_u_ok by lia. cbn [py_bind]. unfold array_lo, MAX_BIN. fold (fld 8 data 8).
  replace (fld 8 (drop 8 data) 0) with (fld 8 data 8); [split; [by intros [= <-]|intros H; f_equal; lia]|].
  unfold fld, slice. by rewrite drop_drop.
Qed.

Lemma any_orders_false bs :
  any_orders bs = Ret false <->
  Forall (fun b : bdict => b !! "open_order_amount"%string = Some 0 /\ b !! "processed_order_remaining_amount"%string = Some 0) bs.
Proof.
  induction bs as [|b bs IH]; cbn [any_orders]; [by split; [constructor|]|]. rewrite Forall_cons, <- IH. unfold has_orders, get_key.
  destruct (b !! "open_order_amount"%string) as [o|]; cbn [py_bind]; [|by split; [|intros [[? _] _]]].
  destruct (Z.eqb_spec o 0) as [->|]; cbn [negb py_bind]; [|split; [done|intros [[[= ?] _] _]; done]].
  destruct (b !! "processed_order_remaining_amount"%string) as [r|]; cbn [py_bind]; [|by split; [|intros [[_ ?] _]]].
  destruct (Z.eqb_spec r 0) as [->|]; cbn [negb]; [by split; [|intros []]|]. split; [done|intros [[_ [= ?]] _]; done].
Qed.

Definition orderless (p : Z * pub_bin) : Prop := p_open p.2 = 0 /\ p_proc_rem p.2 = 0.

Lemma quote_bins_show parsed ps bs :
  Forall2 reads parsed ps -> any_orders parsed = Ret false -> py_map quote_bin parsed = Ret bs -> Forall2 shows bs ps.
Proof.
  intros Hf. revert bs. induction Hf as [|b p parsed ps (R1 & R2 & R3 & R4 & R5 & _) Hf IH]; intros bs Ho; cbn [py_map].
  { intros [= <-]. constructor. }
  apply any_orders_false in Ho. apply Forall_cons in Ho as [[O1 O2] Ho]. apply any_orders_false in Ho. intros H.
  apply py_bind_Ret in H as (q & Hq & H). apply py_bind_Ret in H as (qs & Hqs & [= <-]). constructor; [|by apply IH].
  unfold quote_bin, get_key in Hq. rewrite R1, R2, R3 in Hq. cbn [py_bind] in Hq. destruct (b !! "price"%string) as [pr|]; [|done].
  injection Hq as <-. rewrite R4 in O2. rewrite R5 in O1. by split_and!; [..|injection O1|injection O2].
Qed.

Lemma quote_bins_total parsed ps :
  Forall2 reads parsed ps -> Forall (fun b : bdict => exists p, b !! "price"%string = Some p) parsed -> Forall orderless ps ->
  any_orders parsed = Ret false /\ exists bs, py_map quote_bin parsed = Ret bs.
Proof.
  intros Hf Hp Ho. split.
  - apply any_orders_false. clear Hp. induction Hf as [|b p parsed ps (_ & _ & _ & R4 & R5 & _) Hf IH]; [constructor|].
    apply Forall_cons in Ho as [[O1 O2] Ho]. constructor; [by rewrite R4, R5, O1, O2|by apply IH].
  - clear Ho. induction Hf as [|b p parsed ps (R1 & R2 & R3 & _) Hf IH]; cbn [py_map]; [by eexists|].
    apply Forall_cons in Hp as [[pr Hpr] Hp]. destruct (IH Hp) as [bs ->]. unfold quote_bin, get_key. rewrite R1, R2, R3, Hpr.
    cbn [py_bind]. by eexists.
Qed.

Lemma parsed_length data parsed :
  Inventory.parse_bin_array data = Ret parsed -> Forall2 reads parsed (array_pairs data) -> 10136 <= blen data -> length parsed = 70%nat.
Proof.
  intros _ Hf Hl. apply Forall2_length in Hf. rewrite Hf. unfold array_pairs. destruct (Z.ltb_spec (blen data) 10136); [lia|].
  by rewrite length_fmap, length_seq.
Qed.

Lemma snapshot_array_Ret pk accs pair m index key m' :
  snapshot_array pk accs pair m (index, key) = Ret m' ->
  exists data bs, array_account pk accs pair index key data /\ m' = <[index := bs]> m /\ Forall2 shows bs (array_pairs data).
Proof.
  cbn [snapshot_array]. intros H. apply py_bind_Ret in H as (a & Ha & H). apply py_bind_Ret in H as (data & Hd & H).
  unfold account_at in Ha. destruct (accs !! key) as [a'|] eqn:Ek; [|done]. injection Ha as <-.
  unfold account_raw in Hd. destruct a' as [a|]; [|done]. destruct (String.eqb_spec (sa_owner a) Pda.DLMM) as [Eo|]; [|done]. cbn [negb] in Hd.
  destruct (sa_data a) as [d|] eqn:Ed; [|done]. injection Hd as <-.
  destruct (bool_decide_reflect (take 8 d = BINARR_DISC)) as [Hdisc|]; [|done]. cbn [negb] in H.
  apply py_bind_Ret in H as (i & Hi & H). destruct (Z.eqb_spec i index) as [->|]; [|done]. cbn [negb] in H.
  apply py_bind_Ret in H as (p & Hp & H). destruct (String.eqb_spec p pair) as [->|]; [|done]. cbn [negb] in H.
  apply py_bind_Ret in H as (parsed & Hpar & H). destruct (Nat.eqb_spec (length parsed) 70) as [Hlen|]; [|done]. cbn [negb] in H.
  apply py_bind_Ret in H as (o & Ho & H). destruct o; [done|]. apply py_bind_Ret in H as (bs & Hbs & [= <-]).
  destruct (parse_bin_array_reads d) as (parsed' & Hpar' & Hf). rewrite Hpar in Hpar'. injection Hpar' as <-.
  assert (Hl : 10136 <= blen d).
  { apply Forall2_length in Hf. rewrite Hlen in Hf. unfold array_pairs in Hf. destruct (Z.ltb_spec (blen d) 10136); [done|lia]. }
  exists d, bs. split; [|split; [done|by apply (quote_bins_show parsed)]]. exists a. split_and!; try done. by apply (array_index d index Hl).
Qed.

Lemma snapshot_array_total pk accs pair m index key data :
  array_account pk accs pair index key data -> Forall orderless (array_pairs data) ->
  exists bs, snapshot_array pk accs pair m (index, key) = Ret (<[index := bs]> m).
Proof.
  intros (a & Ek & Eo & Ed & Hdisc & Hl & Hlo & Hp) Ho. cbn [snapshot_array]. unfold account_at. rewrite Ek. cbn [py_bind account_raw].
  rewrite Eo, Ed, String.eqb_refl. cbn [negb py_bind]. rewrite bool_decide_true by done. cbn [negb].
  rewrite (proj2 (array_index data index Hl) Hlo). cbn [py_bind]. rewrite Z.eqb_refl. cbn [negb]. rewrite Hp. cbn [py_bind].
  rewrite String.eqb_refl. cbn [negb]. destruct (parse_bin_array_reads data) as (parsed & Hpar & Hf). rewrite Hpar. cbn [py_bind].
  rewrite (parsed_length data parsed Hpar Hf Hl). cbn [Nat.eqb negb].
  assert (Hpr : Forall (fun b : bdict => exists p, b !! "price"%string = Some p) parsed).
  { unfold Inventory.parse_bin_array in Hpar. destruct (Z.ltb_spec (blen data) 10136); [lia|].
    apply py_bind_Ret in Hpar as (ix & _ & Hpar). by apply parse_bins_price in Hpar. }
  destruct (quote_bins_total _ _ Hf Hpr Ho) as (-> & bs & ->). cbn [py_bind]. by exists bs.
Qed.

Lemma array_pairs_elem i p data : (i, p) ∈ array_pairs data <-> array_bin i data = Some p.
Proof.
  pose proof (omap_array_pairs i data) as H.
  assert (Hel : (i, p) ∈ array_pairs data <->
    p ∈ omap (fun p : Z * pub_bin => if decide (p.1 = i) then Some p.2 else None) (array_pairs data)).
  { rewrite list_elem_of_omap. split.
    - intros Hin. exists (i, p). split; [done|]. by rewrite decide_True.
    - intros ([j q] & Hin & Hq). cbn [fst snd] in Hq. by destruct (decide (j = i)) as [->|]; [injection Hq as ->|]. }
  rewrite Hel, H. destruct (array_bin i data) as [q|]; [change (option_list (Some q)) with [q]|change (option_list (@None pub_bin)) with (@nil pub_bin)].
  - rewrite list_elem_of_singleton. split; [by intros ->|by intros [= ->]].
  - by split; [intros ?%elem_of_nil|].
Qed.

Lemma array_bin_range i data : 10136 <= blen data ->
  is_Some (array_bin i data) <-> array_lo data <= i < array_lo data + MAX_BIN.
Proof.
  intros Hl. unfold array_bin. rewrite (proj2 (Z.leb_le _ _) Hl). cbn [andb].
  destruct (Z.leb_spec (array_lo data) i), (Z.ltb_spec i (array_lo data + MAX_BIN)); cbn [andb]; split; try lia; try by eexists.
  all: by intros [? ?].
Qed.

Lemma find_bin_app a b i : find_bin (a ++ b) i = match find_bin a i with Some q => Some q | None => find_bin b i end.
Proof. induction a as [|q a IH]; [done|]. cbn [app find_bin]. by destruct (q_id q =? i). Qed.

(** The quoted bin of an id: the account's, when the id is the array's. *)
Lemma find_bin_shows bs data i :
  10136 <= blen data -> Forall2 shows bs (array_pairs data) ->
  (array_lo data <= i < array_lo data + MAX_BIN -> exists q p, find_bin bs i = Some q /\ array_bin i data = Some p /\ shows q (i, p)) /\
  (~ array_lo data <= i < array_lo data + MAX_BIN -> find_bin bs i = None).
Proof.
  intros Hl Hf.
  assert (Hgen : forall ps, Forall2 shows bs ps ->
    (exists q p, find_bin bs i = Some q /\ (i, p) ∈ ps /\ shows q (i, p)) \/ (find_bin bs i = None /\ forall p, (i, p) ∉ ps)).
  { clear Hf. intros ps Hf. induction Hf as [|q [j p] bs ps Hq Hf IH]; [right; split; [done|]; by intros p ?%elem_of_nil|].
    cbn [find_bin]. pose proof Hq as (Hid & _). cbn [fst] in Hid. rewrite Hid. destruct (Z.eqb_spec j i) as [->|Hne].
    - left. exists q, p. split; [done|]. split; [by left|done].
    - destruct IH as [(q' & p' & H1 & H2 & H3)|[H1 H2]].
      + left. exists q', p'. split; [done|]. split; [by right|done].
      + right. split; [done|]. intros p' [[= -> _]|Hin]%elem_of_cons; [done|by apply (H2 p')]. }
  pose proof (array_bin_range i data Hl) as Hr. destruct (Hgen _ Hf) as [(q & p & H1 & H2 & H3)|[H1 H2]].
  - apply array_pairs_elem in H2. split; [intros _; by exists q, p|]. intros Hn. exfalso. apply Hn, Hr. by exists p.
  - split; [|done]. intros Hin. apply Hr in Hin as [p Hp]. apply array_pairs_elem in Hp. by destruct (H2 p).
Qed.

(** The bin [q] of id [i] is what a given array account of the pair holds there, orders none. *)
Definition on_chain (pk : bytes -> pyres string) (accs : gmap string (option sacct)) (pair : string)
    (bin_keys : list (Z * string)) (i : Z) (q : qbin) : Prop :=
  exists index key data p, (index, key) ∈ bin_keys /\ array_account pk accs pair index key data /\
    array_bin i data = Some p /\ shows q (i, p).

(** A direction walks the chain's bins: in the order a quote moves it finds every bin of the
    active array and of the next one, each with the amounts of the pair's own account and without
    a hidden limit order, and no bin outside, where the quote gives nothing. *)
Theorem walked_bins pk accs pair bin_keys active dp pd :
  snapshot_bins pk accs pair bin_keys active = Ret (dp, pd) ->
  forall i,
    (active * MAX_BIN <= i < (active + 2) * MAX_BIN -> exists q, find_bin dp i = Some q /\ on_chain pk accs pair bin_keys i q) /\
    (~ active * MAX_BIN <= i < (active + 2) * MAX_BIN -> find_bin dp i = None) /\
    ((active - 1) * MAX_BIN <= i < (active + 1) * MAX_BIN -> exists q, find_bin pd i = Some q /\ on_chain pk accs pair bin_keys i q) /\
    (~ (active - 1) * MAX_BIN <= i < (active + 1) * MAX_BIN -> find_bin pd i = None).
Proof.
  intros H i. unfold snapshot_bins in H. apply py_bind_Ret in H as (arrays & Ha & H).
  set (P := fun m : gmap Z (list qbin) => forall index bs, m !! index = Some bs ->
    exists key data, (index, key) ∈ bin_keys /\ array_account pk accs pair index key data /\ Forall2 shows bs (array_pairs data)).
  assert (HP : P arrays).
  { apply (py_foldl_inv P (snapshot_array pk accs pair) bin_keys ∅ arrays); [|by intros ? ? ?|exact Ha].
    intros [index key] m1 m2 Hin Hm Hs index' bs' Hlk. apply snapshot_array_Ret in Hs as (data & bs & Hacc & -> & Hsh).
    destruct (decide (index = index')) as [<-|Hne]; [|rewrite lookup_insert_ne in Hlk by done; by apply Hm].
    rewrite lookup_insert_eq in Hlk. injection Hlk as <-. by exists key, data. }
  assert (Hfind : forall index bs, arrays !! index = Some bs ->
    (index * MAX_BIN <= i < (index + 1) * MAX_BIN -> exists q, find_bin bs i = Some q /\ on_chain pk accs pair bin_keys i q) /\
    (~ index * MAX_BIN <= i < (index + 1) * MAX_BIN -> find_bin bs i = None)).
  { intros index bs Hb. apply HP in Hb as (key & data & Hin & Hacc & Hsh).
    pose proof Hacc as (a & _ & _ & _ & _ & Hl & Hlo & _). destruct (find_bin_shows bs data i Hl Hsh) as [H1 H2].
    rewrite Hlo in H1, H2. unfold MAX_BIN in *. split; [|intros; apply H2; lia]. intros Hr.
    destruct (H1 ltac:(lia)) as (q & p & Hq & Hp & Hs). exists q. split; [done|]. by exists index, key, data, p. }
  destruct (arrays !! (active - 1)) as [below|] eqn:E1; [|done]. destruct (arrays !! active) as [at_|] eqn:E2; [|done].
  destruct (arrays !! (active + 1)) as [above|] eqn:E3; [|done]. injection H as <- <-.
  destruct (Hfind _ _ E1) as [B1 B2]. destruct (Hfind _ _ E2) as [A1 A2]. destruct (Hfind _ _ E3) as [C1 C2].
  clear Hfind HP. rewrite !find_bin_app. unfold MAX_BIN in *.
  assert (Hlow : forall x, ~ active * 70 <= i < (active + 1) * 70 -> match find_bin at_ i with Some q => Some q | None => x end = x)
    by (intros x Hx; by rewrite A2).
  destruct (decide (active * 70 <= i < (active + 1) * 70)) as [Hat|Hat].
  - destruct (A1 Hat) as (q & -> & Hq). split; [intros _; by exists q|]. split; [lia|]. split; [intros _; by exists q|lia].
  - rewrite (Hlow _ Hat), (Hlow _ Hat). split; [intros; apply C1; lia|]. split; [intros; apply C2; lia|].
    split; [intros; apply B1; lia|intros; apply B2; lia].
Qed.

(** * On concrete data *)

(** A mint with a metadata pointer, and the account of the same token that a transfer hook would need. *)
Definition demo_mint (kind : Z) : bytes :=
  replicate 45 0 ++ [1] ++ replicate 119 0 ++ [1] ++ tlv (kind, replicate 6 9) ++ replicate 10 0.

Lemma demo_mint_bytes kind : is_bytes (demo_mint kind).
Proof.
  unfold demo_mint, tlv. rewrite !is_bytes_app. cbn [fst snd].
  repeat split; try apply is_bytes_le_enc; repeat constructor; lia.
Qed.

Lemma token_data_exact_witness :
  token_data (Some (SAcct TOKEN22 (Some (demo_mint 18)))) true = Ret (demo_mint 18, [18]) /\
  token_data (Some (SAcct TOKEN22 (Some (demo_mint 14)))) true <> Ret (demo_mint 14, [14]).
Proof.
  split.
  - apply (token_data_exact (demo_mint 18) true (demo_mint 18) [18] (demo_mint_bytes 18)).
    split; [reflexivity|]. split; [vm_compute; discriminate|]. split; [reflexivity|]. right.
    split; [vm_compute; discriminate|]. split; [reflexivity|]. split; [intros _; vm_compute; repeat constructor|].
    exists [(18, replicate 6 9)], 10%nat. split; [vm_compute; reflexivity|]. split; [reflexivity|]. split; [apply NoDup_singleton|].
    apply Forall_singleton. split; [left|]. split; [vm_compute; reflexivity|discriminate].
  - intros H. apply (token_data_exact (demo_mint 14) true _ [14] (demo_mint_bytes 14)) in H as (_ & _ & _ & [[H _]|(_ & _ & _ & exts & k & _ & H & _ & Hf)]).
    + vm_compute in H. discriminate H.
    + destruct exts as [|[kk pl] exts]; [discriminate H|]. injection H as <- _. apply Forall_cons in Hf as [(Hk & _) _].
      apply allowed_range in Hk as Hr. cbn [allowed_ext] in Hk. repeat (apply elem_of_cons in Hk as [Hk|Hk]; [discriminate Hk|]).
      by apply elem_of_nil in Hk.
Defined.

Lemma extensions_terminate_witness :
  ext_loop 1000 true (demo_mint 18) 166 [] = ext_loop 3 true (demo_mint 18) 166 [].
Proof. apply (extensions_terminate true (demo_mint 18)). lia. Defined.

Definition demo_snapshot : snapshot_state := {|
  ss_dp := demo_dlmm; ss_pd := demo_dlmm; ss_pump := demo_pump;
  ss_fees := FeeState false false SrcFlat 0 QSol 20 5 30 FromSchedule 30 0 [] [] "" [];
  ss_extensions := ∅; ss_inventory := 2000; ss_now := 0; ss_active := 0 |}.

Lemma demo_pump_fine : pump_ok demo_pump.
Proof. constructor; vm_compute; (split; discriminate) || discriminate. Qed.

Lemma rows_execute_witness :
  exists rows r out, quote_sizes demo_snapshot [1000; 3000] = Ret rows /\ r ∈ rows /\ qr_dp r = true /\ qr_in r = 1000 /\
    qr_out r = Some out /\ executes demo_snapshot true 1000 out.
Proof.
  destruct (quote_sizes demo_snapshot [1000; 3000]) as [rows|e] eqn:E; [|vm_compute in E; discriminate E].
  assert (Hs : Forall (fun a => 0 <= a) [1000; 3000]) by (repeat constructor; lia).
  pose proof (rows_execute demo_snapshot [1000; 3000] rows demo_pump_fine demo_dlmm_ok Hs E) as [H1 H2].
  destruct (proj2 (H1 true 1000)) as (r & Hr & Hd & Hi); [split; [by left|vm_compute; discriminate]|].
  destruct (qr_out r) as [out|] eqn:Eo.
  - exists rows, r, out. split; [reflexivity|]. split; [exact Hr|]. split; [exact Hd|]. split; [exact Hi|]. split; [exact Eo|].
    destruct (H2 r Hr) as (Hx & _). rewrite Hd, Hi, Eo in Hx. by apply Hx.
  - exfalso. vm_compute in E. injection E as <-.
    repeat (apply elem_of_cons in Hr as [->|Hr]; [vm_compute in Hd; vm_compute in Eo; congruence|]). by apply elem_of_nil in Hr.
Defined.

Definition demo_transfer (src dst : string) (a : Z) : tix :=
  TIx (Some TOKEN) (Some "transfer"%string) (Some src) (Some dst) (Some (VInt a)) None.
Definition demo_run : simulated := Simulated ErrCustom6
  ["Program " ++ Pda.DLMM ++ " success"; "Program " ++ ExecTemplate.PUMP ++ " success";
   "Program executor failed: custom program error: 0x6"]%string
  [demo_transfer "Q" "vault" 100; demo_transfer "vault" "B" 300; demo_transfer "B" "vault" 300; demo_transfer "vault" "Q" 95].

Lemma cycle_amounts_exact_witness :
  transient_cycle_amounts demo_run "Q" "B" "executor" = Ret (Some (CycleAmounts 100 300 95 (-5) false)) /\ 
  95 = moved ti_dest "Q" (sm_inner demo_run).
Proof.
  assert (H : transient_cycle_amounts demo_run "Q" "B" "executor" = Ret (Some (CycleAmounts 100 300 95 (-5) false)))
    by (vm_compute; reflexivity).
  split; [exact H|].
  assert (Hne : "Q"%string <> "B"%string) by discriminate.
  apply (cycle_amounts_exact demo_run "Q" "B" "executor" (CycleAmounts 100 300 95 (-5) false) Hne) in H as (_ & _ & (_ & H & _) & _).
  exact H.
Defined.

(** Three arrays of the pair; the first bin of each holds five of token X. *)
Definition demo_pk (b : bytes) : pyres string := Ret (b58encode b).
Definition demo_pair : string := b58encode (replicate 32 6).
Definition demo_bins (index : Z) : bytes :=
  (BINARR_DISC ++ le_enc 8 index ++ replicate 8 0 ++ replicate 32 6 ++ le_enc 8 5) ++ replicate (Z.to_nat 10072) 0.
Lemma fld_zeros n pre k off : blen pre <= off -> fld n (pre ++ replicate k 0) off = 0.
Proof.
  intros H. unfold fld, slice, blen in *. rewrite drop_app_ge by lia. rewrite drop_replicate, take_replicate. apply le_dec_zeros.
Qed.

Lemma blen_demo_bins index : blen (demo_bins index) = 10136.
Proof. unfold demo_bins. rewrite blen_app. unfold blen at 2. rewrite length_replicate, Z2Nat.id by lia. reflexivity. Qed.

Lemma demo_bins_orderless index : Forall orderless (array_pairs (demo_bins index)).
Proof.
  unfold array_pairs. rewrite blen_demo_bins. cbn [Z.ltb Z.compare Pos.compare Pos.compare_cont]. apply Forall_fmap, Forall_forall. intros j _.
  unfold compose, orderless, pub_at. cbn [snd p_open p_proc_rem]. unfold demo_bins.
  rewrite drop_app_le by (rewrite !length_app, !length_le_enc; cbn; lia).
  assert (Hp : blen (drop 8 (BINARR_DISC ++ le_enc 8 index ++ replicate 8 0 ++ replicate 32 6 ++ le_enc 8 5)) = 56) by reflexivity.
  unfold BINS_OFF, BIN_SIZE. split; apply fld_zeros; rewrite Hp; lia.
Qed.

Lemma demo_array_account accs key index :
  accs !! key = Some (Some (SAcct Pda.DLMM (Some (demo_bins index)))) -> index = 0 \/ index = 1 \/ index = 2 ->
  array_account demo_pk accs demo_pair index key (demo_bins index).
Proof.
  intros Hk Hi. exists (SAcct Pda.DLMM (Some (demo_bins index))). split; [exact Hk|]. split; [reflexivity|]. split; [reflexivity|].
  split; [reflexivity|]. rewrite blen_demo_bins. split; [lia|]. split.
  - unfold array_lo, fld. f_equal. unfold demo_bins.
    rewrite drop_app_le by (rewrite !length_app, !length_le_enc; cbn; lia).
    destruct Hi as [->|[->| ->]]; reflexivity.
  - unfold demo_pk, demo_pair. do 2 f_equal; reflexivity.
Qed.

(** The accounts exist, whatever else is in them. *)
Lemma demo_accounts_given :
  exists (accs : gmap string (option sacct)) d0 d1 d2,
    array_account demo_pk accs demo_pair 0 "a" d0 /\ array_account demo_pk accs demo_pair 1 "b" d1 /\
    array_account demo_pk accs demo_pair 2 "c" d2 /\
    Forall orderless (array_pairs d0) /\ Forall orderless (array_pairs d1) /\ Forall orderless (array_pairs d2).
Proof.
  exists (<["a"%string := Some (SAcct Pda.DLMM (Some (demo_bins 0)))]> (<["b"%string := Some (SAcct Pda.DLMM (Some (demo_bins 1)))]>
    (<["c"%string := Some (SAcct Pda.DLMM (Some (demo_bins 2)))]> ∅))), (demo_bins 0), (demo_bins 1), (demo_bins 2).
  split; [apply demo_array_account; [by rewrite lookup_insert_eq|auto]|].
  split; [apply demo_array_account; [by rewrite lookup_insert_ne, lookup_insert_eq by done|auto]|].
  split; [apply demo_array_account; [by rewrite !lookup_insert_ne, lookup_insert_eq by done|auto]|].
  split; [apply demo_bins_orderless|split; apply demo_bins_orderless].
Qed.

Lemma walked_bins_witness :
  exists accs dp pd q, snapshot_bins demo_pk accs demo_pair [(0, "a"%string); (1, "b"%string); (2, "c"%string)] 1 = Ret (dp, pd) /\
    find_bin dp 75 = Some q /\ find_bin dp 69 = None /\ find_bin pd 210 = None.
Proof.
  destruct demo_accounts_given as (accs & d0 & d1 & d2 & A0 & A1 & A2 & O0 & O1 & O2).
  destruct (snapshot_array_total demo_pk accs demo_pair ∅ 0 "a" d0 A0 O0) as [b0 H0].
  destruct (snapshot_array_total demo_pk accs demo_pair (<[0 := b0]> ∅) 1 "b" d1 A1 O1) as [b1 H1].
  destruct (snapshot_array_total demo_pk accs demo_pair (<[1 := b1]> (<[0 := b0]> ∅)) 2 "c" d2 A2 O2) as [b2 H2].
  assert (H : snapshot_bins demo_pk accs demo_pair [(0, "a"%string); (1, "b"%string); (2, "c"%string)] 1
    = Ret (b1 ++ b2, b1 ++ b0)).
  { unfold snapshot_bins. cbn [py_foldl]. rewrite H0. cbn [py_bind]. rewrite H1. cbn [py_bind]. rewrite H2. cbn [py_bind].
    change (1 - 1) with 0. change (1 + 1) with 2.
    rewrite (lookup_insert_ne _ 2 0), (lookup_insert_ne _ 1 0), lookup_insert_eq by lia.
    rewrite (lookup_insert_ne _ 2 1), lookup_insert_eq by lia. by rewrite lookup_insert_eq. }
  destruct (walked_bins demo_pk accs demo_pair _ 1 _ _ H 75) as ((q & Hq & _) & _); [unfold MAX_BIN; lia|].
  destruct (walked_bins demo_pk accs demo_pair _ 1 _ _ H 69) as (_ & H69 & _).
  destruct (walked_bins demo_pk accs demo_pair _ 1 _ _ H 210) as (_ & _ & _ & H210).
  exists accs, (b1 ++ b2), (b1 ++ b0), q. split; [exact H|]. split; [exact Hq|].
  split; [apply H69; unfold MAX_BIN; lia|apply H210; unfold MAX_BIN; lia].
Defined.
