(* ===== verification/Rabbit.v ===== *)
(** The feed race: arb-feed/rabbit/rabbit001.py.  Transactions of the RabbitStream feed and frames
    of the OrbitFlare feed meet by signature in a table of bounded size; each pair gives the lead
    of one feed over the other.

    The worker takes one item after another from its queue, so the table changes item by item; the
    metrics thread reads it between two items.  Clocks are inputs.  The streams, the tail of the
    audit file and the output files are outside; the lines of the journal are modelled. *)
From stdpp Require Import base list strings gmap sorting.
From Stdlib Require Import ZArith Lia.
From S2P Require Import Prelude PyBytes Base58 TxExpect PyVal.
Open Scope Z_scope.

Definition PROG : list (string * string) := [
  ("dlmm", "LBUZKhRxPF3XUpBCjp4YzTKgLccjZhTSDM9YuVaPwxo");
  ("pump", "pAMMBay6oceH9fJKBRHGP5D4bD4sWpmSwMn52FMfXEA");
  ("clmm", "CAMMCzo5YL8w4VFF8KVHrK22GGUsp5VTaW7grrKgrWqK");
  ("cpmm", "CPMMoo8L3F4NbTegBCKVNunggL7H1ZpdTHKxQB5qKP1C");
  ("damm", "cpamdpZCGKUy5JxQXB4dcpGPiikHawvSWAd6mEn1sGG");
  ("orca", "whirLbMiicVdio4qvUfM5KAg6Ct8VwpYzGff3uctyCc")]%string.
Definition PROG_REV : list (string * string) := (fun kv => (kv.2, kv.1)) <$> PROG.
Definition RABBIT_LAT_CAP : nat := 16384.
Definition TABLE_CAP : nat := 80000.
Definition LEAD_BUCKETS : list (Z * string) := [
  (20000000, ">20ms"); (10000000, "10-20ms"); (5000000, "5-10ms"); (2000000, "2-5ms"); (1000000, "1-2ms");
  (500000, "0.5-1ms"); (0, "0-0.5ms")]%string.

Fixpoint first_bucket (a : Z) (bs : list (Z * string)) : string :=
  match bs with
  | [] => "0-0.5ms"
  | (lim, name) :: bs' => if lim <? a then name else first_bucket a bs'
  end.
Definition bucket_lead (ns : Z) : string := first_bucket (Z.abs ns) LEAD_BUCKETS.

(** The element at [int(p * (len(s) - 1))] of the sorted list, for p = [num]/1000: the product of
    floats truncates to the exact quotient at every length the table can have. *)
Definition _pct (v : list Z) (num : Z) : Z :=
  match v with
  | [] => 0
  | _ => nth (Z.to_nat (num * (Z.of_nat (length v) - 1) / 1000)) (merge_sort Z.le v) 0
  end.

(** * A transaction of the feed *)

Record rix := Rix { ri_program : nat; ri_accounts : list nat }.
Record rabbit_info := RabbitInfo {
  ra_signature : bytes; ra_sigs : list bytes; ra_keys : list bytes; ra_ixs : list rix; ra_blockhash : bytes;
  ra_versioned : bool; ra_vote : bool }.

Record tx_meta := TxMeta {
  tm_nsig : nat; tm_nkeys : nat; tm_ninstr : nat; tm_versioned : bool; tm_len : nat; tm_keys : list string;
  tm_progs : list string; tm_valid : bool }.

(** The keys of 32 bytes; [None]: one has another length. *)
Fixpoint key_texts (ks : list bytes) : option (list string) :=
  match ks with
  | [] => Some []
  | k :: ks' => if negb (length k =? 32)%nat then None else (fun r => b58encode k :: r) <$> key_texts ks'
  end.

(** The programs called so far, and whether the loop came to its end. *)
Fixpoint called (keys : list string) (ixs : list rix) : bool * list string :=
  match ixs with
  | [] => (true, [])
  | ix :: ixs' =>
      match keys !! ri_program ix with
      | None => (false, [])
      | Some k =>
          if negb (forallb (fun a => a <? length keys)%nat (ri_accounts ix)) then (false, []) else
          let r := called keys ixs' in (r.1, k :: r.2)
      end
  end.

Definition validate_tx (info : rabbit_info) : bool * tx_meta :=
  let nsig := length (ra_sigs info) in
  let nkeys := length (ra_keys info) in
  let nix := length (ra_ixs info) in
  let len := (sum_list (length <$> ra_sigs info) + length (ra_blockhash info))%nat in
  let meta := TxMeta nsig nkeys nix (ra_versioned info) len in
  if bool_decide (ra_sigs info = []) || bool_decide (ra_keys info = []) || bool_decide (ra_ixs info = [])
  then (false, meta [] [] false) else
  if negb (bool_decide (ra_signature info = [])) && negb (bool_decide (head (ra_sigs info) = Some (ra_signature info)))
  then (false, meta [] [] false) else
  match key_texts (ra_keys info) with
  | None => (false, meta [] [] false)
  | Some keys => let r := called keys (ra_ixs info) in (r.1, meta keys r.2 r.1)
  end.

Record cls := Cls { c_proto : option string; c_known : bool; c_route0 : bool; c_searchable : bool; c_have_n : bool }.

Fixpoint first_proto (keys : list string) : option string :=
  match keys with
  | [] => None
  | k :: keys' => match od_get PROG_REV k with Some p => Some p | None => first_proto keys' end
  end.

Definition classify (keys : list string) (known route0 : gset string) : cls :=
  let proto := first_proto keys in
  let kn := existsb (fun k => bool_decide (k ∈ known)) keys in
  let r0 := existsb (fun k => bool_decide (k ∈ route0)) keys in
  let have_n := bool_decide (proto ∈ [Some "dlmm"; Some "pump"]%string) in
  Cls proto kn r0 (kn && have_n) have_n.

(** * The table *)

Record rabbit_ev := RabbitEv { rv_rx : Z; rv_slot : Z; rv_meta : tx_meta; rv_cls : cls }.
Record of_ev := OfEv { oe_framed : Z; oe_t0 : Z; oe_slot : Z; oe_index : Z }.
Inductive winner := WRabbit | WOf | WTie.
Record lead := Lead { ld_ns : Z; ld_diag : Z; ld_first : winner }.

(** A row: what each feed wrote into it ([None]: not seen by that feed), and its score. *)
Record rrow := RRow { w_rabbit : option rabbit_ev; w_of : option of_ev; w_lead : option lead }.

Record race := Race {
  table : gmap string rrow; fifo : list string; rabbit_seen : Z; of_seen : Z; evicted : Z;
  journal : list (string * rrow); valid : Z; invalid : Z; votes : Z; protos : gmap string Z; hot_n : Z; known_n : Z;
  route0_n : Z; lat_cb : list Z; lat_sig : list Z; lat_n : list Z; rlog : list (Z * string * Z * option string * bool) }.

Definition race0 : race := Race ∅ [] 0 0 0 [] 0 0 0 ∅ 0 0 0 [] [] [] [].

Definition with_table (s : race) (t : gmap string rrow) (f : list string) (ev : Z) : race :=
  Race t f (rabbit_seen s) (of_seen s) ev (journal s) (valid s) (invalid s) (votes s) (protos s) (hot_n s) (known_n s)
    (route0_n s) (lat_cb s) (lat_sig s) (lat_n s) (rlog s).
Definition with_seen (s : race) (rs os : Z) : race :=
  Race (table s) (fifo s) rs os (evicted s) (journal s) (valid s) (invalid s) (votes s) (protos s) (hot_n s) (known_n s)
    (route0_n s) (lat_cb s) (lat_sig s) (lat_n s) (rlog s).
Definition with_journal (s : race) (j : list (string * rrow)) : race :=
  Race (table s) (fifo s) (rabbit_seen s) (of_seen s) (evicted s) j (valid s) (invalid s) (votes s) (protos s) (hot_n s)
    (known_n s) (route0_n s) (lat_cb s) (lat_sig s) (lat_n s) (rlog s).
Definition with_counts (s : race) (v iv vt : Z) (p : gmap string Z) (h k r0 : Z) : race :=
  Race (table s) (fifo s) (rabbit_seen s) (of_seen s) (evicted s) (journal s) v iv vt p h k r0 (lat_cb s) (lat_sig s)
    (lat_n s) (rlog s).
Definition with_lats (s : race) (a b c : list Z) : race :=
  Race (table s) (fifo s) (rabbit_seen s) (of_seen s) (evicted s) (journal s) (valid s) (invalid s) (votes s) (protos s)
    (hot_n s) (known_n s) (route0_n s) a b c (rlog s).
Definition with_rlog (s : race) (l : list (Z * string * Z * option string * bool)) : race :=
  Race (table s) (fifo s) (rabbit_seen s) (of_seen s) (evicted s) (journal s) (valid s) (invalid s) (votes s) (protos s)
    (hot_n s) (known_n s) (route0_n s) (lat_cb s) (lat_sig s) (lat_n s) l.

(** [row.get("of_framed_ns") or row.get("known") or row.get("searchable")] *)
Definition protected (r : rrow) : bool :=
  match w_of r with Some e => negb (oe_framed e =? 0) | None => false end ||
  match w_rabbit r with Some e => c_known (rv_cls e) || c_searchable (rv_cls e) | None => false end.

(** The loop of _evict_rabbit_only: the signature to delete, and what is left of the queue. *)
Fixpoint evict_scan (t : gmap string rrow) (f : list string) : option string * list string :=
  match f with
  | [] => (None, [])
  | old :: f' =>
      match t !! old with
      | None => evict_scan t f'
      | Some row => if protected row then evict_scan t f' else (Some old, f')
      end
  end.
Definition _evict_rabbit_only (s : race) : race * bool :=
  match evict_scan (table s) (fifo s) with
  | (Some old, f) => (with_table s (delete old (table s)) f (evicted s + 1), true)
  | (None, f) => (with_table s (table s) f (evicted s), false)
  end.

Section cap.
Context (cap : nat).

Definition full (s : race) : bool := (cap <=? size (table s))%nat.

(** [while len(self.by) >= TABLE_CAP and self._evict_rabbit_only(): pass] *)
Fixpoint evict_down (n : nat) (s : race) : race :=
  match n with
  | O => s
  | S n' => if full s then (let '(s', ok) := _evict_rabbit_only s in if ok then evict_down n' s' else s') else s
  end.

Definition add_row (s : race) (sig : string) : race :=
  with_table s (<[sig := RRow None None None]> (table s)) (fifo s ++ [sig]) (evicted s).

(** The state, and whether the row is there. *)
Definition _ensure_row (s : race) (sig : string) (keep : bool) : race * bool :=
  match table s !! sig with
  | Some _ => (s, true)
  | None =>
      if negb (full s) then (add_row s sig, true) else
      let '(s, ok) := if keep then (s, true) else _evict_rabbit_only s in
      if negb ok then (s, false) else
      let s := evict_down (S (length (fifo s))) s in
      if full s && negb keep then (s, false) else (add_row s sig, true)
  end.

(** [_score]: nothing unless both times are there and not zero. *)
Definition lead_of (r : rrow) : option lead :=
  match w_rabbit r, w_of r with
  | Some a, Some b =>
      if (rv_rx a =? 0) || (oe_framed b =? 0) then None else
      let ns := oe_framed b - rv_rx a in
      Some (Lead ns ((if oe_t0 b =? 0 then oe_framed b else oe_t0 b) - rv_rx a)
              (if 0 <? ns then WRabbit else if ns <? 0 then WOf else WTie))
  | _, _ => None
  end.
Definition _score (s : race) (sig : string) (r : rrow) : race :=
  match lead_of r with
  | Some l =>
      let r := RRow (w_rabbit r) (w_of r) (Some l) in
      with_journal (with_table s (<[sig := r]> (table s)) (fifo s) (evicted s)) (journal s ++ [(sig, r)])
  | None => with_table s (<[sig := r]> (table s)) (fifo s) (evicted s)
  end.

Definition keep_rabbit (e : rabbit_ev) : bool :=
  c_known (rv_cls e) || c_searchable (rv_cls e) || c_route0 (rv_cls e).

Definition put_rabbit (s : race) (sig : string) (e : rabbit_ev) : race :=
  let s := with_seen s (rabbit_seen s + 1) (of_seen s) in
  let '(s, ok) := _ensure_row s sig (keep_rabbit e) in
  match ok, table s !! sig with
  | true, Some row =>
      match w_rabbit row with
      | Some _ => s
      | None => _score s sig (RRow (Some e) (w_of row) (w_lead row))
      end
  | _, _ => s
  end.

Definition put_of (s : race) (sig : string) (e : of_ev) : race :=
  let s := with_seen s (rabbit_seen s) (of_seen s + 1) in
  let '(s, ok) := _ensure_row s sig true in
  match ok, table s !! sig with
  | true, Some row =>
      match w_of row with
      | Some _ => s
      | None => _score s sig (RRow (w_rabbit row) (Some e) (w_lead row))
      end
  | _, _ => s
  end.

(** * The worker *)

(** An item of the queue; with a transaction come its slot, when it was received and the worker's
    three clock readings. *)
Inductive queue_item :=
  | ItemOf (sig : string) (e : of_ev)
  | ItemRabbit (t_rx slot t1 t2 t3 : Z) (info : rabbit_info).

Definition keep_lat (l : list Z) : list Z := if (RABBIT_LAT_CAP <? length l)%nat then drop 1024 l else l.
Definition tally (b : bool) (n : Z) : Z := if b then n + 1 else n.

Definition work (known route0 : gset string) (s : race) (it : queue_item) : race :=
  match it with
  | ItemOf sig e => put_of s sig e
  | ItemRabbit t_rx slot t1 t2 t3 info =>
      let s := with_lats s (keep_lat (lat_cb s ++ [t1 - t_rx])) (lat_sig s) (lat_n s) in
      if ra_vote info
      then with_counts s (valid s) (invalid s) (votes s + 1) (protos s) (hot_n s) (known_n s) (route0_n s) else
      let '(ok, meta) := validate_tx info in
      let s := with_lats s (lat_cb s) (lat_sig s ++ [t2 - t_rx]) (lat_n s ++ [t3 - t_rx]) in
      if negb ok
      then with_counts s (valid s) (invalid s + 1) (votes s) (protos s) (hot_n s) (known_n s) (route0_n s) else
      let sig := hex (ra_signature info) in
      let c := classify (tm_keys meta) known route0 in
      let s := with_counts s (valid s + 1) (invalid s) (votes s)
        (match c_proto c with Some p => <[p := default 0 (protos s !! p) + 1]> (protos s) | None => protos s end)
        (tally (c_have_n c) (hot_n s)) (tally (c_known c) (known_n s)) (tally (c_route0 c) (route0_n s)) in
      let s := put_rabbit s sig (RabbitEv t_rx slot meta c) in
      if valid s mod 8 =? 0 then with_rlog s (rlog s ++ [(t_rx, sig, slot, c_proto c, c_known c)]) else s
  end.
End cap.

(** * What the metrics say *)

Record split := Split {
  sp_n : Z; sp_p10 : Z; sp_p25 : Z; sp_p50 : Z; sp_p75 : Z; sp_p90 : Z; sp_p95 : Z; sp_p99 : Z; sp_min : Z; sp_max : Z;
  sp_rabbit_first : Z; sp_of_first : Z }.

Definition countif {A} (p : A -> bool) (l : list A) : Z := Z.of_nat (length (filter (fun x => p x = true) l)).

Definition min_of (l : list Z) : Z := match l with [] => 0 | x :: l' => foldl Z.min x l' end.
Definition max_of (l : list Z) : Z := match l with [] => 0 | x :: l' => foldl Z.max x l' end.

Definition split_of (xs : list Z) : split :=
  Split (Z.of_nat (length xs)) (_pct xs 100) (_pct xs 250) (_pct xs 500) (_pct xs 750) (_pct xs 900) (_pct xs 950) (_pct xs 990)
    (min_of xs) (max_of xs) (countif (fun x => 0 <? x) xs) (countif (fun x => x <? 0) xs).

Record race_metrics := Metrics {
  m_rabbit_unique : Z; m_of_unique : Z; m_stored : Z; m_evicted : Z; m_matched : Z; m_rabbit_only : Z; m_of_only : Z;
  m_rabbit_first : Z; m_of_first : Z; m_ties : Z; m_all : split; m_dlmm : split; m_pump : split; m_known : split;
  m_route0 : split; m_searchable : split; m_hist_rabbit : list (string * Z); m_hist_of : list (string * Z) }.

(** [hist[bucket_lead(x)] += 1] over the leads *)
Definition hist_of (xs : list Z) : list (string * Z) :=
  foldl (fun h x => od_set h (bucket_lead x) (default 0 (od_get h (bucket_lead x)) + 1)) [] xs.

Definition rows_of (s : race) : list rrow := (map_to_list (table s)).*2.
Definition has_rabbit (r : rrow) : bool := match w_rabbit r with Some e => negb (rv_rx e =? 0) | None => false end.
Definition has_of (r : rrow) : bool := match w_of r with Some e => negb (oe_framed e =? 0) | None => false end.
(** The leads of the scored rows that pass the test. *)
Definition leads (p : cls -> bool) (rows : list rrow) : list Z :=
  omap (fun r => match w_lead r, w_rabbit r with
    | Some l, Some e => if p (rv_cls e) then Some (ld_ns l) else None
    | _, _ => None end) rows.

Definition race_snapshot (s : race) : race_metrics :=
  let rows := rows_of s in
  let rab := countif has_rabbit rows in
  let ofr := countif has_of rows in
  let ls := leads (fun _ => true) rows in
  let matched := Z.of_nat (length ls) in
  let is_proto name := fun c => bool_decide (c_proto c = Some name) in
  Metrics (Z.max (rabbit_seen s) rab) (Z.max (of_seen s) ofr) (Z.of_nat (length rows)) (evicted s) matched
    (rab - matched) (ofr - matched)
    (countif (fun x => 0 <? x) ls) (countif (fun x => x <? 0) ls) (countif (fun x => x =? 0) ls)
    (split_of ls) (split_of (leads (is_proto "dlmm"%string) rows)) (split_of (leads (is_proto "pump"%string) rows))
    (split_of (leads c_known rows)) (split_of (leads c_route0 rows)) (split_of (leads c_searchable rows))
    (hist_of (filter (fun x => 0 <? x = true) ls)) (hist_of (filter (fun x => x <? 0 = true) ls)).

(** * Invariant of the table *)

(** Every signature in the queue has a row, every row is in the queue or protected, scores are
    those of the times, the journal has each scored row once, and above the cap the queue is short. *)
Record race_inv (cap : nat) (s : race) : Prop := {
  ri_nodup : NoDup (fifo s);
  ri_in : forall x, x ∈ fifo s -> is_Some (table s !! x);
  ri_prot : forall x r, table s !! x = Some r -> x ∈ fifo s \/ protected r = true;
  ri_lead : forall x r, table s !! x = Some r -> w_lead r = lead_of r;
  ri_journal : forall x r, (x, r) ∈ journal s <-> table s !! x = Some r /\ is_Some (w_lead r);
  ri_once : NoDup (journal s).*1;
  ri_cap : (cap < size (table s))%nat -> (length (fifo s) <= 1)%nat }.

(** What a row knows, it keeps. *)
Definition extends (r r' : rrow) : Prop :=
  (forall e, w_rabbit r = Some e -> w_rabbit r' = Some e) /\ (forall e, w_of r = Some e -> w_of r' = Some e).

Lemma extends_refl r : extends r r.
Proof. by split. Qed.
Lemma extends_trans r1 r2 r3 : extends r1 r2 -> extends r2 r3 -> extends r1 r3.
Proof. intros [A1 A2] [B1 B2]. split; auto. Qed.

Lemma extends_protected r r' : extends r r' -> protected r = true -> protected r' = true.
Proof.
  intros [H1 H2]. unfold protected. intros [H|H]%orb_prop.
  - destruct (w_of r) as [e|]; [|done]. by rewrite (H2 e eq_refl), H.
  - destruct (w_rabbit r) as [e|]; [|done]. by rewrite (H1 e eq_refl), H, orb_true_r.
Qed.

Lemma lead_protected r l : lead_of r = Some l -> protected r = true.
Proof.
  unfold lead_of, protected. destruct (w_rabbit r); [|done]. destruct (w_of r) as [b|]; [|done].
  destruct (rv_rx _ =? 0); [done|]. by destruct (oe_framed b =? 0).
Qed.

(** The protected rows of [s] are in [s'], grown only. *)
Definition kept (s s' : race) : Prop :=
  forall x r, table s !! x = Some r -> protected r = true -> exists r', table s' !! x = Some r' /\ extends r r'.

Lemma kept_refl s : kept s s.
Proof. intros x r H _. by exists r. Qed.
Lemma kept_trans s1 s2 s3 : kept s1 s2 -> kept s2 s3 -> kept s1 s3.
Proof.
  intros H1 H2 x r Hx Hp. destruct (H1 x r Hx Hp) as (r' & Hx' & He). pose proof (extends_protected _ _ He Hp) as Hp'.
  destruct (H2 x r' Hx' Hp') as (r'' & Hx'' & He'). exists r''. split; [done|]. by eapply extends_trans.
Qed.

(** ** Eviction *)

Lemma evict_scan_spec t f :
  (forall x, x ∈ f -> is_Some (t !! x)) ->
  match evict_scan t f with
  | (Some old, f') => exists pre r, f = pre ++ old :: f' /\ t !! old = Some r /\ protected r = false /\
      forall x r, x ∈ pre -> t !! x = Some r -> protected r = true
  | (None, f') => f' = [] /\ forall x r, x ∈ f -> t !! x = Some r -> protected r = true
  end.
Proof.
  induction f as [|old f IH]; intros Hin; cbn [evict_scan]; [split; [done|]; by intros x r ?%elem_of_nil|].
  destruct (Hin old) as [r Hr]; [by left|]. rewrite Hr. specialize (IH (fun x Hx => Hin x (list_elem_of_further _ _ _ Hx))).
  destruct (protected r) eqn:Ep; [|exists [], r; split_and!; try done; by intros ? ? ?%elem_of_nil].
  assert (Hold : forall r', t !! old = Some r' -> protected r' = true) by (intros r' Hr'; congruence).
  destruct (evict_scan t f) as [[o|] f'].
  - destruct IH as (pre & r' & -> & H1 & H2 & H3). exists (old :: pre), r'. split; [done|]. split; [done|]. split; [done|].
    intros x rx [-> |Hx]%elem_of_cons; [by apply Hold|by apply H3].
  - destruct IH as [-> H3]. split; [done|]. intros x rx [-> |Hx]%elem_of_cons; [by apply Hold|by apply H3].
Qed.

Lemma evict_inv cap s :
  race_inv cap s ->
  race_inv cap (_evict_rabbit_only s).1 /\ kept s (_evict_rabbit_only s).1 /\
  table (_evict_rabbit_only s).1 ⊆ table s /\
  (if (_evict_rabbit_only s).2 then (length (fifo (_evict_rabbit_only s).1) < length (fifo s))%nat
   else fifo (_evict_rabbit_only s).1 = []).
Proof.
  intros [I1 I2 I3 I4 I5 I6 I7]. unfold _evict_rabbit_only. pose proof (evict_scan_spec (table s) (fifo s) I2) as H.
  destruct (evict_scan (table s) (fifo s)) as [[old|] f]; cbn [fst snd].
  - destruct H as (pre & r & Hf & Hr & Hp & Hpre). rewrite Hf in I1. pose proof I1 as Hnd.
    apply NoDup_app in Hnd as (Hnp & Hd & Hnd). apply NoDup_cons in Hnd as [Hold Hnf].
    assert (Hne : forall x rx, table s !! x = Some rx -> protected rx = true -> x <> old) by (intros x rx Hx Hpx ->; congruence).
    split; [constructor; cbn [with_table fifo table journal]|].
    + done.
    + intros x Hx. rewrite lookup_delete_ne by (intros ->; done). apply I2. rewrite Hf. apply elem_of_app. right. by right.
    + intros x rx Hx. apply lookup_delete_Some in Hx as [Hxo Hx]. destruct (I3 x rx Hx) as [Hin|]; [|by right].
      rewrite Hf in Hin. apply elem_of_app in Hin as [Hin|[?|Hin]%elem_of_cons]; [|done|by left]. right. by apply (Hpre x).
    + intros x rx [_ Hx]%lookup_delete_Some. by apply (I4 x).
    + intros x rx. rewrite I5, lookup_delete_Some. split; [|intros [[_ ?] ?]; done]. intros [Hx [l Hl]].
      split; [|by exists l]. split; [|done]. intros <-. rewrite (I4 _ _ Hx) in Hl. apply lead_protected in Hl. congruence.
    + done.
    + intros Hc. rewrite map_size_delete_Some in Hc by done. assert (Hs : (cap < size (table s))%nat) by lia.
      specialize (I7 Hs). rewrite Hf, length_app in I7. cbn in I7. lia.
    + split; [|split; [apply delete_subseteq|]].
      * intros x rx Hx Hpx. exists rx. split; [|apply extends_refl]. cbn. rewrite lookup_delete_ne; [done|]. intros <-. congruence.
      * cbn. rewrite Hf, length_app. cbn. lia.
  - destruct H as [-> Hall]. split; [constructor; cbn [with_table fifo table journal]; try done|].
    + constructor.
    + by intros x ?%elem_of_nil.
    + intros x r Hx. right. destruct (I3 x r Hx) as [Hin|]; [by apply (Hall x)|done].
    + cbn. lia.
    + split; [|done]. intros x r Hx _. exists r. split; [done|apply extends_refl].
Qed.

Lemma evict_down_inv cap n : forall s,
  race_inv cap s -> (length (fifo s) < n)%nat ->
  race_inv cap (evict_down cap n s) /\ kept s (evict_down cap n s) /\ table (evict_down cap n s) ⊆ table s /\
  (full cap (evict_down cap n s) = true -> fifo (evict_down cap n s) = []).
Proof.
  induction n as [|n IH]; intros s Hi Hl; [lia|]. cbn [evict_down]. destruct (full cap s) eqn:Ef.
  2: { split; [done|]. split; [apply kept_refl|]. split; [done|]. by rewrite Ef. }
  pose proof (evict_inv cap s Hi) as (H1 & H2 & H3 & H4). destruct (_evict_rabbit_only s) as [s' ok]. cbn [fst snd] in *.
  destruct ok; [|by split_and!]. destruct (IH s' H1 ltac:(lia)) as (J1 & J2 & J3 & J4).
  split; [done|]. split; [by eapply kept_trans|]. split; [by etrans|done].
Qed.

(** ** The operations *)

Lemma add_row_inv cap s sig :
  race_inv cap s -> table s !! sig = None -> (full cap s = true -> fifo s = []) ->
  race_inv cap (add_row s sig) /\ kept s (add_row s sig).
Proof.
  intros [I1 I2 I3 I4 I5 I6 I7] Hn Hf.
  assert (Hne : forall x r, table s !! x = Some r -> x <> sig) by (intros x r Hx ->; congruence).
  split; [constructor; cbn [add_row with_table fifo table journal]|].
  - apply NoDup_app. split; [done|]. split; [|apply NoDup_singleton]. intros x Hx ->%list_elem_of_singleton.
    destruct (I2 _ Hx). congruence.
  - intros x [Hx| ->%list_elem_of_singleton]%elem_of_app; [|by rewrite lookup_insert_eq; eexists].
    destruct (I2 x Hx) as [r Hr]. rewrite lookup_insert_ne; [by exists r|]. by eapply not_eq_sym, Hne.
  - intros x r [[<- <-]|[_ Hx]]%lookup_insert_Some; [left; apply elem_of_app; right; by left|].
    destruct (I3 x r Hx); [left; apply elem_of_app; by left|by right].
  - intros x r [[<- <-]|[_ Hx]]%lookup_insert_Some; [done|by apply (I4 x)].
  - intros x r. rewrite I5, lookup_insert_Some. split; [intros [Hx ?]; split; [right; split; [|done]; by eapply not_eq_sym, Hne|done]|].
    intros [[[<- <-]|[_ Hx]] Hl]; [by destruct Hl|done].
  - done.
  - rewrite map_size_insert_None, length_app by done. intros Hc. destruct (full cap s) eqn:Ef; [by rewrite Hf|].
    unfold full in Ef. apply Nat.leb_gt in Ef. lia.
  - intros x r Hx Hp. exists r. split; [|apply extends_refl]. cbn. rewrite lookup_insert_ne; [done|]. by eapply not_eq_sym, Hne.
Qed.

Lemma ensure_inv cap s sig keep :
  race_inv cap s ->
  race_inv cap (_ensure_row cap s sig keep).1 /\ kept s (_ensure_row cap s sig keep).1 /\
  forall x r, table (_ensure_row cap s sig keep).1 !! x = Some r -> table s !! x = Some r \/ r = RRow None None None.
Proof.
  intros Hi. unfold _ensure_row. destruct (table s !! sig) as [r|] eqn:Er.
  { split; [done|]. split; [apply kept_refl|]. cbn [fst]. by left. }
  destruct (full cap s) eqn:Ef; cbn [negb].
  2: { destruct (add_row_inv cap s sig Hi Er) as [A1 A2]; [by rewrite Ef|]. cbn [fst snd]. split; [done|]. split; [done|].
       intros x r Hx. cbn [add_row with_table table] in Hx. apply lookup_insert_Some in Hx as [[_ <-]|[_ Hx]]; [by right|by left]. }
  set (first := if keep then (s, true) else _evict_rabbit_only s).
  assert (H1 : race_inv cap first.1 /\ kept s first.1 /\ table first.1 ⊆ table s).
  { unfold first. destruct keep; cbn [fst]; [by split_and!; [|apply kept_refl|]|].
    by destruct (evict_inv cap s Hi) as (? & ? & ? & _). }
  destruct first as [s1 ok] eqn:E1. cbn [fst snd] in H1. destruct H1 as (J1 & J2 & J3).
  destruct ok; cbn [negb fst].
  2: { split; [done|]. split; [done|]. intros x r Hx. left. by eapply lookup_weaken. }
  destruct (evict_down_inv cap (S (length (fifo s1))) s1 J1 ltac:(lia)) as (K1 & K2 & K3 & K4).
  set (s2 := evict_down cap (S (length (fifo s1))) s1) in *.
  assert (Hn : table s2 !! sig = None) by (eapply lookup_weaken_None; [|exact K3]; eapply lookup_weaken_None; [exact Er|exact J3]).
  destruct (full cap s2 && negb keep) eqn:E2; cbn [fst snd].
  { split; [done|]. split; [by eapply kept_trans|]. intros x r Hx. left. by do 2 (eapply lookup_weaken; [|done]). }
  destruct (add_row_inv cap s2 sig K1 Hn K4) as [A1 A2]. split; [done|]. split; [by do 2 (eapply kept_trans; [done|])|].
  intros x r Hx. cbn [add_row with_table table] in Hx. apply lookup_insert_Some in Hx as [[_ <-]|[_ Hx]]; [by right|left]. by do 2 (eapply lookup_weaken; [|done]).
Qed.

Lemma lead_of_score a b l l' : lead_of (RRow a b l) = lead_of (RRow a b l').
Proof. done. Qed.

(** Writing into a row that has no score. *)
Lemma score_inv cap s sig r0 r :
  race_inv cap s -> table s !! sig = Some r0 -> w_lead r0 = None -> w_lead r = None -> extends r0 r ->
  race_inv cap (_score s sig r) /\ kept s (_score s sig r) /\
  table (_score s sig r) = <[sig := RRow (w_rabbit r) (w_of r) (lead_of r)]> (table s).
Proof.
  intros [I1 I2 I3 I4 I5 I6 I7] H0 Hl0 Hl Hext.
  assert (Ht : table (_score s sig r) = <[sig := RRow (w_rabbit r) (w_of r) (lead_of r)]> (table s)).
  { unfold _score. destruct (lead_of r) eqn:El; [done|]. cbn. by destruct r; cbn in *; subst. }
  assert (Hf : fifo (_score s sig r) = fifo s) by (unfold _score; by destruct (lead_of r)).
  set (r' := RRow (w_rabbit r) (w_of r) (lead_of r)) in *.
  assert (Hext' : extends r0 r') by exact Hext.
  assert (Hj : journal (_score s sig r) = journal s ++ (match lead_of r with Some _ => [(sig, r')] | None => [] end)).
  { unfold _score, r'. destruct (lead_of r); [done|]. cbn. by rewrite app_nil_r. }
  assert (Hsig : sig ∉ (journal s).*1).
  { intros Hin. apply list_elem_of_fmap in Hin as ([x rx] & Hx & Hin). cbn in Hx. subst x. apply I5 in Hin as [Hin [l Hll]]. congruence. }
  split; [constructor; rewrite ?Ht, ?Hf, ?Hj|split; [|done]].
  - done.
  - intros x Hx. destruct (decide (x = sig)) as [->|]; [by rewrite lookup_insert_eq; eexists|]. rewrite lookup_insert_ne by done. by apply I2.
  - intros x rx [[<- <-]|[_ Hx]]%lookup_insert_Some; [|by apply I3]. destruct (I3 _ _ H0) as [|Hp]; [by left|]. right.
    by eapply extends_protected.
  - intros x rx [[<- <-]|[_ Hx]]%lookup_insert_Some; [done|by apply (I4 x)].
  - intros x rx. rewrite elem_of_app, I5, lookup_insert_Some. split.
    + intros [[Hx Hs]|Hin].
      * split; [|done]. right. split; [|done]. intros <-. destruct Hs. congruence.
      * destruct (lead_of r) as [l|] eqn:El; [|by apply elem_of_nil in Hin]. apply list_elem_of_singleton in Hin. injection Hin as -> ->.
        split; [by left|]. exists l. unfold r'. cbn. first [done|exact El].
    + intros [[[<- <-]|[Hne Hx]] Hs]; [|by left]. right. unfold r' in Hs at 1. cbn in Hs. destruct Hs as [l Hs].
      destruct (lead_of r); [by left|done].
  - rewrite fmap_app. apply NoDup_app. split; [done|]. destruct (lead_of r); cbn [fmap list_fmap]; [|by split; [intros ? _ ?%elem_of_nil|constructor]].
    split; [|apply NoDup_singleton]. by intros x Hx ->%list_elem_of_singleton.
  - rewrite map_size_insert_Some by (rewrite H0; by eexists). done.
  - intros x rx Hx Hp. rewrite Ht. destruct (decide (x = sig)) as [->|].
    + rewrite H0 in Hx. injection Hx as <-. exists r'. split; [by rewrite lookup_insert_eq|done].
    + exists rx. rewrite lookup_insert_ne by done. split; [done|apply extends_refl].
Qed.

Lemma seen_inv cap s a b : race_inv cap s -> race_inv cap (with_seen s a b).
Proof. intros []. by constructor. Qed.

(** Where the parts of the rows come from. *)
Definition sourced (Pr : string -> rabbit_ev -> Prop) (Po : string -> of_ev -> Prop) (s : race) : Prop :=
  forall x r, table s !! x = Some r -> (forall e, w_rabbit r = Some e -> Pr x e) /\ (forall e, w_of r = Some e -> Po x e).

Lemma ensure_sourced Pr Po cap s sig keep : race_inv cap s -> sourced Pr Po s -> sourced Pr Po (_ensure_row cap s sig keep).1.
Proof. intros Hi Hs x r Hx. destruct (ensure_inv cap s sig keep Hi) as (_ & _ & H). by destruct (H x r Hx) as [?| ->]; [apply Hs|]. Qed.

Lemma score_sourced Pr Po cap s sig r0 r :
  race_inv cap s -> table s !! sig = Some r0 -> w_lead r0 = None -> w_lead r = None -> extends r0 r -> sourced Pr Po s ->
  (forall e, w_rabbit r = Some e -> Pr sig e) -> (forall e, w_of r = Some e -> Po sig e) -> sourced Pr Po (_score s sig r).
Proof.
  intros Hi H0 Hl0 Hl He Hs Hr Ho x rx. destruct (score_inv cap s sig r0 r Hi H0 Hl0 Hl He) as (_ & _ & ->).
  intros [[<- <-]|[_ Hx]]%lookup_insert_Some; [by split|by apply Hs].
Qed.

Lemma put_rabbit_inv cap s sig e :
  race_inv cap s ->
  race_inv cap (put_rabbit cap s sig e) /\ kept s (put_rabbit cap s sig e) /\
  forall Pr Po, sourced Pr Po s -> Pr sig e -> sourced Pr Po (put_rabbit cap s sig e).
Proof.
  intros Hi0. unfold put_rabbit. set (s0 := with_seen s _ _). assert (Hi : race_inv cap s0) by by apply seen_inv.
  pose proof (ensure_inv cap s0 sig (keep_rabbit e) Hi) as (H1 & H2 & _).
  pose proof (fun Pr Po => ensure_sourced Pr Po cap s0 sig (keep_rabbit e) Hi) as H3.
  destruct (_ensure_row cap s0 sig (keep_rabbit e)) as [s1 ok]. cbn [fst snd] in *.
  assert (Hrest : race_inv cap s1 /\ kept s s1 /\ forall Pr Po, sourced Pr Po s -> Pr sig e -> sourced Pr Po s1).
  { split; [done|]. split; [done|]. intros Pr Po Hs _. by apply H3. }
  destruct ok; [|done]. destruct (table s1 !! sig) as [row|] eqn:Er; [|done]. destruct (w_rabbit row) as [e'|] eqn:Ew; [done|].
  assert (Hl : w_lead row = None) by (rewrite (ri_lead _ _ H1 _ _ Er); unfold lead_of; by rewrite Ew).
  assert (He : extends row (RRow (Some e) (w_of row) (w_lead row))) by (split; cbn; [by rewrite Ew|done]).
  destruct (score_inv cap s1 sig row (RRow (Some e) (w_of row) (w_lead row)) H1 Er Hl Hl He) as (J1 & J2 & _).
  split; [done|]. split; [by eapply kept_trans|]. intros Pr Po Hs Hp. eapply (score_sourced Pr Po cap s1 sig row); try done.
  - by apply H3.
  - by intros e1 [= <-].
  - intros e1 Ho. by apply (H3 Pr Po Hs sig row Er).
Qed.

Lemma put_of_inv cap s sig e :
  race_inv cap s ->
  race_inv cap (put_of cap s sig e) /\ kept s (put_of cap s sig e) /\
  forall Pr Po, sourced Pr Po s -> Po sig e -> sourced Pr Po (put_of cap s sig e).
Proof.
  intros Hi0. unfold put_of. set (s0 := with_seen s _ _). assert (Hi : race_inv cap s0) by by apply seen_inv.
  pose proof (ensure_inv cap s0 sig true Hi) as (H1 & H2 & _).
  pose proof (fun Pr Po => ensure_sourced Pr Po cap s0 sig true Hi) as H3.
  destruct (_ensure_row cap s0 sig true) as [s1 ok]. cbn [fst snd] in *.
  assert (Hrest : race_inv cap s1 /\ kept s s1 /\ forall Pr Po, sourced Pr Po s -> Po sig e -> sourced Pr Po s1).
  { split; [done|]. split; [done|]. intros Pr Po Hs _. by apply H3. }
  destruct ok; [|done]. destruct (table s1 !! sig) as [row|] eqn:Er; [|done]. destruct (w_of row) as [e'|] eqn:Ew; [done|].
  assert (Hl : w_lead row = None) by (rewrite (ri_lead _ _ H1 _ _ Er); unfold lead_of; rewrite Ew; by destruct (w_rabbit row)).
  assert (He : extends row (RRow (w_rabbit row) (Some e) (w_lead row))) by (split; cbn; [done|by rewrite Ew]).
  destruct (score_inv cap s1 sig row (RRow (w_rabbit row) (Some e) (w_lead row)) H1 Er Hl Hl He) as (J1 & J2 & _).
  split; [done|]. split; [by eapply kept_trans|]. intros Pr Po Hs Hp. eapply (score_sourced Pr Po cap s1 sig row); try done.
  - by apply H3.
  - intros e1 Ho. by apply (H3 Pr Po Hs sig row Er).
  - by intros e1 [= <-].
Qed.

(** ** The worker's runs *)

Section runs.
Context (cap : nat) (known route0 : gset string).
Notation run := (foldl (work cap known route0)).

(** A queued transaction that puts this event into the row. *)
Definition rabbit_item (x : string) (e : rabbit_ev) (it : queue_item) : Prop :=
  match it with
  | ItemRabbit t_rx slot _ _ _ info => ra_vote info = false /\ (validate_tx info).1 = true /\ x = hex (ra_signature info) /\
      e = RabbitEv t_rx slot (validate_tx info).2 (classify (tm_keys (validate_tx info).2) known route0)
  | _ => False
  end.

Lemma same_table s s' : table s' = table s -> fifo s' = fifo s -> journal s' = journal s ->
  (race_inv cap s -> race_inv cap s') /\ kept s s' /\ (forall Pr Po, sourced Pr Po s -> sourced Pr Po s').
Proof.
  intros Ht Hf Hj. split; [|split].
  - intros [I1 I2 I3 I4 I5 I6 I7]. constructor; rewrite ?Ht, ?Hf, ?Hj; done.
  - intros x r Hx _. exists r. rewrite Ht. split; [done|apply extends_refl].
  - intros Pr Po Hs x r. rewrite Ht. apply Hs.
Qed.

Lemma work_inv s it :
  race_inv cap s ->
  race_inv cap (work cap known route0 s it) /\ kept s (work cap known route0 s it) /\
  forall (Pr : string -> rabbit_ev -> Prop) (Po : string -> of_ev -> Prop), sourced Pr Po s ->
    (forall x e, rabbit_item x e it -> Pr x e) -> (forall x e, it = ItemOf x e -> Po x e) ->
    sourced Pr Po (work cap known route0 s it).
Proof.
  intros Hi. destruct it as [sig e|t_rx slot t1 t2 t3 info]; cbn [work].
  { destruct (put_of_inv cap s sig e Hi) as (H1 & H2 & H3). split; [done|]. split; [done|]. intros Pr Po Hs _ Ho. apply H3; [done|by apply Ho]. }
  destruct (ra_vote info) eqn:Ev.
  { edestruct (same_table s) as (H1 & H2 & H3); [| | |split; [by apply H1|split; [exact H2|intros Pr Po Hs _ _; by apply H3]]]; done. }
  destruct (validate_tx info) as [ok meta] eqn:Em. destruct ok; cbn [negb].
  2: { edestruct (same_table s) as (H1 & H2 & H3); [| | |split; [by apply H1|split; [exact H2|intros Pr Po Hs _ _; by apply H3]]]; done. }
  set (s1 := with_counts _ _ _ _ _ _ _ _). set (c := classify (tm_keys meta) known route0). set (e := RabbitEv t_rx slot meta c).
  destruct (same_table s s1) as (A1 & A2 & A3); [done..|].
  destruct (put_rabbit_inv cap s1 (hex (ra_signature info)) e (A1 Hi)) as (B1 & B2 & B3).
  set (s2 := put_rabbit cap s1 (hex (ra_signature info)) e) in *.
  set (s3 := if valid s2 mod 8 =? 0 then _ else s2).
  destruct (same_table s2 s3) as (C1 & C2 & C3); [by unfold s3; destruct (_ =? 0)..|].
  split; [by apply C1|]. split; [eapply kept_trans; [exact A2|]; by eapply kept_trans|].
  intros Pr Po Hs Hr _. apply C3, B3; [by apply A3|]. apply Hr. cbn [rabbit_item]. rewrite Em. done.
Qed.

Lemma rabbit_run_inv items s : race_inv cap s -> race_inv cap (run s items) /\ kept s (run s items).
Proof.
  revert s. induction items as [|it items IH]; intros s Hi; cbn [foldl]; [split; [done|apply kept_refl]|].
  destruct (work_inv s it Hi) as (H1 & H2 & _). destruct (IH _ H1) as [H3 H4]. split; [done|]. by eapply kept_trans.
Qed.

Lemma race0_inv : race_inv cap race0.
Proof.
  constructor; cbn [race0 fifo table journal].
  - constructor.
  - by intros x ?%elem_of_nil.
  - intros x r. by rewrite lookup_empty.
  - intros x r. by rewrite lookup_empty.
  - intros x r. rewrite lookup_empty. split; [by intros ?%elem_of_nil|by intros []].
  - constructor.
  - cbn. lia.
Qed.
End runs.

(** * What the table holds *)

Section claims.
Context (cap : nat) (known route0 : gset string).
Notation run := (foldl (work cap known route0)).

(** C38. A match is never lost: once both feeds have been seen with their times the row stays as it
    is, whatever comes, however full the table, and the journal has it in exactly one line. *)
Theorem matched_rows_kept items more x r :
  table (run race0 items) !! x = Some r -> is_Some (w_lead r) ->
  table (run race0 (items ++ more)) !! x = Some r /\ (x, r) ∈ journal (run race0 (items ++ more)) /\
  NoDup (journal (run race0 (items ++ more))).*1.
Proof.
  intros Hx [l Hl]. destruct (rabbit_run_inv cap known route0 items race0 (race0_inv cap)) as [Hi _].
  rewrite foldl_app. destruct (rabbit_run_inv cap known route0 more _ Hi) as [Hi' Hk].
  pose proof Hl as Hl'. rewrite (ri_lead _ _ Hi x r Hx) in Hl'. destruct (Hk x r Hx (lead_protected _ _ Hl')) as (r' & Hx' & He1 & He2).
  assert (r' = r) as ->.
  { pose proof (ri_lead _ _ Hi' x r' Hx') as Hr'. unfold lead_of in Hl'. destruct r as [a b l0], r' as [a' b' l0']. cbn in *.
    destruct a as [a|]; [|done]. destruct b as [b|]; [|done]. rewrite (He1 a eq_refl), (He2 b eq_refl) in Hr' |- *.
    f_equal. rewrite Hr', Hl. unfold lead_of. cbn. done. }
  split; [done|]. split; [|by apply (ri_once _ _ Hi')]. apply (ri_journal _ _ Hi'). split; [done|by exists l].
Qed.

(** The table is bounded: beyond its cap it holds only rows that were seen by OrbitFlare or
    concern a known pool, with at most one exception. *)
Theorem table_bounded items x y rx ry :
  (cap < size (table (run race0 items)))%nat ->
  table (run race0 items) !! x = Some rx -> protected rx = false ->
  table (run race0 items) !! y = Some ry -> protected ry = false -> x = y.
Proof.
  intros Hc Hx Px Hy Py. destruct (rabbit_run_inv cap known route0 items race0 (race0_inv cap)) as [Hi _].
  pose proof (ri_cap _ _ Hi Hc) as Hl. destruct (ri_prot _ _ Hi x rx Hx) as [Ix|]; [|congruence].
  destruct (ri_prot _ _ Hi y ry Hy) as [Iy|]; [|congruence].
  destruct (fifo (run race0 items)) as [|a [|b f]]; [by apply elem_of_nil in Ix| |cbn in Hl; lia].
  apply list_elem_of_singleton in Ix, Iy. congruence.
Qed.

(** A lead is true: it is the difference between the framing time of a frame that was queued
    for this signature and the arrival of a valid transaction that was, and names the earlier. *)
Theorem leads_are_real items x r l :
  table (run race0 items) !! x = Some r -> w_lead r = Some l ->
  exists e f it, it ∈ items /\ rabbit_item known route0 x e it /\ ItemOf x f ∈ items /\
    ld_ns l = oe_framed f - rv_rx e /\
    ld_first l = (if rv_rx e <? oe_framed f then WRabbit else if oe_framed f <? rv_rx e then WOf else WTie).
Proof.
  intros Hx Hl. destruct (rabbit_run_inv cap known route0 items race0 (race0_inv cap)) as [Hi _].
  set (Pr := fun x e => exists it, it ∈ items /\ rabbit_item known route0 x e it).
  set (Po := fun x e => ItemOf x e ∈ items).
  assert (Hs : sourced Pr Po (run race0 items)).
  { assert (G : forall l0 s, (forall it, it ∈ l0 -> it ∈ items) -> race_inv cap s -> sourced Pr Po s -> sourced Pr Po (run s l0)).
    { induction l0 as [|it l0 IH]; intros s Hin His Hss; [done|]. cbn [foldl].
      destruct (work_inv cap known route0 s it His) as (W1 & _ & W3). apply IH; [by intros; apply Hin; right|done|].
      apply W3; [done| |].
      - intros x' e He. exists it. split; [apply Hin; by left|done].
      - intros x' e ->. apply Hin. by left. }
    apply G; [done|apply race0_inv|]. intros y ry Hy. cbn [race0 table] in Hy. by rewrite lookup_empty in Hy. }
  rewrite (ri_lead _ _ Hi x r Hx) in Hl. unfold lead_of in Hl.
  destruct (w_rabbit r) as [e|] eqn:Er; [|done]. destruct (w_of r) as [f|] eqn:Ef; [|done].
  destruct (_ || _); [done|]. injection Hl as <-. cbn [ld_ns ld_first].
  destruct (Hs x r Hx) as [H1 H2]. destruct (H1 e Er) as (it & Hit & He). exists e, f, it.
  split; [done|]. split; [done|]. split; [by apply H2|]. split; [done|].
  destruct (Z.ltb_spec 0 (oe_framed f - rv_rx e)), (Z.ltb_spec (rv_rx e) (oe_framed f)); try lia; [done|].
  by destruct (Z.ltb_spec (oe_framed f - rv_rx e) 0), (Z.ltb_spec (oe_framed f) (rv_rx e)); try lia.
Qed.

(** * What the metrics say *)

Definition row_ok (r : rrow) : Prop := w_lead r = lead_of r.

Lemma rows_ok items : Forall row_ok (rows_of (run race0 items)).
Proof.
  destruct (rabbit_run_inv cap known route0 items race0 (race0_inv cap)) as [Hi _]. apply Forall_forall. intros r Hr.
  apply list_elem_of_fmap in Hr as ([x r'] & -> & Hr). apply elem_of_map_to_list in Hr. by apply (ri_lead _ _ Hi x).
Qed.
End claims.

Lemma countif_cons {A} (p : A -> bool) x l : countif p (x :: l) = (if p x then 1 else 0) + countif p l.
Proof.
  unfold countif. rewrite filter_cons. destruct (p x) eqn:E; [rewrite decide_True by done; cbn [length]; lia|].
  by rewrite decide_False.
Qed.

Lemma lead_both r : row_ok r -> bool_decide (is_Some (w_lead r)) = has_rabbit r && has_of r.
Proof.
  unfold row_ok, lead_of, has_rabbit, has_of. intros ->. destruct (w_rabbit r) as [e|]; [|done].
  destruct (w_of r) as [f|]; [|by rewrite andb_false_r]. by destruct (rv_rx e =? 0), (oe_framed f =? 0).
Qed.

(** The leads are one for each row seen by both feeds. *)
Lemma leads_count rows : Forall row_ok rows ->
  Z.of_nat (length (leads (fun _ => true) rows)) = countif (fun r => has_rabbit r && has_of r) rows.
Proof.
  induction 1 as [|r rows Hr Hf IH]; [done|]. rewrite countif_cons, <- (lead_both r Hr), <- IH. unfold leads. cbn [omap list_omap].
  pose proof (lead_both r Hr) as Hb. destruct (w_lead r) as [l|]; [|done]. 
  rewrite bool_decide_true in Hb by by eexists. symmetry in Hb. apply andb_prop in Hb as [Hb _]. unfold has_rabbit in Hb.
  destruct (w_rabbit r); [|done]. rewrite bool_decide_true by by eexists. cbn [length]. lia.
Qed.

Lemma countif_split {A} (p q : A -> bool) l : countif p l = countif (fun x => p x && q x) l + countif (fun x => p x && negb (q x)) l.
Proof.
  induction l as [|x l IH]; [done|]. rewrite !countif_cons, IH. destruct (p x), (q x); cbn [andb negb]; lia.
Qed.

Lemma countif_nonneg {A} (p : A -> bool) l : 0 <= countif p l.
Proof. unfold countif. lia. Qed.

Lemma countif_trichotomy l : Z.of_nat (length l) =
  countif (fun x => 0 <? x) l + countif (fun x => x <? 0) l + countif (fun x => x =? 0) l.
Proof.
  induction l as [|x l IH]; [done|]. rewrite !countif_cons. cbn [length]. rewrite Nat2Z.inj_succ, IH.
  destruct (Z.ltb_spec 0 x), (Z.ltb_spec x 0), (Z.eqb_spec x 0); lia.
Qed.

Lemma hist_bucket xs k : default 0 (od_get (hist_of xs) k) = countif (fun x => bool_decide (bucket_lead x = k)) xs.
Proof.
  unfold hist_of. assert (G : forall h, default 0 (od_get (foldl (fun h x => od_set h (bucket_lead x) (default 0 (od_get h (bucket_lead x)) + 1)) h xs) k) =
    default 0 (od_get h k) + countif (fun x => bool_decide (bucket_lead x = k)) xs).
  { induction xs as [|x xs IH]; intros h; cbn [foldl]; [unfold countif; cbn; lia|]. rewrite IH, countif_cons.
    case_bool_decide as E.
    - rewrite E, od_get_set_eq. destruct (od_get h k); unfold default, id; lia.
    - rewrite od_get_set_ne by done. lia. }
  rewrite G. done.
Qed.

(** The metrics add up: matched rows are those both feeds were seen in, the rest of each feed
    is counted as its own, wins and ties make up the matches, and each histogram counts its
    bucket's leads. *)
Theorem metrics_add_up cap known route0 items :
  let s := foldl (work cap known route0) race0 items in
  let m := race_snapshot s in
  m_matched m = countif (fun r => has_rabbit r && has_of r) (rows_of s) /\
  m_rabbit_only m = countif (fun r => has_rabbit r && negb (has_of r)) (rows_of s) /\
  m_of_only m = countif (fun r => has_of r && negb (has_rabbit r)) (rows_of s) /\
  m_matched m = m_rabbit_first m + m_of_first m + m_ties m /\
  forall k, default 0 (od_get (m_hist_rabbit m) k) + default 0 (od_get (m_hist_of m) k) =
    countif (fun x => bool_decide (bucket_lead x = k) && negb (x =? 0)) (leads (fun _ => true) (rows_of s)).
Proof.
  intros s m. pose proof (rows_ok cap known route0 items) as Hok. fold s in Hok. unfold m, race_snapshot. cbv zeta.
  cbn [m_matched m_rabbit_only m_of_only m_rabbit_first m_of_first m_ties m_hist_rabbit m_hist_of].
  rewrite (leads_count _ Hok). split; [done|]. split; [rewrite (countif_split has_rabbit has_of); lia|]. split.
  { rewrite (countif_split has_of has_rabbit).
    replace (countif (fun r => has_of r && has_rabbit r) (rows_of s)) with (countif (fun r => has_rabbit r && has_of r) (rows_of s)); [lia|].
    clear. induction (rows_of s) as [|r l IH]; [done|]. by rewrite !countif_cons, IH, andb_comm. }
  split; [rewrite <- (leads_count _ Hok); apply countif_trichotomy|]. intros k. rewrite !hist_bucket. clear.
  induction (leads (fun _ => true) (rows_of s)) as [|x l IH]; [done|]. rewrite countif_cons, <- IH, !filter_cons.
  destruct (Z.ltb_spec 0 x), (Z.ltb_spec x 0), (Z.eqb_spec x 0); try lia; cbn [negb]; rewrite ?andb_true_r, ?andb_false_r;
    repeat (first [rewrite decide_True by done|rewrite decide_False by done]); rewrite ?countif_cons; lia.
Qed.

(** ** Percentiles *)

Lemma pct_nth v num : v <> [] -> 0 <= num <= 1000 ->
  let k := Z.to_nat (num * (Z.of_nat (length v) - 1) / 1000) in
  exists p, merge_sort Z.le v !! k = Some p /\ _pct v num = p.
Proof.
  intros Hv Hn k. pose proof (merge_sort_Permutation Z.le v) as Hp.
  assert (Hk : (k < length (merge_sort Z.le v))%nat).
  { rewrite Hp. unfold k. assert (0 < length v)%nat by (destruct v; [done|cbn; lia]).
    assert (0 <= num * (Z.of_nat (length v) - 1) / 1000 < Z.of_nat (length v)); [|lia].
    split; [apply Z.div_pos; nia|]. apply Z.div_lt_upper_bound; nia. }
  destruct (lookup_lt_is_Some_2 _ _ Hk) as [p E]. exists p. split; [done|]. unfold _pct. destruct v as [|x v]; [done|].
  by apply nth_lookup_Some.
Qed.

Lemma sorted_le v i j x y : merge_sort Z.le v !! i = Some x -> merge_sort Z.le v !! j = Some y -> (i <= j)%nat -> x <= y.
Proof.
  intros Hi Hj Hij. pose proof (StronglySorted_merge_sort Z.le v) as Hs. set (l := merge_sort Z.le v) in *. clearbody l.
  revert i j Hi Hj Hij. induction Hs as [|a l Hs IH Ha]; intros i j Hi Hj Hij; [done|].
  destruct i as [|i], j as [|j]; cbn in *; [injection Hi as <-; injection Hj as <-; lia| |lia|by apply (IH i j); [..|lia]].
  injection Hi as ->. apply list_elem_of_lookup_2 in Hj. by apply (proj1 (Forall_forall _ _) Ha).
Qed.

Lemma countif_app {A} (p : A -> bool) l1 l2 : countif p (l1 ++ l2) = countif p l1 + countif p l2.
Proof. unfold countif. rewrite filter_app, length_app. lia. Qed.

Lemma countif_perm {A} (p : A -> bool) l1 l2 : l1 ≡ₚ l2 -> countif p l1 = countif p l2.
Proof. intros H. unfold countif. by rewrite H. Qed.

Lemma countif_all {A} (p : A -> bool) l : (forall x, x ∈ l -> p x = true) -> countif p l = Z.of_nat (length l).
Proof.
  induction l as [|x l IH]; intros H; [done|]. rewrite countif_cons, (H x) by by left.
  rewrite IH by (intros; apply H; by right). cbn [length]. lia.
Qed.

Lemma countif_le {A} (p : A -> bool) l : countif p l <= Z.of_nat (length l).
Proof. induction l as [|x l IH]; [done|]. rewrite countif_cons. cbn [length]. destruct (p x); lia. Qed.

Lemma countif_none {A} (p : A -> bool) l : (forall x, x ∈ l -> p x = false) -> countif p l = 0.
Proof.
  induction l as [|x l IH]; intros H; [done|]. rewrite countif_cons, (H x) by by left.
  by rewrite IH by (intros; apply H; by right).
Qed.

(** The element of rank [k]: no more than [k] are less, more than [k] are no greater. *)
Lemma pct_rank v num : v <> [] -> 0 <= num <= 1000 ->
  let k := num * (Z.of_nat (length v) - 1) / 1000 in
  _pct v num ∈ v /\ countif (fun x => x <? _pct v num) v <= k < countif (fun x => x <=? _pct v num) v.
Proof.
  intros Hv Hn k. destruct (pct_nth v num Hv Hn) as (p & Hp & ->). fold k in Hp. set (l := merge_sort Z.le v) in *.
  pose proof (merge_sort_Permutation Z.le v) as Hperm. fold l in Hperm.
  assert (Hk : 0 <= k).
  { unfold k. assert (0 < length v)%nat by (destruct v; [done|cbn; lia]). apply Z.div_pos; nia. }
  split; [rewrite <- Hperm; by eapply list_elem_of_lookup_2|].
  rewrite <- (countif_perm _ _ _ Hperm), <- (countif_perm (fun x => x <=? p) _ _ Hperm).
  split.
  - rewrite <- (take_drop (Z.to_nat k) l) at 1. rewrite countif_app, (countif_none _ (drop _ _)).
    + pose proof (countif_le (fun x => x <? p) (take (Z.to_nat k) l)). rewrite length_take in *. lia.
    + intros x [i Hi]%list_elem_of_lookup. rewrite lookup_drop in Hi. pose proof (sorted_le v _ _ _ _ Hp Hi ltac:(lia)). by apply Z.ltb_ge.
  - rewrite <- (take_drop (S (Z.to_nat k)) l) at 1. rewrite countif_app, (countif_all _ (take _ _)).
    + pose proof (countif_nonneg (fun x => x <=? p) (drop (S (Z.to_nat k)) l)). apply lookup_lt_Some in Hp. rewrite length_take. lia.
    + intros x [i Hi]%list_elem_of_lookup. apply lookup_take_Some in Hi as [Hi Hlt].
      pose proof (sorted_le v _ _ _ _ Hi Hp ltac:(lia)). by apply Z.leb_le.
Qed.

Lemma pct_mono v n1 n2 : v <> [] -> 0 <= n1 <= n2 -> n2 <= 1000 -> _pct v n1 <= _pct v n2.
Proof.
  intros Hv H1 H2. destruct (pct_nth v n1 Hv ltac:(lia)) as (p1 & Hp1 & ->). destruct (pct_nth v n2 Hv ltac:(lia)) as (p2 & Hp2 & ->).
  eapply sorted_le; [exact Hp1|exact Hp2|]. assert (0 < length v)%nat by (destruct v; [done|cbn; lia]).
  apply Z2Nat.inj_le; [apply Z.div_pos; nia|apply Z.div_pos; nia|]. apply Z.div_le_mono; nia.
Qed.

Lemma foldl_min l x : foldl Z.min x l ∈ x :: l /\ forall y, y ∈ x :: l -> foldl Z.min x l <= y.
Proof.
  revert x. induction l as [|z l IH]; intros x; cbn [foldl].
  - split; [by left|]. by intros y ->%list_elem_of_singleton.
  - destruct (IH (Z.min x z)) as [H1 H2]. split.
    + apply elem_of_cons in H1 as [->|H1]; [|by right; right]. destruct (Z.min_spec x z) as [[_ ->]|[_ ->]]; [by left|by right; left].
    + pose proof (H2 (Z.min x z) ltac:(by left)). intros y [->|[->|Hy]%elem_of_cons]%elem_of_cons; [lia|lia|]. apply H2. by right.
Qed.
Lemma foldl_max l x : foldl Z.max x l ∈ x :: l /\ forall y, y ∈ x :: l -> y <= foldl Z.max x l.
Proof.
  revert x. induction l as [|z l IH]; intros x; cbn [foldl].
  - split; [by left|]. by intros y ->%list_elem_of_singleton.
  - destruct (IH (Z.max x z)) as [H1 H2]. split.
    + apply elem_of_cons in H1 as [->|H1]; [|by right; right]. destruct (Z.max_spec x z) as [[_ ->]|[_ ->]]; [by right; left|by left].
    + pose proof (H2 (Z.max x z) ltac:(by left)). intros y [->|[->|Hy]%elem_of_cons]%elem_of_cons; [lia|lia|]. apply H2. by right.
Qed.

(** A split's percentiles are the leads of their rank, in order between the least and the
    greatest lead, and the firsts count the signs. *)
Theorem split_percentiles xs :
  xs <> [] ->
  let s := split_of xs in
  sp_min s <= sp_p10 s <= sp_p25 s /\ sp_p25 s <= sp_p50 s <= sp_p75 s /\ sp_p75 s <= sp_p90 s <= sp_p95 s /\
  sp_p95 s <= sp_p99 s <= sp_max s /\ sp_min s ∈ xs /\ sp_max s ∈ xs /\
  Forall (fun pk => pk.1 ∈ xs /\
      countif (fun x => x <? pk.1) xs <= pk.2 * (sp_n s - 1) / 1000 < countif (fun x => x <=? pk.1) xs)
    [(sp_p10 s, 100); (sp_p25 s, 250); (sp_p50 s, 500); (sp_p75 s, 750); (sp_p90 s, 900); (sp_p95 s, 950); (sp_p99 s, 990)] /\
  sp_rabbit_first s + sp_of_first s <= sp_n s.
Proof.
  intros Hv s. unfold s, split_of. cbn [sp_n sp_p10 sp_p25 sp_p50 sp_p75 sp_p90 sp_p95 sp_p99 sp_min sp_max sp_rabbit_first sp_of_first].
  assert (Hmin : min_of xs ∈ xs /\ forall y, y ∈ xs -> min_of xs <= y) by (destruct xs; [done|apply foldl_min]).
  assert (Hmax : max_of xs ∈ xs /\ forall y, y ∈ xs -> y <= max_of xs) by (destruct xs; [done|apply foldl_max]).
  pose proof (fun n H => pct_rank xs n Hv H) as Hr. cbv zeta in Hr.
  assert (Hm : forall a b, 0 <= a <= b -> b <= 1000 -> _pct xs a <= _pct xs b) by (intros; by apply pct_mono).
  split_and!; try (apply Hm; lia); try apply Hmin; try apply Hmax; try (apply Hr; lia).
  - repeat (apply Forall_cons; split; [cbn [fst snd]; apply Hr; lia|]). constructor.
  - rewrite (countif_trichotomy xs). pose proof (countif_nonneg (fun x => x =? 0) xs). lia.
Qed.

(** * Validation *)

Lemma key_texts_Some ks r : key_texts ks = Some r <-> Forall (fun k => length k = 32%nat) ks /\ r = b58encode <$> ks.
Proof.
  revert r. induction ks as [|k ks IH]; intros r; cbn [key_texts].
  { split; [intros [= <-]; by split; [constructor|]|by intros [_ ->]]. }
  rewrite Forall_cons, fmap_cons. destruct (Nat.eqb_spec (length k) 32) as [E|E]; cbn [negb].
  2: { split; [done|]. by intros [[? _] _]. }
  destruct (key_texts ks) as [r'|] eqn:Er; cbn [fmap option_fmap option_map].
  - destruct (proj1 (IH r') eq_refl) as [Hf ->]. split; [by intros [= <-]|]. by intros [_ ->].
  - split; [done|]. intros [[_ Hf] ->]. pose proof (proj2 (IH _) (conj Hf eq_refl)). done.
Qed.

Definition ix_ok (n : nat) (ix : rix) : Prop := (ri_program ix < n)%nat /\ Forall (fun a => a < n)%nat (ri_accounts ix).

Lemma called_ok keys ixs :
  (called keys ixs).1 = true <-> Forall (ix_ok (length keys)) ixs.
Proof.
  induction ixs as [|ix ixs IH]; cbn [called]; [by split; [constructor|]|]. rewrite Forall_cons, <- IH. unfold ix_ok.
  destruct (keys !! ri_program ix) as [k|] eqn:Ek.
  2: { split; [done|]. intros [[H _] _]. apply lookup_ge_None in Ek. lia. }
  apply lookup_lt_Some in Ek. destruct (forallb _ _) eqn:Ef; cbn [negb fst].
  - assert (Hf : Forall (fun a => a < length keys)%nat (ri_accounts ix)).
    { apply Forall_forall. intros a Ha. apply list_elem_of_In in Ha. apply (proj1 (forallb_forall _ _) Ef) in Ha. by apply Nat.ltb_lt. }
    naive_solver.
  - split; [done|]. intros [[_ Hf] _]. exfalso. apply not_true_iff_false in Ef. apply Ef, forallb_forall. intros a Ha.
    apply Nat.ltb_lt. apply (proj1 (Forall_forall _ _) Hf). by apply list_elem_of_In.
Qed.

Lemma called_progs keys ixs : (called keys ixs).1 = true -> Forall2 (fun ix k => keys !! ri_program ix = Some k) ixs (called keys ixs).2.
Proof.
  induction ixs as [|ix ixs IH]; cbn [called]; [constructor|]. destruct (keys !! ri_program ix) as [k|] eqn:Ek; [|done].
  destruct (forallb _ _); cbn [negb fst snd]; [|done]. intros H. constructor; [done|by apply IH].
Qed.

(** A transaction is counted valid exactly when it is structurally one: signatures, keys of 32
    bytes and instructions are there, the first signature is the stated one, and each instruction
    refers to its keys only; the programs it calls are then read off in order. *)
Theorem valid_exact info :
  ((validate_tx info).1 = true <->
    ra_sigs info <> [] /\ ra_keys info <> [] /\ ra_ixs info <> [] /\
    (ra_signature info = [] \/ head (ra_sigs info) = Some (ra_signature info)) /\
    Forall (fun k => length k = 32%nat) (ra_keys info) /\ Forall (ix_ok (length (ra_keys info))) (ra_ixs info)) /\
  (tm_valid (validate_tx info).2 = (validate_tx info).1) /\
  ((validate_tx info).1 = true -> tm_keys (validate_tx info).2 = b58encode <$> ra_keys info /\
    Forall2 (fun ix k => (b58encode <$> ra_keys info) !! ri_program ix = Some k) (ra_ixs info) (tm_progs (validate_tx info).2)).
Proof.
  unfold validate_tx. cbv zeta. destruct (bool_decide_reflect (ra_sigs info = [])) as [|Hs]; [split; [|done]; split; [done|naive_solver]|].
  destruct (bool_decide_reflect (ra_keys info = [])) as [|Hk]; [split; [|done]; split; [done|naive_solver]|].
  destruct (bool_decide_reflect (ra_ixs info = [])) as [|Hi]; [split; [|done]; split; [done|naive_solver]|]. cbn [orb].
  destruct (bool_decide_reflect (ra_signature info = [])) as [He|He], (bool_decide_reflect (head (ra_sigs info) = Some (ra_signature info))) as [Hh|Hh];
    cbn [negb andb]; try (split; [|done]; split; [done|naive_solver]).
  all: destruct (key_texts (ra_keys info)) as [keys|] eqn:Ek;
    [apply key_texts_Some in Ek as [Hf ->]|split; [|done]; split; [done|]; intros (_ & _ & _ & _ & Hf & _);
      by rewrite (proj2 (key_texts_Some _ _) (conj Hf eq_refl)) in Ek].
  all: cbn [fst snd tm_valid tm_keys tm_progs]; split; [|split; [done|intros Hc; split; [done|by apply called_progs]]].
  all: rewrite called_ok, length_fmap; naive_solver.
Qed.

(** * On concrete data *)

Definition demo_info (b : Z) : rabbit_info :=
  RabbitInfo [b] [[b]] [replicate 32 7; replicate 32 8] [Rix 1 [0%nat]] (replicate 32 1) false false.
Definition demo_known : gset string := {[ b58encode (replicate 32 7) ]}.
Definition demo_rabbit (b t : Z) : queue_item := ItemRabbit t 5 (t + 1) (t + 2) (t + 3) (demo_info b).
Definition demo_frame (b t : Z) : queue_item := ItemOf (hex [b]) (OfEv t (t - 1) 5 0).

(** The count of distinct transactions is one of messages: the same transaction twice counts two. *)
Lemma repeat_counted_unique :
  let s := foldl (work 10 ∅ ∅) race0 [demo_rabbit 1 100; demo_rabbit 1 200] in
  m_rabbit_unique (race_snapshot s) = 2 /\ m_stored (race_snapshot s) = 1.
Proof. vm_compute. split; reflexivity. Qed.

Lemma demo_matched : exists r, table (foldl (work 1 demo_known ∅) race0 [demo_rabbit 1 100; demo_frame 1 250]) !! hex [1] = Some r /\
  is_Some (w_lead r) /\ w_lead r = Some (Lead 150 149 WRabbit).
Proof. eexists. split; [vm_compute; reflexivity|]. split; [eexists; reflexivity|reflexivity]. Qed.

Lemma matched_rows_kept_witness :
  exists r, table (foldl (work 1 demo_known ∅) race0 ([demo_rabbit 1 100; demo_frame 1 250] ++ [demo_rabbit 2 300; demo_frame 1 400])) !! hex [1]
    = Some r /\ w_lead r = Some (Lead 150 149 WRabbit).
Proof.
  destruct demo_matched as (r & Hr & Hs & Hl). exists r. split; [|exact Hl].
  exact (proj1 (matched_rows_kept 1 demo_known ∅ [demo_rabbit 1 100; demo_frame 1 250] [demo_rabbit 2 300; demo_frame 1 400] (hex [1]) r Hr Hs)).
Defined.

Lemma table_bounded_witness :
  (0 < size (table (foldl (work 0 ∅ demo_known) race0 [demo_rabbit 1 100])))%nat /\ hex [1] = hex [1].
Proof.
  assert (Hc : (0 < size (table (foldl (work 0 ∅ demo_known) race0 [demo_rabbit 1 100])))%nat) by (vm_compute; lia).
  split; [exact Hc|].
  assert (Hr : exists r, table (foldl (work 0 ∅ demo_known) race0 [demo_rabbit 1 100]) !! hex [1] = Some r /\ protected r = false).
  { eexists. split; [vm_compute; reflexivity|reflexivity]. }
  destruct Hr as (r & Hr & Hp). exact (table_bounded 0 ∅ demo_known [demo_rabbit 1 100] (hex [1]) (hex [1]) r r Hc Hr Hp Hr Hp).
Defined.

Lemma leads_are_real_witness :
  exists r e f it, table (foldl (work 1 demo_known ∅) race0 [demo_rabbit 1 100; demo_frame 1 250]) !! hex [1] = Some r /\
    it ∈ [demo_rabbit 1 100; demo_frame 1 250] /\ rabbit_item demo_known ∅ (hex [1]) e it /\
    ItemOf (hex [1]) f ∈ [demo_rabbit 1 100; demo_frame 1 250].
Proof.
  destruct demo_matched as (r & Hr & _ & Hl).
  destruct (leads_are_real 1 demo_known ∅ [demo_rabbit 1 100; demo_frame 1 250] (hex [1]) r _ Hr Hl) as (e & f & it & H1 & H2 & H3 & _).
  exists r, e, f, it. split; [exact Hr|]. split; [exact H1|]. split; [exact H2|exact H3].
Defined.

Lemma split_percentiles_witness : sp_min (split_of [30; -5; 20; 10]) <= sp_p10 (split_of [30; -5; 20; 10]) /\
  sp_p50 (split_of [30; -5; 20; 10]) = 10.
Proof.
  split; [|vm_compute; reflexivity]. assert (H : [30; -5; 20; 10] <> []) by discriminate.
  exact (proj1 (proj1 (split_percentiles [30; -5; 20; 10] H))).
Defined.

Lemma valid_exact_witness : (validate_tx (demo_info 1)).1 = true.
Proof.
  apply (proj2 (proj1 (valid_exact (demo_info 1)))). split; [discriminate|]. split; [discriminate|]. split; [discriminate|].
  split; [right; reflexivity|]. split; [repeat constructor|]. repeat constructor.
Defined.
