(* ===== verification/HopsRecover.v ===== *)
(** Proving route sequences by simulation: cmd_recover, the lookup tables and the size pass of
    arb-exec/scripts/hops_live.py.

    For each sequence the candidates are tried in order: token accounts, derivation, validation, the
    frozen fixture, the transaction (with lookup tables when it is too long), and a simulation
    that must end in the program's own profit guard, Custom(6).  The node's answers, creating
    accounts and tables, the compiled transaction and the simulation are parameters; printing,
    start-up and wrapping SOL are outside. *)
From stdpp Require Import base list strings gmap sorting pretty.
From Stdlib Require Import ZArith Lia.
From S2P Require Import Prelude PyBytes PyVal Base58 Submap Deps ExecTemplate AltPlane Recorder HopsVector HopsGolden HopsProgram HopsRoute HopsPlane HopsCheck HopsMessage.
Open Scope Z_scope.
Open Scope py_scope.

Definition PROVEN : list string := ["dlmm-dlmm"; "dlmm-pump"; "pump-dlmm"]%string.

(** JSON as far as an error of a simulation is looked at. *)
Inductive jval := JNull | JInt (z : Z) | JText (s : string) | JList (l : list jval) | JDict (d : list (string * jval)).

Definition custom6_obj (j : jval) : bool :=
  match j with JDict [(k, JInt z)] => String.eqb k "Custom" && (z =? 6) | _ => false end.
Definition is_custom6 (err : jval) : bool :=
  match err with
  | JDict d => match od_get d "InstructionError"%string with Some (JList (_ :: x :: _)) => custom6_obj x | _ => false end
  | _ => false
  end.

(** The first routes of the sequence, up to the limit. *)
Fixpoint candidates_loop (limit : nat) (seq : string) (out : list hroute) (routes : list hroute) : list hroute :=
  match routes with
  | [] => out
  | r :: routes' =>
      if negb (String.eqb (hr_seq r) seq) || negb (hr_exec r) then candidates_loop limit seq out routes' else
      let out := out ++ [r] in
      if (limit <=? length out)%nat then out else candidates_loop limit seq out routes'
  end.
Definition seq_candidates (routes : list hroute) (seq : string) (limit : nat) : list hroute := candidates_loop limit seq [] routes.

Fixpoint pick_seq_route (routes : list hroute) (seq : string) : option hroute :=
  match routes with
  | [] => None
  | r :: routes' => if String.eqb (hr_seq r) seq && hr_exec r then Some r else pick_seq_route routes' seq
  end.

(** * Lookup tables *)

(** [addrs[i:i + ALT_MAX] for i in range(0, max(len(addrs), 1), ALT_MAX)]: one empty table for no address. *)
Definition plan_alts (addrs : list string) : list (list string) :=
  match addrs with [] => [[]] | _ => chunks (length addrs) ALT_MAX addrs end.

Record sim := Sim { sm_err : jval; sm_cu : option Z; sm_logs : list string }.

(** Why a row failed; [str(e)[:200]] is kept as the exception. *)
Inductive reason := Resolve (e : pyexn) | VectorFail (fails : list vfail) | Oversize (n : Z) | NoCandidate.

(** A simulated row also carries [vector_ready = 1] and [race_ready = int(ok)]. *)
Record rec_row := RecRow {
  rr_seq : string; rr_id : option pyval; rr_ok : bool; rr_reason : option reason; rr_err : jval; rr_cu : option Z;
  rr_raw : option Z; rr_alt : bool }.

Record vec_row := VecRow {
  vr_index : nat; vr_pubkey : string; vr_role : string; vr_writable : bool; vr_signer : bool; vr_owner : option string;
  vr_mint : option string; vr_token_owner : option string }.
Record vec_doc := VecDoc { vd_seq : string; vd_id : pyval; vd_n : nat; vd_fails : list vfail; vd_table : list vec_row }.

(** The files: fixtures, published tables, VECTOR.json; and [dumped], which belongs to one run. *)
Record rec_state := RState { rt_roots : list (gmap string golden); rt_alts : list alt_row; rt_vector : option vec_doc; rt_dumped : bool }.

Section node.
Context (rpc : list string -> rpc_config -> pyres rpc_reply) (cache : gmap string pump_fields).
Context (ensure_ata : string -> string -> pyres unit) (create_alt : list string -> pyres string).
Context (compile : list string -> bytes -> list alt_row -> Z -> pyres bytes) (simulate : bytes -> sim).
Context (wallet : string) (pid : option string) (pools : list hpool).

Definition ensure_alts_for_keys (have : list alt_row) (keysets : list (list string)) : pyres (list alt_row) :=
  match have with
  | _ :: _ => Ret have
  | [] =>
      let dyn : gset string := list_to_set (filter (fun a => a ∉ static_set wallet pid) (concat keysets)) in
      py_map (fun t => pk <-! create_alt t ;; Ret (AltRow pk t)) (plan_alts (py_sorted dyn))
  end.

Definition vec_row_of (inf : infos) (ik : nat * string) : vec_row :=
  let '(i, pk) := ik in
  let mo := tok_mint_owner (info_of inf pk) in
  VecRow i pk (if (i <? 9)%nat then default "hop"%string (HopsGolden.SHARED_ROLES !! i) else "hop"%string)
    (bool_decide (i ∈ [0; 1; 2; 3]%nat) || (9 <=? i)%nat) (String.eqb pk wallet && (i =? 0)%nat)
    (owner_of inf pk) mo.1 mo.2.
Definition dump_vector_table (keys : list string) : pyres (list vec_row) :=
  inf <-! fetch_accs rpc keys ;; Ret (vec_row_of inf <$> imap pair keys).

(** Token accounts, then the derivation. *)
Definition resolve_route (r : hroute) : pyres (list string * bytes * list hop_sem) :=
  mints <-! route_mints pools r ;;
  _ <-! py_map (fun m => tok <-! mint_tok rpc m ;; ensure_ata m tok) mints ;;
  build_route_accounts rpc cache wallet pools r.

(** The transaction, with lookup tables when it is too long without. *)
Definition fit_transaction (keys : list string) (data : bytes) (s : rec_state) : pyres (bytes * bool * rec_state) :=
  raw <-! compile keys data [] 400000 ;;
  if V0_MAX <? blen raw then
    alts <-! ensure_alts_for_keys (rt_alts s) [keys] ;;
    raw <-! compile keys data alts 400000 ;;
    Ret (raw, true, RState (rt_roots s) alts (rt_vector s) (rt_dumped s))
  else Ret (raw, false, s).

Definition save_vector (first : bool) (seq : string) (r : hroute) (keys : list string) (fails : list vfail)
    (table : list vec_row) (s : rec_state) : rec_state :=
  if first && String.eqb seq "dlmm-pump" && negb (rt_dumped s)
  then RState (rt_roots s) (rt_alts s) (Some (VecDoc seq (hr_id r) (length keys) fails table)) true
  else s.

(** One candidate; [first]: in the loop over the proven sequences, which also dumps the vector. *)
Definition try_route (first : bool) (seq : string) (r : hroute) (s : rec_state) : pyres (rec_row * rec_state) :=
  match resolve_route r with
  | Raise e => Ret (RecRow seq (Some (hr_id r)) false (Some (Resolve e)) JNull None None false, s)
  | Ret (keys, data, sems) =>
      table <-! (if first then dump_vector_table keys else Ret []) ;;
      f1 <-! validate_vector rpc cache wallet pools r keys sems ;;
      f2 <-! check_golden (default ∅ (head (rt_roots s))) seq (hr_id r) keys ;;
      let fails := f1 ++ f2 in
      let s := save_vector first seq r keys fails table s in
      if negb (bool_decide (fails = []))
      then Ret (RecRow seq (Some (hr_id r)) false (Some (VectorFail (if first then take 8 fails else []))) JNull None None false, s) else
      t <-! fit_transaction keys data s ;;
      let '(raw, used_alt, s) := t in
      if V0_MAX <? blen raw
      then Ret (RecRow seq (Some (hr_id r)) false (Some (Oversize (blen raw))) JNull None None used_alt, s) else
      let sm := simulate raw in
      let ok := is_custom6 (sm_err sm) in
      s <-! (if ok then
               roots <-! persist_golden rpc seq (hr_id r) wallet keys sems (match sm_cu sm with Some c => VInt c | None => VNone end)
                           used_alt pid (rt_roots s) ;;
               Ret (RState roots (rt_alts s) (rt_vector s) (rt_dumped s))
             else _ <-! explain_sim_fail seq (hr_id r) sems wallet (sm_logs sm) ;; Ret s) ;;
      Ret (RecRow seq (Some (hr_id r)) ok None (sm_err sm) (sm_cu sm) (Some (blen raw)) used_alt, s)
  end.

(** [won or last or {"reason": "no_candidate"}] *)
Fixpoint search_loop (first : bool) (seq : string) (last : rec_row) (s : rec_state) (cands : list hroute) : pyres (rec_row * rec_state) :=
  match cands with
  | [] => Ret (last, s)
  | r :: cands' =>
      t <-! try_route first seq r s ;;
      if rr_ok t.1 then Ret t else search_loop first seq t.1 t.2 cands'
  end.
Definition search_seq (first : bool) (routes : list hroute) (seq : string) (s : rec_state) : pyres (rec_row * rec_state) :=
  search_loop first seq (RecRow seq None false (Some NoCandidate) JNull None None false) s (seq_candidates routes seq 24).

Fixpoint search_all (first : bool) (routes : list hroute) (seqs : list string) (s : rec_state) : pyres (list rec_row * rec_state) :=
  match seqs with
  | [] => Ret ([], s)
  | seq :: seqs' =>
      t <-! search_seq first routes seq s ;;
      u <-! search_all first routes seqs' t.2 ;;
      Ret (t.1 :: u.1, u.2)
  end.

(** The rows, whether the proven sequences are again, and the files. *)
Definition recover (routes : list hroute) (s : rec_state) : pyres (list rec_row * bool * rec_state) :=
  t <-! search_all true routes PROVEN (RState (rt_roots s) (rt_alts s) (rt_vector s) false) ;;
  let '(rows, s) := t in
  let ok := forallb rr_ok rows in
  if ok then
    u <-! search_all false routes (filter (fun q => q ∉ PROVEN) SEQS) s ;;
    Ret (rows ++ u.1, ok, u.2)
  else Ret (rows, ok, s).

(** What write_hurdle_h makes of the rows. *)
Definition row_sim (r : rec_row) : sim_row := SimRow (rr_seq r) (rr_ok r) (or0 (rr_cu r)).
Definition recover_hurdles (rows : list rec_row) : list hops_hurdle := hurdles (row_sim <$> rows).
End node.

(** * The size pass *)

(** [f"alt{i:03}"] *)
Definition pad3 (i : nat) : string :=
  let t := pretty i in ((if (i <? 10)%nat then "00" else if (i <? 100)%nat then "0" else "") ++ t)%string.
Definition alt_name (i : nat) : string := ("alt" ++ pad3 i)%string.

Inductive size_reason := SizeResolve (e : pyexn) | SizeCompile (e : pyexn).
(** What the executable routes that resolve name, beyond the static accounts. *)
Definition unique_dynamic (rpc : list string -> rpc_config -> pyres rpc_reply) (cache : gmap string pump_fields)
    (wallet : string) (routes : list hroute) (pools : list hpool) : list string :=
  py_sorted (foldl (fun keys r =>
    if negb (hr_exec r) then keys else
    match build_route_accounts rpc cache wallet pools r with
    | Raise _ => keys
    | Ret (accs, _, _) => keys ∪ list_to_set (filter (fun a => a ∉ static_set wallet None) accs)
    end) (∅ : gset string) routes).

Record size_res := SizeRes {
  zr_id : pyval; zr_seq : string; zr_ok : bool; zr_reason : option size_reason; zr_raw : option Z; zr_noalt : option Z;
  zr_nacc : option nat }.
Record size_doc := SizeDoc {
  zd_n : Z; zd_ok : Z; zd_over : Z; zd_failed : Z; zd_dynamic : Z; zd_planned : Z; zd_rows : list size_res }.

Section size.
Context (rpc : list string -> rpc_config -> pyres rpc_reply) (cache : gmap string pump_fields) (wallet : string) (pools : list hpool).
(** The key parser and the message compiler of the library, the latter on a message with null signature. *)
Context (from_string : string -> pyres bytes) (message_size : list (string * bool * bool) -> bytes -> list alt_row -> pyres Z).
Context (pid : option string).

(** compile_v0_size through compile_message: every account key and every table's key is parsed. *)
Definition compile_size (keys : list string) (data : bytes) (alts : list alt_row) : pyres Z :=
  metas <-! check_message wallet keys data ;;
  _ <-! py_map from_string keys ;;
  _ <-! py_map (fun a => _ <-! from_string (t_pubkey a) ;; py_map from_string (t_addresses a)) alts ;;
  _ <-! from_string (default "11111111111111111111111111111112"%string pid) ;;
  message_size metas data alts.

(** The first pass on a route: the row, the addresses seen. *)
Definition size_first (st : list size_res * gset string * Z) (r : hroute) : list size_res * gset string * Z :=
  let '(rows, dyn, failed) := st in
  match build_route_accounts rpc cache wallet pools r with
  | Raise e => (rows ++ [SizeRes (hr_id r) (hr_seq r) false (Some (SizeResolve e)) None None None], dyn, failed + 1)
  | Ret (keys, data, _) =>
      let dyn := dyn ∪ list_to_set (filter (fun a => a <> wallet) keys) in
      match compile_size keys data [] with
      | Raise e => (rows ++ [SizeRes (hr_id r) (hr_seq r) false (Some (SizeCompile e)) None None None], dyn, failed + 1)
      | Ret n => (rows ++ [SizeRes (hr_id r) (hr_seq r) true None None (Some n) (Some (length keys))], dyn, failed)
      end
  end.

(** The second pass on a row and its route, with the planned tables. *)
Definition size_final (planned : list alt_row) (st : list size_res * Z) (rr : size_res * hroute) : list size_res * Z :=
  let '(final, over) := st in
  let '(row, r) := rr in
  if negb (zr_ok row) then (final ++ [row], over) else
  match (kd <-! build_route_accounts rpc cache wallet pools r ;; n <-! compile_size kd.1.1 kd.1.2 planned ;; Ret (length kd.1.1, n)) with
  | Raise e => (final ++ [SizeRes (hr_id r) (hr_seq r) false (Some (SizeResolve e)) None None None], over + 1)
  | Ret (nacc, n) =>
      (final ++ [SizeRes (hr_id r) (hr_seq r) (n <=? V0_MAX) None (Some n) (zr_noalt row) (Some nacc)],
       if n <=? V0_MAX then over else over + 1)
  end.

Definition planned_tables (tables : list (list string)) : list alt_row := imap (fun i t => AltRow (alt_name i) t) tables.

Definition size_pass (routes : list hroute) : size_doc :=
  let execs := filter (fun r => hr_exec r = true) routes in
  let '(sizes, dyn, failed) := foldl size_first ([], ∅, 0) execs in
  let addrs := py_sorted dyn in
  let tables := plan_alts addrs in
  let '(final, over) := foldl (size_final (planned_tables tables)) ([], 0) (zip sizes execs) in
  SizeDoc (Z.of_nat (length final)) (Z.of_nat (length (filter (fun r => zr_ok r = true) final))) over failed
    (Z.of_nat (length addrs)) (Z.of_nat (length tables)) final.
End size.

(** [{s["id"]: s for s in rows if "id" in s}], what publishing reads. *)
Definition size_rows (d : size_doc) : list (pyval * size_row) :=
  foldl (fun m z => od_set m (zr_id z) (SizeRow (zr_ok z) (zr_raw z))) [] (zd_rows d).

(** * Simulating all sequences at once *)

Section sim7.
Context (rpc : list string -> rpc_config -> pyres rpc_reply) (cache : gmap string pump_fields).
Context (ensure_ata : string -> string -> pyres unit) (create_alt : list string -> pyres string).
Context (compile : list string -> bytes -> list alt_row -> Z -> pyres bytes) (simulate : bytes -> sim).
Context (wallet : string) (pid : option string) (pools : list hpool).

(** The first candidate that resolves, or the last exception. *)
Fixpoint first_resolved (last : option pyexn) (cands : list hroute)
    : option (hroute * (list string * bytes * list hop_sem)) * option pyexn :=
  match cands with
  | [] => (None, last)
  | r :: cands' =>
      match resolve_route rpc cache ensure_ata wallet pools r with
      | Ret kds => (Some (r, kds), last)
      | Raise e => first_resolved (Some e) cands'
      end
  end.

(** [if n > V0_MAX: raw, n = compile_v0(.., alts, ..)] *)
Definition fit_with (keys : list string) (data : bytes) (alts : list alt_row) : pyres (bytes * bool) :=
  raw <-! compile keys data [] 400000 ;;
  if V0_MAX <? blen raw then raw <-! compile keys data alts 400000 ;; Ret (raw, true) else Ret (raw, false).

(** The body of the second loop, which may raise. *)
Definition sim_hit (alts : list alt_row) (seq : string) (r : hroute) (kds : list string * bytes * list hop_sem)
    (roots : list (gmap string golden)) : pyres (rec_row * list (gmap string golden)) :=
  let '(keys, data, sems) := kds in
  fails <-! validate_vector rpc cache wallet pools r keys sems ;;
  if negb (bool_decide (fails = []))
  then Ret (RecRow seq (Some (hr_id r)) false (Some (VectorFail (take 8 fails))) JNull None None false, roots) else
  t <-! fit_with keys data alts ;;
  let '(raw, used_alt) := t in
  if V0_MAX <? blen raw
  then Ret (RecRow seq (Some (hr_id r)) false (Some (Oversize (blen raw))) JNull None (Some (blen raw)) used_alt, roots) else
  let sm := simulate raw in
  let ok := is_custom6 (sm_err sm) in
  _ <-! (if ok then Ret [] else explain_sim_fail seq (hr_id r) sems wallet (sm_logs sm)) ;;
  roots <-! (if ok then
               persist_golden rpc seq (hr_id r) wallet keys sems (match sm_cu sm with Some c => VInt c | None => VNone end)
                 used_alt pid roots
             else Ret roots) ;;
  Ret (RecRow seq (Some (hr_id r)) ok None (sm_err sm) (sm_cu sm) (Some (blen raw)) used_alt, roots).

Definition sim_row_of (alts : list alt_row) (st : list rec_row * list (gmap string golden))
    (sh : string * (option (hroute * (list string * bytes * list hop_sem)) * option pyexn)) : list rec_row * list (gmap string golden) :=
  let '(rows, roots) := st in
  match sh.2.1 with
  | None => (rows ++ [RecRow sh.1 None false (Resolve <$> sh.2.2) JNull None None false], roots)
  | Some (r, kds) =>
      match sim_hit alts sh.1 r kds roots with
      | Ret (row, roots) => (rows ++ [row], roots)
      | Raise e => (rows ++ [RecRow sh.1 (Some (hr_id r)) false (Some (Resolve e)) JNull None None false], roots)
      end
  end.

(** The rows, whether all are proven, and the files. *)
Definition sim7 (routes : list hroute) (s : rec_state) : pyres (list rec_row * bool * rec_state) :=
  let resolved := (fun seq => (seq, first_resolved None (seq_candidates routes seq 64))) <$> SEQS in
  let keysets := omap (fun sh : string * (option (hroute * (list string * bytes * list hop_sem)) * option pyexn) =>
    (fun rk : hroute * (list string * bytes * list hop_sem) => rk.2.1.1) <$> sh.2.1) resolved in
  alts <-! (match keysets with [] => Ret [] | _ => ensure_alts_for_keys create_alt wallet pid (rt_alts s) keysets end) ;;
  let st := foldl (sim_row_of alts) ([], rt_roots s) resolved in
  Ret (st.1, forallb rr_ok st.1, RState st.2 (match keysets with [] => rt_alts s | _ => alts end) (rt_vector s) (rt_dumped s)).
End sim7.

(** * Candidates and tables *)

Definition wanted (seq : string) (r : hroute) : Prop := hr_seq r = seq /\ hr_exec r = true.

(** The fixture of the sequence is frozen in every root. *)
Definition frozen (seq : string) (roots : list (gmap string golden)) : Prop :=
  forall short, od_get SEQ_SHORT seq = Some short -> Forall (fun root => exists g, root !! short = Some g /\ go_custom6 g = true) roots.

#[export] Instance wanted_dec seq r : Decision (wanted seq r).
Proof. unfold wanted. apply _. Defined.

Lemma candidates_loop_take limit seq routes : forall out,
  (length out < limit)%nat ->
  candidates_loop limit seq out routes = out ++ take (limit - length out) (filter (wanted seq) routes).
Proof.
  induction routes as [|r routes IH]; intros out Hl; cbn [candidates_loop].
  { rewrite filter_nil, take_nil. by rewrite app_nil_r. }
  rewrite filter_cons. destruct (String.eqb_spec (hr_seq r) seq) as [Hs|Hs], (hr_exec r) eqn:He; cbn [negb orb].
  2-4: rewrite decide_False by (unfold wanted; rewrite ?He; naive_solver); by apply IH.
  rewrite decide_True by done. destruct (Nat.leb_spec limit (length (out ++ [r]))) as [Hf|Hf]; rewrite length_app in Hf; cbn in Hf.
  - replace (limit - length out)%nat with 1%nat by lia. cbn [take]. by rewrite take_0.
  - rewrite IH by (rewrite length_app; cbn; lia). rewrite length_app. cbn [length]. rewrite <- app_assoc. f_equal.
    replace (limit - length out)%nat with (S (limit - (length out + 1))) by lia. done.
Qed.

(** The candidates are the first executable routes of the sequence. *)
Lemma seq_candidates_take routes seq limit :
  (0 < limit)%nat -> seq_candidates routes seq limit = take limit (filter (wanted seq) routes).
Proof. intros Hl. unfold seq_candidates. rewrite candidates_loop_take by done. by rewrite Nat.sub_0_r. Qed.

Lemma plan_alts_concat addrs : concat (plan_alts addrs) = addrs.
Proof.
  destruct addrs as [|a l]; [done|]. unfold plan_alts. apply (concat_chunks (length (a :: l)) ALT_MAX (a :: l)); [unfold ALT_MAX; lia|done].
Qed.

Lemma plan_alts_fit addrs : Forall (fun t => (length t <= ALT_MAX)%nat) (plan_alts addrs).
Proof.
  destruct addrs as [|a l]; [repeat constructor; cbn; lia|]. unfold plan_alts.
  destruct (concat_chunks (length (a :: l)) ALT_MAX (a :: l)) as [_ H]; [unfold ALT_MAX; lia|done|].
  eapply Forall_impl; [exact H|]. by intros t [_ ?].
Qed.

Lemma elem_py_sorted (X : gset string) k : k ∈ py_sorted X <-> k ∈ X.
Proof. unfold py_sorted. by rewrite merge_sort_Permutation, elem_of_elements. Qed.

Section tables.
Context (create_alt : list string -> pyres string) (wallet : string) (pid : option string).

(** The tables cover the routes: made anew, they hold every account of the given key sets
    that is not one of the static ones, each at one place of one table, no table beyond 256. *)
Theorem tables_cover keysets tables :
  ensure_alts_for_keys create_alt wallet pid [] keysets = Ret tables ->
  (forall k, (exists t, t ∈ tables /\ k ∈ t_addresses t) <-> (exists keys, keys ∈ keysets /\ k ∈ keys) /\ k ∉ static_set wallet pid) /\
  NoDup (concat (t_addresses <$> tables)) /\ Forall (fun t => (length (t_addresses t) <= ALT_MAX)%nat) tables.
Proof.
  unfold ensure_alts_for_keys. set (dyn := list_to_set (filter (fun a => a ∉ static_set wallet pid) (concat keysets)) : gset string).
  intros H.
  assert (Hadd : t_addresses <$> tables = plan_alts (py_sorted dyn)).
  { apply list_eq. intros i. rewrite list_lookup_fmap. pose proof (py_map_length _ _ _ H) as Hlen.
    destruct (tables !! i) as [t|] eqn:Et; cbn.
    - destruct (py_map_lookup _ _ _ _ _ H Et) as (a & Ha & Hf). rewrite Ha. apply py_bind_Ret in Hf as (pk & _ & [= <-]). done.
    - symmetry. apply lookup_ge_None. apply lookup_ge_None in Et. lia. }
  assert (Hdyn : forall k, k ∈ dyn <-> (exists keys, keys ∈ keysets /\ k ∈ keys) /\ k ∉ static_set wallet pid).
  { intros k. unfold dyn. rewrite elem_of_list_to_set, list_elem_of_filter. split.
    - intros [Hs Hin]. split; [|done]. apply list_elem_of_In, in_concat in Hin as (ks & H1 & H2). exists ks. by rewrite !list_elem_of_In.
    - intros [(ks & H1 & H2) Hs]. split; [done|]. apply list_elem_of_In, in_concat. exists ks. by rewrite <- !list_elem_of_In. }
  split; [|split].
  - intros k. rewrite <- Hdyn, <- elem_py_sorted, <- (plan_alts_concat (py_sorted dyn)), <- Hadd. split.
    + intros (t & Ht & Hk). apply list_elem_of_In, in_concat. exists (t_addresses t).
      rewrite <- !list_elem_of_In. split; [by apply list_elem_of_fmap_2|done].
    + intros Hin. apply list_elem_of_In, in_concat in Hin as (a & H1 & H2). rewrite <- !list_elem_of_In in *.
      apply list_elem_of_fmap in H1 as (t & -> & Ht). by exists t.
  - rewrite Hadd, plan_alts_concat. unfold py_sorted. rewrite merge_sort_Permutation. apply NoDup_elements.
  - pose proof (plan_alts_fit (py_sorted dyn)) as H3. rewrite <- Hadd in H3. by apply Forall_fmap in H3.
Qed.
End tables.

(** * What a proven row rests on *)

(** Fixtures are only added, and a frozen one stays. *)
Definition fixtures_grow (roots roots' : list (gmap string golden)) : Prop :=
  Forall2 (fun a b => forall short old, a !! short = Some old -> go_custom6 old = true -> b !! short = Some old) roots roots'.

Lemma fixtures_refl roots : fixtures_grow roots roots.
Proof. apply Forall_Forall2_diag, Forall_forall. by intros x _ s old. Qed.
Lemma fixtures_trans a b c : fixtures_grow a b -> fixtures_grow b c -> fixtures_grow a c.
Proof.
  unfold fixtures_grow. rewrite !Forall2_lookup. intros H1 H2 i. specialize (H1 i). specialize (H2 i).
  destruct H1 as [x y Hxy|]; inversion H2 as [? z Hyz|]; subst; constructor. intros s old Hx Hc. by apply Hyz; [apply Hxy|].
Qed.

Lemma persist_grows rpc seq rid wallet keys sems cu alt pid roots roots' :
  persist_golden rpc seq rid wallet keys sems cu alt pid roots = Ret roots' ->
  fixtures_grow roots roots' /\ frozen seq roots'.
Proof.
  unfold persist_golden, frozen. destruct (od_get SEQ_SHORT seq) as [short|]; [|intros [= <-]; split; [apply fixtures_refl|done]].
  intros H. apply py_bind_Ret in H as (doc & Hdoc & [= <-]). apply golden_doc_keys in Hdoc as (_ & _ & Hc & _). split.
  - apply Forall2_fmap_r, Forall_Forall2_diag, Forall_forall. intros root _ s old Hs Ho. unfold persist_one.
    destruct (root !! short) as [g|] eqn:Eg.
    + destruct (go_custom6 g) eqn:Ec; [done|]. rewrite lookup_insert_ne; [done|]. intros <-. congruence.
    + rewrite lookup_insert_ne; [done|]. intros <-. congruence.
  - intros s [= <-]. apply Forall_fmap, Forall_forall. intros root _. cbn. unfold persist_one.
    destruct (root !! short) as [g|] eqn:Eg; [|exists doc; by rewrite lookup_insert_eq].
    destruct (go_custom6 g) eqn:Ec; [by exists g|exists doc; by rewrite lookup_insert_eq].
Qed.

Section proofs.
Context (rpc : list string -> rpc_config -> pyres rpc_reply) (cache : gmap string pump_fields).
Context (ensure_ata : string -> string -> pyres unit) (create_alt : list string -> pyres string).
Context (compile : list string -> bytes -> list alt_row -> Z -> pyres bytes) (simulate : bytes -> sim).
Context (wallet : string) (pid : option string) (pools : list hpool).

(** The route's own accounts were derived, validated and compiled into a transaction that fits and
    whose simulation ended in Custom(6). *)
Definition proven_by (seq : string) (row : rec_row) (r : hroute) : Prop :=
  rr_id row = Some (hr_id r) /\
  exists keys data sems alts raw, build_route_accounts rpc cache wallet pools r = Ret (keys, data, sems) /\
    validate_vector rpc cache wallet pools r keys sems = Ret [] /\
    compile keys data alts 400000 = Ret raw /\ blen raw <= V0_MAX /\ is_custom6 (sm_err (simulate raw)) = true /\
    rr_cu row = sm_cu (simulate raw) /\ rr_raw row = Some (blen raw).

Notation try := (try_route rpc cache ensure_ata create_alt compile simulate wallet pid pools).

Lemma fit_transaction_raw keys data s raw used s' :
  fit_transaction create_alt compile wallet pid keys data s = Ret (raw, used, s') ->
  (exists alts, compile keys data alts 400000 = Ret raw) /\ rt_roots s' = rt_roots s.
Proof.
  unfold fit_transaction. intros H. apply py_bind_Ret in H as (raw0 & H0 & H). destruct (V0_MAX <? blen raw0).
  - apply py_bind_Ret in H as (alts & _ & H). apply py_bind_Ret in H as (raw1 & H1 & [= <- <- <-]). split; [by exists alts|done].
  - injection H as <- <- <-. split; [by exists []|done].
Qed.

Lemma save_vector_roots first seq r keys fails table s : rt_roots (save_vector first seq r keys fails table s) = rt_roots s.
Proof. unfold save_vector. by destruct (first && _ && _). Qed.

Lemma try_route_spec first seq r s row s' :
  try first seq r s = Ret (row, s') ->
  rr_seq row = seq /\ fixtures_grow (rt_roots s) (rt_roots s') /\
  (rr_ok row = true -> proven_by seq row r /\ frozen seq (rt_roots s')).
Proof.
  unfold try_route. destruct (resolve_route _ _ _ _ _ _) as [[[keys data] sems]|e] eqn:Er.
  2: { intros [= <- <-]. split; [done|]. split; [apply fixtures_refl|done]. }
  intros H. apply py_bind_Ret in H as (table & _ & H). apply py_bind_Ret in H as (f1 & Hf1 & H). apply py_bind_Ret in H as (f2 & Hf2 & H).
  cbv zeta in H. destruct (bool_decide_reflect (f1 ++ f2 = [])) as [Hnil|Hnil]; cbn [negb] in H.
  2: { injection H as <- <-. rewrite save_vector_roots. split; [done|]. split; [apply fixtures_refl|done]. }
  apply py_bind_Ret in H as ([[raw used] s1] & Hfit & H). apply fit_transaction_raw in Hfit as [(alts & Hc) Hroots].
  rewrite save_vector_roots in Hroots.
  destruct (Z.ltb_spec V0_MAX (blen raw)) as [|Hsz]; [injection H as <- <-; rewrite Hroots; split; [done|]; split; [apply fixtures_refl|done]|].
  destruct (is_custom6 (sm_err (simulate raw))) eqn:E6.
  - apply py_bind_Ret in H as (s2 & H2 & [= <- <-]). apply py_bind_Ret in H2 as (roots & Hp & [= <-]). cbn [rt_roots].
    rewrite Hroots in Hp. destruct (persist_grows _ _ _ _ _ _ _ _ _ _ _ Hp) as [Hg Hfrozen]. split; [done|]. split; [done|]. intros _.
    split; [|done]. split; [done|]. exists keys, data, sems, alts, raw.
    unfold resolve_route in Er. apply py_bind_Ret in Er as (ms & _ & Er). apply py_bind_Ret in Er as (us & _ & Er).
    apply app_nil in Hnil as [-> _]. by split_and!.
  - apply py_bind_Ret in H as (s2 & H2 & [= <- <-]). apply py_bind_Ret in H2 as (ex & _ & [= <-]). rewrite Hroots.
    split; [done|]. split; [apply fixtures_refl|done].
Qed.

Lemma search_loop_spec first seq cands : forall last s row s',
  rr_seq last = seq -> rr_ok last = false ->
  search_loop rpc cache ensure_ata create_alt compile simulate wallet pid pools first seq last s cands = Ret (row, s') ->
  rr_seq row = seq /\ fixtures_grow (rt_roots s) (rt_roots s') /\
  (rr_ok row = true -> exists r, r ∈ cands /\ proven_by seq row r /\ frozen seq (rt_roots s')).
Proof.
  induction cands as [|r cands IH]; intros last s row s' Hl Hok; cbn [search_loop].
  { intros [= <- <-]. split; [done|]. split; [apply fixtures_refl|]. by rewrite Hok. }
  intros H. apply py_bind_Ret in H as ([row1 s1] & H1 & H). apply try_route_spec in H1 as (Hs & Hg & Hp). cbn [fst snd] in H.
  destruct (rr_ok row1) eqn:E1.
  - injection H as <- <-. split; [done|]. split; [done|]. intros _. destruct (Hp eq_refl) as [Hb Hf]. exists r. split; [by left|done].
  - apply IH in H as (H2 & H3 & H4); [|done|done]. split; [done|]. split; [by eapply fixtures_trans|]. intros Hrow.
    destruct (H4 Hrow) as (r' & Hin & Hb & Hf). exists r'. split; [by right|done].
Qed.

Lemma try_route_id first seq r s row s' : try first seq r s = Ret (row, s') -> rr_id row = Some (hr_id r).
Proof.
  unfold try_route. destruct (resolve_route _ _ _ _ _ _) as [[[keys data] sems]|e]; [|by intros [= <- <-]].
  intros H. apply py_bind_Ret in H as (table & _ & H). apply py_bind_Ret in H as (f1 & _ & H). apply py_bind_Ret in H as (f2 & _ & H).
  cbv zeta in H. destruct (negb _); [by injection H as <- <-|].
  apply py_bind_Ret in H as ([[raw used] s1] & _ & H). destruct (_ <? _); [by injection H as <- <-|].
  by apply py_bind_Ret in H as (s2 & _ & [= <- <-]).
Qed.

(** Tried, in some state of the files, and not proven. *)
Definition refused (first : bool) (seq : string) (r : hroute) : Prop :=
  exists s row s', try first seq r s = Ret (row, s') /\ rr_ok row = false.

Lemma search_loop_refused first seq cands : forall last s row s',
  search_loop rpc cache ensure_ata create_alt compile simulate wallet pid pools first seq last s cands = Ret (row, s') ->
  rr_ok row = false ->
  Forall (refused first seq) cands /\ ((cands = [] /\ row = last) \/ exists r, list.last cands = Some r /\ rr_id row = Some (hr_id r)).
Proof.
  induction cands as [|r cands IH]; intros last s row s'; cbn [search_loop].
  { intros [= <- <-] _. split; [constructor|by left]. }
  intros H Hrow. apply py_bind_Ret in H as ([row1 s1] & H1 & H). cbn [fst snd] in H. destruct (rr_ok row1) eqn:E1.
  { injection H as -> ->. congruence. }
  destruct (IH _ _ _ _ H Hrow) as [Hall Hlast]. split; [constructor; [by exists s, row1, s1|done]|]. right.
  destruct Hlast as [[-> ->]|(r' & Hr' & Hid)]; [exists r; split; [done|by eapply try_route_id]|].
  exists r'. split; [|done]. by destruct cands.
Qed.
End proofs.

Lemma frozen_grows seq a b : fixtures_grow a b -> frozen seq a -> frozen seq b.
Proof.
  intros Hg Hf short Hs. specialize (Hf short Hs). unfold fixtures_grow in Hg. revert Hf. induction Hg as [|x y a b Hxy _ IH]; [constructor|].
  intros [(g & H1 & H2) Hf]%Forall_cons. constructor; [exists g; split; [by apply Hxy|done]|by apply IH].
Qed.

(** * The whole search *)

Section search.
Context (rpc : list string -> rpc_config -> pyres rpc_reply) (cache : gmap string pump_fields).
Context (ensure_ata : string -> string -> pyres unit) (create_alt : list string -> pyres string).
Context (compile : list string -> bytes -> list alt_row -> Z -> pyres bytes) (simulate : bytes -> sim).
Context (wallet : string) (pid : option string) (pools : list hpool) (routes : list hroute).

Notation proven := (proven_by rpc cache compile simulate wallet pools).
Notation all first := (search_all rpc cache ensure_ata create_alt compile simulate wallet pid pools first routes).

(** A row marked ok is backed by one of the sequence's first candidates, and its fixture is frozen. *)
Definition backed (limit : nat) (roots : list (gmap string golden)) (row : rec_row) : Prop :=
  rr_ok row = true ->
  exists r, r ∈ take limit (filter (wanted (rr_seq row)) routes) /\ proven (rr_seq row) row r /\ frozen (rr_seq row) roots.

Lemma backed_grows limit a b row : fixtures_grow a b -> backed limit a row -> backed limit b row.
Proof. intros Hg Hb Hok. destruct (Hb Hok) as (r & H1 & H2 & H3). exists r. split; [done|]. split; [done|by eapply frozen_grows]. Qed.

(** A row that is not ok: every candidate was tried and refused, and the last one names the row. *)
Definition exhausted (first : bool) (row : rec_row) : Prop :=
  rr_ok row = false ->
  let cands := take 24 (filter (wanted (rr_seq row)) routes) in
  Forall (refused rpc cache ensure_ata create_alt compile simulate wallet pid pools first (rr_seq row)) cands /\
  ((cands = [] /\ rr_reason row = Some NoCandidate) \/ exists r, list.last cands = Some r /\ rr_id row = Some (hr_id r)).

Lemma search_all_exhausted first seqs : forall s rows s', all first seqs s = Ret (rows, s') -> Forall (exhausted first) rows.
Proof.
  induction seqs as [|seq seqs IH]; intros s rows s' H; cbn [search_all] in H.
  { injection H as <- <-. constructor. }
  apply py_bind_Ret in H as ([row s1] & H1 & H). apply py_bind_Ret in H as ([rows' s2] & H2 & [= <- <-]). cbn [fst snd] in *.
  constructor; [|by eapply IH]. intros Hrow. unfold search_seq in H1.
  assert (Hseq : rr_seq row = seq) by (by apply search_loop_spec in H1 as (? & _)). rewrite Hseq in *.
  rewrite seq_candidates_take in H1 by lia. cbv zeta. destruct (search_loop_refused _ _ _ _ _ _ _ _ _ _ _ _ _ _ _ _ H1 Hrow) as [Hall Hlast].
  split; [done|]. destruct Hlast as [[-> ->]|Hlast]; [by left|by right].
Qed.

Lemma search_all_backed first seqs : forall s rows s', all first seqs s = Ret (rows, s') ->
  rr_seq <$> rows = seqs /\ fixtures_grow (rt_roots s) (rt_roots s') /\ Forall (backed 24 (rt_roots s')) rows.
Proof.
  induction seqs as [|seq seqs IH]; intros s rows s' H; cbn [search_all] in H.
  { injection H as <- <-. split; [done|]. split; [apply fixtures_refl|constructor]. }
  apply py_bind_Ret in H as ([row s1] & H1 & H). apply py_bind_Ret in H as ([rows' s2] & H2 & [= <- <-]).
  unfold search_seq in H1. apply search_loop_spec in H1 as (E & Hg & Hp); [|done|done]. rewrite seq_candidates_take in Hp by lia.
  apply IH in H2 as (E2 & Hg2 & Hf). cbn [fst snd] in *. split; [cbn; by rewrite E, E2|]. split; [by eapply fixtures_trans|].
  constructor; [|done]. intros Hok. rewrite E. destruct (Hp Hok) as (r & P1 & P2 & P3). exists r. split; [done|].
  split; [done|]. by eapply frozen_grows.
Qed.

(** C31. What recovering proves: it has one row a sequence, the proven three first and the rest only
    when those all hold again; a row marked ok is backed by one of the first 24 executable routes of
    its sequence, whose accounts were derived and validated without a fault, whose transaction fits
    1232 bytes and ended in Custom(6), and its fixture is frozen; for a row not ok every one of
    those candidates was tried and refused; no frozen fixture was replaced. *)
Theorem recovered_rows_proven s rows ok s' :
  recover rpc cache ensure_ata create_alt compile simulate wallet pid pools routes s = Ret (rows, ok, s') ->
  rr_seq <$> rows = PROVEN ++ (if ok then filter (fun q => q ∉ PROVEN) SEQS else []) /\
  ok = forallb rr_ok (take 3 rows) /\
  Forall (backed 24 (rt_roots s')) rows /\ Forall (exhausted true) (take 3 rows) /\ Forall (exhausted false) (drop 3 rows) /\
  fixtures_grow (rt_roots s) (rt_roots s').
Proof.
  unfold recover. intros H. apply py_bind_Ret in H as ([rows1 s1] & H1 & H). pose proof (search_all_exhausted _ _ _ _ _ H1) as Hx1.
  apply search_all_backed in H1 as (E1 & Hg1 & Hf1).
  assert (Hl3 : length rows1 = 3%nat) by (apply (f_equal length) in E1; by rewrite length_fmap in E1).
  assert (Hl : take 3 rows1 = rows1) by (apply take_ge; lia).
  destruct (forallb rr_ok rows1) eqn:Eok.
  - apply py_bind_Ret in H as ([rows2 s2] & H2 & [= <- <- <-]). pose proof (search_all_exhausted _ _ _ _ _ H2) as Hx2.
    apply search_all_backed in H2 as (E2 & Hg2 & Hf2). cbn [fst snd] in *.
    split; [by rewrite fmap_app, E1, E2|]. split; [by rewrite take_app_length' by done|].
    split. { apply Forall_app. split; [|done]. eapply Forall_impl; [exact Hf1|]. intros x. by apply backed_grows. }
    rewrite take_app_length', drop_app_length' by done. split; [done|]. split; [done|by eapply fixtures_trans].
  - injection H as <- <- <-. rewrite app_nil_r, Hl, drop_ge by lia. split_and!; by try constructor.
Qed.

(** ** sim7 *)

Lemma first_resolved_some cands : forall last r kds e,
  first_resolved rpc cache ensure_ata wallet pools last cands = (Some (r, kds), e) ->
  r ∈ cands /\ build_route_accounts rpc cache wallet pools r = Ret kds.
Proof.
  induction cands as [|c cands IH]; intros last r kds e; cbn [first_resolved]; [done|].
  destruct (resolve_route _ _ _ _ _ c) as [k|x] eqn:Er.
  - intros [= <- <- <-]. split; [by left|]. unfold resolve_route in Er.
    apply py_bind_Ret in Er as (ms & _ & Er). by apply py_bind_Ret in Er as (us & _ & Er).
  - intros H. apply IH in H as [H1 H2]. split; [by right|done].
Qed.

Lemma sim_hit_spec alts seq r kds roots row roots' :
  build_route_accounts rpc cache wallet pools r = Ret kds ->
  sim_hit rpc cache compile simulate wallet pid pools alts seq r kds roots = Ret (row, roots') ->
  rr_seq row = seq /\ fixtures_grow roots roots' /\ (rr_ok row = true -> proven seq row r /\ frozen seq roots').
Proof.
  destruct kds as [[keys data] sems]. intros Hb. unfold sim_hit. intros H. apply py_bind_Ret in H as (fails & Hf & H).
  destruct (bool_decide_reflect (fails = [])) as [->|]; cbn [negb] in H.
  2: { injection H as <- <-. split; [done|]. split; [apply fixtures_refl|done]. }
  apply py_bind_Ret in H as ([raw used] & Hfit & H).
  assert (Hc : exists a, compile keys data a 400000 = Ret raw).
  { unfold fit_with in Hfit. apply py_bind_Ret in Hfit as (raw0 & H0 & Hfit). destruct (V0_MAX <? blen raw0).
    - apply py_bind_Ret in Hfit as (raw1 & H1 & [= <- <-]). by exists alts.
    - injection Hfit as <- <-. by exists []. }
  destruct (Z.ltb_spec V0_MAX (blen raw)); [injection H as <- <-; split; [done|]; split; [apply fixtures_refl|done]|].
  apply py_bind_Ret in H as (ex & _ & H). apply py_bind_Ret in H as (rs & Hp & [= <- <-]).
  split; [done|]. destruct (is_custom6 (sm_err (simulate raw))) eqn:E6.
  - destruct (persist_grows _ _ _ _ _ _ _ _ _ _ _ Hp) as [Hg Hz]. split; [done|]. intros _. split; [|done].
    split; [done|]. destruct Hc as [a Hc]. by exists keys, data, sems, a, raw.
  - injection Hp as <-. split; [apply fixtures_refl|]. cbn. congruence.
Qed.

Definition resolved_ok (sh : string * (option (hroute * (list string * bytes * list hop_sem)) * option pyexn)) : Prop :=
  forall r kds, sh.2.1 = Some (r, kds) ->
  r ∈ take 64 (filter (wanted sh.1) routes) /\ build_route_accounts rpc cache wallet pools r = Ret kds.

Lemma sim_row_of_spec alts rows roots sh rows' roots' :
  resolved_ok sh -> sim_row_of rpc cache compile simulate wallet pid pools alts (rows, roots) sh = (rows', roots') ->
  exists row, rows' = rows ++ [row] /\ rr_seq row = sh.1 /\ fixtures_grow roots roots' /\ backed 64 roots' row.
Proof.
  intros Hsh. assert (Hskip : forall row, rr_seq row = sh.1 -> rr_ok row = false -> (rows ++ [row], roots) = (rows', roots') ->
    exists row, rows' = rows ++ [row] /\ rr_seq row = sh.1 /\ fixtures_grow roots roots' /\ backed 64 roots' row).
  { intros row Hq Hk [= <- <-]. exists row. split; [done|]. split; [done|]. split; [apply fixtures_refl|]. intros Ht. congruence. }
  destruct sh as [seq [[[r kds]|] e]]; cbn [sim_row_of fst snd] in *; [|by apply Hskip].
  destruct (Hsh r kds eq_refl) as [Hin Hb]. cbn [fst] in Hin.
  destruct (sim_hit _ _ _ _ _ _ _ _ _ _ _ _) as [[row roots1]|x] eqn:Eh; [|by apply Hskip].
  apply sim_hit_spec in Eh as (Hq & Hg & Hp); [|done]. intros [= <- <-]. exists row. split; [done|]. split; [done|]. split; [done|].
  intros Hok. rewrite Hq. destruct (Hp Hok) as [Q1 Q2]. exists r. by split_and!.
Qed.

Lemma sim_rows_backed alts shs : Forall resolved_ok shs -> forall rows roots rows' roots',
  Forall (backed 64 roots) rows ->
  foldl (sim_row_of rpc cache compile simulate wallet pid pools alts) (rows, roots) shs = (rows', roots') ->
  rr_seq <$> rows' = (rr_seq <$> rows) ++ shs.*1 /\ fixtures_grow roots roots' /\ Forall (backed 64 roots') rows'.
Proof.
  induction 1 as [|sh shs Hsh _ IH]; intros rows roots rows' roots' Hst; cbn [foldl].
  { intros [= <- <-]. rewrite app_nil_r. split; [done|]. split; [apply fixtures_refl|done]. }
  destruct (sim_row_of _ _ _ _ _ _ _ _ _ sh) as [rows1 roots1] eqn:Es.
  apply sim_row_of_spec in Es as (row & -> & Hq & Hg & Hb); [|done]. intros H. apply IH in H as (P1 & P2 & P3).
  - split; [by rewrite P1, fmap_app, <- app_assoc; cbn; rewrite Hq|]. split; [by eapply fixtures_trans|done].
  - apply Forall_app. split; [|by constructor]. eapply Forall_impl; [exact Hst|]. intros y. by apply backed_grows.
Qed.

(** Simulating all: one row a sequence in order, each ok row backed by one of its first 64
    candidates, and the verdict is that all hold. *)
Theorem simulated_rows_backed s rows ok s' :
  sim7 rpc cache ensure_ata create_alt compile simulate wallet pid pools routes s = Ret (rows, ok, s') ->
  rr_seq <$> rows = SEQS /\ ok = forallb rr_ok rows /\ Forall (backed 64 (rt_roots s')) rows /\ fixtures_grow (rt_roots s) (rt_roots s').
Proof.
  unfold sim7. cbv zeta. set (shs := _ <$> SEQS). intros H. apply py_bind_Ret in H as (alts & _ & H).
  assert (Hshs : Forall resolved_ok shs /\ shs.*1 = SEQS).
  { split; [|done]. apply Forall_fmap, Forall_forall. intros seq _ r kds Hr. cbn [fst snd compose] in *.
    destruct (first_resolved _ _ _ _ _ _ _) as [o e] eqn:Ef; cbn in Hr; subst o. apply first_resolved_some in Ef.
    by rewrite seq_candidates_take in Ef by lia. }
  clearbody shs. destruct Hshs as [Hsh <-].
  destruct (sim_rows_backed alts shs Hsh [] (rt_roots s) _ _ (Forall_nil_2 _) (surjective_pairing _)) as (P1 & P2 & P3).
  injection H as <- <- <-. cbn [rt_roots]. by split_and!.
Qed.
End search.

(** * The size pass *)

Lemma py_map_raises {A B} (f : A -> pyres B) x l : (exists e, f x = Raise e) -> exists e, py_map f (x :: l) = Raise e.
Proof. intros (e & H). exists e. cbn. by rewrite H. Qed.

Lemma then_raises {A B} (m : pyres A) (k : A -> pyres B) : (forall x, exists e, k x = Raise e) -> exists e, py_bind m k = Raise e.
Proof. intros H. destruct m as [x|e]; [apply H|by exists e]. Qed.

(** The name of a planned table is no key: its second letter is outside the alphabet. *)
Lemma alt_name_no_key i : exists e, b58decode (alt_name i) = Raise e.
Proof. eexists. unfold alt_name, b58decode, b58decode_any. cbn. reflexivity. Qed.

Lemma plan_alts_cons addrs : exists t ts, plan_alts addrs = t :: ts.
Proof. destruct addrs as [|a l]; [by exists [], []|]. unfold plan_alts. cbn [length chunks]. eauto. Qed.

Lemma unique_dynamic_elem rpc cache wallet routes pools k :
  k ∈ unique_dynamic rpc cache wallet routes pools <->
  exists r accs data sems, r ∈ routes /\ hr_exec r = true /\ build_route_accounts rpc cache wallet pools r = Ret (accs, data, sems) /\
    k ∈ accs /\ k ∉ static_set wallet None.
Proof.
  unfold unique_dynamic. rewrite elem_py_sorted. set (f := fun keys r => _).
  assert (Hf : forall X, k ∈ foldl f X routes <-> k ∈ X \/ exists r accs data sems, r ∈ routes /\ hr_exec r = true /\
    build_route_accounts rpc cache wallet pools r = Ret (accs, data, sems) /\ k ∈ accs /\ k ∉ static_set wallet None).
  { induction routes as [|r rs IH]; intros X; cbn [foldl].
    { split; [by left|]. intros [?|(r & ? & ? & ? & H & _)]; [done|]. by apply elem_of_nil in H. }
    rewrite IH. assert (Hr : k ∈ f X r <-> k ∈ X \/ exists accs data sems, hr_exec r = true /\
      build_route_accounts rpc cache wallet pools r = Ret (accs, data, sems) /\ k ∈ accs /\ k ∉ static_set wallet None).
    { unfold f. destruct (hr_exec r); cbn [negb]; [|naive_solver].
      destruct (build_route_accounts _ _ _ _ r) as [[[accs data] sems]|e]; [|naive_solver].
      rewrite elem_of_union, elem_of_list_to_set, list_elem_of_filter. naive_solver. }
    rewrite Hr. setoid_rewrite elem_of_cons. naive_solver. }
  rewrite Hf. split; [intros [H|H]; [by apply not_elem_of_empty in H|done]|by right].
Qed.

Section size_proofs.
Context (rpc : list string -> rpc_config -> pyres rpc_reply) (cache : gmap string pump_fields) (wallet : string) (pools : list hpool).
Context (from_string : string -> pyres bytes) (message_size : list (string * bool * bool) -> bytes -> list alt_row -> pyres Z).
Context (pid : option string).
Hypothesis from_string_base58 : forall k e, b58decode k = Raise e -> exists e', from_string k = Raise e'.

Lemma planned_raises keys data addrs :
  exists e, compile_size wallet from_string message_size pid keys data (planned_tables (plan_alts addrs)) = Raise e.
Proof using from_string_base58.
  unfold compile_size. apply then_raises. intros metas. apply then_raises. intros ks.
  destruct (plan_alts_cons addrs) as (t & ts & ->). unfold planned_tables. rewrite imap_cons.
  destruct (alt_name_no_key 0) as (e & He). destruct (from_string_base58 _ _ He) as (e' & He').
  destruct (py_map_raises (fun a => _ <-! from_string (t_pubkey a) ;; py_map from_string (t_addresses a)) (AltRow (alt_name 0) t)
    (imap ((fun i t => AltRow (alt_name i) t) ∘ S) ts)) as (x & Hx); [exists e'; cbn; by rewrite He'|].
  exists x. by rewrite Hx.
Qed.

Lemma size_first_counts routes : forall rows dyn failed rows' dyn' failed',
  failed = Z.of_nat (length (filter (fun z => zr_ok z = false) rows)) ->
  foldl (size_first rpc cache wallet pools from_string message_size pid) (rows, dyn, failed) routes = (rows', dyn', failed') ->
  length rows' = (length rows + length routes)%nat /\ failed' = Z.of_nat (length (filter (fun z => zr_ok z = false) rows')).
Proof.
  induction routes as [|r routes IH]; intros rows dyn failed rows' dyn' failed' Hf; cbn [foldl].
  { intros [= <- <- <-]. split; [cbn; lia|done]. }
  assert (Hstep : exists row dyn1, size_first rpc cache wallet pools from_string message_size pid (rows, dyn, failed) r =
    (rows ++ [row], dyn1, failed + Z.b2z (negb (zr_ok row)))).
  { unfold size_first. destruct (build_route_accounts _ _ _ _ r) as [[[keys data] sems]|e]; [|eexists (SizeRes _ _ false _ _ _ _), _; reflexivity].
    destruct (compile_size _ _ _ _ _ _ _); [|eexists (SizeRes _ _ false _ _ _ _), _; reflexivity]. eexists (SizeRes _ _ true _ _ _ _), _. cbn [zr_ok negb Z.b2z]. by rewrite Z.add_0_r. }
  destruct Hstep as (row & dyn1 & ->). intros H. apply IH in H as [H1 H2].
  - split; [rewrite H1, length_app; cbn; lia|done].
  - subst failed. rewrite filter_app, length_app, filter_cons, filter_nil. destruct (zr_ok row) eqn:E; cbn [negb Z.b2z];
      [rewrite decide_False by congruence|rewrite decide_True by congruence]; cbn; lia.
Qed.

Lemma size_final_counts addrs rrs : forall final over final' over',
  Forall (fun z => zr_ok z = false) final ->
  foldl (size_final rpc cache wallet pools from_string message_size pid (planned_tables (plan_alts addrs))) (final, over) rrs = (final', over') ->
  Forall (fun z => zr_ok z = false) final' /\ length final' = (length final + length rrs)%nat /\
  over' = over + Z.of_nat (length rrs) - Z.of_nat (length (filter (fun z => zr_ok z = false) rrs.*1)).
Proof using from_string_base58.
  induction rrs as [|[z r] rrs IH]; intros final over final' over' Hall; cbn [foldl].
  { intros [= <- <-]. split; [done|]. cbn. split; lia. }
  assert (Hstep : exists row, zr_ok row = false /\
    size_final rpc cache wallet pools from_string message_size pid (planned_tables (plan_alts addrs)) (final, over) (z, r) =
    (final ++ [row], over + Z.b2z (zr_ok z))).
  { unfold size_final. destruct (zr_ok z) eqn:Ez; cbn [negb Z.b2z].
    - destruct (build_route_accounts _ _ _ _ r) as [[[keys data] sems]|e]; cbn; [|by eexists (SizeRes _ _ false _ _ _ _)].
      destruct (planned_raises keys data addrs) as (e & He). rewrite He. cbn. by eexists (SizeRes _ _ false _ _ _ _).
    - exists z. by rewrite Z.add_0_r. }
  destruct Hstep as (row & Hrow & ->). intros H. apply IH in H as (H1 & H2 & H3); [|apply Forall_app; split; [done|by constructor]].
  split; [done|]. split; [rewrite H2, length_app; cbn; lia|]. rewrite H3. cbn [fmap list_fmap fst length]. rewrite filter_cons.
  destruct (zr_ok z) eqn:Ez; cbn [Z.b2z]; [rewrite decide_False by congruence|rewrite decide_True by congruence]; cbn [length]; lia.
Qed.

Lemma size_rows_ok d : Forall (fun z => zr_ok z = false) (zd_rows d) ->
  forall id, sz_ok (default no_size (od_get (size_rows d) id)) = false.
Proof.
  intros Hall id. unfold size_rows.
  assert (Hm : forall m, sz_ok (default no_size (od_get m id)) = false ->
    sz_ok (default no_size (od_get (foldl (fun m z => od_set m (zr_id z) (SizeRow (zr_ok z) (zr_raw z))) m (zd_rows d)) id)) = false).
  { induction Hall as [|z zs Hz _ IH]; intros m Hm; cbn [foldl]; [done|]. apply IH. rewrite od_get_set. by case_decide. }
  by apply Hm.
Qed.

Lemma none_ok rows : Forall (fun z => zr_ok z = false) rows -> filter (fun z => zr_ok z = true) rows = [].
Proof. induction 1 as [|z rows Hz _ IH]; [done|]. by rewrite filter_cons, decide_False by congruence. Qed.

(** C32. The size pass never finds a route that fits: its planned tables are named [alt000], [alt001], ..
    and no such text is a key, so the second pass refuses every route the first one measured.
    Whatever publishing is then asked for, no row is ready. *)
Theorem size_pass_never_ok routes d :
  size_pass rpc cache wallet pools from_string message_size pid routes = d ->
  zd_ok d = 0 /\ zd_n d = Z.of_nat (length (filter (fun r => hr_exec r = true) routes)) /\ zd_over d + zd_failed d = zd_n d /\
  (forall rpc' wallet' alts rows rows', publish_rows rpc' wallet' (size_rows d) alts rows = Ret rows' ->
     Forall (fun r => pw_size_ok r = Some 0 /\ pw_vector_ready r = Some 0 /\ pw_race_ready r = 0) rows').
Proof using from_string_base58.
  unfold size_pass. set (execs := filter _ routes). destruct (foldl _ ([], ∅, 0) execs) as [[sizes dyn] failed] eqn:E1.
  destruct (foldl _ ([], 0) (zip sizes execs)) as [final over] eqn:E2. intros <-. cbn [zd_ok zd_n zd_over zd_failed zd_rows].
  apply size_first_counts in E1 as [Hl Hf]; [|done]. cbn in Hl. apply size_final_counts in E2 as (H1 & H2 & H3); [|constructor].
  rewrite fst_zip in H3 by lia. rewrite length_zip in H2, H3. cbn [length] in H2.
  split. { by rewrite none_ok. }
  split; [lia|]. split; [lia|]. intros rpc' wallet' alts rows rows' Hp. apply Forall_lookup_2. intros i r Hi.
  destruct (py_map_lookup _ _ _ _ _ Hp Hi) as (r0 & _ & Hr). unfold publish_row in Hr. apply py_bind_Ret in Hr as (b & _ & [= <-]).
  rewrite size_rows_ok by done. cbn [pw_size_ok pw_vector_ready pw_race_ready andb Z.b2z]. rewrite andb_false_r. cbn [Z.b2z].
  by destruct (_ =? 0).
Qed.
End size_proofs.

(** * On concrete data *)

Definition bare_state : rec_state := RState [∅] [] None false.
Definition no_ata (mint tok : string) : pyres unit := Raise (RuntimeError "rent").
Definition demo_compile (keys : list string) (data : bytes) (alts : list alt_row) (cu : Z) : pyres bytes := Ret data.
Definition demo_sim (raw : bytes) : sim := Sim JNull None [].
Definition demo_table (t : list string) : pyres string := Ret "table"%string.

(** The one route of the first sequence does not resolve; the others have none. *)
Definition recovered_demo : list rec_row := [
  RecRow "dlmm-dlmm" (Some (VInt 7)) false (Some (Resolve (RuntimeError "rent"))) JNull None None false;
  RecRow "dlmm-pump" None false (Some NoCandidate) JNull None None false;
  RecRow "pump-dlmm" None false (Some NoCandidate) JNull None None false].

Lemma recover_demo :
  recover demo_rpc ∅ no_ata demo_table demo_compile demo_sim demo_wallet None [demo_pool] [demo_route] bare_state =
  Ret (recovered_demo, false, bare_state).
Proof. vm_compute. reflexivity. Qed.

Lemma recovered_rows_proven_witness :
  recover demo_rpc ∅ no_ata demo_table demo_compile demo_sim demo_wallet None [demo_pool] [demo_route] bare_state =
    Ret (recovered_demo, false, bare_state) /\
  rr_seq <$> recovered_demo = PROVEN /\
  Forall (exhausted demo_rpc ∅ no_ata demo_table demo_compile demo_sim demo_wallet None [demo_pool] [demo_route] true) recovered_demo.
Proof.
  split; [exact recover_demo|].
  destruct (recovered_rows_proven demo_rpc ∅ no_ata demo_table demo_compile demo_sim demo_wallet None [demo_pool] [demo_route]
    bare_state recovered_demo false bare_state recover_demo) as (H1 & _ & _ & H2 & _).
  split; [exact H1|exact H2].
Defined.

Lemma size_pass_never_ok_witness :
  exists d, size_pass demo_rpc ∅ demo_wallet [demo_pool] b58decode (fun _ _ _ => Ret 1000) None [demo_route] = d /\
    zd_ok d = 0 /\ zd_n d = 1.
Proof.
  eexists. split; [reflexivity|].
  destruct (size_pass_never_ok demo_rpc ∅ demo_wallet [demo_pool] b58decode (fun _ _ _ => Ret 1000) None
    (fun k e He => ex_intro _ e He) [demo_route] _ eq_refl) as (H1 & H2 & _).
  split; [exact H1|exact H2].
Defined.
