(* ===== verification/TemplateAudit.v ===== *)
(** The audit of the resident two-leg templates, arb-cap/exec_v1/template_audit.py: the decoder of a
    compiled template, its checks against the program's layout, against the lookup table on chain,
    against the pools' accounts and against a simulation, and the verdict on a route.

    The node's account answers and simulations are parameters.  The Markdown report and the
    program accounts are outside. *)
From stdpp Require Import base list strings gmap pretty.
From Stdlib Require Import ZArith Lia Ascii.
From Stdlib Require String.
From S2P Require Import Prelude PyBytes Base58 Pda Submap Accounts TxExpect Deps PyVal ExecGates ExecTemplate AltPlane Recorder HopsRecover.
Open Scope Z_scope.
Open Scope py_scope.

Definition OUR_EXEC : string := "38dsYLgtLkHKDMYNBemkEM3WkvZSUo3RvxZSm7eMDj4K".
Definition TEMPLATE_FEE_RECIPIENTS : list string := [
  "5YxQFdt3Tr9zJLvkFccqXVUwhdTWJQc1fFg2YPbxvxeD";
  "9M4giFFMxmFGXtc3feFzRai56WbBqehoSeRE5GK7gf7";
  "GXPFM2caqTtQYC2cJ5yJRi9VDkpsYZXzYdwYpGnLmtDL";
  "3BpXnfJaUTiwXnJNe7Ej1rcbzqTTQUvLShZaWazebsVR";
  "5cjcW9wExnJJiqgLjq7DEG75Pm6JBgE1hNv4B2vHXUW6";
  "EHAAiTxcdDwQ3U4bU6YcMsQGaekdzLS3B5SmYo46kJtL";
  "5eHhjP8JaYkz83CWwvGU2uMUXefd3AazWGx4gpcuEEYD";
  "A7hAgCzFw14fejgCp387JUJRMNyz4j89JKnhtKU8piqW"]%string.
Definition STATIC_EXPECT : list (option string) := [
  None; Some OUR_EXEC; Some CU_PROG; Some TOKENKEG; Some SYSTEM; Some ATA_PROG; Some MEMO;
  Some ExecTemplate.DLMM; Some ExecTemplate.PUMP; Some TOKEN2022; Some FEE_PROG].
Definition WR_NAMES : list string := [
  "user_quote"; "user_base"; "dlmm"; "vault_x"; "vault_y"; "oracle";
  "bin0"; "bin1"; "pump"; "vault_base"; "vault_quote"; "proto_fee_ata";
  "creator_ata"; "user_vol"; "fee_rec_quote"]%string.
Definition WR_NAMES_BUY : list string := WR_NAMES ++ ["global_vol"%string].
Definition RO_NAMES : list string := [
  "dlmm_event"; "mint_x"; "mint_y"; "pump_event"; "pump_global"; "fee_cfg";
  "proto_fee"; "creator_auth"; "pool_v2"; "fee_recipient"]%string.

(** The encoder of this file pushes the digits and reverses them: exec_gates' text. *)
Definition pk_text (raw : bytes) : string := ExecGates.b58encode raw.

(** * Reading a template *)

Definition _u16 (buf : bytes) (off : Z) : pyres (Z * Z) :=
  n <-! py_index buf off ;;
  if n <? 128 then Ret (n, off + 1) else
  m <-! py_index buf (off + 1) ;;
  Ret (Z.lor (Z.land n 0x7F) (Z.shiftl m 7), off + 2).

Fixpoint read_static (n : nat) (raw : bytes) (off : Z) : list string * Z :=
  match n with
  | O => ([], off)
  | S n' => let r := read_static n' raw (off + 32) in (pk_text (slice off (off + 32) raw) :: r.1, r.2)
  end.

Record tmpl_ix := TIx { tx_prog : Z; tx_accs : bytes; tx_data : bytes }.

Definition read_ix (raw : bytes) (off : Z) : pyres (tmpl_ix * Z) :=
  prog <-! py_index raw off ;;
  na <-! _u16 raw (off + 1) ;;
  let '(nacc, off) := na in
  let accs := slice off (off + nacc) raw in
  nd <-! _u16 raw (off + nacc) ;;
  let '(dlen, off) := nd in
  Ret (TIx prog accs (slice off (off + dlen) raw), off + dlen).

Fixpoint read_ixs (n : nat) (raw : bytes) (off : Z) : pyres (list tmpl_ix * Z) :=
  match n with
  | O => Ret ([], off)
  | S n' =>
      x <-! read_ix raw off ;;
      r <-! read_ixs n' raw x.2 ;;
      Ret (x.1 :: r.1, r.2)
  end.

Record parsed_tmpl := Parsed {
  pt_len : Z; pt_static : list string; pt_alt : string; pt_wr : bytes; pt_ro : bytes; pt_disc : bytes;
  pt_nacc : Z; pt_cu : option Z; pt_dir : option Z }.

(** The part behind the instructions and the summary. *)
Definition read_lookup (raw : bytes) (off : Z) : pyres (string * bytes * bytes) :=
  nl <-! _u16 raw off ;;
  let '(n_look, off) := nl in
  if negb (n_look =? 1) then Raise (ValueError "lookups") else
  let alt := pk_text (slice off (off + 32) raw) in
  nw <-! _u16 raw (off + 32) ;;
  let '(nwr, off) := nw in
  let wr := slice off (off + nwr) raw in
  nr <-! _u16 raw (off + nwr) ;;
  let '(nro, off) := nr in
  let ro := slice off (off + nro) raw in
  if negb (off + nro =? blen raw) then Raise (ValueError "parsed") else
  Ret (alt, wr, ro).

Definition is_arb (ix : tmpl_ix) : bool := bool_decide (take 8 (tx_data ix) = DISC).
Definition is_cu (ix : tmpl_ix) : bool := bool_decide (take 1 (tx_data ix) = [2]).

Definition cu_limit_of (ixs : list tmpl_ix) : pyres (option Z) :=
  match find is_cu ixs with
  | Some ix => if 5 <=? blen (tx_data ix) then l <-! unpack_u 4 (tx_data ix) 1 ;; Ret (Some l) else Ret None
  | None => Ret None
  end.

Definition parse_template (raw : bytes) : pyres parsed_tmpl :=
  let bad := Raise (ValueError "not a v0 template") in
  if blen raw <? 70 then bad else
  b0 <-! py_index raw 0 ;;
  b65 <-! py_index raw 65 ;;
  if negb (b0 =? 1) || negb (b65 =? 0x80) then bad else
  n_static <-! py_index raw 69 ;;
  let '(static, off) := read_static (Z.to_nat n_static) raw 70 in
  nx <-! _u16 raw (off + 32) ;;
  let '(n_ix, off) := nx in
  t <-! read_ixs (Z.to_nat n_ix) raw off ;;
  let '(ixs, off) := t in
  l <-! read_lookup raw off ;;
  let '(alt, wr, ro) := l in
  cu <-! cu_limit_of ixs ;;
  let arb := find is_arb ixs in
  Ret (Parsed (blen raw) static alt wr ro
    (match arb with Some ix => take 8 (tx_data ix) | None => [] end)
    (match arb with Some ix => blen (tx_accs ix) | None => 0 end)
    cu (match arb with Some ix => tx_data ix !! 8%nat | None => None end)).

(** * Checks *)

Definition opt_text (o : option Z) : string := match o with Some z => pretty z | None => "None" end.

Fixpoint static_problem (i : nat) (expect : list (option string)) (static : list string) : option string :=
  match expect, static with
  | e :: expect', s :: static' =>
      match e with
      | Some x => if String.eqb s x then static_problem (S i) expect' static'
                  else Some ("static[" ++ pretty i ++ "]=" ++ String.substring 0 8 s)%string
      | None => static_problem (S i) expect' static'
      end
  | _, _ => None
  end.

Definition template_problems (p : parsed_tmpl) (buy : bool) : option string :=
  if negb (length (pt_static p) =? 11)%nat then Some ("static_n=" ++ pretty (length (pt_static p)))%string else
  match static_problem 0 STATIC_EXPECT (pt_static p) with
  | Some why => Some why
  | None =>
      if negb (bool_decide (pt_disc p = DISC)) then Some "disc"%string else
      if negb (blen (pt_wr p) =? (if buy then 16 else 15)) || negb (blen (pt_ro p) =? 10)
      then Some ("lookup wr=" ++ pretty (blen (pt_wr p)) ++ " ro=" ++ pretty (blen (pt_ro p)))%string else
      if negb (bool_decide (pt_cu p = Some 400000)) then Some ("cu_limit=" ++ opt_text (pt_cu p))%string else
      if negb (pt_len p =? (if buy then 626 else 623)) then Some ("len=" ++ pretty (pt_len p))%string else
      if 1232 <? pt_len p then Some "oversize"%string else None
  end.

(** [addresses[i] for i in ix], or the first index that is beyond them. *)
Fixpoint resolve_ix (role : string) (addresses : list string) (ix : bytes) : list string + string :=
  match ix with
  | [] => inl []
  | i :: ix' =>
      match addresses !! Z.to_nat i with
      | None => inr (role ++ "_index_" ++ pretty i ++ "_of_" ++ pretty (length addresses))%string
      | Some a => match resolve_ix role addresses ix' with inl l => inl (a :: l) | inr e => inr e end
      end
  end.

Definition resolve_keys (p : parsed_tmpl) (addresses : list string) : list string * list string * option string :=
  match resolve_ix "wr" addresses (pt_wr p) with
  | inr e => ([], [], Some e)
  | inl wr =>
      match resolve_ix "ro" addresses (pt_ro p) with
      | inr e => ([], [], Some e)
      | inl ro => (wr, ro, None)
      end
  end.

(** [range(56, len(data), 32)], left at the first address that is cut. *)
Fixpoint table_keys (fuel : nat) (data : bytes) (i : Z) : list string :=
  match fuel with
  | O => []
  | S fuel' =>
      if blen data <? i + 32 then [] else pk_text (slice i (i + 32) data) :: table_keys fuel' data (i + 32)
  end.

Definition alt_addresses_from_data (data : bytes) : list string * option string :=
  if blen data <? 56 then ([], Some "alt_short"%string) else
  if negb (le_dec (slice 4 12 data) =? 2 ^ 64 - 1) && negb (le_dec (slice 0 8 data) =? 2 ^ 64 - 1)
  then ([], Some "alt_deactivated"%string)
  else (table_keys (length data) data 56, None).

(** * Reasons and verdicts *)

(** Why a check failed: its text, or the exception behind a prefix ([str(exc)] or the type's name). *)
Inductive why := Text (s : string) | Caught (prefix : string) (e : pyexn) | SimErr (dir : Z) (err : jval) | SimRpc (dir : Z) (e : pyexn).

(** [RACE_READY] needs all five, in this order. *)
Record check_flags := Flags { fl_template : bool * why; fl_alt : bool * why; fl_vector : bool * why; fl_ata : bool * why; fl_sim : bool * why }.
Definition flag_list (f : check_flags) : list (string * (bool * why)) := [
  ("TEMPLATE_VALID"%string, fl_template f); ("ALT_VALID"%string, fl_alt f); ("VECTOR_VALID"%string, fl_vector f);
  ("ATA_VALID"%string, fl_ata f); ("SIM_VALID"%string, fl_sim f)].

Fixpoint first_failed (l : list (string * (bool * why))) : option (string * why) :=
  match l with
  | [] => None
  | (name, (ok, w)) :: l' => if (ok : bool) then first_failed l' else Some (name, w)
  end.
(** [None]: "ok" *)
Definition first_reason (f : check_flags) : option (string * why) := first_failed (flag_list f).

Record verdict := Verdict {
  vd_checks : list (string * (bool * why)); vd_ready : bool; vd_reason : option (string * why); vd_ready_reason : option (string * why) }.

Definition verdict_of (f : check_flags) : verdict :=
  let out := (fun nf : string * (bool * why) => (nf.1, (nf.2.1, if nf.2.1 then Text "" else nf.2.2))) <$> flag_list f in
  let ready := forallb (fun nf : string * (bool * why) => nf.2.1) (flag_list f) in
  Verdict out ready (first_reason f) (if negb ready then first_reason f else None).

(** * Simulation *)

Definition _custom6 (err : jval) : bool :=
  match err with
  | JDict d => match od_get d "InstructionError"%string with Some (JList (_ :: x :: _)) => custom6_obj x | _ => false end
  | _ => false
  end.

Inductive sim_end := Success | Custom6 | Failed (err : jval).
Definition sim_class (err : jval) : bool * sim_end :=
  match err with
  | JNull => (true, Success)
  | _ => if _custom6 err then (true, Custom6) else (false, Failed err)
  end.

Definition patch_for_sim (raw : bytes) (direction amount min_profit : Z) (buy : bool) : pyres bytes :=
  let out := put_slice 1 65 (zeros 64) raw in
  price <-! pack_u 8 800000 ;;
  let out := put_slice 467 475 price out in
  if buy then
    out <-! put_byte 548 direction out ;;
    a <-! pack_u 8 amount ;;
    let out := put_slice 549 557 a out in
    m <-! pack_u 8 min_profit ;;
    Ret (put_slice 557 565 m out)
  else
    out <-! put_byte 546 direction out ;;
    a <-! pack_u 8 amount ;;
    let out := put_slice 547 555 a out in
    m <-! pack_u 8 min_profit ;;
    Ret (put_slice 555 563 m out).

(** What the node answers: error, units, log lines. *)
Record sim_value := SimValue { sv_err : jval; sv_cu : option Z; sv_logs : list string }.
Record sim_out := SimOut { so_ok : bool; so_why : sim_end + pyexn; so_cu : option Z; so_raw : Z; so_log : string; so_dir : Z; so_limit : option Z }.

Definition interesting (ln : string) : bool :=
  contains (chars "Error") (chars ln) || contains (chars "failed") (chars ln) || contains (chars "Custom") (chars ln).
Definition sim_log (logs : list string) : string :=
  String.substring 0 180 (match list.last (filter (fun ln => interesting ln = true) logs) with
                          | Some ln => ln
                          | None => default ""%string (list.last logs)
                          end).

(** * Accounts *)

Notation fetched := (gmap string (option rpc_row)).

Definition acc_data (m : fetched) (pk : string) : option bytes := rw_data <$> row_at m pk.
Definition owned_by (m : fetched) (pk owner : string) : bool := bool_decide (rw_owner <$> row_at m pk = Some owner).

(** [if not acc or len(acc["data"]) < n] *)
Definition short (o : option bytes) (n : Z) : bool := match o with Some d => blen d <? n | None => true end.

(** The mint, and the wallet where there is one, of a token account's data. *)
Definition not_held (data : bytes) (mint : string) (wallet : option string) : pyres bool :=
  m <-! b58decode mint ;;
  if negb (bool_decide (slice 0 32 data = m)) then Ret true else
  match nonempty wallet with
  | None => Ret false
  | Some w => o <-! b58decode w ;; Ret (negb (bool_decide (slice 32 64 data = o)))
  end.

Definition ata_reason (accs : fetched) (w : list (string * string)) (mint_x : string) (wallet : option string) : pyres (option why) :=
  let at_ (n : string) := acc_data accs (default ""%string (od_get w n)) in
  let quote := at_ "user_quote"%string in
  let base := at_ "user_base"%string in
  let fee_q := at_ "fee_rec_quote"%string in
  if short quote 64 then Ret (Some (Text "user_quote_missing")) else
  bad <-! not_held (default [] quote) SOL wallet ;;
  if (bad : bool) then Ret (Some (Text "user_quote_mint_or_owner")) else
  if short base 64 then Ret (Some (Text "user_base_missing")) else
  bad <-! not_held (default [] base) mint_x wallet ;;
  if (bad : bool) then Ret (Some (Text "user_base_mint_or_owner")) else
  if short fee_q 32 then Ret (Some (Text "fee_recipient_quote_missing")) else
  s <-! b58decode SOL ;;
  if negb (bool_decide (slice 0 32 (default [] fee_q) = s)) then Ret (Some (Text "fee_recipient_quote_mint"))
  else Ret None.

Definition pda_text (seeds : list bytes) (program : string) : pyres string :=
  prog <-! b58decode program ;;
  raw <-! find_pda seeds prog ;;
  Ret (pk_text raw).

Record troute := TRoute {
  tr_dlmm : option string; tr_pump : option string; tr_token : option string; tr_tmpl0 : option string; tr_tmpl1 : option string }.

Definition not_checked : option why := Some (Text "not_checked").
Definition fails (s : string) : pyres (option why * option why) := Ret (Some (Text s), not_checked).

Definition bin_missing (accs : fetched) (w : list (string * string)) (slot : string) : bool :=
  negb (owned_by accs (default ""%string (od_get w slot)) ExecTemplate.DLMM).

(** The second part, behind the active bin. *)
Definition pump_part (accs : fetched) (w r : list (string * string)) (mint_x : string) (pdata : bytes) (wallet : option string)
    : pyres (option why * option why) :=
  let w_ n := default ""%string (od_get w n) in
  let r_ n := default ""%string (od_get r n) in
  match parse_pump_pool pdata with
  | None => fails "pump_parse"
  | Some pool =>
      if negb (String.eqb (w_ "vault_base"%string) (pk_text (pp_vault_base pool))) || negb (String.eqb (w_ "vault_quote"%string) (pk_text (pp_vault_quote pool)))
      then fails "pump_vault_mismatch" else
      if negb (String.eqb (pk_text (pp_base pool)) mint_x) || negb (String.eqb (pk_text (pp_quote pool)) SOL)
      then fails "pump_mint_mismatch" else
      let coin := pp_coin_creator pool in
      bad <-! (if bool_decide (coin = []) || bool_decide (coin = ZERO32) then Ret false else
               auth <-! pda_text [ascii_bytes "creator_vault"; coin] ExecTemplate.PUMP ;;
               Ret (negb (String.eqb (r_ "creator_auth"%string) auth))) ;;
      if (bad : bool) then fails "creator_auth_mismatch" else
      if negb (bool_decide (r_ "fee_recipient"%string ∈ TEMPLATE_FEE_RECIPIENTS)) then fails "fee_recipient" else
      a <-! ata_reason accs w mint_x wallet ;;
      Ret (None, a)
  end.

Definition vector_and_ata (route : troute) (wallet : option string) (wr ro : list string) (buy : bool) (accs : fetched)
    : pyres (option why * option why) :=
  let names := if buy then WR_NAMES_BUY else WR_NAMES in
  if negb (length wr =? length names)%nat || negb (length ro =? length RO_NAMES)%nat
  then fails ("resolved wr=" ++ pretty (length wr) ++ " ro=" ++ pretty (length ro)) else
  let w := zip names wr in
  let r := zip RO_NAMES ro in
  let w_ n := default ""%string (od_get w n) in
  let r_ n := default ""%string (od_get r n) in
  let dlmm := w_ "dlmm"%string in
  if negb (bool_decide (Some dlmm = tr_dlmm route)) || negb (bool_decide (Some (w_ "pump"%string) = tr_pump route))
  then fails "pool_pubkey_mismatch" else
  if negb (owned_by accs dlmm ExecTemplate.DLMM) then fails "dlmm_owner" else
  if negb (owned_by accs (w_ "pump"%string) ExecTemplate.PUMP) then fails "pump_owner" else
  match parse_lbpair (default [] (acc_data accs dlmm)) with
  | Raise e => Ret (Some (Caught "lb_parse:" e), not_checked)
  | Ret lb =>
      let mint_x := pk_text (token_x lb) in
      let mint_y := pk_text (token_y lb) in
      if negb (String.eqb mint_y SOL) || negb (String.eqb (r_ "mint_y"%string) SOL) || negb (String.eqb (r_ "mint_x"%string) mint_x)
      then fails "mint_mismatch" else
      if negb (String.eqb (w_ "vault_x"%string) (pk_text (vault_x lb))) || negb (String.eqb (w_ "vault_y"%string) (pk_text (vault_y lb)))
      then fails "dlmm_vault_mismatch" else
      if match nonempty (tr_token route) with Some t => negb (String.eqb t mint_x) | None => false end
      then fails "plane_token_mismatch" else
      active <-! bin_array_pda dlmm (bin_array_index (active_id lb)) ;;
      if negb (bool_decide (active ∈ [w_ "bin0"%string; w_ "bin1"%string]))
      then a <-! ata_reason accs w mint_x wallet ;; Ret (Some (Text "stale_active_bin"), a) else
      if bin_missing accs w "bin0" then fails "bin0_missing" else
      if bin_missing accs w "bin1" then fails "bin1_missing" else
      x <-! b58decode dlmm ;;
      oracle <-! pda_text [ascii_bytes "oracle"; x] ExecTemplate.DLMM ;;
      bad <-! (if negb (String.eqb (w_ "oracle"%string) oracle) then Ret true else
               ev <-! pda_text [ascii_bytes "__event_authority"] ExecTemplate.DLMM ;;
               Ret (negb (String.eqb (r_ "dlmm_event"%string) ev))) ;;
      if (bad : bool) then fails "dlmm_pda_mismatch" else
      pump_part accs w r mint_x (default [] (acc_data accs (w_ "pump"%string))) wallet
  end.

(** * The audit *)

Record audit_row := AuditRow {
  au_dlmm : option string; au_pump : option string; au_token : option string; au_wallet : option string;
  au_error : option pyexn; au_verdict : verdict; au_dirs : list sim_out }.

(** A route of the plane: both templates read, or what was raised. *)
Inductive read_route := Unread (e : pyexn) | Read (wallet : string) (p0 p1 : parsed_tmpl).

Definition hex_bytes (s : option string) : pyres bytes :=
  match s with
  | None => Raise (KeyError "tmpl")
  | Some t => match fromhex (chars t) with Some b => Ret b | None => Raise (ValueError "non-hexadecimal number found") end
  end.

(** The wallet is read outside of the [try]. *)
Definition read_templates (route : troute) : pyres read_route :=
  match (b0 <-! hex_bytes (tr_tmpl0 route) ;; p0 <-! parse_template b0 ;;
         b1 <-! hex_bytes (tr_tmpl1 route) ;; p1 <-! parse_template b1 ;; Ret (p0, p1)) with
  | Raise e => Ret (Unread e)
  | Ret (p0, p1) => wallet <-! at_index (pt_static p0) 0 ;; Ret (Read wallet p0 p1)
  end.

Definition needed_keys (rr : troute * read_route) : list string :=
  match rr.2 with
  | Unread _ => []
  | Read _ p0 p1 => filter (fun k => k <> ""%string) [pt_alt p0; pt_alt p1; default ""%string (tr_dlmm rr.1); default ""%string (tr_pump rr.1)]
  end.

Notation chain_alts := (gmap string (list string * option string)).

(** The accounts of the first wave, and the tables among them. *)
Definition take_account (st : fetched * chain_alts) (ka : string * option rpc_row) : fetched * chain_alts :=
  (<[ka.1 := ka.2]> st.1,
   match ka.2 with
   | Some acc => if String.eqb (rw_owner acc) ALT_PROG then <[ka.1 := alt_addresses_from_data (rw_data acc)]> st.2 else st.2
   | None => st.2
   end).

Definition leg : Type := parsed_tmpl * bool * list string * list string.

(** One direction: its reason about the table takes the place of the one before, if it has one. *)
Definition resolve_leg (files : gmap string (list string)) (chain : chain_alts) (alt_reason : option string) (pb : parsed_tmpl * bool)
    : option string * leg :=
  let '(p, buy) := pb in
  let '(addrs, w) := default ([], Some "alt_missing"%string) (chain !! pt_alt p) in
  let file := default [] (files !! pt_alt p) in
  let alt_reason :=
    match w with
    | Some x => Some x
    | None => if negb (bool_decide (file = [])) && negb (bool_decide (file = addrs)) then Some "alt_file_mismatch"%string else alt_reason
    end in
  let '(wr, ro, err) := resolve_keys p addrs in
  (match err with Some e => Some e | None => alt_reason end, (p, buy, wr, ro)).

Definition resolve_route_keys (files : gmap string (list string)) (chain : chain_alts) (rr : troute * read_route)
    : option (string * option string * list leg) :=
  match rr.2 with
  | Unread _ => None
  | Read wallet p0 p1 =>
      let '(a0, l0) := resolve_leg files chain None (p0, false) in
      let '(a1, l1) := resolve_leg files chain a0 (p1, true) in
      Some (wallet, a1, [l0; l1])
  end.

Definition leg_keys (x : option (string * option string * list leg)) : list string :=
  match x with
  | None => []
  | Some (_, _, legs) => concat ((fun l : leg => let '(_, _, wr, ro) := l in wr ++ ro) <$> legs)
  end.

Section judge.
Context (simulate : bytes -> pyres sim_value) (accs : fetched).

Definition check_leg (route : troute) (wallet : string) (st : option why * option why) (l : leg) : option why * option why :=
  let '(_, buy, wr, ro) := l in
  let '(vr, ar) := match vector_and_ata route (Some wallet) wr ro buy accs with
                   | Ret x => x
                   | Raise e => (Some (Caught "vector_exc:" e), not_checked)
                   end in
  (match st.1 with Some v => Some v | None => vr end, match st.2 with Some a => Some a | None => ar end).

Definition sim_leg (route : troute) (l : leg) : pyres sim_out :=
  let '(p, buy, _, _) := l in
  raw <-! hex_bytes (if buy : bool then tr_tmpl1 route else tr_tmpl0 route) ;;
  tx <-! patch_for_sim raw (Z.b2z buy) 50000000 525000 buy ;;
  Ret match simulate tx with
      | Ret v => let c := sim_class (sv_err v) in
                 SimOut c.1 (inl c.2) (sv_cu v) (blen tx) (sim_log (sv_logs v)) (Z.b2z buy) (pt_cu p)
      | Raise e => SimOut false (inr e) None (blen tx) "" (Z.b2z buy) (pt_cu p)
      end.

Definition sim_reason (dirs : list sim_out) : option why :=
  match filter (fun d => so_ok d = false) dirs with
  | [] => None
  | d :: _ => Some match so_why d with
                   | inl (Failed err) => SimErr (so_dir d) err
                   | inl _ => Text "dir"
                   | inr e => SimRpc (so_dir d) e
                   end
  end.

Definition blocked_why : why := Text "blocked".

(** The five flags from the reasons. *)
Definition flags_of (t_reasons : list string) (alt_reason : option string) (v a : option why) (dirs : list sim_out) : check_flags :=
  let early := match t_reasons, alt_reason with [], None => false | _, _ => true end in
  let s := sim_reason dirs in
  Flags
    (match t_reasons with [] => (true, Text "") | t :: _ => (false, Text t) end)
    (match alt_reason with None => (true, Text "") | Some x => (false, Text x) end)
    (if early then (false, blocked_why) else match v with None => (true, Text "") | Some x => (false, x) end)
    (if early then (false, blocked_why) else match a with None => (true, Text "") | Some x => (false, x) end)
    (bool_decide (s = None) && bool_decide (t_reasons = []) && negb (bool_decide (dirs = [])), default blocked_why s).

Definition judge (route : troute) (wallet : string) (alt_reason : option string) (legs : list leg) : pyres (verdict * list sim_out) :=
  let t_reasons := omap (fun l : leg => let '(p, buy, _, _) := l in template_problems p buy) legs in
  let va := match t_reasons, alt_reason with
            | [], None => foldl (check_leg route wallet) (None, None) legs
            | _, _ => (None, None)
            end in
  dirs <-! (match t_reasons with [] => py_map (sim_leg route) legs | _ => Ret [] end) ;;
  Ret (verdict_of (flags_of t_reasons alt_reason va.1 va.2 dirs), dirs).

Definition blocked_by_template : why := Text "blocked_by_template".

Definition audit_one (rr : troute * read_route) (x : option (string * option string * list leg)) : pyres audit_row :=
  let '(route, read) := rr in
  match x with
  | None =>
      let e := match read with Unread e => Some e | Read _ _ _ => None end in
      let no := (false, blocked_by_template) in
      Ret (AuditRow (tr_dlmm route) (tr_pump route) (tr_token route) None e
             (verdict_of (Flags (false, match e with Some e => Caught "" e | None => Text "parse" end) no no no no)) [])
  | Some (wallet, alt_reason, legs) =>
      vd <-! judge route wallet alt_reason legs ;;
      Ret (AuditRow (tr_dlmm route) (tr_pump route) (tr_token route) (Some wallet) None vd.1 vd.2)
  end.
End judge.

(** [plane["alts"]] and [plane["routes"]]; [limit] as [args.limit or None]. *)
Definition files_of (alts : list (option string * list string)) : gmap string (list string) :=
  foldl (fun m a => match nonempty a.1 with Some k => <[k := a.2]> m | None => m end) ∅ alts.

(** The rows with both templates, no more of them than asked for. *)
Definition selected (limit : option nat) (plane_routes : list troute) : list troute :=
  let routes := filter (fun r => is_Some (nonempty (tr_tmpl0 r)) /\ is_Some (nonempty (tr_tmpl1 r))) plane_routes in
  match limit with Some (S n) => take (S n) routes | _ => routes end.

Definition read_all (routes : list troute) : pyres (list (troute * read_route)) :=
  py_map (fun r => x <-! read_templates r ;; Ret (r, x)) routes.

(** What is asked of the node first, and what its answers leave. *)
Definition first_keys (reads : list (troute * read_route)) : list string := fromkeys (concat (needed_keys <$> reads)).
Definition first_wave (reads : list (troute * read_route)) (got : list (option rpc_row)) : fetched * chain_alts :=
  foldl take_account (∅, ∅) (zip (first_keys reads) got).

(** The keys that the tables named and that were not asked for yet. *)
Definition more_keys (files : gmap string (list string)) (st : fetched * chain_alts) (reads : list (troute * read_route)) : list string :=
  filter (fun k => k <> ""%string /\ st.1 !! k = None) (fromkeys (concat (leg_keys <$> (resolve_route_keys files st.2 <$> reads)))).
Definition second_wave (st : fetched * chain_alts) (more : list string) (got : list (option rpc_row)) : fetched :=
  foldl (fun m (kr : string * option rpc_row) => <[kr.1 := kr.2]> m) st.1 (zip more got).

Definition audit_routes (rpc : list string -> rpc_config -> pyres rpc_reply) (simulate : bytes -> pyres sim_value)
    (alts : list (option string * list string)) (plane_routes : list troute) (limit : option nat) : pyres (list audit_row) :=
  let files := files_of alts in
  reads <-! read_all (selected limit plane_routes) ;;
  got <-! Deps.get_multiple rpc (first_keys reads) None None ;;
  let st := first_wave reads got in
  let more := more_keys files st reads in
  got <-! Deps.get_multiple rpc more None None ;;
  py_map (fun rr => audit_one simulate (second_wave st more got) rr (resolve_route_keys files st.2 rr)) reads.

(** * Reading what was written *)

Lemma blen_nonneg l : 0 <= blen l.
Proof. unfold blen. lia. Qed.

(** [l] is what is left of [raw] at [off]. *)
Definition rest_at (raw : bytes) (off : Z) (l : bytes) : Prop := exists p, raw = p ++ l /\ off = blen p.

Lemma rest_step raw off x l n : rest_at raw off (x ++ l) -> n = blen x -> rest_at raw (off + n) l.
Proof. intros (p & -> & ->) ->. exists (p ++ x). by rewrite <- app_assoc, blen_app. Qed.

Lemma rest_next raw off b l : rest_at raw off (b :: l) -> py_index raw off = Ret b /\ rest_at raw (off + 1) l.
Proof.
  intros H. split; [|by apply (rest_step raw off [b] l)]. destruct H as (p & -> & ->). unfold py_index, blen.
  by rewrite Nat2Z.id, lookup_app_r, Nat.sub_diag by lia.
Qed.

Lemma rest_slice raw off x l n : rest_at raw off (x ++ l) -> n = blen x -> slice off (off + n) raw = x /\ rest_at raw (off + n) l.
Proof.
  intros H Hn. split; [|by eapply rest_step]. destruct H as (p & -> & ->). apply slice_at; [done|lia].
Qed.

Lemma rest_u16 raw off b l : rest_at raw off (b :: l) -> 0 <= b < 128 -> _u16 raw off = Ret (b, off + 1) /\ rest_at raw (off + 1) l.
Proof.
  intros H Hb. apply rest_next in H as [Hi Hr]. split; [|done]. unfold _u16. rewrite Hi. cbn [py_bind].
  by rewrite (proj2 (Z.ltb_lt _ _)) by lia.
Qed.

Lemma rest_end raw off : rest_at raw off [] -> off = blen raw.
Proof. intros (p & -> & ->). by rewrite app_nil_r. Qed.

Lemma read_static_spec raw ks l : forall off,
  Forall (fun k => blen k = 32) ks -> rest_at raw off (concat ks ++ l) ->
  exists off', read_static (length ks) raw off = (pk_text <$> ks, off') /\ rest_at raw off' l.
Proof.
  induction ks as [|k ks IH]; intros off Hk Hr; [by exists off|].
  apply Forall_cons in Hk as [Hk Hks]. cbn [concat] in Hr. rewrite <- app_assoc in Hr.
  apply (rest_slice _ _ _ _ 32) in Hr as [Hs Hr]; [|done]. destruct (IH _ Hks Hr) as (off' & E & H').
  exists off'. cbn [length read_static]. by rewrite E, Hs.
Qed.

(** An instruction on the wire, its lengths below 128. *)
Definition ix_wire (ix : tmpl_ix) : bytes := [tx_prog ix; blen (tx_accs ix)] ++ tx_accs ix ++ [blen (tx_data ix)] ++ tx_data ix.
Definition short_ix (ix : tmpl_ix) : Prop := blen (tx_accs ix) < 128 /\ blen (tx_data ix) < 128.

Lemma read_ix_spec raw off ix l :
  short_ix ix -> rest_at raw off (ix_wire ix ++ l) -> exists off', read_ix raw off = Ret (ix, off') /\ rest_at raw off' l.
Proof.
  intros [Ha Hd] H. unfold ix_wire in H. rewrite <- !app_assoc in H. cbn [app] in H. unfold read_ix.
  pose proof (blen_nonneg (tx_accs ix)). pose proof (blen_nonneg (tx_data ix)).
  apply rest_next in H as [E H]. rewrite E. cbn [py_bind]. apply rest_u16 in H as [E1 H]; [|lia]. rewrite E1. cbn [py_bind].
  apply (rest_slice _ _ _ _ (blen (tx_accs ix))) in H as [Es H]; [|done]. rewrite Es.
  apply rest_u16 in H as [E2 H]; [|lia]. rewrite E2. cbn [py_bind].
  apply (rest_slice _ _ _ _ (blen (tx_data ix))) in H as [Ed H]; [|done]. rewrite Ed. eexists. split; [by destruct ix|done].
Qed.

Lemma read_ixs_spec raw ixs l : forall off,
  Forall short_ix ixs -> rest_at raw off (concat (ix_wire <$> ixs) ++ l) ->
  exists off', read_ixs (length ixs) raw off = Ret (ixs, off') /\ rest_at raw off' l.
Proof.
  induction ixs as [|ix ixs IH]; intros off Hs H; [by exists off|].
  apply Forall_cons in Hs as [Hix Hs]. cbn [fmap list_fmap concat] in H. rewrite <- app_assoc in H.
  destruct (read_ix_spec _ _ _ _ Hix H) as (o1 & E1 & H1). destruct (IH _ Hs H1) as (o2 & E2 & H2).
  exists o2. cbn [length read_ixs]. rewrite E1. cbn [py_bind fst snd]. rewrite E2. by split.
Qed.

Lemma read_lookup_spec raw off alt wr ro :
  blen alt = 32 -> blen wr < 128 -> blen ro < 128 ->
  rest_at raw off ([1] ++ alt ++ [blen wr] ++ wr ++ [blen ro] ++ ro) -> read_lookup raw off = Ret (pk_text alt, wr, ro).
Proof.
  intros Ha Hw Hr H. cbn [app] in H. unfold read_lookup. pose proof (blen_nonneg wr). pose proof (blen_nonneg ro).
  apply rest_u16 in H as [E H]; [|lia]. rewrite E. cbn [py_bind]. rewrite Z.eqb_refl. cbn [negb].
  apply (rest_slice _ _ _ _ 32) in H as [Es H]; [|done]. rewrite Es.
  apply rest_u16 in H as [E1 H]; [|lia]. rewrite E1. cbn [py_bind].
  apply (rest_slice _ _ _ _ (blen wr)) in H as [Ew H]; [|done]. rewrite Ew.
  apply rest_u16 in H as [E2 H]; [|lia]. rewrite E2. cbn [py_bind].
  rewrite <- (app_nil_r ro) in H at 1. apply (rest_slice _ _ _ _ (blen ro)) in H as [Er H]; [|done]. rewrite Er.
  apply rest_end in H. by rewrite <- H, Z.eqb_refl.
Qed.

(** ** Templates *)

Definition template_ixs (buy : bool) (s : shot) : list tmpl_ix := [
  TIx 2 [] (2 :: le_enc 4 CU_LIMIT); TIx 2 [] (3 :: le_enc 8 (s_price s));
  TIx 1 (idx_of buy) (DISC ++ [s_dir s] ++ le_enc 8 (s_amt s) ++ le_enc 8 (s_min s))].

Lemma wire_parts buy s :
  wf_shot buy s ->
  wire_of buy s = [1] ++ s_sig s ++ [0x80; 1; 0; 10; 11] ++ concat (s_keys s) ++ s_bh s ++ [3] ++
    concat (ix_wire <$> template_ixs buy s) ++ [1] ++ s_alt s ++ [blen (s_wr s)] ++ s_wr s ++ [blen (s_ro s)] ++ s_ro s.
Proof.
  intros Hs. unfold wire_of, gap_price, gap_dir, tables, template_ixs, ix_wire. cbn [fmap list_fmap concat tx_prog tx_accs tx_data].
  rewrite !app_nil_r.
  replace (blen (3 :: le_enc 8 (s_price s))) with 9 by (unfold blen; cbn [length]; by rewrite length_le_enc).
  replace (blen (DISC ++ [s_dir s] ++ le_enc 8 (s_amt s) ++ le_enc 8 (s_min s))) with 25
    by (rewrite !blen_app, !blen_le_enc; reflexivity).
  rewrite <- !app_assoc. reflexivity.
Qed.

(** The decoder reads back what a shot was laid out from. *)
Lemma parse_wire buy s :
  wf_shot buy s ->
  parse_template (wire_of buy s) =
  Ret (Parsed (if buy then 626 else 623) (pk_text <$> s_keys s) (pk_text (s_alt s)) (s_wr s) (s_ro s) DISC (blen (idx_of buy))
         (Some 400000) (Some (s_dir s))).
Proof.
  intros Hs. pose proof (wire_len buy s Hs) as Hlen. pose proof (wire_parts buy s Hs) as Hw.
  set (raw := wire_of buy s) in *. clearbody raw.
  assert (H0 : rest_at raw 0 raw) by (by exists []). rewrite Hw in H0 at 2. cbn [app] in H0.
  apply rest_next in H0 as [E0 H]. apply (rest_step _ _ _ _ 64) in H; [|symmetry; apply Hs].
  apply rest_next in H as [E65 H]. do 3 (apply rest_next in H as [_ H]). apply rest_next in H as [E69 H].
  change (0 + 1 + 64) with 65 in E65. change (0 + 1 + 64 + 1 + 1 + 1 + 1) with 69 in E69. change (0 + 1 + 64 + 1 + 1 + 1 + 1 + 1) with 70 in H.
  unfold parse_template. rewrite (proj2 (Z.ltb_ge _ _)) by (rewrite Hlen; destruct buy; lia).
  rewrite E0. cbn [py_bind]. rewrite E65. cbn [py_bind]. change (negb (1 =? 1) || negb (0x80 =? 0x80)) with false. cbn match.
  rewrite E69. cbn [py_bind]. clear E0 E65 E69.
  assert (Hk32 : Forall (fun k => blen k = 32) (s_keys s)) by (eapply Forall_impl; [apply (ws_key _ _ Hs)|]; by intros k [? _]).
  destruct (read_static_spec _ _ _ _ Hk32 H) as (off & Es & H1).
  rewrite (ws_keys _ _ Hs) in Es. change (Z.to_nat 11) with 11%nat. rewrite Es.
  apply (rest_step _ _ _ _ 32) in H1; [|symmetry; apply Hs]. apply rest_u16 in H1 as [En H1]; [|lia]. rewrite En. cbn [py_bind].
  assert (Hshort : Forall short_ix (template_ixs buy s)).
  { repeat constructor; cbn [tx_accs tx_data]; rewrite ?blen_app, ?blen_le_enc; unfold blen; cbn [length]; rewrite ?length_le_enc;
      destruct buy; cbn; lia. }
  destruct (read_ixs_spec _ _ _ _ Hshort H1) as (o2 & Ei & H2).
  change (Z.to_nat 3) with (length (template_ixs buy s)). rewrite Ei. cbn [py_bind].
  destruct (ws_wr _ _ Hs) as [Hwr _], (ws_ro _ _ Hs) as [Hro _].
  rewrite (read_lookup_spec raw o2 (s_alt s) (s_wr s) (s_ro s)); [|apply Hs|rewrite Hwr; destruct buy; cbn; lia|lia|exact H2].
  cbn [py_bind]. rewrite Hlen. reflexivity.
Qed.

(** ** The plane's own templates *)

Lemma pk_decode raw : is_bytes raw -> length raw = 32%nat -> b58decode (pk_text raw) = Ret raw.
Proof.
  intros Hb Hl. unfold b58decode, pk_text. rewrite b58encode_roundtrip by done. cbn [py_bind]. unfold fit32.
  by rewrite Hl, Nat.leb_refl, Nat.sub_diag.
Qed.

Definition CONST_KEYS : list string := [OUR_EXEC; CU_PROG; TOKENKEG; SYSTEM; ATA_PROG; MEMO; ExecTemplate.DLMM; ExecTemplate.PUMP; TOKEN2022; FEE_PROG].

(** The fixed keys are the texts of what they decode to. *)
Lemma const_keys_read : forallb (fun k => match b58decode k with Ret x => String.eqb (pk_text x) k | Raise _ => false end) CONST_KEYS = true.
Proof. vm_compute. reflexivity. Qed.

Lemma keys_read_back ks xs :
  forallb (fun k => match b58decode k with Ret x => String.eqb (pk_text x) k | Raise _ => false end) ks = true ->
  Forall2 (fun k x => b58decode k = Ret x) ks xs -> pk_text <$> xs = ks.
Proof.
  intros Hall H. induction H as [|k x ks xs Hx _ IH]; [done|]. cbn [forallb] in Hall. rewrite Hx in Hall.
  apply andb_true_iff in Hall as [Hk Hall]. apply String.eqb_eq in Hk. cbn. by rewrite Hk, IH.
Qed.

Lemma static_read_back wallet w a static wr ro keys :
  wallet = pk_text w -> is_bytes w -> length w = 32%nat -> v0_parts wallet OUR_EXEC a = (static, wr, ro) ->
  Forall2 (fun k x => b58decode k = Ret x) static keys -> pk_text <$> keys = static /\ static = wallet :: CONST_KEYS.
Proof.
  intros Hw Hb Hl Hp Hk. unfold v0_parts in Hp. injection Hp as <- _ _.
  change (Forall2 (fun k x => b58decode k = Ret x) (wallet :: CONST_KEYS) keys) in Hk. split; [|done].
  inversion Hk as [|? x ? xs Hx Hxs]; subst. rewrite pk_decode in Hx by done. injection Hx as <-.
  cbn [fmap list_fmap]. by rewrite (keys_read_back _ _ const_keys_read Hxs).
Qed.

Lemma pick_resolves role addresses ix l : pick addresses ix = Ret l -> resolve_ix role addresses ix = inl l.
Proof.
  revert l. induction ix as [|i ix IH]; intros l; cbn [pick resolve_ix]; [by intros [= <-]|].
  destruct (addresses !! Z.to_nat i) as [x|]; [|done]. intros H. apply py_bind_Ret in H as (r & Hr & [= <-]). by rewrite (IH _ Hr).
Qed.

Lemma pick_length {A} (l : list A) ix r : pick l ix = Ret r -> length r = length ix.
Proof.
  revert r. induction ix as [|i ix IH]; intros r; cbn [pick]; [by intros [= <-]|].
  destruct (l !! Z.to_nat i); [|done]. intros H. apply py_bind_Ret in H as (r' & Hr & [= <-]). cbn. by rewrite (IH _ Hr).
Qed.

Lemma good_template (buy : bool) (wallet alt : string) (wr ro : bytes) :
  blen wr = (if buy then 16 else 15) -> blen ro = 10 ->
  template_problems (Parsed (if buy then 626 else 623) (wallet :: CONST_KEYS) alt wr ro DISC (blen (idx_of buy)) (Some 400000) (Some 0)) buy = None.
Proof.
  intros Hw Hr. unfold template_problems. cbn [pt_static pt_disc pt_wr pt_ro pt_cu pt_len].
  replace (static_problem 0 STATIC_EXPECT (wallet :: CONST_KEYS)) with (@None string) by reflexivity.
  rewrite Hw, Hr. by destruct buy.
Qed.

(** C23. The audit reads the plane as it was written: a template compiled for a resolved route, by a wallet
    whose text is its key's, decodes without an error and has no problem, names the wallet and the
    eleven static keys, direction 0 and the lookup table it was compiled against, and its indexes
    resolve over that table's addresses to the route's own accounts in their order. *)
Theorem audit_reads_plane wallet w plane r buy alt t :
  wallet = pk_text w -> is_bytes w -> length w = 32%nat ->
  resolved wallet OUR_EXEC r -> try_dir plane buy r = Ret (alt, t) ->
  exists p have a, parse_template t = Ret p /\ template_problems p buy = None /\ pt_static p = ar_static r /\
    pt_dir p = Some 0 /\ AltRow alt have ∈ plane /\ b58decode alt = Ret a /\ pt_alt p = pk_text a /\
    resolve_keys p have = (AltPlane.wr_of buy r, ar_ro r, None).
Proof.
  intros Hw Hb Hl Hres Ht. unfold try_dir in Ht. apply py_bind_Ret in Ht as ([[alt' wi] ri] & Hlook & Ht).
  apply py_bind_Ret in Ht as (tm & Hc & [= <- <-]). fold (AltPlane.wr_of buy r) in Hlook.
  destruct (lookup_prepared_spec _ _ _ _ _ _ Hlook) as (have & Hin & Hpw & Hpr & Hbw & Hbr).
  destruct (parts_sizes _ _ _ Hres) as (_ & Hwr & Hro). specialize (Hwr buy).
  pose proof (pick_length _ _ _ Hpw) as Lw. pose proof (pick_length _ _ _ Hpr) as Lr.
  assert (Ew : bytes_or (Some wi) (if buy then ALT_WR_IX_BUY else ALT_WR_IX) = wi) by (destruct wi; [destruct buy; cbn in *; lia|done]).
  assert (Er : bytes_or (Some ri) (if buy then ALT_RO_IX_BUY else ALT_RO_IX) = ri) by (destruct ri; [cbn in *; lia|done]).
  assert (Hcs := proj1 (compile_spec buy (ar_static r) alt' (Some wi) (Some ri) tm ltac:(by rewrite Ew) ltac:(by rewrite Er)) Hc).
  rewrite Ew, Er in Hcs. destruct Hcs as (keys & a & Hk & Ha & Hs & ->).
  destruct (static_read_back _ _ _ _ _ _ _ Hw Hb Hl (rs_parts _ _ _ Hres) Hk) as [Hst Hst'].
  rewrite (parse_wire buy _ Hs). cbn [blank s_keys s_alt s_wr s_ro s_dir]. rewrite Hst. eexists _, have, a. split; [reflexivity|].
  split. { rewrite Hst'. apply good_template; [apply (ws_wr _ _ Hs)|apply (ws_ro _ _ Hs)]. }
  split; [done|]. split; [done|]. split; [done|]. split; [done|]. split; [done|].
  unfold resolve_keys. cbn [pt_wr pt_ro]. by rewrite (pick_resolves _ _ _ _ Hpw), (pick_resolves _ _ _ _ Hpr).
Qed.

(** ** What is simulated *)

Lemma put_same a b l1 x l3 : a = blen l1 -> b = a + blen x -> put_slice a b x (l1 ++ x ++ l3) = l1 ++ x ++ l3.
Proof. intros Ha Hb. by apply put_slice_at. Qed.

(** C24. What the audit simulates is the shot: on a compiled template, its patch gives the bytes that
    the executor's patch gives for the same direction and amounts, the live price, and a zero
    blockhash (which the simulation replaces). *)
Theorem sim_is_the_shot (buy : bool) static alt wr_ix ro_ix t dir amt mn :
  is_bytes (bytes_or wr_ix (if buy then ALT_WR_IX_BUY else ALT_WR_IX)) ->
  is_bytes (bytes_or ro_ix (if buy then ALT_RO_IX_BUY else ALT_RO_IX)) ->
  compile buy static alt wr_ix ro_ix = Ret t ->
  patch_for_sim t dir amt mn buy = patch t dir amt mn (zeros 32) 800000 buy.
Proof.
  intros Hw Hr Hc. apply compile_spec in Hc as (keys & a & _ & _ & Hs & ->); [|done..].
  pose proof (wire_parts buy _ Hs) as E. cbn [blank s_sig s_keys s_bh] in E.
  set (raw := wire_of buy _) in *. clearbody raw.
  assert (E1 : put_slice 1 65 (zeros 64) raw = raw) by (rewrite E; by apply (put_same 1 65 [1])).
  assert (E2 : put_slice V0_OFF_BH (V0_OFF_BH + 32) (zeros 32) raw = raw).
  { rewrite E. match goal with |- context [zeros 64 ++ ?m ++ concat keys ++ zeros 32 ++ ?l] =>
      replace ([1] ++ zeros 64 ++ m ++ concat keys ++ zeros 32 ++ l) with (([1] ++ zeros 64 ++ m ++ concat keys) ++ zeros 32 ++ l)
        by (by rewrite <- !app_assoc) end.
    apply put_same; [|done]. pose proof (blen_keys _ (ws_keys _ _ Hs) (ws_key _ _ Hs)) as Hk. cbn [blank s_keys] in Hk.
    rewrite !blen_app, Hk. reflexivity. }
  unfold patch_for_sim, patch. rewrite E1, E2. destruct buy; reflexivity.
Qed.

(** * The verdict *)

Lemma sim_reason_none dirs : sim_reason dirs = None <-> Forall (fun d => so_ok d = true) dirs.
Proof.
  unfold sim_reason. induction dirs as [|d dirs IH]; [by split|]. rewrite filter_cons, Forall_cons.
  destruct (so_ok d) eqn:E; [rewrite decide_False by congruence; naive_solver|rewrite decide_True by done]. split; [done|]. by intros [? _].
Qed.

Lemma ready_flags t alt v a dirs :
  vd_ready (verdict_of (flags_of t alt v a dirs)) = true <->
  t = [] /\ alt = None /\ v = None /\ a = None /\ sim_reason dirs = None /\ dirs <> [].
Proof.
  unfold verdict_of, flags_of. cbn [vd_ready flag_list forallb fl_template fl_alt fl_vector fl_ata fl_sim fst snd]. rewrite !andb_true_iff, !negb_true_iff.
  rewrite !bool_decide_eq_true, bool_decide_eq_false. destruct t, alt, v, a; naive_solver.
Qed.

Lemma ready_reason f : vd_ready (verdict_of f) = true <-> vd_reason (verdict_of f) = None.
Proof.
  unfold verdict_of, first_reason. cbn [vd_ready vd_reason]. induction (flag_list f) as [|[n [ok w]] l IH]; cbn; [done|].
  destruct ok; cbn; [exact IH|done].
Qed.

Section judged.
Context (simulate : bytes -> pyres sim_value) (accs : fetched) (route : troute) (wallet : string).

(** Nothing to say against a direction. *)
Definition clean_leg (l : leg) : Prop :=
  let '(p, buy, wr, ro) := l in
  template_problems p buy = None /\ vector_and_ata route (Some wallet) wr ro buy accs = Ret (None, None).

(** Its transaction, simulated, succeeds or ends in the profit guard. *)
Definition proven_leg (l : leg) : Prop :=
  let '(_, buy, _, _) := l in
  exists raw tx v, hex_bytes (if buy : bool then tr_tmpl1 route else tr_tmpl0 route) = Ret raw /\
    patch_for_sim raw (Z.b2z buy) 50000000 525000 buy = Ret tx /\ simulate tx = Ret v /\
    (sv_err v = JNull \/ _custom6 (sv_err v) = true).

Lemma check_legs_none legs : forall st,
  foldl (check_leg accs route wallet) st legs = (None, None) <->
  st = (None, None) /\ Forall (fun l : leg => let '(_, buy, wr, ro) := l in vector_and_ata route (Some wallet) wr ro buy accs = Ret (None, None)) legs.
Proof.
  induction legs as [|[[[p buy] wr] ro] legs IH]; intros [v a]; cbn [foldl]; [naive_solver|]. rewrite IH, Forall_cons.
  unfold check_leg at 1. cbn [fst snd]. destruct (vector_and_ata _ _ _ _ _ _) as [[vr ar]|e]; destruct v, a; naive_solver.
Qed.

Lemma problems_none legs :
  omap (fun l : leg => let '(p, buy, _, _) := l in template_problems p buy) legs = [] <->
  Forall (fun l : leg => let '(p, buy, _, _) := l in template_problems p buy = None) legs.
Proof.
  induction legs as [|[[[p buy] wr] ro] legs IH]; [by split|]. rewrite Forall_cons. cbn. destruct (template_problems p buy); naive_solver.
Qed.

Lemma sim_leg_ok l d : sim_leg simulate route l = Ret d -> so_ok d = true <-> proven_leg l.
Proof.
  destruct l as [[[p buy] wr] ro]. unfold sim_leg, proven_leg. intros H. apply py_bind_Ret in H as (raw & Hr & H).
  apply py_bind_Ret in H as (tx & Ht & H). injection H as <-. split.
  - destruct (simulate tx) as [v|e] eqn:Ev; cbn [so_ok]; [|done]. intros Hok. exists raw, tx, v. split; [done|]. split; [done|]. split; [done|].
    unfold sim_class in Hok. destruct (sv_err v); [by left|right..]; by destruct (_custom6 _).
  - intros (raw' & tx' & v & H1 & H2 & H3 & H4). assert (raw' = raw) as -> by congruence. assert (tx' = tx) as -> by congruence.
    rewrite H3. cbn [so_ok]. unfold sim_class. destruct H4 as [->| ->]; [done|]. by destruct (sv_err v).
Qed.

Lemma sims_ok legs : forall dirs, py_map (sim_leg simulate route) legs = Ret dirs ->
  Forall (fun d => so_ok d = true) dirs <-> Forall proven_leg legs.
Proof.
  induction legs as [|l legs IH]; intros dirs; cbn [py_map]; [intros [= <-]; by split|].
  intros H. apply py_bind_Ret in H as (d & Hd & H). apply py_bind_Ret in H as (ds & Hds & [= <-]).
  rewrite !Forall_cons, (IH _ Hds), (sim_leg_ok _ _ Hd). done.
Qed.

(** The verdict is ready exactly when there is a direction, the tables stand, every direction is
    clean and every simulation ends as wanted; and then there is no reason. *)
Lemma judge_exact alt_reason legs v dirs :
  judge simulate accs route wallet alt_reason legs = Ret (v, dirs) ->
  (vd_ready v = true <-> legs <> [] /\ alt_reason = None /\ Forall clean_leg legs /\ Forall proven_leg legs) /\
  (vd_ready v = true <-> vd_reason v = None).
Proof.
  unfold judge. intros H. apply py_bind_Ret in H as (ds & Hd & [= <- <-]). split; [|apply ready_reason].
  rewrite ready_flags, sim_reason_none.
  assert (Hc : Forall clean_leg legs <-> Forall (fun l : leg => let '(p, buy, _, _) := l in template_problems p buy = None) legs /\
    Forall (fun l : leg => let '(_, buy, wr, ro) := l in vector_and_ata route (Some wallet) wr ro buy accs = Ret (None, None)) legs).
  { rewrite <- Forall_and. apply Forall_iff. by intros [[[p buy] wr] ro]. }
  rewrite Hc, <- problems_none.
  destruct (omap _ legs) as [|t ts] eqn:Et; [|naive_solver]. destruct alt_reason as [x|]; [naive_solver|].
  pose proof (check_legs_none legs (None, None)) as Hf. destruct (foldl _ _ _) as [v a]. cbn [fst snd].
  rewrite (sims_ok _ _ Hd). apply py_map_length in Hd.
  assert (Hl : ds <> [] <-> legs <> []) by (destruct ds, legs; cbn in Hd; naive_solver lia).
  rewrite Hl. naive_solver.
Qed.
End judged.

(** * The whole audit *)

(** The address lists the first wave of accounts gave. *)
Definition table_of (L : list (string * option rpc_row)) (pk : string) (x : list string * option string) : Prop :=
  exists tbl, (pk, Some tbl) ∈ L /\ rw_owner tbl = ALT_PROG /\ x = alt_addresses_from_data (rw_data tbl).

Lemma chain_tables L kas : forall st : fetched * chain_alts, kas ⊆ L ->
  (forall pk x, st.2 !! pk = Some x -> table_of L pk x) ->
  forall pk x, (foldl take_account st kas).2 !! pk = Some x -> table_of L pk x.
Proof.
  induction kas as [|[k o] kas IH]; intros st Hsub Hst pk x; cbn [foldl]; [apply Hst|].
  apply IH; [intros y Hy; apply Hsub; by right|]. clear pk x. intros pk x. unfold take_account. cbn [fst snd].
  destruct o as [acc|]; [|apply Hst]. destruct (String.eqb_spec (rw_owner acc) ALT_PROG) as [Ho|]; [|apply Hst].
  rewrite lookup_insert. case_decide as Hk; [|apply Hst]. intros [= <-]. subst k. exists acc. split; [apply Hsub; by left|done].
Qed.

(** The table a template names is on chain and in use, agrees with the plane's file, and has the
    accounts that the indexes ask for. *)
Definition usable_table (files : gmap string (list string)) (chain : chain_alts) (p : parsed_tmpl) (wr ro : list string) : Prop :=
  exists addrs, chain !! pt_alt p = Some (addrs, None) /\
    (default [] (files !! pt_alt p) = [] \/ default [] (files !! pt_alt p) = addrs) /\ resolve_keys p addrs = (wr, ro, None).

Lemma resolve_leg_none files chain alt_reason p buy l :
  resolve_leg files chain alt_reason (p, buy) = (None, l) <->
  alt_reason = None /\ exists wr ro, usable_table files chain p wr ro /\ l = (p, buy, wr, ro).
Proof.
  unfold resolve_leg, usable_table. destruct (chain !! pt_alt p) as [[addrs w]|]; cbn [default from_option id].
  - destruct (resolve_keys p addrs) as [[wr ro] err] eqn:Ek. split.
    + destruct err; [done|]. destruct w; [done|]. destruct (bool_decide_reflect (default [] (files !! pt_alt p) = []));
        destruct (bool_decide_reflect (default [] (files !! pt_alt p) = addrs)); cbn [negb andb]; [..|done];
        intros [= -> <-]; (split; [done|]); exists wr, ro; (split; [|done]); exists addrs; by split_and!; [|tauto|].
    + intros (-> & wr' & ro' & (ad & [= <- ->] & Hf & Hk) & ->). rewrite Ek in Hk. injection Hk as -> -> ->.
      destruct Hf as [Hf|Hf]; rewrite (bool_decide_eq_true_2 _ Hf); cbn [negb andb]; [done|]. by rewrite andb_false_r.
  - destruct (resolve_keys p []) as [[wr ro] err]. split; [by destruct err|]. naive_solver.
Qed.

(** What a direction of a ready row rests on: no problem with the template, a usable table, its
    accounts agree with the pools, and the patched template was simulated to success or to the profit
    guard. *)
Definition sound_leg (simulate : bytes -> pyres sim_value) (files : gmap string (list string)) (chain : chain_alts) (accs : fetched)
    (route : troute) (wallet : string) (p : parsed_tmpl) (buy : bool) : Prop :=
  exists wr ro, usable_table files chain p wr ro /\ clean_leg accs route wallet (p, buy, wr, ro) /\
    proven_leg simulate route (p, buy, wr, ro).

(** The row [row] is the verdict on the route that was read as [rr], over the tables [chain] and the
    accounts [accs] of the node: a template that could not be read is the reason for not being
    ready, and otherwise ready means that both directions are sound. *)
Definition judged (simulate : bytes -> pyres sim_value) (files : gmap string (list string)) (chain : chain_alts) (accs : fetched)
    (rr : troute * read_route) (row : audit_row) : Prop :=
  au_dlmm row = tr_dlmm rr.1 /\ au_pump row = tr_pump rr.1 /\ au_token row = tr_token rr.1 /\
  (vd_ready (au_verdict row) = true <-> vd_reason (au_verdict row) = None) /\
  match rr.2 with
  | Unread e =>
      au_wallet row = None /\ vd_ready (au_verdict row) = false /\ vd_reason (au_verdict row) = Some ("TEMPLATE_VALID"%string, Caught "" e)
  | Read wallet p0 p1 =>
      au_wallet row = Some wallet /\
      (vd_ready (au_verdict row) = true <->
       sound_leg simulate files chain accs rr.1 wallet p0 false /\ sound_leg simulate files chain accs rr.1 wallet p1 true)
  end.

Lemma audit_one_judged simulate files chain accs rr row :
  audit_one simulate accs rr (resolve_route_keys files chain rr) = Ret row -> judged simulate files chain accs rr row.
Proof.
  unfold judged. destruct rr as [route [e|wallet p0 p1]]; cbn [resolve_route_keys audit_one fst snd].
  { intros [= <-]. by split_and!. }
  destruct (resolve_leg files chain None (p0, false)) as [a0 l0] eqn:E0. destruct (resolve_leg files chain a0 (p1, true)) as [a1 l1] eqn:E1.
  intros Ha. apply py_bind_Ret in Ha as ([v dirs] & Hj & [= <-]). cbn [au_verdict au_dlmm au_pump au_token au_wallet fst snd] in *.
  apply judge_exact in Hj as [Hv Hr]. do 3 (split; [done|]). split; [done|]. split; [done|]. rewrite Hv, !Forall_cons. split.
  - intros (_ & -> & (C0 & C1 & _) & (P0 & P1 & _)). apply resolve_leg_none in E1 as (-> & wr1 & ro1 & U1 & ->).
    apply resolve_leg_none in E0 as (_ & wr0 & ro0 & U0 & ->). split; [exists wr0, ro0|exists wr1, ro1]; done.
  - intros [(wr0 & ro0 & U0 & C0 & P0) (wr1 & ro1 & U1 & C1 & P1)].
    assert (R0 : resolve_leg files chain None (p0, false) = (None, (p0, false, wr0, ro0)))
      by (apply resolve_leg_none; split; [done|]; by exists wr0, ro0).
    rewrite R0 in E0. injection E0 as <- <-.
    assert (R1 : resolve_leg files chain None (p1, true) = (None, (p1, true, wr1, ro1)))
      by (apply resolve_leg_none; split; [done|]; by exists wr1, ro1).
    rewrite R1 in E1. injection E1 as <- <-. split; [done|]. split; [done|]. split; (split; [done|]); (split; [done|constructor]).
Qed.

Lemma py_map_Forall2 {A B} (f : A -> pyres B) l r : py_map f l = Ret r <-> Forall2 (fun x y => f x = Ret y) l r.
Proof.
  revert r. induction l as [|x l IH]; intros r; cbn [py_map].
  - split; [by intros [= <-]|by intros ->%Forall2_nil_inv_l].
  - split.
    + intros H. apply py_bind_Ret in H as (y & Hy & H). apply py_bind_Ret in H as (r' & Hr & [= <-]). constructor; [done|by apply IH].
    + intros H. inversion H as [|? y ? r' Hy Hr]; subst. rewrite Hy. cbn [py_bind]. by rewrite (proj2 (IH _) Hr).
Qed.

(** The parts of an audit that ran. *)
Lemma audit_parts rpc simulate alts routes limit rows :
  audit_routes rpc simulate alts routes limit = Ret rows <->
  exists reads got got2, read_all (selected limit routes) = Ret reads /\ Deps.get_multiple rpc (first_keys reads) None None = Ret got /\
    let st := first_wave reads got in
    let more := more_keys (files_of alts) st reads in
    Deps.get_multiple rpc more None None = Ret got2 /\
    Forall2 (fun rr row => audit_one simulate (second_wave st more got2) rr (resolve_route_keys (files_of alts) st.2 rr) = Ret row) reads rows.
Proof.
  unfold audit_routes. split.
  - intros H. apply py_bind_Ret in H as (reads & Hreads & H). apply py_bind_Ret in H as (got & Hgot & H).
    apply py_bind_Ret in H as (got2 & Hgot2 & H). exists reads, got, got2. split; [done|]. split; [done|]. split; [done|].
    by apply py_map_Forall2.
  - intros (reads & got & got2 & -> & Hg & Hg2 & H). cbn [py_bind]. rewrite Hg. cbn [py_bind]. rewrite Hg2. cbn [py_bind].
    by apply py_map_Forall2.
Qed.

(** Where an account that the audit looks at comes from. *)
Lemma wave_shown (kas : list (string * option rpc_row)) : forall m : fetched,
  forall k o, foldl (fun m (kr : string * option rpc_row) => <[kr.1 := kr.2]> m) m kas !! k = Some o -> m !! k = Some o \/ (k, o) ∈ kas.
Proof.
  induction kas as [|[k' o'] kas IH]; intros m k o; cbn [foldl]; [by left|]. intros H. apply IH in H as [H|H]; [|right; by right].
  rewrite lookup_insert in H. case_decide as Hk; [|by left]. cbn [fst snd] in *. injection H as <-. subst k'. right. by left.
Qed.

Lemma first_accounts (kas : list (string * option rpc_row)) : forall st : fetched * chain_alts,
  (foldl take_account st kas).1 = foldl (fun m (kr : string * option rpc_row) => <[kr.1 := kr.2]> m) st.1 kas.
Proof. induction kas as [|ka kas IH]; intros st; [done|]. cbn [foldl]. by rewrite IH. Qed.

Lemma accounts_shown reads got more got2 k o :
  second_wave (first_wave reads got) more got2 !! k = Some o -> (k, o) ∈ zip (first_keys reads) got ++ zip more got2.
Proof.
  unfold second_wave, first_wave. rewrite first_accounts. intros H. apply elem_of_app. apply wave_shown in H as [H|H]; [|by right].
  apply wave_shown in H as [H|H]; [cbn [fst] in H; by rewrite lookup_empty in H|by left].
Qed.

(** C25. The audit's verdicts are exact.  An audit that comes to an end has read the templates of every
    route with both (up to the limit), has asked the node for the pools and tables they name and then
    for the accounts that the tables resolve to, and gives these routes a row each, in their order: a
    route with an unreadable template is not ready and says so, and every other is ready exactly
    when both directions are sound, judged over accounts that are the node's own answers to the keys
    asked and over the tables among them.  A row has no reason exactly when it is ready. *)
Theorem audit_ready_exact rpc simulate alts routes limit rows :
  audit_routes rpc simulate alts routes limit = Ret rows ->
  exists reads got got2, read_all (selected limit routes) = Ret reads /\ Deps.get_multiple rpc (first_keys reads) None None = Ret got /\
    let st := first_wave reads got in
    let more := more_keys (files_of alts) st reads in
    let accs := second_wave st more got2 in
    Deps.get_multiple rpc more None None = Ret got2 /\
    (forall k o, accs !! k = Some o -> (k, o) ∈ zip (first_keys reads) got ++ zip more got2) /\
    (forall k x, st.2 !! k = Some x -> table_of (zip (first_keys reads) got) k x) /\
    Forall2 (judged simulate (files_of alts) st.2 accs) reads rows.
Proof.
  intros H. apply audit_parts in H as (reads & got & got2 & Hr & Hg & Hg2 & H). exists reads, got, got2.
  split; [done|]. split; [done|]. split; [done|]. split; [by intros k o; apply accounts_shown|].
  split; [by apply (chain_tables _ _ (∅, ∅))|]. eapply Forall2_impl; [exact H|]. intros rr row. apply audit_one_judged.
Qed.

(** A template without static keys is read without an error and then ends the whole audit: its first
    key is taken as the wallet outside of the [try]. *)
Definition keyless : bytes := [1] ++ zeros 64 ++ [0x80; 0; 0; 0; 0] ++ zeros 32 ++ [0; 1] ++ zeros 32 ++ [0; 0].
Definition keyless_route : troute := TRoute None None None (Some (hex keyless)) (Some (hex keyless)).

Lemma keyless_read : exists p, parse_template keyless = Ret p /\ pt_static p = [] /\ template_problems p false = Some "static_n=0"%string.
Proof. eexists. split; [vm_compute; reflexivity|]. by split. Qed.

Lemma keyless_ends_audit rpc simulate alts rest :
  audit_routes rpc simulate alts (keyless_route :: rest) None = Raise IndexError.
Proof.
  unfold audit_routes, selected. rewrite filter_cons, decide_True by (split; vm_compute; eauto). unfold read_all. cbn [py_map].
  replace (read_templates keyless_route) with (@Raise read_route IndexError) by (vm_compute; reflexivity). done.
Qed.

(** * On concrete data *)

Definition plane_route : aroute :=
  let '(static, wr, ro) := v0_parts SYSTEM OUR_EXEC (ar_acc demo_route) in
  ARoute "A" "B" "T" "mx" TOKEN2022 "uq" "ub" static wr (wr ++ ["gv"%string]) ro (ar_need demo_route) 7 (ar_acc demo_route) "gv".

Lemma plane_route_resolved : resolved SYSTEM OUR_EXEC plane_route.
Proof.
  constructor; [reflexivity|reflexivity| |apply Nat.leb_le; vm_compute; reflexivity|reflexivity..].
  apply (bool_decide_unpack _). vm_compute. exact I.
Qed.

Definition tmpl_of (buy : bool) : bytes :=
  match try_dir demo_on_chain buy plane_route with Ret (_, t) => t | Raise _ => [] end.
Lemma tried buy : try_dir demo_on_chain buy plane_route = Ret (SYSTEM, tmpl_of buy).
Proof.
  assert (H : match try_dir demo_on_chain buy plane_route with Ret (a, _) => String.eqb a SYSTEM | Raise _ => false end = true)
    by (destruct buy; vm_compute; reflexivity).
  unfold tmpl_of. destruct (try_dir _ _ _) as [[a t]|]; [|done]. apply String.eqb_eq in H. by subst.
Qed.

Lemma audit_reads_plane_witness :
  exists p have, parse_template (tmpl_of true) = Ret p /\ template_problems p true = None /\
    resolve_keys p have = (AltPlane.wr_of true plane_route, ar_ro plane_route, None).
Proof.
  destruct (audit_reads_plane SYSTEM ZERO32 demo_on_chain plane_route true SYSTEM (tmpl_of true))
    as (p & have & a & H1 & H2 & _ & _ & _ & _ & _ & H3).
  - vm_compute. reflexivity.
  - apply (bool_decide_unpack _). vm_compute. exact I.
  - reflexivity.
  - apply plane_route_resolved.
  - apply tried.
  - exists p, have. split; [exact H1|]. split; [exact H2|exact H3].
Defined.

Lemma sim_is_the_shot_witness :
  exists t, compile false demo_static SYSTEM None None = Ret t /\
    patch_for_sim t 0 50000000 525000 false = patch t 0 50000000 525000 (zeros 32) 800000 false.
Proof.
  pose proof demo_compiles as Hd. destruct (compile false demo_static SYSTEM None None) as [t|e] eqn:E; [|discriminate Hd].
  exists t. split; [reflexivity|]. apply (sim_is_the_shot false demo_static SYSTEM None None t 0 50000000 525000).
  - apply (bool_decide_unpack _). vm_compute. exact I.
  - apply (bool_decide_unpack _). vm_compute. exact I.
  - exact E.
Defined.

(** ** A ready route *)

(** The accounts of a direction pass when each check of theirs does. *)
Lemma vector_stands route wallet wr ro (buy : bool) accs lb active x :
  let names := if buy then WR_NAMES_BUY else WR_NAMES in
  let w := zip names wr in let r := zip RO_NAMES ro in
  let w_ n := default ""%string (od_get w n) in
  let r_ n := default ""%string (od_get r n) in
  let dlmm := w_ "dlmm"%string in
  let mint_x := pk_text (token_x lb) in
  (length wr =? length names)%nat && (length ro =? length RO_NAMES)%nat = true ->
  Some dlmm = tr_dlmm route -> Some (w_ "pump"%string) = tr_pump route ->
  owned_by accs dlmm ExecTemplate.DLMM = true -> owned_by accs (w_ "pump"%string) ExecTemplate.PUMP = true ->
  parse_lbpair (default [] (acc_data accs dlmm)) = Ret lb ->
  String.eqb (pk_text (token_y lb)) SOL && String.eqb (r_ "mint_y"%string) SOL && String.eqb (r_ "mint_x"%string) mint_x = true ->
  String.eqb (w_ "vault_x"%string) (pk_text (vault_x lb)) && String.eqb (w_ "vault_y"%string) (pk_text (vault_y lb)) = true ->
  nonempty (tr_token route) = Some mint_x ->
  bin_array_pda dlmm (bin_array_index (active_id lb)) = Ret active -> w_ "bin0"%string = active ->
  bin_missing accs w "bin0" = false -> bin_missing accs w "bin1" = false -> b58decode dlmm = Ret x ->
  pda_text [ascii_bytes "oracle"; x] ExecTemplate.DLMM = Ret (w_ "oracle"%string) ->
  pda_text [ascii_bytes "__event_authority"] ExecTemplate.DLMM = Ret (r_ "dlmm_event"%string) ->
  pump_part accs w r mint_x (default [] (acc_data accs (w_ "pump"%string))) wallet = Ret (None, None) ->
  vector_and_ata route wallet wr ro buy accs = Ret (None, None).
Proof.
  intros names w r w_ r_ dlmm mint_x Hl Hd Hp Od Op Hlb Hm Hv Ht Ha Hb B0 B1 Hx Ho He Hpump. unfold vector_and_ata.
  fold names. fold w r. fold (w_ "dlmm"%string) (w_ "pump"%string). fold dlmm. apply andb_true_iff in Hl as [-> ->]. cbn [negb orb].
  rewrite (bool_decide_eq_true_2 _ Hd), (bool_decide_eq_true_2 _ Hp). cbn [negb orb]. rewrite Od, Op. cbn [negb]. rewrite Hlb.
  fold mint_x. fold (r_ "mint_y"%string) (r_ "mint_x"%string) (w_ "vault_x"%string) (w_ "vault_y"%string) (w_ "bin0"%string) (w_ "bin1"%string) (w_ "oracle"%string) (r_ "dlmm_event"%string).
  apply andb_true_iff in Hm as [[-> ->]%andb_true_iff ->]. cbn [negb orb]. apply andb_true_iff in Hv as [-> ->]. cbn [negb orb].
  rewrite Ht, String.eqb_refl. cbn [negb]. rewrite Ha. cbn [py_bind].
  rewrite bool_decide_eq_true_2 by (rewrite <- Hb; by left). cbn [negb]. rewrite B0, B1, Hx. cbn [py_bind]. rewrite Ho. cbn [py_bind].
  rewrite String.eqb_refl. cbn [negb]. revert He. generalize (pda_text [ascii_bytes "__event_authority"] ExecTemplate.DLMM). intros ev ->.
  cbn [py_bind]. rewrite String.eqb_refl. exact Hpump.
Qed.

Definition k32 (n : Z) : bytes := replicate 32 n.
Definition sol_raw : bytes := Eval vm_compute in match b58decode SOL with Ret x => x | Raise _ => [] end.
Definition fee_raw : bytes := Eval vm_compute in match b58decode (hd ""%string TEMPLATE_FEE_RECIPIENTS) with Ret x => x | Raise _ => [] end.

(** The table: the writable accounts in their order, and then the others. *)
Definition ready_table : list bytes := [
  k32 30; k32 31; Recorder.demo_raw; k32 32; k32 33; HopsVector.demo_oracle; HopsVector.demo_array0; k32 34; k32 35; k32 36; k32 37; k32 38;
  k32 39; k32 40; k32 41; k32 42;
  HopsRoute.demo_event; k32 43; sol_raw; k32 44; k32 45; k32 46; k32 47; k32 48; k32 49; fee_raw].

Definition ready_wallet : string := Eval vm_compute in pk_text (k32 23).
Definition ready_tmpl (buy : bool) : bytes :=
  match compile buy (ready_wallet :: CONST_KEYS) (pk_text (k32 29)) (Some (seqZ 0 (if buy then 16 else 15))) (Some (seqZ 16 10)) with
  | Ret t => t | Raise _ => [] end.
Definition ready_route : troute := Eval vm_compute in
  TRoute (Some (pk_text Recorder.demo_raw)) (Some (pk_text (k32 35))) (Some (pk_text (k32 43))) (Some (hex (ready_tmpl false))) (Some (hex (ready_tmpl true))).
(** And one whose template is cut. *)
Definition bad_route : troute := TRoute (Some "A"%string) None None (Some "00"%string) (Some "00"%string).

Definition pair_data : bytes := LBPAIR_DISC ++ zeros 68 ++ le_enc 4 35 ++ zeros 8 ++ k32 43 ++ sol_raw ++ k32 32 ++ k32 33 ++ zeros 688.
Definition pool_data : bytes := zeros 43 ++ k32 43 ++ sol_raw ++ zeros 32 ++ k32 36 ++ k32 37 ++ zeros 8.
Definition audit_chain : list (string * rpc_account) := Eval vm_compute in [
  (pk_text (k32 29), RpcAccount ALT_PROG (zeros 4 ++ replicate 8 255 ++ zeros 44 ++ concat ready_table) 0);
  (pk_text Recorder.demo_raw, RpcAccount ExecTemplate.DLMM pair_data 0);
  (pk_text (k32 35), RpcAccount ExecTemplate.PUMP pool_data 0);
  (pk_text HopsVector.demo_array0, RpcAccount ExecTemplate.DLMM [] 0);
  (pk_text (k32 34), RpcAccount ExecTemplate.DLMM [] 0);
  (pk_text (k32 30), RpcAccount TOKENKEG (sol_raw ++ k32 23) 0);
  (pk_text (k32 31), RpcAccount TOKENKEG (k32 43 ++ k32 23) 0);
  (pk_text (k32 41), RpcAccount TOKENKEG sol_raw 0)].
Definition audit_rpc (ks : list string) (c : rpc_config) : pyres rpc_reply := Ret (RpcReply 12 (od_get audit_chain <$> ks)).
(** One direction succeeds, the other ends in the profit guard. *)
Definition audit_sim (tx : bytes) : pyres sim_value :=
  Ret (SimValue (if blen tx =? 626 then JDict [("InstructionError"%string, JList [JInt 2; JDict [("Custom"%string, JInt 6)]])] else JNull) None []).

Definition or_nil {A} (r : pyres (list A)) : list A := match r with Ret l => l | Raise _ => [] end.
Definition ready_p (buy : bool) : parsed_tmpl :=
  Parsed (if buy then 626 else 623) (ready_wallet :: CONST_KEYS) (pk_text (k32 29)) (seqZ 0 (if buy then 16 else 15)) (seqZ 16 10) DISC
    (if buy then 62 else 60) (Some 400000) (Some 0).
Definition ready_reads : list (troute * read_route) := [
  (ready_route, Read ready_wallet (ready_p false) (ready_p true)); (bad_route, Unread (ValueError "not a v0 template"))].
Definition ready_got : list (option rpc_row) := or_nil (Deps.get_multiple audit_rpc (first_keys ready_reads) None None).
Definition ready_st : fetched * chain_alts := first_wave ready_reads ready_got.
Definition ready_more : list string := more_keys (files_of []) ready_st ready_reads.
Definition ready_got2 : list (option rpc_row) := or_nil (Deps.get_multiple audit_rpc ready_more None None).
Definition ready_accs : fetched := second_wave ready_st ready_more ready_got2.
Definition ready_wr (buy : bool) : list string := take (if buy then 16 else 15) (pk_text <$> ready_table).
Definition ready_ro : list string := drop 16 (pk_text <$> ready_table).
Definition ready_lb : lb_pair := match parse_lbpair pair_data with Ret lb => lb | Raise _ => demo_lb end.

Lemma ready_read : read_all (selected None [ready_route; bad_route]) = Ret ready_reads.
Proof. vm_compute. reflexivity. Qed.
Lemma ready_first : Deps.get_multiple audit_rpc (first_keys ready_reads) None None = Ret ready_got.
Proof. vm_compute. reflexivity. Qed.
Lemma ready_second : Deps.get_multiple audit_rpc ready_more None None = Ret ready_got2.
Proof. vm_compute. reflexivity. Qed.

Lemma bound {A B} (x : pyres A) a (f : A -> pyres B) y : x = Ret a -> f a = y -> py_bind x f = y.
Proof. by intros -> <-. Qed.

Lemma find_pda_is seeds prog d : find_from on_curve_bn seeds prog 255 = Ret d -> find_pda seeds prog = Ret d.
Proof. destruct (find_pda_bn seeds prog) as [-> _]. done. Qed.

Lemma bin_array_by pair i seed ix d :
  b58decode pair = Ret seed -> pack_s 8 i = Ret ix -> find_from on_curve_bn [ascii_bytes "bin_array"; seed; ix] HopsVector.demo_prog 255 = Ret d ->
  bin_array_pda pair i = Ret (Base58.b58encode d).
Proof.
  intros Hs Hi Hd. assert (Hp : b58decode Pda.DLMM = Ret HopsVector.demo_prog) by (vm_compute; reflexivity).
  apply (bound _ _ _ _ Hs), (bound _ _ _ _ Hi), (bound _ _ _ _ Hp), (bound _ _ _ _ (find_pda_is _ _ _ Hd)). reflexivity.
Qed.

Lemma pda_text_by seeds d :
  find_from on_curve_bn seeds HopsVector.demo_prog 255 = Ret d -> pda_text seeds ExecTemplate.DLMM = Ret (pk_text d).
Proof.
  intros Hd. apply (bound _ _ _ _ HopsVector.demo_prog_ok), (bound _ _ _ _ (find_pda_is _ _ _ Hd)). reflexivity.
Qed.

Lemma ready_active :
  bin_array_pda (pk_text Recorder.demo_raw) (bin_array_index (active_id ready_lb)) = Ret (pk_text HopsVector.demo_array0).
Proof.
  replace (pk_text HopsVector.demo_array0) with (Base58.b58encode HopsVector.demo_array0) by (vm_compute; reflexivity).
  apply (bin_array_by _ _ Recorder.demo_raw (le_enc 8 0)); vm_compute; reflexivity.
Qed.
Lemma ready_oracle : pda_text [ascii_bytes "oracle"; Recorder.demo_raw] ExecTemplate.DLMM = Ret (pk_text HopsVector.demo_oracle).
Proof. apply pda_text_by. vm_compute. reflexivity. Qed.
Lemma ready_event : pda_text [ascii_bytes "__event_authority"] ExecTemplate.DLMM = Ret (pk_text HopsRoute.demo_event).
Proof. apply pda_text_by. vm_compute. reflexivity. Qed.

(** The named account of a direction, by evaluation. *)
Ltac named k :=
  lazymatch goal with |- context [default ""%string ?x] => replace (default ""%string x) with k by (vm_compute; reflexivity) end.

Lemma ready_vector (buy : bool) :
  vector_and_ata ready_route (Some ready_wallet) (ready_wr buy) ready_ro buy ready_accs = Ret (None, None).
Proof.
  apply (vector_stands _ _ _ _ _ _ ready_lb (pk_text HopsVector.demo_array0) Recorder.demo_raw); cbv zeta;
    lazymatch goal with
    | |- bin_array_pda _ _ = _ => destruct buy; named (pk_text Recorder.demo_raw); exact ready_active
    | |- pda_text [_; _] _ = _ => destruct buy; named (pk_text HopsVector.demo_oracle); exact ready_oracle
    | |- pda_text _ _ = _ => destruct buy; named (pk_text HopsRoute.demo_event); exact ready_event
    | |- _ => destruct buy; vm_compute; reflexivity
    end.
Qed.

Lemma ready_sound (buy : bool) : sound_leg audit_sim (files_of []) ready_st.2 ready_accs ready_route ready_wallet (ready_p buy) buy.
Proof.
  exists (ready_wr buy), ready_ro. split; [|split; [split; [destruct buy; vm_compute; reflexivity|apply ready_vector]|]].
  - exists (pk_text <$> ready_table). split; [destruct buy; vm_compute; reflexivity|]. split; [by left|destruct buy; vm_compute; reflexivity].
  - unfold proven_leg. destruct buy; (eexists _, _, _; split; [vm_compute; reflexivity|]; split; [vm_compute; reflexivity|]; split; [reflexivity|]);
      [right|left]; vm_compute; reflexivity.
Qed.

(** Where both directions can be patched the route gets its row. *)
Lemma resolve_leg_of files chain a p buy : exists a' wr ro, resolve_leg files chain a (p, buy) = (a', (p, buy, wr, ro)).
Proof.
  unfold resolve_leg. destruct (default _ _) as [ad w]. destruct (resolve_keys p ad) as [[wr ro] err]. by eexists _, wr, ro.
Qed.

Lemma audit_one_stands simulate files chain accs route wallet p0 p1 d0 d1 :
  sim_leg simulate route (p0, false, [], []) = Ret d0 -> sim_leg simulate route (p1, true, [], []) = Ret d1 ->
  exists row, audit_one simulate accs (route, Read wallet p0 p1) (resolve_route_keys files chain (route, Read wallet p0 p1)) = Ret row.
Proof.
  intros H0 H1. cbn [resolve_route_keys snd]. destruct (resolve_leg_of files chain None p0 false) as (a0 & wr0 & ro0 & ->).
  destruct (resolve_leg_of files chain a0 p1 true) as (a1 & wr1 & ro1 & ->). cbn [audit_one]. unfold judge.
  match goal with |- context [py_map ?f ?l] => assert (Hd : py_map f l = Ret [d0; d1]) end.
  { cbn [py_map]. change (sim_leg simulate route (p0, false, wr0, ro0)) with (sim_leg simulate route (p0, false, [], [])). rewrite H0. cbn [py_bind].
    change (sim_leg simulate route (p1, true, wr1, ro1)) with (sim_leg simulate route (p1, true, [], [])). by rewrite H1. }
  rewrite Hd. destruct (omap _ _); by eexists.
Qed.

Definition dummy_out : sim_out := SimOut false (inl Success) None 0 "" 0 None.
Definition ready_out (buy : bool) : sim_out :=
  match sim_leg audit_sim ready_route (ready_p buy, buy, [], []) with Ret d => d | Raise _ => dummy_out end.

Lemma ready_audit : exists r1 r2, audit_routes audit_rpc audit_sim [] [ready_route; bad_route] None = Ret [r1; r2].
Proof.
  destruct (audit_one_stands audit_sim (files_of []) ready_st.2 ready_accs ready_route ready_wallet (ready_p false) (ready_p true) (ready_out false) (ready_out true))
    as [r1 H1]; [vm_compute; reflexivity..|].
  eexists r1, _. apply audit_parts. exists ready_reads, ready_got, ready_got2.
  split; [exact ready_read|]. split; [exact ready_first|]. cbv zeta. fold ready_st. fold ready_more. split; [exact ready_second|].
  fold ready_accs. constructor; [exact H1|]. constructor; [reflexivity|constructor].
Qed.

Lemma Ret_inj {A} (x y : A) : Ret x = Ret y -> y = x.
Proof. by intros [= ->]. Qed.

(** Its rows, for the checks that read the report. *)
Lemma ready_audit_rows :
  exists r1 r2, audit_routes audit_rpc audit_sim [] [ready_route; bad_route] None = Ret [r1; r2] /\
    vd_ready (au_verdict r1) = true /\ au_dlmm r1 = Some Recorder.demo_pair /\ au_pump r1 = Some (pk_text (k32 35)) /\
    vd_ready (au_verdict r2) = false.
Proof.
  destruct ready_audit as (r1 & r2 & E). exists r1, r2. split; [exact E|].
  apply audit_parts in E as (reads & got & got2 & R & G & G2 & J).
  rewrite ready_read in R. apply Ret_inj in R. subst reads. rewrite ready_first in G. apply Ret_inj in G. subst got.
  fold ready_st in G2, J. fold ready_more in G2, J. rewrite ready_second in G2. apply Ret_inj in G2. subst got2. fold ready_accs in J.
  inversion J as [|? ? ? ? J1 J']; subst. inversion J' as [|? ? ? ? J2 _]; subst.
  destruct (audit_one_judged _ _ _ _ _ _ J1) as (D1 & P1 & _ & _ & _ & S1).
  destruct (audit_one_judged _ _ _ _ _ _ J2) as (_ & _ & _ & _ & _ & N2 & _).
  split; [apply S1; split; [exact (ready_sound false)|exact (ready_sound true)]|].
  split; [rewrite D1; vm_compute; reflexivity|]. split; [rewrite P1; vm_compute; reflexivity|exact N2].
Qed.

(** The sound route is ready and the other one not. *)
Lemma audit_ready_exact_witness :
  exists r1 r2, audit_routes audit_rpc audit_sim [] [ready_route; bad_route] None = Ret [r1; r2] /\
    vd_ready (au_verdict r1) = true /\ vd_reason (au_verdict r1) = None /\ au_dlmm r1 = Some Recorder.demo_pair /\
    vd_ready (au_verdict r2) = false.
Proof.
  destruct ready_audit as (r1 & r2 & E). exists r1, r2. split; [exact E|].
  destruct (audit_ready_exact audit_rpc audit_sim [] [ready_route; bad_route] None [r1; r2] E) as (reads & got & got2 & R & G & G2 & _ & _ & J).
  rewrite ready_read in R. apply Ret_inj in R. subst reads. rewrite ready_first in G. apply Ret_inj in G. subst got.
  fold ready_st in G2, J. fold ready_more in G2, J. rewrite ready_second in G2. apply Ret_inj in G2. subst got2. fold ready_accs in J.
  inversion J as [|? ? ? ? J1 J']; subst. inversion J' as [|? ? ? ? J2 _]; subst.
  destruct J1 as (D1 & _ & _ & R1 & _ & S1), J2 as (_ & _ & _ & _ & _ & N2 & _). 
  assert (T1 : vd_ready (au_verdict r1) = true) by (apply S1; split; [exact (ready_sound false)|exact (ready_sound true)]).
  split; [exact T1|]. split; [exact (proj1 R1 T1)|]. split; [rewrite D1; vm_compute; reflexivity|exact N2].
Defined.
