(* ===== verification/Prearm.v ===== *)
(** The last look before a shot may be asked for, arb-cap/exec_v1/prearm_check.py, over the gates of
    exec_gates.py and the report of the template audit.

    What the checks see of the machine (environment, files that exist, documents) is a record. *)
From stdpp Require Import base list strings gmap pretty.
From Stdlib Require Import ZArith Lia.
From S2P Require Import Prelude PyBytes PyVal Submap Deps ExecTemplate HopsRecover TemplateAudit ExecGates.
Open Scope Z_scope.
Open Scope py_scope.

(** A JSON document that is read where it exists. *)
Inductive doc_file (A : Type) := Missing | Unreadable | Doc (a : A).
Arguments Missing {A}.
Arguments Unreadable {A}.
Arguments Doc {A} a.

Definition doc_rows {A} (f : doc_file (list A)) : list A := match f with Doc l => l | _ => [] end.

(** A row of the audit's report. *)
Record report_row := ReportRow { rp_dlmm : option string; rp_pump : option string; rp_ready : bool }.

Record machine := Machine {
  mc_FUNDED : option string; mc_AUTH_READY : option string; mc_ready : bool; mc_armed : bool; mc_sock : bool; mc_audit : bool;
  mc_plane : doc_file (list route); mc_report : doc_file (list report_row) }.

Definition both_templates (r : route) : bool := truthy (r_RACE_READY r) && truthy (r_tmpl0 r) && truthy (r_tmpl1 r).

(** [key not in amb]; [None] is in no set of texts. *)
Definition unshared (amb : gset string) (key : option string) : bool :=
  match key with Some k => negb (bool_decide (k ∈ amb)) | None => true end.

Definition amb_of (m : machine) : gset string :=
  match mc_plane m with Doc rows => ambiguous_pool_keys rows | _ => ∅ end.
Definition clean_rows (m : machine) : list report_row :=
  filter (fun r => rp_ready r = true /\ unshared (amb_of m) (rp_dlmm r) = true /\ unshared (amb_of m) (rp_pump r) = true) (doc_rows (mc_report m)).
Definition race_rows (m : machine) : list report_row := filter (fun r => rp_ready r = true) (doc_rows (mc_report m)).

(** [r["dlmm"][:8] for r in clean] *)
Definition pool_names (rows : list report_row) : pyres (list string) :=
  py_map (fun r => match rp_dlmm r with Some k => Ret (String.substring 0 8 k) | None => Raise TypeError end) rows.

Definition plane_read (m : machine) : bool := match mc_plane m with Doc _ => true | _ => false end.

(** The gates in the order they are printed. *)
Definition prearm_gates (m : machine) : list (string * bool) :=
  let '(path, err) := resolve_auth_ready (mc_AUTH_READY m) in [
  ("FUNDED_STAYS_0"%string, negb (String.eqb (default "0"%string (mc_FUNDED m)) "1"));
  ("AUTH_PATH"%string, bool_decide (err = None) && String.eqb path AUTH_READY_DEFAULT);
  ("STATE008_READY"%string, mc_ready m);
  ("STATE007_DOES_NOT_ARM"%string, true);
  ("NOT_ARMED"%string, negb (mc_armed m));
  ("RACER_SOCKET"%string, mc_sock m);
  ("AUDIT_FILE"%string, mc_audit m);
  ("PLANE_TEMPLATES"%string, 0 <? Z.of_nat (length (filter (fun r => both_templates r = true) (doc_rows (mc_plane m)))));
  ("UNSIGNED_SIM_RACE_READY"%string, plane_read m && (0 <? Z.of_nat (length (race_rows m))));
  ("UNAMBIGUOUS_SHOT_POOL"%string, plane_read m && (0 <? Z.of_nat (length (clean_rows m))));
  ("WIRE_HURDLE"%string, (HURDLE =? 525000) && (HURDLE =? wire_hurdle CU_LIMIT CU_PRICE))].

(** The number of gates that fail; the exit code is 1 unless it is 0. *)
Definition prearm (m : machine) : pyres Z :=
  _ <-! pool_names (clean_rows m) ;;
  Ret (Z.of_nat (length (filter (fun g : string * bool => g.2 = false) (prearm_gates m)))).

(** * What passing means *)

Lemma no_failed (l : list (string * bool)) :
  length (filter (fun g : string * bool => g.2 = false) l) = 0%nat <-> Forall (fun g => g.2 = true) l.
Proof.
  induction l as [|[n b] l IH]; [by split|]. rewrite filter_cons, Forall_cons. cbn [snd].
  destruct b; [rewrite decide_False by done; naive_solver|rewrite decide_True by done; cbn; naive_solver].
Qed.

Lemma some_filtered {A} (P : A -> Prop) `{forall x, Decision (P x)} (l : list A) :
  (0 <? Z.of_nat (length (filter P l))) = true <-> exists x, x ∈ l /\ P x.
Proof.
  rewrite Z.ltb_lt. split.
  - destruct (filter P l) as [|x xs] eqn:E; cbn; [lia|]. intros _. exists x.
    assert (Hx : x ∈ filter P l) by (rewrite E; by left). apply list_elem_of_filter in Hx. tauto.
  - intros (x & Hx & HP). assert (Hf : x ∈ filter P l) by (by apply list_elem_of_filter).
    destruct (filter P l); [by apply elem_of_nil in Hf|cbn; lia].
Qed.

(** What has to hold of the machine. *)
Record armable (m : machine) : Prop := {
  ab_funded : mc_FUNDED m <> Some "1"%string;
  ab_path : resolve_auth_ready (mc_AUTH_READY m) = (AUTH_READY_DEFAULT, None);
  ab_files : mc_ready m = true /\ mc_armed m = false /\ mc_sock m = true /\ mc_audit m = true;
  ab_plane : exists rows, mc_plane m = Doc rows /\ exists r, r ∈ rows /\ both_templates r = true;
  ab_pool : exists r, r ∈ doc_rows (mc_report m) /\ rp_ready r = true /\
    unshared (amb_of m) (rp_dlmm r) = true /\ unshared (amb_of m) (rp_pump r) = true }.

Lemma armable_gates m : Z.of_nat (length (filter (fun g : string * bool => g.2 = false) (prearm_gates m))) = 0 <-> armable m.
Proof.
  change (Z.of_nat ?x = 0) with (Z.of_nat x = Z.of_nat 0). rewrite Nat2Z.inj_iff, no_failed. unfold prearm_gates.
  destruct (resolve_auth_ready (mc_AUTH_READY m)) as [path err] eqn:Ea. rewrite !Forall_cons, Forall_nil. cbn [snd].
  rewrite !andb_true_iff, !negb_true_iff, bool_decide_eq_true, String.eqb_eq, String.eqb_neq.
  unfold clean_rows, race_rows. rewrite !some_filtered. split.
  - intros (H1 & [-> ->] & H2 & _ & H3 & H4 & H5 & H6 & [H7 H8] & [_ H9] & _). constructor; [..|exact H9].
    + intros E. rewrite E in H1. done.
    + done.
    + by split_and!.
    + unfold plane_read in H7. destruct (mc_plane m) as [| |rows]; [done..|]. by exists rows.
  - intros [G1 G2 (G3 & G4 & G5 & G6) (rows & Gp & Gr) Gc]. injection (eq_trans (eq_sym Ea) G2) as -> ->.
    unfold plane_read, doc_rows at 1. rewrite Gp. split_and!; try done.
    + destruct (mc_FUNDED m) as [f|]; cbn; [intros ->; by apply G1|done].
    + destruct Gc as (r & Hr & Hk & _). by exists r.
Qed.

(** The check passes exactly on an armable machine: the shot is not funded, the ready file is the
    state008 one and there, nothing is armed, the racer and the audited file are up, the plane has a row
    with both templates, and the report a ready row of a pair that shares no key with another. *)
Theorem prearm_exact m n :
  prearm m = Ret n -> (n = 0 <-> armable m).
Proof.
  unfold prearm. intros H. apply py_bind_Ret in H as (names & _ & [= <-]). apply armable_gates.
Qed.

(** * With the audit's own report *)

Definition report_of (rows : list audit_row) : list report_row :=
  (fun a => ReportRow (au_dlmm a) (au_pump a) (vd_ready (au_verdict a))) <$> rows.

Lemma vector_names route wallet wr ro buy accs :
  vector_and_ata route wallet wr ro buy accs = Ret (None, None) -> is_Some (tr_dlmm route) /\ is_Some (tr_pump route).
Proof.
  unfold vector_and_ata. destruct (_ || _); [done|]. destruct (_ || _) eqn:E; [done|]. intros _.
  apply orb_false_iff in E as [E1 E2]. apply negb_false_iff, bool_decide_eq_true in E1, E2. rewrite <- E1, <- E2. split; by eexists.
Qed.

Lemma ready_row_named rpc simulate alts routes limit rows row :
  audit_routes rpc simulate alts routes limit = Ret rows -> row ∈ rows -> vd_ready (au_verdict row) = true -> is_Some (au_dlmm row).
Proof.
  intros Ha Hin Hready. apply audit_parts in Ha as (reads & got & got2 & _ & _ & _ & H).
  apply list_elem_of_lookup in Hin as [i Hi]. destruct (Forall2_lookup_r _ _ _ _ _ H Hi) as (rr & _ & Hone).
  destruct (audit_one_judged _ _ _ _ _ _ Hone) as (Hd & _ & _ & _ & Hj). rewrite Hd. destruct rr.2 as [e|wallet p0 p1].
  - destruct Hj as (_ & Hf & _). congruence.
  - destruct (proj1 (proj2 Hj) Hready) as [(wr & ro & _ & [_ Hv] & _) _]. exact (proj1 (vector_names _ _ _ _ _ _ Hv)).
Qed.

Lemma pool_names_total rows : Forall (fun r => is_Some (rp_dlmm r)) rows -> exists l, pool_names rows = Ret l.
Proof.
  unfold pool_names. induction 1 as [|r rows [k Hk] _ [l IH]]; [by exists []|]. cbn [py_map]. rewrite Hk, IH. by eexists.
Qed.

(** C26. On a report that the audit wrote the check always comes to a verdict: it names the pool of a ready row
    without looking, and a row is only ready with one. *)
Theorem prearm_total rpc simulate alts routes limit rows m :
  audit_routes rpc simulate alts routes limit = Ret rows -> mc_report m = Doc (report_of rows) ->
  exists n, prearm m = Ret n /\ (n = 0 <-> armable m).
Proof.
  intros Ha Hr. destruct (pool_names_total (clean_rows m)) as [l Hl].
  - apply Forall_forall. intros r Hin. unfold clean_rows in Hin. rewrite Hr in Hin.
    apply list_elem_of_filter in Hin as [(Hready & _) Hin]. apply list_elem_of_fmap in Hin as (a & -> & Hin). cbn [rp_ready rp_dlmm] in *.
    by eapply ready_row_named.
  - unfold prearm. rewrite Hl. cbn [py_bind]. eexists. split; [reflexivity|]. apply armable_gates.
Qed.

(** The report is not compared with the plane: the check passes where every row of the plane that has its
    templates shares a key, so that the executor sends none, on a pair that the plane does not have. *)
Definition ready_plane_row (d p : string) : route := Route (Some d) (Some p) (VBool true) VNone VNone (VStr "00") (VStr "00").
Definition other_plane : machine :=
  Machine None None true false true true (Doc [ready_plane_row "A" "B"; ready_plane_row "A" "C"]) (Doc [ReportRow (Some "D"%string) (Some "E"%string) true]).

Lemma pass_on_other_plane :
  prearm other_plane = Ret 0 /\
  Forall (fun r => unshared (amb_of other_plane) (r_dlmm r) = false) (doc_rows (mc_plane other_plane)) /\
  Forall (fun r => rp_dlmm r ∉ r_dlmm <$> doc_rows (mc_plane other_plane)) (doc_rows (mc_report other_plane)).
Proof.
  split; [vm_compute; reflexivity|]. split; [repeat constructor|]. repeat constructor.
  apply (bool_decide_unpack _). vm_compute. exact I.
Qed.

(** * On concrete data *)

Lemma prearm_exact_witness : prearm other_plane = Ret 0 /\ armable other_plane.
Proof.
  assert (H : prearm other_plane = Ret 0) by (vm_compute; reflexivity). split; [exact H|].
  apply (prearm_exact other_plane 0 H). reflexivity.
Defined.

(** A machine with everything in place and the audit's report. *)
Definition ready_machine (rows : list audit_row) : machine :=
  Machine None None true false true true (Doc [ready_plane_row "A" "B"]) (Doc (report_of rows)).

(** The report has a ready row and one that is not: the pool of the first is named, and the check passes. *)
Lemma prearm_total_witness :
  exists r1 r2, audit_routes audit_rpc audit_sim [] [ready_route; bad_route] None = Ret [r1; r2] /\
    pool_names (clean_rows (ready_machine [r1; r2])) = Ret ["US517G59"%string] /\ prearm (ready_machine [r1; r2]) = Ret 0.
Proof.
  destruct ready_audit_rows as (r1 & r2 & E & R1 & D1 & P1 & R2). exists r1, r2. split; [exact E|].
  assert (Hc : clean_rows (ready_machine [r1; r2]) = [ReportRow (Some Recorder.demo_pair) (au_pump r1) true]).
  { unfold clean_rows, ready_machine, report_of, doc_rows. cbn [mc_report fmap list_fmap]. rewrite R1, R2, D1, P1. vm_compute. reflexivity. }
  split; [rewrite Hc; reflexivity|].
  destruct (prearm_total audit_rpc audit_sim [] [ready_route; bad_route] None [r1; r2] (ready_machine [r1; r2]) E eq_refl) as (n & Hn & Ha).
  rewrite Hn. f_equal. apply Ha. constructor.
  - discriminate.
  - reflexivity.
  - repeat split.
  - exists [ready_plane_row "A" "B"]. split; [reflexivity|]. exists (ready_plane_row "A" "B"). split; [apply list_elem_of_here|reflexivity].
  - exists (ReportRow (au_dlmm r1) (au_pump r1) (vd_ready (au_verdict r1))). split; [apply list_elem_of_here|].
    cbn [rp_ready rp_dlmm rp_pump]. rewrite R1, D1, P1. repeat split; vm_compute; reflexivity.
Defined.
