(* ===== verification/State007.v ===== *)
(** The predecessor of the coherent-state plane, arb-state/shyft/state007.py: its state, updates,
    staging, publication, bootstrap and event loop, in a state monad with Python exceptions.

    Clocks are read through [wall]; the latency lists, the status files, the journal and the comparison
    with RPC snapshots are outside.  The bootstrap runs in a thread of its own: its phases are
    operations of their own, and the steps of the process interleave them with the events. *)
From stdpp Require Import base list strings gmap.
From Stdlib Require Import ZArith Lia.
From coqutil.Datatypes Require Import RecordSetters.
From S2P Require Import Prelude PyBytes Base58 Pda Accounts Submap Recon Deps.
Import RecordSetters.DoubleBraceUpdate.
Open Scope Z_scope.

(** An account write of the stream. *)
Record write7 := Write7 { u7_pk : string; u7_slot : Z; u7_wv : Z; u7_data : bytes; u7_rx : Z; u7_sig : option bytes }.

(** [ev.get("txn_sig")] as a condition. *)
Definition signed (o : option bytes) : option bytes := match o with Some (b :: l) => Some (b :: l) | _ => None end.

Record stage7 := Stage7 { g7_slot : Z; g7_sig : option bytes; g7_rx : Z; g7_wait : option Z }.

(** The calls into the reconciliation log, in order. *)
Inductive rcall := RInvalidate (proto idx rx slot : Z) | RAuth (proto idx slot : Z) (blob : bytes) | RPlane (ready : bool).

Inductive key7 := K7Published | K7Gaps | K7DecodeFail | K7Dup | K7Ooo | K7StaleWv | K7Reconnects.
#[export] Instance key7_eq_dec : EqDecision key7.
Proof. solve_decision. Defined.

Record st7 := St7 {
  p_sub : submap;
  p_bytes : gmap string write7;
  p_acc : gmap Z (list (string * role));        (* pool_acc: dicts in their order *)
  p_stage : gmap Z stage7;
  p_updating : gset Z;
  p_since : gmap Z Z;                           (* upd_since *)
  p_gen : gmap Z nat;
  p_last_wv : gmap string Z;
  p_seen : gset (string * Z * Z);
  p_ready : bool;
  p_stream_slot : Z;
  p_boot_slot : Z;
  p_buf : list write7;
  p_bootstrapping : bool;
  p_proto : gmap Z kind;                        (* proto_of *)
  p_m : key7 -> nat;
  p_rf : bytes;
  p_calls : list rcall;
  p_ready_file : bool;
  p_ticks : nat }.

Definition proto7 (k : kind) : Z := match k with Dlmm => 1 | Pump => 2 end.

(** * The plane at the start *)

(** [pool_acc[idx][pk] = role] *)
Definition put_acc (m : gmap Z (list (string * role))) (idx : Z) (pk : string) (ro : role) : gmap Z (list (string * role)) :=
  <[idx := od_set (default [] (m !! idx)) pk ro]> m.

(** [int(x.get("idx") or -1)]: an index 0 counts as none. *)
Definition univ_key (p : univ_pool) : Z := match u_idx p with Some z => if z =? 0 then -1 else z | None => -1 end.

(** The last pool of the universe file under the key. *)
Definition univ_of (univ : list univ_pool) (idx : Z) : option univ_pool :=
  list.last (filter (fun p => univ_key p = idx) univ).

Definition meta_of_row (p : pool_row) : univ_pool :=
  UnivPool (Some (match pl_kind p with Dlmm => "dlmm" | Pump => "pump" end)%string) None (pl_pubkey p) None None None None None None None.

Fixpoint init_pools (univ : list univ_pool) (rows : list pool_row) (proto : gmap Z kind) (acc : gmap Z (list (string * role)))
    : pyres (gmap Z kind * gmap Z (list (string * role))) :=
  match rows with
  | [] => Ret (proto, acc)
  | p :: rows' =>
      keys <-! accounts_for_pool (default (meta_of_row p) (univ_of univ (pl_idx p))) ;;
      init_pools univ rows' (<[pl_idx p := pl_kind p]> proto)
        (foldl (fun a kr => put_acc a (pl_idx p) kr.1 kr.2) acc keys)
  end%py.

Definition new_plane (univ : list univ_pool) (rf : bytes) (ready_file : bool) : pyres st7 :=
  (sub <-! build_submap univ ;;
   pa <-! init_pools univ (sm_pools sub) ∅ ∅ ;;
   Ret {| p_sub := sub; p_bytes := ∅; p_acc := pa.2; p_stage := ∅; p_updating := ∅; p_since := ∅; p_gen := ∅;
          p_last_wv := ∅; p_seen := ∅; p_ready := false; p_stream_slot := 0; p_boot_slot := 0; p_buf := [];
          p_bootstrapping := true; p_proto := pa.1; p_m := fun _ => O; p_rf := rf; p_calls := [];
          p_ready_file := ready_file; p_ticks := O |})%py.

(** * The monad *)

Definition M7 (A : Type) : Type := st7 -> st7 * pyres A.
Definition ret7 {A} (a : A) : M7 A := fun s => (s, Ret a).
Definition bind7 {A B} (m : M7 A) (f : A -> M7 B) : M7 B := fun s =>
  match m s with (s', Ret a) => f a s' | (s', Raise e) => (s', Raise e) end.
Definition gets7 {A} (f : st7 -> A) : M7 A := fun s => (s, Ret (f s)).
Definition modify7 (f : st7 -> st7) : M7 unit := fun s => (f s, Ret tt).
Definition lift7 {A} (r : pyres A) : M7 A := fun s => (s, r).

Declare Scope m7_scope.
Delimit Scope m7_scope with m7.
Notation "x <- m ;; k" := (bind7 m (fun x => k)) (at level 100, m at next level, right associativity) : m7_scope.
Notation "m ;; k" := (bind7 m (fun _ => k)) (at level 100, right associativity) : m7_scope.
Open Scope m7_scope.

Fixpoint each7 {A} (f : A -> M7 unit) (l : list A) : M7 unit :=
  match l with [] => ret7 tt | x :: l' => f x ;; each7 f l' end.
Definition when7 (b : bool) (m : M7 unit) : M7 unit := if b then m else ret7 tt.
Definition bump7 (k : key7) : M7 unit :=
  modify7 (fun s => s {{ p_m ::= fun m k' => if decide (k' = k) then S (m k') else m k' }}).

(** A call into the log, which may raise. *)
Definition record7 (c : rcall) : M7 unit := fun s =>
  let '(b, e) := match c with
                 | RInvalidate proto idx rx slot => Recon.invalidate (p_rf s) proto idx rx slot
                 | RAuth proto idx slot blob => Recon.auth (p_rf s) proto idx slot blob
                 | RPlane ready => Recon.plane (p_rf s) ready (p_stream_slot s)
                 end in
  match e with
  | None => (s {{ p_rf := b }} {{ p_calls ::= fun l => l ++ [c] }}, Ret tt)
  | Some x => (s {{ p_rf := b }}, Raise x)
  end.

(** * Readiness *)

Definition mark_uncertain7 : M7 unit :=
  modify7 (fun s => s {{ p_ready := false }}) ;;
  bump7 K7Gaps ;;
  modify7 (fun s => s {{ p_ready_file := false }}) ;;
  record7 (RPlane false).

Definition mark_ready7 : M7 unit :=
  modify7 (fun s => s {{ p_ready := true }} {{ p_bootstrapping := false }} {{ p_ready_file := true }}) ;;
  record7 (RPlane true).

Definition invalidate7 (idx rx slot : Z) : M7 unit :=
  s <- gets7 id ;;
  when7 (negb (bool_decide (idx ∈ p_updating s)))
    (record7 (RInvalidate (proto7 (default Dlmm (p_proto s !! idx))) idx rx slot) ;;
     modify7 (fun s => s {{ p_updating ::= union {[idx]} }} {{ p_since ::= <[idx := rx]> }})).

(** * Publication *)

Definition data7 (s : st7) (pk : string) : option bytes :=
  match p_bytes s !! pk with Some (Write7 _ _ _ (b :: l) _ _) => Some (b :: l) | _ => None end.

(** The last account of the role that has data, in the order of the pool's dict. *)
Definition last_of (s : st7) (ro : role) (roles : list (string * role)) : option bytes :=
  list.last (omap (fun kr : string * role => if bool_decide (kr.2 = ro) then data7 s kr.1 else None) roles).

(** [next(k for k, r in roles.items() if r == ro)] *)
Definition first_key (ro : role) (roles : list (string * role)) : option string :=
  head (fst <$> filter (fun kr => kr.2 = ro) roles).

Definition roles7 (s : st7) (idx : Z) : list (string * role) := default [] (p_acc s !! idx).

(** The part after the log took the blob. *)
Definition published7 (idx : Z) : M7 unit :=
  modify7 (fun s => s {{ p_updating ::= fun u => u ∖ {[idx]} }}
                      {{ p_gen ::= fun g => <[idx := S (default O (g !! idx))]> g }}
                      {{ p_since ::= delete idx }}) ;;
  bump7 K7Published.

Section clock.
Context (wall : nat -> Z).

Definition now7 : M7 Z := fun s => (s {{ p_ticks ::= S }}, Ret (wall (p_ticks s))).

Definition publish_dlmm7 (idx slot : Z) : M7 bool :=
  s <- gets7 id ;;
  match last_of s ROLE_DLMM_PAIR (roles7 s idx) with
  | None => ret7 false
  | Some pair_raw =>
      match parse_lbpair pair_raw with
      | Raise _ => bump7 K7DecodeFail ;; ret7 false
      | Ret lb =>
          need <- lift7 (bin_keys_for_active (default EmptyString (first_key ROLE_DLMM_PAIR (roles7 s idx))) (active_id lb)) ;;
          if negb (forallb (fun k => bool_decide (is_Some (p_bytes s !! k))) need) then ret7 false else
          o <- lift7 (snap_dlmm pair_raw (omap (fun k => u7_data <$> p_bytes s !! k) need)) ;;
          match o with
          | None => ret7 false
          | Some snap =>
              now <- now7 ;;
              blob <- lift7 (write_dlmm now snap) ;;
              record7 (RAuth (proto7 Dlmm) idx slot blob) ;;
              published7 idx ;;
              ret7 true
          end
      end
  end.

(** [self.fees], which nothing changes. *)
Definition FEES7 : Z * Z * Z * Z := (20, 5, 0, 0).

Definition pump_row7 (p : pump_pool) (rb rq : Z) : pump_row :=
  let '(lp, proto, creator, disabled) := FEES7 in
  PumpRow rb rq 0 lp proto creator disabled (if pp_mayhem p =? 0 then 0 else 1).

Definition publish_pump7 (idx slot : Z) : M7 bool :=
  s <- gets7 id ;;
  match last_of s ROLE_PUMP_POOL (roles7 s idx), last_of s ROLE_PUMP_VAULT_BASE (roles7 s idx),
        last_of s ROLE_PUMP_VAULT_QUOTE (roles7 s idx) with
  | Some pool_raw, Some vb, Some vq =>
      match parse_pump_pool pool_raw with
      | None => bump7 K7DecodeFail ;; ret7 false
      | Some p =>
          rb <- lift7 (token_amount vb) ;;
          rq <- lift7 (token_amount vq) ;;
          if (rb =? 0) || (rq =? 0) then ret7 false else
          blob <- lift7 (write_pump (pump_row7 p rb rq)) ;;
          record7 (RAuth (proto7 Pump) idx slot blob) ;;
          published7 idx ;;
          ret7 true
      end
  | _, _, _ => ret7 false
  end.

(** * Updates *)

(** A write goes on a stage. *)
Definition stage_write (ev : write7) (g : stage7) : stage7 :=
  match signed (u7_sig ev) with
  | Some sig =>
      match signed (g7_sig g) with
      | Some sig0 =>
          if negb (bool_decide (sig = sig0)) && (u7_slot ev =? g7_slot g)
          then Stage7 (g7_slot g) (g7_sig g) (g7_rx g) (Some (u7_slot ev + 1))
          else Stage7 (u7_slot ev) (Some sig) (g7_rx g) (g7_wait g)
      | None => Stage7 (u7_slot ev) (Some sig) (g7_rx g) (g7_wait g)
      end
  | None => Stage7 (u7_slot ev) (g7_sig g) (g7_rx g) (Some (u7_slot ev + 1))
  end.

Definition fresh_stage (ev : write7) : stage7 := Stage7 (u7_slot ev) (u7_sig ev) (u7_rx ev) None.

(** A pool that depends on the account. *)
Definition touch_pool (ev : write7) (from_buf : bool) (dep : dep_row) : M7 unit :=
  s <- gets7 id ;;
  if p_bootstrapping s && negb from_buf then ret7 tt else
  invalidate7 (d_pool_idx dep) (u7_rx ev) (u7_slot ev) ;;
  modify7 (fun s => s {{ p_stage ::= fun m => <[d_pool_idx dep := stage_write ev (default (fresh_stage ev) (m !! d_pool_idx dep))]> m }}).

Definition SEEN_CAP7 : Z := 200000.

Definition see (k : string * Z * Z) (seen : gset (string * Z * Z)) : gset (string * Z * Z) :=
  let seen := {[k]} ∪ seen in if SEEN_CAP7 <? Z.of_nat (size seen) then ∅ else seen.

Definition apply_update7 (ev : write7) (from_buf : bool) : M7 unit :=
  s <- gets7 id ;;
  let key := (u7_pk ev, u7_slot ev, u7_wv ev) in
  if bool_decide (key ∈ p_seen s) then bump7 K7Dup else
  let prev := default (-1) (p_last_wv s !! u7_pk ev) in
  if (0 <=? u7_wv ev) && (u7_wv ev <? prev) then bump7 K7StaleWv else
  when7 ((0 <=? prev) && (u7_wv ev <? prev)) (bump7 K7Ooo) ;;
  modify7 (fun s => s {{ p_seen ::= see key }} {{ p_last_wv ::= <[u7_pk ev := u7_wv ev]> }} {{ p_bytes ::= <[u7_pk ev := ev]> }}) ;;
  each7 (touch_pool ev from_buf) (default [] (od_get (sm_accounts (p_sub s)) (u7_pk ev))).

(** [int(st.get("wait_slot") or (st.get("slot") or 0) + 1)] *)
Definition wait7 (g : option stage7) : Z :=
  let w := or0 (g ≫= g7_wait) in if w =? 0 then or0 (g7_slot <$> g) + 1 else w.

(** One pool of the loop. *)
Definition publish_one (stream_slot : Z) (idx : Z) : M7 unit :=
  s <- gets7 id ;;
  let g := p_stage s !! idx in
  if (stream_slot <? wait7 g) && bool_decide (signed (g ≫= g7_sig) = None) then ret7 tt else
  let slot := let z := or0 (g7_slot <$> g) in if z =? 0 then stream_slot else z in
  ok <- (match p_proto s !! idx with
         | Some Dlmm => publish_dlmm7 idx slot
         | Some Pump => publish_pump7 idx slot
         | None => ret7 false
         end) ;;
  when7 ok (modify7 (fun s => s {{ p_stage ::= delete idx }})).

(** [for idx in list(updating)]; the order of the set is not specified. *)
Definition maybe_publish7 (stream_slot : Z) : M7 unit :=
  s <- gets7 id ;;
  each7 (publish_one stream_slot) (elements (p_updating s)).

(** * Bootstrap *)

Definition boot_upd (pk : string) (row : rpc_row) (rx : Z) : write7 := Write7 pk (rw_slot row) 0 (rw_data row) rx None.

(** [sub["accounts"].setdefault(k, []).append(..)] *)
Definition add_dep7 (k : string) (row : dep_row) : M7 unit :=
  modify7 (fun s => s {{ p_sub ::= fun sub => Submap (push_dep (sm_accounts sub) k row) (sm_pools sub) }}).
Definition add_role (idx : Z) (k : string) (ro : role) : M7 unit :=
  modify7 (fun s => s {{ p_acc ::= fun m => put_acc m idx k ro }}).

(** What a fetched account names besides itself, to be fetched too. *)
Definition boot_dep (univ : list univ_pool) (pk : string) (data : bytes) (extra : list string) (dep : dep_row) : M7 (list string) :=
  let idx := d_pool_idx dep in
  match d_role dep with
            | ROLE_DLMM_PAIR =>
                match parse_lbpair data with
                | Raise _ => ret7 extra
                | Ret lb =>
                    let pk_of := match univ_of univ idx with Some p => nonempty (u_pubkey p) | None => None end in
                    bins <- lift7 (bin_keys_for_active (default pk pk_of) (active_id lb)) ;;
                    each7 (fun b => add_role idx b ROLE_DLMM_BIN ;; add_dep7 b (DepRow idx ROLE_DLMM_BIN Dlmm false)) bins ;;
                    ret7 (extra ++ bins)
                end
            | ROLE_PUMP_POOL =>
                match parse_pump_pool data with
                | None => ret7 extra
                | Some p =>
                    let vb := b58encode (pp_vault_base p) in
                    let vq := b58encode (pp_vault_quote p) in
                    add_role idx vb ROLE_PUMP_VAULT_BASE ;;
                    add_role idx vq ROLE_PUMP_VAULT_QUOTE ;;
                    add_dep7 vb (DepRow idx ROLE_PUMP_VAULT_BASE Pump false) ;;
                    add_dep7 vq (DepRow idx ROLE_PUMP_VAULT_QUOTE Pump false) ;;
                    ret7 (extra ++ [vb; vq])
                end
            | _ => ret7 extra
            end.

Fixpoint boot_deps (univ : list univ_pool) (pk : string) (data : bytes) (extra : list string) (deps : list dep_row) : M7 (list string) :=
  match deps with
  | [] => ret7 extra
  | d :: deps' => extra <- boot_dep univ pk data extra d ;; boot_deps univ pk data extra deps'
  end.

(** The answers of the first request: the slot of the snapshot and the accounts to ask for. *)
Fixpoint boot_rows7 (univ : list univ_pool) (rows : list (string * option rpc_row)) (ctx : Z) (extra : list string) : M7 (Z * list string) :=
  match rows with
  | [] => ret7 (ctx, extra)
  | (pk, Some row) :: rows' =>
      if bool_decide (rw_data row = []) then boot_rows7 univ rows' ctx extra else
      rx <- now7 ;;
      modify7 (fun s => s {{ p_bytes ::= <[pk := boot_upd pk row rx]> }} {{ p_last_wv ::= <[pk := 0]> }}) ;;
      s <- gets7 id ;;
      extra <- boot_deps univ pk (rw_data row) extra (default [] (od_get (sm_accounts (p_sub s)) pk)) ;;
      boot_rows7 univ rows' (Z.max ctx (rw_slot row)) extra
  | (_, None) :: rows' => boot_rows7 univ rows' ctx extra
  end.

(** The answers of the second request; no write version is kept for them. *)
Fixpoint boot_extra (rows : list (string * option rpc_row)) (ctx : Z) : M7 Z :=
  match rows with
  | [] => ret7 ctx
  | (pk, Some row) :: rows' =>
      if bool_decide (rw_data row = []) then boot_extra rows' ctx else
      rx <- now7 ;;
      modify7 (fun s => s {{ p_bytes ::= <[pk := boot_upd pk row rx]> }}) ;;
      boot_extra rows' (Z.max ctx (rw_slot row))
  | (_, None) :: rows' => boot_extra rows' ctx
  end.

(** Newer than the snapshot. *)
Definition newer (ctx : Z) (ev : write7) : bool := (ctx <? u7_slot ev) || ((u7_slot ev =? ctx) && (0 <? u7_wv ev)).

Definition boot_replay (ctx : Z) : M7 unit :=
  modify7 (fun s => s {{ p_boot_slot := ctx }}) ;;
  s <- gets7 id ;;
  each7 (fun ev => apply_update7 ev true) (filter (fun ev => newer ctx ev = true) (p_buf s)) ;;
  modify7 (fun s => s {{ p_buf := [] }}).

(** Publish what is complete, then ready or not. *)
Definition boot_publish (ctx : Z) : M7 unit :=
  s <- gets7 id ;;
  each7 (fun p => (match pl_kind p with Dlmm => publish_dlmm7 (pl_idx p) ctx | Pump => publish_pump7 (pl_idx p) ctx end) ;; ret7 tt)
    (sm_pools (p_sub s)) ;;
  s <- gets7 id ;;
  if (ctx <=? p_stream_slot s) && (0 <? ctx) then mark_ready7 else mark_uncertain7.

(** * Events *)

Inductive event7 := Ev7Slot (slot : Z) | Ev7Account (ev : write7) | Ev7Timeout.

Definition BUF_CAP7 : Z := 20000.
Definition BUF_KEEP : Z := 10000.

Definition push_buf (ev : write7) (buf : list write7) : list write7 :=
  let buf := buf ++ [ev] in if BUF_CAP7 <? Z.of_nat (length buf) then drop (Z.to_nat (Z.of_nat (length buf) - BUF_KEEP)) buf else buf.

Definition decode7 (e : event7) : M7 unit :=
  s <- gets7 id ;;
  match e with
  | Ev7Timeout => when7 (p_ready s) (maybe_publish7 (p_stream_slot s))
  | Ev7Slot slot =>
      modify7 (fun s => s {{ p_stream_slot := slot }}) ;;
      if negb (p_stream_slot s =? 0) && (p_stream_slot s + 32 <? slot) then mark_uncertain7
      else when7 (p_ready s) (maybe_publish7 slot)
  | Ev7Account ev =>
      if p_bootstrapping s then modify7 (fun s => s {{ p_buf ::= push_buf ev }}) else
      apply_update7 ev false ;;
      maybe_publish7 (p_stream_slot s)
  end.

(** * The process *)

(** A bootstrap thread between its phases. *)
Inductive phase := BStart (univ : list univ_pool) (fetch : list string -> pyres (list (option rpc_row))) | BReplay (ctx : Z) | BPublish (ctx : Z).

(** The fetches of a bootstrap: the slot of the snapshot. *)
Definition boot_fetch (univ : list univ_pool) (fetch : list string -> pyres (list (option rpc_row))) : M7 Z :=
  s <- gets7 id ;;
  let keys := od_keys (sm_accounts (p_sub s)) in
  accs <- lift7 (fetch keys) ;;
  ce <- boot_rows7 univ (zip keys accs) 0 [] ;;
  s <- gets7 id ;;
  let extra := filter (fun k => p_bytes s !! k = None) (fromkeys ce.2) in
  match extra with [] => ret7 ce.1 | _ => accs2 <- lift7 (fetch extra) ;; boot_extra (zip extra accs2) ce.1 end.

(** The next phase, or the end of the thread. *)
Definition boot_step (p : phase) : M7 (option phase) :=
  match p with
  | BStart univ fetch => ctx <- boot_fetch univ fetch ;; ret7 (Some (BReplay ctx))
  | BReplay ctx => boot_replay ctx ;; ret7 (Some (BPublish ctx))
  | BPublish ctx => boot_publish ctx ;; ret7 None
  end.

(** The stream broke. *)
Definition stream_lost : M7 unit := bump7 K7Reconnects ;; mark_uncertain7.

Record proc := Proc { pr_st : st7; pr_booted : bool; pr_boots : list phase }.

(** What the stream's thread does on a slot, and on an error: only the second kind asks for a new bootstrap. *)
Inductive action7 :=
  | ADecode (e : event7)                                    (* the queue's consumer; an exception ends its thread *)
  | ASlot (slot : Z) (univ : list univ_pool) (fetch : list string -> pyres (list (option rpc_row)))
  | ABoot (i : nat)                                         (* a phase of the [i]-th bootstrap *)
  | ARpcError                                               (* except grpc.RpcError *)
  | AOther                                                  (* except Exception *)
  | AMismatch (idx rx : Z).                                 (* the comparison with RPC found a pool to differ *)

Definition step7 (a : action7) (p : proc) : proc :=
  match a with
  | ADecode e => Proc (decode7 e (pr_st p)).1 (pr_booted p) (pr_boots p)
  | ASlot slot univ fetch =>
      if negb (pr_booted p) && (0 <? slot) then Proc (pr_st p) true (pr_boots p ++ [BStart univ fetch]) else p
  | ABoot i =>
      match pr_boots p !! i with
      | None => p
      | Some ph =>
          let r := boot_step ph (pr_st p) in
          Proc r.1 (pr_booted p)
            (match r.2 with Ret (Some ph') => <[i := ph']> (pr_boots p) | _ => delete i (pr_boots p) end)
      end
  | ARpcError => Proc (stream_lost (pr_st p)).1 (pr_booted p) (pr_boots p)
  | AOther => Proc ((stream_lost (pr_st p)).1 {{ p_bootstrapping := true }}) false (pr_boots p)
  | AMismatch idx rx => Proc (invalidate7 idx rx (p_stream_slot (pr_st p)) (pr_st p)).1 (pr_booted p) (pr_boots p)
  end.
End clock.

(** * What operations leave alone *)

Definition keeps {A X} (f : st7 -> X) (m : M7 A) : Prop := forall s, f (m s).1 = f s.

Section keeps.
Context {X : Type} (f : st7 -> X).

Lemma keeps7_ret {A} (a : A) : keeps f (ret7 a). Proof. done. Qed.
Lemma keeps7_gets {A} (g : st7 -> A) : keeps f (gets7 g). Proof. done. Qed.
Lemma keeps7_lift {A} (r : pyres A) : keeps f (lift7 r). Proof. done. Qed.
Lemma keeps7_modify g : (forall s, f (g s) = f s) -> keeps f (modify7 g). Proof. intros H s. apply H. Qed.
Lemma keeps7_bind {A B} (m : M7 A) (k : A -> M7 B) : keeps f m -> (forall x, keeps f (k x)) -> keeps f (bind7 m k).
Proof. intros Hm Hk s. unfold bind7. specialize (Hm s). destruct (m s) as [s' [x|e]]; cbn in *; [by rewrite Hk|done]. Qed.
Lemma keeps7_when b m : keeps f m -> keeps f (when7 b m). Proof. intros H. by destruct b. Qed.
Lemma keeps7_each {A} (g : A -> M7 unit) l : (forall x, keeps f (g x)) -> keeps f (each7 g l).
Proof. intros H. induction l as [|x l IH]; cbn [each7]; [apply keeps7_ret|]. by apply keeps7_bind. Qed.
Lemma keeps7_record c : (forall b s, f (s {{ p_rf := b }}) = f s) -> (forall g s, f (s {{ p_calls ::= g }}) = f s) -> keeps f (record7 c).
Proof. intros H1 H2 s. unfold record7. destruct (match c with RInvalidate _ _ _ _ => _ | _ => _ end) as [b [e|]]; cbn [fst]; by rewrite ?H2, H1. Qed.
End keeps.

(** Goes through a computation, down to the updates it makes. *)
Ltac keep_step :=
  match goal with
  | |- keeps _ (bind7 _ _) => apply keeps7_bind; [|intros ?]
  | |- keeps _ (ret7 _) => apply keeps7_ret
  | |- keeps _ (gets7 _) => apply keeps7_gets
  | |- keeps _ (lift7 _) => apply keeps7_lift
  | |- keeps _ (when7 _ _) => apply keeps7_when
  | |- keeps _ (each7 _ _) => apply keeps7_each; intros ?
  | |- keeps _ (modify7 _) => apply keeps7_modify; intros ?; reflexivity
  | |- keeps _ (bump7 _) => apply keeps7_modify; intros ?; reflexivity
  | |- keeps _ (record7 _) => apply keeps7_record; intros; reflexivity
  | |- keeps _ (now7 _) => intros ?; reflexivity
  | |- keeps _ (if ?b then _ else _) => destruct b
  | |- keeps _ (match ?x with _ => _ end) => destruct x
  | |- keeps _ (let _ := _ in _) => cbv zeta
  end.
Ltac keep := repeat keep_step; auto with keeps.
Create HintDb keeps.

(** What readers of the plane's flags see. *)
Definition status (s : st7) : bool * bool * bool := (p_ready s, p_ready_file s, p_bootstrapping s).

Section status.
Context (wall : nat -> Z).

Lemma keeps_invalidate idx rx slot : keeps status (invalidate7 idx rx slot).
Proof. unfold invalidate7. keep. Qed.
#[local] Hint Resolve keeps_invalidate : keeps.
Lemma keeps_touch ev fb d : keeps status (touch_pool ev fb d).
Proof. unfold touch_pool. keep. Qed.
#[local] Hint Resolve keeps_touch : keeps.
Lemma keeps_apply ev fb : keeps status (apply_update7 ev fb).
Proof. unfold apply_update7. keep. Qed.
#[local] Hint Resolve keeps_apply : keeps.
Lemma keeps_published idx : keeps status (published7 idx).
Proof. unfold published7. keep. Qed.
#[local] Hint Resolve keeps_published : keeps.
Lemma keeps_publish_dlmm idx slot : keeps status (publish_dlmm7 wall idx slot).
Proof. unfold publish_dlmm7. keep. Qed.
Lemma keeps_publish_pump idx slot : keeps status (publish_pump7 idx slot).
Proof. unfold publish_pump7. keep. Qed.
#[local] Hint Resolve keeps_publish_dlmm keeps_publish_pump : keeps.
Lemma keeps_publish_one stream idx : keeps status (publish_one wall stream idx).
Proof. unfold publish_one. keep. Qed.
#[local] Hint Resolve keeps_publish_one : keeps.
Lemma keeps_maybe stream : keeps status (maybe_publish7 wall stream).
Proof. unfold maybe_publish7. keep. Qed.
#[local] Hint Resolve keeps_maybe : keeps.

Lemma record_plane s ready : exists b, record7 (RPlane ready) s = (s {{ p_rf := b }} {{ p_calls ::= fun l => l ++ [RPlane ready] }}, Ret tt).
Proof. unfold record7. destruct ready; by eexists. Qed.

Lemma uncertain_status s : status (mark_uncertain7 s).1 = (false, false, p_bootstrapping s) /\ (mark_uncertain7 s).2 = Ret tt.
Proof.
  unfold mark_uncertain7, bind7, bump7, modify7. cbn. destruct (record_plane (s {{ p_ready := false }} {{ p_m ::= fun m k' => if decide (k' = K7Gaps) then S (m k') else m k' }} {{ p_ready_file := false }}) false) as [b E].
  cbn in E. rewrite E. done.
Qed.

Lemma uncertain_down s : p_ready (mark_uncertain7 s).1 = false /\ p_ready_file (mark_uncertain7 s).1 = false.
Proof. pose proof (proj1 (uncertain_status s)) as E. split; [exact (f_equal (fun x => x.1.1) E)|exact (f_equal (fun x => x.1.2) E)]. Qed.

Lemma lost_down s : p_ready (stream_lost s).1 = false /\ p_ready_file (stream_lost s).1 = false.
Proof. apply (uncertain_down (bump7 K7Reconnects s).1). Qed.

(** An event never makes the plane ready, and never starts a bootstrap. *)
Lemma decode_status e s :
  status (decode7 wall e s).1 = status s \/ status (decode7 wall e s).1 = (false, false, p_bootstrapping s).
Proof.
  unfold decode7, bind7, gets7. cbn [id]. destruct e as [slot|ev|].
  - cbn [modify7]. destruct (_ && _).
    + right. rewrite (proj1 (uncertain_status _)). reflexivity.
    + left. destruct (p_ready s); cbn [when7]; [|done]. by rewrite keeps_maybe.
  - left. destruct (p_bootstrapping s) eqn:Eb; [reflexivity|].
    pose proof (keeps_apply ev false s) as Ha. destruct (apply_update7 ev false s) as [s' [[]|x]]; cbn [fst] in *; [by rewrite keeps_maybe|done].
  - left. unfold when7. destruct (p_ready s); [by rewrite keeps_maybe|done].
Qed.

(** ** A lost plane *)

Definition run7 (l : list action7) (p : proc) : proc := foldl (fun p a => step7 wall a p) p l.

(** No bootstrap is running and none will be asked for. *)
Definition lost (p : proc) : Prop :=
  pr_booted p = true /\ pr_boots p = [] /\ p_ready (pr_st p) = false /\ p_ready_file (pr_st p) = false.

Lemma lost_step a p : a <> AOther -> lost p -> lost (step7 wall a p).
Proof.
  intros Ha (H1 & H2 & H3 & H4). destruct a as [e|slot univ fetch|i| | |idx rx]; cbn [step7]; [| | | |done|].
  - destruct (decode_status e (pr_st p)) as [E|E]; unfold status in E; injection E as E1 E2 _; split_and!; cbn [pr_booted pr_boots pr_st]; congruence.
  - rewrite H1. by split_and!.
  - rewrite H2. by split_and!.
  - destruct (lost_down (pr_st p)). by split_and!.
  - pose proof (keeps_invalidate idx rx (p_stream_slot (pr_st p)) (pr_st p)) as E. unfold status in E. injection E as E1 E2 _.
    split_and!; cbn [pr_booted pr_boots pr_st]; congruence.
Qed.

Lemma lost_run l p : Forall (fun a => a <> AOther) l -> lost p -> lost (run7 l p).
Proof.
  unfold run7. intros Hl. revert p. induction Hl as [|a l Ha _ IH]; intros p Hp; [done|]. cbn [foldl]. apply IH. by apply lost_step.
Qed.

(** C7. Losing the plane is final: once the stream has started its bootstrap and no bootstrap is running,
    an RPC error of the stream, whatever slots, writes and further RPC errors follow, leaves the plane not
    ready for good: no bootstrap is ever started again, only an error of another kind asks for one. *)
Theorem rpc_error_is_final l p :
  pr_booted p = true -> pr_boots p = [] -> Forall (fun a => a <> AOther) l ->
  let q := run7 (ARpcError :: l) p in
  p_ready (pr_st q) = false /\ p_ready_file (pr_st q) = false /\ pr_boots q = [].
Proof.
  intros H1 H2 Hl. cbv zeta. unfold run7. cbn [foldl]. fold (run7 l (step7 wall ARpcError p)).
  assert (Hp : lost (step7 wall ARpcError p)).
  { destruct (lost_down (pr_st p)). by split_and!. }
  destruct (lost_run l _ Hl Hp) as (_ & Hb & Hr & Hf). by split_and!.
Qed.
End status.

(** * What is published *)

(** The blob that the accounts the plane holds give for a pool. *)
Definition held_blob (k : kind) (s : st7) (idx : Z) (blob : bytes) : Prop :=
  match k with
  | Dlmm => exists pair_raw lb need snap now, last_of s ROLE_DLMM_PAIR (roles7 s idx) = Some pair_raw /\ parse_lbpair pair_raw = Ret lb /\
      bin_keys_for_active (default EmptyString (first_key ROLE_DLMM_PAIR (roles7 s idx))) (active_id lb) = Ret need /\
      (forall b, b ∈ need -> is_Some (p_bytes s !! b)) /\
      snap_dlmm pair_raw (omap (fun b => u7_data <$> p_bytes s !! b) need) = Ret (Some snap) /\ write_dlmm now snap = Ret blob
  | Pump => exists pool_raw vb vq p rb rq, last_of s ROLE_PUMP_POOL (roles7 s idx) = Some pool_raw /\
      last_of s ROLE_PUMP_VAULT_BASE (roles7 s idx) = Some vb /\ last_of s ROLE_PUMP_VAULT_QUOTE (roles7 s idx) = Some vq /\
      parse_pump_pool pool_raw = Some p /\ token_amount vb = Ret rb /\ token_amount vq = Ret rq /\ rb <> 0 /\ rq <> 0 /\
      write_pump (pump_row7 p rb rq) = Ret blob
  end.

(** What a publication leaves: on success the pool's blob is in the log and the pool no longer updating. *)
Definition publication (k : kind) (idx slot : Z) (s s' : st7) (b : bool) : Prop :=
  if b then p_updating s' = p_updating s ∖ {[idx]} /\
    exists blob, held_blob k s idx blob /\ p_calls s' = p_calls s ++ [RAuth (proto7 k) idx slot blob]
  else p_updating s' = p_updating s /\ p_calls s' = p_calls s.

Lemma bind7_Ret {A B} (m : M7 A) (k : A -> M7 B) s s' y :
  bind7 m k s = (s', Ret y) -> exists s1 x, m s = (s1, Ret x) /\ k x s1 = (s', Ret y).
Proof. unfold bind7. destruct (m s) as [s1 [x|e]]; [|done]. intros H. by exists s1, x. Qed.

Lemma record7_Ret c s s' : record7 c s = (s', Ret tt) -> p_updating s' = p_updating s /\ p_calls s' = p_calls s ++ [c].
Proof. unfold record7. destruct (match c with RInvalidate _ _ _ _ => _ | _ => _ end) as [b [e|]]; [done|]. by intros [= <-]. Qed.

Lemma published7_spec idx s s' : published7 idx s = (s', Ret tt) -> p_updating s' = p_updating s ∖ {[idx]} /\ p_calls s' = p_calls s.
Proof. by intros [= <-]. Qed.

Section published.
Context (wall : nat -> Z).

(** The log takes the blob and the pool is done. *)
Lemma commit_outcome k idx slot s s1 s' blob b :
  held_blob k s idx blob -> p_updating s1 = p_updating s -> p_calls s1 = p_calls s ->
  bind7 (record7 (RAuth (proto7 k) idx slot blob)) (fun _ => bind7 (published7 idx) (fun _ => ret7 true)) s1 = (s', Ret b) ->
  publication k idx slot s s' b.
Proof.
  intros Hh Hu Hc H. apply bind7_Ret in H as (s2 & [] & H1 & H). apply bind7_Ret in H as (s3 & [] & H2 & [= <- <-]).
  apply record7_Ret in H1 as [U1 C1]. apply published7_spec in H2 as [U2 C2]. split; [by rewrite U2, U1, Hu|].
  exists blob. split; [done|]. by rewrite C2, C1, Hc.
Qed.

Lemma publish_dlmm_outcome idx slot s s' b : publish_dlmm7 wall idx slot s = (s', Ret b) -> publication Dlmm idx slot s s' b.
Proof.
  unfold publish_dlmm7. intros H. apply bind7_Ret in H as (s0 & s1 & [= <- <-] & H). cbn [id] in H.
  destruct (last_of s ROLE_DLMM_PAIR (roles7 s idx)) as [raw|] eqn:El; [|by injection H as <- <-].
  destruct (parse_lbpair raw) as [lb|e] eqn:Ep; [|by injection H as <- <-].
  apply bind7_Ret in H as (s1 & need & Hn & H). injection Hn as <- Hn.
  destruct (forallb _ need) eqn:Ef; cbn [negb] in H; [|by injection H as <- <-].
  apply bind7_Ret in H as (s2 & o & Ho & H). injection Ho as <- Ho. destruct o as [snap|]; [|by injection H as <- <-].
  apply bind7_Ret in H as (s3 & now & Hw & H). apply bind7_Ret in H as (s4 & blob & Hb & H). injection Hb as <- Hb.
  assert (p_updating s3 = p_updating s /\ p_calls s3 = p_calls s) as [Hu Hc] by (by injection Hw as <- _).
  revert H. apply commit_outcome; [|done|done]. exists raw, lb, need, snap, now. split_and!; [done..| |done|done].
  intros k Hk. rewrite forallb_forall in Ef. apply list_elem_of_In, Ef, bool_decide_eq_true in Hk. done.
Qed.

Lemma publish_pump_outcome idx slot s s' b : publish_pump7 idx slot s = (s', Ret b) -> publication Pump idx slot s s' b.
Proof.
  unfold publish_pump7. intros H. apply bind7_Ret in H as (s0 & s1 & [= <- <-] & H). cbn [id] in H.
  destruct (last_of s ROLE_PUMP_POOL _) as [raw|] eqn:E1; [|by injection H as <- <-].
  destruct (last_of s ROLE_PUMP_VAULT_BASE _) as [vb|] eqn:E2; [|by injection H as <- <-].
  destruct (last_of s ROLE_PUMP_VAULT_QUOTE _) as [vq|] eqn:E3; [|by injection H as <- <-].
  destruct (parse_pump_pool raw) as [p|] eqn:Ep; [|by injection H as <- <-].
  apply bind7_Ret in H as (s1 & rb & Hb & H). injection Hb as <- Hb. apply bind7_Ret in H as (s2 & rq & Hq & H). injection Hq as <- Hq.
  destruct (Z.eqb_spec rb 0), (Z.eqb_spec rq 0); cbn [orb] in H; [by injection H as <- <-..|].
  apply bind7_Ret in H as (s3 & blob & Hw & H). injection Hw as <- Hw.
  revert H. apply commit_outcome; [|done|done]. by exists raw, vb, vq, p, rb, rq.
Qed.

(** What STATE-007 publishes is what it holds: a publication that succeeds appends one AUTH record, the
    blob of the pool's accounts as they are held, and ends the pool's update; one that does not
    leaves the log and the updating pools as they were.  For a DLMM pool every bin array around the
    active bin has to be held. *)
Theorem published_from_held k idx slot s s' b :
  (match k with Dlmm => publish_dlmm7 wall idx slot | Pump => publish_pump7 idx slot end) s = (s', Ret b) ->
  publication k idx slot s s' b.
Proof. destruct k; [apply publish_dlmm_outcome|apply publish_pump_outcome]. Qed.

(** Without a signature a pool waits for a later slot. *)
Lemma unsigned_waits stream idx s g :
  p_stage s !! idx = Some g -> signed (g7_sig g) = None -> stream < wait7 (Some g) ->
  publish_one wall stream idx s = (s, Ret tt).
Proof.
  intros Hg Hs Hw. unfold publish_one, bind7, gets7. cbn [id]. rewrite Hg. rewrite (proj2 (Z.ltb_lt _ _) Hw).
  cbn [mbind option_bind]. by rewrite Hs.
Qed.

(** ** Updates *)

(** One write, in one step. *)
Definition held_after (ev : write7) (s : st7) : st7 :=
  s {{ p_seen ::= see (u7_pk ev, u7_slot ev, u7_wv ev) }} {{ p_last_wv ::= <[u7_pk ev := u7_wv ev]> }} {{ p_bytes ::= <[u7_pk ev := ev]> }}.

Lemma apply_update7_eq ev from_buf s : 0 <= u7_wv ev ->
  apply_update7 ev from_buf s =
    if bool_decide ((u7_pk ev, u7_slot ev, u7_wv ev) ∈ p_seen s) then bump7 K7Dup s else
    if u7_wv ev <? default (-1) (p_last_wv s !! u7_pk ev) then bump7 K7StaleWv s else
    each7 (touch_pool ev from_buf) (default [] (od_get (sm_accounts (p_sub s)) (u7_pk ev))) (held_after ev s).
Proof.
  intros Hwv. unfold apply_update7, bind7 at 1, gets7. cbn [id]. case_bool_decide; [done|].
  rewrite (proj2 (Z.leb_le _ _) Hwv). cbn [andb]. destruct (u7_wv ev <? _) eqn:E; [done|]. by rewrite andb_false_r.
Qed.

Lemma touch_pools_keep {X} (f : st7 -> X) ev from_buf l s :
  (forall d, keeps f (touch_pool ev from_buf d)) -> f (each7 (touch_pool ev from_buf) l s).1 = f s.
Proof. intros H. by apply keeps7_each. Qed.

(** Writes of an account are applied in the order of their write versions: a stream write with a lower
    version than the last one applied is counted and changes neither the accounts held, the pools updating nor the log,
    and the version kept for the account never falls.  So the counter of out-of-order writes never moves. *)
Theorem versions_never_fall ev from_buf s :
  0 <= u7_wv ev ->
  let s' := (apply_update7 ev from_buf s).1 in
  default (-1) (p_last_wv s !! u7_pk ev) <= default (-1) (p_last_wv s' !! u7_pk ev) /\
  (u7_wv ev < default (-1) (p_last_wv s !! u7_pk ev) -> p_bytes s' = p_bytes s /\ p_updating s' = p_updating s /\ p_calls s' = p_calls s) /\
  p_m s' K7Ooo = p_m s K7Ooo.
Proof.
  intros Hwv. cbv zeta. rewrite (apply_update7_eq _ _ _ Hwv). case_bool_decide as Hseen.
  { split; [apply Z.le_refl|]. by split. }
  destruct (Z.ltb_spec (u7_wv ev) (default (-1) (p_last_wv s !! u7_pk ev))) as [Hlt|Hge].
  { split; [apply Z.le_refl|]. by split. }
  split; [|split; [lia|]].
  - rewrite (touch_pools_keep p_last_wv) by (intros d; unfold touch_pool, invalidate7; keep). cbn. rewrite lookup_insert_eq. cbn. lia.
  - by rewrite (touch_pools_keep (fun s => p_m s K7Ooo)) by (intros d; unfold touch_pool, invalidate7; keep).
Qed.
End published.

(** * Readiness *)

Section readiness.
Context (wall : nat -> Z).

Lemma ready_marks s s' : mark_ready7 s = (s', Ret tt) -> p_ready s' = true /\ p_ready_file s' = true /\ p_bootstrapping s' = false.
Proof.
  unfold mark_ready7, bind7, modify7. set (s1 := s {{ p_ready := true }} {{ p_bootstrapping := false }} {{ p_ready_file := true }}).
  destruct (record_plane s1 true) as [b E]. rewrite E. by intros [= <-].
Qed.

Lemma keeps_stream_publish p ctx :
  keeps p_stream_slot (bind7 (match pl_kind p with Dlmm => publish_dlmm7 wall (pl_idx p) ctx | Pump => publish_pump7 (pl_idx p) ctx end) (fun _ => ret7 tt)).
Proof. destruct (pl_kind p); unfold publish_dlmm7, publish_pump7, published7; keep. Qed.

(** A bootstrap at its end asks the stream's last slot, and nothing else. *)
Lemma boot_publish_ready ctx s s' :
  boot_publish wall ctx s = (s', Ret tt) ->
  let ok := (ctx <=? p_stream_slot s) && (0 <? ctx) in
  p_ready s' = ok /\ p_ready_file s' = ok.
Proof.
  intros H. cbv zeta. unfold boot_publish in H. apply bind7_Ret in H as (s0 & s1 & [= <- <-] & H). cbn [id] in H.
  apply bind7_Ret in H as (s2 & [] & H2 & H). apply bind7_Ret in H as (s3 & s4 & [= <- <-] & H). cbn [id] in H.
  pose proof (keeps7_each p_stream_slot _ (sm_pools (p_sub s)) (fun p => keeps_stream_publish p ctx) s) as Hs.
  rewrite H2 in Hs. cbn [fst] in Hs. rewrite Hs in H. destruct (_ && _).
  - by destruct (ready_marks _ _ H) as (-> & -> & _).
  - pose proof (uncertain_down s2) as Hd. rewrite H in Hd. exact Hd.
Qed.

(** C8. A bootstrap declares the plane ready by the slots alone: when the stream breaks, with an RPC error or
    any other, while a bootstrap is at its last phase, the bootstrap that ends afterwards marks the plane
    ready exactly when the last slot seen had reached the snapshot's slot, and that is not 0, although the stream is down;
    the module's contract asks that the stream stayed up. *)
Theorem ready_without_stream err i ctx p :
  err = ARpcError \/ err = AOther ->
  pr_boots p !! i = Some (BPublish ctx) ->
  (boot_publish wall ctx (pr_st (step7 wall err p))).2 = Ret tt ->
  let q := run7 wall [err; ABoot i] p in
  let ok := (ctx <=? p_stream_slot (pr_st p)) && (0 <? ctx) in
  p_ready (pr_st q) = ok /\ p_ready_file (pr_st q) = ok /\ pr_boots q = delete i (pr_boots p).
Proof.
  intros Herr Hi Hret. cbv zeta. unfold run7. cbn [foldl].
  assert (Hk : keeps p_stream_slot stream_lost) by (unfold stream_lost, mark_uncertain7; keep).
  assert (pr_boots (step7 wall err p) = pr_boots p /\ p_stream_slot (pr_st (step7 wall err p)) = p_stream_slot (pr_st p)) as [Hb Hs].
  { destruct Herr as [-> | ->]; (split; [done|]); apply Hk. }
  set (q1 := step7 wall err p) in *. cbn [step7]. rewrite Hb, Hi. cbn [boot_step pr_st].
  unfold bind7. destruct (boot_publish wall ctx (pr_st q1)) as [s' r] eqn:E. cbn [snd] in Hret. subst r.
  destruct (boot_publish_ready ctx _ _ E) as [R1 R2]. rewrite Hs in R1, R2. by split_and!.
Qed.
End readiness.

(** * Witnesses *)

Section examples.

Definition zeros (n : nat) : bytes := replicate n 0.
Definition vault (amount : Z) : bytes := zeros 64 ++ le_enc 8 amount.

(** A ready plane with one Pump pool, its three accounts held from slot 9. *)
Definition plane_ex : st7 :=
  {| p_sub := Submap [("P", [DepRow 7 ROLE_PUMP_POOL Pump false]); ("B", [DepRow 7 ROLE_PUMP_VAULT_BASE Pump false]);
                      ("Q", [DepRow 7 ROLE_PUMP_VAULT_QUOTE Pump false])]%string [PoolRow 7 Pump (Some "P"%string) 1];
     p_bytes := <["P"%string := Write7 "P" 9 1 (zeros 211) 0 None]> (<["B"%string := Write7 "B" 9 1 (vault 1000) 0 None]>
                (<["Q"%string := Write7 "Q" 9 1 (vault 2000) 0 None]> ∅));
     p_acc := {[7 := [("P", ROLE_PUMP_POOL); ("B", ROLE_PUMP_VAULT_BASE); ("Q", ROLE_PUMP_VAULT_QUOTE)]%string]};
     p_stage := ∅; p_updating := ∅; p_since := ∅; p_gen := ∅; p_last_wv := ∅; p_seen := ∅; p_ready := true;
     p_stream_slot := 10; p_boot_slot := 9; p_buf := []; p_bootstrapping := false; p_proto := {[7 := Pump]};
     p_m := fun _ => O; p_rf := []; p_calls := []; p_ready_file := true; p_ticks := O |}.

Definition pump_blob (rb rq : Z) : bytes :=
  match write_pump (PumpRow rb rq 0 20 5 0 0 0) with Ret b => b | Raise _ => [] end.

(** One transaction, signed, writes both vaults in slot 10. *)
Definition tx_writes : list event7 :=
  [Ev7Account (Write7 "B" 10 2 (vault 900) 5 (Some [1])); Ev7Account (Write7 "Q" 10 3 (vault 2200) 6 (Some [1]))].

(** A transaction is not published as one: with a signature on the stage a pool is published at
    each of its writes, so the log holds the base vault after the transaction beside the quote vault before it. *)
Lemma half_transaction_published :
  p_calls (foldl (fun s e => (decode7 (fun _ => 0) e s).1) plane_ex tx_writes) =
    [RInvalidate 2 7 5 10; RAuth 2 7 10 (pump_blob 900 2000); RInvalidate 2 7 6 10; RAuth 2 7 10 (pump_blob 900 2200)].
Proof. vm_compute. reflexivity. Qed.

Lemma published_from_held_witness :
  exists s' blob, publish_pump7 7 10 plane_ex = (s', Ret true) /\ held_blob Pump plane_ex 7 blob /\ p_calls s' = [RAuth 2 7 10 blob].
Proof.
  assert (E : publish_pump7 7 10 plane_ex = ((publish_pump7 7 10 plane_ex).1, Ret true)) by (vm_compute; reflexivity).
  destruct (published_from_held (fun _ => 0) Pump 7 10 _ _ _ E) as (_ & blob & Hh & Hc).
  eexists _, blob. split; [exact E|]. split; [exact Hh|exact Hc].
Defined.

Lemma versions_never_fall_witness :
  0 <= 3 /\ p_last_wv (apply_update7 (Write7 "B" 10 3 (vault 900) 5 None) false plane_ex).1 !! "B"%string = Some 3 /\
  default (-1) (p_last_wv plane_ex !! "B"%string) <= 3.
Proof.
  split; [lia|]. destruct (versions_never_fall (Write7 "B" 10 3 (vault 900) 5 None) false plane_ex) as (H & _ & _); [cbn; lia|].
  split; [vm_compute; reflexivity|]. exact H.
Defined.

(** The plane while its bootstrap is at the last phase. *)
Definition boot_ex : proc := Proc plane_ex true [BPublish 9].

Lemma ready_without_stream_witness : p_ready (pr_st (run7 (fun _ => 0) [ARpcError; ABoot 0] boot_ex)) = true.
Proof.
  exact (proj1 (ready_without_stream (fun _ => 0) ARpcError 0 9 boot_ex (or_introl eq_refl) eq_refl ltac:(vm_compute; reflexivity))).
Defined.

Lemma rpc_error_is_final_witness :
  p_ready (pr_st (run7 (fun _ => 0) [ARpcError; ADecode (Ev7Slot 11); ASlot 12 [] (fun _ => Ret []); ARpcError] (Proc plane_ex true []))) = false.
Proof.
  refine (proj1 (rpc_error_is_final (fun _ => 0) [ADecode (Ev7Slot 11); ASlot 12 [] (fun _ => Ret []); ARpcError] (Proc plane_ex true []) eq_refl eq_refl _)).
  repeat constructor; discriminate.
Defined.
End examples.
